(* ===== verification/_CoqProject ===== *)
-Q . S2P
Prelude.v
Dynbuf.v
Strparse.v
Strcase.v
ToolChunked.v
ChunkedFile.v
ChunkedPool.v
Base64.v
Escape.v
HttpChunks.v
Interfaces.v
Bufq.v
ChunkedReader.v
UintBset.v
UintSpbset.v
UintTable.v
Timeval.v
Splay.v
Ratelimit.v
Llist.v
Expire.v
InetAddr.v
Parsedate.v
Mprintf.v
PrintfSpec.v
PrintfFormat.v
PrintfPieces.v
PrintfDoc.v
PrintfTheorems.v
Urlglob.v
GlobIter.v
GlobParse.v
GlobText.v
GlobTheorems.v
Fnmatch.v
Chains.v
Hash.v
UintHash.v
Protocol.v
Urlapi.v
UrlParse.v
UrlPath.v
UrlSet.v
UrlRules.v
UrlDots.v
UrlPrint.v
UrlHost.v
UrlRef.v
UrlRefine.v
UrlIp6.v
UrlEnc.v
UrlWhole.v
UrlText.v
UrlTrip.v
UrlCases.v
Ws.v
WsConn.v
WsRecv.v
WsRef.v
WsSend.v
WsDecode.v
WsDemo.v
WsWire.v
WsSender.v
WsTheorems.v
WsCases.v
