(* ===== verification/Prelude.v ===== *)
(** Verification of gurl: a fork of curl and libcurl whose command line tool
    downloads large files in parallel byte ranges.

    * The program

    libcurl transfers data with URLs.  An application (or the tool, src/src)
    adds transfers to a multi handle; the multi handle keeps them in a table
    (uint-table.c) and in bit sets by state (uint-bset.c), and their timers in
    a splay tree (splay.c) with one linked list of timeouts per transfer
    (llist.c).  A transfer sends a request and receives a response through
    chains of readers and writers, which buffer in queues (bufq.c), limit
    their speed (ratelimit.c) and convert the data: the chunked transfer
    coding (http_chunks.c) is one such reader and writer.  Strings are built
    in dynamic buffers (dynbuf.c) and taken apart by a set of small parsers
    (strparse.c, strcase.c, escape.c, base64.c).  What the fork adds is
    src/src/tool_chunked.c: the tool asks for the size of a resource, plans
    byte ranges, fetches them in worker threads that hand their data to a
    writer thread, and falls back to one stream where ranges do not work.
    URLs are taken apart and put together by the URL API (urlapi.c), and a
    connection can be turned into a websocket (ws.c), whose decoder is a
    writer and whose encoder is a reader of the transfer.

    * What models what

    The model is a shallow embedding.  A C function is a Rocq function of the
    same name where the language allows it; a struct is a Record; a pointer
    that is only followed is the value, a pointer that is shared or compared is
    an address in a store.  [None] is undefined behaviour (an access outside of
    an object, a NULL pointer, signed overflow) or an exhausted round counter,
    so a theorem with [f x = Some y] also says that none of these happens.
    Unsigned integers wrap where the source computes in them; sizes are those
    of LP64 platforms.  A memory allocation asks an oracle, a list of booleans
    that says which allocations succeed.

    - Prelude.v (this file): result codes of include/curl/curl.h, machine
      integers, character classes of curl_ctype.h, the error monad notation,
      tactics, hints and the lemmas all files share.
    - Dynbuf.v: lib/curlx/dynbuf.c.  [dynbuf_refines_bounded_string]: under
      any allocation failures a buffer is a byte string with an upper bound,
      except where a length is set on a buffer without memory;
      [dyn_addn_outcomes] gives each outcome of an append, errors included.
    - Strparse.v, Strcase.v: lib/curlx/strparse.c, lib/strcase.c,
      lib/strequal.c.  The number parsers read the longest run of digits and
      detect overflow exactly; comparison without case is equality of
      the texts in upper case.
    - ToolChunked.v, ChunkedFile.v, ChunkedPool.v: src/src/tool_chunked.c.  The
      ranges partition a region of at most [PLAN_MAX] bytes and fall short of a
      larger one; every interleaving of the worker threads, the writer thread
      and the driver keeps an invariant, and a download that reports success
      has written the resource, provided that the range requests that
      succeed deliver their range; [chunk_pool_accepts_wrong_body] is a run
      where one does not.
    - Base64.v, Escape.v: lib/curlx/base64.c, lib/escape.c.  Round trips, and
      the decoders against RFC 4648 and percent-decoding.
    - HttpChunks.v, ChunkedReader.v: lib/http_chunks.c.  The decoder against
      the grammar of chunked messages, its independence of how the input is
      cut, its termination; the encoder produces messages that decode to
      the body, and ends.
    - Interfaces.v, Bufq.v: lib/bufq.c, and the class through which the encoder
      uses it.  A queue of chunks is a FIFO of bytes; what goes through it to a
      writer or comes from a reader arrives unchanged.
    - UintBset.v, UintSpbset.v, UintTable.v: lib/uint-bset.c, uint-spbset.c,
      uint-table.c.  Refinements of finite sets and of a finite map.
    - Timeval.v, Splay.v, Llist.v, Expire.v: lib/curlx/timeval.c,
      lib/curlx/timediff.c, lib/splay.c, lib/llist.c and the timers of
      lib/multi.c on top of them.  The tree is a queue ordered by time, a list
      is a sequence, and the timers of a multi handle behave as a map from
      transfers to their timeouts; the wait it asks for is right.
    - Ratelimit.v: lib/ratelimit.c.  The tokens handed out never exceed the
      rate, the wait for a very high debt is the only computation that
      overflows, and waiting as told is enough.
    - InetAddr.v: lib/curlx/inet_pton.c and lib/curlx/inet_ntop.c.  The texts
      read are described by a grammar, the ones written are those of RFC 5952;
      addresses written and read back are the same.
    - Parsedate.v: lib/parsedate.c.  The seconds of a date count the days of the
      calendar before it; dates written in the usual formats are read as
      their time; any string is read without overflow.
    - Mprintf.v (the model), PrintfSpec.v (output as events), PrintfFormat.v
      (formats as pieces), PrintfPieces.v (the parser finds the pieces),
      PrintfDoc.v (the text of docs/libcurl/curl_mprintf.md),
      PrintfTheorems.v: lib/mprintf.c.  A format of pieces prints what the
      pieces render, which is what the manual says where the code follows it;
      well-typed arguments lead to undefined behaviour only where the [int]
      arithmetic on a huge precision overflows; the printing functions agree;
      the parser of formats stays in its arrays.
    - Urlglob.v (the model), GlobIter.v, GlobParse.v, GlobText.v,
      GlobTheorems.v: src/src/tool_urlglob.c.  The parser returns on any text
      and leaves well-formed patterns; the iteration lists their product; a
      glob that is written is read back; references in file names are replaced.
    - Fnmatch.v: lib/curl_fnmatch.c.  The matcher decides the language of a
      pattern, and a pattern written with escapes means what it was written for.
    - Chains.v (chains of entries, shared), Hash.v, UintHash.v: lib/hash.c,
      lib/uint-hash.c.  Both tables are finite maps and destroy each value
      once; the class [HashKey] is what a table asks of its keys, with the
      string keys and the socket keys of lib/multi_ev.c as instances.
    - Protocol.v: lib/protocol.c.  Looking up a scheme is a search of the table.
    - Urlapi.v, UrlParse.v, UrlPath.v, UrlSet.v (the model): lib/urlapi.c and
      [Curl_parse_login_details] of lib/url.c.  A handle is a record of
      strings; the functions are in a monad for allocations and one for a
      handle that changes.  UrlRules.v has the rules of these monads.
      UrlRef.v says what the parser promises, as functions on texts;
      UrlRefine.v, UrlIp6.v, UrlEnc.v and UrlWhole.v prove the parser against
      them part by part ([url_parser_refines]), on UrlPrint.v for the formats it
      prints with.  UrlDots.v: dot segments against RFC 3986.  UrlHost.v:
      numeric hosts against a grammar, and bracketed addresses.  UrlText.v and
      UrlTrip.v: a well-formed handle is got and set again ([url_roundtrip]).
      UrlCases.v: inputs on which the API does not do what it means to.
    - Ws.v, WsConn.v, WsRecv.v (the model): lib/ws.c.  Functions are
      computations over the state of a websocket, and the application and the
      connection are interfaces.  WsRef.v: the framing of RFC 6455 as a
      machine that takes a byte at a time; WsDecode.v: the decoder against
      it ([ws_frames_heard] in WsTheorems.v).  WsSend.v, WsWire.v, WsSender.v:
      what is sent, read by a server ([ws_send_messages]).  WsDemo.v: a small
      world in which the interfaces are met; WsCases.v: cases in which the
      code does not do what it means to.

    * Bounds and fuel

    A loop that is not structural has a round counter, and a lemma shows that
    the counter it starts with is enough: doubling a dynamic buffer, 64 rounds
    (a [size_t] cannot double more often); decoding chunks, 4 times the bytes
    of the input plus 4 (a byte takes at most four state changes); the splay
    tree and the loop over expired timers, the number of nodes (each round goes
    one level down, or takes one node away); lists, their length; dirty
    transfers, the bits of the set; words of a bit set, its words; formats,
    globs and file names, their length (a round takes a byte); the digits of a
    number, 64; dot segments, the length of the path; the numbers of an IPv4
    host, 4; the letters of a scheme, 39; a zone id, 15; the head of a
    websocket frame, 11; the loops that pass data on, the bytes in the queue.
    A call of the websocket functions that waits for the connection has a
    counter of its rounds as a parameter, since how long it waits is for the
    connection to say.  The theorems on whole downloads are for resources of at
    most 2 EiB ([MAX_TOTAL]), half of what the count of pieces can plan.

    * Not modelled

    The transfer state machine and the socket side of lib/multi.c, the
    protocols other than the parts above, TLS, QUIC and SSH back ends, name
    resolution, international domain names, authentication, cookies, the
    request that turns a connection into a websocket, the option parser of
    the tool, and everything that is an interface to the operating system.
    What the modelled code calls of these is a parameter of the definition that
    uses it, with its documented behaviour as a hypothesis: the transfer
    of one byte range, the next reader and writer of a chain, the
    application's callbacks, the clock.

    * Plan

    The next parts to model: the digests (lib/sha256.c, lib/md5.c), then cookies
    (lib/cookie.c) and the queue of header lines (lib/headers.c). *)

From Stdlib Require Import ZArith Lia List Ascii String Sorted.
From stdpp Require Import base numbers option list gmap.
Close Scope nat_scope.
Open Scope Z_scope.

(** * Result codes (include/curl/curl.h) *)

Inductive CURLcode : Set :=
  | CURLE_OK | CURLE_UNSUPPORTED_PROTOCOL | CURLE_FAILED_INIT
  | CURLE_URL_MALFORMAT | CURLE_NOT_BUILT_IN | CURLE_COULDNT_RESOLVE_PROXY
  | CURLE_COULDNT_RESOLVE_HOST | CURLE_COULDNT_CONNECT | CURLE_WEIRD_SERVER_REPLY
  | CURLE_REMOTE_ACCESS_DENIED | CURLE_FTP_ACCEPT_FAILED | CURLE_FTP_WEIRD_PASS_REPLY
  | CURLE_FTP_ACCEPT_TIMEOUT | CURLE_FTP_WEIRD_PASV_REPLY | CURLE_FTP_WEIRD_227_FORMAT
  | CURLE_FTP_CANT_GET_HOST | CURLE_HTTP2 | CURLE_FTP_COULDNT_SET_TYPE
  | CURLE_PARTIAL_FILE | CURLE_FTP_COULDNT_RETR_FILE | CURLE_OBSOLETE20
  | CURLE_QUOTE_ERROR | CURLE_HTTP_RETURNED_ERROR | CURLE_WRITE_ERROR
  | CURLE_OBSOLETE24 | CURLE_UPLOAD_FAILED | CURLE_READ_ERROR
  | CURLE_OUT_OF_MEMORY | CURLE_OPERATION_TIMEDOUT | CURLE_OBSOLETE29
  | CURLE_FTP_PORT_FAILED | CURLE_FTP_COULDNT_USE_REST | CURLE_OBSOLETE32
  | CURLE_RANGE_ERROR | CURLE_OBSOLETE34 | CURLE_SSL_CONNECT_ERROR
  | CURLE_BAD_DOWNLOAD_RESUME | CURLE_FILE_COULDNT_READ_FILE | CURLE_LDAP_CANNOT_BIND
  | CURLE_LDAP_SEARCH_FAILED | CURLE_OBSOLETE40 | CURLE_OBSOLETE41
  | CURLE_ABORTED_BY_CALLBACK | CURLE_BAD_FUNCTION_ARGUMENT | CURLE_OBSOLETE44
  | CURLE_INTERFACE_FAILED | CURLE_OBSOLETE46 | CURLE_TOO_MANY_REDIRECTS
  | CURLE_UNKNOWN_OPTION | CURLE_SETOPT_OPTION_SYNTAX | CURLE_OBSOLETE50
  | CURLE_OBSOLETE51 | CURLE_GOT_NOTHING | CURLE_SSL_ENGINE_NOTFOUND
  | CURLE_SSL_ENGINE_SETFAILED | CURLE_SEND_ERROR | CURLE_RECV_ERROR
  | CURLE_OBSOLETE57 | CURLE_SSL_CERTPROBLEM | CURLE_SSL_CIPHER
  | CURLE_PEER_FAILED_VERIFICATION | CURLE_BAD_CONTENT_ENCODING | CURLE_OBSOLETE62
  | CURLE_FILESIZE_EXCEEDED | CURLE_USE_SSL_FAILED | CURLE_SEND_FAIL_REWIND
  | CURLE_SSL_ENGINE_INITFAILED | CURLE_LOGIN_DENIED | CURLE_TFTP_NOTFOUND
  | CURLE_TFTP_PERM | CURLE_REMOTE_DISK_FULL | CURLE_TFTP_ILLEGAL
  | CURLE_TFTP_UNKNOWNID | CURLE_REMOTE_FILE_EXISTS | CURLE_TFTP_NOSUCHUSER
  | CURLE_OBSOLETE75 | CURLE_OBSOLETE76 | CURLE_SSL_CACERT_BADFILE
  | CURLE_REMOTE_FILE_NOT_FOUND | CURLE_SSH | CURLE_SSL_SHUTDOWN_FAILED
  | CURLE_AGAIN | CURLE_SSL_CRL_BADFILE | CURLE_SSL_ISSUER_ERROR
  | CURLE_FTP_PRET_FAILED | CURLE_RTSP_CSEQ_ERROR | CURLE_RTSP_SESSION_ERROR
  | CURLE_FTP_BAD_FILE_LIST | CURLE_CHUNK_FAILED | CURLE_NO_CONNECTION_AVAILABLE
  | CURLE_SSL_PINNEDPUBKEYNOTMATCH | CURLE_SSL_INVALIDCERTSTATUS | CURLE_HTTP2_STREAM
  | CURLE_RECURSIVE_API_CALL | CURLE_AUTH_ERROR | CURLE_HTTP3
  | CURLE_QUIC_CONNECT_ERROR | CURLE_PROXY | CURLE_SSL_CLIENTCERT
  | CURLE_UNRECOVERABLE_POLL | CURLE_TOO_LARGE | CURLE_ECH_REQUIRED
  | CURL_LAST.

#[global] Instance CURLcode_eq_dec : EqDecision CURLcode.
Proof. solve_decision. Defined.

(** C tests a result with [if(result)]: anything but [CURLE_OK] is an error. *)
Definition is_ok (c : CURLcode) : bool :=
  match c with CURLE_OK => true | _ => false end.

Definition code_eqb (a b : CURLcode) : bool :=
  bool_decide (a = b).

(** The result codes of the URL functions (include/curl/urlapi.h). *)
Inductive CURLUcode :=
  | CURLUE_OK | CURLUE_BAD_HANDLE | CURLUE_BAD_PARTPOINTER | CURLUE_MALFORMED_INPUT | CURLUE_BAD_PORT_NUMBER
  | CURLUE_UNSUPPORTED_SCHEME | CURLUE_URLDECODE | CURLUE_OUT_OF_MEMORY | CURLUE_USER_NOT_ALLOWED
  | CURLUE_UNKNOWN_PART | CURLUE_NO_SCHEME | CURLUE_NO_USER | CURLUE_NO_PASSWORD | CURLUE_NO_OPTIONS | CURLUE_NO_HOST
  | CURLUE_NO_PORT | CURLUE_NO_QUERY | CURLUE_NO_FRAGMENT | CURLUE_NO_ZONEID | CURLUE_BAD_FILE_URL
  | CURLUE_BAD_FRAGMENT | CURLUE_BAD_HOSTNAME | CURLUE_BAD_IPV6 | CURLUE_BAD_LOGIN | CURLUE_BAD_PASSWORD
  | CURLUE_BAD_PATH | CURLUE_BAD_QUERY | CURLUE_BAD_SCHEME | CURLUE_BAD_SLASHES | CURLUE_BAD_USER
  | CURLUE_LACKS_IDN | CURLUE_TOO_LARGE | CURLUE_LAST.

(** * Machine integers

    A [w]-bit unsigned integer is a [Z]; the wrap-around is written where the
    C code computes.  The model fixes the LP64 sizes: [size_t] and
    [curl_off_t] have 64 bits, [unsigned int] and [uint32_t] have 32. *)

Definition u8 (x : Z) : Z := x mod 2 ^ 8.
Definition u32 (x : Z) : Z := x mod 2 ^ 32.
Definition u64 (x : Z) : Z := x mod 2 ^ 64.

(** Conversion to a signed number of 64 bits. *)
Definition s64 (x : Z) : Z := (x + 2 ^ 63) mod 2 ^ 64 - 2 ^ 63.

Definition INT64_MAX : Z := 9223372036854775807.
Definition INT64_MIN : Z := -9223372036854775808.

(** The result of signed 64-bit arithmetic. *)
Definition i64 (z : Z) : option Z :=
  if (INT64_MIN <=? z) && (z <=? INT64_MAX) then Some z else None.

(** The kinds of data for a client writer (lib/sendf.h). *)
Definition CLIENTWRITE_BODY : Z := 1.
Definition CLIENTWRITE_HEADER : Z := 4.
Definition CLIENTWRITE_TRAILER : Z := 64.
Definition CLIENTWRITE_EOS : Z := 128.
Definition CLIENTWRITE_0LEN : Z := 256.

(** [flags & f] as a condition *)
Definition has (flags f : Z) : bool := negb (Z.land flags f =? 0).

(** A plain [char] is signed on the platform. *)
Definition signed_char (b : Z) : Z := if b <? 128 then b else b - 256.

Definition UINT32_MAX : Z := 4294967295.
Definition SIZE_MAX : Z := 18446744073709551615.
Definition INT_MAX : Z := 2147483647.
Definition CURL_OFF_T_MAX : Z := 9223372036854775807.

(** * Bytes and C strings

    A byte is a [Z] in [0,256).  A [const char *] is the list of the bytes
    it points to, up to its terminator: reading past the end of the list
    gives the terminating zero byte. *)

Definition is_byte (b : Z) : Prop := 0 <= b < 256.
Definition bytes_ok (l : list Z) : Prop := Forall is_byte l.

#[global] Instance is_byte_dec b : Decision (is_byte b).
Proof. unfold is_byte. apply _. Defined.

#[global] Instance bytes_ok_dec l : Decision (bytes_ok l).
Proof. unfold bytes_ok. apply _. Defined.

(** A character of a C string. *)
Definition is_char (c : Z) : Prop := 0 < c < 256.

#[global] Instance is_char_dec c : Decision (is_char c).
Proof. unfold is_char. apply _. Defined.

Definition ch (c : ascii) : Z := Z.of_N (N_of_ascii c).

Definition str (s : string) : list Z := map ch (list_ascii_of_string s).

(** [*s] *)
Definition deref (s : list Z) : Z :=
  match s with [] => 0 | c :: _ => c end.

(** [s[i]] *)
Definition at_ (s : list Z) (i : nat) : Z := deref (drop i s).

Fixpoint strlen (s : list Z) : Z :=
  match s with
  | [] => 0
  | c :: s' => if c =? 0 then 0 else 1 + strlen s'
  end.

Definition zlen {A} (l : list A) : Z := Z.of_nat (length l).

Definition ztake {A} (n : Z) (l : list A) : list A := take (Z.to_nat n) l.
Definition zdrop {A} (n : Z) (l : list A) : list A := drop (Z.to_nat n) l.

(** The [n] bytes at offset [off]. *)
Definition slice {A} (l : list A) (off n : Z) : list A := ztake n (zdrop off l).

(** ** Character classes (lib/curl_ctype.h) *)

Definition between (lo x hi : Z) : bool := (lo <=? x) && (x <=? hi).

Definition ISLOWHEXALPHA (x : Z) : bool := between 97 x 102.
Definition ISUPHEXALPHA (x : Z) : bool := between 65 x 70.
Definition ISDIGIT (x : Z) : bool := between 48 x 57.
Definition ISUPPER (x : Z) : bool := between 65 x 90.
Definition ISLOWER (x : Z) : bool := between 97 x 122.
Definition ISALNUM (x : Z) : bool := ISDIGIT x || ISLOWER x || ISUPPER x.
Definition ISXDIGIT (x : Z) : bool :=
  ISDIGIT x || ISLOWHEXALPHA x || ISUPHEXALPHA x.
Definition ISALPHA (x : Z) : bool := ISLOWER x || ISUPPER x.
Definition ISBLANK (x : Z) : bool := (x =? 32) || (x =? 9).
Definition ISURLPUNTCS (x : Z) : bool :=
  (x =? 45) || (x =? 46) || (x =? 95) || (x =? 126).
Definition ISUNRESERVED (x : Z) : bool := ISALNUM x || ISURLPUNTCS x.
Definition ISNEWLINE (x : Z) : bool := (x =? 10) || (x =? 13).

(** * Memory allocation

    [malloc], [calloc] and [realloc] can fail.  An operation that allocates
    takes the outcomes of the coming allocations and returns the ones it did
    not use; once the list is exhausted every allocation succeeds. *)

Definition allocs := list bool.

Definition next_alloc (o : allocs) : bool * allocs :=
  match o with [] => (true, []) | b :: o' => (b, o') end.

(** * Automation *)

(** Turns the boolean comparisons of the hypotheses into propositions. *)
Ltac zb_hyps :=
  repeat match goal with
  | H : (_ && _) = true |- _ => apply andb_true_iff in H as [? ?]
  | H : (_ || _) = false |- _ => apply orb_false_iff in H as [? ?]
  | H : negb _ = true |- _ => apply negb_true_iff in H
  | H : negb _ = false |- _ => apply negb_false_iff in H
  | H : (_ <? _) = true |- _ => apply Z.ltb_lt in H
  | H : (_ <? _) = false |- _ => apply Z.ltb_ge in H
  | H : (_ <=? _) = true |- _ => apply Z.leb_le in H
  | H : (_ <=? _) = false |- _ => apply Z.leb_gt in H
  | H : (_ =? _) = true |- _ => apply Z.eqb_eq in H
  | H : (_ =? _) = false |- _ => apply Z.eqb_neq in H
  | H : (_ >? _) = true |- _ => rewrite Z.gtb_ltb in H
  | H : (_ >? _) = false |- _ => rewrite Z.gtb_ltb in H
  | H : (_ >=? _) = true |- _ => rewrite Z.geb_leb in H
  | H : (_ >=? _) = false |- _ => rewrite Z.geb_leb in H
  end.

(** Splits on the condition of an [if] of the goal. *)
Ltac case_if :=
  match goal with
  | |- context [if ?b then _ else _] =>
      lazymatch b with
      | context [if _ then _ else _] => fail
      | _ => let E := fresh "E" in destruct b eqn:E; zb_hyps
      end
  end.

(** Splits on the condition of an [if] of a hypothesis. *)
Ltac case_if_in H :=
  match type of H with
  | context [if ?b then _ else _] =>
      lazymatch b with
      | context [if _ then _ else _] => fail
      | _ => let E := fresh "E" in destruct b eqn:E; zb_hyps
      end
  end.

(** [lia] with the quotients and remainders of the goal. *)
Ltac dlia := Z.to_euclidean_division_equations; lia.

(** Decides a decidable closed goal by evaluation. *)
Ltac by_compute := apply (bool_decide_unpack _); vm_compute; exact I.

Create HintDb gurl discriminated.
Create Rewrite HintDb gurl.

(** * Shared lemmas *)

Lemma is_ok_iff c : is_ok c = true <-> c = CURLE_OK.
Proof. destruct c; cbn; split; congruence. Qed.

Lemma is_ok_false c : is_ok c = false <-> c <> CURLE_OK.
Proof. rewrite <- is_ok_iff. destruct (is_ok c); split; congruence. Qed.

(** A failing allocation is one of the list. *)
Lemma next_alloc_fails o b o' : next_alloc o = (b, o') ->
  (b = false -> false ∈ o) /\ (false ∈ o' -> false ∈ o).
Proof.
  destruct o as [|c o]; cbn; intros [= <- <-]; [done|].
  split; [intros ->; left|by right].
Qed.

Lemma u64_small x : 0 <= x <= SIZE_MAX -> u64 x = x.
Proof. intros H. apply Z.mod_small. unfold SIZE_MAX in H. lia. Qed.

Lemma u32_small x : 0 <= x <= UINT32_MAX -> u32 x = x.
Proof. intros H. apply Z.mod_small. unfold UINT32_MAX in H. lia. Qed.

Lemma u8_small x : is_byte x -> u8 x = x.
Proof. intros H. apply Z.mod_small. unfold is_byte in H. lia. Qed.

Lemma zlen_nonneg {A} (l : list A) : 0 <= zlen l.
Proof. unfold zlen. lia. Qed.

Lemma zlen_app {A} (l k : list A) : zlen (l ++ k) = zlen l + zlen k.
Proof. unfold zlen. rewrite length_app. lia. Qed.

Lemma zlen_cons {A} (x : A) l : zlen (x :: l) = 1 + zlen l.
Proof. unfold zlen. cbn [length]. lia. Qed.

Lemma zlen_nil {A} : zlen (@nil A) = 0.
Proof. reflexivity. Qed.

Lemma zlen_snoc {A} (l : list A) x : zlen (l ++ [x]) = zlen l + 1.
Proof. apply zlen_app. Qed.

Lemma zlen_0 {A} (l : list A) : zlen l = 0 -> l = [].
Proof. destruct l; [done|]. rewrite zlen_cons. pose proof (zlen_nonneg l). lia. Qed.

Lemma zlen_ztake {A} n (l : list A) :
  0 <= n -> zlen (ztake n l) = Z.min n (zlen l).
Proof. intros. unfold zlen, ztake. rewrite length_take. lia. Qed.

Lemma zlen_zdrop {A} n (l : list A) :
  0 <= n -> zlen (zdrop n l) = Z.max 0 (zlen l - n).
Proof. intros. unfold zlen, zdrop. rewrite length_drop. lia. Qed.

Lemma ztake_zdrop {A} n (l : list A) : ztake n l ++ zdrop n l = l.
Proof. apply take_drop. Qed.

Lemma ztake_ge {A} n (l : list A) : zlen l <= n -> ztake n l = l.
Proof. intros. apply take_ge. unfold zlen in *. lia. Qed.

Lemma zdrop_ge {A} n (l : list A) : zlen l <= n -> zdrop n l = [].
Proof. intros. apply drop_ge. unfold zlen in *. lia. Qed.

Lemma ztake_0 {A} (l : list A) : ztake 0 l = [].
Proof. done. Qed.

Lemma zdrop_0 {A} (l : list A) : zdrop 0 l = l.
Proof. done. Qed.

Lemma ztake_app_exact {A} (l k : list A) : ztake (zlen l) (l ++ k) = l.
Proof. unfold ztake, zlen. rewrite Nat2Z.id. apply take_app_length. Qed.

Lemma zdrop_app_exact {A} (l k : list A) : zdrop (zlen l) (l ++ k) = k.
Proof. unfold zdrop, zlen. rewrite Nat2Z.id. apply drop_app_length. Qed.

Lemma zdrop_zdrop {A} a b (l : list A) :
  0 <= a -> 0 <= b -> zdrop a (zdrop b l) = zdrop (a + b) l.
Proof. intros. unfold zdrop. rewrite drop_drop. f_equal. lia. Qed.

Lemma ztake_ztake {A} a b (l : list A) :
  0 <= a <= b -> ztake a (ztake b l) = ztake a l.
Proof. intros. unfold ztake. rewrite take_take. f_equal. lia. Qed.

Lemma zlen_slice {A} (l : list A) off n :
  0 <= off -> 0 <= n -> off + n <= zlen l -> zlen (slice l off n) = n.
Proof. intros. unfold slice. rewrite zlen_ztake, zlen_zdrop by lia. lia. Qed.

Lemma slice_split {A} (l : list A) off a b :
  0 <= off -> 0 <= a -> 0 <= b ->
  slice l off (a + b) = slice l off a ++ slice l (off + a) b.
Proof.
  intros. unfold slice, ztake, zdrop.
  replace (Z.to_nat (off + a)) with (Z.to_nat off + Z.to_nat a)%nat by lia.
  rewrite <- drop_drop, take_take_drop. f_equal. lia.
Qed.

Lemma slice_lookup {A} (l : list A) off n i :
  0 <= off -> 0 <= i < n ->
  slice l off n !! Z.to_nat i = l !! Z.to_nat (off + i).
Proof.
  intros. unfold slice, ztake, zdrop.
  rewrite lookup_take_lt by lia. rewrite lookup_drop. f_equal. lia.
Qed.

Lemma strlen_nonzero s : Forall (fun c => c <> 0) s -> strlen s = zlen s.
Proof.
  induction 1 as [|c s Hc _ IH]; [done|]. cbn [strlen]. rewrite zlen_cons.
  case_if; [done|]. lia.
Qed.

Lemma zlen_map {A B} (f : A -> B) l : zlen (map f l) = zlen l.
Proof. unfold zlen. by rewrite length_map. Qed.

Lemma zlen_replicate {A} n (x : A) : 0 <= n -> zlen (replicate (Z.to_nat n) x) = n.
Proof. intros. unfold zlen. rewrite length_replicate. lia. Qed.

(** Splits a list at a position inside it. *)
Lemma list_split_at {A} (l : list A) n :
  0 <= n <= zlen l -> exists k r, l = k ++ r /\ zlen k = n.
Proof.
  intros H. exists (ztake n l), (zdrop n l).
  rewrite ztake_zdrop, zlen_ztake by lia. split; [done|lia].
Qed.

Lemma bytes_ok_app l k : bytes_ok (l ++ k) <-> bytes_ok l /\ bytes_ok k.
Proof. apply Forall_app. Qed.

#[export] Hint Rewrite @zlen_app @zlen_cons @zlen_nil @length_app @app_nil_r
  : gurl.
#[export] Hint Resolve zlen_nonneg : gurl.

(** A property of bytes is decided by checking the 256 of them. *)
Lemma byte_forall (P : Z -> bool) :
  forallb P (map Z.of_nat (seq 0 256)) = true -> forall b, is_byte b -> P b = true.
Proof.
  intros H b Hb. rewrite forallb_forall in H. apply H.
  unfold is_byte in Hb. apply in_map_iff. exists (Z.to_nat b). split; [lia|].
  apply in_seq. lia.
Qed.

(** ** Sorted lists *)

(** A sorted list around one of its elements; [R] need not be transitive. *)
Lemma sorted_mid {A} (R : A -> A -> Prop) l1 c l2 : StronglySorted R (l1 ++ c :: l2) <->
  StronglySorted R l1 /\ StronglySorted R l2 /\
  Forall (fun d => R d c) l1 /\ Forall (R c) l2 /\
  (forall d e, d ∈ l1 -> e ∈ l2 -> R d e).
Proof.
  induction l1 as [|d l1 IH]; cbn [app].
  - split.
    + intros H. apply StronglySorted_inv in H as [H1 H2]. split; [constructor|]. split; [done|].
      split; [constructor|]. split; [done|]. intros e f He. by apply elem_of_nil in He.
    + intros (_ & H1 & _ & H2 & _). by constructor.
  - split.
    + intros H. apply StronglySorted_inv in H as [H1 H2].
      apply IH in H1 as (H3 & H4 & H5 & H6 & H7). apply Forall_app in H2 as [H8 H9].
      apply Forall_cons in H9 as [H9 H10]. split; [by constructor|]. split; [done|].
      split; [by constructor|]. split; [done|]. intros e f [->|He]%elem_of_cons Hf.
      * rewrite Forall_forall in H10. by apply H10.
      * by apply H7.
    + intros (H1 & H2 & H3 & H4 & H5). apply StronglySorted_inv in H1 as [H1 H6].
      apply Forall_cons in H3 as [H3 H7]. constructor.
      * apply IH. split; [done|]. split; [done|]. split; [done|]. split; [done|].
        intros e f He. apply H5. by right.
      * apply Forall_app. split; [done|]. constructor; [done|]. apply Forall_forall.
        intros f Hf. apply H5; [left|done].
Qed.

Lemma sorted_suffix {A} (R : A -> A -> Prop) l k : StronglySorted R (l ++ k) -> StronglySorted R k.
Proof.
  induction l as [|x l IH]; [done|]. cbn. intros H. apply StronglySorted_inv in H as [H _]. by apply IH.
Qed.

(** ** Bit operations as arithmetic *)

Lemma testbit_high v n i : 0 <= v < 2 ^ n -> n <= i -> Z.testbit v i = false.
Proof.
  intros Hv Hi. destruct (Z.lt_ge_cases n 0) as [Hn|Hn].
  { rewrite Z.pow_neg_r in Hv; lia. }
  rewrite <- (Z.mod_small v (2 ^ n)) by done. apply Z.mod_pow2_bits_high. lia.
Qed.

Lemma land_shiftl_low x n v : 0 <= n -> 0 <= v < 2 ^ n -> Z.land (Z.shiftl x n) v = 0.
Proof.
  intros Hn Hv. apply Z.bits_inj'. intros i Hi. rewrite Z.land_spec, Z.bits_0.
  destruct (Z.lt_ge_cases i n).
  - rewrite Z.shiftl_spec_low by lia. done.
  - rewrite (testbit_high v n i), andb_false_r by done. done.
Qed.

(** Shifting in [n] bits. *)
Lemma lor_shiftl_add x n v :
  0 <= n -> 0 <= v < 2 ^ n -> Z.lor (Z.shiftl x n) v = x * 2 ^ n + v.
Proof.
  intros Hn Hv. pose proof (Z.add_lor_land (Z.shiftl x n) v) as H.
  rewrite land_shiftl_low, Z.shiftl_mul_pow2 in H by done.
  rewrite Z.shiftl_mul_pow2 by done. lia.
Qed.

(** A mask of [n] one bits. *)
Lemma land_mask x n : 0 <= n -> Z.land x (2 ^ n - 1) = x mod 2 ^ n.
Proof.
  intros. replace (2 ^ n - 1) with (Z.ones n).
  - by apply Z.land_ones.
  - rewrite Z.ones_equiv. lia.
Qed.

Lemma u64_range x : 0 <= u64 x <= SIZE_MAX.
Proof. unfold u64, SIZE_MAX. pose proof (Z.mod_pos_bound x (2 ^ 64)). lia. Qed.

Lemma u32_range x : 0 <= u32 x <= UINT32_MAX.
Proof. unfold u32, UINT32_MAX. pose proof (Z.mod_pos_bound x (2 ^ 32)). lia. Qed.

(** Knows that lengths are not negative. *)
Ltac zlen_pos :=
  repeat match goal with
  | _ : context [zlen ?l] |- _ =>
      lazymatch goal with
      | _ : 0 <= zlen l |- _ => fail
      | _ => pose proof (zlen_nonneg l)
      end
  | |- context [zlen ?l] =>
      lazymatch goal with
      | _ : 0 <= zlen l |- _ => fail
      | _ => pose proof (zlen_nonneg l)
      end
  end.

Ltac zlen_nils :=
  repeat match goal with
  | |- context [@zlen ?A (@nil ?A)] => change (@zlen A (@nil A)) with 0
  | H : context [@zlen ?A (@nil ?A)] |- _ => change (@zlen A (@nil A)) with 0 in H
  end.

(** [lia] with the lengths of concatenations. *)
Ltac zlia :=
  repeat (progress rewrite ?zlen_app, ?zlen_cons, ?zlen_map in *);
  zlen_nils; zlen_pos; lia.

Lemma char_nonzero l : Forall is_char l -> Forall (fun c => c <> 0) l.
Proof. intros H. eapply Forall_impl; [exact H|]. unfold is_char. lia. Qed.
