(* ===== verification/Dynbuf.v ===== *)
(** Dynamic buffers, lib/curlx/dynbuf.c and dynbuf.h.

    The [struct dynbuf] with its allocation as a block of memory cells: a
    cell is [None] until something is stored in it.  Every access to the
    block is checked, an access outside it (or through a NULL [bufr]) makes
    the operation [None].  [dyn_rep s c] says that [s] is a well-formed
    buffer that holds the bytes [c]; each operation is specified against it. *)

From Stdlib Require Import ZArith Lia List.
From stdpp Require Import base numbers option list.
From S2P Require Import Prelude.
Open Scope Z_scope.

(** * Memory blocks *)

Abbreviation mem := (list (option Z)).

(** [memcpy(&m[i], bs, n)], undefined outside the block. *)
Definition mem_write (m : mem) (i : Z) (bs : list Z) : option mem :=
  if (0 <=? i) && (i + zlen bs <=? zlen m) then
    Some (ztake i m ++ map Some bs ++ zdrop (i + zlen bs) m)
  else None.

(** [memcpy(out, &m[i], n)]: the cells read must have been stored to. *)
Definition mem_read (m : mem) (i n : Z) : option (list Z) :=
  if (0 <=? i) && (i + n <=? zlen m) then mapM id (slice m i n) else None.

(** [realloc(p, a)] that succeeds: the first bytes are kept, the rest of the
    block is indeterminate. *)
Definition mem_realloc (p : option mem) (a : Z) : mem :=
  let old := ztake a (default [] p) in
  old ++ replicate (Z.to_nat (a - zlen old)) None.

(** * The buffer *)

Record dynbuf := mk_dynbuf {
  bufr : option mem;
  leng : Z;
  allc : Z;
  toobig : Z
}.

Definition MIN_FIRST_ALLOC : Z := 32.
(** [SIZE_MAX / 2] *)
Definition MAX_DYNBUF_SIZE : Z := 9223372036854775807.

Definition curlx_dyn_init (toobig : Z) : dynbuf :=
  mk_dynbuf None 0 0 toobig.

Definition curlx_dyn_free (s : dynbuf) : dynbuf :=
  mk_dynbuf None 0 0 (toobig s).

(** [while(a < fit) a *= 2;] at the width of [size_t].  A doubling that has
    not reached [fit] after 64 rounds has wrapped to zero and never will:
    [None] is the loop that does not end. *)
Fixpoint dyn_grow (fuel : nat) (a fit : Z) : option Z :=
  if a <? fit then
    match fuel with
    | O => None
    | S fuel => dyn_grow fuel (u64 (a * 2)) fit
    end
  else Some a.

(** The allocation size chosen for [fit] bytes. *)
Definition dyn_alloc_size (s : dynbuf) (fit : Z) : option Z :=
  if allc s =? 0 then
    if MIN_FIRST_ALLOC >? toobig s then Some (toobig s)
    else if fit <? MIN_FIRST_ALLOC then Some MIN_FIRST_ALLOC
    else Some fit
  else
    a ← dyn_grow 64 (allc s) fit;
    Some (if a >? toobig s then toobig s else a).

(** The stores at the end of [dyn_nappend]. *)
Definition dyn_store (s : dynbuf) (idx : Z) (b : list Z) : option dynbuf :=
  m ← bufr s;
  m ← (if zlen b =? 0 then Some m else mem_write m idx b);
  m ← mem_write m (u64 (idx + zlen b)) [0];
  Some (mk_dynbuf (Some m) (u64 (idx + zlen b)) (allc s) (toobig s)).

Definition dyn_nappend (s : dynbuf) (b : list Z) (o : allocs)
  : option (dynbuf * CURLcode * allocs) :=
  let idx := leng s in
  let fit := u64 (zlen b + idx + 1) in
  if fit >? toobig s then Some (curlx_dyn_free s, CURLE_TOO_LARGE, o)
  else
    a ← dyn_alloc_size s fit;
    if negb (a =? allc s) then
      let '(ok, o) := next_alloc o in
      if negb ok then Some (curlx_dyn_free s, CURLE_OUT_OF_MEMORY, o)
      else
        s' ← dyn_store (mk_dynbuf (Some (mem_realloc (bufr s) a)) (leng s) a
                                  (toobig s)) idx b;
        Some (s', CURLE_OK, o)
    else
      s' ← dyn_store s idx b;
      Some (s', CURLE_OK, o).

Definition curlx_dyn_reset (s : dynbuf) : option dynbuf :=
  if leng s =? 0 then Some (mk_dynbuf (bufr s) 0 (allc s) (toobig s))
  else
    m ← bufr s;
    m ← mem_write m 0 [0];
    Some (mk_dynbuf (Some m) 0 (allc s) (toobig s)).

Definition curlx_dyn_tail (s : dynbuf) (trail : Z) : option (dynbuf * CURLcode) :=
  if trail >? leng s then Some (s, CURLE_BAD_FUNCTION_ARGUMENT)
  else if trail =? leng s then Some (s, CURLE_OK)
  else if trail =? 0 then
    s' ← curlx_dyn_reset s;
    Some (s', CURLE_OK)
  else
    m ← bufr s;
    b ← mem_read m (leng s - trail) trail;
    m ← mem_write m 0 b;
    m ← mem_write m trail [0];
    Some (mk_dynbuf (Some m) trail (allc s) (toobig s), CURLE_OK).

Definition curlx_dyn_addn (s : dynbuf) (b : list Z) (o : allocs)
  : option (dynbuf * CURLcode * allocs) :=
  dyn_nappend s b o.

(** The argument is a C string: its bytes up to the terminator are added. *)
Definition curlx_dyn_add (s : dynbuf) (st : list Z) (o : allocs)
  : option (dynbuf * CURLcode * allocs) :=
  let n := strlen st in
  dyn_nappend s (ztake n st) o.

Definition curlx_dyn_ptr (s : dynbuf) : option mem := bufr s.

Definition curlx_dyn_uptr (s : dynbuf) : option mem := bufr s.

Definition curlx_dyn_take (s : dynbuf) : option mem * Z * dynbuf :=
  (bufr s, leng s, mk_dynbuf None 0 0 (toobig s)).

Definition curlx_dyn_len (s : dynbuf) : Z := leng s.

Definition curlx_dyn_setlen (s : dynbuf) (set : Z) : option (dynbuf * CURLcode) :=
  if set >? leng s then Some (s, CURLE_BAD_FUNCTION_ARGUMENT)
  else
    m ← bufr s;
    m ← mem_write m set [0];
    Some (mk_dynbuf (Some m) set (allc s) (toobig s), CURLE_OK).

(** * C strings in memory *)

(** [strlen] of what is stored at [m[i]]: undefined when no NUL is. *)
Fixpoint mem_strlen (m : mem) : option Z :=
  match m with
  | Some c :: m => if c =? 0 then Some 0 else n ← mem_strlen m; Some (1 + n)
  | _ => None
  end.

(** The C string at the start of a block. *)
Definition mem_text (m : mem) : option (list Z) := n ← mem_strlen m; mem_read m 0 n.

(** The text of a C string that a buffer holds, or of [""]. *)
Definition dyn_text (b : dynbuf) : option (list Z) :=
  match curlx_dyn_ptr b with
  | None => Some []
  | Some m => mem_text m
  end.

(** * What a buffer holds *)

Definition dyn_rep (s : dynbuf) (c : list Z) : Prop :=
  leng s = zlen c /\ 0 < toobig s <= MAX_DYNBUF_SIZE /\
  match bufr s with
  | None => c = [] /\ allc s = 0
  | Some m =>
      zlen m = allc s /\ allc s <= toobig s /\
      exists rest, m = map Some c ++ Some 0 :: rest
  end.

(** The bytes of the buffer, computed. *)
Definition dyn_bytes (s : dynbuf) : option (list Z) :=
  match bufr s with
  | None => Some []
  | Some m => mem_read m 0 (leng s)
  end.

(** The outcome of adding [b] to a buffer that holds [c]. *)
Definition dyn_add_spec (s : dynbuf) (c b : list Z) (s' : dynbuf)
    (r : CURLcode) : Prop :=
  toobig s' = toobig s /\
  (r = CURLE_OK /\ zlen c + zlen b + 1 <= toobig s /\
     dyn_rep s' (c ++ b) /\ bufr s' <> None
   \/ r = CURLE_TOO_LARGE /\ toobig s < zlen c + zlen b + 1 /\
     dyn_rep s' [] /\ bufr s' = None
   \/ r = CURLE_OUT_OF_MEMORY /\ zlen c + zlen b + 1 <= toobig s /\
     dyn_rep s' [] /\ bufr s' = None).

(** * Lemmas on memory blocks *)

(** A store that falls inside the block replaces the cells it covers. *)
Lemma mem_write_mid (p old r : mem) b :
  zlen old = zlen b ->
  mem_write (p ++ old ++ r) (zlen p) b = Some (p ++ map Some b ++ r).
Proof.
  intros H. unfold mem_write. pose proof (zlen_nonneg p).
  pose proof (zlen_nonneg r). rewrite !zlen_app.
  replace (0 <=? zlen p) with true by (symmetry; apply Z.leb_le; lia).
  replace (_ <=? _) with true by (symmetry; apply Z.leb_le; lia).
  cbn [andb]. rewrite ztake_app_exact, <- H.
  rewrite (app_assoc p old r), <- (zlen_app p old), zdrop_app_exact. done.
Qed.

Lemma mem_write_at (m p old r : mem) i b :
  m = p ++ old ++ r -> zlen p = i -> zlen old = zlen b ->
  mem_write m i b = Some (p ++ map Some b ++ r).
Proof. intros -> <- H. by apply mem_write_mid. Qed.

Lemma mem_write_app (m p old r : mem) i bs k :
  m = p ++ old ++ r -> zlen p = i -> zlen old = zlen bs -> k = p ++ map Some bs ->
  mem_write m i bs = Some (k ++ r).
Proof.
  intros -> ? ? ->. rewrite <- app_assoc. by apply mem_write_at with (old := old).
Qed.

Lemma mapM_id_map_Some {A} (l : list A) : mapM id (map Some l) = Some l.
Proof. induction l as [|x l IH]; [done|]. cbn in *. by rewrite IH. Qed.

Lemma mem_read_mid (p r : mem) c :
  mem_read (p ++ map Some c ++ r) (zlen p) (zlen c) = Some c.
Proof.
  unfold mem_read. pose proof (zlen_nonneg p). pose proof (zlen_nonneg r).
  rewrite !zlen_app, zlen_map.
  replace (0 <=? zlen p) with true by (symmetry; apply Z.leb_le; lia).
  replace (_ <=? _) with true by (symmetry; apply Z.leb_le; lia).
  cbn [andb]. unfold slice. rewrite zdrop_app_exact.
  rewrite <- (zlen_map Some c), ztake_app_exact. apply mapM_id_map_Some.
Qed.

(** Growing a block keeps the cells it had. *)
Lemma mem_realloc_grow (m : mem) a :
  zlen m <= a -> exists rest,
  mem_realloc (Some m) a = m ++ rest /\ zlen m + zlen rest = a.
Proof.
  intros H. unfold mem_realloc. cbn. rewrite ztake_ge by lia.
  eexists. split; [done|]. pose proof (zlen_nonneg m).
  rewrite zlen_replicate by lia. lia.
Qed.

Lemma mem_realloc_fresh a : 0 <= a -> zlen (mem_realloc None a) = a.
Proof.
  intros. unfold mem_realloc, ztake. cbn.
  rewrite take_nil, zlen_app, zlen_nil, zlen_replicate by lia. lia.
Qed.

(** * The growth loop *)

(** Doubling from [a] reaches [fit] before [size_t] can wrap. *)
Lemma dyn_grow_total fuel a fit :
  0 < a -> fit <= a * 2 ^ Z.of_nat fuel -> fit <= MAX_DYNBUF_SIZE ->
  a <= MAX_DYNBUF_SIZE ->
  exists a', dyn_grow fuel a fit = Some a' /\ a <= a' /\ fit <= a'.
Proof.
  revert a; induction fuel as [|fuel IH]; intros a Ha Hf Hm Ham; cbn [dyn_grow].
  - rewrite Z.mul_1_r in Hf.
    replace (a <? fit) with false by (symmetry; apply Z.ltb_ge; lia).
    exists a. split_and!; (done || lia).
  - case_if; [|exists a; split_and!; (done || lia)].
    assert (Hw : u64 (a * 2) = a * 2).
    { apply u64_small. unfold MAX_DYNBUF_SIZE, SIZE_MAX in *. lia. }
    rewrite Hw. destruct (Z.le_gt_cases (a * 2) MAX_DYNBUF_SIZE) as [Hle|Hgt].
    + destruct (IH (a * 2)) as (a' & -> & ? & ?); try lia.
      { rewrite Nat2Z.inj_succ, Z.pow_succ_r in Hf by lia. lia. }
      exists a'. split_and!; (done || lia).
    + exists (a * 2). split_and!; try lia; try done. destruct fuel; cbn [dyn_grow];
      by replace (a * 2 <? fit) with false by (symmetry; apply Z.ltb_ge; lia).
Qed.

Lemma dyn_alloc_size_ok s c fit :
  dyn_rep s c -> zlen c < fit <= toobig s ->
  exists a, dyn_alloc_size s fit = Some a /\ fit <= a <= toobig s /\
            allc s <= a.
Proof.
  intros (Hl & Ht & Hb) Hf. unfold dyn_alloc_size. pose proof (zlen_nonneg c).
  destruct (bufr s) as [m|].
  - destruct Hb as (Hm & Ha & rest & ->).
    assert (0 < allc s).
    { rewrite <- Hm, zlen_app, zlen_cons, zlen_map. pose proof (zlen_nonneg rest). lia. }
    replace (allc s =? 0) with false by (symmetry; apply Z.eqb_neq; lia).
    destruct (dyn_grow_total 64 (allc s) fit) as (a & -> & ? & ?); try lia.
    { unfold MAX_DYNBUF_SIZE, SIZE_MAX in *. lia. }
    cbn. eexists. split; [done|]. case_if; lia.
  - destruct Hb as [-> Ha]. rewrite Ha. cbn [Z.eqb].
    unfold MIN_FIRST_ALLOC. repeat case_if; eexists; (split; [done|lia]).
Qed.

(** * Operations against the contents *)

(** Opens [dyn_rep] of a buffer that is written out. *)
Ltac dyn_split := unfold dyn_rep; cbn [bufr leng allc toobig curlx_dyn_init
  curlx_dyn_free]; repeat apply conj; try done; try lia.

Lemma dyn_init_rep n : 0 < n <= MAX_DYNBUF_SIZE -> dyn_rep (curlx_dyn_init n) [].
Proof. intros. dyn_split. Qed.

Lemma dyn_free_rep s c : dyn_rep s c -> dyn_rep (curlx_dyn_free s) [].
Proof. intros (? & ? & ?). dyn_split. Qed.

Lemma dyn_rep_bytes s c : dyn_rep s c -> dyn_bytes s = Some c.
Proof.
  intros (Hl & _ & Hb). unfold dyn_bytes. destruct (bufr s) as [m|].
  - destruct Hb as (_ & _ & rest & ->). rewrite Hl.
    apply (mem_read_mid [] (Some 0 :: rest) c).
  - by destruct Hb as [-> _].
Qed.

Lemma dyn_rep_len s c : dyn_rep s c -> curlx_dyn_len s = zlen c.
Proof. by intros (? & _). Qed.

Lemma dyn_rep_lt s c : dyn_rep s c -> zlen c < toobig s.
Proof.
  intros (Hl & Ht & Hb). destruct (bufr s) as [m|].
  - destruct Hb as (Hm & Ha & rest & ->). pose proof (zlen_nonneg rest).
    rewrite zlen_app, zlen_map, zlen_cons in Hm. lia.
  - destruct Hb as [-> _]. rewrite zlen_nil. lia.
Qed.

(** Storing [b] and the terminator behind the contents of a block that has
    room for them. *)
Lemma dyn_store_ok (m r : mem) c b a t :
  m = map Some c ++ r -> zlen c + zlen b + 1 <= zlen m -> zlen m = a ->
  a <= t -> 0 < t <= MAX_DYNBUF_SIZE ->
  exists s', dyn_store (mk_dynbuf (Some m) (zlen c) a t) (zlen c) b = Some s' /\
    dyn_rep s' (c ++ b) /\ toobig s' = t /\ bufr s' <> None.
Proof.
  intros -> Hfit Hm Ha Ht. unfold dyn_store. cbn [bufr allc toobig mbind option_bind].
  pose proof (zlen_nonneg c). pose proof (zlen_nonneg b).
  rewrite zlen_app, zlen_map in *.
  destruct (list_split_at r (zlen b)) as (old & r1 & -> & Hold); [lia|].
  rewrite zlen_app in *.
  destruct r1 as [|x rest]; [rewrite zlen_nil in *; lia|].
  assert (Hw : (if zlen b =? 0 then Some (map Some c ++ old ++ x :: rest)
                else mem_write (map Some c ++ old ++ x :: rest) (zlen c) b)
               = Some (map Some (c ++ b) ++ [x] ++ rest)).
  { rewrite map_app, <- app_assoc. case_if.
    - apply zlen_0 in E as ->. by apply zlen_0 in Hold as ->.
    - apply mem_write_at with (old := old); [done| |done]. apply zlen_map. }
  rewrite Hw. cbn [mbind option_bind].
  rewrite u64_small by (unfold MAX_DYNBUF_SIZE, SIZE_MAX in *; lia).
  erewrite mem_write_at; [|done| |done].
  2: { rewrite zlen_map, zlen_app. done. }
  eexists. split; [done|]. split; [|done]. split; [by rewrite zlen_app|].
  split; [done|]. cbn [bufr allc toobig]. split; [|split; [done|by eexists]].
  rewrite zlen_cons in *. rewrite !zlen_app, !zlen_map, zlen_app, zlen_cons, zlen_nil.
  lia.
Qed.

Lemma dyn_nappend_spec s c b o :
  dyn_rep s c -> zlen b <= MAX_DYNBUF_SIZE ->
  exists s' r o', dyn_nappend s b o = Some (s', r, o') /\ dyn_add_spec s c b s' r.
Proof.
  intros Hrep Hb. pose proof (dyn_rep_lt _ _ Hrep) as Hlt.
  pose proof Hrep as (Hl & Ht & Hmem). unfold dyn_nappend. rewrite Hl.
  pose proof (zlen_nonneg c). pose proof (zlen_nonneg b).
  rewrite u64_small by (unfold MAX_DYNBUF_SIZE, SIZE_MAX in *; lia).
  rewrite Z.gtb_ltb. case_if.
  { do 3 eexists. split; [done|]. split; [done|]. right; left.
    dyn_split. }
  destruct (dyn_alloc_size_ok s c (zlen b + zlen c + 1) Hrep) as (a & -> & Ha & Hge);
    [lia|].
  cbn [mbind option_bind]. destruct (a =? allc s) eqn:Ea; cbn [negb]; zb_hyps.
  - destruct (bufr s) as [m|] eqn:Em; [|lia].
    destruct Hmem as (Hm & _ & rest & Hrest).
    destruct (dyn_store_ok m (Some 0 :: rest) c b a (toobig s))
      as (s' & Hs & Hr & Htb & Hn); try (subst; done); try lia.
    replace (mk_dynbuf (Some m) (zlen c) a (toobig s)) with s in Hs
      by (destruct s; cbn in *; congruence).
    rewrite Hs. do 3 eexists. split; [done|]. split; [done|]. left.
    split_and!; done || lia.
  - destruct (next_alloc o) as [ok o']. destruct ok; cbn [negb].
    2: { do 3 eexists. split; [done|]. split; [done|]. right; right.
         dyn_split. }
    assert (exists r, mem_realloc (bufr s) a = map Some c ++ r /\
                      zlen (mem_realloc (bufr s) a) = a) as (r & Hr & Hra).
    { destruct (bufr s) as [m|].
      - destruct Hmem as (Hm & _ & rest & ->).
        destruct (mem_realloc_grow (map Some c ++ Some 0 :: rest) a) as (r & -> & Hr);
          [lia|]. rewrite <- app_assoc, zlen_app in *. eexists. split; [done|].
        rewrite zlen_app in *. lia.
      - destruct Hmem as [-> _]. eexists. split; [done|].
        apply mem_realloc_fresh. lia. }
    destruct (dyn_store_ok _ r c b a (toobig s) Hr) as (s' & -> & Hs & Htb & Hn);
      try lia.
    do 3 eexists. split; [done|]. split; [done|]. left.
    split_and!; done || lia.
Qed.

Lemma dyn_reset_rep s c :
  dyn_rep s c -> exists s', curlx_dyn_reset s = Some s' /\ dyn_rep s' [] /\
    toobig s' = toobig s /\ (bufr s' = None <-> bufr s = None).
Proof.
  intros (Hl & Ht & Hb). unfold curlx_dyn_reset. case_if.
  - rewrite Hl in E. apply zlen_0 in E as ->. eexists. split; [done|]. dyn_split.
  - destruct (bufr s) as [m|] eqn:Em.
    2: { destruct Hb as [-> _]. by rewrite zlen_nil in Hl. }
    destruct Hb as (Hm & Ha & rest & ->).
    destruct c as [|x c]; [by rewrite zlen_nil in Hl|].
    cbn [mbind option_bind].
    rewrite (mem_write_at _ [] [Some x] (map Some c ++ Some 0 :: rest)) by done.
    eexists. split; [done|]. split; [|done]. dyn_split; by eexists.
Qed.

(** Keeping the last [trail] bytes, [0 < trail < leng]. *)
Lemma dyn_tail_move m c1 c2 rest :
  m = map Some (c1 ++ c2) ++ Some 0 :: rest -> c1 <> [] ->
  exists r', 
  (b ← mem_read m (zlen c1) (zlen c2); m ← mem_write m 0 b; mem_write m (zlen c2) [0])
  = Some (map Some c2 ++ Some 0 :: r') /\
  zlen (map Some c2 ++ Some 0 :: r') = zlen m.
Proof.
  intros -> Hc. rewrite map_app, <- app_assoc.
  pose proof (mem_read_mid (map Some c1) (Some 0 :: rest) c2) as Hr.
  rewrite zlen_map in Hr. rewrite Hr. cbn [mbind option_bind].
  set (m := map Some c1 ++ map Some c2 ++ Some 0 :: rest).
  assert (Hlen : zlen m = zlen c1 + zlen c2 + 1 + zlen rest).
  { unfold m. rewrite !zlen_app, !zlen_map, zlen_cons. lia. }
  assert (0 < zlen c1).
  { destruct c1; [done|]. rewrite zlen_cons. pose proof (zlen_nonneg c1). lia. }
  pose proof (zlen_nonneg c2). pose proof (zlen_nonneg rest).
  destruct (list_split_at m (zlen c2)) as (old & r1 & -> & Hold); [lia|].
  rewrite (mem_write_at _ [] old r1) by done. cbn [mbind option_bind app].
  rewrite zlen_app in Hlen. destruct r1 as [|y r1]; [rewrite zlen_nil in Hlen; lia|].
  rewrite (mem_write_at _ (map Some c2) [y] r1) by (done || apply zlen_map).
  exists r1. split; [done|]. rewrite !zlen_app, !zlen_cons, zlen_map in *. lia.
Qed.

Lemma dyn_tail_rep s c trail :
  dyn_rep s c -> 0 <= trail -> exists s' r, curlx_dyn_tail s trail = Some (s', r) /\
  toobig s' = toobig s /\
  (trail <= zlen c /\ r = CURLE_OK /\ dyn_rep s' (zdrop (zlen c - trail) c)
   \/ zlen c < trail /\ r = CURLE_BAD_FUNCTION_ARGUMENT /\ s' = s).
Proof.
  intros Hrep Htr. pose proof Hrep as (Hl & Ht & Hb). unfold curlx_dyn_tail.
  rewrite Hl, Z.gtb_ltb. case_if; [do 2 eexists; split; [done|]; split; [done|]; right; done|].
  case_if.
  { do 2 eexists. split; [done|]. split; [done|]. left. subst. split; [lia|]. split; [done|].
    by rewrite Z.sub_diag. }
  case_if.
  { destruct (dyn_reset_rep _ _ Hrep) as (s' & -> & Hr & Hts & _). do 2 eexists.
    split; [done|]. split; [done|]. left. subst. split; [lia|]. split; [done|].
    by rewrite zdrop_ge by lia. }
  destruct (bufr s) as [m|].
  2: { destruct Hb as [-> _]. rewrite zlen_nil in *. lia. }
  destruct Hb as (Hm & Ha & rest & Hmem).
  destruct (list_split_at c (zlen c - trail)) as (c1 & c2 & -> & Hc1); [lia|].
  rewrite zlen_app in *. replace (zlen c1 + zlen c2 - trail) with (zlen c1) by lia.
  replace trail with (zlen c2) in * by lia. cbn [mbind option_bind].
  destruct (dyn_tail_move m c1 c2 rest Hmem) as (r' & Hw & Hlen).
  { intros ->. rewrite zlen_nil in *. lia. }
  destruct (mem_read m (zlen c1) (zlen c2)) as [b|]; [|done]. cbn [mbind option_bind] in *.
  destruct (mem_write m 0 b) as [m1|]; [|done]. cbn [mbind option_bind] in *.
  rewrite Hw. do 2 eexists. split; [done|]. split; [done|]. left. split; [lia|]. split; [done|].
  rewrite zdrop_app_exact. dyn_split. by eexists.
Qed.

(** Truncation to a shorter length, for a buffer that has its allocation. *)
Lemma dyn_setlen_rep s c n :
  dyn_rep s c -> bufr s <> None -> 0 <= n ->
  exists s' r, curlx_dyn_setlen s n = Some (s', r) /\
  (n <= zlen c /\ r = CURLE_OK /\ dyn_rep s' (ztake n c)
   \/ zlen c < n /\ r = CURLE_BAD_FUNCTION_ARGUMENT /\ s' = s).
Proof.
  intros (Hl & Ht & Hb) Hn Hpos. unfold curlx_dyn_setlen. rewrite Hl, Z.gtb_ltb.
  case_if; [do 2 eexists; split; [done|]; right; done|].
  destruct (bufr s) as [m|]; [|done]. destruct Hb as (Hm & Ha & rest & ->).
  destruct (list_split_at c n) as (c1 & c2 & -> & Hc1); [lia|].
  cbn [mbind option_bind]. rewrite <- Hc1.
  set (x := match c2 with [] => Some 0 | y :: _ => Some y end).
  set (r := match c2 with [] => rest | _ :: c2 => map Some c2 ++ Some 0 :: rest end).
  assert (Hsplit : map Some (c1 ++ c2) ++ Some 0 :: rest = map Some c1 ++ [x] ++ r).
  { rewrite map_app, <- app_assoc. by destruct c2. }
  rewrite (mem_write_at _ (map Some c1) [x] r _ _ Hsplit) by (done || apply zlen_map).
  do 2 eexists. split; [done|]. left. rewrite ztake_app_exact, zlen_app in *.
  split; [pose proof (zlen_nonneg c2); lia|]. split; [done|]. dyn_split.
  - rewrite Hsplit in Hm. rewrite !zlen_app, zlen_cons, zlen_nil in *. done.
  - by eexists.
Qed.

(** * Refinement: a buffer is a byte string with a limit *)

Lemma mem_strlen_text t (r : mem) : Forall (fun c => c <> 0) t -> mem_strlen (map Some t ++ Some 0 :: r) = Some (zlen t).
Proof.
  induction 1 as [|c t Hc _ IH]; [done|]. cbn [map app mem_strlen]. rewrite (proj2 (Z.eqb_neq _ _) Hc), IH, zlen_cons. done.
Qed.

Lemma mem_read_text t (r : mem) : mem_read (map Some t ++ Some 0 :: r) 0 (zlen t) = Some t.
Proof. apply (mem_read_mid [] _ t). Qed.

Lemma mem_text_spec t (r : mem) : Forall is_char t -> mem_text (map Some t ++ Some 0 :: r) = Some t.
Proof. intros Ht. unfold mem_text. rewrite mem_strlen_text by by apply char_nonzero. cbn [mbind option_bind]. apply mem_read_text. Qed.

Lemma dyn_text_rep s c : dyn_rep s c -> Forall is_char c -> dyn_text s = Some c.
Proof.
  intros (_ & _ & H) Hc. unfold dyn_text, curlx_dyn_ptr. destruct (bufr s) as [m|]; [|by destruct H as [-> _]].
  destruct H as (_ & _ & rest & ->). by apply mem_text_spec.
Qed.

(** The calls a client makes on a buffer: each operation of the header but
    the printf-style appends, and reading the bytes back through
    [curlx_dyn_ptr] and [curlx_dyn_len]. *)
Inductive dyn_op :=
  | DynAddn (b : list Z)
  | DynAdd (st : list Z)
  | DynReset
  | DynTail (n : Z)
  | DynSetlen (n : Z)
  | DynRead
  | DynTake
  | DynFree.

(** What a call gives: its code, or a pointer and a length.  The pointer is
    followed: the bytes up to and with the terminator, if it is not NULL. *)
Inductive dyn_out :=
  | OutCode (r : CURLcode)
  | OutText (t : option (list Z)).

#[global] Instance dyn_out_eq_dec : EqDecision dyn_out.
Proof. solve_decision. Defined.

Definition out_block (p : option mem) (n : Z) : option dyn_out :=
  match p with
  | None => Some (OutText None)
  | Some m => t ← mem_read m 0 (n + 1); Some (OutText (Some t))
  end.

Definition dyn_step (s : dynbuf) (op : dyn_op) (o : allocs)
  : option (dynbuf * dyn_out * allocs) :=
  match op with
  | DynAddn b => '(s, r, o) ← curlx_dyn_addn s b o; Some (s, OutCode r, o)
  | DynAdd st => '(s, r, o) ← curlx_dyn_add s st o; Some (s, OutCode r, o)
  | DynReset => s ← curlx_dyn_reset s; Some (s, OutCode CURLE_OK, o)
  | DynTail n => '(s, r) ← curlx_dyn_tail s n; Some (s, OutCode r, o)
  | DynSetlen n => '(s, r) ← curlx_dyn_setlen s n; Some (s, OutCode r, o)
  | DynRead => t ← out_block (curlx_dyn_ptr s) (curlx_dyn_len s); Some (s, t, o)
  | DynTake =>
      let '(p, n, s) := curlx_dyn_take s in
      t ← out_block p n; Some (s, t, o)
  | DynFree => Some (curlx_dyn_free s, OutCode CURLE_OK, o)
  end.

Fixpoint dyn_run (s : dynbuf) (ops : list dyn_op) (o : allocs)
  : option (dynbuf * list dyn_out * allocs) :=
  match ops with
  | [] => Some (s, [], o)
  | op :: ops =>
      '(s, r, o) ← dyn_step s op o;
      '(s, rs, o) ← dyn_run s ops o;
      Some (s, r :: rs, o)
  end.

(** The abstract machine: a byte string with a limit, which knows whether it
    has memory.  [refused] says that an append does not get its memory. *)
Record bstr := mk_bstr { bs_held : bool; bs_text : list Z }.

Definition bstr_add (limit : Z) (c : bstr) (b : list Z) (refused : bool) : bstr * dyn_out :=
  if limit <? zlen (bs_text c) + zlen b + 1 then (mk_bstr false [], OutCode CURLE_TOO_LARGE)
  else if refused then (mk_bstr false [], OutCode CURLE_OUT_OF_MEMORY)
  else (mk_bstr true (bs_text c ++ b), OutCode CURLE_OK).

Definition bstr_text (c : bstr) : dyn_out :=
  OutText (if bs_held c then Some (bs_text c ++ [0]) else None).

(** A length set on a buffer without memory is the access that the code
    makes through a NULL pointer. *)
Definition bstr_step (limit : Z) (c : bstr) (op : dyn_op) (refused : bool)
  : option (bstr * dyn_out) :=
  match op with
  | DynAddn b => Some (bstr_add limit c b refused)
  | DynAdd st => Some (bstr_add limit c (ztake (strlen st) st) refused)
  | DynReset => Some (mk_bstr (bs_held c) [], OutCode CURLE_OK)
  | DynTail n =>
      if n <=? zlen (bs_text c)
      then Some (mk_bstr (bs_held c) (zdrop (zlen (bs_text c) - n) (bs_text c)), OutCode CURLE_OK)
      else Some (c, OutCode CURLE_BAD_FUNCTION_ARGUMENT)
  | DynSetlen n =>
      if zlen (bs_text c) <? n then Some (c, OutCode CURLE_BAD_FUNCTION_ARGUMENT)
      else if bs_held c then Some (mk_bstr true (ztake n (bs_text c)), OutCode CURLE_OK)
      else None
  | DynRead => Some (c, bstr_text c)
  | DynTake => Some (mk_bstr false [], bstr_text c)
  | DynFree => Some (mk_bstr false [], OutCode CURLE_OK)
  end.

Fixpoint bstr_run (limit : Z) (c : bstr) (ops : list dyn_op) (refusals : list bool)
  : option (bstr * list dyn_out) :=
  match ops with
  | [] => Some (c, [])
  | op :: ops =>
      '(c, r) ← bstr_step limit c op (default false (head refusals));
      '(c, rs) ← bstr_run limit c ops (tail refusals);
      Some (c, r :: rs)
  end.

(** The sizes are those of objects in memory and of [size_t]. *)
Definition dyn_op_ok (op : dyn_op) : Prop :=
  match op with
  | DynAddn b => zlen b <= MAX_DYNBUF_SIZE
  | DynAdd st => strlen st <= MAX_DYNBUF_SIZE
  | DynTail n | DynSetlen n => 0 <= n
  | _ => True
  end.

(** A buffer that stands for an abstract one. *)
Definition dyn_holds (limit : Z) (s : dynbuf) (c : bstr) : Prop :=
  dyn_rep s (bs_text c) /\ toobig s = limit /\ bs_held c = bool_decide (bufr s <> None).

(** The requests of an oracle that are refused. *)
Definition refused_in (o : allocs) : nat := length (filter (fun b => b = false) o).

(** The calls that report lack of memory. *)
Definition oom_in (outs : list dyn_out) : nat :=
  length (filter (fun r => r = OutCode CURLE_OUT_OF_MEMORY) outs).

(** The appends that are refused memory. *)
Definition refusals_in (rf : list bool) : nat := length (filter (fun b => b = true) rf).

(** With allocations granted, [dyn_nappend] never reports lack of memory. *)
Lemma dyn_nappend_granted s c b :
  dyn_rep s c -> zlen b <= MAX_DYNBUF_SIZE ->
  exists s' r, dyn_nappend s b [] = Some (s', r, []) /\ r <> CURLE_OUT_OF_MEMORY /\
    dyn_add_spec s c b s' r.
Proof.
  intros Hrep Hb. destruct (dyn_nappend_spec s c b [] Hrep Hb) as (s' & r & o & H & Hs).
  exists s', r. split; [|split; [|done]]; revert H; unfold dyn_nappend;
    (case_if; [intros [= <- <- <-]; done|]);
    destruct (dyn_alloc_size _ _) as [a|]; cbn [mbind option_bind]; try done;
    case_if; cbn [next_alloc negb mbind option_bind];
    destruct (dyn_store _ _ _) as [s1|]; cbn [mbind option_bind]; try done;
    by intros [= <- <- <-].
Qed.

(** An append reports lack of memory when, and only when, it was refused its
    one request. *)
Lemma dyn_nappend_refused s b o s' r o' :
  dyn_nappend s b o = Some (s', r, o') ->
  refused_in o = ((if bool_decide (r = CURLE_OUT_OF_MEMORY) then 1 else 0) + refused_in o')%nat.
Proof.
  unfold dyn_nappend. case_if; [intros [= <- <- <-]; by rewrite bool_decide_false|].
  destruct (dyn_alloc_size _ _) as [a|]; [|done]. cbn [mbind option_bind]. case_if.
  - destruct o as [|ok o]; cbn [next_alloc]; [|destruct ok]; cbn [negb];
      try (destruct (dyn_store _ _ _); [|done]; cbn [mbind option_bind]);
      intros [= <- <- <-]; first [by rewrite bool_decide_false|by rewrite bool_decide_true].
  - destruct (dyn_store _ _ _); [|done]. cbn [mbind option_bind].
    intros [= <- <- <-]. by rewrite bool_decide_false.
Qed.

(** The step of the machine that an operation is, with the number of refused
    requests it accounts for. *)
Definition step_ok (limit : Z) (s : dynbuf) (c : bstr) (op : dyn_op) (o : allocs) : Prop :=
  exists rf : bool,
  match bstr_step limit c op rf with
  | Some (c', out) => exists s' o', dyn_step s op o = Some (s', out, o') /\
      dyn_holds limit s' c' /\ rf = bool_decide (out = OutCode CURLE_OUT_OF_MEMORY) /\
      refused_in o = ((if rf then 1 else 0) + refused_in o')%nat
  | None => dyn_step s op o = None /\ rf = false
  end.

Lemma bstr_add_refines limit s c b o :
  dyn_holds limit s c -> zlen b <= MAX_DYNBUF_SIZE ->
  exists (rf : bool) s' r o', dyn_nappend s b o = Some (s', r, o') /\
    bstr_add limit c b rf = (fst (bstr_add limit c b rf), OutCode r) /\
    dyn_holds limit s' (fst (bstr_add limit c b rf)) /\
    rf = bool_decide (OutCode r = OutCode CURLE_OUT_OF_MEMORY) /\
    refused_in o = ((if rf then 1 else 0) + refused_in o')%nat.
Proof.
  intros (Hrep & Ht & Hh) Hb.
  destruct (dyn_nappend_spec s (bs_text c) b o Hrep Hb) as (s' & r & o' & E & Ht' & Hs).
  pose proof (dyn_nappend_refused _ _ _ _ _ _ E) as Hn. rewrite Ht in *.
  exists (bool_decide (r = CURLE_OUT_OF_MEMORY)), s', r, o'. split; [done|].
  unfold bstr_add, dyn_holds.
  destruct Hs as [(-> & Hl & Hr & Hm)|[(-> & Hl & Hr & Hm)|(-> & Hl & Hr & Hm)]];
    first [rewrite bool_decide_false in Hn |- * by done|rewrite bool_decide_true in Hn |- * by done];
    destruct (_ <? _) eqn:El; zb_hyps; try lia; cbn [fst bs_text bs_held] in *; (split; [done|]);
    (split; [split; [done|]; split; [done|] | split; [done|done]]).
  - symmetry. by apply bool_decide_eq_true.
  - rewrite Hm. done.
  - rewrite Hm. done.
Qed.

Lemma out_block_rep limit s c :
  dyn_holds limit s c -> out_block (bufr s) (leng s) = Some (bstr_text c).
Proof.
  intros ((Hl & _ & Hb) & _ & Hh). unfold out_block, bstr_text. rewrite Hh, Hl.
  destruct (bufr s) as [m|]; cbn [bool_decide]; [|done].
  rewrite bool_decide_true by done. destruct Hb as (_ & _ & rest & ->).
  pose proof (mem_read_mid [] rest (bs_text c ++ [0])) as H. rewrite zlen_snoc, map_app, <- app_assoc in H.
  cbn [app map] in H. change (zlen (@nil (option Z))) with 0 in H. rewrite H. done.
Qed.

(** Resets, tails and new lengths keep the memory of a buffer. *)
Lemma dyn_tail_held s n s' r :
  curlx_dyn_tail s n = Some (s', r) -> bool_decide (bufr s' <> None) = bool_decide (bufr s <> None).
Proof.
  unfold curlx_dyn_tail, curlx_dyn_reset. repeat case_if; try by intros [= <- <-].
  - destruct (bufr s) as [m|]; [|done]. cbn [mbind option_bind].
    destruct (mem_write _ _ _); [|done]. by intros [= <- <-].
  - destruct (bufr s) as [m|]; [|done]. cbn [mbind option_bind].
    destruct (mem_read _ _ _) as [t|]; [|done]. cbn [mbind option_bind].
    destruct (mem_write _ _ t) as [m1|]; [|done]. cbn [mbind option_bind].
    destruct (mem_write _ _ _); [|done]. by intros [= <- <-].
Qed.

Lemma dyn_setlen_held s n s' r :
  curlx_dyn_setlen s n = Some (s', r) -> bool_decide (bufr s' <> None) = bool_decide (bufr s <> None) /\ toobig s' = toobig s.
Proof.
  unfold curlx_dyn_setlen. case_if; [by intros [= <- <-]|].
  destruct (bufr s) as [m|]; [|done]. cbn [mbind option_bind].
  destruct (mem_write _ _ _); [|done]. by intros [= <- <-].
Qed.

Lemma dyn_step_setlen limit s c n o :
  dyn_holds limit s c -> 0 <= n -> step_ok limit s c (DynSetlen n) o.
Proof.
  intros (Hrep & Ht & Hh) Hn. exists false. cbn [bstr_step dyn_step].
  destruct (bs_held c) eqn:Ec; symmetry in Hh.
  - apply bool_decide_eq_true in Hh.
    destruct (dyn_setlen_rep s (bs_text c) n Hrep Hh Hn) as (s' & r & E & Hr). rewrite E.
    destruct (dyn_setlen_held _ _ _ _ E) as [Hk Ht'].
    destruct Hr as [(Hl & -> & Hr)|(Hl & -> & ->)]; case_if; try lia;
      do 2 eexists; (split; [done|]); (split; [|done]).
    + split; [done|]. split; [by rewrite Ht'|]. rewrite Hk. symmetry. by apply bool_decide_eq_true.
    + split; [done|]. split; [done|]. rewrite Ec. symmetry. by apply bool_decide_eq_true.
  - apply bool_decide_eq_false in Hh. unfold curlx_dyn_setlen.
    pose proof Hrep as (Hl & _ & Hb). rewrite Hl, Z.gtb_ltb. case_if.
    + do 2 eexists. split; [done|]. split; [|done]. split; [done|]. split; [done|].
      rewrite Ec. symmetry. by apply bool_decide_eq_false.
    + split; [|done]. destruct (bufr s); [by destruct Hh|done].
Qed.

Lemma dyn_step_refines limit s c op o :
  dyn_holds limit s c -> dyn_op_ok op -> step_ok limit s c op o.
Proof.
  intros Hh Hop. pose proof Hh as (Hrep & Ht & Hheld).
  destruct op as [b|st| |n|n| | |]; cbn [dyn_op_ok] in Hop; [| | | |by apply dyn_step_setlen|..];
    unfold step_ok; cbn [bstr_step dyn_step]; unfold curlx_dyn_addn, curlx_dyn_add.
  - destruct (bstr_add_refines limit s c b o Hh Hop) as (rf & s' & r & o' & E & Ea & Hs & Hn).
    exists rf. rewrite Ea, E. by exists s', o'.
  - destruct (bstr_add_refines limit s c (ztake (strlen st) st) o Hh) as (rf & s' & r & o' & E & Ea & Hs & Hn).
    { unfold zlen, ztake. rewrite length_take. unfold MAX_DYNBUF_SIZE in *. lia. }
    exists rf. rewrite Ea, E. by exists s', o'.
  - destruct (dyn_reset_rep s _ Hrep) as (s' & -> & Hs & Ht' & Hb). exists false, s', o.
    split; [done|]. split; [|done]. split; [done|]. split; [by rewrite Ht'|]. cbn [bs_held]. rewrite Hheld.
    apply bool_decide_ext. by rewrite Hb.
  - destruct (dyn_tail_rep s _ n Hrep Hop) as (s' & r & E & Ht' & Hs). rewrite E.
    pose proof (dyn_tail_held _ _ _ _ E) as Hk. exists false.
    destruct Hs as [(Hl & -> & Hs)|(Hl & -> & ->)]; case_if; try lia; do 2 eexists;
      (split; [done|]); (split; [|done]); (split; [done|]); (split; [congruence|]);
      cbn [bs_held]; congruence.
  - exists false, s, o. unfold curlx_dyn_ptr, curlx_dyn_len.
    by rewrite (out_block_rep limit s c Hh).
  - exists false. unfold curlx_dyn_take. rewrite (out_block_rep limit s c Hh). do 2 eexists.
    split; [done|]. split; [|done]. split; [|done]. destruct Hrep as (_ & ? & _). dyn_split.
  - exists false. do 2 eexists. split; [done|]. split; [|done]. split; [|done]. by eapply dyn_free_rep.
Qed.


Definition dyn_demo : list dyn_op :=
  [DynAddn (replicate 30 7); DynTail 3; DynAdd [5; 6; 0; 9]; DynSetlen 4; DynRead;
   DynAddn (replicate 50 1); DynAddn [5; 6]; DynTake; DynRead; DynAdd [8]].


(** The run of the witness: the texts read, the string that is too long, and
    the append whose request is refused. *)
Example dyn_demo_outs :
  option_map (fun r => snd (fst r)) (dyn_run (curlx_dyn_init 40) dyn_demo [true; true; false]) =
  Some [OutCode CURLE_OK; OutCode CURLE_OK; OutCode CURLE_OK; OutCode CURLE_OK;
    OutText (Some [7; 7; 7; 5; 0]); OutCode CURLE_TOO_LARGE; OutCode CURLE_OK;
    OutText (Some [5; 6; 0]); OutText None; OutCode CURLE_OUT_OF_MEMORY].
Proof. vm_compute. reflexivity. Qed.

(** The call that goes through a NULL pointer: a new length for a buffer that
    has no memory. *)
Example dyn_setlen_null : dyn_run (curlx_dyn_init 40) [DynAddn [1]; DynTake; DynSetlen 0] [] = None.
Proof. vm_compute. reflexivity. Qed.

(** Appending [b] to a buffer that holds [c], under any pattern of
    allocation failures: the call returns, without touching memory outside
    the allocation, either [CURLE_OK] with [c ++ b] NUL-terminated in the
    buffer, or [CURLE_TOO_LARGE] exactly when the result and its terminator
    exceed the limit, or [CURLE_OUT_OF_MEMORY]; on an error the buffer is
    empty and its memory released. *)
Theorem dyn_addn_outcomes s c b o :
  dyn_rep s c -> zlen b <= MAX_DYNBUF_SIZE ->
  exists s' r o', curlx_dyn_addn s b o = Some (s', r, o') /\
    dyn_add_spec s c b s' r /\
    (r = CURLE_TOO_LARGE <-> toobig s < zlen c + zlen b + 1).
Proof.
  intros Hrep Hb. destruct (dyn_nappend_spec s c b o Hrep Hb) as (s' & r & o' & H & Hs).
  exists s', r, o'. split; [done|]. split; [done|].
  destruct Hs as [_ [(-> & ? & _)|[(-> & ? & _)|(-> & ? & _)]]];
    split; intros; try done; lia.
Qed.

Lemma dyn_addn_outcomes_witness :
  exists s' r o', curlx_dyn_addn (curlx_dyn_init 100) [1; 2; 3] [false]
    = Some (s', r, o') /\ dyn_add_spec (curlx_dyn_init 100) [] [1; 2; 3] s' r /\
    (r = CURLE_TOO_LARGE <-> 100 < 0 + 3 + 1).
Proof.
  apply (dyn_addn_outcomes (curlx_dyn_init 100) [] [1; 2; 3] [false]).
  - apply dyn_init_rep. unfold MAX_DYNBUF_SIZE. lia.
  - cbv. discriminate.
Defined.
