(* ===== verification/Strparse.v ===== *)
(** The string parsing helpers, lib/curlx/strparse.c and strparse.h.

    A [const char **linep] argument is the rest of the line before the call
    and after it; a [struct Curl_str] is a pointer into the line with a
    length.  The loops follow the line's bytes, so they end with it. *)

From Stdlib Require Import ZArith Lia List String.
From stdpp Require Import base numbers option list.
From S2P Require Import Prelude.
Open Scope Z_scope.

Inductive STRE :=
  | STRE_OK | STRE_BIG | STRE_SHORT | STRE_BEGQUOTE | STRE_ENDQUOTE
  | STRE_BYTE | STRE_NEWLINE | STRE_OVERFLOW | STRE_NO_NUM.

#[global] Instance STRE_eq_dec : EqDecision STRE.
Proof. solve_decision. Defined.

Record Curl_str := mk_str { str_p : option (list Z); str_len : Z }.

Definition curlx_str_init : Curl_str := mk_str None 0.

Definition curlx_str_assign (s : list Z) (len : Z) : Curl_str := mk_str (Some s) len.

(** The bytes a [Curl_str] designates. *)
Definition str_bytes (s : Curl_str) : list Z := ztake (str_len s) (default [] (str_p s)).

Definition curlx_str_trim (out : Curl_str) (len : Z) : Curl_str :=
  mk_str (str_p out) (u64 (str_len out - len)).

(** [while( *s && !stop( *s)) { s++; if(++len > max) return STRE_BIG; }]: the
    rest of the line and the length, or [None] for the early return. *)
Fixpoint scan_word (stop : Z -> bool) (s : list Z) (len max : Z)
  : option (list Z * Z) :=
  match s with
  | [] => Some (s, len)
  | c :: s' =>
      if (c =? 0) || stop c then Some (s, len)
      else if len + 1 >? max then None
      else scan_word stop s' (len + 1) max
  end.

(** What follows the loop in [curlx_str_until] and [curlx_str_untilnl]. *)
Definition take_word (linep : list Z) (w : option (list Z * Z))
  : STRE * list Z * Curl_str :=
  match w with
  | None => (STRE_BIG, linep, curlx_str_init)
  | Some (s, len) =>
      if len =? 0 then (STRE_SHORT, linep, curlx_str_init)
      else (STRE_OK, s, mk_str (Some linep) len)
  end.

Definition curlx_str_until (linep : list Z) (max delim : Z) : STRE * list Z * Curl_str :=
  take_word linep (scan_word (fun c => c =? delim) linep 0 max).

Definition curlx_str_word (linep : list Z) (max : Z) : STRE * list Z * Curl_str :=
  curlx_str_until linep max 32.

Definition curlx_str_untilnl (linep : list Z) (max : Z) : STRE * list Z * Curl_str :=
  take_word linep (scan_word ISNEWLINE linep 0 max).

(** The loop of [curlx_str_quotedword]: a backslash with a byte behind it
    takes both. *)
Fixpoint scan_quoted (s : list Z) (len max : Z) : option (list Z * Z) :=
  match s with
  | [] => Some (s, len)
  | c :: s' =>
      if (c =? 0) || (c =? 34) then Some (s, len)
      else if (c =? 92) && negb (deref s' =? 0) then
        if len + 1 >? max then None
        else match s' with
             | [] => None
             | _ :: s'' =>
                 if len + 2 >? max then None else scan_quoted s'' (len + 2) max
             end
      else if len + 1 >? max then None
      else scan_quoted s' (len + 1) max
  end.

Definition curlx_str_quotedword (linep : list Z) (max : Z) : STRE * list Z * Curl_str :=
  if negb (deref linep =? 34) then (STRE_BEGQUOTE, linep, curlx_str_init)
  else
    match scan_quoted (drop 1 linep) 0 max with
    | None => (STRE_BIG, linep, curlx_str_init)
    | Some (s, len) =>
        if negb (deref s =? 34) then (STRE_ENDQUOTE, linep, curlx_str_init)
        else (STRE_OK, drop 1 s, mk_str (Some (drop 1 linep)) len)
    end.

Definition curlx_str_single (linep : list Z) (byte : Z) : STRE * list Z :=
  if negb (deref linep =? byte) then (STRE_BYTE, linep)
  else (STRE_OK, drop 1 linep).

Definition curlx_str_singlespace (linep : list Z) : STRE * list Z :=
  curlx_str_single linep 32.

(** ** Numbers *)

Definition curlx_hexasciitable : list Z :=
  [16; 1; 2; 3; 4; 5; 6; 7; 8; 9;
   0; 0; 0; 0; 0; 0; 0;
   10; 11; 12; 13; 14; 15;
   0; 0; 0; 0; 0; 0; 0; 0; 0; 0; 0; 0; 0; 0; 0; 0; 0; 0; 0; 0; 0; 0; 0; 0; 0; 0;
   10; 11; 12; 13; 14; 15].

Definition hexascii (x : Z) : Z := nth (Z.to_nat (x - 48)) curlx_hexasciitable 0.

Definition valid_digit (x m : Z) : bool :=
  (48 <=? x) && (x <=? m) && negb (hexascii x =? 0).

Definition curlx_hexval (x : Z) : Z := Z.land (hexascii x) 15.

(** A [curl_off_t] computation: undefined when the value does not fit. *)
Definition off_t (x : Z) : option Z :=
  if (- CURL_OFF_T_MAX - 1 <=? x) && (x <=? CURL_OFF_T_MAX) then Some x else None.

(** The two [do { ... } while(valid_digit( *p, m))] loops, entered with a
    digit at [*p].  The result is the return code, the number and [p]. *)
Fixpoint num_loop_low (base m max num : Z) (p : list Z) : option (STRE * Z * list Z) :=
  match p with
  | [] => Some (STRE_OK, num, [])
  | c :: p' =>
      num ← off_t (num * base + curlx_hexval c);
      if num >? max then Some (STRE_OVERFLOW, 0, p')
      else if valid_digit (deref p') m then num_loop_low base m max num p'
      else Some (STRE_OK, num, p')
  end.

Fixpoint num_loop (base m max num : Z) (p : list Z) : option (STRE * Z * list Z) :=
  match p with
  | [] => Some (STRE_OK, num, [])
  | c :: p' =>
      let n := curlx_hexval c in
      if num >? Z.quot (max - n) base then Some (STRE_OVERFLOW, 0, p')
      else
        num ← off_t (num * base + n);
        if valid_digit (deref p') m then num_loop base m max num p'
        else Some (STRE_OK, num, p')
  end.

(** Returns the code, [*nump] and [*linep]; [None] on a signed overflow. *)
Definition str_num_base (linep : list Z) (max base : Z) : option (STRE * Z * list Z) :=
  let m := if base =? 10 then 57 else if base =? 16 then 102 else 55 in
  if negb (valid_digit (deref linep) m) then Some (STRE_NO_NUM, 0, linep)
  else
    '(rc, num, p) ← (if max <? base then num_loop_low base m max 0 linep
                     else num_loop base m max 0 linep);
    match rc with
    | STRE_OK => Some (STRE_OK, num, p)
    | _ => Some (rc, 0, linep)
    end.

Definition curlx_str_number (linep : list Z) (max : Z) := str_num_base linep max 10.
Definition curlx_str_hex (linep : list Z) (max : Z) := str_num_base linep max 16.
Definition curlx_str_octal (linep : list Z) (max : Z) := str_num_base linep max 8.

Fixpoint curlx_str_passblanks (linep : list Z) : list Z :=
  match linep with
  | [] => []
  | c :: s => if ISBLANK c then curlx_str_passblanks s else linep
  end.

Definition curlx_str_numblanks (s : list Z) : option (STRE * Z * list Z) :=
  curlx_str_number (curlx_str_passblanks s) CURL_OFF_T_MAX.

Definition curlx_str_newline (linep : list Z) : STRE * list Z :=
  if ISNEWLINE (deref linep) then (STRE_OK, drop 1 linep) else (STRE_NEWLINE, linep).

(** [strncmp(a, b, n) == 0] *)
Fixpoint strncmp_eq (a b : list Z) (n : nat) : bool :=
  match n with
  | O => true
  | S n =>
      if negb (deref a =? deref b) then false
      else if deref a =? 0 then true
      else strncmp_eq (drop 1 a) (drop 1 b) n
  end.

Definition curlx_str_cmp (s : Curl_str) (check : option (list Z)) : bool :=
  match check with
  | Some check =>
      let clen := strlen check in
      (str_len s =? clen) && strncmp_eq (default [] (str_p s)) check (Z.to_nat clen)
  | None => negb (str_len s =? 0)
  end.

Definition curlx_str_nudge (s : Curl_str) (num : Z) : STRE * Curl_str :=
  if num <=? str_len s then
    (STRE_OK, mk_str (zdrop num <$> str_p s) (str_len s - num))
  else (STRE_OVERFLOW, s).

(** [strcspn(s, reject)] *)
Fixpoint strcspn (s reject : list Z) : Z :=
  match s with
  | [] => 0
  | c :: s' => if (c =? 0) || existsb (Z.eqb c) reject then 0 else 1 + strcspn s' reject
  end.

Definition curlx_str_cspn (linep reject : list Z) : STRE * list Z * Curl_str :=
  let len := strcspn linep reject in
  if negb (len =? 0) then (STRE_OK, zdrop len linep, mk_str (Some linep) len)
  else (STRE_SHORT, linep, curlx_str_init).

(** The two loops of [curlx_str_trimblanks]; [fuel] is the string length. *)
Fixpoint trim_left (fuel : nat) (out : Curl_str) : Curl_str :=
  match fuel with
  | O => out
  | S fuel =>
      if negb (str_len out =? 0) && ISBLANK (deref (default [] (str_p out)))
      then trim_left fuel (snd (curlx_str_nudge out 1))
      else out
  end.

Fixpoint trim_right (fuel : nat) (out : Curl_str) : Curl_str :=
  match fuel with
  | O => out
  | S fuel =>
      if negb (str_len out =? 0) &&
         ISBLANK (at_ (default [] (str_p out)) (Z.to_nat (str_len out - 1)))
      then trim_right fuel (mk_str (str_p out) (str_len out - 1))
      else out
  end.

Definition curlx_str_trimblanks (out : Curl_str) : Curl_str :=
  let n := Z.to_nat (str_len out) in
  trim_right n (trim_left n out).

(** * Reference definitions *)

(** The longest prefix of digits, and the rest. *)
Fixpoint digit_span (m : Z) (p : list Z) : list Z * list Z :=
  match p with
  | [] => ([], [])
  | c :: p' =>
      if valid_digit c m then let '(ds, r) := digit_span m p' in (c :: ds, r)
      else ([], p)
  end.

(** The number written by digits behind a number [acc]. *)
Definition digits_value (base acc : Z) (ds : list Z) : Z :=
  fold_left (fun a c => a * base + curlx_hexval c) ds acc.

Definition max_digit (base : Z) : Z :=
  if base =? 10 then 57 else if base =? 16 then 102 else 55.

(** * Numbers *)

Lemma valid_digit_range base c :
  base = 8 \/ base = 10 \/ base = 16 -> valid_digit c (max_digit base) = true ->
  0 <= curlx_hexval c < base.
Proof.
  intros Hb Hv.
  assert (Hc : is_byte c).
  { unfold valid_digit, max_digit in Hv. zb_hyps. unfold is_byte.
    destruct Hb as [-> | [-> | ->]]; cbn in *; lia. }
  pose (P := fun c => implb (valid_digit c (max_digit base))
                       ((0 <=? curlx_hexval c) && (curlx_hexval c <? base))).
  assert (HP : P c = true).
  { apply byte_forall; [|done]. destruct Hb as [-> | [-> | ->]]; vm_compute; done. }
  unfold P in HP. rewrite Hv in HP. cbn [implb] in HP. zb_hyps. lia.
Qed.

Lemma digits_value_ge base acc ds :
  1 <= base -> 0 <= acc -> acc <= digits_value base acc ds.
Proof.
  unfold digits_value. revert acc; induction ds as [|c ds IH]; intros acc Hb Ha; cbn; [lia|].
  assert (0 <= curlx_hexval c) by (apply Z.land_nonneg; lia).
  specialize (IH (acc * base + curlx_hexval c) Hb). nia.
Qed.

Section num_base.
Context (base max : Z).
Context (Hbase : base = 8 \/ base = 10 \/ base = 16).
Context (Hmax : 0 <= max <= CURL_OFF_T_MAX).

Lemma off_t_fits x : 0 <= x <= CURL_OFF_T_MAX -> off_t x = Some x.
Proof.
  intros. unfold off_t. unfold CURL_OFF_T_MAX in *.
  replace (_ <=? x) with true by (symmetry; apply Z.leb_le; lia).
  by replace (x <=? _) with true by (symmetry; apply Z.leb_le; lia).
Qed.

(** Both loops compute the value of the digits or report that it exceeds
    [max]. *)
Definition num_loop_post (acc : Z) (p : list Z) (res : option (STRE * Z * list Z)) :=
  let '(ds, r) := digit_span (max_digit base) p in
  if digits_value base acc ds <=? max
  then res = Some (STRE_OK, digits_value base acc ds, r)
  else exists q, res = Some (STRE_OVERFLOW, 0, q).

Lemma num_loop_post_cons acc c p' res :
  valid_digit c (max_digit base) = true ->
  (digits_value base (acc * base + curlx_hexval c) [] <= max ->
   num_loop_post (acc * base + curlx_hexval c) p' res) ->
  (max < acc * base + curlx_hexval c -> exists q, res = Some (STRE_OVERFLOW, 0, q)) ->
  0 <= acc -> num_loop_post acc (c :: p') res.
Proof.
  intros Hv Hrec Hover Ha. unfold num_loop_post in *. cbn [digit_span]. rewrite Hv.
  pose proof (valid_digit_range base c Hbase Hv).
  destruct (digit_span (max_digit base) p') as [ds r].
  change (digits_value base acc (c :: ds))
    with (digits_value base (acc * base + curlx_hexval c) ds).
  destruct (Z.le_gt_cases (acc * base + curlx_hexval c) max) as [Hle|Hgt].
  - apply Hrec. exact Hle.
  - pose proof (digits_value_ge base (acc * base + curlx_hexval c) ds).
    replace (_ <=? max) with false by (symmetry; apply Z.leb_gt; nia). auto.
Qed.

(** The exit of a loop at a byte that is no digit. *)
Lemma num_loop_post_end acc p :
  valid_digit (deref p) (max_digit base) = false -> acc <= max ->
  num_loop_post acc p (Some (STRE_OK, acc, p)).
Proof.
  intros Hv Ha. unfold num_loop_post. destruct p as [|c p]; cbn [digit_span deref] in *.
  - by replace (_ <=? max) with true by (symmetry; apply Z.leb_le; done).
  - rewrite Hv. by replace (_ <=? max) with true by (symmetry; apply Z.leb_le; done).
Qed.

Lemma num_loop_spec p acc :
  base <= max -> 0 <= acc <= max -> valid_digit (deref p) (max_digit base) = true ->
  num_loop_post acc p (num_loop base (max_digit base) max acc p).
Proof.
  intros Hbm. revert acc; induction p as [|c p IH]; intros acc Ha Hv; [done|].
  cbn [deref] in Hv. pose proof (valid_digit_range base c Hbase Hv) as Hn.
  assert (Hq : acc <= Z.quot (max - curlx_hexval c) base <->
               acc * base + curlx_hexval c <= max).
  { rewrite Z.quot_div_nonneg by lia. split; intros Hq.
    - pose proof (Z.mul_div_le (max - curlx_hexval c) base). nia.
    - apply Z.div_le_lower_bound; lia. }
  apply num_loop_post_cons; [done| | |lia]; intros Hle; cbn [num_loop];
    rewrite Z.gtb_ltb; cbn [digits_value fold_left] in *.
  - replace (_ <? acc) with false by (symmetry; apply Z.ltb_ge; apply Hq; done).
    rewrite off_t_fits by nia. cbn [mbind option_bind]. case_if.
    + apply IH; [nia|done].
    + by apply num_loop_post_end.
  - replace (_ <? acc) with true; [by eexists|]. symmetry. apply Z.ltb_lt. lia.
Qed.

Lemma num_loop_low_spec p acc :
  max < base -> 0 <= acc <= max -> valid_digit (deref p) (max_digit base) = true ->
  num_loop_post acc p (num_loop_low base (max_digit base) max acc p).
Proof.
  intros Hbm. revert acc; induction p as [|c p IH]; intros acc Ha Hv; [done|].
  cbn [deref] in Hv. pose proof (valid_digit_range base c Hbase Hv) as Hn.
  assert (Hfit : off_t (acc * base + curlx_hexval c)
                 = Some (acc * base + curlx_hexval c)).
  { apply off_t_fits. unfold CURL_OFF_T_MAX. nia. }
  apply num_loop_post_cons; [done| | |lia]; intros Hle; cbn [num_loop_low];
    rewrite Hfit; cbn [mbind option_bind digits_value fold_left] in *;
    rewrite Z.gtb_ltb.
  - replace (_ <? _) with false by (symmetry; apply Z.ltb_ge; done). case_if.
    + apply IH; [nia|done].
    + by apply num_loop_post_end.
  - replace (_ <? _) with true by (symmetry; apply Z.ltb_lt; done). by eexists.
Qed.

End num_base.

Lemma str_num_base_spec linep max base :
  base = 8 \/ base = 10 \/ base = 16 -> 0 <= max <= CURL_OFF_T_MAX ->
  str_num_base linep max base =
    let '(ds, rest) := digit_span (max_digit base) linep in
    match ds with
    | [] => Some (STRE_NO_NUM, 0, linep)
    | _ =>
        if digits_value base 0 ds <=? max
        then Some (STRE_OK, digits_value base 0 ds, rest)
        else Some (STRE_OVERFLOW, 0, linep)
    end.
Proof.
  intros Hbase Hmax. unfold str_num_base. fold (max_digit base).
  destruct linep as [|c p].
  { cbn [deref digit_span]. by destruct Hbase as [-> | [-> | ->]]. }
  cbn [deref]. destruct (valid_digit c (max_digit base)) eqn:Hv; cbn [negb].
  2: { cbn [digit_span]. by rewrite Hv. }
  assert (Hloop : num_loop_post base max 0 (c :: p)
    (if max <? base then num_loop_low base (max_digit base) max 0 (c :: p)
     else num_loop base (max_digit base) max 0 (c :: p))).
  { case_if; [apply num_loop_low_spec|apply num_loop_spec]; try done; lia. }
  unfold num_loop_post in Hloop. destruct (digit_span _ (c :: p)) as [ds r] eqn:Hspan.
  destruct ds as [|d ds].
  { cbn [digit_span] in Hspan. rewrite Hv in Hspan. by destruct (digit_span _ p). }
  revert Hloop. case_if; [by intros ->|]. by intros [q ->].
Qed.

(** C5: the number parser, for octal, decimal and hexadecimal and any limit:
    no [curl_off_t] computation overflows; with no digit it fails and leaves
    the line; otherwise it reads the longest run of digits, returns its value
    and moves past it when the value is at most [max], and reports overflow
    and leaves the line exactly when the value is larger. *)
Theorem str_num_base_correct linep max base :
  base = 8 \/ base = 10 \/ base = 16 -> 0 <= max <= CURL_OFF_T_MAX ->
  str_num_base linep max base =
    let '(ds, rest) := digit_span (max_digit base) linep in
    match ds with
    | [] => Some (STRE_NO_NUM, 0, linep)
    | _ =>
        if digits_value base 0 ds <=? max
        then Some (STRE_OK, digits_value base 0 ds, rest)
        else Some (STRE_OVERFLOW, 0, linep)
    end.
Proof. apply str_num_base_spec. Qed.

Lemma str_num_base_correct_witness :
  str_num_base (str "7fff;x") CURL_OFF_T_MAX 16 = Some (STRE_OK, 32767, str ";x").
Proof.
  rewrite (str_num_base_correct (str "7fff;x") CURL_OFF_T_MAX 16).
  - vm_compute. reflexivity.
  - right. right. reflexivity.
  - unfold CURL_OFF_T_MAX. lia.
Defined.

(** * Words *)

(** The longest prefix without a zero byte or a byte that stops the word. *)
Fixpoint word_span (stop : Z -> bool) (s : list Z) : list Z * list Z :=
  match s with
  | [] => ([], [])
  | c :: s' =>
      if (c =? 0) || stop c then ([], s)
      else let '(w, r) := word_span stop s' in (c :: w, r)
  end.

Lemma word_span_app stop s w r : word_span stop s = (w, r) -> s = w ++ r.
Proof.
  revert w r; induction s as [|c s IH]; intros w r; cbn [word_span]; [by intros [= <- <-]|].
  case_if; [by intros [= <- <-]|]. destruct (word_span stop s) as [w' r'].
  intros [= <- <-]. cbn. by rewrite <- (IH w' r').
Qed.

Lemma scan_word_spec stop s len max w r :
  word_span stop s = (w, r) -> 0 <= len <= max ->
  scan_word stop s len max =
    if len + zlen w <=? max then Some (r, len + zlen w) else None.
Proof.
  revert len w r; induction s as [|c s IH]; intros len w r; cbn [word_span scan_word].
  { intros [= <- <-] H. rewrite zlen_nil, Z.add_0_r.
    by replace (len <=? max) with true by (symmetry; apply Z.leb_le; lia). }
  destruct ((c =? 0) || stop c) eqn:Hstop.
  { intros [= <- <-] H. rewrite zlen_nil, Z.add_0_r.
    by replace (len <=? max) with true by (symmetry; apply Z.leb_le; lia). }
  destruct (word_span stop s) as [w' r'] eqn:Hw. intros [= <- <-] H.
  rewrite zlen_cons, Z.gtb_ltb. pose proof (zlen_nonneg w').
  destruct (max <? len + 1) eqn:Hm; zb_hyps.
  - by replace (_ <=? max) with false by (symmetry; apply Z.leb_gt; lia).
  - rewrite (IH (len + 1) w' r' eq_refl) by lia.
    by replace (len + (1 + zlen w')) with (len + 1 + zlen w') by lia.
Qed.

(** Reading a word takes exactly the longest run of bytes before the
    delimiter or the end of the string: it succeeds when the run has between
    one and [max] bytes, hands out that run and moves the line to what
    follows it; it is [STRE_BIG] for a longer run and [STRE_SHORT] for an
    empty one, and then leaves the line. *)
Theorem str_until_correct linep max delim w rest :
  0 <= max -> word_span (fun c => c =? delim) linep = (w, rest) ->
  let '(rc, linep', out) := curlx_str_until linep max delim in
  linep = w ++ rest /\
  (rc = STRE_OK /\ 1 <= zlen w <= max /\ linep' = rest /\ str_bytes out = w
   \/ rc = STRE_BIG /\ max < zlen w /\ linep' = linep /\ out = curlx_str_init
   \/ rc = STRE_SHORT /\ w = [] /\ linep' = linep /\ out = curlx_str_init).
Proof.
  intros Hmax Hw. unfold curlx_str_until.
  rewrite (scan_word_spec _ _ _ _ _ _ Hw) by lia. rewrite Z.add_0_l.
  pose proof (word_span_app _ _ _ _ Hw) as ->. pose proof (zlen_nonneg w).
  destruct (zlen w <=? max) eqn:Hle; zb_hyps; cbn [take_word].
  - destruct (zlen w =? 0) eqn:H0; zb_hyps; split; try done.
    + right; right. by apply zlen_0 in H0.
    + left. split_and!; try done; try lia. unfold str_bytes. cbn.
      apply ztake_app_exact.
  - split; [done|]. by right; left.
Qed.

Lemma str_until_correct_witness :
  let '(rc, linep', out) := curlx_str_until (str "name=value") 8 61 in
  str "name=value" = str "name" ++ str "=value" /\
  (rc = STRE_OK /\ 1 <= 4 <= 8 /\ linep' = str "=value" /\ str_bytes out = str "name"
   \/ rc = STRE_BIG /\ 8 < 4 /\ linep' = str "name=value" /\ out = curlx_str_init
   \/ rc = STRE_SHORT /\ str "name" = [] /\ linep' = str "name=value"
      /\ out = curlx_str_init).
Proof.
  exact (str_until_correct (str "name=value") 8 61 (str "name") (str "=value")
    ltac:(lia) eq_refl).
Defined.
