(* ===== verification/Strcase.v ===== *)
(** Locale-independent letter case and string comparison, lib/strcase.c and
    lib/strequal.c. *)

From Stdlib Require Import ZArith Lia List String.
From stdpp Require Import base numbers option list.
From S2P Require Import Prelude.
Open Scope Z_scope.

Definition touppermap : list Z :=
  [0; 1; 2; 3; 4; 5; 6; 7; 8; 9; 10; 11; 12; 13; 14; 15;
   16; 17; 18; 19; 20; 21; 22; 23; 24; 25; 26; 27; 28; 29; 30; 31;
   32; 33; 34; 35; 36; 37; 38; 39; 40; 41; 42; 43; 44; 45; 46; 47;
   48; 49; 50; 51; 52; 53; 54; 55; 56; 57; 58; 59; 60; 61; 62; 63;
   64; 65; 66; 67; 68; 69; 70; 71; 72; 73; 74; 75; 76; 77; 78; 79;
   80; 81; 82; 83; 84; 85; 86; 87; 88; 89; 90; 91; 92; 93; 94; 95;
   96; 65; 66; 67; 68; 69; 70; 71; 72; 73; 74; 75; 76; 77; 78; 79;
   80; 81; 82; 83; 84; 85; 86; 87; 88; 89; 90; 123; 124; 125; 126; 127;
   128; 129; 130; 131; 132; 133; 134; 135; 136; 137; 138; 139; 140; 141; 142; 143;
   144; 145; 146; 147; 148; 149; 150; 151; 152; 153; 154; 155; 156; 157; 158; 159;
   160; 161; 162; 163; 164; 165; 166; 167; 168; 169; 170; 171; 172; 173; 174; 175;
   176; 177; 178; 179; 180; 181; 182; 183; 184; 185; 186; 187; 188; 189; 190; 191;
   192; 193; 194; 195; 196; 197; 198; 199; 200; 201; 202; 203; 204; 205; 206; 207;
   208; 209; 210; 211; 212; 213; 214; 215; 216; 217; 218; 219; 220; 221; 222; 223;
   224; 225; 226; 227; 228; 229; 230; 231; 232; 233; 234; 235; 236; 237; 238; 239;
   240; 241; 242; 243; 244; 245; 246; 247; 248; 249; 250; 251; 252; 253; 254; 255].

Definition tolowermap : list Z :=
  [0; 1; 2; 3; 4; 5; 6; 7; 8; 9; 10; 11; 12; 13; 14; 15;
   16; 17; 18; 19; 20; 21; 22; 23; 24; 25; 26; 27; 28; 29; 30; 31;
   32; 33; 34; 35; 36; 37; 38; 39; 40; 41; 42; 43; 44; 45; 46; 47;
   48; 49; 50; 51; 52; 53; 54; 55; 56; 57; 58; 59; 60; 61; 62; 63;
   64; 97; 98; 99; 100; 101; 102; 103; 104; 105; 106; 107; 108; 109; 110; 111;
   112; 113; 114; 115; 116; 117; 118; 119; 120; 121; 122; 91; 92; 93; 94; 95;
   96; 97; 98; 99; 100; 101; 102; 103; 104; 105; 106; 107; 108; 109; 110; 111;
   112; 113; 114; 115; 116; 117; 118; 119; 120; 121; 122; 123; 124; 125; 126; 127;
   128; 129; 130; 131; 132; 133; 134; 135; 136; 137; 138; 139; 140; 141; 142; 143;
   144; 145; 146; 147; 148; 149; 150; 151; 152; 153; 154; 155; 156; 157; 158; 159;
   160; 161; 162; 163; 164; 165; 166; 167; 168; 169; 170; 171; 172; 173; 174; 175;
   176; 177; 178; 179; 180; 181; 182; 183; 184; 185; 186; 187; 188; 189; 190; 191;
   192; 193; 194; 195; 196; 197; 198; 199; 200; 201; 202; 203; 204; 205; 206; 207;
   208; 209; 210; 211; 212; 213; 214; 215; 216; 217; 218; 219; 220; 221; 222; 223;
   224; 225; 226; 227; 228; 229; 230; 231; 232; 233; 234; 235; 236; 237; 238; 239;
   240; 241; 242; 243; 244; 245; 246; 247; 248; 249; 250; 251; 252; 253; 254; 255].

Definition Curl_raw_toupper (c : Z) : Z := nth (Z.to_nat c) touppermap 0.
Definition Curl_raw_tolower (c : Z) : Z := nth (Z.to_nat c) tolowermap 0.

(** [do { *dest++ = f( *src); } while( *src++ && --n);] for [n >= 1]: the
    bytes stored. *)
Fixpoint strn_loop (f : Z -> Z) (src : list Z) (n : nat) : list Z :=
  f (deref src) ::
  match src, n with
  | c :: src', S (S n') => if c =? 0 then [] else strn_loop f src' (S n')
  | _, _ => []
  end.

Definition Curl_strntoupper (src : list Z) (n : Z) : list Z :=
  if n <? 1 then [] else strn_loop Curl_raw_toupper src (Z.to_nat n).

Definition Curl_strntolower (src : list Z) (n : Z) : list Z :=
  if n <? 1 then [] else strn_loop Curl_raw_tolower src (Z.to_nat n).

(** [strcmp(a, b) == 0] *)
Fixpoint strcmp_eq (a b : list Z) : bool :=
  match a with
  | [] => deref b =? 0
  | c :: a' =>
      if c =? 0 then deref b =? 0
      else (c =? deref b) && strcmp_eq a' (drop 1 b)
  end.

Definition Curl_safecmp (a b : option (list Z)) : bool :=
  match a, b with
  | Some a, Some b => strcmp_eq a b
  | None, None => true
  | _, _ => false
  end.

(** The loop of [Curl_timestrcmp], with the accumulated difference. *)
Fixpoint timestr_loop (a b : list Z) (m : Z) : Z :=
  let m := Z.lor m (Z.lxor (deref a) (deref b)) in
  if (deref a =? 0) || (deref b =? 0) then m
  else match a with [] => m | _ :: a' => timestr_loop a' (drop 1 b) m end.

Definition Curl_timestrcmp (a b : option (list Z)) : Z :=
  match a, b with
  | Some a, Some b => timestr_loop a b 0
  | None, None => 0
  | _, _ => 1
  end.

Fixpoint casecompare (first second : list Z) : bool :=
  match first with
  | [] => deref second =? 0
  | c :: first' =>
      if c =? 0 then deref second =? 0
      else if negb (Curl_raw_toupper c =? Curl_raw_toupper (deref second)) then false
      else casecompare first' (drop 1 second)
  end.

Fixpoint ncasecompare (first second : list Z) (max : nat) : bool :=
  match max with
  | O => true
  | S max' =>
      match first with
      | c :: first' =>
          if c =? 0 then Curl_raw_toupper c =? Curl_raw_toupper (deref second)
          else if negb (Curl_raw_toupper c =? Curl_raw_toupper (deref second)) then false
          else ncasecompare first' (drop 1 second) max'
      | [] => Curl_raw_toupper 0 =? Curl_raw_toupper (deref second)
      end
  end.

Definition curl_strequal (s1 s2 : option (list Z)) : bool :=
  match s1, s2 with
  | Some s1, Some s2 => casecompare s1 s2
  | None, None => true
  | _, _ => false
  end.

Definition curl_strnequal (s1 s2 : option (list Z)) (n : Z) : bool :=
  match s1, s2 with
  | Some s1, Some s2 => ncasecompare s1 s2 (Z.to_nat n)
  | None, None => negb (n =? 0)
  | _, _ => false
  end.

(** * Properties *)

(** The text of a C string: its bytes up to the terminator. *)
Definition text (s : list Z) : list Z := ztake (strlen s) s.

(** ASCII upper case. *)
Definition upper (c : Z) : Z := if between 97 c 122 then c - 32 else c.
Definition lower (c : Z) : Z := if between 65 c 90 then c + 32 else c.

Lemma toupper_upper c : is_byte c -> Curl_raw_toupper c = upper c.
Proof.
  intros H. apply Z.eqb_eq. revert c H. apply byte_forall. vm_compute. done.
Qed.

Lemma tolower_lower c : is_byte c -> Curl_raw_tolower c = lower c.
Proof.
  intros H. apply Z.eqb_eq. revert c H. apply byte_forall. vm_compute. done.
Qed.

Lemma text_nil : text [] = [].
Proof. done. Qed.

Lemma text_cons c s :
  text (c :: s) = if c =? 0 then [] else c :: text s.
Proof.
  unfold text. cbn [strlen]. case_if; [done|].
  assert (0 <= strlen s).
  { clear. induction s as [|d s IH]; cbn [strlen]; [lia|]. case_if; lia. }
  unfold ztake. by replace (Z.to_nat (1 + strlen s)) with (S (Z.to_nat (strlen s))) by lia.
Qed.

Lemma deref_text s : deref s = 0 <-> text s = [].
Proof.
  destruct s as [|c s]; [by split|]. rewrite text_cons. cbn [deref].
  case_if; split; try done; try lia.
Qed.

Lemma deref_byte s : bytes_ok s -> is_byte (deref s).
Proof. unfold is_byte. destruct 1; cbn; [lia|done]. Qed.

Lemma bytes_ok_drop n s : bytes_ok s -> bytes_ok (drop n s).
Proof. apply Forall_drop. Qed.

Lemma upper_0 c : is_byte c -> upper c = 0 <-> c = 0.
Proof. unfold is_byte, upper, between. intros. case_if; lia. Qed.

Lemma casecompare_spec a b :
  bytes_ok a -> bytes_ok b ->
  casecompare a b = true <-> map upper (text a) = map upper (text b).
Proof.
  intros Ha; revert b; induction Ha as [|c a Hc Ha IH]; intros b Hb; cbn [casecompare].
  { rewrite Z.eqb_eq, deref_text. destruct (text b); split; done. }
  rewrite text_cons. case_if.
  { rewrite Z.eqb_eq, deref_text. destruct (text b); split; done. }
  rewrite !toupper_upper by auto using deref_byte.
  destruct b as [|d b]; cbn [deref drop].
  { replace (upper c =? upper 0) with false; [by split|].
    symmetry. apply Z.eqb_neq. change (upper 0) with 0. by rewrite upper_0. }
  inversion Hb as [|? ? Hd Hb']; subst. rewrite text_cons.
  destruct (upper c =? upper d) eqn:Hu; cbn [negb]; zb_hyps.
  - replace (d =? 0) with false.
    2: { symmetry. apply Z.eqb_neq. intros ->. apply E. by apply upper_0. }
    rewrite drop_0, IH by done. cbn [map]. rewrite Hu. split; [by intros ->|congruence].
  - split; [done|]. case_if; [done|]. cbn [map]. congruence.
Qed.

(** Two C strings compare equal with [curl_strequal] exactly when their
    texts are the same after mapping a-z to A-Z, whatever bytes they hold. *)
Theorem strequal_correct a b :
  bytes_ok a -> bytes_ok b ->
  curl_strequal (Some a) (Some b) = true <-> map upper (text a) = map upper (text b).
Proof. apply casecompare_spec. Qed.

Lemma strequal_correct_witness :
  curl_strequal (Some (str "Https")) (Some (str "hTTPS")) = true.
Proof.
  apply (strequal_correct (str "Https") (str "hTTPS")); try reflexivity;
    (apply Forall_forall; intros x Hx; unfold is_byte;
     repeat (apply elem_of_cons in Hx as [->|Hx]; [vm_compute; split; congruence|]);
     by apply not_elem_of_nil in Hx).
Defined.

Lemma lor_0 a b : 0 <= a -> 0 <= b -> Z.lor a b = 0 <-> a = 0 /\ b = 0.
Proof. intros. rewrite Z.lor_eq_0_iff. done. Qed.

Lemma timestr_loop_spec a b m :
  bytes_ok a -> bytes_ok b -> 0 <= m ->
  timestr_loop a b m = 0 <-> m = 0 /\ text a = text b.
Proof.
  intros Ha; revert b m; induction Ha as [|c a Hc Ha IH]; intros b m Hb Hm;
    pose proof (deref_byte b Hb) as Hd; cbn [timestr_loop deref].
  - cbn [Z.eqb orb]. unfold is_byte in Hd.
    rewrite lor_0, Z.lxor_eq_0_iff by (try apply Z.lxor_nonneg; lia).
    rewrite text_nil. pose proof (deref_text b). split; intros [? ?]; split; auto.
    + symmetry. apply H. auto.
    + symmetry. apply H. auto.
  - unfold is_byte in *. rewrite text_cons.
    assert (0 <= Z.lxor c (deref b)) by (apply Z.lxor_nonneg; lia).
    assert (0 <= Z.lor m (Z.lxor c (deref b))) by (apply Z.lor_nonneg; lia).
    pose proof (deref_text b) as Ht.
    destruct (c =? 0) eqn:Hc0; zb_hyps; cbn [orb].
    { rewrite lor_0, Z.lxor_eq_0_iff by lia. subst c. split; intros [? ?]; split; auto.
      - symmetry. apply Ht. auto.
      - symmetry. apply Ht. auto. }
    destruct b as [|d b]; cbn [deref drop] in *.
    { cbn [Z.eqb orb]. rewrite lor_0, Z.lxor_eq_0_iff, text_nil by lia.
      split; intros [? ?]; [lia|done]. }
    rewrite text_cons in *. destruct (d =? 0) eqn:Hd0; zb_hyps.
    { rewrite lor_0, Z.lxor_eq_0_iff by lia. split; intros [? ?]; [lia|done]. }
    inversion Hb; subst. rewrite drop_0, IH, lor_0, Z.lxor_eq_0_iff by (auto; lia).
    split; [intros [[-> ->] ->]; done|]. intros [-> [= -> ->]]. done.
Qed.

(** [Curl_timestrcmp] of two strings is zero exactly when they are the
    same text. *)
Theorem timestrcmp_correct a b :
  bytes_ok a -> bytes_ok b ->
  Curl_timestrcmp (Some a) (Some b) = 0 <-> text a = text b.
Proof.
  intros Ha Hb. cbn [Curl_timestrcmp]. rewrite timestr_loop_spec by (auto; lia).
  split; [by intros [_ ?]|done].
Qed.

Lemma timestrcmp_correct_witness :
  Curl_timestrcmp (Some [115; 51; 0; 9]) (Some [115; 51]) = 0.
Proof.
  apply (timestrcmp_correct [115; 51; 0; 9] [115; 51]); try reflexivity;
    repeat (apply Forall_cons_2; [unfold is_byte; lia|]); apply Forall_nil_2.
Defined.
