(* ===== verification/ToolChunked.v ===== *)
(** The multithreaded download of the command line tool, src/tool_chunked.c.

    A large file is fetched as byte ranges by up to eight worker threads; the
    bodies go through one queue to one writer thread, the only one that
    writes the output file.  This file holds the model:

    - the output file and [write()], whose return values are chosen by the
      environment;
    - the size probe and the single-stream transfers, as functions;
    - the pool of threads as a machine: its state is the pool, the writer,
      the workers with their program counters and the driving thread; every
      step is one critical section, one unlocked read or one local action of
      one thread.  [exec] runs the step an event names, an interleaving is a
      list of events.

    Transfers are a parameter: [transfers s e ps c] says that a
    [curl_easy_perform] with the byte range [s-e] can hand the buffers [ps]
    to the write callback, one by one, and return [c] if none is refused. *)

From Stdlib Require Import ZArith Lia List String.
From Stdlib Require Import SpecFloat.
From stdpp Require Import base numbers option list relations.
From S2P Require Import Prelude Strcase.
Open Scope Z_scope.

(** * Constants *)

Definition CHUNK_STREAMS : Z := 8.
Definition CHUNK_THRESHOLD : Z := 1073741824.
Definition CHUNK_MIN : Z := 67108864.
Definition CHUNK_MAX : Z := 1073741824.
Definition CHUNK_TARGET : Z := CHUNK_STREAMS * 8.
Definition CHUNK_QUEUE_MAX : Z := 268435456.
Definition CHUNK_PROBE : Z := 67108864.

Definition chunk_size_for (total : Z) : Z :=
  let c := Z.quot total CHUNK_TARGET in
  if c <? CHUNK_MIN then CHUNK_MIN
  else if c >? CHUNK_MAX then CHUNK_MAX
  else c.

(** * The size probe *)

(** The options of [per->curl] and the flags of [per] the probe touches. *)
Record probe_handle := mk_probe_handle {
  opt_nobody : bool;
  opt_httpget : bool;
  opt_noprogress : bool;
  chunk_watch : bool;
  chunk_accept_ranges : bool
}.

(** What the metadata request yields: the return code, the information read
    from the handle, and whether the header callback saw Accept-Ranges. *)
Record probe_reply := mk_probe_reply {
  rp_res : CURLcode;
  rp_clen : Z;
  rp_code : Z;
  rp_scheme : option (list Z);
  rp_accept_ranges : bool
}.

Definition scheme_is (scheme : option (list Z)) (name : string) : bool :=
  curl_strequal scheme (Some (str name)).

(** [perform] is the request as a function of the handle it runs on.  The
    result is the verdict, [*total] when it is TRUE, and the handle left. *)
Definition tool_chunk_probe (perform : probe_handle -> probe_reply)
    (h : probe_handle) (noprogress silent : bool) : option Z * probe_handle :=
  let h1 := mk_probe_handle true (opt_httpget h) true true false in
  let rp := perform h1 in
  let accept := rp_accept_ranges rp in
  let h2 := mk_probe_handle false true (noprogress || silent) false accept in
  if negb (is_ok (rp_res rp)) then (None, h2)
  else if rp_clen rp <=? CHUNK_THRESHOLD then (None, h2)
  else if bool_decide (rp_scheme rp <> None) &&
          (scheme_is (rp_scheme rp) "HTTP" || scheme_is (rp_scheme rp) "HTTPS") then
    if negb accept || negb (Z.quot (rp_code rp) 100 =? 2) then (None, h2)
    else (Some (rp_clen rp), h2)
  else if negb (bool_decide (rp_scheme rp <> None) &&
                (scheme_is (rp_scheme rp) "FTP" || scheme_is (rp_scheme rp) "FTPS" ||
                 scheme_is (rp_scheme rp) "NFS")) then (None, h2)
  else (Some (rp_clen rp), h2).

(** * The output file *)

(** A file is its bytes.  Writing past its end leaves a hole of zero bytes. *)
Definition file_write (f : list Z) (off : Z) (bs : list Z) : list Z :=
  match bs with
  | [] => f
  | _ =>
      let f' := f ++ replicate (Z.to_nat (off - zlen f)) 0 in
      ztake off f' ++ bs ++ zdrop (off + zlen bs) f'
  end.

(** [write(fd, buf, len)] at position [pos] when the system returns [rc]: a
    negative [rc] writes nothing, otherwise at most [len] bytes. *)
Definition chunk_raw_write (f : list Z) (pos : Z) (buf : list Z) (rc : Z) : Z * list Z :=
  let rc := Z.min rc (zlen buf) in
  (rc, if rc <? 0 then f else file_write f pos (ztake rc buf)).

(** [while(done < len)] around [chunk_raw_write], with the coming results of
    [write]; running out of results is a call that has not returned. *)
Fixpoint write_loop (rcs : list Z) (f : list Z) (pos : Z) (buf : list Z)
  : option (bool * list Z) :=
  match buf with
  | [] => Some (true, f)
  | _ =>
      match rcs with
      | [] => None
      | rc :: rcs =>
          let '(rc, f) := chunk_raw_write f pos buf rc in
          if rc <? 0 then Some (false, f)
          else write_loop rcs f (pos + rc) (zdrop rc buf)
      end
  end.

(** What the system does with one buffer: whether the seek succeeds and the
    results of the writes. *)
Record io := mk_io { io_seek : bool; io_writes : list Z }.

Definition chunk_write_at (i : io) (f : list Z) (buf : list Z) (offset : Z)
  : option (CURLcode * list Z) :=
  if negb (io_seek i) then Some (CURLE_WRITE_ERROR, f)
  else
    '(ok, f) ← write_loop (io_writes i) f offset buf;
    Some (if (ok : bool) then CURLE_OK else CURLE_WRITE_ERROR, f).

(** [O_CREAT | O_TRUNC]: a fresh empty file, or no file. *)
Definition chunk_presize (open_ok : bool) : option (list Z) :=
  if open_ok then Some [] else None.

(** ** Single-stream transfers *)

(** The write callback, at the descriptor's position: the count it returns
    and the file. *)
Definition chunk_seq_write_cb (rcs : list Z) (f : list Z) (pos : Z) (buf : list Z)
  : option (Z * list Z) :=
  '(ok, f) ← write_loop rcs f pos buf;
  Some (if (ok : bool) then zlen buf else 0, f).

(** [curl_easy_perform] feeding the buffers to the callback: a count other
    than the buffer's length ends it with [CURLE_WRITE_ERROR]. *)
Fixpoint seq_perform (ps : list (list Z)) (c : CURLcode) (ws : list (list Z))
    (f : list Z) (pos : Z) : option (CURLcode * list Z) :=
  match ps with
  | [] => Some (c, f)
  | b :: ps =>
      match ws with
      | [] => None
      | w :: ws =>
          '(n, f) ← chunk_seq_write_cb w f pos b;
          if negb (n =? zlen b) then Some (CURLE_WRITE_ERROR, f)
          else seq_perform ps c ws f (pos + zlen b)
      end
  end.

Definition chunk_stream_range (seek_ok : bool) (ps : list (list Z)) (c : CURLcode)
    (ws : list (list Z)) (f : list Z) (start : Z) : option (CURLcode * list Z) :=
  if negb seek_ok then Some (CURLE_WRITE_ERROR, f)
  else seq_perform ps c ws f start.

(** * The thread pool *)

Record chunk_wjob := mk_job { j_offset : Z; j_buf : list Z }.

(** The writer thread is between jobs, holds a job it took from the queue,
    has failed to write one and is about to record it, or has ended. *)
Inductive writer_pc :=
  | WrLoop
  | WrJob (j : chunk_wjob)
  | WrFail (res : CURLcode)
  | WrExited.

Record chunk_writer := mk_writer {
  wr_queue : list chunk_wjob;
  wr_queued : Z;
  wr_done : bool;
  wr_result : CURLcode;
  wr_pc : writer_pc
}.

Record chunk_pool := mk_pool {
  p_next : Z;
  p_n : Z;
  p_base : Z;
  p_chunk_size : Z;
  p_total : Z;
  p_finished : Z;
  p_result : CURLcode;
  p_writer : option chunk_writer
}.

(** Where a worker is: at the top of [chunk_worker_loop]; with an index,
    before its transfer; inside [curl_easy_perform], with the buffers still
    to come and the code it will return; in the callback, with a job waiting
    for room in the queue; with a failed transfer to record; at the end of
    the loop, before counting itself finished; gone. *)
Inductive worker_pc :=
  | PTop
  | PFetch (idx : Z)
  | PRecv (idx : Z) (ps : list (list Z)) (c : CURLcode)
  | PEnqueue (idx : Z) (b : list Z) (ps : list (list Z)) (c : CURLcode)
  | PError (res : CURLcode)
  | PExit
  | PDone.

Record chunk_worker := mk_worker {
  w_cur_offset : Z;
  w_written : Z;
  w_threaded : bool;
  w_pc : worker_pc
}.

(** The driving thread: starting the workers, running worker 0 itself when
    none could be started, polling [finished], joining the workers, telling
    the writer to finish, joining it, returned. *)
Inductive driver_pc :=
  | DLaunch (i : nat) (launched : Z)
  | DInline
  | DWait (launched : Z)
  | DJoin
  | DStopWriter (result : CURLcode)
  | DJoinWriter (result : CURLcode)
  | DReturn (result : CURLcode).

Record system := mk_system {
  s_file : list Z;
  s_pool : chunk_pool;
  s_workers : list chunk_worker;
  s_driver : driver_pc
}.

(** ** Field updates *)

Definition set_writer (p : chunk_pool) (w : option chunk_writer) : chunk_pool :=
  mk_pool (p_next p) (p_n p) (p_base p) (p_chunk_size p) (p_total p)
          (p_finished p) (p_result p) w.

Definition set_pc (w : chunk_worker) (pc : worker_pc) : chunk_worker :=
  mk_worker (w_cur_offset w) (w_written w) (w_threaded w) pc.

Definition put_worker (s : system) (i : nat) (w : chunk_worker) : system :=
  mk_system (s_file s) (s_pool s) (<[i := w]> (s_workers s)) (s_driver s).

Definition put_pool (s : system) (p : chunk_pool) : system :=
  mk_system (s_file s) p (s_workers s) (s_driver s).

Definition put_file (s : system) (f : list Z) : system :=
  mk_system f (s_pool s) (s_workers s) (s_driver s).

Definition put_driver (s : system) (d : driver_pc) : system :=
  mk_system (s_file s) (s_pool s) (s_workers s) d.

Definition put_writer (s : system) (w : chunk_writer) : system :=
  put_pool s (set_writer (s_pool s) (Some w)).

(** The worker has received [n] more bytes. *)
Definition advance (w : chunk_worker) (n : Z) (pc : worker_pc) : chunk_worker :=
  mk_worker (w_cur_offset w + n) (w_written w + n) (w_threaded w) pc.

(** ** Worker threads *)

(** What the environment decides in a worker's step: the transfer that
    starts, whether [malloc] succeeds, how the system treats a write. *)
Record choice := mk_choice {
  ch_pieces : list (list Z);
  ch_code : CURLcode;
  ch_alloc : bool;
  ch_io : io
}.

(** The first and last byte of piece [idx]. *)
Definition chunk_range (p : chunk_pool) (idx : Z) : Z * Z :=
  let start := p_base p + idx * p_chunk_size p in
  let end_ := start + p_chunk_size p - 1 in
  (start, if end_ >=? p_total p then p_total p - 1 else end_).

(** The offset is set and the transfer starts. *)
Definition chunk_fetch_one (ch : choice) (s : system) (w : chunk_worker) (idx : Z)
  : chunk_worker :=
  mk_worker (fst (chunk_range (s_pool s) idx)) (w_written w) (w_threaded w)
            (PRecv idx (ch_pieces ch) (ch_code ch)).

(** The callback on a buffer, up to the point where the job is built. *)
Definition chunk_write_cb (ch : choice) (s : system) (i : nat) (w : chunk_worker)
    (idx : Z) (b : list Z) (ps : list (list Z)) (c : CURLcode) : option system :=
  let p := s_pool s in
  let refuse := put_worker s i (set_pc w (PError CURLE_WRITE_ERROR)) in
  if zlen b =? 0 then Some (put_worker s i (set_pc w (PRecv idx ps c)))
  else
    match p_writer p with
    | None =>
        '(res, f) ← chunk_write_at (ch_io ch) (s_file s) b (w_cur_offset w);
        Some (put_worker (put_file s f) i
          (if is_ok res then advance w (zlen b) (PRecv idx ps c)
           else set_pc w (PError CURLE_WRITE_ERROR)))
    | Some wr =>
        if negb (is_ok (wr_result wr)) || negb (is_ok (p_result p)) then Some refuse
        else if negb (ch_alloc ch) then Some refuse
        else Some (put_worker s i (set_pc w (PEnqueue idx b ps c)))
    end.

(** One round of the callback's loop, under the writer's lock. *)
Definition chunk_enqueue (s : system) (i : nat) (w : chunk_worker)
    (idx : Z) (b : list Z) (ps : list (list Z)) (c : CURLcode) : option system :=
  wr ← p_writer (s_pool s);
  if negb (is_ok (wr_result wr)) then
    Some (put_worker s i (set_pc w (PError CURLE_WRITE_ERROR)))
  else if wr_queued wr <? CHUNK_QUEUE_MAX then
    let wr' := mk_writer (wr_queue wr ++ [mk_job (w_cur_offset w) b])
                         (wr_queued wr + zlen b) (wr_done wr) (wr_result wr) (wr_pc wr) in
    Some (put_worker (put_writer s wr') i (advance w (zlen b) (PRecv idx ps c)))
  else Some s.

Definition chunk_worker_loop (ch : choice) (s : system) (i : nat) (w : chunk_worker)
  : option system :=
  let p := s_pool s in
  match w_pc w with
  | PTop =>
      if negb (is_ok (p_result p)) || (p_next p >=? p_n p) then
        Some (put_worker s i (set_pc w PExit))
      else
        let p' := mk_pool (u32 (p_next p + 1)) (p_n p) (p_base p) (p_chunk_size p)
                          (p_total p) (p_finished p) (p_result p) (p_writer p) in
        Some (put_worker (put_pool s p') i (set_pc w (PFetch (p_next p))))
  | PFetch idx => Some (put_worker s i (chunk_fetch_one ch s w idx))
  | PRecv idx [] c =>
      Some (put_worker s i (set_pc w (if is_ok c then PTop else PError c)))
  | PRecv idx (b :: ps) c => chunk_write_cb ch s i w idx b ps c
  | PEnqueue idx b ps c => chunk_enqueue s i w idx b ps c
  | PError res =>
      let p' := mk_pool (p_next p) (p_n p) (p_base p) (p_chunk_size p) (p_total p)
                        (p_finished p) (if is_ok (p_result p) then res else p_result p)
                        (p_writer p) in
      Some (put_worker (put_pool s p') i (set_pc w PExit))
  | PExit =>
      let p' := mk_pool (p_next p) (p_n p) (p_base p) (p_chunk_size p) (p_total p)
                        (u32 (p_finished p + 1)) (p_result p) (p_writer p) in
      Some (put_worker (put_pool s p') i (set_pc w PDone))
  | PDone => None
  end.

(** ** The writer thread *)

Definition chunk_writer_loop (i : io) (s : system) (wr : chunk_writer) : option system :=
  let put q n r pc := put_writer s (mk_writer q n (wr_done wr) r pc) in
  match wr_pc wr with
  | WrLoop =>
      match wr_queue wr with
      | j :: q =>
          Some (put q (wr_queued wr - zlen (j_buf j)) (wr_result wr) (WrJob j))
      | [] =>
          if wr_done wr then Some (put [] (wr_queued wr) (wr_result wr) WrExited)
          else Some s
      end
  | WrJob j =>
      if is_ok (wr_result wr) then
        '(res, f) ← chunk_write_at i (s_file s) (j_buf j) (j_offset j);
        Some (put_file (put (wr_queue wr) (wr_queued wr) (wr_result wr)
                            (if is_ok res then WrLoop else WrFail res)) f)
      else Some (put (wr_queue wr) (wr_queued wr) (wr_result wr) WrLoop)
  | WrFail res =>
      Some (put (wr_queue wr) (wr_queued wr)
                (if is_ok (wr_result wr) then res else wr_result wr) WrLoop)
  | WrExited => None
  end.

(** ** The driving thread: [chunk_download] *)

Definition chunk_worker_open (w : chunk_worker) (writer : bool) (dup_ok open_ok : bool)
  : CURLcode * chunk_worker :=
  let w := mk_worker 0 0 false PTop in
  if negb dup_ok then (CURLE_OUT_OF_MEMORY, w)
  else if negb writer && negb open_ok then (CURLE_WRITE_ERROR, w)
  else (CURLE_OK, w).

(** [for(i = 0; i < nworkers; i++)] opening the workers, with the outcomes of
    [curl_easy_duphandle] and [open]: the code and the workers opened. *)
Fixpoint open_workers (n : nat) (writer : bool) (outs : list (bool * bool))
  : CURLcode * list chunk_worker :=
  match n with
  | O => (CURLE_OK, [])
  | S n =>
      let '(dup_ok, open_ok) := default (true, true) (head outs) in
      let '(res, w) :=
        chunk_worker_open (mk_worker 0 0 false PTop) writer dup_ok open_ok in
      if negb (is_ok res) then (res, [])
      else let '(res, ws) := open_workers n writer (tail outs) in (res, w :: ws)
  end.

Definition chunk_count (region chunk_size : Z) : Z :=
  u32 (Z.quot (region + chunk_size - 1) chunk_size).

(** [chunk_download] up to the point where threads can run: an early return,
    or the system before the first thread starts. *)
Definition chunk_download_start (f : list Z) (total base : Z) (alloc_ok writer_ok : bool)
    (outs : list (bool * bool)) : CURLcode + system :=
  let region := total - base in
  let chunk_size := chunk_size_for region in
  let n := chunk_count region chunk_size in
  let nworkers := if n <? CHUNK_STREAMS then n else CHUNK_STREAMS in
  if negb alloc_ok then inl CURLE_OUT_OF_MEMORY
  else
    let writer := if writer_ok then Some (mk_writer [] 0 false CURLE_OK WrLoop)
                  else None in
    let pool := mk_pool 0 n base chunk_size total 0 CURLE_OK writer in
    let '(result, workers) := open_workers (Z.to_nat nworkers) writer_ok outs in
    inr (mk_system f pool workers
      (if is_ok result && negb (zlen workers =? 0) then DLaunch 0 0
       else DStopWriter result)).

(** The worker's thread has ended and is joined, if there was one. *)
Definition joinable (w : chunk_worker) : bool :=
  negb (w_threaded w) || match w_pc w with PDone => true | _ => false end.

Definition join_worker (w : chunk_worker) : chunk_worker :=
  mk_worker (w_cur_offset w) (w_written w) false (w_pc w).

Definition start_worker (w : chunk_worker) : chunk_worker :=
  mk_worker (w_cur_offset w) (w_written w) true (w_pc w).

(** [started] is the outcome of [pthread_create]. *)
Definition chunk_download (started : bool) (s : system) : option system :=
  let p := s_pool s in
  match s_driver s with
  | DLaunch i launched =>
      match s_workers s !! i with
      | Some w =>
          if started then
            Some (put_driver (put_worker s i (start_worker w))
                             (DLaunch (S i) (u32 (launched + 1))))
          else Some (put_driver s (DLaunch (S i) launched))
      | None =>
          Some (put_driver s (if launched =? 0 then DInline else DWait launched))
      end
  | DInline =>
      w ← s_workers s !! 0%nat;
      match w_pc w with PDone => Some (put_driver s DJoin) | _ => None end
  | DWait launched =>
      Some (put_driver s (if p_finished p >=? launched then DJoin else DWait launched))
  | DJoin =>
      if forallb joinable (s_workers s) then
        Some (mk_system (s_file s) p (map join_worker (s_workers s))
                        (DStopWriter (p_result p)))
      else None
  | DStopWriter result =>
      match p_writer p with
      | None => Some (put_driver s (DReturn result))
      | Some wr =>
          Some (put_driver (put_writer s (mk_writer (wr_queue wr) (wr_queued wr) true
                                            (wr_result wr) (wr_pc wr)))
                           (DJoinWriter result))
      end
  | DJoinWriter result =>
      wr ← p_writer p;
      match wr_pc wr with
      | WrExited =>
          Some (put_driver s (DReturn (if is_ok result then wr_result wr else result)))
      | _ => None
      end
  | DReturn _ => None
  end.

(** ** Interleavings *)

Inductive event :=
  | EvWorker (i : nat) (ch : choice)
  | EvWriter (i : io)
  | EvDriver (started : bool).

(** A worker runs on its own thread, or worker 0 on the driving thread. *)
Definition can_run (s : system) (i : nat) (w : chunk_worker) : bool :=
  w_threaded w ||
  match s_driver s with DInline => (i =? 0)%nat | _ => false end.

Definition exec (ev : event) (s : system) : option system :=
  match ev with
  | EvWorker i ch =>
      w ← s_workers s !! i;
      if can_run s i w then chunk_worker_loop ch s i w else None
  | EvWriter i => wr ← p_writer (s_pool s); chunk_writer_loop i s wr
  | EvDriver started => chunk_download started s
  end.

Fixpoint exec_all (evs : list event) (s : system) : option system :=
  match evs with
  | [] => Some s
  | ev :: evs => s ← exec ev s; exec_all evs s
  end.

Section runs.
Context (transfers : Z -> Z -> list (list Z) -> CURLcode -> Prop).

(** A transfer that starts in a step is one the parameter allows. *)
Definition event_ok (s : system) (ev : event) : Prop :=
  match ev with
  | EvWorker i ch =>
      forall w idx, s_workers s !! i = Some w -> w_pc w = PFetch idx ->
      let '(start, end_) := chunk_range (s_pool s) idx in
      transfers start end_ (ch_pieces ch) (ch_code ch)
  | _ => True
  end.

Definition step (s s' : system) : Prop :=
  exists ev, event_ok s ev /\ exec ev s = Some s'.

(** [chunk_download] on the file [f], as a whole: the code it can return and
    the file it leaves. *)
Inductive chunk_download_run (f : list Z) (total base : Z) : CURLcode -> list Z -> Prop :=
  | run_no_memory alloc_ok writer_ok outs r :
      chunk_download_start f total base alloc_ok writer_ok outs = inl r ->
      chunk_download_run f total base r f
  | run_threads alloc_ok writer_ok outs s s' r :
      chunk_download_start f total base alloc_ok writer_ok outs = inr s ->
      rtc step s s' -> s_driver s' = DReturn r ->
      chunk_download_run f total base r (s_file s').

(** ** [tool_chunk_download] *)

(** [(double)probe_len / (1024.0 * 1024.0) / ((double)ms / 1000.0)] in IEEE
    double precision, compared with [CHUNK_FAST_MIBPS]. *)
Definition dbl (x : Z) : spec_float := binary_normalize 53 1024 x 0 false.

Definition probe_is_fast (probe_len ms : Z) : bool :=
  let mibps :=
    if ms >? 0 then
      SFdiv 53 1024 (SFdiv 53 1024 (dbl probe_len) (dbl (1024 * 1024)))
                    (SFdiv 53 1024 (dbl ms) (dbl 1000))
    else dbl 1000000000 in
  SFleb (dbl 200) mibps.

Inductive tool_chunk_download (total : Z) : CURLcode -> list Z -> Prop :=
  | dl_presize f :
      chunk_presize false = None ->
      tool_chunk_download total CURLE_WRITE_ERROR f
  | dl_open f :
      chunk_presize true = Some f ->
      tool_chunk_download total CURLE_WRITE_ERROR f
  | dl_probe_fails f seek ps c ws r f' :
      chunk_presize true = Some f ->
      transfers 0 ((if total <? CHUNK_PROBE then total else CHUNK_PROBE) - 1) ps c ->
      chunk_stream_range seek ps c ws f 0 = Some (r, f') ->
      is_ok r = false ->
      tool_chunk_download total r f'
  | dl_probe_whole f seek ps c ws f' :
      let probe_len := if total <? CHUNK_PROBE then total else CHUNK_PROBE in
      chunk_presize true = Some f ->
      transfers 0 (probe_len - 1) ps c ->
      chunk_stream_range seek ps c ws f 0 = Some (CURLE_OK, f') ->
      (probe_len >=? total) = true ->
      tool_chunk_download total CURLE_OK f'
  | dl_single f seek ps c ws f1 ms seek2 ps2 c2 ws2 r f2 :
      let probe_len := if total <? CHUNK_PROBE then total else CHUNK_PROBE in
      chunk_presize true = Some f ->
      transfers 0 (probe_len - 1) ps c ->
      chunk_stream_range seek ps c ws f 0 = Some (CURLE_OK, f1) ->
      (probe_len >=? total) = false ->
      probe_is_fast probe_len ms = true ->
      transfers probe_len (total - 1) ps2 c2 ->
      chunk_stream_range seek2 ps2 c2 ws2 f1 probe_len = Some (r, f2) ->
      tool_chunk_download total r f2
  | dl_parallel f seek ps c ws f1 ms r f2 :
      let probe_len := if total <? CHUNK_PROBE then total else CHUNK_PROBE in
      chunk_presize true = Some f ->
      transfers 0 (probe_len - 1) ps c ->
      chunk_stream_range seek ps c ws f 0 = Some (CURLE_OK, f1) ->
      (probe_len >=? total) = false ->
      probe_is_fast probe_len ms = false ->
      chunk_download_run f1 total probe_len r f2 ->
      tool_chunk_download total r f2.

End runs.
