(* ===== verification/ChunkedFile.v ===== *)
(** The output file of a chunked download: what a write does to it, byte by
    byte, and the plan of byte ranges. *)

From Stdlib Require Import ZArith Lia List.
From stdpp Require Import base numbers option list.
From S2P Require Import Prelude Strcase ToolChunked.
Open Scope Z_scope.

(** * Writes *)

Lemma zlen_file_write f off bs :
  0 <= off -> bs <> [] ->
  zlen (file_write f off bs) = Z.max (zlen f) (off + zlen bs).
Proof.
  intros Ho Hb. unfold file_write. destruct bs as [|b bs]; [done|].
  set (l := b :: bs). set (f' := f ++ _).
  assert (Hf : zlen f' = Z.max (zlen f) off).
  { unfold f', zlen. rewrite length_app, length_replicate. lia. }
  pose proof (zlen_nonneg l). pose proof (zlen_nonneg f).
  rewrite !zlen_app, zlen_ztake, zlen_zdrop by lia. lia.
Qed.

(** The byte at position [p] after a write of [bs] at [off]. *)
Lemma file_write_lookup_in f off bs p :
  0 <= off <= p -> p < off + zlen bs ->
  file_write f off bs !! Z.to_nat p = bs !! Z.to_nat (p - off).
Proof.
  intros Hp Hlt. unfold file_write. destruct bs as [|b bs]; [rewrite zlen_nil in Hlt; lia|].
  set (l := b :: bs) in *. set (f' := f ++ _).
  assert (Hf : off <= zlen f').
  { unfold f', zlen. rewrite length_app, length_replicate. lia. }
  assert (Hk : length (ztake off f') = Z.to_nat off).
  { unfold ztake. rewrite length_take. unfold zlen in Hf. lia. }
  rewrite lookup_app_r, Hk by lia. rewrite lookup_app_l by (unfold zlen in *; lia).
  f_equal. lia.
Qed.

Lemma file_write_lookup_out f off bs p :
  0 <= off -> 0 <= p < zlen f -> p < off \/ off + zlen bs <= p ->
  file_write f off bs !! Z.to_nat p = f !! Z.to_nat p.
Proof.
  intros Ho Hp Hout. unfold file_write. destruct bs as [|b bs]; [done|].
  set (l := b :: bs) in *. set (f' := f ++ _).
  assert (Hf : off <= zlen f').
  { unfold f', zlen. rewrite length_app, length_replicate. lia. }
  assert (Hk : length (ztake off f') = Z.to_nat off).
  { unfold ztake. rewrite length_take. unfold zlen in Hf. lia. }
  assert (Hf' : f' !! Z.to_nat p = f !! Z.to_nat p).
  { unfold f'. apply lookup_app_l. unfold zlen in *. lia. }
  rewrite <- Hf'. destruct Hout as [Hlt|Hge].
  - rewrite lookup_app_l by lia. apply lookup_take_lt. lia.
  - pose proof (zlen_nonneg l). rewrite !lookup_app_r by (unfold zlen in *; lia).
    rewrite Hk. unfold zdrop. rewrite lookup_drop. f_equal. unfold zlen in *. lia.
Qed.

(** * The file against the resource *)

Section good.
Context (source : list Z).

(** Byte [p] of the file is there and is the resource's. *)
Definition good (f : list Z) (p : Z) : Prop :=
  0 <= p < zlen f /\ f !! Z.to_nat p = source !! Z.to_nat p.

(** A buffer that holds the resource's bytes at [off]. *)
Definition part (off : Z) (b : list Z) : Prop :=
  0 <= off /\ off + zlen b <= zlen source /\ b = slice source off (zlen b).

Lemma part_split off n b :
  part off b -> 0 <= n <= zlen b ->
  part off (ztake n b) /\ part (off + n) (zdrop n b).
Proof.
  intros (Ho & Hle & Hb) Hn.
  assert (Hs : b = slice source off n ++ slice source (off + n) (zlen b - n)).
  { rewrite <- slice_split by lia. by replace (n + (zlen b - n)) with (zlen b) by lia. }
  assert (Ht : ztake n b = slice source off n).
  { rewrite Hs at 1. rewrite <- (zlen_slice source off n) at 1 by lia.
    apply ztake_app_exact. }
  assert (Hd : zdrop n b = slice source (off + n) (zlen b - n)).
  { rewrite Hs at 1. rewrite <- (zlen_slice source off n) at 1 by lia.
    apply zdrop_app_exact. }
  unfold part. rewrite zlen_ztake, zlen_zdrop by lia.
  replace (Z.min n (zlen b)) with n by lia.
  replace (Z.max 0 (zlen b - n)) with (zlen b - n) by lia.
  split_and!; done || lia.
Qed.

Lemma part_app off a b : part off (a ++ b) <-> part off a /\ part (off + zlen a) b.
Proof.
  pose proof (zlen_nonneg a). pose proof (zlen_nonneg b). split.
  - intros Hp. destruct (part_split off (zlen a) (a ++ b) Hp) as [H1 H2].
    { rewrite zlen_app. lia. }
    by rewrite ztake_app_exact, zdrop_app_exact in *.
  - intros [(Ho & Hl & Ha) (Ho' & Hl' & Hb)]. unfold part. rewrite zlen_app.
    split_and!; try lia. rewrite slice_split by lia. congruence.
Qed.

Lemma part_lookup off b p :
  part off b -> off <= p < off + zlen b ->
  b !! Z.to_nat (p - off) = source !! Z.to_nat p.
Proof.
  intros (Ho & Hle & Hb) Hp. rewrite Hb, slice_lookup by lia. f_equal. lia.
Qed.

Lemma good_write_keep f off b p : part off b -> good f p -> good (file_write f off b) p.
Proof.
  intros Hpart [Hp Hg]. pose proof Hpart as (Ho & Hle & _).
  destruct (decide (b = [])) as [->|Hne]; [done|].
  split; [rewrite zlen_file_write by done; lia|].
  destruct (decide (off <= p < off + zlen b)) as [Hin|Hout].
  - rewrite file_write_lookup_in by lia. by apply part_lookup.
  - rewrite file_write_lookup_out by lia. done.
Qed.

Lemma good_write_new f off b p :
  part off b -> off <= p < off + zlen b -> good (file_write f off b) p.
Proof.
  intros Hpart Hp. pose proof Hpart as (Ho & Hle & _).
  assert (b <> []) by (intros ->; rewrite zlen_nil in Hp; lia).
  split; [rewrite zlen_file_write by done; lia|].
  rewrite file_write_lookup_in by lia. by apply part_lookup.
Qed.

Lemma zlen_file_write_le f off b :
  part off b -> zlen f <= zlen source -> zlen (file_write f off b) <= zlen source.
Proof.
  intros (Ho & Hle & _) Hf. destruct (decide (b = [])) as [->|Hne]; [done|].
  rewrite zlen_file_write by done. lia.
Qed.

(** What a sequence of writes of a buffer of the resource guarantees. *)
Definition write_post (f : list Z) (off n : Z) (ok : bool) (f' : list Z) : Prop :=
  (zlen f <= zlen source -> zlen f' <= zlen source) /\
  (forall p, good f p -> good f' p) /\
  (ok = true -> forall p, off <= p < off + n -> good f' p).

Lemma write_loop_post rcs f off b ok f' :
  part off b -> write_loop rcs f off b = Some (ok, f') ->
  write_post f off (zlen b) ok f'.
Proof.
  revert f off b; induction rcs as [|rc rcs IH]; intros f off b Hpart Hw;
    (destruct b as [|x b];
     [cbn in Hw; injection Hw as <- <-; split_and!;
      [done|done|intros _ p; rewrite zlen_nil; lia]|]); [done|].
  set (l := x :: b) in *. change (write_loop (rc :: rcs) f off l)
    with (let '(rc, f) := chunk_raw_write f off l rc in
          if rc <? 0 then Some (false, f) else write_loop rcs f (off + rc) (zdrop rc l))
    in Hw.
  unfold chunk_raw_write in Hw. pose proof (zlen_nonneg l).
  destruct (Z.min rc (zlen l) <? 0) eqn:Hneg; zb_hyps.
  { injection Hw as <- <-. by split_and!. }
  set (n := Z.min rc (zlen l)) in *.
  destruct (part_split off n l Hpart) as [Ha Hb]; [lia|].
  destruct (IH _ _ _ Hb Hw) as (Hl & Hk & Hn).
  split_and!.
  - intros Hf. apply Hl. by apply zlen_file_write_le.
  - intros p Hp. apply Hk. by apply good_write_keep.
  - intros Hok p Hp. destruct (decide (p < off + n)).
    + apply Hk, good_write_new; [done|]. rewrite zlen_ztake by lia. lia.
    + apply Hn; [done|]. rewrite zlen_zdrop by lia. lia.
Qed.

Lemma chunk_write_at_post i f b off r f' :
  part off b -> chunk_write_at i f b off = Some (r, f') ->
  write_post f off (zlen b) (is_ok r) f'.
Proof.
  intros Hpart. unfold chunk_write_at. case_if; [by intros [= <- <-]; split_and!|].
  destruct (write_loop (io_writes i) f off b) as [[ok f1]|] eqn:Hw; [|done].
  intros [= <- <-]. pose proof (write_loop_post _ _ _ _ _ _ Hpart Hw).
  by destruct ok.
Qed.

(** A file whose bytes are all the resource's is the resource. *)
Lemma good_all f :
  zlen f <= zlen source -> (forall p, 0 <= p < zlen source -> good f p) -> f = source.
Proof.
  intros Hle Hall. apply list_eq. intros i.
  destruct (decide (Z.of_nat i < zlen source)) as [Hi|Hi].
  - destruct (Hall (Z.of_nat i)) as [_ Hg]; [lia|]. by rewrite Nat2Z.id in Hg.
  - rewrite !lookup_ge_None_2; [done| |]; unfold zlen in *; lia.
Qed.

End good.

(** * The plan *)

(** 2 EiB: the bound that the theorems on whole downloads use; below it the
    number of pieces fits an [unsigned int] and no offset leaves
    [curl_off_t]. *)
Definition MAX_TOTAL : Z := 2305843009213693952.

Lemma chunk_size_for_bounds region :
  0 <= region -> CHUNK_MIN <= chunk_size_for region <= CHUNK_MAX.
Proof.
  intros. unfold chunk_size_for, CHUNK_MIN, CHUNK_MAX. repeat case_if; lia.
Qed.

(** The piece size is the region over [CHUNK_TARGET] unless clamped. *)
Lemma chunk_size_for_target region :
  0 <= region -> chunk_size_for region = CHUNK_MAX \/ region < 65 * chunk_size_for region.
Proof.
  intros H. unfold chunk_size_for, CHUNK_MIN, CHUNK_MAX, CHUNK_TARGET, CHUNK_STREAMS.
  rewrite Z.quot_div_nonneg by lia.
  pose proof (Z.div_mod region (8 * 8)). pose proof (Z.mod_pos_bound region (8 * 8)).
  repeat case_if; lia.
Qed.

(** The largest region whose pieces an [unsigned int] counts: 4 EiB less
    1 GiB. *)
Definition PLAN_MAX : Z := UINT32_MAX * CHUNK_MAX.

(** The number of pieces before it is stored in an [unsigned int]. *)
Lemma chunk_quot_spec region :
  0 < region ->
  let cs := chunk_size_for region in
  let q := Z.quot (region + cs - 1) cs in
  1 <= q /\ (q - 1) * cs < region <= q * cs.
Proof.
  intros H cs q. assert (Hc : CHUNK_MIN <= cs <= CHUNK_MAX) by (apply chunk_size_for_bounds; lia).
  unfold q, CHUNK_MIN in *. rewrite Z.quot_div_nonneg by lia.
  pose proof (Z.div_mod (region + cs - 1) cs ltac:(lia)).
  pose proof (Z.mod_pos_bound (region + cs - 1) cs ltac:(lia)). nia.
Qed.

(** The number of pieces of a region up to [PLAN_MAX]: they cover the region
    and the last is not empty. *)
Lemma chunk_count_fits region :
  0 < region <= PLAN_MAX ->
  let cs := chunk_size_for region in
  let n := chunk_count region cs in
  1 <= n <= UINT32_MAX /\ (n - 1) * cs < region <= n * cs.
Proof.
  intros H cs n. destruct (chunk_quot_spec region) as [Hq Hr]; [lia|]. fold cs in Hq, Hr.
  unfold n, chunk_count. set (q := Z.quot (region + cs - 1) cs) in *.
  assert (Hc : CHUNK_MIN <= cs <= CHUNK_MAX) by (apply chunk_size_for_bounds; lia).
  assert (Ht : cs = CHUNK_MAX \/ region < 65 * cs) by (apply chunk_size_for_target; lia).
  assert (q <= UINT32_MAX).
  { unfold PLAN_MAX, UINT32_MAX, CHUNK_MIN, CHUNK_MAX in *. destruct Ht as [Ht|Ht]; nia. }
  by rewrite u32_small by lia.
Qed.

(** Beyond it the stored number is short by at least [2^32] pieces, and the
    pieces end before the region does. *)
Lemma chunk_count_truncated region :
  PLAN_MAX < region <= CURL_OFF_T_MAX ->
  let cs := chunk_size_for region in
  let n := chunk_count region cs in
  0 <= n <= UINT32_MAX /\ n * cs < region - 1.
Proof.
  intros H cs n. unfold PLAN_MAX, UINT32_MAX, CHUNK_MAX, CURL_OFF_T_MAX in *.
  destruct (chunk_quot_spec region) as [Hq Hr]; [lia|]. fold cs in Hq, Hr.
  unfold n, chunk_count. set (q := Z.quot (region + cs - 1) cs) in *.
  assert (Hc : CHUNK_MIN <= cs <= CHUNK_MAX) by (apply chunk_size_for_bounds; lia).
  assert (Ht : cs = CHUNK_MAX \/ region < 65 * cs) by (apply chunk_size_for_target; lia).
  unfold CHUNK_MIN, CHUNK_MAX in *. assert (cs = 1073741824) as Hcs by lia. rewrite Hcs in *.
  unfold u32. change (2 ^ 32) with 4294967296. pose proof (Z.mod_pos_bound q 4294967296 ltac:(lia)).
  pose proof (Z.div_mod q 4294967296 ltac:(lia)).
  assert (1 <= q / 4294967296) by (apply Z.div_le_lower_bound; lia). lia.
Qed.

Lemma chunk_count_spec region :
  0 < region <= MAX_TOTAL ->
  let cs := chunk_size_for region in
  let n := chunk_count region cs in
  1 <= n <= UINT32_MAX /\ (n - 1) * cs < region <= n * cs.
Proof. intros H. apply chunk_count_fits. unfold PLAN_MAX, MAX_TOTAL, UINT32_MAX, CHUNK_MAX in *. lia. Qed.

(** The pool [chunk_download] sets up for a region. *)
Definition plan_pool (total base : Z) : chunk_pool :=
  let cs := chunk_size_for (total - base) in
  mk_pool 0 (chunk_count (total - base) cs) base cs total 0 CURLE_OK None.

(** C2: for a total size that leaves room for one more piece below
    [CURL_OFF_T_MAX], the byte ranges planned for the region [base,total)
    start at [base], follow each other without gap or overlap, none is empty,
    larger than the piece size or beyond the total, and no computed offset
    exceeds [curl_off_t].  They reach the end of the region exactly when it
    has at most [PLAN_MAX] bytes (4 EiB less 1 GiB): then there is a piece
    and the last ends at [total - 1], so that they partition the region;
    beyond that the [unsigned int] number of pieces is truncated and every
    piece ends before the last byte. *)
Theorem chunk_plan_partitions total base :
  0 <= base < total -> total <= CURL_OFF_T_MAX - CHUNK_MAX ->
  let p := plan_pool total base in
  fst (chunk_range p 0) = base /\
  total - base + p_chunk_size p - 1 <= CURL_OFF_T_MAX /\
  (forall idx, 0 <= idx < p_n p ->
    let '(start, end_) := chunk_range p idx in
    base <= start <= end_ /\ end_ < total /\
    end_ - start + 1 <= p_chunk_size p /\
    start + p_chunk_size p - 1 <= CURL_OFF_T_MAX /\
    (idx + 1 < p_n p -> fst (chunk_range p (idx + 1)) = end_ + 1)) /\
  if total - base <=? PLAN_MAX then 1 <= p_n p /\ snd (chunk_range p (p_n p - 1)) = total - 1
  else forall idx, 0 <= idx < p_n p -> snd (chunk_range p idx) < total - 1.
Proof.
  intros Hb Ht p. pose proof (chunk_size_for_bounds (total - base) ltac:(lia)) as Hs.
  unfold p, plan_pool, chunk_range in *. cbn [p_n p_base p_chunk_size p_total fst snd].
  set (cs := chunk_size_for (total - base)) in *. set (n := chunk_count (total - base) cs) in *.
  unfold CHUNK_MIN, CHUNK_MAX, CURL_OFF_T_MAX in Hs, Ht |- *.
  assert (Hn : 0 <= n /\ (n - 1) * cs < total - base).
  { destruct (Z.le_gt_cases (total - base) PLAN_MAX).
    - destruct (chunk_count_fits (total - base)) as [_ Hc]; [lia|]. fold cs n in Hc. lia.
    - destruct (chunk_count_truncated (total - base)) as [Hn Hc];
        [unfold CURL_OFF_T_MAX; lia|]. fold cs n in Hn, Hc. nia. }
  split; [lia|]. split; [lia|]. split.
  - intros idx Hi. assert (idx * cs <= (n - 1) * cs) by nia.
    assert (idx + 1 < n -> (idx + 1) * cs <= (n - 1) * cs) by nia.
    case_if; (split; [nia|]); (split; [nia|]); (split; [nia|]); (split; [nia|]); intros; nia.
  - destruct (total - base <=? PLAN_MAX) eqn:Ep; zb_hyps.
    + destruct (chunk_count_fits (total - base)) as [? Hc]; [lia|]. fold cs n in Hc.
      split; [lia|]. case_if; nia.
    + destruct (chunk_count_truncated (total - base)) as [_ Hc];
        [unfold CURL_OFF_T_MAX; lia|]. fold cs n in Hc.
      intros idx Hi. assert ((idx + 1) * cs <= n * cs) by nia. case_if; nia.
Qed.

Lemma chunk_plan_partitions_witness :
  let p := plan_pool 5368709120 67108864 in
  fst (chunk_range p 0) = 67108864 /\
  5368709120 - 67108864 + p_chunk_size p - 1 <= CURL_OFF_T_MAX /\
  (forall idx, 0 <= idx < p_n p ->
    let '(start, end_) := chunk_range p idx in
    67108864 <= start <= end_ /\ end_ < 5368709120 /\
    end_ - start + 1 <= p_chunk_size p /\
    start + p_chunk_size p - 1 <= CURL_OFF_T_MAX /\
    (idx + 1 < p_n p -> fst (chunk_range p (idx + 1)) = end_ + 1)) /\
  if 5368709120 - 67108864 <=? PLAN_MAX then 1 <= p_n p /\ snd (chunk_range p (p_n p - 1)) = 5368709120 - 1
  else forall idx, 0 <= idx < p_n p -> snd (chunk_range p idx) < 5368709120 - 1.
Proof.
  apply (chunk_plan_partitions 5368709120 67108864); unfold CURL_OFF_T_MAX, CHUNK_MAX; lia.
Defined.

(** * Single-stream transfers *)

Lemma seq_perform_post source ps c ws f pos r f' :
  part source pos (concat ps) -> seq_perform ps c ws f pos = Some (r, f') ->
  write_post source f pos (zlen (concat ps)) (is_ok r) f' /\ (is_ok r = true -> r = c).
Proof.
  revert ws f pos; induction ps as [|b ps IH]; intros ws f pos Hpart Hrun.
  { cbn in Hrun. injection Hrun as <- <-. split; [|done].
    split_and!; try done. intros _ p. cbn [concat]. rewrite zlen_nil. lia. }
  cbn [concat] in *. apply part_app in Hpart as [Hb Hps].
  destruct ws as [|w ws]; [done|]. cbn [seq_perform] in Hrun.
  unfold chunk_seq_write_cb in Hrun.
  destruct (write_loop w f pos b) as [[ok f1]|] eqn:Hw; [|done].
  destruct (write_loop_post _ _ _ _ _ _ _ Hb Hw) as (Hl & Hk & Hn).
  cbn [mbind option_bind] in Hrun.
  destruct (negb ((if ok then zlen b else 0) =? zlen b)) eqn:Hcnt; zb_hyps.
  { injection Hrun as <- <-. split; [|done]. split_and!; done. }
  destruct (IH _ _ _ Hps Hrun) as [(Hl2 & Hk2 & Hn2) Hr].
  split; [|done]. rewrite zlen_app. split_and!; auto.
  intros Hok p Hp. destruct (decide (p < pos + zlen b)).
  - apply Hk2. destruct ok; [apply Hn; [done|lia]|]. exfalso. lia.
  - apply Hn2; [done|]. lia.
Qed.
