(* ===== verification/ChunkedPool.v ===== *)
(** The thread pool of a chunked download: the invariant of every
    interleaving and the theorem that a download which reports success has
    written the resource. *)

From Stdlib Require Import ZArith Lia List.
From stdpp Require Import base numbers option list relations.
From S2P Require Import Prelude Strcase ToolChunked ChunkedFile.
Open Scope Z_scope.

(** What the download relies on: the buffers of a transfer with a byte range
    are, concatenated, a prefix of that range of the resource, and the whole
    of it when the transfer reports success. *)
Definition ranges_honoured (source : list Z)
    (transfers : Z -> Z -> list (list Z) -> CURLcode -> Prop) : Prop :=
  forall s e ps c, 0 <= s <= e -> e < zlen source -> transfers s e ps c ->
  exists k, 0 <= k <= e - s + 1 /\ concat ps = slice source s k /\
            (c = CURLE_OK -> k = e - s + 1).

Section pool.
Context (transfers : Z -> Z -> list (list Z) -> CURLcode -> Prop).
Context (source : list Z) (base cs n : Z).
Context (Hhon : ranges_honoured source transfers).
Context (Hbase : 0 <= base < zlen source).
Context (Hcs : 0 < cs) (Hn : 1 <= n <= UINT32_MAX).
Context (Hcover : (n - 1) * cs < zlen source - base <= n * cs).

Implicit Types (s : system) (w : chunk_worker) (wr : chunk_writer).

Definition cstart (idx : Z) : Z := base + idx * cs.
Definition cend (idx : Z) : Z := Z.min (cstart idx + cs) (zlen source).

(** * Delivered bytes *)

(** The jobs the writer has yet to write. *)
Definition wr_jobs wr : list chunk_wjob :=
  match wr_pc wr with WrJob j => j :: wr_queue wr | _ => wr_queue wr end.

Definition wr_failed wr : Prop :=
  wr_result wr <> CURLE_OK \/ exists r, wr_pc wr = WrFail r.

Definition in_job (p : Z) (j : chunk_wjob) : Prop :=
  j_offset j <= p < j_offset j + zlen (j_buf j).

(** Byte [p] is in the file, or on its way to it, or the writer has failed. *)
Definition delivered_to (f : list Z) (owr : option chunk_writer) (p : Z) : Prop :=
  good source f p \/
  exists wr, owr = Some wr /\ (wr_failed wr \/ Exists (in_job p) (wr_jobs wr)).

Definition delivered s (p : Z) : Prop := delivered_to (s_file s) (p_writer (s_pool s)) p.

Definition chunk_delivered s (idx : Z) : Prop :=
  forall p, cstart idx <= p < cend idx -> delivered s p.

(** * The invariant *)

(** The worker is on chunk [idx]. *)
Definition working w (idx : Z) : Prop :=
  match w_pc w with
  | PFetch j | PRecv j _ _ | PEnqueue j _ _ _ => j = idx
  | _ => False
  end.

(** A transfer under way: [body] is still to come from [cur_offset] on. *)
Definition fetch_ok s w (idx : Z) (body : list Z) (c : CURLcode) : Prop :=
  0 <= idx < p_next (s_pool s) /\
  cstart idx <= w_cur_offset w /\ w_cur_offset w + zlen body <= cend idx /\
  part source (w_cur_offset w) body /\
  (c = CURLE_OK -> w_cur_offset w + zlen body = cend idx) /\
  (forall p, cstart idx <= p < w_cur_offset w -> delivered s p).

Definition drained s : Prop :=
  p_result (s_pool s) <> CURLE_OK \/ n <= p_next (s_pool s).

Definition worker_ok s w : Prop :=
  match w_pc w with
  | PTop => True
  | PFetch idx => 0 <= idx < p_next (s_pool s)
  | PRecv idx ps c => fetch_ok s w idx (concat ps) c
  | PEnqueue idx b ps c =>
      b <> [] /\ fetch_ok s w idx (b ++ concat ps) c
  | PError res => res <> CURLE_OK
  | PExit | PDone => drained s
  end.

(** Some transfer has failed and it is recorded or about to be. *)
Definition errored s : Prop :=
  p_result (s_pool s) <> CURLE_OK \/
  exists i w r, s_workers s !! i = Some w /\ w_pc w = PError r.

Definition covered s (idx : Z) : Prop :=
  errored s \/ (exists i w, s_workers s !! i = Some w /\ working w idx) \/
  chunk_delivered s idx.

Definition stopping (d : driver_pc) : Prop :=
  match d with DJoinWriter _ | DReturn _ => True | _ => False end.

Definition writer_ok (d : driver_pc) wr : Prop :=
  Forall (fun j => part source (j_offset j) (j_buf j)) (wr_jobs wr) /\
  (forall r, wr_pc wr = WrFail r -> r <> CURLE_OK) /\
  (wr_pc wr = WrExited -> wr_queue wr = [] /\ wr_done wr = true) /\
  (wr_done wr = true -> stopping d).

(** A worker without a thread does nothing, unless the driver runs it. *)
Definition quiet (d : driver_pc) (i : nat) w : Prop :=
  w_threaded w = false ->
  w_pc w = PTop \/ w_pc w = PDone \/ d = DInline /\ i = 0%nat.

Definition some_worker s (P : chunk_worker -> Prop) : Prop :=
  exists i w, s_workers s !! i = Some w /\ P w.

Definition all_joined s : Prop := Forall (fun w => w_threaded w = false) (s_workers s).

Definition driver_ok s : Prop :=
  match s_driver s with
  | DLaunch i l =>
      0 <= l <= Z.of_nat i /\ (i <= length (s_workers s))%nat /\
      (l = 0 -> all_joined s) /\
      (l <> 0 -> some_worker s (fun w => w_threaded w = true))
  | DInline => all_joined s /\ (0 < length (s_workers s))%nat
  | DWait _ => some_worker s (fun w => w_threaded w = true)
  | DJoin => some_worker s (fun w => w_threaded w = true \/ w_pc w = PDone)
  | DStopWriter r | DJoinWriter r =>
      all_joined s /\
      (r = CURLE_OK -> forall p, base <= p < zlen source -> delivered s p)
  | DReturn r =>
      all_joined s /\
      (r = CURLE_OK -> forall p, base <= p < zlen source -> good source (s_file s) p)
  end.

Record inv s : Prop := {
  i_pool : p_base (s_pool s) = base /\ p_chunk_size (s_pool s) = cs /\
           p_total (s_pool s) = zlen source /\ p_n (s_pool s) = n;
  i_next : 0 <= p_next (s_pool s) <= n;
  i_len : zlen (s_file s) <= zlen source;
  i_base : forall p, 0 <= p < base -> good source (s_file s) p;
  i_writer : forall wr, p_writer (s_pool s) = Some wr -> writer_ok (s_driver s) wr;
  i_workers : forall i w, s_workers s !! i = Some w ->
              worker_ok s w /\ quiet (s_driver s) i w;
  i_count : (0 < length (s_workers s) <= 8)%nat \/
            exists r, r <> CURLE_OK /\ (s_driver s = DStopWriter r \/
              s_driver s = DJoinWriter r \/ s_driver s = DReturn r);
  i_cover : forall idx, 0 <= idx < p_next (s_pool s) -> covered s idx;
  i_driver : driver_ok s
}.

(** * Growth of the delivered bytes *)

(** [s'] comes after [s]: nothing delivered is lost, an error stays. *)
Record later s s' : Prop := {
  l_next : p_next (s_pool s) <= p_next (s_pool s');
  l_result : p_result (s_pool s) <> CURLE_OK -> p_result (s_pool s') <> CURLE_OK;
  l_delivered : forall p, delivered s p -> delivered s' p
}.

Lemma worker_ok_later s s' w : later s s' -> worker_ok s w -> worker_ok s' w.
Proof.
  intros [Hnx Hres Hdel]. unfold worker_ok, fetch_ok, drained.
  destruct (w_pc w); try done; try lia.
  - intros (? & ? & ? & ? & ? & ?). split_and!; auto; lia.
  - intros (? & ? & ? & ? & ? & ? & ?). split_and!; auto; lia.
  - intros [?|?]; [left; auto|right; lia].
  - intros [?|?]; [left; auto|right; lia].
Qed.

Lemma chunk_delivered_later s s' idx :
  later s s' -> chunk_delivered s idx -> chunk_delivered s' idx.
Proof. intros [_ _ Hd] H p Hp. auto. Qed.

Lemma chunk_range_eq p idx :
  p_base p = base -> p_chunk_size p = cs -> p_total p = zlen source ->
  chunk_range p idx = (cstart idx, cend idx - 1).
Proof.
  intros Hb Hc Ht. unfold chunk_range, cend, cstart. rewrite Hb, Hc, Ht.
  f_equal. case_if; lia.
Qed.

Lemma cend_bounds idx : 0 <= idx < n -> cstart idx < cend idx <= zlen source.
Proof. intros H. unfold cend, cstart. nia. Qed.

(** Every byte of the region belongs to a chunk. *)
Lemma chunk_of p :
  base <= p < zlen source -> exists idx, 0 <= idx < n /\ cstart idx <= p < cend idx.
Proof.
  intros Hp. exists ((p - base) / cs). unfold cend, cstart.
  pose proof (Z.div_mod (p - base) cs ltac:(lia)).
  pose proof (Z.mod_pos_bound (p - base) cs ltac:(lia)).
  pose proof (Z.div_pos (p - base) cs ltac:(lia) ltac:(lia)).
  split; [|split; nia]. split; [lia|]. nia.
Qed.

(** * Steps of a worker *)

Lemma covered_update s s' i w w' idx :
  later s s' -> s_workers s !! i = Some w ->
  s_workers s' = <[i := w']> (s_workers s) ->
  (forall r, w_pc w = PError r -> p_result (s_pool s') <> CURLE_OK) ->
  (working w idx -> working w' idx \/ errored s' \/ chunk_delivered s' idx) ->
  covered s idx -> covered s' idx.
Proof.
  intros Hl Hi Hws Herr Hw.
  assert (Hlt : (i < length (s_workers s))%nat) by (by eapply lookup_lt_Some).
  assert (Hi' : s_workers s' !! i = Some w')
    by (rewrite Hws; by apply list_lookup_insert_eq).
  intros [[Hr|(k & v & r & Hk & Hv)]|[(k & v & Hk & Hv)|Hd]].
  - left; left. by apply (l_result _ _ Hl).
  - left. destruct (decide (k = i)) as [->|Hne].
    + left. rewrite Hi in Hk. injection Hk as <-. by eapply Herr.
    + right. exists k, v, r. by rewrite Hws, list_lookup_insert_ne.
  - destruct (decide (k = i)) as [->|Hne].
    + rewrite Hi in Hk. injection Hk as <-. destruct (Hw Hv) as [H|[H|H]].
      * right; left. by exists i, w'.
      * by left.
      * by right; right.
    + right; left. exists k, v. by rewrite Hws, list_lookup_insert_ne.
  - right; right. by eapply chunk_delivered_later.
Qed.

Lemma some_worker_update s s' i w w' P :
  s_workers s !! i = Some w -> s_workers s' = <[i := w']> (s_workers s) ->
  (P w -> P w') -> some_worker s P -> some_worker s' P.
Proof.
  intros Hi Hws HP (k & v & Hk & Hv).
  assert (Hlt : (i < length (s_workers s))%nat) by (by eapply lookup_lt_Some).
  destruct (decide (k = i)) as [->|Hne].
  - exists i, w'. rewrite Hws, list_lookup_insert_eq by done.
    rewrite Hi in Hk. injection Hk as <-. auto.
  - exists k, v. by rewrite Hws, list_lookup_insert_ne.
Qed.

Lemma all_joined_update s s' i w w' :
  s_workers s !! i = Some w -> s_workers s' = <[i := w']> (s_workers s) ->
  w_threaded w' = w_threaded w -> all_joined s -> all_joined s'.
Proof.
  intros Hi Hws Ht Hall. unfold all_joined. rewrite Hws.
  apply Forall_insert; [done|]. rewrite Ht.
  exact (Forall_lookup_1 _ _ _ _ Hall Hi).
Qed.

(** A worker cannot step once the workers are joined. *)
Lemma can_run_joined s i w :
  can_run s i w = true -> s_workers s !! i = Some w -> all_joined s ->
  s_driver s = DInline /\ i = 0%nat.
Proof.
  intros Hrun Hi Hall. pose proof (Forall_lookup_1 _ _ _ _ Hall Hi) as Ht. cbn in Ht.
  unfold can_run in Hrun. rewrite Ht in Hrun. cbn [orb] in Hrun.
  destruct (s_driver s); try done. split; [done|]. by apply Nat.eqb_eq.
Qed.

Lemma driver_ok_worker s s' i w w' :
  s_workers s !! i = Some w -> s_workers s' = <[i := w']> (s_workers s) ->
  s_driver s' = s_driver s -> w_threaded w' = w_threaded w -> w_pc w <> PDone ->
  can_run s i w = true -> driver_ok s -> driver_ok s'.
Proof.
  intros Hi Hws Hd Ht Hpc Hrun. unfold driver_ok. rewrite Hd, Hws, length_insert.
  pose proof (can_run_joined s i w Hrun Hi) as Hj.
  destruct (s_driver s) eqn:Ed.
  - intros (? & ? & ? & ?). split; [done|]. split; [done|]. split.
    + intros. eapply all_joined_update; eauto.
    + intros. eapply some_worker_update; eauto; cbn; by rewrite ?Ht.
  - intros [? ?]. split; [|done]. eapply all_joined_update; eauto.
  - intros. eapply some_worker_update; eauto; cbn; by rewrite ?Ht.
  - intros. eapply some_worker_update; eauto; cbn; rewrite ?Ht; tauto.
  - intros [Hall _]. by destruct (Hj Hall).
  - intros [Hall _]. by destruct (Hj Hall).
  - intros [Hall _]. by destruct (Hj Hall).
Qed.

(** The invariant after a step of worker [i] that leaves [w'] in its place. *)
Lemma inv_worker_step s s' i w w' :
  inv s -> s_workers s !! i = Some w -> can_run s i w = true -> w_pc w <> PDone ->
  s_workers s' = <[i := w']> (s_workers s) -> s_driver s' = s_driver s ->
  w_threaded w' = w_threaded w -> later s s' ->
  (p_base (s_pool s') = p_base (s_pool s) /\
   p_chunk_size (s_pool s') = p_chunk_size (s_pool s) /\
   p_total (s_pool s') = p_total (s_pool s) /\ p_n (s_pool s') = p_n (s_pool s)) ->
  p_next (s_pool s') <= n ->
  zlen (s_file s') <= zlen source ->
  (forall p, good source (s_file s) p -> good source (s_file s') p) ->
  (forall wr, p_writer (s_pool s') = Some wr -> writer_ok (s_driver s) wr) ->
  worker_ok s' w' ->
  (forall r, w_pc w = PError r -> p_result (s_pool s') <> CURLE_OK) ->
  (forall idx, 0 <= idx < p_next (s_pool s) -> working w idx ->
     working w' idx \/ errored s' \/ chunk_delivered s' idx) ->
  (forall idx, p_next (s_pool s) <= idx < p_next (s_pool s') -> working w' idx) ->
  inv s'.
Proof.
  intros [Hp Hnx Hlen Hb Hwr Hws Hcnt Hcov Hdr] Hi Hrun Hpc Ews Ed Et Hl Hcst Hnx'
    Hlen' Hgood Hwr' Hok Herr Hwork Hnew.
  assert (Hlt : (i < length (s_workers s))%nat) by (by eapply lookup_lt_Some).
  constructor.
  - destruct Hcst as (-> & -> & -> & ->). done.
  - pose proof (l_next _ _ Hl). lia.
  - done.
  - auto.
  - by rewrite Ed.
  - intros k v Hk. rewrite Ews in Hk. rewrite Ed.
    destruct (decide (k = i)) as [->|Hne].
    + rewrite list_lookup_insert_eq in Hk by done. injection Hk as <-. split; [done|].
      intros Hth. right; right. unfold can_run in Hrun. rewrite <- Et, Hth in Hrun.
      cbn [orb] in Hrun. destruct (s_driver s); try done. split; [done|].
      by apply Nat.eqb_eq.
    + rewrite list_lookup_insert_ne in Hk by done. destruct (Hws _ _ Hk). split; [|done].
      by eapply worker_ok_later.
  - by rewrite Ews, Ed, length_insert.
  - intros idx Hidx. destruct (decide (idx < p_next (s_pool s))) as [Hold|Hnewi].
    + eapply covered_update; eauto. { intros. apply Hwork; [lia|done]. }
      apply Hcov. lia.
    + right; left. exists i, w'. rewrite Ews, list_lookup_insert_eq by done.
      split; [done|]. apply Hnew. lia.
  - by eapply driver_ok_worker.
Qed.

Lemma later_same s s' :
  p_next (s_pool s) <= p_next (s_pool s') ->
  (p_result (s_pool s) <> CURLE_OK -> p_result (s_pool s') <> CURLE_OK) ->
  s_file s' = s_file s -> p_writer (s_pool s') = p_writer (s_pool s) -> later s s'.
Proof.
  intros Hnx Hr Hf Hw. constructor; try done.
  intros p. unfold delivered. by rewrite Hf, Hw.
Qed.

(** A step that only changes the worker itself. *)
Lemma inv_worker_local s i w w' :
  inv s -> s_workers s !! i = Some w -> can_run s i w = true ->
  w_pc w <> PDone -> (forall r, w_pc w <> PError r) ->
  w_threaded w' = w_threaded w -> worker_ok s w' ->
  (forall idx, 0 <= idx < p_next (s_pool s) -> working w idx ->
     working w' idx \/ (exists r, w_pc w' = PError r) \/ chunk_delivered s idx) ->
  inv (put_worker s i w').
Proof.
  intros Hinv Hi Hrun Hpc Hne Et Hok Hwork. pose proof Hinv as [? [? ?] ? ? ? ? ? ? ?].
  assert (Hlt : (i < length (s_workers s))%nat) by (by eapply lookup_lt_Some).
  eapply (inv_worker_step s _ i w w'); try done; try by apply later_same.
  - intros r Hr. by destruct (Hne r).
  - intros idx Hidx Hw. destruct (Hwork idx Hidx Hw) as [?|[[r ?]|?]]; auto.
    right; left. right. exists i, w', r. split; [|done].
    by apply list_lookup_insert_eq.
  - intros idx Hidx. cbn in Hidx. lia.
Qed.

Lemma inv_top s i w ch s' :
  inv s -> s_workers s !! i = Some w -> can_run s i w = true -> w_pc w = PTop ->
  chunk_worker_loop ch s i w = Some s' -> inv s'.
Proof.
  intros Hinv Hi Hrun Epc. unfold chunk_worker_loop. rewrite Epc.
  pose proof Hinv as [(_ & _ & _ & Hpn) Hnx Hlen _ Hwr _ _ _ _].
  destruct (negb (is_ok (p_result (s_pool s))) || (p_next (s_pool s) >=? p_n (s_pool s)))
    eqn:E; intros [= <-].
  - eapply inv_worker_local; eauto; rewrite ?Epc; try done.
    + apply orb_true_iff in E as [E|E]; [left|right]; zb_hyps.
      * by apply is_ok_false.
      * rewrite Hpn in E. lia.
    + intros idx _. unfold working. by rewrite Epc.
  - zb_hyps. rewrite Hpn in *. apply is_ok_iff in H.
    assert (Hu : u32 (p_next (s_pool s) + 1) = p_next (s_pool s) + 1).
    { apply u32_small. unfold UINT32_MAX in *. lia. }
    eapply (inv_worker_step s _ i w); eauto; cbn; rewrite ?Hu, ?Epc; try done; try lia.
    + apply later_same; cbn; try done. lia.
    + intros idx _. unfold working. by rewrite Epc.
Qed.

Lemma inv_fetch s i w ch s' idx :
  inv s -> s_workers s !! i = Some w -> can_run s i w = true -> w_pc w = PFetch idx ->
  event_ok transfers s (EvWorker i ch) ->
  chunk_worker_loop ch s i w = Some s' -> inv s'.
Proof.
  intros Hinv Hi Hrun Epc Hev. unfold chunk_worker_loop. rewrite Epc. intros [= <-].
  pose proof Hinv as [(Hb & Hc & Ht & _) Hnx _ _ _ Hws _ _ _].
  destruct (Hws i w Hi) as [Hidx _]. unfold worker_ok in Hidx. rewrite Epc in Hidx.
  specialize (Hev w idx Hi Epc). unfold chunk_fetch_one.
  rewrite (chunk_range_eq (s_pool s) idx Hb Hc Ht) in Hev |- *. cbn [fst].
  pose proof (cend_bounds idx ltac:(lia)) as Hce.
  assert (Hcs0 : 0 <= cstart idx) by (unfold cstart; nia).
  destruct (Hhon (cstart idx) (cend idx - 1) (ch_pieces ch) (ch_code ch))
    as (k & Hk & Hbody & Hfull); [lia|lia|done|].
  assert (Hzl : zlen (concat (ch_pieces ch)) = k).
  { rewrite Hbody, zlen_slice by lia. done. }
  eapply inv_worker_local; eauto; rewrite ?Epc; try done.
  - unfold worker_ok, fetch_ok, part. cbn. rewrite Hzl. split_and!; try lia; try done.
    intros Hcode. specialize (Hfull Hcode). lia.
  - intros j Hj. unfold working. rewrite Epc. cbn. auto.
Qed.

Lemma inv_recv_end s i w ch s' idx c :
  inv s -> s_workers s !! i = Some w -> can_run s i w = true ->
  w_pc w = PRecv idx [] c -> chunk_worker_loop ch s i w = Some s' -> inv s'.
Proof.
  intros Hinv Hi Hrun Epc. unfold chunk_worker_loop. rewrite Epc. intros [= <-].
  destruct (i_workers _ Hinv i w Hi) as [Hok _]. unfold worker_ok in Hok. rewrite Epc in Hok.
  destruct Hok as (Hidx & Hlo & Hhi & Hpart & Hfull & Hdel).
  cbn [concat] in *. rewrite zlen_nil in *.
  eapply inv_worker_local; eauto; rewrite ?Epc; try done.
  - unfold worker_ok. cbn. destruct (is_ok c) eqn:Ec; [done|]. by apply is_ok_false.
  - intros j Hj. unfold working. rewrite Epc. cbn. intros ->.
    destruct (is_ok c) eqn:Ec; [|by right; left; eexists].
    right; right. intros p Hp. apply Hdel. apply is_ok_iff in Ec.
    specialize (Hfull Ec). lia.
Qed.

Lemma inv_error s i w ch s' res :
  inv s -> s_workers s !! i = Some w -> can_run s i w = true ->
  w_pc w = PError res -> chunk_worker_loop ch s i w = Some s' -> inv s'.
Proof.
  intros Hinv Hi Hrun Epc. unfold chunk_worker_loop. rewrite Epc. intros [= <-].
  pose proof Hinv as [_ Hnx Hlen _ Hwr Hws _ _ _].
  destruct (Hws i w Hi) as [Hres _]. unfold worker_ok in Hres. rewrite Epc in Hres.
  set (r' := if is_ok (p_result (s_pool s)) then res else p_result (s_pool s)).
  assert (Hr' : r' <> CURLE_OK).
  { unfold r'. destruct (is_ok _) eqn:E; [done|]. by apply is_ok_false. }
  eapply (inv_worker_step s _ i w); eauto; cbn; rewrite ?Epc; try done; try lia.
  - left. done.
  - intros idx _. unfold working. by rewrite Epc.
Qed.

Lemma inv_exit s i w ch s' :
  inv s -> s_workers s !! i = Some w -> can_run s i w = true ->
  w_pc w = PExit -> chunk_worker_loop ch s i w = Some s' -> inv s'.
Proof.
  intros Hinv Hi Hrun Epc. unfold chunk_worker_loop. rewrite Epc. intros [= <-].
  pose proof Hinv as [_ Hnx Hlen _ Hwr Hws _ _ _].
  destruct (Hws i w Hi) as [Hdr _]. unfold worker_ok in Hdr. rewrite Epc in Hdr.
  eapply (inv_worker_step s _ i w); eauto; cbn; rewrite ?Epc; try done; try lia.
  all: try by apply later_same.
  intros idx _. unfold working. by rewrite Epc.
Qed.

(** Taking the next buffer [b] off a transfer. *)
Lemma fetch_ok_cons s w idx b body c :
  fetch_ok s w idx (b ++ body) c ->
  part source (w_cur_offset w) b /\
  forall s' w', later s s' -> w_cur_offset w' = w_cur_offset w + zlen b ->
    (forall p, w_cur_offset w <= p < w_cur_offset w + zlen b -> delivered s' p) ->
    fetch_ok s' w' idx body c.
Proof.
  intros (Hidx & Hlo & Hhi & Hpart & Hfull & Hdel). apply part_app in Hpart as [Hb Hrest].
  split; [done|]. intros s' w' Hl Hoff Hnew. rewrite zlen_app in *.
  pose proof (zlen_nonneg b). unfold fetch_ok. rewrite Hoff.
  pose proof (l_next _ _ Hl).
  split; [lia|]. split; [lia|]. split; [lia|]. split; [done|]. split.
  - intros Hc. specialize (Hfull Hc). lia.
  - intros p Hp. destruct (decide (p < w_cur_offset w)).
    + apply (l_delivered _ _ Hl), Hdel. lia.
    + apply Hnew. lia.
Qed.

Lemma later_write s s' f :
  s_file s' = f -> s_pool s' = s_pool s ->
  (forall p, good source (s_file s) p -> good source f p) -> later s s'.
Proof.
  intros Hf Hp Hg. constructor; rewrite ?Hp; [lia|done|].
  intros p [H|H]; [left|right].
  - rewrite Hf. auto.
  - by rewrite Hp.
Qed.

Lemma inv_cb_direct s i w ch s' idx b ps c :
  inv s -> s_workers s !! i = Some w -> can_run s i w = true ->
  w_pc w = PRecv idx (b :: ps) c -> zlen b <> 0 -> p_writer (s_pool s) = None ->
  chunk_write_cb ch s i w idx b ps c = Some s' -> inv s'.
Proof.
  intros Hinv Hi Hrun Epc Hb0 Enw. unfold chunk_write_cb. rewrite Enw.
  destruct (zlen b =? 0) eqn:E0; zb_hyps; [done|].
  pose proof Hinv as [_ [_ Hnx] Hlen _ Hwr Hws _ _ _].
  destruct (Hws i w Hi) as [Hok _]. unfold worker_ok in Hok. rewrite Epc in Hok.
  destruct (fetch_ok_cons _ _ _ _ _ _ Hok) as [Hpart Hnext].
  destruct (chunk_write_at _ _ _ _) as [[res f]|] eqn:Hw; [|done]. intros [= <-].
  destruct (chunk_write_at_post _ _ _ _ _ _ _ Hpart Hw) as (Hl & Hk & Hnew).
  set (w' := if is_ok res then _ else _).
  assert (Hlater : later s (put_worker (put_file s f) i w')) by (by eapply later_write).
  eapply (inv_worker_step s _ i w w'); eauto; rewrite ?Epc; try done.
  - unfold w'. by destruct (is_ok res).
  - unfold w'. destruct (is_ok res) eqn:Er; [|done].
    apply (Hnext _ _ Hlater); [done|]. intros p Hp. left. by apply Hnew.
  - intros j Hj. unfold working at 1. rewrite Epc. cbn. intros ->.
    unfold w'. destruct (is_ok res); [by left|]. right; left; right.
    exists i, (set_pc w (PError CURLE_WRITE_ERROR)), CURLE_WRITE_ERROR. split; [|done].
    apply list_lookup_insert_eq. by eapply lookup_lt_Some.
  - cbn. lia.
Qed.

Lemma inv_cb s i w ch s' idx b ps c :
  inv s -> s_workers s !! i = Some w -> can_run s i w = true ->
  w_pc w = PRecv idx (b :: ps) c -> chunk_worker_loop ch s i w = Some s' -> inv s'.
Proof.
  intros Hinv Hi Hrun Epc. unfold chunk_worker_loop. rewrite Epc.
  destruct (p_writer (s_pool s)) as [wr|] eqn:Ewr.
  2: { destruct (decide (zlen b = 0)) as [H0|H0]; [|by eapply inv_cb_direct].
       apply zlen_0 in H0 as ->. unfold chunk_write_cb. cbn [zlen length Z.of_nat Z.eqb].
       intros [= <-]. destruct (i_workers _ Hinv i w Hi) as [Hok _].
       eapply inv_worker_local; eauto; rewrite ?Epc; try done.
       - unfold worker_ok in *. rewrite Epc in Hok. exact Hok.
       - intros j Hj. unfold working. rewrite Epc. cbn. auto. }
  unfold chunk_write_cb. rewrite Ewr.
  destruct (i_workers _ Hinv i w Hi) as [Hok _].
  unfold worker_ok in Hok. rewrite Epc in Hok.
  assert (Hrefuse : inv (put_worker s i (set_pc w (PError CURLE_WRITE_ERROR)))).
  { eapply inv_worker_local; eauto; rewrite ?Epc; try done; eauto. }
  case_if.
  { apply zlen_0 in E as ->. intros [= <-].
    eapply inv_worker_local; eauto; rewrite ?Epc; try done.
    intros j Hj. unfold working. rewrite Epc. cbn. auto. }
  case_if; [by intros [= <-]|]. case_if; [by intros [= <-]|]. intros [= <-].
  eapply inv_worker_local; eauto; rewrite ?Epc; try done.
  - split; [|exact Hok]. intros ->. by rewrite zlen_nil in E.
  - intros j Hj. unfold working. rewrite Epc. cbn. auto.
Qed.

Lemma inv_enqueue s i w ch s' idx b ps c :
  inv s -> s_workers s !! i = Some w -> can_run s i w = true ->
  w_pc w = PEnqueue idx b ps c -> chunk_worker_loop ch s i w = Some s' -> inv s'.
Proof.
  intros Hinv Hi Hrun Epc. unfold chunk_worker_loop. rewrite Epc. unfold chunk_enqueue.
  destruct (p_writer (s_pool s)) as [wr|] eqn:Ewr; [|done]. cbn [mbind option_bind].
  case_if.
  { intros [= <-]. eapply inv_worker_local; eauto; rewrite ?Epc; try done; eauto. }
  case_if; [|by intros [= <-]]. intros [= <-].
  pose proof Hinv as [_ [_ Hnx] Hlen _ Hwr Hws _ _ _].
  destruct (Hws i w Hi) as [Hok _]. unfold worker_ok in Hok. rewrite Epc in Hok.
  destruct Hok as [Hb0 Hok]. destruct (fetch_ok_cons _ _ _ _ _ _ Hok) as [Hpart Hnext].
  set (j := mk_job (w_cur_offset w) b).
  set (wr' := mk_writer _ _ _ _ _). set (s' := put_worker _ _ _).
  assert (Hjobs : wr_jobs wr' = wr_jobs wr ++ [j]).
  { unfold wr_jobs, wr'. cbn. by destruct (wr_pc wr). }
  assert (Hlater : later s s').
  { constructor; [done|done|]. intros p [Hg|(wr0 & Hw0 & Hd)]; [by left|].
    rewrite Ewr in Hw0. injection Hw0 as <-. right. exists wr'. split; [done|].
    destruct Hd as [Hf|He]; [by left|]. right. rewrite Hjobs. apply Exists_app. auto. }
  destruct (Hwr wr Ewr) as (Hj1 & Hj2 & Hj3 & Hj4).
  assert (Hrunning : wr_done wr = false).
  { destruct (wr_done wr) eqn:Ed; [|done]. specialize (Hj4 eq_refl).
    pose proof (i_driver _ Hinv) as Hdr. unfold driver_ok in Hdr.
    destruct (s_driver s) eqn:Es; try done; destruct Hdr as [Hall _];
      by destruct (can_run_joined _ _ _ Hrun Hi Hall); congruence. }
  eapply (inv_worker_step s s' i w); eauto; rewrite ?Epc; try done.
  - intros wr0 [= <-]. unfold writer_ok. rewrite Hjobs. split_and!; try done.
    + apply Forall_app. split; [done|]. by apply Forall_singleton.
    + intros Hex. destruct (Hj3 Hex). congruence.
  - apply (Hnext _ _ Hlater); [done|]. intros p Hp. right. exists wr'. split; [done|].
    right. rewrite Hjobs. apply Exists_app. right. by apply Exists_cons_hd.
  - intros k Hk. unfold working. rewrite Epc. cbn. auto.
  - cbn. lia.
Qed.

Lemma inv_worker s i w ch s' :
  inv s -> s_workers s !! i = Some w -> can_run s i w = true ->
  event_ok transfers s (EvWorker i ch) ->
  chunk_worker_loop ch s i w = Some s' -> inv s'.
Proof.
  intros Hinv Hi Hrun Hev Hs. destruct (w_pc w) eqn:Epc.
  - by eapply inv_top.
  - by eapply inv_fetch.
  - destruct ps; [by eapply inv_recv_end|by eapply inv_cb].
  - by eapply inv_enqueue.
  - by eapply inv_error.
  - by eapply inv_exit.
  - unfold chunk_worker_loop in Hs. by rewrite Epc in Hs.
Qed.

(** * Steps of the writer *)

Lemma inv_writer_step s wr' f :
  let s' := put_file (put_writer s wr') f in
  inv s -> later s s' -> writer_ok (s_driver s) wr' ->
  zlen f <= zlen source ->
  (forall p, good source (s_file s) p -> good source f p) -> inv s'.
Proof.
  intros s' [Hp Hnx Hlen Hb Hwr Hws Hcnt Hcov Hdr] Hl Hok Hlen' Hg.
  constructor; try done.
  - intros p Hp0. auto.
  - by intros wr [= <-].
  - intros i w Hi. destruct (Hws i w Hi). split; [by eapply worker_ok_later|done].
  - intros idx Hidx. destruct (Hcov idx Hidx) as [He|[Hw|Hd]].
    + by left.
    + by right; left.
    + right; right. by eapply chunk_delivered_later.
  - unfold driver_ok in *. change (s_driver s') with (s_driver s).
    destruct (s_driver s); try done; destruct Hdr as [Hall Hd]; (split; [done|]).
    + intros Hr p Hp0. by apply (l_delivered _ _ Hl), Hd.
    + intros Hr p Hp0. by apply (l_delivered _ _ Hl), Hd.
    + intros Hr p Hp0. by apply Hg, Hd.
Qed.

Lemma later_writer s wr wr' f :
  p_writer (s_pool s) = Some wr ->
  (forall p, good source (s_file s) p -> good source f p) ->
  (wr_failed wr -> wr_failed wr') ->
  (forall p, Exists (in_job p) (wr_jobs wr) ->
     good source f p \/ wr_failed wr' \/ Exists (in_job p) (wr_jobs wr')) ->
  later s (put_file (put_writer s wr') f).
Proof.
  intros Ewr Hg Hf Hj. constructor; try done.
  intros p [H|(wr0 & Hw0 & Hd)]; [left; cbn; auto|].
  rewrite Ewr in Hw0. injection Hw0 as <-. destruct Hd as [Hd|Hd].
  - right. exists wr'. split; [done|]. left. auto.
  - destruct (Hj p Hd) as [H|[H|H]]; [by left|right; exists wr'; auto..].
Qed.

(** The writer writes the job it holds. *)
Lemma inv_write_job s wr i j res f :
  inv s -> p_writer (s_pool s) = Some wr -> wr_pc wr = WrJob j ->
  chunk_write_at i (s_file s) (j_buf j) (j_offset j) = Some (res, f) ->
  inv (put_file (put_writer s (mk_writer (wr_queue wr) (wr_queued wr) (wr_done wr)
        (wr_result wr) (if is_ok res then WrLoop else WrFail res))) f).
Proof.
  intros Hinv Ewr Epc Hw. pose proof (i_writer _ Hinv wr Ewr) as (Hj1 & Hj2 & Hj3 & Hj4).
  unfold wr_jobs in Hj1. rewrite Epc in Hj1. inversion Hj1 as [|? ? Hpart Hrest]; subst.
  destruct (chunk_write_at_post _ _ _ _ _ _ _ Hpart Hw) as (Hl & Hk & Hnew).
  set (wr' := mk_writer _ _ _ _ _).
  assert (Hjobs : wr_jobs wr' = wr_queue wr).
  { unfold wr_jobs, wr'. cbn. by destruct (is_ok res). }
  apply inv_writer_step; auto.
  - eapply later_writer; eauto.
    + intros [Hr|[r Hr]]; [by left|]. congruence.
    + intros p. unfold wr_jobs at 1. rewrite Epc, Hjobs, Exists_cons.
      intros [Hin|He]; [|by auto]. destruct (is_ok res) eqn:Er.
      * left. by apply Hnew.
      * right; left. right. exists res. unfold wr'. by rewrite ?Er.
  - unfold writer_ok. rewrite Hjobs. split; [done|].
    split; [|split; [|done]]; cbn; destruct (is_ok res) eqn:Er; try done.
    intros r [= <-]. by apply is_ok_false.
  - apply Hl, (i_len _ Hinv).
Qed.

Lemma inv_writer s wr i s' :
  inv s -> p_writer (s_pool s) = Some wr -> chunk_writer_loop i s wr = Some s' -> inv s'.
Proof.
  intros Hinv Ewr. pose proof (i_writer _ Hinv wr Ewr) as (Hj1 & Hj2 & Hj3 & Hj4).
  assert (Hstep : forall wr', writer_ok (s_driver s) wr' -> (wr_failed wr -> wr_failed wr') ->
    (wr_failed wr' \/ wr_jobs wr' = wr_jobs wr) -> inv (put_writer s wr')).
  { intros wr' Hok Hf Hj. change (put_writer s wr') with (put_file (put_writer s wr') (s_file s)).
    apply inv_writer_step; auto; try apply Hinv. eapply later_writer; eauto.
    intros p Hp. destruct Hj as [Hj|Hj]; [by auto|]. rewrite Hj. auto. }
  unfold chunk_writer_loop. destruct (wr_pc wr) as [|j|res|] eqn:Epc; [| | |done].
  - unfold wr_jobs in Hj1. rewrite Epc in Hj1. destruct (wr_queue wr) as [|j q] eqn:Eq.
    + case_if; [|by intros [= <-]]. intros [= <-]. apply Hstep.
      * by split_and!; cbn; auto.
      * intros [Hr|[r Hr]]; [by left|congruence].
      * right. unfold wr_jobs. by rewrite Epc, Eq.
    + intros [= <-]. apply Hstep.
      * by split_and!; cbn; auto.
      * intros [Hr|[r Hr]]; [by left|congruence].
      * right. unfold wr_jobs. by rewrite Epc, Eq.
  - case_if.
    + destruct (chunk_write_at _ _ _ _) as [[res f]|] eqn:Hw; [|done].
      intros [= <-]. by eapply inv_write_job.
    + intros [= <-]. unfold wr_jobs in Hj1. rewrite Epc in Hj1.
      inversion Hj1; subst. apply Hstep.
      * by split_and!; cbn; auto.
      * intros _. left. by apply is_ok_false.
      * left. left. by apply is_ok_false.
  - intros [= <-]. set (r := if is_ok (wr_result wr) then res else wr_result wr).
    assert (Hr : r <> CURLE_OK).
    { unfold r. destruct (is_ok _) eqn:E; [by apply Hj2|]. by apply is_ok_false. }
    unfold wr_jobs in Hj1. rewrite Epc in Hj1. apply Hstep.
    * by split_and!; cbn; auto.
    * intros _. by left.
    * left. by left.
Qed.

(** * Steps of the driver *)

(** A step that only moves the driver. *)
Lemma inv_driver_step s d :
  inv s -> ~ stopping (s_driver s) \/ stopping d ->
  (s_driver s = DInline ->
     forall w, s_workers s !! 0%nat = Some w -> w_pc w = PDone) ->
  (forall r, r <> CURLE_OK -> s_driver s = DStopWriter r \/ s_driver s = DJoinWriter r \/
     s_driver s = DReturn r -> d = DReturn r \/ d = DJoinWriter r) ->
  driver_ok (put_driver s d) -> inv (put_driver s d).
Proof.
  intros [Hp Hnx Hlen Hb Hwr Hws Hcnt Hcov Hdr] Hst Hin Hr Hok. constructor; try done.
  - intros wr Ewr. destruct (Hwr wr Ewr) as (? & ? & ? & Hdone). split_and!; try done.
    intros Hd. destruct Hst as [Hst|Hst]; [|done]. by destruct Hst; auto.
  - intros i w Hi. destruct (Hws i w Hi) as [Hw Hq]. split; [done|].
    intros Ht. destruct (Hq Ht) as [?|[?|[Hd ->]]]; auto.
  - cbn. destruct Hcnt as [?|(r & Hne & Hd)]; [by left|]. right. exists r. split; [done|].
    destruct (Hr r Hne Hd); auto.
Qed.

Lemma worker_done s i w :
  inv s -> s_workers s !! i = Some w -> s_driver s = DJoin -> joinable w = true ->
  w_pc w = PTop \/ w_pc w = PDone.
Proof.
  intros Hinv Hi Hd Hj. destruct (i_workers _ Hinv i w Hi) as [_ Hq].
  unfold joinable in Hj. destruct (w_threaded w) eqn:Et; cbn [negb orb] in Hj.
  - right. by destruct (w_pc w).
  - destruct (Hq Et) as [?|[?|[? _]]]; [by left|by right|congruence].
Qed.

(** When every thread has ended without an error, everything is delivered. *)
Lemma join_delivered s :
  inv s -> s_driver s = DJoin -> forallb joinable (s_workers s) = true ->
  p_result (s_pool s) = CURLE_OK ->
  forall p, base <= p < zlen source -> delivered s p.
Proof.
  intros Hinv Hd Hall Hres p Hp. pose proof (i_driver _ Hinv) as Hdr.
  unfold driver_ok in Hdr. rewrite Hd in Hdr. rewrite forallb_forall in Hall.
  assert (Hend : forall i w, s_workers s !! i = Some w -> w_pc w = PTop \/ w_pc w = PDone).
  { intros i w Hi. eapply worker_done; eauto. apply Hall.
    apply list_elem_of_In. by eapply list_elem_of_lookup_2. }
  assert (Hdrain : n <= p_next (s_pool s)).
  { destruct Hdr as (i & w & Hi & Hw). destruct (i_workers _ Hinv i w Hi) as [Hok _].
    assert (Hpc : w_pc w = PDone).
    { destruct Hw as [Ht|?]; [|done]. assert (Hj : joinable w = true).
      { apply Hall, list_elem_of_In. by eapply list_elem_of_lookup_2. }
      unfold joinable in Hj. rewrite Ht in Hj. cbn [negb orb] in Hj. by destruct (w_pc w). }
    unfold worker_ok, drained in Hok. rewrite Hpc in Hok. destruct Hok; [congruence|done]. }
  destruct (chunk_of p Hp) as (idx & Hidx & Hin).
  destruct (i_cover _ Hinv idx) as [[Hr|(i & w & r & Hi & Hw)]|[(i & w & Hi & Hw)|Hdel]].
  - lia.
  - congruence.
  - destruct (Hend i w Hi); congruence.
  - unfold working in Hw. by destruct (Hend i w Hi) as [Hpc|Hpc]; rewrite Hpc in Hw.
  - by apply Hdel.
Qed.

Lemma inv_join s :
  inv s -> s_driver s = DJoin -> forallb joinable (s_workers s) = true ->
  inv (mk_system (s_file s) (s_pool s) (map join_worker (s_workers s))
                 (DStopWriter (p_result (s_pool s)))).
Proof.
  intros Hinv Hd Hall. pose proof (join_delivered s Hinv Hd Hall) as Hdel.
  assert (Hend : forall i w, s_workers s !! i = Some w -> w_pc w = PTop \/ w_pc w = PDone).
  { intros i w Hi. eapply worker_done; eauto. rewrite forallb_forall in Hall.
    apply Hall, list_elem_of_In. by eapply list_elem_of_lookup_2. }
  destruct Hinv as [Hp Hnx Hlen Hb Hwr Hws Hcnt Hcov Hdr]. rewrite Hd in *.
  constructor; try done; cbn [s_workers s_driver s_pool].
  - intros i w' Hi. change (map join_worker) with (fmap (M := list) join_worker) in Hi.
    apply list_lookup_fmap_Some in Hi as (w & -> & Hi).
    destruct (Hws i w Hi) as [Hok _]. split; [exact Hok|]. intros _.
    destruct (Hend i w Hi); auto.
  - left. rewrite length_map. destruct Hcnt as [?|(r & _ & [?|[?|?]])]; done.
  - intros idx Hidx. destruct (Hcov idx Hidx) as [[Hr|(i & w & r & Hi & Hw)]|[(i & w & Hi & Hw)|Hc]].
    + by left; left.
    + destruct (Hend i w Hi); congruence.
    + unfold working in Hw. by destruct (Hend i w Hi) as [Hpc|Hpc]; rewrite Hpc in Hw.
    + by right; right.
  - split; [|done]. apply Forall_map. by apply Forall_true.
Qed.

(** The driver tells the writer that no more jobs will come. *)
Lemma inv_stop_writer s r wr :
  inv s -> s_driver s = DStopWriter r -> p_writer (s_pool s) = Some wr ->
  inv (put_driver (put_writer s (mk_writer (wr_queue wr) (wr_queued wr) true
         (wr_result wr) (wr_pc wr))) (DJoinWriter r)).
Proof.
  intros Hinv Hd Ewr. set (wr' := mk_writer _ _ _ _ _). set (s' := put_driver _ _).
  assert (Hdel : forall p, delivered s p -> delivered s' p).
  { intros p [?|(wr0 & Hw0 & Hj)]; [by left|]. rewrite Ewr in Hw0. injection Hw0 as <-.
    right. by exists wr'. }
  assert (Hlater : later s s') by (by constructor).
  destruct Hinv as [Hp Hnx Hlen Hb Hwr Hws Hcnt Hcov Hdr]. rewrite Hd in *.
  unfold driver_ok in Hdr. rewrite Hd in Hdr.
  constructor; try done.
  - intros wr0 [= <-]. destruct (Hwr wr Ewr) as (? & ? & Hex & _).
    split_and!; try done. intros Hpc. by destruct (Hex Hpc).
  - intros i w Hi. destruct (Hws i w Hi) as [Hok Hq]. split; [by eapply worker_ok_later|].
    intros Ht. destruct (Hq Ht) as [?|[?|[? _]]]; auto; done.
  - destruct Hcnt as [?|(r' & Hne & [[= ->]|[?|?]])]; [by left|right|done..].
    exists r'. auto.
  - intros idx Hidx. destruct (Hcov idx Hidx) as [He|[Hw|Hc]].
    + by left.
    + by right; left.
    + right; right. by eapply chunk_delivered_later.
  - destruct Hdr as [Hall Hd']. split; [done|]. intros Hr p Hp0. auto.
Qed.

(** Replacing a worker by one at the same point keeps the chunks covered. *)
Lemma covered_same_pc s s' i w w' idx :
  s_workers s !! i = Some w -> s_workers s' = <[i := w']> (s_workers s) ->
  w_pc w' = w_pc w -> s_pool s' = s_pool s -> s_file s' = s_file s ->
  covered s idx -> covered s' idx.
Proof.
  intros Hi Hws Hpc Hp Hf [[Hr|(k & v & r & Hk & Hv)]|[(k & v & Hk & Hv)|Hd]].
  - left; left. by rewrite Hp.
  - left; right.
    destruct (some_worker_update s s' i w w' (fun v => w_pc v = PError r)) as (k' & v' & ?);
      [done|done|by rewrite Hpc|by exists k, v|by exists k', v', r].
  - right; left.
    apply (some_worker_update s s' i w w' (fun v => working v idx));
      [done|done|unfold working; by rewrite Hpc|by exists k, v].
  - right; right. intros p Hp0. unfold delivered. rewrite Hp, Hf. by apply Hd.
Qed.

(** The driver starts the thread of worker [i]. *)
Lemma inv_launch s i l w :
  inv s -> s_driver s = DLaunch i l -> s_workers s !! i = Some w ->
  inv (put_driver (put_worker s i (start_worker w)) (DLaunch (S i) (u32 (l + 1)))).
Proof.
  intros Hinv Hd Hi. set (s' := put_driver _ _).
  destruct Hinv as [Hp Hnx Hlen Hb Hwr Hws Hcnt Hcov Hdr]. rewrite Hd in *.
  assert (Hlt : (i < length (s_workers s))%nat) by (by eapply lookup_lt_Some).
  assert (Hl8 : (0 < length (s_workers s) <= 8)%nat).
  { destruct Hcnt as [?|(r & _ & [?|[?|?]])]; done. }
  unfold driver_ok in Hdr. rewrite Hd in Hdr. destruct Hdr as (Hl & _).
  assert (Hu : u32 (l + 1) = l + 1) by (apply u32_small; unfold UINT32_MAX; lia).
  constructor; try done; cbn [s_workers s_driver s_pool s' put_driver put_worker].
  - intros k v Hk. destruct (decide (k = i)) as [->|Hne].
    + rewrite list_lookup_insert_eq in Hk by done. injection Hk as <-.
      destruct (Hws i w Hi) as [Hok _]. split; [exact Hok|]. by intros [=].
    + rewrite list_lookup_insert_ne in Hk by done. destruct (Hws k v Hk) as [Hok Hq].
      split; [exact Hok|]. intros Ht. destruct (Hq Ht) as [?|[?|[? _]]]; auto; done.
  - left. by rewrite length_insert.
  - intros idx Hidx. by apply (covered_same_pc s s' i w (start_worker w)), Hcov.
  - unfold driver_ok. cbn. rewrite Hu, length_insert. split; [lia|]. split; [lia|].
    split; [lia|]. intros _. exists i, (start_worker w). split; [|done].
    by apply list_lookup_insert_eq.
Qed.

Lemma inv_driver s started s' :
  inv s -> chunk_download started s = Some s' -> inv s'.
Proof.
  intros Hinv. pose proof (i_driver _ Hinv) as Hdr. unfold driver_ok in Hdr.
  unfold chunk_download. destruct (s_driver s) as [i l| |l| |r|r|r] eqn:Hd; [| | | | | |done].
  - destruct Hdr as (Hl & Hlen & H0 & H1). destruct (s_workers s !! i) as [w|] eqn:Hi.
    { destruct started; intros [= <-]; [by apply inv_launch|].
      apply inv_driver_step;
        [done|rewrite Hd; left; intros []|by rewrite Hd|rewrite Hd; by intros ? ? [?|[?|?]]|].
      apply lookup_lt_Some in Hi. unfold driver_ok. cbn. split_and!; auto; lia. }
    intros [= <-]. apply lookup_ge_None in Hi.
    assert (Hcnt : (0 < length (s_workers s))%nat).
    { destruct (i_count _ Hinv) as [?|(r & _ & [?|[?|?]])]; [lia|congruence..]. }
    apply inv_driver_step;
        [done|rewrite Hd; left; intros []|by rewrite Hd|rewrite Hd; by intros ? ? [?|[?|?]]|].
    unfold driver_ok. cbn. case_if; auto.
  - destruct (s_workers s !! 0%nat) as [w|] eqn:Hi; [|done]. cbn [mbind option_bind].
    destruct (w_pc w) eqn:Epc; try done. intros [= <-].
    apply inv_driver_step;
      [done|rewrite Hd; left; intros []| |rewrite Hd; by intros ? ? [?|[?|?]]|].
    + intros _ w' Hw'. rewrite Hi in Hw'. by injection Hw' as <-.
    + exists 0%nat, w. auto.
  - intros [= <-]. apply inv_driver_step;
      [done|rewrite Hd; left; intros []|by rewrite Hd|rewrite Hd; by intros ? ? [?|[?|?]]|].
    unfold driver_ok. cbn. case_if; [|done]. destruct Hdr as (i & w & Hi & Hw).
    exists i, w. auto.
  - case_if; [|done]. intros [= <-]. by apply inv_join.
  - destruct Hdr as [Hall Hdel]. destruct (p_writer (s_pool s)) as [wr|] eqn:Ewr.
    + intros [= <-]. by eapply inv_stop_writer.
    + intros [= <-]. apply inv_driver_step;
        [done|rewrite Hd; left; intros []|by rewrite Hd|rewrite Hd|].
      * intros r' _ [[= ->]|[?|?]]; [by left|done..].
      * split; [done|]. intros Hr p Hp. destruct (Hdel Hr p Hp) as [?|(wr & ? & _)]; [done|].
        congruence.
  - destruct Hdr as [Hall Hdel]. destruct (p_writer (s_pool s)) as [wr|] eqn:Ewr; [|done].
    cbn [mbind option_bind]. destruct (wr_pc wr) eqn:Epc; try done. intros [= <-].
    apply inv_driver_step; [done|by right|by rewrite Hd|rewrite Hd|].
    + intros r' Hne [?|[[= ->]|?]]; [done| |done]. left. apply is_ok_false in Hne.
      by rewrite Hne.
    + split; [done|]. intros Hr p Hp. destruct (is_ok r) eqn:Er; [|by apply is_ok_false in Er].
      apply is_ok_iff in Er. destruct (Hdel Er p Hp) as [?|(wr0 & Hw0 & Hj)]; [done|].
      rewrite Ewr in Hw0. injection Hw0 as <-.
      destruct (i_writer _ Hinv wr Ewr) as (_ & _ & Hex & _). destruct (Hex Epc) as [Hq _].
      unfold wr_failed, wr_jobs in Hj. rewrite Epc, Hq in Hj.
      destruct Hj as [[?|[? ?]]|Hj]; [congruence|congruence|by apply Exists_nil in Hj].
Qed.

(** * Every interleaving *)

Lemma inv_step s s' : inv s -> step transfers s s' -> inv s'.
Proof.
  intros Hinv (ev & Hev & Hx). destruct ev as [i ch|i|started]; cbn [exec] in Hx.
  - destruct (s_workers s !! i) as [w|] eqn:Hi; [|done]. cbn [mbind option_bind] in Hx.
    destruct (can_run s i w) eqn:Hrun; [|done]. by eapply inv_worker.
  - destruct (p_writer (s_pool s)) as [wr|] eqn:Ewr; [|done].
    by eapply inv_writer.
  - by eapply inv_driver.
Qed.

Lemma inv_run s s' : inv s -> rtc (step transfers) s s' -> inv s'.
Proof. intros Hinv Hrun. induction Hrun; eauto using inv_step. Qed.

Lemma inv_return s :
  inv s -> s_driver s = DReturn CURLE_OK -> s_file s = source.
Proof.
  intros Hinv Hd. apply good_all; [apply Hinv|]. intros p Hp.
  destruct (decide (p < base)); [apply (i_base _ Hinv); lia|].
  pose proof (i_driver _ Hinv) as Hdr. unfold driver_ok in Hdr. rewrite Hd in Hdr.
  destruct Hdr as [_ Hg]. apply Hg; [done|lia].
Qed.

End pool.

(** * The start of a download *)

Lemma open_workers_spec k writer outs res ws :
  open_workers k writer outs = (res, ws) ->
  Forall (fun w => w = mk_worker 0 0 false PTop) ws /\ (length ws <= k)%nat /\
  (res = CURLE_OK -> length ws = k).
Proof.
  revert outs res ws; induction k as [|k IH]; intros outs res ws; cbn [open_workers].
  { intros [= <- <-]. by split_and!. }
  destruct (default (true, true) (head outs)) as [dup_ok open_ok].
  destruct (chunk_worker_open _ _ _ _) as [r w] eqn:Ho.
  assert (Hw : w = mk_worker 0 0 false PTop).
  { revert Ho. unfold chunk_worker_open. repeat case_if; by intros [= <- <-]. }
  destruct (negb (is_ok r)) eqn:Er; zb_hyps.
  { intros [= <- <-]. split_and!; [constructor|cbn; lia|]. intros ->. done. }
  destruct (open_workers k writer (tail outs)) as [r2 ws2] eqn:Hrec. intros [= <- <-].
  destruct (IH _ _ _ Hrec) as (Hall & Hlen & Hok).
  split_and!; [by constructor|cbn; lia|]. intros Hr. cbn. by rewrite Hok.
Qed.

Lemma inv_start source base f alloc_ok writer_ok outs s :
  0 <= base < zlen source -> zlen source <= MAX_TOTAL -> zlen f <= zlen source ->
  (forall p, 0 <= p < base -> good source f p) ->
  chunk_download_start f (zlen source) base alloc_ok writer_ok outs = inr s ->
  let cs := chunk_size_for (zlen source - base) in
  let n := chunk_count (zlen source - base) cs in
  inv source base cs n s.
Proof.
  intros Hb Ht Hlen Hf. unfold chunk_download_start.
  destruct (negb alloc_ok); [done|].
  set (cs := chunk_size_for (zlen source - base)).
  set (n := chunk_count (zlen source - base) cs).
  destruct (open_workers _ _ _) as [res ws] eqn:Ho. intros [= <-].
  destruct (chunk_count_spec (zlen source - base)) as [Hn Hc]; [unfold MAX_TOTAL in *; lia|].
  fold cs in Hn, Hc. fold n in Hn, Hc.
  apply open_workers_spec in Ho as (Hall & Hle & Hok). unfold CHUNK_STREAMS in *.
  assert (Hws : forall i w, ws !! i = Some w -> w = mk_worker 0 0 false PTop).
  { intros i w Hi. exact (Forall_lookup_1 _ _ _ _ Hall Hi). }
  assert (Hjoin : Forall (fun w => w_threaded w = false) ws).
  { eapply Forall_impl; [exact Hall|]. by intros w ->. }
  assert (Hlen8 : (length ws <= 8)%nat) by (destruct (n <? 8) eqn:E8; zb_hyps; lia).
  destruct (is_ok res) eqn:Er.
  - apply is_ok_iff in Er as ->. specialize (Hok eq_refl).
    assert (Hpos : (0 < length ws)%nat) by (destruct (n <? 8) eqn:E8; zb_hyps; lia).
    replace (zlen ws =? 0) with false by (symmetry; apply Z.eqb_neq; unfold zlen; lia).
    cbn [andb negb]. constructor; cbn; try done; try lia.
    + intros wr Hwr. destruct writer_ok; [|done]. injection Hwr as <-. by split_and!.
    + intros i w Hi. rewrite (Hws i w Hi). split; [done|]. by left.
    + split; [lia|]. split; [lia|]. by split.
  - cbn [andb]. apply is_ok_false in Er. constructor; cbn; try done; try lia.
    + intros wr Hwr. destruct writer_ok; [|done]. injection Hwr as <-. by split_and!.
    + intros i w Hi. rewrite (Hws i w Hi). split; [done|]. by left.
    + right. exists res. auto.
Qed.

(** The parallel phase, started on a file that holds the first [base] bytes
    of the resource: success means that the file is the resource. *)
Lemma chunk_download_run_ok transfers source base f f' :
  ranges_honoured source transfers ->
  0 <= base < zlen source -> zlen source <= MAX_TOTAL -> zlen f <= zlen source ->
  (forall p, 0 <= p < base -> good source f p) ->
  chunk_download_run transfers f (zlen source) base CURLE_OK f' -> f' = source.
Proof.
  intros Hhon Hb Ht Hlen Hf Hrun.
  destruct (chunk_count_spec (zlen source - base)) as [Hn Hc]; [unfold MAX_TOTAL in *; lia|].
  pose proof (chunk_size_for_bounds (zlen source - base) ltac:(lia)) as Hcs.
  inversion Hrun as [a w outs r Hstart|a w outs s s' r Hstart Hsteps Hret]; subst.
  - revert Hstart. unfold chunk_download_start. destruct (negb a); [done|].
    by destruct (open_workers _ _ _).
  - pose proof (inv_start source base f a w outs s Hb Ht Hlen Hf Hstart) as Hinv.
    eapply inv_return; [|exact Hret].
    eapply inv_run; eauto. unfold CHUNK_MIN in Hcs. lia.
Qed.

(** The probe or a single-stream transfer that succeeds has written its
    range. *)
Lemma stream_range_ok transfers source seek ps c ws f start end_ f' :
  ranges_honoured source transfers -> 0 <= start <= end_ -> end_ < zlen source ->
  transfers start end_ ps c -> chunk_stream_range seek ps c ws f start = Some (CURLE_OK, f') ->
  zlen f <= zlen source ->
  zlen f' <= zlen source /\ (forall p, good source f p -> good source f' p) /\
  (forall p, start <= p <= end_ -> good source f' p).
Proof.
  intros Hhon Hs He Htr Hrun Hlen. unfold chunk_stream_range in Hrun.
  destruct (negb seek); [done|].
  destruct (Hhon start end_ ps c Hs He Htr) as (k & Hk & Hbody & Hfull).
  assert (Hzl : zlen (concat ps) = k) by (rewrite Hbody, zlen_slice by lia; done).
  assert (Hpart : part source start (concat ps)).
  { unfold part. rewrite Hzl. split_and!; try lia. done. }
  destruct (seq_perform_post _ _ _ _ _ _ _ _ Hpart Hrun) as [(Hl & Hkeep & Hnew) Hc].
  split; [auto|]. split; [done|]. intros p Hp. apply Hnew; [done|]. rewrite Hzl.
  rewrite <- (Hc eq_refl) in Hfull. specialize (Hfull eq_refl). lia.
Qed.

(** C1: when the tool's chunked download of a resource of at most 2 EiB
    returns [CURLE_OK], the output file is exactly the resource, whichever
    path it took (probe only, single stream, thread pool with or without a
    writer thread), however the threads interleaved, whatever short writes
    the system made and whichever threads could not be started; provided
    that successful range requests deliver their range. *)
Theorem tool_chunk_download_correct transfers source f :
  ranges_honoured source transfers -> 0 < zlen source <= MAX_TOTAL ->
  tool_chunk_download transfers (zlen source) CURLE_OK f -> f = source.
Proof.
  intros Hhon Ht Hdl. set (pl := if zlen source <? CHUNK_PROBE then zlen source else CHUNK_PROBE).
  assert (Hpl : 0 < pl <= zlen source).
  { unfold pl, CHUNK_PROBE. case_if; lia. }
  assert (Hprobe : forall f0 seek ps c ws f1, chunk_presize true = Some f0 ->
    transfers 0 (pl - 1) ps c -> chunk_stream_range seek ps c ws f0 0 = Some (CURLE_OK, f1) ->
    zlen f1 <= zlen source /\ forall p, 0 <= p < pl -> good source f1 p).
  { intros f0 seek ps c ws f1 [= <-] Htr Hrun.
    destruct (stream_range_ok transfers source seek ps c ws [] 0 (pl - 1) f1
      Hhon ltac:(lia) ltac:(lia) Htr Hrun)
      as (Hl & _ & Hg); [rewrite zlen_nil; lia|]. split; [done|].
    intros p Hp. apply Hg. lia. }
  inversion Hdl as [| |? ? ? ? ? ? ? ? ? ? Hbad|f0 seek ps c ws f' pl0 Hf0 Htr Hrun Hwhole
    |f0 seek ps c ws f1 ms seek2 ps2 c2 ws2 r f2 pl0 Hf0 Htr Hrun Hpart _ Htr2 Hrun2
    |f0 seek ps c ws f1 ms r f2 pl0 Hf0 Htr Hrun Hpart _ Hpool]; subst;
    try (assert (Epl : pl0 = pl) by done; clearbody pl0 pl; subst pl0).
  - done.
  - destruct (Hprobe _ _ _ _ _ _ Hf0 Htr Hrun) as [Hl Hg]. zb_hyps.
    apply good_all; [done|]. intros p Hp. apply Hg. lia.
  - destruct (Hprobe _ _ _ _ _ _ Hf0 Htr Hrun) as [Hl Hg]. zb_hyps.
    destruct (stream_range_ok transfers source seek2 ps2 c2 ws2 f1 pl (zlen source - 1) f
      Hhon ltac:(lia) ltac:(lia) Htr2 Hrun2 Hl)
      as (Hl2 & Hk & Hg2). apply good_all; [done|]. intros p Hp.
    destruct (decide (p < pl)); [apply Hk, Hg; lia|apply Hg2; lia].
  - destruct (Hprobe _ _ _ _ _ _ Hf0 Htr Hrun) as [Hl Hg]. zb_hyps.
    eapply chunk_download_run_ok; [exact Hhon| | |exact Hl|exact Hg|exact Hpool]; lia.
Qed.

(** * Concrete runs *)

Section replay.
Context (tb : Z -> Z -> list (list Z) -> CURLcode -> bool).

Definition event_okb (s : system) (ev : event) : bool :=
  match ev with
  | EvWorker i ch =>
      match s_workers s !! i with
      | Some w =>
          match w_pc w with
          | PFetch idx =>
              let '(start, end_) := chunk_range (s_pool s) idx in
              tb start end_ (ch_pieces ch) (ch_code ch)
          | _ => true
          end
      | None => true
      end
  | _ => true
  end.

(** Runs a list of events, checking the transfers they start. *)
Fixpoint replay (evs : list event) (s : system) : option system :=
  match evs with
  | [] => Some s
  | ev :: evs => if event_okb s ev then s ← exec ev s; replay evs s else None
  end.

Lemma replay_sound evs s s' :
  replay evs s = Some s' -> rtc (step (fun a b ps c => tb a b ps c = true)) s s'.
Proof.
  revert s; induction evs as [|ev evs IH]; intros s; cbn [replay]; [by intros [= <-]|].
  destruct (event_okb s ev) eqn:Hok; [|done].
  destruct (exec ev s) as [s1|] eqn:Hx; [|done]. cbn [mbind option_bind]. intros Hr.
  eapply rtc_l; [|by apply IH]. exists ev. split; [|done].
  destruct ev as [i ch|i|b]; try done. intros w idx Hi Hpc. cbn [event_okb] in Hok.
  rewrite Hi, Hpc in Hok. done.
Qed.

End replay.

(** A server that honours ranges: any split of the range into buffers. *)
Definition serve (source : list Z) (s e : Z) (ps : list (list Z)) (c : CURLcode) : bool :=
  bool_decide (concat ps = slice source s (e - s + 1)) && is_ok c.

Lemma serve_honours source :
  ranges_honoured source (fun s e ps c => serve source s e ps c = true).
Proof.
  intros s e ps c Hs He H. unfold serve in H. zb_hyps.
  apply bool_decide_eq_true in H. exists (e - s + 1). split; [lia|]. by split.
Qed.

Definition demo_source : list Z := [11; 22; 33; 44; 55; 66].

Lemma tool_chunk_download_correct_witness :
  exists f, tool_chunk_download (fun s e ps c => serve demo_source s e ps c = true)
              6 CURLE_OK f /\ f = demo_source.
Proof.
  exists demo_source.
  assert (H : tool_chunk_download (fun s e ps c => serve demo_source s e ps c = true)
                6 CURLE_OK demo_source).
  { apply (dl_probe_whole _ 6 [] true [[11; 22; 33; 44]; [55; 66]] CURLE_OK
             [[3; 0; 1]; [2]] demo_source); vm_compute; reflexivity. }
  split; [exact H|].
  apply (tool_chunk_download_correct (fun s e ps c => serve demo_source s e ps c = true)
           demo_source demo_source).
  - apply serve_honours.
  - vm_compute. split; [reflexivity|discriminate].
  - exact H.
Defined.

Definition no_io : io := mk_io true [].
Definition quick (ps : list (list Z)) : choice := mk_choice ps CURLE_OK true no_io.

(** One worker, the writer and the driver, interleaved. *)
Definition demo_events : list event :=
  [EvDriver true; EvWorker 0 (quick []); EvDriver true;
   EvWorker 0 (quick [[33; 44]; [55; 66]]);
   EvWorker 0 (quick []); EvWorker 0 (quick []);
   EvWriter no_io; EvWorker 0 (quick []);
   EvWriter (mk_io true [1; 1]); EvWorker 0 (quick []);
   EvDriver true; EvWorker 0 (quick []); EvWriter no_io;
   EvWorker 0 (quick []); EvWorker 0 (quick []); EvDriver true;
   EvDriver true; EvDriver true; EvWriter (mk_io true [2]);
   EvWriter no_io; EvDriver true].

(** The thread pool, started on a file that holds the first [base] bytes
    of the resource: every interleaving of the workers, the writer and the
    driver that ends in [CURLE_OK] leaves exactly the resource in the file. *)
Theorem chunk_pool_correct transfers source base f f' :
  ranges_honoured source transfers ->
  0 <= base < zlen source -> zlen source <= MAX_TOTAL ->
  f = slice source 0 base ->
  chunk_download_run transfers f (zlen source) base CURLE_OK f' -> f' = source.
Proof.
  intros Hhon Hb Ht -> Hrun.
  assert (Hl : zlen (slice source 0 base) = base) by (apply zlen_slice; lia).
  eapply chunk_download_run_ok; eauto; [lia|]. intros p Hp. split; [lia|].
  rewrite slice_lookup by lia. done.
Qed.

Lemma chunk_pool_correct_witness :
  exists f', chunk_download_run (fun s e ps c => serve demo_source s e ps c = true)
               [11; 22] 6 2 CURLE_OK f' /\ f' = demo_source.
Proof.
  assert (H : chunk_download_run (fun s e ps c => serve demo_source s e ps c = true)
                [11; 22] 6 2 CURLE_OK demo_source).
  { destruct (chunk_download_start [11; 22] 6 2 true true []) as [r|s] eqn:Hs;
      [discriminate|].
    assert (Hr : exists s', replay (serve demo_source) demo_events s = Some s' /\
                 s_driver s' = DReturn CURLE_OK /\ s_file s' = demo_source).
    { vm_compute in Hs. injection Hs as <-. eexists.
      split; [vm_compute; reflexivity|]. split; vm_compute; reflexivity. }
    destruct Hr as (s' & Hr & Hd & Hf).
    pose proof (run_threads _ _ _ _ true true [] s s' _ Hs (replay_sound _ _ _ _ Hr) Hd)
      as Hrun.
    rewrite Hf in Hrun. exact Hrun. }
  exists demo_source. split; [exact H|].
  apply (chunk_pool_correct (fun s e ps c => serve demo_source s e ps c = true)
           demo_source 2 [11; 22] demo_source).
  - apply serve_honours.
  - vm_compute. split; [discriminate|reflexivity].
  - vm_compute. discriminate.
  - vm_compute. reflexivity.
  - exact H.
Defined.

(** A server that answers a range request with something else, such as an
    error page, in a transfer that succeeds. *)
Definition serve_page (page : list Z) (s e : Z) (ps : list (list Z)) (c : CURLcode) : bool :=
  bool_decide (ps = [page]) && is_ok c.

Definition page_events (page : list Z) : list event :=
  [EvDriver true; EvWorker 0 (quick []); EvDriver true; EvWorker 0 (quick [page]);
   EvWorker 0 (quick []); EvWorker 0 (quick []); EvWriter no_io;
   EvWriter (mk_io true [2]); EvWorker 0 (quick []); EvWorker 0 (quick []);
   EvWorker 0 (quick []); EvDriver true; EvDriver true; EvDriver true;
   EvWriter no_io; EvDriver true].

(** Success of the pool rests on the transfers alone: neither the
    response code nor the number of bytes of a piece is looked at, so when a
    range request is answered with two bytes of an error page in a transfer
    that returns [CURLE_OK], the download of the six-byte resource returns
    [CURLE_OK] with the four-byte file 11 22 60 33. *)
Example chunk_pool_accepts_wrong_body :
  chunk_download_run (fun s e ps c => serve_page [60; 33] s e ps c = true)
    [11; 22] (zlen demo_source) 2 CURLE_OK [11; 22; 60; 33].
Proof.
  destruct (chunk_download_start [11; 22] (zlen demo_source) 2 true true []) as [r|s] eqn:Hs;
    [discriminate|].
  assert (Hr : exists s', replay (serve_page [60; 33]) (page_events [60; 33]) s = Some s' /\
               s_driver s' = DReturn CURLE_OK /\ s_file s' = [11; 22; 60; 33]).
  { vm_compute in Hs. injection Hs as <-. eexists.
    split; [vm_compute; reflexivity|]. split; vm_compute; reflexivity. }
  destruct Hr as (s' & Hr & Hd & Hf).
  pose proof (run_threads _ _ _ _ true true [] s s' _ Hs (replay_sound _ _ _ _ Hr) Hd)
    as Hrun.
  rewrite Hf in Hrun. exact Hrun.
Qed.
