(* ===== verification/Base64.v ===== *)
(** Base64, lib/curlx/base64.c.

    The decoder and the two encoders, writing their output through a memory
    block whose bounds are checked ([Dynbuf.mem_write]).  [b64_text] and
    [b64_parse] are the RFC 4648 mappings they are proved against. *)

From Stdlib Require Import ZArith Lia List Ascii String.
From stdpp Require Import base numbers option list.
From S2P Require Import Prelude Dynbuf.
Close Scope nat_scope.
Open Scope Z_scope.

(** * Tables *)

Definition curlx_base64encdec : list Z :=
  str "ABCDEFGHIJKLMNOPQRSTUVWXYZabcdefghijklmnopqrstuvwxyz0123456789+/".

Definition base64url : list Z :=
  str "ABCDEFGHIJKLMNOPQRSTUVWXYZabcdefghijklmnopqrstuvwxyz0123456789-_".

Definition decodetable : list Z :=
  [62;  255; 255; 255; 63;  52;  53; 54; 55; 56; 57; 58; 59; 60; 61; 255;
   255; 255; 255; 255; 255; 255; 0;  1;  2;  3;  4;  5;  6;  7;  8;  9;
   10;  11;  12;  13;  14;  15;  16; 17; 18; 19; 20; 21; 22; 23; 24; 25;
   255; 255; 255; 255; 255; 255; 26; 27; 28; 29; 30; 31; 32; 33; 34; 35;
   36;  37;  38;  39;  40;  41;  42; 43; 44; 45; 46; 47; 48; 49; 50; 51].

Definition CURL_MAX_BASE64_INPUT : Z := 16000000.

(** [memset(lookup, 0xff, 256)] and the copy of the table at ['+']. *)
Definition lookup_table : list Z :=
  replicate 43 255 ++ decodetable ++ replicate 133 255.

(** * Decoding *)

(** [while(src[srclen - 1 - padding] == '=')]: [None] is the return for
    more than two padding characters, which ends the loop at the latest. *)
Fixpoint count_padding (fuel : nat) (src : list Z) (padding : Z) : option Z :=
  if at_ src (Z.to_nat (zlen src - 1 - padding)) =? 61 then
    let padding := padding + 1 in
    if padding >? 2 then None
    else match fuel with
         | O => None
         | S fuel => count_padding fuel src padding
         end
  else Some padding.

(** [x] after [n] symbols; [None] at a bad symbol. *)
Fixpoint quantum (n : nat) (src : list Z) (x : Z) : option (Z * list Z) :=
  match n with
  | O => Some (x, src)
  | S n =>
      let val := at_ lookup_table (Z.to_nat (deref src)) in
      if val =? 255 then None
      else quantum n (tail src) (u32 (Z.lor (Z.shiftl x 6) val))
  end.

(** The loop over the complete quantums.  The outer [option] is a memory
    error, the inner one is [goto bad]. *)
Fixpoint decode_full (k : nat) (src : list Z) (m : mem) (pos : Z)
  : option (option (list Z * mem * Z)) :=
  match k with
  | O => Some (Some (src, m, pos))
  | S k =>
      match quantum 4 src 0 with
      | None => Some None
      | Some (x, src) =>
          m ← mem_write m (pos + 2) [Z.land x 255];
          m ← mem_write m (pos + 1) [Z.land (Z.shiftr x 8) 255];
          m ← mem_write m pos [Z.land (Z.shiftr x 16) 255];
          decode_full k src m (pos + 3)
      end
  end.

(** The symbols of the quantum that holds the padding. *)
Fixpoint quantum_pad (n : nat) (src : list Z) (x padc padding : Z) : option Z :=
  match n with
  | O => Some x
  | S n =>
      if deref src =? 61 then
        let x := u32 (Z.shiftl x 6) in
        let padc := padc + 1 in
        if padc >? padding then None
        else quantum_pad n (tail src) x padc padding
      else
        let val := at_ lookup_table (Z.to_nat (deref src)) in
        if val =? 255 then None
        else quantum_pad n (tail src) (u32 (Z.lor (Z.shiftl x 6) val)) padc padding
  end.

Definition decode_last (src : list Z) (m : mem) (pos padding : Z)
  : option (option (mem * Z)) :=
  if padding =? 0 then Some (Some (m, pos))
  else
    match quantum_pad 4 src 0 0 padding with
    | None => Some None
    | Some x =>
        m ← (if padding =? 1 then mem_write m (pos + 1) [Z.land (Z.shiftr x 8) 255]
             else Some m);
        m ← mem_write m pos [Z.land (Z.shiftr x 16) 255];
        Some (Some (m, pos + 3 - padding))
    end.

(** The result, [*outptr] and [*outlen]. *)
Definition curlx_base64_decode (src : list Z) (o : allocs)
  : option (CURLcode * option mem * Z * allocs) :=
  let srclen := strlen src in
  let bad := (CURLE_BAD_CONTENT_ENCODING, None, 0) in
  if (srclen =? 0) || negb (srclen mod 4 =? 0) then Some (bad, o)
  else
    let src := ztake srclen src in
    match count_padding 2 src 0 with
    | None => Some (bad, o)
    | Some padding =>
        let numQuantums := srclen / 4 in
        let fullQuantums := numQuantums - (if padding =? 0 then 0 else 1) in
        let rawlen := numQuantums * 3 - padding in
        let '(ok, o) := next_alloc o in
        if negb ok then Some (CURLE_OUT_OF_MEMORY, None, 0, o)
        else
          r ← decode_full (Z.to_nat fullQuantums) src
                (mem_realloc None (rawlen + 1)) 0;
          match r with
          | None => Some (bad, o)
          | Some (src, m, pos) =>
              r ← decode_last src m pos padding;
              match r with
              | None => Some (bad, o)
              | Some (m, pos) =>
                  m ← mem_write m pos [0];
                  Some (CURLE_OK, Some m, rawlen, o)
              end
          end
    end.

(** * Encoding *)

Section encode.
Variable table64 : list Z.

(** [table64[i]] *)
Definition sym (i : Z) : Z := at_ table64 (Z.to_nat i).

(** [while(insize >= 3)] *)
Fixpoint encode_full (input : list Z) (m : mem) (output : Z)
  : option (list Z * mem * Z) :=
  match input with
  | a :: b :: c :: input' =>
      m ← mem_write m output
        [sym (Z.shiftr a 2);
         sym (Z.lor (Z.shiftl (Z.land a 3) 4) (Z.shiftr b 4));
         sym (Z.lor (Z.shiftl (Z.land b 15) 2) (Z.shiftr (Z.land c 192) 6));
         sym (Z.land c 63)];
      encode_full input' m (output + 4)
  | _ => Some (input, m, output)
  end.

(** The last one or two bytes. *)
Definition encode_rest (padbyte : Z) (input : list Z) (m : mem) (output : Z)
  : option (mem * Z) :=
  match input with
  | [] => Some (m, output)
  | [a] =>
      m ← mem_write m output
        [sym (Z.shiftr a 2); sym (Z.shiftl (Z.land a 3) 4)];
      if padbyte =? 0 then Some (m, output + 2)
      else
        m ← mem_write m (output + 2) [padbyte; padbyte];
        Some (m, output + 4)
  | a :: b :: _ =>
      m ← mem_write m output
        [sym (Z.shiftr a 2);
         sym (Z.lor (Z.shiftl (Z.land a 3) 4) (Z.shiftr (Z.land b 240) 4));
         sym (Z.shiftl (Z.land b 15) 2)];
      if padbyte =? 0 then Some (m, output + 3)
      else
        m ← mem_write m (output + 3) [padbyte];
        Some (m, output + 4)
  end.

Definition base64_encode (padbyte : Z) (inputbuff : list Z) (o : allocs)
  : option (CURLcode * option mem * Z * allocs) :=
  let insize := zlen inputbuff in
  if insize =? 0 then Some (CURLE_OK, None, 0, o)
  else if insize >? CURL_MAX_BASE64_INPUT then Some (CURLE_TOO_LARGE, None, 0, o)
  else
    let '(ok, o) := next_alloc o in
    if negb ok then Some (CURLE_OUT_OF_MEMORY, None, 0, o)
    else
      '(input, m, output) ← encode_full inputbuff
         (mem_realloc None ((insize + 2) / 3 * 4 + 1)) 0;
      '(m, output) ← encode_rest padbyte input m output;
      m ← mem_write m output [0];
      Some (CURLE_OK, Some m, output, o).
End encode.

Definition curlx_base64_encode (inputbuff : list Z) (o : allocs) :=
  base64_encode curlx_base64encdec 61 inputbuff o.

Definition curlx_base64url_encode (inputbuff : list Z) (o : allocs) :=
  base64_encode base64url 0 inputbuff o.

(** * RFC 4648 *)

(** The symbols of groups of 24 bits; [pad] is the padding of a short group. *)
Fixpoint b64_text (table : list Z) (pad : nat -> list Z) (l : list Z) : list Z :=
  match l with
  | [] => []
  | [a] => [sym table (a / 4); sym table (a mod 4 * 16)] ++ pad 2%nat
  | [a; b] =>
      let n := (a * 256 + b) * 4 in
      [sym table (n / 4096); sym table (n / 64 mod 64); sym table (n mod 64)]
      ++ pad 1%nat
  | a :: b :: c :: l =>
      let n := (a * 256 + b) * 256 + c in
      [sym table (n / 262144); sym table (n / 4096 mod 64);
       sym table (n / 64 mod 64); sym table (n mod 64)] ++ b64_text table pad l
  end.

Definition pad_eq (n : nat) : list Z := replicate n 61.
Definition pad_none (n : nat) : list Z := [].

(** The position of a symbol in the alphabet. *)
Fixpoint index_of (c : Z) (l : list Z) : option Z :=
  match l with
  | [] => None
  | x :: l => if x =? c then Some 0 else i ← index_of c l; Some (i + 1)
  end.

Definition b64_val (c : Z) : option Z := index_of c curlx_base64encdec.

(** The bytes of a padded text, [None] when it is not one. *)
Fixpoint b64_parse (s : list Z) : option (list Z) :=
  match s with
  | a :: b :: c :: d :: s' =>
      a ← b64_val a;
      b ← b64_val b;
      match s' with
      | [] =>
          if (c =? 61) && (d =? 61) then Some [(a * 64 + b) / 16]
          else
            c ← b64_val c;
            let n := (a * 64 + b) * 64 + c in
            if d =? 61 then Some [n / 1024; n / 4 mod 256]
            else
              d ← b64_val d;
              let n := n * 64 + d in
              Some [n / 65536; n / 256 mod 256; n mod 256]
      | _ =>
          c ← b64_val c;
          d ← b64_val d;
          let n := ((a * 64 + b) * 64 + c) * 64 + d in
          out ← b64_parse s';
          Some ([n / 65536; n / 256 mod 256; n mod 256] ++ out)
      end
  | _ => None
  end.

(** * Symbols *)

Lemma b64_val_range c v : b64_val c = Some v -> 0 <= v < 64.
Proof.
  assert (H : forall l, match index_of c l with
                        | Some v => 0 <= v < zlen l | None => True end).
  { induction l as [|x l IH]; cbn [index_of]; [done|]. rewrite zlen_cons.
    pose proof (zlen_nonneg l). case_if; [lia|].
    destruct (index_of c l); cbn [mbind option_bind]; [lia|done]. }
  specialize (H curlx_base64encdec). unfold b64_val. intros E. by rewrite E in H.
Qed.

(** The lookup table inverts the alphabet. *)
Lemma lookup_table_val c : is_byte c ->
  at_ lookup_table (Z.to_nat c) = default 255 (b64_val c).
Proof.
  intros Hc. apply Z.eqb_eq. revert c Hc. apply byte_forall. vm_compute. done.
Qed.

Lemma b64_val_eq_sign : b64_val 61 = None.
Proof. done. Qed.

(** Shifting one more symbol into [x]. *)
Lemma shift_in x v : 0 <= x < 2 ^ 26 -> 0 <= v < 64 ->
  u32 (Z.lor (Z.shiftl x 6) v) = x * 64 + v.
Proof.
  intros. rewrite lor_shiftl_add by lia. apply u32_small. unfold UINT32_MAX. lia.
Qed.

Definition b64_group (a b c d : Z) : option Z :=
  a ← b64_val a; b ← b64_val b; c ← b64_val c; d ← b64_val d;
  Some (((a * 64 + b) * 64 + c) * 64 + d).

(** Evaluates the symbols at the head of a goal: bad ones end it. *)
Ltac symbols :=
  repeat match goal with
  | H : is_byte ?c |- context [at_ lookup_table (Z.to_nat ?c)] =>
      rewrite (lookup_table_val c H)
  end;
  repeat match goal with
  | |- context [b64_val ?c] =>
      let E := fresh "E" in let v := fresh "v" in
      destruct (b64_val c) as [v|] eqn:E;
      [apply b64_val_range in E; cbn [default mbind option_bind]; unfold id;
       try (replace (v =? 255) with false by (symmetry; apply Z.eqb_neq; lia));
       try match goal with
           | |- context [u32 (Z.lor (Z.shiftl ?x 6) v)] =>
               rewrite (shift_in x v) by lia
           end
      |try (cbn [mbind option_bind]; done)]
  end.

Lemma quantum_group a b c d r :
  bytes_ok [a; b; c; d] ->
  quantum 4 (a :: b :: c :: d :: r) 0 = n ← b64_group a b c d; Some (n, r).
Proof.
  unfold bytes_ok. rewrite !Forall_cons. intros (Ha & Hb & Hc & Hd & _).
  unfold b64_group. cbn [quantum deref tail]. symbols. done.
Qed.

Lemma b64_group_range a b c d n : b64_group a b c d = Some n -> 0 <= n < 2 ^ 24.
Proof.
  unfold b64_group. symbols; try (intros [= <-]; lia).
Qed.

(** * The decoder *)

Definition three_bytes (n : Z) : list Z := [n / 65536; n / 256 mod 256; n mod 256].

(** The complete quantums as lists. *)
Fixpoint b64_full (k : nat) (s : list Z) : option (list Z) :=
  match k, s with
  | S k, a :: b :: c :: d :: s =>
      n ← b64_group a b c d;
      out ← b64_full k s;
      Some (three_bytes n ++ out)
  | _, _ => Some []
  end.

Lemma land_255 x : Z.land x 255 = x mod 256.
Proof. apply (land_mask x 8). lia. Qed.

(** The three stores of a quantum, last byte first. *)
Lemma store_three (m p r : mem) pos x y z n0 :
  m = p ++ r -> zlen p = pos -> 3 <= zlen r -> 0 <= n0 < 2 ^ 24 ->
  x = Z.land (Z.shiftr n0 16) 255 -> y = Z.land (Z.shiftr n0 8) 255 -> 
  z = Z.land n0 255 ->
  (m ← mem_write m (pos + 2) [z];
   m ← mem_write m (pos + 1) [y];
   mem_write m pos [x]) = Some (p ++ map Some (three_bytes n0) ++ zdrop 3 r).
Proof.
  intros -> <- Hr Hn -> -> ->.
  destruct r as [|r0 [|r1 [|r2 r]]]; rewrite ?zlen_cons, ?zlen_nil in Hr; try lia.
  rewrite (mem_write_at _ (p ++ [r0; r1]) [r2] r)
    by (rewrite ?zlen_app, <- ?app_assoc; done).
  cbn [mbind option_bind map].
  rewrite (mem_write_at _ (p ++ [r0]) [r1] (Some (Z.land n0 255) :: r))
    by (rewrite ?zlen_app, <- ?app_assoc; done).
  cbn [mbind option_bind map].
  rewrite (mem_write_at _ p [r0] (Some (Z.land (Z.shiftr n0 8) 255)
    :: Some (Z.land n0 255) :: r)) by (rewrite ?zlen_app, <- ?app_assoc; done).
  rewrite !land_255, !Z.shiftr_div_pow2 by lia. unfold three_bytes.
  change (2 ^ 16) with 65536. change (2 ^ 8) with 256.
  rewrite (Z.mod_small (n0 / 65536)) by dlia. done.
Qed.

Lemma decode_full_spec k : forall s done r,
  zlen s >= 4 * Z.of_nat k -> bytes_ok s -> zlen r >= 3 * Z.of_nat k ->
  decode_full k s (map Some done ++ r) (zlen done) =
  match b64_full k s with
  | None => Some None
  | Some out =>
      Some (Some (zdrop (4 * Z.of_nat k) s,
                  map Some (done ++ out) ++ zdrop (3 * Z.of_nat k) r,
                  zlen done + 3 * Z.of_nat k))
  end.
Proof.
  induction k as [|k IH]; intros s dn r Hs Hb Hr.
  { destruct s; cbn [decode_full b64_full]; rewrite app_nil_r, !zdrop_0, Z.add_0_r; done. }
  destruct s as [|a [|b [|c [|d s]]]]; rewrite ?zlen_cons, ?zlen_nil in Hs; try lia.
  assert (Hb4 : bytes_ok [a; b; c; d] /\ bytes_ok s) by by apply (bytes_ok_app [a; b; c; d] s).
  cbn [b64_full decode_full]. rewrite quantum_group by apply Hb4.
  destruct (b64_group a b c d) as [n|] eqn:En; cbn [mbind option_bind]; [|done].
  apply b64_group_range in En.
  pose proof (store_three _ (map Some dn) r (zlen dn) _ _ _ n eq_refl (zlen_map _ _)
    ltac:(lia) En eq_refl eq_refl eq_refl) as Hst.
  destruct (mem_write _ (zlen dn + 2) _) as [m1|]; [|done]. cbn [mbind option_bind] in *.
  destruct (mem_write m1 _ _) as [m2|]; [|done]. cbn [mbind option_bind] in *.
  destruct (mem_write m2 _ _) as [m3|]; [|done]. cbn [mbind option_bind] in *.
  apply (inj Some) in Hst as ->. rewrite app_assoc, <- map_app.
  replace (zlen dn + 3) with (zlen (dn ++ three_bytes n)) by (rewrite zlen_app; done).
  rewrite IH; [|lia|apply Hb4|rewrite zlen_zdrop; lia].
  destruct (b64_full k s) as [out|]; cbn [mbind option_bind]; [|done].
  rewrite zlen_app, <- !app_assoc. change (zlen (three_bytes n)) with 3.
  replace (zdrop (4 * Z.of_nat (S k)) (a :: b :: c :: d :: s))
    with (zdrop (4 * Z.of_nat k) s).
  2: { unfold zdrop. by replace (Z.to_nat (4 * Z.of_nat (S k)))
         with (4 + Z.to_nat (4 * Z.of_nat k))%nat by lia. }
  rewrite zdrop_zdrop by lia. do 3 f_equal; lia || (do 3 f_equal; lia).
Qed.

Lemma b64_full_app k : forall pre s, zlen pre = 4 * Z.of_nat k ->
  b64_full (k + 1) (pre ++ s) = out ← b64_full k pre; l ← b64_full 1 s; Some (out ++ l).
Proof.
  induction k as [|k IH]; intros pre s Hp.
  { assert (pre = []) as -> by (apply zlen_0; lia). cbn [app Nat.add].
    change (b64_full 0 []) with (Some (@nil Z)). cbn [mbind option_bind].
    destruct (b64_full 1 s); done. }
  destruct pre as [|a [|b [|c [|d pre]]]]; rewrite ?zlen_cons, ?zlen_nil in Hp; try lia.
  cbn [Nat.add app b64_full]. destruct (b64_group a b c d); cbn [mbind option_bind]; [|done].
  rewrite IH by lia. cbn [b64_full]. destruct (b64_full k pre); cbn [mbind option_bind]; [|done].
  destruct s as [|x1 [|x2 [|x3 [|x4 s]]]]; cbn [mbind option_bind];
    rewrite <- ?app_assoc; try done.
  destruct (b64_group x1 x2 x3 x4); cbn [mbind option_bind]; by rewrite <- ?app_assoc.
Qed.

Lemma b64_full_prefix k : forall pre s, zlen pre = 4 * Z.of_nat k ->
  b64_full k (pre ++ s) = b64_full k pre.
Proof.
  induction k as [|k IH]; intros pre s Hp.
  { destruct pre, s; done. }
  destruct pre as [|a [|b [|c [|d pre]]]]; rewrite ?zlen_cons, ?zlen_nil in Hp; try lia.
  cbn [app b64_full]. by rewrite IH by lia.
Qed.

Lemma b64_full_length k : forall s out, zlen s >= 4 * Z.of_nat k ->
  b64_full k s = Some out -> zlen out = 3 * Z.of_nat k.
Proof.
  induction k as [|k IH]; intros s out Hs.
  { destruct s; intros [= <-]; done. }
  destruct s as [|a [|b [|c [|d s]]]]; rewrite ?zlen_cons, ?zlen_nil in Hs; try lia.
  cbn [b64_full]. destruct (b64_group a b c d); cbn [mbind option_bind]; [|done].
  destruct (b64_full k s) as [l|] eqn:E; cbn [mbind option_bind]; [|done].
  intros [= <-]. apply IH in E; [|lia]. rewrite !zlen_cons. lia.
Qed.

(** A text is its complete quantums and a last one. *)
Lemma b64_parse_split k : forall pre a b c d, zlen pre = 4 * Z.of_nat k ->
  b64_parse (pre ++ [a; b; c; d])
  = out ← b64_full k pre; l ← b64_parse [a; b; c; d]; Some (out ++ l).
Proof.
  induction k as [|k IH]; intros pre a b c d Hp.
  { assert (pre = []) as -> by (apply zlen_0; lia). cbn [app b64_full mbind option_bind].
    destruct (b64_parse [a; b; c; d]); done. }
  destruct pre as [|a1 [|b1 [|c1 [|d1 pre]]]]; rewrite ?zlen_cons, ?zlen_nil in Hp; try lia.
  specialize (IH pre a b c d ltac:(lia)).
  set (l := [a; b; c; d]) in *. cbn [app b64_full].
  assert (Hne : exists x s', pre ++ l = x :: s') by (destruct pre; subst l; cbn; eauto).
  destruct Hne as (x & s' & Hne). cbn [b64_parse]. rewrite Hne in *.
  rewrite IH. unfold b64_group.
  destruct (b64_val a1); cbn [mbind option_bind]; [|done].
  destruct (b64_val b1); cbn [mbind option_bind]; [|done].
  destruct (b64_val c1); cbn [mbind option_bind]; [|done].
  destruct (b64_val d1); cbn [mbind option_bind]; [|done].
  destruct (b64_full k pre); cbn [mbind option_bind]; [|done].
  destruct (b64_parse l); cbn [mbind option_bind]; done.
Qed.

Lemma at_app pre s n p :
  zlen (pre ++ s) - 1 - p = n -> 0 <= p < zlen s ->
  at_ (pre ++ s) (Z.to_nat n) = at_ s (Z.to_nat (zlen s - 1 - p)).
Proof.
  rewrite zlen_app. intros <- Hp. pose proof (zlen_nonneg pre). unfold at_, zlen in *.
  rewrite drop_app_ge by lia. do 2 f_equal. lia.
Qed.

(** What the count of padding characters says of the last quantum. *)
Lemma count_padding_spec pre a b c d :
  count_padding 2 (pre ++ [a; b; c; d]) 0 =
  if d =? 61 then if c =? 61 then if b =? 61 then None else Some 2 else Some 1
  else Some 0.
Proof.
  cbn [count_padding]. pose proof (zlen_nonneg pre).
  rewrite (at_app pre [a; b; c; d] _ 0), (at_app pre [a; b; c; d] _ (0 + 1)),
    (at_app pre [a; b; c; d] _ (0 + 1 + 1)) by (done || (cbn; lia)).
  change (Z.to_nat (zlen [a; b; c; d] - 1 - 0)) with 3%nat.
  change (Z.to_nat (zlen [a; b; c; d] - 1 - (0 + 1))) with 2%nat.
  change (Z.to_nat (zlen [a; b; c; d] - 1 - (0 + 1 + 1))) with 1%nat.
  unfold at_. cbn [drop deref]. destruct (d =? 61), (c =? 61), (b =? 61); done.
Qed.

Lemma shift_pad x : 0 <= x < 2 ^ 26 -> u32 (Z.shiftl x 6) = x * 64.
Proof.
  intros. rewrite Z.shiftl_mul_pow2 by lia. apply u32_small. unfold UINT32_MAX. lia.
Qed.

Lemma not_pad c v : b64_val c = Some v -> (c =? 61) = false.
Proof. intros H. apply Z.eqb_neq. by intros ->. Qed.

Lemma is_pad c : (c =? 61) = true -> b64_val c = None.
Proof. intros. zb_hyps. by subst. Qed.

(** Evaluates the shifts of padding characters, the inner one first. *)
Ltac pads :=
  repeat match goal with
  | |- context [u32 (Z.shiftl ?x 6)] =>
      lazymatch x with
      | context [u32] => fail
      | _ => rewrite (shift_pad x) by lia
      end
  end.

(** The bits that the quantum with one or two padding characters holds. *)
Lemma quantum_pad_spec a b c d padding :
  bytes_ok [a; b; c; d] -> count_padding 2 [a; b; c; d] 0 = Some padding ->
  padding <> 0 ->
  d = 61 /\ quantum_pad 4 [a; b; c; d] 0 0 padding =
  (a ← b64_val a; b ← b64_val b;
   if padding =? 2 then Some ((a * 64 + b) * 4096)
   else c ← b64_val c; Some (((a * 64 + b) * 64 + c) * 64)) /\
  (padding = 2 /\ c = 61 \/ padding = 1 /\ (c =? 61) = false).
Proof.
  intros Hb Hc Hp. pose proof (count_padding_spec [] a b c d) as Hs.
  cbn [app] in Hs. rewrite Hs in Hc. clear Hs.
  unfold bytes_ok in Hb. rewrite !Forall_cons in Hb. destruct Hb as (Ha & Hb & Hcc & Hd & _).
  destruct (d =? 61) eqn:Ed; [|by injection Hc as <-]. zb_hyps. subst d.
  split; [done|]. clear Hp. unfold quantum_pad. cbn [deref tail].
  destruct (c =? 61) eqn:Ec; [destruct (b =? 61) eqn:Eb; [done|]|];
    injection Hc as <-; zb_hyps; try subst c; (split; [|tauto]);
    destruct (a =? 61) eqn:Ea;
    try (rewrite (is_pad a Ea)); cbn [mbind option_bind];
    change (61 =? 61) with true; change (2 =? 2) with true;
    change (1 =? 2) with false; cbv beta iota.
  - symbols; done.
  - symbols. cbn. pads. f_equal. lia.
  - destruct (b =? 61) eqn:Eb; [done|]. symbols; done.
  - destruct (b =? 61) eqn:Eb; [rewrite (is_pad b Eb)|]; symbols; try done.
    cbn. pads. done.
Qed.

Lemma decode_last_spec a b c d (r : mem) done padding :
  bytes_ok [a; b; c; d] -> count_padding 2 [a; b; c; d] 0 = Some padding ->
  padding <> 0 -> zlen r = 4 - padding ->
  decode_last [a; b; c; d] (map Some done ++ r) (zlen done) padding =
  Some (out ← b64_parse [a; b; c; d];
        Some (map Some (done ++ out) ++ zdrop (3 - padding) r,
              zlen done + 3 - padding)) /\
  (forall out, b64_parse [a; b; c; d] = Some out -> zlen out = 3 - padding).
Proof.
  intros Hb Hc Hp Hr.
  destruct (quantum_pad_spec a b c d padding Hb Hc Hp) as (-> & Hq & Hpad).
  unfold decode_last. replace (padding =? 0) with false by (symmetry; by apply Z.eqb_neq).
  rewrite Hq. cbn [b64_parse]. change (61 =? 61) with true. rewrite andb_true_r.
  destruct (b64_val a) as [va|] eqn:Ea; cbn [mbind option_bind]; [|done].
  destruct (b64_val b) as [vb|] eqn:Eb; cbn [mbind option_bind]; [|done].
  apply b64_val_range in Ea, Eb.
  destruct Hpad as [[-> ->]|[-> Hc61]].
  - change (61 =? 61) with true. change (2 =? 2) with true. cbv iota.
    change (2 =? 1) with false. cbn [mbind option_bind].
    destruct r as [|r0 [|r1 [|]]]; try zlia.
    rewrite (mem_write_at _ (map Some done) [r0] [r1]) by (done || apply zlen_map).
    cbn [mbind option_bind]. split; [|by intros ? [= <-]].
    rewrite land_255, Z.shiftr_div_pow2, map_app, <- app_assoc by lia.
    change (2 ^ 16) with 65536.
    replace ((va * 64 + vb) * 4096 / 65536 mod 256) with ((va * 64 + vb) / 16) by dlia.
    done.
  - rewrite Hc61. change (1 =? 2) with false. change (1 =? 1) with true. cbv iota.
    destruct (b64_val c) as [vc|] eqn:Ec; cbn [mbind option_bind]; [|done].
    apply b64_val_range in Ec. split; [|by intros ? [= <-]].
    destruct r as [|r0 [|r1 [|r2 [|]]]]; try zlia.
    rewrite (mem_write_at _ (map Some done ++ [r0]) [r1] [r2])
      by (rewrite ?zlen_app, ?zlen_map, <- ?app_assoc; done).
    cbn [mbind option_bind map]. rewrite <- app_assoc.
    rewrite (mem_write_at _ (map Some done) [r0] (_ :: r2 :: []))
      by (done || apply zlen_map).
    cbn [mbind option_bind]. rewrite !land_255, !Z.shiftr_div_pow2 by lia.
    change (2 ^ 16) with 65536. change (2 ^ 8) with 256.
    set (n := (va * 64 + vb) * 64 + vc) in *.
    replace (n * 64 / 65536 mod 256) with (n / 1024) by (subst n; dlia).
    replace (n * 64 / 256 mod 256) with (n / 4 mod 256) by (subst n; dlia).
    by rewrite map_app, <- app_assoc.
Qed.

(** A text whose length is a positive multiple of four ends in a quantum. *)
Lemma last_quantum (s : list Z) : s <> [] -> zlen s mod 4 = 0 ->
  exists k pre a b c d, s = pre ++ [a; b; c; d] /\ zlen pre = 4 * Z.of_nat k /\
    zlen s = 4 * Z.of_nat k + 4.
Proof.
  intros Hs Hm. pose proof (zlen_nonneg s).
  assert (zlen s <> 0) by (intros ?%zlen_0; done).
  destruct (list_split_at s (zlen s - 4)) as (pre & r & Hpr & Hl); [dlia|].
  exists (Z.to_nat (zlen s / 4 - 1)), pre.
  assert (Hr : zlen r = 4).
  { apply (f_equal zlen) in Hpr. rewrite zlen_app in Hpr. lia. }
  destruct r as [|a [|b [|c [|d [|]]]]]; try zlia.
  exists a, b, c, d. split; [done|]. dlia.
Qed.

Lemma b64_parse_length s : forall out, b64_parse s = Some out -> zlen s mod 4 = 0.
Proof.
  remember (length s) as n eqn:Hn. revert s Hn.
  induction n as [n IH] using lt_wf_ind. intros s Hn out.
  destruct s as [|a [|b [|c [|d s]]]]; try done. cbn [b64_parse].
  destruct (b64_val a); cbn [mbind option_bind]; [|done].
  destruct (b64_val b); cbn [mbind option_bind]; [|done].
  destruct s as [|x s]; [done|].
  destruct (b64_val c); cbn [mbind option_bind]; [|done].
  destruct (b64_val d); cbn [mbind option_bind]; [|done].
  destruct (b64_parse (x :: s)) as [l|] eqn:E; cbn [mbind option_bind]; [|done].
  intros _. cbn [length] in Hn. eapply (IH (S (length s)) ltac:(lia)) in E; [|done].
  change (a :: b :: c :: d :: x :: s) with ([a; b; c; d] ++ x :: s).
  rewrite zlen_app. change (zlen [a; b; c; d]) with 4. dlia.
Qed.

Lemma decode_last_none s m pos : decode_last s m pos 0 = Some (Some (m, pos)).
Proof. done. Qed.

(** Without padding the last quantum is a complete one. *)
Lemma b64_parse_no_pad a b c d : (d =? 61) = false ->
  b64_parse [a; b; c; d] = b64_full 1 [a; b; c; d].
Proof.
  intros Hd. cbn [b64_parse b64_full]. rewrite Hd, andb_false_r. unfold b64_group.
  destruct (b64_val a); cbn [mbind option_bind]; [|done].
  destruct (b64_val b); cbn [mbind option_bind]; [|done].
  destruct (b64_val c); cbn [mbind option_bind]; [|done].
  destruct (b64_val d); done.
Qed.

Lemma mem_realloc_None a : 0 <= a ->
  mem_realloc None a = replicate (Z.to_nat a) None.
Proof.
  intros. unfold mem_realloc, ztake. cbn. rewrite take_nil. cbn [app].
  rewrite zlen_nil. do 2 f_equal. lia.
Qed.

(** The last store: the terminator fills the block. *)
Lemma store_end (s : list Z) (r : mem) : zlen r = 1 ->
  mem_write (map Some s ++ r) (zlen s) [0] = Some (map Some s ++ [Some 0]).
Proof.
  intros Hr. destruct r as [|x [|]]; try zlia.
  rewrite (mem_write_at _ (map Some s) [x] []) by (done || apply zlen_map). done.
Qed.

(** The decoder after its length and padding checks. *)
Lemma decode_body k pre a b c d padding :
  zlen pre = 4 * Z.of_nat k -> bytes_ok (pre ++ [a; b; c; d]) ->
  count_padding 2 (pre ++ [a; b; c; d]) 0 = Some padding ->
  let s := pre ++ [a; b; c; d] in
  let rawlen := (Z.of_nat k + 1) * 3 - padding in
  (r ← decode_full (Z.to_nat (Z.of_nat k + 1 - (if padding =? 0 then 0 else 1))) s
         (mem_realloc None (rawlen + 1)) 0;
   match r with
   | None => Some None
   | Some (s, m, pos) =>
       r ← decode_last s m pos padding;
       match r with
       | None => Some None
       | Some (m, pos) => m ← mem_write m pos [0]; Some (Some m)
       end
   end) = Some (out ← b64_parse s; Some (map Some out ++ [Some 0])) /\
  (forall out, b64_parse s = Some out -> zlen out = rawlen).
Proof.
  intros Hk Hb Hc s rawlen.
  assert (Hc4 : count_padding 2 [a; b; c; d] 0 = Some padding).
  { rewrite <- Hc, (count_padding_spec pre). apply (count_padding_spec []). }
  rewrite (count_padding_spec pre) in Hc.
  assert (Hp : 0 <= padding <= 2 /\ (padding = 0 -> (d =? 61) = false)).
  { destruct (d =? 61), (c =? 61), (b =? 61); simplify_eq; done || lia. }
  destruct Hp as [Hp Hp0]. subst rawlen.
  set (rawlen := (Z.of_nat k + 1) * 3 - padding).
  assert (Hraw : zlen (mem_realloc None (rawlen + 1)) = rawlen + 1)
    by (apply mem_realloc_fresh; lia).
  destruct (padding =? 0) eqn:E0; zb_hyps.
  - subst padding. subst s.
    rewrite (b64_parse_split k), b64_parse_no_pad by auto.
    rewrite <- (b64_full_app k pre [a; b; c; d] Hk).
    replace (Z.to_nat (Z.of_nat k + 1 - 0)) with (k + 1)%nat by lia.
    pose proof (decode_full_spec (k + 1) (pre ++ [a; b; c; d]) []
      (mem_realloc None (rawlen + 1))) as Hd. cbn [map app] in Hd. rewrite zlen_nil in Hd.
    rewrite Hd; [|zlia|done|lia].
    destruct (b64_full (k + 1) _) as [out|] eqn:Eo; [|done].
    apply b64_full_length in Eo; [|zlia].
    cbn [mbind option_bind]. rewrite decode_last_none. cbn [mbind option_bind].
    replace (0 + 3 * Z.of_nat (k + 1)) with (zlen out) by lia.
    rewrite store_end by (rewrite zlen_zdrop, Hraw; lia).
    split; [done|]. intros ? [= <-]. lia.
  - replace (Z.to_nat (Z.of_nat k + 1 - 1)) with k by lia. subst s.
    pose proof (decode_full_spec k (pre ++ [a; b; c; d]) []
      (mem_realloc None (rawlen + 1))) as Hd. cbn [map app] in Hd. rewrite zlen_nil in Hd.
    rewrite Hd; [clear Hd|zlia|done|lia].
    rewrite (b64_parse_split k), b64_full_prefix by auto.
    destruct (b64_full k pre) as [out|] eqn:Eo; [|done].
    apply b64_full_length in Eo; [|lia]. cbn [mbind option_bind].
    rewrite <- Hk, zdrop_app_exact.
    replace (0 + 3 * Z.of_nat k) with (zlen out) by lia.
    apply bytes_ok_app in Hb as [_ Hb].
    destruct (decode_last_spec a b c d
      (zdrop (3 * Z.of_nat k) (mem_realloc None (rawlen + 1))) out padding Hb Hc4 E0)
      as [Hl Hlen].
    { rewrite zlen_zdrop, Hraw by lia. lia. }
    rewrite Hl. cbn [mbind option_bind].
    destruct (b64_parse [a; b; c; d]) as [l|] eqn:Ep; cbn [mbind option_bind]; [|done].
    specialize (Hlen l eq_refl).
    replace (zlen out + 3 - padding) with (zlen (out ++ l)) by zlia.
    rewrite store_end by (rewrite !zlen_zdrop, Hraw by lia; lia).
    split; [done|]. intros ? [= <-]. zlia.
Qed.

Lemma base64_decode_spec src :
  bytes_ok src -> Forall (fun c => c <> 0) src ->
  curlx_base64_decode src [] =
  Some match b64_parse src with
       | Some out => (CURLE_OK, Some (map Some out ++ [Some 0]), zlen out, [])
       | None => (CURLE_BAD_CONTENT_ENCODING, None, 0, [])
       end.
Proof.
  intros Hb Hz. unfold curlx_base64_decode. rewrite strlen_nonzero by done.
  case_if.
  { destruct (b64_parse src) eqn:Ep; [|done]. exfalso.
    pose proof (b64_parse_length _ _ Ep). apply orb_true_iff in E as [E|E]; zb_hyps; [|done].
    apply zlen_0 in E as ->. done. }
  rewrite ztake_ge by lia. zb_hyps.
  assert (Hne : src <> []) by (by intros ->).
  destruct (last_quantum src Hne H0) as (k & pre & a & b & c & d & -> & Hk & Hl).
  destruct (count_padding 2 _ 0) as [padding|] eqn:Ec.
  2: { pose proof Ec as Ec'. rewrite count_padding_spec in Ec'.
       rewrite (b64_parse_split k) by done.
       destruct (d =? 61), (c =? 61), (b =? 61) eqn:Eb; try done.
       cbn [b64_parse]. rewrite (is_pad b Eb).
       destruct (b64_full k pre), (b64_val a); done. }
  destruct (decode_body k pre a b c d padding Hk Hb Ec) as [Hd Hlen].
  replace (zlen (pre ++ [a; b; c; d]) / 4) with (Z.of_nat k + 1) by dlia.
  cbn [next_alloc negb]. revert Hd Hlen. cbv zeta.
  set (s := pre ++ [a; b; c; d]).
  destruct (decode_full _ s _ 0) as [[[[s' m] pos]|]|]; cbn [mbind option_bind]; [| |done].
  2: { intros [= Hd] _. destruct (b64_parse s); done. }
  destruct (decode_last s' m pos padding) as [[[m' pos']|]|]; cbn [mbind option_bind];
    [| |done].
  2: { intros [= Hd] _. destruct (b64_parse s); done. }
  destruct (mem_write m' pos' [0]) as [m2|]; cbn [mbind option_bind]; [|done].
  intros [= Hd] Hlen. destruct (b64_parse s) as [out|]; [|done].
  cbn [mbind option_bind] in Hd. injection Hd as ->.
  by rewrite (Hlen out eq_refl).
Qed.

(** C3: on any C string the decoder stays inside its allocation and returns
    [CURLE_OK] exactly for RFC 4648 texts (a positive multiple of four
    characters, symbols of the alphabet, at most two padding characters, at
    the end), with the bytes they denote, NUL-terminated, in a block of just
    that size; for any other text it returns [CURLE_BAD_CONTENT_ENCODING]
    and no block. *)
Theorem base64_decode_correct src :
  bytes_ok src -> Forall (fun c => c <> 0) src ->
  curlx_base64_decode src [] =
  Some match b64_parse src with
       | Some out => (CURLE_OK, Some (map Some out ++ [Some 0]), zlen out, [])
       | None => (CURLE_BAD_CONTENT_ENCODING, None, 0, [])
       end.
Proof. apply base64_decode_spec. Qed.

Lemma base64_decode_correct_witness :
  curlx_base64_decode (str "Y3VybA==") []
  = Some (CURLE_OK, Some (map Some (str "curl") ++ [Some 0]), 4, []) /\
  curlx_base64_decode (str "Y3=ybA==") []
  = Some (CURLE_BAD_CONTENT_ENCODING, None, 0, []).
Proof.
  split; rewrite base64_decode_correct; first [by_compute | vm_compute; reflexivity].
Defined.

(** * The encoders *)

Lemma index_of_sym i : 0 <= i < 64 -> b64_val (sym curlx_base64encdec i) = Some i.
Proof.
  intros H.
  pose proof (byte_forall (fun i => if i <? 64 then
      match b64_val (sym curlx_base64encdec i) with Some j => j =? i | None => false end
      else true)) as Hc.
  specialize (Hc ltac:(vm_compute; reflexivity) i). unfold is_byte in Hc.
  specialize (Hc ltac:(lia)). cbn beta in Hc. case_if_in Hc; [|lia].
  destruct (b64_val _) as [j|]; [|done]. zb_hyps. by subst j.
Qed.

Section encode_spec.
Variable table : list Z.

(** The padding string of the C encoder. *)
Definition pad_of (padbyte : Z) (n : nat) : list Z :=
  if padbyte =? 0 then [] else replicate n padbyte.

(** The bit fields of the source as digits of the 24-bit group. *)
Lemma encode_fields a b c : is_byte a -> is_byte b -> is_byte c ->
  let n := (a * 256 + b) * 256 + c in
  Z.shiftr a 2 = n / 262144 /\
  Z.lor (Z.shiftl (Z.land a 3) 4) (Z.shiftr b 4) = n / 4096 mod 64 /\
  Z.lor (Z.shiftl (Z.land b 15) 2) (Z.shiftr (Z.land c 192) 6) = n / 64 mod 64 /\
  Z.land c 63 = n mod 64.
Proof.
  intros Ha Hb Hc n. unfold is_byte in Ha, Hb.
  assert (Hc6 : Z.shiftr (Z.land c 192) 6 = c / 64).
  { apply Z.eqb_eq. revert c Hc n. intros c Hc _. revert c Hc. apply byte_forall.
    vm_compute. done. }
  unfold is_byte in Hc. rewrite Hc6, !Z.shiftr_div_pow2 by lia.
  assert (H3 : Z.land a 3 = a mod 4) by (apply (land_mask a 2); lia).
  assert (H15 : Z.land b 15 = b mod 16) by (apply (land_mask b 4); lia).
  assert (H63 : Z.land c 63 = c mod 64) by (apply (land_mask c 6); lia).
  rewrite H3, H15, H63, !lor_shiftl_add by (try lia; dlia).
  subst n. split_and!; dlia.
Qed.

Lemma encode_rest_fields b : is_byte b -> Z.shiftr (Z.land b 240) 4 = Z.shiftr b 4.
Proof.
  intros Hb. apply Z.eqb_eq. revert b Hb. apply byte_forall. vm_compute. done.
Qed.

(** The main loop, over whole groups [l] with [l'] left. *)
Fixpoint groups (l : list Z) : list Z * list Z :=
  match l with
  | a :: b :: c :: l' =>
      let '(g, r) := groups l' in
      (firstn 4 (b64_text table (pad_of 0) [a; b; c]) ++ g, r)
  | _ => ([], l)
  end.

Lemma groups_text pad l :
  b64_text table pad l = fst (groups l) ++ b64_text table pad (snd (groups l)) /\
  (length (snd (groups l)) < 3)%nat /\
  zlen (fst (groups l)) = (zlen l - zlen (snd (groups l))) / 3 * 4 /\
  (zlen l - zlen (snd (groups l))) mod 3 = 0.
Proof.
  remember (length l) as n eqn:Hn. revert l Hn.
  induction n as [n IH] using lt_wf_ind. intros l Hn.
  destruct l as [|a [|b [|c l]]]; try (cbn; split_and!; done || lia).
  cbn [groups]. cbn [length] in Hn. specialize (IH (length l) ltac:(lia) l eq_refl).
  destruct (groups l) as [g r]. cbn [fst snd] in *.
  destruct IH as (Ht & Hr & Hg & Hm). split_and!; [|done| |].
  - cbn [b64_text]. rewrite Ht. done.
  - rewrite zlen_app, Hg. change (zlen (firstn 4 _)) with 4. rewrite !zlen_cons. dlia.
  - rewrite !zlen_cons. dlia.
Qed.

Lemma encode_full_spec l : forall done r,
  bytes_ok l -> zlen r >= zlen (fst (groups l)) ->
  encode_full table l (map Some done ++ r) (zlen done) =
  Some (snd (groups l), map Some (done ++ fst (groups l)) ++ zdrop (zlen (fst (groups l))) r,
        zlen (done ++ fst (groups l))).
Proof.
  remember (length l) as n eqn:Hn. revert l Hn.
  induction n as [n IH] using lt_wf_ind. intros l Hn dn r Hb Hr.
  destruct l as [|a [|b [|c l]]]; try (cbn [encode_full groups fst snd]; by rewrite app_nil_r).
  change (a :: b :: c :: l) with ([a; b; c] ++ l) in Hb.
  apply bytes_ok_app in Hb as [Habc Hb]. unfold bytes_ok in Habc.
  rewrite !Forall_cons in Habc. destruct Habc as (Ha & Hbb & Hc & _).
  destruct (encode_fields a b c Ha Hbb Hc) as (E1 & E2 & E3 & E4).
  cbn [encode_full]. rewrite E1, E2, E3, E4. cbn [groups] in *. cbn [length] in Hn.
  destruct (groups l) as [g r'] eqn:Eg. cbn [fst snd b64_text app firstn] in *.
  set (q := [_; _; _; _]) in |- *.
  change (sym table _ :: sym table _ :: sym table _ :: sym table _ :: g) with (q ++ g) in *.
  assert (Hq : zlen q = 4) by done. clearbody q.
  destruct (list_split_at r 4) as (old & r1 & -> & Ho); [zlia|].
  rewrite (mem_write_app _ (map Some dn) old r1 _ _ (map Some (dn ++ q)));
    [|done|apply zlen_map|lia|by rewrite map_app].
  cbn [mbind option_bind]. replace (zlen dn + 4) with (zlen (dn ++ q)) by zlia.
  rewrite (IH (length l)); [|lia|done|done|rewrite Eg; cbn [fst]; zlia].
  rewrite Eg. cbn [fst snd]. rewrite <- !app_assoc. do 3 f_equal. f_equal.
  rewrite zlen_app, Hq, <- Ho, Z.add_comm, <- zdrop_zdrop, zdrop_app_exact by zlia. done.
Qed.

(** The same fields in a last group of one or two bytes. *)
Lemma encode_fields_rest a b : is_byte a -> is_byte b ->
  Z.shiftr a 2 = a / 4 /\ Z.shiftl (Z.land a 3) 4 = a mod 4 * 16 /\
  let n := (a * 256 + b) * 4 in
  Z.shiftr a 2 = n / 4096 /\
  Z.lor (Z.shiftl (Z.land a 3) 4) (Z.shiftr (Z.land b 240) 4) = n / 64 mod 64 /\
  Z.shiftl (Z.land b 15) 2 = n mod 64.
Proof.
  intros Ha Hb. rewrite encode_rest_fields by done. unfold is_byte in *.
  assert (H3 : Z.land a 3 = a mod 4) by (apply (land_mask a 2); lia).
  assert (H15 : Z.land b 15 = b mod 16) by (apply (land_mask b 4); lia).
  rewrite H3, H15, !Z.shiftl_mul_pow2, !Z.shiftr_div_pow2 by lia.
  rewrite <- Z.shiftl_mul_pow2, lor_shiftl_add by (try lia; dlia).
  rewrite Z.shiftl_mul_pow2 by lia. split_and!; dlia.
Qed.

(** Storing the symbols [q] of a short group and its padding. *)
Lemma encode_tail padbyte q n done (r : mem) :
  zlen r >= zlen (q ++ pad_of padbyte n) ->
  (m ← mem_write (map Some done ++ r) (zlen done) q;
   if padbyte =? 0 then Some (m, zlen done + zlen q)
   else
     m ← mem_write m (zlen done + zlen q) (replicate n padbyte);
     Some (m, zlen done + (zlen q + Z.of_nat n))) =
  let t := q ++ pad_of padbyte n in
  Some (map Some (done ++ t) ++ zdrop (zlen t) r, zlen (done ++ t)).
Proof.
  intros Hr. assert (Hrep : zlen (replicate n padbyte) = Z.of_nat n).
  { unfold zlen. by rewrite length_replicate. }
  rewrite zlen_app in Hr. zlen_pos.
  destruct (list_split_at r (zlen q)) as (old & r1 & -> & Ho); [lia|].
  rewrite (mem_write_app _ (map Some done) old r1 _ _ (map Some (done ++ q)));
    [|done|apply zlen_map|lia|by rewrite map_app].
  cbn [mbind option_bind]. unfold pad_of in *. cbv zeta. case_if.
  - rewrite !app_nil_r, <- Ho, zdrop_app_exact, zlen_app. by rewrite Ho.
  - rewrite Hrep, zlen_app in Hr.
    destruct (list_split_at r1 (Z.of_nat n)) as (old2 & r2 & -> & Ho2); [lia|].
    rewrite (mem_write_app _ (map Some (done ++ q)) old2 r2 _ _
              (map Some (done ++ q ++ replicate n padbyte)));
      [|done|rewrite zlen_map; zlia|lia|by rewrite (app_assoc done), (map_app _ (done ++ q))].
    cbn [mbind option_bind]. rewrite (app_assoc old).
    replace (zlen (q ++ replicate n padbyte)) with (zlen (old ++ old2))
      by (rewrite !zlen_app; lia).
    rewrite zdrop_app_exact. do 2 f_equal. rewrite !zlen_app. lia.
Qed.

Lemma encode_rest_spec padbyte l done (r : mem) :
  bytes_ok l -> (length l < 3)%nat ->
  zlen r >= zlen (b64_text table (pad_of padbyte) l) ->
  encode_rest table padbyte l (map Some done ++ r) (zlen done) =
  let t := b64_text table (pad_of padbyte) l in
  Some (map Some (done ++ t) ++ zdrop (zlen t) r, zlen (done ++ t)).
Proof.
  intros Hb Hl Hr. destruct l as [|a [|b [|]]]; [| | |cbn in Hl; lia].
  - cbn [encode_rest b64_text] in *. rewrite app_nil_r. done.
  - unfold bytes_ok in Hb. rewrite !Forall_cons in Hb. destruct Hb as (Ha & _).
    destruct (encode_fields_rest a 0 Ha ltac:(done)) as (E1 & E2 & _).
    cbn [encode_rest]. rewrite E1, E2.
    exact (encode_tail padbyte [sym table (a / 4); sym table (a mod 4 * 16)] 2 done r Hr).
  - unfold bytes_ok in Hb. rewrite !Forall_cons in Hb. destruct Hb as (Ha & Hb & _).
    destruct (encode_fields_rest a b Ha Hb) as (_ & _ & E1 & E2 & E3).
    cbn [encode_rest]. rewrite E1, E2, E3.
    set (n := (a * 256 + b) * 4) in *.
    exact (encode_tail padbyte [sym table (n / 4096); sym table (n / 64 mod 64);
      sym table (n mod 64)] 1 done r Hr).
Qed.

Lemma b64_text_room padbyte l :
  zlen (b64_text table (pad_of padbyte) l) <= (zlen l + 2) / 3 * 4.
Proof.
  destruct (groups_text (pad_of padbyte) l) as (-> & Hr & Hg & Hm).
  rewrite zlen_app, Hg. zlen_pos.
  assert (Hp : forall n, zlen (pad_of padbyte n) <= Z.of_nat n).
  { intros n. unfold pad_of. case_if; [apply Nat2Z.is_nonneg|].
    unfold zlen. rewrite length_replicate. lia. }
  pose proof (Hp 1%nat). pose proof (Hp 2%nat).
  destruct (snd (groups l)) as [|x [|y [|]]]; [| | |cbn in Hr; lia];
    cbn [b64_text]; repeat (progress rewrite ?zlen_app, ?zlen_cons, ?zlen_nil in *); dlia.
Qed.

(** The encoder on a non-empty input. *)
Lemma base64_encode_spec padbyte l :
  bytes_ok l -> 0 < zlen l <= CURL_MAX_BASE64_INPUT ->
  let t := b64_text table (pad_of padbyte) l in
  exists spare, base64_encode table padbyte l [] =
    Some (CURLE_OK, Some (map Some t ++ Some 0 :: spare), zlen t, []).
Proof.
  intros Hb Hl t. unfold base64_encode.
  replace (zlen l =? 0) with false by (symmetry; apply Z.eqb_neq; lia).
  rewrite Z.gtb_ltb.
  replace (CURL_MAX_BASE64_INPUT <? zlen l) with false by (symmetry; apply Z.ltb_ge; lia).
  cbn [next_alloc negb]. set (room := (zlen l + 2) / 3 * 4 + 1).
  assert (Hroom : zlen (mem_realloc None room) = room) by (apply mem_realloc_fresh; subst room; dlia).
  pose proof (b64_text_room padbyte l) as Ht. fold t in Ht.
  destruct (groups_text (pad_of padbyte) l) as (Hgt & Hr & Hg & _). fold t in Hgt.
  pose proof (encode_full_spec l [] (mem_realloc None room) Hb) as Hf.
  rewrite Hgt in Ht. rewrite zlen_app in Ht. zlen_pos. specialize (Hf ltac:(lia)).
  cbn [map app] in Hf. rewrite zlen_nil in Hf. rewrite Hf. cbn [mbind option_bind].
  assert (Hb' : bytes_ok (snd (groups l))).
  { clear -Hb. remember (length l) as n eqn:Hn. revert l Hn Hb.
    induction n as [n IH] using lt_wf_ind. intros l Hn Hb.
    destruct l as [|a [|b [|c l]]]; try done. cbn [groups length] in *.
    destruct (groups l) as [g r] eqn:E. cbn [snd].
    specialize (IH (length l) ltac:(lia) l eq_refl). rewrite E in IH. apply IH.
    by apply (bytes_ok_app [a; b; c] l). }
  rewrite encode_rest_spec; [|done|done|rewrite zlen_zdrop, Hroom by lia; lia].
  cbn [mbind option_bind]. rewrite <- Hgt.
  destruct (zdrop _ (zdrop _ (mem_realloc None room))) as [|x spare] eqn:Ed.
  { apply (f_equal zlen) in Ed. rewrite !zlen_zdrop in Ed by lia.
    rewrite Hroom in Ed. change (zlen []) with 0 in Ed. lia. }
  rewrite (mem_write_at _ (map Some t) [x] spare) by (done || apply zlen_map).
  by exists spare.
Qed.
End encode_spec.

(** * Round trip *)

Lemma b64_text_parse l :
  bytes_ok l -> l <> [] -> b64_parse (b64_text curlx_base64encdec pad_eq l) = Some l.
Proof.
  remember (length l) as n eqn:Hn. revert l Hn.
  induction n as [n IH] using lt_wf_ind. intros l Hn Hb Hne.
  assert (Hs : forall i, 0 <= i < 64 -> (sym curlx_base64encdec i =? 61) = false).
  { intros i Hi. apply (not_pad _ i). by apply index_of_sym. }
  destruct l as [|a [|b [|c l]]]; [done|..]; unfold bytes_ok in Hb;
    rewrite !Forall_cons in Hb; unfold is_byte in Hb;
    cbn [b64_text pad_eq replicate app b64_parse].
  - rewrite !index_of_sym by dlia. cbn [mbind option_bind].
    change (61 =? 61) with true. cbn [andb]. do 2 f_equal. dlia.
  - rewrite !index_of_sym by dlia. cbn [mbind option_bind].
    change (61 =? 61) with true. rewrite Hs by dlia. cbn [andb mbind option_bind].
    destruct Hb as (Ha & Hb & _). do 2 f_equal; [dlia|f_equal; dlia].
  - destruct Hb as (Ha & Hb & Hc & Hl).
    set (n0 := (a * 256 + b) * 256 + c).
    assert (H0 : 0 <= n0 < 2 ^ 24) by (subst n0; lia).
    assert (Hg : ((n0 / 262144 * 64 + n0 / 4096 mod 64) * 64 + n0 / 64 mod 64) * 64
                 + n0 mod 64 = n0) by dlia.
    assert (Hbytes : three_bytes n0 = [a; b; c]).
    { unfold three_bytes. subst n0. repeat f_equal; dlia. }
    rewrite !index_of_sym by dlia. cbn [mbind option_bind].
    destruct (b64_text curlx_base64encdec pad_eq l) as [|x s] eqn:Et.
    + assert (l = []) as ->.
      { destruct l as [|? [|? [|]]]; [done|..]; cbn in Et; discriminate. }
      rewrite !Hs by dlia. cbn [andb]. rewrite Hg. f_equal. exact Hbytes.
    + assert (l <> []) by (intros ->; done). rewrite <- Et.
      cbn [length] in Hn. rewrite (IH (length l)) by (done || lia).
      cbn [mbind option_bind]. rewrite Hg. f_equal.
      change (three_bytes n0 ++ l = [a; b; c] ++ l). by rewrite Hbytes.
Qed.

Lemma b64_text_plain l :
  bytes_ok l -> Forall (fun c => is_byte c /\ c <> 0) (b64_text curlx_base64encdec pad_eq l).
Proof.
  assert (Hs : forall i, 0 <= i < 64 ->
    is_byte (sym curlx_base64encdec i) /\ sym curlx_base64encdec i <> 0).
  { intros i Hi.
    pose proof (byte_forall (fun i => if i <? 64 then
      between 1 (sym curlx_base64encdec i) 255 else true)) as Hc.
    specialize (Hc ltac:(vm_compute; reflexivity) i). unfold is_byte in Hc.
    specialize (Hc ltac:(lia)). cbn beta in Hc. case_if_in Hc; [|lia].
    unfold between in Hc. zb_hyps. unfold is_byte. lia. }
  remember (length l) as n eqn:Hn. revert l Hn.
  induction n as [n IH] using lt_wf_ind. intros l Hn Hb.
  assert (H61 : is_byte 61 /\ 61 <> 0) by (unfold is_byte; lia).
  destruct l as [|a [|b [|c l]]]; unfold bytes_ok in Hb;
    rewrite ?Forall_cons in Hb; unfold is_byte in Hb;
    cbn [b64_text pad_eq replicate app]; rewrite ?Forall_cons; [by constructor|..].
  - split_and!; (done || (apply Hs; dlia) || (apply Forall_nil_2)).
  - split_and!; (done || (apply Hs; dlia) || (apply Forall_nil_2)).
  - cbn [length] in Hn. split_and!; [apply Hs; dlia..|].
    apply (IH (length l)); [lia|done|apply Hb].
Qed.

Lemma pad_of_eq : pad_of 61 = pad_eq.
Proof. done. Qed.

(** C6: encoding any input of 1 to 16,000,000 bytes and decoding the text
    gives the input back: both calls stay inside their allocations and return
    [CURLE_OK], the text is NUL-terminated and contains no other NUL, and
    the decoded block holds exactly the input and a NUL. *)
Theorem base64_roundtrip l :
  bytes_ok l -> 0 < zlen l <= CURL_MAX_BASE64_INPUT ->
  exists t spare,
    curlx_base64_encode l [] =
      Some (CURLE_OK, Some (map Some t ++ Some 0 :: spare), zlen t, []) /\
    Forall (fun c => c <> 0) t /\
    curlx_base64_decode t [] =
      Some (CURLE_OK, Some (map Some l ++ [Some 0]), zlen l, []).
Proof.
  intros Hb Hl. destruct (base64_encode_spec curlx_base64encdec 61 l Hb Hl) as (spare & He).
  rewrite pad_of_eq in He. set (t := b64_text curlx_base64encdec pad_eq l) in *.
  pose proof (b64_text_plain l Hb) as Hp. fold t in Hp.
  assert (Hbt : bytes_ok t) by (eapply Forall_impl; [exact Hp|cbn; tauto]).
  assert (Hnz : Forall (fun c => c <> 0) t) by (eapply Forall_impl; [exact Hp|cbn; tauto]).
  exists t, spare. split; [exact He|]. split; [done|].
  rewrite base64_decode_spec by done. subst t. rewrite b64_text_parse; [done|done|].
  intros ->. destruct Hl as [Hl _]. by cbv in Hl.
Qed.

Lemma base64_roundtrip_witness :
  exists t spare,
    curlx_base64_encode [0; 255; 7; 13] [] =
      Some (CURLE_OK, Some (map Some t ++ Some 0 :: spare), zlen t, []) /\
    Forall (fun c => c <> 0) t /\
    curlx_base64_decode t [] =
      Some (CURLE_OK, Some [Some 0; Some 255; Some 7; Some 13; Some 0], 4, []).
Proof.
  destruct (base64_roundtrip [0; 255; 7; 13]) as (t & spare & H); [by_compute|by_compute|].
  by exists t, spare.
Defined.
