(* ===== verification/Escape.v ===== *)
(** URL escaping, lib/escape.c.

    [curl_easy_escape] over a dynamic buffer, [Curl_urldecode] and
    [Curl_hexencode] over checked memory blocks.  The decoder is proved
    against [pct_decode], percent-decoding of a byte list. *)

From Stdlib Require Import ZArith Lia List Ascii String.
From stdpp Require Import base numbers option list.
From S2P Require Import Prelude Dynbuf Strparse.
Close Scope nat_scope.
Open Scope Z_scope.

Definition Curl_ldigits : list Z := str "0123456789abcdef".
Definition Curl_udigits : list Z := str "0123456789ABCDEF".

Inductive urlreject := REJECT_NADA | REJECT_CTRL | REJECT_ZERO.

#[global] Instance urlreject_eq_dec : EqDecision urlreject.
Proof. solve_decision. Defined.

(** The two digits stored at [dest]. *)
Definition Curl_hexbyte (val : Z) : list Z :=
  [at_ Curl_udigits (Z.to_nat (Z.shiftr val 4));
   at_ Curl_udigits (Z.to_nat (Z.land val 15))].

(** [while(len--)]: the inner [None] is the return of NULL after a failed
    append, the outer one a memory error. *)
Fixpoint escape_loop (d : dynbuf) (s : list Z) (o : allocs)
  : option (option dynbuf * allocs) :=
  match s with
  | [] => Some (Some d, o)
  | c :: s =>
      '(d, r, o) ← (if ISUNRESERVED c then curlx_dyn_addn d [c] o
                    else curlx_dyn_addn d (37 :: Curl_hexbyte c) o);
      if negb (is_ok r) then Some (None, o) else escape_loop d s o
  end.

(** The string returned, as the block that holds it, NULL as [None]. *)
Definition curl_easy_escape (string : option (list Z)) (length : Z) (o : allocs)
  : option (option mem * allocs) :=
  match string with
  | None => Some (None, o)
  | Some s =>
      if length <? 0 then Some (None, o)
      else
        let len := if negb (length =? 0) then length else strlen s in
        if len =? 0 then
          let '(ok, o) := next_alloc o in
          Some (if ok : bool then Some [Some 0] else None, o)
        else if len >? SIZE_MAX / 16 then Some (None, o)
        else
          '(d, o) ← escape_loop (curlx_dyn_init (u64 (u64 (len * 3) + 1))) (ztake len s) o;
          Some (d ← d; curlx_dyn_ptr d, o)
  end.

Definition curl_escape (string : option (list Z)) (length : Z) (o : allocs) :=
  curl_easy_escape string length o.

(** [((ctrl == REJECT_CTRL) && (in < 0x20)) ||
     ((ctrl == REJECT_ZERO) && (in == 0))] *)
Definition rejected (ctrl : urlreject) (c : Z) : bool :=
  match ctrl with
  | REJECT_NADA => false
  | REJECT_CTRL => c <? 32
  | REJECT_ZERO => c =? 0
  end.

(** [while(alloc)]: the fuel is the first value of [alloc], which every
    round decreases.  The inner [None] is the return of
    [CURLE_URL_MALFORMAT]. *)
Fixpoint urldecode_loop (fuel : nat) (string : list Z) (alloc : Z) (m : mem) (ns : Z)
    (ctrl : urlreject) : option (option (mem * Z)) :=
  if alloc =? 0 then Some (Some (m, ns))
  else
    match fuel with
    | O => None
    | S fuel =>
        let c := deref string in
        let '(c, string, alloc) :=
          if (c =? 37) && (alloc >? 2) && ISXDIGIT (at_ string 1)
             && ISXDIGIT (at_ string 2)
          then (u8 (Z.lor (Z.shiftl (curlx_hexval (at_ string 1)) 4)
                          (curlx_hexval (at_ string 2))),
                drop 3 string, alloc - 3)
          else (c, drop 1 string, alloc - 1) in
        if rejected ctrl c then Some None
        else
          m ← mem_write m ns [c];
          urldecode_loop fuel string alloc m (ns + 1) ctrl
    end.

(** The result, [*ostring] and [*olen] (both [None] when not stored to). *)
Definition Curl_urldecode (string : list Z) (length : Z) (ctrl : urlreject) (o : allocs)
  : option (CURLcode * option mem * option Z * allocs) :=
  let alloc := if negb (length =? 0) then length else strlen string in
  let '(ok, o) := next_alloc o in
  if negb ok then Some (CURLE_OUT_OF_MEMORY, None, None, o)
  else
    r ← urldecode_loop (Z.to_nat alloc) string alloc (mem_realloc None (alloc + 1)) 0 ctrl;
    match r with
    | None => Some (CURLE_URL_MALFORMAT, None, None, o)
    | Some (m, ns) =>
        m ← mem_write m ns [0];
        Some (CURLE_OK, Some m, Some ns, o)
    end.

(** The string and [*outlength], for a non-NULL [outlength]. *)
Definition curl_easy_unescape (string : option (list Z)) (inlength : Z) (o : allocs)
  : option (option mem * option Z * allocs) :=
  match string with
  | None => Some (None, None, o)
  | Some s =>
      if inlength <? 0 then Some (None, None, o)
      else
        '(res, str, outputlen, o) ← Curl_urldecode s inlength REJECT_NADA o;
        if negb (is_ok res) then Some (None, None, o)
        else
          n ← outputlen;
          if n <=? INT_MAX then Some (str, Some n, o) else Some (None, None, o)
  end.

(** [while(len-- && (olen >= 3))], the output position and the room left. *)
Fixpoint hexencode_loop (src : list Z) (out : mem) (pos olen : Z) : option (mem * Z) :=
  match src with
  | [] => Some (out, pos)
  | c :: src =>
      if olen >=? 3 then
        out ← mem_write out pos [at_ Curl_ldigits (Z.to_nat (Z.shiftr c 4))];
        out ← mem_write out (pos + 1) [at_ Curl_ldigits (Z.to_nat (Z.land c 15))];
        hexencode_loop src out (pos + 2) (olen - 2)
      else Some (out, pos)
  end.

(** [src] holds [len] bytes, [out] is the buffer of [olen] bytes. *)
Definition Curl_hexencode (src : option (list Z)) (len : Z) (out : mem) (olen : Z)
  : option mem :=
  match src with
  | Some s =>
      if negb (len =? 0) && (olen >=? 3) then
        '(out, pos) ← hexencode_loop (ztake len s) out 0 olen;
        mem_write out pos [0]
      else if negb (olen =? 0) then mem_write out 0 [0]
      else Some out
  | None => if negb (olen =? 0) then mem_write out 0 [0] else Some out
  end.

(** * Reference definitions *)

Definition hexdig (x : Z) : Z :=
  if ISDIGIT x then x - 48 else if ISUPHEXALPHA x then x - 55 else x - 87.

(** Percent-decoding: a percent sign that two hexadecimal digits follow is
    the byte they write, any other byte is itself. *)
Fixpoint pct_decode (s : list Z) : list Z :=
  match s with
  | [] => []
  | c :: s =>
      match s with
      | h :: l :: s' =>
          if (c =? 37) && ISXDIGIT h && ISXDIGIT l then
            hexdig h * 16 + hexdig l :: pct_decode s'
          else c :: pct_decode s
      | _ => c :: pct_decode s
      end
  end.

(** RFC 3986 percent-encoding of everything that is not unreserved. *)
Definition pct_char (c : Z) : list Z :=
  if ISUNRESERVED c then [c]
  else [37; at_ Curl_udigits (Z.to_nat (c / 16)); at_ Curl_udigits (Z.to_nat (c mod 16))].

Definition pct_encode (s : list Z) : list Z := flat_map pct_char s.

Definition hex_lower (s : list Z) : list Z :=
  flat_map (fun c => [at_ Curl_ldigits (Z.to_nat (c / 16));
                      at_ Curl_ldigits (Z.to_nat (c mod 16))]) s.

(** * Hexadecimal digits *)

Lemma ISXDIGIT_byte x : ISXDIGIT x = true -> is_byte x.
Proof.
  unfold ISXDIGIT, ISDIGIT, ISLOWHEXALPHA, ISUPHEXALPHA, between, is_byte.
  intros [[H|H]%orb_true_iff|H]%orb_true_iff; zb_hyps; lia.
Qed.

Lemma hexval_digit x : ISXDIGIT x = true ->
  curlx_hexval x = hexdig x /\ 0 <= hexdig x < 16.
Proof.
  intros Hx.
  pose proof (byte_forall (fun x => negb (ISXDIGIT x) ||
    ((curlx_hexval x =? hexdig x) && (0 <=? hexdig x) && (hexdig x <? 16)))) as H.
  specialize (H ltac:(vm_compute; reflexivity) x (ISXDIGIT_byte x Hx)). cbn beta in H.
  rewrite Hx in H. cbn [negb orb] in H. zb_hyps. lia.
Qed.

Lemma shiftr4 x : Z.shiftr x 4 = x / 16.
Proof. by rewrite Z.shiftr_div_pow2. Qed.

Lemma land15 x : Z.land x 15 = x mod 16.
Proof. apply (land_mask x 4). lia. Qed.

(** The two digits of a byte decode to it, and need no escaping. *)
Lemma hexbyte_decode c : is_byte c ->
  let h := at_ Curl_udigits (Z.to_nat (c / 16)) in
  let l := at_ Curl_udigits (Z.to_nat (c mod 16)) in
  ISXDIGIT h = true /\ ISXDIGIT l = true /\ hexdig h * 16 + hexdig l = c.
Proof.
  intros Hc.
  pose proof (byte_forall (fun c =>
    let h := at_ Curl_udigits (Z.to_nat (c / 16)) in
    let l := at_ Curl_udigits (Z.to_nat (c mod 16)) in
    ISXDIGIT h && ISXDIGIT l && (hexdig h * 16 + hexdig l =? c))) as H.
  specialize (H ltac:(vm_compute; reflexivity) c Hc). cbv zeta beta in *. zb_hyps. done.
Qed.

Lemma unreserved_not_pct c : ISUNRESERVED c = true -> (c =? 37) = false.
Proof. intros H. apply Z.eqb_neq. by intros ->. Qed.

Lemma pct_decode_triple c h l s :
  pct_decode (c :: h :: l :: s) =
  if (c =? 37) && ISXDIGIT h && ISXDIGIT l
  then hexdig h * 16 + hexdig l :: pct_decode s else c :: pct_decode (h :: l :: s).
Proof. done. Qed.

Lemma pct_decode_pair c h : pct_decode [c; h] = c :: pct_decode [h].
Proof. done. Qed.

Lemma pct_decode_plain c s : (c =? 37) = false -> pct_decode (c :: s) = c :: pct_decode s.
Proof. intros H. destruct s as [|h [|l s]]; cbn [pct_decode]; by rewrite ?H. Qed.

Lemma pct_decode_char c s : is_byte c ->
  pct_decode (pct_char c ++ s) = c :: pct_decode s.
Proof.
  intros Hc. unfold pct_char. case_if; cbn [app].
  - by apply pct_decode_plain, unreserved_not_pct.
  - destruct (hexbyte_decode c Hc) as (Hh & Hl & Hv). rewrite pct_decode_triple.
    rewrite Hh, Hl, Hv. done.
Qed.

Lemma pct_decode_encode s : bytes_ok s -> pct_decode (pct_encode s) = s.
Proof.
  induction 1 as [|c s Hc _ IH]; [done|].
  change (pct_encode (c :: s)) with (pct_char c ++ pct_encode s).
  rewrite pct_decode_char by done. by rewrite IH.
Qed.

Lemma zlen_pct_char c : 1 <= zlen (pct_char c) <= 3.
Proof. unfold pct_char. case_if; zlia. Qed.

Lemma zlen_pct_encode s : zlen s <= zlen (pct_encode s) <= 3 * zlen s.
Proof.
  induction s as [|c s IH]; [done|].
  change (pct_encode (c :: s)) with (pct_char c ++ pct_encode s).
  pose proof (zlen_pct_char c). zlia.
Qed.

Lemma pct_decode_length s : zlen (pct_decode s) <= zlen s.
Proof.
  remember (length s) as n eqn:Hn. revert s Hn.
  induction n as [n IH] using lt_wf_ind. intros s Hn.
  destruct s as [|c [|h [|l s]]]; cbn [length] in Hn;
    rewrite ?pct_decode_pair, ?pct_decode_triple.
  - done.
  - done.
  - specialize (IH 1%nat ltac:(lia) [h] eq_refl). zlia.
  - case_if.
    + specialize (IH (length s) ltac:(lia) s eq_refl). zlia.
    + specialize (IH (S (S (length s))) ltac:(lia) (h :: l :: s) eq_refl). zlia.
Qed.

(** * The operations against them *)

Lemma escape_loop_spec s : forall d c,
  dyn_rep d c -> zlen c + 3 * zlen s + 1 <= toobig d -> bytes_ok s ->
  s <> [] \/ bufr d <> None ->
  exists d', escape_loop d s [] = Some (Some d', []) /\
    dyn_rep d' (c ++ pct_encode s) /\ bufr d' <> None.
Proof.
  induction s as [|x s IH]; intros d c Hd Hfit Hb Hne.
  { exists d. split; [done|]. cbn. rewrite app_nil_r. split; [done|]. by destruct Hne. }
  apply Forall_cons in Hb as [Hx Hb]. cbn [escape_loop].
  assert (Hc : exists b, (if ISUNRESERVED x then curlx_dyn_addn d [x] []
      else curlx_dyn_addn d (37 :: Curl_hexbyte x) []) = dyn_nappend d b [] /\ b = pct_char x).
  { unfold pct_char, Curl_hexbyte. rewrite shiftr4, land15.
    destruct (ISUNRESERVED x); eexists; done. }
  destruct Hc as (b & -> & ->). pose proof (zlen_pct_char x).
  destruct (dyn_nappend_granted d c (pct_char x) Hd) as (d' & r & -> & Hr & Ht & Hs).
  { unfold MAX_DYNBUF_SIZE. lia. }
  rewrite zlen_cons in Hfit. zlen_pos.
  destruct Hs as [(-> & _ & Hs & Hn)|[(-> & ? & _)|(-> & _)]]; [|lia|done].
  cbn [mbind option_bind is_ok negb].
  destruct (IH d' (c ++ pct_char x) Hs) as (d2 & -> & Hd2 & Hn2); [zlia|done|by right|].
  exists d2. split; [done|]. rewrite <- app_assoc in Hd2. done.
Qed.

(** What [dyn_rep] says of the block [curlx_dyn_ptr] returns. *)
Lemma dyn_rep_ptr d c : dyn_rep d c -> bufr d <> None ->
  exists spare, curlx_dyn_ptr d = Some (map Some c ++ Some 0 :: spare).
Proof.
  intros (_ & _ & Hb) Hn. unfold curlx_dyn_ptr. destruct (bufr d) as [m|]; [|done].
  destruct Hb as (_ & _ & rest & ->). by exists rest.
Qed.

Lemma curl_easy_escape_spec s : bytes_ok s -> 0 < zlen s <= SIZE_MAX / 16 ->
  exists spare, curl_easy_escape (Some s) (zlen s) [] =
    Some (Some (map Some (pct_encode s) ++ Some 0 :: spare), []).
Proof.
  intros Hb Hl. unfold curl_easy_escape.
  replace (zlen s <? 0) with false by (symmetry; apply Z.ltb_ge; lia).
  replace (zlen s =? 0) with false by (symmetry; apply Z.eqb_neq; lia). cbn [negb].
  replace (zlen s =? 0) with false by (symmetry; apply Z.eqb_neq; lia).
  rewrite Z.gtb_ltb. replace (_ <? zlen s) with false by (symmetry; apply Z.ltb_ge; lia).
  assert (Hm : SIZE_MAX / 16 = 1152921504606846975) by done. rewrite Hm in Hl.
  rewrite (u64_small (zlen s * 3)), u64_small, ztake_ge by (unfold SIZE_MAX; lia).
  destruct (escape_loop_spec s (curlx_dyn_init (zlen s * 3 + 1)) [])
    as (d & He & Hd & Hn); [|cbn [curlx_dyn_init toobig]; zlia|done|left|].
  { apply dyn_init_rep. unfold MAX_DYNBUF_SIZE. lia. }
  { intros ->. destruct Hl as [Hl _]. by cbv in Hl. }
  rewrite He. cbn [mbind option_bind]. destruct (dyn_rep_ptr d _ Hd Hn) as (spare & ->).
  by exists spare.
Qed.

(** One round of the decoder. *)
Lemma pct_decode_step (s : list Z) tl : s <> [] ->
  exists c s', pct_decode s = c :: pct_decode s' /\ zlen s' < zlen s /\
    forall alloc, alloc = zlen s ->
    (if (deref (s ++ tl) =? 37) && (alloc >? 2) && ISXDIGIT (at_ (s ++ tl) 1)
          && ISXDIGIT (at_ (s ++ tl) 2)
     then (u8 (Z.lor (Z.shiftl (curlx_hexval (at_ (s ++ tl) 1)) 4)
                     (curlx_hexval (at_ (s ++ tl) 2))),
           drop 3 (s ++ tl), alloc - 3)
     else (deref (s ++ tl), drop 1 (s ++ tl), alloc - 1)) = (c, s' ++ tl, zlen s').
Proof.
  intros Hs. destruct s as [|c s]; [done|]. cbn [app deref]. unfold at_. cbn [drop].
  assert (Hplain : pct_decode (c :: s) = c :: pct_decode s ->
    exists c0 s', pct_decode (c :: s) = c0 :: pct_decode s' /\ zlen s' < zlen (c :: s) /\
    forall alloc, alloc = zlen (c :: s) ->
      (c, drop 0 (s ++ tl), alloc - 1) = (c0, s' ++ tl, zlen s')).
  { intros E. exists c, s. split; [done|]. rewrite zlen_cons. split; [lia|].
    intros ? ->. cbn [drop]. do 2 f_equal. lia. }
  destruct s as [|h [|l s]].
  - destruct Hplain as (c0 & s' & H1 & H2 & H3); [done|]. exists c0, s'.
    split; [done|]. split; [done|]. intros alloc Ha. rewrite <- (H3 alloc Ha).
    subst alloc. change (zlen [c] >? 2) with false. by rewrite andb_false_r.
  - destruct Hplain as (c0 & s' & H1 & H2 & H3); [done|]. exists c0, s'.
    split; [done|]. split; [done|]. intros alloc Ha. rewrite <- (H3 alloc Ha).
    subst alloc. change (zlen [c; h] >? 2) with false. by rewrite andb_false_r.
  - assert (H2 : (zlen (c :: h :: l :: s) >? 2) = true).
    { rewrite Z.gtb_ltb. apply Z.ltb_lt. zlia. }
    cbn [app drop deref]. destruct ((c =? 37) && ISXDIGIT h && ISXDIGIT l) eqn:E.
    + exists (hexdig h * 16 + hexdig l), s. rewrite pct_decode_triple, E.
      split; [done|]. split; [zlia|]. intros ? ->. rewrite H2, andb_true_r, E.
      zb_hyps. destruct (hexval_digit h) as [-> Hh]; [done|].
      destruct (hexval_digit l) as [-> Hl]; [done|].
      rewrite lor_shiftl_add by lia. change (2 ^ 4) with 16.
      rewrite u8_small by (unfold is_byte; lia). do 2 f_equal. zlia.
    + destruct Hplain as (c0 & s' & H1 & H0 & H3); [by rewrite pct_decode_triple, E|].
      exists c0, s'. split; [done|]. split; [done|]. intros ? ->.
      rewrite H2, andb_true_r, E. by apply H3.
Qed.

Lemma urldecode_loop_spec ctrl fuel : forall s tl done r,
  zlen s <= Z.of_nat fuel -> zlen r >= zlen s ->
  urldecode_loop fuel (s ++ tl) (zlen s) (map Some done ++ r) (zlen done) ctrl =
  Some (if existsb (rejected ctrl) (pct_decode s) then None
        else Some (map Some (done ++ pct_decode s) ++ zdrop (zlen (pct_decode s)) r,
                   zlen (done ++ pct_decode s))).
Proof.
  induction fuel as [|fuel IH]; intros s tl dn r Hf Hr.
  { assert (s = []) as -> by (apply zlen_0; zlia).
    cbn. by rewrite !app_nil_r. }
  destruct (decide (s = [])) as [->|Hs]; [cbn; by rewrite !app_nil_r|].
  destruct (pct_decode_step s tl Hs) as (c & s' & Hp & Hl & Hstep).
  cbn [urldecode_loop]. replace (zlen s =? 0) with false.
  2: { symmetry. apply Z.eqb_neq. by intros ?%zlen_0. }
  rewrite (Hstep _ eq_refl), Hp. cbn [existsb].
  destruct (rejected ctrl c); cbn [orb]; [done|].
  zlen_pos. destruct r as [|x r]; [rewrite zlen_nil in Hr; lia|]. rewrite zlen_cons in Hr.
  rewrite (mem_write_app _ (map Some dn) [x] r _ _ (map Some (dn ++ [c])))
    by (done || apply zlen_map || by rewrite map_app).
  cbn [mbind option_bind]. replace (zlen dn + 1) with (zlen (dn ++ [c])) by zlia.
  rewrite IH by lia. destruct (existsb _ _); [done|].
  rewrite <- app_assoc. cbn [app]. do 4 f_equal. rewrite zlen_cons. unfold zdrop.
  by replace (Z.to_nat (1 + zlen (pct_decode s'))) with (S (Z.to_nat (zlen (pct_decode s'))))
    by zlia.
Qed.

Lemma Curl_urldecode_spec s tl length ctrl :
  (if negb (length =? 0) then length else strlen (s ++ tl)) = zlen s ->
  exists spare, Curl_urldecode (s ++ tl) length ctrl [] =
    Some (if existsb (rejected ctrl) (pct_decode s)
          then (CURLE_URL_MALFORMAT, None, None, [])
          else (CURLE_OK, Some (map Some (pct_decode s) ++ Some 0 :: spare),
                Some (zlen (pct_decode s)), [])).
Proof.
  intros Hl. unfold Curl_urldecode. rewrite Hl. cbn [next_alloc negb].
  pose proof (zlen_nonneg s). pose proof (pct_decode_length s). zlen_pos.
  assert (Hm : zlen (mem_realloc None (zlen s + 1)) = zlen s + 1)
    by (apply mem_realloc_fresh; lia).
  pose proof (urldecode_loop_spec ctrl (Z.to_nat (zlen s)) s tl []
    (mem_realloc None (zlen s + 1)) ltac:(lia) ltac:(lia)) as Hloop.
  cbn [map app] in Hloop. rewrite zlen_nil in Hloop. rewrite Hloop.
  cbn [mbind option_bind]. destruct (existsb _ _); [by exists []|].
  destruct (zdrop _ (mem_realloc None _)) as [|x spare] eqn:Ed.
  { apply (f_equal zlen) in Ed. rewrite zlen_zdrop, Hm in Ed by lia.
    change (zlen []) with 0 in Ed. lia. }
  rewrite (mem_write_at _ (map Some (pct_decode s)) [x] spare) by (done || apply zlen_map).
  by exists spare.
Qed.

(** URL-decoding [s] (given with its length, whatever follows it in
    memory) reads and writes in bounds and returns [CURLE_OK] with the
    percent-decoding of [s], NUL-terminated, and its length, unless a decoded
    byte is one the mode rejects (below 32 for [REJECT_CTRL], zero for
    [REJECT_ZERO]), when it returns [CURLE_URL_MALFORMAT] and no string. *)
Theorem urldecode_correct s tl ctrl :
  s <> [] ->
  exists spare, Curl_urldecode (s ++ tl) (zlen s) ctrl [] =
    Some (if existsb (rejected ctrl) (pct_decode s)
          then (CURLE_URL_MALFORMAT, None, None, [])
          else (CURLE_OK, Some (map Some (pct_decode s) ++ Some 0 :: spare),
                Some (zlen (pct_decode s)), [])).
Proof.
  intros Hs. apply Curl_urldecode_spec. case_if; [done|]. by apply zlen_0 in E.
Qed.

Lemma urldecode_correct_witness :
  (exists spare, Curl_urldecode (str "a%2Fb%" ++ str "41") 6 REJECT_CTRL [] =
    Some (CURLE_OK, Some (map Some (str "a/b%") ++ Some 0 :: spare), Some 4, [])) /\
  Curl_urldecode (str "a%00") 4 REJECT_ZERO []
  = Some (CURLE_URL_MALFORMAT, None, None, []).
Proof.
  split.
  - apply (urldecode_correct (str "a%2Fb%") (str "41") REJECT_CTRL). done.
  - destruct (urldecode_correct (str "a%00") [] REJECT_ZERO) as (spare & H); [done|].
    exact H.
Defined.

Lemma pct_encode_nonzero s : bytes_ok s ->
  Forall (fun c => c <> 0) (pct_encode s).
Proof.
  induction 1 as [|c s Hc _ IH]; [by constructor|].
  change (pct_encode (c :: s)) with (pct_char c ++ pct_encode s).
  apply Forall_app_2; [|done]. unfold pct_char. case_if.
  - apply Forall_cons_2; [by intros ->|done].
  - destruct (hexbyte_decode c Hc) as (Hh & Hl & _).
    apply Forall_cons_2; [done|]. apply Forall_cons_2; [intros E0; by rewrite E0 in Hh|].
    apply Forall_cons_2; [intros E0; by rewrite E0 in Hl|done].
Qed.

(** C7: escaping any non-empty byte string of at most [INT_MAX] bytes and
    unescaping the result (as a C string) gives the bytes back, with their
    length: the escaped text is its percent-encoding, without NUL bytes, and
    neither call leaves its buffer or hits the buffer's limit. *)
Theorem escape_unescape s :
  bytes_ok s -> 0 < zlen s <= INT_MAX ->
  exists t spare spare',
    curl_easy_escape (Some s) (zlen s) [] =
      Some (Some (map Some t ++ Some 0 :: spare), []) /\
    t = pct_encode s /\ Forall (fun c => c <> 0) t /\
    curl_easy_unescape (Some t) 0 [] =
      Some (Some (map Some s ++ Some 0 :: spare'), Some (zlen s), []).
Proof.
  intros Hb Hl.
  assert (Hm : SIZE_MAX / 16 = 1152921504606846975) by done.
  destruct (curl_easy_escape_spec s Hb) as (spare & He); [unfold INT_MAX in *; lia|].
  pose proof (pct_encode_nonzero s Hb) as Hnz.
  destruct (Curl_urldecode_spec (pct_encode s) [] 0 REJECT_NADA) as (spare' & Hd).
  { change (negb (0 =? 0)) with false. cbv iota. rewrite app_nil_r.
    by apply strlen_nonzero. }
  exists (pct_encode s), spare, spare'. split; [done|]. split; [done|]. split; [done|].
  unfold curl_easy_unescape. change (0 <? 0) with false. cbv iota.
  rewrite app_nil_r in Hd. rewrite Hd, pct_decode_encode by done.
  assert (Hr : existsb (rejected REJECT_NADA) s = false) by (clear; by induction s).
  rewrite Hr. cbn [mbind option_bind is_ok negb].
  replace (zlen s <=? INT_MAX) with true by (symmetry; apply Z.leb_le; lia). done.
Qed.

Lemma escape_unescape_witness :
  exists t spare spare',
    curl_easy_escape (Some [97; 0; 37; 255]) 4 [] =
      Some (Some (map Some t ++ Some 0 :: spare), []) /\
    t = str "a%00%25%FF" /\ Forall (fun c => c <> 0) t /\
    curl_easy_unescape (Some t) 0 [] =
      Some (Some (map Some [97; 0; 37; 255] ++ Some 0 :: spare'), Some 4, []).
Proof.
  apply (escape_unescape [97; 0; 37; 255]); [by_compute|by_compute].
Defined.

Lemma hexencode_loop_spec s : forall done (r : mem),
  bytes_ok s -> 1 <= zlen r ->
  let t := hex_lower (ztake ((zlen r - 1) / 2) s) in
  hexencode_loop s (map Some done ++ r) (zlen done) (zlen r) =
  Some (map Some (done ++ t) ++ zdrop (zlen t) r, zlen (done ++ t)) /\
  zlen t <= zlen r - 1.
Proof.
  induction s as [|c s IH]; intros dn r Hb Hr t; subst t.
  { unfold ztake. rewrite take_nil. cbn [hexencode_loop hex_lower flat_map].
    rewrite app_nil_r, zlen_nil, zdrop_0. split; [done|lia]. }
  apply Forall_cons in Hb as [Hc Hb]. cbn [hexencode_loop]. rewrite shiftr4, land15.
  rewrite Z.geb_leb. case_if.
  2: { assert (Hz : (zlen r - 1) / 2 = 0) by dlia. rewrite Hz, ztake_0.
       cbn [hex_lower flat_map]. rewrite app_nil_r, zlen_nil, zdrop_0. split; [done|lia]. }
  destruct r as [|x [|y r]]; rewrite ?zlen_cons, ?zlen_nil in E; try lia.
  set (h := at_ Curl_ldigits (Z.to_nat (c / 16))).
  set (l := at_ Curl_ldigits (Z.to_nat (c mod 16))).
  rewrite (mem_write_app _ (map Some dn) [x] (y :: r) _ _ (map Some (dn ++ [h])))
    by (done || apply zlen_map || by rewrite map_app). cbn [mbind option_bind].
  replace (zlen dn + 1) with (zlen (dn ++ [h])) by zlia.
  rewrite (mem_write_app _ (map Some (dn ++ [h])) [y] r _ _ (map Some ((dn ++ [h]) ++ [l])))
    by (done || apply zlen_map || by rewrite (map_app _ (dn ++ [h]))).
  cbn [mbind option_bind].
  replace (zlen dn + 2) with (zlen ((dn ++ [h]) ++ [l])) by zlia.
  rewrite !zlen_cons. replace (1 + (1 + zlen r) - 2) with (zlen r) by lia.
  destruct (IH ((dn ++ [h]) ++ [l]) r Hb) as [-> Hlen]; [lia|].
  replace ((1 + (1 + zlen r) - 1) / 2) with (1 + (zlen r - 1) / 2) by dlia.
  assert (Ht : ztake (1 + (zlen r - 1) / 2) (c :: s) = c :: ztake ((zlen r - 1) / 2) s).
  { unfold ztake. by replace (Z.to_nat (1 + (zlen r - 1) / 2))
      with (S (Z.to_nat ((zlen r - 1) / 2))) by dlia. }
  rewrite Ht. set (t := hex_lower (ztake ((zlen r - 1) / 2) s)) in *.
  change (hex_lower (c :: _)) with ([h; l] ++ t). rewrite <- !app_assoc.
  split; [|zlia]. do 2 f_equal. cbn [app]. f_equal. rewrite !zlen_cons. unfold zdrop.
  by replace (Z.to_nat (1 + (1 + zlen t))) with (S (S (Z.to_nat (zlen t)))) by zlia.
Qed.

(** [Curl_hexencode] stores the lowercase hexadecimal text of the input
    and a NUL in the output buffer, without leaving it; when the buffer is
    too small, of as many whole bytes as fit with the terminator. *)
Theorem hexencode_correct s (out : mem) :
  bytes_ok s -> s <> [] -> 3 <= zlen out ->
  let t := hex_lower (ztake ((zlen out - 1) / 2) s) in
  exists rest, Curl_hexencode (Some s) (zlen s) out (zlen out) =
    Some (map Some t ++ Some 0 :: rest) /\ zlen t + 1 + zlen rest = zlen out.
Proof.
  intros Hb Hs Ho t. unfold Curl_hexencode.
  replace (zlen s =? 0) with false by (symmetry; apply Z.eqb_neq; by intros ?%zlen_0).
  replace (zlen out >=? 3) with true by (symmetry; rewrite Z.geb_leb; apply Z.leb_le; lia).
  cbn [negb andb]. rewrite ztake_ge by lia.
  destruct (hexencode_loop_spec s [] out Hb) as [Hl Hlen]; [lia|]. fold t in Hl, Hlen.
  cbn [map app] in Hl. rewrite zlen_nil in Hl. rewrite Hl. cbn [mbind option_bind].
  destruct (zdrop (zlen t) out) as [|x rest] eqn:Ed.
  { apply (f_equal zlen) in Ed. rewrite zlen_zdrop in Ed by apply zlen_nonneg.
    change (zlen []) with 0 in Ed. lia. }
  rewrite (mem_write_at _ (map Some t) [x] rest) by (done || apply zlen_map).
  exists rest. split; [done|]. apply (f_equal zlen) in Ed.
  rewrite zlen_zdrop, zlen_cons in Ed by apply zlen_nonneg. lia.
Qed.

Lemma hexencode_correct_witness :
  exists rest, Curl_hexencode (Some [222; 173; 190]) 3 (replicate 6 None) 6 =
    Some (map Some (str "dead") ++ Some 0 :: rest) /\ 4 + 1 + zlen rest = 6.
Proof.
  apply (hexencode_correct [222; 173; 190] (replicate 6 None)).
  - by_compute.
  - discriminate.
  - cbv. discriminate.
Defined.
