(* ===== verification/HttpChunks.v ===== *)
(** HTTP chunked transfer coding, the decoder: lib/http_chunks.c,
    http_chunks.h, and Curl_verify_header of lib/http.c.

    The writer that follows in the chain ([cw_next], or
    [Curl_client_write]) is reached through a function pointer and is a
    parameter: [cwrite w type buf] is its new state and its result.  One
    round of the [while(blen)] loop is [chunk_step]. *)

From Stdlib Require Import ZArith Lia List Ascii String.
From stdpp Require Import base numbers option list.
From S2P Require Import Prelude Dynbuf Strparse.
Close Scope nat_scope.
Open Scope Z_scope.

(** * Data *)

Inductive ChunkyState :=
  | CHUNK_HEX | CHUNK_LF | CHUNK_DATA | CHUNK_POSTLF | CHUNK_STOP
  | CHUNK_TRAILER | CHUNK_TRAILER_CR | CHUNK_TRAILER_POSTCR
  | CHUNK_DONE | CHUNK_FAILED.

Inductive CHUNKcode :=
  | CHUNKE_OK | CHUNKE_TOO_LONG_HEX | CHUNKE_ILLEGAL_HEX | CHUNKE_BAD_CHUNK
  | CHUNKE_BAD_ENCODING | CHUNKE_OUT_OF_MEMORY | CHUNKE_PASSTHRU_ERROR.

#[global] Instance ChunkyState_eq_dec : EqDecision ChunkyState.
Proof. solve_decision. Defined.

#[global] Instance CHUNKcode_eq_dec : EqDecision CHUNKcode.
Proof. solve_decision. Defined.

(** [SIZEOF_CURL_OFF_T * 2] *)
Definition CHUNK_MAXNUM_LEN : Z := 16.
Definition DYN_H1_TRAILER : Z := 4096.


Record Curl_chunker := mk_chunker {
  datasize : Z;
  state : ChunkyState;
  last_code : CHUNKcode;
  trailer : dynbuf;
  hexindex : Z;
  hexbuffer : mem;
  ignore_body : bool
}.

(** The fields of the transfer the decoder reads: [data->set.http_te_skip],
    [data->req.headerline] and [data->req.no_body]. *)
Record easy := mk_easy {
  http_te_skip : bool;
  headerline : Z;
  no_body : bool
}.

Definition set_state (ch : Curl_chunker) (s : ChunkyState) : Curl_chunker :=
  mk_chunker (datasize ch) s (last_code ch) (trailer ch) (hexindex ch)
    (hexbuffer ch) (ignore_body ch).

(** [ch->state = CHUNK_FAILED; ch->last_code = code;] *)
Definition set_failed (ch : Curl_chunker) (code : CHUNKcode) : Curl_chunker :=
  mk_chunker (datasize ch) CHUNK_FAILED code (trailer ch) (hexindex ch)
    (hexbuffer ch) (ignore_body ch).

Definition set_trailer (ch : Curl_chunker) (d : dynbuf) : Curl_chunker :=
  mk_chunker (datasize ch) (state ch) (last_code ch) d (hexindex ch)
    (hexbuffer ch) (ignore_body ch).

Definition set_datasize (ch : Curl_chunker) (n : Z) : Curl_chunker :=
  mk_chunker n (state ch) (last_code ch) (trailer ch) (hexindex ch)
    (hexbuffer ch) (ignore_body ch).

Definition set_hex (ch : Curl_chunker) (i : Z) (b : mem) : Curl_chunker :=
  mk_chunker (datasize ch) (state ch) (last_code ch) (trailer ch) i b
    (ignore_body ch).

(** [old] is the memory of the structure before the call: [datasize] and
    [hexbuffer] are not initialised. *)
Definition Curl_httpchunk_init (old : Curl_chunker) (ignore_body : bool)
  : Curl_chunker :=
  mk_chunker (datasize old) CHUNK_HEX CHUNKE_OK (curlx_dyn_init DYN_H1_TRAILER) 0
    (hexbuffer old) ignore_body.

Definition Curl_httpchunk_reset (ch : Curl_chunker) (ignore_body : bool)
  : option Curl_chunker :=
  d ← curlx_dyn_reset (trailer ch);
  Some (mk_chunker (datasize ch) CHUNK_HEX CHUNKE_OK d 0 (hexbuffer ch) ignore_body).

Definition Curl_httpchunk_free (ch : Curl_chunker) : Curl_chunker :=
  set_trailer ch (curlx_dyn_free (trailer ch)).

Definition Curl_httpchunk_is_done (ch : Curl_chunker) : bool :=
  bool_decide (state ch = CHUNK_DONE).

(** [memchr(hd, c, n) != NULL] *)
Definition memchr (hd : list Z) (c n : Z) : bool :=
  existsb (Z.eqb c) (ztake n hd).

Definition Curl_verify_header (k : easy) (hd : list Z) : CURLcode :=
  let hdlen := zlen hd in
  if memchr hd 0 hdlen then CURLE_WEIRD_SERVER_REPLY
  else if (hdlen >? 2) && memchr hd 13 (hdlen - 2) then CURLE_WEIRD_SERVER_REPLY
  else if headerline k <? 2 then CURLE_OK
  else if ((at_ hd 0 =? 32) || (at_ hd 0 =? 9)) && (headerline k >? 2) then CURLE_OK
  else if negb (memchr hd 58 hdlen) then CURLE_WEIRD_SERVER_REPLY
  else CURLE_OK.

(** * The decoder *)

Section decoder.
Context {W : Type} (cwrite : W -> Z -> list Z -> W * CURLcode) (data : easy).

(** How a round of the loop ends: with the number of bytes consumed, or
    with [return result]. *)
Inductive round :=
  | Continue (ch : Curl_chunker) (w : W) (n : Z) (o : allocs)
  | Return (result : CURLcode) (ch : Curl_chunker) (w : W) (n : Z) (o : allocs).

Definition step_hex (ch : Curl_chunker) (w : W) (c : Z) (o : allocs)
  : option round :=
  if ISXDIGIT c then
    if hexindex ch >=? CHUNK_MAXNUM_LEN then
      Some (Return CURLE_RECV_ERROR (set_failed ch CHUNKE_TOO_LONG_HEX) w 0 o)
    else
      b ← mem_write (hexbuffer ch) (hexindex ch) [c];
      Some (Continue (set_hex ch (u8 (hexindex ch + 1)) b) w 1 o)
  else if hexindex ch =? 0 then
    Some (Return CURLE_RECV_ERROR (set_failed ch CHUNKE_ILLEGAL_HEX) w 0 o)
  else
    b ← mem_write (hexbuffer ch) (hexindex ch) [0];
    p ← mem_read b 0 (hexindex ch + 1);
    '(rc, n, _) ← curlx_str_hex p CURL_OFF_T_MAX;
    let ch := set_datasize (set_hex ch (hexindex ch) b) n in
    match rc with
    | STRE_OK => Some (Continue (set_state ch CHUNK_LF) w 0 o)
    | _ => Some (Return CURLE_RECV_ERROR (set_failed ch CHUNKE_ILLEGAL_HEX) w 0 o)
    end.

Definition step_lf (ch : Curl_chunker) (w : W) (c : Z) (o : allocs) : option round :=
  let ch :=
    if c =? 10 then
      if datasize ch =? 0 then set_state ch CHUNK_TRAILER
      else set_state ch CHUNK_DATA
    else ch in
  Some (Continue ch w 1 o).

Definition step_data (ch : Curl_chunker) (w : W) (buf : list Z) (o : allocs)
  : option round :=
  let blen := zlen buf in
  let piece := if datasize ch <? blen then datasize ch else blen in
  let '(w, result) :=
    if negb (http_te_skip data) && negb (ignore_body ch)
    then cwrite w CLIENTWRITE_BODY (ztake piece buf)
    else (w, CURLE_OK) in
  if negb (is_ok result) then
    Some (Return result (set_failed ch CHUNKE_PASSTHRU_ERROR) w 0 o)
  else
    let ch := set_datasize ch (datasize ch - piece) in
    let ch := if datasize ch =? 0 then set_state ch CHUNK_POSTLF else ch in
    Some (Continue ch w piece o).

Definition step_postlf (ch : Curl_chunker) (w : W) (c : Z) (o : allocs)
  : option round :=
  if c =? 10 then
    ch ← Curl_httpchunk_reset ch (ignore_body ch);
    Some (Continue ch w 1 o)
  else if negb (c =? 13) then
    Some (Return CURLE_RECV_ERROR (set_failed ch CHUNKE_BAD_CHUNK) w 0 o)
  else Some (Continue ch w 1 o).

Definition step_trailer (ch : Curl_chunker) (w : W) (c : Z) (o : allocs)
  : option round :=
  if (c =? 13) || (c =? 10) then
    match curlx_dyn_ptr (trailer ch) with
    | None => Some (Continue (set_state ch CHUNK_TRAILER_POSTCR) w 0 o)
    | Some _ =>
        '(d, result, o) ← curlx_dyn_addn (trailer ch) [13; 10] o;
        let ch := set_trailer ch d in
        if negb (is_ok result) then
          Some (Return result (set_failed ch CHUNKE_OUT_OF_MEMORY) w 0 o)
        else
          tr ← dyn_bytes (trailer ch);
          let result := Curl_verify_header data tr in
          if negb (is_ok result) then
            Some (Return result (set_failed ch CHUNKE_BAD_CHUNK) w 0 o)
          else
            let '(w, result) :=
              if negb (http_te_skip data)
              then cwrite w (Z.lor CLIENTWRITE_HEADER CLIENTWRITE_TRAILER) tr
              else (w, CURLE_OK) in
            if negb (is_ok result) then
              Some (Return result (set_failed ch CHUNKE_PASSTHRU_ERROR) w 0 o)
            else
              d ← curlx_dyn_reset (trailer ch);
              let ch := set_state (set_trailer ch d) CHUNK_TRAILER_CR in
              if c =? 10 then Some (Continue ch w 0 o)
              else Some (Continue ch w 1 o)
    end
  else
    '(d, result, o) ← curlx_dyn_addn (trailer ch) [c] o;
    let ch := set_trailer ch d in
    if negb (is_ok result) then
      Some (Return result (set_failed ch CHUNKE_OUT_OF_MEMORY) w 0 o)
    else Some (Continue ch w 1 o).

Definition step_trailer_cr (ch : Curl_chunker) (w : W) (c : Z) (o : allocs)
  : option round :=
  if c =? 10 then Some (Continue (set_state ch CHUNK_TRAILER_POSTCR) w 1 o)
  else Some (Return CURLE_RECV_ERROR (set_failed ch CHUNKE_BAD_CHUNK) w 0 o).

Definition step_trailer_postcr (ch : Curl_chunker) (w : W) (c : Z) (o : allocs)
  : option round :=
  if negb (c =? 13) && negb (c =? 10) then
    Some (Continue (set_state ch CHUNK_TRAILER) w 0 o)
  else
    let n := if c =? 13 then 1 else 0 in
    Some (Continue (set_state ch CHUNK_STOP) w n o).

Definition step_stop (ch : Curl_chunker) (w : W) (buf : list Z) (o : allocs)
  : option round :=
  if deref buf =? 10 then
    Some (Return CURLE_OK
            (set_state (set_datasize ch (zlen buf - 1)) CHUNK_DONE) w 1 o)
  else Some (Return CURLE_RECV_ERROR (set_failed ch CHUNKE_BAD_CHUNK) w 0 o).

(** The [switch] of the loop, on a non-empty [buf]. *)
Definition chunk_step (ch : Curl_chunker) (w : W) (buf : list Z) (o : allocs)
  : option round :=
  let c := deref buf in
  match state ch with
  | CHUNK_HEX => step_hex ch w c o
  | CHUNK_LF => step_lf ch w c o
  | CHUNK_DATA => step_data ch w buf o
  | CHUNK_POSTLF => step_postlf ch w c o
  | CHUNK_TRAILER => step_trailer ch w c o
  | CHUNK_TRAILER_CR => step_trailer_cr ch w c o
  | CHUNK_TRAILER_POSTCR => step_trailer_postcr ch w c o
  | CHUNK_STOP => step_stop ch w buf o
  | CHUNK_DONE => Some (Return CURLE_OK ch w 0 o)
  | CHUNK_FAILED => Some (Return CURLE_RECV_ERROR ch w 0 o)
  end.

(** [while(blen)], with the count of consumed bytes. *)
Fixpoint chunk_loop (fuel : nat) (ch : Curl_chunker) (w : W) (buf : list Z)
    (consumed : Z) (o : allocs)
  : option (CURLcode * Curl_chunker * W * Z * allocs) :=
  match buf with
  | [] => Some (CURLE_OK, ch, w, consumed, o)
  | _ =>
      match fuel with
      | O => None
      | S fuel =>
          r ← chunk_step ch w buf o;
          match r with
          | Continue ch w n o => chunk_loop fuel ch w (zdrop n buf) (consumed + n) o
          | Return result ch w n o => Some (result, ch, w, consumed + n, o)
          end
      end
  end.

(** Rounds enough for [n] bytes: a byte is looked at in at most four. *)
Definition chunk_fuel (buf : list Z) : nat := 4 * length buf + 4.

Definition httpchunk_readwrite (ch : Curl_chunker) (w : W) (buf : list Z) (o : allocs)
  : option (CURLcode * Curl_chunker * W * Z * allocs) :=
  match state ch with
  | CHUNK_DONE => Some (CURLE_OK, ch, w, 0, o)
  | CHUNK_FAILED => Some (CURLE_RECV_ERROR, ch, w, 0, o)
  | _ =>
      let '(w, result) :=
        if http_te_skip data && negb (ignore_body ch)
        then cwrite w CLIENTWRITE_BODY buf
        else (w, CURLE_OK) in
      if negb (is_ok result) then
        Some (result, set_failed ch CHUNKE_PASSTHRU_ERROR, w, 0, o)
      else chunk_loop (chunk_fuel buf) ch w buf 0 o
  end.

Definition Curl_httpchunk_read := httpchunk_readwrite.

(** The client writer "chunked": [eos] is [type & CLIENTWRITE_EOS], [body] is
    [type & CLIENTWRITE_BODY]; the last component is the new
    [data->req.download_done]. *)
Definition cw_chunked_write (ch : Curl_chunker) (w : W) (type : Z) (buf : list Z)
    (download_done : bool) (o : allocs)
  : option (CURLcode * Curl_chunker * W * bool * allocs) :=
  if Z.land type CLIENTWRITE_BODY =? 0 then
    let '(w, result) := cwrite w type buf in
    Some (result, ch, w, download_done, o)
  else
    '(result, ch, w, consumed, o) ← httpchunk_readwrite ch w buf o;
    if negb (is_ok result) then Some (result, ch, w, download_done, o)
    else if Curl_httpchunk_is_done ch then Some (CURLE_OK, ch, w, true, o)
    else if negb (Z.land type CLIENTWRITE_EOS =? 0) && negb (no_body data) then
      Some (CURLE_PARTIAL_FILE, ch, w, download_done, o)
    else Some (CURLE_OK, ch, w, download_done, o).
End decoder.

Arguments Continue {W}.
Arguments Return {W}.

(** * Well-formed decoders *)

(** The stored size digits. *)
Definition hex_ok (ch : Curl_chunker) (h : list Z) : Prop :=
  zlen h = hexindex ch /\ zlen h <= CHUNK_MAXNUM_LEN /\
  zlen (hexbuffer ch) = CHUNK_MAXNUM_LEN + 1 /\
  Forall (fun c => ISXDIGIT c = true) h /\
  exists rest, hexbuffer ch = map Some h ++ rest.

Definition trailer_ok (ch : Curl_chunker) (c : list Z) : Prop :=
  dyn_rep (trailer ch) c /\ toobig (trailer ch) = DYN_H1_TRAILER.

Definition size_ok (ch : Curl_chunker) : Prop :=
  match state ch with
  | CHUNK_LF => 0 <= datasize ch <= CURL_OFF_T_MAX
  | CHUNK_DATA => 0 < datasize ch <= CURL_OFF_T_MAX
  | _ => True
  end.

Definition chunker_ok (ch : Curl_chunker) : Prop :=
  (exists h, hex_ok ch h) /\ (exists c, trailer_ok ch c) /\ size_ok ch.

Definition running (ch : Curl_chunker) : Prop :=
  state ch <> CHUNK_DONE /\ state ch <> CHUNK_FAILED.

(** Rounds without progress still possible at the byte [c]. *)
Definition rank (s : ChunkyState) (c : Z) : Z :=
  match s with
  | CHUNK_HEX => 1
  | CHUNK_TRAILER => if (c =? 13) || (c =? 10) then 2 else 0
  | CHUNK_TRAILER_POSTCR => 1
  | _ => 0
  end.

Lemma rank_range s c : 0 <= rank s c <= 2.
Proof. destruct s; cbn [rank]; try lia. case_if; lia. Qed.

Lemma ISXDIGIT_valid c : ISXDIGIT c = true -> valid_digit c (max_digit 16) = true.
Proof.
  intros H. assert (Hb : is_byte c).
  { unfold ISXDIGIT, ISDIGIT, ISLOWHEXALPHA, ISUPHEXALPHA, between, is_byte in *.
    apply orb_true_iff in H as [H|H]; [apply orb_true_iff in H as [H|H]|]; zb_hyps; lia. }
  pose proof (byte_forall (fun c => negb (ISXDIGIT c) || valid_digit c (max_digit 16))) as Hf.
  specialize (Hf ltac:(vm_compute; reflexivity) c Hb). cbn beta in Hf. by rewrite H in Hf.
Qed.

Lemma hex_span h : Forall (fun c => ISXDIGIT c = true) h ->
  digit_span (max_digit 16) (h ++ [0]) = (h, [0]).
Proof.
  induction 1 as [|c h Hc _ IH]; [done|]. cbn [app digit_span].
  rewrite ISXDIGIT_valid, IH by done. done.
Qed.

(** What the size line is read as. *)
Lemma hex_parse h : h <> [] -> Forall (fun c => ISXDIGIT c = true) h ->
  curlx_str_hex (h ++ [0]) CURL_OFF_T_MAX =
  if digits_value 16 0 h <=? CURL_OFF_T_MAX
  then Some (STRE_OK, digits_value 16 0 h, [0])
  else Some (STRE_OVERFLOW, 0, h ++ [0]).
Proof.
  intros Hne Hh. unfold curlx_str_hex. rewrite str_num_base_spec.
  - rewrite hex_span by done. by destruct h.
  - right. by right.
  - unfold CURL_OFF_T_MAX. lia.
Qed.

Lemma hex_store ch h c : hex_ok ch h -> ISXDIGIT c = true -> hexindex ch < CHUNK_MAXNUM_LEN ->
  exists b, mem_write (hexbuffer ch) (hexindex ch) [c] = Some b /\
    hex_ok (set_hex ch (u8 (hexindex ch + 1)) b) (h ++ [c]).
Proof.
  intros (Hi & Hl & Hb & Hh & rest & Hr) Hc Hlt. rewrite Hr, <- Hi.
  unfold CHUNK_MAXNUM_LEN in *. rewrite Hr, zlen_app, zlen_map in Hb.
  destruct rest as [|x rest]; [rewrite zlen_nil in Hb; lia|].
  rewrite (mem_write_app _ (map Some h) [x] rest _ _ (map Some (h ++ [c])))
    by (done || apply zlen_map || by rewrite map_app).
  eexists. split; [done|]. unfold hex_ok. cbn [set_hex hexindex hexbuffer].
  zlen_pos. rewrite u8_small by (unfold is_byte; lia).
  unfold CHUNK_MAXNUM_LEN. split_and!; [zlia..| |by exists rest].
  apply Forall_app_2; [done|by constructor].
Qed.

Lemma hex_terminate ch h : hex_ok ch h ->
  exists b, mem_write (hexbuffer ch) (hexindex ch) [0] = Some b /\
    mem_read b 0 (hexindex ch + 1) = Some (h ++ [0]) /\
    hex_ok (set_hex ch (hexindex ch) b) h.
Proof.
  intros (Hi & Hl & Hb & Hh & rest & Hr). rewrite Hr, <- Hi.
  unfold CHUNK_MAXNUM_LEN in *. rewrite Hr, zlen_app, zlen_map in Hb.
  destruct rest as [|x rest]; [rewrite zlen_nil in Hb; lia|].
  rewrite (mem_write_app _ (map Some h) [x] rest _ _ (map Some (h ++ [0])))
    by (done || apply zlen_map || by rewrite map_app).
  eexists. split; [done|]. split.
  { replace (zlen h + 1) with (zlen (h ++ [0])) by zlia.
    apply (mem_read_mid [] rest (h ++ [0])). }
  unfold hex_ok. cbn [set_hex hexindex hexbuffer].
  unfold CHUNK_MAXNUM_LEN. split_and!; [zlia..|done|].
  rewrite map_app, <- app_assoc. by eexists.
Qed.

Lemma digits_value_nonneg h : 0 <= digits_value 16 0 h.
Proof. apply (digits_value_ge 16 0); lia. Qed.

(** * One round is safe and makes progress *)

Section safety.
Context {W : Type} (cwrite : W -> Z -> list Z -> W * CURLcode) (data : easy).

Definition round_ok (ch : Curl_chunker) (buf : list Z) (r : round (W := W)) : Prop :=
  match r with
  | Continue ch' w' n o' =>
      chunker_ok ch' /\ running ch' /\ 0 <= n <= zlen buf /\
      4 * (zlen buf - n) + rank (state ch') (deref (zdrop n buf))
      < 4 * zlen buf + rank (state ch) (deref buf)
  | Return result ch' w' n o' =>
      chunker_ok ch' /\ 0 <= n <= zlen buf /\
      (result = CURLE_OK /\ state ch' = CHUNK_DONE
       \/ result <> CURLE_OK /\ state ch' = CHUNK_FAILED)
  end.

(** Rebuilding [chunker_ok] around a changed field. *)
Lemma ok_state ch s : chunker_ok ch -> size_ok (set_state ch s) -> chunker_ok (set_state ch s).
Proof. by intros (Hh & Ht & _) ?. Qed.

Lemma ok_failed ch code : chunker_ok ch -> chunker_ok (set_failed ch code).
Proof. by intros (Hh & Ht & _). Qed.

Lemma ok_trailer ch d c : chunker_ok ch -> dyn_rep d c -> toobig d = DYN_H1_TRAILER ->
  chunker_ok (set_trailer ch d).
Proof. intros (Hh & Ht & Hs) Hd Hb. split; [done|]. split; [by exists c|done]. Qed.

(** A consuming round has enough progress whatever the next state. *)
Lemma progress_rank (buf : list Z) n s s' c c' :
  1 <= n -> 4 * (zlen buf - n) + rank s' c' < 4 * zlen buf + rank s c.
Proof. intros. pose proof (rank_range s c). pose proof (rank_range s' c'). lia. Qed.

Ltac still_running :=
  split; cbn; try match goal with H : state _ = _ |- _ => rewrite H end; done.
Ltac consumed := split; [|split; [still_running|split; [zlia|apply progress_rank; lia]]].
Ltac failed := split; [by apply ok_failed|split; [zlia|by right]].

Lemma step_hex_ok ch w buf o : chunker_ok ch -> state ch = CHUNK_HEX -> buf <> [] ->
  exists r, step_hex ch w (deref buf) o = Some r /\ round_ok ch buf r.
Proof.
  intros Hok Hs Hbuf. pose proof Hok as ((h & Hh) & Ht & _).
  destruct buf as [|c buf]; [done|]. cbn [deref]. unfold step_hex.
  destruct (ISXDIGIT c) eqn:Hx.
  - rewrite Z.geb_leb. case_if; [eexists; split; [done|]; failed|].
    destruct (hex_store ch h c Hh Hx) as (b & -> & Hh'); [lia|].
    eexists. split; [done|]. cbn [round_ok]. consumed.
    split; [by eexists|]. split; [done|]. unfold size_ok. cbn [set_hex state]. by rewrite Hs.
  - case_if; [eexists; split; [done|]; failed|].
    destruct (hex_terminate ch h Hh) as (b & -> & Hr & Hh').
    cbn [mbind option_bind]. rewrite Hr. cbn [mbind option_bind].
    rewrite hex_parse; [|intros ->; by destruct Hh as [Hi _]; symmetry in Hi|by apply Hh].
    pose proof (digits_value_nonneg h). case_if; cbn [mbind option_bind].
    + eexists. split; [done|]. cbn [round_ok set_state state rank]. rewrite Hs.
      cbn [rank]. split; [|split; [split; done|split; [zlia|lia]]].
      split; [by exists h|]. split; [done|]. cbn. lia.
    + eexists. split; [done|]. split; [|split; [zlia|by right]].
      split; [by exists h|]. split; done.
Qed.

Lemma step_lf_ok ch w buf o : chunker_ok ch -> state ch = CHUNK_LF -> buf <> [] ->
  exists r, step_lf ch w (deref buf) o = Some r /\ round_ok ch buf r.
Proof.
  intros Hok Hs Hbuf. destruct buf as [|c buf]; [done|]. cbn [deref]. unfold step_lf.
  pose proof Hok as (_ & _ & Hsz). unfold size_ok in Hsz. rewrite Hs in Hsz.
  eexists. split; [done|]. cbn [round_ok]. repeat case_if; consumed; try done.
  - by apply ok_state.
  - apply ok_state; [done|]. cbn. lia.
Qed.

Lemma step_data_ok ch w buf o : chunker_ok ch -> state ch = CHUNK_DATA -> buf <> [] ->
  exists r, step_data cwrite data ch w buf o = Some r /\ round_ok ch buf r.
Proof.
  intros Hok Hs Hbuf. unfold step_data. pose proof Hok as (Hh & Ht & Hsz).
  unfold size_ok in Hsz. rewrite Hs in Hsz.
  assert (Hpos : 0 < zlen buf) by (destruct buf; [done|zlia]).
  set (piece := if datasize ch <? zlen buf then datasize ch else zlen buf).
  assert (Hp : 1 <= piece <= zlen buf /\ piece <= datasize ch)
    by (subst piece; case_if; lia).
  destruct (if negb (http_te_skip data) && _ then _ else _) as [w' res].
  destruct (is_ok res) eqn:Hr; cbn [negb].
  - eexists. split; [done|]. cbn [round_ok].
    case_if; consumed; try done.
    split; [done|]. split; [done|]. unfold size_ok. cbn in *. rewrite Hs. lia.
  - eexists. split; [done|]. apply is_ok_false in Hr.
    split; [by apply ok_failed|]. split; [lia|]. by right.
Qed.

Lemma step_postlf_ok ch w buf o : chunker_ok ch -> state ch = CHUNK_POSTLF -> buf <> [] ->
  exists r, step_postlf ch w (deref buf) o = Some r /\ round_ok ch buf r.
Proof.
  intros Hok Hs Hbuf. destruct buf as [|c buf]; [done|]. cbn [deref]. unfold step_postlf.
  pose proof Hok as ((h & Hh) & (t & Ht & Htb) & _). case_if.
  - unfold Curl_httpchunk_reset. destruct (dyn_reset_rep _ _ Ht) as (d & -> & Hd & Hdb & _).
    eexists. split; [done|]. cbn [round_ok]. consumed.
    split; [|split; [|done]].
    + exists []. destruct Hh as (_ & _ & Hl & _). split_and!; try done.
      by exists (hexbuffer ch).
    + exists []. split; [done|]. cbn. congruence.
  - destruct (c =? 13); cbn [negb]; (eexists; split; [done|]).
    + cbn [round_ok]. consumed. done.
    + failed.
Qed.

Lemma dyn_bytes_rep d c : dyn_rep d c -> dyn_bytes d = Some c.
Proof. apply dyn_rep_bytes. Qed.

Lemma step_trailer_ok ch w buf o : chunker_ok ch -> state ch = CHUNK_TRAILER -> buf <> [] ->
  exists r, step_trailer cwrite data ch w (deref buf) o = Some r /\ round_ok ch buf r.
Proof.
  intros Hok Hs Hbuf. destruct buf as [|c buf]; [done|]. cbn [deref].
  pose proof Hok as (_ & (t & Ht & Htb) & _). unfold step_trailer.
  destruct ((c =? 13) || (c =? 10)) eqn:Ec.
  - unfold curlx_dyn_ptr. destruct (bufr (trailer ch)).
    2: { eexists. split; [done|]. cbn [round_ok set_state state]. rewrite Hs. cbn [rank deref].
         rewrite Ec. split; [by apply ok_state|]. split; [split; done|]. zlia. }
    destruct (dyn_nappend_spec (trailer ch) t [13; 10] o Ht) as (d & r & o' & Hadd & Hd);
      [done|].
    unfold curlx_dyn_addn. rewrite Hadd. cbn [mbind option_bind].
    assert (Hok' : chunker_ok (set_trailer ch d)).
    { destruct Hd as [Hb [(_ & _ & Hd & _)|[(_ & _ & Hd & _)|(_ & _ & Hd & _)]]];
        (eapply ok_trailer; [done|exact Hd|congruence]). }
    destruct (is_ok r) eqn:Hr; cbn [negb].
    2: { eexists. split; [done|]. apply is_ok_false in Hr.
         split; [by apply ok_failed|]. split; [zlia|by right]. }
    destruct Hd as [Hb [(-> & _ & Hd & _)|[(-> & _)|(-> & _)]]]; [|done|done].
    cbn [set_trailer trailer]. rewrite (dyn_rep_bytes _ _ Hd). cbn [mbind option_bind].
    destruct (is_ok (Curl_verify_header _ _)) eqn:Hv; cbn [negb].
    2: { eexists. split; [done|]. apply is_ok_false in Hv.
         split; [by apply ok_failed|]. split; [zlia|by right]. }
    destruct (if negb (http_te_skip data) then _ else _) as [w' res].
    destruct (is_ok res) eqn:Hres; cbn [negb].
    2: { eexists. split; [done|]. apply is_ok_false in Hres.
         split; [by apply ok_failed|]. split; [zlia|by right]. }
    destruct (dyn_reset_rep _ _ Hd) as (d2 & Hd2 & Hrep2 & Hb2 & _).
    rewrite Hd2. cbn [mbind option_bind].
    assert (Hok2 : chunker_ok (set_state (set_trailer (set_trailer ch d) d2) CHUNK_TRAILER_CR)).
    { apply ok_state; [|done]. eapply ok_trailer; [done|exact Hrep2|congruence]. }
    destruct (c =? 10) eqn:E10; (eexists; split; [done|]; cbn [round_ok]).
    + cbn [set_state state]. rewrite Hs. cbn [rank deref]. rewrite E10, orb_true_r.
      split; [done|]. split; [split; done|]. zlia.
    + consumed. done.
  - destruct (dyn_nappend_spec (trailer ch) t [c] o Ht) as (d & r & o' & Hadd & Hd);
      [done|].
    unfold curlx_dyn_addn. rewrite Hadd. cbn [mbind option_bind].
    assert (Hok' : chunker_ok (set_trailer ch d)).
    { destruct Hd as [Hb [(_ & _ & Hd & _)|[(_ & _ & Hd & _)|(_ & _ & Hd & _)]]];
        (eapply ok_trailer; [done|exact Hd|congruence]). }
    destruct (is_ok r) eqn:Hr; cbn [negb]; (eexists; split; [done|]).
    + cbn [round_ok]. consumed. done.
    + apply is_ok_false in Hr. split; [by apply ok_failed|]. split; [zlia|by right].
Qed.

(** Every round of the loop runs inside the buffers, keeps the decoder well
    formed and comes nearer to the end of the input. *)
Lemma chunk_step_ok ch w buf o : chunker_ok ch -> running ch -> buf <> [] ->
  exists r, chunk_step cwrite data ch w buf o = Some r /\ round_ok ch buf r.
Proof.
  intros Hok [Hd Hf] Hbuf. unfold chunk_step. destruct (state ch) eqn:Hs; try done.
  - by apply step_hex_ok.
  - by apply step_lf_ok.
  - by apply step_data_ok.
  - by apply step_postlf_ok.
  - unfold step_stop. destruct buf as [|c buf]; [done|]. cbn [deref].
    case_if; (eexists; split; [done|]); [|failed].
    split; [|split; [zlia|by left]]. by destruct Hok as (Hh & Ht & _).
  - by apply step_trailer_ok.
  - unfold step_trailer_cr. destruct buf as [|c buf]; [done|]. cbn [deref].
    case_if; (eexists; split; [done|]); [|failed]. cbn [round_ok].
    consumed. by apply ok_state.
  - unfold step_trailer_postcr. destruct buf as [|c buf]; [done|]. cbn [deref].
    destruct (c =? 13) eqn:E13; [|destruct (c =? 10) eqn:E10]; cbn [negb andb];
      (eexists; split; [done|]); cbn [round_ok].
    + consumed. by apply ok_state.
    + split; [by apply ok_state|]. split; [split; done|]. cbn [set_state state].
      rewrite Hs. cbn [rank]. zlia.
    + split; [by apply ok_state|]. split; [split; done|]. cbn [set_state state].
      rewrite Hs. rewrite zdrop_0. cbn [rank deref]. rewrite E13, E10. cbn [orb]. zlia.
Qed.
End safety.

(** * The loop *)

Section loop.
Context {W : Type} (cwrite : W -> Z -> list Z -> W * CURLcode) (data : easy).
Implicit Types (ch : Curl_chunker) (w : W) (buf a b : list Z).

#[local] Abbreviation loop := (chunk_loop cwrite data).
#[local] Abbreviation outcome := (CURLcode * Curl_chunker * W * Z * allocs)%type.

Lemma loop_cons fuel ch w buf n o : buf <> [] ->
  loop (S fuel) ch w buf n o =
  r ← chunk_step cwrite data ch w buf o;
  match r with
  | Continue ch w k o => loop fuel ch w (zdrop k buf) (n + k) o
  | Return result ch w k o => Some (result, ch, w, n + k, o)
  end.
Proof. by destruct buf. Qed.

Lemma loop_mono fuel : forall fuel' ch w buf n o res,
  loop fuel ch w buf n o = Some res -> (fuel <= fuel')%nat ->
  loop fuel' ch w buf n o = Some res.
Proof.
  induction fuel as [|fuel IH]; intros fuel' ch w buf n o res H Hle.
  { destruct buf; [|done]. by destruct fuel'. }
  destruct fuel' as [|fuel']; [lia|]. destruct (decide (buf = [])) as [->|Hb]; [done|].
  rewrite loop_cons in * by done.
  destruct (chunk_step cwrite data ch w buf o) as [[]|]; cbn [mbind option_bind] in *;
    try done. apply IH; [done|lia].
Qed.

(** What every run of the loop gives. *)
Definition outcome_ok (buf : list Z) (n0 : Z) (res : outcome) : Prop :=
  let '(result, ch, w, n, o) := res in
  chunker_ok ch /\ n0 <= n <= n0 + zlen buf /\
  (result = CURLE_OK /\ state ch = CHUNK_DONE
   \/ result = CURLE_OK /\ running ch /\ n = n0 + zlen buf
   \/ result <> CURLE_OK /\ state ch = CHUNK_FAILED).

Lemma loop_total fuel : forall ch w buf n o,
  chunker_ok ch -> running ch ->
  4 * zlen buf + rank (state ch) (deref buf) <= Z.of_nat fuel ->
  exists res, loop fuel ch w buf n o = Some res /\ outcome_ok buf n res.
Proof.
  induction fuel as [|fuel IH]; intros ch w buf n o Hok Hrun Hf;
    pose proof (rank_range (state ch) (deref buf));
    (destruct (decide (buf = [])) as [->|Hb];
     [eexists; split; [by try destruct fuel|]; split; [done|]; rewrite zlen_nil; split; [lia|];
      right; left; (split; [done|]); split; [done|lia]|]).
  { destruct buf; [done|zlia]. }
  rewrite loop_cons by done.
  destruct (chunk_step_ok cwrite data ch w buf o Hok Hrun Hb) as (r & -> & Hr).
  cbn [mbind option_bind]. destruct r as [ch' w' k o'|res ch' w' k o']; cbn [round_ok] in Hr.
  - destruct Hr as (Hok' & Hrun' & Hk & Hm).
    destruct (IH ch' w' (zdrop k buf) (n + k) o' Hok' Hrun') as (res & Hl & Hres).
    { rewrite zlen_zdrop by lia. lia. }
    exists res. split; [done|]. destruct res as [[[[result ch2] w2] n2] o2].
    destruct Hres as (Hok2 & Hn & Hcase). rewrite zlen_zdrop in * by lia.
    split; [done|]. split; [lia|].
    destruct Hcase as [?|[(-> & ? & ?)|?]]; [by left| |by right; right].
    right; left. split; [done|]. split; [done|lia].
  - destruct Hr as (Hok' & Hk & Hcase). eexists. split; [done|].
    split; [done|]. split; [lia|]. tauto.
Qed.

Lemma chunk_fuel_enough ch buf :
  4 * zlen buf + rank (state ch) (deref buf) <= Z.of_nat (chunk_fuel buf).
Proof. pose proof (rank_range (state ch) (deref buf)). unfold chunk_fuel, zlen. lia. Qed.

(** Any run with some fuel is the run of [httpchunk_readwrite]. *)
Lemma loop_fuel fuel ch w buf n o res :
  chunker_ok ch -> running ch -> loop fuel ch w buf n o = Some res ->
  loop (chunk_fuel buf) ch w buf n o = Some res.
Proof.
  intros Hok Hrun H.
  destruct (loop_total (chunk_fuel buf) ch w buf n o Hok Hrun (chunk_fuel_enough ch buf))
    as (res' & H' & _).
  apply (loop_mono _ (max fuel (chunk_fuel buf))) in H; [|lia].
  pose proof H' as H2. apply (loop_mono _ (max fuel (chunk_fuel buf))) in H2; [|lia]. congruence.
Qed.

(** ** Splitting the input *)

(** A writer for which the division of the body into writes is immaterial. *)
Class StreamWriter : Prop := body_app : forall w x y,
  x <> [] -> y <> [] ->
  cwrite w CLIENTWRITE_BODY (x ++ y) =
  let '(w1, r) := cwrite w CLIENTWRITE_BODY x in
  if is_ok r then cwrite w1 CLIENTWRITE_BODY y else (w1, r).

(** The decoder without the count kept in a terminal state. *)
Definition visible ch : Curl_chunker :=
  if bool_decide (state ch = CHUNK_DONE) || bool_decide (state ch = CHUNK_FAILED)
  then set_datasize ch 0 else ch.

Lemma visible_state ch ch' : visible ch = visible ch' -> state ch = state ch'.
Proof.
  intros H. apply (f_equal state) in H. unfold visible in H.
  destruct (_ || _), (_ || _); exact H.
Qed.

(** The same outcome, up to that count, and the bytes consumed on an error. *)
Definition same_outcome (x y : outcome) : Prop :=
  let '(r, ch, w, n, o) := x in
  let '(r', ch', w', n', o') := y in
  r = r' /\ visible ch = visible ch' /\ w = w' /\ o = o' /\ (r = CURLE_OK -> n = n').

#[global] Instance same_outcome_refl : Reflexive same_outcome.
Proof. intros [[[[r ch] w] n] o]. done. Qed.

#[global] Instance same_outcome_trans : Transitive same_outcome.
Proof.
  intros [[[[r ch] w] n] o] [[[[r2 ch2] w2] n2] o2] [[[[r3 ch3] w3] n3] o3].
  intros (Hr & Hc & Hw & Ho & Hn) (Hr2 & Hc2 & Hw2 & Ho2 & Hn2).
  split_and!; try congruence. intros ->. rewrite Hn by done. apply Hn2. by symmetry.
Qed.

Lemma step_app ch w a b o : a <> [] -> state ch <> CHUNK_DATA -> state ch <> CHUNK_STOP ->
  chunk_step cwrite data ch w (a ++ b) o = chunk_step cwrite data ch w a o.
Proof. intros Ha ? ?. destruct a; [done|]. unfold chunk_step. by destruct (state ch). Qed.

Lemma zdrop_app_le {A} n (x y : list A) : n <= zlen x -> zdrop n (x ++ y) = zdrop n x ++ y.
Proof. intros. unfold zdrop, zlen in *. apply drop_app_le. lia. Qed.

Lemma ztake_app_le {A} n (x y : list A) : n <= zlen x -> ztake n (x ++ y) = ztake n x.
Proof. intros. unfold ztake, zlen in *. apply take_app_le. lia. Qed.

(** A chunk that ends inside [a] does not see [b]. *)
Lemma step_data_app_le ch w a b o : datasize ch <= zlen a ->
  step_data cwrite data ch w (a ++ b) o = step_data cwrite data ch w a o.
Proof.
  intros H. unfold step_data. pose proof (zlen_nonneg b). rewrite zlen_app.
  assert (Hp : (if datasize ch <? zlen a + zlen b then datasize ch else zlen a + zlen b)
               = (if datasize ch <? zlen a then datasize ch else zlen a)).
  { repeat case_if; lia. }
  rewrite Hp, ztake_app_le by (case_if; lia). done.
Qed.

Section split.
Context (Hskip : http_te_skip data = false) (Hwriter : StreamWriter).

(** A chunk that goes on behind [a]: its data in two rounds. *)
Lemma step_data_app_gt ch w a b o : zlen a < datasize ch -> a <> [] -> b <> [] ->
  state ch = CHUNK_DATA ->
  match step_data cwrite data ch w a o with
  | Some (Continue ch1 w1 k o1) =>
      k = zlen a /\ o1 = o /\ state ch1 = CHUNK_DATA /\
      match step_data cwrite data ch1 w1 b o with
      | Some (Continue ch2 w2 k2 o2) =>
          0 <= k2 /\
          step_data cwrite data ch w (a ++ b) o = Some (Continue ch2 w2 (zlen a + k2) o2)
      | Some (Return r ch2 w2 k2 o2) =>
          exists ch2', step_data cwrite data ch w (a ++ b) o = Some (Return r ch2' w2 0 o2) /\
            visible ch2' = visible ch2 /\ r <> CURLE_OK
      | None => False
      end
  | Some (Return r ch1 w1 k o1) =>
      exists ch1', step_data cwrite data ch w (a ++ b) o = Some (Return r ch1' w1 0 o1) /\
        visible ch1' = visible ch1 /\ r <> CURLE_OK
  | None => False
  end.
Proof.
  intros Hlt Ha Hb Hs. unfold step_data. rewrite Hskip. cbn [negb andb].
  pose proof (zlen_nonneg b). rewrite zlen_app.
  replace (datasize ch <? zlen a) with false by (symmetry; apply Z.ltb_ge; lia).
  set (piece := if datasize ch <? zlen a + zlen b then datasize ch else zlen a + zlen b).
  set (piece2 := if datasize ch - zlen a <? zlen b then datasize ch - zlen a else zlen b).
  assert (Hp : piece = zlen a + piece2) by (subst piece piece2; repeat case_if; lia).
  assert (Hp2 : 0 < piece2).
  { subst piece2. destruct b; [done|]. case_if; zlia. }
  rewrite (ztake_ge (zlen a) a) by lia.
  assert (Ht : ztake piece (a ++ b) = a ++ ztake piece2 b).
  { rewrite Hp. unfold ztake, zlen. rewrite Z2Nat.inj_add, Nat2Z.id by lia.
    apply take_app_add. }
  rewrite Ht. clearbody piece.
  assert (Hne : ztake piece2 b <> []).
  { intros E. apply (f_equal zlen) in E. destruct b as [|x b]; [done|].
    rewrite zlen_ztake, zlen_cons in E by lia. change (zlen []) with 0 in E.
    pose proof (zlen_nonneg b). lia. }
  assert (Hfail : forall n c, visible (set_failed (set_datasize ch n) c)
                            = visible (set_failed ch c)) by done.
  set (X := datasize ch - zlen a) in *.
  destruct (ignore_body ch) eqn:Hi; cbn [negb].
  - cbn [is_ok negb].
    replace (X =? 0) with false by (symmetry; apply Z.eqb_neq; lia).
    replace (datasize (set_datasize ch X) =? 0) with false
      by (cbn; symmetry; apply Z.eqb_neq; lia).
    split_and!; try done. cbn [set_datasize ignore_body datasize]. rewrite Hi. cbn [negb is_ok].
    fold piece2. subst piece. subst X.
    replace (datasize ch - (zlen a + piece2)) with (datasize ch - zlen a - piece2) by lia.
    split; [lia|done].
  - rewrite (body_app w a (ztake piece2 b)) by done.
    destruct (cwrite w CLIENTWRITE_BODY a) as [w1 r1].
    destruct (is_ok r1) eqn:Hr1; cbn [negb].
    2: { rewrite Hr1. cbn [negb]. eexists. split; [done|]. split; [done|].
         by apply is_ok_false. }
    replace (datasize (set_datasize ch X) =? 0) with false
      by (cbn; symmetry; apply Z.eqb_neq; lia).
    split_and!; try done. cbn [set_datasize ignore_body datasize]. rewrite Hi. cbn [negb].
    fold piece2. destruct (cwrite w1 CLIENTWRITE_BODY (ztake piece2 b)) as [w2 r2].
    destruct (is_ok r2) eqn:Hr2; cbn [negb].
    + subst piece. subst X.
      replace (datasize ch - (zlen a + piece2)) with (datasize ch - zlen a - piece2) by lia.
      split; [lia|done].
    + eexists. split; [done|]. split; [done|]. by apply is_ok_false.
Qed.

(** What follows a run on [a] when [b] is fed next. *)
Definition then_feed (g : nat) (res : outcome) b : option outcome :=
  let '(r, ch, w, n, o) := res in
  if is_ok r && negb (Curl_httpchunk_is_done ch) then loop g ch w b n o else Some res.

Lemma not_done ch : running ch -> Curl_httpchunk_is_done ch = false.
Proof. intros [Hd _]. unfold Curl_httpchunk_is_done. by case_bool_decide. Qed.

Lemma then_feed_terminal g r ch w n o b :
  r = CURLE_OK /\ state ch = CHUNK_DONE \/ r <> CURLE_OK ->
  then_feed g (r, ch, w, n, o) b = Some (r, ch, w, n, o).
Proof.
  intros H. cbn [then_feed]. unfold Curl_httpchunk_is_done. destruct H as [[-> Hd]|Hr].
  - by rewrite Hd.
  - apply is_ok_false in Hr. by rewrite Hr.
Qed.

Lemma then_feed_empty g res : then_feed g res [] = Some res.
Proof.
  destruct res as [[[[r ch1] w1] n1] o1]. cbn [then_feed].
  destruct (is_ok r) eqn:E; [|done]. apply is_ok_iff in E as ->.
  destruct (Curl_httpchunk_is_done ch1); [done|]. by destruct g.
Qed.

(** The round that reaches the end of [a] in the data of a chunk. *)
Lemma loop_split_data ch w a b n o g res2 r fuel res :
  chunker_ok ch -> running ch -> a <> [] -> b <> [] -> state ch = CHUNK_DATA ->
  zlen a < datasize ch -> step_data cwrite data ch w a o = Some r ->
  match r with
  | Continue ch w k o => loop fuel ch w (zdrop k a) (n + k) o
  | Return result ch w k o => Some (result, ch, w, n + k, o)
  end = Some res -> then_feed g res b = Some res2 ->
  exists f res', loop f ch w (a ++ b) n o = Some res' /\ same_outcome res' res2.
Proof.
  intros Hok Hrun Ha Hb Hd Hgt Hstep Hl Hg.
  assert (Hab : a ++ b <> []) by (intros [? _]%app_eq_nil; done).
  pose proof (step_data_app_gt ch w a b o Hgt Ha Hb Hd) as H. rewrite Hstep in H.
  destruct r as [ch1 w1 k o1|rr ch1 w1 k o1].
  - destruct H as (-> & -> & Hs1 & H).
    assert (Hrun1 : running ch1) by (split; by rewrite Hs1).
    rewrite (zdrop_ge (zlen a) a) in Hl by lia.
    assert (res = (CURLE_OK, ch1, w1, n + zlen a, o)) as -> by (destruct fuel; by injection Hl).
    cbn [then_feed] in Hg. rewrite not_done in Hg by done. cbn [is_ok andb negb] in Hg.
    destruct g as [|g]; [by destruct b|]. rewrite loop_cons in Hg by done.
    unfold chunk_step in Hg. rewrite Hs1 in Hg.
    destruct (step_data cwrite data ch1 w1 b o) as [[ch2 w2 k2 o2|r2 ch2 w2 k2 o2]|];
      [| |done]; cbn [mbind option_bind] in Hg.
    + destruct H as [Hk2 H]. exists (S g), res2. split; [|done]. rewrite loop_cons by done.
      unfold chunk_step. rewrite Hd, H. cbn [mbind option_bind]. pose proof (zlen_nonneg a).
      rewrite (Z.add_comm (zlen a) k2), <- zdrop_zdrop, zdrop_app_exact by lia.
      rewrite <- Hg. f_equal. lia.
    + destruct H as (ch2' & H & Hv & Hr). injection Hg as <-.
      exists 1%nat. eexists. rewrite loop_cons by done. unfold chunk_step.
      rewrite Hd, H. split; [done|]. by split_and!.
  - destruct H as (ch1' & H & Hv & Hr). injection Hl as <-.
    rewrite then_feed_terminal in Hg by by right. injection Hg as <-.
    exists 1%nat. eexists. rewrite loop_cons by done. unfold chunk_step.
    rewrite Hd, H. split; [done|]. by split_and!.
Qed.

Lemma loop_split fuel : forall ch w a b n o res g res2,
  chunker_ok ch -> running ch ->
  loop fuel ch w a n o = Some res -> then_feed g res b = Some res2 ->
  exists f res', loop f ch w (a ++ b) n o = Some res' /\ same_outcome res' res2.
Proof.
  induction fuel as [|fuel IH]; intros ch w a b n o res g res2 Hok Hrun Hl Hg;
    (destruct (decide (a = [])) as [->|Ha];
      [injection Hl as <-; cbn [then_feed] in Hg; rewrite not_done in Hg by done;
       by exists g, res2|]).
  { by destruct a. }
  destruct (decide (b = [])) as [->|Hb].
  { rewrite app_nil_r. exists (S fuel), res. split; [done|].
    rewrite then_feed_empty in Hg. by injection Hg as <-. }
  assert (Hab : a ++ b <> []) by (intros [? _]%app_eq_nil; done).
  rewrite loop_cons in Hl by done.
  destruct (chunk_step_ok cwrite data ch w a o Hok Hrun Ha) as (r & Hstep & Hr).
  rewrite Hstep in Hl. cbn [mbind option_bind] in Hl.
  assert (Hsame : chunk_step cwrite data ch w (a ++ b) o = Some r ->
    exists f res', loop f ch w (a ++ b) n o = Some res' /\ same_outcome res' res2).
  { intros Heq. destruct r as [ch' w' k o'|rr ch' w' k o']; cbn [round_ok] in Hr.
    - destruct Hr as (Hok' & Hrun' & Hk & _).
      destruct (IH _ _ _ b _ _ _ _ _ Hok' Hrun' Hl Hg) as (f & res' & Hf & Hs).
      exists (S f), res'. split; [|done]. rewrite loop_cons, Heq by done.
      cbn [mbind option_bind]. by rewrite zdrop_app_le by lia.
    - injection Hl as <-. rewrite then_feed_terminal in Hg by tauto. injection Hg as <-.
      exists 1%nat. eexists. rewrite loop_cons, Heq by done. by split. }
  destruct (decide (state ch = CHUNK_DATA)) as [Hd|Hd];
    [|destruct (decide (state ch = CHUNK_STOP)) as [Hs|Hs]].
  - unfold chunk_step in Hstep, Hsame. rewrite Hd in Hstep, Hsame.
    destruct (Z.le_gt_cases (datasize ch) (zlen a)) as [Hle|Hgt].
    + apply Hsame. by rewrite step_data_app_le.
    + by apply (loop_split_data ch w a b n o g res2 r fuel res).
  - unfold chunk_step in Hstep. rewrite Hs in Hstep. unfold step_stop in Hstep.
    destruct (deref a =? 10) eqn:E10; injection Hstep as <-; injection Hl as <-;
      rewrite then_feed_terminal in Hg by (first [by left | by right]); injection Hg as <-;
      exists 1%nat; eexists; rewrite loop_cons by done; unfold chunk_step, step_stop;
      rewrite Hs; (replace (deref (a ++ b)) with (deref a) by by destruct a);
      rewrite E10; (split; [done|by split_and!]).
  - apply Hsame. by rewrite step_app.
Qed.

(** ** Feeding a decoder piece by piece *)

Definition shift (k : Z) (res : outcome) : outcome :=
  let '(r, ch, w, n, o) := res in (r, ch, w, k + n, o).

Lemma loop_shift fuel k : forall ch w buf n o,
  loop fuel ch w buf (k + n) o = (shift k) <$> loop fuel ch w buf n o.
Proof.
  induction fuel as [|fuel IH]; intros ch w buf n o; destruct buf as [|c buf]; try done.
  rewrite !loop_cons by done.
  destruct (chunk_step _ _ _ _ _ _) as [[]|]; cbn [mbind option_bind]; [| |done].
  - by rewrite <- Z.add_assoc, IH.
  - cbn. by rewrite Z.add_assoc.
Qed.

Lemma readwrite_loop ch w buf o : running ch ->
  httpchunk_readwrite cwrite data ch w buf o = loop (chunk_fuel buf) ch w buf 0 o.
Proof.
  intros [Hd Hf]. unfold httpchunk_readwrite. rewrite Hskip. by destruct (state ch).
Qed.

Lemma readwrite_total ch w buf o : chunker_ok ch -> running ch ->
  exists res, httpchunk_readwrite cwrite data ch w buf o = Some res /\ outcome_ok buf 0 res.
Proof.
  intros Hok Hrun. rewrite readwrite_loop by done.
  apply loop_total; [done..|]. apply chunk_fuel_enough.
Qed.

(** One call after the other, as the transfer delivers the data, until an
    error or the end of the body. *)
Fixpoint feed ch w (pieces : list (list Z)) (o : allocs) : option outcome :=
  match pieces with
  | [] => Some (CURLE_OK, ch, w, 0, o)
  | p :: pieces =>
      '(r, ch, w, n, o) ← httpchunk_readwrite cwrite data ch w p o;
      if is_ok r && negb (Curl_httpchunk_is_done ch) then
        res ← feed ch w pieces o;
        Some (shift n res)
      else Some (r, ch, w, n, o)
  end.

Lemma feed_concat pieces : forall ch w o, chunker_ok ch -> running ch ->
  exists res res', feed ch w pieces o = Some res /\
    httpchunk_readwrite cwrite data ch w (concat pieces) o = Some res' /\
    same_outcome res' res /\ outcome_ok (concat pieces) 0 res'.
Proof.
  induction pieces as [|p pieces IH]; intros ch w o Hok Hrun.
  { destruct (readwrite_total ch w [] o Hok Hrun) as (res & Hr & Hres).
    exists (CURLE_OK, ch, w, 0, o), res. split; [done|]. split; [done|]. split; [|done].
    rewrite readwrite_loop in Hr by done. by injection Hr as <-. }
  cbn [concat feed].
  destruct (readwrite_total ch w p o Hok Hrun) as (res1 & Hr1 & Hres1).
  destruct (readwrite_total ch w (p ++ concat pieces) o Hok Hrun) as (res' & Hr' & Hres').
  rewrite Hr1, Hr'. destruct res1 as [[[[r1 ch1] w1] n1] o1]. cbn [mbind option_bind].
  rewrite readwrite_loop in Hr1, Hr' by done.
  assert (Hdone : forall g res2, then_feed g (r1, ch1, w1, n1, o1) (concat pieces) = Some res2 ->
    same_outcome res' res2).
  { intros g res2 Hg. destruct (loop_split _ _ _ _ _ _ _ _ _ _ Hok Hrun Hr1 Hg)
      as (f & res3 & Hf & Hs). apply loop_fuel in Hf; [|done..].
    rewrite Hf in Hr'. injection Hr' as <-. done. }
  destruct Hres1 as (Hok1 & Hn1 & Hcase). destruct Hcase as [[-> Hd]|[(-> & Hrun1 & ->)|[Hne Hf]]].
  - unfold Curl_httpchunk_is_done. rewrite Hd. cbn [bool_decide is_ok andb negb].
    exists (CURLE_OK, ch1, w1, n1, o1), res'. split; [done|]. split; [done|]. split; [|done].
    apply (Hdone 0%nat). apply then_feed_terminal. by left.
  - rewrite not_done by done. cbn [is_ok andb negb].
    destruct (IH ch1 w1 o1 Hok1 Hrun1) as (res2 & res2' & Hf2 & Hrw2 & Hs2 & _).
    rewrite Hf2. exists (shift (0 + zlen p) res2), res'. split; [done|]. split; [done|].
    split; [|done]. rewrite readwrite_loop in Hrw2 by done.
    transitivity (shift (0 + zlen p) res2').
    + apply (Hdone (chunk_fuel (concat pieces))). cbn [then_feed].
      rewrite not_done by done. cbn [is_ok andb negb].
      rewrite <- (Z.add_0_r (0 + zlen p)), loop_shift, Hrw2. cbn. by rewrite Z.add_0_r.
    + destruct res2 as [[[[]]]], res2' as [[[[]]]]. cbn in Hs2 |- *.
      destruct Hs2 as (? & ? & ? & ? & Hn). split_and!; try done. intros Hr.
      by rewrite (Hn Hr).
  - apply is_ok_false in Hne as Hne'. rewrite Hne'. cbn [andb].
    exists (r1, ch1, w1, n1, o1), res'. split; [done|]. split; [done|]. split; [|done].
    apply (Hdone 0%nat). apply then_feed_terminal. by right.
Qed.
End split.
End loop.

(** * Messages *)

(** A chunk: the hexadecimal digits of its size, the rest of the size line
    (chunk extensions and CR) and its data. *)
Record chunk := mk_chunk { digits : list Z; ext : list Z; body : list Z }.

Definition size_line (ds ext : list Z) : list Z := ds ++ ext ++ [10].

Definition enc_chunk (c : chunk) : list Z :=
  size_line (digits c) (ext c) ++ body c ++ [13; 10].

Definition enc_trailer (t : list Z) : list Z := t ++ [13; 10].

(** Chunks, the size line of the last chunk, trailer fields, the empty line. *)
Definition enc_message (chunks : list chunk) (zeros ext : list Z)
    (trailers : list (list Z)) : list Z :=
  concat (map enc_chunk chunks) ++ size_line zeros ext ++
  concat (map enc_trailer trailers) ++ [13; 10].

(** At most 16 digits that write [n], then bytes up to the LF. *)
Definition size_line_ok (ds ext : list Z) (n : Z) : Prop :=
  ds <> [] /\ Forall (fun c => ISXDIGIT c = true) ds /\ zlen ds <= CHUNK_MAXNUM_LEN /\
  digits_value 16 0 ds = n /\ Forall (fun c => c <> 10) ext /\
  ISXDIGIT (deref ext) = false.

Definition chunk_ok (c : chunk) : Prop :=
  body c <> [] /\ zlen (body c) <= CURL_OFF_T_MAX /\
  size_line_ok (digits c) (ext c) (zlen (body c)).

(** A field line that fits the buffer and passes the header checks. *)
Definition trailer_line_ok (k : easy) (t : list Z) : Prop :=
  t <> [] /\ Forall (fun c => c <> 13 /\ c <> 10) t /\
  zlen t + 3 <= DYN_H1_TRAILER /\ Curl_verify_header k (enc_trailer t) = CURLE_OK.

(** A client that stores the body and the trailer fields. *)
Definition sink (w : list Z * list (list Z)) (type : Z) (buf : list Z)
  : (list Z * list (list Z)) * CURLcode :=
  if Z.land type CLIENTWRITE_BODY =? 0 then ((fst w, snd w ++ [buf]), CURLE_OK)
  else ((fst w ++ buf, snd w), CURLE_OK).

Lemma sink_stream : StreamWriter sink.
Proof.
  intros [b ts] x y _ _. unfold sink.
  change (Z.land CLIENTWRITE_BODY CLIENTWRITE_BODY =? 0) with false. cbn.
  by rewrite app_assoc.
Qed.

Section decode.
Context (data : easy) (Hskip : http_te_skip data = false).
Context (final : list Z * list (list Z)) (nfinal : Z).
#[local] Abbreviation loop := (chunk_loop sink data).

(** The loop ends in [CHUNK_DONE] with the expected output. *)
Definition decodes (ch : Curl_chunker) (w : list Z * list (list Z)) (buf : list Z) (n : Z)
  : Prop :=
  exists fuel ch', loop fuel ch w buf n [] = Some (CURLE_OK, ch', final, nfinal, []) /\
    state ch' = CHUNK_DONE.

Lemma decodes_step ch w buf n ch' w' k :
  buf <> [] -> chunk_step sink data ch w buf [] = Some (Continue ch' w' k []) ->
  decodes ch' w' (zdrop k buf) (n + k) -> decodes ch w buf n.
Proof.
  intros Hb Hs (fuel & ch2 & Hl & Hd). exists (S fuel), ch2. split; [|done].
  rewrite loop_cons, Hs by done. done.
Qed.

(** One byte consumed in a state that looks at one byte. *)
Lemma decodes_byte ch w c buf n ch' w' :
  chunk_step sink data ch w (c :: buf) [] = Some (Continue ch' w' 1 []) ->
  decodes ch' w' buf (n + 1) -> decodes ch w (c :: buf) n.
Proof. intros Hs Hd. by eapply decodes_step. Qed.

Definition body_phase (ch : Curl_chunker) : Prop :=
  ignore_body ch = false /\ trailer ch = curlx_dyn_init DYN_H1_TRAILER.

Lemma decodes_digits ds : forall ch h w rest n,
  state ch = CHUNK_HEX -> hex_ok ch h -> Forall (fun c => ISXDIGIT c = true) ds ->
  zlen h + zlen ds <= CHUNK_MAXNUM_LEN -> body_phase ch ->
  (forall ch', state ch' = CHUNK_HEX -> hex_ok ch' (h ++ ds) -> body_phase ch' ->
     decodes ch' w rest (n + zlen ds)) ->
  decodes ch w (ds ++ rest) n.
Proof.
  induction ds as [|c ds IH]; intros ch h w rest n Hs Hh Hds Hl Hb Hk.
  { rewrite app_nil_r, zlen_nil, Z.add_0_r in Hk. by apply Hk. }
  apply Forall_cons in Hds as [Hc Hds]. rewrite zlen_cons in Hl. pose proof (zlen_nonneg ds).
  pose proof Hh as (Hi & _). destruct (hex_store ch h c Hh Hc) as (b & Hw & Hh'); [lia|].
  cbn [app]. eapply decodes_byte.
  { unfold chunk_step. rewrite Hs. cbn [deref]. unfold step_hex. rewrite Hc.
    replace (hexindex ch >=? CHUNK_MAXNUM_LEN) with false
      by (symmetry; rewrite Z.geb_leb; apply Z.leb_gt; lia).
    rewrite Hw. done. }
  eapply IH; [exact Hs|exact Hh'|done|zlia|exact Hb|].
  intros ch' Hs' Hh2 Hb2. rewrite <- app_assoc in Hh2. specialize (Hk ch' Hs' Hh2 Hb2).
  by replace (n + 1 + zlen ds) with (n + zlen (c :: ds)) by zlia.
Qed.

Lemma decodes_ext ext : forall ch w rest n,
  state ch = CHUNK_LF -> Forall (fun c => c <> 10) ext ->
  decodes (set_state ch (if datasize ch =? 0 then CHUNK_TRAILER else CHUNK_DATA)) w rest
    (n + zlen ext + 1) ->
  decodes ch w (ext ++ [10] ++ rest) n.
Proof.
  induction ext as [|c ext IH]; intros ch w rest n Hs He Hk; cbn [app].
  - change (zlen []) with 0 in Hk. rewrite Z.add_0_r in Hk. eapply decodes_byte; [|exact Hk].
    unfold chunk_step. rewrite Hs. cbn [deref]. unfold step_lf.
    change (10 =? 10) with true. cbv iota. by destruct (datasize ch =? 0).
  - apply Forall_cons in He as [Hc He]. eapply decodes_byte.
    { unfold chunk_step. rewrite Hs. cbn [deref]. unfold step_lf.
      replace (c =? 10) with false by (symmetry; by apply Z.eqb_neq). done. }
    apply IH; [done..|]. by replace (n + 1 + zlen ext + 1) with (n + zlen (c :: ext) + 1) by zlia.
Qed.

(** The size line. *)
Lemma decodes_size_line ch w ds ext v rest n :
  state ch = CHUNK_HEX -> hex_ok ch [] -> body_phase ch -> size_line_ok ds ext v ->
  0 <= v <= CURL_OFF_T_MAX ->
  (forall ch' h, state ch' = (if v =? 0 then CHUNK_TRAILER else CHUNK_DATA) ->
     datasize ch' = v -> hex_ok ch' h -> body_phase ch' ->
     decodes ch' w rest (n + zlen (size_line ds ext))) ->
  decodes ch w (size_line ds ext ++ rest) n.
Proof.
  intros Hs Hh Hb (Hne & Hds & Hl & Hv & He & Hx) Hvr Hk. unfold size_line in *.
  rewrite <- !app_assoc. apply (decodes_digits ds ch []); [done..|].
  intros ch' Hs' Hh' Hb'. cbn [app] in Hh'. set (rest' := ext ++ [10] ++ rest).
  destruct (hex_terminate ch' ds Hh') as (b & Hw & Hr & Hh2).
  assert (Hx' : ISXDIGIT (deref rest') = false) by (subst rest'; by destruct ext).
  assert (Hi : (hexindex ch' =? 0) = false).
  { apply Z.eqb_neq. destruct Hh' as [<- _]. by intros ?%zlen_0. }
  eapply decodes_step with (k := 0); [by destruct ext| |].
  { unfold chunk_step. rewrite Hs'. unfold step_hex. rewrite Hx', Hi, Hw.
    cbn [mbind option_bind]. rewrite Hr. cbn [mbind option_bind].
    rewrite hex_parse, Hv by done.
    replace (v <=? CURL_OFF_T_MAX) with true by (symmetry; apply Z.leb_le; lia).
    cbn [mbind option_bind]. done. }
  rewrite zdrop_0, Z.add_0_r. apply decodes_ext; [done..|]. cbn [set_state datasize set_datasize].
  specialize (Hk (set_state (set_state (set_datasize (set_hex ch' (hexindex ch') b) v)
    CHUNK_LF) (if v =? 0 then CHUNK_TRAILER else CHUNK_DATA)) ds eq_refl eq_refl Hh2 Hb').
  rewrite !zlen_app in Hk. change (zlen [10]) with 1 in Hk. by rewrite !Z.add_assoc in Hk.
Qed.

(** The data of a chunk and the line end behind it. *)
Lemma decodes_body ch w bd h rest n :
  state ch = CHUNK_DATA -> datasize ch = zlen bd -> bd <> [] -> hex_ok ch h ->
  body_phase ch ->
  (forall ch', state ch' = CHUNK_HEX -> hex_ok ch' [] -> body_phase ch' ->
     decodes ch' (fst w ++ bd, snd w) rest (n + zlen bd + 2)) ->
  decodes ch w (bd ++ [13; 10] ++ rest) n.
Proof.
  intros Hs Hd Hne Hh [Hb Htr] Hk. pose proof (zlen_nonneg rest).
  eapply decodes_step with (k := zlen bd); [by destruct bd| |].
  { unfold chunk_step. rewrite Hs. unfold step_data. rewrite Hskip, Hb. cbn [negb andb].
    rewrite Hd. replace (zlen bd <? _) with true by (symmetry; apply Z.ltb_lt; zlia).
    rewrite ztake_app_exact. cbn [is_ok negb]. rewrite Z.sub_diag. cbn [set_datasize datasize].
    change (0 =? 0) with true. done. }
  rewrite zdrop_app_exact. eapply decodes_byte; [done|].
  eapply decodes_byte.
  { unfold chunk_step. cbn [set_state state deref]. unfold step_postlf.
    change (10 =? 10) with true. cbv iota. unfold Curl_httpchunk_reset.
    cbn [set_state set_datasize trailer]. rewrite Htr. done. }
  replace (n + zlen bd + 1 + 1) with (n + zlen bd + 2) by lia. apply Hk; [done| |].
  - destruct Hh as (_ & _ & Hl & _). unfold hex_ok. cbn. split_and!; try done.
    by exists (hexbuffer ch).
  - split; done.
Qed.

Lemma decodes_chunks chunks : forall ch w rest n,
  state ch = CHUNK_HEX -> hex_ok ch [] -> body_phase ch -> Forall chunk_ok chunks ->
  (forall ch', state ch' = CHUNK_HEX -> hex_ok ch' [] -> body_phase ch' ->
     decodes ch' (fst w ++ concat (map body chunks), snd w) rest
       (n + zlen (concat (map enc_chunk chunks)))) ->
  decodes ch w (concat (map enc_chunk chunks) ++ rest) n.
Proof.
  induction chunks as [|c chunks IH]; intros ch w rest n Hs Hh Hb Hc Hk.
  { cbn [map concat] in *. rewrite app_nil_r, zlen_nil, Z.add_0_r in Hk. destruct w. by apply Hk. }
  apply Forall_cons in Hc as [(Hne & Hlen & Hline) Hc]. cbn [map concat].
  unfold enc_chunk at 1. rewrite <- !app_assoc.
  assert (0 < zlen (body c)) by (destruct (body c); [done|zlia]).
  apply (decodes_size_line ch w _ _ (zlen (body c))); try done; [lia|].
  intros ch1 h1 Hs1 Hd1 Hh1 Hb1.
  replace (zlen (body c) =? 0) with false in Hs1 by (symmetry; apply Z.eqb_neq; lia).
  apply (decodes_body ch1 w (body c) h1); try done. intros ch2 Hs2 Hh2 Hb2.
  apply IH; try done. intros ch3 Hs3 Hh3 Hb3. specialize (Hk ch3 Hs3 Hh3 Hb3).
  cbn [map concat fst snd] in *. rewrite app_assoc in Hk.
  replace (n + zlen (size_line (digits c) (ext c)) + zlen (body c) + 2 +
    zlen (concat (map enc_chunk chunks)))
    with (n + zlen (enc_chunk c ++ concat (map enc_chunk chunks))); [done|].
  unfold enc_chunk. rewrite !zlen_app. change (zlen [13; 10]) with 2. lia.
Qed.

(** ** Trailers *)

Lemma decodes_trailer_bytes t : forall ch acc w rest n,
  state ch = CHUNK_TRAILER -> trailer_ok ch acc ->
  Forall (fun c => c <> 13 /\ c <> 10) t -> zlen acc + zlen t + 1 <= DYN_H1_TRAILER ->
  (forall ch', state ch' = CHUNK_TRAILER -> trailer_ok ch' (acc ++ t) ->
     decodes ch' w rest (n + zlen t)) ->
  decodes ch w (t ++ rest) n.
Proof.
  induction t as [|c t IH]; intros ch acc w rest n Hs [Hd Hb] Ht Hl Hk.
  { rewrite app_nil_r, zlen_nil, Z.add_0_r in Hk. by apply Hk. }
  apply Forall_cons in Ht as [[H13 H10] Ht]. rewrite zlen_cons in Hl.
  pose proof (zlen_nonneg acc). pose proof (zlen_nonneg t).
  destruct (dyn_nappend_granted (trailer ch) acc [c] Hd) as (d & r & Ha & Hr & Hdb & Hcase);
    [done|].
  change (zlen [c]) with 1 in Hcase.
  destruct Hcase as [(-> & _ & Hd' & Hn)|[(_ & ? & _)|(-> & _)]]; [|lia|done].
  cbn [app]. eapply decodes_byte.
  { unfold chunk_step. rewrite Hs. cbn [deref]. unfold step_trailer.
    replace (c =? 13) with false by (symmetry; by apply Z.eqb_neq).
    replace (c =? 10) with false by (symmetry; by apply Z.eqb_neq). cbn [orb].
    unfold curlx_dyn_addn. rewrite Ha. done. }
  eapply (IH _ (acc ++ [c])); [done|split; [done|cbn; congruence]|done|zlia|].
  intros ch' Hs' Ht'. rewrite <- app_assoc in Ht'.
  replace (n + 1 + zlen t) with (n + zlen (c :: t)) by zlia. by apply Hk.
Qed.

(** One trailer field, up to the state behind its line end. *)
Lemma decodes_trailer_line ch w t rest n :
  state ch = CHUNK_TRAILER -> trailer_ok ch [] -> trailer_line_ok data t ->
  (forall ch', state ch' = CHUNK_TRAILER_POSTCR -> trailer_ok ch' [] ->
     decodes ch' (fst w, snd w ++ [enc_trailer t]) rest (n + zlen (enc_trailer t))) ->
  decodes ch w (enc_trailer t ++ rest) n.
Proof.
  intros Hs Ht (Hne & Hb & Hl & Hv) Hk. unfold enc_trailer at 1. rewrite <- app_assoc.
  apply (decodes_trailer_bytes t ch []); try done; [zlia|].
  cbn [app]. intros ch1 Hs1 [Hd1 Hb1].
  destruct (dyn_nappend_granted (trailer ch1) t [13; 10] Hd1)
    as (d & r & Ha & Hr & Hdb & Hcase); [done|]. change (zlen [13; 10]) with 2 in Hcase.
  destruct Hcase as [(-> & _ & Hd & _)|[(_ & ? & _)|(-> & _)]]; [|lia|done].
  destruct (dyn_reset_rep d _ Hd) as (d2 & Hd2 & Hrep2 & Hb2 & _).
  assert (Hbuf : exists m, bufr (trailer ch1) = Some m).
  { destruct Hd1 as (_ & _ & Hm). destruct (bufr (trailer ch1)); [by eexists|].
    by destruct Hm. }
  destruct Hbuf as (m & Hm).
  eapply decodes_byte.
  { unfold chunk_step. rewrite Hs1. cbn [deref]. unfold step_trailer.
    change (13 =? 13) with true. change (13 =? 10) with false. cbn [orb].
    unfold curlx_dyn_ptr, curlx_dyn_addn. rewrite Hm, Ha.
    cbn [mbind option_bind is_ok negb set_trailer trailer].
    rewrite (dyn_rep_bytes _ _ Hd). cbn [mbind option_bind].
    change (t ++ [13; 10]) with (enc_trailer t). rewrite Hv. cbn [is_ok negb].
    rewrite Hskip. cbn [negb]. unfold sink.
    change (Z.land _ CLIENTWRITE_BODY =? 0) with true. cbn [is_ok negb].
    rewrite Hd2. done. }
  eapply decodes_byte.
  { unfold chunk_step. cbn [set_state state deref]. unfold step_trailer_cr. done. }
  replace (n + zlen t + 1 + 1) with (n + zlen (enc_trailer t))
    by (unfold enc_trailer; zlia).
  apply Hk; [done|]. split; [done|]. cbn. congruence.
Qed.

(** The line that ends the message, seen from either state. *)
Lemma decodes_end ch w n tl :
  state ch = CHUNK_TRAILER_POSTCR ->
  w = final -> nfinal = n + 2 -> decodes ch w ([13; 10] ++ tl) n.
Proof.
  intros Hs -> Hn. cbn [app]. eapply decodes_byte.
  { unfold chunk_step. rewrite Hs. unfold step_trailer_postcr. cbn [deref].
    change (13 =? 13) with true. change (13 =? 10) with false. cbn [negb andb]. done. }
  exists 1%nat. eexists. rewrite loop_cons by done. unfold chunk_step.
  cbn [set_state state]. unfold step_stop. cbn [deref].
  change (10 =? 10) with true. cbn [mbind option_bind].
  rewrite Hn. replace (n + 1 + 1) with (n + 2) by lia. done.
Qed.

Lemma decodes_trailers trailers : forall ch w n tl,
  (state ch = CHUNK_TRAILER /\ trailer ch = curlx_dyn_init DYN_H1_TRAILER
   \/ state ch = CHUNK_TRAILER_POSTCR) -> trailer_ok ch [] ->
  Forall (trailer_line_ok data) trailers ->
  final = (fst w, snd w ++ map enc_trailer trailers) ->
  nfinal = n + zlen (concat (map enc_trailer trailers)) + 2 ->
  decodes ch w (concat (map enc_trailer trailers) ++ [13; 10] ++ tl) n.
Proof.
  induction trailers as [|t ts IH]; intros ch w n tl Hs Ht Hts Hf Hn.
  - cbn [map concat app] in *. rewrite app_nil_r in Hf. change (zlen []) with 0 in Hn.
    destruct Hs as [[Hs Htr]|Hs].
    + eapply decodes_step with (k := 0); [done| |].
      { unfold chunk_step. rewrite Hs. unfold step_trailer. cbn [deref].
        change (13 =? 13) with true. cbn [orb]. rewrite Htr. done. }
      rewrite zdrop_0, Z.add_0_r. apply decodes_end; [done|by destruct w|lia].
    + apply decodes_end; [done|by destruct w|lia].
  - apply Forall_cons in Hts as [Hline Hts]. cbn [map concat] in *. rewrite <- app_assoc.
    assert (Hgo : forall ch0, state ch0 = CHUNK_TRAILER -> trailer_ok ch0 [] ->
      decodes ch0 w (enc_trailer t ++ concat (map enc_trailer ts) ++ [13; 10] ++ tl) n).
    { intros ch0 Hs0 Ht0. apply decodes_trailer_line; try done.
      intros ch' Hs' Ht'. apply IH; try done; [by right| |zlia].
      cbn [fst snd]. by rewrite <- app_assoc. }
    destruct Hs as [[Hs _]|Hs]; [by apply Hgo|].
    destruct Hline as (Hne & Hb & _). destruct t as [|c t]; [done|].
    apply Forall_cons in Hb as [[H13 H10] _].
    eapply decodes_step with (k := 0); [done| |].
    { unfold chunk_step. rewrite Hs. unfold step_trailer_postcr. cbn [enc_trailer app deref].
      replace (c =? 13) with false by (symmetry; by apply Z.eqb_neq).
      replace (c =? 10) with false by (symmetry; by apply Z.eqb_neq). done. }
    rewrite zdrop_0, Z.add_0_r. by apply Hgo.
Qed.
End decode.

(** A new decoder, in a structure whose buffer has its size. *)
Definition fresh (ignore : bool) (ch : Curl_chunker) : Prop :=
  exists old, zlen (hexbuffer old) = CHUNK_MAXNUM_LEN + 1 /\
    ch = Curl_httpchunk_init old ignore.

Lemma fresh_ok ignore ch : fresh ignore ch ->
  chunker_ok ch /\ running ch /\ hex_ok ch [] /\ trailer_ok ch [].
Proof.
  intros (old & Hl & ->).
  assert (Hh : hex_ok (Curl_httpchunk_init old ignore) []).
  { split_and!; try done. by exists (hexbuffer old). }
  assert (Ht : trailer_ok (Curl_httpchunk_init old ignore) []).
  { split; [|done]. apply dyn_init_rep. unfold DYN_H1_TRAILER, MAX_DYNBUF_SIZE. lia. }
  split; [|split; [split; done|split; done]].
  split; [by exists []|]. split; [by exists []|done].
Qed.

(** Decoding a whole message in one call. *)
Lemma decode_message data chunks zeros ext trailers tl ch :
  http_te_skip data = false -> fresh false ch -> Forall chunk_ok chunks ->
  size_line_ok zeros ext 0 -> Forall (trailer_line_ok data) trailers ->
  let msg := enc_message chunks zeros ext trailers in
  exists ch', httpchunk_readwrite sink data ch ([], []) (msg ++ tl) [] =
    Some (CURLE_OK, ch', (concat (map body chunks), map enc_trailer trailers),
          zlen msg, []) /\ state ch' = CHUNK_DONE.
Proof.
  intros Hskip Hfresh Hc Hz Ht msg. destruct (fresh_ok _ _ Hfresh) as (Hok & Hrun & Hh & Htr).
  assert (Hbp : body_phase ch) by (by destruct Hfresh as (old & _ & ->)).
  assert (Hs : state ch = CHUNK_HEX) by (by destruct Hfresh as (old & _ & ->)).
  assert (Hd : decodes data (concat (map body chunks), map enc_trailer trailers) (zlen msg)
    ch ([], []) (msg ++ tl) 0).
  { unfold msg, enc_message. rewrite <- !app_assoc.
    apply (decodes_chunks data Hskip); [done..|]. intros ch1 Hs1 Hh1 Hb1.
    cbn [fst snd app]. apply (decodes_size_line data _ _ ch1 _ zeros ext 0); try done.
    intros ch2 h Hs2 _ Hh2 [Hi2 Htr2]. change (0 =? 0) with true in Hs2.
    apply (decodes_trailers data Hskip); [left; done| |done|done|].
    - split; rewrite Htr2; [|done]. apply dyn_init_rep.
      unfold DYN_H1_TRAILER, MAX_DYNBUF_SIZE. lia.
    - unfold enc_message. zlia. }
  destruct Hd as (fuel & ch' & Hl & Hd). exists ch'. split; [|done].
  rewrite readwrite_loop by done. by apply loop_fuel in Hl.
Qed.

(** The same delivered in pieces. *)
Lemma decode_pieces data chunks zeros ext trailers tl ch pieces :
  http_te_skip data = false -> fresh false ch -> Forall chunk_ok chunks ->
  size_line_ok zeros ext 0 -> Forall (trailer_line_ok data) trailers ->
  concat pieces = enc_message chunks zeros ext trailers ++ tl ->
  exists ch', feed sink data ch ([], []) pieces [] =
    Some (CURLE_OK, ch', (concat (map body chunks), map enc_trailer trailers),
          zlen (enc_message chunks zeros ext trailers), []) /\ state ch' = CHUNK_DONE.
Proof.
  intros Hskip Hfresh Hc Hz Ht Hp. destruct (fresh_ok _ _ Hfresh) as (Hok & Hrun & _).
  destruct (feed_concat sink data Hskip sink_stream pieces ch ([], []) [] Hok Hrun)
    as ([[[[r1 ch1] w1] n1] o1] & res' & Hf & Hr & Hs & _).
  destruct (decode_message data chunks zeros ext trailers tl ch Hskip Hfresh Hc Hz Ht)
    as (ch' & Hm & Hd).
  rewrite Hp, Hm in Hr. injection Hr as <-. destruct Hs as (<- & Hv & <- & <- & Hn).
  exists ch1. rewrite (Hn eq_refl). split; [done|].
  by rewrite <- (visible_state _ _ Hv).
Qed.

(** C8: a chunked message (any chunks with correct size lines, then the last
    chunk, trailer fields and the empty line), delivered to a new decoder in
    pieces of any sizes, with other bytes behind it or not: the decoder
    returns [CURLE_OK] in the state [CHUNK_DONE], the client receives
    exactly the concatenated chunk data and the trailer fields, and the
    bytes behind the message are not consumed. *)
Theorem chunk_decode_correct data chunks zeros ext trailers tl ch pieces :
  http_te_skip data = false -> fresh false ch -> Forall chunk_ok chunks ->
  size_line_ok zeros ext 0 -> Forall (trailer_line_ok data) trailers ->
  concat pieces = enc_message chunks zeros ext trailers ++ tl ->
  exists ch', feed sink data ch ([], []) pieces [] =
    Some (CURLE_OK, ch', (concat (map body chunks), map enc_trailer trailers),
          zlen (enc_message chunks zeros ext trailers), []) /\ state ch' = CHUNK_DONE.
Proof. apply decode_pieces. Qed.

Lemma chunk_decode_correct_witness :
  let old := mk_chunker 0 CHUNK_HEX CHUNKE_OK (curlx_dyn_init 1) 0 (replicate 17 None) false in
  exists ch', feed sink (mk_easy false 3 false) (Curl_httpchunk_init old false) ([], [])
      [str "3;x"; [13]; [10] ++ str "ab"; str "c"; [13; 10] ++ str "0"; [13; 10];
       str "T: 1" ++ [13; 10; 13; 10] ++ str "NEXT"] [] =
    Some (CURLE_OK, ch', (str "abc", [str "T: 1" ++ [13; 10]]), 21, []) /\
    state ch' = CHUNK_DONE.
Proof.
  intros old.
  apply (chunk_decode_correct (mk_easy false 3 false)
    [mk_chunk (str "3") (str ";x" ++ [13]) (str "abc")] (str "0") [13] [str "T: 1"]
    (str "NEXT")); [done|by exists old|by_compute..|done].
Defined.

(** A new decoder, for the examples. *)
Definition example_decoder (ignore : bool) : Curl_chunker :=
  Curl_httpchunk_init (mk_chunker 0 CHUNK_HEX CHUNKE_OK (curlx_dyn_init 1) 0
    (replicate 17 None) false) ignore.

Lemma fresh_example ignore : fresh ignore (example_decoder ignore).
Proof. unfold fresh, example_decoder. eexists. by split; [|done]. Qed.

(** C9: however a stream is divided into calls, valid or not, complete or not,
    the decoder comes to the same result: feeding the pieces one by one until
    an error or the end of the body gives the same code, the same decoder
    state, the same data at the client and (on success) the same number of
    consumed bytes as one call with all of it. *)
Theorem chunk_feed_split {W} (cwrite : W -> Z -> list Z -> W * CURLcode) data ch w pieces o :
  StreamWriter cwrite -> http_te_skip data = false -> chunker_ok ch -> running ch ->
  exists res res', feed cwrite data ch w pieces o = Some res /\
    Curl_httpchunk_read cwrite data ch w (concat pieces) o = Some res' /\
    same_outcome res' res.
Proof.
  intros Hw Hskip Hok Hrun.
  destruct (feed_concat cwrite data Hskip Hw pieces ch w o Hok Hrun)
    as (res & res' & Hf & Hr & Hs & _). by exists res, res'.
Qed.

Lemma chunk_feed_split_witness :
  exists res res',
    feed sink (mk_easy false 3 false) (example_decoder false) ([], [])
      [str "2"; [10; 65]; str "BX"; str "YZ"] [] = Some res /\
    Curl_httpchunk_read sink (mk_easy false 3 false) (example_decoder false) ([], [])
      (str "2" ++ [10; 65] ++ str "BX" ++ str "YZ") [] = Some res' /\
    same_outcome res' res.
Proof.
  apply (chunk_feed_split sink (mk_easy false 3 false) (example_decoder false) ([], [])
    [str "2"; [10; 65]; str "BX"; str "YZ"] []).
  - apply sink_stream.
  - reflexivity.
  - apply (fresh_ok false _ (fresh_example false)).
  - apply (fresh_ok false _ (fresh_example false)).
Defined.

(** On any input, from any well-formed state, with any options, any next
    writer and any allocation failures, a call of the decoder ends without
    touching memory outside the size buffer or the trailer buffer.  It
    consumes at most the input; it ends in [CHUNK_DONE] with [CURLE_OK], or
    with [CURLE_OK] and all of the input consumed, or in [CHUNK_FAILED] with
    an error. *)
Theorem chunk_read_total {W} (cwrite : W -> Z -> list Z -> W * CURLcode) data ch w buf o :
  chunker_ok ch ->
  exists result ch' w' n o',
    Curl_httpchunk_read cwrite data ch w buf o = Some (result, ch', w', n, o') /\
    chunker_ok ch' /\ 0 <= n <= zlen buf /\
    (result = CURLE_OK /\ state ch' = CHUNK_DONE
     \/ result = CURLE_OK /\ running ch' /\ n = zlen buf
     \/ result <> CURLE_OK /\ state ch' = CHUNK_FAILED).
Proof.
  intros Hok. unfold Curl_httpchunk_read, httpchunk_readwrite. pose proof (zlen_nonneg buf).
  destruct (decide (state ch = CHUNK_DONE)) as [Hd|Hd].
  { rewrite Hd. do 5 eexists. split; [done|]. split; [done|]. split; [lia|]. by left. }
  destruct (decide (state ch = CHUNK_FAILED)) as [Hf|Hf].
  { rewrite Hf. do 5 eexists. split; [done|]. split; [done|]. split; [lia|]. by right; right. }
  assert (Hgo : forall w1, exists result ch' w' n o',
    chunk_loop cwrite data (chunk_fuel buf) ch w1 buf 0 o = Some (result, ch', w', n, o') /\
    chunker_ok ch' /\ 0 <= n <= zlen buf /\
    (result = CURLE_OK /\ state ch' = CHUNK_DONE
     \/ result = CURLE_OK /\ running ch' /\ n = zlen buf
     \/ result <> CURLE_OK /\ state ch' = CHUNK_FAILED)).
  { intros w1. destruct (loop_total cwrite data (chunk_fuel buf) ch w1 buf 0 o Hok)
      as ([[[[r ch'] w'] n] o'] & Hl & Hres); [done|apply chunk_fuel_enough|].
    exists r, ch', w', n, o'. split; [done|]. exact Hres. }
  destruct (if http_te_skip data && _ then _ else _) as [w1 r1].
  destruct (is_ok r1) eqn:Hr1; cbn [negb].
  - destruct (Hgo w1) as (r & ch' & w' & n & o' & Hl & Hres). do 5 eexists.
    split; [|exact Hres]. by destruct (state ch).
  - exists r1, (set_failed ch CHUNKE_PASSTHRU_ERROR), w1, 0, o.
    split; [by destruct (state ch)|]. split; [by apply ok_failed|]. split; [lia|].
    right; right. apply is_ok_false in Hr1. done.
Qed.

Lemma chunk_read_total_witness :
  exists result ch' w' n o',
    Curl_httpchunk_read (fun w _ _ => (w, CURLE_WRITE_ERROR)) (mk_easy true 3 false)
      (example_decoder false) tt (str "zz") [] = Some (result, ch', w', n, o') /\
    chunker_ok ch' /\ 0 <= n <= 2 /\
    (result = CURLE_OK /\ state ch' = CHUNK_DONE
     \/ result = CURLE_OK /\ running ch' /\ n = 2
     \/ result <> CURLE_OK /\ state ch' = CHUNK_FAILED).
Proof.
  apply (chunk_read_total (fun w _ _ => (w, CURLE_WRITE_ERROR)) (mk_easy true 3 false)
    (example_decoder false) tt (str "zz") []).
  apply (fresh_ok false _ (fresh_example false)).
Defined.

(** [Curl_httpchunk_reset] does not make a decoder new.  After a body with
    a trailer field it leaves the trailer buffer allocated (and empty), so
    the empty line behind the last chunk of the next body is taken for a
    trailer field: the body that a new decoder finds complete is not complete
    for the decoder that was reset, and the client (here behind a transfer
    that has not seen two header lines) gets an empty trailer line. *)
Theorem chunk_reset_not_fresh :
  let data := mk_easy false 1 false in
  let first := str "0" ++ [13; 10] ++ str "T: 1" ++ [13; 10; 13; 10] in
  let second := str "0" ++ [13; 10; 13; 10] in
  exists ch1 ch2 ch3 ch4,
    Curl_httpchunk_read sink data (example_decoder true) ([], []) first []
      = Some (CURLE_OK, ch1, ([], [str "T: 1" ++ [13; 10]]), 11, []) /\
    Curl_httpchunk_is_done ch1 = true /\
    Curl_httpchunk_reset ch1 true = Some ch2 /\
    Curl_httpchunk_read sink data ch2 ([], []) second []
      = Some (CURLE_OK, ch3, ([], [[13; 10]]), 5, []) /\
    Curl_httpchunk_is_done ch3 = false /\
    Curl_httpchunk_read sink data (example_decoder true) ([], []) second []
      = Some (CURLE_OK, ch4, ([], []), 5, []) /\
    Curl_httpchunk_is_done ch4 = true.
Proof.
  do 4 eexists. split; [vm_compute; reflexivity|].
  split; [vm_compute; reflexivity|]. split; [vm_compute; reflexivity|].
  split; [vm_compute; reflexivity|]. split; [vm_compute; reflexivity|].
  split; vm_compute; reflexivity.
Qed.
