(* ===== verification/Interfaces.v ===== *)
(** What components promise to each other.

    [ByteQueue] is the buffer queue as the chunked encoder of
    lib/http_chunks.c uses it: initialised with [BUFQ_OPT_SOFT_LIMIT], it
    takes whatever is written.  [Bufq.v] has the instance for [struct bufq],
    [ChunkedReader.v] is proved against the class. *)

From Stdlib Require Import ZArith List.
From stdpp Require Import base list.
From S2P Require Import Prelude.
Open Scope Z_scope.

Class ByteQueue (Q : Type) := {
  bq_holds : Q -> list Z -> Prop;
  (** the queue, the result and [*pnwritten] *)
  bq_cwrite : Q -> list Z -> option (Q * CURLcode * Z);
  (** the queue, the result and the bytes read *)
  bq_cread : Q -> Z -> option (Q * CURLcode * list Z);
  bq_is_empty : Q -> bool;
  bq_cwrite_spec q b buf : bq_holds q b ->
    exists q', bq_cwrite q buf = Some (q', CURLE_OK, zlen buf) /\ bq_holds q' (b ++ buf);
  bq_cread_spec q b len : bq_holds q b -> 0 <= len ->
    exists q', bq_cread q len =
      Some (q', if zlen (ztake len b) =? 0 then CURLE_AGAIN else CURLE_OK, ztake len b) /\
      bq_holds q' (zdrop len b);
  bq_is_empty_spec q b : bq_holds q b -> bq_is_empty q = bool_decide (b = [])
}.
