(* ===== verification/Bufq.v ===== *)
(** Buffer queues, lib/bufq.c and bufq.h.

    A [struct bufq] with its chunks.  The linked list [head] is a Rocq list;
    [tail] is its last chunk.  The bytes of a chunk are a checked memory block
    ([Dynbuf.mem_read], [Dynbuf.mem_write]).  The optional pool, which several
    queues can share in C, is a component of the queue that uses it.
    [bufq_rep q b] says that [q] is well formed and holds the bytes [b]. *)

From Stdlib Require Import ZArith Lia List.
From stdpp Require Import base numbers option list.
From S2P Require Import Prelude Dynbuf Interfaces.
Close Scope nat_scope.
Open Scope Z_scope.

(** * Chunks *)

Record buf_chunk := mk_chunk {
  x_data : mem;
  dlen : Z;
  r_offset : Z;
  w_offset : Z
}.

(** [sizeof(struct buf_chunk)] on LP64 *)
Definition sizeof_buf_chunk : Z := 40.

Definition set_offsets (c : buf_chunk) (r w : Z) : buf_chunk :=
  mk_chunk (x_data c) (dlen c) r w.

Definition chunk_is_empty (c : buf_chunk) : bool := r_offset c >=? w_offset c.

Definition chunk_is_full (c : buf_chunk) : bool := w_offset c >=? dlen c.

Definition chunk_len (c : buf_chunk) : Z := u64 (w_offset c - r_offset c).

Definition chunk_reset (c : buf_chunk) : buf_chunk := set_offsets c 0 0.

Definition chunk_append (c : buf_chunk) (buf : list Z) : option (buf_chunk * Z) :=
  let n := u64 (dlen c - w_offset c) in
  if n =? 0 then Some (c, 0)
  else
    let n := Z.min n (zlen buf) in
    m ← mem_write (x_data c) (w_offset c) (ztake n buf);
    Some (mk_chunk m (dlen c) (r_offset c) (w_offset c + n), n).

(** The bytes copied out are returned. *)
Definition chunk_read (c : buf_chunk) (len : Z) : option (buf_chunk * list Z) :=
  let n := u64 (w_offset c - r_offset c) in
  if n =? 0 then Some (c, [])
  else if n <=? len then
    b ← mem_read (x_data c) (r_offset c) n;
    Some (set_offsets c 0 0, b)
  else
    b ← mem_read (x_data c) (r_offset c) len;
    Some (set_offsets c (r_offset c + len) (w_offset c), b).

(** [*pbuf] and [*plen] as the bytes they delimit. *)
Definition chunk_peek (c : buf_chunk) : option (list Z) :=
  mem_read (x_data c) (r_offset c) (u64 (w_offset c - r_offset c)).

Definition chunk_peek_at (c : buf_chunk) (offset : Z) : option (list Z) :=
  let offset := offset + r_offset c in
  mem_read (x_data c) offset (u64 (w_offset c - offset)).

Definition chunk_skip (c : buf_chunk) (amount : Z) : buf_chunk * Z :=
  let n := u64 (w_offset c - r_offset c) in
  if n =? 0 then (c, n)
  else
    let n := Z.min n amount in
    let r := r_offset c + n in
    (if r =? w_offset c then set_offsets c 0 0 else set_offsets c r (w_offset c), n).

(** * Pools *)

Record bufc_pool := mk_pool {
  pool_spare : list buf_chunk;
  pool_chunk_size : Z;
  spare_count : Z;
  spare_max : Z
}.

Definition Curl_bufcp_init (chunk_size spare_max : Z) : bufc_pool :=
  mk_pool [] chunk_size 0 spare_max.

(** The [calloc] of a chunk with [size] data bytes, [dlen] set, after the check for
    overflow. *)
Definition new_chunk (size : Z) (o : allocs) : option buf_chunk * allocs :=
  if size >? SIZE_MAX - sizeof_buf_chunk then (None, o)
  else
    let '(ok, o) := next_alloc o in
    if (ok : bool)
    then (Some (mk_chunk (replicate (Z.to_nat size) (Some 0)) size 0 0), o)
    else (None, o).

Definition bufcp_take (pool : bufc_pool) (o : allocs)
  : option buf_chunk * bufc_pool * allocs :=
  match pool_spare pool with
  | c :: spare =>
      (Some (chunk_reset c),
       mk_pool spare (pool_chunk_size pool) (spare_count pool - 1) (spare_max pool), o)
  | [] =>
      let '(c, o) := new_chunk (pool_chunk_size pool) o in
      (c, pool, o)
  end.

Definition bufcp_put (pool : bufc_pool) (c : buf_chunk) : bufc_pool :=
  if spare_count pool >=? spare_max pool then pool
  else mk_pool (chunk_reset c :: pool_spare pool) (pool_chunk_size pool)
         (spare_count pool + 1) (spare_max pool).

Definition Curl_bufcp_free (pool : bufc_pool) : bufc_pool :=
  mk_pool [] (pool_chunk_size pool) 0 (spare_max pool).

(** * Queues *)

Record bufq := mk_bufq {
  head : list buf_chunk;
  spare : list buf_chunk;
  pool : option bufc_pool;
  chunk_count : Z;
  max_chunks : Z;
  chunk_size : Z;
  soft_limit : bool;   (* opts & BUFQ_OPT_SOFT_LIMIT *)
  no_spares : bool     (* opts & BUFQ_OPT_NO_SPARES *)
}.

Definition set_head (q : bufq) (h : list buf_chunk) : bufq :=
  mk_bufq h (spare q) (pool q) (chunk_count q) (max_chunks q) (chunk_size q)
    (soft_limit q) (no_spares q).

Definition set_spare (q : bufq) (s : list buf_chunk) : bufq :=
  mk_bufq (head q) s (pool q) (chunk_count q) (max_chunks q) (chunk_size q)
    (soft_limit q) (no_spares q).

Definition set_pool (q : bufq) (p : option bufc_pool) : bufq :=
  mk_bufq (head q) (spare q) p (chunk_count q) (max_chunks q) (chunk_size q)
    (soft_limit q) (no_spares q).

Definition set_count (q : bufq) (n : Z) : bufq :=
  mk_bufq (head q) (spare q) (pool q) n (max_chunks q) (chunk_size q)
    (soft_limit q) (no_spares q).

Definition bufq_init (pool : option bufc_pool) (chunk_size max_chunks : Z)
    (soft_limit no_spares : bool) : bufq :=
  mk_bufq [] [] pool 0 max_chunks chunk_size soft_limit no_spares.

Definition Curl_bufq_init2 (chunk_size max_chunks : Z) (soft_limit no_spares : bool) :=
  bufq_init None chunk_size max_chunks soft_limit no_spares.

Definition Curl_bufq_init (chunk_size max_chunks : Z) :=
  bufq_init None chunk_size max_chunks false false.

Definition Curl_bufq_initp (pool : bufc_pool) (max_chunks : Z)
    (soft_limit no_spares : bool) :=
  bufq_init (Some pool) (pool_chunk_size pool) max_chunks soft_limit no_spares.

Definition Curl_bufq_free (q : bufq) : bufq := set_count (set_spare (set_head q []) []) 0.

(** [while(q->head)], each chunk to the front of [spare]. *)
Definition Curl_bufq_reset (q : bufq) : bufq :=
  set_head (set_spare q (fold_left (fun s c => c :: s) (head q) (spare q))) [].

Definition Curl_bufq_len (q : bufq) : Z :=
  fold_left (fun len c => u64 (len + chunk_len c)) (head q) 0.

Definition Curl_bufq_is_empty (q : bufq) : bool :=
  match head q with [] => true | c :: _ => chunk_is_empty c end.

Definition Curl_bufq_is_full (q : bufq) : bool :=
  match last (head q), spare q with
  | None, _ => false
  | _, _ :: _ => false
  | Some tail, [] =>
      if chunk_count q <? max_chunks q then false
      else if chunk_count q >? max_chunks q then true
      else chunk_is_full tail
  end.

Definition get_spare (q : bufq) (o : allocs) : option buf_chunk * bufq * allocs :=
  match spare q with
  | c :: s => (Some (chunk_reset c), set_spare q s, o)
  | [] =>
      if (chunk_count q >=? max_chunks q) && negb (soft_limit q) then (None, q, o)
      else
        match pool q with
        | Some p =>
            let '(c, p, o) := bufcp_take p o in
            match c with
            | None => (None, set_pool q (Some p), o)
            | Some _ => (c, set_count (set_pool q (Some p)) (chunk_count q + 1), o)
            end
        | None =>
            let '(c, o) := new_chunk (chunk_size q) o in
            match c with
            | None => (None, q, o)
            | Some _ => (c, set_count q (chunk_count q + 1), o)
            end
        end
  end.

(** Where a chunk taken off the head goes. *)
Definition release (q : bufq) (c : buf_chunk) : bufq :=
  match pool q with
  | Some p => set_count (set_pool q (Some (bufcp_put p c))) (chunk_count q - 1)
  | None =>
      if (chunk_count q >? max_chunks q) || no_spares q
      then set_count q (chunk_count q - 1)
      else set_spare q (c :: spare q)
  end.

(** [while(q->head && chunk_is_empty(q->head))] *)
Fixpoint prune_list (h : list buf_chunk) (q : bufq) : bufq :=
  match h with
  | [] => set_head q []
  | c :: h' => if chunk_is_empty c then prune_list h' (release q c) else set_head q h
  end.

Definition prune_head (q : bufq) : bufq := prune_list (head q) q.

(** The tail to write to: the last chunk of the new queue when the flag
    says that there is one. *)
Definition get_non_full_tail (q : bufq) (o : allocs) : bool * bufq * allocs :=
  match last (head q) with
  | Some tail =>
      if negb (chunk_is_full tail) then (true, q, o)
      else
        let '(c, q, o) := get_spare q o in
        match c with
        | Some c => (true, set_head q (head q ++ [c]), o)
        | None => (false, q, o)
        end
  | None =>
      let '(c, q, o) := get_spare q o in
      match c with
      | Some c => (true, set_head q (head q ++ [c]), o)
      | None => (false, q, o)
      end
  end.

(** Replaces the chunk [q->tail] points to. *)
Definition set_tail (q : bufq) (c : buf_chunk) : bufq :=
  set_head q (removelast (head q) ++ [c]).

(** The result when no more can be written. *)
Definition write_done (nwritten len : Z) : CURLcode :=
  if (nwritten =? 0) && negb (len =? 0) then CURLE_AGAIN else CURLE_OK.

(** [while(len)]: every round writes a byte, so the length is fuel enough. *)
Fixpoint write_loop (fuel : nat) (q : bufq) (buf : list Z) (nwritten : Z) (o : allocs)
  : option (bufq * CURLcode * Z * allocs) :=
  if zlen buf =? 0 then Some (q, write_done nwritten 0, nwritten, o)
  else
    match fuel with
    | O => None
    | S fuel =>
        let '(ok, q, o) := get_non_full_tail q o in
        if negb ok then
          if (chunk_count q <? max_chunks q) || soft_limit q
          then Some (q, CURLE_OUT_OF_MEMORY, nwritten, o)
          else Some (q, write_done nwritten (zlen buf), nwritten, o)
        else
          tail ← last (head q);
          '(tail, n) ← chunk_append tail buf;
          let q := set_tail q tail in
          if n =? 0 then Some (q, write_done nwritten (zlen buf), nwritten, o)
          else write_loop fuel q (zdrop n buf) (nwritten + n) o
    end.

(** The queue, the result and [*pnwritten]. *)
Definition Curl_bufq_write (q : bufq) (buf : list Z) (o : allocs)
  : option (bufq * CURLcode * Z * allocs) :=
  write_loop (length buf) q buf 0 o.

Definition Curl_bufq_cwrite := Curl_bufq_write.

(** [while(len && q->head)]: a round takes the head chunk off or ends the
    loop. *)
Fixpoint read_loop (fuel : nat) (q : bufq) (len : Z) (out : list Z)
  : option (bufq * list Z) :=
  if len =? 0 then Some (q, out)
  else
    match head q with
    | [] => Some (q, out)
    | c :: h =>
        match fuel with
        | O => None
        | S fuel =>
            '(c, b) ← chunk_read c len;
            let q := prune_head (set_head q (c :: h)) in
            read_loop fuel q (len - zlen b) (out ++ b)
        end
    end.

(** The queue, the result and the bytes read. *)
Definition Curl_bufq_read (q : bufq) (len : Z) : option (bufq * CURLcode * list Z) :=
  '(q, out) ← read_loop (S (length (head q))) q len [];
  Some (q, if zlen out =? 0 then CURLE_AGAIN else CURLE_OK, out).

Definition Curl_bufq_cread := Curl_bufq_read.

(** The bytes at [*pbuf]; none is the return of FALSE. *)
Definition Curl_bufq_peek (q : bufq) : option (bufq * option (list Z)) :=
  let q := match head q with
           | c :: _ => if chunk_is_empty c then prune_head q else q
           | [] => q
           end in
  match head q with
  | c :: _ => if chunk_is_empty c then Some (q, None)
              else b ← chunk_peek c; Some (q, Some b)
  | [] => Some (q, None)
  end.

Fixpoint peek_at_loop (h : list buf_chunk) (offset : Z) : option (option (list Z)) :=
  match h with
  | [] => Some None
  | c :: h =>
      let clen := chunk_len c in
      if clen =? 0 then Some None
      else if offset >=? clen then peek_at_loop h (offset - clen)
      else b ← chunk_peek_at c offset; Some (Some b)
  end.

Definition Curl_bufq_peek_at (q : bufq) (offset : Z) : option (option (list Z)) :=
  peek_at_loop (head q) offset.

(** [while(amount && q->head)] *)
Fixpoint skip_loop (fuel : nat) (q : bufq) (amount : Z) : option bufq :=
  if amount =? 0 then Some q
  else
    match head q with
    | [] => Some q
    | c :: h =>
        match fuel with
        | O => None
        | S fuel =>
            let '(c, n) := chunk_skip c amount in
            skip_loop fuel (prune_head (set_head q (c :: h))) (amount - n)
        end
    end.

Definition Curl_bufq_skip (q : bufq) (amount : Z) : option bufq :=
  skip_loop (S (length (head q))) q amount.

(** ** Operations with callbacks *)

Section callbacks.
Context {C : Type}.
(** A writer takes bytes and says how many it has written. *)
Context (writer : C -> list Z -> C * CURLcode * Z).
(** A reader is given the room and stores the bytes it returns. *)
Context (reader : C -> Z -> C * CURLcode * list Z).

(** [while(Curl_bufq_peek(q, &buf, &blen))] *)
Fixpoint pass_loop (fuel : nat) (q : bufq) (ctx : C) (written : Z)
  : option (bufq * C * CURLcode * Z) :=
  '(q, p) ← Curl_bufq_peek q;
  match p with
  | None => Some (q, ctx, CURLE_OK, written)
  | Some buf =>
      match fuel with
      | O => None
      | S fuel =>
          let '(ctx, result, chunk_written) := writer ctx buf in
          if negb (is_ok result) then
            Some (q, ctx,
                  if code_eqb result CURLE_AGAIN && negb (written =? 0)
                  then CURLE_OK else result, written)
          else if chunk_written =? 0 then
            Some (q, ctx, if written =? 0 then CURLE_AGAIN else CURLE_OK, written)
          else
            q ← Curl_bufq_skip q chunk_written;
            pass_loop fuel q ctx (written + chunk_written)
      end
  end.

Definition Curl_bufq_pass (q : bufq) (ctx : C) : option (bufq * C * CURLcode * Z) :=
  pass_loop (S (Z.to_nat (Curl_bufq_len q))) q ctx 0.

(** [while(len)] *)
Fixpoint write_pass_loop (fuel : nat) (q : bufq) (buf : list Z) (ctx : C) (written : Z)
    (o : allocs) : option (bufq * C * CURLcode * Z * allocs) :=
  let done q ctx o buf := Some (q, ctx, write_done written (zlen buf), written, o) in
  if zlen buf =? 0 then done q ctx o []
  else
    match fuel with
    | O => None
    | S fuel =>
        '(q, ctx, result) ← (if Curl_bufq_is_full q
                             then '(q, ctx, result, _) ← Curl_bufq_pass q ctx;
                                  Some (q, ctx, result)
                             else Some (q, ctx, CURLE_OK));
        if negb (is_ok result) then
          if negb (code_eqb result CURLE_AGAIN) then Some (q, ctx, result, written, o)
          else done q ctx o buf
        else
          '(q, result, n, o) ← Curl_bufq_write q buf o;
          if negb (is_ok result) then
            if negb (code_eqb result CURLE_AGAIN) then Some (q, ctx, result, written, o)
            else Some (q, ctx, if written =? 0 then result else CURLE_OK, written, o)
          else if n =? 0 then done q ctx o buf
          else write_pass_loop fuel q (zdrop n buf) ctx (written + n) o
    end.

Definition Curl_bufq_write_pass (q : bufq) (buf : list Z) (ctx : C) (o : allocs) :=
  write_pass_loop (length buf) q buf ctx 0 o.

(** The chunk, the context, the result and the number of bytes read. *)
Definition chunk_slurpn (c : buf_chunk) (max_len : Z) (ctx : C)
  : option (buf_chunk * C * CURLcode * Z) :=
  let n := u64 (dlen c - w_offset c) in
  if n =? 0 then Some (c, ctx, CURLE_AGAIN, 0)
  else
    let n := if negb (max_len =? 0) && (n >? max_len) then max_len else n in
    let '(ctx, result, bytes) := reader ctx n in
    if negb (is_ok result) then Some (c, ctx, result, zlen bytes)
    else
      m ← mem_write (x_data c) (w_offset c) bytes;
      Some (mk_chunk m (dlen c) (r_offset c) (w_offset c + zlen bytes), ctx, result,
            zlen bytes).

Definition Curl_bufq_sipn (q : bufq) (max_len : Z) (ctx : C) (o : allocs)
  : option (bufq * C * CURLcode * Z * allocs) :=
  let '(ok, q, o) := get_non_full_tail q o in
  if negb ok then
    Some (q, ctx, if chunk_count q <? max_chunks q then CURLE_OUT_OF_MEMORY
                  else CURLE_AGAIN, 0, o)
  else
    tail ← last (head q);
    '(tail, ctx, result, n) ← chunk_slurpn tail max_len ctx;
    Some (set_tail q tail, ctx, result, n, o).

(** [while(1)]; a queue with a soft limit reads as long as the reader fills
    its chunks, so the rounds are a parameter. *)
Fixpoint bufq_slurpn (fuel : nat) (q : bufq) (max_len : Z) (ctx : C) (nread : Z)
    (o : allocs) : option (bufq * C * CURLcode * Z * allocs) :=
  match fuel with
  | O => None
  | S fuel =>
      '(q, ctx, result, n, o) ← Curl_bufq_sipn q max_len ctx o;
      if negb (is_ok result) then
        if (nread =? 0) || negb (code_eqb result CURLE_AGAIN)
        then Some (q, ctx, result, nread, o)
        else Some (q, ctx, CURLE_OK, nread, o)
      else if n =? 0 then Some (q, ctx, CURLE_OK, nread, o)
      else
        let nread := nread + n in
        let max_len' := if max_len =? 0 then 0 else max_len - n in
        if negb (max_len =? 0) && (max_len' =? 0) then Some (q, ctx, CURLE_OK, nread, o)
        else
          match last (head q) with
          | Some tail =>
              if negb (chunk_is_full tail) then Some (q, ctx, CURLE_OK, nread, o)
              else bufq_slurpn fuel q max_len' ctx nread o
          | None => bufq_slurpn fuel q max_len' ctx nread o
          end
  end.

Definition Curl_bufq_slurp (fuel : nat) (q : bufq) (ctx : C) (o : allocs) :=
  bufq_slurpn fuel q 0 ctx 0 o.
End callbacks.

(** * What a queue holds *)

(** A chunk of [sz] bytes that holds [b] between its offsets. *)
Definition chunk_rep (sz : Z) (c : buf_chunk) (b : list Z) : Prop :=
  dlen c = sz /\ 0 <= r_offset c /\ w_offset c = r_offset c + zlen b /\
  (b = [] -> r_offset c = 0) /\
  exists p s, x_data c = p ++ map Some b ++ s /\ zlen p = r_offset c /\
    zlen p + zlen b + zlen s = sz.

(** A chunk without contents: its block has its size. *)
Definition raw_ok (sz : Z) (c : buf_chunk) : Prop := dlen c = sz /\ zlen (x_data c) = sz.

Definition full (c : buf_chunk) : Prop := w_offset c = dlen c.

Definition pool_ok (sz : Z) (p : option bufc_pool) : Prop :=
  match p with
  | None => True
  | Some p => pool_chunk_size p = sz /\ Forall (raw_ok sz) (pool_spare p)
  end.

(** The parts of a queue beside its [n] chunks in use. *)
Definition side_ok (q : bufq) (n : Z) : Prop :=
  0 < chunk_size q <= SIZE_MAX - sizeof_buf_chunk /\ 0 < max_chunks q /\
  Forall (raw_ok (chunk_size q)) (spare q) /\ pool_ok (chunk_size q) (pool q) /\
  chunk_count q = n + zlen (spare q) /\
  (soft_limit q = false -> chunk_count q <= max_chunks q).

Definition bufq_rep (q : bufq) (b : list Z) : Prop :=
  side_ok q (zlen (head q)) /\
  exists bs, Forall2 (chunk_rep (chunk_size q)) (head q) bs /\ b = concat bs /\
    Forall full (removelast (head q)).

(** The settings, which no operation changes. *)
Definition same_params (q q' : bufq) : Prop :=
  chunk_size q' = chunk_size q /\ max_chunks q' = max_chunks q /\
  soft_limit q' = soft_limit q /\ no_spares q' = no_spares q.

#[global] Instance same_params_refl : Reflexive same_params.
Proof. done. Qed.

#[global] Instance same_params_trans : Transitive same_params.
Proof. intros q1 q2 q3 (? & ? & ? & ?) (? & ? & ? & ?). split_and!; congruence. Qed.

(** The bytes a queue with a hard limit can still take. *)
Definition space (q : bufq) : Z :=
  match last (head q) with
  | None => 0
  | Some c => dlen c - w_offset c
  end + (max_chunks q - zlen (head q)) * chunk_size q.

(** * Chunks *)

Lemma rep_raw sz c b : chunk_rep sz c b -> raw_ok sz c.
Proof.
  intros (Hd & _ & _ & _ & p & s & Hm & Hp & Hl). split; [done|]. rewrite Hm. zlia.
Qed.

Lemma reset_rep sz c : raw_ok sz c -> chunk_rep sz (chunk_reset c) [].
Proof.
  intros [Hd Hl]. unfold chunk_rep, chunk_reset, set_offsets. cbn.
  split_and!; try done. exists [], (x_data c). split_and!; try done.
Qed.

Lemma rep_bounds sz c b : chunk_rep sz c b ->
  0 <= r_offset c <= w_offset c /\ w_offset c <= sz /\ w_offset c - r_offset c = zlen b.
Proof. intros (Hd & Hr & Hw & _ & p & s & _ & Hp & Hl). zlia. Qed.

Lemma rep_len sz c b : sz <= SIZE_MAX -> chunk_rep sz c b ->
  u64 (w_offset c - r_offset c) = zlen b.
Proof.
  intros Hs Hc. destruct (rep_bounds _ _ _ Hc) as (? & ? & Hl). rewrite u64_small by lia. done.
Qed.

Lemma rep_empty sz c b : chunk_rep sz c b -> chunk_is_empty c = bool_decide (b = []).
Proof.
  intros Hc. destruct (rep_bounds _ _ _ Hc) as (? & ? & Hl). unfold chunk_is_empty.
  rewrite Z.geb_leb. case_bool_decide as Hb.
  - subst b. change (zlen []) with 0 in Hl. apply Z.leb_le. lia.
  - apply Z.leb_gt. destruct b; [done|]. zlia.
Qed.

(** An empty chunk is not full. *)
Lemma rep_full_nonempty sz c b : 0 < sz -> chunk_rep sz c b -> full c -> b <> [].
Proof.
  intros Hs (Hd & _ & Hw & Hb & _) Hf ->. unfold full in Hf. specialize (Hb eq_refl).
  change (zlen []) with 0 in Hw. lia.
Qed.

Lemma rep_is_full sz c b : chunk_rep sz c b -> chunk_is_full c = true <-> full c.
Proof.
  intros Hc. pose proof (rep_bounds _ _ _ Hc) as (_ & Hw & _). destruct Hc as (Hd & _).
  unfold chunk_is_full, full. rewrite Z.geb_leb, Z.leb_le. lia.
Qed.

Lemma new_chunk_rep sz o : 0 < sz <= SIZE_MAX - sizeof_buf_chunk ->
  match new_chunk sz o with
  | (Some c, _) => chunk_rep sz c []
  | (None, _) => o <> []
  end.
Proof.
  intros Hs. unfold new_chunk. rewrite Z.gtb_ltb.
  replace (_ <? sz) with false by (symmetry; apply Z.ltb_ge; lia).
  destruct o as [|[] o]; cbn [next_alloc]; [| |done];
    (split_and!; try done; exists [], (replicate (Z.to_nat sz) (Some 0));
     split_and!; try done; rewrite zlen_replicate by lia; zlia).
Qed.

Lemma chunk_append_rep sz c b buf : sz <= SIZE_MAX -> chunk_rep sz c b ->
  let n := Z.min (sz - w_offset c) (zlen buf) in
  exists c', chunk_append c buf = Some (c', n) /\ chunk_rep sz c' (b ++ ztake n buf) /\
    w_offset c' = w_offset c + n.
Proof.
  intros Hs Hc n. pose proof (rep_bounds _ _ _ Hc) as (Hr & Hw & Hl).
  pose proof Hc as (Hd & _ & Hw' & Hb & p & s & Hm & Hp & Hsz).
  unfold chunk_append. rewrite Hd, u64_small by lia. pose proof (zlen_nonneg buf).
  case_if.
  { exists c. subst n. rewrite E, Z.min_l, ztake_0, app_nil_r by lia. split_and!; try done. lia. }
  fold n. assert (Hn : 0 <= n <= zlen s) by (zlen_pos; subst n; lia).
  destruct (list_split_at s n) as (old & s' & -> & Ho); [lia|].
  assert (Hzt : zlen (ztake n buf) = n) by (rewrite zlen_ztake by lia; lia).
  rewrite (mem_write_app _ (p ++ map Some b) old s' _ _ (p ++ map Some (b ++ ztake n buf)));
    [|by rewrite Hm, <- app_assoc|zlia|lia|by rewrite map_app, app_assoc].
  cbn [mbind option_bind]. eexists. split; [done|]. split; [|done].
  unfold chunk_rep. cbn. split_and!; try done.
  - zlia.
  - zlia.
  - intros Hnil. apply app_eq_nil in Hnil as [-> _]. by apply Hb.
  - exists p, s'. rewrite <- app_assoc. split_and!; try done. zlia.
Qed.

Lemma chunk_read_rep sz c b len : sz <= SIZE_MAX -> chunk_rep sz c b -> 0 < len ->
  exists c', chunk_read c len = Some (c', ztake len b) /\ chunk_rep sz c' (zdrop len b) /\
    (zdrop len b = [] \/ w_offset c' = w_offset c).
Proof.
  intros Hs Hc Hlen. pose proof Hc as (Hd & Hr0 & Hw & Hb & p & s & Hm & Hp & Hsz).
  unfold chunk_read. rewrite (rep_len _ _ _ Hs Hc). case_if.
  { apply zlen_0 in E as ->. exists c. unfold ztake, zdrop. rewrite take_nil, drop_nil.
    split_and!; try done. by left. }
  case_if.
  - rewrite Hm, <- Hp, (mem_read_mid p s b). cbn [mbind option_bind].
    rewrite ztake_ge, zdrop_ge by lia. eexists. split; [done|]. split; [|by left].
    apply reset_rep. by eapply rep_raw.
  - destruct (list_split_at b len) as (b1 & b2 & -> & Hb1); [zlen_pos; lia|].
    rewrite map_app, <- app_assoc in Hm.
    rewrite Hm, <- Hp, <- Hb1, (mem_read_mid p (map Some b2 ++ s) b1). cbn [mbind option_bind].
    rewrite ztake_app_exact, zdrop_app_exact. eexists. split; [done|]. split; [|by right].
    unfold chunk_rep. cbn. split_and!; try done; try zlia.
    + intros ->. zlia.
    + exists (p ++ map Some b1), s. rewrite <- app_assoc. split_and!; try done; zlia.
Qed.

Lemma chunk_skip_rep sz c b amount : sz <= SIZE_MAX -> chunk_rep sz c b -> 0 < amount ->
  let '(c', n) := chunk_skip c amount in
  n = Z.min amount (zlen b) /\ chunk_rep sz c' (zdrop amount b) /\
  (zdrop amount b = [] \/ w_offset c' = w_offset c).
Proof.
  intros Hs Hc Ha. pose proof Hc as (Hd & Hr0 & Hw & Hb & p & s & Hm & Hp & Hsz).
  unfold chunk_skip. rewrite (rep_len _ _ _ Hs Hc). pose proof (zlen_nonneg b). case_if.
  { apply zlen_0 in E as ->. unfold zdrop. rewrite drop_nil. split; [zlia|]. split; [done|].
    by left. }
  split; [lia|]. case_if.
  - assert (Hz : zdrop amount b = []) by (apply zdrop_ge; lia). rewrite Hz.
    split; [|by left]. apply reset_rep. by eapply rep_raw.
  - destruct (list_split_at b amount) as (b1 & b2 & -> & Hb1); [lia|].
    rewrite <- Hb1, zdrop_app_exact. split; [|by right]. unfold chunk_rep. cbn.
    rewrite Z.min_r by zlia.
    split_and!; try done; try zlia.
    + intros ->. zlia.
    + exists (p ++ map Some b1), s. rewrite Hm, map_app, <- !app_assoc.
      split_and!; try done; zlia.
Qed.

Lemma chunk_peek_rep sz c b : sz <= SIZE_MAX -> chunk_rep sz c b -> chunk_peek c = Some b.
Proof.
  intros Hs Hc. pose proof Hc as (Hd & Hr0 & Hw & Hb & p & s & Hm & Hp & Hsz).
  unfold chunk_peek. by rewrite (rep_len _ _ _ Hs Hc), Hm, <- Hp, (mem_read_mid p s b).
Qed.

Lemma chunk_peek_at_rep sz c b off : sz <= SIZE_MAX -> chunk_rep sz c b ->
  0 <= off <= zlen b -> chunk_peek_at c off = Some (zdrop off b).
Proof.
  intros Hs Hc Hoff. pose proof Hc as (Hd & Hr0 & Hw & Hb & p & s & Hm & Hp & Hsz).
  pose proof (rep_bounds _ _ _ Hc) as (? & ? & ?).
  destruct (list_split_at b off) as (b1 & b2 & -> & Hb1); [lia|].
  unfold chunk_peek_at. rewrite u64_small by lia.
  replace (w_offset c - (off + r_offset c)) with (zlen b2) by zlia.
  rewrite <- Hb1, zdrop_app_exact, Hm, <- Hp, map_app, <- app_assoc, app_assoc.
  replace (zlen b1 + zlen p) with (zlen (p ++ map Some b1)) by zlia. apply mem_read_mid.
Qed.

(** * The list of chunks *)

Lemma removelast_snoc {A} (l : list A) x : removelast (l ++ [x]) = l.
Proof. by rewrite removelast_last. Qed.

Lemma last_snoc_inv {A} (l : list A) x : last l = Some x -> l = removelast l ++ [x].
Proof.
  intros H. destruct (decide (l = [])) as [->|Hne]; [done|].
  rewrite (app_removelast_last x Hne) at 1. f_equal. f_equal.
  destruct l as [|y l] using rev_ind; [done|]. rewrite last_snoc in H. injection H as ->.
  apply List.last_last.
Qed.

Lemma removelast_cons_full {A} (P : A -> Prop) x (l : list A) :
  Forall P (removelast (x :: l)) <-> (l <> [] -> P x) /\ Forall P (removelast l).
Proof.
  destruct l as [|y l]; cbn; [split; [by split|constructor]|].
  rewrite Forall_cons. split; [intros [? ?]; split; [by intros|done]|].
  intros [H ?]. split; [by apply H|done].
Qed.

(** The contents of a chunk list whose first chunk may have been emptied. *)
Definition drained (sz : Z) (h : list buf_chunk) (bs : list (list Z)) : Prop :=
  Forall2 (chunk_rep sz) h bs /\
  match h, bs with
  | c :: h', b :: _ => (b = [] \/ (h' <> [] -> full c)) /\ Forall full (removelast h')
  | _, _ => True
  end.

Lemma release_ok q c n : side_ok q (n + 1) -> raw_ok (chunk_size q) c ->
  side_ok (release q c) n /\ same_params q (release q c) /\ head (release q c) = head q.
Proof.
  intros (Hs & Hm & Hsp & Hp & Hc & Hl) Hraw. unfold release.
  destruct (pool q) as [p|] eqn:Ep; [|case_if].
  - split; [|by split]. unfold side_ok. cbn. split_and!; try done; try lia.
    + cbn in Hp. destruct Hp as [Hps Hpf]. unfold bufcp_put. by case_if.
    + cbn in Hp. destruct Hp as [Hps Hpf]. unfold bufcp_put. case_if; [done|].
      cbn. apply Forall_cons. split; [|done]. destruct Hraw as [? ?]. by split.
    + intros Hsoft. specialize (Hl Hsoft). lia.
  - split; [|by split]. unfold side_ok. cbn. rewrite Ep. split_and!; try done; try lia.
    intros Hsoft. specialize (Hl Hsoft). lia.
  - split; [|by split]. unfold side_ok. cbn. rewrite Ep. split_and!; try done; try lia.
    + by apply Forall_cons.
    + zlia.
Qed.

Lemma prune_list_ok h : forall q bs,
  side_ok q (zlen h) -> drained (chunk_size q) h bs ->
  bufq_rep (prune_list h q) (concat bs) /\ same_params q (prune_list h q) /\
  (length (head (prune_list h q)) <= length h)%nat /\
  match head (prune_list h q) with [] => True | c :: _ => chunk_is_empty c = false end.
Proof.
  induction h as [|c h IH]; intros q bs Hside [Hf Hd]; cbn [prune_list].
  { apply Forall2_nil_inv_l in Hf as ->. split; [|done]. split; [done|]. exists []. done. }
  apply Forall2_cons_inv_l in Hf as (b & bs' & Hc & Hf & ->). destruct Hd as [Hd Hrest].
  rewrite (rep_empty _ _ _ Hc). case_bool_decide as Hb.
  - subst b. replace (zlen (c :: h)) with (zlen h + 1) in Hside by zlia.
    destruct (release_ok q c (zlen h) Hside (rep_raw _ _ _ Hc)) as (Hside' & Hsame & Hh).
    assert (Hsz : chunk_size (release q c) = chunk_size q) by apply Hsame.
    destruct (IH (release q c) bs' Hside') as (Hrep & Hsame' & Hlen & Hne).
    { rewrite Hsz. split; [done|]. destruct h as [|c2 h], bs' as [|b2 bs']; try done.
      apply removelast_cons_full in Hrest as [? ?]. split; [by right|done]. }
    cbn [concat app]. split; [done|]. split; [by transitivity (release q c)|].
    split; [cbn; lia|done].
  - split; [|split; [done|split; [done|]]].
    + split; [done|]. exists (b :: bs'). split; [by constructor|]. split; [done|].
      cbn [head set_head]. apply removelast_cons_full. split; [|done].
      destruct Hd as [->|?]; done.
    + cbn [head set_head]. rewrite (rep_empty _ _ _ Hc). by case_bool_decide.
Qed.

Lemma side_ok_set_head q h n : side_ok q n -> side_ok (set_head q h) n.
Proof. done. Qed.

(** The first chunk replaced by what a read or a skip has left of it. *)
Lemma prune_first q c c' h b b' bs sz :
  bufq_rep q (concat (b :: bs)) -> head q = c :: h -> sz = chunk_size q ->
  Forall2 (chunk_rep sz) (c :: h) (b :: bs) ->
  chunk_rep sz c' b' -> (b' = [] \/ w_offset c' = w_offset c) ->
  let q' := prune_head (set_head q (c' :: h)) in
  bufq_rep q' (b' ++ concat bs) /\ same_params q q' /\
  (length (head q') <= length (c' :: h))%nat /\
  (b' = [] -> (length (head q') <= length h)%nat).
Proof.
  intros [Hside (bs0 & Hf0 & _ & Hfull)] Hh -> Hf Hc' Hb'. unfold prune_head.
  cbn [head set_head]. rewrite Hh in Hside, Hfull.
  apply removelast_cons_full in Hfull as [Hfc Hfull].
  apply Forall2_cons in Hf as [Hc Hf].
  assert (Hdr : drained (chunk_size q) (c' :: h) (b' :: bs)).
  { split; [by constructor|]. split; [|done]. destruct Hb' as [->|Hw]; [by left|]. right.
    intros Hne. specialize (Hfc Hne). unfold full in *. destruct Hc as [Hdc _], Hc' as [Hdc' _].
    congruence. }
  destruct (prune_list_ok (c' :: h) (set_head q (c' :: h)) (b' :: bs) Hside Hdr)
    as (Hrep & Hsame & Hlen & _).
  split; [exact Hrep|]. split; [exact Hsame|]. split; [exact Hlen|].
  intros ->. cbn [prune_list] in *. rewrite (rep_empty _ _ _ Hc') in *.
  change (bool_decide ([] = [])) with true in *. cbv iota in *.
  assert (Hside2 : side_ok (set_head q (c' :: h)) (zlen h + 1)).
  { replace (zlen h + 1) with (zlen (c :: h)) by zlia. exact Hside. }
  destruct (release_ok (set_head q (c' :: h)) c' (zlen h) Hside2 (rep_raw _ _ _ Hc'))
    as (Hside' & Hsame' & Hhd).
  destruct (prune_list_ok h (release (set_head q (c' :: h)) c') bs Hside')
    as (_ & _ & Hl & _); [|done].
  replace (chunk_size (release (set_head q (c' :: h)) c')) with (chunk_size q)
    by (symmetry; apply Hsame').
  split; [done|]. destruct h as [|c2 h], bs as [|b2 bs]; try done.
  apply removelast_cons_full in Hfull as [? ?]. split; [by right|done].
Qed.

Lemma rep_sz q b : bufq_rep q b -> chunk_size q <= SIZE_MAX.
Proof. intros [(Hs & _) _]. unfold sizeof_buf_chunk in Hs. lia. Qed.

(** * Reading and skipping *)

Lemma read_loop_spec fuel : forall q b len out,
  bufq_rep q b -> 0 <= len -> (length (head q) < fuel)%nat ->
  exists q', read_loop fuel q len out = Some (q', out ++ ztake len b) /\
    bufq_rep q' (zdrop len b) /\ same_params q q'.
Proof.
  induction fuel as [|fuel IH]; intros q b len out Hrep Hlen Hf; [lia|].
  cbn [read_loop]. case_if.
  { subst len. rewrite ztake_0, zdrop_0, app_nil_r. by exists q. }
  pose proof (rep_sz _ _ Hrep) as Hsz.
  pose proof Hrep as [Hside (bs & Hfa & -> & Hfull)].
  destruct (head q) as [|c h] eqn:Hh.
  { apply Forall2_nil_inv_l in Hfa as ->. unfold ztake, zdrop. cbn [concat].
    rewrite take_nil, drop_nil, app_nil_r. by exists q. }
  pose proof Hfa as Hfa'. apply Forall2_cons_inv_l in Hfa' as (b & bs' & Hc & Hf2 & ->).
  destruct (chunk_read_rep _ c b len Hsz Hc) as (c' & -> & Hc' & Hw); [lia|].
  cbn [mbind option_bind].
  destruct (prune_first q c c' h b (zdrop len b) bs' _ Hrep Hh eq_refl Hfa Hc' Hw)
    as (Hrep' & Hsame & Hl1 & Hl2).
  set (q1 := prune_head (set_head q (c' :: h))) in *. cbn [concat].
  destruct (decide (zdrop len b = [])) as [Hz|Hz].
  - rewrite Hz in Hrep'. cbn [app] in Hrep'.
    assert (Hle : zlen b <= len).
    { apply (f_equal zlen) in Hz. rewrite zlen_zdrop in Hz by lia.
      change (zlen []) with 0 in Hz. lia. }
    rewrite ztake_ge by lia. cbn [length] in Hf.
    destruct (IH q1 (concat bs') (len - zlen b) (out ++ b) Hrep') as (q2 & Hr & Hrep2 & Hs2);
      [lia|specialize (Hl2 Hz); lia|].
    exists q2. rewrite Hr. rewrite <- app_assoc.
    assert (Ht : ztake len (b ++ concat bs') = b ++ ztake (len - zlen b) (concat bs')).
    { unfold ztake, zlen in *. rewrite take_app_ge by lia. do 2 f_equal. lia. }
    assert (Hd : zdrop len (b ++ concat bs') = zdrop (len - zlen b) (concat bs')).
    { unfold zdrop, zlen in *. rewrite drop_app_ge by lia. f_equal. lia. }
    rewrite Ht, Hd. split; [done|]. split; [done|]. by transitivity q1.
  - assert (Hlt : len < zlen b).
    { destruct (Z.lt_ge_cases len (zlen b)); [done|]. by rewrite zdrop_ge in Hz by lia. }
    rewrite zlen_ztake, Z.min_l, Z.sub_diag by lia.
    assert (Ht : ztake len (b ++ concat bs') = ztake len b).
    { unfold ztake, zlen in *. apply take_app_le. lia. }
    assert (Hd : zdrop len (b ++ concat bs') = zdrop len b ++ concat bs').
    { unfold zdrop, zlen in *. apply drop_app_le. lia. }
    rewrite Ht, Hd. exists q1. destruct fuel; cbn [read_loop]; done.
Qed.

Lemma bufq_read_spec q b len : bufq_rep q b -> 0 <= len ->
  exists q', Curl_bufq_read q len =
    Some (q', if zlen (ztake len b) =? 0 then CURLE_AGAIN else CURLE_OK, ztake len b) /\
    bufq_rep q' (zdrop len b) /\ same_params q q'.
Proof.
  intros Hrep Hlen. unfold Curl_bufq_read.
  destruct (read_loop_spec (S (length (head q))) q b len [] Hrep Hlen) as (q' & -> & Hr & Hs);
    [lia|]. by exists q'.
Qed.

Lemma skip_loop_spec fuel : forall q b amount,
  bufq_rep q b -> 0 <= amount -> (length (head q) < fuel)%nat ->
  exists q', skip_loop fuel q amount = Some q' /\ bufq_rep q' (zdrop amount b) /\
    same_params q q'.
Proof.
  induction fuel as [|fuel IH]; intros q b amount Hrep Ha Hf; [lia|].
  cbn [skip_loop]. case_if.
  { subst amount. rewrite zdrop_0. by exists q. }
  pose proof (rep_sz _ _ Hrep) as Hsz.
  pose proof Hrep as [Hside (bs & Hfa & -> & Hfull)].
  destruct (head q) as [|c h] eqn:Hh.
  { apply Forall2_nil_inv_l in Hfa as ->. unfold zdrop. cbn [concat].
    rewrite drop_nil. by exists q. }
  pose proof Hfa as Hfa'. apply Forall2_cons_inv_l in Hfa' as (b & bs' & Hc & Hf2 & ->).
  pose proof (chunk_skip_rep _ c b amount Hsz Hc) as Hsk.
  destruct (chunk_skip c amount) as [c' n]. destruct Hsk as (-> & Hc' & Hw); [lia|].
  destruct (prune_first q c c' h b (zdrop amount b) bs' _ Hrep Hh eq_refl Hfa Hc' Hw)
    as (Hrep' & Hsame & Hl1 & Hl2).
  set (q1 := prune_head (set_head q (c' :: h))) in *. cbn [concat].
  destruct (decide (zdrop amount b = [])) as [Hz|Hz].
  - rewrite Hz in Hrep'. cbn [app] in Hrep'.
    assert (Hle : zlen b <= amount).
    { apply (f_equal zlen) in Hz. rewrite zlen_zdrop in Hz by lia.
      change (zlen []) with 0 in Hz. lia. }
    rewrite Z.min_r by lia. cbn [length] in Hf.
    destruct (IH q1 (concat bs') (amount - zlen b) Hrep') as (q2 & Hr & Hrep2 & Hs2);
      [lia|specialize (Hl2 Hz); lia|].
    exists q2. rewrite Hr.
    assert (Hd : zdrop amount (b ++ concat bs') = zdrop (amount - zlen b) (concat bs')).
    { unfold zdrop, zlen in *. rewrite drop_app_ge by lia. f_equal. lia. }
    rewrite Hd. split; [done|]. split; [done|]. by transitivity q1.
  - assert (Hlt : amount < zlen b).
    { destruct (Z.lt_ge_cases amount (zlen b)); [done|]. by rewrite zdrop_ge in Hz by lia. }
    rewrite Z.min_l, Z.sub_diag by lia.
    assert (Hd : zdrop amount (b ++ concat bs') = zdrop amount b ++ concat bs').
    { unfold zdrop, zlen in *. apply drop_app_le. lia. }
    rewrite Hd. exists q1. destruct fuel; cbn [skip_loop]; done.
Qed.

Lemma bufq_skip_spec q b amount : bufq_rep q b -> 0 <= amount ->
  exists q', Curl_bufq_skip q amount = Some q' /\ bufq_rep q' (zdrop amount b) /\
    same_params q q'.
Proof. intros Hrep Ha. apply skip_loop_spec; [done..|lia]. Qed.

(** * Writing *)

(** What [get_spare] hands out, and when it cannot. *)
Lemma get_spare_spec q n o : side_ok q n -> 0 <= n ->
  match get_spare q o with
  | (Some c, q', o') =>
      chunk_rep (chunk_size q) c [] /\ side_ok q' (n + 1) /\ same_params q q' /\
      head q' = head q /\ (soft_limit q = false -> n < max_chunks q) /\
      (o = [] -> o' = [])
  | (None, q', o') =>
      side_ok q' n /\ same_params q q' /\ head q' = head q /\ (o = [] -> o' = []) /\
      chunk_count q' = n /\
      (soft_limit q = false /\ n = max_chunks q /\ q' = q \/
       o <> [] /\ ((chunk_count q' <? max_chunks q') || soft_limit q' = true))
  end.
Proof.
  intros Hside Hn. pose proof Hside as (Hs & Hm & Hsp & Hp & Hc & Hl). unfold get_spare.
  destruct (spare q) as [|c s] eqn:Es.
  2: { apply Forall_cons in Hsp as [Hraw Hsp]. split; [by apply reset_rep|].
       split; [|split; [done|split; [done|split; [|done]]]].
       - unfold side_ok. cbn. split_and!; try done; zlia.
       - intros Hsoft. specialize (Hl Hsoft). rewrite Hc in Hl. zlia. }
  change (zlen []) with 0 in Hc. rewrite Z.add_0_r in Hc.
  destruct ((chunk_count q >=? max_chunks q) && negb (soft_limit q)) eqn:Elim.
  { zb_hyps. split_and!; try done. left.
    split_and!; [done| |done]. specialize (Hl ltac:(done)). lia. }
  assert (Hroom : soft_limit q = false -> n < max_chunks q).
  { intros Hsoft. rewrite Hsoft, andb_true_r in Elim. zb_hyps. lia. }
  assert (Hmore : (chunk_count q <? max_chunks q) || soft_limit q = true).
  { destruct (soft_limit q); [by rewrite orb_true_r|]. rewrite orb_false_r.
    apply Z.ltb_lt. rewrite Hc. by apply Hroom. }
  assert (Hnew : forall sz o, 0 < sz <= SIZE_MAX - sizeof_buf_chunk ->
    o = [] -> (new_chunk sz o).2 = []).
  { intros sz o0 Hsz ->. unfold new_chunk. by destruct (_ >? _). }
  destruct (pool q) as [p|] eqn:Ep.
  - cbn in Hp. destruct Hp as [Hps Hpf]. unfold bufcp_take.
    destruct (pool_spare p) as [|c s] eqn:Eps.
    + rewrite Hps. pose proof (new_chunk_rep (chunk_size q) o Hs) as Hnc.
      pose proof (Hnew (chunk_size q) o Hs) as Ho.
      destruct (new_chunk _ o) as [[c|] o'] eqn:En.
      * split; [done|]. split; [|split; [done|split; [done|split; [done|exact Ho]]]].
        unfold side_ok. cbn. rewrite Es. split_and!; try done; try (rewrite Eps; done); try zlia.
        intros Hsoft. specialize (Hroom Hsoft). lia.
      * split; [|split; [done|split; [done|split; [exact Ho|split; [done|]]]]].
        -- unfold side_ok. cbn. rewrite Es. split_and!; try done; try (rewrite Eps; done); zlia.
        -- right. by split.
    + apply Forall_cons in Hpf as [Hraw Hpf]. split; [by apply reset_rep|].
      split; [|split; [done|split; [done|split; [done|done]]]].
      unfold side_ok. cbn. rewrite Es. split_and!; try done; try zlia.
      intros Hsoft. specialize (Hroom Hsoft). lia.
  - pose proof (new_chunk_rep (chunk_size q) o Hs) as Hnc.
    pose proof (Hnew (chunk_size q) o Hs) as Ho.
    destruct (new_chunk _ o) as [[c|] o'] eqn:En.
    + split; [done|]. split; [|split; [done|split; [done|split; [done|exact Ho]]]].
      unfold side_ok. cbn. rewrite Es, Ep. split_and!; try done; try zlia.
      intros Hsoft. specialize (Hroom Hsoft). lia.
    + split; [done|]. split; [done|split; [done|split; [exact Ho|split; [done|]]]].
      right. by split.
Qed.

(** A queue whose last chunk has room. *)
Definition open_tail (q : bufq) (b : list Z) (hs : list buf_chunk) (c : buf_chunk)
    (bs : list (list Z)) (bt : list Z) : Prop :=
  head q = hs ++ [c] /\ Forall2 (chunk_rep (chunk_size q)) hs bs /\
  chunk_rep (chunk_size q) c bt /\ Forall full hs /\ b = concat bs ++ bt /\
  side_ok q (zlen hs + 1) /\ w_offset c < chunk_size q.

Lemma open_tail_rep q b hs c bs bt : open_tail q b hs c bs bt -> bufq_rep q b.
Proof.
  intros (Hh & Hf & Hc & Hfull & -> & Hside & _). split.
  - rewrite Hh. by replace (zlen (hs ++ [c])) with (zlen hs + 1) by zlia.
  - exists (bs ++ [bt]). rewrite Hh, removelast_snoc, concat_app. cbn. rewrite app_nil_r.
    split; [|by split]. apply Forall2_app; [done|by constructor].
Qed.

(** Splits a non-empty queue at its last chunk. *)
Lemma rep_last q b c : bufq_rep q b -> last (head q) = Some c ->
  exists hs bs bt, head q = hs ++ [c] /\ Forall2 (chunk_rep (chunk_size q)) hs bs /\
    chunk_rep (chunk_size q) c bt /\ Forall full hs /\ b = concat bs ++ bt /\
    side_ok q (zlen hs + 1).
Proof.
  intros [Hside (bs & Hf & -> & Hfull)] Hl. apply last_snoc_inv in Hl as Hh.
  rewrite Hh in Hf, Hside. apply Forall2_app_inv_l in Hf as (bs1 & bs2 & Hf1 & Hf2 & ->).
  apply Forall2_cons_inv_l in Hf2 as (bt & bs3 & Hc & Hf3 & ->).
  apply Forall2_nil_inv_l in Hf3 as ->.
  exists (removelast (head q)), bs1, bt. split_and!; try done.
  - rewrite concat_app. cbn. by rewrite app_nil_r.
  - by replace (zlen (removelast (head q)) + 1) with (zlen (removelast (head q) ++ [c])) by zlia.
Qed.

Lemma set_head_head q h h' : set_head (set_head q h) h' = set_head q h'.
Proof. done. Qed.

Lemma space_snoc q hs c : head q = hs ++ [c] ->
  space q = dlen c - w_offset c + (max_chunks q - zlen hs - 1) * chunk_size q.
Proof.
  intros Hh. unfold space. rewrite Hh, last_snoc.
  replace (zlen (hs ++ [c])) with (zlen hs + 1) by zlia. lia.
Qed.

(** A new chunk at the end. *)
Lemma add_chunk_ok q q' b c hs bs :
  side_ok q' (zlen hs + 1) -> same_params q q' -> chunk_rep (chunk_size q) c [] ->
  Forall2 (chunk_rep (chunk_size q)) hs bs -> Forall full hs -> b = concat bs ->
  0 < chunk_size q ->
  open_tail (set_head q' (hs ++ [c])) b hs c bs [].
Proof.
  intros Hside (Hsz & _) Hc Hf Hfull -> Hpos. unfold open_tail. cbn. rewrite Hsz.
  split_and!; try done; [by rewrite app_nil_r|].
  destruct Hc as (_ & _ & -> & Hr & _). rewrite Hr by done. change (zlen []) with 0. lia.
Qed.

Lemma get_tail_spec q b o : bufq_rep q b ->
  match get_non_full_tail q o with
  | (true, q', o') =>
      same_params q q' /\ (o = [] -> o' = []) /\ space q' = space q /\
      exists hs c bs bt, open_tail q' b hs c bs bt
  | (false, q', o') =>
      bufq_rep q' b /\ same_params q q' /\ (o = [] -> o' = []) /\ space q' = space q /\
      (soft_limit q = false /\ space q' = 0 /\ chunk_count q' = max_chunks q' \/
       o <> [] /\ ((chunk_count q' <? max_chunks q') || soft_limit q' = true))
  end.
Proof.
  intros Hrep. pose proof Hrep as [(Hsz & _) _]. unfold get_non_full_tail.
  assert (Hmake : forall hs bs, head q = hs -> Forall2 (chunk_rep (chunk_size q)) hs bs ->
    Forall full hs -> b = concat bs -> side_ok q (zlen hs) ->
    space q = (max_chunks q - zlen hs) * chunk_size q ->
    match (let '(c, q, o) := get_spare q o in
           match c with
           | Some c => (true, set_head q (head q ++ [c]), o)
           | None => (false, q, o)
           end) with
    | (true, q', o') =>
        same_params q q' /\ (o = [] -> o' = []) /\ space q' = space q /\
        exists hs c bs bt, open_tail q' b hs c bs bt
    | (false, q', o') =>
        bufq_rep q' b /\ same_params q q' /\ (o = [] -> o' = []) /\ space q' = space q /\
        (soft_limit q = false /\ space q' = 0 /\ chunk_count q' = max_chunks q' \/
         o <> [] /\ ((chunk_count q' <? max_chunks q') || soft_limit q' = true))
    end).
  { intros hs bs Hh Hf Hfull Hb Hside Hspace.
    pose proof (get_spare_spec q (zlen hs) o Hside (zlen_nonneg hs)) as Hg.
    destruct (get_spare q o) as [[[c|] q'] o'].
    - destruct Hg as (Hc & Hside' & Hsame & Hh' & Hroom & Ho). rewrite Hh', Hh.
      split; [done|]. split; [done|].
      pose proof (add_chunk_ok q q' b c hs bs Hside' Hsame Hc Hf Hfull Hb ltac:(lia)) as Ht.
      split; [|by exists hs, c, bs, []].
      rewrite (space_snoc _ hs c) by done. rewrite Hspace. cbn.
      destruct Hsame as (-> & -> & _). destruct Hc as (-> & _ & -> & Hr & _).
      rewrite Hr by done. change (zlen []) with 0. lia.
    - destruct Hg as (Hside' & Hsame & Hh' & Ho & Hcnt & Hcase).
      assert (Hsp : space q' = space q).
      { unfold space. rewrite Hh'. by destruct Hsame as (-> & -> & _). }
      split; [|split; [done|split; [done|split; [done|]]]].
      + split; [by rewrite Hh', Hh|]. exists bs. rewrite Hh', Hh.
        destruct Hsame as (-> & _). split_and!; try done.
        clear -Hfull. induction hs as [|x hs IH]; [constructor|].
        apply Forall_cons in Hfull as [? ?]. apply removelast_cons_full.
        split; [done|by apply IH].
      + destruct Hcase as [(Hsoft & Hn & ->)|Hcase]; [left|by right].
        rewrite Hspace, Hn, Hcnt. split_and!; try done. lia. }
  destruct (last (head q)) as [c|] eqn:El.
  - destruct (rep_last q b c Hrep El) as (hs & bs & bt & Hh & Hf & Hc & Hfull & Hb & Hside).
    pose proof (rep_is_full _ _ _ Hc) as Hif. pose proof (rep_bounds _ _ _ Hc) as (_ & Hw & _).
    destruct (chunk_is_full c) eqn:Ef; cbn [negb].
    + assert (Hfc : full c) by (by apply Hif).
      apply (Hmake (hs ++ [c]) (bs ++ [bt])); [done| | | | |].
      * apply Forall2_app; [done|by constructor].
      * apply Forall_app_2; [done|by constructor].
      * rewrite concat_app. cbn. by rewrite app_nil_r.
      * by replace (zlen (hs ++ [c])) with (zlen hs + 1) by zlia.
      * rewrite (space_snoc q hs c) by done. rewrite Hfc.
        replace (zlen (hs ++ [c])) with (zlen hs + 1) by zlia. lia.
    + split; [done|]. split; [done|]. split; [done|]. exists hs, c, bs, bt.
      split_and!; try done. destruct Hc as (Hd & _). unfold full in Hif.
      destruct (Z.eq_dec (w_offset c) (dlen c)); [by apply Hif in e|lia].
  - apply last_None in El as Hh. pose proof Hrep as [Hside (bs & Hf & Hb & _)].
    rewrite Hh in Hf, Hside. apply Forall2_nil_inv_l in Hf as ->.
    apply (Hmake [] []); try done. unfold space. by rewrite El, Hh.
Qed.

Lemma write_loop_spec fuel : forall q b buf nw o,
  bufq_rep q b -> zlen buf <= Z.of_nat fuel -> 0 <= nw ->
  exists q' r n o', write_loop fuel q buf nw o = Some (q', r, nw + n, o') /\
    0 <= n <= zlen buf /\ bufq_rep q' (b ++ ztake n buf) /\ same_params q q' /\
    space q' = space q - n /\ (o = [] -> o' = []) /\
    (r = CURLE_OUT_OF_MEMORY /\ o <> [] \/
     r = write_done (nw + n) (zlen buf - n) /\
     (n < zlen buf -> soft_limit q = false /\ space q' = 0)).
Proof.
  induction fuel as [|fuel IH]; intros q b buf nw o Hrep Hf Hnw; pose proof (zlen_nonneg buf);
    (destruct (decide (buf = [])) as [->|Hne];
     [exists q, (write_done nw 0), 0, o; rewrite Z.add_0_r, ztake_0, app_nil_r;
      split; [done|]; split; [done|]; split; [done|]; split; [done|];
      split; [lia|]; split; [done|]; right; split; [done|];
      change (zlen []) with 0; lia|]).
  { destruct buf; [done|zlia]. }
  assert (Hpos : 0 < zlen buf) by (destruct buf; [done|zlia]).
  cbn [write_loop]. replace (zlen buf =? 0) with false by (symmetry; apply Z.eqb_neq; lia).
  pose proof (get_tail_spec q b o Hrep) as Ht.
  destruct (get_non_full_tail q o) as [[[] q1] o1]; cbn [negb].
  - destruct Ht as (Hsame & Ho & Hsp & hs & c & bs & bt & Hot).
    pose proof (open_tail_rep _ _ _ _ _ _ Hot) as Hrep1. pose proof (rep_sz _ _ Hrep1) as Hsz.
    destruct Hot as (Hh & Hfa & Hc & Hfull & -> & Hside & Hw).
    rewrite Hh, last_snoc. cbn [mbind option_bind].
    destruct (chunk_append_rep _ c bt buf Hsz Hc) as (c' & -> & Hc' & Hw').
    cbn [mbind option_bind]. set (k := Z.min (chunk_size q1 - w_offset c) (zlen buf)) in *.
    assert (Hk : 0 < k <= zlen buf) by lia.
    replace (k =? 0) with false by (symmetry; apply Z.eqb_neq; lia).
    unfold set_tail. rewrite Hh, removelast_snoc.
    set (q2 := set_head q1 (hs ++ [c'])).
    assert (Hrep2 : bufq_rep q2 ((concat bs ++ bt) ++ ztake k buf)).
    { split; [cbn; by replace (zlen (hs ++ [c'])) with (zlen hs + 1) by zlia|].
      exists (bs ++ [bt ++ ztake k buf]). cbn [head q2 set_head].
      rewrite removelast_snoc, concat_app. cbn. rewrite app_nil_r, <- app_assoc.
      split; [|by split].
      apply Forall2_app; [done|]. by constructor. }
    assert (Hsp2 : space q2 = space q1 - k).
    { rewrite (space_snoc q2 hs c'), (space_snoc q1 hs c) by done. cbn.
      destruct Hc as (-> & _), Hc' as (-> & _). lia. }
    destruct (IH q2 _ (zdrop k buf) (nw + k) o1 Hrep2)
      as (q' & r & n & o' & Hl & Hn & Hrep' & Hsame' & Hsp' & Ho' & Hcase);
      [rewrite zlen_zdrop; lia|lia|].
    rewrite zlen_zdrop in * by lia. exists q', r, (k + n), o'.
    rewrite Hl. split; [do 3 f_equal; lia|]. split; [lia|]. split; [|split; [|split; [lia|split; [by auto|]]]].
    + replace (ztake (k + n) buf) with (ztake k buf ++ ztake n (zdrop k buf)).
      { by rewrite app_assoc. }
      pose proof (slice_split buf 0 k n ltac:(lia) ltac:(lia) ltac:(lia)) as Hsl.
      unfold slice in Hsl. rewrite zdrop_0, Z.add_0_l in Hsl. by symmetry.
    + by transitivity q1.
    + assert (Hsoft : soft_limit q2 = soft_limit q) by apply Hsame. rewrite Hsoft in Hcase.
      destruct Hcase as [[-> Hne']|[-> Hrest]]; [left|right].
      * split; [done|]. intros ->. by rewrite Ho in Hne'.
      * replace (nw + k + n) with (nw + (k + n)) by lia.
        replace (Z.max 0 (zlen buf - k) - n) with (zlen buf - (k + n)) by lia.
        split; [done|]. intros. apply Hrest. lia.
  - destruct Ht as (Hrep1 & Hsame & Ho & Hsp & Hcase).
    assert (Hsoft : soft_limit q1 = soft_limit q) by apply Hsame.
    destruct Hcase as [(Hs & Hz & Hcnt)|[Hne' Hmore]].
    + rewrite Hsoft, Hs, orb_false_r, Hcnt, Z.ltb_irrefl.
      exists q1, (write_done nw (zlen buf)), 0, o1.
      rewrite Z.add_0_r, ztake_0, app_nil_r, !Z.sub_0_r. split_and!; try done; try lia.
      right. split; [done|]. intros _. done.
    + rewrite Hmore. exists q1, CURLE_OUT_OF_MEMORY, 0, o1.
      rewrite Z.add_0_r, ztake_0, app_nil_r, Z.sub_0_r. split_and!; try done; try lia.
      by left.
Qed.

Lemma bufq_write_spec q b buf o : bufq_rep q b ->
  exists q' r n o', Curl_bufq_write q buf o = Some (q', r, n, o') /\
    0 <= n <= zlen buf /\ bufq_rep q' (b ++ ztake n buf) /\ same_params q q' /\
    space q' = space q - n /\ (o = [] -> o' = []) /\
    (r = CURLE_OUT_OF_MEMORY /\ o <> [] \/
     r = write_done n (zlen buf - n) /\
     (n < zlen buf -> soft_limit q = false /\ space q' = 0)).
Proof.
  intros Hrep. apply (write_loop_spec (length buf) q b buf 0 o Hrep); [|lia].
  unfold zlen. lia.
Qed.

(** * Queries *)

Lemma rep_head_empty q b c h : bufq_rep q b -> head q = c :: h ->
  chunk_is_empty c = true -> b = [].
Proof.
  intros [(Hs & _) (bs & Hf & -> & Hfull)] Hh He. rewrite Hh in Hf, Hfull.
  apply Forall2_cons_inv_l in Hf as (b & bs' & Hc & Hf & ->).
  rewrite (rep_empty _ _ _ Hc) in He. apply bool_decide_eq_true in He. subst b.
  apply removelast_cons_full in Hfull as [Hfc _]. destruct h as [|c2 h].
  - by apply Forall2_nil_inv_l in Hf as ->.
  - exfalso. apply (rep_full_nonempty _ c [] (proj1 Hs) Hc); [|done]. by apply Hfc.
Qed.

Lemma bufq_is_empty_spec q b : bufq_rep q b ->
  Curl_bufq_is_empty q = bool_decide (b = []).
Proof.
  intros Hrep. unfold Curl_bufq_is_empty. destruct (head q) as [|c h] eqn:Hh.
  - destruct Hrep as [_ (bs & Hf & -> & _)]. rewrite Hh in Hf.
    by apply Forall2_nil_inv_l in Hf as ->.
  - destruct (chunk_is_empty c) eqn:He.
    + rewrite (rep_head_empty q b c h Hrep Hh He). done.
    + destruct Hrep as [_ (bs & Hf & -> & _)]. rewrite Hh in Hf.
      apply Forall2_cons_inv_l in Hf as (b & bs' & Hc & _ & ->).
      rewrite (rep_empty _ _ _ Hc) in He. apply bool_decide_eq_false in He.
      symmetry. apply bool_decide_eq_false. cbn. intros E.
      apply app_eq_nil in E as [-> _]. done.
Qed.

Lemma bufq_len_spec q b : bufq_rep q b -> zlen b <= SIZE_MAX -> Curl_bufq_len q = zlen b.
Proof.
  intros Hrep Hb. pose proof (rep_sz _ _ Hrep) as Hsz.
  destruct Hrep as [_ (bs & Hf & -> & _)]. unfold Curl_bufq_len.
  assert (H : forall acc, 0 <= acc -> acc + zlen (concat bs) <= SIZE_MAX ->
    fold_left (fun len c => u64 (len + chunk_len c)) (head q) acc
    = acc + zlen (concat bs)).
  { clear Hb. induction Hf as [|c b h bs Hc Hf IH]; intros acc Ha Hl; cbn [fold_left concat] in *.
    - change (zlen []) with 0. lia.
    - rewrite zlen_app in *. pose proof (zlen_nonneg b). pose proof (zlen_nonneg (concat bs)).
      unfold chunk_len. rewrite (rep_len _ _ _ Hsz Hc), u64_small by lia.
      rewrite IH by lia. lia. }
  rewrite H by lia. lia.
Qed.

Lemma bufq_is_full_spec q b : bufq_rep q b -> soft_limit q = false ->
  Curl_bufq_is_full q = (space q =? 0).
Proof.
  intros Hrep Hsoft. pose proof Hrep as [(Hs & Hm & _ & _ & Hc & Hl) _].
  specialize (Hl Hsoft). unfold Curl_bufq_is_full.
  destruct (last (head q)) as [c|] eqn:El.
  - destruct (rep_last q b c Hrep El) as (hs & bs & bt & Hh & _ & Hrc & _).
    pose proof (rep_bounds _ _ _ Hrc) as (_ & Hw & _). destruct Hrc as (Hd & _).
    rewrite (space_snoc q hs c Hh), Hd. rewrite Hh in Hc.
    replace (zlen (hs ++ [c])) with (zlen hs + 1) in Hc by zlia. pose proof (zlen_nonneg hs).
    destruct (spare q) as [|x s] eqn:Es.
    + change (zlen []) with 0 in Hc. unfold chunk_is_full. rewrite Hd, Z.geb_leb.
      case_if; [symmetry; apply Z.eqb_neq; nia|].
      replace (chunk_count q >? max_chunks q) with false
        by (symmetry; rewrite Z.gtb_ltb; apply Z.ltb_ge; lia).
      replace (max_chunks q - zlen hs - 1) with 0 by lia.
      destruct (chunk_size q <=? w_offset c) eqn:Ew; zb_hyps; symmetry;
        [apply Z.eqb_eq|apply Z.eqb_neq]; lia.
    + rewrite zlen_cons in Hc. pose proof (zlen_nonneg s).
      symmetry. apply Z.eqb_neq. nia.
  - apply last_None in El as Hh. unfold space. rewrite El, Hh. change (zlen []) with 0.
    symmetry. apply Z.eqb_neq. nia.
Qed.

Lemma space_nonneg q b : bufq_rep q b -> soft_limit q = false -> 0 <= space q.
Proof.
  intros Hrep Hsoft. pose proof Hrep as [(Hs & Hm & _ & _ & Hc & Hl) _].
  specialize (Hl Hsoft). pose proof (zlen_nonneg (spare q)). unfold space.
  destruct (last (head q)) as [c|] eqn:El; [|nia].
  destruct (rep_last q b c Hrep El) as (hs & bs & bt & _ & _ & Hrc & _).
  pose proof (rep_bounds _ _ _ Hrc) as (_ & Hb & _). destruct Hrc as (-> & _). nia.
Qed.

Lemma rep_peek q b : bufq_rep q b ->
  exists q', bufq_rep q' b /\ same_params q q' /\
    (b = [] /\ Curl_bufq_peek q = Some (q', None) \/
     exists p, p <> [] /\ p `prefix_of` b /\ Curl_bufq_peek q = Some (q', Some p)).
Proof.
  intros Hrep. pose proof (rep_sz _ _ Hrep) as Hsz. unfold Curl_bufq_peek.
  destruct (head q) as [|c h] eqn:Hh.
  { exists q. split; [done|]. split; [done|]. left. rewrite Hh. split; [|done].
    destruct Hrep as [_ (bs & Hf & -> & _)]. rewrite Hh in Hf.
    by apply Forall2_nil_inv_l in Hf as ->. }
  destruct (chunk_is_empty c) eqn:He.
  - pose proof (rep_head_empty q b c h Hrep Hh He) as ->.
    pose proof Hrep as [Hside (bs & Hf & Hb & Hfull)]. rewrite Hh in *.
    assert (Hdr : drained (chunk_size q) (c :: h) bs).
    { split; [done|]. pose proof Hf as Hf'.
      apply Forall2_cons_inv_l in Hf' as (b & bs' & Hc & _ & ->).
      apply removelast_cons_full in Hfull as [? ?]. split; [by right|done]. }
    destruct (prune_list_ok (c :: h) q bs Hside Hdr) as (Hr & Hs & _ & Hne).
    rewrite <- Hb in Hr. assert (Hq : prune_head q = prune_list (c :: h) q)
      by (unfold prune_head; by rewrite Hh).
    rewrite Hq. exists (prune_list (c :: h) q). split; [done|]. split; [done|]. left.
    split; [done|]. destruct (head (prune_list (c :: h) q)) as [|c2 h2] eqn:Hh2; [done|].
    exfalso. pose proof (bufq_is_empty_spec _ _ Hr) as Hempty.
    unfold Curl_bufq_is_empty in Hempty. rewrite Hh2, Hne in Hempty. done.
  - rewrite Hh, He. destruct Hrep as [Hside (bs & Hf & -> & Hfull)]. rewrite Hh in Hf.
    pose proof Hf as Hf'. apply Forall2_cons_inv_l in Hf' as (b & bs' & Hc & _ & ->).
    rewrite (chunk_peek_rep _ _ _ Hsz Hc). exists q. split.
    { split; [done|]. exists (b :: bs'). rewrite Hh in *. by split_and!. }
    split; [done|]. right. exists b. split; [|split; [by exists (concat bs')|done]].
    rewrite (rep_empty _ _ _ Hc) in He. by apply bool_decide_eq_false in He.
Qed.

Lemma peek_at_loop_spec sz h : forall bs off, sz <= SIZE_MAX -> 0 < sz ->
  Forall2 (chunk_rep sz) h bs -> Forall full (removelast h) -> 0 <= off ->
  (zlen (concat bs) <= off /\ peek_at_loop h off = Some None \/
   exists p, p <> [] /\ p `prefix_of` (zdrop off (concat bs)) /\
     peek_at_loop h off = Some (Some p)).
Proof.
  induction h as [|c h IH]; intros bs off Hsz Hpos Hf Hfull Hoff; cbn [peek_at_loop].
  { apply Forall2_nil_inv_l in Hf as ->. by left. }
  apply Forall2_cons_inv_l in Hf as (b & bs' & Hc & Hf & ->). cbn [concat].
  apply removelast_cons_full in Hfull as [Hfc Hfull].
  unfold chunk_len. rewrite (rep_len _ _ _ Hsz Hc). case_if.
  { apply zlen_0 in E as ->. destruct h as [|c2 h].
    - apply Forall2_nil_inv_l in Hf as ->. by left.
    - exfalso. apply (rep_full_nonempty _ c [] Hpos Hc); [|done]. by apply Hfc. }
  rewrite Z.geb_leb. case_if.
  - destruct (IH bs' (off - zlen b) Hsz Hpos Hf Hfull) as [[Hl Hp]|(p & Hne & Hp & He)];
      [lia| |].
    + left. rewrite zlen_app. split; [lia|done].
    + right. exists p. split; [done|]. split; [|done].
      replace (zdrop off (b ++ concat bs')) with (zdrop (off - zlen b) (concat bs')); [done|].
      unfold zdrop, zlen in *. rewrite drop_app_ge by lia. f_equal. lia.
  - right. rewrite (chunk_peek_at_rep _ _ _ off Hsz Hc) by lia.
    exists (zdrop off b). split; [|split; [|done]].
    + intros Hz. apply (f_equal zlen) in Hz. rewrite zlen_zdrop in Hz by lia.
      change (zlen []) with 0 in Hz. lia.
    + exists (concat bs'). unfold zdrop, zlen in *. rewrite drop_app_le by lia. done.
Qed.

Lemma init_rep chunk_size max_chunks soft nospare :
  0 < chunk_size <= SIZE_MAX - sizeof_buf_chunk -> 0 < max_chunks ->
  bufq_rep (Curl_bufq_init2 chunk_size max_chunks soft nospare) [].
Proof.
  intros Hs Hm. split; [|by exists []]. split_and!; try done; cbn; lia.
Qed.

Lemma reset_queue_rep q b : bufq_rep q b ->
  bufq_rep (Curl_bufq_reset q) [] /\ same_params q (Curl_bufq_reset q).
Proof.
  intros [(Hs & Hm & Hsp & Hp & Hc & Hl) (bs & Hf & _)]. split; [|done].
  split; [|by exists []]. unfold Curl_bufq_reset.
  assert (Hfold : forall h s bs, Forall2 (chunk_rep (chunk_size q)) h bs ->
    Forall (raw_ok (chunk_size q)) s ->
    Forall (raw_ok (chunk_size q)) (fold_left (fun s c => c :: s) h s) /\
    zlen (fold_left (fun s c => c :: s) h s) = zlen h + zlen s).
  { induction h as [|c h IH]; intros s bs0 Hf0 Hraw; cbn [fold_left]; [by split|].
    apply Forall2_cons_inv_l in Hf0 as (b0 & bs' & Hc0 & Hf0 & _).
    destruct (IH (c :: s) bs' Hf0) as [? ->]; [apply Forall_cons; split; [exact (rep_raw _ _ _ Hc0)|done]|].
    split; [done|zlia]. }
  destruct (Hfold (head q) (spare q) bs Hf Hsp) as [Hraw Hlen].
  unfold side_ok. cbn. change (zlen []) with 0. rewrite Hlen. split_and!; try done; lia.
Qed.

(** * Properties *)

(** Writing to a queue with memory to be had.  With a soft limit all of
    the input is taken and the result is [CURLE_OK]; with a hard limit exactly
    as much as the queue has room for ([max_chunks] chunks, of which the used
    ones are full but for the last), and [CURLE_AGAIN] reports that nothing
    could be taken.  What is taken comes behind the bytes the queue held. *)
Theorem bufq_write_exact q b buf :
  bufq_rep q b ->
  let n := if soft_limit q then zlen buf else Z.min (zlen buf) (space q) in
  exists q', Curl_bufq_write q buf [] =
    Some (q', if (n =? 0) && negb (zlen buf =? 0) then CURLE_AGAIN else CURLE_OK, n, []) /\
    bufq_rep q' (b ++ ztake n buf) /\ same_params q q' /\ space q' = space q - n.
Proof.
  intros Hrep n. destruct (bufq_write_spec q b buf [] Hrep)
    as (q' & r & k & o' & Hw & Hk & Hrep' & Hsame & Hsp & Ho & Hcase).
  rewrite Ho in Hw by done. destruct Hcase as [[_ ?]|[-> Hless]]; [done|].
  assert (Hsoft' : soft_limit q' = soft_limit q) by apply Hsame.
  assert (k = n) as ->.
  { subst n. destruct (soft_limit q) eqn:Hsoft.
    - destruct (Z.eq_dec k (zlen buf)); [done|]. destruct Hless as [? _]; [lia|done].
    - pose proof (space_nonneg _ _ Hrep' Hsoft').
      destruct (Z.eq_dec k (zlen buf)); [lia|].
      destruct Hless as [_ ?]; [lia|]. lia. }
  exists q'. split; [|done]. rewrite Hw. unfold write_done. do 4 f_equal.
  destruct (n =? 0) eqn:E; [|done]. zb_hyps. rewrite E, Z.sub_0_r. done.
Qed.

Lemma bufq_write_exact_witness :
  exists q', Curl_bufq_write (Curl_bufq_init 4 2) [1; 2; 3; 4; 5; 6; 7; 8; 9; 10] [] =
    Some (q', CURLE_OK, 8, []) /\ bufq_rep q' [1; 2; 3; 4; 5; 6; 7; 8] /\
    same_params (Curl_bufq_init 4 2) q' /\ space q' = 0.
Proof.
  apply (bufq_write_exact (Curl_bufq_init 4 2) [] [1; 2; 3; 4; 5; 6; 7; 8; 9; 10]).
  apply init_rep; cbv; [split; [reflexivity|discriminate]|reflexivity].
Defined.

(** ** Refinement: a queue is a list of bytes *)

Inductive queue_op :=
  | QWrite (buf : list Z)
  | QRead (len : Z)
  | QSkip (amount : Z)
  | QPeek
  | QReset.

Inductive queue_res :=
  | RWrite (r : CURLcode) (n : Z)
  | RRead (r : CURLcode) (bytes : list Z)
  | RPeek (p : option (list Z))
  | RDone.

Definition queue_step (q : bufq) (op : queue_op) (o : allocs)
  : option (bufq * queue_res * allocs) :=
  match op with
  | QWrite buf => '(q, r, n, o) ← Curl_bufq_write q buf o; Some (q, RWrite r n, o)
  | QRead len => '(q, r, b) ← Curl_bufq_read q len; Some (q, RRead r b, o)
  | QSkip n => q ← Curl_bufq_skip q n; Some (q, RDone, o)
  | QPeek => '(q, p) ← Curl_bufq_peek q; Some (q, RPeek p, o)
  | QReset => Some (Curl_bufq_reset q, RDone, o)
  end.

Fixpoint queue_run (q : bufq) (ops : list queue_op) (o : allocs)
  : option (bufq * list queue_res) :=
  match ops with
  | [] => Some (q, [])
  | op :: ops =>
      '(q, r, o) ← queue_step q op o;
      '(q, rs) ← queue_run q ops o;
      Some (q, r :: rs)
  end.

(** What a FIFO of bytes may answer, and what it holds then. *)
Definition fifo_allows (b : list Z) (op : queue_op) (res : queue_res) (b' : list Z) : Prop :=
  match op, res with
  | QWrite buf, RWrite r n =>
      0 <= n <= zlen buf /\ b' = b ++ ztake n buf /\
      (r = CURLE_OK /\ (buf = [] \/ 0 < n) \/ r = CURLE_AGAIN /\ n = 0 /\ buf <> [] \/
       r = CURLE_OUT_OF_MEMORY)
  | QRead len, RRead r bytes =>
      bytes = ztake len b /\ b' = zdrop len b /\
      r = if bool_decide (bytes = []) then CURLE_AGAIN else CURLE_OK
  | QSkip n, RDone => b' = zdrop n b
  | QPeek, RPeek p =>
      b' = b /\ match p with
                | None => b = []
                | Some p => p <> [] /\ p `prefix_of` b
                end
  | QReset, RDone => b' = []
  | _, _ => False
  end.

Inductive fifo_run : list Z -> list queue_op -> list queue_res -> list Z -> Prop :=
  | fifo_nil b : fifo_run b [] [] b
  | fifo_cons b op res b1 ops rs b2 :
      fifo_allows b op res b1 -> fifo_run b1 ops rs b2 ->
      fifo_run b (op :: ops) (res :: rs) b2.

Definition queue_op_ok (op : queue_op) : Prop :=
  match op with
  | QRead len => 0 <= len
  | QSkip n => 0 <= n
  | _ => True
  end.

Lemma queue_step_spec q b op o : bufq_rep q b -> queue_op_ok op ->
  exists q' res o' b', queue_step q op o = Some (q', res, o') /\
    fifo_allows b op res b' /\ bufq_rep q' b'.
Proof.
  intros Hrep Hop. destruct op as [buf|len|n| |]; cbn [queue_step fifo_allows queue_op_ok] in *.
  - destruct (bufq_write_spec q b buf o Hrep)
      as (q' & r & n & o' & -> & Hn & Hrep' & _ & _ & _ & Hcase).
    exists q', (RWrite r n), o', (b ++ ztake n buf). split; [done|]. split; [|done].
    split; [done|]. split; [done|]. destruct Hcase as [[-> _]|[-> _]]; [by right; right|].
    unfold write_done. destruct (n =? 0) eqn:E; zb_hyps; cbn [andb].
    + subst n. rewrite Z.sub_0_r. case_if.
      * right; left. split; [done|]. split; [done|].
        by intros ->.
      * left. split; [done|]. left. by apply zlen_0.
    + left. split; [done|]. right. lia.
  - destruct (bufq_read_spec q b len Hrep Hop) as (q' & -> & Hrep' & _).
    exists q', (RRead (if zlen (ztake len b) =? 0 then CURLE_AGAIN else CURLE_OK) (ztake len b)),
      o, (zdrop len b). split; [done|]. split; [|done]. split; [done|]. split; [done|].
    case_bool_decide as Hz; [by rewrite Hz|].
    destruct (zlen (ztake len b) =? 0) eqn:E; [|done]. zb_hyps. by apply zlen_0 in E.
  - destruct (bufq_skip_spec q b n Hrep Hop) as (q' & -> & Hrep' & _).
    by exists q', RDone, o, (zdrop n b).
  - destruct (rep_peek q b Hrep) as (q' & Hrep' & _ & [[-> ->]|(p & Hp & Hpre & ->)]).
    + by exists q', (RPeek None), o, [].
    + by exists q', (RPeek (Some p)), o, b.
  - exists (Curl_bufq_reset q), RDone, o, []. split; [done|]. split; [done|].
    by apply (reset_queue_rep q b).
Qed.



(** Peeking at an offset inside the contents shows a non-empty piece of
    the contents from that offset on, and nothing at or behind the end. *)
Theorem bufq_peek_at_correct q b off :
  bufq_rep q b -> 0 <= off ->
  (zlen b <= off /\ Curl_bufq_peek_at q off = Some None \/
   exists p, p <> [] /\ p `prefix_of` (zdrop off b) /\
     Curl_bufq_peek_at q off = Some (Some p)).
Proof.
  intros Hrep Hoff. pose proof (rep_sz _ _ Hrep) as Hsz.
  destruct Hrep as [(Hs & _) (bs & Hf & -> & Hfull)].
  apply (peek_at_loop_spec (chunk_size q)); try done. lia.
Qed.

Lemma bufq_peek_at_correct_witness :
  let q := mk_bufq [mk_chunk [Some 9; Some 8] 2 1 2; mk_chunk [Some 7; None] 2 0 1]
             [] None 2 2 2 false false in
  bufq_rep q [8; 7] /\
  (2 <= 1 /\ Curl_bufq_peek_at q 1 = Some None \/
   exists p, p <> [] /\ p `prefix_of` [7] /\ Curl_bufq_peek_at q 1 = Some (Some p)).
Proof.
  intros q. assert (Hrep : bufq_rep q [8; 7]).
  { split.
    - unfold side_ok, SIZE_MAX, sizeof_buf_chunk. cbn. split_and!; try done; cbv; discriminate.
    - exists [[8]; [7]]. split; [|split; [done|repeat constructor]].
      apply Forall2_cons. split; [|apply Forall2_cons; split; [|constructor]].
      + split_and!; try done. exists [Some 9], []. done.
      + split_and!; try done. exists [], [None]. done. }
  split; [exact Hrep|]. apply (bufq_peek_at_correct q [8; 7] 1 Hrep). discriminate.
Defined.

(** ** Queues between a reader and a writer *)

Section streams.
Context {C : Type} (writer : C -> list Z -> C * CURLcode * Z).
(** The bytes the writer has taken so far; what it reports is what it took. *)
Context (taken : C -> list Z).
Context (Hwriter : forall ctx buf, let '(ctx', r, n) := writer ctx buf in
  if is_ok r then 0 <= n <= zlen buf /\ taken ctx' = taken ctx ++ ztake n buf
  else taken ctx' = taken ctx).

(** Bytes leave the queue exactly as the writer takes them. *)
Lemma pass_loop_spec fuel : forall q b ctx w, bufq_rep q b -> 0 <= w ->
  zlen b < Z.of_nat fuel ->
  exists q' ctx' r k, pass_loop writer fuel q ctx w = Some (q', ctx', r, w + k) /\
    0 <= k <= zlen b /\ bufq_rep q' (zdrop k b) /\ same_params q q' /\
    taken ctx' = taken ctx ++ ztake k b.
Proof.
  induction fuel as [|fuel IH]; intros q b ctx w Hrep Hw Hf; zlen_pos; [lia|].
  cbn [pass_loop]. destruct (rep_peek q b Hrep) as (q1 & Hrep1 & Hsame1 & Hcase).
  assert (Hstop : forall ctx' (r : CURLcode), taken ctx' = taken ctx -> exists q' ctx2 r2 k,
    Some (q1, ctx', r, w) = Some (q', ctx2, r2, w + k) /\
    0 <= k <= zlen b /\ bufq_rep q' (zdrop k b) /\ same_params q q' /\
    taken ctx2 = taken ctx ++ ztake k b).
  { intros ctx' r Ht. exists q1, ctx', r, 0. rewrite Z.add_0_r, zdrop_0, ztake_0, app_nil_r.
    split_and!; done || lia. }
  destruct Hcase as [[_ ->]|(p & Hp & [b2 ->] & ->)]; cbn [mbind option_bind]; [by apply Hstop|].
  pose proof (Hwriter ctx p) as Hwr. destruct (writer ctx p) as [[ctx1 r] k].
  destruct (is_ok r) eqn:Er; cbn [negb]; [|by apply Hstop].
  destruct Hwr as [Hk Ht]. case_if.
  { subst k. apply Hstop. by rewrite Ht, ztake_0, app_nil_r. }
  destruct (bufq_skip_spec q1 (p ++ b2) k Hrep1) as (q2 & -> & Hrep2 & Hsame2); [lia|].
  cbn [mbind option_bind]. pose proof (zlen_nonneg b2).
  destruct (IH q2 _ ctx1 (w + k) Hrep2) as (q3 & ctx3 & r3 & k3 & -> & Hk3 & Hrep3 & Hsame3 & Ht3);
    [lia|rewrite zlen_zdrop; zlia|].
  rewrite zlen_zdrop in Hk3 by lia. exists q3, ctx3, r3, (k + k3).
  split; [do 2 f_equal; lia|]. split; [zlia|]. split; [|split; [by do 2 (etransitivity; [eassumption|])|]].
  - by rewrite zdrop_zdrop, (Z.add_comm k3) in Hrep3 by lia.
  - rewrite Ht3, Ht, <- app_assoc. f_equal.
    pose proof (slice_split (p ++ b2) 0 k k3 ltac:(lia) ltac:(lia) ltac:(lia)) as Hs.
    unfold slice in Hs. rewrite zdrop_0, Z.add_0_l in Hs. rewrite Hs. f_equal.
    unfold ztake, zlen in *. symmetry. apply take_app_le. lia.
Qed.

Lemma bufq_pass_spec q b ctx : bufq_rep q b -> zlen b <= SIZE_MAX ->
  exists q' ctx' r k, Curl_bufq_pass writer q ctx = Some (q', ctx', r, k) /\
    0 <= k <= zlen b /\ bufq_rep q' (zdrop k b) /\ same_params q q' /\
    taken ctx' = taken ctx ++ ztake k b.
Proof.
  intros Hrep Hb. unfold Curl_bufq_pass. rewrite (bufq_len_spec q b Hrep Hb).
  apply (pass_loop_spec _ q b ctx 0 Hrep); [lia|]. pose proof (zlen_nonneg b). lia.
Qed.

Lemma write_pass_loop_spec fuel : forall q b buf ctx w o, bufq_rep q b -> 0 <= w ->
  zlen buf <= Z.of_nat fuel -> zlen b + zlen buf <= SIZE_MAX ->
  exists q' ctx' r k o' b',
    write_pass_loop writer fuel q buf ctx w o = Some (q', ctx', r, w + k, o') /\
    0 <= k <= zlen buf /\ bufq_rep q' b' /\
    (r = CURLE_OUT_OF_MEMORY \/ taken ctx' ++ b' = taken ctx ++ b ++ ztake k buf).
Proof.
  induction fuel as [|fuel IH]; intros q b buf ctx w o Hrep Hw Hf Hmax;
    pose proof (zlen_nonneg buf); pose proof (zlen_nonneg b);
    (destruct (decide (buf = [])) as [->|Hne];
     [exists q, ctx, (write_done w (zlen (@nil Z))), 0, o, b; rewrite Z.add_0_r, ztake_0, app_nil_r;
      split; [done|]; split; [done|]; split; [done|by right]|]).
  { destruct buf; [done|zlia]. }
  assert (Hpos : 0 < zlen buf) by (destruct buf; [done|zlia]).
  cbn [write_pass_loop]. replace (zlen buf =? 0) with false by (symmetry; apply Z.eqb_neq; lia).
  assert (Hpass : exists q1 ctx1 r1 b1,
    (if Curl_bufq_is_full q then '(q, ctx, result, _) ← Curl_bufq_pass writer q ctx;
                                  Some (q, ctx, result)
     else Some (q, ctx, CURLE_OK)) = Some (q1, ctx1, r1) /\
    bufq_rep q1 b1 /\ taken ctx1 ++ b1 = taken ctx ++ b /\ zlen b1 <= zlen b).
  { destruct (Curl_bufq_is_full q); [|by exists q, ctx, CURLE_OK, b].
    destruct (bufq_pass_spec q b ctx Hrep) as (q1 & ctx1 & r1 & k & -> & Hk & Hrep1 & _ & Ht);
      [lia|]. exists q1, ctx1, r1, (zdrop k b). split; [done|]. split; [done|].
    rewrite Ht, <- app_assoc, ztake_zdrop, zlen_zdrop by lia. split; [done|lia]. }
  destruct Hpass as (q1 & ctx1 & r1 & b1 & -> & Hrep1 & Ht1 & Hl1). cbn [mbind option_bind].
  assert (Hstop : forall (r : CURLcode) (o : allocs), exists q' ctx' r2 k o' b',
    Some (q1, ctx1, r, w, o) = Some (q', ctx', r2, w + k, o') /\
    0 <= k <= zlen buf /\ bufq_rep q' b' /\
    (r2 = CURLE_OUT_OF_MEMORY \/ taken ctx' ++ b' = taken ctx ++ b ++ ztake k buf)).
  { intros r o2. exists q1, ctx1, r, 0, o2, b1.
    rewrite Z.add_0_r, ztake_0, app_nil_r. split_and!; try done; try lia. by right. }
  destruct (is_ok r1); cbn [negb]; [|destruct (code_eqb r1 CURLE_AGAIN); apply Hstop].
  destruct (bufq_write_spec q1 b1 buf o Hrep1)
    as (q2 & r2 & n & o2 & -> & Hn & Hrep2 & _ & _ & _ & Hcase). cbn [mbind option_bind].
  destruct Hcase as [[-> _]|[-> _]].
  { cbn [is_ok negb]. change (code_eqb CURLE_OUT_OF_MEMORY CURLE_AGAIN) with false. cbn [negb].
    exists q2, ctx1, CURLE_OUT_OF_MEMORY, 0, o2, (b1 ++ ztake n buf).
    rewrite Z.add_0_r. split_and!; try done; try lia. by left. }
  assert (Hzero : n = 0 -> forall (r : CURLcode), exists q' ctx' r2 k o' b',
    Some (q2, ctx1, r, w, o2) = Some (q', ctx', r2, w + k, o') /\
    0 <= k <= zlen buf /\ bufq_rep q' b' /\
    (r2 = CURLE_OUT_OF_MEMORY \/ taken ctx' ++ b' = taken ctx ++ b ++ ztake k buf)).
  { intros -> r. rewrite ztake_0, app_nil_r in Hrep2. exists q2, ctx1, r, 0, o2, b1.
    rewrite Z.add_0_r, ztake_0, app_nil_r. split_and!; try done; try lia. by right. }
  destruct (Z.eq_dec n 0) as [->|En].
  - assert (Hwd : write_done 0 (zlen buf - 0) = CURLE_AGAIN).
    { unfold write_done. replace (zlen buf - 0 =? 0) with false; [done|].
      symmetry. apply Z.eqb_neq. lia. }
    rewrite Hwd. cbn [is_ok negb].
    change (code_eqb CURLE_AGAIN CURLE_AGAIN) with true. cbn [negb]. by apply Hzero.
  - assert (En' : (n =? 0) = false) by (by apply Z.eqb_neq).
    unfold write_done at 1. rewrite En'. cbn [andb is_ok negb].
    destruct (IH q2 (b1 ++ ztake n buf) (zdrop n buf) ctx1 (w + n) o2 Hrep2)
      as (q3 & ctx3 & r3 & k & o3 & b3 & -> & Hk & Hrep3 & Hcase);
      [lia|rewrite zlen_zdrop; lia|rewrite zlen_app, zlen_ztake, zlen_zdrop; lia|].
    rewrite zlen_zdrop in Hk by lia.
    exists q3, ctx3, r3, (n + k), o3, b3. split; [do 3 f_equal; lia|].
    split; [lia|]. split; [done|]. destruct Hcase as [->|Ht3]; [by left|right].
    rewrite Ht3, !app_assoc, Ht1, <- !app_assoc. do 2 f_equal.
    pose proof (slice_split buf 0 n k ltac:(lia) ltac:(lia) ltac:(lia)) as Hs.
    unfold slice in Hs. rewrite zdrop_0, Z.add_0_l in Hs. by symmetry.
Qed.
End streams.

(** Passing data through a queue keeps the stream: whatever the writer
    accepts, refuses or fails at, the call ends, and (unless memory ran out)
    the bytes the writer has taken followed by the bytes still queued are the
    old ones followed by exactly the first [*pwritten] bytes of the input. *)
Theorem bufq_write_pass_stream {C} (writer : C -> list Z -> C * CURLcode * Z)
    (taken : C -> list Z) q b buf ctx o :
  (forall ctx buf, let '(ctx', r, n) := writer ctx buf in
     if is_ok r then 0 <= n <= zlen buf /\ taken ctx' = taken ctx ++ ztake n buf
     else taken ctx' = taken ctx) ->
  bufq_rep q b -> zlen b + zlen buf <= SIZE_MAX ->
  exists q' ctx' r k o' b',
    Curl_bufq_write_pass writer q buf ctx o = Some (q', ctx', r, k, o') /\
    0 <= k <= zlen buf /\ bufq_rep q' b' /\
    (r = CURLE_OUT_OF_MEMORY \/ taken ctx' ++ b' = taken ctx ++ b ++ ztake k buf).
Proof.
  intros Hw Hrep Hmax.
  apply (write_pass_loop_spec writer taken Hw (length buf) q b buf ctx 0 o Hrep);
    [lia|unfold zlen; lia|done].
Qed.

(** A writer that takes at most three bytes at a time, and blocks every time
    it holds an even number of bytes above five. *)
Definition demo_writer (ctx : list Z) (buf : list Z) : list Z * CURLcode * Z :=
  if (5 <? zlen ctx) && Z.even (zlen ctx) then (ctx, CURLE_AGAIN, 0)
  else (ctx ++ ztake (Z.min 3 (zlen buf)) buf, CURLE_OK, Z.min 3 (zlen buf)).

Lemma bufq_write_pass_stream_witness :
  exists q' ctx' r k o' b',
    Curl_bufq_write_pass demo_writer (Curl_bufq_init 2 2) [1; 2; 3; 4; 5; 6; 7; 8; 9; 10] [] []
      = Some (q', ctx', r, k, o') /\
    0 <= k <= 10 /\ bufq_rep q' b' /\
    (r = CURLE_OUT_OF_MEMORY \/
     ctx' ++ b' = [] ++ [] ++ ztake k [1; 2; 3; 4; 5; 6; 7; 8; 9; 10]).
Proof.
  apply (bufq_write_pass_stream demo_writer (fun c => c) (Curl_bufq_init 2 2) []
    [1; 2; 3; 4; 5; 6; 7; 8; 9; 10] [] []).
  - intros ctx buf. unfold demo_writer. pose proof (zlen_nonneg buf).
    destruct (_ && _); cbn [is_ok]; [reflexivity|]. split; [lia|reflexivity].
  - apply init_rep; cbv; [split; [reflexivity|discriminate]|reflexivity].
  - cbv. discriminate.
Defined.

(** * Slurping *)

Section slurp.
Context {C : Type} (reader : C -> Z -> C * CURLcode * list Z).
(** The bytes the reader has given so far; it respects the room it gets. *)
Context (given : C -> list Z).
Context (Hreader : forall ctx n, 0 < n -> let '(ctx', r, bytes) := reader ctx n in
  if is_ok r then zlen bytes <= n /\ given ctx' = given ctx ++ bytes
  else given ctx' = given ctx).

Lemma bufq_sipn_spec q b max_len ctx o : bufq_rep q b -> 0 <= max_len ->
  exists q' ctx' r bytes o', Curl_bufq_sipn reader q max_len ctx o =
    Some (q', ctx', r, zlen bytes, o') /\ same_params q q' /\
    if is_ok r then
      given ctx' = given ctx ++ bytes /\ bufq_rep q' (b ++ bytes) /\
      space q' = space q - zlen bytes /\ (max_len <> 0 -> zlen bytes <= max_len)
    else given ctx' = given ctx /\ bufq_rep q' b.
Proof.
  intros Hrep Hmax. unfold Curl_bufq_sipn.
  pose proof (get_tail_spec q b o Hrep) as Ht.
  destruct (get_non_full_tail q o) as [[[] q1] o1]; cbn [negb].
  2: { destruct Ht as (Hrep1 & Hsame & _).
       eexists q1, ctx, _, [], o1. split; [done|]. split; [done|].
       destruct (_ <? _); cbn [is_ok]; done. }
  destruct Ht as (Hsame & _ & Hsp & hs & c & bs & bt & Hot).
  pose proof (open_tail_rep _ _ _ _ _ _ Hot) as Hrep1. pose proof (rep_sz _ _ Hrep1) as Hsz.
  destruct Hot as (Hh & Hfa & Hc & Hfull & -> & Hside & Hw).
  rewrite Hh, last_snoc. cbn [mbind option_bind]. unfold chunk_slurpn.
  pose proof (rep_bounds _ _ _ Hc) as (Hr0 & Hwb & _). pose proof Hc as (Hd & _).
  rewrite Hd, u64_small by lia. set (room := chunk_size q1 - w_offset c).
  replace (room =? 0) with false by (symmetry; apply Z.eqb_neq; subst room; lia).
  set (n := if negb (max_len =? 0) && (room >? max_len) then max_len else room).
  assert (Hn : 0 < n <= room /\ (max_len <> 0 -> n <= max_len)).
  { subst n room. rewrite Z.gtb_ltb. destruct (max_len =? 0) eqn:E0; zb_hyps; cbn [negb andb];
      [lia|]. case_if; lia. }
  pose proof (Hreader ctx n (proj1 (proj1 Hn))) as Hrd.
  destruct (reader ctx n) as [[ctx1 r] bytes]. destruct (is_ok r) eqn:Er; cbn [negb].
  2: { cbn [mbind option_bind]. exists (set_tail q1 c), ctx1, r, bytes, o1.
       split; [done|]. rewrite Er. unfold set_tail. rewrite Hh, removelast_snoc, <- Hh.
       replace (set_head q1 (head q1)) with q1 by by destruct q1. done. }
  destruct Hrd as [Hlen Hg].
  destruct (chunk_append_rep _ c bt bytes Hsz Hc) as (c' & Happ & Hc' & Hw').
  assert (Hmin : Z.min (chunk_size q1 - w_offset c) (zlen bytes) = zlen bytes) by (subst room; lia).
  rewrite Hmin in *. rewrite (ztake_ge (zlen bytes) bytes) in * by lia.
  assert (Hmw : exists m, mem_write (x_data c) (w_offset c) bytes = Some m /\
    c' = mk_chunk m (chunk_size q1) (r_offset c) (w_offset c + zlen bytes)).
  { revert Happ. unfold chunk_append. rewrite Hd, u64_small by lia.
    replace (chunk_size q1 - w_offset c =? 0) with false
      by (symmetry; apply Z.eqb_neq; subst room; lia).
    rewrite Hmin, ztake_ge by lia.
    destruct (mem_write _ _ bytes) as [m|]; [|done]. cbn [mbind option_bind].
    intros [= <-]. by exists m. }
  destruct Hmw as (m & -> & Hc1). cbn [mbind option_bind]. rewrite <- Hc1.
  exists (set_tail q1 c'), ctx1, r, bytes, o1. split; [done|]. split; [done|].
  rewrite Er. split; [done|]. unfold set_tail. rewrite Hh, removelast_snoc.
  split; [|split; [|lia]].
  - split; [cbn; by replace (zlen (hs ++ [c'])) with (zlen hs + 1) by zlia|].
    exists (bs ++ [bt ++ bytes]). cbn [head set_head].
    rewrite removelast_snoc, concat_app. cbn. rewrite app_nil_r, <- app_assoc.
    split; [|by split]. apply Forall2_app; [done|]. by constructor.
  - rewrite <- Hsp, (space_snoc (set_head q1 (hs ++ [c'])) hs c'), (space_snoc q1 hs c) by done.
    cbn. destruct Hc' as (-> & _). lia.
Qed.

Lemma bufq_slurpn_spec fuel : forall q b max_len ctx nread o, bufq_rep q b ->
  soft_limit q = false -> 0 <= max_len -> 0 <= nread -> space q < Z.of_nat fuel ->
  exists q' ctx' r bytes o', bufq_slurpn reader fuel q max_len ctx nread o =
    Some (q', ctx', r, nread + zlen bytes, o') /\ bufq_rep q' (b ++ bytes) /\
    given ctx' = given ctx ++ bytes /\ (max_len <> 0 -> zlen bytes <= max_len).
Proof.
  induction fuel as [|fuel IH]; intros q b max_len ctx nread o Hrep Hsoft Hmax Hnr Hf;
    pose proof (space_nonneg q b Hrep Hsoft); [lia|]. cbn [bufq_slurpn].
  destruct (bufq_sipn_spec q b max_len ctx o Hrep Hmax)
    as (q1 & ctx1 & r & bytes & o1 & -> & Hsame & Hcase). cbn [mbind option_bind].
  destruct (is_ok r) eqn:Er; cbn [negb].
  2: { destruct Hcase as [Hg Hrep1].
       assert (Hx : forall r2 : CURLcode, exists q' ctx' r' bs o',
         Some (q1, ctx1, r2, nread, o1) = Some (q', ctx', r', nread + zlen bs, o') /\
         bufq_rep q' (b ++ bs) /\ given ctx' = given ctx ++ bs /\
         (max_len <> 0 -> zlen bs <= max_len)).
       { intros r2. exists q1, ctx1, r2, [], o1. change (zlen []) with 0.
         rewrite Z.add_0_r, !app_nil_r. split_and!; done || lia. }
       case_if; apply Hx. }
  destruct Hcase as (Hg & Hrep1 & Hsp & Hm). pose proof (zlen_nonneg bytes).
  assert (Hx : forall r2 : CURLcode, exists q' ctx' r' bs o',
    Some (q1, ctx1, r2, nread + zlen bytes, o1) = Some (q', ctx', r', nread + zlen bs, o') /\
    bufq_rep q' (b ++ bs) /\ given ctx' = given ctx ++ bs /\
    (max_len <> 0 -> zlen bs <= max_len)).
  { intros r2. by exists q1, ctx1, r2, bytes, o1. }
  destruct (zlen bytes =? 0) eqn:E0; zb_hyps.
  { destruct (Hx CURLE_OK) as (q' & ctx' & r' & bs & o' & Heq & Hrest).
    exists q', ctx', r', bs, o'. split; [|done]. rewrite <- Heq, E0. by rewrite Z.add_0_r. }
  set (max' := if max_len =? 0 then 0 else max_len - zlen bytes).
  destruct (negb (max_len =? 0) && (max' =? 0)) eqn:Estop; [apply Hx|].
  assert (Hmax' : 0 <= max' /\ (max_len <> 0 -> max' <> 0 /\ max' = max_len - zlen bytes)).
  { subst max'. destruct (max_len =? 0) eqn:Em; zb_hyps; cbn [negb andb] in Estop;
      [split; [lia|done]|]. zb_hyps. specialize (Hm Em). split; [lia|]. intros _. split; [done|done]. }
  assert (Hgo : exists q' ctx' r' bs o',
    bufq_slurpn reader fuel q1 max' ctx1 (nread + zlen bytes) o1
    = Some (q', ctx', r', nread + zlen bs, o') /\
    bufq_rep q' (b ++ bs) /\ given ctx' = given ctx ++ bs /\
    (max_len <> 0 -> zlen bs <= max_len)).
  { destruct (IH q1 (b ++ bytes) max' ctx1 (nread + zlen bytes) o1 Hrep1)
      as (q2 & ctx2 & r2 & bs & o2 & -> & Hrep2 & Hg2 & Hm2);
      [by destruct Hsame as (_ & _ & -> & _)|lia|lia|lia|].
    exists q2, ctx2, r2, (bytes ++ bs), o2. rewrite zlen_app, !app_assoc.
    split; [do 3 f_equal; lia|]. split; [done|]. split; [by rewrite Hg2, Hg|].
    intros Hne. destruct (proj2 Hmax' Hne) as [? ?]. specialize (Hm2 ltac:(done)). lia. }
  destruct (last (head q1)) as [tail|]; [|exact Hgo].
  destruct (chunk_is_full tail); cbn [negb]; [exact Hgo|apply Hx].
Qed.
End slurp.

(** Slurping into a queue with a hard limit ends after at most as many
    rounds as the queue has room for bytes, and puts exactly the bytes the
    reader has given behind the old ones: none are lost, whether the reader
    blocks, fails, ends or has more than fits. *)
Theorem bufq_slurp_stream {C} (reader : C -> Z -> C * CURLcode * list Z)
    (given : C -> list Z) q b ctx o fuel :
  (forall ctx n, 0 < n -> let '(ctx', r, bytes) := reader ctx n in
     if is_ok r then zlen bytes <= n /\ given ctx' = given ctx ++ bytes
     else given ctx' = given ctx) ->
  bufq_rep q b -> soft_limit q = false -> space q < Z.of_nat fuel ->
  exists q' ctx' r bytes o', Curl_bufq_slurp reader fuel q ctx o =
    Some (q', ctx', r, zlen bytes, o') /\ bufq_rep q' (b ++ bytes) /\
    given ctx' = given ctx ++ bytes.
Proof.
  intros Hr Hrep Hsoft Hf.
  destruct (bufq_slurpn_spec reader given Hr fuel q b 0 ctx 0 o Hrep Hsoft)
    as (q' & ctx' & r & bytes & o' & Hs & Hrep' & Hg & _); [lia|lia|done|].
  by exists q', ctx', r, bytes, o'.
Qed.

(** A reader of consecutive numbers, at most three at a time. *)
Definition demo_reader (ctx : list Z) (n : Z) : list Z * CURLcode * list Z :=
  let bytes := ztake (Z.min 3 n) [zlen ctx; zlen ctx + 1; zlen ctx + 2] in
  (ctx ++ bytes, CURLE_OK, bytes).

Lemma bufq_slurp_stream_witness :
  exists q' ctx' r bytes o', Curl_bufq_slurp demo_reader 9 (Curl_bufq_init 4 2) [] [] =
    Some (q', ctx', r, zlen bytes, o') /\ bufq_rep q' ([] ++ bytes) /\
    ctx' = [] ++ bytes.
Proof.
  apply (bufq_slurp_stream demo_reader (fun c => c) (Curl_bufq_init 4 2) [] [] [] 9).
  - intros ctx n Hn. unfold demo_reader. cbn [is_ok]. rewrite zlen_ztake by lia.
    split; [lia|reflexivity].
  - apply init_rep; cbv; [split; [reflexivity|discriminate]|reflexivity].
  - reflexivity.
  - cbv. reflexivity.
Defined.

(** * The queue with a soft limit, as an interface *)

#[export] Instance bufq_byte_queue : ByteQueue bufq.
Proof.
  refine {|
    bq_holds := fun q b => bufq_rep q b /\ soft_limit q = true;
    bq_cwrite := fun q buf =>
      '(q, r, n, _) ← Curl_bufq_cwrite q buf []; Some (q, r, n);
    bq_cread := Curl_bufq_cread;
    bq_is_empty := Curl_bufq_is_empty
  |}.
  - intros q b buf [Hrep Hsoft]. destruct (bufq_write_spec q b buf [] Hrep)
      as (q' & r & n & o' & Hw & Hn & Hrep' & Hsame & _ & _ & Hcase).
    unfold Curl_bufq_cwrite. rewrite Hw. cbn [mbind option_bind].
    destruct Hcase as [[_ ?]|[-> Hless]]; [done|].
    assert (n = zlen buf) as ->.
    { destruct (Z.eq_dec n (zlen buf)); [done|]. destruct Hless as [H _]; [lia|].
      by rewrite Hsoft in H. }
    exists q'. rewrite ztake_ge in Hrep' by lia. split; [|split; [done|]].
    + unfold write_done. rewrite Z.sub_diag. change (negb (0 =? 0)) with false.
      by rewrite andb_false_r.
    + destruct Hsame as (_ & _ & -> & _). done.
  - intros q b len [Hrep Hsoft] Hlen.
    destruct (bufq_read_spec q b len Hrep Hlen) as (q' & Hr & Hrep' & Hsame).
    exists q'. split; [done|]. split; [done|]. destruct Hsame as (_ & _ & -> & _). done.
  - intros q b [Hrep _]. by apply bufq_is_empty_spec.
Defined.
