(* ===== verification/ChunkedReader.v ===== *)
(** HTTP chunked transfer coding, the encoder: the client reader "chunked" of
    lib/http_chunks.c.

    The reader before it in the chain ([reader->next]) is reached through a
    function pointer and is a parameter, as is the application's trailer
    callback.  The buffer queue is used through [Interfaces.ByteQueue].  The
    encoder's output is related to the messages [HttpChunks.v] decodes. *)

From Stdlib Require Import ZArith Lia List Ascii String.
From stdpp Require Import base numbers option list.
From S2P Require Import Prelude Dynbuf Strparse Interfaces Bufq Escape HttpChunks.
Close Scope nat_scope.
Open Scope Z_scope.

(** * Data *)

Definition CURL_CHUNKED_MINLEN : Z := 1024.
(** [64 * 1024] *)
Definition CURL_CHUNKED_MAXLEN : Z := 65536.

(** The hexadecimal digits [%zx] prints. *)
Fixpoint hex_digits (fuel : nat) (n : Z) (acc : list Z) : list Z :=
  match fuel with
  | O => acc
  | S fuel =>
      let acc := at_ Curl_ldigits (Z.to_nat (n mod 16)) :: acc in
      if n / 16 =? 0 then acc else hex_digits fuel (n / 16) acc
  end.

(** [curl_msnprintf(hd, 11, "%zx\r\n", n)]: at most ten characters are
    stored. *)
Definition size_header (n : Z) : list Z :=
  ztake 10 (hex_digits 16 n [] ++ [13; 10]).

Section encoder.
Context {Q : Type} `{!ByteQueue Q}.
(** [Curl_creader_read(data, reader->next, buf, blen, &nread, &eos)]: the
    bytes stored and the end-of-stream flag. *)
Context {R : Type} (creader_read : R -> Z -> R * CURLcode * list Z * bool).
(** [data->set.trailer_callback], when set: what it returns ([true] for
    [CURL_TRAILERFUNC_OK]) and the list it builds. *)
Context (trailer_callback : option (bool * list (list Z))).

Record chunked_reader := mk_reader {
  chunkbuf : Q;
  read_eos : bool;
  eos : bool
}.

(** [!ptr || *(ptr + 1) != ' '], negated: the text has a colon and a space
    behind the first one. *)
Fixpoint well_formatted (tr : list Z) : bool :=
  match tr with
  | [] => false
  | c :: tr =>
      if c =? 0 then false
      else if c =? 58 then deref tr =? 32 else well_formatted tr
  end.

(** [for(tr = trailers; tr; tr = tr->next)] *)
Fixpoint add_trailers (q : Q) (trailers : list (list Z)) : option (Q * CURLcode) :=
  match trailers with
  | [] => Some (q, CURLE_OK)
  | tr :: trailers =>
      if negb (well_formatted tr) then add_trailers q trailers
      else
        '(q, result, _) ← bq_cwrite q (ztake (strlen tr) tr);
        '(q, result) ← (if is_ok result
                        then '(q, result, _) ← bq_cwrite q [13; 10]; Some (q, result)
                        else Some (q, result));
        if negb (is_ok result) then Some (q, result) else add_trailers q trailers
  end.

Definition add_last_chunk (q : Q) : option (Q * CURLcode) :=
  match trailer_callback with
  | None =>
      '(q, result, _) ← bq_cwrite q (str "0" ++ [13; 10; 13; 10]);
      Some (q, result)
  | Some (ok, trailers) =>
      '(q, result, _) ← bq_cwrite q (str "0" ++ [13; 10]);
      if negb (is_ok result) then Some (q, result)
      else if negb ok then Some (q, CURLE_ABORTED_BY_CALLBACK)
      else
        '(q, result) ← add_trailers q trailers;
        if negb (is_ok result) then Some (q, result)
        else
          '(q, result, _) ← bq_cwrite q [13; 10];
          Some (q, result)
  end.

(** The size of the read: the caller's buffer or the local one. *)
Definition chunk_room (blen : Z) : Z :=
  let blen := Z.min blen CURL_CHUNKED_MAXLEN in
  if blen <? CURL_CHUNKED_MINLEN then CURL_CHUNKED_MINLEN else blen - (8 + 2 + 2).

Definition add_chunk (ctx : chunked_reader) (r : R) (blen : Z)
  : option (chunked_reader * R * CURLcode) :=
  let '(r, result, buf, eos') := creader_read r (chunk_room blen) in
  if negb (is_ok result) then Some (ctx, r, result)
  else
    let ctx := if eos' : bool then mk_reader (chunkbuf ctx) true (eos ctx) else ctx in
    let nread := zlen buf in
    '(q, result) ←
      (if nread =? 0 then Some (chunkbuf ctx, CURLE_OK)
       else
         '(q, result, _) ← bq_cwrite (chunkbuf ctx) (size_header nread);
         '(q, result) ← (if is_ok result
                         then '(q, result, _) ← bq_cwrite q buf; Some (q, result)
                         else Some (q, result));
         if is_ok result
         then '(q, result, _) ← bq_cwrite q [13; 10]; Some (q, result)
         else Some (q, result));
    let ctx := mk_reader q (read_eos ctx) (eos ctx) in
    if negb (is_ok result) then Some (ctx, r, result)
    else if read_eos ctx then
      '(q, result) ← add_last_chunk (chunkbuf ctx);
      Some (mk_reader q (read_eos ctx) (eos ctx), r, result)
    else Some (ctx, r, CURLE_OK).

(** The result, the bytes given to the caller and [*peos]. *)
Definition cr_chunked_read (ctx : chunked_reader) (r : R) (blen : Z)
  : option (chunked_reader * R * CURLcode * list Z * bool) :=
  if eos ctx then Some (ctx, r, CURLE_OK, [], true)
  else
    '(ctx, r, result) ←
      (if negb (read_eos ctx) && bq_is_empty (chunkbuf ctx)
       then add_chunk ctx r blen else Some (ctx, r, CURLE_OK));
    if negb (is_ok result) then Some (ctx, r, result, [], false)
    else if negb (bq_is_empty (chunkbuf ctx)) then
      '(q, result, bytes) ← bq_cread (chunkbuf ctx) blen;
      let ctx := mk_reader q (read_eos ctx) (eos ctx) in
      if is_ok result && read_eos ctx && bq_is_empty q
      then Some (mk_reader q (read_eos ctx) true, r, result, bytes, true)
      else Some (ctx, r, result, bytes, false)
    else Some (ctx, r, CURLE_OK, [], false).
End encoder.

(** [cr_chunked_init], for the queue of bufq.c. *)
Definition cr_chunked_init : chunked_reader (Q := bufq) :=
  mk_reader (Curl_bufq_init2 CURL_CHUNKED_MAXLEN 2 true false) false false.

(** * Size lines *)

Lemma ldigit_hex x : 0 <= x < 16 ->
  ISXDIGIT (at_ Curl_ldigits (Z.to_nat x)) = true /\
  curlx_hexval (at_ Curl_ldigits (Z.to_nat x)) = x.
Proof.
  intros H.
  pose proof (byte_forall (fun x => if x <? 16 then
    ISXDIGIT (at_ Curl_ldigits (Z.to_nat x)) &&
    (curlx_hexval (at_ Curl_ldigits (Z.to_nat x)) =? x) else true)) as Hc.
  specialize (Hc ltac:(vm_compute; reflexivity) x). unfold is_byte in Hc.
  specialize (Hc ltac:(lia)). cbn beta in Hc. case_if_in Hc; [|lia]. zb_hyps. done.
Qed.

Lemma hex_digits_spec fuel : forall n acc, 0 <= n < 16 ^ Z.of_nat fuel -> (0 < fuel)%nat ->
  exists ds, hex_digits fuel n acc = ds ++ acc /\ ds <> [] /\
    Forall (fun c => ISXDIGIT c = true) ds /\ digits_value 16 0 (ds ++ acc) = digits_value 16 n acc /\
    (forall k, 0 < k -> n < 16 ^ k -> zlen ds <= k).
Proof.
  induction fuel as [|fuel IH]; intros n acc Hn Hf; [lia|]. cbn [hex_digits].
  destruct (ldigit_hex (n mod 16)) as [Hx Hv]; [dlia|].
  set (d := at_ Curl_ldigits (Z.to_nat (n mod 16))) in *. case_if.
  - exists [d]. split; [done|]. split; [done|]. split; [by repeat constructor|]. split.
    + cbn [app]. change (digits_value 16 0 (d :: acc))
        with (digits_value 16 (0 * 16 + curlx_hexval d) acc). rewrite Hv. f_equal. dlia.
    + intros k Hk _. change (zlen [d]) with 1. lia.
  - rewrite Nat2Z.inj_succ, Z.pow_succ_r in Hn by lia.
    destruct (IH (n / 16) (d :: acc)) as (ds & -> & Hne & Hds & Hval & Hlen).
    { dlia. }
    { destruct fuel; [|lia]. change (16 ^ Z.of_nat 0) with 1 in Hn. dlia. }
    exists (ds ++ [d]). rewrite <- app_assoc. split; [done|].
    split; [by destruct ds|]. split; [apply Forall_app_2; [done|by repeat constructor]|].
    split.
    + cbn [app]. rewrite Hval. change (digits_value 16 (n / 16) (d :: acc))
        with (digits_value 16 (n / 16 * 16 + curlx_hexval d) acc). rewrite Hv. f_equal. dlia.
    + intros k Hk Hlt. destruct (Z.eq_dec k 1) as [->|]; [change (16 ^ 1) with 16 in Hlt; dlia|].
      replace k with (Z.succ (k - 1)) in Hlt by lia. rewrite Z.pow_succ_r in Hlt by lia.
      specialize (Hlen (k - 1) ltac:(lia) ltac:(dlia)). zlia.
Qed.

(** The chunk the encoder makes of the bytes it has read. *)
Definition made_chunk (buf : list Z) : chunk :=
  mk_chunk (hex_digits 16 (zlen buf) []) [13] buf.

Lemma made_chunk_ok buf : 0 < zlen buf <= CURL_CHUNKED_MAXLEN ->
  chunk_ok (made_chunk buf) /\
  enc_chunk (made_chunk buf) = size_header (zlen buf) ++ buf ++ [13; 10] /\
  zlen (enc_chunk (made_chunk buf)) <= zlen buf + 12.
Proof.
  unfold CURL_CHUNKED_MAXLEN. intros Hb.
  destruct (hex_digits_spec 16 (zlen buf) []) as (ds & Hd & Hne & Hds & Hval & Hlen); [|lia|].
  { change (16 ^ Z.of_nat 16) with 18446744073709551616. lia. }
  rewrite app_nil_r in Hd, Hval. specialize (Hlen 8 ltac:(lia)).
  change (16 ^ 8) with 4294967296 in Hlen. specialize (Hlen ltac:(lia)).
  assert (Hh : size_header (zlen buf) = ds ++ [13; 10]).
  { unfold size_header. rewrite Hd. apply ztake_ge. zlia. }
  split; [|split].
  - unfold chunk_ok, made_chunk, size_line_ok, CHUNK_MAXNUM_LEN, CURL_OFF_T_MAX. cbn [body digits ext].
    rewrite Hd. split; [intros ->; destruct Hb as [Hb _]; by cbv in Hb|]. split; [lia|]. split_and!; try done; [lia|].
    by repeat constructor.
  - rewrite Hh. unfold enc_chunk, made_chunk, size_line. cbn [body digits ext].
    rewrite Hd. by rewrite <- !app_assoc.
  - unfold enc_chunk, made_chunk, size_line. cbn [body digits ext]. rewrite Hd. zlia.
Qed.

(** * The encoder keeps a message under construction *)

Section encoder_spec.
Context {Q : Type} `{!ByteQueue Q}.
Context {R : Type} (creader_read : R -> Z -> R * CURLcode * list Z * bool).
Context (trailer_callback : option (bool * list (list Z))).
(** The bytes the reader has given so far; it respects the room it gets. *)
Context (given : R -> list Z).
Context (Hreader : forall r n, 0 < n -> let '(r', res, buf, _) := creader_read r n in
  if is_ok res then zlen buf <= n /\ given r' = given r ++ buf else given r' = given r).

(** The ways to an error: the reader's, or a callback that aborts. *)
Definition can_fail (r : R) : Prop :=
  (exists n r' res buf e, creader_read r n = (r', res, buf, e) /\ is_ok res = false) \/
  exists trs, trailer_callback = Some (false, trs).

(** The reader has nothing for now. *)
Definition pauses (r : R) : Prop :=
  exists n r', 0 < n /\ creader_read r n = (r', CURLE_OK, [], false).

(** The reader was called at most once; the end of the input was seen before
    or in this call. *)
Definition end_seen (re : bool) (r : R) (re' : bool) (r' : R) : Prop :=
  (r' = r \/ exists n buf e, 0 < n /\ creader_read r n = (r', CURLE_OK, buf, e)) /\
  (re' = true -> re = true /\ r' = r \/
    exists n buf, 0 < n /\ creader_read r n = (r', CURLE_OK, buf, true)).

(** The trailer fields that are sent. *)
Definition sent_trailers : list (list Z) :=
  match trailer_callback with
  | None => []
  | Some (_, trs) =>
      map (fun t => ztake (strlen t) t) (List.filter well_formatted trs)
  end.

Definition last_message : list Z :=
  size_line (str "0") [13] ++ concat (map enc_trailer sent_trailers) ++ [13; 10].

(** After the bytes [out] have been given to the caller: with those still
    queued they are the chunks of what was read, and the end of the message
    once the reader has ended. *)
Definition enc_inv (ctx : chunked_reader (Q := Q)) (chunks : list chunk) (b out : list Z)
    (start : list Z) (r : R) : Prop :=
  bq_holds (chunkbuf ctx) b /\ Forall chunk_ok chunks /\
  given r = start ++ concat (map body chunks) /\
  out ++ b = concat (map enc_chunk chunks) ++ (if read_eos ctx then last_message else []) /\
  (eos ctx = true -> read_eos ctx = true /\ b = []) /\
  (read_eos ctx = true -> eos ctx = false -> b <> []).

Lemma add_trailers_spec trs : forall q b, bq_holds q b ->
  exists q', add_trailers q trs = Some (q', CURLE_OK) /\
    bq_holds q' (b ++ concat (map enc_trailer
      (map (fun t => ztake (strlen t) t) (List.filter well_formatted trs)))).
Proof.
  induction trs as [|t trs IH]; intros q b Hq; cbn [add_trailers List.filter].
  { exists q. cbn. by rewrite app_nil_r. }
  destruct (well_formatted t); cbn [negb]; [|by apply IH].
  destruct (bq_cwrite_spec q b (ztake (strlen t) t) Hq) as (q1 & -> & Hq1).
  cbn [mbind option_bind is_ok].
  destruct (bq_cwrite_spec q1 _ [13; 10] Hq1) as (q2 & -> & Hq2). cbn [mbind option_bind is_ok negb].
  destruct (IH q2 _ Hq2) as (q3 & -> & Hq3). exists q3. split; [done|].
  cbn [map concat]. unfold enc_trailer at 1.
  rewrite <- !app_assoc in Hq3. rewrite <- !app_assoc. exact Hq3.
Qed.

Lemma add_last_chunk_spec q b : bq_holds q b ->
  match trailer_callback with Some (ok, _) => ok = true | None => True end ->
  exists q', add_last_chunk trailer_callback q = Some (q', CURLE_OK) /\
    bq_holds q' (b ++ last_message).
Proof.
  intros Hq Hok. unfold add_last_chunk, last_message, sent_trailers.
  destruct trailer_callback as [[ok trs]|].
  - subst ok. destruct (bq_cwrite_spec q b (str "0" ++ [13; 10]) Hq) as (q1 & -> & Hq1).
    cbn [mbind option_bind is_ok negb].
    destruct (add_trailers_spec trs q1 _ Hq1) as (q2 & -> & Hq2). cbn [mbind option_bind is_ok negb].
    destruct (bq_cwrite_spec q2 _ [13; 10] Hq2) as (q3 & -> & Hq3). exists q3. split; [done|].
    rewrite <- !app_assoc in Hq3. exact Hq3.
  - destruct (bq_cwrite_spec q b (str "0" ++ [13; 10; 13; 10]) Hq) as (q1 & -> & Hq1).
    by exists q1.
Qed.

Lemma chunk_room_bound blen : 0 < chunk_room blen <= CURL_CHUNKED_MAXLEN.
Proof.
  unfold chunk_room, CURL_CHUNKED_MINLEN, CURL_CHUNKED_MAXLEN. case_if; lia.
Qed.

Lemma last_message_nonempty : last_message <> [].
Proof. done. Qed.

(** Reading from the next reader into an empty queue. *)
Lemma add_chunk_spec ctx r blen chunks b out start :
  enc_inv ctx chunks b out start r -> read_eos ctx = false -> b = [] ->
  exists ctx' r' res, add_chunk creader_read trailer_callback ctx r blen = Some (ctx', r', res) /\
  (res <> CURLE_OK -> can_fail r) /\
  (res = CURLE_OK ->
   exists bytes b',
     given r' = given r ++ bytes /\ eos ctx' = false /\
     (zlen b' <= (if read_eos ctx' then zlen last_message else 0) +
                 (if zlen bytes =? 0 then 0 else zlen bytes + 12)) /\
     enc_inv ctx' (chunks ++ (if zlen bytes =? 0 then [] else [made_chunk bytes])) b' out start r' /\
     (b' = [] -> pauses r) /\ end_seen (read_eos ctx) r (read_eos ctx') r').
Proof.
  intros (Hq & Hc & Hg & Ho & Heos & _) Hre ->. unfold add_chunk.
  pose proof (chunk_room_bound blen) as Hroom.
  pose proof (Hreader r (chunk_room blen) (proj1 Hroom)) as Hrd.
  destruct (creader_read r (chunk_room blen)) as [[[r' res] buf] e] eqn:Ecr.
  destruct (is_ok res) eqn:Er; cbn [negb].
  2: { exists ctx, r', res. split; [done|]. split; [|by intros ->]. intros _. left.
       by eexists _, r', res, buf, e. }
  apply is_ok_iff in Er as ->.
  destruct Hrd as [Hl Hg']. rewrite Hre in Ho. rewrite !app_nil_r in Ho.
  assert (He : eos ctx = false).
  { destruct (eos ctx); [|done]. by destruct (Heos eq_refl) as [? _]; congruence. }
  set (ctx1 := if e then mk_reader (chunkbuf ctx) true (eos ctx) else ctx).
  assert (H1 : chunkbuf ctx1 = chunkbuf ctx /\ read_eos ctx1 = e /\ eos ctx1 = false).
  { subst ctx1. by destruct e. }
  destruct H1 as (Hcb & Hre1 & He1). rewrite Hcb.
  set (cs := if zlen buf =? 0 then [] else [made_chunk buf]).
  assert (Hcs : Forall chunk_ok cs /\ concat (map body cs) = buf /\
    zlen (concat (map enc_chunk cs)) <= (if zlen buf =? 0 then 0 else zlen buf + 12) /\
    (concat (map enc_chunk cs) = [] -> buf = []) /\
    exists q1, (if zlen buf =? 0 then Some (chunkbuf ctx, CURLE_OK)
       else
         '(q, result, _) ← bq_cwrite (chunkbuf ctx) (size_header (zlen buf));
         '(q, result) ← (if is_ok result
                         then '(q, result, _) ← bq_cwrite q buf; Some (q, result)
                         else Some (q, result));
         if is_ok result
         then '(q, result, _) ← bq_cwrite q [13; 10]; Some (q, result)
         else Some (q, result)) = Some (q1, CURLE_OK) /\
      bq_holds q1 (concat (map enc_chunk cs))).
  { subst cs. pose proof (zlen_nonneg buf). destruct (zlen buf =? 0) eqn:E0; zb_hyps.
    - apply zlen_0 in E0 as ->. split_and!; try done. by exists (chunkbuf ctx).
    - destruct (made_chunk_ok buf) as (Hok & Henc & Hlen); [lia|]. cbn [map concat].
      rewrite !app_nil_r.
      split; [apply Forall_cons_2; [done|apply Forall_nil_2]|]. split; [done|]. split; [done|].
      split; [rewrite Henc; intros Hnil; apply app_eq_nil in Hnil as [_ Hnil];
              by apply app_eq_nil in Hnil as [-> _]|].
      destruct (bq_cwrite_spec _ _ (size_header (zlen buf)) Hq) as (q1 & -> & Hq1).
      cbn [mbind option_bind is_ok].
      destruct (bq_cwrite_spec q1 _ buf Hq1) as (q2 & -> & Hq2). cbn [mbind option_bind is_ok].
      destruct (bq_cwrite_spec q2 _ [13; 10] Hq2) as (q3 & -> & Hq3).
      exists q3. split; [done|]. rewrite Henc. by rewrite <- app_assoc in Hq3. }
  destruct Hcs as (Hcok & Hcb2 & Hclen & Hcnil & q1 & -> & Hq1). cbn [mbind option_bind is_ok negb].
  cbn [read_eos chunkbuf eos]. rewrite Hre1.
  assert (Hinv : forall q b' re, bq_holds q b' -> re = e ->
    b' = concat (map enc_chunk cs) ++ (if e then last_message else []) ->
    enc_inv (mk_reader q re (eos ctx1)) (chunks ++ cs) b' out start r').
  { intros q b' re Hqb -> Hb'. unfold enc_inv. cbn [chunkbuf read_eos eos].
    split; [done|]. split; [by apply Forall_app_2|].
    rewrite !map_app, !concat_app, Hcb2, Hg', Hg, Ho, Hb', <- !app_assoc.
    split; [done|]. split; [done|]. rewrite He1. split; [done|].
    intros -> _. intros Hnil. by apply app_eq_nil in Hnil as [_ ?]. }
  destruct e.
  - destruct (trailer_callback) as [[ok trs]|] eqn:Ecb; [destruct ok|].
    + destruct (add_last_chunk_spec q1 _ Hq1) as (q2 & Hl2 & Hq2); [by rewrite Ecb|].
      rewrite Ecb in Hl2. rewrite Hl2. cbn [mbind option_bind].
      eexists _, r', CURLE_OK. split; [done|]. split; [done|]. intros _.
      exists buf, (concat (map enc_chunk cs) ++ last_message).
      cbn [read_eos eos]. split; [done|]. split; [done|]. split; [zlia|].
      split; [by apply Hinv|].
      split; [intros Hnil; by apply app_eq_nil in Hnil as [_ ?]|].
      split; [right; eexists _, buf, true; split; [apply Hroom|exact Ecr]|].
      intros _. right. eexists _, buf. split; [apply Hroom|exact Ecr].
    + unfold add_last_chunk.
      destruct (bq_cwrite_spec q1 _ (str "0" ++ [13; 10]) Hq1) as (q2 & -> & Hq2).
      cbn [mbind option_bind is_ok negb]. eexists _, r', CURLE_ABORTED_BY_CALLBACK.
      split; [done|]. split; [|done]. intros _. right. by exists trs.
    + destruct (add_last_chunk_spec q1 _ Hq1) as (q2 & Hl2 & Hq2); [by rewrite Ecb|].
      rewrite Ecb in Hl2. rewrite Hl2. cbn [mbind option_bind].
      eexists _, r', CURLE_OK. split; [done|]. split; [done|]. intros _.
      exists buf, (concat (map enc_chunk cs) ++ last_message).
      cbn [read_eos eos]. split; [done|]. split; [done|]. split; [zlia|].
      split; [by apply Hinv|].
      split; [intros Hnil; by apply app_eq_nil in Hnil as [_ ?]|].
      split; [right; eexists _, buf, true; split; [apply Hroom|exact Ecr]|].
      intros _. right. eexists _, buf. split; [apply Hroom|exact Ecr].
  - eexists _, r', CURLE_OK. split; [done|]. split; [done|]. intros _.
    exists buf, (concat (map enc_chunk cs)).
    cbn [read_eos eos]. split; [done|]. split; [done|]. split; [zlia|].
    split; [apply Hinv; [done|done|by rewrite app_nil_r]|]. split.
    + intros Hnil. apply Hcnil in Hnil as ->. eexists _, r'. split; [apply Hroom|exact Ecr].
    + split; [right; eexists _, buf, false; split; [apply Hroom|exact Ecr]|done].
Qed.

(** One call of the reader: what it gives continues the message. *)
Lemma cr_chunked_read_spec ctx r blen chunks b out start :
  enc_inv ctx chunks b out start r -> 0 < blen ->
  exists ctx' r' res bytes peos,
    cr_chunked_read creader_read trailer_callback ctx r blen
    = Some (ctx', r', res, bytes, peos) /\
    (res <> CURLE_OK -> can_fail r) /\
    (res = CURLE_OK -> zlen bytes <= blen /\ peos = eos ctx' /\
     exists new, given r' = given r ++ new /\
     exists chunks' b', enc_inv ctx' (chunks ++ chunks') b' (out ++ bytes) start r' /\
       (read_eos ctx = true -> new = [] /\ read_eos ctx' = true) /\
       (eos ctx = true -> bytes = []) /\
       (bytes = [] -> eos ctx = true \/ pauses r) /\
       end_seen (read_eos ctx) r (read_eos ctx') r' /\
       zlen bytes + zlen b' <= zlen b + (if zlen new =? 0 then 0 else zlen new + 12) +
         (if read_eos ctx' && negb (read_eos ctx) then zlen last_message else 0)).
Proof.
  intros Hinv Hblen. unfold cr_chunked_read. pose proof Hinv as (Hq & Hc & Hg & Ho & Heos & Hne).
  destruct (eos ctx) eqn:He.
  { destruct (Heos eq_refl) as [Hre ->].
    exists ctx, r, CURLE_OK, [], true. split; [done|]. split; [done|].
    intros _. split; [zlia|].
    split; [done|]. exists []. rewrite app_nil_r. split; [done|]. exists [], [].
    rewrite !app_nil_r. split; [done|]. rewrite Hre. split; [done|]. split; [done|].
    split; [by left|]. split; [split; by left|]. done. }
  assert (Hfill : exists ctx1 r1 res1,
    (if negb (read_eos ctx) && bq_is_empty (chunkbuf ctx)
     then add_chunk creader_read trailer_callback ctx r blen else Some (ctx, r, CURLE_OK))
    = Some (ctx1, r1, res1) /\ (res1 <> CURLE_OK -> can_fail r) /\
    (res1 = CURLE_OK -> exists new chunks' b1, given r1 = given r ++ new /\
       eos ctx1 = false /\ enc_inv ctx1 (chunks ++ chunks') b1 out start r1 /\
       (read_eos ctx = true -> new = [] /\ read_eos ctx1 = true) /\
       (b1 = [] -> pauses r) /\ end_seen (read_eos ctx) r (read_eos ctx1) r1 /\
       zlen b1 <= zlen b + (if zlen new =? 0 then 0 else zlen new + 12) +
         (if read_eos ctx1 && negb (read_eos ctx) then zlen last_message else 0))).
  { assert (Hkeep : b <> [] \/ read_eos ctx = true -> exists ctx1 r1 res1,
      Some (ctx, r, CURLE_OK) = Some (ctx1, r1, res1) /\ (res1 <> CURLE_OK -> can_fail r) /\
      (res1 = CURLE_OK -> exists new chunks' b1, given r1 = given r ++ new /\
       eos ctx1 = false /\ enc_inv ctx1 (chunks ++ chunks') b1 out start r1 /\
       (read_eos ctx = true -> new = [] /\ read_eos ctx1 = true) /\
       (b1 = [] -> pauses r) /\ end_seen (read_eos ctx) r (read_eos ctx1) r1 /\
       zlen b1 <= zlen b + (if zlen new =? 0 then 0 else zlen new + 12) +
         (if read_eos ctx1 && negb (read_eos ctx) then zlen last_message else 0))).
    { intros Hb. exists ctx, r, CURLE_OK. split; [done|]. split; [done|].
      intros _. exists [], [], b.
      rewrite !app_nil_r. split; [done|]. split; [done|]. split; [done|]. split; [done|].
      split; [intros ->; destruct Hb as [?|Hb]; [done|]; by destruct (Hne Hb eq_refl)|].
      split; [split; [by left|by left]|].
      change (zlen [] =? 0) with true. cbv iota. pose proof (zlen_nonneg last_message).
      destruct (_ && _); lia. }
    rewrite (bq_is_empty_spec _ b Hq).
    destruct (read_eos ctx) eqn:Hre; cbn [negb andb]; [apply Hkeep; by right|].
    case_bool_decide as Hb; [|apply Hkeep; by left]. clear Hkeep.
    destruct (add_chunk_spec ctx r blen chunks b out start Hinv Hre Hb)
      as (ctx1 & r1 & res1 & -> & Hfail & Hspec). exists ctx1, r1, res1. split; [done|].
    split; [done|]. intros Hres. destruct (Hspec Hres) as (new & b1 & Hg1 & He1 & Hl1 & Hinv1 & Hn1 & Hend1).
    eexists new, _, b1. split; [done|]. split; [done|]. split; [exact Hinv1|]. split; [done|].
    split; [done|]. split; [by rewrite <- Hre|]. subst b. change (zlen []) with 0. rewrite andb_true_r. lia. }
  destruct Hfill as (ctx1 & r1 & res1 & -> & Hfail & Hspec). cbn [mbind option_bind].
  destruct (is_ok res1) eqn:Er; cbn [negb].
  2: { exists ctx1, r1, res1, [], false. split; [done|]. split; [done|]. by intros ->. }
  apply is_ok_iff in Er as ->.
  destruct (Hspec eq_refl) as (new & chunks' & b1 & Hg1 & He1 & Hinv1 & Hre1 & Hn1 & Hend1 & Hl1).
  clear Hspec. pose proof Hinv1 as (Hq1 & Hc1 & Hgg & Ho1 & _ & Hne1).
  rewrite (bq_is_empty_spec _ b1 Hq1). case_bool_decide as Hb1; cbn [negb].
  { subst b1. exists ctx1, r1, CURLE_OK, [], false. split; [done|]. split; [done|]. intros _.
    split; [zlia|]. split; [done|]. exists new. split; [done|]. exists chunks', [].
    rewrite app_nil_r. split; [done|]. split; [done|]. split; [done|].
    split; [by right; apply Hn1|]. split; [done|]. exact Hl1. }
  destruct (bq_cread_spec (chunkbuf ctx1) b1 blen Hq1) as (q2 & -> & Hq2); [lia|].
  cbn [mbind option_bind].
  assert (Hpos : 0 < zlen (ztake blen b1)).
  { rewrite zlen_ztake by lia. destruct b1; [done|]. zlia. }
  replace (zlen (ztake blen b1) =? 0) with false by (symmetry; apply Z.eqb_neq; lia).
  cbn [is_ok andb read_eos eos chunkbuf]. rewrite (bq_is_empty_spec q2 _ Hq2).
  assert (Hrest : forall e : bool, e = read_eos ctx1 && bool_decide (zdrop blen b1 = []) ->
    enc_inv (mk_reader q2 (read_eos ctx1) e) (chunks ++ chunks') (zdrop blen b1)
      (out ++ ztake blen b1) start r1).
  { intros e ->. unfold enc_inv. cbn [chunkbuf read_eos eos].
    rewrite <- app_assoc, ztake_zdrop. split_and!; try done.
    - intros [? Hb]%andb_true_iff. by apply bool_decide_eq_true in Hb.
    - intros Hre. rewrite Hre. cbn [andb]. intros Hb. by apply bool_decide_eq_false in Hb. }
  assert (Hlen : zlen (ztake blen b1) + zlen (zdrop blen b1) = zlen b1)
    by (rewrite <- zlen_app, ztake_zdrop; done).
  assert (Hbytes : zlen (ztake blen b1) <= blen) by (rewrite zlen_ztake; lia).
  assert (Hnn : ztake blen b1 <> []).
  { intros Hz. rewrite Hz in Hpos. by cbv in Hpos. }
  destruct (read_eos ctx1 && bool_decide (zdrop blen b1 = [])) eqn:Eend.
  - eexists _, r1, CURLE_OK, (ztake blen b1), true. split; [done|]. split; [done|]. intros _.
    split; [done|]. split; [done|]. exists new. split; [done|].
    exists chunks', (zdrop blen b1). split; [by apply Hrest|]. split; [done|].
    split; [done|]. split; [done|]. split; [done|]. cbn [read_eos]. lia.
  - eexists _, r1, CURLE_OK, (ztake blen b1), false. split; [done|]. split; [done|]. intros _.
    split; [done|]. split; [done|]. exists new. split; [done|].
    exists chunks', (zdrop blen b1). rewrite He1. split; [by apply Hrest|]. split; [done|].
    split; [done|]. split; [done|]. split; [done|]. cbn [read_eos]. lia.
Qed.

(** Reading until the end of the stream, with buffers of the given sizes. *)
Fixpoint enc_run (ctx : chunked_reader (Q := Q)) (r : R) (blens : list Z)
  : option (chunked_reader (Q := Q) * R * CURLcode * list Z * bool) :=
  match blens with
  | [] => Some (ctx, r, CURLE_OK, [], false)
  | n :: blens =>
      '(ctx, r, res, bytes, peos) ← cr_chunked_read creader_read trailer_callback ctx r n;
      if negb (is_ok res) then Some (ctx, r, res, bytes, peos)
      else if peos : bool then Some (ctx, r, res, bytes, true)
      else
        '(ctx, r, res, bytes2, peos) ← enc_run ctx r blens;
        Some (ctx, r, res, bytes ++ bytes2, peos)
  end.

Lemma enc_run_spec blens : forall ctx r chunks b out start,
  enc_inv ctx chunks b out start r -> Forall (fun n => 0 < n) blens ->
  exists ctx' r' res bytes peos, enc_run ctx r blens = Some (ctx', r', res, bytes, peos) /\
    (res = CURLE_OK -> (peos = true -> eos ctx' = true) /\
     exists chunks' b', enc_inv ctx' chunks' b' (out ++ bytes) start r').
Proof.
  induction blens as [|n blens IH]; intros ctx r chunks b out start Hinv Hb; cbn [enc_run].
  { exists ctx, r, CURLE_OK, [], false. split; [done|]. intros _. split; [done|].
    exists chunks, b. by rewrite app_nil_r. }
  apply Forall_cons in Hb as [Hn Hb].
  destruct (cr_chunked_read_spec ctx r n chunks b out start Hinv Hn)
    as (ctx1 & r1 & res & bytes & peos & -> & _ & Hspec). cbn [mbind option_bind].
  destruct (is_ok res) eqn:Er; cbn [negb].
  2: { exists ctx1, r1, res, bytes, peos. split; [done|]. by intros ->. }
  apply is_ok_iff in Er as ->.
  destruct (Hspec eq_refl) as (_ & -> & new & _ & chunks' & b' & Hinv1 & _).
  destruct (eos ctx1) eqn:He.
  { exists ctx1, r1, CURLE_OK, bytes, true. split; [done|]. intros _. split; [done|].
    by exists (chunks ++ chunks'), b'. }
  destruct (IH ctx1 r1 _ _ _ _ Hinv1 Hb) as (ctx2 & r2 & res2 & bytes2 & peos2 & -> & Hspec2).
  cbn [mbind option_bind]. exists ctx2, r2, res2, (bytes ++ bytes2), peos2. split; [done|].
  intros Hres. rewrite app_assoc. by apply Hspec2.
Qed.

(** What a finished encoder has given out. *)
Lemma enc_inv_end ctx chunks b out start r :
  enc_inv ctx chunks b out start r -> eos ctx = true ->
  out = enc_message chunks (str "0") [13] sent_trailers /\ Forall chunk_ok chunks /\
  given r = start ++ concat (map body chunks).
Proof.
  intros (_ & Hc & Hg & Ho & Heos & _) He. destruct (Heos He) as [Hre ->].
  rewrite Hre, app_nil_r in Ho. split; [|done]. rewrite Ho. unfold last_message, enc_message.
  done.
Qed.

Lemma enc_inv_start q r : bq_holds q [] -> enc_inv (mk_reader q false false) [] [] [] (given r) r.
Proof. intros Hq. unfold enc_inv. cbn. rewrite app_nil_r. split_and!; done. Qed.

Lemma zero_line_ok : size_line_ok (str "0") [13] 0.
Proof. unfold size_line_ok. split_and!; try done; by_compute. Qed.
End encoder_spec.

(** C11: what the encoder gives out decodes to what it has read.  Whatever the
    sizes of the reads before and behind it, when the calls have reached the
    end of the stream, their output, cut into any pieces and with anything
    behind it, makes a new decoder give its client exactly the bytes the
    encoder has read and the trailer fields it was told to send. *)
Theorem encoder_decodes {Q} `{!ByteQueue Q} {R}
    (creader_read : R -> Z -> R * CURLcode * list Z * bool) trailer_callback
    (given : R -> list Z) q r blens ctx' r' out data ch pieces tl :
  (forall r n, 0 < n -> let '(r', res, buf, _) := creader_read r n in
     if is_ok res then zlen buf <= n /\ given r' = given r ++ buf else given r' = given r) ->
  bq_holds q [] -> Forall (fun n => 0 < n) blens ->
  enc_run creader_read trailer_callback (mk_reader q false false) r blens
    = Some (ctx', r', CURLE_OK, out, true) ->
  http_te_skip data = false -> fresh false ch ->
  Forall (trailer_line_ok data) (sent_trailers trailer_callback) ->
  concat pieces = out ++ tl ->
  exists input ch', given r' = given r ++ input /\
    feed sink data ch ([], []) pieces [] =
      Some (CURLE_OK, ch', (input, map enc_trailer (sent_trailers trailer_callback)),
            zlen out, []) /\ state ch' = CHUNK_DONE.
Proof.
  intros Hr Hq Hb Hrun Hskip Hf Ht Hp.
  pose proof (enc_inv_start trailer_callback given q r Hq) as Hinv.
  destruct (enc_run_spec creader_read trailer_callback given Hr blens _ _ _ _ _ _ Hinv Hb)
    as (ctx2 & r2 & res & bytes & peos & Hrun2 & Hspec).
  rewrite Hrun in Hrun2. injection Hrun2 as <- <- <- <- <-.
  destruct (Hspec eq_refl) as [He (chunks & b & Hinv2)]. cbn [app] in Hinv2.
  destruct (enc_inv_end _ _ _ _ _ _ _ _ Hinv2 (He eq_refl)) as (-> & Hc & Hg).
  destruct (decode_pieces data chunks (str "0") [13] (sent_trailers trailer_callback) tl ch
    pieces Hskip Hf Hc zero_line_ok Ht Hp) as (ch' & Hfeed & Hd).
  by exists (concat (map body chunks)), ch'.
Qed.

(** A reader of a string, at most [k] bytes at a time. *)
Definition string_reader (k : Z) (s : list Z * list Z) (n : Z)
  : (list Z * list Z) * CURLcode * list Z * bool :=
  let m := Z.min k n in
  ((fst s ++ ztake m (snd s), zdrop m (snd s)), CURLE_OK, ztake m (snd s),
   bool_decide (zdrop m (snd s) = [])).

Lemma string_reader_ok k : 0 < k -> forall r n, 0 < n ->
  let '(r', res, buf, _) := string_reader k r n in
  if is_ok res then zlen buf <= n /\ fst r' = fst r ++ buf else fst r' = fst r.
Proof. intros Hk r n Hn. cbn. rewrite zlen_ztake by lia. split; [lia|done]. Qed.

Lemma encoder_decodes_witness :
  let q := Curl_bufq_init2 16 2 true false in
  let cb := Some (true, [str "T: 1"; str "bad"]) in
  let data := mk_easy false 3 false in
  exists ctx' r' out, enc_run (string_reader 9) cb (mk_reader q false false)
      ([], str "hello, chunks") [5; 40; 6; 50; 50] = Some (ctx', r', CURLE_OK, out, true) /\
    exists input ch', fst r' = [] ++ input /\
      feed sink data (example_decoder false) ([], []) [ztake 3 out; zdrop 3 out; str "X"] [] =
        Some (CURLE_OK, ch', (input, map enc_trailer (sent_trailers cb)), zlen out, []) /\
      state ch' = CHUNK_DONE.
Proof.
  intros q cb data. do 3 eexists. split; [vm_compute; reflexivity|].
  eapply (encoder_decodes (string_reader 9) cb fst q ([], str "hello, chunks")
    [5; 40; 6; 50; 50] _ _ _ data (example_decoder false)).
  - apply string_reader_ok. reflexivity.
  - split; [|reflexivity]. apply init_rep; cbv; [split; [reflexivity|discriminate]|reflexivity].
  - by_compute.
  - vm_compute. reflexivity.
  - reflexivity.
  - apply fresh_example.
  - by_compute.
  - vm_compute. reflexivity.
Defined.

(** * The encoder finishes *)

Section finish.
Context {Q : Type} `{!ByteQueue Q} (k n : Z) (Hk : 0 < k) (Hn : 0 < n).
Context (cb : option (bool * list (list Z))).
Context (Hcb : match cb with Some (ok, _) => ok = true | None => True end).

(** The output that can still come. *)
Definition outstanding (ctx : chunked_reader (Q := Q)) (b : list Z) (r : list Z * list Z) : Z :=
  zlen b + (if read_eos ctx then 0 else 13 * zlen (snd r) + zlen (last_message cb)).

Lemma string_reader_cannot_fail r : ~ can_fail (string_reader k) cb r.
Proof.
  intros [(m & r' & res & buf & e & H & Hr)|(trs & ->)]; [|done].
  injection H as <- <- <- <-. done.
Qed.

Lemma string_reader_no_pause r : ~ pauses (string_reader k) r.
Proof.
  intros (m & r' & Hm & H). injection H as _ Hz He. apply bool_decide_eq_false in He.
  apply He. apply (f_equal zlen) in Hz. rewrite zlen_ztake in Hz by lia.
  change (zlen []) with 0 in Hz. apply zlen_0. rewrite zlen_zdrop by lia.
  pose proof (zlen_nonneg (snd r)). lia.
Qed.

Lemma string_reader_end s re r re' r' : end_seen (string_reader k) re r re' r' ->
  (re = true -> snd r = []) -> fst r ++ snd r = s ->
  re' = true -> snd r' = [].
Proof.
  intros [_ He] Hr Hs Hre. destruct (He Hre) as [[Hre1 ->]|(m & buf & Hm & H)]; [by apply Hr|].
  injection H as <- _ Hz. by apply bool_decide_eq_true in Hz.
Qed.

Lemma string_reader_const re r re' r' s : end_seen (string_reader k) re r re' r' ->
  fst r ++ snd r = s -> fst r' ++ snd r' = s.
Proof.
  intros [[->|(m & buf & e & Hm & H)] _] <-; [done|]. injection H as <- _ _. cbn.
  by rewrite <- app_assoc, ztake_zdrop.
Qed.

Lemma enc_run_finishes fuel : forall ctx r chunks b out s,
  enc_inv cb fst ctx chunks b out [] r -> eos ctx = false ->
  fst r ++ snd r = s -> (read_eos ctx = true -> snd r = []) ->
  outstanding ctx b r <= Z.of_nat fuel ->
  exists ctx' out', enc_run (string_reader k) cb ctx r (replicate fuel n)
    = Some (ctx', (s, []), CURLE_OK, out', true).
Proof.
  induction fuel as [|fuel IH]; intros ctx r chunks b out s Hinv He Hs Hre Hf.
  { exfalso. unfold outstanding in Hf. pose proof Hinv as (_ & _ & _ & _ & _ & Hne).
    pose proof (zlen_nonneg (snd r)). pose proof (zlen_nonneg b).
    assert (0 < zlen (last_message cb)).
    { destruct (last_message cb) eqn:E; [by apply (last_message_nonempty cb) in E|zlia]. }
    destruct (read_eos ctx); [|lia]. specialize (Hne eq_refl He). destruct b; [done|zlia]. }
  cbn [replicate enc_run].
  destruct (cr_chunked_read_spec (string_reader k) cb fst (string_reader_ok k Hk)
    ctx r n chunks b out [] Hinv Hn) as (ctx1 & r1 & res & bytes & peos & -> & Hfail & Hspec).
  cbn [mbind option_bind]. destruct (is_ok res) eqn:Er; cbn [negb].
  2: { apply is_ok_false in Er. by destruct (string_reader_cannot_fail r (Hfail Er)). }
  apply is_ok_iff in Er as ->.
  destruct (Hspec eq_refl) as (_ & -> & new & Hnew & chunks' & b' & Hinv1 & Hold & _ & Hb & Hend & Hlen).
  pose proof (string_reader_const _ _ _ _ s Hend Hs) as Hs1.
  pose proof (string_reader_end s _ _ _ _ Hend Hre Hs) as Hsnd.
  destruct (eos ctx1) eqn:He1.
  { destruct Hinv1 as (_ & _ & _ & _ & Heos1 & _). destruct (Heos1 He1) as [Hre1 _].
    exists ctx1, bytes. specialize (Hsnd Hre1). destruct r1 as [g rest]. cbn in *. subst rest.
    rewrite app_nil_r in Hs1. by rewrite Hs1. }
  assert (Hbytes : 0 < zlen bytes).
  { destruct bytes as [|x bytes]; [|zlia]. destruct (Hb eq_refl) as [?|Hp]; [congruence|].
    by destruct (string_reader_no_pause r Hp). }
  assert (Hrest : zlen (snd r1) = zlen (snd r) - zlen new).
  { assert (Hz : zlen (fst r1 ++ snd r1) = zlen (fst r ++ snd r)) by congruence.
    rewrite Hnew in Hz. zlia. }
  destruct (IH ctx1 r1 _ b' _ s Hinv1 He1 Hs1 Hsnd) as (ctx2 & out2 & ->).
  { unfold outstanding in *. zlen_pos.
    destruct (read_eos ctx) eqn:Hrc.
    - destruct (Hold eq_refl) as [-> Hr1]. rewrite Hr1 in *. cbn [negb andb] in Hlen.
      change (zlen [] =? 0) with true in Hlen. cbv iota in Hlen. lia.
    - destruct (read_eos ctx1); cbn [negb andb] in Hlen; destruct (zlen new =? 0) eqn:E0;
        zb_hyps; lia. }
  cbn [mbind option_bind]. by exists ctx2, (bytes ++ out2).
Qed.
End finish.

(** The encoder finishes: reading a body of any length from a reader that
    gives at least one byte per call, with read buffers of any size, reaches
    the end of the stream, with all of the body read, after at most 13 calls
    per byte of the body and one per byte of the last chunk. *)
Theorem encoder_finishes {Q} `{!ByteQueue Q} k n cb q s :
  0 < k -> 0 < n -> match cb with Some (ok, _) => ok = true | None => True end ->
  bq_holds q [] ->
  exists ctx' out, enc_run (string_reader k) cb (mk_reader q false false) ([], s)
      (replicate (Z.to_nat (13 * zlen s + zlen (last_message cb))) n)
    = Some (ctx', (s, []), CURLE_OK, out, true).
Proof.
  intros Hk Hn Hcb Hq.
  apply (enc_run_finishes k n Hk Hn cb Hcb _ _ ([], s) [] [] [] s);
    [|done|done|done|].
  - apply (enc_inv_start cb fst q ([], s) Hq).
  - unfold outstanding. change (zlen []) with 0. cbn. zlen_pos. lia.
Qed.

Lemma encoder_finishes_witness :
  exists ctx' out, enc_run (string_reader 2) None
      (mk_reader (Curl_bufq_init2 8 2 true false) false false) ([], str "abc")
      (replicate 44 1) = Some (ctx', (str "abc", []), CURLE_OK, out, true).
Proof.
  apply (encoder_finishes 2 1 None (Curl_bufq_init2 8 2 true false) (str "abc")).
  - reflexivity.
  - reflexivity.
  - exact I.
  - split; [|reflexivity]. apply init_rep; cbv; [split; [reflexivity|discriminate]|reflexivity].
Defined.
