(* ===== verification/UintBset.v ===== *)
(** The bit set of unsigned integers, lib/uint-bset.c.

    Data and operations, the bit counting functions against their definition
    by bits, and the refinement of a finite set of numbers ([gset Z]) by any
    sequence of operations.  The set abstraction is shared with the sparse
    set (UintSpbset). *)

From Stdlib Require Import ZArith Lia List Sorted.
From stdpp Require Import base numbers option list gmap fin_sets.
From S2P Require Import Prelude.
Close Scope nat_scope.
Open Scope Z_scope.

(** * Bit counting (uint-bset.c, the portable versions) *)

Definition Curl_popcount64 (x : Z) : Z :=
  let m1 := 0x5555555555555555 in
  let m2 := 0x3333333333333333 in
  let m4 := 0x0f0f0f0f0f0f0f0f in
  let h01 := 0x0101010101010101 in
  let x := u64 (x - Z.land (Z.shiftr x 1) m1) in
  let x := u64 (Z.land x m2 + Z.land (Z.shiftr x 2) m2) in
  let x := Z.land (u64 (x + Z.shiftr x 4)) m4 in
  u32 (Z.shiftr (u64 (x * h01)) 56).

Definition Curl_ctz64 (x : Z) : Z :=
  let ml32 := 0xFFFFFFFF in
  let ml16 := 0x0000FFFF in
  let ml8 := 0x000000FF in
  let ml4 := 0x0000000F in
  let ml2 := 0x00000003 in
  if x =? 0 then 64
  else
    let n := 1 in
    let '(n, x) := if Z.land x ml32 =? 0 then (n + 32, Z.shiftr x 32) else (n, x) in
    let '(n, x) := if Z.land x ml16 =? 0 then (n + 16, Z.shiftr x 16) else (n, x) in
    let '(n, x) := if Z.land x ml8 =? 0 then (n + 8, Z.shiftr x 8) else (n, x) in
    let '(n, x) := if Z.land x ml4 =? 0 then (n + 4, Z.shiftr x 4) else (n, x) in
    let '(n, x) := if Z.land x ml2 =? 0 then (n + 2, Z.shiftr x 2) else (n, x) in
    u32 (n - u32 (Z.land x 1)).

(** * The bit set

    [slots] is the allocated array; an access outside of it is [None]. *)

Record uint32_bset := mk_bset {
  slots : list Z;
  nslots : Z;
  first_slot_used : Z;
}.

Definition Curl_uint32_bset_init : uint32_bset := mk_bset [] 0 0.

Definition Curl_uint32_bset_resize (b : uint32_bset) (nmax : Z) (o : allocs)
  : CURLcode * uint32_bset * allocs :=
  let n := if nmax <? UINT32_MAX - 63 then u32 (nmax + 63) / 64 else UINT32_MAX / 64 in
  if negb (n =? nslots b) then
    let '(ok, o) := next_alloc o in
    if ok then
      let kept := ztake (Z.min n (nslots b)) (slots b) in
      (CURLE_OK, mk_bset (kept ++ replicate (Z.to_nat (n - zlen kept)) 0) n 0, o)
    else (CURLE_OUT_OF_MEMORY, b, o)
  else (CURLE_OK, b, o).

Definition Curl_uint32_bset_destroy (b : uint32_bset) : uint32_bset := mk_bset [] 0 0.

Definition uint32_bset_capacity (b : uint32_bset) : Z := u32 (nslots b * 64).

(** [for(i = 0; i < nslots; ++i) if(slots[i]) n += POPCOUNT64(slots[i]);] *)
Fixpoint count_loop (fuel : nat) (l : list Z) (nsl i n : Z) : option Z :=
  if i <? nsl then
    x ← l !! Z.to_nat i;
    let n := if negb (x =? 0) then u32 (n + Curl_popcount64 x) else n in
    match fuel with O => None | S fuel => count_loop fuel l nsl (u32 (i + 1)) n end
  else Some n.

Definition Curl_uint32_bset_count (b : uint32_bset) : option Z :=
  count_loop (Z.to_nat (nslots b)) (slots b) (nslots b) 0 0.

(** [for(; i < nslots; ++i) if(slots[i]) ...]: the first slot from [i] on that
    is not zero, with its content. *)
Fixpoint next_used (fuel : nat) (l : list Z) (nsl i : Z) : option (option (Z * Z)) :=
  if i <? nsl then
    x ← l !! Z.to_nat i;
    if negb (x =? 0) then Some (Some (i, x))
    else match fuel with O => None | S fuel => next_used fuel l nsl (u32 (i + 1)) end
  else Some None.

Definition Curl_uint32_bset_empty (b : uint32_bset) : option bool :=
  r ← next_used (Z.to_nat (nslots b)) (slots b) (nslots b) (first_slot_used b);
  match r with Some _ => Some false | None => Some true end.

Definition Curl_uint32_bset_clear (b : uint32_bset) : uint32_bset :=
  if negb (nslots b =? 0) then
    mk_bset (replicate (Z.to_nat (nslots b)) 0) (nslots b) UINT32_MAX
  else b.

(** The bit of [i] in its word: set, cleared, tested.  [not64] is the
    complement of a 64-bit word. *)
Definition not64 (x : Z) : Z := u64 (Z.lnot x).

Definition set_bit (x i : Z) : Z := Z.lor x (u64 (Z.shiftl 1 (i mod 64))).

Definition clear_bit (x i : Z) : Z := Z.land x (not64 (u64 (Z.shiftl 1 (i mod 64)))).

Definition test_bit (x i : Z) : bool := negb (Z.land x (u64 (Z.shiftl 1 (i mod 64))) =? 0).

Definition Curl_uint32_bset_add (b : uint32_bset) (i : Z) : option (bool * uint32_bset) :=
  let islot := i / 64 in
  if islot >=? nslots b then Some (false, b)
  else
    x ← slots b !! Z.to_nat islot;
    Some (true, mk_bset (<[Z.to_nat islot := set_bit x i]> (slots b))
                  (nslots b)
                  (if islot <? first_slot_used b then islot else first_slot_used b)).

Definition Curl_uint32_bset_remove (b : uint32_bset) (i : Z) : option uint32_bset :=
  let islot := i / 64 in
  if islot <? nslots b then
    x ← slots b !! Z.to_nat islot;
    Some (mk_bset (<[Z.to_nat islot := clear_bit x i]> (slots b))
            (nslots b) (first_slot_used b))
  else Some b.

Definition Curl_uint32_bset_contains (b : uint32_bset) (i : Z) : option bool :=
  let islot := i / 64 in
  if islot >=? nslots b then Some false
  else
    x ← slots b !! Z.to_nat islot;
    Some (test_bit x i).

Definition Curl_uint32_bset_first (b : uint32_bset) : option (bool * Z * uint32_bset) :=
  r ← next_used (Z.to_nat (nslots b)) (slots b) (nslots b) (first_slot_used b);
  match r with
  | Some (i, x) =>
      Some (true, u32 (u32 (i * 64) + Curl_ctz64 x), mk_bset (slots b) (nslots b) i)
  | None => Some (false, UINT32_MAX, mk_bset (slots b) (nslots b) UINT32_MAX)
  end.

Definition Curl_uint32_bset_next (b : uint32_bset) (last : Z) : option (bool * Z) :=
  let last := u32 (last + 1) in
  let islot := last / 64 in
  if islot <? nslots b then
    y ← slots b !! Z.to_nat islot;
    let x := Z.shiftr y (last mod 64) in
    if negb (x =? 0) then Some (true, u32 (last + Curl_ctz64 x))
    else
      r ← next_used (Z.to_nat (nslots b)) (slots b) (nslots b) (u32 (islot + 1));
      match r with
      | Some (i, x) => Some (true, u32 (u32 (i * 64) + Curl_ctz64 x))
      | None => Some (false, UINT32_MAX)
      end
  else Some (false, UINT32_MAX).

(** * Bits *)

Lemma land_split n a b x y :
  0 <= n -> 0 <= a < 2 ^ n -> 0 <= b < 2 ^ n ->
  Z.land (a + 2 ^ n * x) (b + 2 ^ n * y) = Z.land a b + 2 ^ n * Z.land x y.
Proof.
  intros Hn Ha Hb.
  assert (Hl : 0 <= Z.land a b < 2 ^ n).
  { split; [apply Z.land_nonneg; lia|].
    rewrite <- (Z.mod_small a (2 ^ n)), <- Z.land_ones, <- Z.land_assoc, (Z.land_comm (Z.ones n)),
      Z.land_assoc, Z.land_ones by lia.
    apply Z.mod_pos_bound. lia. }
  replace (a + 2 ^ n * x) with (Z.lor (Z.shiftl x n) a) by (rewrite lor_shiftl_add by lia; lia).
  replace (b + 2 ^ n * y) with (Z.lor (Z.shiftl y n) b) by (rewrite lor_shiftl_add by lia; lia).
  replace (Z.land a b + 2 ^ n * Z.land x y)
    with (Z.lor (Z.shiftl (Z.land x y) n) (Z.land a b)) by (rewrite lor_shiftl_add by lia; lia).
  apply Z.bits_inj'. intros i Hi. rewrite Z.land_spec, !Z.lor_spec, Z.land_spec.
  destruct (Z.lt_ge_cases i n).
  - by rewrite !Z.shiftl_spec_low.
  - rewrite !Z.shiftl_spec, Z.land_spec by lia.
    rewrite (testbit_high a n i), (testbit_high b n i), !orb_false_r by lia. done.
Qed.

(** The number with the digits [ds] in base [2 ^ k], lowest first. *)
Fixpoint value (k : Z) (ds : list Z) : Z :=
  match ds with [] => 0 | d :: ds => d + 2 ^ k * value k ds end.

(** The sums of two neighbours. *)
Fixpoint pairs (ds : list Z) : list Z :=
  match ds with a :: b :: ds => (a + b) :: pairs ds | _ => [] end.

(** [n] times [k] zeros and [k] ones. *)
Fixpoint mask (k : Z) (n : nat) : Z :=
  match n with O => 0 | S n => (2 ^ k - 1) + 2 ^ (2 * k) * mask k n end.

Definition sum (ds : list Z) : Z := foldr Z.add 0 ds.

Lemma sum_pairs n : forall ds, length ds = (2 * n)%nat -> sum (pairs ds) = sum ds.
Proof.
  induction n as [|n IH]; intros [|a [|b ds]] H; cbn in H; try lia; [done|].
  cbn [pairs sum foldr] in *. unfold sum in *. rewrite IH by lia. lia.
Qed.

Lemma pairs_length n : forall ds, length ds = (2 * n)%nat -> length (pairs ds) = n.
Proof.
  induction n as [|n IH]; intros [|a [|b ds]] H; cbn in H; try lia; [done|].
  cbn. rewrite IH by lia. done.
Qed.

Lemma pairs_bound m n : forall ds, length ds = (2 * n)%nat ->
  Forall (fun d => 0 <= d <= m) ds -> Forall (fun d => 0 <= d <= 2 * m) (pairs ds).
Proof.
  induction n as [|n IH]; intros [|a [|b ds]] H Hf; cbn in H; try lia; [constructor|].
  apply Forall_cons in Hf as [Ha Hf]. apply Forall_cons in Hf as [Hb Hf].
  cbn. apply Forall_cons_2; [lia|]. apply IH; [lia|done].
Qed.

Lemma pow_double k : 0 <= k -> 2 ^ (2 * k) = 2 ^ k * 2 ^ k.
Proof. intros. rewrite <- Z.pow_add_r by lia. f_equal. lia. Qed.

(** The three ways the counting adds neighbouring digits. *)
Lemma land_low k a b y m : 0 <= k -> 0 <= a < 2 ^ k -> 0 <= b < 2 ^ k ->
  Z.land (a + 2 ^ k * (b + 2 ^ k * y)) (2 ^ k - 1 + 2 ^ (2 * k) * m)
  = a + 2 ^ (2 * k) * Z.land y m.
Proof.
  intros Hk Ha Hb. pose proof (pow_double k Hk) as Hp.
  replace (a + 2 ^ k * (b + 2 ^ k * y)) with ((a + 2 ^ k * b) + 2 ^ (2 * k) * y) by nia.
  rewrite land_split by nia. f_equal. rewrite land_mask by lia.
  replace (a + 2 ^ k * b) with (a + b * 2 ^ k) by lia.
  rewrite Z.mod_add by lia. by apply Z.mod_small.
Qed.

Lemma value_digit k d ds : 0 <= k -> 0 <= d < 2 ^ k -> Z.shiftr (value k (d :: ds)) k = value k ds.
Proof.
  intros Hk Hd. rewrite Z.shiftr_div_pow2 by lia. cbn [value].
  rewrite (Z.mul_comm (2 ^ k)), Z.div_add by lia. rewrite Z.div_small by lia. lia.
Qed.

Lemma value_tail k ds : 0 <= k -> Forall (fun d => 0 <= d < 2 ^ k) ds ->
  Z.shiftr (value k ds) k = value k (tail ds).
Proof.
  intros Hk [|d ds' Hd _]; [apply Z.shiftr_0_l|]. by apply value_digit.
Qed.

(** A digit and the rest, for a list that may be empty. *)
Lemma value_hd k ds : value k ds = hd 0 ds + 2 ^ k * value k (tail ds).
Proof. destruct ds; cbn; lia. Qed.

Lemma hd_bound k ds : 0 <= k -> Forall (fun d => 0 <= d < 2 ^ k) ds -> 0 <= hd 0 ds < 2 ^ k.
Proof. intros Hk [|d ds' Hd _]; cbn; [|done]. pose proof (Z.pow_pos_nonneg 2 k). lia. Qed.

Lemma swar_parts k n : 0 <= k -> forall ds, length ds = (2 * n)%nat ->
  Forall (fun d => 0 <= d < 2 ^ k) ds ->
  let even := Z.land (value k ds) (mask k n) in
  let odd := Z.land (value k (tail ds)) (mask k n) in
  even + odd = value (2 * k) (pairs ds) /\ value k ds = even + 2 ^ k * odd.
Proof.
  intros Hk. induction n as [|n IH]; intros [|a [|b ds]] H Hf; cbn in H; try lia;
    [cbn; rewrite ?Z.land_0_r; lia|].
  apply Forall_cons in Hf as [Ha Hf]. apply Forall_cons in Hf as [Hb Hf].
  destruct (IH ds ltac:(lia) Hf) as [IH1 IH2].
  pose proof (pow_double k Hk) as Hp.
  cbn [value tail mask pairs]. rewrite land_low by lia.
  assert (Ho : Z.land (b + 2 ^ k * value k ds) (2 ^ k - 1 + 2 ^ (2 * k) * mask k n)
    = b + 2 ^ (2 * k) * Z.land (value k (tail ds)) (mask k n)).
  { rewrite (value_hd k ds). rewrite land_low; [done|lia|lia|by apply hd_bound]. }
  rewrite Ho, <- IH1. split; [lia|]. rewrite IH2 at 1. nia.
Qed.

Lemma swar_add k n : 0 < k -> forall ds, length ds = (2 * n)%nat ->
  Forall (fun d => 0 <= d < 2 ^ (k - 1)) ds ->
  Z.land (value k ds + value k (tail ds)) (mask k n) = value (2 * k) (pairs ds).
Proof.
  intros Hk. pose proof (Z.pow_succ_r 2 (k - 1) ltac:(lia)) as Hp.
  replace (Z.succ (k - 1)) with k in Hp by lia.
  induction n as [|n IH]; intros [|a [|b ds]] H Hf; cbn in H; try lia; [done|].
  apply Forall_cons in Hf as [Ha Hf]. apply Forall_cons in Hf as [Hb Hf].
  cbn [value tail mask pairs]. rewrite <- IH by (done || lia).
  assert (Hh : 0 <= hd 0 ds < 2 ^ (k - 1)).
  { destruct Hf; cbn; lia. }
  replace (a + 2 ^ k * (b + 2 ^ k * value k ds) + (b + 2 ^ k * value k ds))
    with ((a + b) + 2 ^ k * ((b + hd 0 ds) + 2 ^ k * (value k ds + value k (tail ds)))).
  - apply land_low; lia.
  - pose proof (value_hd k ds). nia.
Qed.

(** The lowest [n] bits of [x], as digits. *)
Fixpoint bits (n : nat) (x : Z) : list Z :=
  match n with O => [] | S n => x mod 2 :: bits n (x / 2) end.

Lemma bits_length n : forall x, length (bits n x) = n.
Proof. induction n; intros; cbn; [done|]. by rewrite IHn. Qed.

Lemma bits_bound n : forall x, Forall (fun d => 0 <= d <= 1) (bits n x).
Proof. induction n; intros; cbn; constructor; [dlia|done]. Qed.

Lemma value_bits n : forall x, value 1 (bits n x) = x mod 2 ^ Z.of_nat n.
Proof.
  induction n as [|n IH]; intros x; [cbn; by rewrite Z.mod_1_r|].
  cbn [bits value]. rewrite IH, Nat2Z.inj_succ, Z.pow_succ_r by lia.
  rewrite Z.rem_mul_r by lia. lia.
Qed.

(** The number of one bits. *)
Definition popcount (x : Z) : Z := sum (bits 64 x).

Lemma value_bound k m ds : 0 <= k -> 0 <= m < 2 ^ k -> Forall (fun d => 0 <= d <= m) ds ->
  0 <= value k ds < 2 ^ (k * zlen ds).
Proof.
  intros Hk Hm. induction 1 as [|d ds Hd Hf IH].
  { change (zlen []) with 0. rewrite Z.mul_0_r. cbn. lia. }
  cbn [value]. rewrite zlen_cons, Z.mul_add_distr_l, Z.mul_1_r.
  rewrite Z.pow_add_r by zlia. nia.
Qed.

Lemma value_le k m ds : 0 <= k -> 0 <= m -> Forall (fun d => 0 <= d <= m) ds ->
  (2 ^ k - 1) * value k ds <= m * (2 ^ (k * zlen ds) - 1).
Proof.
  intros Hk Hm. induction 1 as [|d ds Hd Hf IH].
  { change (zlen []) with 0. cbn [value]. rewrite !Z.mul_0_r. change (2 ^ 0) with 1. lia. }
  cbn [value]. replace (k * zlen (d :: ds)) with (k + k * zlen ds) by (rewrite zlen_cons; lia).
  rewrite Z.pow_add_r by zlia. assert (HP : 0 < 2 ^ k) by (apply Z.pow_pos_nonneg; lia).
  set (P := 2 ^ k) in *. set (E := 2 ^ (k * zlen ds)) in *. set (V := value k ds) in *.
  assert (P * ((P - 1) * V) <= P * (m * (E - 1))) by (apply Z.mul_le_mono_nonneg_l; lia).
  assert ((P - 1) * d <= (P - 1) * m) by (apply Z.mul_le_mono_nonneg_l; lia).
  clearbody P E V. nia.
Qed.

Lemma top_byte a b c d e f g h :
  Forall (fun x => 0 <= x <= 8) [a; b; c; d; e; f; g; h] ->
  u32 (Z.shiftr (u64 (value 8 [a; b; c; d; e; f; g; h] * 0x0101010101010101)) 56)
  = sum [a; b; c; d; e; f; g; h].
Proof.
  intros H. rewrite !Forall_cons in H. destruct_and! H.
  cbn [value sum foldr]. change (2 ^ 8) with 256.
  set (s := a + (b + (c + (d + (e + (f + (g + (h + 0)))))))).
  set (low := a + 256 * (a + b) + 65536 * (a + b + c) + 16777216 * (a + b + c + d)
    + 4294967296 * (a + b + c + d + e) + 1099511627776 * (a + b + c + d + e + f)
    + 281474976710656 * (a + b + c + d + e + f + g)).
  set (high := (b + c + d + e + f + g + h) + 256 * (c + d + e + f + g + h)
    + 65536 * (d + e + f + g + h) + 16777216 * (e + f + g + h)
    + 4294967296 * (f + g + h) + 1099511627776 * (g + h) + 281474976710656 * h).
  match goal with |- u32 (Z.shiftr (u64 ?v) 56) = s =>
    replace v with ((72057594037927936 * s + low) + high * 2 ^ 64)
      by (unfold s, low, high; lia) end.
  assert (Hl : 0 <= low < 72057594037927936) by (unfold low; lia).
  assert (Hs : 0 <= s <= 64) by (unfold s; lia).
  unfold u64. rewrite Z.mod_add, Z.mod_small by lia.
  rewrite Z.shiftr_div_pow2 by lia. change (2 ^ 56) with 72057594037927936.
  rewrite (Z.mul_comm 72057594037927936), Z.div_add_l, Z.div_small, Z.add_0_r by lia.
  apply u32_small. unfold UINT32_MAX. lia.
Qed.

Lemma popcount64_spec x : 0 <= x < 2 ^ 64 -> Curl_popcount64 x = popcount x.
Proof.
  intros Hx. unfold popcount.
  pose proof (bits_length 64 x) as L0. pose proof (bits_bound 64 x) as B0.
  assert (V0 : value 1 (bits 64 x) = x).
  { rewrite value_bits. apply Z.mod_small. done. }
  set (d0 := bits 64 x) in *. clearbody d0.
  pose proof (pairs_length 32 d0 L0) as L1. pose proof (pairs_bound 1 32 d0 L0 B0) as B1.
  pose proof (pairs_length 16 _ L1) as L2. pose proof (pairs_bound 2 16 _ L1 B1) as B2.
  pose proof (pairs_length 8 _ L2) as L3. pose proof (pairs_bound 4 8 _ L2 B2) as B3.
  rewrite <- (sum_pairs 32 d0 L0), <- (sum_pairs 16 _ L1), <- (sum_pairs 8 _ L2).
  set (d1 := pairs d0) in *. set (d2 := pairs d1) in *. set (d3 := pairs d2) in *.
  assert (R : forall k m ds, 0 <= k -> 0 <= m < 2 ^ k -> Forall (fun d => 0 <= d <= m) ds ->
    zlen ds * k <= 64 -> 0 <= value k ds <= SIZE_MAX).
  { intros k m ds Hk Hm Hf Hl. pose proof (value_bound k m ds Hk Hm Hf).
    pose proof (Z.pow_le_mono_r 2 (k * zlen ds) 64). unfold SIZE_MAX. lia. }
  unfold Curl_popcount64.
  change 0x5555555555555555 with (mask 1 32). change 0x3333333333333333 with (mask 2 16).
  change 0x0f0f0f0f0f0f0f0f with (mask 4 8).
  assert (S1 : u64 (x - Z.land (Z.shiftr x 1) (mask 1 32)) = value 2 d1).
  { assert (F : Forall (fun d => 0 <= d < 2 ^ 1) d0) by (eapply Forall_impl; [exact B0|cbn; lia]).
    destruct (swar_parts 1 32 ltac:(lia) d0 L0 F) as [E1 E2].
    rewrite <- V0 at 1 2. rewrite value_tail by (done || lia).
    rewrite E2 at 1. change (2 ^ 1) with 2.
    match goal with |- u64 ?v = _ => replace v with (value (2 * 1) (pairs d0)) by lia end.
    apply u64_small, (R _ 2); [lia|lia|done|unfold zlen; fold d1; rewrite L1; lia]. }
  rewrite S1.
  assert (S2 : u64 (Z.land (value 2 d1) (mask 2 16) + Z.land (Z.shiftr (value 2 d1) 2) (mask 2 16))
    = value 4 d2).
  { assert (F : Forall (fun d => 0 <= d < 2 ^ 2) d1) by (eapply Forall_impl; [exact B1|cbn; lia]).
    destruct (swar_parts 2 16 ltac:(lia) d1 L1 F) as [E1 _].
    rewrite value_tail by (done || lia). rewrite E1.
    apply u64_small, (R _ 4); [lia|lia|done|unfold zlen; fold d2; rewrite L2; lia]. }
  rewrite S2.
  assert (F : Forall (fun d => 0 <= d < 2 ^ (4 - 1)) d2) by (eapply Forall_impl; [exact B2|cbn; lia]).
  rewrite value_tail by (lia || (eapply Forall_impl; [exact B2|cbn; lia])).
  assert (S3 : u64 (value 4 d2 + value 4 (tail d2)) = value 4 d2 + value 4 (tail d2)).
  { pose proof (value_bound 4 4 d2 ltac:(lia) ltac:(lia) B2) as [V1 _].
    pose proof (value_hd 4 d2). pose proof (hd_bound 4 d2 ltac:(lia)
      ltac:(eapply Forall_impl; [exact B2|cbn; lia])).
    assert (zlen d2 = 16) as Hz by (unfold zlen; lia).
    destruct d2 as [|e d2']; [done|]. apply u64_small. cbn [tail] in *.
    apply Forall_cons in B2 as [B2 B2']. rewrite zlen_cons in Hz.
    pose proof (value_bound 4 4 d2' ltac:(lia) ltac:(lia) B2') as [V2 _].
    pose proof (value_le 4 4 d2' ltac:(lia) ltac:(lia) B2') as V3.
    replace (4 * zlen d2') with 60 in V3 by lia. unfold SIZE_MAX.
    change (2 ^ 60) with 1152921504606846976 in V3. change (2 ^ 4) with 16 in *. cbn [hd] in *. lia. }
  rewrite S3, (swar_add 4 8 ltac:(lia) d2 L2 F). change (2 * 4) with 8. fold d3.
  clearbody d3. do 8 (destruct d3 as [|? d3]; [done|]). destruct d3; [|done].
  by apply top_byte.
Qed.

(** [t] is the lowest one bit of [x]. *)
Definition lowest (x t : Z) : Prop :=
  0 <= t /\ Z.testbit x t = true /\ forall j, 0 <= j < t -> Z.testbit x j = false.

Lemma lowest_exists x : 0 < x -> exists t, lowest x t.
Proof.
  destruct x as [|p|p]; try lia. intros _. induction p as [p IH|p [t (H1 & H2 & H3)]|].
  - exists 0. split; [lia|]. split; [done|lia].
  - exists (Z.succ t). split; [lia|]. split; [by rewrite (Z.testbit_even_succ (Z.pos p))|].
    intros j Hj. change (Z.pos p~0) with (2 * Z.pos p).
    destruct (Z.eq_dec j 0) as [->|]; [done|].
    replace j with (Z.succ (j - 1)) by lia. rewrite Z.testbit_even_succ by lia. apply H3. lia.
  - exists 0. split; [lia|]. split; [done|lia].
Qed.

Lemma lowest_lt x t n : 0 <= x < 2 ^ n -> lowest x t -> t < n.
Proof.
  intros Hx (H1 & H2 & _). destruct (Z.lt_ge_cases t n); [done|].
  by rewrite (testbit_high x n) in H2.
Qed.

Lemma lowest_mask x t k : 0 <= k -> lowest x t ->
  (Z.land x (2 ^ k - 1) =? 0) = negb (t <? k).
Proof.
  intros Hk (H1 & H2 & H3). rewrite land_mask by lia. destruct (Z.ltb_spec t k); cbn.
  - apply Z.eqb_neq. intros E. rewrite <- (Z.mod_pow2_bits_low x k) in H2 by lia.
    by rewrite E, Z.bits_0 in H2.
  - apply Z.eqb_eq, Z.bits_inj'. intros j Hj. rewrite Z.bits_0.
    destruct (Z.lt_ge_cases j k).
    + rewrite Z.mod_pow2_bits_low by lia. apply H3. lia.
    + by apply Z.mod_pow2_bits_high.
Qed.

Lemma lowest_shiftr x t k : 0 <= k <= t -> lowest x t -> lowest (Z.shiftr x k) (t - k).
Proof.
  intros Hk (H1 & H2 & H3). split; [lia|]. rewrite Z.shiftr_spec by lia.
  split; [by replace (t - k + k) with t by lia|].
  intros j Hj. rewrite Z.shiftr_spec by lia. apply H3. lia.
Qed.

(** One halving step of the count. *)
Lemma ctz_step n x t k : 0 <= k -> lowest x t -> t < 2 * k ->
  exists x' t', (if Z.land x (2 ^ k - 1) =? 0 then (n + k, Z.shiftr x k) else (n, x))
    = (n + t - t', x') /\ lowest x' t' /\ 0 <= t' < k.
Proof.
  intros Hk Hl Ht. rewrite (lowest_mask x t k Hk Hl). pose proof Hl as (H0 & _).
  destruct (Z.ltb_spec t k); cbn.
  - exists x, t. split; [f_equal; lia|]. split; [done|lia].
  - exists (Z.shiftr x k), (t - k). split; [f_equal; lia|].
    split; [by apply lowest_shiftr|lia].
Qed.

Lemma ctz64_spec x : 0 < x < 2 ^ 64 -> lowest x (Curl_ctz64 x).
Proof.
  intros Hx. destruct (lowest_exists x) as [t Ht]; [lia|].
  pose proof (lowest_lt x t 64 ltac:(lia) Ht) as Hlt.
  assert (Curl_ctz64 x = t) as ->; [|done].
  unfold Curl_ctz64. destruct (Z.eqb_spec x 0); [lia|].
  destruct (ctz_step 1 x t 32 ltac:(lia) Ht Hlt) as (x1 & t1 & E1 & L1 & T1).
  change 0xFFFFFFFF with (2 ^ 32 - 1). rewrite E1. clear E1.
  destruct (ctz_step (1 + t - t1) x1 t1 16 ltac:(lia) L1 ltac:(lia)) as (x2 & t2 & E2 & L2 & T2).
  change 0x0000FFFF with (2 ^ 16 - 1). rewrite E2. clear E2.
  destruct (ctz_step (1 + t - t1 + t1 - t2) x2 t2 8 ltac:(lia) L2 ltac:(lia))
    as (x3 & t3 & E3 & L3 & T3).
  change 0x000000FF with (2 ^ 8 - 1). rewrite E3. clear E3.
  destruct (ctz_step (1 + t - t1 + t1 - t2 + t2 - t3) x3 t3 4 ltac:(lia) L3 ltac:(lia))
    as (x4 & t4 & E4 & L4 & T4).
  change 0x0000000F with (2 ^ 4 - 1). rewrite E4. clear E4.
  destruct (ctz_step (1 + t - t1 + t1 - t2 + t2 - t3 + t3 - t4) x4 t4 2 ltac:(lia) L4 ltac:(lia))
    as (x5 & t5 & E5 & L5 & T5).
  change 0x00000003 with (2 ^ 2 - 1). rewrite E5. clear E5.
  pose proof (lowest_mask x5 t5 1 ltac:(lia) L5) as Hm. change (2 ^ 1 - 1) with 1 in Hm.
  pose proof (land_mask x5 1 ltac:(lia)) as Hb. change (2 ^ 1 - 1) with 1 in Hb.
  pose proof (Z.mod_pos_bound x5 (2 ^ 1) ltac:(lia)) as Hr. rewrite <- Hb in Hr.
  change (2 ^ 1) with 2 in Hr. pose proof Ht as (H0 & _).
  rewrite (u32_small (Z.land x5 1)) by (unfold UINT32_MAX; lia).
  destruct (Z.ltb_spec t5 1); cbn in Hm; zb_hyps; rewrite u32_small; unfold UINT32_MAX; lia.
Qed.

(** The numbers of the one bits among the lowest [n] of [x], from [base]. *)
Fixpoint bit_elems (n : nat) (base x : Z) : list Z :=
  match n with
  | O => []
  | S n => (if Z.testbit x 0 then [base] else []) ++ bit_elems n (base + 1) (x / 2)
  end.

Lemma elem_of_bit_elems n : forall base x i,
  i ∈ bit_elems n base x <-> base <= i < base + Z.of_nat n /\ Z.testbit x (i - base) = true.
Proof.
  induction n as [|n IH]; intros base x i; cbn [bit_elems].
  { rewrite elem_of_nil. lia. }
  rewrite elem_of_app, IH.
  assert (E : base + 1 <= i -> Z.testbit (x / 2) (i - (base + 1)) = Z.testbit x (i - base)).
  { intros. rewrite Z.div2_bits by lia. f_equal. lia. }
  destruct (Z.testbit x 0) eqn:E0; rewrite ?list_elem_of_singleton, ?elem_of_nil.
  - split.
    + intros [->|[H1 H2]]; [rewrite Z.sub_diag; split; [lia|done]|].
      rewrite <- E by lia. split; [lia|done].
    + intros [H1 H2]. destruct (Z.eq_dec i base); [by left|right].
      rewrite E by lia. split; [lia|done].
  - split.
    + intros [[]|[H1 H2]]. rewrite <- E by lia. split; [lia|done].
    + intros [H1 H2]. right. destruct (Z.eq_dec i base) as [->|].
      { rewrite Z.sub_diag in H2. congruence. }
      rewrite E by lia. split; [lia|done].
Qed.

Lemma nodup_bit_elems n : forall base x, NoDup (bit_elems n base x).
Proof.
  induction n as [|n IH]; intros base x; cbn [bit_elems]; [constructor|].
  apply NoDup_app. split; [destruct (Z.testbit x 0); [apply NoDup_singleton|constructor]|].
  split; [|apply IH]. intros i Hi. rewrite elem_of_bit_elems.
  destruct (Z.testbit x 0); [|by apply elem_of_nil in Hi].
  apply list_elem_of_singleton in Hi as ->. lia.
Qed.

Lemma zlen_bit_elems n : forall base x, zlen (bit_elems n base x) = sum (bits n x).
Proof.
  induction n as [|n IH]; intros base x; [done|].
  cbn [bit_elems bits sum foldr]. fold (sum (bits n (x / 2))).
  rewrite zlen_app, IH, <- Z.bit0_mod. by destruct (Z.testbit x 0).
Qed.

(** [Curl_popcount64] is the number of one bits of a 64-bit word, and
    [Curl_ctz64] its lowest one bit, 64 for zero. *)
Theorem bit_counts_correct x : 0 <= x < 2 ^ 64 ->
  Curl_popcount64 x = zlen (filter (fun i => Z.testbit x i = true) (seqZ 0 64)) /\
  (if x =? 0 then Curl_ctz64 x = 64
   else 0 <= Curl_ctz64 x < 64 /\ Z.testbit x (Curl_ctz64 x) = true /\
     forall j, 0 <= j < Curl_ctz64 x -> Z.testbit x j = false).
Proof.
  intros Hx. split.
  - rewrite popcount64_spec by done. unfold popcount. rewrite <- (zlen_bit_elems 64 0).
    unfold zlen. f_equal. apply Permutation_length, NoDup_Permutation.
    + apply nodup_bit_elems.
    + apply NoDup_filter, NoDup_seqZ.
    + intros i. rewrite elem_of_bit_elems, list_elem_of_filter, elem_of_seqZ, Z.sub_0_r.
      rewrite (and_comm _ (Z.testbit x i = true)). f_equiv. lia.
  - destruct (Z.eqb_spec x 0) as [->|]; [done|].
    pose proof (ctz64_spec x ltac:(lia)) as H. pose proof (lowest_lt _ _ 64 Hx H).
    destruct H as (? & ? & ?). done.
Qed.

Lemma bit_counts_correct_witness :
  Curl_popcount64 0x8000000000000050
    = zlen (filter (fun i => Z.testbit 0x8000000000000050 i = true) (seqZ 0 64)) /\
  Curl_ctz64 0x8000000000000050 < 64.
Proof.
  destruct (bit_counts_correct 0x8000000000000050) as [H1 H2]; [by_compute|].
  split; [exact H1|]. apply H2.
Defined.

(** * The numbers of an array of words *)

(** Bit [i mod 64] of word [i / 64] is set. *)
Definition has (l : list Z) (i : Z) : Prop :=
  0 <= i /\ exists x, l !! Z.to_nat (i / 64) = Some x /\ Z.testbit x (i mod 64) = true.

Definition word (x : Z) : Prop := 0 <= x < 2 ^ 64.

Lemma word_of_bits x : 0 <= x -> (forall m, 64 <= m -> Z.testbit x m = false) -> word x.
Proof.
  intros Hx Hm. split; [done|]. replace x with (x mod 2 ^ 64); [apply Z.mod_pos_bound; lia|].
  apply Z.bits_inj'. intros m Hm0. destruct (Z.lt_ge_cases m 64).
  - apply Z.mod_pow2_bits_low. lia.
  - rewrite Z.mod_pow2_bits_high by lia. symmetry. by apply Hm.
Qed.

Lemma one_bit i : u64 (Z.shiftl 1 (i mod 64)) = Z.shiftl 1 (i mod 64).
Proof.
  pose proof (Z.mod_pos_bound i 64 ltac:(lia)) as H. rewrite Z.shiftl_1_l.
  apply Z.mod_small. split; [lia|]. apply Z.pow_lt_mono_r; lia.
Qed.

Lemma set_bit_spec x i m : 0 <= m ->
  Z.testbit (set_bit x i) m = (i mod 64 =? m) || Z.testbit x m.
Proof. intros. unfold set_bit. rewrite one_bit. apply Z.setbit_eqb. dlia. Qed.

Lemma set_bit_word x i : word x -> word (set_bit x i).
Proof.
  intros Hx. pose proof Hx as Hx'. apply word_of_bits.
  - unfold set_bit. rewrite one_bit. apply Z.lor_nonneg. split; [apply Hx|].
    rewrite Z.shiftl_1_l. apply Z.pow_nonneg. lia.
  - intros m Hm. rewrite set_bit_spec by lia. rewrite (testbit_high x 64) by done.
    destruct (Z.eqb_spec (i mod 64) m); [|done]. dlia.
Qed.

Lemma clear_bit_spec x i m : word x -> 0 <= m ->
  Z.testbit (clear_bit x i) m = negb (i mod 64 =? m) && Z.testbit x m.
Proof.
  intros Hx Hm. unfold clear_bit, not64. rewrite one_bit, Z.land_spec.
  destruct (Z.lt_ge_cases m 64).
  - unfold u64. rewrite Z.mod_pow2_bits_low, Z.lnot_spec, Z.shiftl_1_l by lia.
    rewrite Z.pow2_bits_eqb by dlia. apply andb_comm.
  - rewrite (testbit_high x 64) by done. by rewrite andb_false_r.
Qed.

Lemma clear_bit_word x i : word x -> word (clear_bit x i).
Proof.
  intros Hx. apply word_of_bits.
  - unfold clear_bit. apply Z.land_nonneg. left. apply Hx.
  - intros m Hm. rewrite clear_bit_spec by (done || lia).
    by rewrite (testbit_high x 64), andb_false_r.
Qed.

Lemma test_bit_spec x i : test_bit x i = Z.testbit x (i mod 64).
Proof.
  unfold test_bit. rewrite one_bit. pose proof (Z.mod_pos_bound i 64 ltac:(lia)) as Hi.
  destruct (Z.testbit x (i mod 64)) eqn:E.
  - apply negb_true_iff, Z.eqb_neq. intros H0.
    apply (f_equal (fun z => Z.testbit z (i mod 64))) in H0.
    rewrite Z.land_spec, E, Z.bits_0, Z.shiftl_1_l, Z.pow2_bits_true in H0; [done|lia].
  - apply negb_false_iff, Z.eqb_eq, Z.bits_inj'. intros m Hm.
    rewrite Z.land_spec, Z.shiftl_1_l, Z.pow2_bits_eqb, Z.bits_0 by lia.
    destruct (Z.eqb_spec (i mod 64) m) as [<-|]; [by rewrite E|apply andb_false_r].
Qed.

(** The place of a number. *)
Lemma place_eq i k : 0 <= i -> 0 <= k ->
  Z.to_nat (i / 64) = Z.to_nat (k / 64) -> i mod 64 = k mod 64 -> i = k.
Proof. intros. assert (i / 64 = k / 64) by dlia. dlia. Qed.

Lemma has_test l i x : 0 <= i -> l !! Z.to_nat (i / 64) = Some x ->
  test_bit x i = true <-> has l i.
Proof.
  intros Hi Hx. rewrite test_bit_spec. unfold has. rewrite Hx. split.
  - intros H. split; [done|]. by exists x.
  - intros (_ & y & [= <-] & Hy). done.
Qed.

Lemma has_set l i x k : 0 <= i -> l !! Z.to_nat (i / 64) = Some x ->
  has (<[Z.to_nat (i / 64) := set_bit x i]> l) k <-> k = i \/ has l k.
Proof.
  intros Hi Hx. pose proof (lookup_lt_Some _ _ _ Hx) as Hlt. unfold has. split.
  - intros (Hk & y & Hy & Hb). apply list_lookup_insert_Some in Hy as [(E & <- & _)|[_ Hy]].
    + rewrite set_bit_spec in Hb by dlia. apply orb_true_iff in Hb as [Hb|Hb].
      * left. zb_hyps. symmetry. by apply place_eq.
      * right. split; [done|]. exists x. by rewrite <- E.
    + right. split; [done|]. by exists y.
  - intros [->|(Hk & y & Hy & Hb)]; (split; [done|]).
    + exists (set_bit x i). rewrite list_lookup_insert_eq by done. split; [done|].
      rewrite set_bit_spec by dlia. by rewrite Z.eqb_refl.
    + destruct (decide (Z.to_nat (i / 64) = Z.to_nat (k / 64))) as [E|E].
      * exists (set_bit x i). rewrite <- E, list_lookup_insert_eq by done. split; [done|].
        rewrite set_bit_spec by dlia. rewrite <- E, Hx in Hy. injection Hy as <-.
        by rewrite Hb, orb_true_r.
      * exists y. by rewrite list_lookup_insert_ne.
Qed.

Lemma has_clear l i x k : 0 <= i -> Forall word l -> l !! Z.to_nat (i / 64) = Some x ->
  has (<[Z.to_nat (i / 64) := clear_bit x i]> l) k <-> k <> i /\ has l k.
Proof.
  intros Hi Hw Hx. pose proof (lookup_lt_Some _ _ _ Hx) as Hlt.
  pose proof (Forall_lookup_1 _ _ _ _ Hw Hx) as Hxw. unfold has. split.
  - intros (Hk & y & Hy & Hb). apply list_lookup_insert_Some in Hy as [(E & <- & _)|[E Hy]].
    + rewrite clear_bit_spec in Hb by (done || dlia). zb_hyps.
      split; [congruence|]. split; [done|]. exists x. by rewrite <- E.
    + split; [congruence|]. split; [done|]. by exists y.
  - intros (Hne & Hk & y & Hy & Hb). split; [done|].
    destruct (decide (Z.to_nat (i / 64) = Z.to_nat (k / 64))) as [E|E].
    + exists (clear_bit x i). rewrite <- E, list_lookup_insert_eq by done. split; [done|].
      rewrite clear_bit_spec by (done || dlia). rewrite <- E, Hx in Hy. injection Hy as <-.
      rewrite Hb, andb_true_r. apply negb_true_iff, Z.eqb_neq. intros E2.
      apply Hne. symmetry. by apply place_eq.
    + exists y. by rewrite list_lookup_insert_ne.
Qed.

Lemma has_below l i : has l i -> 0 <= i < 64 * zlen l.
Proof.
  intros (Hi & x & Hx & _). apply lookup_lt_Some in Hx. unfold zlen. dlia.
Qed.

(** All the numbers, in order. *)
Fixpoint elems (base : Z) (l : list Z) : list Z :=
  match l with [] => [] | x :: l => bit_elems 64 base x ++ elems (base + 64) l end.

Lemma has_cons x l i :
  has (x :: l) i <-> (0 <= i < 64 /\ Z.testbit x i = true) \/ has l (i - 64).
Proof.
  unfold has. split.
  - intros (Hi & y & Hy & Hb). destruct (Z.lt_ge_cases i 64) as [Hlt|Hge].
    + left. rewrite Z.div_small in Hy by lia. injection Hy as ->.
      rewrite Z.mod_small in Hb by lia. done.
    + right. split; [lia|]. exists y. replace (Z.to_nat (i / 64)) with (S (Z.to_nat ((i - 64) / 64))) in Hy by dlia.
      replace ((i - 64) mod 64) with (i mod 64) by dlia. done.
  - intros [[Hi Hb]|(Hi & y & Hy & Hb)].
    + split; [lia|]. exists x. by rewrite Z.div_small, Z.mod_small by lia.
    + split; [lia|]. exists y. replace (Z.to_nat (i / 64)) with (S (Z.to_nat ((i - 64) / 64))) by dlia.
      replace (i mod 64) with ((i - 64) mod 64) by dlia. done.
Qed.

Lemma elem_of_elems l : forall base i, i ∈ elems base l <-> has l (i - base).
Proof.
  induction l as [|x l IH]; intros base i; cbn [elems].
  - rewrite elem_of_nil. split; [done|]. intros (_ & y & Hy & _). by rewrite lookup_nil in Hy.
  - rewrite elem_of_app, has_cons, IH, elem_of_bit_elems. change (Z.of_nat 64) with 64.
    replace (i - (base + 64)) with (i - base - 64) by lia.
    f_equiv. split; intros [? ?]; (split; [lia|done]).
Qed.

Lemma nodup_elems l : forall base, NoDup (elems base l).
Proof.
  induction l as [|x l IH]; intros base; cbn [elems]; [constructor|].
  apply NoDup_app. split; [apply nodup_bit_elems|]. split; [|apply IH].
  intros i. rewrite elem_of_bit_elems, elem_of_elems. intros [H _] [H2 _]. lia.
Qed.

Lemma elems_app l k : forall base, elems base (l ++ k) = elems base l ++ elems (base + 64 * zlen l) k.
Proof.
  induction l as [|x l IH]; intros base; cbn [elems app].
  { change (zlen []) with 0. do 2 f_equal. lia. }
  rewrite IH, zlen_cons, app_assoc. do 2 f_equal. lia.
Qed.

Lemma elems_zeros n : forall base, elems base (replicate n 0) = [].
Proof.
  induction n as [|n IH]; intros base; [done|]. cbn [replicate elems]. rewrite IH, app_nil_r.
  destruct (bit_elems 64 base 0) as [|i r] eqn:E; [done|].
  assert (Hi : i ∈ bit_elems 64 base 0) by (rewrite E; left).
  apply elem_of_bit_elems in Hi as [_ Hi]. by rewrite Z.bits_0 in Hi.
Qed.

Lemma bit_elems_le base x : zlen (bit_elems 64 base x) <= 64.
Proof.
  rewrite zlen_bit_elems. assert (H : forall n y, sum (bits n y) <= Z.of_nat n).
  { induction n as [|n IH]; intros y; [cbn; lia|]. cbn [bits sum foldr].
    specialize (IH (y / 2)). unfold sum in IH. dlia. }
  apply (H 64%nat).
Qed.

Lemma elems_le l : forall base, zlen (elems base l) <= 64 * zlen l.
Proof.
  induction l as [|x l IH]; intros base; cbn [elems]; [done|].
  rewrite zlen_app, zlen_cons. specialize (IH (base + 64)).
  pose proof (bit_elems_le base x). lia.
Qed.

Lemma zlen_elems_base l : forall base base', zlen (elems base l) = zlen (elems base' l).
Proof.
  induction l as [|x l IH]; intros base base'; [done|]. cbn [elems].
  rewrite !zlen_app, !zlen_bit_elems. by rewrite (IH _ (base' + 64)).
Qed.

Lemma count_loop_spec k : forall fuel l n,
  Forall word k -> 0 <= n <= UINT32_MAX -> zlen (l ++ k) <= UINT32_MAX -> (length k <= fuel)%nat ->
  count_loop fuel (l ++ k) (zlen (l ++ k)) (zlen l) n = Some (u32 (n + zlen (elems 0 k))).
Proof.
  induction k as [|x k IH]; intros fuel l n Hw Hn Hl Hf.
  { rewrite !app_nil_r. cbn [elems]. change (zlen []) with 0. rewrite Z.add_0_r, (u32_small n) by done.
    destruct fuel; cbn [count_loop]; by rewrite Z.ltb_irrefl. }
  destruct fuel as [|fuel]; [cbn in Hf; lia|]. cbn [count_loop].
  replace (zlen l <? zlen (l ++ x :: k)) with true by (symmetry; apply Z.ltb_lt; zlia).
  assert ((l ++ x :: k) !! Z.to_nat (zlen l) = Some x) as ->.
  { apply list_lookup_middle. unfold zlen. lia. }
  cbn [mbind option_bind]. apply Forall_cons in Hw as [Hx Hw].
  assert (En : (if negb (x =? 0) then u32 (n + Curl_popcount64 x) else n)
    = u32 (n + zlen (bit_elems 64 0 x))).
  { rewrite zlen_bit_elems. destruct (Z.eqb_spec x 0) as [->|]; cbn [negb].
    - change (sum (bits 64 0)) with 0. by rewrite Z.add_0_r, u32_small.
    - by rewrite popcount64_spec. }
  rewrite En. replace (u32 (zlen l + 1)) with (zlen (l ++ [x])) by (rewrite u32_small; zlia).
  replace (l ++ x :: k) with ((l ++ [x]) ++ k) in * by (by rewrite <- app_assoc).
  rewrite IH; [|done|apply u32_range|done|cbn in Hf; lia].
  cbn [elems]. rewrite zlen_app, (zlen_elems_base k (0 + 64) 0). f_equal.
  unfold u32. rewrite Zplus_mod_idemp_l. f_equal. lia.
Qed.

(** * Searching *)

(** [r] is the least number from [n] on with [P], if there is one. *)
Definition least (P : Z -> Prop) (n : Z) (r : option Z) : Prop :=
  match r with
  | Some m => P m /\ n <= m /\ forall k, P k -> n <= k -> m <= k
  | None => forall k, P k -> k < n
  end.

Lemma least_ext P Q n r : (forall i, P i <-> Q i) -> least P n r -> least Q n r.
Proof.
  intros E. destruct r; cbn.
  - intros (H1 & H2 & H3). split; [by apply E|]. split; [done|]. intros k Hk. by apply H3, E.
  - intros H k Hk. by apply H, E.
Qed.

Lemma next_used_spec fuel : forall l i, 0 <= i -> zlen l <= UINT32_MAX ->
  zlen l - i <= Z.of_nat fuel ->
  exists r, next_used fuel l (zlen l) i = Some r /\
    match r with
    | Some (j, x) => i <= j < zlen l /\ l !! Z.to_nat j = Some x /\ x <> 0 /\
        forall k, i <= k < j -> l !! Z.to_nat k = Some 0
    | None => forall k, i <= k < zlen l -> l !! Z.to_nat k = Some 0
    end.
Proof.
  induction fuel as [|fuel IH]; intros l i Hi Hl Hf; cbn [next_used].
  { replace (i <? zlen l) with false by (symmetry; apply Z.ltb_ge; lia).
    exists None. split; [done|lia]. }
  destruct (Z.ltb_spec i (zlen l)) as [Hlt|]; [|exists None; split; [done|lia]].
  destruct (lookup_lt_is_Some_2 l (Z.to_nat i)) as [x Hx]; [unfold zlen in Hlt; lia|].
  rewrite Hx. cbn [mbind option_bind]. destruct (Z.eqb_spec x 0) as [->|Hx0]; cbn [negb].
  - rewrite u32_small by lia. destruct (IH l (i + 1)) as (r & -> & Hr); [lia|done|lia|].
    exists r. split; [done|]. assert (Hz : forall k, i <= k -> ~ i + 1 <= k -> l !! Z.to_nat k = Some 0).
    { intros k H1 H2. by replace k with i by lia. }
    destruct r as [[j x]|].
    + destruct Hr as (H1 & H2 & H3 & H4). split; [lia|]. split; [done|]. split; [done|].
      intros k Hk. destruct (Z_le_dec (i + 1) k); [apply H4; lia|apply Hz; lia].
    + intros k Hk. destruct (Z_le_dec (i + 1) k); [apply Hr; lia|apply Hz; lia].
  - exists (Some (i, x)). split; [done|]. split; [lia|]. split; [done|]. split; [done|lia].
Qed.

(** The number the search finds. *)
Definition found (r : option (Z * Z)) : option Z :=
  match r with Some (j, x) => Some (64 * j + Curl_ctz64 x) | None => None end.

Lemma has_nonzero l i k : has l k -> l !! Z.to_nat i = Some 0 -> k / 64 = i -> False.
Proof.
  intros (_ & y & Hy & Hb) H0 <-. rewrite H0 in Hy. injection Hy as <-. by rewrite Z.bits_0 in Hb.
Qed.

Lemma least_scan l i : 0 <= i -> Forall word l -> zlen l <= UINT32_MAX ->
  exists r, next_used (Z.to_nat (zlen l)) l (zlen l) i = Some r /\
    least (has l) (64 * i) (found r) /\
    match r with
    | Some (j, x) => i <= j < zlen l /\ l !! Z.to_nat j = Some x /\ 0 <= Curl_ctz64 x < 64 /\
        forall k, i <= k < j -> l !! Z.to_nat k = Some 0
    | None => forall k, i <= k < zlen l -> l !! Z.to_nat k = Some 0
    end.
Proof.
  intros Hi Hw Hl.
  destruct (next_used_spec (Z.to_nat (zlen l)) l i Hi Hl) as (r & Hr & Hs); [zlia|].
  exists r. split; [done|]. destruct r as [[j x]|]; cbn [found least].
  - destruct Hs as (Hj & Hx & Hx0 & Hz).
    pose proof (Forall_lookup_1 _ _ _ _ Hw Hx) as Hxw. unfold word in Hxw.
    pose proof (ctz64_spec x ltac:(lia)) as Hc. pose proof (lowest_lt _ _ 64 Hxw Hc) as Hc64.
    destruct Hc as (Hc0 & Hc1 & Hc2). split; [|split; [lia|]; split; [done|]; split; [lia|done]].
    split; [|split; [lia|]].
    + split; [lia|]. exists x. replace ((64 * j + Curl_ctz64 x) / 64) with j by dlia.
      replace ((64 * j + Curl_ctz64 x) mod 64) with (Curl_ctz64 x) by dlia. done.
    + intros k Hk Hik. destruct (Z.lt_ge_cases (k / 64) j) as [Hlt|Hge].
      { destruct (has_nonzero l (k / 64) k Hk); [apply Hz; dlia|done]. }
      destruct (Z.eq_dec (k / 64) j) as [E|]; [|dlia].
      destruct Hk as (_ & y & Hy & Hb). rewrite E, Hx in Hy. injection Hy as <-.
      destruct (Z.lt_ge_cases (k mod 64) (Curl_ctz64 x)) as [Hlt|]; [|dlia].
      rewrite Hc2 in Hb; [done|dlia].
  - split; [|done]. intros k Hk. destruct (Z.lt_ge_cases k (64 * i)) as [|Hge]; [done|].
    pose proof (has_below l k Hk). destruct (has_nonzero l (k / 64) k Hk); [apply Hs; dlia|done].
Qed.

(** The rest of the word a number is in. *)
Lemma next_in_word l n y : 0 <= n -> Forall word l -> l !! Z.to_nat (n / 64) = Some y ->
  let x := Z.shiftr y (n mod 64) in
  if x =? 0 then forall k, has l k -> n <= k -> 64 * (n / 64 + 1) <= k
  else least (has l) n (Some (n + Curl_ctz64 x)) /\ 0 <= Curl_ctz64 x < 64 - n mod 64.
Proof.
  intros Hn Hw Hy x. pose proof (Forall_lookup_1 _ _ _ _ Hw Hy) as Hyw. unfold word in Hyw.
  pose proof (Z.mod_pos_bound n 64 ltac:(lia)) as Hm.
  assert (Hsame : forall k, has l k -> n <= k -> k / 64 = n / 64 ->
    Z.testbit x (k - n) = true).
  { intros k (Hk & z & Hz & Hb) Hnk E. rewrite E, Hy in Hz. injection Hz as <-.
    unfold x. rewrite Z.shiftr_spec by lia. replace (k - n + n mod 64) with (k mod 64) by dlia. done. }
  destruct (Z.eqb_spec x 0) as [E0|E0].
  - intros k Hk Hnk. destruct (Z.eq_dec (k / 64) (n / 64)) as [E|]; [|dlia].
    specialize (Hsame k Hk Hnk E). by rewrite E0, Z.bits_0 in Hsame.
  - assert (Hx : 0 < x < 2 ^ 64).
    { assert (0 <= x <= y); [|lia]. unfold x. rewrite Z.shiftr_div_pow2 by lia.
      assert (0 < 2 ^ (n mod 64)) by (apply Z.pow_pos_nonneg; lia).
      split; [apply Z.div_pos; lia|]. apply Z.div_le_upper_bound; nia. }
    destruct (ctz64_spec x Hx) as (Hc0 & Hc1 & Hc2).
    pose proof (Z.shiftr_spec y (n mod 64) _ Hc0) as Hs. fold x in Hs. rewrite Hs in Hc1.
    assert (Hc : Curl_ctz64 x < 64 - n mod 64).
    { destruct (Z.lt_ge_cases (Curl_ctz64 x) (64 - n mod 64)); [done|].
      rewrite (testbit_high y 64) in Hc1; [done|done|lia]. }
    split; [|lia]. split; [|split; [lia|]].
    + split; [lia|]. exists y. replace ((n + Curl_ctz64 x) / 64) with (n / 64) by dlia.
      replace ((n + Curl_ctz64 x) mod 64) with (Curl_ctz64 x + n mod 64) by dlia. done.
    + intros k Hk Hnk. destruct (Z.eq_dec (k / 64) (n / 64)) as [E|]; [|dlia].
      specialize (Hsame k Hk Hnk E).
      destruct (Z.lt_ge_cases (k - n) (Curl_ctz64 x)); [|lia]. rewrite Hc2 in Hsame; [done|lia].
Qed.

(** * The operations on the set of numbers *)

Lemma difference_absent (s : gset Z) i : i ∉ s -> s ∖ {[i]} = s.
Proof.
  intros H. apply set_eq. intros k. rewrite elem_of_difference, elem_of_singleton.
  split; [tauto|]. intros Hk. split; [done|]. by intros ->.
Qed.

Record bset_rep (b : uint32_bset) (s : gset Z) : Prop := {
  rep_len : zlen (slots b) = nslots b;
  rep_max : nslots b <= UINT32_MAX / 64;
  rep_words : Forall word (slots b);
  rep_first : 0 <= first_slot_used b <= UINT32_MAX /\
    forall k, 0 <= k < first_slot_used b -> k < nslots b -> slots b !! Z.to_nat k = Some 0;
  rep_mem : forall i, i ∈ s <-> has (slots b) i;
}.

Lemma rep_len_max b s : bset_rep b s -> 0 <= nslots b <= 67108863.
Proof. intros [H1 H2 _ _ _]. change (UINT32_MAX / 64) with 67108863 in H2. zlia. Qed.

Lemma init_bset_rep : bset_rep Curl_uint32_bset_init ∅.
Proof.
  split; [done|done|constructor|split; [done|cbn; intros; lia]|].
  intros i. split; [set_solver|].
  intros H. apply has_below in H. unfold zlen in H. cbn in H. lia.
Qed.

Lemma slot_lookup b s k : bset_rep b s -> 0 <= k < nslots b ->
  exists x, slots b !! Z.to_nat k = Some x /\ word x.
Proof.
  intros R Hk. destruct (lookup_lt_is_Some_2 (slots b) (Z.to_nat k)) as [x Hx].
  { pose proof (rep_len b s R). unfold zlen in *. lia. }
  exists x. split; [done|]. exact (Forall_lookup_1 _ _ _ _ (rep_words b s R) Hx).
Qed.

Lemma rep_below b s i : bset_rep b s -> i ∈ s -> 0 <= i < 64 * nslots b.
Proof. intros R Hi. rewrite <- (rep_len b s R). by apply has_below, (rep_mem b s R). Qed.

Lemma add_spec b s i : bset_rep b s -> 0 <= i ->
  exists ok b', Curl_uint32_bset_add b i = Some (ok, b') /\ nslots b' = nslots b /\
    if i <? 64 * nslots b then ok = true /\ bset_rep b' ({[i]} ∪ s)
    else ok = false /\ b' = b.
Proof.
  intros R Hi. unfold Curl_uint32_bset_add. pose proof (rep_len_max b s R) as Hmax.
  rewrite Z.geb_leb. destruct (Z.leb_spec (nslots b) (i / 64)).
  { exists false, b. replace (i <? 64 * nslots b) with false by (symmetry; apply Z.ltb_ge; dlia).
    done. }
  destruct (slot_lookup b s (i / 64) R) as (x & Hx & Hw); [dlia|]. rewrite Hx.
  cbn [mbind option_bind]. do 2 eexists. split; [reflexivity|]. split; [done|].
  replace (i <? 64 * nslots b) with true by (symmetry; apply Z.ltb_lt; dlia).
  split; [done|]. destruct R as [R1 R2 R3 [R4 R5] R6]. split; cbn [slots nslots first_slot_used].
  - unfold zlen in *. by rewrite length_insert.
  - done.
  - apply Forall_insert; [done|by apply set_bit_word].
  - assert (Hf : (if i / 64 <? first_slot_used b then i / 64 else first_slot_used b)
      = Z.min (i / 64) (first_slot_used b)) by (case_if; lia). rewrite Hf.
    split; [dlia|]. intros k Hk Hk2. rewrite list_lookup_insert_ne by dlia. apply R5; lia.
  - intros k. rewrite has_set by done. rewrite elem_of_union, elem_of_singleton.
    by rewrite (R6 k).
Qed.

Lemma remove_spec b s i : bset_rep b s -> 0 <= i ->
  exists b', Curl_uint32_bset_remove b i = Some b' /\ nslots b' = nslots b /\
    bset_rep b' (s ∖ {[i]}).
Proof.
  intros R Hi. unfold Curl_uint32_bset_remove. pose proof (rep_len_max b s R) as Hmax.
  destruct (Z.ltb_spec (i / 64) (nslots b)) as [Hlt|Hge].
  - destruct (slot_lookup b s (i / 64) R) as (x & Hx & Hw); [dlia|]. rewrite Hx.
    cbn [mbind option_bind]. eexists. split; [reflexivity|]. split; [done|].
    destruct R as [R1 R2 R3 [R4 R5] R6]. split; cbn [slots nslots first_slot_used].
    + unfold zlen in *. by rewrite length_insert.
    + done.
    + apply Forall_insert; [done|by apply clear_bit_word].
    + split; [done|]. intros k Hk Hk2. specialize (R5 k Hk Hk2).
      destruct (decide (Z.to_nat (i / 64) = Z.to_nat k)) as [E|].
      * rewrite <- E, list_lookup_insert_eq by (apply lookup_lt_Some in Hx; done).
        rewrite <- E, Hx in R5. injection R5 as ->. unfold clear_bit. by rewrite Z.land_0_l.
      * by rewrite list_lookup_insert_ne.
    + intros k. rewrite has_clear by done. rewrite elem_of_difference, elem_of_singleton.
      rewrite (R6 k). tauto.
  - exists b. split; [done|]. split; [done|].
    rewrite difference_absent; [done|]. intros H. pose proof (rep_below b s i R H). dlia.
Qed.

Lemma contains_spec b s i : bset_rep b s -> 0 <= i ->
  Curl_uint32_bset_contains b i = Some (bool_decide (i ∈ s)).
Proof.
  intros R Hi. unfold Curl_uint32_bset_contains.
  rewrite Z.geb_leb. destruct (Z.leb_spec (nslots b) (i / 64)).
  - f_equal. symmetry. apply bool_decide_eq_false. intros H1.
    pose proof (rep_below b s i R H1). dlia.
  - destruct (slot_lookup b s (i / 64) R) as (x & Hx & Hw); [dlia|]. rewrite Hx.
    cbn [mbind option_bind]. f_equal. pose proof (has_test (slots b) i x Hi Hx) as H1.
    rewrite <- (rep_mem b s R) in H1. destruct (test_bit x i).
    + symmetry. apply bool_decide_eq_true. by apply H1.
    + symmetry. apply bool_decide_eq_false. intros H2. apply H1 in H2. done.
Qed.

Lemma size_elems b s : bset_rep b s -> Z.of_nat (size s) = zlen (elems 0 (slots b)).
Proof.
  intros R. assert (E : s = list_to_set (elems 0 (slots b))).
  { apply set_eq. intros i. rewrite elem_of_list_to_set, elem_of_elems, Z.sub_0_r.
    apply (rep_mem b s R). }
  rewrite E at 1. rewrite size_list_to_set by apply nodup_elems. done.
Qed.

Lemma count_spec b s : bset_rep b s ->
  Curl_uint32_bset_count b = Some (Z.of_nat (size s)).
Proof.
  intros R. pose proof (rep_len_max b s R) as Hmax. rewrite (size_elems b s R).
  unfold Curl_uint32_bset_count. rewrite <- (rep_len b s R) in *.
  rewrite (count_loop_spec (slots b) _ [] 0).
  - f_equal. apply u32_small. pose proof (elems_le (slots b) 0). unfold UINT32_MAX. zlia.
  - apply (rep_words b s R).
  - done.
  - unfold UINT32_MAX. cbn [app]. lia.
  - unfold zlen. lia.
Qed.

(** The search from the first used slot. *)
Lemma first_scan b s : bset_rep b s ->
  exists r, next_used (Z.to_nat (nslots b)) (slots b) (nslots b) (first_slot_used b) = Some r /\
    least (fun i => i ∈ s) 0 (found r) /\
    match r with
    | Some (j, x) => 0 <= j < nslots b /\ 0 <= Curl_ctz64 x < 64 /\
        forall k, 0 <= k < j -> slots b !! Z.to_nat k = Some 0
    | None => forall k, 0 <= k < nslots b -> slots b !! Z.to_nat k = Some 0
    end.
Proof.
  intros R. pose proof (rep_len_max b s R) as Hmax. pose proof (rep_first b s R) as [Hf Hz].
  destruct (least_scan (slots b) (first_slot_used b)) as (r & Hr & Hl & Hs);
    [lia|apply (rep_words b s R)|rewrite (rep_len b s R); unfold UINT32_MAX; lia|].
  rewrite (rep_len b s R) in Hr. rewrite Hr. exists r. split; [done|].
  assert (Hlow : forall k, k ∈ s -> 64 * first_slot_used b <= k).
  { intros k Hk. apply (rep_mem b s R) in Hk as Hh. pose proof (rep_below b s k R Hk).
    destruct (Z.lt_ge_cases (k / 64) (first_slot_used b)); [|dlia].
    destruct (has_nonzero (slots b) (k / 64) k Hh); [apply Hz; dlia|done]. }
  split.
  - destruct (found r); cbn in *.
    + destruct Hl as (H1 & H2 & H3). apply (rep_mem b s R) in H1. split; [done|]. split; [lia|].
      intros k Hk _. apply H3; [by apply (rep_mem b s R)|by apply Hlow].
    + intros k Hk. specialize (Hlow k Hk). apply (rep_mem b s R) in Hk. specialize (Hl k Hk). lia.
  - assert (Hlow0 : forall k, 0 <= k < nslots b -> ~ first_slot_used b <= k ->
      slots b !! Z.to_nat k = Some 0) by (intros; apply Hz; lia).
    destruct r as [[j x]|].
    + destruct Hs as (H1 & _ & H3 & H4). rewrite (rep_len b s R) in H1. split; [lia|]. split; [done|].
      intros k Hk. destruct (Z_le_dec (first_slot_used b) k); [apply H4; lia|apply Hlow0; lia].
    + intros k Hk. destruct (Z_le_dec (first_slot_used b) k); [|apply Hlow0; lia].
      apply Hs. rewrite (rep_len b s R). lia.
Qed.

Lemma empty_spec b s : bset_rep b s -> Curl_uint32_bset_empty b = Some (bool_decide (s = ∅)).
Proof.
  intros R. unfold Curl_uint32_bset_empty. destruct (first_scan b s R) as (r & -> & Hl & _).
  cbn [mbind option_bind]. destruct r as [[j x]|]; f_equal; symmetry; cbn in Hl.
  - apply bool_decide_eq_false. intros ->. destruct Hl as [Hl _]. set_solver.
  - apply bool_decide_eq_true. apply set_eq. intros i. split; [|set_solver].
    intros Hi. specialize (Hl i Hi). pose proof (rep_below b s i R Hi). lia.
Qed.

Lemma set_first b s n : bset_rep b s -> 0 <= n <= UINT32_MAX ->
  (forall k, 0 <= k < n -> k < nslots b -> slots b !! Z.to_nat k = Some 0) ->
  bset_rep (mk_bset (slots b) (nslots b) n) s.
Proof. by intros [R1 R2 R3 _ R5] Hn Hz. Qed.

(** What a search returns: the number, or [UINT32_MAX]. *)
Definition search_result (r : option Z) : bool * Z :=
  match r with Some m => (true, m) | None => (false, UINT32_MAX) end.

Lemma first_spec b s : bset_rep b s ->
  exists r b', Curl_uint32_bset_first b = Some (search_result r, b') /\
    nslots b' = nslots b /\ bset_rep b' s /\ least (fun i => i ∈ s) 0 r.
Proof.
  intros R. unfold Curl_uint32_bset_first. pose proof (rep_len_max b s R) as Hmax.
  destruct (first_scan b s R) as (r & -> & Hl & Hs). cbn [mbind option_bind].
  exists (found r). destruct r as [[j x]|]; cbn [found search_result] in *.
  - destruct Hs as (Hj & Hc & Hz). eexists. split.
    { rewrite (u32_small (j * 64)) by (unfold UINT32_MAX; lia).
      rewrite u32_small by (unfold UINT32_MAX; lia). by rewrite (Z.mul_comm j). }
    split; [done|]. split; [|done]. apply set_first; [done|unfold UINT32_MAX; lia|].
    intros k Hk _. by apply Hz.
  - eexists. split; [done|]. split; [done|]. split; [|done].
    apply set_first; [done|unfold UINT32_MAX; lia|]. intros k Hk Hk2. apply Hs. lia.
Qed.

Lemma next_spec b s last : bset_rep b s -> 0 <= last <= UINT32_MAX ->
  exists r, Curl_uint32_bset_next b last = Some (search_result r) /\
    least (fun i => i ∈ s) (u32 (last + 1)) r.
Proof.
  intros R Hlast. unfold Curl_uint32_bset_next. pose proof (rep_len_max b s R) as Hmax.
  pose proof (u32_range (last + 1)) as Hn. set (n := u32 (last + 1)) in *.
  assert (Hext : forall r, least (has (slots b)) n r -> least (fun i => i ∈ s) n r).
  { intros r. apply least_ext. intros i. symmetry. apply (rep_mem b s R). }
  destruct (Z.ltb_spec (n / 64) (nslots b)) as [Hlt|Hge].
  2: { exists None. split; [done|]. cbn. intros k Hk. pose proof (rep_below b s k R Hk). dlia. }
  destruct (slot_lookup b s (n / 64) R) as (y & Hy & Hw); [dlia|]. rewrite Hy.
  cbn [mbind option_bind].
  pose proof (next_in_word (slots b) n y ltac:(lia) (rep_words b s R) Hy) as Hin. cbv zeta in Hin.
  destruct (Z.eqb_spec (Z.shiftr y (n mod 64)) 0) as [E0|E0]; cbn [negb].
  - rewrite u32_small by (unfold UINT32_MAX; dlia).
    destruct (least_scan (slots b) (n / 64 + 1)) as (r & Hr & Hl & Hs);
      [dlia|apply (rep_words b s R)|rewrite (rep_len b s R); unfold UINT32_MAX; lia|].
    rewrite (rep_len b s R) in Hr, Hs. rewrite Hr. cbn [mbind option_bind]. exists (found r). split.
    + destruct r as [[j x]|]; [|done]. destruct Hs as (Hj & _ & Hc & _). cbn [found search_result].
      rewrite (u32_small (j * 64)), u32_small by (unfold UINT32_MAX; dlia).
      by rewrite (Z.mul_comm j).
    + apply Hext. destruct (found r); cbn in *.
      * destruct Hl as (H1 & H2 & H3). split; [done|]. split; [dlia|].
        intros k Hk Hnk. apply H3; [done|]. by apply Hin.
      * intros k Hk. destruct (Z.lt_ge_cases k n) as [|Hge]; [done|].
        specialize (Hin k Hk Hge). specialize (Hl k Hk). lia.
  - destruct Hin as [Hl Hc]. eexists (Some _). split; [|by apply Hext].
    cbn [search_result]. rewrite u32_small; [done|]. unfold UINT32_MAX. dlia.
Qed.

Lemma clear_spec b s : bset_rep b s ->
  nslots (Curl_uint32_bset_clear b) = nslots b /\ bset_rep (Curl_uint32_bset_clear b) ∅.
Proof.
  intros R. unfold Curl_uint32_bset_clear. pose proof (rep_len_max b s R) as Hmax.
  destruct (Z.eqb_spec (nslots b) 0) as [E|E]; cbn [negb]; (split; [done|]).
  - assert (s = ∅) as <-; [|done]. apply set_eq. intros i. split; [|set_solver].
    intros Hi. pose proof (rep_below b s i R Hi). lia.
  - split; cbn [slots nslots first_slot_used].
    + apply zlen_replicate. lia.
    + apply (rep_max b s R).
    + by apply Forall_replicate.
    + split; [done|]. intros k Hk Hk2. apply lookup_replicate_2. lia.
    + intros i. split; [set_solver|]. intros (_ & x & Hx & Hb).
      apply lookup_replicate in Hx as [-> _]. by rewrite Z.bits_0 in Hb.
Qed.

(** The capacity after a resize to [nmax] numbers. *)
Definition resized (nmax : Z) : Z :=
  if nmax <? UINT32_MAX - 63 then (nmax + 63) / 64 else UINT32_MAX / 64.

Lemma resize_spec b s nmax o : bset_rep b s -> 0 <= nmax <= UINT32_MAX ->
  exists res b' o', Curl_uint32_bset_resize b nmax o = (res, b', o') /\
    (false ∈ o' -> false ∈ o) /\
    ((res = CURLE_OK /\ nslots b' = resized nmax /\
      bset_rep b' (filter (fun i => i < 64 * resized nmax) s)) \/
     (res = CURLE_OUT_OF_MEMORY /\ false ∈ o /\ b' = b)).
Proof.
  intros R Hn. pose proof (rep_len_max b s R) as Hmax. unfold Curl_uint32_bset_resize.
  assert ((if nmax <? UINT32_MAX - 63 then u32 (nmax + 63) / 64 else UINT32_MAX / 64)
    = resized nmax) as ->.
  { unfold resized. case_if; [|done]. rewrite u32_small; [done|]. unfold UINT32_MAX in *. lia. }
  assert (Hr : 0 <= resized nmax <= 67108863).
  { unfold resized. change (UINT32_MAX / 64) with 67108863. unfold UINT32_MAX in *. case_if; dlia. }
  destruct (Z.eqb_spec (resized nmax) (nslots b)) as [E|E]; cbn [negb].
  - do 3 eexists. split; [reflexivity|]. split; [done|]. left. split; [done|]. split; [done|].
    assert (filter (fun i => i < 64 * resized nmax) s = s) as ->; [|done].
    apply set_eq. intros i. rewrite elem_of_filter. split; [by intros [_ ?]|].
    intros Hi. pose proof (rep_below b s i R Hi). split; [lia|done].
  - destruct (next_alloc o) as [ok o2] eqn:Eo. destruct (next_alloc_fails _ _ _ Eo) as [Ho1 Ho2].
    destruct ok; [|do 3 eexists; split; [reflexivity|]; split; [done|]; right; by auto].
    do 3 eexists. split; [reflexivity|]. split; [done|]. left. split; [done|]. split; [done|].
    set (kept := ztake (Z.min (resized nmax) (nslots b)) (slots b)).
    assert (Hk : zlen kept = Z.min (resized nmax) (nslots b)).
    { unfold kept. rewrite zlen_ztake, (rep_len b s R) by lia. lia. }
    split; cbn [slots nslots first_slot_used].
    + rewrite zlen_app, zlen_replicate by lia. lia.
    + change (UINT32_MAX / 64) with 67108863. lia.
    + apply Forall_app. split; [apply Forall_take, (rep_words b s R)|by apply Forall_replicate].
    + split; [done|intros; lia].
    + intros i. rewrite elem_of_filter, (rep_mem b s R). unfold has. split.
      * intros (Hi & Hi0 & x & Hx & Hb). split; [done|]. exists x. split; [|done].
        apply lookup_lt_Some in Hx as Hlt. pose proof (rep_len b s R) as Hlen. unfold zlen in Hlen.
        rewrite lookup_app_l by (unfold zlen in Hk; dlia).
        unfold kept, ztake. rewrite lookup_take_lt by dlia. done.
      * intros (Hi & x & Hx & Hb). apply lookup_app_Some in Hx as [Hx|[_ Hx]].
        -- apply lookup_lt_Some in Hx as Hlt. unfold zlen in Hk.
           split; [dlia|]. split; [done|]. exists x.
           unfold kept, ztake in Hx. by apply lookup_take_Some in Hx as [? _].
        -- apply lookup_replicate in Hx as [-> _]. by rewrite Z.bits_0 in Hb.
Qed.

(** * Refinement of a set *)

Inductive set_op :=
  | SAdd (i : Z) | SRemove (i : Z) | SContains (i : Z) | SCount | SEmpty | SClear
  | SFirst | SNext (last : Z) | SResize (nmax : Z).

Inductive set_res :=
  | RBool (b : bool) | RSearch (r : bool * Z) | RCount (n : Z) | RCode (c : CURLcode) | RUnit.

Definition bset_step (b : uint32_bset) (op : set_op) (o : allocs)
  : option (uint32_bset * set_res * allocs) :=
  match op with
  | SAdd i => '(ok, b) ← Curl_uint32_bset_add b i; Some (b, RBool ok, o)
  | SRemove i => b ← Curl_uint32_bset_remove b i; Some (b, RUnit, o)
  | SContains i => r ← Curl_uint32_bset_contains b i; Some (b, RBool r, o)
  | SCount => n ← Curl_uint32_bset_count b; Some (b, RCount n, o)
  | SEmpty => r ← Curl_uint32_bset_empty b; Some (b, RBool r, o)
  | SClear => Some (Curl_uint32_bset_clear b, RUnit, o)
  | SFirst => '(r, b) ← Curl_uint32_bset_first b; Some (b, RSearch r, o)
  | SNext last => r ← Curl_uint32_bset_next b last; Some (b, RSearch r, o)
  | SResize nmax => let '(c, b, o) := Curl_uint32_bset_resize b nmax o in Some (b, RCode c, o)
  end.

Fixpoint bset_run (b : uint32_bset) (ops : list set_op) (o : allocs)
  : option (uint32_bset * list set_res) :=
  match ops with
  | [] => Some (b, [])
  | op :: ops =>
      '(b, r, o) ← bset_step b op o;
      '(b, rs) ← bset_run b ops o;
      Some (b, r :: rs)
  end.

Definition set_op_ok (op : set_op) : Prop :=
  match op with
  | SAdd i | SRemove i | SContains i | SNext i | SResize i => 0 <= i <= UINT32_MAX
  | _ => True
  end.

(** What the operation answers and leaves, for a set [s] of numbers below
    [cap]; [oom]: an allocation can fail.  After the largest [uint32_t] the
    search starts over. *)
Definition set_allows (oom : Prop) (s : gset Z) (cap : Z) (op : set_op) (res : set_res)
    (s' : gset Z) (cap' : Z) : Prop :=
  match op with
  | SAdd i => cap' = cap /\
      if i <? cap then res = RBool true /\ s' = {[i]} ∪ s else res = RBool false /\ s' = s
  | SRemove i => cap' = cap /\ res = RUnit /\ s' = s ∖ {[i]}
  | SContains i => cap' = cap /\ s' = s /\ res = RBool (bool_decide (i ∈ s))
  | SCount => cap' = cap /\ s' = s /\ res = RCount (Z.of_nat (size s))
  | SEmpty => cap' = cap /\ s' = s /\ res = RBool (bool_decide (s = ∅))
  | SClear => cap' = cap /\ s' = ∅ /\ res = RUnit
  | SFirst => cap' = cap /\ s' = s /\
      exists r, res = RSearch (search_result r) /\ least (fun i => i ∈ s) 0 r
  | SNext last => cap' = cap /\ s' = s /\
      exists r, res = RSearch (search_result r) /\
        least (fun i => i ∈ s) (if last =? UINT32_MAX then 0 else last + 1) r
  | SResize nmax =>
      (res = RCode CURLE_OK /\ cap' = 64 * resized nmax /\ s' = filter (fun i => i < cap') s) \/
      (res = RCode CURLE_OUT_OF_MEMORY /\ oom /\ cap' = cap /\ s' = s)
  end.

Inductive set_run (oom : Prop) : gset Z -> Z -> list set_op -> list set_res -> gset Z -> Z -> Prop :=
  | set_run_nil s cap : set_run oom s cap [] [] s cap
  | set_run_cons s cap op r s1 cap1 ops rs s2 cap2 :
      set_allows oom s cap op r s1 cap1 -> set_run oom s1 cap1 ops rs s2 cap2 ->
      set_run oom s cap (op :: ops) (r :: rs) s2 cap2.

Lemma u32_succ last : 0 <= last <= UINT32_MAX ->
  u32 (last + 1) = if last =? UINT32_MAX then 0 else last + 1.
Proof.
  intros. destruct (Z.eqb_spec last UINT32_MAX) as [->|]; [done|].
  apply u32_small. lia.
Qed.

Lemma bset_step_spec b s op o : bset_rep b s -> set_op_ok op ->
  exists b' r o' s', bset_step b op o = Some (b', r, o') /\ bset_rep b' s' /\
    (false ∈ o' -> false ∈ o) /\
    set_allows (false ∈ o) s (64 * nslots b) op r s' (64 * nslots b').
Proof.
  intros R Hop. destruct op as [i|i|i| | | | |last|nmax]; cbn [set_op_ok] in Hop; cbn [bset_step set_allows].
  - destruct (add_spec b s i R ltac:(lia)) as (ok & b' & -> & En & H). cbn [mbind option_bind].
    destruct (i <? 64 * nslots b).
    + destruct H as [-> R']. do 4 eexists. split; [done|]. split; [exact R'|]. split; [done|]. by rewrite En.
    + destruct H as [-> ->]. do 4 eexists. split; [done|]. split; [exact R|]. split; [done|]. done.
  - destruct (remove_spec b s i R ltac:(lia)) as (b' & -> & En & R').
    do 4 eexists. split; [done|]. split; [exact R'|]. split; [done|]. by rewrite En.
  - rewrite (contains_spec b s i R) by lia. do 4 eexists. split; [done|]. split; [exact R|]. split; [done|]. done.
  - rewrite (count_spec b s R). do 4 eexists. split; [done|]. split; [exact R|]. split; [done|]. done.
  - rewrite (empty_spec b s R). do 4 eexists. split; [done|]. split; [exact R|]. split; [done|]. done.
  - destruct (clear_spec b s R) as [E R']. do 4 eexists. split; [done|]. split; [exact R'|]. split; [done|].
    by rewrite E.
  - destruct (first_spec b s R) as (r & b' & -> & E & R' & Hl). do 4 eexists. split; [done|].
    split; [exact R'|]. split; [done|]. rewrite E. eauto.
  - destruct (next_spec b s last R Hop) as (r & -> & Hl). do 4 eexists. split; [done|].
    split; [exact R|]. split; [done|]. rewrite u32_succ in Hl by done. eauto.
  - destruct (resize_spec b s nmax o R Hop) as (c & b' & o' & -> & Ho & [(-> & E & R')|(-> & Hoom & ->)]).
    + do 4 eexists. split; [done|]. split; [exact R'|]. split; [done|]. left. by rewrite E.
    + do 4 eexists. split; [done|]. split; [exact R|]. split; [done|]. by right.
Qed.

Lemma set_allows_weaken (oom oom' : Prop) s cap op r s' cap' : (oom -> oom') ->
  set_allows oom s cap op r s' cap' -> set_allows oom' s cap op r s' cap'.
Proof. intros H. destruct op; cbn; tauto. Qed.

Lemma set_run_weaken (oom oom' : Prop) s cap ops rs s' cap' : (oom -> oom') ->
  set_run oom s cap ops rs s' cap' -> set_run oom' s cap ops rs s' cap'.
Proof.
  intros H. induction 1 as [|s cap op r s1 cap1 ops rs s2 cap2 Ha Hr IH]; [constructor|].
  econstructor; [|exact IH]. by apply (set_allows_weaken oom).
Qed.

Lemma bset_run_spec ops : Forall set_op_ok ops -> forall b s o, bset_rep b s ->
  exists b' rs s', bset_run b ops o = Some (b', rs) /\
    set_run (false ∈ o) s (64 * nslots b) ops rs s' (64 * nslots b') /\ bset_rep b' s'.
Proof.
  induction 1 as [|op ops Hop Hops IH]; intros b s o R.
  { exists b, [], s. split; [done|]. split; [constructor|done]. }
  destruct (bset_step_spec b s op o R Hop) as (b1 & r & o1 & s1 & E & R1 & Ho & Ha).
  destruct (IH b1 s1 o1 R1) as (b2 & rs & s2 & E2 & Hr & R2).
  cbn [bset_run]. rewrite E. cbn [mbind option_bind]. rewrite E2. cbn [mbind option_bind].
  exists b2, (r :: rs), s2. split; [done|]. split; [|done].
  econstructor; [done|]. by apply (set_run_weaken (false ∈ o1)).
Qed.

(** C12: the bit set is a set: any sequence of operations on an initialised bit
    set runs inside its array, whatever allocations fail, and answers like a
    finite set of numbers below its capacity, which is the last size it got,
    rounded up to a multiple of 64; a resize fails only for lack of memory,
    and then changes nothing. *)
Theorem bset_refines_set ops o : Forall set_op_ok ops ->
  exists b rs s, bset_run Curl_uint32_bset_init ops o = Some (b, rs) /\
    set_run (false ∈ o) ∅ 0 ops rs s (64 * nslots b) /\
    (forall i, i ∈ s <-> has (slots b) i).
Proof.
  intros Hops. destruct (bset_run_spec ops Hops _ _ o init_bset_rep) as (b & rs & s & H1 & H2 & R).
  exists b, rs, s. split; [done|]. split; [done|]. apply (rep_mem b s R).
Qed.

Lemma bset_refines_set_witness :
  exists b rs s, bset_run Curl_uint32_bset_init
      [SAdd 3; SResize 100; SAdd 3; SAdd 127; SAdd 128; SFirst; SNext 3; SNext 127; SCount;
       SResize 64; SContains 127; SRemove 3; SEmpty] [true; true] = Some (b, rs) /\
    set_run (false ∈ [true; true]) ∅ 0
      [SAdd 3; SResize 100; SAdd 3; SAdd 127; SAdd 128; SFirst; SNext 3; SNext 127; SCount;
       SResize 64; SContains 127; SRemove 3; SEmpty] rs s (64 * nslots b) /\
    (forall i, i ∈ s <-> has (slots b) i).
Proof.
  apply bset_refines_set.
  repeat (apply Forall_cons_2; [cbn; unfold UINT32_MAX; first [exact I|lia]|]). constructor.
Defined.

(** * Iterating *)

(** [if(first(&n)) do visit(n); while(next(n, &n));], the loops of multi.c and
    conncache.c, collecting what they visit. *)
Fixpoint iterate_from (fuel : nat) (b : uint32_bset) (r : bool * Z) : option (list Z) :=
  let '(ok, n) := r in
  if ok : bool then
    match fuel with
    | O => None
    | S fuel =>
        r ← Curl_uint32_bset_next b n;
        rest ← iterate_from fuel b r;
        Some (n :: rest)
    end
  else Some [].

Definition iterate (fuel : nat) (b : uint32_bset) : option (list Z) :=
  '(r, b) ← Curl_uint32_bset_first b;
  iterate_from fuel b r.

Lemma sorted_bit_elems n : forall base x, StronglySorted Z.lt (bit_elems n base x).
Proof.
  induction n as [|n IH]; intros base x; cbn [bit_elems]; [constructor|].
  destruct (Z.testbit x 0); [|apply IH]. cbn [app]. constructor; [apply IH|].
  apply Forall_forall. intros i Hi. apply elem_of_bit_elems in Hi. lia.
Qed.

Lemma sorted_app l k : StronglySorted Z.lt l -> StronglySorted Z.lt k ->
  (forall i j, i ∈ l -> j ∈ k -> i < j) -> StronglySorted Z.lt (l ++ k).
Proof.
  intros Hl Hk H. induction Hl as [|x l Hl IH Hx]; [done|]. cbn. constructor.
  - apply IH. intros i j Hi. apply H. by right.
  - apply Forall_app. split; [done|]. apply Forall_forall. intros j Hj. apply H; [left|done].
Qed.

Lemma sorted_elems l : forall base, StronglySorted Z.lt (elems base l).
Proof.
  induction l as [|x l IH]; intros base; cbn [elems]; [constructor|].
  apply sorted_app; [apply sorted_bit_elems|apply IH|].
  intros i j Hi Hj. apply elem_of_bit_elems in Hi. apply elem_of_elems in Hj as [Hj _]. lia.
Qed.

(** The least number is the head of the sorted list. *)
Lemma least_head P n l r : StronglySorted Z.lt l -> (forall i, i ∈ l <-> P i /\ n <= i) ->
  least P n r -> r = head l.
Proof.
  intros Hs Hl Hr. destruct l as [|m l].
  - destruct r as [m|]; [|done]. destruct Hr as (H1 & H2 & _).
    assert (m ∈ []) as H by (by apply Hl). by apply elem_of_nil in H.
  - assert (Hm : P m /\ n <= m) by (apply Hl; left). apply StronglySorted_inv in Hs as [_ Hs].
    destruct r as [k|]; cbn in *.
    + destruct Hr as (H1 & H2 & H3). f_equal.
      assert (k ∈ m :: l) as Hk by (by apply Hl). apply elem_of_cons in Hk as [->|Hk]; [done|].
      rewrite Forall_forall in Hs. specialize (Hs k Hk). destruct Hm as [Hm1 Hm2].
      specialize (H3 m Hm1 Hm2). lia.
    + destruct Hm as [Hm1 Hm2]. specialize (Hr m Hm1). lia.
Qed.

Lemma iterate_from_spec b s l : bset_rep b s -> forall fuel n, 0 <= n ->
  StronglySorted Z.lt l -> (forall i, i ∈ l <-> i ∈ s /\ n <= i) -> (length l <= fuel)%nat ->
  iterate_from fuel b (search_result (head l)) = Some l.
Proof.
  intros R. induction l as [|m l IH]; intros fuel n Hn Hs Hl Hf.
  { by destruct fuel. }
  destruct fuel as [|fuel]; [cbn in Hf; lia|]. cbn [head search_result iterate_from].
  assert (Hm : m ∈ s /\ n <= m) by (apply Hl; left). destruct Hm as [Hm Hnm].
  pose proof (rep_below b s m R Hm) as Hb. pose proof (rep_len_max b s R) as Hmax.
  destruct (next_spec b s m R) as (r & -> & Hr); [unfold UINT32_MAX; lia|].
  cbn [mbind option_bind]. rewrite u32_small in Hr by (unfold UINT32_MAX; lia).
  apply StronglySorted_inv in Hs as [Hs Hmin]. rewrite Forall_forall in Hmin.
  assert (Hl2 : forall i, i ∈ l <-> i ∈ s /\ m + 1 <= i).
  { intros i. split.
    - intros Hi. specialize (Hmin i Hi). assert (i ∈ s /\ n <= i) as [? ?] by (apply Hl; by right).
      split; [done|lia].
    - intros [Hi Hmi]. assert (i ∈ m :: l) as H by (apply Hl; split; [done|lia]).
      apply elem_of_cons in H as [->|]; [lia|done]. }
  rewrite (least_head _ _ l r Hs Hl2 Hr).
  rewrite (IH fuel (m + 1)); [done|lia|done|done|cbn in Hf; lia].
Qed.

(** Iterating a bit set with first and next, after any operations on it,
    ends and visits every number of the set exactly once, in ascending
    order. *)
Theorem bset_iterate_sorted ops o b rs : Forall set_op_ok ops ->
  bset_run Curl_uint32_bset_init ops o = Some (b, rs) ->
  exists l, iterate (Z.to_nat (64 * nslots b)) b = Some l /\
    StronglySorted Z.lt l /\
    (forall i, 0 <= i <= UINT32_MAX -> i ∈ l <-> Curl_uint32_bset_contains b i = Some true).
Proof.
  intros Hops Hrun.
  destruct (bset_run_spec ops Hops _ _ o init_bset_rep) as (b' & rs' & s & E & _ & R).
  rewrite Hrun in E. injection E as <- <-.
  assert (Hl : forall i, i ∈ elems 0 (slots b) <-> i ∈ s).
  { intros i. rewrite elem_of_elems, Z.sub_0_r. symmetry. apply (rep_mem b s R). }
  pose proof (sorted_elems (slots b) 0) as Hs. pose proof (elems_le (slots b) 0) as Hlen.
  rewrite (rep_len b s R) in Hlen. set (l := elems 0 (slots b)) in *.
  exists l. split; [|split; [done|]].
  - unfold iterate. destruct (first_spec b s R) as (r & b' & -> & En & R' & Hr).
    cbn [mbind option_bind].
    assert (Hl0 : forall i, i ∈ l <-> i ∈ s /\ 0 <= i).
    { intros i. rewrite Hl. split; [|by intros [? _]]. intros Hi. split; [done|].
      apply (rep_below b s i R Hi). }
    rewrite (least_head _ _ l r Hs Hl0 Hr).
    apply (iterate_from_spec b' s l R' _ 0); [lia|done|done|unfold zlen in Hlen; lia].
  - intros i Hi. rewrite (contains_spec b s i R), Hl by lia. split.
    + intros H. by rewrite bool_decide_eq_true_2.
    + intros H. injection H as H. by apply bool_decide_eq_true in H.
Qed.

Lemma bset_iterate_sorted_witness :
  exists b rs, bset_run Curl_uint32_bset_init
      [SResize 200; SAdd 130; SAdd 5; SAdd 63; SRemove 5; SAdd 0] [] = Some (b, rs) /\
  exists l, iterate (Z.to_nat (64 * nslots b)) b = Some l /\ StronglySorted Z.lt l /\
    (forall i, 0 <= i <= UINT32_MAX -> i ∈ l <-> Curl_uint32_bset_contains b i = Some true).
Proof.
  do 2 eexists. split; [reflexivity|].
  eapply (bset_iterate_sorted [SResize 200; SAdd 130; SAdd 5; SAdd 63; SRemove 5; SAdd 0] []).
  - repeat (apply Forall_cons_2; [cbn; unfold UINT32_MAX; first [exact I|lia]|]). constructor.
  - reflexivity.
Defined.
