(* ===== verification/UintSpbset.v ===== *)
(** The sparse bit set of 32-bit numbers, lib/uint-spbset.c.

    A chain of chunks of four words, ordered by offset.  The chain is the list
    of its chunks, a pointer into it an index.  The words and the searches in
    them are those of UintBset, and so is the abstraction to a set. *)

From Stdlib Require Import ZArith Lia List Sorted.
From stdpp Require Import base numbers option list gmap fin_sets.
From S2P Require Import Prelude UintBset.
Close Scope nat_scope.
Open Scope Z_scope.

(** * Data and operations *)

Definition CURL_UINT32_SPBSET_CH_SLOTS : Z := 4.
Definition CURL_UINT32_SPBSET_CH_MASK : Z := CURL_UINT32_SPBSET_CH_SLOTS * 64 - 1.

Record uint32_spbset_chunk := mk_spchunk {
  ch_slots : list Z;
  ch_offset : Z;
}.

(** [sp_next]: the chunks behind the head. *)
Record uint32_spbset := mk_spbset {
  sp_head : uint32_spbset_chunk;
  sp_next : list uint32_spbset_chunk;
}.

(** A chunk from [calloc] or [memset]. *)
Definition zero_chunk : uint32_spbset_chunk := mk_spchunk [0; 0; 0; 0] 0.

Definition chain (b : uint32_spbset) : list uint32_spbset_chunk := sp_head b :: sp_next b.

Definition Curl_uint32_spbset_init : uint32_spbset := mk_spbset zero_chunk [].

Definition uint32_spbset_clear (b : uint32_spbset) : uint32_spbset := mk_spbset zero_chunk [].

Definition Curl_uint32_spbset_destroy (b : uint32_spbset) : uint32_spbset :=
  uint32_spbset_clear b.

Fixpoint chain_count (l : list uint32_spbset_chunk) (n : Z) : option Z :=
  match l with
  | [] => Some n
  | c :: l =>
      n ← count_loop 4 (ch_slots c) CURL_UINT32_SPBSET_CH_SLOTS 0 n;
      chain_count l n
  end.

Definition Curl_uint32_spbset_count (b : uint32_spbset) : option Z := chain_count (chain b) 0.

(** [i & ~CURL_UINT32_SPBSET_CH_MASK] *)
Definition offset_of (i : Z) : Z := Z.land i (u32 (Z.lnot CURL_UINT32_SPBSET_CH_MASK)).

Inductive chunk_search :=
  | Found (k : nat)
  | Missing (panchor : option nat).

(** The loop of [get_chunk]: [idx] is the chunk looked at, [panchor] the chunk
    whose [next] field [panchor] points to. *)
Fixpoint find_chunk (l : list uint32_spbset_chunk) (idx : nat) (i_offset : Z)
    (panchor : option nat) : chunk_search :=
  match l with
  | [] => Missing panchor
  | c :: l =>
      if ch_offset c =? i_offset then Found idx
      else if ch_offset c >? i_offset then Missing panchor
      else find_chunk l (S idx) i_offset (Some idx)
  end.

Definition uint32_spbset_get_chunk (b : uint32_spbset) (i : Z) (grow : bool) (o : allocs)
  : option nat * uint32_spbset * allocs :=
  let i_offset := offset_of i in
  match find_chunk (chain b) 0 i_offset None with
  | Found k => (Some k, b, o)
  | Missing panchor =>
      if negb grow then (None, b, o)
      else
        let '(ok, o) := next_alloc o in
        if negb ok then (None, b, o)
        else
          match panchor with
          | Some k =>
              let chunk := mk_spchunk (ch_slots zero_chunk) i_offset in
              (Some (S k),
               mk_spbset (sp_head b) (take k (sp_next b) ++ chunk :: drop k (sp_next b)), o)
          | None =>
              let chunk := mk_spchunk (ch_slots (sp_head b)) i_offset in
              (Some 1%nat, mk_spbset zero_chunk (chunk :: sp_next b), o)
          end
  end.

(** Writes through a pointer to chunk [k]. *)
Definition set_chunk (b : uint32_spbset) (k : nat) (c : uint32_spbset_chunk) : uint32_spbset :=
  match k with
  | O => mk_spbset c (sp_next b)
  | S k => mk_spbset (sp_head b) (<[k := c]> (sp_next b))
  end.

(** Changes the word of [i] in chunk [k]. *)
Definition change_word (b : uint32_spbset) (k : nat) (i : Z) (f : Z -> Z -> Z)
  : option uint32_spbset :=
  c ← chain b !! k;
  let i_chunk := u32 (i - ch_offset c) in
  x ← ch_slots c !! Z.to_nat (i_chunk / 64);
  Some (set_chunk b k
    (mk_spchunk (<[Z.to_nat (i_chunk / 64) := f x i_chunk]> (ch_slots c)) (ch_offset c))).

Definition Curl_uint32_spbset_add (b : uint32_spbset) (i : Z) (o : allocs)
  : option (bool * uint32_spbset * allocs) :=
  let '(chunk, b, o) := uint32_spbset_get_chunk b i true o in
  match chunk with
  | None => Some (false, b, o)
  | Some k => b ← change_word b k i set_bit; Some (true, b, o)
  end.

Definition Curl_uint32_spbset_remove (b : uint32_spbset) (i : Z) : option uint32_spbset :=
  let '(chunk, b, _) := uint32_spbset_get_chunk b i false [] in
  match chunk with
  | Some k => change_word b k i clear_bit
  | None => Some b
  end.

Definition Curl_uint32_spbset_contains (b : uint32_spbset) (i : Z) : option bool :=
  let '(chunk, b, _) := uint32_spbset_get_chunk b i false [] in
  match chunk with
  | Some k =>
      c ← chain b !! k;
      let i_chunk := u32 (i - ch_offset c) in
      x ← ch_slots c !! Z.to_nat (i_chunk / 64);
      Some (test_bit x i_chunk)
  | None => Some false
  end.

(** The number found in slot [i] with content [x]. *)
Definition in_slot (c : uint32_spbset_chunk) (i x : Z) : Z :=
  u32 (ch_offset c + u32 (u32 (i * 64) + Curl_ctz64 x)).

Definition uint32_spbset_chunk_first (c : uint32_spbset_chunk) : option (bool * Z) :=
  r ← next_used 4 (ch_slots c) CURL_UINT32_SPBSET_CH_SLOTS 0;
  match r with
  | Some (i, x) => Some (true, in_slot c i x)
  | None => Some (false, UINT32_MAX)
  end.

(** The loop of [first]; [none] is the value given when nothing is found. *)
Fixpoint first_loop (l : list uint32_spbset_chunk) : option (bool * Z) :=
  match l with
  | [] => Some (false, 0)
  | c :: l =>
      r ← next_used 4 (ch_slots c) CURL_UINT32_SPBSET_CH_SLOTS 0;
      match r with
      | Some (i, x) => Some (true, in_slot c i x)
      | None => first_loop l
      end
  end.

Definition Curl_uint32_spbset_first (b : uint32_spbset) : option (bool * Z) :=
  first_loop (chain b).

Definition uint32_spbset_chunk_next (c : uint32_spbset_chunk) (last : Z) : option (bool * Z) :=
  if ch_offset c <=? last then
    let i := u32 (last - ch_offset c) / 64 in
    if i <? CURL_UINT32_SPBSET_CH_SLOTS then
      y ← ch_slots c !! Z.to_nat i;
      let x := Z.shiftr y (last mod 64) in
      if negb (x =? 0) then Some (true, u32 (last + Curl_ctz64 x))
      else
        r ← next_used 4 (ch_slots c) CURL_UINT32_SPBSET_CH_SLOTS (u32 (i + 1));
        match r with
        | Some (i, x) => Some (true, in_slot c i x)
        | None => Some (false, UINT32_MAX)
        end
    else Some (false, UINT32_MAX)
  else Some (false, UINT32_MAX).

(** [for(chunk = &bset->head; chunk; chunk = chunk->next)
       if(chunk->offset >= last_offset) break;] *)
Fixpoint skip_below (l : list uint32_spbset_chunk) (last_offset : Z) :=
  match l with
  | [] => []
  | c :: l' => if ch_offset c >=? last_offset then l else skip_below l' last_offset
  end.

(** [while(chunk) ...], the search in the higher chunks. *)
Fixpoint higher_loop (l : list uint32_spbset_chunk) : option (bool * Z) :=
  match l with
  | [] => Some (false, UINT32_MAX)
  | c :: l =>
      '(ok, n) ← uint32_spbset_chunk_first c;
      if ok : bool then Some (true, n) else higher_loop l
  end.

Definition Curl_uint32_spbset_next (b : uint32_spbset) (last : Z) : option (bool * Z) :=
  let last := u32 (last + 1) in
  let last_offset := offset_of last in
  match skip_below (chain b) last_offset with
  | [] => Some (false, UINT32_MAX)
  | c :: l =>
      if ch_offset c =? last_offset then
        '(ok, n) ← uint32_spbset_chunk_next c last;
        if ok : bool then Some (true, n) else higher_loop l
      else higher_loop (c :: l)
  end.

(** * The numbers of a chain *)

Definition chunk_has (c : uint32_spbset_chunk) (i : Z) : Prop := has (ch_slots c) (i - ch_offset c).

Definition chain_has (l : list uint32_spbset_chunk) (i : Z) : Prop := exists c, c ∈ l /\ chunk_has c i.

Record sp_chunk_ok (c : uint32_spbset_chunk) : Prop := {
  ok_slots : zlen (ch_slots c) = 4;
  ok_words : Forall word (ch_slots c);
  ok_offset : ch_offset c mod 256 = 0;
  ok_range : 0 <= ch_offset c <= UINT32_MAX;
}.

Definition chunk_lt (c d : uint32_spbset_chunk) : Prop := ch_offset c < ch_offset d.

Record spbset_rep (b : uint32_spbset) (s : gset Z) : Prop := {
  sp_chunks : Forall sp_chunk_ok (chain b);
  sp_sorted : StronglySorted chunk_lt (chain b);
  sp_first : ch_offset (sp_head b) = 0;
  sp_mem : forall i, i ∈ s <-> chain_has (chain b) i;
}.

Lemma offset_of_spec i : 0 <= i <= UINT32_MAX -> offset_of i = 256 * (i / 256).
Proof.
  intros Hi. unfold offset_of. change (u32 (Z.lnot CURL_UINT32_SPBSET_CH_MASK)) with (2 ^ 32 - 2 ^ 8).
  pose proof (Z.div_mod i 256 ltac:(lia)) as Hd.
  assert (E : 2 ^ 32 - 2 ^ 8 = 0 + 2 ^ 8 * (2 ^ 24 - 1)) by reflexivity. rewrite E.
  replace i with (i mod 2 ^ 8 + 2 ^ 8 * (i / 256)) at 1 by (change (2 ^ 8) with 256; lia).
  rewrite land_split by (try lia; apply Z.mod_pos_bound; lia).
  rewrite Z.land_0_r, land_mask by lia. rewrite Z.mod_small; [done|].
  unfold UINT32_MAX in Hi. change (2 ^ 24) with 16777216. dlia.
Qed.

Lemma sp_chunk_range c i : sp_chunk_ok c -> chunk_has c i -> ch_offset c = 256 * (i / 256) /\
  0 <= i <= UINT32_MAX.
Proof.
  intros [H1 _ H2 H3] H. apply has_below in H. rewrite H1 in H. unfold UINT32_MAX in *. dlia.
Qed.

Lemma chain_has_cons c l i : chain_has (c :: l) i <-> chunk_has c i \/ chain_has l i.
Proof.
  unfold chain_has. split.
  - intros (d & [->|Hd]%elem_of_cons & H); [by left|right; by exists d].
  - intros [H|(d & Hd & H)]; [exists c|exists d]; (split; [|done]); [left|by right].
Qed.

Lemma chain_has_app l k i : chain_has (l ++ k) i <-> chain_has l i \/ chain_has k i.
Proof.
  induction l as [|c l IH]; cbn [app].
  - split; [by right|]. intros [(c & Hc & _)|]; [by apply elem_of_nil in Hc|done].
  - rewrite !chain_has_cons, IH. tauto.
Qed.

Lemma zero_chunk_empty off i : ~ chunk_has (mk_spchunk (ch_slots zero_chunk) off) i.
Proof.
  unfold chunk_has. cbn [ch_slots ch_offset zero_chunk]. intros (Hi & x & Hx & Hb).
  destruct (Z.to_nat ((i - off) / 64)) as [|[|[|[|k]]]]; cbn in Hx; try discriminate Hx;
    injection Hx as <-; by rewrite Z.bits_0 in Hb.
Qed.

Lemma zero_chunk_ok off : off mod 256 = 0 -> 0 <= off <= UINT32_MAX ->
  sp_chunk_ok (mk_spchunk (ch_slots zero_chunk) off).
Proof. intros. split; cbn; try done. repeat constructor; cbn; lia. Qed.

Lemma init_sprep : spbset_rep Curl_uint32_spbset_init ∅.
Proof.
  split.
  - constructor; [|constructor]. by apply zero_chunk_ok.
  - repeat constructor.
  - done.
  - intros i. split; [set_solver|]. intros (c & Hc & H).
    apply list_elem_of_singleton in Hc as ->. by apply (zero_chunk_empty 0) in H.
Qed.

(** ** Sorted chains *)

(** A chunk is the only one with the numbers of its range. *)
Lemma sorted_other l1 c l2 i : Forall sp_chunk_ok (l1 ++ c :: l2) ->
  StronglySorted chunk_lt (l1 ++ c :: l2) -> ch_offset c = 256 * (i / 256) ->
  ~ chain_has l1 i /\ ~ chain_has l2 i.
Proof.
  intros Hok Hs Hc. apply sorted_mid in Hs as (_ & _ & H1 & H2 & _).
  apply Forall_app in Hok as [Hok1 Hok2]. apply Forall_cons in Hok2 as [_ Hok2].
  rewrite Forall_forall in H1, H2, Hok1, Hok2.
  split; intros (d & Hd & Hi).
  - destruct (sp_chunk_range d i (Hok1 d Hd) Hi) as [E _]. specialize (H1 d Hd).
    unfold chunk_lt in H1. lia.
  - destruct (sp_chunk_range d i (Hok2 d Hd) Hi) as [E _]. specialize (H2 d Hd).
    unfold chunk_lt in H2. lia.
Qed.

Lemma find_chunk_spec l off : StronglySorted chunk_lt l -> forall idx p,
  match find_chunk l idx off p with
  | Found k => exists l1 c l2, l = l1 ++ c :: l2 /\ k = (idx + length l1)%nat /\ ch_offset c = off
  | Missing q => exists l1 l2, l = l1 ++ l2 /\ Forall (fun c => ch_offset c < off) l1 /\
      Forall (fun c => off < ch_offset c) l2 /\
      q = match l1 with [] => p | _ :: l1 => Some (idx + length l1)%nat end
  end.
Proof.
  induction 1 as [|c l Hs IH Hc]; intros idx p; cbn [find_chunk].
  { exists [], []. split; [done|]. split; [constructor|]. by split; [constructor|]. }
  destruct (Z.eqb_spec (ch_offset c) off) as [E|Hne].
  { exists [], c, l. split; [done|]. split; [cbn; lia|done]. }
  rewrite Z.gtb_ltb. destruct (Z.ltb_spec off (ch_offset c)).
  - exists [], (c :: l). split; [done|]. split; [constructor|]. split; [|done].
    constructor; [done|]. eapply Forall_impl; [exact Hc|]. unfold chunk_lt. cbn. intros. lia.
  - specialize (IH (S idx) (Some idx)). destruct (find_chunk l (S idx) off (Some idx)) as [k|q].
    + destruct IH as (l1 & d & l2 & -> & -> & E). exists (c :: l1), d, l2.
      split; [done|]. split; [cbn; lia|done].
    + destruct IH as (l1 & l2 & -> & H1 & H2 & ->). exists (c :: l1), l2. split; [done|].
      split; [constructor; [lia|done]|]. split; [done|]. destruct l1; cbn; f_equal; lia.
Qed.

(** ** Looking up a chunk *)

Lemma sp_head_low b s l1 l2 off : spbset_rep b s -> chain b = l1 ++ l2 -> 0 <= off ->
  Forall (fun c => off < ch_offset c) l2 -> exists l1', l1 = sp_head b :: l1' /\ sp_next b = l1' ++ l2.
Proof.
  intros R E Hoff H2. destruct l1 as [|c l1]; cbn in E.
  - subst l2. apply Forall_cons in H2 as [H2 _]. rewrite (sp_first b s R) in H2. lia.
  - injection E as -> E. by exists l1.
Qed.

Lemma get_chunk_spec b s i grow o : spbset_rep b s -> 0 <= i <= UINT32_MAX ->
  exists r b' o', uint32_spbset_get_chunk b i grow o = (r, b', o') /\ spbset_rep b' s /\
    (grow = false -> b' = b) /\
    match r with
    | Some k => exists l1 c l2, chain b' = l1 ++ c :: l2 /\ k = length l1 /\
        ch_offset c = 256 * (i / 256)
    | None => b' = b /\ (grow = false -> i ∉ s) /\ (grow = true -> false ∈ o)
    end /\ (false ∈ o' -> false ∈ o).
Proof.
  intros R Hi. unfold uint32_spbset_get_chunk. rewrite offset_of_spec by done.
  pose proof (find_chunk_spec (chain b) (256 * (i / 256)) (sp_sorted b s R) 0 None) as Hf.
  destruct (find_chunk (chain b) 0 (256 * (i / 256)) None) as [k|q].
  { destruct Hf as (l1 & c & l2 & E & -> & Ec). do 3 eexists. split; [reflexivity|].
    split; [exact R|]. split; [done|]. split; [by exists l1, c, l2|done]. }
  destruct Hf as (l1 & l2 & E & H1 & H2 & ->).
  destruct grow; cbn [negb].
  2: { do 3 eexists. split; [reflexivity|]. split; [exact R|]. split; [done|]. split; [|done].
    split; [done|]. split; [|done]. intros _ Hin. apply (sp_mem b s R) in Hin as (c & Hc & Hh).
    pose proof (sp_chunks b s R) as Hok. rewrite Forall_forall in Hok, H1, H2.
    destruct (sp_chunk_range c i (Hok c Hc) Hh) as [Eo _]. rewrite E in Hc.
    apply elem_of_app in Hc as [Hc|Hc]; [specialize (H1 c Hc)|specialize (H2 c Hc)]; lia. }
  destruct (next_alloc o) as [ok o2] eqn:Eo. destruct (next_alloc_fails _ _ _ Eo) as [Ho1 Ho2].
  destruct ok; cbn [negb].
  2: { do 3 eexists. split; [reflexivity|]. split; [exact R|]. split; [done|]. split; [|done].
    split; [done|]. by split; [|intros _; apply Ho1]. }
  destruct (sp_head_low b s l1 l2 (256 * (i / 256)) R E) as (l1' & -> & En); [clear - Hi; dlia|done|].
  cbn match. rewrite Nat.add_0_l, En, take_app_length, drop_app_length.
  set (new := mk_spchunk (ch_slots zero_chunk) (256 * (i / 256))).
  do 3 eexists. split; [reflexivity|]. split; [|split; [done|]].
  2: { split; [|done]. exists (sp_head b :: l1'), new, l2. split; [done|]. split; [cbn; lia|done]. }
  assert (Hn : sp_chunk_ok new) by (apply zero_chunk_ok; unfold UINT32_MAX in *; dlia).
  pose proof (sp_chunks b s R) as Hok. pose proof (sp_sorted b s R) as Hs. rewrite E in Hok, Hs.
  split; unfold chain; cbn [sp_head sp_next].
  - change (Forall sp_chunk_ok ((sp_head b :: l1') ++ new :: l2)). apply Forall_app in Hok as [Hok1 Hok2].
    apply Forall_app. split; [done|]. by constructor.
  - change (StronglySorted chunk_lt ((sp_head b :: l1') ++ new :: l2)). apply sorted_mid.
    assert (Hl2 : StronglySorted chunk_lt (sp_head b :: l1') /\ StronglySorted chunk_lt l2).
    { revert Hs. generalize (sp_head b :: l1'). intros l. clear. induction l as [|c l IH]; cbn.
      - intros H. split; [constructor|done].
      - intros H. apply StronglySorted_inv in H as [H1 H2]. apply IH in H1 as [H3 H4].
        apply Forall_app in H2 as [H2 _]. split; [by constructor|done]. }
    destruct Hl2 as [Hl1 Hl2]. split; [done|]. split; [done|]. split; [exact H1|]. split; [exact H2|].
    intros d e Hd He. rewrite Forall_forall in H1, H2. specialize (H1 d Hd). specialize (H2 e He).
    unfold chunk_lt. lia.
  - apply (sp_first b s R).
  - intros j. rewrite (sp_mem b s R), E. cbn [app]. rewrite !chain_has_cons, !chain_has_app, chain_has_cons.
    pose proof (zero_chunk_empty (256 * (i / 256)) j). fold new in H. tauto.
Qed.

(** ** Changing a chunk *)

Lemma chain_set_chunk b l1 c l2 c' : chain b = l1 ++ c :: l2 ->
  chain (set_chunk b (length l1) c') = l1 ++ c' :: l2.
Proof.
  unfold chain. destruct l1 as [|d l1]; cbn; intros [= E1 E2].
  - by rewrite E2.
  - rewrite E1, E2. by rewrite insert_app_r_alt, Nat.sub_diag by lia.
Qed.

Lemma set_chunk_rep b s l1 c l2 c' s' : spbset_rep b s -> chain b = l1 ++ c :: l2 ->
  sp_chunk_ok c' -> ch_offset c' = ch_offset c ->
  (forall j, j ∈ s' <-> chunk_has c' j \/ chain_has l1 j \/ chain_has l2 j) ->
  spbset_rep (set_chunk b (length l1) c') s'.
Proof.
  intros R E Hc' Eo Hs'. pose proof (chain_set_chunk b l1 c l2 c' E) as E'.
  pose proof (sp_chunks b s R) as Hok. pose proof (sp_sorted b s R) as Hs. rewrite E in Hok, Hs.
  split.
  - rewrite E'. apply Forall_app in Hok as [Hok1 Hok2]. apply Forall_cons in Hok2 as [_ Hok2].
    apply Forall_app. split; [done|]. by constructor.
  - rewrite E'. apply sorted_mid. apply sorted_mid in Hs. unfold chunk_lt in *.
    by rewrite Eo.
  - pose proof (sp_first b s R) as Hf. destruct l1; cbn.
    + rewrite Eo. unfold chain in E. cbn in E. injection E as <- _. done.
    + done.
  - intros j. rewrite E', chain_has_app, chain_has_cons, Hs'. tauto.
Qed.

Lemma change_word_spec b s i f l1 c l2 : spbset_rep b s -> 0 <= i <= UINT32_MAX ->
  chain b = l1 ++ c :: l2 -> ch_offset c = 256 * (i / 256) ->
  (forall x j, word x -> word (f x j)) ->
  exists x, change_word b (length l1) i f = Some (set_chunk b (length l1)
      (mk_spchunk (<[Z.to_nat ((i - ch_offset c) / 64) := f x (i - ch_offset c)]> (ch_slots c))
         (ch_offset c))) /\
    ch_slots c !! Z.to_nat ((i - ch_offset c) / 64) = Some x /\ word x /\
    0 <= i - ch_offset c /\ sp_chunk_ok c /\
    sp_chunk_ok (mk_spchunk (<[Z.to_nat ((i - ch_offset c) / 64) := f x (i - ch_offset c)]> (ch_slots c))
      (ch_offset c)).
Proof.
  intros R Hi E Ec Hf. assert (Hc : sp_chunk_ok c).
  { pose proof (sp_chunks b s R) as Hok. rewrite E in Hok. apply Forall_app in Hok as [_ Hok].
    by apply Forall_cons in Hok as [? _]. }
  assert (Hr : 0 <= i - ch_offset c < 256) by dlia.
  destruct (lookup_lt_is_Some_2 (ch_slots c) (Z.to_nat ((i - ch_offset c) / 64))) as [x Hx].
  { pose proof (ok_slots c Hc) as H. unfold zlen in H. dlia. }
  pose proof (Forall_lookup_1 _ _ _ _ (ok_words c Hc) Hx) as Hw.
  exists x. split; [|split; [done|split; [done|split; [lia|split; [done|]]]]].
  - unfold change_word. rewrite E, list_lookup_middle by done. cbn [mbind option_bind].
    rewrite u32_small by (unfold UINT32_MAX; lia). rewrite Hx. done.
  - destruct Hc as [C1 C2 C3 C4]. split; cbn [ch_slots ch_offset]; try done.
    + unfold zlen in *. by rewrite length_insert.
    + apply Forall_insert; [done|by apply Hf].
Qed.

Lemma sp_add_spec b s i o : spbset_rep b s -> 0 <= i <= UINT32_MAX ->
  exists ok b' o', Curl_uint32_spbset_add b i o = Some (ok, b', o') /\
    spbset_rep b' (if ok : bool then {[i]} ∪ s else s) /\
    (ok = false -> false ∈ o) /\ (false ∈ o' -> false ∈ o).
Proof.
  intros R Hi. unfold Curl_uint32_spbset_add.
  destruct (get_chunk_spec b s i true o R Hi) as (r & b' & o' & -> & R' & _ & Hr & Ho).
  destruct r as [k|].
  2: { destruct Hr as (_ & _ & Hr). do 3 eexists. split; [reflexivity|].
    split; [done|]. split; [|done]. intros _. by apply Hr. }
  destruct Hr as (l1 & c & l2 & E & -> & Ec).
  destruct (change_word_spec b' s i set_bit l1 c l2 R' Hi E Ec set_bit_word)
    as (x & -> & Hx & Hw & H0 & Hc & Hc'). cbn [mbind option_bind].
  do 3 eexists. split; [reflexivity|]. split; [|by split]. cbn iota.
  apply (set_chunk_rep b' s l1 c l2); [done|done|done|done|].
  intros j. unfold chunk_has. cbn [ch_slots ch_offset]. rewrite has_set by done.
  rewrite elem_of_union, elem_of_singleton, (sp_mem b' s R'), E, chain_has_app, chain_has_cons.
  unfold chunk_has. assert (j - ch_offset c = i - ch_offset c <-> j = i) as -> by lia. tauto.
Qed.

Lemma sp_remove_spec b s i : spbset_rep b s -> 0 <= i <= UINT32_MAX ->
  exists b', Curl_uint32_spbset_remove b i = Some b' /\ spbset_rep b' (s ∖ {[i]}).
Proof.
  intros R Hi. unfold Curl_uint32_spbset_remove.
  destruct (get_chunk_spec b s i false [] R Hi) as (r & b' & o' & -> & _ & Hb & Hr & _).
  specialize (Hb eq_refl) as ->.
  destruct r as [k|].
  - destruct Hr as (l1 & c & l2 & E & -> & Ec).
    destruct (change_word_spec b s i clear_bit l1 c l2 R Hi E Ec clear_bit_word)
      as (x & -> & Hx & Hw & H0 & Hc & Hc').
    eexists. split; [reflexivity|]. apply (set_chunk_rep b s l1 c l2); [done|done|done|done|].
    intros j. unfold chunk_has. cbn [ch_slots ch_offset].
    rewrite has_clear by (done || apply (ok_words c Hc)).
    rewrite elem_of_difference, elem_of_singleton, (sp_mem b s R), E, chain_has_app, chain_has_cons.
    unfold chunk_has. assert (j - ch_offset c <> i - ch_offset c <-> j <> i) as -> by lia.
    assert (Hoth : j = i -> ~ chain_has l1 j /\ ~ chain_has l2 j).
    { intros ->. apply (sorted_other l1 c l2 i); [rewrite <- E; apply (sp_chunks b s R)|
        rewrite <- E; apply (sp_sorted b s R)|done]. }
    destruct (decide (j = i)); tauto.
  - exists b. split; [done|]. destruct Hr as (_ & Hr & _). specialize (Hr eq_refl).
    by rewrite difference_absent.
Qed.

Lemma sp_contains_spec b s i : spbset_rep b s -> 0 <= i <= UINT32_MAX ->
  Curl_uint32_spbset_contains b i = Some (bool_decide (i ∈ s)).
Proof.
  intros R Hi. unfold Curl_uint32_spbset_contains.
  destruct (get_chunk_spec b s i false [] R Hi) as (r & b' & o' & -> & _ & Hb & Hr & _).
  specialize (Hb eq_refl) as ->. destruct r as [k|].
  - destruct Hr as (l1 & c & l2 & E & -> & Ec).
    destruct (change_word_spec b s i set_bit l1 c l2 R Hi E Ec set_bit_word)
      as (x & _ & Hx & Hw & H0 & Hc & _).
    rewrite E, list_lookup_middle by done. cbn [mbind option_bind].
    rewrite u32_small by (unfold UINT32_MAX in *; dlia). rewrite Hx. cbn [mbind option_bind].
    f_equal. pose proof (has_test (ch_slots c) (i - ch_offset c) x H0 Hx) as Ht.
    destruct (sorted_other l1 c l2 i) as [N1 N2]; [rewrite <- E; apply (sp_chunks b s R)|
        rewrite <- E; apply (sp_sorted b s R)|done|].
    assert (Hin : i ∈ s <-> test_bit x (i - ch_offset c) = true).
    { rewrite (sp_mem b s R), E, chain_has_app, chain_has_cons, Ht. unfold chunk_has. tauto. }
    destruct (test_bit x (i - ch_offset c)); symmetry.
    + apply bool_decide_eq_true. by apply Hin.
    + apply bool_decide_eq_false. intros H. by apply Hin in H.
  - f_equal. symmetry. apply bool_decide_eq_false. destruct Hr as (_ & Hr & _). by apply Hr.
Qed.

(** ** Counting *)

Definition chain_elems (l : list uint32_spbset_chunk) : list Z :=
  concat (map (fun c => elems (ch_offset c) (ch_slots c)) l).

Lemma elem_of_chain_elems l i : i ∈ chain_elems l <-> chain_has l i.
Proof.
  induction l as [|c l IH]; cbn.
  - split; [intros H; by apply elem_of_nil in H|intros (c & Hc & _); by apply elem_of_nil in Hc].
  - rewrite elem_of_app, chain_has_cons, elem_of_elems. by f_equiv.
Qed.

Lemma sorted_nodup l : StronglySorted Z.lt l -> NoDup l.
Proof.
  induction 1 as [|x l Hs IH Hx]; constructor; [|done]. intros H.
  rewrite Forall_forall in Hx. specialize (Hx x H). lia.
Qed.

Lemma sorted_chain_elems l : Forall sp_chunk_ok l -> StronglySorted chunk_lt l ->
  StronglySorted Z.lt (chain_elems l).
Proof.
  intros Hok Hs. induction Hs as [|c l Hs IH Hc]; [constructor|].
  apply Forall_cons in Hok as [Hcok Hok]. change (chain_elems (c :: l))
    with (elems (ch_offset c) (ch_slots c) ++ chain_elems l).
  apply sorted_app; [apply sorted_elems|by apply IH|].
  intros i j Hi Hj. apply elem_of_elems in Hi. apply elem_of_chain_elems in Hj as (d & Hd & Hj).
  rewrite Forall_forall in Hc, Hok. specialize (Hc d Hd). specialize (Hok d Hd). unfold chunk_lt in Hc.
  destruct (sp_chunk_range c i Hcok Hi) as [E1 _]. destruct (sp_chunk_range d j Hok Hj) as [E2 _]. dlia.
Qed.

Lemma chain_count_spec l : Forall sp_chunk_ok l -> forall n, 0 <= n <= UINT32_MAX ->
  chain_count l n = Some (u32 (n + zlen (chain_elems l))).
Proof.
  induction 1 as [|c l Hc Hok IH]; intros n Hn; cbn [chain_count].
  { change (zlen (chain_elems [])) with 0. by rewrite Z.add_0_r, u32_small. }
  pose proof (count_loop_spec (ch_slots c) 4 [] n (ok_words c Hc) Hn) as Hl. cbn [app] in Hl.
  rewrite (ok_slots c Hc) in Hl. change (zlen []) with 0 in Hl.
  unfold CURL_UINT32_SPBSET_CH_SLOTS. rewrite Hl.
  - cbn [mbind option_bind]. rewrite IH by apply u32_range.
    change (chain_elems (c :: l)) with (elems (ch_offset c) (ch_slots c) ++ chain_elems l).
    rewrite zlen_app, (zlen_elems_base (ch_slots c) (ch_offset c) 0). f_equal.
    unfold u32. rewrite Zplus_mod_idemp_l. f_equal. lia.
  - unfold UINT32_MAX. lia.
  - pose proof (ok_slots c Hc) as H. unfold zlen in H. lia.
Qed.

Lemma sp_count_spec b s : spbset_rep b s ->
  Curl_uint32_spbset_count b = Some (u32 (Z.of_nat (size s))).
Proof.
  intros R. unfold Curl_uint32_spbset_count.
  rewrite (chain_count_spec _ (sp_chunks b s R) 0) by done. rewrite Z.add_0_l. do 2 f_equal.
  assert (E : s = list_to_set (chain_elems (chain b))).
  { apply set_eq. intros i. rewrite elem_of_list_to_set, elem_of_chain_elems. apply (sp_mem b s R). }
  rewrite E, size_list_to_set; [done|].
  apply sorted_nodup, sorted_chain_elems; [apply (sp_chunks b s R)|apply (sp_sorted b s R)].
Qed.

(** ** Searching *)

Definition in_chunk (c : uint32_spbset_chunk) (r : option (Z * Z)) : option Z :=
  match r with Some (i, x) => Some (in_slot c i x) | None => None end.

Lemma chunk_scan c i : sp_chunk_ok c -> 0 <= i ->
  exists r, next_used 4 (ch_slots c) CURL_UINT32_SPBSET_CH_SLOTS i = Some r /\
    least (chunk_has c) (ch_offset c + 64 * i) (in_chunk c r).
Proof.
  intros Hc Hi. destruct (least_scan (ch_slots c) i Hi (ok_words c Hc)) as (r & Hr & Hl & Hs).
  { rewrite (ok_slots c Hc). unfold UINT32_MAX. lia. }
  rewrite (ok_slots c Hc) in Hr, Hs. exists r. split; [exact Hr|].
  pose proof (ok_range c Hc) as Ho. pose proof (ok_offset c Hc) as Hm.
  destruct r as [[j x]|]; cbn [found in_chunk least] in *.
  - destruct Hs as (Hj & _ & Hx & _). destruct Hl as (H1 & H2 & H3).
    assert (E : in_slot c j x = ch_offset c + (64 * j + Curl_ctz64 x)).
    { unfold in_slot. rewrite (u32_small (j * 64)) by (unfold UINT32_MAX; lia).
      rewrite (u32_small (j * 64 + _)) by (unfold UINT32_MAX; lia).
      rewrite u32_small by (unfold UINT32_MAX in *; dlia). lia. }
    rewrite E. split; [|split; [lia|]].
    + unfold chunk_has. by replace (ch_offset c + (64 * j + Curl_ctz64 x) - ch_offset c)
        with (64 * j + Curl_ctz64 x) by lia.
    + intros k Hk Hn. specialize (H3 (k - ch_offset c) Hk). lia.
  - intros k Hk. specialize (Hl (k - ch_offset c) Hk). lia.
Qed.

Lemma chunk_has_ge c k : sp_chunk_ok c -> chunk_has c k -> ch_offset c <= k < ch_offset c + 256.
Proof. intros Hc H. apply has_below in H. rewrite (ok_slots c Hc) in H. lia. Qed.

(** The least number of a chain, from the least number of its first chunk or of
    the others. *)
Lemma least_chain c l n r : Forall sp_chunk_ok (c :: l) -> StronglySorted chunk_lt (c :: l) ->
  least (chunk_has c) n r ->
  match r with
  | Some m => least (chain_has (c :: l)) n r
  | None => forall r', least (chain_has l) n r' -> least (chain_has (c :: l)) n r'
  end.
Proof.
  intros Hok Hs Hr. apply Forall_cons in Hok as [Hc Hok]. apply StronglySorted_inv in Hs as [_ Hs].
  rewrite Forall_forall in Hs, Hok. destruct r as [m|]; cbn [least] in *.
  - destruct Hr as (H1 & H2 & H3). split; [apply chain_has_cons; by left|]. split; [done|].
    intros k Hk Hn. apply chain_has_cons in Hk as [Hk|(d & Hd & Hk)]; [by apply H3|].
    pose proof (chunk_has_ge c m Hc H1). pose proof (chunk_has_ge d k (Hok d Hd) Hk).
    specialize (Hs d Hd). unfold chunk_lt in Hs. pose proof (ok_offset c Hc).
    pose proof (ok_offset d (Hok d Hd)). dlia.
  - intros r' Hr'. destruct r' as [m|]; cbn [least] in *.
    + destruct Hr' as (H1 & H2 & H3). split; [apply chain_has_cons; by right|]. split; [done|].
      intros k Hk Hn. apply chain_has_cons in Hk as [Hk|Hk]; [specialize (Hr k Hk); lia|by apply H3].
    + intros k Hk. apply chain_has_cons in Hk as [Hk|Hk]; [by apply Hr|by apply Hr'].
Qed.

Lemma least_from P n n' r : n' <= n -> (forall k, P k -> n' <= k -> n <= k) ->
  least P n r -> least P n' r.
Proof.
  intros Hn H. destruct r as [m|]; cbn.
  - intros (H1 & H2 & H3). split; [done|]. split; [lia|]. intros k Hk Hnk. apply H3; [done|by apply H].
  - intros H1 k Hk. destruct (Z.lt_ge_cases k n') as [|Hge]; [done|].
    specialize (H1 k Hk). specialize (H k Hk Hge). lia.
Qed.

(** The least number of a chunk is its least number from any lower one on. *)
Lemma chunk_scan_all c n : sp_chunk_ok c -> n <= ch_offset c ->
  exists r, next_used 4 (ch_slots c) CURL_UINT32_SPBSET_CH_SLOTS 0 = Some r /\
    least (chunk_has c) n (in_chunk c r).
Proof.
  intros Hc Hn. destruct (chunk_scan c 0 Hc) as (r & Hr & Hl); [lia|]. exists r. split; [done|].
  apply (least_from _ (ch_offset c + 64 * 0)); [lia| |done].
  intros k Hk _. pose proof (chunk_has_ge c k Hc Hk). lia.
Qed.

Definition first_result (r : option Z) : bool * Z :=
  match r with Some m => (true, m) | None => (false, 0) end.

Lemma first_loop_spec l n : Forall sp_chunk_ok l -> StronglySorted chunk_lt l ->
  Forall (fun c => n <= ch_offset c) l ->
  exists r, first_loop l = Some (first_result r) /\ least (chain_has l) n r.
Proof.
  intros Hok Hs Hn. induction l as [|c l IH]; cbn [first_loop].
  { exists None. split; [done|]. intros k (c & Hc & _). by apply elem_of_nil in Hc. }
  apply Forall_cons in Hn as [Hcn Hn]. pose proof Hok as Hok0. apply Forall_cons in Hok0 as [Hc Hok'].
  destruct (chunk_scan_all c n Hc Hcn) as (r & -> & Hl). cbn [mbind option_bind].
  pose proof (least_chain c l n _ Hok Hs Hl) as H.
  destruct r as [[i x]|]; cbn [in_chunk] in *; [by eexists (Some _)|].
  apply StronglySorted_inv in Hs as [Hs _].
  destruct (IH Hok' Hs Hn) as (r' & -> & Hr'). exists r'. split; [done|by apply H].
Qed.

Lemma higher_loop_spec l n : Forall sp_chunk_ok l -> StronglySorted chunk_lt l ->
  Forall (fun c => n <= ch_offset c) l ->
  exists r, higher_loop l = Some (search_result r) /\ least (chain_has l) n r.
Proof.
  intros Hok Hs Hn. induction l as [|c l IH]; cbn [higher_loop].
  { exists None. split; [done|]. intros k (c & Hc & _). by apply elem_of_nil in Hc. }
  apply Forall_cons in Hn as [Hcn Hn]. pose proof Hok as Hok0. apply Forall_cons in Hok0 as [Hc Hok'].
  destruct (chunk_scan_all c n Hc Hcn) as (r & Hr & Hl). unfold uint32_spbset_chunk_first.
  rewrite Hr. cbn [mbind option_bind].
  pose proof (least_chain c l n _ Hok Hs Hl) as H.
  destruct r as [[i x]|]; cbn [in_chunk mbind option_bind] in *; [by eexists (Some _)|].
  apply StronglySorted_inv in Hs as [Hs _].
  destruct (IH Hok' Hs Hn) as (r' & -> & Hr'). exists r'. split; [done|by apply H].
Qed.

Lemma chunk_next_spec c n : sp_chunk_ok c -> 0 <= n <= UINT32_MAX -> ch_offset c = 256 * (n / 256) ->
  exists r, uint32_spbset_chunk_next c n = Some (search_result r) /\ least (chunk_has c) n r.
Proof.
  intros Hc Hn Ec. unfold uint32_spbset_chunk_next.
  replace (ch_offset c <=? n) with true by (symmetry; apply Z.leb_le; dlia).
  rewrite (u32_small (n - ch_offset c)) by (unfold UINT32_MAX in *; dlia).
  set (d := n - ch_offset c). assert (Hd : 0 <= d < 256) by (unfold d; dlia).
  replace (d / 64 <? CURL_UINT32_SPBSET_CH_SLOTS) with true
    by (symmetry; apply Z.ltb_lt; unfold CURL_UINT32_SPBSET_CH_SLOTS; dlia).
  destruct (lookup_lt_is_Some_2 (ch_slots c) (Z.to_nat (d / 64))) as [y Hy].
  { pose proof (ok_slots c Hc) as H. unfold zlen in H. dlia. }
  rewrite Hy. cbn [mbind option_bind].
  pose proof (next_in_word (ch_slots c) d y ltac:(lia) (ok_words c Hc) Hy) as Hin. cbv zeta in Hin.
  replace (n mod 64) with (d mod 64) by (unfold d; dlia).
  assert (Hsh : forall r, least (has (ch_slots c)) d (Some r) ->
    least (chunk_has c) n (Some (ch_offset c + r))).
  { intros r (H1 & H2 & H3). split; [|split; [unfold d in *; lia|]].
    - unfold chunk_has. by replace (ch_offset c + r - ch_offset c) with r by lia.
    - intros k Hk Hnk. specialize (H3 (k - ch_offset c) Hk). unfold d in H3. lia. }
  destruct (Z.eqb_spec (Z.shiftr y (d mod 64)) 0) as [E0|E0]; cbn [negb].
  - rewrite u32_small by (unfold UINT32_MAX; dlia).
    destruct (chunk_scan c (d / 64 + 1) Hc) as (r & -> & Hl); [dlia|]. cbn [mbind option_bind].
    exists (in_chunk c r). split; [by destruct r as [[i x]|]|].
    apply (least_from _ (ch_offset c + 64 * (d / 64 + 1))); [unfold d; dlia| |done].
    intros k Hk Hnk. specialize (Hin (k - ch_offset c) Hk). unfold d in *. lia.
  - destruct Hin as [Hl Hcz]. apply Hsh in Hl. eexists (Some _). split; [|exact Hl].
    cbn [search_result]. do 2 f_equal. unfold d. rewrite u32_small; [lia|].
    unfold UINT32_MAX in *. unfold d in *. dlia.
Qed.

Lemma skip_below_spec l off : StronglySorted chunk_lt l ->
  exists l1, l = l1 ++ skip_below l off /\ Forall (fun c => ch_offset c < off) l1 /\
    Forall (fun c => off <= ch_offset c) (skip_below l off).
Proof.
  induction 1 as [|c l Hs IH Hc]; cbn [skip_below].
  { exists []. split; [done|]. split; constructor. }
  rewrite Z.geb_leb. destruct (Z.leb_spec off (ch_offset c)).
  - exists []. split; [done|]. split; [constructor|]. constructor; [done|].
    eapply Forall_impl; [exact Hc|]. unfold chunk_lt. cbn. lia.
  - destruct IH as (l1 & E & H1 & H2). exists (c :: l1). split; [cbn; by rewrite <- E|].
    split; [by constructor|done].
Qed.

Lemma sp_first_spec b s : spbset_rep b s ->
  exists r, Curl_uint32_spbset_first b = Some (first_result r) /\ least (fun i => i ∈ s) 0 r.
Proof.
  intros R. destruct (first_loop_spec (chain b) 0) as (r & Hr & Hl);
    [apply (sp_chunks b s R)|apply (sp_sorted b s R)| |].
  - eapply Forall_impl; [apply (sp_chunks b s R)|]. intros c Hc. cbn. apply (ok_range c Hc).
  - exists r. split; [done|]. apply (least_ext (chain_has (chain b))); [|done].
    intros i. symmetry. apply (sp_mem b s R).
Qed.

Lemma sp_next_spec b s last : spbset_rep b s -> 0 <= last <= UINT32_MAX ->
  exists r, Curl_uint32_spbset_next b last = Some (search_result r) /\
    least (fun i => i ∈ s) (u32 (last + 1)) r.
Proof.
  intros R Hlast. unfold Curl_uint32_spbset_next. pose proof (u32_range (last + 1)) as Hn.
  set (n := u32 (last + 1)) in *. clearbody n. rewrite (offset_of_spec n Hn).
  destruct (skip_below_spec (chain b) (256 * (n / 256)) (sp_sorted b s R)) as (l1 & E & H1 & H2).
  pose proof (sp_chunks b s R) as Hok. pose proof (sp_sorted b s R) as Hs. pose proof (sp_mem b s R) as Hm.
  rewrite E in Hok, Hs. apply Forall_app in Hok as [Hok1 Hok]. apply sorted_suffix in Hs.
  assert (Hext : forall r, least (chain_has (skip_below (chain b) (256 * (n / 256)))) n r ->
    least (fun i => i ∈ s) n r).
  { intros r Hr. rewrite E in Hm. rewrite Forall_forall in H1, Hok1.
    assert (Hlow : forall k, n <= k -> ~ chain_has l1 k).
    { intros k Hk (c & Hc & Hh). pose proof (chunk_has_ge c k (Hok1 c Hc) Hh).
      specialize (H1 c Hc). pose proof (ok_offset c (Hok1 c Hc)). cbn in H1. dlia. }
    destruct r as [m|]; cbn [least] in *.
    - destruct Hr as (A1 & A2 & A3). split; [apply Hm, chain_has_app; by right|]. split; [done|].
      intros k Hk Hnk. apply Hm, chain_has_app in Hk as [Hk|Hk]; [by destruct (Hlow k Hnk)|by apply A3].
    - intros k Hk. apply Hm, chain_has_app in Hk as [Hk|Hk]; [|by apply Hr].
      destruct (Z.lt_ge_cases k n) as [|Hge]; [done|]. by destruct (Hlow k Hge). }
  destruct (skip_below (chain b) (256 * (n / 256))) as [|c l] eqn:El.
  { exists None. split; [done|]. apply Hext. intros k (c & Hc & _). by apply elem_of_nil in Hc. }
  pose proof Hok as Hok0. apply Forall_cons in Hok0 as [Hc Hok'].
  pose proof Hs as Hs0. apply StronglySorted_inv in Hs0 as [Hs' Hlt].
  assert (Hhigh : Forall (fun d => n <= ch_offset d) l).
  { rewrite Forall_forall in Hlt, H2, Hok'. apply Forall_forall. intros d Hd.
    specialize (Hlt d Hd). unfold chunk_lt in Hlt. specialize (H2 c ltac:(left)). cbn in H2.
    pose proof (ok_offset c Hc). pose proof (ok_offset d (Hok' d Hd)). dlia. }
  destruct (Z.eqb_spec (ch_offset c) (256 * (n / 256))) as [Ec|Hne].
  - destruct (chunk_next_spec c n Hc Hn Ec) as (r & -> & Hr). cbn [mbind option_bind].
    pose proof (least_chain c l n r Hok Hs Hr) as H.
    destruct r as [m|]; cbn [search_result].
    + exists (Some m). split; [done|by apply Hext].
    + destruct (higher_loop_spec l n Hok' Hs' Hhigh) as (r' & -> & Hr').
      exists r'. split; [done|]. by apply Hext, H.
  - destruct (higher_loop_spec (c :: l) n Hok Hs) as (r' & Hr & Hr').
    + constructor; [|done]. apply Forall_cons in H2 as [H2 _]. pose proof (ok_offset c Hc). dlia.
    + exists r'. split; [done|by apply Hext].
Qed.

(** * Refinement of a set *)

Inductive sp_op :=
  | PAdd (i : Z) | PRemove (i : Z) | PContains (i : Z) | PCount | PClear | PFirst | PNext (last : Z).

Definition sp_step (b : uint32_spbset) (op : sp_op) (o : allocs)
  : option (uint32_spbset * set_res * allocs) :=
  match op with
  | PAdd i => '(ok, b, o) ← Curl_uint32_spbset_add b i o; Some (b, RBool ok, o)
  | PRemove i => b ← Curl_uint32_spbset_remove b i; Some (b, RUnit, o)
  | PContains i => r ← Curl_uint32_spbset_contains b i; Some (b, RBool r, o)
  | PCount => n ← Curl_uint32_spbset_count b; Some (b, RCount n, o)
  | PClear => Some (uint32_spbset_clear b, RUnit, o)
  | PFirst => r ← Curl_uint32_spbset_first b; Some (b, RSearch r, o)
  | PNext last => r ← Curl_uint32_spbset_next b last; Some (b, RSearch r, o)
  end.

Fixpoint sp_run (b : uint32_spbset) (ops : list sp_op) (o : allocs)
  : option (uint32_spbset * list set_res) :=
  match ops with
  | [] => Some (b, [])
  | op :: ops =>
      '(b, r, o) ← sp_step b op o;
      '(b, rs) ← sp_run b ops o;
      Some (b, r :: rs)
  end.

Definition sp_op_ok (op : sp_op) : Prop :=
  match op with
  | PAdd i | PRemove i | PContains i | PNext i => 0 <= i <= UINT32_MAX
  | _ => True
  end.

(** [oom]: an allocation can fail.  All 2^32 numbers can be in the
    set, and only then is the count wrong (it is a [uint32_t]). *)
Definition sp_allows (oom : Prop) (s : gset Z) (op : sp_op) (res : set_res) (s' : gset Z) : Prop :=
  match op with
  | PAdd i => (res = RBool true /\ s' = {[i]} ∪ s) \/ (res = RBool false /\ oom /\ s' = s)
  | PRemove i => res = RUnit /\ s' = s ∖ {[i]}
  | PContains i => s' = s /\ res = RBool (bool_decide (i ∈ s))
  | PCount => s' = s /\ res = RCount (u32 (Z.of_nat (size s)))
  | PClear => s' = ∅ /\ res = RUnit
  | PFirst => s' = s /\ exists r, res = RSearch (first_result r) /\ least (fun i => i ∈ s) 0 r
  | PNext last => s' = s /\
      exists r, res = RSearch (search_result r) /\
        least (fun i => i ∈ s) (if last =? UINT32_MAX then 0 else last + 1) r
  end.

Inductive sp_set_run (oom : Prop) : gset Z -> list sp_op -> list set_res -> gset Z -> Prop :=
  | sp_set_nil s : sp_set_run oom s [] [] s
  | sp_set_cons s op r s1 ops rs s2 :
      sp_allows oom s op r s1 -> sp_set_run oom s1 ops rs s2 -> sp_set_run oom s (op :: ops) (r :: rs) s2.

Lemma sp_step_spec b s op o : spbset_rep b s -> sp_op_ok op ->
  exists b' r o' s', sp_step b op o = Some (b', r, o') /\ spbset_rep b' s' /\
    (false ∈ o' -> false ∈ o) /\ sp_allows (false ∈ o) s op r s'.
Proof.
  intros R Hop. destruct op as [i|i|i| | | |last]; cbn [sp_op_ok] in Hop; cbn [sp_step sp_allows].
  - destruct (sp_add_spec b s i o R Hop) as (ok & b' & o' & -> & R' & Hok & Ho). cbn [mbind option_bind].
    do 4 eexists. split; [done|]. split; [exact R'|]. split; [done|]. destruct ok; [by left|right; by auto].
  - destruct (sp_remove_spec b s i R Hop) as (b' & -> & R').
    do 4 eexists. split; [done|]. split; [exact R'|]. split; [done|]. done.
  - rewrite (sp_contains_spec b s i R Hop). do 4 eexists. split; [done|]. split; [exact R|]. split; [done|]. done.
  - rewrite (sp_count_spec b s R). do 4 eexists. split; [done|]. split; [exact R|]. split; [done|]. done.
  - do 4 eexists. split; [done|]. split; [exact init_sprep|]. split; [done|]. done.
  - destruct (sp_first_spec b s R) as (r & -> & Hr). do 4 eexists. split; [done|].
    split; [exact R|]. split; [done|]. split; [done|]. by exists r.
  - destruct (sp_next_spec b s last R Hop) as (r & -> & Hr). do 4 eexists. split; [done|].
    split; [exact R|]. split; [done|]. split; [done|]. exists r. rewrite u32_succ in Hr by done. done.
Qed.

Lemma sp_set_run_weaken (oom oom' : Prop) s ops rs s' : (oom -> oom') ->
  sp_set_run oom s ops rs s' -> sp_set_run oom' s ops rs s'.
Proof.
  intros H. induction 1 as [|s op r s1 ops rs s2 Ha Hr IH]; [constructor|].
  econstructor; [|exact IH]. destruct op; cbn in *; tauto.
Qed.

Lemma sp_run_spec ops : Forall sp_op_ok ops -> forall b s o, spbset_rep b s ->
  exists b' rs s', sp_run b ops o = Some (b', rs) /\
    sp_set_run (false ∈ o) s ops rs s' /\ spbset_rep b' s'.
Proof.
  induction 1 as [|op ops Hop Hops IH]; intros b s o R.
  { exists b, [], s. split; [done|]. split; [constructor|done]. }
  destruct (sp_step_spec b s op o R Hop) as (b1 & r & o1 & s1 & E & R1 & Ho & Ha).
  destruct (IH b1 s1 o1 R1) as (b2 & rs & s2 & E2 & Hr & R2).
  cbn [sp_run]. rewrite E. cbn [mbind option_bind]. rewrite E2. cbn [mbind option_bind].
  exists b2, (r :: rs), s2. split; [done|]. split; [|done].
  econstructor; [done|]. by apply (sp_set_run_weaken (false ∈ o1)).
Qed.

(** C13: the sparse bit set is a set of 32-bit numbers: any sequence of
    operations on an initialised set runs inside the chunks, whatever
    allocations fail, and answers like a finite set; adding fails only for
    lack of memory. *)
Theorem spbset_refines_set ops o : Forall sp_op_ok ops ->
  exists b rs s, sp_run Curl_uint32_spbset_init ops o = Some (b, rs) /\
    sp_set_run (false ∈ o) ∅ ops rs s /\ (forall i, i ∈ s <-> chain_has (chain b) i).
Proof.
  intros Hops. destruct (sp_run_spec ops Hops _ _ o init_sprep) as (b & rs & s & H1 & H2 & R).
  exists b, rs, s. split; [done|]. split; [done|]. apply (sp_mem b s R).
Qed.

Lemma spbset_refines_set_witness :
  exists b rs s, sp_run Curl_uint32_spbset_init
      [PAdd 300; PAdd 5; PAdd 4294967295; PAdd 1000; PFirst; PNext 5; PNext 300; PNext 4294967295;
       PCount; PRemove 300; PContains 300; PContains 1000] [true; true; false] = Some (b, rs) /\
    sp_set_run (false ∈ [true; true; false]) ∅
      [PAdd 300; PAdd 5; PAdd 4294967295; PAdd 1000; PFirst; PNext 5; PNext 300; PNext 4294967295;
       PCount; PRemove 300; PContains 300; PContains 1000] rs s /\
    (forall i, i ∈ s <-> chain_has (chain b) i).
Proof.
  apply spbset_refines_set.
  repeat (apply Forall_cons_2; [cbn; unfold UINT32_MAX; first [exact I|lia]|]). constructor.
Defined.
