(* ===== verification/UintTable.v ===== *)
(** The table of entries with integer keys, lib/uint-table.c.

    The rows are an array; an access outside of it is [None].  The operations
    that drop entries return the calls they make to the entry destructor.
    The table refines a finite map with round-robin key allocation. *)

From Stdlib Require Import ZArith Lia List Sorted.
From stdpp Require Import base numbers option list gmap fin_maps.
From S2P Require Import Prelude.
Close Scope nat_scope.
Open Scope Z_scope.

(** * Data and operations *)

Record uint32_tbl {E : Type} := mk_tbl {
  rows : list (option E);
  entry_dtor : bool;  (** a destructor is set *)
  nrows : Z;
  nentries : Z;
  last_key_added : Z;
}.
Arguments uint32_tbl : clear implicits.

Section operations.
Context {E : Type}.
Implicit Types (t : uint32_tbl E) (calls : list (Z * E)).

Definition Curl_uint32_tbl_init (entry_dtor : bool) : uint32_tbl E :=
  mk_tbl E [] entry_dtor 0 0 UINT32_MAX.

(** [for(i = from; i < end; ++i) if(tbl->rows[i]) ...] *)
Fixpoint clear_loop (fuel : nat) t (i end_ : Z) calls : option (uint32_tbl E * list (Z * E)) :=
  if i <? end_ then
    e ← rows t !! Z.to_nat i;
    let '(t, calls) :=
      match e with
      | Some x =>
          (mk_tbl E (<[Z.to_nat i := None]> (rows t)) (entry_dtor t) (nrows t)
             (u32 (nentries t - 1)) (last_key_added t),
           if entry_dtor t then calls ++ [(i, x)] else calls)
      | None => (t, calls)
      end in
    match fuel with O => None | S fuel => clear_loop fuel t (u32 (i + 1)) end_ calls end
  else Some (t, calls).

Definition uint32_tbl_clear_rows t (from upto_excluding : Z) :=
  clear_loop (Z.to_nat (nrows t)) t from (Z.min upto_excluding (nrows t)) [].

Definition Curl_uint32_tbl_resize t (n : Z) (o : allocs)
  : option (CURLcode * uint32_tbl E * list (Z * E) * allocs) :=
  if n =? 0 then Some (CURLE_BAD_FUNCTION_ARGUMENT, t, [], o)
  else if negb (n =? nrows t) then
    let '(ok, o) := next_alloc o in
    if ok then
      let kept := ztake (Z.min n (nrows t)) (rows t) in
      let new := kept ++ replicate (Z.to_nat (n - zlen kept)) None in
      '(t, calls) ← (if n <? nrows t then uint32_tbl_clear_rows t n (nrows t) else Some (t, []));
      Some (CURLE_OK, mk_tbl E new (entry_dtor t) n (nentries t) (last_key_added t), calls, o)
    else Some (CURLE_OUT_OF_MEMORY, t, [], o)
  else Some (CURLE_OK, t, [], o).

Definition uint32_tbl_clear t : option (uint32_tbl E * list (Z * E)) :=
  '(t, calls) ← uint32_tbl_clear_rows t 0 (nrows t);
  Some (mk_tbl E (rows t) (entry_dtor t) (nrows t) (nentries t) UINT32_MAX, calls).

Definition Curl_uint32_tbl_destroy t : option (uint32_tbl E * list (Z * E)) :=
  '(t, calls) ← uint32_tbl_clear t;
  Some (mk_tbl E [] false 0 0 0, calls).

Definition Curl_uint32_tbl_capacity t : Z := nrows t.

Definition Curl_uint32_tbl_count t : Z := nentries t.

Definition Curl_uint32_tbl_get t (key : Z) : option (option E) :=
  if key <? nrows t then rows t !! Z.to_nat key else Some None.

(** [for(; key < end; ++key) if(!tbl->rows[key]) ...] *)
Fixpoint find_free (fuel : nat) t (key end_ : Z) : option (option Z) :=
  if key <? end_ then
    e ← rows t !! Z.to_nat key;
    match e with
    | None => Some (Some key)
    | Some _ => match fuel with O => None | S fuel => find_free fuel t (u32 (key + 1)) end_ end
    end
  else Some None.

Definition store t (key : Z) (entry : E) : uint32_tbl E :=
  mk_tbl E (<[Z.to_nat key := Some entry]> (rows t)) (entry_dtor t) (nrows t)
    (u32 (nentries t + 1)) key.

(** Returns success, the key written to [*pkey] ([None]: not written). *)
Definition Curl_uint32_tbl_add t (entry : option E) : option (bool * option Z * uint32_tbl E) :=
  match entry with
  | None => Some (false, None, t)
  | Some entry =>
      if nentries t =? nrows t then Some (false, Some UINT32_MAX, t)
      else
        let start_pos := u32 (Z.min (last_key_added t) (nrows t) + 1) in
        r ← find_free (Z.to_nat (nrows t)) t start_pos (nrows t);
        match r with
        | Some key => Some (true, Some key, store t key entry)
        | None =>
            r ← find_free (Z.to_nat start_pos) t 0 start_pos;
            match r with
            | Some key => Some (true, Some key, store t key entry)
            | None => Some (false, Some UINT32_MAX, t)
            end
        end
  end.

Definition Curl_uint32_tbl_remove t (key : Z) :=
  uint32_tbl_clear_rows t key (u32 (key + 1)).

Definition Curl_uint32_tbl_contains t (key : Z) : option bool :=
  if key <? nrows t then
    e ← rows t !! Z.to_nat key;
    Some (match e with Some _ => true | None => false end)
  else Some false.

(** The loop of [uint32_tbl_next_at]; [None] stands for [UINT32_MAX], [NULL]. *)
Fixpoint next_at (fuel : nat) t (key : Z) : option (option (Z * E)) :=
  if key <? nrows t then
    e ← rows t !! Z.to_nat key;
    match e with
    | Some x => Some (Some (key, x))
    | None => match fuel with O => None | S fuel => next_at fuel t (u32 (key + 1)) end
    end
  else Some None.

Definition uint32_tbl_next_at t (key : Z) := next_at (Z.to_nat (nrows t)) t key.

Definition Curl_uint32_tbl_first t : option (option (Z * E)) :=
  if negb (nentries t =? 0) then uint32_tbl_next_at t 0 else Some None.

Definition Curl_uint32_tbl_next t (last_key : Z) : option (option (Z * E)) :=
  uint32_tbl_next_at t (u32 (last_key + 1)).

(** * The map of the table *)

Record tbl_rep t (m : gmap Z E) : Prop := {
  rep_len : zlen (rows t) = nrows t;
  rep_max : nrows t <= UINT32_MAX;
  rep_last : 0 <= last_key_added t <= UINT32_MAX;
  rep_count : nentries t = Z.of_nat (size m);
  rep_map : forall k e, m !! k = Some e <-> 0 <= k /\ rows t !! Z.to_nat k = Some (Some e);
}.

Lemma nrows_range t m : tbl_rep t m -> 0 <= nrows t <= UINT32_MAX.
Proof. intros [H1 H2 _ _ _]. zlia. Qed.

Lemma tbl_init_rep d : tbl_rep (Curl_uint32_tbl_init d) ∅.
Proof.
  split; try done. intros k e. rewrite lookup_empty. split; [done|].
  intros [_ H]. change (rows _) with (@nil (option E)) in H. by rewrite lookup_nil in H.
Qed.

Lemma row_lookup t m k : tbl_rep t m -> 0 <= k < nrows t -> rows t !! Z.to_nat k = Some (m !! k).
Proof.
  intros R Hk. destruct (lookup_lt_is_Some_2 (rows t) (Z.to_nat k)) as [r Hr].
  { pose proof (rep_len t m R). unfold zlen in *. lia. }
  rewrite Hr. f_equal. destruct r as [e|].
  - symmetry. apply (rep_map t m R). split; [lia|done].
  - destruct (m !! k) as [e|] eqn:Ek; [|done].
    apply (rep_map t m R) in Ek as [_ Ek]. congruence.
Qed.

Lemma key_range t m k e : tbl_rep t m -> m !! k = Some e -> 0 <= k < nrows t.
Proof.
  intros R Hk. apply (rep_map t m R) in Hk as [Hk He]. apply lookup_lt_Some in He.
  pose proof (rep_len t m R). unfold zlen in *. lia.
Qed.

Definition all_keys (n : Z) : gset Z := list_to_set (seqZ 0 n).

Lemma size_all_keys n : 0 <= n -> Z.of_nat (size (all_keys n)) = n.
Proof.
  intros. unfold all_keys. rewrite size_list_to_set by apply NoDup_seqZ.
  rewrite length_seqZ. lia.
Qed.

Lemma dom_all t m : tbl_rep t m -> dom m ⊆ all_keys (nrows t).
Proof.
  intros R k Hk. apply elem_of_dom in Hk as [e He]. unfold all_keys.
  apply elem_of_list_to_set, elem_of_seqZ. pose proof (key_range t m k e R He). lia.
Qed.

Lemma count_range t m : tbl_rep t m -> 0 <= nentries t <= nrows t.
Proof.
  intros R. rewrite (rep_count t m R). pose proof (nrows_range t m R).
  pose proof (size_all_keys (nrows t)). pose proof (subseteq_size _ _ (dom_all t m R)) as H1.
  rewrite size_dom in H1. lia.
Qed.

(** A table whose rows are all taken is full. *)
Lemma full_count t m : tbl_rep t m -> (forall k, 0 <= k < nrows t -> is_Some (m !! k)) ->
  nentries t = nrows t.
Proof.
  intros R H. rewrite (rep_count t m R). rewrite <- size_dom.
  rewrite <- (size_all_keys (nrows t)) by apply (nrows_range t m R). do 2 f_equal.
  apply set_eq. intros k. split; [apply (dom_all t m R)|].
  unfold all_keys. rewrite elem_of_list_to_set, elem_of_seqZ, elem_of_dom.
  intros. apply H. lia.
Qed.

(** Emptying a row. *)
Lemma drop_row t m i x : tbl_rep t m -> 0 <= i -> m !! i = Some x ->
  tbl_rep (mk_tbl E (<[Z.to_nat i := None]> (rows t)) (entry_dtor t) (nrows t)
    (u32 (nentries t - 1)) (last_key_added t)) (delete i m).
Proof.
  intros R Hi Hx. pose proof (count_range t m R) as Hc. pose proof (nrows_range t m R) as Hn.
  assert (Hs : size m = S (size (delete i m))).
  { rewrite <- (insert_delete_id m i x) at 1 by done.
    rewrite map_size_insert_None; [done|apply lookup_delete_eq]. }
  destruct R as [R1 R2 R3 R4 R5].
  split; cbn [rows nrows nentries last_key_added]; try done.
  - unfold zlen in *. by rewrite length_insert.
  - rewrite u32_small; lia.
  - intros k e. rewrite lookup_delete_Some, R5. split.
    + intros (Hne & Hk & He). split; [done|]. rewrite list_lookup_insert_ne by lia. done.
    + intros (Hk & He). apply list_lookup_insert_Some in He as [(_ & He & _)|[Hne He]]; [done|].
      split; [lia|done].
Qed.

(** Filling a row. *)
Lemma store_rep t m key x : tbl_rep t m -> 0 <= key < nrows t -> m !! key = None ->
  tbl_rep (store t key x) (<[key := x]> m).
Proof.
  intros R Hk Hn. pose proof (nrows_range t m R). pose proof (count_range t m R).
  assert (nentries t < nrows t).
  { assert (H2 : dom m ⊆ all_keys (nrows t) ∖ {[key]}).
    { intros k Hkd. pose proof (dom_all t m R k Hkd). apply elem_of_dom in Hkd as [e He].
      apply elem_of_difference. split; [done|]. rewrite elem_of_singleton. congruence. }
    apply subseteq_size in H2. rewrite size_dom, size_difference, size_singleton in H2.
    - pose proof (size_all_keys (nrows t)). rewrite (rep_count t m R). lia.
    - intros k ->%elem_of_singleton. unfold all_keys. apply elem_of_list_to_set, elem_of_seqZ. lia. }
  destruct R as [R1 R2 R3 R4 R5]. split; cbn [store rows nrows nentries last_key_added].
  - unfold zlen in *. by rewrite length_insert.
  - done.
  - lia.
  - rewrite map_size_insert_None by done. rewrite u32_small; lia.
  - intros k e. rewrite lookup_insert_Some, R5. split.
    + intros [[<- <-]|(Hne & Hk0 & He)].
      * split; [lia|]. apply list_lookup_insert_eq. unfold zlen in *. lia.
      * split; [done|]. by rewrite list_lookup_insert_ne by lia.
    + intros (Hk0 & He). apply list_lookup_insert_Some in He as [(Ek & [= <-] & _)|[Hne He]].
      * left. split; [lia|done].
      * right. split; [congruence|done].
Qed.

(** * The loops *)

(** [l] lists the entries of [m] with keys in [lo, hi), in order. *)
Definition entries_in (m : gmap Z E) (lo hi : Z) (l : list (Z * E)) : Prop :=
  StronglySorted Z.lt l.*1 /\ forall k e, (k, e) ∈ l <-> m !! k = Some e /\ lo <= k < hi.

Lemma entries_in_nil m lo hi : hi <= lo -> entries_in m lo hi [].
Proof.
  intros H. split; [constructor|]. intros k e. split; [intros Hn; by apply elem_of_nil in Hn|lia].
Qed.

Lemma entries_in_cons m lo hi l e : lo < hi -> m !! lo = Some e ->
  entries_in m (lo + 1) hi l -> entries_in m lo hi ((lo, e) :: l).
Proof.
  intros Hlo He [Hs Hl]. split.
  - cbn. constructor; [done|]. apply Forall_forall. intros k Hk.
    apply list_elem_of_fmap in Hk as ([k' e'] & -> & Hk). apply Hl in Hk. cbn. lia.
  - intros k e'. rewrite elem_of_cons, Hl. split.
    + intros [[= -> ->]|[? ?]]; (split; [done|lia]).
    + intros [Hk Hr]. destruct (Z.eq_dec k lo) as [->|]; [left; congruence|].
      right. split; [done|lia].
Qed.

Lemma entries_in_skip m lo hi l : m !! lo = None -> entries_in m (lo + 1) hi l -> entries_in m lo hi l.
Proof.
  intros Hn [Hs Hl]. split; [done|]. intros k e. rewrite Hl. split; intros [Hk Hr].
  - split; [done|lia].
  - assert (k <> lo) by congruence. split; [done|lia].
Qed.

Lemma entries_in_delete m lo hi l : entries_in (delete lo m) (lo + 1) hi l ->
  entries_in m (lo + 1) hi l.
Proof.
  intros [Hs Hl]. split; [done|]. intros k e. rewrite Hl. split; intros [Hk Hr]; (split; [|done]).
  - by apply lookup_delete_Some in Hk as [_ ?].
  - apply lookup_delete_Some. split; [lia|done].
Qed.

(** The map without the keys in [lo, hi). *)
Definition without (m : gmap Z E) (lo hi : Z) : gmap Z E :=
  filter (fun kv => ~ (lo <= kv.1 < hi)) m.

Lemma without_lookup m lo hi k e :
  without m lo hi !! k = Some e <-> m !! k = Some e /\ ~ (lo <= k < hi).
Proof. unfold without. by rewrite map_lookup_filter_Some. Qed.

Lemma without_none m lo hi : hi <= lo -> without m lo hi = m.
Proof.
  intros H. apply map_eq_iff. intros k. apply option_eq. intros e. rewrite without_lookup.
  split; [by intros [? _]|]. intros. split; [done|lia].
Qed.

Lemma without_step m lo hi : lo < hi ->
  without (delete lo m) (lo + 1) hi = without m lo hi.
Proof.
  intros H. apply map_eq_iff. intros k. apply option_eq. intros e.
  rewrite !without_lookup, lookup_delete_Some. intuition lia.
Qed.

Lemma clear_loop_spec fuel : forall t i hi calls m, tbl_rep t m -> 0 <= i -> hi <= nrows t ->
  hi - i <= Z.of_nat fuel ->
  exists t' l, clear_loop fuel t i hi calls = Some (t', calls ++ (if entry_dtor t then l else [])) /\
    tbl_rep t' (without m i hi) /\ entries_in m i hi l /\ nrows t' = nrows t /\
    entry_dtor t' = entry_dtor t /\ last_key_added t' = last_key_added t.
Proof.
  induction fuel as [|fuel IH]; intros t i hi calls m R Hi Hhi Hf; cbn [clear_loop];
    (destruct (Z.ltb_spec i hi) as [Hlt|Hge];
    [|exists t, []; rewrite without_none by lia; split; [destruct (entry_dtor t); by rewrite app_nil_r|];
      split; [done|]; split; [by apply entries_in_nil|done]]); [lia|].
  pose proof (nrows_range t m R) as Hn. rewrite (row_lookup t m i R) by lia.
  cbn [mbind option_bind]. rewrite (u32_small (i + 1)) by lia.
  destruct (m !! i) as [x|] eqn:Ex.
  - pose proof (drop_row t m i x R Hi Ex) as R1.
    match type of R1 with tbl_rep ?t1 _ =>
      destruct (IH t1 (i + 1) hi (if entry_dtor t then calls ++ [(i, x)] else calls) _ R1)
        as (t' & l & -> & R2 & Hl & H1 & H2 & H3); [lia|done|lia|] end.
    cbn [entry_dtor nrows last_key_added] in *.
    rewrite without_step in R2 by done. apply entries_in_delete in Hl.
    exists t', ((i, x) :: l). split; [destruct (entry_dtor t); [by rewrite <- app_assoc|done]|].
    split; [done|]. split; [by apply entries_in_cons|done].
  - destruct (IH t (i + 1) hi calls m R) as (t' & l & -> & R2 & Hl & H1); [lia|done|lia|].
    exists t', l. split; [done|]. split; [|split; [by apply entries_in_skip|done]].
    rewrite <- without_step, delete_id by done. done.
Qed.

Lemma clear_rows_spec t m lo hi : tbl_rep t m -> 0 <= lo ->
  exists t' l, uint32_tbl_clear_rows t lo hi = Some (t', if entry_dtor t then l else []) /\
    tbl_rep t' (without m lo hi) /\ entries_in m lo hi l /\ nrows t' = nrows t /\
    entry_dtor t' = entry_dtor t /\ last_key_added t' = last_key_added t.
Proof.
  intros R Hlo. unfold uint32_tbl_clear_rows.
  destruct (clear_loop_spec (Z.to_nat (nrows t)) t lo (Z.min hi (nrows t)) [] m R Hlo)
    as (t' & l & -> & R2 & [Hs Hl] & H1); [lia|lia|].
  exists t', l. split; [done|].
  assert (Hk : forall k e, m !! k = Some e -> lo <= k < Z.min hi (nrows t) <-> lo <= k < hi).
  { intros k e Hk. pose proof (key_range t m k e R Hk). lia. }
  split; [|split; [|done]].
  - assert (without m lo hi = without m lo (Z.min hi (nrows t))) as ->; [|done].
    apply map_eq_iff. intros k. apply option_eq. intros e. rewrite !without_lookup.
    split; intros [Hm Hr]; (split; [done|]); by (rewrite (Hk k e Hm) in * || rewrite <- (Hk k e Hm)).
  - split; [done|]. intros k e. rewrite Hl. split; intros [Hm Hr]; (split; [done|]);
      by (apply (Hk k e Hm) in Hr || apply (Hk k e Hm)).
Qed.

Lemma find_free_spec fuel : forall t m key hi, tbl_rep t m -> 0 <= key -> hi - key <= Z.of_nat fuel ->
  (hi <= nrows t \/ exists k, key <= k < nrows t /\ m !! k = None) ->
  exists r, find_free fuel t key hi = Some r /\
    match r with
    | Some k => key <= k < hi /\ k < nrows t /\ m !! k = None /\
        forall j, key <= j < k -> is_Some (m !! j)
    | None => forall j, key <= j < hi -> is_Some (m !! j)
    end.
Proof.
  induction fuel as [|fuel IH]; intros t m key hi R Hk Hf Hor; cbn [find_free];
    (destruct (Z.ltb_spec key hi) as [Hlt|Hge]; [|exists None; split; [done|lia]]); [lia|].
  pose proof (nrows_range t m R) as Hn.
  assert (Hkn : key < nrows t) by (destruct Hor as [|(k & ? & _)]; lia).
  rewrite (row_lookup t m key R) by lia. cbn [mbind option_bind].
  destruct (m !! key) as [x|] eqn:Ex.
  - rewrite u32_small by lia. destruct (IH t m (key + 1) hi R) as (r & -> & Hr); [lia|lia| |].
    { destruct Hor as [|(k & Hkk & Hno)]; [by left|right]. exists k. split; [|done].
      assert (k <> key) by congruence. lia. }
    exists r. split; [done|].
    assert (H0 : forall j, key <= j -> ~ key + 1 <= j -> is_Some (m !! j)).
    { intros j ? ?. replace j with key by lia. by exists x. }
    destruct r as [k|].
    + destruct Hr as (H1 & H2 & H3 & H4). split; [lia|]. split; [done|]. split; [done|].
      intros j Hj. destruct (Z_le_dec (key + 1) j); [apply H4; lia|apply H0; lia].
    + intros j Hj. destruct (Z_le_dec (key + 1) j); [apply Hr; lia|apply H0; lia].
  - exists (Some key). split; [done|]. split; [lia|]. split; [done|]. split; [done|lia].
Qed.

(** The entry with the least key from [n] on. *)
Definition least_entry (m : gmap Z E) (n : Z) (r : option (Z * E)) : Prop :=
  match r with
  | Some (k, e) => m !! k = Some e /\ n <= k /\ forall j, n <= j < k -> m !! j = None
  | None => forall j, n <= j -> m !! j = None
  end.

Lemma next_at_spec fuel : forall t m key, tbl_rep t m -> 0 <= key ->
  nrows t - key <= Z.of_nat fuel ->
  exists r, next_at fuel t key = Some r /\ least_entry m key r.
Proof.
  induction fuel as [|fuel IH]; intros t m key R Hk Hf; cbn [next_at];
    (destruct (Z.ltb_spec key (nrows t)) as [Hlt|Hge];
      [|exists None; split; [done|]; intros j Hj; destruct (m !! j) as [e|] eqn:Ej;
        [pose proof (key_range t m j e R Ej); lia|done]]); [lia|].
  pose proof (nrows_range t m R) as Hn.
  rewrite (row_lookup t m key R) by lia. cbn [mbind option_bind].
  destruct (m !! key) as [x|] eqn:Ex.
  - exists (Some (key, x)). split; [done|]. split; [done|]. split; [lia|lia].
  - rewrite u32_small by lia. destruct (IH t m (key + 1) R) as (r & -> & Hr); [lia|lia|].
    exists r. split; [done|].
    assert (H0 : forall j, key <= j -> ~ key + 1 <= j -> m !! j = None).
    { intros j ? ?. by replace j with key by lia. }
    destruct r as [[k e]|]; cbn in *.
    + destruct Hr as (H1 & H2 & H3). split; [done|]. split; [lia|].
      intros j Hj. destruct (Z_le_dec (key + 1) j); [apply H3; lia|apply H0; lia].
    + intros j Hj. destruct (Z_le_dec (key + 1) j); [apply Hr; lia|apply H0; lia].
Qed.

(** * The operations on the map *)

Definition calls_of t (l : list (Z * E)) : list (Z * E) := if entry_dtor t then l else [].

Lemma tbl_resize_spec t m n o : tbl_rep t m -> 0 <= n <= UINT32_MAX ->
  exists res t' calls o', Curl_uint32_tbl_resize t n o = Some (res, t', calls, o') /\
    (false ∈ o' -> false ∈ o) /\ entry_dtor t' = entry_dtor t /\ last_key_added t' = last_key_added t /\
    if n =? 0 then res = CURLE_BAD_FUNCTION_ARGUMENT /\ t' = t /\ calls = []
    else (res = CURLE_OUT_OF_MEMORY /\ false ∈ o /\ t' = t /\ calls = []) \/
      (res = CURLE_OK /\ nrows t' = n /\ tbl_rep t' (without m n (nrows t)) /\
        exists l, entries_in m n (nrows t) l /\ calls = calls_of t l).
Proof.
  intros R Hn. pose proof (nrows_range t m R) as Hr. unfold Curl_uint32_tbl_resize.
  destruct (Z.eqb_spec n 0); [by do 4 eexists|].
  destruct (Z.eqb_spec n (nrows t)) as [->|Hne]; cbn [negb].
  { do 4 eexists. split; [reflexivity|]. split; [done|]. split; [done|]. split; [done|]. right.
    rewrite without_none by lia. split; [done|]. split; [done|]. split; [done|].
    exists []. split; [by apply entries_in_nil|]. unfold calls_of. by destruct (entry_dtor t). }
  destruct (next_alloc o) as [ok o2] eqn:Eo. destruct (next_alloc_fails _ _ _ Eo) as [Ho1 Ho2].
  destruct ok; [|do 4 eexists; split; [reflexivity|]; split; [done|]; split; [done|];
    split; [done|]; left; by auto].
  set (kept := ztake (Z.min n (nrows t)) (rows t)).
  assert (Hk : zlen kept = Z.min n (nrows t)).
  { unfold kept. rewrite zlen_ztake, (rep_len t m R) by lia. lia. }
  assert (Hc : exists t1 l, (if n <? nrows t then uint32_tbl_clear_rows t n (nrows t)
      else Some (t, [])) = Some (t1, calls_of t l) /\ tbl_rep t1 (without m n (nrows t)) /\
      entries_in m n (nrows t) l /\ entry_dtor t1 = entry_dtor t /\
      last_key_added t1 = last_key_added t).
  { destruct (Z.ltb_spec n (nrows t)).
    - destruct (clear_rows_spec t m n (nrows t) R) as (t1 & l & -> & R1 & Hl & _ & H1); [lia|].
      by exists t1, l.
    - exists t, []. rewrite without_none by lia. split; [unfold calls_of; by destruct (entry_dtor t)|].
      split; [done|]. split; [by apply entries_in_nil|done]. }
  destruct Hc as (t1 & l & -> & R1 & Hl & Ed & El). cbn [mbind option_bind].
  do 4 eexists. split; [reflexivity|]. split; [done|]. cbn [entry_dtor last_key_added nrows].
  split; [done|]. split; [done|]. right. split; [done|]. split; [done|]. split; [|by exists l].
  split; cbn [rows nrows nentries last_key_added].
  - rewrite zlen_app, zlen_replicate by lia. lia.
  - lia.
  - apply (rep_last t1 _ R1).
  - apply (rep_count t1 _ R1).
  - intros k e. rewrite without_lookup, (rep_map t m R). split.
    + intros [[Hk0 He] Hr2]. split; [done|]. apply lookup_lt_Some in He as Hlt.
      pose proof (rep_len t m R) as Hlen. unfold zlen in Hlen, Hk.
      rewrite lookup_app_l by lia. unfold kept, ztake. by rewrite lookup_take_lt by lia.
    + intros [Hk0 He]. apply lookup_app_Some in He as [He|[_ He]].
      * apply lookup_lt_Some in He as Hlt. unfold zlen in Hk. unfold kept, ztake in He.
        apply lookup_take_Some in He as [? _]. split; [done|lia].
      * by apply lookup_replicate in He as [? _].
Qed.

(** The key an entry is added under: the first free one after the last key
    added, from 0 when there is none or the table was shrunk below it. *)
Definition next_free (m : gmap Z E) (cap last k : Z) : Prop :=
  let start := if last <? cap then last + 1 else 0 in
  0 <= k < cap /\ m !! k = None /\
  ((start <= k /\ forall j, start <= j < k -> is_Some (m !! j)) \/
   (k < start /\ (forall j, start <= j < cap -> is_Some (m !! j)) /\
     forall j, 0 <= j < k -> is_Some (m !! j))).

Lemma free_exists t m : tbl_rep t m -> nentries t <> nrows t ->
  exists k, 0 <= k < nrows t /\ m !! k = None.
Proof.
  intros R Hne. destruct (decide (Forall (fun k => is_Some (m !! k)) (seqZ 0 (nrows t)))) as [H|H].
  - destruct Hne. apply (full_count t m R). intros k Hk. rewrite Forall_forall in H.
    apply H, elem_of_seqZ. lia.
  - apply not_Forall_Exists in H; [|apply _]. apply Exists_exists in H as (k & Hk & Hno).
    apply elem_of_seqZ in Hk. exists k. split; [lia|]. by apply eq_None_not_Some.
Qed.

Lemma tbl_add_spec t m e : tbl_rep t m ->
  exists ok key t', Curl_uint32_tbl_add t (Some e) = Some (ok, Some key, t') /\
    nrows t' = nrows t /\ entry_dtor t' = entry_dtor t /\
    if nentries t =? nrows t then ok = false /\ key = UINT32_MAX /\ t' = t
    else ok = true /\ next_free m (nrows t) (last_key_added t) key /\
      last_key_added t' = key /\ tbl_rep t' (<[key := e]> m).
Proof.
  intros R. unfold Curl_uint32_tbl_add. destruct (Z.eqb_spec (nentries t) (nrows t)) as [|Hne].
  { by do 3 eexists. }
  pose proof (nrows_range t m R) as Hn. pose proof (rep_last t m R) as Hl.
  destruct (free_exists t m R Hne) as (k0 & Hk0 & Hf0).
  set (start := u32 (Z.min (last_key_added t) (nrows t) + 1)).
  assert (Hs : 0 <= start /\ start <= nrows t + 1 /\
    (if last_key_added t <? nrows t then start = last_key_added t + 1
     else start = 0 \/ nrows t < start)).
  { unfold start. pose proof (u32_range (Z.min (last_key_added t) (nrows t) + 1)) as Hu.
    destruct (Z.eq_dec (nrows t) UINT32_MAX) as [Ee|].
    - destruct (Z.ltb_spec (last_key_added t) (nrows t)).
      + rewrite u32_small in * by lia. lia.
      + replace (last_key_added t) with UINT32_MAX by lia. rewrite Ee.
        change (u32 (Z.min UINT32_MAX UINT32_MAX + 1)) with 0. lia.
    - rewrite u32_small in * by lia. case_if; lia. }
  destruct Hs as (Hs1 & Hs2 & Hs3).
  destruct (find_free_spec (Z.to_nat (nrows t)) t m start (nrows t) R Hs1) as (r & -> & Hr);
    [lia|by left|]. cbn [mbind option_bind]. destruct r as [k|].
  - destruct Hr as (H1 & H2 & H3 & H4). do 3 eexists. split; [reflexivity|].
    split; [done|]. split; [done|]. split; [done|]. split; [|split; [done|]].
    + split; [lia|]. split; [done|]. left.
      destruct (last_key_added t <? nrows t); [rewrite <- Hs3; split; [lia|done]|].
      destruct Hs3 as [->|]; [split; [lia|done]|lia].
    + apply store_rep; [done|lia|done].
  - destruct (find_free_spec (Z.to_nat start) t m 0 start R) as (r & -> & Hr2); [lia|lia| |].
    { right. by exists k0. }
    cbn [mbind option_bind]. destruct r as [k|].
    + destruct Hr2 as (H1 & H2 & H3 & H4). do 3 eexists. split; [reflexivity|].
      split; [done|]. split; [done|]. split; [done|]. split; [|split; [done|]].
      * split; [lia|]. split; [done|].
        destruct (last_key_added t <? nrows t).
        -- right. rewrite <- Hs3. split; [lia|done].
        -- left. split; [lia|done].
      * apply store_rep; [done|lia|done].
    + exfalso. destruct (Z.lt_ge_cases k0 start) as [Hlt|Hge].
      * destruct (Hr2 k0) as [x Hx]; [lia|congruence].
      * destruct (Hr k0) as [x Hx]; [lia|congruence].
Qed.

Lemma get_spec t m k : tbl_rep t m -> 0 <= k -> Curl_uint32_tbl_get t k = Some (m !! k).
Proof.
  intros R Hk. unfold Curl_uint32_tbl_get. destruct (Z.ltb_spec k (nrows t)).
  - apply (row_lookup t m k R). lia.
  - f_equal. destruct (m !! k) as [e|] eqn:E0; [|done].
    pose proof (key_range t m k e R E0). lia.
Qed.

Lemma tbl_contains_spec t m k : tbl_rep t m -> 0 <= k ->
  Curl_uint32_tbl_contains t k = Some (bool_decide (is_Some (m !! k))).
Proof.
  intros R Hk. pose proof (get_spec t m k R Hk) as H.
  unfold Curl_uint32_tbl_get in H. unfold Curl_uint32_tbl_contains. case_if.
  - rewrite H. cbn [mbind option_bind]. f_equal. destruct (m !! k); [by rewrite bool_decide_eq_true_2|].
    symmetry. apply bool_decide_eq_false. by intros [? ?].
  - by injection H as <-.
Qed.

Lemma tbl_first_spec t m : tbl_rep t m ->
  exists r, Curl_uint32_tbl_first t = Some r /\ least_entry m 0 r.
Proof.
  intros R. unfold Curl_uint32_tbl_first, uint32_tbl_next_at.
  destruct (Z.eqb_spec (nentries t) 0) as [E0|]; cbn [negb].
  - exists None. split; [done|]. rewrite (rep_count t m R) in E0.
    assert (m = ∅) as -> by (apply map_size_empty_inv; lia). intros j _. apply lookup_empty.
  - apply next_at_spec; [done|lia|lia].
Qed.

Lemma tbl_next_spec t m last : tbl_rep t m ->
  exists r, Curl_uint32_tbl_next t last = Some r /\ least_entry m (u32 (last + 1)) r.
Proof.
  intros R. pose proof (u32_range (last + 1)). apply next_at_spec; [done|lia|lia].
Qed.

(** * Refinement of a map *)

Inductive tbl_op :=
  | TResize (n : Z) | TAdd (entry : option E) | TRemove (key : Z) | TGet (key : Z)
  | TContains (key : Z) | TFirst | TNext (last : Z) | TCount | TCapacity | TClear.

Inductive tbl_res :=
  | TCode (c : CURLcode) | TAdded (ok : bool) (key : option Z) | TUnit
  | TEntry (e : option E) | TBool (b : bool) | TFound (r : option (Z * E)) | TNum (n : Z).

Definition tbl_step t (op : tbl_op) (o : allocs)
  : option (uint32_tbl E * tbl_res * list (Z * E) * allocs) :=
  match op with
  | TResize n =>
      '(c, t, calls, o) ← Curl_uint32_tbl_resize t n o; Some (t, TCode c, calls, o)
  | TAdd e => '(ok, key, t) ← Curl_uint32_tbl_add t e; Some (t, TAdded ok key, [], o)
  | TRemove k => '(t, calls) ← Curl_uint32_tbl_remove t k; Some (t, TUnit, calls, o)
  | TGet k => e ← Curl_uint32_tbl_get t k; Some (t, TEntry e, [], o)
  | TContains k => b ← Curl_uint32_tbl_contains t k; Some (t, TBool b, [], o)
  | TFirst => r ← Curl_uint32_tbl_first t; Some (t, TFound r, [], o)
  | TNext k => r ← Curl_uint32_tbl_next t k; Some (t, TFound r, [], o)
  | TCount => Some (t, TNum (Curl_uint32_tbl_count t), [], o)
  | TCapacity => Some (t, TNum (Curl_uint32_tbl_capacity t), [], o)
  | TClear => '(t, calls) ← uint32_tbl_clear t; Some (t, TUnit, calls, o)
  end.

Fixpoint tbl_run t (ops : list tbl_op) (o : allocs)
  : option (uint32_tbl E * list (tbl_res * list (Z * E))) :=
  match ops with
  | [] => Some (t, [])
  | op :: ops =>
      '(t, r, calls, o) ← tbl_step t op o;
      '(t, rs) ← tbl_run t ops o;
      Some (t, (r, calls) :: rs)
  end.

Definition tbl_op_ok (op : tbl_op) : Prop :=
  match op with
  | TResize k | TGet k | TContains k | TNext k | TRemove k => 0 <= k <= UINT32_MAX
  | _ => True
  end.

(** The map of the entries, the capacity and the last key added. *)
Record tbl_spec := mk_spec { entries : gmap Z E; cap : Z; last : Z }.

(** What an operation answers, which destructor calls it makes ([d]: there is
    a destructor), and what it leaves; [oom]: an allocation can fail. *)
Definition tbl_allows (oom : Prop) (d : bool) (s : tbl_spec) (op : tbl_op) (res : tbl_res)
    (calls : list (Z * E)) (s' : tbl_spec) : Prop :=
  let 'mk_spec m cap last := s in
  let dropped lo hi := exists l, entries_in m lo hi l /\ calls = if d then l else [] in
  match op with
  | TResize n =>
      if n =? 0 then res = TCode CURLE_BAD_FUNCTION_ARGUMENT /\ s' = s /\ calls = []
      else (res = TCode CURLE_OUT_OF_MEMORY /\ oom /\ s' = s /\ calls = []) \/
        (res = TCode CURLE_OK /\ s' = mk_spec (without m n cap) n last /\ dropped n cap)
  | TAdd None => res = TAdded false None /\ s' = s /\ calls = []
  | TAdd (Some e) =>
      calls = [] /\
      if Z.of_nat (size m) =? cap then res = TAdded false (Some UINT32_MAX) /\ s' = s
      else exists k, res = TAdded true (Some k) /\ next_free m cap last k /\
        s' = mk_spec (<[k := e]> m) cap k
  | TRemove k =>
      res = TUnit /\ s' = mk_spec (delete k m) cap last /\
      calls = match m !! k with Some e => if d then [(k, e)] else [] | None => [] end
  | TGet k => res = TEntry (m !! k) /\ s' = s /\ calls = []
  | TContains k => res = TBool (bool_decide (is_Some (m !! k))) /\ s' = s /\ calls = []
  | TFirst => exists r, res = TFound r /\ least_entry m 0 r /\ s' = s /\ calls = []
  | TNext k =>
      exists r, res = TFound r /\ least_entry m (if k =? UINT32_MAX then 0 else k + 1) r /\
        s' = s /\ calls = []
  | TCount => res = TNum (Z.of_nat (size m)) /\ s' = s /\ calls = []
  | TCapacity => res = TNum cap /\ s' = s /\ calls = []
  | TClear => res = TUnit /\ s' = mk_spec ∅ cap UINT32_MAX /\ dropped 0 cap
  end.

Inductive tbl_spec_run (oom : Prop) (d : bool) :
    tbl_spec -> list tbl_op -> list (tbl_res * list (Z * E)) -> tbl_spec -> Prop :=
  | spec_run_nil s : tbl_spec_run oom d s [] [] s
  | spec_run_cons s op r calls s1 ops rs s2 :
      tbl_allows oom d s op r calls s1 -> tbl_spec_run oom d s1 ops rs s2 ->
      tbl_spec_run oom d s (op :: ops) ((r, calls) :: rs) s2.

Lemma tbl_remove_spec t m k : tbl_rep t m -> 0 <= k <= UINT32_MAX ->
  exists t', Curl_uint32_tbl_remove t k = Some (t', match m !! k with
      Some e => if entry_dtor t then [(k, e)] else [] | None => [] end) /\
    tbl_rep t' (delete k m) /\ nrows t' = nrows t /\
    entry_dtor t' = entry_dtor t /\ last_key_added t' = last_key_added t.
Proof.
  intros R Hk. unfold Curl_uint32_tbl_remove. pose proof (nrows_range t m R) as Hn.
  destruct (clear_rows_spec t m k (u32 (k + 1)) R) as (t' & l & -> & R' & [Hs Hl] & H1); [lia|].
  assert (Hu : forall e, m !! k = Some e -> u32 (k + 1) = k + 1).
  { intros e He. pose proof (key_range t m k e R He). apply u32_small. lia. }
  assert (Hkey : forall j, k <= j < u32 (k + 1) -> j = k).
  { intros j Hj. destruct (Z.eq_dec k UINT32_MAX) as [->|]; [change (u32 (UINT32_MAX + 1)) with 0 in Hj|
      rewrite u32_small in Hj by lia]; lia. }
  exists t'. split; [|split; [|done]].
  - do 2 f_equal. destruct (m !! k) as [e|] eqn:He.
    + assert (l = [(k, e)]) as ->; [|done]. destruct l as [|[k1 e1] l].
      { assert ((k, e) ∈ []) as H by (apply Hl; rewrite (Hu e eq_refl); split; [done|lia]).
        by apply elem_of_nil in H. }
      assert ((k1, e1) ∈ (k1, e1) :: l) as H by left. apply Hl in H as [H2 H3].
      apply Hkey in H3 as ->. rewrite He in H2. injection H2 as <-.
      destruct l as [|[k2 e2] l]; [done|]. exfalso.
      assert ((k2, e2) ∈ (k, e) :: (k2, e2) :: l) as H by (right; left).
      apply Hl in H as [_ H3]. apply Hkey in H3 as ->. cbn in Hs.
      apply StronglySorted_inv in Hs as [_ Hs]. apply Forall_cons in Hs as [Hs _]. lia.
    + assert (l = []) as ->; [|by destruct (entry_dtor t)]. destruct l as [|[k1 e1] l]; [done|].
      assert ((k1, e1) ∈ (k1, e1) :: l) as H by left. apply Hl in H as [H2 H3].
      apply Hkey in H3 as ->. congruence.
  - assert (without m k (u32 (k + 1)) = delete k m) as <-; [|done].
    apply map_eq_iff. intros j. apply option_eq. intros e. rewrite without_lookup, lookup_delete_Some.
    split; intros [Ha Hb]; (first [by split; [intros <-; apply Hb; rewrite (Hu e Ha); lia|]|split; [done|]]).
    intros Hj. apply Hkey in Hj. congruence.
Qed.

Lemma tbl_clear_spec t m : tbl_rep t m ->
  exists t' l, uint32_tbl_clear t = Some (t', if entry_dtor t then l else []) /\
    tbl_rep t' ∅ /\ entries_in m 0 (nrows t) l /\ nrows t' = nrows t /\
    entry_dtor t' = entry_dtor t /\ last_key_added t' = UINT32_MAX.
Proof.
  intros R. unfold uint32_tbl_clear.
  destruct (clear_rows_spec t m 0 (nrows t) R) as (t' & l & -> & R' & Hl & H1 & H2 & H3); [lia|].
  cbn [mbind option_bind]. do 2 eexists. split; [reflexivity|].
  split; [|split; [done|by split; [|split]]].
  assert (E0 : without m 0 (nrows t) = ∅).
  { apply map_eq_iff. intros k. apply option_eq. intros e. rewrite without_lookup, lookup_empty.
    split; [|done]. intros [Hm Hr]. by destruct Hr; apply (key_range t m k e R). }
  rewrite E0 in R'. destruct R' as [R1 R2 R3 R4 R5]. by split.
Qed.

Definition abs t m : tbl_spec := mk_spec m (nrows t) (last_key_added t).

Lemma tbl_step_spec t m op o : tbl_rep t m -> tbl_op_ok op ->
  exists t' r calls o' m', tbl_step t op o = Some (t', r, calls, o') /\ tbl_rep t' m' /\
    entry_dtor t' = entry_dtor t /\ (false ∈ o' -> false ∈ o) /\
    tbl_allows (false ∈ o) (entry_dtor t) (abs t m) op r calls (abs t' m').
Proof.
  intros R Hop. unfold abs.
  destruct op as [n|[e|]|k|k|k| |k| | |]; cbn [tbl_op_ok] in Hop; cbn [tbl_step tbl_allows].
  - destruct (tbl_resize_spec t m n o R Hop) as (c & t' & calls & o' & -> & Ho & Ed & El & H).
    cbn [mbind option_bind]. destruct (n =? 0).
    { destruct H as (-> & -> & ->). do 5 eexists. split; [done|]. split; [exact R|]. split; [done|]. split; [done|]. done. }
    destruct H as [(-> & Hoom & -> & ->)|(-> & En & R' & l & Hl & ->)].
    + do 5 eexists. split; [done|]. split; [exact R|]. split; [done|]. split; [done|]. by left.
    + do 5 eexists. split; [done|]. split; [exact R'|]. split; [done|]. split; [done|]. right.
      rewrite En, El. split; [done|]. split; [done|]. by exists l.
  - destruct (tbl_add_spec t m e R) as (ok & key & t' & -> & En & Ed & H). cbn [mbind option_bind].
    rewrite <- (rep_count t m R). destruct (nentries t =? nrows t).
    + destruct H as (-> & -> & ->). do 5 eexists. split; [done|]. split; [exact R|]. split; [done|]. split; [done|]. done.
    + destruct H as (-> & Hf & El & R'). do 5 eexists. split; [done|]. split; [exact R'|]. split; [done|]. split; [done|].
      rewrite En, El. split; [done|]. by exists key.
  - do 5 eexists. split; [done|]. split; [exact R|]. split; [done|]. split; [done|]. done.
  - destruct (tbl_remove_spec t m k R Hop) as (t' & -> & R' & En & Ed & El). cbn [mbind option_bind].
    do 5 eexists. split; [done|]. split; [exact R'|]. split; [done|]. split; [done|]. rewrite En, El. done.
  - rewrite (get_spec t m k R) by lia. do 5 eexists. split; [done|]. split; [exact R|]. split; [done|]. split; [done|]. done.
  - rewrite (tbl_contains_spec t m k R) by lia. do 5 eexists. split; [done|]. split; [exact R|]. split; [done|]. split; [done|]. done.
  - destruct (tbl_first_spec t m R) as (r & -> & Hr). do 5 eexists. split; [done|]. split; [exact R|]. split; [done|]. split; [done|].
    by exists r.
  - destruct (tbl_next_spec t m k R) as (r & -> & Hr). do 5 eexists. split; [done|]. split; [exact R|]. split; [done|]. split; [done|].
    exists r. split; [done|]. split; [|done].
    destruct (Z.eqb_spec k UINT32_MAX) as [->|]; [exact Hr|]. by rewrite u32_small in Hr by lia.
  - do 5 eexists. split; [done|]. split; [exact R|]. split; [done|]. split; [done|]. 
    by rewrite <- (rep_count t m R).
  - do 5 eexists. split; [done|]. split; [exact R|]. split; [done|]. split; [done|]. done.
  - destruct (tbl_clear_spec t m R) as (t' & l & -> & R' & Hl & En & Ed & El). cbn [mbind option_bind].
    do 5 eexists. split; [done|]. split; [exact R'|]. split; [done|]. split; [done|]. rewrite En, El.
    split; [done|]. split; [done|]. by exists l.
Qed.

Lemma tbl_spec_run_weaken (oom oom' : Prop) d s ops rs s' : (oom -> oom') ->
  tbl_spec_run oom d s ops rs s' -> tbl_spec_run oom' d s ops rs s'.
Proof.
  intros H. induction 1 as [|s op r calls s1 ops rs s2 Ha Hr IH]; [constructor|].
  econstructor; [|exact IH]. destruct s, op as [n|[e|]|k|k|k| |k| | |]; cbn in *; try done.
  destruct (n =? 0); tauto.
Qed.

Lemma tbl_run_spec ops : Forall tbl_op_ok ops -> forall t m o, tbl_rep t m ->
  exists t' rs m', tbl_run t ops o = Some (t', rs) /\ tbl_rep t' m' /\
    tbl_spec_run (false ∈ o) (entry_dtor t) (abs t m) ops rs (abs t' m').
Proof.
  induction 1 as [|op ops Hop Hops IH]; intros t m o R.
  { exists t, [], m. split; [done|]. split; [done|constructor]. }
  destruct (tbl_step_spec t m op o R Hop) as (t1 & r & calls & o1 & m1 & E1 & R1 & Ed & Ho & Ha).
  destruct (IH t1 m1 o1 R1) as (t2 & rs & m2 & E2 & R2 & Hr). rewrite Ed in Hr.
  cbn [tbl_run]. rewrite E1. cbn [mbind option_bind]. rewrite E2. cbn [mbind option_bind].
  exists t2, ((r, calls) :: rs), m2. split; [done|]. split; [done|].
  econstructor; [done|]. by apply (tbl_spec_run_weaken (false ∈ o1)).
Qed.
End operations.

Arguments tbl_op : clear implicits.
Arguments tbl_res : clear implicits.
Arguments tbl_spec : clear implicits.

(** C14: the table is a map with automatic keys: any sequence of operations on
    an initialised table runs inside its rows, whatever allocations fail, and
    answers like a finite map with a capacity, which gives a new entry the
    first free key after the last one given; the destructor is called once
    for every entry dropped, in the order of the keys. *)
Theorem tbl_refines_map {E} d (ops : list (tbl_op E)) o : Forall tbl_op_ok ops ->
  exists t rs m, tbl_run (Curl_uint32_tbl_init d) ops o = Some (t, rs) /\
    tbl_spec_run (false ∈ o) d (mk_spec ∅ 0 UINT32_MAX) ops rs (mk_spec m (nrows t) (last_key_added t)) /\
    (forall k, 0 <= k -> Curl_uint32_tbl_get t k = Some (m !! k)).
Proof.
  intros Hops.
  destruct (tbl_run_spec ops Hops (Curl_uint32_tbl_init d) ∅ o (tbl_init_rep d)) as (t & rs & m & H1 & R & H2).
  exists t, rs, m. split; [done|]. split; [exact H2|]. intros k Hk. by apply get_spec.
Qed.

Lemma tbl_refines_map_witness :
  exists t rs m, tbl_run (Curl_uint32_tbl_init true)
      [TAdd (Some 7); TResize 0; TResize 3; TAdd (Some 7); TAdd (Some 8); TRemove 0; TAdd (Some 9);
       TAdd (Some 10); TAdd (Some 11); TFirst; TNext 0; TResize 1; TClear] [true; false]
      = Some (t, rs) /\
    tbl_spec_run (false ∈ [true; false]) true (mk_spec ∅ 0 UINT32_MAX)
      [TAdd (Some 7); TResize 0; TResize 3; TAdd (Some 7); TAdd (Some 8); TRemove 0; TAdd (Some 9);
       TAdd (Some 10); TAdd (Some 11); TFirst; TNext 0; TResize 1; TClear] rs
      (mk_spec m (nrows t) (last_key_added t)) /\
    (forall k, 0 <= k -> Curl_uint32_tbl_get t k = Some (m !! k)).
Proof.
  apply tbl_refines_map.
  repeat (apply Forall_cons_2; [cbn; unfold UINT32_MAX; first [exact I|lia]|]). constructor.
Defined.
