(* ===== verification/Timeval.v ===== *)
(** Times and their differences: lib/curlx/timeval.c and
    lib/curlx/timediff.c on a platform with 64-bit [time_t] (the clamps of
    [curlx_mstotv] to [TIME_T_MAX] are then not compiled). *)

From Stdlib Require Import ZArith Lia.
From stdpp Require Import base numbers option.
From S2P Require Import Prelude.
Close Scope nat_scope.
Open Scope Z_scope.

Record curltime := mk_time { tv_sec : Z; tv_usec : Z }.

#[export] Instance curltime_eq_dec : EqDecision curltime.
Proof. solve_decision. Defined.

Definition TIMEDIFF_T_MAX : Z := 9223372036854775807.
Definition TIMEDIFF_T_MIN : Z := -9223372036854775808.

Definition curlx_ptimediff_ms (newer older : curltime) : Z :=
  let diff := tv_sec newer - tv_sec older in
  if diff >=? Z.quot TIMEDIFF_T_MAX 1000 then TIMEDIFF_T_MAX
  else if diff <=? Z.quot TIMEDIFF_T_MIN 1000 then TIMEDIFF_T_MIN
  else diff * 1000 + Z.quot (tv_usec newer - tv_usec older) 1000.

Definition curlx_timediff_ceil_ms (newer older : curltime) : Z :=
  let diff := tv_sec newer - tv_sec older in
  if diff >=? Z.quot TIMEDIFF_T_MAX 1000 then TIMEDIFF_T_MAX
  else if diff <=? Z.quot TIMEDIFF_T_MIN 1000 then TIMEDIFF_T_MIN
  else diff * 1000 + Z.quot (tv_usec newer - tv_usec older + 999) 1000.

Definition curlx_ptimediff_us (newer older : curltime) : Z :=
  let diff := tv_sec newer - tv_sec older in
  if diff >=? Z.quot TIMEDIFF_T_MAX 1000000 then TIMEDIFF_T_MAX
  else if diff <=? Z.quot TIMEDIFF_T_MIN 1000000 then TIMEDIFF_T_MIN
  else diff * 1000000 + tv_usec newer - tv_usec older.

(** [struct timeval]; the result is [None] for NULL. *)
Record timeval := mk_timeval { timeval_sec : Z; timeval_usec : Z }.

Definition curlx_mstotv (tv : option timeval) (ms : Z) : option timeval :=
  match tv with
  | None => None
  | Some _ =>
      if ms <? 0 then None
      else if ms >? 0 then Some (mk_timeval (Z.quot ms 1000) (Z.rem ms 1000 * 1000))
      else Some (mk_timeval 0 0)
  end.

Definition curlx_tvtoms (tv : timeval) : Z :=
  timeval_sec tv * 1000 + Z.quot (timeval_usec tv) 1000.

(** * Times in microseconds *)

Definition ktime (t : curltime) : Z := tv_sec t * 1000000 + tv_usec t.

Definition valid_time (t : curltime) : Prop :=
  0 <= tv_sec t <= 2 ^ 62 /\ 0 <= tv_usec t < 1000000.

Lemma ktime_nonneg t : valid_time t -> 0 <= ktime t.
Proof. intros [H1 H2]. unfold ktime. lia. Qed.


Lemma ktime_inj a b : valid_time a -> valid_time b -> ktime a = ktime b -> a = b.
Proof.
  destruct a as [s u], b as [s' u']. unfold valid_time, ktime. cbn. intros Ha Hb E. f_equal; lia.
Qed.

Lemma ptimediff_us_exact a b : Z.abs (tv_sec a - tv_sec b) < 9223372036854 ->
  curlx_ptimediff_us a b = ktime a - ktime b.
Proof.
  intros H. unfold curlx_ptimediff_us, ktime.
  change (Z.quot TIMEDIFF_T_MAX 1000000) with 9223372036854.
  change (Z.quot TIMEDIFF_T_MIN 1000000) with (-9223372036854).
  rewrite Z.geb_leb. repeat case_if; zb_hyps; lia.
Qed.

Lemma ptimediff_us_sgn a b : valid_time a -> valid_time b ->
  Z.sgn (curlx_ptimediff_us a b) = Z.sgn (ktime a - ktime b).
Proof.
  intros [Ha Ha2] [Hb Hb2]. unfold curlx_ptimediff_us, ktime.
  change (Z.quot TIMEDIFF_T_MAX 1000000) with 9223372036854.
  change (Z.quot TIMEDIFF_T_MIN 1000000) with (-9223372036854). rewrite Z.geb_leb.
  destruct (Z.leb_spec 9223372036854 (tv_sec a - tv_sec b)).
  { change (Z.sgn TIMEDIFF_T_MAX) with 1. symmetry. apply Z.sgn_pos. lia. }
  destruct (Z.leb_spec (tv_sec a - tv_sec b) (-9223372036854)).
  { change (Z.sgn TIMEDIFF_T_MIN) with (-1). symmetry. apply Z.sgn_neg. lia. }
  f_equal. lia.
Qed.

Definition int64 (z : Z) : Prop := TIMEDIFF_T_MIN <= z <= TIMEDIFF_T_MAX.

(** Rounding up, when the difference does not saturate. *)
Lemma timediff_ceil_spec a b : valid_time a -> valid_time b ->
  Z.abs (tv_sec a - tv_sec b) < 9223372036854 ->
  ktime a - ktime b <= 1000 * curlx_timediff_ceil_ms a b < ktime a - ktime b + 2000.
Proof.
  intros [Ha Ha2] [Hb Hb2] Hd. unfold curlx_timediff_ceil_ms, ktime.
  change (Z.quot TIMEDIFF_T_MAX 1000) with 9223372036854775.
  change (Z.quot TIMEDIFF_T_MIN 1000) with (-9223372036854775). rewrite Z.geb_leb.
  pose proof (Z.quot_rem' (tv_usec a - tv_usec b + 999) 1000).
  pose proof (Z.rem_bound_abs (tv_usec a - tv_usec b + 999) 1000).
  repeat case_if; zb_hyps; lia.
Qed.

(** Time differences fit 64 bits for all times: the one in microseconds
    is exact when it does not saturate, the one in milliseconds is off by less
    than one, and the one that rounds up is never below the time that is left
    and less than two milliseconds above it. *)
Theorem timediff_bounds (a b : curltime) : valid_time a -> valid_time b ->
  int64 (curlx_ptimediff_us a b) /\ int64 (curlx_ptimediff_ms a b) /\
  int64 (curlx_timediff_ceil_ms a b) /\
  (Z.abs (tv_sec a - tv_sec b) < 9223372036854 ->
    curlx_ptimediff_us a b = ktime a - ktime b /\
    Z.abs (1000 * curlx_ptimediff_ms a b - (ktime a - ktime b)) < 1000 /\
    ktime a - ktime b <= 1000 * curlx_timediff_ceil_ms a b < ktime a - ktime b + 2000).
Proof.
  intros [Ha Ha2] [Hb Hb2]. unfold int64, curlx_ptimediff_us, curlx_ptimediff_ms, curlx_timediff_ceil_ms, ktime.
  change (Z.quot TIMEDIFF_T_MAX 1000000) with 9223372036854.
  change (Z.quot TIMEDIFF_T_MIN 1000000) with (-9223372036854).
  change (Z.quot TIMEDIFF_T_MAX 1000) with 9223372036854775.
  change (Z.quot TIMEDIFF_T_MIN 1000) with (-9223372036854775).
  unfold TIMEDIFF_T_MAX, TIMEDIFF_T_MIN. rewrite !Z.geb_leb.
  pose proof (Z.quot_rem' (tv_usec a - tv_usec b) 1000).
  pose proof (Z.rem_bound_abs (tv_usec a - tv_usec b) 1000).
  pose proof (Z.quot_rem' (tv_usec a - tv_usec b + 999) 1000).
  pose proof (Z.rem_bound_abs (tv_usec a - tv_usec b + 999) 1000).
  split; [|split; [|split]]; repeat case_if; zb_hyps; lia.
Qed.

Lemma timediff_bounds_witness :
  ktime (mk_time 1 0) - ktime (mk_time 0 1500) <= 1000 * curlx_timediff_ceil_ms (mk_time 1 0) (mk_time 0 1500).
Proof.
  destruct (timediff_bounds (mk_time 1 0) (mk_time 0 1500)) as (_ & _ & _ & H).
  - vm_compute. intuition discriminate.
  - vm_compute. intuition discriminate.
  - destruct H as (_ & _ & H & _); [vm_compute; reflexivity|exact H].
Defined.

(** 998.5 milliseconds rounded up: one more than the next millisecond, because
    the division of the negative difference of the microseconds truncates. *)
Example ceil_ms_overshoots :
  ktime (mk_time 1 0) - ktime (mk_time 0 1500) = 998500 /\
  curlx_timediff_ceil_ms (mk_time 1 0) (mk_time 0 1500) = 1000.
Proof. split; reflexivity. Qed.

(** Milliseconds survive the way through a [struct timeval]. *)
Lemma mstotv_tvtoms tv ms : 0 <= ms ->
  exists t, curlx_mstotv (Some tv) ms = Some t /\ curlx_tvtoms t = ms /\ 0 <= timeval_usec t < 1000000.
Proof.
  intros H. unfold curlx_mstotv. destruct (Z.ltb_spec ms 0); [lia|]. rewrite Z.gtb_ltb.
  destruct (Z.ltb_spec 0 ms).
  - eexists. split; [reflexivity|]. unfold curlx_tvtoms. cbn [timeval_sec timeval_usec].
    rewrite Z.quot_mul by lia. rewrite Z.quot_div_nonneg, Z.rem_mod_nonneg by lia. dlia.
  - eexists. split; [reflexivity|]. change (0 = ms /\ 0 <= 0 < 1000000). lia.
Qed.
