(* ===== verification/Splay.v ===== *)
(** The splay tree of timers, lib/splay.c.

    The nodes live in a heap ([gmap] from addresses to nodes), every access
    through a pointer is checked, and the operations write the pointer fields
    one by one in the order of the C code.  [queue_rep h p q] says that the
    tree at [p] holds the timer queue [q]: groups of nodes with equal keys, in
    the order of the keys. *)

From Stdlib Require Import ZArith Lia List Sorted.
From stdpp Require Import base numbers option list gmap.
From S2P Require Import Prelude Timeval.
Close Scope nat_scope.
Open Scope Z_scope.

Definition splay_compare (i j : curltime) : Z := curlx_ptimediff_us i j.

(** * Nodes and the heap *)

Abbreviation loc := positive.

Record Curl_tree := mk_tree {
  smaller : option loc;
  larger : option loc;
  samen : option loc;
  samep : option loc;
  key : curltime;
  ptr : Z;
}.

Abbreviation heap := (gmap loc Curl_tree).

Definition set_smaller (v : option loc) (n : Curl_tree) : Curl_tree :=
  mk_tree v (larger n) (samen n) (samep n) (key n) (ptr n).
Definition set_larger (v : option loc) (n : Curl_tree) : Curl_tree :=
  mk_tree (smaller n) v (samen n) (samep n) (key n) (ptr n).
Definition set_samen (v : option loc) (n : Curl_tree) : Curl_tree :=
  mk_tree (smaller n) (larger n) v (samep n) (key n) (ptr n).
Definition set_samep (v : option loc) (n : Curl_tree) : Curl_tree :=
  mk_tree (smaller n) (larger n) (samen n) v (key n) (ptr n).
Definition set_key (v : curltime) (n : Curl_tree) : Curl_tree :=
  mk_tree (smaller n) (larger n) (samen n) (samep n) v (ptr n).

(** [p->field = ...] *)
Definition write (p : option loc) (f : Curl_tree -> Curl_tree) (h : heap) : option heap :=
  x ← p; n ← h !! x; Some (<[x := f n]> h).

(** [*p] *)
Definition load (p : option loc) (h : heap) : option Curl_tree := x ← p; h !! x.

(** * Splaying

    [N] is a local variable of [Curl_splay]; [l] and [r] point to it ([None])
    or to a node.  [ns] and [nl] are its fields [smaller] and [larger]. *)

Record splay_state := mk_splay {
  sh : heap;
  ns : option loc;
  nl : option loc;
  st : loc;
  sl : option loc;
  sr : option loc;
}.

(** [l->larger = v] *)
Definition write_l (v : option loc) (s : splay_state) : option splay_state :=
  match sl s with
  | None => Some (mk_splay (sh s) (ns s) v (st s) (sl s) (sr s))
  | Some _ =>
      h ← write (sl s) (set_larger v) (sh s);
      Some (mk_splay h (ns s) (nl s) (st s) (sl s) (sr s))
  end.

(** [r->smaller = v] *)
Definition write_r (v : option loc) (s : splay_state) : option splay_state :=
  match sr s with
  | None => Some (mk_splay (sh s) v (nl s) (st s) (sl s) (sr s))
  | Some _ =>
      h ← write (sr s) (set_smaller v) (sh s);
      Some (mk_splay h (ns s) (nl s) (st s) (sl s) (sr s))
  end.

(** [y = t->smaller; t->smaller = y->larger; y->larger = t; t = y;] *)
Definition rotate_smaller (s : splay_state) : option splay_state :=
  t ← load (Some (st s)) (sh s);
  y ← smaller t;
  yn ← load (Some y) (sh s);
  h ← write (Some (st s)) (set_smaller (larger yn)) (sh s);
  h ← write (Some y) (set_larger (Some (st s))) h;
  Some (mk_splay h (ns s) (nl s) y (sl s) (sr s)).

Definition rotate_larger (s : splay_state) : option splay_state :=
  t ← load (Some (st s)) (sh s);
  y ← larger t;
  yn ← load (Some y) (sh s);
  h ← write (Some (st s)) (set_larger (smaller yn)) (sh s);
  h ← write (Some y) (set_smaller (Some (st s))) h;
  Some (mk_splay h (ns s) (nl s) y (sl s) (sr s)).

(** [r->smaller = t; r = t; t = t->smaller;] *)
Definition link_smaller (s : splay_state) : option splay_state :=
  s ← write_r (Some (st s)) s;
  t ← load (Some (st s)) (sh s);
  t' ← smaller t;
  Some (mk_splay (sh s) (ns s) (nl s) t' (sl s) (Some (st s))).

Definition link_larger (s : splay_state) : option splay_state :=
  s ← write_l (Some (st s)) s;
  t ← load (Some (st s)) (sh s);
  t' ← larger t;
  Some (mk_splay (sh s) (ns s) (nl s) t' (Some (st s)) (sr s)).

(** One round of the loop: [inl] breaks it. *)
Definition splay_round (pkey : curltime) (s : splay_state)
  : option (splay_state + splay_state) :=
  t ← load (Some (st s)) (sh s);
  let comp := splay_compare pkey (key t) in
  if comp <? 0 then
    match smaller t with
    | None => Some (inl s)
    | Some y =>
        yn ← load (Some y) (sh s);
        if splay_compare pkey (key yn) <? 0 then
          s ← rotate_smaller s;
          t ← load (Some (st s)) (sh s);
          match smaller t with
          | None => Some (inl s)
          | Some _ => s ← link_smaller s; Some (inr s)
          end
        else s ← link_smaller s; Some (inr s)
    end
  else if comp >? 0 then
    match larger t with
    | None => Some (inl s)
    | Some y =>
        yn ← load (Some y) (sh s);
        if splay_compare pkey (key yn) >? 0 then
          s ← rotate_larger s;
          t ← load (Some (st s)) (sh s);
          match larger t with
          | None => Some (inl s)
          | Some _ => s ← link_larger s; Some (inr s)
          end
        else s ← link_larger s; Some (inr s)
    end
  else Some (inl s).

Fixpoint splay_loop (fuel : nat) (pkey : curltime) (s : splay_state) : option splay_state :=
  match fuel with
  | O => None
  | S fuel =>
      r ← splay_round pkey s;
      match r with inl s => Some s | inr s => splay_loop fuel pkey s end
  end.

(** The assembly of the three trees. *)
Definition assemble (s : splay_state) : option heap :=
  t ← load (Some (st s)) (sh s);
  s ← write_l (smaller t) s;
  t ← load (Some (st s)) (sh s);
  s ← write_r (larger t) s;
  h ← write (Some (st s)) (set_smaller (nl s)) (sh s);
  write (Some (st s)) (set_larger (ns s)) h.

(** The tree at [t], splayed: the heap and the new root.  A round drops at
    least one node from the tree at [t], so the heap's size is fuel enough. *)
Definition Curl_splay (pkey : curltime) (t : option loc) (h : heap)
  : option (heap * option loc) :=
  match t with
  | None => Some (h, None)
  | Some x =>
      s ← splay_loop (size h) pkey (mk_splay h None None x None None);
      h ← assemble s;
      Some (h, Some (st s))
  end.

(** * The operations *)

Definition SPLAY_SUBNODE : curltime := mk_time (-1) (-1).

(** The node alone with its key. *)
Definition insert_fresh (pkey : curltime) (node : loc) (h : heap) : option (heap * option loc) :=
  h ← write (Some node) (set_key pkey) h;
  h ← write (Some node) (set_samen (Some node)) h;
  h ← write (Some node) (set_samep (Some node)) h;
  Some (h, Some node).

(** What follows the splaying. *)
Definition insert_root (pkey : curltime) (t : option loc) (node : loc) (h : heap)
  : option (heap * option loc) :=
  match t with
  | None =>
      h ← write (Some node) (set_smaller None) h;
      h ← write (Some node) (set_larger None) h;
      insert_fresh pkey node h
  | Some _ =>
      tn ← load t h;
      let comp := splay_compare pkey (key tn) in
      if comp =? 0 then
        h ← write (Some node) (set_key SPLAY_SUBNODE) h;
        h ← write (Some node) (set_samen t) h;
        h ← write (Some node) (set_samep (samep tn)) h;
        h ← write (samep tn) (set_samen (Some node)) h;
        h ← write t (set_samep (Some node)) h;
        Some (h, t)
      else if comp <? 0 then
        h ← write (Some node) (set_smaller (smaller tn)) h;
        h ← write (Some node) (set_larger t) h;
        h ← write t (set_smaller None) h;
        insert_fresh pkey node h
      else
        h ← write (Some node) (set_larger (larger tn)) h;
        h ← write (Some node) (set_smaller t) h;
        h ← write t (set_larger None) h;
        insert_fresh pkey node h
  end.

Definition Curl_splayinsert (pkey : curltime) (t : option loc) (node : loc) (h : heap)
  : option (heap * option loc) :=
  match t with
  | Some _ => '(h, t) ← Curl_splay pkey t h; insert_root pkey t node h
  | None => insert_root pkey None node h
  end.

(** [x] takes the place of the root [t] of its list. *)
Definition take_over (x : option loc) (tn : Curl_tree) (h : heap) : option heap :=
  h ← write x (set_key (key tn)) h;
  h ← write x (set_larger (larger tn)) h;
  h ← write x (set_smaller (smaller tn)) h;
  h ← write x (set_samep (samep tn)) h;
  write (samep tn) (set_samen x) h.

(** The heap, the new root and the node removed. *)
Definition Curl_splaygetbest (pkey : curltime) (t : option loc) (h : heap)
  : option (heap * option loc * option loc) :=
  match t with
  | None => Some (h, None, None)
  | Some _ =>
      '(h, t) ← Curl_splay (mk_time 0 0) t h;
      tn ← load t h;
      if splay_compare pkey (key tn) <? 0 then Some (h, t, None)
      else if negb (bool_decide (samen tn = t)) then
        h ← take_over (samen tn) tn h;
        Some (h, samen tn, t)
      else Some (h, larger tn, t)
  end.

(** The heap, the result, and [*newroot] when it is written. *)
Definition Curl_splayremove (t : option loc) (removenode : loc) (h : heap)
  : option (heap * Z * option (option loc)) :=
  match t with
  | None => Some (h, 1, None)
  | Some _ =>
      rn ← load (Some removenode) h;
      if splay_compare SPLAY_SUBNODE (key rn) =? 0 then
        if bool_decide (samen rn = Some removenode) then Some (h, 3, None)
        else
          h ← write (samep rn) (set_samen (samen rn)) h;
          rn ← load (Some removenode) h;
          h ← write (samen rn) (set_samep (samep rn)) h;
          h ← write (Some removenode) (set_samen (Some removenode)) h;
          Some (h, 0, Some t)
      else
        '(h, t) ← Curl_splay (key rn) t h;
        if negb (bool_decide (t = Some removenode)) then Some (h, 2, None)
        else
          tn ← load t h;
          if negb (bool_decide (samen tn = t)) then
            h ← take_over (samen tn) tn h;
            Some (h, 0, Some (samen tn))
          else
            match smaller tn with
            | None => Some (h, 0, Some (larger tn))
            | Some _ =>
                '(h, x) ← Curl_splay (key rn) (smaller tn) h;
                tn ← load t h;
                h ← write x (set_larger (larger tn)) h;
                Some (h, 0, Some x)
            end
  end.

Definition Curl_splayset (node : loc) (payload : Z) (h : heap) : option heap :=
  write (Some node)
    (fun n => mk_tree (smaller n) (larger n) (samen n) (samep n) (key n) payload) h.

Definition Curl_splayget (node : loc) (h : heap) : option Z :=
  n ← load (Some node) h; Some (ptr n).

(** * Trees in the heap *)

(** The two fields splaying changes, and the others. *)
Definition kids (h : heap) (x : loc) : option (option loc * option loc) :=
  n ← h !! x; Some (smaller n, larger n).

Definition rest (h : heap) (x : loc) : option (option loc * option loc * curltime * Z) :=
  n ← h !! x; Some (samen n, samep n, key n, ptr n).

Inductive tree :=
  | Leaf
  | Node (l : tree) (x : loc) (r : tree).

Fixpoint inorder (T : tree) : list loc :=
  match T with Leaf => [] | Node l x r => inorder l ++ x :: inorder r end.

Fixpoint tree_at (h : heap) (p : option loc) (T : tree) : Prop :=
  match T with
  | Leaf => p = None
  | Node l x r =>
      p = Some x /\ exists s g, kids h x = Some (s, g) /\ tree_at h s l /\ tree_at h g r
  end.

Lemma tree_at_ext h h' T : forall p, (forall y, y ∈ inorder T -> kids h' y = kids h y) ->
  tree_at h p T -> tree_at h' p T.
Proof.
  induction T as [|l IHl x r IHr]; intros p H; cbn in *; [done|].
  intros (-> & s & g & Hk & Hl & Hr). split; [done|]. exists s, g.
  rewrite H by (rewrite elem_of_app, elem_of_cons; tauto). split; [done|].
  split; [apply IHl|apply IHr]; try done; intros y Hy; apply H;
    rewrite elem_of_app, elem_of_cons; tauto.
Qed.

Lemma tree_at_none h T : tree_at h None T -> T = Leaf.
Proof. destruct T; cbn; [done|]. by intros [? _]. Qed.

Lemma tree_at_some h x T : tree_at h (Some x) T -> exists l r s g, T = Node l x r /\
  kids h x = Some (s, g) /\ tree_at h s l /\ tree_at h g r.
Proof.
  destruct T as [|l y r]; cbn; [done|]. intros ([= ->] & s & g & H). by exists l, r, s, g.
Qed.

Lemma kids_load h x s g : kids h x = Some (s, g) ->
  exists n, h !! x = Some n /\ smaller n = s /\ larger n = g.
Proof. unfold kids. destruct (h !! x) as [n|]; cbn; [|done]. intros [= <- <-]. by exists n. Qed.

Lemma load_kids h x n : h !! x = Some n -> kids h x = Some (smaller n, larger n).
Proof. unfold kids. by intros ->. Qed.

Lemma load_rest h x n : h !! x = Some n -> rest h x = Some (samen n, samep n, key n, ptr n).
Proof. unfold rest. by intros ->. Qed.

(** A write to a node of the heap. *)
Lemma write_some h x n f : h !! x = Some n -> write (Some x) f h = Some (<[x := f n]> h).
Proof. intros H. unfold write. cbn. by rewrite H. Qed.

Lemma kids_write h x m y : kids (<[x := m]> h) y =
  if decide (x = y) then Some (smaller m, larger m) else kids h y.
Proof.
  unfold kids. case_decide as E; [subst; by rewrite lookup_insert_eq|by rewrite lookup_insert_ne].
Qed.

Lemma rest_write h x m y : rest (<[x := m]> h) y =
  if decide (x = y) then Some (samen m, samep m, key m, ptr m) else rest h y.
Proof.
  unfold rest. case_decide as E; [subst; by rewrite lookup_insert_eq|by rewrite lookup_insert_ne].
Qed.

(** * The trees under construction

    A context is the spine of the left ([d = false]) or right ([d = true])
    tree: nodes linked through [larger] or [smaller], each with its other
    subtree; the last link is still to be written. *)

Definition ctx := list (loc * tree).

Definition cnodes (c : ctx) : list loc := concat (map (fun xA => xA.1 :: inorder xA.2) c).

Definition last_loc (c : ctx) : option loc :=
  match last c with Some (x, _) => Some x | None => None end.

Fixpoint seg (d : bool) (h : heap) (p : option loc) (c : ctx) (q : option loc) : Prop :=
  match c with
  | [] => p = q
  | (x, A) :: c =>
      p = Some x /\ exists s g, kids h x = Some (s, g) /\
        tree_at h (if d then g else s) A /\ seg d h (if d then s else g) c q
  end.

Lemma seg_ext d h h' c q : forall p, (forall y, y ∈ cnodes c -> kids h' y = kids h y) ->
  seg d h p c q -> seg d h' p c q.
Proof.
  induction c as [|[x A] c IH]; intros p H; [done|]. cbn [seg].
  intros (-> & s & g & Hk & HA & Hc). split; [done|]. exists s, g.
  assert (Hin : forall y, y ∈ x :: inorder A \/ y ∈ cnodes c -> kids h' y = kids h y).
  { intros y Hy. apply H. unfold cnodes. cbn [map concat]. by apply elem_of_app. }
  rewrite Hin by (left; left). split; [done|]. split.
  - eapply tree_at_ext; [|exact HA]. intros y Hy. apply Hin. left. by right.
  - apply IH; [|done]. intros y Hy. apply Hin. by right.
Qed.

Lemma seg_snoc d h c x A s g : forall p, seg d h p c (Some x) -> kids h x = Some (s, g) ->
  tree_at h (if d then g else s) A -> seg d h p (c ++ [(x, A)]) (if d then s else g).
Proof.
  induction c as [|[y B] c IH]; intros p; cbn [seg app].
  - intros -> Hk HA. split; [done|]. by exists s, g.
  - intros (-> & s' & g' & Hk' & HB & Hc) Hk HA. split; [done|]. exists s', g'.
    split; [done|]. split; [done|]. by apply IH.
Qed.

Lemma seg_app d h c1 c2 q : forall p, seg d h p (c1 ++ c2) q <->
  exists m, seg d h p c1 m /\ seg d h m c2 q.
Proof.
  induction c1 as [|[x A] c1 IH]; intros p; cbn [seg app].
  - split; [intros H; by exists p|by intros (m & -> & H)].
  - split.
    + intros (-> & s & g & Hk & HA & Hc). apply IH in Hc as (m & H1 & H2).
      exists m. split; [|done]. split; [done|]. by exists s, g.
    + intros (m & (-> & s & g & Hk & HA & Hc) & H2). split; [done|]. exists s, g.
      split; [done|]. split; [done|]. apply IH. by exists m.
Qed.

Lemma cnodes_app c1 c2 : cnodes (c1 ++ c2) = cnodes c1 ++ cnodes c2.
Proof. unfold cnodes. by rewrite map_app, concat_app. Qed.

(** The tree a context makes with a tree in its open place. *)
Fixpoint close (d : bool) (c : ctx) (Q : tree) : tree :=
  match c with
  | [] => Q
  | (x, A) :: c => if d then Node (close d c Q) x A else Node A x (close d c Q)
  end.

Lemma seg_close d h c q Q : forall p, seg d h p c q -> tree_at h q Q -> tree_at h p (close d c Q).
Proof.
  induction c as [|[x A] c IH]; intros p; cbn [seg close]; [by intros ->|].
  intros (-> & s & g & Hk & HA & Hc) HQ.
  destruct d; cbn [tree_at]; (split; [done|]); exists s, g; (split; [done|]);
    (split; [|try done]); auto.
Qed.

(** In-order contents of a left and of a right context. *)
Definition in_l (c : ctx) : list loc := concat (map (fun xA => inorder xA.2 ++ [xA.1]) c).
Definition in_r (c : ctx) : list loc := concat (map (fun xA => xA.1 :: inorder xA.2) (reverse c)).

Lemma inorder_close_l c Q : inorder (close false c Q) = in_l c ++ inorder Q.
Proof.
  induction c as [|[x A] c IH]; [done|]. cbn. rewrite IH. by rewrite <- !app_assoc.
Qed.

Lemma in_r_cons x A c : in_r ((x, A) :: c) = in_r c ++ x :: inorder A.
Proof.
  unfold in_r. rewrite reverse_cons, map_app, concat_app. cbn. by rewrite app_nil_r.
Qed.

Lemma in_r_snoc x A c : in_r (c ++ [(x, A)]) = x :: inorder A ++ in_r c.
Proof. unfold in_r. rewrite reverse_app. done. Qed.

Lemma in_l_snoc x A c : in_l (c ++ [(x, A)]) = in_l c ++ inorder A ++ [x].
Proof. unfold in_l. rewrite map_app, concat_app. cbn. by rewrite app_nil_r. Qed.

Lemma inorder_close_r c Q : inorder (close true c Q) = inorder Q ++ in_r c.
Proof.
  induction c as [|[x A] c IH]; cbn [close inorder]; [by rewrite app_nil_r|].
  rewrite IH, in_r_cons. by rewrite <- !app_assoc.
Qed.

Lemma cnodes_in_l c y : y ∈ cnodes c <-> y ∈ in_l c.
Proof.
  induction c as [|[x A] c IH]; [done|].
  change (cnodes ((x, A) :: c)) with ((x :: inorder A) ++ cnodes c).
  change (in_l ((x, A) :: c)) with ((inorder A ++ [x]) ++ in_l c).
  rewrite !elem_of_app, elem_of_cons, list_elem_of_singleton, IH. tauto.
Qed.

Lemma cnodes_in_r c y : y ∈ cnodes c <-> y ∈ in_r c.
Proof.
  induction c as [|[x A] c IH]; [done|].
  change (cnodes ((x, A) :: c)) with ((x :: inorder A) ++ cnodes c).
  rewrite in_r_cons, !elem_of_app, elem_of_cons, IH. tauto.
Qed.

(** * The loop

    [k] gives the time of the nodes in the tree, [K] the one searched. *)

Section splaying.
Context (k : loc -> Z) (K : Z) (pkey : curltime).

(** [pkey] compares with the key of [x] as [K] with [k x]. *)
Definition cmp_ok (h : heap) (x : loc) : Prop :=
  exists n, h !! x = Some n /\ Z.sgn (splay_compare pkey (key n)) = Z.sgn (K - k x).

Lemma cmp_ok_rest h h' x : rest h' x = rest h x -> cmp_ok h x -> cmp_ok h' x.
Proof.
  intros E (n & Hn & Hc). rewrite (load_rest h x n Hn) in E. unfold rest in E.
  destruct (h' !! x) as [n'|] eqn:Hn'; [|done]. cbn in E. injection E as _ _ Ek _.
  exists n'. split; [done|]. by rewrite Ek.
Qed.

Definition before (x y : loc) : Prop := k x < k y.

(** The state of the loop: three trees with the nodes [ls], in order; the
    nodes on the two spines are on their side of [K]. *)
Record loop_inv (h0 : heap) (ls : list loc) (s : splay_state) (L : ctx) (T : tree) (R : ctx) : Prop := {
  li_tree : tree_at (sh s) (Some (st s)) T;
  li_left : exists q, seg false (sh s) (nl s) L q;
  li_right : exists q, seg true (sh s) (ns s) R q;
  li_l : sl s = last_loc L;
  li_r : sr s = last_loc R;
  li_nodes : in_l L ++ inorder T ++ in_r R = ls;
  li_low : forall x A, (x, A) ∈ L -> k x < K;
  li_high : forall x A, (x, A) ∈ R -> K < k x;
  li_rest : forall y, rest (sh s) y = rest h0 y;
  li_frame : forall y, y ∉ ls -> kids (sh s) y = kids h0 y;
}.

Lemma before_nodup ls : StronglySorted before ls -> NoDup ls.
Proof.
  induction 1 as [|x l Hs IH Hx]; constructor; [|done]. intros H.
  rewrite Forall_forall in Hx. specialize (Hx x H). unfold before in Hx. lia.
Qed.

(** The lists of a sorted concatenation are disjoint. *)
Lemma nodup_disj (l1 l2 : list loc) y : NoDup (l1 ++ l2) -> y ∈ l1 -> y ∈ l2 -> False.
Proof. intros H H1 H2. apply NoDup_app in H as (_ & H & _). by apply (H y). Qed.

Lemma seg_set_last d h c x A q v n m : forall p, seg d h p (c ++ [(x, A)]) q -> h !! x = Some n ->
  x ∉ cnodes c -> x ∉ inorder A ->
  kids (<[x := m]> h) x = Some (if d then (v, larger n) else (smaller n, v)) ->
  seg d (<[x := m]> h) p (c ++ [(x, A)]) v.
Proof.
  intros p H Hn Hc HA Hk. apply seg_app in H as (o & H1 & H2). apply seg_app. exists o. split.
  - eapply seg_ext; [|exact H1]. intros y Hy. rewrite kids_write. case_decide; [congruence|done].
  - cbn [seg] in *. destruct H2 as (-> & s & g & Hs & HT & _). split; [done|].
    rewrite (load_kids h x n Hn) in Hs. injection Hs as <- <-.
    rewrite Hk. destruct d; do 2 eexists; (split; [done|]); (split; [|done]);
      (eapply tree_at_ext; [|exact HT]); intros y Hy; rewrite kids_write; case_decide; congruence.
Qed.

Lemma seg_load d h c x A q : forall p, seg d h p (c ++ [(x, A)]) q -> is_Some (h !! x).
Proof.
  intros p H. apply seg_app in H as (o & _ & H). destruct H as (_ & s & g & Hk & _).
  apply kids_load in Hk as (n & Hn & _). by exists n.
Qed.

(** What a write to one of the spines leaves as it was. *)
Definition same_but (ls : list loc) (s s' : splay_state) : Prop :=
  st s' = st s /\ sl s' = sl s /\ sr s' = sr s /\
  (forall y, rest (sh s') y = rest (sh s) y) /\
  (forall y, y ∉ ls -> kids (sh s') y = kids (sh s) y).

Lemma rest_insert h x n m : h !! x = Some n ->
  (samen m, samep m, key m, ptr m) = (samen n, samep n, key n, ptr n) ->
  forall y, rest (<[x := m]> h) y = rest h y.
Proof.
  intros Hn E y. rewrite rest_write. case_decide; [|done]. subst y.
  by rewrite (load_rest h x n Hn), E.
Qed.

Lemma write_r_spec s R q v : seg true (sh s) (ns s) R q -> sr s = last_loc R -> NoDup (in_r R) ->
  exists s', write_r v s = Some s' /\ seg true (sh s') (ns s') R v /\ nl s' = nl s /\
    same_but (in_r R) s s'.
Proof.
  intros Hs Hr Hnd. unfold write_r. rewrite Hr. destruct R as [|[x A] c] using rev_ind.
  { cbn. eexists. split; [reflexivity|]. by repeat split. }
  unfold last_loc. rewrite last_snoc. rewrite in_r_snoc in Hnd.
  apply NoDup_cons in Hnd as [Hx Hnd]. rewrite elem_of_app, <- cnodes_in_r in Hx.
  destruct (seg_load _ _ _ _ _ _ _ Hs) as [n Hn]. rewrite (write_some _ _ n) by done.
  cbn [mbind option_bind]. eexists. split; [reflexivity|]. cbn [sh ns nl].
  assert (Esr : Some x = sr s) by (rewrite Hr; unfold last_loc; by rewrite last_snoc).
  split; [|split; [done|split; [done|split; [done|split; [done|split]]]]].
  - eapply seg_set_last; [exact Hs|exact Hn|tauto|tauto|].
    rewrite kids_write. by rewrite decide_True.
  - by apply (rest_insert _ x n).
  - intros y Hy. cbn [sh]. rewrite kids_write. case_decide as E; [|done]. subst y.
    destruct Hy. rewrite in_r_snoc. left.
Qed.

Lemma write_l_spec s L q v : seg false (sh s) (nl s) L q -> sl s = last_loc L -> NoDup (in_l L) ->
  exists s', write_l v s = Some s' /\ seg false (sh s') (nl s') L v /\ ns s' = ns s /\
    same_but (in_l L) s s'.
Proof.
  intros Hs Hr Hnd. unfold write_l. rewrite Hr. destruct L as [|[x A] c] using rev_ind.
  { cbn. eexists. split; [reflexivity|]. by repeat split. }
  unfold last_loc. rewrite last_snoc. rewrite in_l_snoc, app_assoc in Hnd.
  apply NoDup_app in Hnd as (_ & Hx & _).
  assert (Hx' : ~ x ∈ cnodes c /\ ~ x ∈ inorder A).
  { rewrite cnodes_in_l. split; intros H; apply (Hx x); [|left| |left];
      rewrite elem_of_app; tauto. }
  destruct (seg_load _ _ _ _ _ _ _ Hs) as [n Hn]. rewrite (write_some _ _ n) by done.
  cbn [mbind option_bind]. eexists. split; [reflexivity|]. cbn [sh ns nl].
  assert (Esl : Some x = sl s) by (rewrite Hr; unfold last_loc; by rewrite last_snoc).
  split; [|split; [done|split; [done|split; [done|split; [done|split]]]]].
  - eapply seg_set_last; [exact Hs|exact Hn|tauto|tauto|].
    rewrite kids_write. by rewrite decide_True.
  - by apply (rest_insert _ x n).
  - intros y Hy. cbn [sh]. rewrite kids_write. case_decide as E; [|done]. subst y.
    destruct Hy. rewrite in_l_snoc, !elem_of_app, list_elem_of_singleton. tauto.
Qed.

(** The three trees are disjoint. *)
Record disjoint_trees (L : ctx) (T : tree) (R : ctx) : Prop := {
  dj_l : NoDup (in_l L);
  dj_t : NoDup (inorder T);
  dj_r : NoDup (in_r R);
  dj_lt : forall y, y ∈ in_l L -> y ∈ inorder T -> False;
  dj_lr : forall y, y ∈ in_l L -> y ∈ in_r R -> False;
  dj_tr : forall y, y ∈ inorder T -> y ∈ in_r R -> False;
}.

Lemma trees_disjoint ls L T R : StronglySorted before ls -> in_l L ++ inorder T ++ in_r R = ls ->
  disjoint_trees L T R.
Proof.
  intros Hs <-. apply before_nodup in Hs. apply NoDup_app in Hs as (H1 & H2 & H3).
  apply NoDup_app in H3 as (H4 & H5 & H6).
  split; try done; intros y Ha Hb.
  - apply (H2 y Ha). apply elem_of_app. by left.
  - apply (H2 y Ha). apply elem_of_app. by right.
Qed.

Lemma same_but_ext ls s s' : same_but ls s s' -> forall l : list loc,
  (forall y, y ∈ l -> y ∈ ls -> False) -> forall y, y ∈ l -> kids (sh s') y = kids (sh s) y.
Proof. intros (_ & _ & _ & _ & H) l Hd y Hy. apply H. intros H2. by apply (Hd y). Qed.

Lemma link_smaller_spec h0 ls s L l x r R : StronglySorted before ls ->
  loop_inv h0 ls s L (Node l x r) R -> l <> Leaf -> K < k x ->
  exists s', link_smaller s = Some s' /\ loop_inv h0 ls s' L l (R ++ [(x, r)]).
Proof.
  intros Hs [Ht [ql Hl] [qr Hr] Esl Esr En Hlow Hhigh Hrest Hfr] Hne HK.
  pose proof (trees_disjoint ls L _ R Hs En) as D.
  destruct (write_r_spec s R qr (Some (st s)) Hr Esr (dj_r _ _ _ D)) as (s1 & E1 & Hr1 & Enl & Hsb).
  pose proof (same_but_ext _ _ _ Hsb) as Hext. destruct Hsb as (Est & Esl1 & Esr1 & Hrest1 & Hk1).
  unfold link_smaller. rewrite E1. cbn [mbind option_bind].
  assert (Ht1 : tree_at (sh s1) (Some (st s1)) (Node l x r)).
  { rewrite Est. eapply tree_at_ext; [|exact Ht]. apply Hext. apply (dj_tr _ _ _ D). }
  cbn [tree_at] in Ht1. destruct Ht1 as ([= Ex] & a & b & Hk & Ha & Hb).
  apply kids_load in Hk as Hk'. destruct Hk' as (n & Hn & En1 & En2).
  unfold load. cbn [mbind option_bind]. rewrite Ex, Hn. cbn [mbind option_bind]. rewrite En1.
  destruct a as [z|]; [|destruct l; [done|by destruct Ha]]. cbn [mbind option_bind].
  eexists. split; [reflexivity|]. split; cbn [sh ns nl st sl sr].
  - exact Ha.
  - exists ql. rewrite Enl. eapply seg_ext; [|exact Hl]. intros y Hy. apply cnodes_in_l in Hy.
    apply (Hext (in_l L)); [apply (dj_lr _ _ _ D)|done].
  - exists (Some z). rewrite <- Est, Ex in Hr1.
    exact (seg_snoc true (sh s1) R x r (Some z) b (ns s1) Hr1 Hk Hb).
  - by rewrite Esl1.
  - unfold last_loc. by rewrite last_snoc.
  - rewrite <- En, in_r_snoc. cbn [inorder]. by rewrite <- app_assoc.
  - done.
  - intros y A [Hy|Hy]%elem_of_app; [by apply (Hhigh y A)|].
    apply list_elem_of_singleton in Hy as [= -> ->]. done.
  - intros y. by rewrite Hrest1.
  - intros y Hy. rewrite Hk1; [by apply Hfr|]. intros Hy2. apply Hy. rewrite <- En, !elem_of_app. tauto.
Qed.

Lemma link_larger_spec h0 ls s L l x r R : StronglySorted before ls ->
  loop_inv h0 ls s L (Node l x r) R -> r <> Leaf -> k x < K ->
  exists s', link_larger s = Some s' /\ loop_inv h0 ls s' (L ++ [(x, l)]) r R.
Proof.
  intros Hs [Ht [ql Hl] [qr Hr] Esl Esr En Hlow Hhigh Hrest Hfr] Hne HK.
  pose proof (trees_disjoint ls L _ R Hs En) as D.
  destruct (write_l_spec s L ql (Some (st s)) Hl Esl (dj_l _ _ _ D)) as (s1 & E1 & Hl1 & Ens & Hsb).
  pose proof (same_but_ext _ _ _ Hsb) as Hext. destruct Hsb as (Est & Esl1 & Esr1 & Hrest1 & Hk1).
  unfold link_larger. rewrite E1. cbn [mbind option_bind].
  assert (Ht1 : tree_at (sh s1) (Some (st s1)) (Node l x r)).
  { rewrite Est. eapply tree_at_ext; [|exact Ht]. apply Hext. intros y H1 H2.
    by apply (dj_lt _ _ _ D y). }
  cbn [tree_at] in Ht1. destruct Ht1 as ([= Ex] & a & b & Hk & Ha & Hb).
  apply kids_load in Hk as Hk'. destruct Hk' as (n & Hn & En1 & En2).
  unfold load. cbn [mbind option_bind]. rewrite Ex, Hn. cbn [mbind option_bind]. rewrite En2.
  destruct b as [z|]; [|destruct r; [done|by destruct Hb]]. cbn [mbind option_bind].
  eexists. split; [reflexivity|]. split; cbn [sh ns nl st sl sr].
  - exact Hb.
  - exists (Some z). rewrite <- Est, Ex in Hl1.
    exact (seg_snoc false (sh s1) L x l a (Some z) (nl s1) Hl1 Hk Ha).
  - exists qr. rewrite Ens. eapply seg_ext; [|exact Hr]. intros y Hy. apply cnodes_in_r in Hy.
    apply (Hext (in_r R)); [|done]. intros w H1 H2. by apply (dj_lr _ _ _ D w).
  - unfold last_loc. by rewrite last_snoc.
  - by rewrite Esr1.
  - rewrite <- En, in_l_snoc. cbn [inorder]. by rewrite <- !app_assoc.
  - intros y A [Hy|Hy]%elem_of_app; [by apply (Hlow y A)|].
    apply list_elem_of_singleton in Hy as [= -> ->]. done.
  - done.
  - intros y. by rewrite Hrest1.
  - intros y Hy. rewrite Hk1; [by apply Hfr|]. intros Hy2. apply Hy. rewrite <- En, !elem_of_app. tauto.
Qed.

(** The rotations change the tree at [t] only. *)
Lemma rotate_smaller_spec s ll y lr x r :
  tree_at (sh s) (Some (st s)) (Node (Node ll y lr) x r) ->
  NoDup (inorder (Node (Node ll y lr) x r)) ->
  exists s', rotate_smaller s = Some s' /\
    tree_at (sh s') (Some (st s')) (Node ll y (Node lr x r)) /\
    ns s' = ns s /\ nl s' = nl s /\ sl s' = sl s /\ sr s' = sr s /\
    (forall z, rest (sh s') z = rest (sh s) z) /\
    (forall z, z ∉ inorder (Node (Node ll y lr) x r) -> kids (sh s') z = kids (sh s) z).
Proof.
  intros Ht Hnd. cbn [tree_at] in Ht.
  destruct Ht as ([= Ex] & a & b & Hkx & (Ea & c & e & Hky & Hll & Hlr) & Hr). subst a.
  apply kids_load in Hkx as (nx & Hx & Ex1 & Ex2). apply kids_load in Hky as (ny & Hy & Ey1 & Ey2).
  subst b c e. unfold rotate_smaller, load. rewrite Ex. cbn [mbind option_bind]. rewrite Hx. cbn [mbind option_bind].
  rewrite Ex1. cbn [mbind option_bind]. rewrite Hy. cbn [mbind option_bind].
  rewrite (write_some _ x nx) by done. cbn [mbind option_bind].
  cbn [inorder] in Hnd. rewrite <- app_assoc in Hnd. cbn [app] in Hnd.
  apply NoDup_app in Hnd as (Nl & Dl & Hnd). apply NoDup_cons in Hnd as [Dy Hnd].
  apply NoDup_app in Hnd as (Nr & Dr & Hnd). apply NoDup_cons in Hnd as [Dx Nr2].
  assert (Hxy : x <> y).
  { intros ->. apply Dy. apply elem_of_app. right. left. }
  rewrite (write_some _ y ny) by (by rewrite lookup_insert_ne).
  cbn [mbind option_bind]. eexists. split; [reflexivity|]. cbn [sh ns nl st sl sr].
  assert (Hk : forall z, z <> x -> z <> y ->
    kids (<[y := set_larger (Some x) ny]> (<[x := set_smaller (larger ny) nx]> (sh s))) z = kids (sh s) z).
  { intros z H1 H2. rewrite !kids_write. rewrite !decide_False by congruence. done. }
  split; [|split; [done|split; [done|split; [done|split; [done|split]]]]].
  - cbn [tree_at]. split; [done|]. exists (smaller ny), (Some x). rewrite kids_write, decide_True by done.
    cbn. split; [done|]. split.
    + eapply tree_at_ext; [|exact Hll]. intros z Hz. specialize (Dl z Hz). apply Hk; intros ->; apply Dl;
        rewrite elem_of_cons, elem_of_app, elem_of_cons; tauto.
    + split; [done|]. exists (larger ny), (larger nx).
      rewrite kids_write, decide_False, kids_write, decide_True by congruence. cbn. split; [done|]. split.
      * eapply tree_at_ext; [|exact Hlr]. intros z Hz. specialize (Dr z Hz). apply Hk; intros ->.
        -- apply Dr. left.
        -- apply Dy. apply elem_of_app. by left.
      * eapply tree_at_ext; [|exact Hr]. intros z Hz. apply Hk; intros ->; [done|].
        apply Dy. rewrite elem_of_app, elem_of_cons. tauto.
  - intros z. rewrite !rest_write. case_decide; [subst z; by rewrite (load_rest _ y ny Hy)|].
    case_decide; [subst z; by rewrite (load_rest _ x nx Hx)|done].
  - intros z Hz. cbn [inorder] in Hz. apply Hk; intros ->; apply Hz;
      rewrite !elem_of_app, !elem_of_cons, ?elem_of_app, ?elem_of_cons; tauto.
Qed.

Lemma rotate_larger_spec s l x rl y rr :
  tree_at (sh s) (Some (st s)) (Node l x (Node rl y rr)) ->
  NoDup (inorder (Node l x (Node rl y rr))) ->
  exists s', rotate_larger s = Some s' /\
    tree_at (sh s') (Some (st s')) (Node (Node l x rl) y rr) /\
    ns s' = ns s /\ nl s' = nl s /\ sl s' = sl s /\ sr s' = sr s /\
    (forall z, rest (sh s') z = rest (sh s) z) /\
    (forall z, z ∉ inorder (Node l x (Node rl y rr)) -> kids (sh s') z = kids (sh s) z).
Proof.
  intros Ht Hnd. cbn [tree_at] in Ht.
  destruct Ht as ([= Ex] & a & b & Hkx & Hl & (Eb & c & e & Hky & Hrl & Hrr)). subst b.
  apply kids_load in Hkx as (nx & Hx & Ex1 & Ex2). apply kids_load in Hky as (ny & Hy & Ey1 & Ey2).
  subst a c e. unfold rotate_larger, load. rewrite Ex. cbn [mbind option_bind]. rewrite Hx. cbn [mbind option_bind].
  rewrite Ex2. cbn [mbind option_bind]. rewrite Hy. cbn [mbind option_bind].
  rewrite (write_some _ x nx) by done. cbn [mbind option_bind].
  cbn [inorder] in Hnd.
  apply NoDup_app in Hnd as (Nl & Dl & Hnd). apply NoDup_cons in Hnd as [Dx Hnd].
  apply NoDup_app in Hnd as (Nr & Dr & Hnd). apply NoDup_cons in Hnd as [Dy Nr2].
  assert (Hxy : x <> y).
  { intros ->. apply Dx. apply elem_of_app. right. left. }
  rewrite (write_some _ y ny) by (by rewrite lookup_insert_ne).
  cbn [mbind option_bind]. eexists. split; [reflexivity|]. cbn [sh ns nl st sl sr].
  assert (Hk : forall z, z <> x -> z <> y ->
    kids (<[y := set_smaller (Some x) ny]> (<[x := set_larger (smaller ny) nx]> (sh s))) z = kids (sh s) z).
  { intros z H1 H2. rewrite !kids_write. rewrite !decide_False by congruence. done. }
  split; [|split; [done|split; [done|split; [done|split; [done|split]]]]].
  - cbn [tree_at]. split; [done|]. exists (Some x), (larger ny). rewrite kids_write, decide_True by done.
    cbn. split; [done|]. split.
    + split; [done|]. exists (smaller nx), (smaller ny).
      rewrite kids_write, decide_False, kids_write, decide_True by congruence. cbn. split; [done|]. split.
      * eapply tree_at_ext; [|exact Hl]. intros z Hz. specialize (Dl z Hz). apply Hk; intros ->; apply Dl;
          rewrite !elem_of_cons, elem_of_app, elem_of_cons; tauto.
      * eapply tree_at_ext; [|exact Hrl]. intros z Hz. specialize (Dr z Hz). apply Hk; intros ->.
        -- apply Dx. apply elem_of_app. by left.
        -- apply Dr. left.
    + eapply tree_at_ext; [|exact Hrr]. intros z Hz. apply Hk; intros ->; [|done].
      apply Dx. rewrite elem_of_app, elem_of_cons. tauto.
  - intros z. rewrite !rest_write. case_decide; [subst z; by rewrite (load_rest _ y ny Hy)|].
    case_decide; [subst z; by rewrite (load_rest _ x nx Hx)|done].
  - intros z Hz. cbn [inorder] in Hz. apply Hk; intros ->; apply Hz;
      rewrite !elem_of_app, !elem_of_cons, ?elem_of_app, ?elem_of_cons; tauto.
Qed.

(** The loop invariant after a rotation. *)
Lemma rotated_inv h0 ls s s' L T T' R : StronglySorted before ls -> loop_inv h0 ls s L T R ->
  tree_at (sh s') (Some (st s')) T' -> inorder T' = inorder T ->
  ns s' = ns s -> nl s' = nl s -> sl s' = sl s -> sr s' = sr s ->
  (forall z, rest (sh s') z = rest (sh s) z) ->
  (forall z, z ∉ inorder T -> kids (sh s') z = kids (sh s) z) ->
  loop_inv h0 ls s' L T' R.
Proof.
  intros Hs [Ht [ql Hl] [qr Hr] Esl Esr En Hlow Hhigh Hrest Hfr] Ht' Ei E1 E2 E3 E4 Hre Hk.
  pose proof (trees_disjoint ls L T R Hs En) as D.
  split; try done.
  - exists ql. rewrite E2. eapply seg_ext; [|exact Hl]. intros y Hy. apply cnodes_in_l in Hy.
    apply Hk. intros H. by apply (dj_lt _ _ _ D y).
  - exists qr. rewrite E1. eapply seg_ext; [|exact Hr]. intros y Hy. apply cnodes_in_r in Hy.
    apply Hk. intros H. by apply (dj_tr _ _ _ D y).
  - by rewrite E3.
  - by rewrite E4.
  - by rewrite Ei.
  - intros y. by rewrite Hre.
  - intros y Hy. rewrite Hk; [by apply Hfr|]. intros H. apply Hy. rewrite <- En, !elem_of_app. tauto.
Qed.

(** Where the loop stops. *)
Definition at_rest (T : tree) : Prop :=
  exists a x b, T = Node a x b /\ (k x = K \/ (K < k x /\ a = Leaf) \/ (k x < K /\ b = Leaf)).

Lemma tree_root h x T : tree_at h (Some x) T ->
  exists l r n, T = Node l x r /\ h !! x = Some n /\ tree_at h (smaller n) l /\ tree_at h (larger n) r.
Proof.
  intros H. apply tree_at_some in H as (l & r & s & g & -> & Hk & Hl & Hr).
  apply kids_load in Hk as (n & Hn & <- & <-). by exists l, r, n.
Qed.

Lemma splay_round_spec h0 ls s L T R : StronglySorted before ls -> loop_inv h0 ls s L T R ->
  (forall x, x ∈ ls -> cmp_ok h0 x) ->
  exists r, splay_round pkey s = Some r /\
    match r with
    | inl s' => exists T', loop_inv h0 ls s' L T' R /\ at_rest T'
    | inr s' => exists L' T' R', loop_inv h0 ls s' L' T' R' /\
        (length (inorder T') < length (inorder T))%nat
    end.
Proof.
  intros Hs HI Hcmp.
  assert (Hc : forall s' x, (forall y, rest (sh s') y = rest h0 y) -> x ∈ inorder T ->
    cmp_ok (sh s') x).
  { intros s' x H Hx. apply (cmp_ok_rest h0); [apply H|]. apply Hcmp.
    rewrite <- (li_nodes _ _ _ _ _ _ HI), !elem_of_app. tauto. }
  pose proof (trees_disjoint ls L T R Hs (li_nodes _ _ _ _ _ _ HI)) as D.
  destruct (tree_root _ _ _ (li_tree _ _ _ _ _ _ HI)) as (l & r & n & ET & Hn & Hl & Hr).
  set (x := st s) in *. unfold splay_round, load. cbn [mbind option_bind]. fold x. rewrite Hn.
  cbn [mbind option_bind].
  destruct (Hc s x (li_rest _ _ _ _ _ _ HI)) as (n' & Hn' & Hsg).
  { rewrite ET. cbn. apply elem_of_app. right. left. }
  rewrite Hn in Hn'. injection Hn' as <-. rewrite Z.gtb_ltb.
  destruct (Z.ltb_spec (splay_compare pkey (key n)) 0).
  - assert (HKx : K < k x) by lia. destruct (smaller n) as [y|] eqn:Ey.
    2: { eexists. split; [reflexivity|]. exists T. split; [done|]. exists l, x, r. split; [done|].
      right. left. split; [done|]. by apply (tree_at_none (sh s)). }
    destruct (tree_root _ _ _ Hl) as (ll & lr & m & El & Hm & Hll & Hlr). rewrite Hm.
    cbn [mbind option_bind]. subst l.
    destruct (Hc s y (li_rest _ _ _ _ _ _ HI)) as (m' & Hm' & Hsgm).
    { rewrite ET. cbn. rewrite !elem_of_app, elem_of_cons. tauto. }
    rewrite Hm in Hm'. injection Hm' as <-.
    destruct (Z.ltb_spec (splay_compare pkey (key m)) 0).
    + assert (HKy : K < k y) by lia. pose proof (li_tree _ _ _ _ _ _ HI) as Ht. rewrite ET in Ht.
      destruct (rotate_smaller_spec s ll y lr x r Ht) as (s1 & E1 & Ht1 & H1 & H2 & H3 & H4 & H5 & H6).
      { rewrite <- ET. apply (dj_t _ _ _ D). }
      rewrite E1. cbn [mbind option_bind].
      assert (HI1 : loop_inv h0 ls s1 L (Node ll y (Node lr x r)) R).
      { rewrite ET in HI. eapply rotated_inv; try eassumption. cbn [inorder].
        by rewrite <- !app_assoc. }
      destruct (tree_root _ _ _ Ht1) as (a & b & m1 & [= Ea Ez Eb] & Hm1 & Ha & _). subst a.
      rewrite Hm1. cbn [mbind option_bind]. destruct (smaller m1) as [z|] eqn:Ez1.
      * destruct (link_smaller_spec h0 ls s1 L ll y (Node lr x r) R Hs HI1) as (s2 & E2 & HI2).
        { intros E0. rewrite E0 in Ha. discriminate Ha. }
        { done. }
        rewrite E2. cbn [mbind option_bind]. eexists. split; [reflexivity|].
        do 3 eexists. split; [exact HI2|]. rewrite ET. cbn [inorder]. rewrite !length_app. cbn. lia.
      * eexists. split; [reflexivity|]. eexists. split; [exact HI1|]. do 3 eexists. split; [reflexivity|].
        right. left. split; [done|]. by apply (tree_at_none (sh s1)).
    + rewrite ET in HI. destruct (link_smaller_spec h0 ls s L _ x r R Hs HI) as (s2 & E2 & HI2); [done|done|].
      rewrite E2. cbn [mbind option_bind]. eexists. split; [reflexivity|].
      do 3 eexists. split; [exact HI2|]. rewrite ET. cbn [inorder]. rewrite !length_app. cbn. lia.
  - destruct (Z.ltb_spec 0 (splay_compare pkey (key n))).
    2: { eexists. split; [reflexivity|]. exists T. split; [done|]. exists l, x, r. split; [done|].
      left. lia. }
    assert (HKx : k x < K) by lia. destruct (larger n) as [y|] eqn:Ey.
    2: { eexists. split; [reflexivity|]. exists T. split; [done|]. exists l, x, r. split; [done|].
      right. right. split; [done|]. by apply (tree_at_none (sh s)). }
    destruct (tree_root _ _ _ Hr) as (rl & rr & m & El & Hm & Hrl & Hrr). rewrite Hm.
    cbn [mbind option_bind]. subst r.
    destruct (Hc s y (li_rest _ _ _ _ _ _ HI)) as (m' & Hm' & Hsgm).
    { rewrite ET. cbn. rewrite !elem_of_app, !elem_of_cons, elem_of_app, elem_of_cons. tauto. }
    rewrite Hm in Hm'. injection Hm' as <-. rewrite Z.gtb_ltb.
    destruct (Z.ltb_spec 0 (splay_compare pkey (key m))).
    + assert (HKy : k y < K) by lia. pose proof (li_tree _ _ _ _ _ _ HI) as Ht. rewrite ET in Ht.
      destruct (rotate_larger_spec s l x rl y rr Ht) as (s1 & E1 & Ht1 & H1' & H2 & H3 & H4 & H5 & H6).
      { rewrite <- ET. apply (dj_t _ _ _ D). }
      rewrite E1. cbn [mbind option_bind].
      assert (HI1 : loop_inv h0 ls s1 L (Node (Node l x rl) y rr) R).
      { rewrite ET in HI. eapply rotated_inv; try eassumption. cbn [inorder].
        by rewrite <- !app_assoc. }
      destruct (tree_root _ _ _ Ht1) as (a & b & m1 & [= Ea Ez Eb] & Hm1 & _ & Hb). subst b.
      rewrite Hm1. cbn [mbind option_bind]. destruct (larger m1) as [z|] eqn:Ez1.
      * destruct (link_larger_spec h0 ls s1 L (Node l x rl) y rr R Hs HI1) as (s2 & E2 & HI2).
        { intros E0. rewrite E0 in Hb. discriminate Hb. }
        { done. }
        rewrite E2. cbn [mbind option_bind]. eexists. split; [reflexivity|].
        do 3 eexists. split; [exact HI2|]. rewrite ET. cbn [inorder].
        rewrite !length_app. cbn. rewrite length_app. cbn. lia.
      * eexists. split; [reflexivity|]. eexists. split; [exact HI1|]. do 3 eexists. split; [reflexivity|].
        right. right. split; [done|]. by apply (tree_at_none (sh s1)).
    + rewrite ET in HI. destruct (link_larger_spec h0 ls s L l x _ R Hs HI) as (s2 & E2 & HI2); [done|done|].
      rewrite E2. cbn [mbind option_bind]. eexists. split; [reflexivity|].
      do 3 eexists. split; [exact HI2|]. rewrite ET. cbn [inorder]. rewrite !length_app. cbn. rewrite !length_app. cbn. lia.
Qed.

Lemma splay_loop_spec h0 ls fuel : forall s L T R, StronglySorted before ls -> loop_inv h0 ls s L T R ->
  (forall x, x ∈ ls -> cmp_ok h0 x) -> (length (inorder T) <= fuel)%nat ->
  exists s' L' T' R', splay_loop fuel pkey s = Some s' /\ loop_inv h0 ls s' L' T' R' /\ at_rest T'.
Proof.
  induction fuel as [|fuel IH]; intros s L T R Hs HI Hc Hf.
  { destruct (tree_root _ _ _ (li_tree _ _ _ _ _ _ HI)) as (l & r & n & -> & _).
    cbn in Hf. rewrite length_app in Hf. cbn in Hf. lia. }
  cbn [splay_loop]. destruct (splay_round_spec h0 ls s L T R Hs HI Hc) as (r & -> & Hr).
  cbn [mbind option_bind]. destruct r as [s'|s'].
  - destruct Hr as (T' & HI' & Ha). by exists s', L, T', R.
  - destruct Hr as (L' & T' & R' & HI' & Hlt). apply (IH s' L' T' R' Hs HI' Hc). lia.
Qed.

Lemma assemble_spec h0 ls s L a x b R : StronglySorted before ls ->
  loop_inv h0 ls s L (Node a x b) R ->
  exists h', assemble s = Some h' /\ st s = x /\
    tree_at h' (Some x) (Node (close false L a) x (close true R b)) /\
    (forall y, rest h' y = rest h0 y) /\ (forall y, y ∉ ls -> kids h' y = kids h0 y).
Proof.
  intros Hs [Ht [ql Hl] [qr Hr] Esl Esr En Hlow Hhigh Hrest Hfr].
  pose proof (trees_disjoint ls L _ R Hs En) as D. pose proof (dj_t _ _ _ D) as Dt.
  cbn [inorder] in Dt. apply NoDup_app in Dt as (_ & Dxa & Dt). apply NoDup_cons in Dt as [Dxb _].
  destruct (tree_root _ _ _ Ht) as (a' & b' & n & [= <- Ex <-] & Hn & Ha & Hb).
  unfold assemble, load. cbn [mbind option_bind]. rewrite Hn. cbn [mbind option_bind].
  destruct (write_l_spec s L ql (smaller n) Hl Esl (dj_l _ _ _ D)) as (s1 & E1 & Hl1 & Ens & Hsb1).
  pose proof (same_but_ext _ _ _ Hsb1) as Hext1. destruct Hsb1 as (Est1 & _ & Esr1 & Hrest1 & Hk1).
  rewrite E1. cbn [mbind option_bind].
  assert (Ht1 : tree_at (sh s1) (Some (st s)) (Node a x b)).
  { eapply tree_at_ext; [|exact Ht]. apply Hext1. intros y H1 H2. by apply (dj_lt _ _ _ D y). }
  assert (Hn1 : kids (sh s1) (st s) = Some (smaller n, larger n)).
  { rewrite Hk1; [by apply load_kids|]. rewrite <- Ex. intros Hx. apply (dj_lt _ _ _ D x Hx).
    cbn. apply elem_of_app. right. left. }
  assert (Ha1 : tree_at (sh s1) (smaller n) a /\ tree_at (sh s1) (larger n) b).
  { destruct Ht1 as (_ & s' & g' & E & H1 & H2). rewrite Ex, Hn1 in E. by injection E as <- <-. }
  destruct Ha1 as [Ha1 Hb1]. pose proof (seg_close _ _ _ _ _ _ Hl1 Ha1) as HL.
  apply kids_load in Hn1 as Hn1'. destruct Hn1' as (n1 & Hn1' & En1 & En2).
  rewrite Est1, Hn1'. cbn [mbind option_bind].
  assert (Hr1 : seg true (sh s1) (ns s1) R qr).
  { rewrite Ens. eapply seg_ext; [|exact Hr]. intros y Hy. apply cnodes_in_r in Hy.
    apply (Hext1 (in_r R)); [|done]. intros w H1 H2. by apply (dj_lr _ _ _ D w). }
  rewrite <- Esr1 in Esr.
  destruct (write_r_spec s1 R qr (larger n1) Hr1 Esr (dj_r _ _ _ D)) as (s2 & E2 & Hr2 & Enl & Hsb2).
  pose proof (same_but_ext _ _ _ Hsb2) as Hext2. destruct Hsb2 as (Est2 & _ & _ & Hrest2 & Hk2).
  rewrite E2. cbn [mbind option_bind]. rewrite Est2, Est1.
  assert (HL2 : tree_at (sh s2) (nl s2) (close false L a)).
  { rewrite Enl. eapply tree_at_ext; [|exact HL]. intros y Hy. rewrite inorder_close_l in Hy.
    apply Hk2. intros H. apply elem_of_app in Hy as [Hy|Hy]; [by apply (dj_lr _ _ _ D y)|].
    apply (dj_tr _ _ _ D y); [cbn; apply elem_of_app; by left|done]. }
  assert (HR2 : tree_at (sh s2) (ns s2) (close true R b)).
  { eapply seg_close; [exact Hr2|]. rewrite En2. eapply tree_at_ext; [|exact Hb1].
    apply Hext2. intros y H1 H2. apply (dj_tr _ _ _ D y); [|done]. cbn.
    rewrite elem_of_app, elem_of_cons. tauto. }
  assert (Hx2 : x ∉ in_r R).
  { intros H. apply (dj_tr _ _ _ D x); [|done]. cbn. apply elem_of_app. right. left. }
  assert (Hn2 : is_Some (sh s2 !! x)).
  { specialize (Hrest2 x). rewrite Ex in Hrest2 at 2. rewrite (load_rest _ _ _ Hn1') in Hrest2.
    unfold rest in Hrest2. destruct (sh s2 !! x) as [m|]; [by exists m|done]. }
  destruct Hn2 as [m Hm]. rewrite <- Ex, (write_some _ x m) by done. cbn [mbind option_bind].
  rewrite (write_some _ x (set_smaller (nl s2) m)) by apply lookup_insert_eq. rewrite insert_insert_eq.
  eexists. split; [reflexivity|]. split; [done|].
  assert (Hkx : forall y, y <> x -> kids (<[x := set_larger (ns s2) (set_smaller (nl s2) m)]> (sh s2)) y
    = kids (sh s2) y).
  { intros y Hy. by rewrite kids_write, decide_False. }
  split; [|split].
  - cbn [tree_at]. split; [done|]. exists (nl s2), (ns s2). rewrite kids_write, decide_True by done.
    split; [done|]. split.
    + eapply tree_at_ext; [|exact HL2]. intros y Hy. apply Hkx. intros ->.
      rewrite inorder_close_l in Hy. apply elem_of_app in Hy as [Hy|Hy].
      * apply (dj_lt _ _ _ D x Hy). cbn. apply elem_of_app. right. left.
      * specialize (Dxa x Hy). apply Dxa. left.
    + eapply tree_at_ext; [|exact HR2]. intros y Hy. apply Hkx. intros ->.
      rewrite inorder_close_r in Hy. by apply elem_of_app in Hy as [Hy|Hy].
  - intros y. rewrite (rest_insert _ x m) by done. by rewrite Hrest2, Hrest1, Hrest.
  - intros y Hy. assert (H : ~ (y ∈ in_l L \/ y ∈ inorder (Node a x b) \/ y ∈ in_r R)).
    { by rewrite <- !elem_of_app, En. }
    rewrite Hkx, Hk2, Hk1; [by apply Hfr|tauto|tauto|]. intros ->. apply H. right. left.
    cbn. apply elem_of_app. right. left.
Qed.

Lemma tree_nodes h T : forall p, tree_at h p T -> forall x, x ∈ inorder T -> x ∈ dom h.
Proof.
  induction T as [|l IHl x r IHr]; intros p H y Hy; [by apply elem_of_nil in Hy|].
  destruct H as (_ & s & g & Hk & Hl & Hr). cbn in Hy.
  apply elem_of_app in Hy as [Hy|[->|Hy]%elem_of_cons].
  - by apply (IHl s).
  - apply kids_load in Hk as (n & Hn & _). apply elem_of_dom. by exists n.
  - by apply (IHr g).
Qed.

Lemma nodes_le_size (h : heap) l : NoDup l -> (forall x, x ∈ l -> x ∈ dom h) ->
  (length l <= size h)%nat.
Proof.
  intros Hnd H. rewrite <- size_dom. rewrite <- (size_list_to_set (C := gset loc) l) by done.
  apply subseteq_size. intros x Hx. apply H. by apply elem_of_list_to_set in Hx.
Qed.

Lemma sorted_split l1 x l2 : StronglySorted before (l1 ++ x :: l2) ->
  (forall y, y ∈ l1 -> k y < k x) /\ (forall y, y ∈ l2 -> k x < k y).
Proof.
  induction l1 as [|z l1 IH]; cbn [app]; intros H; apply StronglySorted_inv in H as [H1 H2];
    rewrite Forall_forall in H2.
  - split; [intros y Hy; by apply elem_of_nil in Hy|]. intros y Hy. by apply (H2 y).
  - destruct (IH H1) as [H3 H4]. split; [|done]. intros y [->|Hy]%elem_of_cons; [|by apply H3].
    apply (H2 x). apply elem_of_app. right. left.
Qed.

Lemma sorted_below c ls : StronglySorted before (in_l c ++ ls) ->
  (forall x A, (x, A) ∈ c -> k x < K) -> forall y, y ∈ in_l c -> k y < K.
Proof.
  revert ls. induction c as [|[x A] c IH] using rev_ind; intros ls Hs Hc y Hy;
    [by apply elem_of_nil in Hy|].
  rewrite in_l_snoc in Hy, Hs. rewrite <- !app_assoc in Hs.
  assert (Hx : k x < K) by (apply (Hc x A), elem_of_app; right; left).
  apply elem_of_app in Hy as [Hy|Hy].
  - apply (IH _ Hs); [|done]. intros z B Hz. apply (Hc z B), elem_of_app. by left.
  - apply elem_of_app in Hy as [Hy|Hy%list_elem_of_singleton]; [|by subst y].
    rewrite app_assoc in Hs. change ([x] ++ ls) with (x :: ls) in Hs.
    destruct (sorted_split _ _ _ Hs) as [H1 _]. specialize (H1 y).
    rewrite elem_of_app in H1. specialize (H1 (or_intror Hy)). lia.
Qed.

Lemma sorted_above c : StronglySorted before (in_r c) ->
  (forall x A, (x, A) ∈ c -> K < k x) -> forall y, y ∈ in_r c -> K < k y.
Proof.
  induction c as [|[x A] c IH] using rev_ind; intros Hs Hc y Hy; [by apply elem_of_nil in Hy|].
  rewrite in_r_snoc in Hy, Hs. assert (Hx : K < k x) by (apply (Hc x A), elem_of_app; right; left).
  apply elem_of_cons in Hy as [->|Hy]; [done|].
  apply StronglySorted_inv in Hs as [_ Hs]. rewrite Forall_forall in Hs. specialize (Hs y Hy).
  unfold before in Hs. lia.
Qed.

(** Splaying keeps the nodes and their order and puts the node next to the
    time searched at the root. *)
Lemma splay_spec h p T : tree_at h p T -> T <> Leaf -> StronglySorted before (inorder T) ->
  (forall x, x ∈ inorder T -> cmp_ok h x) ->
  exists h' a x b, Curl_splay pkey p h = Some (h', Some x) /\ tree_at h' (Some x) (Node a x b) /\
    inorder (Node a x b) = inorder T /\
    (forall y, rest h' y = rest h y) /\ (forall y, y ∉ inorder T -> kids h' y = kids h y) /\
    (forall y, y ∈ inorder a -> k y < K) /\ (forall y, y ∈ inorder b -> K < k y).
Proof.
  intros Ht Hne Hs Hc. destruct p as [t|]; [|by apply tree_at_none in Ht]. cbn [Curl_splay].
  assert (HI : loop_inv h (inorder T) (mk_splay h None None t None None) [] T []).
  { split; cbn [sh ns nl st sl sr]; try done.
    - by exists None.
    - by exists None.
    - cbn. by rewrite app_nil_r.
    - intros x A Hx. by apply elem_of_nil in Hx.
    - intros x A Hx. by apply elem_of_nil in Hx. }
  destruct (splay_loop_spec h (inorder T) (size h) _ _ _ _ Hs HI Hc) as
    (s & L & T' & R & E & HI' & (a & x & b & -> & Hrest)).
  { apply nodes_le_size; [by apply before_nodup|by apply (tree_nodes h T (Some t))]. }
  rewrite E. cbn [mbind option_bind].
  destruct (assemble_spec h (inorder T) s L a x b R Hs HI') as (h' & E2 & Ex & Ht' & Hre & Hk).
  rewrite E2. cbn [mbind option_bind]. exists h', (close false L a), x, (close true R b).
  rewrite Ex. split; [done|]. split; [done|].
  pose proof (li_nodes _ _ _ _ _ _ HI') as En.
  assert (Ein : in_l L ++ inorder a ++ x :: inorder b ++ in_r R = inorder T).
  { rewrite <- En. cbn [inorder]. by rewrite <- !app_assoc. }
  split; [|split; [done|split; [done|]]].
  { cbn [inorder]. by rewrite inorder_close_l, inorder_close_r, <- !app_assoc. }
  rewrite <- Ein in Hs. pose proof Hs as Hs2. rewrite app_assoc in Hs2.
  apply sorted_split in Hs2 as [Hlx Hrx].
  pose proof (sorted_below L _ Hs (li_low _ _ _ _ _ _ HI')) as HLow.
  assert (HHigh : forall y, y ∈ in_r R -> K < k y).
  { apply sorted_above; [|apply (li_high _ _ _ _ _ _ HI')]. apply sorted_suffix in Hs.
    apply sorted_suffix in Hs. apply StronglySorted_inv in Hs as [Hs _].
    by apply sorted_suffix in Hs. }
  split; intros y Hy.
  - rewrite inorder_close_l in Hy. destruct Hrest as [Hkx|[[Hkx ->]|[Hkx ->]]].
    + specialize (Hlx y Hy). lia.
    + cbn in Hy. rewrite app_nil_r in Hy. by apply HLow.
    + specialize (Hlx y Hy). lia.
  - rewrite inorder_close_r in Hy. destruct Hrest as [Hkx|[[Hkx ->]|[Hkx ->]]].
    + specialize (Hrx y Hy). lia.
    + specialize (Hrx y Hy). lia.
    + cbn in Hy. by apply HHigh.
Qed.
End splaying.

(** * Views of the heap

    Each field of the nodes as a partial function; a write changes one of
    them at one node. *)

Definition sn (h : heap) (x : loc) : option loc := n ← h !! x; samen n.
Definition sp (h : heap) (x : loc) : option loc := n ← h !! x; samep n.
Definition keyof (h : heap) (x : loc) : option curltime := n ← h !! x; Some (key n).
Definition payload (h : heap) (x : loc) : option Z := n ← h !! x; Some (ptr n).

Definition at_node {A} (x : loc) (v : A) (f : loc -> A) : loc -> A :=
  fun y => if decide (y = x) then v else f y.

Record views (h h' : heap) (fk : loc -> option (option loc * option loc))
    (fn fp : loc -> option loc) (fy : loc -> option curltime) : Prop := {
  v_dom : dom h' = dom h;
  v_kids : forall y, kids h' y = fk y;
  v_sn : forall y, sn h' y = fn y;
  v_sp : forall y, sp h' y = fp y;
  v_key : forall y, keyof h' y = fy y;
  v_payload : forall y, payload h' y = payload h y;
}.

Lemma views_rest h h' : (forall y, rest h' y = rest h y) ->
  dom h' = dom h /\ (forall y, sn h' y = sn h y) /\ (forall y, sp h' y = sp h y) /\
  (forall y, keyof h' y = keyof h y) /\ (forall y, payload h' y = payload h y).
Proof.
  intros H.
  assert (E : forall y, (exists n n', h !! y = Some n /\ h' !! y = Some n' /\ samen n' = samen n /\
      samep n' = samep n /\ key n' = key n /\ ptr n' = ptr n) \/ (h !! y = None /\ h' !! y = None)).
  { intros y. specialize (H y). unfold rest in H.
    destruct (h !! y) as [n|], (h' !! y) as [n'|]; cbn in H; try done; [|by right].
    injection H as H1 H2 H3 H4. left. by exists n, n'. }
  split; [|unfold sn, sp, keyof, payload; repeat split; intros y;
    destruct (E y) as [(n & n' & -> & -> & E1 & E2 & E3 & E4)|[-> ->]]; cbn; congruence].
  apply set_eq. intros y. rewrite !elem_of_dom.
  destruct (E y) as [(n & n' & -> & -> & _)|[-> ->]]; [|done]. split; intros _; by eexists.
Qed.

Lemma write_views h x f : x ∈ dom h -> (forall n, ptr (f n) = ptr n) ->
  exists n h', h !! x = Some n /\ write (Some x) f h = Some h' /\
    views h h' (at_node x (Some (smaller (f n), larger (f n))) (kids h))
      (at_node x (samen (f n)) (sn h)) (at_node x (samep (f n)) (sp h))
      (at_node x (Some (key (f n))) (keyof h)).
Proof.
  intros [n Hn]%elem_of_dom Hp. exists n, (<[x := f n]> h). split; [done|].
  split; [by apply write_some|].
  split; unfold kids, sn, sp, keyof, payload, at_node; try intros y.
  - rewrite dom_insert_L. apply subseteq_union_1_L, singleton_subseteq_l, elem_of_dom. by exists n.
  - case_decide as E; [subst; by rewrite lookup_insert_eq|by rewrite lookup_insert_ne].
  - case_decide as E; [subst; by rewrite lookup_insert_eq|by rewrite lookup_insert_ne].
  - case_decide as E; [subst; by rewrite lookup_insert_eq|by rewrite lookup_insert_ne].
  - case_decide as E; [subst; by rewrite lookup_insert_eq|by rewrite lookup_insert_ne].
  - destruct (decide (y = x)) as [->|E]; [|by rewrite lookup_insert_ne].
    rewrite lookup_insert_eq, Hn. cbn. by rewrite Hp.
Qed.

Lemma at_node_same {A} x (v : A) f y : f x = v -> at_node x v f y = f y.
Proof. intros H. unfold at_node. case_decide; congruence. Qed.

Lemma write_smaller h x v : x ∈ dom h -> exists h', write (Some x) (set_smaller v) h = Some h' /\
  views h h' (at_node x ((fun kg => (v, kg.2)) <$> kids h x) (kids h)) (sn h) (sp h) (keyof h).
Proof.
  intros Hx. destruct (write_views h x (set_smaller v) Hx) as (n & h' & Hn & E & [V1 V2 V3 V4 V5 V6]);
    [done|]. exists h'. split; [done|]. split; try done; intros y; [rewrite V2|rewrite V3|rewrite V4|rewrite V5].
  - unfold at_node. case_decide; [|done]. unfold kids. by rewrite Hn.
  - apply at_node_same. unfold sn. by rewrite Hn.
  - apply at_node_same. unfold sp. by rewrite Hn.
  - apply at_node_same. unfold keyof. by rewrite Hn.
Qed.

Lemma write_larger h x v : x ∈ dom h -> exists h', write (Some x) (set_larger v) h = Some h' /\
  views h h' (at_node x ((fun kg => (kg.1, v)) <$> kids h x) (kids h)) (sn h) (sp h) (keyof h).
Proof.
  intros Hx. destruct (write_views h x (set_larger v) Hx) as (n & h' & Hn & E & [V1 V2 V3 V4 V5 V6]);
    [done|]. exists h'. split; [done|]. split; try done; intros y; [rewrite V2|rewrite V3|rewrite V4|rewrite V5].
  - unfold at_node. case_decide; [|done]. unfold kids. by rewrite Hn.
  - apply at_node_same. unfold sn. by rewrite Hn.
  - apply at_node_same. unfold sp. by rewrite Hn.
  - apply at_node_same. unfold keyof. by rewrite Hn.
Qed.

Lemma write_samen h x v : x ∈ dom h -> exists h', write (Some x) (set_samen v) h = Some h' /\
  views h h' (kids h) (at_node x v (sn h)) (sp h) (keyof h).
Proof.
  intros Hx. destruct (write_views h x (set_samen v) Hx) as (n & h' & Hn & E & [V1 V2 V3 V4 V5 V6]);
    [done|]. exists h'. split; [done|]. split; try done; intros y; [rewrite V2|rewrite V4|rewrite V5].
  - apply at_node_same. unfold kids. by rewrite Hn.
  - apply at_node_same. unfold sp. by rewrite Hn.
  - apply at_node_same. unfold keyof. by rewrite Hn.
Qed.

Lemma write_samep h x v : x ∈ dom h -> exists h', write (Some x) (set_samep v) h = Some h' /\
  views h h' (kids h) (sn h) (at_node x v (sp h)) (keyof h).
Proof.
  intros Hx. destruct (write_views h x (set_samep v) Hx) as (n & h' & Hn & E & [V1 V2 V3 V4 V5 V6]);
    [done|]. exists h'. split; [done|]. split; try done; intros y; [rewrite V2|rewrite V3|rewrite V5].
  - apply at_node_same. unfold kids. by rewrite Hn.
  - apply at_node_same. unfold sn. by rewrite Hn.
  - apply at_node_same. unfold keyof. by rewrite Hn.
Qed.

Lemma write_key h x v : x ∈ dom h -> exists h', write (Some x) (set_key v) h = Some h' /\
  views h h' (kids h) (sn h) (sp h) (at_node x (Some v) (keyof h)).
Proof.
  intros Hx. destruct (write_views h x (set_key v) Hx) as (n & h' & Hn & E & [V1 V2 V3 V4 V5 V6]);
    [done|]. exists h'. split; [done|]. split; try done; intros y; [rewrite V2|rewrite V3|rewrite V4].
  - apply at_node_same. unfold kids. by rewrite Hn.
  - apply at_node_same. unfold sn. by rewrite Hn.
  - apply at_node_same. unfold sp. by rewrite Hn.
Qed.

(** * Lists of nodes with the same key *)

Definition linked (h : heap) (a b : loc) : Prop := sn h a = Some b /\ sp h b = Some a.

Fixpoint path (h : heap) (c : list loc) : Prop :=
  match c with
  | a :: ((b :: _) as c') => linked h a b /\ path h c'
  | _ => True
  end.

Definition ring (h : heap) (c : list loc) : Prop := path h (c ++ take 1 c).

Lemma path_cons h a b c : path h (a :: b :: c) <-> linked h a b /\ path h (b :: c).
Proof. done. Qed.

Lemma path_app h l1 a l2 : path h (l1 ++ a :: l2) <-> path h (l1 ++ [a]) /\ path h (a :: l2).
Proof.
  induction l1 as [|b l1 IH]; [cbn; tauto|].
  destruct l1 as [|c l1]; cbn [app] in *; rewrite !path_cons; [cbn; tauto|]. rewrite IH. tauto.
Qed.

Lemma path_ext h h' l z : (forall a, a ∈ l -> sn h' a = sn h a) ->
  (forall b, b ∈ tail (l ++ [z]) -> sp h' b = sp h b) -> path h (l ++ [z]) -> path h' (l ++ [z]).
Proof.
  induction l as [|a l IH]; [done|]. intros H1 H2.
  destruct l as [|b l]; cbn [app] in *; rewrite !path_cons; intros [[L1 L2] Hp].
  - split; [|done]. split; [rewrite H1; [done|left]|rewrite H2; [done|left]].
  - split.
    + split; [rewrite H1; [done|left]|rewrite H2; [done|left]].
    + apply IH; [intros x Hx; apply H1; by right|intros x Hx; apply H2; by right|done].
Qed.

Lemma ring_ext h h' c : (forall a, a ∈ c -> sn h' a = sn h a /\ sp h' a = sp h a) ->
  ring h c -> ring h' c.
Proof.
  intros H. unfold ring. destruct c as [|x c]; [done|]. cbn [take]. apply path_ext.
  - intros a Ha. by apply H.
  - intros b Hb. cbn in Hb. rewrite elem_of_app, list_elem_of_singleton in Hb.
    apply H. apply elem_of_cons. tauto.
Qed.

Lemma ring_single h x : sn h x = Some x -> sp h x = Some x -> ring h [x].
Proof. by split. Qed.

(** The last node of a ring is the one before its first. *)
Lemma ring_last h x c z l : ring h (x :: c) -> x :: c = l ++ [z] -> sn h z = Some x /\ sp h x = Some z.
Proof.
  unfold ring. cbn [take]. intros H E. rewrite E, <- app_assoc in H. cbn [app] in H.
  apply path_app in H as [_ H]. by apply path_cons in H as [H _].
Qed.

(** Appending to a ring. *)
Lemma ring_append h h' x c y z l : ring h (x :: c) -> x :: c = l ++ [z] -> NoDup (x :: c) ->
  y ∉ x :: c ->
  (forall a, sn h' a = if decide (a = y) then Some x else if decide (a = z) then Some y else sn h a) ->
  (forall a, sp h' a = if decide (a = y) then Some z else if decide (a = x) then Some y else sp h a) ->
  ring h' (x :: c ++ [y]).
Proof.
  intros Hr E Hnd Hy Hn Hp. unfold ring in Hr. cbn [take] in Hr.
  change (ring h' (x :: c ++ [y])) with (path h' (((x :: c) ++ [y]) ++ [x])).
  assert (Hz : z ∈ x :: c) by (rewrite E; apply elem_of_app; right; left).
  assert (Hzy : z <> y) by congruence.
  assert (Hxy : x <> y) by (intros ->; apply Hy; left).
  rewrite E, <- ?app_assoc in *. cbn [app] in *.
  apply path_app in Hr as [Hr _]. apply path_app. split.
  - apply (path_ext h); [| |done].
    + intros a Ha. rewrite Hn, !decide_False; [done| |].
      * intros ->. apply NoDup_app in Hnd as (_ & Hd & _). apply (Hd z Ha). left.
      * intros ->. apply Hy. apply elem_of_app. by left.
    + intros b Hb. rewrite <- E in Hb, Hnd. cbn in Hb. apply NoDup_cons in Hnd as [Hx _].
      rewrite Hp, !decide_False; [done|by intros ->|]. intros ->. apply Hy. rewrite <- E. by right.
  - apply path_cons. split; [|apply path_cons; split; [|done]].
    + split; [by rewrite Hn, decide_False, decide_True|by rewrite Hp, decide_True].
    + split; [by rewrite Hn, decide_True|by rewrite Hp, decide_False, decide_True].
Qed.

(** The second node takes the place of the first. *)
Lemma ring_tail h h' x y c z l : ring h (x :: y :: c) -> y :: c = l ++ [z] -> NoDup (x :: y :: c) ->
  (forall a, sn h' a = if decide (a = z) then Some y else sn h a) ->
  (forall a, sp h' a = if decide (a = y) then Some z else sp h a) ->
  ring h' (y :: c).
Proof.
  intros Hr E Hnd Hn Hp. apply NoDup_cons in Hnd as [Hx Hnd].
  change (ring h (x :: y :: c)) with (path h (x :: y :: c ++ [x])) in Hr. apply path_cons in Hr as [_ Hr].
  change (y :: c ++ [x]) with ((y :: c) ++ [x]) in Hr.
  change (ring h' (y :: c)) with (path h' ((y :: c) ++ [y])).
  pose proof Hnd as Hy. apply NoDup_cons in Hy as [Hy _].
  rewrite E, <- app_assoc in *. cbn [app] in *. apply path_app in Hr as [Hr _].
  apply path_app. split; [|split; [split; [by rewrite Hn, decide_True|by rewrite Hp, decide_True]|done]].
  apply (path_ext h); [| |done].
  - intros a Ha. rewrite Hn, decide_False; [done|]. intros ->.
    apply NoDup_app in Hnd as (_ & Hd & _). apply (Hd z Ha). left.
  - intros b Hb. rewrite <- E in Hb. cbn in Hb. rewrite Hp, decide_False; [done|]. by intros ->.
Qed.

(** Unlinking a node that is not the first. *)
Lemma ring_unlink h h' x c1 s c2 a b : ring h (x :: c1 ++ s :: c2) -> NoDup (x :: c1 ++ s :: c2) ->
  sp h s = Some a -> sn h s = Some b ->
  (forall y, sn h' y = if decide (y = s) then Some s else if decide (y = a) then Some b else sn h y) ->
  (forall y, sp h' y = if decide (y = b) then Some a else sp h y) ->
  ring h' (x :: c1 ++ c2) /\ a ∈ x :: c1 /\ b ∈ c2 ++ [x].
Proof.
  intros Hr Hnd Ha Hb Hn Hp.
  destruct (exists_last (l := x :: c1)) as (l & z & E); [done|].
  change (ring h (x :: c1 ++ s :: c2)) with (path h (((x :: c1) ++ s :: c2) ++ [x])) in Hr.
  change (ring h' (x :: c1 ++ c2)) with (path h' (((x :: c1) ++ c2) ++ [x])).
  change (x :: c1 ++ s :: c2) with ((x :: c1) ++ s :: c2) in Hnd.
  assert (Hxh : x ∈ l ++ [z] /\ ~ (x ∈ tail (l ++ [z])) /\ x <> s /\ ~ (x ∈ c2)).
  { rewrite <- E. cbn [tail]. apply NoDup_cons in Hnd as [Hx _].
    rewrite elem_of_app, elem_of_cons in Hx. split; [left|]. split; [tauto|]. split; tauto. }
  rewrite E, <- !app_assoc in *. cbn [app] in *.
  apply path_app in Hr as [Hr1 Hr]. apply path_cons in Hr as [[L1 L2] Hr].
  assert (a = z) as -> by congruence.
  destruct (c2 ++ [x]) as [|b' r] eqn:Er; [by destruct c2|].
  apply path_cons in Hr as [[L3 L4] Hr]. assert (b' = b) as -> by congruence.
  assert (Hbr : b ∈ c2 ++ [x]) by (rewrite Er; left).
  apply NoDup_app in Hnd as (Nl & Dl & Hnd). apply NoDup_cons in Hnd as [Dz Hnd].
  apply NoDup_cons in Hnd as [Ds Hnd].
  assert (Hz : z <> s) by (intros ->; apply Dz; left).
  assert (Hbs : b <> s).
  { intros ->. apply elem_of_app in Hbr as [?| ->%list_elem_of_singleton]; [done|tauto]. }
  split; [|split; [apply elem_of_app; right; left|left]].
  apply path_app. split; [|apply path_cons; split].
  - apply (path_ext h); [| |done].
    + intros y Hy. specialize (Dl y Hy). rewrite !elem_of_cons in Dl. rewrite Hn, !decide_False by tauto.
      done.
    + intros y Hy. rewrite Hp, decide_False; [done|]. intros ->.
      apply elem_of_app in Hbr as [Hbc| ->%list_elem_of_singleton]; [|tauto].
      assert (b ∈ l ++ [z]) as Hin by (destruct l; [by apply elem_of_nil in Hy|by right]).
      apply elem_of_app in Hin as [Hin| ->%list_elem_of_singleton].
      * specialize (Dl b Hin). rewrite !elem_of_cons in Dl. tauto.
      * apply Dz. by right.
  - split; [by rewrite Hn, decide_False, decide_True|by rewrite Hp, decide_True].
  - rewrite <- Er in *. apply (path_ext h); [| |done].
    + intros y Hy. rewrite Hn, !decide_False; [done| |].
      * intros ->. apply Dz. by right.
      * by intros ->.
    + intros y Hy. rewrite Hp, decide_False; [done|]. intros ->. rewrite Er in Hy. cbn in Hy.
      destruct c2 as [|d c2]; cbn in Er; injection Er as -> Er; subst r.
      * by apply elem_of_nil in Hy.
      * apply NoDup_cons in Hnd as [Hd _]. rewrite elem_of_app, list_elem_of_singleton in Hy.
        destruct Hy as [Hy|Hy]; [done|]. subst. destruct Hxh as (_ & _ & _ & Hxc). apply Hxc. left.
Qed.

(** * Times as keys *)

Lemma compare_spec a b : valid_time a -> valid_time b ->
  Z.sgn (splay_compare a b) = Z.sgn (ktime a - ktime b).
Proof. apply ptimediff_us_sgn. Qed.

Lemma compare_subnode b : valid_time b -> (splay_compare SPLAY_SUBNODE b =? 0) = false.
Proof.
  intros [Hb Hb2]. unfold splay_compare, curlx_ptimediff_us.
  change (tv_sec SPLAY_SUBNODE) with (-1). change (tv_usec SPLAY_SUBNODE) with (-1).
  change (Z.quot TIMEDIFF_T_MAX 1000000) with 9223372036854.
  change (Z.quot TIMEDIFF_T_MIN 1000000) with (-9223372036854). rewrite Z.geb_leb.
  apply Z.eqb_neq. destruct (Z.leb_spec 9223372036854 (-1 - tv_sec b)); [lia|].
  destruct (Z.leb_spec (-1 - tv_sec b) (-9223372036854)); [done|lia].
Qed.

(** * The timer queue

    Groups of nodes with the same time, in the order of the times; the nodes
    of a group in the order they came. *)

Definition queue := list (Z * list loc).

Definition roots (q : queue) : list loc := omap (fun kg => head kg.2) q.

Definition members (q : queue) : list loc := concat (map snd q).

Definition group_ok (h : heap) (kg : Z * list loc) : Prop :=
  exists x ss, kg.2 = x :: ss /\ ring h (x :: ss) /\
    (exists t, keyof h x = Some t /\ valid_time t /\ ktime t = kg.1) /\
    (forall y, y ∈ ss -> keyof h y = Some SPLAY_SUBNODE).

Definition by_time (a b : Z * list loc) : Prop := a.1 < b.1.

Record groups_ok (h : heap) (q : queue) : Prop := {
  q_groups : Forall (group_ok h) q;
  q_sorted : StronglySorted by_time q;
  q_nodup : NoDup (members q);
}.

Definition queue_rep (h : heap) (p : option loc) (q : queue) : Prop :=
  groups_ok h q /\ exists T, tree_at h p T /\ inorder T = roots q.

Lemma roots_app q1 q2 : roots (q1 ++ q2) = roots q1 ++ roots q2.
Proof. apply omap_app. Qed.

Lemma members_app q1 q2 : members (q1 ++ q2) = members q1 ++ members q2.
Proof. unfold members. by rewrite map_app, concat_app. Qed.

Lemma group_ok_ext h h' kg : (forall y, y ∈ kg.2 -> sn h' y = sn h y /\ sp h' y = sp h y /\
    keyof h' y = keyof h y) -> group_ok h kg -> group_ok h' kg.
Proof.
  intros H (x & ss & E & Hr & (t & Ht & Hv) & Hss). exists x, ss. rewrite E in H. split; [done|].
  split; [|split].
  - apply (ring_ext h); [|done]. intros y Hy. by destruct (H y Hy) as (? & ? & _).
  - exists t. destruct (H x) as (_ & _ & ->); [left|]. done.
  - intros y Hy. destruct (H y) as (_ & _ & ->); [by right|]. by apply Hss.
Qed.

Lemma groups_ok_ext h h' q : (forall y, y ∈ members q -> sn h' y = sn h y /\ sp h' y = sp h y /\
    keyof h' y = keyof h y) -> Forall (group_ok h) q -> Forall (group_ok h') q.
Proof.
  induction q as [|[K g] q IH]; [done|]. intros H Hq.
  change (members ((K, g) :: q)) with (g ++ members q) in H. apply Forall_cons in Hq as [Hg Hq].
  constructor.
  - eapply group_ok_ext; [|exact Hg]. intros y Hy. apply H, elem_of_app. by left.
  - apply IH; [|done]. intros y Hy. apply H, elem_of_app. by right.
Qed.

(** The time of a node of the tree. *)
Definition node_time (h : heap) (x : loc) : Z :=
  match keyof h x with Some t => ktime t | None => 0 end.

Lemma roots_time h q : Forall (group_ok h) q -> forall x, x ∈ roots q ->
  exists kg, kg ∈ q /\ node_time h x = kg.1 /\ head kg.2 = Some x /\
    exists t, keyof h x = Some t /\ valid_time t.
Proof.
  intros Hq x Hx. apply list_elem_of_omap in Hx as (kg & Hkg & Hh). exists kg. split; [done|].
  rewrite Forall_forall in Hq. destruct (Hq kg Hkg) as (y & ss & E & _ & (t & Ht & Hv & Hk) & _).
  rewrite E in Hh. injection Hh as ->. unfold node_time. rewrite Ht. rewrite E.
  split; [done|]. split; [done|]. by exists t.
Qed.

Lemma sorted_roots h q : Forall (group_ok h) q -> StronglySorted by_time q ->
  StronglySorted (before (node_time h)) (roots q).
Proof.
  intros Hq Hs. induction Hs as [|kg q Hs IH Hlt]; [constructor|].
  apply Forall_cons in Hq as [Hg Hq]. specialize (IH Hq).
  destruct Hg as (x & ss & E & _ & (t & Ht & Hv & Hk) & _). unfold roots. cbn [omap list_omap].
  rewrite E. cbn [head]. constructor; [done|]. apply Forall_forall. intros y Hy.
  destruct (roots_time h q Hq y Hy) as (kg' & Hkg' & Ey & _). unfold before. rewrite Ey.
  unfold node_time. rewrite Ht, Hk. rewrite Forall_forall in Hlt. by apply Hlt.
Qed.

Lemma roots_split h q l1 x l2 : Forall (group_ok h) q -> roots q = l1 ++ x :: l2 ->
  exists q1 K ss q2, q = q1 ++ (K, x :: ss) :: q2 /\ roots q1 = l1 /\ roots q2 = l2.
Proof.
  revert l1. induction q as [|[K g] q IH]; intros l1 Hq E; [by destruct l1|].
  apply Forall_cons in Hq as [(y & ss & Eg & _) Hq]. cbn [snd] in Eg. subst g.
  cbn in E. destruct l1 as [|z l1]; injection E as -> E.
  - by exists [], K, ss, q.
  - destruct (IH l1 Hq E) as (q1 & K' & ss' & q2 & -> & E1 & E2).
    exists ((K, z :: ss) :: q1), K', ss', q2. split; [done|].
    split; [|done]. change (roots ((K, z :: ss) :: q1)) with (z :: roots q1). by rewrite E1.
Qed.

Lemma roots_members q x : x ∈ roots q -> x ∈ members q.
Proof.
  induction q as [|[K g] q IH]; [done|]. unfold roots. cbn [omap list_omap snd].
  change (members ((K, g) :: q)) with (g ++ members q). rewrite elem_of_app.
  destruct g as [|y g]; cbn [head]; [right; by apply IH|].
  intros [->|H]%elem_of_cons; [left; left|right; by apply IH].
Qed.

(** Splaying a queue. *)
Lemma splay_queue h p q pkey : queue_rep h p q -> q <> [] -> valid_time pkey ->
  exists h' a x b q1 K ss q2, Curl_splay pkey p h = Some (h', Some x) /\
    q = q1 ++ (K, x :: ss) :: q2 /\ groups_ok h' q /\
    tree_at h' (Some x) (Node a x b) /\ inorder a = roots q1 /\ inorder b = roots q2 /\
    (forall kg, kg ∈ q1 -> kg.1 < ktime pkey) /\ (forall kg, kg ∈ q2 -> ktime pkey < kg.1) /\
    (forall y, rest h' y = rest h y) /\ (forall y, y ∉ roots q -> kids h' y = kids h y).
Proof.
  intros [[Hq Hs Hnd] (T & Ht & ET)] Hne Hv.
  destruct (splay_spec (node_time h) (ktime pkey) pkey h p T Ht) as
    (h' & a & x & b & E & Ht' & Ei & Hre & Hk & Ha & Hb).
  - intros ->. destruct q as [|kg q]; [done|]. apply Forall_cons in Hq as [(y & ss & Eg & _) _].
    unfold roots in ET. cbn in ET. rewrite Eg in ET. cbn in ET. done.
  - rewrite ET. by apply sorted_roots.
  - rewrite ET. intros y Hy. destruct (roots_time h q Hq y Hy) as (kg & _ & _ & _ & t & Hkt & Hvt).
    unfold keyof in Hkt. destruct (h !! y) as [n|] eqn:Hn; [|done]. cbn in Hkt. injection Hkt as Hkt.
    exists n. split; [done|]. unfold node_time, keyof. rewrite Hn. cbn. rewrite Hkt.
    by apply compare_spec.
  - pose proof Ei as Ei2. cbn [inorder] in Ei2. rewrite ET in Ei2. symmetry in Ei2.
    destruct (roots_split h q _ _ _ Hq Ei2) as (q1 & K & ss & q2 & Eq & E1 & E2).
    destruct (views_rest h h' Hre) as (_ & Vn & Vp & Vk & _).
    exists h', a, x, b, q1, K, ss, q2. split; [done|]. split; [done|]. split.
    { split; [|done|done]. apply (groups_ok_ext h); [|done]. intros y _. by rewrite Vn, Vp, Vk. }
    split; [done|]. split; [done|]. split; [done|].
    assert (Htime : forall kg, kg ∈ q -> exists y, head kg.2 = Some y /\ node_time h y = kg.1).
    { intros kg Hkg. rewrite Forall_forall in Hq.
      destruct (Hq kg Hkg) as (y & ys & Ey & _ & (t & Hkt & _ & Hkk) & _). exists y. rewrite Ey.
      split; [done|]. unfold node_time. by rewrite Hkt. }
    split; [|split; [|split; [done|]]].
    + intros kg Hkg. destruct (Htime kg) as (y & Hy & <-); [rewrite Eq; apply elem_of_app; by left|].
      apply Ha. rewrite <- E1. apply list_elem_of_omap. by exists kg.
    + intros kg Hkg. destruct (Htime kg) as (y & Hy & <-);
        [rewrite Eq; apply elem_of_app; right; by right|].
      apply Hb. rewrite <- E2. apply list_elem_of_omap. by exists kg.
    + by rewrite <- ET.
Qed.

(** * The abstract operations *)

Fixpoint q_insert (K : Z) (x : loc) (q : queue) : queue :=
  match q with
  | [] => [(K, [x])]
  | (K', g) :: q' =>
      if K <? K' then (K, [x]) :: q
      else if K =? K' then (K', g ++ [x]) :: q'
      else (K', g) :: q_insert K x q'
  end.

(** The first node, when its time has come. *)
Definition q_best (K : Z) (q : queue) : option loc * queue :=
  match q with
  | (K0, x :: ss) :: q' =>
      if K <? K0 then (None, q)
      else (Some x, match ss with [] => q' | _ => (K0, ss) :: q' end)
  | _ => (None, q)
  end.

Fixpoint q_remove (x : loc) (q : queue) : queue :=
  match q with
  | [] => []
  | (K, g) :: q' =>
      if decide (x ∈ g) then
        match filter (fun y => y <> x) g with [] => q' | g' => (K, g') :: q' end
      else (K, g) :: q_remove x q'
  end.

Lemma q_insert_skip K x q1 q2 : (forall kg, kg ∈ q1 -> kg.1 < K) ->
  q_insert K x (q1 ++ q2) = q1 ++ q_insert K x q2.
Proof.
  induction q1 as [|[K' g] q1 IH]; intros H; [done|]. cbn [app q_insert].
  pose proof (H (K', g) ltac:(left)) as HK. cbn in HK.
  destruct (Z.ltb_spec K K'); [lia|]. destruct (Z.eqb_spec K K'); [lia|].
  rewrite IH; [done|]. intros kg Hkg. apply H. by right.
Qed.

Lemma q_insert_here K x q : (forall kg, kg ∈ q -> K < kg.1) -> q_insert K x q = (K, [x]) :: q.
Proof.
  destruct q as [|[K' g] q]; intros H; [done|]. cbn [q_insert].
  pose proof (H (K', g) ltac:(left)) as HK. cbn in HK.
  destruct (Z.ltb_spec K K'); [done|lia].
Qed.

Lemma q_remove_skip x q1 q2 : x ∉ members q1 -> q_remove x (q1 ++ q2) = q1 ++ q_remove x q2.
Proof.
  induction q1 as [|[K g] q1 IH]; intros H; [done|].
  change (members ((K, g) :: q1)) with (g ++ members q1) in H. rewrite elem_of_app in H.
  cbn [app q_remove]. rewrite decide_False by tauto. rewrite IH by tauto. done.
Qed.

Lemma filter_ne_absent (x : loc) (g : list loc) : x ∉ g -> filter (fun y => y <> x) g = g.
Proof.
  induction g as [|y g IH]; intros H; [done|]. rewrite elem_of_cons in H.
  rewrite filter_cons, decide_True by (intros ->; tauto). f_equal. tauto.
Qed.

(** * A fresh group *)

(** Rewrites a view of the heap to the heap before the writes. *)
Ltac view_rw :=
  repeat (match goal with
  | V : views _ ?h' _ _ _ _ |- context [kids ?h' _] => rewrite !(v_kids _ _ _ _ _ _ V)
  | V : views _ ?h' _ _ _ _ |- context [sn ?h' _] => rewrite !(v_sn _ _ _ _ _ _ V)
  | V : views _ ?h' _ _ _ _ |- context [sp ?h' _] => rewrite !(v_sp _ _ _ _ _ _ V)
  | V : views _ ?h' _ _ _ _ |- context [keyof ?h' _] => rewrite !(v_key _ _ _ _ _ _ V)
  | V : views _ ?h' _ _ _ _ |- context [payload ?h' _] => rewrite !(v_payload _ _ _ _ _ _ V)
  | V : views _ ?h' _ _ _ _ |- context [dom ?h'] => rewrite !(v_dom _ _ _ _ _ _ V)
  end; unfold at_node).

(** Runs the write of the goal with its lemma. *)
Ltac run_write lem V :=
  match goal with
  | |- context [write (Some ?x) (_ ?v) ?h] =>
      let h' := fresh "h" in let E := fresh "E" in
      destruct (lem h x v) as (h' & E & V);
      [view_rw; try done|rewrite E; clear E; cbn [mbind option_bind]]
  end.

Lemma fresh_group h node pkey : node ∈ dom h -> valid_time pkey ->
  exists h', insert_fresh pkey node h = Some (h', Some node) /\
    views h h' (kids h) (at_node node (Some node) (sn h)) (at_node node (Some node) (sp h))
      (at_node node (Some pkey) (keyof h)) /\
    group_ok h' (ktime pkey, [node]).
Proof.
  intros Hd Hv. unfold insert_fresh.
  run_write write_key V1. run_write write_samen V2. run_write write_samep V3.
  eexists. split; [reflexivity|]. split.
  - split; try intros y; view_rw; try done.
  - exists node, []. split; [done|]. split; [|split].
    + apply ring_single; view_rw; by rewrite decide_True.
    + exists pkey. split; [view_rw; by rewrite decide_True|done].
    + intros y Hy. by apply elem_of_nil in Hy.
Qed.

Lemma members_perm_mid q1 K g q2 : members (q1 ++ (K, g) :: q2) ≡ₚ g ++ members (q1 ++ q2).
Proof.
  rewrite !members_app. change (members ((K, g) :: q2)) with (g ++ members q2).
  rewrite !app_assoc. by rewrite (Permutation_app_comm (members q1) g).
Qed.

(** A group put between the others. *)
Lemma groups_insert h q1 K g q2 : groups_ok h (q1 ++ q2) -> group_ok h (K, g) ->
  (forall kg, kg ∈ q1 -> kg.1 < K) -> (forall kg, kg ∈ q2 -> K < kg.1) ->
  NoDup g -> (forall y, y ∈ g -> y ∉ members (q1 ++ q2)) ->
  groups_ok h (q1 ++ (K, g) :: q2).
Proof.
  intros [Hq Hs Hnd] Hg H1 H2 Hndg Hout. apply Forall_app in Hq as [Hq1 Hq2]. split.
  - apply Forall_app. split; [done|]. by constructor.
  - apply sorted_mid. split; [|split; [by apply sorted_suffix in Hs|split; [|split]]].
    + clear - Hs. induction q1 as [|a q1 IH]; [constructor|]. cbn in Hs.
      apply StronglySorted_inv in Hs as [Hs Ha]. apply Forall_app in Ha as [Ha _].
      constructor; [by apply IH|done].
    + apply Forall_forall. intros kg Hkg. by apply H1.
    + apply Forall_forall. intros kg Hkg. by apply H2.
    + intros d e Hd He. specialize (H1 d Hd). specialize (H2 e He). unfold by_time. lia.
  - rewrite members_perm_mid. apply NoDup_app. split; [done|]. split; [done|done].
Qed.

(** The groups around one group. *)
Lemma groups_around h q1 K g q2 : groups_ok h (q1 ++ (K, g) :: q2) ->
  groups_ok h (q1 ++ q2) /\ group_ok h (K, g) /\
  (forall kg, kg ∈ q1 -> kg.1 < K) /\ (forall kg, kg ∈ q2 -> K < kg.1) /\
  NoDup g /\ (forall y, y ∈ g -> y ∉ members (q1 ++ q2)).
Proof.
  intros [Hq Hs Hnd]. apply Forall_app in Hq as [Hq1 Hq2]. apply Forall_cons in Hq2 as [Hg Hq2].
  apply sorted_mid in Hs as (H1 & H2 & H3 & H4 & H5). rewrite members_perm_mid in Hnd.
  apply NoDup_app in Hnd as (N1 & N2 & N3). rewrite Forall_forall in H3, H4.
  split; [|by repeat split].
  split; [by apply Forall_app| |done].
  clear - H1 H2 H5. induction q1 as [|a q1 IH]; [done|]. apply StronglySorted_inv in H1 as [H1 Ha].
  cbn. constructor.
  - apply IH; [done|]. intros d e Hd. apply H5. by right.
  - apply Forall_app. split; [done|]. apply Forall_forall. intros e He. apply H5; [left|done].
Qed.

Lemma keyof_load h x t : keyof h x = Some t -> exists n, h !! x = Some n /\ key n = t.
Proof. unfold keyof. destruct (h !! x) as [n|]; cbn; [|done]. intros [= <-]. by exists n. Qed.

Lemma load_views h x n : h !! x = Some n -> sn h x = samen n /\ sp h x = samep n /\
  keyof h x = Some (key n) /\ kids h x = Some (smaller n, larger n).
Proof. intros E. unfold sn, sp, keyof, kids. by rewrite E. Qed.

Lemma sn_dom h x y : sn h x = Some y -> x ∈ dom h.
Proof. unfold sn. intros E. apply elem_of_dom. destruct (h !! x); [by eexists|done]. Qed.

Lemma sp_dom h x y : sp h x = Some y -> x ∈ dom h.
Proof. unfold sp. intros E. apply elem_of_dom. destruct (h !! x); [by eexists|done]. Qed.

(** The root of a splayed queue and the ring it heads. *)
Lemma root_node h q1 K x ss q2 : groups_ok h (q1 ++ (K, x :: ss) :: q2) ->
  exists n l z, h !! x = Some n /\ valid_time (key n) /\ ktime (key n) = K /\
    x :: ss = l ++ [z] /\ samep n = Some z /\ samen n = Some (default x (head ss)) /\
    sn h z = Some x /\ ring h (x :: ss) /\ (forall y, y ∈ ss -> keyof h y = Some SPLAY_SUBNODE).
Proof.
  intros H. apply groups_around in H as (_ & (x' & ss' & [= <- <-] & Hr & (t & Ht & Hv & HK) & Hss) & _).
  apply keyof_load in Ht as (n & Hn & <-). destruct (exists_last (l := x :: ss)) as (l & z & E); [done|].
  destruct (ring_last h x ss z l Hr E) as [H1 H2]. destruct (load_views h x n Hn) as (E1 & E2 & _).
  exists n, l, z. split; [done|]. split; [done|]. split; [done|]. split; [done|].
  split; [congruence|]. split; [|done]. rewrite <- E1. destruct ss as [|y ss]; [|by destruct Hr as [[Hxy _] _]].
  destruct l as [|? [|? l]]; try done. injection E as ->. done.
Qed.

Lemma group_append h h' K x ss z l node : group_ok h (K, x :: ss) -> x :: ss = l ++ [z] ->
  NoDup (x :: ss) -> node ∉ x :: ss ->
  views h h' (kids h) (at_node z (Some node) (at_node node (Some x) (sn h)))
    (at_node x (Some node) (at_node node (Some z) (sp h)))
    (at_node node (Some SPLAY_SUBNODE) (keyof h)) ->
  group_ok h' (K, (x :: ss) ++ [node]).
Proof.
  intros (x' & ss' & [= <- <-] & Hr & (t & Ht & Hv) & Hss) E Hnd Hn V.
  assert (Hz : z <> node) by (intros ->; apply Hn; rewrite E; apply elem_of_app; right; left).
  assert (Hx : x <> node) by (intros ->; apply Hn; left).
  exists x, (ss ++ [node]). split; [done|]. split; [|split].
  - apply (ring_append h h' x ss node z l); try done; intros a; view_rw; repeat case_decide; congruence.
  - exists t. view_rw. by rewrite decide_False.
  - intros y Hy. view_rw. case_decide as Ey; [done|].
    apply elem_of_app in Hy as [Hy| ->%list_elem_of_singleton]; [by apply Hss|done].
Qed.

(** The root's subtrees. *)
Lemma tree_kids h x n a b : h !! x = Some n -> tree_at h (Some x) (Node a x b) ->
  tree_at h (smaller n) a /\ tree_at h (larger n) b.
Proof. intros Hn (_ & s & g & E & Ha & Hb). rewrite (load_kids _ _ _ Hn) in E. by injection E as <- <-. Qed.

Lemma groups_ok_views h h' q (l : list loc) : groups_ok h q -> (forall y, y ∈ l -> ~ (y ∈ members q)) ->
  (forall y, ~ (y ∈ l) -> sn h' y = sn h y /\ sp h' y = sp h y /\ keyof h' y = keyof h y) ->
  groups_ok h' q.
Proof.
  intros [H1 H2 H3] Hl H. split; [|done|done]. apply (groups_ok_ext h); [|done].
  intros y Hy. apply H. intros Hin. by apply (Hl y).
Qed.

Lemma tree_at_off h h' p T (l : list loc) : tree_at h p T -> (forall y, y ∈ l -> ~ (y ∈ inorder T)) ->
  (forall y, ~ (y ∈ l) -> kids h' y = kids h y) -> tree_at h' p T.
Proof. intros Ht Hl H. eapply tree_at_ext; [|exact Ht]. intros y Hy. apply H. intros Hin. by apply (Hl y). Qed.

(** What an operation leaves as it was: the nodes allocated and what they carry. *)
Definition same_nodes (h h' : heap) : Prop :=
  dom h' = dom h /\ forall y, payload h' y = payload h y.

Lemma same_nodes_trans h1 h2 h3 : same_nodes h1 h2 -> same_nodes h2 h3 -> same_nodes h1 h3.
Proof. intros [A B] [C D]. split; [congruence|]. intros y. by rewrite D, B. Qed.

Lemma same_nodes_rest h h' : (forall y, rest h' y = rest h y) -> same_nodes h h'.
Proof. intros H. by destruct (views_rest h h' H) as (H1 & _ & _ & _ & H2). Qed.

Lemma same_nodes_views h h' fk fn fp fy : views h h' fk fn fp fy -> same_nodes h h'.
Proof. by intros []. Qed.

Ltac not_member := let y := fresh "y" in let Hy := fresh "Hy" in
  intros y Hy; rewrite ?elem_of_cons, ?elem_of_nil in Hy; destruct_or? Hy; subst; eauto; done.

(** Insertion next to the root of a splayed queue. *)
Lemma insert_root_spec h q1 K x ss q2 a b node pkey : groups_ok h (q1 ++ (K, x :: ss) :: q2) ->
  tree_at h (Some x) (Node a x b) -> inorder a = roots q1 -> inorder b = roots q2 ->
  (forall kg, kg ∈ q1 -> kg.1 < ktime pkey) -> (forall kg, kg ∈ q2 -> ktime pkey < kg.1) ->
  node ∈ dom h -> ~ (node ∈ members (q1 ++ (K, x :: ss) :: q2)) -> valid_time pkey ->
  exists h' p', insert_root pkey (Some x) node h = Some (h', p') /\
    queue_rep h' p' (q_insert (ktime pkey) node (q1 ++ (K, x :: ss) :: q2)) /\ same_nodes h h'.
Proof.
  intros Hg Ht Ea Eb H1 H2 Hd Hnm Hv.
  destruct (root_node h q1 K x ss q2 Hg) as (n & l & z & Hn & Hkv & HK & El & Ep & En & Ez & Hr & Hss).
  destruct (groups_around h q1 K (x :: ss) q2 Hg) as (Hg0 & Gx & HL & HR & Hnd & Hout).
  assert (Hnx : ~ (node ∈ x :: ss) /\ ~ (node ∈ members (q1 ++ q2))).
  { rewrite members_perm_mid, elem_of_app in Hnm. tauto. }
  destruct Hnx as [Hnx Hnq].
  destruct (tree_kids h x n a b Hn Ht) as [Ha Hb].
  assert (Hab : forall y, y ∈ [x; node] -> ~ (y ∈ inorder a) /\ ~ (y ∈ inorder b)).
  { assert (Hin : forall y, ~ (y ∈ members (q1 ++ q2)) -> ~ (y ∈ inorder a) /\ ~ (y ∈ inorder b)).
    { intros y Hy. rewrite members_app, elem_of_app in Hy. rewrite Ea, Eb.
      split; intros Hin%roots_members; tauto. }
    intros y. rewrite !elem_of_cons, elem_of_nil. intros [->|[->|[]]]; apply Hin; [|done].
    apply Hout. left. }
  rewrite q_insert_skip by done. unfold insert_root, load. cbn [mbind option_bind]. rewrite Hn.
  cbn [mbind option_bind]. pose proof (compare_spec pkey (key n) Hv Hkv) as Hcmp. rewrite HK in Hcmp.
  cbn [q_insert]. rewrite Ep.
  assert (Hxd : x ∈ dom h) by (apply elem_of_dom; by exists n).
  assert (Hzd : z ∈ dom h) by (by apply sn_dom in Ez).
  assert (Hxn : x <> node) by (intros ->; apply Hnx; left).
  destruct (Z.eqb_spec (splay_compare pkey (key n)) 0) as [E0|E0];
    [|destruct (Z.ltb_spec (splay_compare pkey (key n)) 0)].
  - assert (ktime pkey = K) as HK' by lia. rewrite HK', Z.ltb_irrefl, Z.eqb_refl.
    run_write write_key V1. run_write write_samen V2. run_write write_samep V3.
    run_write write_samen V4. run_write write_samep V5.
    assert (V : views h h4 (kids h) (at_node z (Some node) (at_node node (Some x) (sn h)))
      (at_node x (Some node) (at_node node (Some z) (sp h))) (at_node node (Some SPLAY_SUBNODE) (keyof h))).
    { split; try intros y; view_rw; done. }
    do 2 eexists. split; [reflexivity|]. split; [|by eapply same_nodes_views].
    split.
    + apply groups_insert; [|by apply (group_append h h4 K x ss z l node)|done|done| |].
      * apply (groups_ok_views h _ _ (node :: x :: ss) Hg0).
        { intros y [->|Hy]%elem_of_cons; [done|by apply Hout]. }
        intros y Hy. assert (y <> z) by (intros ->; apply Hy; rewrite El; right; apply elem_of_app; right; left).
        rewrite !elem_of_cons in Hy. view_rw. rewrite !decide_False by tauto. done.
      * apply NoDup_app. split; [done|]. split; [|by apply NoDup_singleton].
        intros y Hy Hyn. apply list_elem_of_singleton in Hyn. by subst.
      * intros y [Hy| ->%list_elem_of_singleton]%elem_of_app; [by apply Hout|done].
    + exists (Node a x b). split.
      * eapply tree_at_ext; [|exact Ht]. intros y _. by view_rw.
      * rewrite roots_app. cbn [inorder]. by rewrite Ea, Eb.
  - assert (ktime pkey < K) as HK' by lia. destruct (Z.ltb_spec (ktime pkey) K); [|lia].
    run_write write_smaller V1. run_write write_larger V2. run_write write_smaller V3.
    destruct (fresh_group h2 node pkey) as (h' & E & V4 & G); [view_rw; done|done|].
    rewrite E. clear E. do 2 eexists. split; [reflexivity|].
    split; [split|split; [by view_rw|intros y; by view_rw]].
    + apply groups_insert; [|done|done| | |].
      * apply (groups_ok_views h _ _ [node] Hg); [not_member|].
        intros y Hy. rewrite list_elem_of_singleton in Hy. view_rw. by rewrite !decide_False.
      * intros kg [->|Hkg]%elem_of_cons; [done|]. by apply H2.
      * apply NoDup_singleton.
      * not_member.
    + exists (Node a node (Node Leaf x b)). split; [|rewrite roots_app; cbn [inorder]; by rewrite Ea, Eb].
      assert (Hoff : forall y, ~ (y ∈ [x; node]) -> kids h' y = kids h y).
      { intros y Hy. rewrite !elem_of_cons in Hy. view_rw. by rewrite !decide_False by tauto. }
      split; [done|]. exists (smaller n), (Some x). split; [|split].
      * view_rw. rewrite !(decide_True _ _ (eq_refl node)), !decide_False by congruence.
        apply elem_of_dom in Hd as [m Hm]. by rewrite (load_kids _ _ _ Hm).
      * apply (tree_at_off h _ _ _ [x; node] Ha); [|done]. intros y Hy. by apply Hab.
      * split; [done|]. exists None, (larger n). split; [|split; [done|]].
        { view_rw. rewrite !decide_True, !decide_False by done. by rewrite (load_kids _ _ _ Hn). }
        apply (tree_at_off h _ _ _ [x; node] Hb); [|done]. intros y Hy. by apply Hab.
  - assert (K < ktime pkey) as HK' by lia.
    destruct (Z.ltb_spec (ktime pkey) K); [lia|]. destruct (Z.eqb_spec (ktime pkey) K); [lia|].
    rewrite q_insert_here by done. rewrite (cons_middle (K, x :: ss)), app_assoc.
    run_write write_larger V1. run_write write_smaller V2. run_write write_larger V3.
    destruct (fresh_group h2 node pkey) as (h' & E & V4 & G); [view_rw; done|done|].
    rewrite E. clear E. do 2 eexists. split; [reflexivity|].
    split; [split|split; [by view_rw|intros y; by view_rw]].
    + apply groups_insert; rewrite <- ?app_assoc; [|done| |done| |].
      * apply (groups_ok_views h _ _ [node] Hg); [not_member|].
        intros y Hy. rewrite list_elem_of_singleton in Hy. view_rw. by rewrite !decide_False.
      * intros kg [Hkg| ->%list_elem_of_singleton]%elem_of_app; [by apply H1|done].
      * apply NoDup_singleton.
      * not_member.
    + exists (Node (Node a x Leaf) node b). split.
      2:{ rewrite !roots_app. cbn [inorder]. rewrite Ea, Eb. done. }
      assert (Hoff : forall y, ~ (y ∈ [x; node]) -> kids h' y = kids h y).
      { intros y Hy. rewrite !elem_of_cons in Hy. view_rw. by rewrite !decide_False by tauto. }
      split; [done|]. exists (Some x), (larger n). split; [|split].
      * view_rw. rewrite !(decide_True _ _ (eq_refl node)), !decide_False by congruence.
        apply elem_of_dom in Hd as [m Hm]. by rewrite (load_kids _ _ _ Hm).
      * split; [done|]. exists (smaller n), None. split; [|split; [|done]].
        { view_rw. rewrite !decide_True, !decide_False by done. by rewrite (load_kids _ _ _ Hn). }
        apply (tree_at_off h _ _ _ [x; node] Ha); [|done]. intros y Hy. by apply Hab.
      * apply (tree_at_off h _ _ _ [x; node] Hb); [|done]. intros y Hy. by apply Hab.
Qed.

Lemma splay_insert_spec h p q node pkey : queue_rep h p q -> node ∈ dom h -> ~ (node ∈ members q) ->
  valid_time pkey ->
  exists h' p', Curl_splayinsert pkey p node h = Some (h', p') /\
    queue_rep h' p' (q_insert (ktime pkey) node q) /\ same_nodes h h'.
Proof.
  intros Hrep Hd Hnm Hv. destruct q as [|kg q].
  - destruct Hrep as [Hg (T & Ht & ET)]. destruct T; [|symmetry in ET; by apply app_cons_not_nil in ET]. cbn in Ht. subst p.
    cbn [Curl_splayinsert insert_root]. run_write write_smaller V1. run_write write_larger V2.
    destruct (fresh_group h1 node pkey) as (h' & E & V3 & G); [view_rw; done|done|].
    rewrite E. do 2 eexists. split; [reflexivity|]. split; [split|].
    + apply (groups_insert h' [] (ktime pkey) [node] []); try done; try not_member.
      * split; [done|constructor|constructor].
      * apply NoDup_singleton.
    + exists (Node Leaf node Leaf). split; [|done]. split; [done|]. exists None, None.
      split; [|done]. view_rw. rewrite !decide_True by done.
      apply elem_of_dom in Hd as [n Hn]. by rewrite (load_kids _ _ _ Hn).
    + split; [by view_rw|]. intros y. by view_rw.
  - destruct (splay_queue h p _ pkey Hrep) as
      (h1 & a & x & b & q1 & K & ss & q2 & E & Eq & Hg & Ht & Ea & Eb & H1 & H2 & Hre & _); [done|done|].
    rewrite Eq in *. pose proof (same_nodes_rest h h1 Hre) as Hsame. rewrite <- (proj1 Hsame) in Hd.
    destruct (insert_root_spec h1 q1 K x ss q2 a b node pkey) as (h' & p' & E' & Hrep' & Hsame'); try done.
    destruct p as [t|]; [|done]. unfold Curl_splayinsert. rewrite E. cbn [mbind option_bind].
    exists h', p'. split; [done|]. split; [done|]. by apply (same_nodes_trans h h1).
Qed.

(** The second node of the root's list takes its place. *)
Lemma take_over_spec h q1 K x y ss q2 a b n : groups_ok h (q1 ++ (K, x :: y :: ss) :: q2) ->
  tree_at h (Some x) (Node a x b) -> inorder a = roots q1 -> inorder b = roots q2 ->
  h !! x = Some n ->
  exists h', take_over (Some y) n h = Some h' /\
    queue_rep h' (Some y) (q1 ++ (K, y :: ss) :: q2) /\ same_nodes h h'.
Proof.
  intros Hg Ht Ea Eb Hn.
  destruct (root_node h q1 K x (y :: ss) q2 Hg) as (n' & l & z & Hn' & Hkv & HK & El & Ep & _ & Ez & Hr & Hss).
  rewrite Hn in Hn'. injection Hn' as <-.
  destruct (groups_around h q1 K (x :: y :: ss) q2 Hg) as (Hg0 & Gx & HL & HR & Hnd & Hout).
  destruct (tree_kids h x n a b Hn Ht) as [Ha Hb].
  destruct l as [|x' l]; [by destruct ss|]. injection El as <- El.
  assert (Hyd : y ∈ dom h).
  { apply elem_of_dom. destruct (keyof_load h y SPLAY_SUBNODE) as (m & Hm & _); [apply Hss; left|by exists m]. }
  assert (Hzd : z ∈ dom h) by (by apply sn_dom in Ez).
  unfold take_over. run_write write_key V1. run_write write_larger V2. run_write write_smaller V3.
  run_write write_samep V4. rewrite Ep.
  destruct (write_samen h3 z (Some y)) as (h4 & E & V5); [by view_rw|]. rewrite Ep in V4.
  exists h4. split; [done|]. split; [split|split; [by view_rw|intros w; by view_rw]].
  - apply NoDup_cons in Hnd as Hnd'. destruct Hnd' as [_ Hnd']. apply groups_insert; try done.
    + apply (groups_ok_views h _ _ (y :: ss) Hg0); [intros w Hw; apply Hout; by right|].
      intros w Hw. assert (w <> z) by (intros ->; apply Hw; rewrite El; apply elem_of_app; right; left).
      rewrite !elem_of_cons in Hw. view_rw. rewrite !decide_False by tauto. done.
    + exists y, ss. split; [done|]. split; [|split].
      * apply (ring_tail h h4 x y ss z l); try done; intros w; by view_rw.
      * exists (key n). split; [view_rw; by rewrite decide_True|done].
      * intros w Hw. view_rw. rewrite decide_False; [apply Hss; by right|]. intros ->.
        by apply NoDup_cons in Hnd' as [Hnd' _].
    + intros w Hw. apply Hout. by right.
  - exists (Node a y b). split; [|rewrite roots_app; cbn [inorder]; by rewrite Ea, Eb].
    assert (Hoff : forall w, ~ (w ∈ [y]) -> kids h4 w = kids h w).
    { intros w Hw. rewrite list_elem_of_singleton in Hw. view_rw. by rewrite !decide_False. }
    assert (Hab : forall w, w ∈ [y] -> ~ (w ∈ inorder a) /\ ~ (w ∈ inorder b)).
    { intros w ->%list_elem_of_singleton. specialize (Hout y ltac:(right; left)).
      rewrite members_app, elem_of_app in Hout. rewrite Ea, Eb. split; intros Hin%roots_members; tauto. }
    split; [done|]. exists (smaller n), (larger n). split; [|split].
    + view_rw. rewrite !decide_True by done. apply elem_of_dom in Hyd as [m Hm]. by rewrite (load_kids _ _ _ Hm).
    + apply (tree_at_off h _ _ _ [y] Ha); [|done]. intros w Hw. by apply Hab.
    + apply (tree_at_off h _ _ _ [y] Hb); [|done]. intros w Hw. by apply Hab.
Qed.

(** Dropping the root of a splayed queue. *)
Lemma groups_first h K g q : groups_ok h ((K, g) :: q) -> groups_ok h q.
Proof. intros H. by apply (groups_around h [] K g q) in H as (H & _). Qed.

Lemma splay_getbest_spec h p q pkey : queue_rep h p q -> valid_time pkey ->
  exists h' p', Curl_splaygetbest pkey p h = Some (h', p', (q_best (ktime pkey) q).1) /\
    queue_rep h' p' (q_best (ktime pkey) q).2 /\ same_nodes h h'.
Proof.
  intros Hrep Hv. destruct q as [|kg q].
  - pose proof Hrep as [Hg (T & Ht & ET)]. destruct T; [|symmetry in ET; by apply app_cons_not_nil in ET].
    cbn in Ht. subst p. exists h, None. split; [done|]. split; [done|]. by split.
  - destruct (splay_queue h p _ (mk_time 0 0) Hrep) as
      (h1 & a & x & b & q1 & K & ss & q2 & E & Eq & Hg & Ht & Ea & Eb & H1 & _ & Hre & _); [done|done|].
    pose proof (same_nodes_rest h h1 Hre) as Hsame. rewrite Eq in *. clear kg q Eq.
    destruct q1 as [|kg q1].
    2:{ specialize (H1 kg ltac:(left)). destruct Hg as [Hg _ _]. apply Forall_cons in Hg as [Hg _].
        destruct Hg as (y & ys & _ & _ & (t & _ & Hvt & Hkt) & _). apply ktime_nonneg in Hvt.
        change (ktime (mk_time 0 0)) with 0 in H1. lia. }
    cbn [app] in *.
    destruct (root_node h1 [] K x ss q2 Hg) as (n & l & z & Hn & Hkv & HK & _ & _ & En & _ & _ & _).
    destruct (tree_kids h1 x n a b Hn Ht) as [Ha Hb].
    destruct p as [t|]; [|done]. unfold Curl_splaygetbest. rewrite E. cbn [mbind option_bind load].
    rewrite Hn. cbn [mbind option_bind q_best].
    pose proof (compare_spec pkey (key n) Hv Hkv) as Hcmp. rewrite HK in Hcmp.
    destruct (Z.ltb_spec (splay_compare pkey (key n)) 0), (Z.ltb_spec (ktime pkey) K); try lia; cbn [fst snd].
    + exists h1, (Some x). split; [done|]. split; [|done]. split; [done|]. exists (Node a x b).
      split; [done|]. cbn [inorder]. by rewrite Ea, Eb.
    + rewrite En. destruct ss as [|y ss]; cbn [head default id].
      * rewrite bool_decide_eq_true_2 by done. exists h1, (larger n). split; [done|].
        split; [|done]. split; [by apply groups_first in Hg|]. by exists b.
      * rewrite bool_decide_eq_false_2.
        2:{ intros [= ->]. apply (groups_around h1 []) in Hg as (_ & _ & _ & _ & Hnd & _).
            apply NoDup_cons in Hnd as [Hnd _]. apply Hnd. left. }
        cbn [negb]. destruct (take_over_spec h1 [] K x y ss q2 a b n) as (h2 & E2 & Hrep2 & Hs2); try done.
        rewrite E2. cbn [mbind option_bind]. exists h2, (Some y). split; [done|].
        split; [done|]. by apply (same_nodes_trans h h1).
Qed.

(** * Removal *)

Lemma members_split q x : x ∈ members q ->
  exists q1 K g q2, q = q1 ++ (K, g) :: q2 /\ x ∈ g.
Proof.
  intros H. unfold members in H. apply list_elem_of_In, in_concat in H as (g & Hg & Hx).
  apply in_map_iff in Hg as ([K g'] & [= ->] & Hin). apply list_elem_of_In, list_elem_of_split in Hin
    as (q1 & q2 & ->). exists q1, K, g, q2. split; [done|]. by apply list_elem_of_In.
Qed.

Lemma q_remove_mid x q1 K g q2 : NoDup (members (q1 ++ (K, g) :: q2)) -> x ∈ g ->
  q_remove x (q1 ++ (K, g) :: q2) =
    q1 ++ match filter (fun y => y <> x) g with [] => q2 | g' => (K, g') :: q2 end.
Proof.
  intros Hnd Hx. rewrite members_perm_mid, members_app in Hnd. apply NoDup_app in Hnd as (_ & Hnd & _).
  specialize (Hnd x Hx). rewrite elem_of_app in Hnd. rewrite q_remove_skip by tauto.
  cbn [q_remove]. by rewrite decide_True.
Qed.

(** The neighbours of a node that is not the first. *)
Lemma ring_neighbours h x c1 s c2 : ring h (x :: c1 ++ s :: c2) ->
  exists a b, sp h s = Some a /\ sn h s = Some b /\ a ∈ x :: c1 /\ b ∈ c2 ++ [x].
Proof.
  intros Hr. change (ring h (x :: c1 ++ s :: c2)) with (path h (((x :: c1) ++ s :: c2) ++ [x])) in Hr.
  destruct (exists_last (l := x :: c1)) as (l & a & E); [done|]. rewrite E, <- !app_assoc in *.
  cbn [app] in Hr. apply path_app in Hr as [_ Hr]. apply path_cons in Hr as [[_ Ha] Hr].
  destruct (c2 ++ [x]) as [|b r] eqn:Er; [by destruct c2|]. apply path_cons in Hr as [[Hb _] _].
  exists a, b. split; [done|]. split; [done|]. split; [apply elem_of_app; right; left|left].
Qed.

Lemma remove_subnode_spec h p q1 K r c1 x c2 q2 :
  queue_rep h p (q1 ++ (K, r :: c1 ++ x :: c2) :: q2) ->
  exists h', Curl_splayremove p x h = Some (h', 0, Some p) /\
    queue_rep h' p (q1 ++ (K, r :: c1 ++ c2) :: q2) /\ same_nodes h h'.
Proof.
  intros [Hg (T & Ht & ET)].
  destruct (groups_around h q1 K _ q2 Hg) as (Hg0 & (r' & ss & [= <- <-] & Hr & Hk & Hss) & HL & HR & Hnd & Hout).
  destruct (ring_neighbours h r c1 x c2 Hr) as (a & b & Ea & Eb & Hina & Hinb).
  destruct (keyof_load h x SPLAY_SUBNODE) as (n & Hn & Hkn); [apply Hss, elem_of_app; right; left|].
  destruct (load_views h x n Hn) as (Esn & Esp & _ & _). rewrite Ea in Esp. rewrite Eb in Esn.
  destruct p as [t|].
  2:{ apply tree_at_none in Ht as ->. rewrite roots_app in ET. by destruct (roots q1). }
  unfold Curl_splayremove, load. cbn [mbind option_bind]. rewrite Hn. cbn [mbind option_bind].
  rewrite Hkn. replace (splay_compare SPLAY_SUBNODE SPLAY_SUBNODE =? 0) with true by done.
  rewrite <- Esn, <- Esp.
  change (r :: c1 ++ x :: c2) with ((r :: c1) ++ x :: c2) in Hnd, Hout.
  pose proof Hnd as Hnd2. apply NoDup_app in Hnd2 as (Nl & Dl & Nr). apply NoDup_cons in Nr as [Nx Nr].
  assert (Hax : a <> x) by (intros ->; apply (Dl x Hina); left).
  assert (Hbx : b <> x).
  { intros ->. apply elem_of_app in Hinb as [?| ->%list_elem_of_singleton]; [done|]. apply (Dl r); left. }
  rewrite bool_decide_eq_false_2 by congruence.
  assert (Hxd : x ∈ dom h) by (apply elem_of_dom; by exists n).
  assert (Hin : forall y, y ∈ r :: c1 ++ x :: c2 -> y ∈ dom h).
  { intros y [->|Hy]%elem_of_cons.
    - destruct Hk as (u & Hu & _). apply keyof_load in Hu as (m & Hm & _). apply elem_of_dom. by exists m.
    - apply Hss, keyof_load in Hy as (m & Hm & _). apply elem_of_dom. by exists m. }
  assert (Had : a ∈ dom h).
  { apply Hin. change (a ∈ (r :: c1) ++ x :: c2). apply elem_of_app. by left. }
  assert (Hbd : b ∈ dom h).
  { apply Hin. apply elem_of_app in Hinb as [Hb| ->%list_elem_of_singleton]; [|left].
    change (b ∈ (r :: c1) ++ x :: c2). apply elem_of_app. right. by right. }
  run_write write_samen V1.
  assert (E1 : h0 !! x <> None).
  { intros E. assert (x ∈ dom h0) as Hd0 by (by view_rw). apply elem_of_dom in Hd0 as [? ?]. congruence. }
  destruct (h0 !! x) as [n1|] eqn:Hn1; [|done]. cbn [mbind option_bind].
  destruct (load_views h0 x n1 Hn1) as (Esn1 & Esp1 & _ & _).
  rewrite (v_sn _ _ _ _ _ _ V1) in Esn1. unfold at_node in Esn1. rewrite decide_False in Esn1 by congruence.
  rewrite (v_sp _ _ _ _ _ _ V1) in Esp1. rewrite <- Esn1, <- Esp1, Ea, Eb.
  run_write write_samep V2. run_write write_samen V3.
  exists h2. split; [done|]. split; [|split; [by view_rw|intros w; by view_rw]].
  destruct (ring_unlink h h2 r c1 x c2 a b) as (Hr2 & _ & _); try done.
  { intros y. view_rw. repeat case_decide; congruence. }
  { intros y. by view_rw. }
  assert (Hsub : forall y, y ∈ r :: c1 ++ c2 -> y ∈ (r :: c1) ++ x :: c2).
  { intros y. change (r :: c1 ++ c2) with ((r :: c1) ++ c2). rewrite !elem_of_app, (elem_of_cons c2). tauto. }
  split.
  - apply groups_insert; try done.
    + apply (groups_ok_views h _ _ ((r :: c1) ++ x :: c2) Hg0 Hout).
      intros y Hy. assert (y <> a /\ y <> b /\ y <> x) as (Y1 & Y2 & Y3).
      { rewrite elem_of_app, (elem_of_cons c2) in Hy. apply elem_of_app in Hinb as [Hb|Hb%list_elem_of_singleton].
        - split; [|split]; intros ->; tauto.
        - subst b. split; [|split]; intros ->; try tauto. apply Hy. left. left. }
      view_rw. by rewrite !decide_False.
    + exists r, (c1 ++ c2). split; [done|]. split; [done|]. split.
      * destruct Hk as (u & Hu & Hk). exists u. by view_rw.
      * intros y Hy. view_rw. apply Hss. rewrite elem_of_app in Hy. rewrite elem_of_app, elem_of_cons. tauto.
    + change (NoDup ((r :: c1) ++ c2)). apply NoDup_app. split; [done|]. split; [|done].
      intros y Hy Hy2. apply (Dl y Hy). by right.
    + intros y Hy. by apply Hout, Hsub.
  - exists T. split; [|by rewrite roots_app in *]. eapply tree_at_ext; [|exact Ht]. intros y _. by view_rw.
Qed.

(** Splaying for the time of a group brings its first node to the root. *)
Lemma splay_queue_at h p q1 K x ss q2 pkey : queue_rep h p (q1 ++ (K, x :: ss) :: q2) ->
  valid_time pkey -> ktime pkey = K ->
  exists h' a b, Curl_splay pkey p h = Some (h', Some x) /\
    groups_ok h' (q1 ++ (K, x :: ss) :: q2) /\
    tree_at h' (Some x) (Node a x b) /\ inorder a = roots q1 /\ inorder b = roots q2 /\
    (forall y, rest h' y = rest h y).
Proof.
  intros Hrep Hv HK. destruct (splay_queue h p _ pkey Hrep) as
    (h1 & a & x' & b & q1' & K' & ss' & q2' & E & Eq & Hg & Ht & Ea & Eb & H1 & H2 & Hre & _);
    [by destruct q1|done|].
  assert (K' = K /\ q1' = q1 /\ x' = x /\ q2' = q2) as (-> & -> & -> & ->).
  { pose proof Hg as Hg'. rewrite Eq in Hg'. apply groups_around in Hg as (_ & _ & HL & HR & _ & _).
    apply groups_around in Hg' as (_ & _ & HL' & HR' & _ & _). clear - Eq H1 H2 HL HR HL' HR' HK.
    assert (Hmid : (K, x :: ss) = (K', x' :: ss')).
    { assert (Hin : (K, x :: ss) ∈ q1' ++ (K', x' :: ss') :: q2')
        by (rewrite <- Eq; apply elem_of_app; right; left).
      apply elem_of_app in Hin as [Hin|[Hin|Hin]%elem_of_cons]; [|done|];
        [apply H1 in Hin|apply H2 in Hin]; cbn in Hin; lia. }
    injection Hmid as <- <- <-.
    assert (Hq : q1 = q1' /\ q2 = q2'); [|by destruct Hq as [-> ->]].
    clear H1 H2 HK. revert q1' Eq HL'. induction q1 as [|kg q1 IH]; intros [|kg' q1'] Eq HL'; cbn in Eq.
    - by injection Eq.
    - injection Eq as <- _. specialize (HL' _ ltac:(left)). cbn in HL'. lia.
    - injection Eq as -> _. specialize (HL _ ltac:(left)). cbn in HL. lia.
    - injection Eq as <- Eq. destruct (IH (fun kg H => HL kg (list_elem_of_further _ _ _ H)) q1' Eq) as [<- <-]; [|done].
      intros kg' Hkg'. apply HL'. by right. }
  exists h1, a, b. done.
Qed.

(** What is left of a queue around a group. *)
Lemma groups_left h q1 q2 : groups_ok h (q1 ++ q2) -> groups_ok h q1.
Proof.
  revert q1. induction q2 as [|kg q2 IH] using rev_ind; intros q1; [by rewrite app_nil_r|].
  rewrite app_assoc. intros H. destruct kg as [K g].
  apply (groups_around h (q1 ++ q2) K g []) in H as (H & _). rewrite app_nil_r in H. by apply IH.
Qed.

(** The smaller nodes splayed for a later time, and the larger ones linked to
    their new root. *)
Lemma remove_join_spec h s q1 q2 x n b pkey : queue_rep h (Some s) q1 ->
  groups_ok h (q1 ++ q2) -> h !! x = Some n -> tree_at h (larger n) b -> inorder b = roots q2 ->
  (forall kg, kg ∈ q1 -> kg.1 < ktime pkey) -> valid_time pkey -> ~ (x ∈ members (q1 ++ q2)) ->
  exists h' p', ('(h, y) ← Curl_splay pkey (Some s) h;
      tn ← load (Some x) h;
      h ← write y (set_larger (larger tn)) h;
      Some (h, 0, Some y)) = Some (h', 0, Some p') /\ queue_rep h' p' (q1 ++ q2) /\ same_nodes h h'.
Proof.
  intros Hrep Hg Hn Hb Eb HL Hv Hx. pose proof Hrep as [Hg1 (a & Ha & Ea)].
  destruct (splay_queue h (Some s) q1 pkey Hrep) as
    (h2 & a2 & x2 & b2 & q11 & K2 & ss2 & q12 & E2 & Eq & _ & Ht2 & Ea2 & _ & _ & H2 & Hre2 & Hk2); [|done|].
  { intros ->. destruct a; [done|]. by apply app_nil in Ea as [_ ?]. }
  rewrite E2. cbn [mbind option_bind load].
  assert (q12 = []) as ->.
  { destruct q12 as [|kg q12]; [done|]. specialize (H2 kg ltac:(left)). specialize (HL kg).
    rewrite Eq, elem_of_app in HL. specialize (HL (or_intror (list_elem_of_further _ _ _ (list_elem_of_here _ _)))).
    lia. }
  assert (Hoff : forall y, y ∈ x :: inorder b -> ~ (y ∈ roots q1)).
  { intros y Hy Hin%roots_members. rewrite members_app, elem_of_app in Hx.
    apply elem_of_cons in Hy as [->|Hy]; [tauto|]. destruct Hg as [_ _ Hnd]. rewrite members_app in Hnd.
    apply NoDup_app in Hnd as (_ & Hd & _). apply (Hd y Hin), roots_members. by rewrite <- Eb. }
  pose proof (Hk2 x (Hoff x ltac:(left))) as Hkx. rewrite (load_kids _ _ _ Hn) in Hkx.
  apply kids_load in Hkx as (n2 & -> & _ & El). cbn [mbind option_bind].
  assert (Hx2 : x2 ∈ dom h2).
  { apply (tree_nodes h2 (Node a2 x2 b2) _ Ht2). cbn. apply elem_of_app. right. left. }
  run_write write_larger V. do 2 eexists. split; [reflexivity|].
  split; [|apply (same_nodes_trans h h2); [by apply same_nodes_rest|by eapply same_nodes_views]].
  destruct (views_rest h h2 Hre2) as (_ & Vn & Vp & Vk & _). split.
  - apply (groups_ok_views h _ _ [] Hg); [not_member|]. intros y _. view_rw. by rewrite Vn, Vp, Vk.
  - assert (Hroot : inorder a2 ++ [x2] = roots q1) by (rewrite Eq, roots_app; by rewrite Ea2).
    exists (Node a2 x2 b). split; [|rewrite roots_app, <- Hroot, <- Eb; cbn [inorder]; by rewrite <- app_assoc].
    split; [done|]. destruct Ht2 as (_ & s2 & g2 & Hk & Ha2 & _). exists s2, (larger n).
    split; [view_rw; by rewrite decide_True, Hk, El|]. split.
    + apply (tree_at_off h2 _ _ _ [x2] Ha2).
      * intros y ->%list_elem_of_singleton Hin. destruct Hg1 as [G1 G2 _].
        pose proof (before_nodup _ _ (sorted_roots h q1 G1 G2)) as Hsr.
        rewrite <- Hroot in Hsr. apply NoDup_app in Hsr as (_ & Hd & _). apply (Hd x2 Hin). left.
      * intros y Hy. rewrite list_elem_of_singleton in Hy. view_rw. by rewrite decide_False.
    + eapply tree_at_ext; [|exact Hb]. intros y Hy. view_rw. rewrite decide_False.
      * apply Hk2, Hoff. by right.
      * intros ->. apply (Hoff x2); [by right|]. rewrite <- Hroot. apply elem_of_app. right. left.
Qed.

Lemma remove_root_spec h p q1 K x ss q2 : queue_rep h p (q1 ++ (K, x :: ss) :: q2) ->
  exists h' p', Curl_splayremove p x h = Some (h', 0, Some p') /\
    queue_rep h' p' (q1 ++ match ss with [] => q2 | _ => (K, ss) :: q2 end) /\ same_nodes h h'.
Proof.
  intros Hrep. destruct (root_node h q1 K x ss q2 (proj1 Hrep)) as (n & _ & _ & Hn & Hv & HK & _).
  destruct (splay_queue_at h p q1 K x ss q2 (key n) Hrep Hv HK) as (h1 & a & b & E & Hg & Ht & Ea & Eb & Hre).
  pose proof (same_nodes_rest h h1 Hre) as Hsame.
  destruct (root_node h1 q1 K x ss q2 Hg) as (n1 & l & z & Hn1 & _ & _ & _ & _ & En & _).
  destruct (tree_kids h1 x n1 a b Hn1 Ht) as [Ha Hb].
  destruct p as [t|]; [|done]. unfold Curl_splayremove. cbn [load mbind option_bind]. rewrite Hn.
  cbn [mbind option_bind]. rewrite compare_subnode by done. rewrite E. cbn [mbind option_bind].
  rewrite bool_decide_eq_true_2 by done. cbn [negb load mbind option_bind]. rewrite Hn1.
  cbn [mbind option_bind]. rewrite En. destruct ss as [|y ss]; cbn [head default id].
  - rewrite bool_decide_eq_true_2 by done. cbn [negb].
    destruct (groups_around h1 q1 K [x] q2 Hg) as (Hg0 & _ & HL & HR & _ & Hout).
    destruct (smaller n1) as [s|] eqn:Es.
    + destruct (remove_join_spec h1 s q1 q2 x n1 b (key n)) as (h2 & p' & E2 & Hrep2 & Hs2);
        [split; [by apply groups_left in Hg|by exists a]|done|done|done|done|by rewrite HK|done|apply Hout; left|].
      exists h2, p'. split; [exact E2|]. split; [done|]. by apply (same_nodes_trans h h1).
    + exists h1, (larger n1). split; [done|]. split; [|done]. split; [done|].
      apply tree_at_none in Ha as ->. exists b. split; [done|]. by rewrite roots_app, <- Ea.
  - rewrite bool_decide_eq_false_2.
    2:{ intros [= ->]. apply (groups_around h1) in Hg as (_ & _ & _ & _ & Hnd & _).
        apply NoDup_cons in Hnd as [Hnd _]. apply Hnd. left. }
    cbn [negb]. destruct (take_over_spec h1 q1 K x y ss q2 a b n1) as (h2 & E2 & Hrep2 & Hs2); try done.
    rewrite E2. cbn [mbind option_bind]. exists h2, (Some y). split; [done|].
    split; [done|]. by apply (same_nodes_trans h h1).
Qed.

Lemma filter_ne_mid (x : loc) (c1 c2 : list loc) : NoDup (c1 ++ x :: c2) ->
  filter (fun y => y <> x) (c1 ++ x :: c2) = c1 ++ c2.
Proof.
  intros H. apply NoDup_app in H as (_ & H1 & H2). apply NoDup_cons in H2 as [H2 _].
  rewrite filter_app, filter_cons_False by tauto. rewrite !filter_ne_absent; [done|done|].
  intros Hx. apply (H1 x Hx). left.
Qed.

Lemma splay_remove_spec h p q x : queue_rep h p q -> x ∈ members q ->
  exists h' p', Curl_splayremove p x h = Some (h', 0, Some p') /\
    queue_rep h' p' (q_remove x q) /\ same_nodes h h'.
Proof.
  intros Hrep Hx. destruct (members_split q x Hx) as (q1 & K & g & q2 & -> & Hg).
  pose proof (q_nodup _ _ (proj1 Hrep)) as Hnd. rewrite q_remove_mid by done.
  rewrite members_perm_mid in Hnd. apply NoDup_app in Hnd as (Hnd & _).
  apply list_elem_of_split in Hg as (c1 & c2 & ->). rewrite filter_ne_mid by done.
  destruct c1 as [|r c1]; [pose proof (remove_root_spec h p q1 K x c2 q2 Hrep); by destruct c2|].
  destruct (remove_subnode_spec h p q1 K r c1 x c2 q2 Hrep) as (h' & H). by exists h', p.
Qed.

(** * Sequences of operations *)

Inductive splay_op :=
  | OpInsert (pkey : curltime) (node : loc)
  | OpBest (pkey : curltime)
  | OpRemove (node : loc)
  | OpSet (node : loc) (payload : Z).

(** The tree's owner: the heap, its root, and the nodes it took out. *)
Definition splay_step (op : splay_op) (st : heap * option loc) : option (heap * option loc * option loc) :=
  let (h, t) := st in
  match op with
  | OpInsert pkey node => '(h, t) ← Curl_splayinsert pkey t node h; Some (h, t, None)
  | OpBest pkey => Curl_splaygetbest pkey t h
  | OpRemove node =>
      '(h, rc, newroot) ← Curl_splayremove t node h;
      Some (h, default t newroot, if rc =? 0 then Some node else None)
  | OpSet node payload => h ← Curl_splayset node payload h; Some (h, t, None)
  end.

Fixpoint splay_run (ops : list splay_op) (st : heap * option loc)
  : option (heap * option loc * list (option loc)) :=
  match ops with
  | [] => Some (st, [])
  | op :: ops =>
      '(st, out) ← splay_step op st;
      '(st, outs) ← splay_run ops st;
      Some (st, out :: outs)
  end.

Definition q_step (op : splay_op) (q : queue) : queue * option loc :=
  match op with
  | OpInsert pkey node => (q_insert (ktime pkey) node q, None)
  | OpBest pkey => let (x, q) := q_best (ktime pkey) q in (q, x)
  | OpRemove node => (q_remove node q, Some node)
  | OpSet _ _ => (q, None)
  end.

Fixpoint q_run (ops : list splay_op) (q : queue) : queue * list (option loc) :=
  match ops with
  | [] => (q, [])
  | op :: ops => let (q, x) := q_step op q in let (q, xs) := q_run ops q in (q, x :: xs)
  end.

(** What the callers keep to: a node is inserted only when it is not in the
    queue, and removed only when it is. *)
Definition op_ok (d : gset loc) (q : queue) (op : splay_op) : Prop :=
  match op with
  | OpInsert pkey node => valid_time pkey /\ node ∈ d /\ ~ (node ∈ members q)
  | OpBest pkey => valid_time pkey
  | OpRemove node => node ∈ members q
  | OpSet node _ => node ∈ d
  end.

Fixpoint ops_ok (d : gset loc) (q : queue) (ops : list splay_op) : Prop :=
  match ops with
  | [] => True
  | op :: ops => op_ok d q op /\ ops_ok d (q_step op q).1 ops
  end.

#[export] Instance op_ok_dec d q op : Decision (op_ok d q op).
Proof. destruct op; cbn [op_ok]; unfold valid_time; apply _. Defined.

#[export] Instance ops_ok_dec d ops : forall q, Decision (ops_ok d q ops).
Proof. induction ops as [|op ops IH]; intros q; cbn [ops_ok]; apply _. Defined.

(** The payloads after the operations. *)
Definition set_payload (op : splay_op) (f : loc -> option Z) : loc -> option Z :=
  match op with OpSet node v => at_node node (Some v) f | _ => f end.

Lemma splay_set_spec h p q node v : queue_rep h p q -> node ∈ dom h ->
  exists h', Curl_splayset node v h = Some h' /\ queue_rep h' p q /\ dom h' = dom h /\
    forall y, payload h' y = at_node node (Some v) (payload h) y.
Proof.
  intros [Hg (T & Ht & ET)] [n Hn]%elem_of_dom. eexists.
  split; [by apply (write_some _ _ _ _ Hn)|]. set (h' := <[_ := _]> h).
  assert (Hv : forall y, kids h' y = kids h y /\ sn h' y = sn h y /\ sp h' y = sp h y /\ keyof h' y = keyof h y).
  { intros y. unfold kids, sn, sp, keyof, h'.
    destruct (decide (node = y)) as [->|Hne]; [by rewrite lookup_insert_eq, Hn|by rewrite lookup_insert_ne]. }
  split; [split|split].
  - apply (groups_ok_views h _ _ [] Hg); [not_member|]. intros y _. by destruct (Hv y) as (_ & ? & ? & ?).
  - exists T. split; [|done]. eapply tree_at_ext; [|exact Ht]. intros y _. by destruct (Hv y) as (? & _).
  - unfold h'. rewrite dom_insert_L. apply subseteq_union_1_L, singleton_subseteq_l, elem_of_dom. by exists n.
  - intros y. unfold payload, at_node, h'. case_decide as E; [subst; by rewrite lookup_insert_eq|].
    by rewrite lookup_insert_ne.
Qed.

Lemma splay_step_spec op h p q : queue_rep h p q -> op_ok (dom h) q op ->
  exists h' p', splay_step op (h, p) = Some (h', p', (q_step op q).2) /\
    queue_rep h' p' (q_step op q).1 /\ dom h' = dom h /\
    forall y, payload h' y = set_payload op (payload h) y.
Proof.
  intros Hrep Hok. destruct op as [pkey node|pkey|node|node v]; cbn [op_ok splay_step q_step] in *.
  - destruct Hok as (Hv & Hd & Hm).
    destruct (splay_insert_spec h p q node pkey Hrep Hd Hm Hv) as (h' & p' & E & Hrep' & Hd' & Hp').
    rewrite E. by exists h', p'.
  - destruct (splay_getbest_spec h p q pkey Hrep Hok) as (h' & p' & E & Hrep' & Hd' & Hp').
    rewrite E. destruct (q_best (ktime pkey) q) as [x q']. by exists h', p'.
  - destruct (splay_remove_spec h p q node Hrep Hok) as (h' & p' & E & Hrep' & Hd' & Hp').
    rewrite E. by exists h', p'.
  - destruct (splay_set_spec h p q node v Hrep Hok) as (h' & E & Hrep' & Hd' & Hp'). rewrite E. by exists h', p.
Qed.


Definition node0 : Curl_tree := mk_tree None None None None (mk_time 0 0) 0.

(** Five nodes, none in the tree. *)
Definition heap0 : heap := list_to_map (map (fun x => (x, node0)) [1; 2; 3; 4; 5]%positive).

Definition ops0 : list splay_op :=
  [OpInsert (mk_time 5 0) 1; OpInsert (mk_time 3 7) 2; OpInsert (mk_time 5 0) 3; OpSet 3 42;
   OpInsert (mk_time 9 1) 4; OpRemove 1; OpInsert (mk_time 5 0) 5; OpBest (mk_time 3 6);
   OpBest (mk_time 6 0); OpRemove 5; OpBest (mk_time 6 0)]%positive.

(** The same operations, run: the nodes that come out, in order. *)
Example splay_run_ops0 : snd <$> splay_run ops0 (heap0, None) =
  Some [None; None; None; None; None; Some 1; None; None; Some 2; Some 5; Some 3]%positive.
Proof. vm_compute. reflexivity. Qed.


(** * Removing a node that is not in the tree *)

Lemma remove_absent_spec h p q x t : queue_rep h p q -> q <> [] -> keyof h x = Some t ->
  valid_time t -> ~ (x ∈ members q) ->
  exists h' y, Curl_splayremove p x h = Some (h', 2, None) /\ Curl_splay t p h = Some (h', Some y) /\
    queue_rep h' (Some y) q /\ same_nodes h h'.
Proof.
  intros Hrep Hne Ht Hv Hx. apply keyof_load in Ht as (n & Hn & <-).
  destruct (splay_queue h p q (key n) Hrep Hne Hv) as
    (h1 & a & y & b & q1 & K & ss & q2 & E & Eq & Hg & Htr & Ea & Eb & _ & _ & Hre & _).
  exists h1, y. destruct p as [r|]; [|done]. unfold Curl_splayremove, load. cbn [mbind option_bind].
  rewrite Hn. cbn [mbind option_bind]. rewrite compare_subnode, E by done. cbn [mbind option_bind].
  rewrite bool_decide_eq_false_2.
  - cbn [negb]. split; [done|]. split; [done|]. split; [|by apply same_nodes_rest]. split; [done|].
    exists (Node a y b). split; [done|]. rewrite Eq, roots_app. cbn [inorder]. by rewrite Ea, Eb.
  - intros [= ->]. apply Hx. rewrite Eq, members_app. apply elem_of_app. right. left.
Qed.

(** Removing a node that is not in the tree is reported and leaves
    [*newroot] alone: 1 for an empty tree, 3 for a node of a list that was
    already taken out (nothing is written), and 2 otherwise; in the last case
    the whole queue is at the root the search left, and every payload is kept. *)
Theorem splayremove_reports (h : heap) (p : option loc) (q : queue) (x : loc) (t : curltime) :
  queue_rep h p q -> keyof h x = Some t -> ~ (x ∈ members q) ->
  t = SPLAY_SUBNODE /\ sn h x = Some x \/ valid_time t ->
  match q with
  | [] => Curl_splayremove p x h = Some (h, 1, None)
  | _ =>
      if decide (t = SPLAY_SUBNODE) then Curl_splayremove p x h = Some (h, 3, None)
      else exists h' y, Curl_splayremove p x h = Some (h', 2, None) /\
        Curl_splay t p h = Some (h', Some y) /\ queue_rep h' (Some y) q /\ same_nodes h h'
  end.
Proof.
  intros Hrep Hk Hx Ht. destruct q as [|kg q].
  - destruct Hrep as [_ (T & Htr & ET)]. destruct T; [|by apply app_nil in ET as [_ ?]]. cbn in Htr. by subst p.
  - case_decide as Hs.
    + destruct Ht as [[_ Hsn]|Hv]; [|by rewrite Hs in Hv; destruct Hv; cbn in *; lia].
      apply keyof_load in Hk as (n & Hn & E). unfold sn in Hsn. rewrite Hn in Hsn. cbn in Hsn.
      destruct p as [r|].
      * unfold Curl_splayremove, load. cbn [mbind option_bind]. rewrite Hn. cbn [mbind option_bind].
        rewrite E, Hs. cbn. by rewrite bool_decide_eq_true_2.
      * destruct Hrep as [Hg (T & Htr & ET)]. apply tree_at_none in Htr as ->. symmetry in ET.
        destruct Hg as [Hg _ _]. apply Forall_cons in Hg as [(y & ss & Eg & _) _].
        unfold roots in ET. cbn in ET. by rewrite Eg in ET.
    + destruct Ht as [[? _]|Hv]; [done|]. by apply (remove_absent_spec h p _ x t).
Qed.

(** Nodes 1 and 2 in the tree, node 3 not, with the key of node 1. *)
Definition alone (x : loc) (s : option loc) (sec : Z) : Curl_tree :=
  mk_tree s None (Some x) (Some x) (mk_time sec 0) 0.

Definition heap_absent : heap :=
  list_to_map [(1, alone 1 None 1); (2, alone 2 (Some 1) 2); (3, alone 3 None 1)]%positive.

Definition queue_absent : queue := [(1000000, [1%positive]); (2000000, [2%positive])].

Lemma heap_absent_rep : queue_rep heap_absent (Some 2%positive) queue_absent.
Proof.
  split.
  - split.
    + repeat constructor.
      * exists 1%positive, []. split; [done|]. split; [done|]. split; [|not_member].
        by exists (mk_time 1 0).
      * exists 2%positive, []. split; [done|]. split; [done|]. split; [|not_member].
        by exists (mk_time 2 0).
    + repeat constructor.
    + apply (bool_decide_unpack _). by vm_compute.
  - exists (Node (Node Leaf 1 Leaf) 2 Leaf)%positive. split; [|done].
    split; [done|]. exists (Some 1%positive), None. split; [done|]. split; [|done]. split; [done|].
    by exists None, None.
Qed.

Lemma splayremove_reports_witness :
  exists h' y, Curl_splayremove (Some 2%positive) 3 heap_absent = Some (h', 2, None) /\
    Curl_splay (mk_time 1 0) (Some 2%positive) heap_absent = Some (h', Some y) /\
    queue_rep h' (Some y) queue_absent /\ same_nodes heap_absent h'.
Proof.
  refine (splayremove_reports heap_absent (Some 2%positive) queue_absent 3 (mk_time 1 0)
    heap_absent_rep _ _ (or_intror _)).
  - reflexivity.
  - apply (bool_decide_unpack _). by vm_compute.
  - by vm_compute.
Defined.

(** The caller's root is not the root any more after such a removal: the tree
    reached from it has lost a node. *)
Lemma splayremove_loses_nodes : exists h p q x h', queue_rep h p q /\
  Curl_splayremove p x h = Some (h', 2, None) /\ ~ queue_rep h' p q.
Proof.
  assert (Hk : match Curl_splayremove (Some 2%positive) 3 heap_absent with
    | Some (h', rc, r) => (rc, r, kids h' 2%positive) = (2, None, Some (None, None))
    | None => False end) by by_compute.
  destruct (Curl_splayremove (Some 2%positive) 3 heap_absent) as [[[h' rc] r]|] eqn:E; [|done].
  exists heap_absent, (Some 2%positive), queue_absent, 3%positive, h'. split; [exact heap_absent_rep|].
  injection Hk as -> -> Hk. split; [done|]. intros [_ (T & Ht & ET)].
  apply tree_at_some in Ht as (l & g & s & b & -> & Hk2 & Hl & Hg). rewrite Hk in Hk2. injection Hk2 as <- <-.
  apply tree_at_none in Hl as ->. apply tree_at_none in Hg as ->. done.
Qed.
