(* ===== verification/Ratelimit.v ===== *)
(** The token bucket that limits transfer rates, lib/ratelimit.c.

    The tokens and the durations are signed 64-bit numbers: every operation on
    them is checked ([i64]) and a result out of range, undefined behaviour in
    C, is [None].  A missing timestamp ([NULL]) is the time the clock shows,
    the argument [now]. *)

From Stdlib Require Import ZArith Lia List.
From stdpp Require Import base numbers option list.
From S2P Require Import Prelude Timeval.
Close Scope nat_scope.
Open Scope Z_scope.

Definition CURL_US_PER_SEC : Z := 1000000.
Definition CURL_RLIMIT_MIN_RATE : Z := 4 * 1024.
Definition CURL_RLIMIT_STEP_MIN_MS : Z := 2.

Record Curl_rlimit := mk_rlimit {
  rate_per_sec : Z;
  burst_per_sec : Z;
  rate_per_step : Z;
  burst_per_step : Z;
  step_us : Z;
  tokens : Z;
  spare_us : Z;
  ts : curltime;
  blocked : bool;
}.

Definition set_tokens (v : Z) (r : Curl_rlimit) : Curl_rlimit :=
  mk_rlimit (rate_per_sec r) (burst_per_sec r) (rate_per_step r) (burst_per_step r)
    (step_us r) v (spare_us r) (ts r) (blocked r).

(** [r->ts] and [r->spare_us] *)
Definition set_clock (t : curltime) (spare : Z) (r : Curl_rlimit) : Curl_rlimit :=
  mk_rlimit (rate_per_sec r) (burst_per_sec r) (rate_per_step r) (burst_per_step r)
    (step_us r) (tokens r) spare t (blocked r).

(** [r->step_us], [r->rate_per_step] and [r->tokens] *)
Definition set_step (step rate : Z) (r : Curl_rlimit) : Curl_rlimit :=
  mk_rlimit (rate_per_sec r) (burst_per_sec r) rate (burst_per_step r)
    step rate (spare_us r) (ts r) (blocked r).

Definition set_burst (v : Z) (r : Curl_rlimit) : Curl_rlimit :=
  mk_rlimit (rate_per_sec r) (burst_per_sec r) (rate_per_step r) v
    (step_us r) (tokens r) (spare_us r) (ts r) (blocked r).

Definition set_blocked (b : bool) (t : curltime) (r : Curl_rlimit) : Curl_rlimit :=
  mk_rlimit (rate_per_sec r) (burst_per_sec r) (rate_per_step r) (burst_per_step r)
    (step_us r) (tokens r) (spare_us r) t b.

(** The tokens gained in [steps] steps, added up to the largest number. *)
Definition gain_tokens (steps : Z) (r : Curl_rlimit) : option Z :=
  token_gain ← (if rate_per_step r >? Z.quot INT64_MAX steps then Some INT64_MAX
                else i64 (rate_per_step r * steps));
  room ← i64 (INT64_MAX - token_gain);
  if room >? tokens r then i64 (tokens r + token_gain) else Some INT64_MAX.

Definition rlimit_update (r : Curl_rlimit) (pts : curltime) : option Curl_rlimit :=
  if bool_decide (ts r = pts) then Some r
  else
    let elapsed_us := curlx_ptimediff_us pts (ts r) in
    if elapsed_us <? 0 then Some r
    else
      elapsed_us ← i64 (elapsed_us + spare_us r);
      if elapsed_us <? step_us r then Some r
      else
        let r := set_clock pts (Z.rem elapsed_us (step_us r)) r in
        let elapsed_steps := Z.quot elapsed_us (step_us r) in
        t ← gain_tokens elapsed_steps r;
        Some (set_tokens
          (if negb (burst_per_step r =? 0) && (t >? burst_per_step r) then burst_per_step r else t) r).

(** More than one step: the milliseconds left over, and the tokens for them,
    spread across the steps. *)
Definition spread_steps (r : Curl_rlimit) (msteps : Z) : option Curl_rlimit :=
  let ms_unaccounted := Z.rem msteps 1000 in
  let mstep_inc := Z.quot ms_unaccounted (Z.quot msteps 1000) in
  if mstep_inc =? 0 then Some r
  else
    p ← i64 (rate_per_step r * mstep_inc);
    let rate_inc := Z.quot p 1000 in
    if rate_inc =? 0 then Some r
    else
      step ← i64 (CURL_US_PER_SEC + mstep_inc * 1000);
      rate ← i64 (rate_per_step r + rate_inc);
      let r := set_step step rate r in
      if burst_per_step r =? 0 then Some r
      else
        b ← i64 (burst_per_step r * mstep_inc);
        let burst_inc := Z.quot b 1000 in
        if burst_inc =? 0 then Some r
        else
          b ← i64 (burst_per_step r + burst_inc);
          Some (set_burst b r).

Definition rlimit_tune_steps (r : Curl_rlimit) (tokens_total : Z) : option Curl_rlimit :=
  if (rate_per_step r =? 0) || (tokens_total <=? 1) || (tokens_total >? Z.quot INT64_MAX 1000)
  then Some r
  else
    let tokens_last := Z.quot tokens_total 100 in
    let tokens_last :=
      if tokens_last =? 0 then 1
      else if tokens_last >? CURL_RLIMIT_MIN_RATE then CURL_RLIMIT_MIN_RATE else tokens_last in
    tokens_main ← i64 (tokens_total - tokens_last);
    thousand ← i64 (tokens_main * 1000);
    let msteps := Z.quot thousand (rate_per_step r) in
    if msteps <? CURL_RLIMIT_STEP_MIN_MS then Some r
    else if msteps <? 1000 then
      step ← i64 (msteps * 1000);
      Some (set_step step tokens_main r)
    else
      spread_steps r msteps.

Definition Curl_rlimit_init (rate_per_sec burst_per_sec : Z) (pts : curltime) : Curl_rlimit :=
  mk_rlimit rate_per_sec burst_per_sec rate_per_sec burst_per_sec CURL_US_PER_SEC rate_per_sec 0 pts false.

Definition Curl_rlimit_start (r : Curl_rlimit) (pts : curltime) (total_tokens : Z)
  : option Curl_rlimit :=
  rlimit_tune_steps
    (mk_rlimit (rate_per_sec r) (burst_per_sec r) (rate_per_sec r) (burst_per_sec r)
       CURL_US_PER_SEC (rate_per_sec r) 0 pts (blocked r)) total_tokens.

Definition Curl_rlimit_per_step (r : Curl_rlimit) : Z := rate_per_step r.

Definition Curl_rlimit_active (r : Curl_rlimit) : bool := (rate_per_step r >? 0) || blocked r.

Definition Curl_rlimit_is_blocked (r : Curl_rlimit) : bool := blocked r.

Definition Curl_rlimit_avail (r : Curl_rlimit) (pts : option curltime) (now : curltime)
  : option (Curl_rlimit * Z) :=
  if blocked r then Some (r, 0)
  else if negb (rate_per_step r =? 0) then
    r ← rlimit_update r (default now pts);
    Some (r, tokens r)
  else Some (r, INT64_MAX).

Definition Curl_rlimit_drain (r : Curl_rlimit) (n : Z) (pts : option curltime) (now : curltime)
  : option Curl_rlimit :=
  if blocked r || (rate_per_step r =? 0) then Some r
  else
    r ← rlimit_update r (default now pts);
    if n >? INT64_MAX then Some (set_tokens INT64_MAX r)
    else
      low ← i64 (INT64_MIN + n);
      if low <? tokens r then
        t ← i64 (tokens r - n);
        Some (set_tokens t r)
      else Some (set_tokens INT64_MIN r).

(** The time to pay the debt, added to the time to the next step. *)
Definition debt_wait (r : Curl_rlimit) (wait_us : Z) : option Z :=
  if tokens r <? 0 then
    debt ← i64 (- tokens r);
    debt ← i64 (debt * 100);
    let debt_pct := Z.quot debt (rate_per_step r) in
    if debt_pct =? 0 then Some wait_us
    else
      d ← i64 (step_us r * debt_pct);
      i64 (wait_us + Z.quot d 100)
  else Some wait_us.

Definition Curl_rlimit_wait_ms (r : Curl_rlimit) (pts : curltime) : option (Curl_rlimit * Z) :=
  if blocked r || (rate_per_step r =? 0) then Some (r, 0)
  else
    r ← rlimit_update r pts;
    if tokens r >? 0 then Some (r, 0)
    else
      wait_us ← i64 (step_us r - spare_us r);
      wait_us ← debt_wait r wait_us;
      let elapsed_us := curlx_ptimediff_us pts (ts r) in
      if elapsed_us >=? wait_us then Some (r, 0)
      else
        wait_us ← i64 (wait_us - elapsed_us);
        wait_us ← i64 (wait_us + 999);
        Some (r, Z.quot wait_us 1000).

Definition Curl_rlimit_next_step_ms (r : Curl_rlimit) (pts : curltime) : option Z :=
  if negb (blocked r) && negb (rate_per_step r =? 0) then
    elapsed_us ← i64 (curlx_ptimediff_us pts (ts r) + spare_us r);
    if step_us r >? elapsed_us then
      next_us ← i64 (step_us r - elapsed_us);
      next_us ← i64 (next_us + 999);
      Some (Z.quot next_us 1000)
    else Some 0
  else Some 0.

Definition Curl_rlimit_block (r : Curl_rlimit) (activate : bool) (pts : curltime)
  : option Curl_rlimit :=
  if Bool.eqb activate (blocked r) then Some r
  else
    let r := set_blocked activate pts r in
    if negb (blocked r) then Curl_rlimit_start r pts (-1)
    else Some (set_tokens 0 r).

(** * The invariant *)

(** Times a clock shows. *)
Definition clock_time (t : curltime) : Prop :=
  0 <= tv_sec t <= 2 ^ 40 /\ 0 <= tv_usec t < 1000000.

(** The limits the options set: [burst] is 0 (none) or not below the rate, and
    small or the rate itself (lib/setopt.c passes the larger of the rate and
    32 KB). *)
Definition limits_ok (rate burst : Z) : Prop :=
  0 <= rate <= INT64_MAX /\
  (burst = 0 \/ rate <= burst /\ (burst <= INT64_MAX / 1000 \/ burst = rate)).

Lemma setopt_limits offt : 0 <= offt <= INT64_MAX -> limits_ok offt (Z.max offt (32 * 1024)).
Proof. intros H. split; [done|]. right. change (INT64_MAX / 1000) with 9223372036854775. lia. Qed.

Record rl_inv (r : Curl_rlimit) : Prop := {
  rl_limits : limits_ok (rate_per_sec r) (burst_per_sec r);
  rl_rate : 0 <= rate_per_step r <= INT64_MAX;
  rl_off : rate_per_step r = 0 <-> rate_per_sec r = 0;
  rl_burst : burst_per_step r = 0 \/ rate_per_step r <= burst_per_step r <= INT64_MAX;
  rl_step : 2000 <= step_us r <= 1999000;
  rl_spare : 0 <= spare_us r < step_us r;
  rl_tokens : INT64_MIN <= tokens r <= INT64_MAX;
  rl_cap : burst_per_step r <> 0 -> tokens r <= burst_per_step r;
  rl_ts : clock_time (ts r);
}.

Lemma i64_ok z : INT64_MIN <= z <= INT64_MAX -> i64 z = Some z.
Proof. intros [H1 H2]. unfold i64. apply Z.leb_le in H1, H2. by rewrite H1, H2. Qed.

Lemma i64_none z : INT64_MAX < z -> i64 z = None.
Proof. intros H. unfold i64. destruct (Z.leb_spec z INT64_MAX); [lia|]. by rewrite andb_false_r. Qed.

(** Constants for [lia], and the checked operations of the goal. *)
Ltac rl_consts := unfold INT64_MAX, INT64_MIN, CURL_US_PER_SEC in *.

Ltac rl_run :=
  match goal with
  | |- context [mbind _ (i64 ?z)] => rewrite (i64_ok z) by (rl_consts; first [lia|dlia|nia])
  | |- context [i64 ?z] => rewrite (i64_ok z) by (rl_consts; first [lia|dlia|nia])
  end; cbn [mbind option_bind]; rewrite ?Z.gtb_ltb.

Ltac rl_hyps H := let R := fresh "R" in
  pose proof H as R; destruct R as [?Hlim ?Hrate ?Hoff ?Hburst ?Hstep ?Hspare ?Htok ?Hcap ?Hts].

Lemma clock_diff a b : clock_time a -> clock_time b ->
  curlx_ptimediff_us a b = ktime a - ktime b /\ Z.abs (ktime a - ktime b) <= 2 ^ 61.
Proof.
  intros [Ha Ha2] [Hb Hb2]. split; [apply ptimediff_us_exact; lia|]. unfold ktime. lia.
Qed.

Definition gained (r : Curl_rlimit) (steps : Z) : Z :=
  Z.min INT64_MAX (tokens r + Z.min INT64_MAX (rate_per_step r * steps)).

Lemma gain_spec r steps : 0 <= rate_per_step r <= INT64_MAX -> INT64_MIN <= tokens r <= INT64_MAX ->
  1 <= steps -> gain_tokens steps r = Some (gained r steps).
Proof.
  intros Hr Ht Hs. unfold gain_tokens, gained. rewrite !Z.gtb_ltb.
  rewrite Z.quot_div_nonneg by (rl_consts; lia).
  assert (Hq : INT64_MAX / steps < rate_per_step r <-> INT64_MAX < rate_per_step r * steps).
  { rl_consts. split; intros H; [|apply Z.div_lt_upper_bound; lia].
    pose proof (Z.mul_succ_div_gt 9223372036854775807 steps). nia. }
  destruct (Z.ltb_spec (INT64_MAX / steps) (rate_per_step r)) as [H|H]; cbn [mbind option_bind].
  - rl_run. destruct (Z.ltb_spec (tokens r) (INT64_MAX - INT64_MAX)).
    + rl_run. f_equal. rl_consts. lia.
    + f_equal. rl_consts. lia.
  - assert (rate_per_step r * steps <= INT64_MAX) by lia.
    assert (0 <= rate_per_step r * steps) by nia. rl_run. rl_run.
    destruct (Z.ltb_spec (tokens r) (INT64_MAX - rate_per_step r * steps)).
    + rl_run. f_equal. rl_consts. lia.
    + f_equal. rl_consts. lia.
Qed.

(** The bucket at a time. *)
Definition elapsed (r : Curl_rlimit) (pts : curltime) : Z := ktime pts - ktime (ts r) + spare_us r.

Definition capped (r : Curl_rlimit) (t : Z) : Z :=
  if burst_per_step r =? 0 then t else Z.min t (burst_per_step r).

Definition updated (r : Curl_rlimit) (pts : curltime) : Curl_rlimit :=
  if (ktime pts <? ktime (ts r)) || (elapsed r pts <? step_us r) then r
  else
    set_tokens (capped r (gained r (elapsed r pts / step_us r)))
      (set_clock pts (elapsed r pts mod step_us r) r).

Lemma update_spec r pts : rl_inv r -> clock_time pts ->
  rlimit_update r pts = Some (updated r pts) /\ rl_inv (updated r pts).
Proof.
  intros Hr Hp. rl_hyps Hr. destruct (clock_diff pts (ts r) Hp Hts) as [Ed Hd].
  unfold rlimit_update, updated, elapsed. rewrite Ed.
  case_bool_decide as E; [|destruct (Z.ltb_spec (ktime pts - ktime (ts r)) 0)].
  - subst pts. rewrite Z.ltb_irrefl, Z.sub_diag. cbn [orb]. destruct (Z.ltb_spec (0 + spare_us r) (step_us r)); [done|lia].
  - destruct (Z.ltb_spec (ktime pts) (ktime (ts r))); [done|lia].
  - destruct (Z.ltb_spec (ktime pts) (ktime (ts r))); [lia|]. cbn [orb]. rl_run.
    set (el := ktime pts - ktime (ts r) + spare_us r) in *.
    destruct (Z.ltb_spec el (step_us r)); [done|]. cbn [step_us set_clock].
    rewrite Z.quot_div_nonneg, Z.rem_mod_nonneg by lia.
    assert (Hs1 : 1 <= el / step_us r) by (apply Z.div_le_lower_bound; lia).
    rewrite gain_spec by (cbn; done). cbn [mbind option_bind burst_per_step set_clock].
    rewrite Z.gtb_ltb. change (gained (set_clock pts (el mod step_us r) r)) with (gained r).
    assert (Hg : tokens r <= gained r (el / step_us r) <= INT64_MAX).
    { unfold gained. rl_consts. nia. }
    assert (Ecap : (if negb (burst_per_step r =? 0) && (burst_per_step r <? gained r (el / step_us r))
      then burst_per_step r else gained r (el / step_us r)) = capped r (gained r (el / step_us r))).
    { unfold capped. destruct (Z.eqb_spec (burst_per_step r) 0); cbn [negb andb]; [done|].
      destruct (Z.ltb_spec (burst_per_step r) (gained r (el / step_us r))); lia. }
    rewrite Ecap. split; [done|].
    assert (Hb : 0 <= burst_per_step r) by lia.
    assert (Hc : INT64_MIN <= capped r (gained r (el / step_us r)) <= INT64_MAX /\
      (burst_per_step r <> 0 -> capped r (gained r (el / step_us r)) <= burst_per_step r)).
    { unfold capped. destruct (Z.eqb_spec (burst_per_step r) 0); [rl_consts; lia|].
      rl_consts. lia. }
    pose proof (Z.mod_pos_bound el (step_us r)). split; cbn; try done; try lia; apply Hc.
Qed.

(** A bucket that was just started. *)
Record fresh_bucket (r : Curl_rlimit) : Prop := {
  fb_inv : rl_inv r;
  fb_tokens : tokens r = rate_per_step r;
  fb_spare : spare_us r = 0;
}.

Lemma init_fresh rate burst b t : limits_ok rate burst -> clock_time t ->
  fresh_bucket (mk_rlimit rate burst rate burst CURL_US_PER_SEC rate 0 t b).
Proof.
  intros [H1 H2] Ht. split; [|done|done]. split; cbn; try done; try (rl_consts; dlia).
Qed.

(** The tokens for the last step. *)
Lemma tokens_last_bound total : 2 <= total <= INT64_MAX / 1000 ->
  let tl := Z.quot total 100 in
  let tl := if tl =? 0 then 1 else if tl >? CURL_RLIMIT_MIN_RATE then CURL_RLIMIT_MIN_RATE else tl in
  1 <= tl < total.
Proof.
  intros H. cbn zeta. unfold CURL_RLIMIT_MIN_RATE. rewrite Z.quot_div_nonneg, Z.gtb_ltb by lia.
  repeat case_if; zb_hyps; dlia.
Qed.

(** What tuning keeps. *)
Definition same_limits (r r' : Curl_rlimit) : Prop :=
  ts r' = ts r /\ rate_per_sec r' = rate_per_sec r /\ burst_per_sec r' = burst_per_sec r /\
  blocked r' = blocked r.

Lemma spread_spec r ms : fresh_bucket r -> step_us r = CURL_US_PER_SEC -> 1000 <= ms ->
  1 <= rate_per_step r <= 9223372036854775 ->
  burst_per_step r = 0 \/ rate_per_step r <= burst_per_step r <= 9223372036854775 ->
  exists r', spread_steps r ms = Some r' /\ fresh_bucket r' /\ same_limits r r'.
Proof.
  intros Hf Es Hms Hr Hb. pose proof Hf as [Hi Et Esp]. unfold spread_steps.
  rewrite Z.rem_mod_nonneg, (Z.quot_div_nonneg ms 1000) by lia.
  assert (1 <= ms / 1000) by (apply Z.div_le_lower_bound; lia).
  pose proof (Z.mod_pos_bound ms 1000).
  rewrite (Z.quot_div_nonneg (ms mod 1000)) by lia. set (inc := ms mod 1000 / (ms / 1000)) in *.
  assert (0 <= inc <= 999).
  { split; [apply Z.div_pos; lia|]. unfold inc. apply Z.div_le_upper_bound; nia. }
  clearbody inc. destruct (Z.eqb_spec inc 0); [by exists r|].
  assert (0 <= rate_per_step r * inc <= 9223372036854775 * 999) by nia.
  rl_run. rewrite (Z.quot_div_nonneg (rate_per_step r * inc)) by lia.
  set (ri := rate_per_step r * inc / 1000) in *.
  assert (0 <= ri <= rate_per_step r).
  { split; [apply Z.div_pos; lia|apply Z.div_le_upper_bound; nia]. }
  destruct (Z.eqb_spec ri 0); [by exists r|].
  rl_run. rl_run. cbn [burst_per_step set_step]. rl_hyps Hi.
  destruct (Z.eqb_spec (burst_per_step r) 0) as [Eb|Eb].
  - eexists. split; [reflexivity|]. split; [|done]. split; [|done|done].
    split; cbn; try done; rl_consts; lia.
  - assert (0 <= burst_per_step r * inc <= 9223372036854775 * 999) by nia.
    rl_run. rewrite (Z.quot_div_nonneg (burst_per_step r * inc)) by lia.
    assert (ri <= burst_per_step r * inc / 1000 <= 9223372036854775).
    { split; [apply Z.div_le_mono; nia|apply Z.div_le_upper_bound; lia]. }
    destruct (Z.eqb_spec (burst_per_step r * inc / 1000) 0); [lia|]. rl_run.
    eexists. split; [reflexivity|]. split; [|done]. split; [|done|done].
    split; cbn; try done; rl_consts; lia.
Qed.

Lemma tune_spec r total : fresh_bucket r -> step_us r = CURL_US_PER_SEC ->
  rate_per_step r = rate_per_sec r -> burst_per_step r = burst_per_sec r ->
  exists r', rlimit_tune_steps r total = Some r' /\ fresh_bucket r' /\ same_limits r r'.
Proof.
  intros Hf Es Er Eb. pose proof Hf as [Hi Et Esp]. rl_hyps Hi. unfold rlimit_tune_steps.
  rewrite Z.gtb_ltb. change (Z.quot INT64_MAX 1000) with (INT64_MAX / 1000).
  destruct (Z.eqb_spec (rate_per_step r) 0); [by exists r|].
  destruct (Z.leb_spec total 1); [by exists r|].
  destruct (Z.ltb_spec (INT64_MAX / 1000) total); [by exists r|]. cbn [orb].
  pose proof (tokens_last_bound total) as Hl. cbn zeta in Hl.
  set (tl := if _ =? 0 then 1 else _) in *. specialize (Hl ltac:(lia)). clearbody tl.
  pose proof Hlim as [_ Hl2]. rewrite <- Er, <- Eb in Hl2.
  change (INT64_MAX / 1000) with 9223372036854775 in *.
  rl_run. rl_run. set (main := total - tl) in *. rewrite Z.quot_div_nonneg by lia.
  assert (Hms : main * 1000 / rate_per_step r * rate_per_step r <= main * 1000 <
    (main * 1000 / rate_per_step r + 1) * rate_per_step r) by (clearbody main; dlia).
  assert (0 <= main * 1000 / rate_per_step r) by (apply Z.div_pos; lia).
  set (ms := main * 1000 / rate_per_step r) in *. clearbody ms.
  unfold CURL_RLIMIT_STEP_MIN_MS. destruct (Z.ltb_spec ms 2); [by exists r|].
  destruct (Z.ltb_spec ms 1000).
  - rl_run. eexists. split; [reflexivity|]. split; [|done].
    assert (main < rate_per_step r) by nia.
    split; [|done|done]. split; cbn; try done; rl_consts; lia.
  - assert (rate_per_step r <= main) by nia. apply spread_spec; try done; lia.
Qed.

(** * The operations on a bucket *)

Definition limiting (r : Curl_rlimit) : Prop := blocked r = false /\ rate_per_step r <> 0.

Lemma start_spec r pts total : limits_ok (rate_per_sec r) (burst_per_sec r) -> clock_time pts ->
  exists r', Curl_rlimit_start r pts total = Some r' /\ fresh_bucket r' /\ ts r' = pts /\
    blocked r' = blocked r /\ (rate_per_step r' = 0 <-> rate_per_sec r = 0).
Proof.
  intros Hl Hp. unfold Curl_rlimit_start.
  destruct (tune_spec _ total (init_fresh _ _ (blocked r) pts Hl Hp)) as (r' & E & Hf & H1 & H2 & H3 & H4);
    try done. exists r'. split; [done|]. split; [done|]. split; [done|]. split; [done|].
  rewrite (rl_off _ (fb_inv _ Hf)). by rewrite H2.
Qed.

Lemma rl_inv_tokens r t : rl_inv r -> INT64_MIN <= t <= INT64_MAX ->
  (burst_per_step r <> 0 -> t <= burst_per_step r) -> rl_inv (set_tokens t r).
Proof. intros [] H1 H2. by split. Qed.

(** The bucket after [n] tokens were taken at a time. *)
Definition drained_at (r : Curl_rlimit) (n : Z) (t : curltime) : Curl_rlimit :=
  set_tokens (Z.max INT64_MIN (tokens (updated r t) - n)) (updated r t).

Lemma updated_same r t : rate_per_step (updated r t) = rate_per_step r /\
  burst_per_step (updated r t) = burst_per_step r /\ step_us (updated r t) = step_us r /\
  blocked (updated r t) = blocked r.
Proof. unfold updated. by case_if. Qed.

Lemma drain_spec r n pts now : rl_inv r -> limiting r -> clock_time (default now pts) ->
  0 <= n <= INT64_MAX ->
  Curl_rlimit_drain r n pts now = Some (drained_at r n (default now pts)) /\
  rl_inv (drained_at r n (default now pts)).
Proof.
  intros Hr [Hb H0] Hp Hn. unfold Curl_rlimit_drain. rewrite Hb.
  destruct (Z.eqb_spec (rate_per_step r) 0); [done|]. cbn [orb].
  destruct (update_spec r _ Hr Hp) as [E Hu]. rewrite E. cbn [mbind option_bind]. rewrite Z.gtb_ltb.
  destruct (Z.ltb_spec INT64_MAX n); [lia|]. rl_run. rl_hyps Hu. unfold drained_at.
  split; [|apply rl_inv_tokens; [done|rl_consts; lia|rl_consts; lia]].
  destruct (Z.ltb_spec (INT64_MIN + n) (tokens (updated r (default now pts)))); [rl_run|]; do 2 f_equal; rl_consts; lia.
Qed.

Lemma avail_spec r pts now : rl_inv r -> limiting r -> clock_time (default now pts) ->
  Curl_rlimit_avail r pts now = Some (updated r (default now pts), tokens (updated r (default now pts))).
Proof.
  intros Hr [Hb H0] Hp. unfold Curl_rlimit_avail. rewrite Hb.
  destruct (Z.eqb_spec (rate_per_step r) 0); [done|]. cbn [negb].
  destruct (update_spec r _ Hr Hp) as [-> _]. done.
Qed.

(** The signed products of [Curl_rlimit_wait_ms] on an updated bucket fit 64
    bits: a hundred times the debt, and the debt in hundredths of a step times
    the duration of a step. *)
Definition wait_fits (u : Curl_rlimit) : bool :=
  (0 <? tokens u) ||
  ((- tokens u) * 100 <=? INT64_MAX) &&
  (step_us u * ((- tokens u) * 100 / rate_per_step u) <=? INT64_MAX).

Lemma updated_tokens r t : rl_inv r -> tokens r <= tokens (updated r t).
Proof.
  intros Hr. rl_hyps Hr. unfold updated. destruct (Z.ltb_spec (ktime t) (ktime (ts r))); [done|]. cbn [orb].
  destruct (Z.ltb_spec (elapsed r t) (step_us r)); [done|]. cbn.
  assert (1 <= elapsed r t / step_us r) by (apply Z.div_le_lower_bound; lia).
  unfold capped, gained. case_if; zb_hyps; rl_consts; nia.
Qed.

(** The microseconds until the debt is paid, from the last update. *)
Definition wait_for (r : Curl_rlimit) : Z :=
  step_us r - spare_us r + step_us r * ((- tokens r) * 100 / rate_per_step r) / 100.

Lemma debt_wait_spec u : rl_inv u -> rate_per_step u <> 0 -> tokens u <= 0 ->
  if wait_fits u then
    debt_wait u (step_us u - spare_us u) = Some (wait_for u) /\
    step_us u - spare_us u <= wait_for u <= step_us u + INT64_MAX / 100
  else debt_wait u (step_us u - spare_us u) = None.
Proof.
  intros Hu H0 Ht. rl_hyps Hu. unfold wait_fits, debt_wait, wait_for.
  change (INT64_MAX / 100) with 92233720368547758.
  destruct (Z.ltb_spec 0 (tokens u)); [lia|]. cbn [orb].
  assert (Hpct : 0 <= - tokens u * 100 / rate_per_step u) by (apply Z.div_pos; lia).
  destruct (Z.ltb_spec (tokens u) 0).
  2: { assert (tokens u = 0) as -> by lia. cbn [Z.opp Z.mul]. rewrite Z.div_0_l, Z.mul_0_r, Z.div_0_l by lia.
    cbn. split; [f_equal; lia|lia]. }
  destruct (Z.leb_spec (- tokens u * 100) INT64_MAX) as [Hm|Hm]; cbn [andb].
  2: { destruct (Z.eqb_spec (tokens u) INT64_MIN) as [->|]; [done|]. rl_run. by rewrite (i64_none (- tokens u * 100)) by lia. }
  rl_run. rl_run. rewrite Z.quot_div_nonneg by lia.
  set (pct := - tokens u * 100 / rate_per_step u) in *. clearbody pct.
  destruct (Z.leb_spec (step_us u * pct) INT64_MAX) as [Hs|Hs].
  2: { destruct (Z.eqb_spec pct 0) as [->|]; [rl_consts; lia|]. by rewrite i64_none by lia. }
  assert (0 <= step_us u * pct) by nia.
  assert (0 <= step_us u * pct / 100 <= 92233720368547758).
  { rl_consts. clear - H2 Hs. dlia. }
  split; [|lia]. destruct (Z.eqb_spec pct 0) as [->|]; [f_equal; rewrite Z.mul_0_r, Z.div_0_l; lia|].
  rl_run. rewrite Z.quot_div_nonneg by lia. rl_run. done.
Qed.

(** After an update the next step is still to come. *)
Lemma updated_pending r pts : rl_inv r ->
  ktime pts - ktime (ts (updated r pts)) + spare_us (updated r pts) < step_us (updated r pts).
Proof.
  intros Hr. rl_hyps Hr. unfold updated. destruct (Z.ltb_spec (ktime pts) (ktime (ts r))); cbn [orb]; [lia|].
  destruct (Z.ltb_spec (elapsed r pts) (step_us r)) as [Hel|Hel]; [exact Hel|]. cbn.
  pose proof (Z.mod_pos_bound (elapsed r pts) (step_us r)). lia.
Qed.

Lemma wait_spec r pts : rl_inv r -> limiting r -> clock_time pts ->
  if wait_fits (updated r pts) then
    exists w, Curl_rlimit_wait_ms r pts = Some (updated r pts, w) /\
      (0 < tokens (updated r pts) -> w = 0) /\
      (tokens (updated r pts) <= 0 -> 0 < w /\
         ktime (ts (updated r pts)) + wait_for (updated r pts) <= ktime pts + 1000 * w)
  else Curl_rlimit_wait_ms r pts = None.
Proof.
  intros Hr [Hb H0] Hp. unfold Curl_rlimit_wait_ms. rewrite Hb.
  destruct (Z.eqb_spec (rate_per_step r) 0); [done|]. cbn [orb].
  destruct (update_spec r _ Hr Hp) as [E Hu]. rewrite E. cbn [mbind option_bind]. rewrite Z.gtb_ltb.
  destruct (updated_same r pts) as (E1 & _ & E3 & _). pose proof (updated_pending r pts Hr) as Hlt.
  set (u := updated r pts) in *. clearbody u. rewrite <- E1 in H0. rl_hyps Hu.
  destruct (clock_diff pts (ts u) Hp Hts) as [Ed Hdiff].
  destruct (Z.ltb_spec 0 (tokens u)) as [Ht|Ht].
  { unfold wait_fits. rewrite (proj2 (Z.ltb_lt _ _)) by done. cbn [orb].
    exists 0. split; [done|]. split; [done|lia]. }
  pose proof (debt_wait_spec u Hu H0 Ht) as Hw. rl_run.
  destruct (wait_fits u); [|by rewrite Hw]. destruct Hw as [Hw Hwf].
  change (INT64_MAX / 100) with 92233720368547758 in Hwf.
  rewrite Hw. cbn [mbind option_bind]. rewrite Ed, Z.geb_leb.
  destruct (Z.leb_spec (wait_for u) (ktime pts - ktime (ts u))); [lia|].
  set (wf := wait_for u) in *. clearbody wf. rl_run. rl_run.
  rewrite Z.quot_div_nonneg by lia. eexists. split; [reflexivity|]. split; [lia|]. intros _.
  split; [apply Z.div_str_pos; lia|]. clear - Hwf. dlia.
Qed.

(** Once the wait is over there are tokens. *)
Lemma paid_off u t : rl_inv u -> rate_per_step u <> 0 -> wait_fits u = true -> tokens u <= 0 ->
  ktime (ts u) + wait_for u <= ktime t -> 0 < tokens (updated u t).
Proof.
  intros Hu H0 Hd Ht Hw. rl_hyps Hu. unfold wait_fits in Hd.
  destruct (Z.ltb_spec 0 (tokens u)); [lia|]. cbn [orb] in Hd. apply andb_true_iff in Hd as [Hd _]. apply Z.leb_le in Hd.
  unfold wait_for in Hw. set (D := - tokens u) in *.
  assert (HD : 0 <= D / rate_per_step u) by (apply Z.div_pos; lia).
  assert (Hfl : step_us u * (D / rate_per_step u) <= step_us u * (D * 100 / rate_per_step u) / 100).
  { apply Z.div_le_lower_bound; [lia|].
    assert (100 * (D / rate_per_step u) <= D * 100 / rate_per_step u); [|nia].
    apply Z.div_le_lower_bound; [lia|]. pose proof (Z.mul_div_le D (rate_per_step u)). nia. }
  assert (Hel : step_us u * (1 + D / rate_per_step u) <= elapsed u t) by (unfold elapsed; lia).
  assert (Hge : step_us u <= elapsed u t) by nia.
  unfold updated. destruct (Z.ltb_spec (ktime t) (ktime (ts u))); [unfold elapsed in Hge; lia|]. cbn [orb].
  destruct (Z.ltb_spec (elapsed u t) (step_us u)); [lia|]. cbn [tokens set_tokens].
  assert (Hst : 1 + D / rate_per_step u <= elapsed u t / step_us u) by (apply Z.div_le_lower_bound; lia).
  assert (Hgain : D < rate_per_step u * (elapsed u t / step_us u)).
  { pose proof (Z.mul_succ_div_gt D (rate_per_step u)). nia. }
  unfold capped, gained. case_if; zb_hyps; rl_consts; lia.
Qed.

(** C18: The wait the limiter asks for.  A limiter that is blocked or has no
    rate asks for none and stays as it is.  Otherwise the bucket is brought up
    to date and, unless one of the two products of the computation is above
    [INT64_MAX] (then the call is undefined), the wait is 0 exactly when there
    are tokens, and after waiting that many milliseconds, the bucket not being
    used in between, there are some. *)
Theorem rlimit_wait_enough (r : Curl_rlimit) (pts pts' now : curltime) :
  rl_inv r -> clock_time pts -> clock_time pts' ->
  if blocked r || (rate_per_step r =? 0) then Curl_rlimit_wait_ms r pts = Some (r, 0)
  else if wait_fits (updated r pts) then
    exists w r'' n, Curl_rlimit_wait_ms r pts = Some (updated r pts, w) /\
      (w = 0 <-> 0 < tokens (updated r pts)) /\
      (ktime pts + 1000 * w <= ktime pts' ->
       Curl_rlimit_avail (updated r pts) (Some pts') now = Some (r'', n) /\ 0 < n)
  else Curl_rlimit_wait_ms r pts = None.
Proof.
  intros Hr Hp Hp'. destruct (blocked r || (rate_per_step r =? 0)) eqn:Eb; [by unfold Curl_rlimit_wait_ms; rewrite Eb|].
  assert (Hl : limiting r) by (unfold limiting; destruct (blocked r), (Z.eqb_spec (rate_per_step r) 0); done).
  pose proof (wait_spec r pts Hr Hl Hp) as Hw. destruct (wait_fits (updated r pts)) eqn:Ef; [|done].
  destruct Hw as (w & E & Hw1 & Hw2).
  destruct (update_spec r pts Hr Hp) as [_ Hu]. destruct (updated_same r pts) as (E1 & _ & _ & E4).
  assert (Hl' : limiting (updated r pts)) by (unfold limiting; by rewrite E1, E4).
  exists w. do 2 eexists. split; [exact E|]. split; [lia|]. intros Hge.
  rewrite avail_spec by done. cbn [default]. split; [reflexivity|].
  destruct (Z.leb_spec (tokens (updated r pts)) 0) as [Ht|Ht].
  - destruct (Hw2 Ht) as [_ Hw]. destruct Hl' as [_ H0]. apply paid_off; try done. cbn. lia.
  - pose proof (updated_tokens (updated r pts) pts' Hu). unfold id. lia.
Qed.

(** * Any sequence of operations *)

Inductive rl_op :=
  | RlInit (rate burst : Z) (pts : curltime)
  | RlStart (pts : curltime) (total : Z)
  | RlAvail (pts : option curltime) (now : curltime)
  | RlDrain (n : Z) (pts : option curltime) (now : curltime)
  | RlWait (pts : curltime)
  | RlNext (pts : curltime)
  | RlBlock (activate : bool) (pts : curltime).

Definition rl_apply (op : rl_op) (r : Curl_rlimit) : option (Curl_rlimit * Z) :=
  match op with
  | RlInit rate burst pts => Some (Curl_rlimit_init rate burst pts, 0)
  | RlStart pts total => r ← Curl_rlimit_start r pts total; Some (r, 0)
  | RlAvail pts now => Curl_rlimit_avail r pts now
  | RlDrain n pts now => r ← Curl_rlimit_drain r n pts now; Some (r, 0)
  | RlWait pts => Curl_rlimit_wait_ms r pts
  | RlNext pts => v ← Curl_rlimit_next_step_ms r pts; Some (r, v)
  | RlBlock activate pts => r ← Curl_rlimit_block r activate pts; Some (r, 0)
  end.

(** The arguments of an operation: limits as the options set them, times a
    clock shows, a number of tokens that a signed number can say. *)
Definition rl_op_ok (op : rl_op) : Prop :=
  match op with
  | RlInit rate burst pts => limits_ok rate burst /\ clock_time pts
  | RlStart pts _ | RlNext pts | RlBlock _ pts | RlWait pts => clock_time pts
  | RlAvail pts now => clock_time (default now pts)
  | RlDrain n pts now => 0 <= n <= INT64_MAX /\ clock_time (default now pts)
  end.

(** A wait whose products do not fit. *)
Definition op_overflows (op : rl_op) (r : Curl_rlimit) : bool :=
  match op with
  | RlWait pts => negb (blocked r || (rate_per_step r =? 0)) && negb (wait_fits (updated r pts))
  | _ => false
  end.

(** What an operation answers. *)
Definition rl_answer_ok (op : rl_op) (r r' : Curl_rlimit) (v : Z) : Prop :=
  match op with
  | RlAvail pts now =>
      v = if blocked r then 0 else if rate_per_step r =? 0 then INT64_MAX else tokens r'
  | RlWait _ => v = 0 <-> ~ limiting r \/ 0 < tokens r'
  | RlNext pts => 0 <= v /\ (limiting r -> step_us r <= elapsed r pts + 1000 * v)
  | _ => True
  end.

Lemma not_limiting r : blocked r || (rate_per_step r =? 0) = true <-> ~ limiting r.
Proof.
  unfold limiting. destruct (blocked r), (Z.eqb_spec (rate_per_step r) 0); cbn; split; intros H; try done;
    intuition congruence.
Qed.

Lemma limiting_dec r : limiting r \/ ~ limiting r.
Proof. unfold limiting. destruct (blocked r), (Z.eqb_spec (rate_per_step r) 0); intuition congruence. Qed.

Lemma rl_apply_ok r op : rl_inv r -> rl_op_ok op -> op_overflows op r = false ->
  exists r' v, rl_apply op r = Some (r', v) /\ rl_inv r' /\ rl_answer_ok op r r' v.
Proof.
  intros Hr Hop Hov. destruct op as [rate burst pts|pts total|pts now|n pts now|pts|pts|b pts];
    cbn [rl_op_ok rl_apply rl_answer_ok op_overflows] in *.
  - destruct Hop as [Hl Hp]. do 2 eexists. split; [reflexivity|]. split; [|done].
    apply (fb_inv _ (init_fresh rate burst false pts Hl Hp)).
  - destruct (start_spec r pts total (rl_limits _ Hr) Hop) as (r' & -> & Hf & _).
    do 2 eexists. split; [reflexivity|]. split; [apply Hf|done].
  - destruct (limiting_dec r) as [Hl|Hl].
    + rewrite avail_spec by done. do 2 eexists. split; [reflexivity|].
      split; [apply update_spec; done|]. destruct Hl as [-> H0]. by destruct (Z.eqb_spec (rate_per_step r) 0).
    + unfold Curl_rlimit_avail. apply not_limiting in Hl. destruct (blocked r); [by exists r, 0|].
      cbn in Hl. rewrite Hl. by exists r, INT64_MAX.
  - destruct Hop as [Hn Hp]. destruct (limiting_dec r) as [Hl|Hl].
    + destruct (drain_spec r n pts now Hr Hl Hp Hn) as [-> Hi]. do 2 eexists. split; [reflexivity|]. done.
    + unfold Curl_rlimit_drain. apply not_limiting in Hl. rewrite Hl. by exists r, 0.
  - destruct (limiting_dec r) as [Hl|Hl].
    + pose proof (wait_spec r pts Hr Hl Hop) as Hw. destruct (blocked r || (rate_per_step r =? 0)) eqn:Eb.
      { by apply not_limiting in Eb. }
      cbn [negb andb] in Hov. apply negb_false_iff in Hov. rewrite Hov in Hw.
      destruct Hw as (w & -> & H1 & H2). do 2 eexists. split; [reflexivity|].
      split; [apply update_spec; done|]. split; [lia|]. intros [?|?]; [done|by apply H1].
    + unfold Curl_rlimit_wait_ms. pose proof Hl as Hl'. apply not_limiting in Hl. rewrite Hl. exists r, 0.
      split; [done|]. split; [done|]. split; [by left|done].
  - destruct (limiting_dec r) as [[Hb H0]|Hl].
    + unfold Curl_rlimit_next_step_ms. rewrite Hb. destruct (Z.eqb_spec (rate_per_step r) 0); [done|].
      cbn [negb andb]. rl_hyps Hr. destruct (clock_diff pts (ts r) Hop Hts) as [-> Hd].
      fold (elapsed r pts). assert (Z.abs (elapsed r pts) <= 2 ^ 61 + 1999000) by (unfold elapsed; lia).
      set (el := elapsed r pts) in *. clearbody el. rl_run. destruct (Z.ltb_spec el (step_us r)).
      * rl_run. rl_run. rewrite Z.quot_div_nonneg by lia. do 2 eexists. split; [reflexivity|].
        split; [done|]. split; [apply Z.div_pos; lia|]. intros _. dlia.
      * do 2 eexists. split; [reflexivity|]. split; [done|]. lia.
    + unfold Curl_rlimit_next_step_ms. rewrite <- negb_orb. pose proof Hl as Hl'. apply not_limiting in Hl.
      rewrite Hl. exists r, 0. split; [done|]. split; [done|]. split; [lia|done].
  - unfold Curl_rlimit_block. destruct (Bool.eqb b (blocked r)); [by exists r, 0|].
    destruct b; cbn [negb blocked set_blocked].
    + do 2 eexists. split; [reflexivity|]. split; [|done]. rl_hyps Hr. split; cbn; try done; rl_consts; lia.
    + destruct (start_spec (set_blocked false pts r) pts (-1) (rl_limits _ Hr) Hop) as (r' & -> & Hf & _).
      do 2 eexists. split; [reflexivity|]. split; [apply Hf|done].
Qed.

Fixpoint rl_exec (ops : list rl_op) (r : Curl_rlimit) : option Curl_rlimit :=
  match ops with
  | [] => Some r
  | op :: ops => '(r, _) ← rl_apply op r; rl_exec ops r
  end.

(** A run comes to a wait whose products do not fit. *)
Fixpoint wait_overflow (ops : list rl_op) (r : Curl_rlimit) : bool :=
  match ops with
  | [] => false
  | op :: ops => op_overflows op r ||
      match rl_apply op r with Some (r, _) => wait_overflow ops r | None => false end
  end.

Lemma op_overflows_none r op : rl_inv r -> rl_op_ok op -> op_overflows op r = true -> rl_apply op r = None.
Proof.
  intros Hr Hop Hov. destruct op as [| | | |pts| |]; try done. cbn [op_overflows rl_apply rl_op_ok] in *.
  apply andb_true_iff in Hov as [H1 H2]. apply negb_true_iff in H1, H2.
  assert (Hl : limiting r) by (unfold limiting; destruct (blocked r), (Z.eqb_spec (rate_per_step r) 0); done).
  pose proof (wait_spec r pts Hr Hl Hop) as Hw. by rewrite H2 in Hw.
Qed.

(** C17: Any sequence of operations, with limits as the options set them,
    clock times, and drains of at most [INT64_MAX] tokens.  Unless it comes to
    a wait for a debt so high that a product of [Curl_rlimit_wait_ms] is above
    [INT64_MAX], no signed operation of the rate limiter overflows, and the
    state it reaches keeps the invariant: the steps last between 2 ms and 2 s,
    the time carried over is less than a step, the tokens are a 64-bit number
    and never above the burst limit.  A sequence that comes to such a wait
    does overflow there: that is the only computation that can. *)
Theorem rlimit_invariant (rate burst : Z) (t0 : curltime) (ops : list rl_op) :
  limits_ok rate burst -> clock_time t0 -> Forall rl_op_ok ops ->
  if wait_overflow ops (Curl_rlimit_init rate burst t0)
  then rl_exec ops (Curl_rlimit_init rate burst t0) = None
  else exists r, rl_exec ops (Curl_rlimit_init rate burst t0) = Some r /\ rl_inv r.
Proof.
  intros Hl Ht. pose proof (fb_inv _ (init_fresh rate burst false t0 Hl Ht)) as Hr.
  change (mk_rlimit _ _ _ _ _ _ _ _ _) with (Curl_rlimit_init rate burst t0) in Hr.
  revert Hr. generalize (Curl_rlimit_init rate burst t0) as r. clear.
  induction ops as [|op ops IH]; intros r Hr Hops; [by exists r|].
  apply Forall_cons_1 in Hops as [Hop Hops]. cbn [rl_exec wait_overflow].
  destruct (op_overflows op r) eqn:Eo; cbn [orb]; [by rewrite (op_overflows_none r op Hr Hop Eo)|].
  destruct (rl_apply_ok r op Hr Hop Eo) as (r' & v & E & Hr' & _). rewrite E. by apply IH.
Qed.

Definition rl_ops0 : list rl_op :=
  [RlStart (mk_time 100 0) 15000; RlAvail None (mk_time 100 5); RlDrain 14000 None (mk_time 100 900000);
   RlWait (mk_time 101 0); RlNext (mk_time 101 1); RlBlock true (mk_time 102 0); RlAvail None (mk_time 102 7);
   RlBlock false (mk_time 103 0); RlDrain 500 (Some (mk_time 103 5)) (mk_time 0 0)].

Lemma rlimit_invariant_witness :
  if wait_overflow rl_ops0 (Curl_rlimit_init 10000 32768 (mk_time 99 0))
  then rl_exec rl_ops0 (Curl_rlimit_init 10000 32768 (mk_time 99 0)) = None
  else exists r, rl_exec rl_ops0 (Curl_rlimit_init 10000 32768 (mk_time 99 0)) = Some r /\ rl_inv r.
Proof.
  apply (rlimit_invariant 10000 32768 (mk_time 99 0) rl_ops0).
  - split; [split; discriminate|]. right. split; [discriminate|]. left. vm_compute. discriminate.
  - split; split; (discriminate || reflexivity).
  - repeat constructor; vm_compute; intuition discriminate.
Defined.

(** The sequence of the witness has no such wait; one that drains a million
    million tokens at one token a second has. *)
Example rl_ops0_fits : wait_overflow rl_ops0 (Curl_rlimit_init 10000 32768 (mk_time 99 0)) = false.
Proof. vm_compute. reflexivity. Qed.

Example rl_debt_overflows :
  wait_overflow [RlDrain 1000000000001 None (mk_time 99 0); RlWait (mk_time 99 0)]
    (Curl_rlimit_init 1 0 (mk_time 99 0)) = true.
Proof. vm_compute. reflexivity. Qed.

Lemma rlimit_wait_enough_witness :
  let r := set_tokens (-7000) (Curl_rlimit_init 10000 32768 (mk_time 99 0)) in
  let pts := mk_time 99 400000 in
  let pts' := mk_time 101 0 in
  if blocked r || (rate_per_step r =? 0) then Curl_rlimit_wait_ms r pts = Some (r, 0)
  else if wait_fits (updated r pts) then
    exists w r'' n, Curl_rlimit_wait_ms r pts = Some (updated r pts, w) /\
      (w = 0 <-> 0 < tokens (updated r pts)) /\
      (ktime pts + 1000 * w <= ktime pts' ->
       Curl_rlimit_avail (updated r pts) (Some pts') (mk_time 0 0) = Some (r'', n) /\ 0 < n)
  else Curl_rlimit_wait_ms r pts = None.
Proof.
  apply rlimit_wait_enough.
  - apply rl_inv_tokens; [|split; discriminate|intros _; discriminate].
    refine (fb_inv _ (init_fresh 10000 32768 false (mk_time 99 0) _ _)).
    + split; [split; discriminate|]. right. split; [discriminate|]. left. vm_compute. discriminate.
    + split; split; (discriminate || reflexivity).
  - split; split; (discriminate || reflexivity).
  - split; split; (discriminate || reflexivity).
Defined.

(** * The rate *)

(** Operations while a transfer runs. *)
Definition is_use (op : rl_op) : Prop :=
  match op with RlAvail _ _ | RlDrain _ _ _ | RlWait _ | RlNext _ => True | _ => False end.

Definition op_time (op : rl_op) : curltime :=
  match op with
  | RlInit _ _ pts | RlStart pts _ | RlWait pts | RlNext pts | RlBlock _ pts => pts
  | RlAvail pts now | RlDrain _ pts now => default now pts
  end.

Definition taken (op : rl_op) : Z := match op with RlDrain n _ _ => n | _ => 0 end.

Definition total_taken (ops : list rl_op) : Z := foldr (fun op d => taken op + d) 0 ops.

(** The bucket [r] was started as [r0], has gone [k] steps and gave [D] tokens. *)
Record account (r0 r : Curl_rlimit) (D k : Z) : Prop := {
  ac_inv : rl_inv r;
  ac_on : limiting r;
  ac_rate : rate_per_step r = rate_per_step r0;
  ac_step : step_us r = step_us r0;
  ac_burst : burst_per_step r = burst_per_step r0;
  ac_k : 0 <= k;
  ac_taken : 0 <= D;
  ac_clock : ktime (ts r) - spare_us r = ktime (ts r0) + k * step_us r0;
  ac_low : - D <= tokens r;
  ac_high : tokens r + D <= rate_per_step r0 * (1 + k);
  ac_exact : burst_per_step r0 = 0 -> rate_per_step r0 * (1 + k) <= INT64_MAX ->
    tokens r + D = rate_per_step r0 * (1 + k);
}.

Lemma updated_ts r t T : ktime (ts r) <= T -> ktime t <= T -> ktime (ts (updated r t)) <= T.
Proof. intros H1 H2. unfold updated. by case_if. Qed.

Lemma account_update r0 r D k t : account r0 r D k -> clock_time t ->
  exists k', account r0 (updated r t) D k' /\ (ktime (ts r) <= ktime t -> k' = (ktime t - ktime (ts r0)) / step_us r0).
Proof.
  intros [Hi [Hb H0] Er Es Eb Hk HD Hc Hlow Hhigh Hex] Ht. destruct (update_spec r t Hi Ht) as [_ Hu].
  pose proof (updated_tokens r t Hi) as Htok. destruct (updated_same r t) as (E1 & E2 & E3 & E4).
  pose proof (updated_pending r t Hi) as Hpend. rl_hyps Hi.
  assert (Hlim' : limiting (updated r t)) by (split; congruence).
  assert (Hk' : exists k', 0 <= k' /\ ktime (ts (updated r t)) - spare_us (updated r t) =
      ktime (ts r0) + k' * step_us r0 /\ tokens (updated r t) + D <= rate_per_step r0 * (1 + k') /\
      (burst_per_step r0 = 0 -> rate_per_step r0 * (1 + k') <= INT64_MAX ->
        tokens (updated r t) + D = rate_per_step r0 * (1 + k'))).
  { clear Hpend Hu Htok E1 E2 E3 E4 Hlim'. unfold updated.
    destruct (Z.ltb_spec (ktime t) (ktime (ts r))); cbn [orb]; [by exists k|].
    destruct (Z.ltb_spec (elapsed r t) (step_us r)); [by exists k|]. cbn [ts spare_us tokens set_tokens set_clock].
    pose proof (Z.div_mod (elapsed r t) (step_us r) ltac:(lia)) as Hdm.
    assert (1 <= elapsed r t / step_us r) by (apply Z.div_le_lower_bound; lia).
    set (n := elapsed r t / step_us r) in *. clearbody n. exists (k + n).
    split; [lia|]. split; [unfold elapsed in *; rewrite Es in *; lia|].
    assert (0 <= rate_per_step r * n) by nia. rewrite <- Er in *.
    replace (rate_per_step r * (1 + (k + n))) with (rate_per_step r * (1 + k) + rate_per_step r * n) by lia.
    unfold capped, gained. rewrite Eb.
    split; [destruct (Z.eqb_spec (burst_per_step r0) 0); lia|].
    intros Eb0 Hmax. rewrite Eb0. cbn [Z.eqb]. specialize (Hex Eb0 ltac:(lia)).
    assert (0 <= rate_per_step r * (1 + k)) by nia. rl_consts. lia. }
  destruct Hk' as (k' & K1 & K2 & K3 & K4). exists k'. split.
  - split; try done; try congruence; lia.
  - intros Hge. apply Z.div_unique with (ktime t - ktime (ts (updated r t)) + spare_us (updated r t)).
    + left. pose proof (updated_ts r t (ktime t) Hge ltac:(lia)). pose proof (rl_spare _ Hu). lia.
    + lia.
Qed.

Lemma account_drain r0 r D k n : account r0 r D k -> 0 <= n -> D + n <= INT64_MAX ->
  account r0 (set_tokens (Z.max INT64_MIN (tokens r - n)) r) (D + n) k.
Proof.
  intros [Hi [Hb H0] Er Es Eb Hk HD Hc Hlow Hhigh Hex] Hn Hmax.
  replace (Z.max INT64_MIN (tokens r - n)) with (tokens r - n) by (rl_consts; lia). rl_hyps Hi.
  split; try done; cbn; try lia.
  apply rl_inv_tokens; [done| |]; rl_consts; lia.
Qed.

Lemma account_start r t0 total : rl_inv r -> blocked r = false -> rate_per_sec r <> 0 -> clock_time t0 ->
  exists r0, Curl_rlimit_start r t0 total = Some r0 /\ account r0 r0 0 0 /\ ts r0 = t0.
Proof.
  intros Hr Hb Hrate Ht. destruct (start_spec r t0 total (rl_limits _ Hr) Ht) as (r0 & E & Hf & Ets & Eb & Hoff).
  exists r0. split; [done|]. split; [|done]. destruct Hf as [Hi Et Esp]. assert (limiting r0).
  { split; [congruence|]. intros H0. apply Hrate. by apply Hoff. }
  pose proof (rl_rate _ Hi). split; try done; lia.
Qed.

Lemma account_apply r0 r D k op T : account r0 r D k -> is_use op -> rl_op_ok op -> op_overflows op r = false ->
  ktime (ts r) <= T -> ktime (op_time op) <= T -> D + taken op <= INT64_MAX ->
  exists r' v k', rl_apply op r = Some (r', v) /\ account r0 r' (D + taken op) k' /\ ktime (ts r') <= T.
Proof.
  intros Ha Hu Hop Hov Hts Hot HD. pose proof (ac_inv _ _ _ _ Ha) as Hi. pose proof (ac_on _ _ _ _ Ha) as Hl.
  destruct op as [| |pts now|n pts now|pts|pts|]; try done; cbn [rl_op_ok rl_apply op_time taken] in *;
    rewrite ?Z.add_0_r.
  - destruct (account_update r0 r D k _ Ha Hop) as (k' & Ha' & _). rewrite avail_spec by done.
    do 3 eexists. split; [reflexivity|]. split; [done|by apply updated_ts].
  - destruct Hop as [Hn Hp]. destruct (account_update r0 r D k _ Ha Hp) as (k' & Ha' & _).
    destruct (drain_spec r n pts now Hi Hl Hp Hn) as [-> _]. do 3 eexists. split; [reflexivity|].
    split; [apply account_drain; [exact Ha'|lia|lia]|]. by apply updated_ts.
  - destruct (account_update r0 r D k _ Ha Hop) as (k' & Ha' & _).
    pose proof (wait_spec r pts Hi Hl Hop) as Hw. cbn [op_overflows] in Hov.
    destruct (blocked r || (rate_per_step r =? 0)) eqn:Eb; [by apply not_limiting in Eb|].
    cbn [negb andb] in Hov. apply negb_false_iff in Hov. rewrite Hov in Hw.
    destruct Hw as (w & -> & _). do 3 eexists. split; [reflexivity|].
    split; [done|by apply updated_ts].
  - destruct (rl_apply_ok r (RlNext pts) Hi Hop Hov) as (r' & v & E & _). cbn [rl_apply] in E.
    destruct (Curl_rlimit_next_step_ms r pts) as [z|]; [|done]. by exists r, z, k.
Qed.

Lemma account_exec r0 ops T : forall r D k, account r0 r D k -> Forall is_use ops ->
  Forall rl_op_ok ops -> wait_overflow ops r = false ->
  Forall (fun op => ktime (op_time op) <= T) ops -> Forall (fun op => 0 <= taken op) ops ->
  ktime (ts r) <= T -> D + total_taken ops <= INT64_MAX ->
  exists r' k', rl_exec ops r = Some r' /\ account r0 r' (D + total_taken ops) k' /\ ktime (ts r') <= T.
Proof.
  induction ops as [|op ops IH]; intros r D k Ha Hu Hok Hov Ht Hn Hts HD; cbn [total_taken foldr wait_overflow] in *.
  - rewrite Z.add_0_r. by exists r, k.
  - apply Forall_cons in Hu as [Hu Hus], Ht as [Hto Hts'], Hn as [Hn Hns], Hok as [Hop Hok].
    apply orb_false_iff in Hov as [Ho Hov].
    change (foldr _ 0 ops) with (total_taken ops) in *.
    assert (0 <= total_taken ops).
    { clear - Hns. induction Hns as [|o os Ho _ IH]; cbn; [lia|]. unfold total_taken in IH. lia. }
    destruct (account_apply r0 r D k op T Ha Hu Hop Ho Hts Hto ltac:(lia)) as (r' & v & k' & E & Ha' & Hts2).
    cbn [rl_exec]. rewrite E in *. cbn [mbind option_bind]. rewrite Z.add_assoc. apply (IH r' _ k'); try done. lia.
Qed.

(** C16: The limiter keeps the rate: at any time after a start, the tokens taken
    since then and the tokens still on offer are together at most one step's
    rate more than the rate times the number of full steps gone by; without a
    burst limit, and while the number fits 64 bits, they are exactly that.  The
    uses may be any but a sequence that comes to a wait that overflows
    ([wait_overflow]). *)
Theorem rlimit_bounds_rate (r : Curl_rlimit) (t0 T : curltime) (total : Z) :
  rl_inv r -> blocked r = false -> rate_per_sec r <> 0 -> clock_time t0 -> clock_time T ->
  ktime t0 <= ktime T ->
  exists r0, Curl_rlimit_start r t0 total = Some r0 /\
    forall ops, Forall is_use ops -> Forall rl_op_ok ops -> wait_overflow ops r0 = false ->
      Forall (fun op => ktime (op_time op) <= ktime T) ops -> Forall (fun op => 0 <= taken op) ops ->
      total_taken ops <= INT64_MAX ->
      exists r1 r2 avail, rl_exec ops r0 = Some r1 /\
        Curl_rlimit_avail r1 (Some T) T = Some (r2, avail) /\
        let limit := rate_per_step r0 * (1 + (ktime T - ktime t0) / step_us r0) in
        total_taken ops + avail <= limit /\
        (burst_per_step r0 = 0 -> limit <= INT64_MAX -> total_taken ops + avail = limit).
Proof.
  intros Hr Hb Hrate Ht0 HT Hle. destruct (account_start r t0 total Hr Hb Hrate Ht0) as (r0 & E & Ha & Ets).
  exists r0. split; [done|]. intros ops Hu Hok Hov Ht Hn HD.
  destruct (account_exec r0 ops (ktime T) r0 0 0 Ha Hu Hok Hov Ht Hn) as (r1 & k & E1 & Ha1 & Hts1); [by rewrite Ets|done|].
  destruct (account_update r0 r1 _ k T Ha1 HT) as (k' & Ha2 & Hk'). specialize (Hk' Hts1).
  rewrite Ets in Hk'. subst k'. exists r1. do 2 eexists. split; [done|].
  rewrite avail_spec by (try done; apply Ha1). split; [reflexivity|]. cbn [default id]. cbn zeta.
  destruct Ha2 as [_ _ _ _ _ _ _ _ _ Hhigh Hex]. rewrite Z.add_0_l in *. split; [lia|].
  intros B1 B2. specialize (Hex B1 B2). lia.
Qed.

Definition rl_uses0 : list rl_op :=
  [RlAvail None (mk_time 100 5); RlDrain 6000 None (mk_time 100 900000); RlNext (mk_time 101 1);
   RlDrain 9000 (Some (mk_time 101 5)) (mk_time 0 0); RlWait (mk_time 101 10)].

Lemma rlimit_bounds_rate_witness : exists r0,
  Curl_rlimit_start (Curl_rlimit_init 10000 0 (mk_time 99 0)) (mk_time 100 0) (-1) = Some r0 /\
  exists r1 r2 avail, rl_exec rl_uses0 r0 = Some r1 /\
    Curl_rlimit_avail r1 (Some (mk_time 103 7)) (mk_time 103 7) = Some (r2, avail) /\
    let limit := rate_per_step r0 * (1 + (ktime (mk_time 103 7) - ktime (mk_time 100 0)) / step_us r0) in
    total_taken rl_uses0 + avail <= limit /\
    (burst_per_step r0 = 0 -> limit <= INT64_MAX -> total_taken rl_uses0 + avail = limit).
Proof.
  destruct (rlimit_bounds_rate (Curl_rlimit_init 10000 0 (mk_time 99 0)) (mk_time 100 0) (mk_time 103 7) (-1))
    as (r0 & E & H).
  - refine (fb_inv _ (init_fresh 10000 0 false (mk_time 99 0) _ _)); vm_compute; intuition discriminate.
  - reflexivity.
  - discriminate.
  - vm_compute. intuition discriminate.
  - vm_compute. intuition discriminate.
  - vm_compute. discriminate.
  - exists r0. split; [exact E|]. vm_compute in E. injection E as <-. apply H.
    + repeat constructor.
    + repeat constructor; vm_compute; intuition discriminate.
    + reflexivity.
    + repeat constructor; vm_compute; discriminate.
    + repeat constructor; vm_compute; discriminate.
    + vm_compute. discriminate.
Defined.

(** Taking more tokens than a signed number can say fills the bucket instead
    of emptying it. *)
Example drain_huge_fills :
  tokens <$> Curl_rlimit_drain (Curl_rlimit_init 10000 0 (mk_time 99 0)) (2 ^ 63) None (mk_time 99 0)
  = Some INT64_MAX.
Proof. reflexivity. Qed.

(** A debt of a million million tokens at one token a second overflows the
    computation of the wait. *)
Example wait_overflows :
  Curl_rlimit_wait_ms (set_tokens (-1000000000000) (Curl_rlimit_init 1 0 (mk_time 99 0))) (mk_time 99 0) = None.
Proof. reflexivity. Qed.
