(* ===== verification/Llist.v ===== *)
(** The doubly linked lists of lib/llist.c.

    Lists and nodes live in two stores; a node is part of the object it links
    and points back at its list, so the operations reach everything through
    pointers, and each access is checked.  [llist_rep s L xs] says that the list
    [L] holds the elements [xs]. *)

From Stdlib Require Import ZArith Lia List.
From stdpp Require Import base numbers option list gmap.
From S2P Require Import Prelude.
Close Scope nat_scope.
Open Scope Z_scope.

(** Addresses of nodes and of lists. *)
Abbreviation nloc := positive.
Abbreviation lloc := positive.

Record Curl_llist := mk_llist {
  l_head : option nloc;
  l_tail : option nloc;
  l_dtor : bool;
  l_size : Z;
}.

Record Curl_llist_node := mk_lnode {
  n_list : option lloc;
  n_ptr : Z;
  n_prev : option nloc;
  n_next : option nloc;
}.

Record lstate := mk_lstate {
  lists : gmap lloc Curl_llist;
  nodes : gmap nloc Curl_llist_node;
}.

(** [l->field = ...] and [n->field = ...] *)
Definition wlist (L : lloc) (f : Curl_llist -> Curl_llist) (s : lstate) : option lstate :=
  l ← lists s !! L; Some (mk_lstate (<[L := f l]> (lists s)) (nodes s)).

Definition wnode (e : option nloc) (f : Curl_llist_node -> Curl_llist_node) (s : lstate) : option lstate :=
  e ← e; n ← nodes s !! e; Some (mk_lstate (lists s) (<[e := f n]> (nodes s))).

Definition rnode (e : option nloc) (s : lstate) : option Curl_llist_node := e ← e; nodes s !! e.

Definition lset_head v l := mk_llist v (l_tail l) (l_dtor l) (l_size l).
Definition lset_tail v l := mk_llist (l_head l) v (l_dtor l) (l_size l).
Definition lset_size v l := mk_llist (l_head l) (l_tail l) (l_dtor l) v.
Definition nset_list v n := mk_lnode v (n_ptr n) (n_prev n) (n_next n).
Definition nset_ptr v n := mk_lnode (n_list n) v (n_prev n) (n_next n).
Definition nset_prev v n := mk_lnode (n_list n) (n_ptr n) v (n_next n).
Definition nset_next v n := mk_lnode (n_list n) (n_ptr n) (n_prev n) v.

Definition Curl_llist_init (L : lloc) (dtor : bool) (s : lstate) : lstate :=
  mk_lstate (<[L := mk_llist None None dtor 0]> (lists s)) (nodes s).

Definition Curl_llist_insert_next (L : lloc) (e : option nloc) (p : Z) (ne : nloc) (s : lstate)
  : option lstate :=
  s ← wnode (Some ne) (nset_ptr p) s;
  s ← wnode (Some ne) (nset_list (Some L)) s;
  list ← lists s !! L;
  s ← (if l_size list =? 0 then
         s ← wlist L (lset_head (Some ne)) s;
         s ← wnode (Some ne) (nset_prev None) s;
         s ← wnode (Some ne) (nset_next None) s;
         wlist L (lset_tail (Some ne)) s
       else
         next ← (match e with
                 | Some _ => n ← rnode e s; Some (n_next n)
                 | None => Some (l_head list)
                 end);
         s ← wnode (Some ne) (nset_next next) s;
         s ← wnode (Some ne) (nset_prev e) s;
         match e with
         | None =>
             s ← wnode (l_head list) (nset_prev (Some ne)) s;
             wlist L (lset_head (Some ne)) s
         | Some _ =>
             n ← rnode e s;
             s ← (match n_next n with
                  | Some _ => wnode (n_next n) (nset_prev (Some ne)) s
                  | None => wlist L (lset_tail (Some ne)) s
                  end);
             wnode e (nset_next (Some ne)) s
         end);
  list ← lists s !! L;
  wlist L (lset_size (l_size list + 1)) s.

Definition Curl_llist_append (L : lloc) (p : Z) (ne : nloc) (s : lstate) : option lstate :=
  list ← lists s !! L;
  Curl_llist_insert_next L (l_tail list) p ne s.

(** The state and the element, [None] for a missing node. *)
Definition Curl_node_take_elem (e : option nloc) (s : lstate) : option (lstate * option Z) :=
  match e with
  | None => Some (s, None)
  | Some _ =>
      n ← rnode e s;
      s ← (match n_list n with
           | None => Some s
           | Some L =>
               list ← lists s !! L;
               s ← (if bool_decide (e = l_head list) then
                      s ← wlist L (lset_head (n_next n)) s;
                      match n_next n with
                      | None => wlist L (lset_tail None) s
                      | Some _ => wnode (n_next n) (nset_prev None) s
                      end
                    else
                      s ← (match n_prev n with
                           | Some _ => wnode (n_prev n) (nset_next (n_next n)) s
                           | None => Some s
                           end);
                      match n_next n with
                      | None => wlist L (lset_tail (n_prev n)) s
                      | Some _ => wnode (n_next n) (nset_prev (n_prev n)) s
                      end);
               wlist L (lset_size (l_size list - 1)) s
           end);
      n ← rnode e s;
      let ptr := n_ptr n in
      s ← wnode e (nset_list None) s;
      s ← wnode e (nset_ptr 0) s;
      s ← wnode e (nset_prev None) s;
      s ← wnode e (nset_next None) s;
      Some (s, Some ptr)
  end.

(** The state and the elements given to the destructor. *)
Definition node_uremove (e : option nloc) (s : lstate) : option (lstate * list Z) :=
  match e with
  | None => Some (s, [])
  | Some _ =>
      n ← rnode e s;
      match n_list n with
      | None => Some (s, [])
      | Some L =>
          '(s, ptr) ← Curl_node_take_elem e s;
          list ← lists s !! L;
          Some (s, if l_dtor list then option_list ptr else [])
      end
  end.

Definition Curl_node_remove (e : option nloc) (s : lstate) : option (lstate * list Z) :=
  node_uremove e s.

Fixpoint destroy_loop (fuel : nat) (L : lloc) (s : lstate) : option (lstate * list Z) :=
  list ← lists s !! L;
  if l_size list >? 0 then
    match fuel with
    | O => None
    | S fuel =>
        '(s, d) ← node_uremove (l_tail list) s;
        '(s, ds) ← destroy_loop fuel L s;
        Some (s, d ++ ds)
    end
  else Some (s, []).

(** Every round takes one node out, so the size of the list is fuel enough. *)
Definition Curl_llist_destroy (L : option lloc) (s : lstate) : option (lstate * list Z) :=
  match L with
  | None => Some (s, [])
  | Some L => list ← lists s !! L; destroy_loop (Z.to_nat (l_size list)) L s
  end.

Definition Curl_llist_head (L : lloc) (s : lstate) : option (option nloc) :=
  list ← lists s !! L; Some (l_head list).

Definition llist_tail (L : lloc) (s : lstate) : option (option nloc) :=
  list ← lists s !! L; Some (l_tail list).

Definition Curl_llist_count (L : lloc) (s : lstate) : option Z :=
  list ← lists s !! L; Some (l_size list).

Definition Curl_node_elem (n : nloc) (s : lstate) : option Z :=
  n ← nodes s !! n; Some (n_ptr n).

Definition Curl_node_next (n : nloc) (s : lstate) : option (option nloc) :=
  n ← nodes s !! n; Some (n_next n).

Definition llist_node_prev (n : nloc) (s : lstate) : option (option nloc) :=
  n ← nodes s !! n; Some (n_prev n).

Definition Curl_node_llist (n : nloc) (s : lstate) : option (option lloc) :=
  n ← nodes s !! n; Some (n_list n).

(** * Segments of linked nodes *)

Abbreviation elems := (list (nloc * Z)).

Definition first_of (xs : elems) (nxt : option nloc) : option nloc :=
  match xs with (x, _) :: _ => Some x | [] => nxt end.

Definition last_of (prev : option nloc) (xs : elems) : option nloc :=
  match last xs with Some (x, _) => Some x | None => prev end.

(** The nodes of [xs], linked to each other, to [prev] and to [nxt]. *)
Fixpoint dseg (m : gmap nloc Curl_llist_node) (L : lloc) (prev : option nloc) (xs : elems)
    (nxt : option nloc) : Prop :=
  match xs with
  | [] => True
  | (x, p) :: xs => m !! x = Some (mk_lnode (Some L) p prev (first_of xs nxt)) /\ dseg m L (Some x) xs nxt
  end.

Lemma first_of_app xs ys nxt : first_of (xs ++ ys) nxt = first_of xs (first_of ys nxt).
Proof. by destruct xs as [|[x p] xs]. Qed.

Lemma last_of_cons prev x p xs : last_of prev ((x, p) :: xs) = last_of (Some x) xs.
Proof. unfold last_of. rewrite last_cons. by destruct (last xs) as [[y q]|]. Qed.

Lemma last_of_snoc prev xs x p : last_of prev (xs ++ [(x, p)]) = Some x.
Proof. unfold last_of. by rewrite last_snoc. Qed.

Lemma dseg_app m L xs ys nxt : forall prev, dseg m L prev (xs ++ ys) nxt <->
  dseg m L prev xs (first_of ys nxt) /\ dseg m L (last_of prev xs) ys nxt.
Proof.
  induction xs as [|[x p] xs IH]; intros prev; [cbn; tauto|].
  cbn [app dseg]. rewrite IH, first_of_app, last_of_cons. tauto.
Qed.

Lemma dseg_frame m m' L xs nxt : forall prev, (forall x, x ∈ xs.*1 -> m' !! x = m !! x) ->
  dseg m L prev xs nxt -> dseg m' L prev xs nxt.
Proof.
  induction xs as [|[x p] xs IH]; intros prev H; [done|]. cbn [dseg]. intros [Hx Hs]. split.
  - rewrite H; [done|left].
  - apply IH; [|done]. intros y Hy. apply H. by right.
Qed.

Lemma dseg_insert_off m L xs nxt x n prev : ~ (x ∈ xs.*1) -> dseg m L prev xs nxt ->
  dseg (<[x := n]> m) L prev xs nxt.
Proof. intros Hx. apply dseg_frame. intros y Hy. apply lookup_insert_ne. by intros ->. Qed.

Lemma dseg_lookup m L xs nxt prev xs1 x p xs2 : dseg m L prev xs nxt -> xs = xs1 ++ (x, p) :: xs2 ->
  m !! x = Some (mk_lnode (Some L) p (last_of prev xs1) (first_of xs2 nxt)).
Proof. intros H ->. apply dseg_app in H as [_ [H _]]. done. Qed.

(** The link behind the last node, and the one before the first. *)
Lemma dseg_relink_next m L xs x p nxt prev v : NoDup (xs ++ [(x, p)]).*1 ->
  dseg m L prev (xs ++ [(x, p)]) nxt ->
  dseg (<[x := mk_lnode (Some L) p (last_of prev xs) v]> m) L prev (xs ++ [(x, p)]) v.
Proof.
  rewrite fmap_app. intros Hnd H. apply dseg_app in H as [H1 _]. apply NoDup_app in Hnd as (_ & Hd & _).
  apply dseg_app. split; [|split; [apply lookup_insert_eq|done]].
  apply dseg_insert_off; [|done]. intros Hx. apply (Hd x Hx). left.
Qed.

Lemma dseg_relink_prev m L x p xs nxt prev v : NoDup ((x, p) :: xs).*1 ->
  dseg m L prev ((x, p) :: xs) nxt ->
  dseg (<[x := mk_lnode (Some L) p v (first_of xs nxt)]> m) L v ((x, p) :: xs) nxt.
Proof.
  intros Hnd [_ H]. apply NoDup_cons in Hnd as [Hx _]. split; [apply lookup_insert_eq|].
  by apply dseg_insert_off.
Qed.

Record llist_rep (s : lstate) (L : lloc) (d : bool) (xs : elems) : Prop := {
  lr_list : lists s !! L = Some (mk_llist (first_of xs None) (last_of None xs) d (Z.of_nat (length xs)));
  lr_nodes : dseg (nodes s) L None xs None;
  lr_nodup : NoDup xs.*1;
}.

Lemma wnode_some s e n f : nodes s !! e = Some n ->
  wnode (Some e) f s = Some (mk_lstate (lists s) (<[e := f n]> (nodes s))).
Proof. intros H. unfold wnode. cbn. by rewrite H. Qed.

Lemma wlist_some s L l f : lists s !! L = Some l ->
  wlist L f s = Some (mk_lstate (<[L := f l]> (lists s)) (nodes s)).
Proof. intros H. unfold wlist. by rewrite H. Qed.

(** What an operation on a list and its nodes leaves alone. *)
Definition only (L : lloc) (l : list nloc) (s s' : lstate) : Prop :=
  (forall L', L' <> L -> lists s' !! L' = lists s !! L') /\
  (forall x, ~ (x ∈ l) -> nodes s' !! x = nodes s !! x).

(** Runs a write to a node or a list that is known. *)
Ltac lrun :=
  first
  [ erewrite wnode_some by (cbn; first [eassumption | apply lookup_insert_eq
      | rewrite lookup_insert_ne by congruence; first [eassumption | apply lookup_insert_eq]])
  | erewrite wlist_some by (cbn; first [eassumption | apply lookup_insert_eq]) ];
  cbn [mbind option_bind lists nodes]; rewrite ?insert_insert_eq.

(** Membership in the addresses of some elements. *)
Ltac lmem :=
  rewrite ?fmap_app; cbn [fmap list_fmap fst];
  repeat first [rewrite elem_of_app | rewrite elem_of_cons | rewrite elem_of_nil]; tauto.

Ltac only_tac :=
  split; [intros ? ?; cbn [lists]; by rewrite ?lookup_insert_ne by congruence
         |intros ? Hoff; cbn [nodes]; rewrite ?lookup_insert_ne; [done|..]; intros ->; apply Hoff; lmem].

Lemma dom_insert_known (m : gmap nloc Curl_llist_node) x v : x ∈ dom m -> dom (<[x := v]> m) = dom m.
Proof. intros H. rewrite dom_insert_L. apply subseteq_union_1_L. by apply singleton_subseteq_l. Qed.

Ltac dom_tac :=
  cbn [nodes]; repeat rewrite dom_insert_known;
  rewrite ?dom_insert_L, ?elem_of_union, ?elem_of_singleton;
  first [done|apply elem_of_dom; eexists; eassumption|tauto].

(** The fields of the list after the writes. *)
Ltac llist_tac :=
  cbn [lists]; rewrite lookup_insert_eq; f_equal; unfold lset_size, lset_head, lset_tail;
  cbn [l_head l_tail l_dtor l_size]; f_equal; rewrite ?length_app; cbn [length]; try lia.

Lemma last_of_app prev xs ys : last_of prev (xs ++ ys) = last_of (last_of prev xs) ys.
Proof.
  revert prev. induction xs as [|[x p] xs IH]; intros prev; [done|].
  cbn [app]. by rewrite !last_of_cons, IH.
Qed.

(** Insertion behind the elements [xs1]. *)
Lemma insert_next_spec s L d xs1 xs2 p ne : llist_rep s L d (xs1 ++ xs2) ->
  ne ∈ dom (nodes s) -> ~ (ne ∈ (xs1 ++ xs2).*1) ->
  exists s', Curl_llist_insert_next L (last_of None xs1) p ne s = Some s' /\
    llist_rep s' L d (xs1 ++ (ne, p) :: xs2) /\ only L (ne :: (xs1 ++ xs2).*1) s s' /\
    dom (nodes s') = dom (nodes s).
Proof.
  intros [Hl Hn Hnd] Hd Hne. pose proof Hd as [n0 Hn0]%elem_of_dom. unfold Curl_llist_insert_next.
  assert (Hnd' : NoDup (xs1 ++ (ne, p) :: xs2).*1).
  { rewrite fmap_app in *. cbn. rewrite <- Permutation_middle. by constructor. }
  lrun. lrun. rewrite Hl. cbn [mbind option_bind l_size].
  destruct xs1 as [|[x1 p1] xs1 _] using rev_ind; [destruct xs2 as [|[x2 p2] xs2]|].
  - change (Z.of_nat (length ([] ++ [])) =? 0) with true. cbn iota. lrun. lrun. lrun. lrun.
    rewrite lookup_insert_eq. cbn [mbind option_bind]. lrun.
    eexists. split; [reflexivity|]. split; [|split; [only_tac|dom_tac]].
    split; cbn; [apply lookup_insert_eq|split; [apply lookup_insert_eq|done]|done].
  - destruct (Z.eqb_spec (Z.of_nat (length ([] ++ (x2, p2) :: xs2))) 0) as [E|_]; [by cbn in E|].
    destruct Hn as [Hx2 Hn]. cbn [last_of last first_of app l_head] in *.
    assert (ne <> x2) by (intros ->; apply Hne; left). cbn [mbind option_bind].
    lrun. lrun. lrun. lrun. rewrite lookup_insert_eq. cbn [mbind option_bind]. lrun.
    eexists. split; [reflexivity|]. split; [|split; [only_tac|]].
    + split; [llist_tac; by rewrite !last_of_cons| |done].
      cbn [nodes app dseg]. split; [rewrite lookup_insert_ne by done; apply lookup_insert_eq|].
      apply (dseg_relink_prev _ _ _ _ _ _ None); [done|]. apply dseg_insert_off; [done|by split].
    + assert (x2 ∈ dom (nodes s)) by (apply elem_of_dom; by eexists). dom_tac.
  - destruct (Z.eqb_spec (Z.of_nat (length ((xs1 ++ [(x1, p1)]) ++ xs2))) 0) as [E|_].
    { rewrite !length_app in E. cbn in E. lia. }
    rewrite last_of_snoc. pose proof (dseg_lookup _ _ _ _ _ xs1 x1 p1 xs2 Hn) as Hx1.
    rewrite <- app_assoc in Hx1. specialize (Hx1 eq_refl).
    assert (Hx1ne : ne <> x1) by (intros ->; apply Hne; lmem).
    assert (Hd1 : x1 ∈ dom (nodes s)) by (apply elem_of_dom; by eexists).
    unfold rnode. cbn [mbind option_bind nodes lists]. rewrite lookup_insert_ne, Hx1 by done.
    cbn [mbind option_bind]. lrun. lrun. rewrite lookup_insert_ne, Hx1 by done. cbn [mbind option_bind n_next].
    apply dseg_app in Hn as [Hn1 Hn2]. pose proof Hnd as Hnd0. rewrite fmap_app in Hnd0.
    apply NoDup_app in Hnd0 as (Hnd1 & Hdisj & Hnd2). rewrite last_of_snoc in Hn2.
    destruct xs2 as [|[x2 p2] xs2]; cbn [first_of].
    + lrun. lrun. rewrite lookup_insert_eq. cbn [mbind option_bind]. lrun.
      eexists. split; [reflexivity|]. split; [|split; [only_tac|dom_tac]].
      split; [llist_tac; rewrite ?last_of_snoc, ?app_nil_r; try done|cbn [nodes]|done].
      * by destruct xs1 as [|[y q] xs1].
      * apply dseg_app. rewrite last_of_snoc. cbn [first_of]. split.
        -- apply (dseg_relink_next _ _ _ _ _ None); [done|]. by apply dseg_insert_off; [rewrite app_nil_r in Hne|].
        -- split; [rewrite lookup_insert_ne by done; apply lookup_insert_eq|done].
    + destruct Hn2 as [Hx2 Hn2]. assert (ne <> x2) by (intros ->; apply Hne; lmem).
      assert (x1 <> x2) by (intros ->; apply (Hdisj x2); lmem).
      assert (Hd2 : x2 ∈ dom (nodes s)) by (apply elem_of_dom; by eexists).
      lrun. erewrite wnode_some by (cbn; rewrite !lookup_insert_ne by congruence; exact Hx1).
      cbn [mbind option_bind lists nodes]. rewrite Hl. cbn [mbind option_bind]. lrun.
      eexists. split; [reflexivity|]. split; [|split; [only_tac|dom_tac]].
      split; [llist_tac|cbn [nodes]|done].
      * by destruct xs1 as [|[y q] xs1].
      * by rewrite !last_of_app, !last_of_cons.
      * apply dseg_app. rewrite last_of_snoc. cbn [first_of]. split.
        -- apply (dseg_relink_next _ _ _ _ _ (Some x2)); [done|].
           apply dseg_insert_off; [intros Hin; apply (Hdisj x2 Hin); left|].
           apply dseg_insert_off; [intros Hin; apply Hne; revert Hin; lmem|done].
        -- split; [rewrite !lookup_insert_ne by congruence; apply lookup_insert_eq|].
           apply dseg_insert_off; [intros Hin; apply (Hdisj x1); [lmem|done]|].
           apply (dseg_relink_prev _ _ _ _ _ _ (Some x1)); [done|].
           apply dseg_insert_off; [intros Hin; apply Hne; revert Hin; lmem|by split].
Qed.

(** Taking an element out. *)
Lemma take_elem_spec s L d xs1 x p xs2 : llist_rep s L d (xs1 ++ (x, p) :: xs2) ->
  exists s', Curl_node_take_elem (Some x) s = Some (s', Some p) /\ llist_rep s' L d (xs1 ++ xs2) /\
    nodes s' !! x = Some (mk_lnode None 0 None None) /\
    only L (xs1 ++ (x, p) :: xs2).*1 s s' /\ dom (nodes s') = dom (nodes s).
Proof.
  intros [Hl Hn Hnd]. pose proof (dseg_lookup _ _ _ _ _ xs1 x p xs2 Hn eq_refl) as Hx.
  assert (Hd : x ∈ dom (nodes s)) by (apply elem_of_dom; by eexists).
  unfold Curl_node_take_elem, rnode. cbn [mbind option_bind]. rewrite Hx.
  cbn [mbind option_bind n_list n_prev n_next n_ptr]. rewrite Hl. cbn [mbind option_bind l_head l_size].
  rewrite fmap_app in Hnd. apply NoDup_app in Hnd as (Hnd1 & Hdisj & Hnd2). cbn in Hnd2, Hdisj.
  apply NoDup_cons in Hnd2 as [Hx2 Hnd2].
  assert (Hnd' : NoDup (xs1 ++ xs2).*1).
  { rewrite fmap_app. apply NoDup_app. split; [done|]. split; [|done]. intros y H1 H2. apply (Hdisj y H1). by right. }
  apply dseg_app in Hn as [Hn1 [_ Hn2]].
  destruct xs1 as [|[x1 p1] xs1 _] using rev_ind.
  - rewrite bool_decide_eq_true_2 by done. cbn [last_of last app first_of] in *. lrun.
    destruct xs2 as [|[x2 p2] xs2]; cbn [first_of].
    + lrun. lrun. rewrite Hx. cbn [mbind option_bind n_ptr]. lrun. lrun. lrun. lrun.
      eexists. split; [reflexivity|]. split; [|split; [apply lookup_insert_eq|split; [only_tac|dom_tac]]].
      split; [by llist_tac|done|done].
    + destruct Hn2 as [H2 Hn2]. assert (x <> x2) by (intros ->; apply Hx2; left).
      assert (Hd2 : x2 ∈ dom (nodes s)) by (apply elem_of_dom; by eexists).
      lrun. lrun. rewrite lookup_insert_ne, Hx by done. cbn [mbind option_bind n_ptr]. lrun. lrun. lrun. lrun.
      eexists. split; [reflexivity|]. split; [|split; [apply lookup_insert_eq|split; [only_tac|dom_tac]]].
      split; [llist_tac; by rewrite last_of_cons|cbn [nodes]|done].
      apply dseg_insert_off; [done|]. apply (dseg_relink_prev _ _ _ _ _ _ (Some x)); [done|by split].
  - assert (Hne : ~ (x ∈ (xs1 ++ [(x1, p1)]).*1)) by (intros Hin; apply (Hdisj x Hin); left).
    assert (Hx1ne : x <> x1) by (intros ->; apply Hne; lmem).
    rewrite bool_decide_eq_false_2.
    2:{ intros E. apply Hne. destruct xs1 as [|[y q] xs1]; injection E as ->; [done|]. left. }
    rewrite last_of_snoc in *. apply dseg_app in Hn1 as Hn1'. destruct Hn1' as [_ [Hx1 _]]. cbn [first_of] in Hx1.
    assert (Hd1 : x1 ∈ dom (nodes s)) by (apply elem_of_dom; by eexists).
    lrun. destruct xs2 as [|[x2 p2] xs2]; cbn [first_of].
    + lrun. lrun. rewrite lookup_insert_ne, Hx by done. cbn [mbind option_bind n_ptr]. lrun. lrun. lrun. lrun.
      eexists. split; [reflexivity|]. split; [|split; [apply lookup_insert_eq|split; [only_tac|dom_tac]]].
      rewrite app_nil_r in *. split; [llist_tac|cbn [nodes]|done].
      * by destruct xs1 as [|[y q] xs1].
      * by rewrite last_of_snoc.
      * apply dseg_insert_off; [done|]. by apply (dseg_relink_next _ _ _ _ _ (Some x)).
    + destruct Hn2 as [H2 Hn2]. assert (x <> x2) by (intros ->; apply Hx2; left).
      assert (x1 <> x2) by (intros ->; apply (Hdisj x2); lmem).
      assert (Hd2 : x2 ∈ dom (nodes s)) by (apply elem_of_dom; by eexists).
      lrun. lrun. rewrite !lookup_insert_ne, Hx by done. cbn [mbind option_bind n_ptr].
      erewrite wnode_some by (cbn; rewrite !lookup_insert_ne by congruence; exact Hx).
      cbn [mbind option_bind lists nodes]. lrun. lrun. lrun.
      eexists. split; [reflexivity|]. split; [|split; [apply lookup_insert_eq|split; [only_tac|dom_tac]]].
      split; [llist_tac|cbn [nodes]|done].
      * by destruct xs1 as [|[y q] xs1].
      * by rewrite !last_of_app, !last_of_cons.
      * apply dseg_app. rewrite last_of_snoc. cbn [first_of]. split.
        -- apply dseg_insert_off; [done|]. apply dseg_insert_off; [intros Hin; apply (Hdisj x2 Hin); right; left|].
           by apply (dseg_relink_next _ _ _ _ _ (Some x)).
        -- apply dseg_insert_off; [done|]. apply (dseg_relink_prev _ _ _ _ _ _ (Some x)); [done|].
           apply dseg_insert_off; [intros Hin; apply (Hdisj x1); [lmem|by right]|by split].
Qed.

(** * Lists as sequences *)

Fixpoint l_insert_after (e : nloc) (y : nloc * Z) (xs : elems) : elems :=
  match xs with
  | [] => []
  | x :: xs => if decide (x.1 = e) then x :: y :: xs else x :: l_insert_after e y xs
  end.

Definition l_insert (e : option nloc) (y : nloc * Z) (xs : elems) : elems :=
  match e with None => y :: xs | Some e => l_insert_after e y xs end.

Definition l_remove (x : nloc) (xs : elems) : elems := filter (fun y => y.1 <> x) xs.

Fixpoint l_next (x : nloc) (xs : elems) : option nloc :=
  match xs with
  | [] => None
  | y :: xs => if decide (y.1 = x) then first_of xs None else l_next x xs
  end.

Fixpoint l_prev (x : nloc) (prev : option nloc) (xs : elems) : option nloc :=
  match xs with
  | [] => None
  | y :: xs => if decide (y.1 = x) then prev else l_prev x (Some y.1) xs
  end.

Lemma l_insert_after_mid xs1 x p xs2 y : ~ (x ∈ xs1.*1) ->
  l_insert_after x y (xs1 ++ (x, p) :: xs2) = xs1 ++ (x, p) :: y :: xs2.
Proof.
  induction xs1 as [|[z q] xs1 IH]; cbn; intros H; [by rewrite decide_True|].
  rewrite elem_of_cons in H. rewrite decide_False by (cbn; intros ->; tauto). rewrite IH by tauto. done.
Qed.

Lemma l_remove_absent x xs : ~ (x ∈ xs.*1) -> l_remove x xs = xs.
Proof.
  induction xs as [|[z q] xs IH]; intros H; [done|]. cbn in H. rewrite elem_of_cons in H. unfold l_remove.
  rewrite filter_cons, decide_True by (cbn; intros ->; tauto). f_equal. apply IH. tauto.
Qed.

Lemma l_remove_mid xs1 x p xs2 : ~ (x ∈ xs1.*1) -> ~ (x ∈ xs2.*1) ->
  l_remove x (xs1 ++ (x, p) :: xs2) = xs1 ++ xs2.
Proof.
  intros H1 H2. unfold l_remove. rewrite filter_app, filter_cons_False by (cbn; tauto).
  f_equal; by apply l_remove_absent.
Qed.

Lemma l_next_mid xs1 x p xs2 : ~ (x ∈ xs1.*1) -> l_next x (xs1 ++ (x, p) :: xs2) = first_of xs2 None.
Proof.
  induction xs1 as [|[z q] xs1 IH]; cbn; intros H; [by rewrite decide_True|].
  rewrite elem_of_cons in H. rewrite decide_False by (cbn; intros ->; tauto). apply IH. tauto.
Qed.

Lemma l_prev_mid xs1 x p xs2 : forall prev, ~ (x ∈ xs1.*1) ->
  l_prev x prev (xs1 ++ (x, p) :: xs2) = last_of prev xs1.
Proof.
  induction xs1 as [|[z q] xs1 IH]; cbn; intros prev H; [by rewrite decide_True|].
  rewrite elem_of_cons in H. rewrite decide_False by (cbn; intros ->; tauto).
  rewrite last_of_cons. apply IH. tauto.
Qed.

(** An element and what is around it. *)
Lemma elems_split (xs : elems) x : NoDup xs.*1 -> x ∈ xs.*1 ->
  exists xs1 p xs2, xs = xs1 ++ (x, p) :: xs2 /\ ~ (x ∈ xs1.*1) /\ ~ (x ∈ xs2.*1).
Proof.
  intros Hnd Hx. apply list_elem_of_fmap in Hx as ([y p] & -> & Hin). cbn in *.
  apply list_elem_of_split in Hin as (xs1 & xs2 & ->). exists xs1, p, xs2. split; [done|].
  rewrite fmap_app in Hnd. apply NoDup_app in Hnd as (_ & Hd & H2). cbn in *. apply NoDup_cons in H2 as [H2 _].
  split; [|done]. intros H. apply (Hd y H). left.
Qed.

(** * All lists together *)

Abbreviation world := (gmap lloc (bool * elems)).

Record world_rep (s : lstate) (W : world) : Prop := {
  w_dom : forall L, lists s !! L = None <-> W !! L = None;
  w_rep : forall L d xs, W !! L = Some (d, xs) -> llist_rep s L d xs;
  w_free : forall x n L, nodes s !! x = Some n -> n_list n = Some L ->
    exists d xs, W !! L = Some (d, xs) /\ x ∈ xs.*1;
}.

(** In no list. *)
Definition unlinked (W : world) (x : nloc) : Prop :=
  map_Forall (fun _ dx => ~ (x ∈ dx.2.*1)) W.

Lemma member_list s L d xs x : llist_rep s L d xs -> x ∈ xs.*1 ->
  exists p pr nx, nodes s !! x = Some (mk_lnode (Some L) p pr nx).
Proof.
  intros [_ Hn Hnd] Hx. destruct (elems_split xs x Hnd Hx) as (xs1 & p & xs2 & -> & _).
  pose proof (dseg_lookup _ _ _ _ _ xs1 x p xs2 Hn eq_refl). by do 3 eexists.
Qed.

(** A change to one list that keeps to its nodes and [extra], which are in no list. *)
Lemma world_update s s' W L d xs d' xs' extra : world_rep s W -> W !! L = Some (d, xs) ->
  (forall x, x ∈ extra -> unlinked W x) ->
  only L (extra ++ xs.*1) s s' -> llist_rep s' L d' xs' ->
  (forall x, x ∈ extra ++ xs.*1 -> x ∈ xs'.*1 \/
     (forall n, nodes s' !! x = Some n -> n_list n = None)) ->
  world_rep s' (<[L := (d', xs')]> W).
Proof.
  intros [Hd Hr Hf] HL Hex [Hol Hon] Hr' Hout.
  assert (Hother : forall L' d' xs', L' <> L -> W !! L' = Some (d', xs') ->
    forall x, x ∈ xs'.*1 -> ~ (x ∈ extra ++ xs.*1)).
  { intros L' d2 xs2 Hne HL' x Hx [Hin|Hin]%elem_of_app.
    - specialize (Hex x Hin L' (d2, xs2) HL'). done.
    - destruct (member_list s L' d2 xs2 x (Hr _ _ _ HL') Hx) as (? & ? & ? & E1).
      destruct (member_list s L d xs x (Hr _ _ _ HL) Hin) as (? & ? & ? & E2). congruence. }
  split.
  - intros L'. destruct (decide (L' = L)) as [->|Hne].
    + rewrite lookup_insert_eq. by rewrite (lr_list _ _ _ _ Hr').
    + rewrite lookup_insert_ne, Hol by done. apply Hd.
  - intros L' d2 xs2. destruct (decide (L' = L)) as [->|Hne].
    + rewrite lookup_insert_eq. by intros [= <- <-].
    + rewrite lookup_insert_ne by done. intros HL'. destruct (Hr L' d2 xs2 HL') as [H1 H2 H3].
      split; [by rewrite Hol| |done]. eapply dseg_frame; [|exact H2]. intros x Hx. apply Hon. by apply (Hother L' d2 xs2).
  - intros x n L' Hn HnL. destruct (decide (x ∈ extra ++ xs.*1)) as [Hin|Hin].
    + destruct (Hout x Hin) as [Hin'|Hnone]; [|by rewrite (Hnone n Hn) in HnL].
      destruct (member_list s' L d' xs' x Hr' Hin') as (? & ? & ? & E). rewrite Hn in E. injection E as ->.
      cbn in HnL. injection HnL as <-. exists d', xs'. by rewrite lookup_insert_eq.
    + rewrite Hon in Hn by done. destruct (Hf x n L' Hn HnL) as (d2 & xs2 & HL' & Hx).
      exists d2, xs2. split; [|done]. rewrite lookup_insert_ne; [done|]. intros <-.
      rewrite HL in HL'. injection HL' as <- <-. apply Hin, elem_of_app. by right.
Qed.

(** * Any sequence of operations *)

Inductive l_op :=
  | LInit (L : lloc) (dtor : bool)
  | LInsertNext (L : lloc) (e : option nloc) (p : Z) (ne : nloc)
  | LAppend (L : lloc) (p : Z) (ne : nloc)
  | LTake (L : lloc) (e : nloc)
  | LRemove (L : lloc) (e : nloc)
  | LRemoveUnlinked (e : nloc)
  | LDestroy (L : lloc)
  | LHead (L : lloc)
  | LTail (L : lloc)
  | LCount (L : lloc)
  | LNext (L : lloc) (e : nloc)
  | LPrev (L : lloc) (e : nloc)
  | LElem (L : lloc) (e : nloc)
  | LOwner (L : lloc) (e : nloc).

Inductive l_ans :=
  | AVoid
  | ANode (e : option nloc)
  | ANum (n : Z)
  | APtr (p : option Z)
  | AList (L : option lloc)
  | ADtor (ps : list Z).

Definition void {A} (r : option A) : option (A * l_ans) := s ← r; Some (s, AVoid).

Definition ask {A} (s : lstate) (f : A -> l_ans) (r : option A) : option (lstate * l_ans) :=
  a ← r; Some (s, f a).

(** The list the caller finds the node in is not an argument of the C functions. *)
Definition l_step (op : l_op) (s : lstate) : option (lstate * l_ans) :=
  match op with
  | LInit L dtor => Some (Curl_llist_init L dtor s, AVoid)
  | LInsertNext L e p ne => void (Curl_llist_insert_next L e p ne s)
  | LAppend L p ne => void (Curl_llist_append L p ne s)
  | LTake _ e => '(s, p) ← Curl_node_take_elem (Some e) s; Some (s, APtr p)
  | LRemove _ e | LRemoveUnlinked e => '(s, ps) ← Curl_node_remove (Some e) s; Some (s, ADtor ps)
  | LDestroy L => '(s, ps) ← Curl_llist_destroy (Some L) s; Some (s, ADtor ps)
  | LHead L => ask s ANode (Curl_llist_head L s)
  | LTail L => ask s ANode (llist_tail L s)
  | LCount L => ask s ANum (Curl_llist_count L s)
  | LNext _ e => ask s ANode (Curl_node_next e s)
  | LPrev _ e => ask s ANode (llist_node_prev e s)
  | LElem _ e => ask s (fun p => APtr (Some p)) (Curl_node_elem e s)
  | LOwner _ e => ask s AList (Curl_node_llist e s)
  end.

Fixpoint elem_ptr (e : nloc) (xs : elems) : option Z :=
  match xs with
  | [] => None
  | y :: xs => if decide (y.1 = e) then Some y.2 else elem_ptr e xs
  end.

Definition dtor_log (d : bool) (ps : list Z) : list Z := if d then ps else [].

(** The sequences after an operation, and its answer. *)
Definition l_spec (op : l_op) (W : world) : world * l_ans :=
  let at_list L := default (false, []) (W !! L) in
  match op with
  | LInit L dtor => (<[L := (dtor, [])]> W, AVoid)
  | LInsertNext L e p ne => let (d, xs) := at_list L in (<[L := (d, l_insert e (ne, p) xs)]> W, AVoid)
  | LAppend L p ne => let (d, xs) := at_list L in (<[L := (d, xs ++ [(ne, p)])]> W, AVoid)
  | LTake L e => let (d, xs) := at_list L in (<[L := (d, l_remove e xs)]> W, APtr (elem_ptr e xs))
  | LRemove L e =>
      let (d, xs) := at_list L in
      (<[L := (d, l_remove e xs)]> W, ADtor (dtor_log d (option_list (elem_ptr e xs))))
  | LRemoveUnlinked _ => (W, ADtor [])
  | LDestroy L => let (d, xs) := at_list L in (<[L := (d, [])]> W, ADtor (dtor_log d (rev xs.*2)))
  | LHead L => (W, ANode (first_of (at_list L).2 None))
  | LTail L => (W, ANode (last_of None (at_list L).2))
  | LCount L => (W, ANum (Z.of_nat (length (at_list L).2)))
  | LNext L e => (W, ANode (l_next e (at_list L).2))
  | LPrev L e => (W, ANode (l_prev e None (at_list L).2))
  | LElem L e => (W, APtr (elem_ptr e (at_list L).2))
  | LOwner L e => (W, AList (Some L))
  end.

Definition in_list (W : world) (L : lloc) (e : nloc) : Prop := e ∈ (default (false, []) (W !! L)).2.*1.

(** What the callers keep to: a list is set up once, a node is in one list at
    most when it is inserted, and in the list it is looked up in. *)
Definition l_op_ok (ns : gset nloc) (W : world) (op : l_op) : Prop :=
  match op with
  | LInit L _ => W !! L = None
  | LInsertNext L e _ ne =>
      is_Some (W !! L) /\ (forall x, e = Some x -> in_list W L x) /\ ne ∈ ns /\ unlinked W ne
  | LAppend L _ ne => is_Some (W !! L) /\ ne ∈ ns /\ unlinked W ne
  | LTake L e | LRemove L e | LNext L e | LPrev L e | LElem L e | LOwner L e => in_list W L e
  | LRemoveUnlinked e => e ∈ ns /\ unlinked W e
  | LDestroy L | LHead L | LTail L | LCount L => is_Some (W !! L)
  end.

Lemma elem_ptr_mid xs1 x p xs2 : ~ (x ∈ xs1.*1) -> elem_ptr x (xs1 ++ (x, p) :: xs2) = Some p.
Proof.
  induction xs1 as [|[z q] xs1 IH]; cbn; intros H; [by rewrite decide_True|].
  rewrite elem_of_cons in H. rewrite decide_False by (cbn; intros ->; tauto). apply IH. tauto.
Qed.

Lemma l_insert_split e y xs : NoDup xs.*1 -> (forall x, e = Some x -> x ∈ xs.*1) ->
  exists xs1 xs2, xs = xs1 ++ xs2 /\ e = last_of None xs1 /\ l_insert e y xs = xs1 ++ y :: xs2.
Proof.
  intros Hnd He. destruct e as [e|]; [|by exists [], xs].
  destruct (elems_split xs e Hnd (He e eq_refl)) as (xs1 & p & xs2 & -> & H1 & H2).
  exists (xs1 ++ [(e, p)]), xs2. split; [by rewrite <- app_assoc|]. split; [by rewrite last_of_snoc|].
  cbn [l_insert]. rewrite l_insert_after_mid by done. by rewrite <- app_assoc.
Qed.

Lemma in_list_rep s W L e : world_rep s W -> in_list W L e ->
  exists d xs1 p xs2, W !! L = Some (d, xs1 ++ (e, p) :: xs2) /\ ~ (e ∈ xs1.*1) /\ ~ (e ∈ xs2.*1) /\
    llist_rep s L d (xs1 ++ (e, p) :: xs2).
Proof.
  intros HW He. unfold in_list in He. destruct (W !! L) as [[d xs]|] eqn:HL; [|by apply elem_of_nil in He].
  cbn in He. pose proof (w_rep _ _ HW L d xs HL) as Hr. destruct (elems_split xs e (lr_nodup _ _ _ _ Hr) He)
    as (xs1 & p & xs2 & -> & H1 & H2). by exists d, xs1, p, xs2.
Qed.

Lemma world_insert s W L d xs e p ne : world_rep s W -> W !! L = Some (d, xs) ->
  (forall x, e = Some x -> x ∈ xs.*1) -> ne ∈ dom (nodes s) -> unlinked W ne ->
  exists s', Curl_llist_insert_next L e p ne s = Some s' /\
    world_rep s' (<[L := (d, l_insert e (ne, p) xs)]> W) /\ dom (nodes s') = dom (nodes s).
Proof.
  intros HW HL He Hd Hu. pose proof (w_rep _ _ HW L d xs HL) as Hr.
  destruct (l_insert_split e (ne, p) xs (lr_nodup _ _ _ _ Hr) He) as (xs1 & xs2 & -> & -> & ->).
  pose proof (Hu L (d, xs1 ++ xs2) HL) as Hne. cbn in Hne.
  destruct (insert_next_spec s L d xs1 xs2 p ne Hr Hd Hne) as (s' & E & Hr' & Ho & Hd').
  exists s'. split; [done|]. split; [|done].
  apply (world_update s s' W L d (xs1 ++ xs2) d _ [ne] HW HL); try done.
  - intros x ->%list_elem_of_singleton. done.
  - intros x Hx. left. revert Hx. lmem.
Qed.

Lemma world_take s W L e : world_rep s W -> in_list W L e ->
  exists d xs p s', W !! L = Some (d, xs) /\ elem_ptr e xs = Some p /\
    Curl_node_take_elem (Some e) s = Some (s', Some p) /\ (exists l, lists s' !! L = Some l /\ l_dtor l = d) /\
    world_rep s' (<[L := (d, l_remove e xs)]> W) /\ dom (nodes s') = dom (nodes s).
Proof.
  intros HW He. destruct (in_list_rep s W L e HW He) as (d & xs1 & p & xs2 & HL & H1 & H2 & Hr).
  destruct (take_elem_spec s L d xs1 e p xs2 Hr) as (s' & E & Hr' & Hx & Ho & Hd).
  exists d, (xs1 ++ (e, p) :: xs2), p, s'. split; [done|]. split; [by apply elem_ptr_mid|]. split; [done|].
  split; [eexists; split; [apply (lr_list _ _ _ _ Hr')|done]|]. rewrite l_remove_mid by done. split; [|done].
  apply (world_update s s' W L d _ d _ [] HW HL); try done.
  - intros x Hx0. by apply elem_of_nil in Hx0.
  - intros x Hin. cbn [app] in Hin. destruct (decide (x = e)) as [->|Hne].
    + right. intros n Hn. rewrite Hx in Hn. by injection Hn as <-.
    + left. revert Hin. lmem.
Qed.

Lemma world_destroy fuel : forall s W L d xs, world_rep s W -> W !! L = Some (d, xs) -> length xs = fuel ->
  exists s', destroy_loop fuel L s = Some (s', dtor_log d (rev xs.*2)) /\
    world_rep s' (<[L := (d, [])]> W) /\ dom (nodes s') = dom (nodes s).
Proof.
  induction fuel as [|fuel IH]; intros s W L d xs HW HL Hlen.
  - destruct xs; [|done]. cbn [destroy_loop]. rewrite (lr_list _ _ _ _ (w_rep _ _ HW L d [] HL)).
    cbn. exists s. split; [by destruct d|]. split; [|done]. by rewrite insert_id.
  - destruct xs as [|[x p] xs _] using rev_ind; [done|]. pose proof (w_rep _ _ HW L d _ HL) as Hr.
    cbn [destroy_loop]. rewrite (lr_list _ _ _ _ Hr). cbn [mbind option_bind l_size l_tail].
    rewrite Z.gtb_ltb. destruct (Z.ltb_spec 0 (Z.of_nat (length (xs ++ [(x, p)])))) as [_|Hz];
      [|rewrite length_app in Hz; cbn in Hz; lia].
    rewrite last_of_snoc. assert (Hin : in_list W L x) by (unfold in_list; rewrite HL; cbn; lmem).
    destruct (world_take s W L x HW Hin) as (d' & xs' & p' & s1 & HL' & Hp & E & (l & El & Ed) & HW1 & Hd1).
    rewrite HL in HL'. injection HL' as <- <-.
    pose proof (lr_nodup _ _ _ _ Hr) as Hnd. rewrite fmap_app in Hnd. apply NoDup_app in Hnd as (_ & Hdj & _).
    assert (Hx : ~ (x ∈ xs.*1)) by (intros Hx; apply (Hdj x Hx); left).
    rewrite elem_ptr_mid in Hp by done. injection Hp as <-.
    rewrite l_remove_mid, app_nil_r in HW1 by (done || (cbn; apply not_elem_of_nil)).
    unfold node_uremove, rnode. cbn [mbind option_bind].
    rewrite (dseg_lookup _ _ _ _ _ xs x p [] (lr_nodes _ _ _ _ Hr) eq_refl).
    cbn [mbind option_bind n_list]. rewrite E. cbn [mbind option_bind]. rewrite El. cbn [mbind option_bind].
    destruct (IH s1 _ L d xs HW1) as (s2 & E2 & HW2 & Hd2); [apply lookup_insert_eq| |].
    { rewrite length_app in Hlen. cbn in Hlen. lia. }
    rewrite E2. cbn [mbind option_bind]. rewrite insert_insert_eq in HW2. exists s2. split; [|by rewrite Hd2].
    rewrite Ed, fmap_app, rev_app_distr. cbn. by destruct d.
Qed.

Lemma world_init s W L d : world_rep s W -> W !! L = None ->
  world_rep (Curl_llist_init L d s) (<[L := (d, [])]> W).
Proof.
  intros [Hd Hr Hf] HL. unfold Curl_llist_init. split; cbn [lists nodes].
  - intros L'. destruct (decide (L' = L)) as [->|Hne]; [by rewrite !lookup_insert_eq|].
    by rewrite !lookup_insert_ne.
  - intros L' d' xs'. destruct (decide (L' = L)) as [->|Hne].
    + rewrite lookup_insert_eq. intros [= <- <-]. split; cbn; [apply lookup_insert_eq|done|constructor].
    + rewrite lookup_insert_ne by done. intros H. destruct (Hr L' d' xs' H) as [H1 H2 H3].
      split; cbn; [by rewrite lookup_insert_ne|done|done].
  - intros x n L' Hn HnL. destruct (Hf x n L' Hn HnL) as (d' & xs' & H1 & H2). exists d', xs'.
    split; [|done]. rewrite lookup_insert_ne; [done|]. intros ->. congruence.
Qed.

Lemma world_append s W L d xs p ne : world_rep s W -> W !! L = Some (d, xs) ->
  ne ∈ dom (nodes s) -> unlinked W ne ->
  exists s', Curl_llist_append L p ne s = Some s' /\
    world_rep s' (<[L := (d, xs ++ [(ne, p)])]> W) /\ dom (nodes s') = dom (nodes s).
Proof.
  intros HW HL Hd Hu. pose proof (w_rep _ _ HW L d xs HL) as Hr. unfold Curl_llist_append.
  rewrite (lr_list _ _ _ _ Hr). cbn [mbind option_bind l_tail].
  destruct (insert_next_spec s L d xs [] p ne) as (s' & E & Hr' & Ho & Hd');
    [by rewrite app_nil_r|done|rewrite app_nil_r; exact (Hu L (d, xs) HL)|].
  exists s'. split; [done|]. split; [|done]. rewrite app_nil_r in Ho.
  apply (world_update s s' W L d xs d _ [ne] HW HL); try done.
  - intros x ->%list_elem_of_singleton. done.
  - intros x Hx. left. revert Hx. lmem.
Qed.

Lemma world_remove s W L e : world_rep s W -> in_list W L e ->
  exists d xs s', W !! L = Some (d, xs) /\
    Curl_node_remove (Some e) s = Some (s', dtor_log d (option_list (elem_ptr e xs))) /\
    world_rep s' (<[L := (d, l_remove e xs)]> W) /\ dom (nodes s') = dom (nodes s).
Proof.
  intros HW He. destruct (world_take s W L e HW He) as (d & xs & p & s' & HL & Hp & E & (l & El & Ed) & HW' & Hd').
  exists d, xs, s'. split; [done|]. split; [|done]. unfold in_list in He. rewrite HL in He. cbn in He.
  destruct (member_list s L d xs e (w_rep _ _ HW L d xs HL) He) as (? & ? & ? & Hn).
  unfold Curl_node_remove, node_uremove, rnode. cbn [mbind option_bind]. rewrite Hn.
  cbn [mbind option_bind n_list]. rewrite E. cbn [mbind option_bind]. rewrite El. cbn [mbind option_bind].
  by rewrite Ed, Hp.
Qed.

(** A node in no list is left alone. *)
Lemma world_remove_unlinked s W e : world_rep s W -> e ∈ dom (nodes s) -> unlinked W e ->
  Curl_node_remove (Some e) s = Some (s, []).
Proof.
  intros HW [n Hn]%elem_of_dom Hu. unfold Curl_node_remove, node_uremove, rnode. cbn [mbind option_bind].
  rewrite Hn. cbn [mbind option_bind]. destruct (n_list n) as [L|] eqn:EL; [|done].
  destruct (w_free _ _ HW e n L Hn EL) as (d & xs & HL & Hx). by destruct (Hu L (d, xs) HL).
Qed.

(** The fields of a list and of a node in it. *)
Lemma list_fields s W L : world_rep s W -> is_Some (W !! L) -> exists d xs, W !! L = Some (d, xs) /\
  lists s !! L = Some (mk_llist (first_of xs None) (last_of None xs) d (Z.of_nat (length xs))).
Proof. intros HW [[d xs] HL]. exists d, xs. split; [done|]. apply (lr_list _ _ _ _ (w_rep _ _ HW L d xs HL)). Qed.

Lemma node_fields s W L e : world_rep s W -> in_list W L e -> exists d xs p, W !! L = Some (d, xs) /\
  elem_ptr e xs = Some p /\ nodes s !! e = Some (mk_lnode (Some L) p (l_prev e None xs) (l_next e xs)).
Proof.
  intros HW He. destruct (in_list_rep s W L e HW He) as (d & xs1 & p & xs2 & HL & H1 & H2 & Hr).
  exists d, (xs1 ++ (e, p) :: xs2), p. split; [done|]. rewrite elem_ptr_mid, l_prev_mid, l_next_mid by done.
  split; [done|]. apply (dseg_lookup _ _ _ _ _ xs1 e p xs2 (lr_nodes _ _ _ _ Hr) eq_refl).
Qed.

Lemma l_step_spec op s W : world_rep s W -> l_op_ok (dom (nodes s)) W op ->
  exists s', l_step op s = Some (s', (l_spec op W).2) /\ world_rep s' (l_spec op W).1 /\
    dom (nodes s') = dom (nodes s).
Proof.
  intros HW Hok. destruct op as [L b|L e p ne|L p ne|L e|L e|e|L|L|L|L|L e|L e|L e|L e];
    cbn [l_op_ok l_step l_spec] in *;
    try (destruct (list_fields s W L HW Hok) as (d & xs & HL & El));
    try (destruct (node_fields s W L e HW Hok) as (d & xs & p & HL & Hp & En)).
  - exists (Curl_llist_init L b s). split; [done|]. split; [by apply world_init|done].
  - destruct Hok as ([[d xs] HL] & He & Hd & Hu). unfold in_list in He. rewrite HL in *.
    destruct (world_insert s W L d xs e p ne HW HL He Hd Hu) as (s' & E & HW' & Hd'). rewrite E. by exists s'.
  - destruct Hok as ([[d xs] HL] & Hd & Hu). rewrite HL.
    destruct (world_append s W L d xs p ne HW HL Hd Hu) as (s' & E & HW' & Hd'). rewrite E. by exists s'.
  - destruct (world_take s W L e HW Hok) as (d' & xs' & p' & s' & HL' & Hp' & E & _ & HW' & Hd').
    rewrite E, HL'. cbn [default id]. rewrite Hp'. by exists s'.
  - destruct (world_remove s W L e HW Hok) as (d' & xs' & s' & HL' & E & HW' & Hd').
    rewrite E, HL'. by exists s'.
  - destruct Hok as [Hd Hu]. rewrite (world_remove_unlinked s W e) by done. by exists s.
  - rewrite HL. cbn [default id Curl_llist_destroy]. rewrite El. cbn [mbind option_bind l_size].
    rewrite Nat2Z.id. destruct (world_destroy _ s W L d xs HW HL eq_refl) as (s' & E & HW' & Hd').
    rewrite E. by exists s'.
  - unfold Curl_llist_head. rewrite HL, El. by exists s.
  - unfold llist_tail. rewrite HL, El. by exists s.
  - unfold Curl_llist_count. rewrite HL, El. by exists s.
  - unfold Curl_node_next. rewrite HL, En. by exists s.
  - unfold llist_node_prev. rewrite HL, En. by exists s.
  - unfold Curl_node_elem. rewrite HL, En. cbn [default id snd]. rewrite Hp. by exists s.
  - unfold Curl_node_llist. rewrite En. by exists s.
Qed.

Fixpoint l_run (ops : list l_op) (s : lstate) : option (lstate * list l_ans) :=
  match ops with
  | [] => Some (s, [])
  | op :: ops =>
      '(s, a) ← l_step op s;
      '(s, al) ← l_run ops s;
      Some (s, a :: al)
  end.

Fixpoint l_spec_run (ops : list l_op) (W : world) : world * list l_ans :=
  match ops with
  | [] => (W, [])
  | op :: ops => let (W, a) := l_spec op W in let (W, al) := l_spec_run ops W in (W, a :: al)
  end.

Fixpoint l_ops_ok (ns : gset nloc) (ops : list l_op) (W : world) : Prop :=
  match ops with
  | [] => True
  | op :: ops => l_op_ok ns W op /\ l_ops_ok ns ops (l_spec op W).1
  end.

(** C19: The linked lists are sequences: any interleaving of operations on any
    number of lists runs without a bad access, answers what the sequences of
    elements answer, calls the destructor for exactly the elements removed (the
    last one first when a list is destroyed), and leaves lists that hold the
    resulting sequences. *)
Theorem llist_refines_sequences (ops : list l_op) (s : lstate) (W : world) :
  world_rep s W -> l_ops_ok (dom (nodes s)) ops W ->
  exists s', l_run ops s = Some (s', (l_spec_run ops W).2) /\ world_rep s' (l_spec_run ops W).1.
Proof.
  revert s W. induction ops as [|op ops IH]; intros s W HW Hok; [by exists s|]. destruct Hok as [Hop Hok].
  destruct (l_step_spec op s W HW Hop) as (s1 & E & HW1 & Hd1). cbn [l_run l_spec_run]. rewrite E.
  cbn [mbind option_bind]. destruct (l_spec op W) as [W1 a]. cbn [fst snd] in *. rewrite <- Hd1 in Hok.
  destruct (IH s1 W1 HW1 Hok) as (s2 & E2 & HW2). rewrite E2. cbn [mbind option_bind].
  destruct (l_spec_run ops W1) as [W2 al]. by exists s2.
Qed.

#[export] Instance l_op_ok_dec ns W op : Decision (l_op_ok ns W op).
Proof.
  destruct op as [L b|L e p ne|L p ne|L e|L e|e|L|L|L|L|L e|L e|L e|L e]; cbn [l_op_ok];
    unfold in_list, unlinked; try apply _.
  apply and_dec; [apply _|]. apply and_dec; [|apply _].
  destruct e as [e|]; [|left; done].
  destruct (decide (e ∈ (default (false, []) (W !! L)).2.*1)) as [H|H]; [left; by intros x [= <-]|].
  right. intros Hn. by apply H, Hn.
Defined.

#[export] Instance l_ops_ok_dec ns ops : forall W, Decision (l_ops_ok ns ops W).
Proof. induction ops as [|op ops IH]; intros W; cbn [l_ops_ok]; apply _. Defined.

(** Four nodes, in no list. *)
Definition lstate0 : lstate :=
  mk_lstate ∅ (list_to_map (map (fun x => (x, mk_lnode None 0 None None)) [1; 2; 3; 4]%positive)).

Definition l_ops0 : list l_op :=
  [LInit 7 true; LInit 8 false; LAppend 7 10 1; LAppend 7 20 2; LInsertNext 7 (Some 1%positive) 30 3;
   LInsertNext 7 None 40 4; LNext 7 1; LPrev 7 3; LCount 7; LRemove 7 3; LInsertNext 8 None 31 3;
   LTail 7; LOwner 8 3; LElem 8 3; LTake 8 3; LRemoveUnlinked 3; LDestroy 7; LHead 7]%positive.

Lemma llist_refines_sequences_witness : exists s',
  l_run l_ops0 lstate0 = Some (s', (l_spec_run l_ops0 ∅).2) /\ world_rep s' (l_spec_run l_ops0 ∅).1.
Proof.
  apply (llist_refines_sequences l_ops0 lstate0 ∅).
  - split.
    + done.
    + intros L d xs H. by rewrite lookup_empty in H.
    + intros x n L Hn HL. exfalso. unfold lstate0 in Hn. cbn [nodes] in Hn.
      apply elem_of_list_to_map_2 in Hn. apply list_elem_of_fmap in Hn as (y & [= _ ->] & _). done.
  - apply (bool_decide_unpack _). vm_compute. exact I.
Defined.

Example l_run_ops0 : snd <$> l_run l_ops0 lstate0 = Some
  [AVoid; AVoid; AVoid; AVoid; AVoid; AVoid; ANode (Some 3%positive); ANode (Some 1%positive); ANum 4;
   ADtor [30]; AVoid; ANode (Some 2%positive); AList (Some 8%positive); APtr (Some 31); APtr (Some 31);
   ADtor []; ADtor [20; 10; 40]; ANode None].
Proof. vm_compute. reflexivity. Qed.
