(* ===== verification/Expire.v ===== *)
(** The timers of a multi handle: the timeout list of each transfer, the splay
    tree of the next timeouts, and the set of dirty transfers (lib/multi.c).

    A transfer ([struct Curl_easy]) keeps one [time_node] per kind of timer;
    the nodes that are set are linked in its [timeoutlist], and the transfer
    itself is one node of the multi handle's tree, keyed by [expiretime].  The
    model runs on the list nodes of [Llist], the tree nodes of [Splay], the
    bit sets of [UintBset] and the table of [UintTable].

    A handle is an address ([positive]); the address is also the payload of
    its tree node.  The time the clock shows is an argument. *)

From Stdlib Require Import ZArith Lia List Sorted.
From stdpp Require Import base numbers option list gmap.
From S2P Require Import Prelude Timeval Llist Splay UintBset UintTable.
Close Scope nat_scope.
Open Scope Z_scope.

(** * Data *)

Inductive expire_id :=
  | EXPIRE_100_TIMEOUT | EXPIRE_ASYNC_NAME | EXPIRE_CONNECTTIMEOUT | EXPIRE_DNS_PER_NAME
  | EXPIRE_DNS_PER_NAME2 | EXPIRE_HAPPY_EYEBALLS_DNS | EXPIRE_HAPPY_EYEBALLS | EXPIRE_MULTI_PENDING
  | EXPIRE_SPEEDCHECK | EXPIRE_TIMEOUT | EXPIRE_TOOFAST | EXPIRE_QUIC | EXPIRE_FTP_ACCEPT
  | EXPIRE_ALPN_EYEBALLS | EXPIRE_SHUTDOWN.

#[export] Instance expire_id_eq_dec : EqDecision expire_id.
Proof. solve_decision. Defined.

Definition expire_ids : list expire_id :=
  [EXPIRE_100_TIMEOUT; EXPIRE_ASYNC_NAME; EXPIRE_CONNECTTIMEOUT; EXPIRE_DNS_PER_NAME;
   EXPIRE_DNS_PER_NAME2; EXPIRE_HAPPY_EYEBALLS_DNS; EXPIRE_HAPPY_EYEBALLS; EXPIRE_MULTI_PENDING;
   EXPIRE_SPEEDCHECK; EXPIRE_TIMEOUT; EXPIRE_TOOFAST; EXPIRE_QUIC; EXPIRE_FTP_ACCEPT;
   EXPIRE_ALPN_EYEBALLS; EXPIRE_SHUTDOWN].

(** The index in [data->state.expires]. *)
Definition expire_num (id : expire_id) : nat :=
  match id with
  | EXPIRE_100_TIMEOUT => 0 | EXPIRE_ASYNC_NAME => 1 | EXPIRE_CONNECTTIMEOUT => 2
  | EXPIRE_DNS_PER_NAME => 3 | EXPIRE_DNS_PER_NAME2 => 4 | EXPIRE_HAPPY_EYEBALLS_DNS => 5
  | EXPIRE_HAPPY_EYEBALLS => 6 | EXPIRE_MULTI_PENDING => 7 | EXPIRE_SPEEDCHECK => 8
  | EXPIRE_TIMEOUT => 9 | EXPIRE_TOOFAST => 10 | EXPIRE_QUIC => 11 | EXPIRE_FTP_ACCEPT => 12
  | EXPIRE_ALPN_EYEBALLS => 13 | EXPIRE_SHUTDOWN => 14
  end%nat.

Definition expire_of (n : nat) : option expire_id := expire_ids !! n.

Lemma expire_of_num id : expire_of (expire_num id) = Some id.
Proof. by destruct id. Qed.

#[export] Instance expire_id_countable : Countable expire_id :=
  inj_countable expire_num expire_of expire_of_num.

Abbreviation handle := positive.

(** The address of [data->state.expires[id].list], and the pointer to the
    [time_node] around it, counted from the start of the array. *)
Definition node_loc (h : handle) (id : expire_id) : nloc := encode (h, id).
Definition node_ptr (id : expire_id) : Z := Z.of_nat (expire_num id).

Record time_node := mk_tnode { tn_time : curltime; tn_eid : expire_id }.

Record easy := mk_easy {
  e_mid : Z;
  e_multi : bool;
  expiretime : curltime;
  timenode : loc;
  timeoutlist : lloc;
  expires : gmap expire_id time_node;
}.

Record multi := mk_multi {
  easies : gmap handle easy;
  trees : heap;
  timetree : option loc;
  links : lstate;
  dirty : uint32_bset;
  process : uint32_bset;
  xfers : uint32_tbl handle;
}.

Definition set_expiretime (v : curltime) (d : easy) : easy :=
  mk_easy (e_mid d) (e_multi d) v (timenode d) (timeoutlist d) (expires d).
Definition set_expires (id : expire_id) (v : time_node) (d : easy) : easy :=
  mk_easy (e_mid d) (e_multi d) (expiretime d) (timenode d) (timeoutlist d) (<[id := v]> (expires d)).

Definition set_easy (h : handle) (d : easy) (m : multi) : multi :=
  mk_multi (<[h := d]> (easies m)) (trees m) (timetree m) (links m) (dirty m) (process m) (xfers m).
Definition set_trees (hp : heap) (t : option loc) (m : multi) : multi :=
  mk_multi (easies m) hp t (links m) (dirty m) (process m) (xfers m).
Definition set_links (s : lstate) (m : multi) : multi :=
  mk_multi (easies m) (trees m) (timetree m) s (dirty m) (process m) (xfers m).
Definition set_dirty (b : uint32_bset) (m : multi) : multi :=
  mk_multi (easies m) (trees m) (timetree m) (links m) b (process m) (xfers m).
Definition set_xfers (x : uint32_tbl handle) (m : multi) : multi :=
  mk_multi (easies m) (trees m) (timetree m) (links m) (dirty m) (process m) x.

(** [Curl_node_elem] of a node of the timeout list. *)
Definition node_time_of (d : easy) (e : nloc) (s : lstate) : option time_node :=
  p ← Curl_node_elem e s;
  id ← expire_of (Z.to_nat p);
  expires d !! id.

(** * The timeout list of a transfer *)

Fixpoint deltimeout_loop (fuel : nat) (d : easy) (eid : expire_id) (e : option nloc) (s : lstate)
  : option lstate :=
  match e with
  | None => Some s
  | Some e =>
      match fuel with
      | O => None
      | S fuel =>
          n ← node_time_of d e s;
          if decide (tn_eid n = eid) then '(s, _) ← Curl_node_remove (Some e) s; Some s
          else next ← Curl_node_next e s; deltimeout_loop fuel d eid next s
      end
  end.

Definition multi_deltimeout (h : handle) (eid : expire_id) (m : multi) : option multi :=
  d ← easies m !! h;
  e ← Curl_llist_head (timeoutlist d) (links m);
  n ← Curl_llist_count (timeoutlist d) (links m);
  s ← deltimeout_loop (Z.to_nat n) d eid e (links m);
  Some (set_links s m).

(** The node after which the new timeout goes. *)
Fixpoint addtimeout_loop (fuel : nat) (d : easy) (stamp : curltime) (e prev : option nloc) (s : lstate)
  : option (option nloc) :=
  match e with
  | None => Some prev
  | Some e =>
      match fuel with
      | O => None
      | S fuel =>
          check ← node_time_of d e s;
          if curlx_ptimediff_ms (tn_time check) stamp >? 0 then Some prev
          else next ← Curl_node_next e s; addtimeout_loop fuel d stamp next (Some e) s
      end
  end.

Definition multi_addtimeout (h : handle) (stamp : curltime) (eid : expire_id) (m : multi) : option multi :=
  d ← easies m !! h;
  let d := set_expires eid (mk_tnode stamp eid) d in
  let m := set_easy h d m in
  n ← Curl_llist_count (timeoutlist d) (links m);
  prev ← (if n =? 0 then Some None
          else
            e ← Curl_llist_head (timeoutlist d) (links m);
            addtimeout_loop (Z.to_nat n) d stamp e None (links m));
  s ← Curl_llist_insert_next (timeoutlist d) prev (node_ptr eid) (node_loc h eid) (links m);
  Some (set_links s m).

(** * Setting and clearing timers *)

(** [milli] milliseconds after [now]. *)
Definition expire_at (now : curltime) (milli : Z) : curltime :=
  let sec := tv_sec now + Z.quot milli 1000 in
  let usec := tv_usec now + Z.rem milli 1000 * 1000 in
  if usec >=? 1000000 then mk_time (sec + 1) (usec - 1000000) else mk_time sec usec.

Definition is_set (t : curltime) : bool := negb (tv_sec t =? 0) || negb (tv_usec t =? 0).

(** [*curr_expire = set] and what follows it. *)
Definition enter_tree (h : handle) (set : curltime) (m : multi) : option multi :=
  d ← easies m !! h;
  let m := set_easy h (set_expiretime set d) m in
  hp ← Curl_splayset (timenode d) (Zpos h) (trees m);
  '(hp, t) ← Curl_splayinsert set (timetree m) (timenode d) hp;
  Some (set_trees hp t m).

(** [Curl_splayremove(multi->timetree, node, &multi->timetree)]; a failure is
    only reported. *)
Definition leave_tree (h : handle) (m : multi) : option multi :=
  d ← easies m !! h;
  '(hp, _, newroot) ← Curl_splayremove (timetree m) (timenode d) (trees m);
  Some (set_trees hp (default (timetree m) newroot) m).

Definition Curl_expire_ex (h : handle) (milli : Z) (id : expire_id) (now : curltime) (m : multi)
  : option multi :=
  d ← easies m !! h;
  if negb (e_multi d) then Some m
  else
    let set := expire_at now milli in
    m ← multi_deltimeout h id m;
    m ← multi_addtimeout h set id m;
    if is_set (expiretime d) then
      if curlx_ptimediff_ms set (expiretime d) >? 0 then Some m
      else m ← leave_tree h m; enter_tree h set m
    else enter_tree h set m.

Definition Curl_expire (h : handle) (milli : Z) (id : expire_id) (now : curltime) (m : multi)
  : option multi := Curl_expire_ex h milli id now m.

Definition Curl_expire_done (h : handle) (id : expire_id) (m : multi) : option multi :=
  multi_deltimeout h id m.

Definition zero_time : curltime := mk_time 0 0.

Definition Curl_expire_clear (h : handle) (m : multi) : option multi :=
  d ← easies m !! h;
  if negb (e_multi d) then Some m
  else if is_set (expiretime d) then
    m ← leave_tree h m;
    '(s, _) ← Curl_llist_destroy (Some (timeoutlist d)) (links m);
    let m := set_links s m in
    d ← easies m !! h;
    Some (set_easy h (set_expiretime zero_time d) m)
  else Some m.

(** * Expired timers *)

Fixpoint outdated_loop (fuel : nat) (d : easy) (now : curltime) (e : option nloc) (s : lstate)
  : option lstate :=
  match e with
  | None => Some s
  | Some e =>
      match fuel with
      | O => None
      | S fuel =>
          n ← Curl_node_next e s;
          node ← node_time_of d e s;
          if curlx_ptimediff_us (tn_time node) now <=? 0 then
            '(s, _) ← Curl_node_remove (Some e) s;
            outdated_loop fuel d now n s
          else Some s
      end
  end.

Definition add_next_timeout (now : curltime) (h : handle) (m : multi) : option multi :=
  d ← easies m !! h;
  e ← Curl_llist_head (timeoutlist d) (links m);
  n ← Curl_llist_count (timeoutlist d) (links m);
  s ← outdated_loop (Z.to_nat n) d now e (links m);
  let m := set_links s m in
  e ← Curl_llist_head (timeoutlist d) (links m);
  match e with
  | None => Some (set_easy h (set_expiretime zero_time d) m)
  | Some e =>
      node ← node_time_of d e s;
      let tv := tn_time node in
      let m := set_easy h (set_expiretime tv d) m in
      '(hp, t) ← Curl_splayinsert tv (timetree m) (timenode d) (trees m);
      Some (set_trees hp t m)
  end.

Definition Curl_multi_mark_dirty (h : handle) (m : multi) : option multi :=
  d ← easies m !! h;
  if e_multi d && negb (e_mid d =? UINT32_MAX) then
    '(_, b) ← Curl_uint32_bset_add (dirty m) (e_mid d);
    Some (set_dirty b m)
  else Some m.

(** Every round takes an expired node out and puts it back, if at all, with a
    time to come, so one round per node of the heap, and a last one, are enough. *)
Fixpoint expired_loop (fuel : nat) (now : curltime) (m : multi) : option multi :=
  '(hp, t, x) ← Curl_splaygetbest now (timetree m) (trees m);
  let m := set_trees hp t m in
  match x with
  | None => Some m
  | Some x =>
      match fuel with
      | O => None
      | S fuel =>
          data ← Curl_splayget x hp;
          match data with
          | Zpos h =>
              m ← add_next_timeout now h m;
              m ← Curl_multi_mark_dirty h m;
              expired_loop fuel now m
          | _ => expired_loop fuel now m
          end
      end
  end.

Definition multi_mark_expired_as_dirty (now : curltime) (m : multi) : option multi :=
  expired_loop (size (trees m)) now m.

(** * The timeout of the multi handle *)

Definition Curl_multi_get_easy (mid : Z) (m : multi) : option (multi * option handle) :=
  data ← Curl_uint32_tbl_get (xfers m) mid;
  match data with
  | Some h =>
      if bool_decide (is_Some (easies m !! h)) then Some (m, Some h)
      else '(x, _) ← Curl_uint32_tbl_remove (xfers m) mid; Some (set_xfers x m, None)
  | None => '(x, _) ← Curl_uint32_tbl_remove (xfers m) mid; Some (set_xfers x m, None)
  end.

Fixpoint dirties_loop (fuel : nat) (mid : Z) (m : multi) : option (multi * bool) :=
  match fuel with
  | O => None
  | S fuel =>
      let again (m : multi) : option (multi * bool) :=
        b ← Curl_uint32_bset_remove (dirty m) mid;
        let m := set_dirty b m in
        r ← Curl_uint32_bset_next (dirty m) mid;
        match r with
        | (true, mid) => dirties_loop fuel mid m
        | (false, _) => Some (m, false)
        end in
      '(m, data) ← Curl_multi_get_easy mid m;
      match data with
      | Some _ =>
          c ← Curl_uint32_bset_contains (process m) mid;
          match c with true => Some (m, true) | false => again m end
      | None => again m
      end
  end.

(** The numbers visited grow, so the capacity of the set is fuel enough. *)
Definition multi_has_dirties (m : multi) : option (multi * bool) :=
  r ← Curl_uint32_bset_first (dirty m);
  match r with
  | (true, mid, b) => dirties_loop (Z.to_nat (64 * nslots b)) mid (set_dirty b m)
  | (false, _, b) => Some (set_dirty b m, false)
  end.

(** The expire time and the timeout in milliseconds; nothing is written to
    [*expire_time] when the handle is dead. *)
Definition multi_timeout (dead : bool) (now : curltime) (m : multi)
  : option (multi * option curltime * Z) :=
  if dead then Some (m, None, 0)
  else
    r ← multi_has_dirties m;
    match r with
    | (m, true) => Some (m, Some now, 0)
    | (m, false) =>
      match timetree m with
      | Some _ =>
          '(hp, t) ← Curl_splay zero_time (timetree m) (trees m);
          let m := set_trees hp t m in
          n ← load t hp;
          if curlx_ptimediff_us (key n) now >? 0 then
            Some (m, Some (key n), curlx_timediff_ceil_ms (key n) now)
          else Some (m, Some (key n), 0)
      | None => Some (m, Some zero_time, -1)
      end
    end.

(** * The abstract timers

    A transfer has a list of timeouts, in the order they will be looked at, and
    the time it is in the tree with ([zero_time]: it is not). *)

Abbreviation timeouts := (list (expire_id * curltime)).

Fixpoint t_del (id : expire_id) (l : timeouts) : timeouts :=
  match l with
  | [] => []
  | x :: l => if decide (x.1 = id) then l else x :: t_del id l
  end.

Fixpoint t_add (id : expire_id) (stamp : curltime) (l : timeouts) : timeouts :=
  match l with
  | [] => [(id, stamp)]
  | x :: l' => if curlx_ptimediff_ms x.2 stamp >? 0 then (id, stamp) :: l else x :: t_add id stamp l'
  end.

Fixpoint t_drop (now : curltime) (l : timeouts) : timeouts :=
  match l with
  | [] => []
  | x :: l' => if curlx_ptimediff_us x.2 now <=? 0 then t_drop now l' else l
  end.

Lemma t_del_mid id t l1 l2 : ~ (id ∈ l1.*1) -> t_del id (l1 ++ (id, t) :: l2) = l1 ++ l2.
Proof.
  induction l1 as [|[i u] l1 IH]; cbn; intros H; [by rewrite decide_True|].
  rewrite elem_of_cons in H. rewrite decide_False by (cbn; intros ->; tauto). f_equal. apply IH. tauto.
Qed.

Lemma t_del_absent id l : ~ (id ∈ l.*1) -> t_del id l = l.
Proof.
  induction l as [|[i u] l IH]; cbn; intros H; [done|].
  rewrite elem_of_cons in H. rewrite decide_False by (cbn; intros ->; tauto). f_equal. apply IH. tauto.
Qed.

Lemma t_del_sub id l x : x ∈ t_del id l -> x ∈ l.
Proof.
  induction l as [|y l IH]; cbn; [done|]. case_decide as E; [by right|].
  intros [->|H]%elem_of_cons; [left|right; by apply IH].
Qed.

Lemma t_del_gone id l : NoDup l.*1 -> NoDup (t_del id l).*1 /\ ~ (id ∈ (t_del id l).*1).
Proof.
  induction l as [|[i u] l IH]; cbn; intros H; [split; [done|apply not_elem_of_nil]|].
  apply NoDup_cons in H as [Hi H]. case_decide as E; cbn in E; [by subst|].
  destruct (IH H) as [H1 H2]. cbn. split; [|rewrite elem_of_cons; intros [?|?]; congruence].
  apply NoDup_cons. split; [|done]. intros Hin. apply Hi. apply list_elem_of_fmap in Hin as (y & -> & Hy).
  apply list_elem_of_fmap. exists y. split; [done|]. by apply t_del_sub in Hy.
Qed.

Lemma t_add_split id stamp l : exists l1 l2, l = l1 ++ l2 /\ t_add id stamp l = l1 ++ (id, stamp) :: l2.
Proof.
  induction l as [|x l (l1 & l2 & -> & E)]; [by exists [], []|]. cbn.
  case_if; [by exists [], (x :: l1 ++ l2)|]. exists (x :: l1), l2. by rewrite E.
Qed.

Lemma t_drop_suffix now l : exists l1, l = l1 ++ t_drop now l.
Proof.
  induction l as [|x l (l1 & E)]; [by exists []|]. cbn. case_if; [|by exists []].
  exists (x :: l1). cbn. by rewrite <- E.
Qed.

(** * The list of a transfer in the store *)

Definition elems_of (h : handle) (ids : list expire_id) : list (nloc * Z) :=
  map (fun id => (node_loc h id, node_ptr id)) ids.

Lemma node_loc_inj h id h' id' : node_loc h id = node_loc h' id' -> h = h' /\ id = id'.
Proof. intros E. apply encode_inj in E. by injection E. Qed.

Lemma elems_of_app h l1 l2 : elems_of h (l1 ++ l2) = elems_of h l1 ++ elems_of h l2.
Proof. apply map_app. Qed.

Lemma elem_of_elems_of h ids x : x ∈ (elems_of h ids).*1 <-> exists id, id ∈ ids /\ x = node_loc h id.
Proof.
  unfold elems_of. rewrite list_elem_of_fmap. split.
  - intros (y & -> & Hy). apply list_elem_of_fmap in Hy as (id & -> & Hid). by exists id.
  - intros (id & Hid & ->). exists (node_loc h id, node_ptr id). split; [done|].
    apply list_elem_of_fmap. by exists id.
Qed.

Lemma node_in_elems h ids id : node_loc h id ∈ (elems_of h ids).*1 <-> id ∈ ids.
Proof.
  rewrite elem_of_elems_of. split; [|intros H; by exists id].
  intros (id' & H & E). by apply node_loc_inj in E as [_ ->].
Qed.

(** The timeouts of the handle are in the list [L], and in its time nodes. *)
Record list_of (W : world) (L : lloc) (h : handle) (d : easy) (l : timeouts) : Prop := {
  lo_list : W !! L = Some (false, elems_of h l.*1);
  lo_nodup : NoDup l.*1;
  lo_times : forall id t, (id, t) ∈ l -> expires d !! id = Some (mk_tnode t id);
}.

Lemma list_of_in W L h d l id : list_of W L h d l -> id ∈ l.*1 -> in_list W L (node_loc h id).
Proof. intros [HL _ _] Hid. unfold in_list. rewrite HL. cbn. by apply node_in_elems. Qed.

Lemma node_time_spec s W L h d l1 id t l2 : world_rep s W -> list_of W L h d (l1 ++ (id, t) :: l2) ->
  node_time_of d (node_loc h id) s = Some (mk_tnode t id) /\
  Curl_node_next (node_loc h id) s = Some (first_of (elems_of h l2.*1) None).
Proof.
  intros HW Hl. pose proof Hl as [HL Hnd Ht].
  destruct (node_fields s W L (node_loc h id) HW) as (d' & xs & p & HL' & Hp & Hn).
  { eapply list_of_in; [exact Hl|]. rewrite fmap_app. apply elem_of_app. right. left. }
  rewrite HL in HL'. injection HL' as <- <-. rewrite fmap_app, elems_of_app in Hp, Hn. cbn in Hp, Hn.
  assert (Hout : ~ (node_loc h id ∈ (elems_of h l1.*1).*1)).
  { rewrite node_in_elems. rewrite fmap_app in Hnd. apply NoDup_app in Hnd as (_ & Hd & _).
    intros Hin. apply (Hd id Hin). left. }
  rewrite elem_ptr_mid in Hp by done. rewrite l_next_mid in Hn by done. injection Hp as <-.
  unfold node_time_of, Curl_node_elem, Curl_node_next. rewrite Hn. cbn [mbind option_bind n_ptr n_next].
  split; [|done]. unfold node_ptr. rewrite Nat2Z.id, expire_of_num. cbn. apply Ht, elem_of_app. right. left.
Qed.

Lemma list_head_count s W L h d l : world_rep s W -> list_of W L h d l ->
  Curl_llist_head L s = Some (first_of (elems_of h l.*1) None) /\
  Curl_llist_count L s = Some (Z.of_nat (length l)).
Proof.
  intros HW [HL _ _]. destruct (list_fields s W L HW) as (d' & xs & HL' & El); [by eexists|].
  rewrite HL in HL'. injection HL' as <- <-. unfold Curl_llist_head, Curl_llist_count. rewrite El. cbn.
  split; [done|]. unfold elems_of. by rewrite length_map, length_fmap.
Qed.

Lemma l_remove_elems h l1 id l2 : NoDup (l1 ++ id :: l2) ->
  l_remove (node_loc h id) (elems_of h (l1 ++ id :: l2)) = elems_of h (l1 ++ l2).
Proof.
  intros Hnd. apply NoDup_app in Hnd as (_ & H1 & H2). apply NoDup_cons in H2 as [H2 _].
  rewrite !elems_of_app. cbn. apply l_remove_mid; rewrite node_in_elems; [|done].
  intros Hin. apply (H1 id Hin). left.
Qed.

(** Removing one timeout of the list. *)
Lemma list_remove s W L h d l1 id t l2 : world_rep s W -> list_of W L h d (l1 ++ (id, t) :: l2) ->
  exists s', Curl_node_remove (Some (node_loc h id)) s = Some (s', []) /\
    world_rep s' (<[L := (false, elems_of h (l1 ++ l2).*1)]> W) /\
    list_of (<[L := (false, elems_of h (l1 ++ l2).*1)]> W) L h d (l1 ++ l2) /\
    dom (nodes s') = dom (nodes s).
Proof.
  intros HW Hl. pose proof Hl as [HL Hnd Ht].
  destruct (world_remove s W L (node_loc h id) HW) as (d' & xs & s' & HL' & E & HW' & Hd).
  { eapply list_of_in; [exact Hl|]. rewrite fmap_app. apply elem_of_app. right. left. }
  rewrite HL in HL'. injection HL' as <- <-. rewrite fmap_app in HW', Hnd. cbn in HW', Hnd.
  rewrite l_remove_elems in HW' by done. rewrite <- fmap_app in HW'.
  exists s'. split; [exact E|]. split; [done|]. split; [|done]. split.
  - apply lookup_insert_eq.
  - rewrite fmap_app. apply NoDup_app in Hnd as (H1 & H2 & H3). apply NoDup_cons in H3 as [_ H3].
    apply NoDup_app. split; [done|]. split; [|done]. intros x Hx Hx2. apply (H2 x Hx). by right.
  - intros i u Hi. apply Ht. rewrite elem_of_app in Hi. rewrite elem_of_app, elem_of_cons. tauto.
Qed.

(** * The loops over the list *)

Lemma deltimeout_loop_spec W L h d eid fuel l2 : forall l1 s, world_rep s W ->
  list_of W L h d (l1 ++ l2) -> ~ (eid ∈ l1.*1) -> (length l2 <= fuel)%nat ->
  exists s', deltimeout_loop fuel d eid (first_of (elems_of h l2.*1) None) s = Some s' /\
    world_rep s' (<[L := (false, elems_of h (t_del eid (l1 ++ l2)).*1)]> W) /\
    dom (nodes s') = dom (nodes s).
Proof.
  revert fuel. induction l2 as [|[id t] l2 IH]; intros fuel l1 s HW Hl Hout Hf.
  - exists s. cbn. rewrite app_nil_r in *. rewrite t_del_absent by done.
    rewrite insert_id by apply (lo_list _ _ _ _ _ Hl). by destruct fuel.
  - destruct fuel as [|fuel]; [cbn in Hf; lia|]. cbn [fmap list_fmap fst elems_of map first_of deltimeout_loop].
    destruct (node_time_spec s W L h d l1 id t l2 HW Hl) as [E1 E2]. rewrite E1, E2. cbn [mbind option_bind tn_eid].
    case_decide as E.
    + subst eid. destruct (list_remove s W L h d l1 id t l2 HW Hl) as (s' & E & HW' & _ & Hd).
      rewrite E. cbn [mbind option_bind]. exists s'. rewrite t_del_mid by done. done.
    + rewrite cons_middle, app_assoc in *. apply (IH fuel (l1 ++ [(id, t)]) s); try done.
      * rewrite fmap_app, elem_of_app. cbn. rewrite list_elem_of_singleton. intros [?|?]; [done|by subst].
      * cbn in Hf. lia.
Qed.

(** The node after which a new timeout is put. *)
Lemma addtimeout_loop_spec W L h d id stamp fuel l2 s : world_rep s W -> forall l1,
  list_of W L h d (l1 ++ l2) -> (length l2 <= fuel)%nat ->
  exists l3 l4, l2 = l3 ++ l4 /\ t_add id stamp l2 = l3 ++ (id, stamp) :: l4 /\
    addtimeout_loop fuel d stamp (first_of (elems_of h l2.*1) None) (last_of None (elems_of h l1.*1)) s
      = Some (last_of None (elems_of h (l1 ++ l3).*1)).
Proof.
  intros HW. revert fuel. induction l2 as [|[i t] l2 IH]; intros fuel l1 Hl Hf.
  - exists [], []. split; [done|]. split; [done|]. rewrite app_nil_r. by destruct fuel.
  - destruct fuel as [|fuel]; [cbn in Hf; lia|].
    cbn [fmap list_fmap fst elems_of map first_of addtimeout_loop t_add snd].
    destruct (node_time_spec s W L h d l1 i t l2 HW Hl) as [E1 E2]. rewrite E1, E2. cbn [mbind option_bind tn_time].
    destruct (curlx_ptimediff_ms t stamp >? 0).
    + exists [], ((i, t) :: l2). split; [done|]. split; [done|]. by rewrite app_nil_r.
    + rewrite cons_middle, app_assoc in Hl.
      destruct (IH fuel (l1 ++ [(i, t)]) Hl) as (l3 & l4 & -> & Ea & El); [cbn in Hf; lia|].
      exists ((i, t) :: l3), l4. split; [done|]. split; [cbn; by rewrite Ea|].
      assert (Elast : last_of None (elems_of h (l1 ++ [(i, t)]).*1) = Some (node_loc h i)).
      { rewrite fmap_app, elems_of_app. apply last_of_snoc. }
      rewrite Elast in El. rewrite El. by rewrite <- app_assoc.
Qed.

Lemma outdated_loop_spec L h d now fuel l : forall W s, world_rep s W ->
  list_of W L h d l -> (length l <= fuel)%nat ->
  exists s', outdated_loop fuel d now (first_of (elems_of h l.*1) None) s = Some s' /\
    world_rep s' (<[L := (false, elems_of h (t_drop now l).*1)]> W) /\
    list_of (<[L := (false, elems_of h (t_drop now l).*1)]> W) L h d (t_drop now l) /\
    dom (nodes s') = dom (nodes s).
Proof.
  revert fuel. induction l as [|[id t] l IH]; intros fuel W s HW Hl Hf.
  - exists s. cbn. rewrite insert_id by apply (lo_list _ _ _ _ _ Hl). by destruct fuel.
  - destruct fuel as [|fuel]; [cbn in Hf; lia|].
    cbn [fmap list_fmap fst elems_of map first_of outdated_loop t_drop snd].
    destruct (node_time_spec s W L h d [] id t l HW Hl) as [E1 E2]. rewrite E1, E2. cbn [mbind option_bind tn_time].
    destruct (curlx_ptimediff_us t now <=? 0).
    + destruct (list_remove s W L h d [] id t l HW Hl) as (s1 & E & HW1 & Hl1 & Hd1). rewrite E. cbn [mbind option_bind].
      destruct (IH fuel _ s1 HW1 Hl1) as (s2 & E' & HW2 & Hl2 & Hd2); [cbn in Hf; lia|].
      rewrite insert_insert_eq in HW2, Hl2. exists s2. rewrite Hd2. done.
    + exists s. pose proof (lo_list _ _ _ _ _ Hl) as HL. split; [done|]. rewrite insert_id by exact HL. done.
Qed.

(** * The transfers and the tree *)

Definition queue_at (q : queue) (K : Z) (x : loc) : Prop := exists g, (K, g) ∈ q /\ x ∈ g.

Lemma queue_at_members q K x : queue_at q K x -> x ∈ members q.
Proof.
  intros (g & Hg & Hx). unfold members. apply list_elem_of_In, in_concat. exists g.
  split; [|by apply list_elem_of_In]. apply in_map_iff. exists (K, g). split; [done|]. by apply list_elem_of_In.
Qed.

Lemma members_at q x : x ∈ members q -> exists K, queue_at q K x.
Proof. intros H. destruct (members_split q x H) as (q1 & K & g & q2 & -> & Hg). exists K, g. split; [|done]. apply elem_of_app. right. left. Qed.

Lemma queue_at_cons K g q K' y : queue_at ((K, g) :: q) K' y <-> K' = K /\ y ∈ g \/ queue_at q K' y.
Proof.
  unfold queue_at. split.
  - intros (g' & [[= -> ->]|Hg]%elem_of_cons & Hy); [by left|]. right. by exists g'.
  - intros [[-> Hy]|(g' & Hg & Hy)]; [exists g|exists g']; (split; [|done]); [left|by right].
Qed.

Lemma queue_at_insert q K x K' y : queue_at (q_insert K x q) K' y <-> K' = K /\ y = x \/ queue_at q K' y.
Proof.
  induction q as [|[K0 g] q IH]; cbn [q_insert].
  - rewrite queue_at_cons, list_elem_of_singleton. done.
  - destruct (Z.ltb_spec K K0); [by rewrite queue_at_cons, list_elem_of_singleton|].
    destruct (Z.eqb_spec K K0) as [->|].
    + rewrite !queue_at_cons, elem_of_app, list_elem_of_singleton. tauto.
    + rewrite !queue_at_cons, IH. tauto.
Qed.

Lemma queue_at_remove q x K y : NoDup (members q) ->
  queue_at (q_remove x q) K y <-> queue_at q K y /\ y <> x.
Proof.
  induction q as [|[K0 g] q IH]; intros Hnd; cbn [q_remove].
  - split; [|tauto]. by intros (g & Hg%elem_of_nil & _).
  - change (members ((K0, g) :: q)) with (g ++ members q) in Hnd. apply NoDup_app in Hnd as (_ & Hd & Hnd).
    rewrite queue_at_cons. case_decide as Hx.
    + assert (Hq : queue_at q K y -> y <> x).
      { intros H%queue_at_members ->. by apply (Hd x). }
      assert (Hf : y ∈ filter (fun z => z <> x) g <-> y ∈ g /\ y <> x) by (rewrite list_elem_of_filter; tauto).
      destruct (filter (fun z => z <> x) g) as [|z g'] eqn:Ef.
      * rewrite elem_of_nil in Hf. tauto.
      * rewrite queue_at_cons. tauto.
    + rewrite queue_at_cons, IH by done. destruct (decide (y = x)) as [->|]; tauto.
Qed.

Lemma queue_at_fun q K K' x : NoDup (members q) -> queue_at q K x -> queue_at q K' x -> K = K'.
Proof.
  induction q as [|[K0 g] q IH]; intros Hnd H1 H2; [by destruct H1 as (g & H%elem_of_nil & _)|].
  change (members ((K0, g) :: q)) with (g ++ members q) in Hnd. apply NoDup_app in Hnd as (_ & Hd & Hnd).
  apply queue_at_cons in H1 as [[-> H1]|H1], H2 as [[-> H2]|H2]; [done| | |by apply IH].
  - by apply queue_at_members, Hd in H2.
  - by apply queue_at_members, Hd in H1.
Qed.

(** The best node is one whose time has come, and is removed. *)
Lemma q_best_spec h q K : groups_ok h q ->
  match (q_best K q).1 with
  | None => (q_best K q).2 = q /\ forall K' y, queue_at q K' y -> K < K'
  | Some x => (q_best K q).2 = q_remove x q /\ exists K', queue_at q K' x /\ K' <= K
  end.
Proof.
  intros Hg. destruct q as [|[K0 g] q]; [split; [done|]; by intros K' y (g & H%elem_of_nil & _)|].
  pose proof (groups_around h [] K0 g q Hg) as (_ & (x & ss & E & _) & _ & Hlt & Hnd & _). cbn in E. subst g.
  cbn [q_best]. destruct (Z.ltb_spec K K0); cbn [fst snd].
  - split; [done|]. intros K' y. rewrite queue_at_cons. intros [[-> _]|(g & Hg' & _)]; [done|].
    specialize (Hlt _ Hg'). cbn in Hlt. lia.
  - split.
    + cbn [q_remove]. rewrite decide_True by left. rewrite filter_cons_False by (intros H'; by apply H').
      apply NoDup_cons in Hnd as [Hnd _]. rewrite filter_ne_absent by done. by destruct ss.
    + exists K0. split; [|done]. apply queue_at_cons. left. split; [done|left].
Qed.

(** * What the model state stands for *)

Abbreviation transfers := (gmap handle (timeouts * curltime)).

Record transfer_rep (m : multi) (W : world) (q : queue) (h : handle) (d : easy) (l : timeouts)
    (t : curltime) : Prop := {
  tf_list : list_of W (timeoutlist d) h d l;
  tf_expire : expiretime d = t;
  tf_valid : valid_time t;
  tf_valids : forall id u, (id, u) ∈ l -> valid_time u /\ u <> zero_time;
  tf_nodes : forall id, node_loc h id ∈ dom (nodes (links m));
  tf_tnode : timenode d ∈ dom (trees m);
  tf_out : t = zero_time -> l = [] /\ ~ (timenode d ∈ members q);
  tf_in : t <> zero_time -> queue_at q (ktime t) (timenode d) /\
    payload (trees m) (timenode d) = Some (Zpos h);
  tf_mid : 0 <= e_mid d < 64 * nslots (dirty m);
  tf_multi : e_multi d = true;
}.

(** [A] is the timers of the transfers, [D] the dirty transfers; [W] and [q]
    are the contents of the lists and of the tree. *)
Record timers_rep (m : multi) (A : transfers) (D : gset Z) (W : world) (q : queue) : Prop := {
  tr_world : world_rep (links m) W;
  tr_queue : queue_rep (trees m) (timetree m) q;
  tr_dirty : bset_rep (dirty m) D;
  tr_dom : forall h, easies m !! h = None <-> A !! h = None;
  tr_transfer : forall h d l t, easies m !! h = Some d -> A !! h = Some (l, t) ->
    transfer_rep m W q h d l t;
  tr_lists : forall L x, W !! L = Some x -> exists h d, easies m !! h = Some d /\ timeoutlist d = L;
  tr_members : forall x, x ∈ members q -> exists h d, easies m !! h = Some d /\ timenode d = x;
  tr_inj : forall h h' d d', easies m !! h = Some d -> easies m !! h' = Some d' ->
    timenode d = timenode d' \/ timeoutlist d = timeoutlist d' -> h = h';
}.

Lemma transfer_of m A D W q h l t : timers_rep m A D W q -> A !! h = Some (l, t) ->
  exists d, easies m !! h = Some d /\ transfer_rep m W q h d l t.
Proof.
  intros HR HA. destruct (easies m !! h) as [d|] eqn:E; [exists d; split; [done|]; by apply (tr_transfer _ _ _ _ _ HR)|].
  apply (tr_dom _ _ _ _ _ HR) in E. congruence.
Qed.

Lemma transfer_of_easy m A D W q h d : timers_rep m A D W q -> easies m !! h = Some d ->
  exists l t, A !! h = Some (l, t) /\ transfer_rep m W q h d l t.
Proof.
  intros HR Hd. destruct (A !! h) as [[l t]|] eqn:E; [exists l, t; split; [done|]; by apply (tr_transfer _ _ _ _ _ HR)|].
  apply (tr_dom _ _ _ _ _ HR) in E. congruence.
Qed.

(** A step on one transfer. *)
Lemma timers_update m m' A D D' W W' q q' h d d' l' t' :
  timers_rep m A D W q -> easies m !! h = Some d -> easies m' = <[h := d']> (easies m) ->
  timenode d' = timenode d -> timeoutlist d' = timeoutlist d ->
  (forall L, L <> timeoutlist d -> W' !! L = W !! L) ->
  dom (nodes (links m')) = dom (nodes (links m)) -> dom (trees m') = dom (trees m) ->
  (forall K y, y <> timenode d -> queue_at q' K y <-> queue_at q K y) ->
  (forall y, y <> timenode d -> payload (trees m') y = payload (trees m) y) ->
  nslots (dirty m') = nslots (dirty m) ->
  world_rep (links m') W' -> queue_rep (trees m') (timetree m') q' -> bset_rep (dirty m') D' ->
  transfer_rep m' W' q' h d' l' t' ->
  timers_rep m' (<[h := (l', t')]> A) D' W' q'.
Proof.
  intros HR Hd Em Et El HW' Hdn Hdt Hq' Hpay Hns Hw Hqr Hdr Htf.
  destruct HR as [_ _ _ Rdom Rtf Rlists Rmem Rinj].
  assert (Hmem : forall y, y <> timenode d -> y ∈ members q' <-> y ∈ members q).
  { intros y Hy. split; intros [K HK]%members_at; apply (queue_at_members _ K); by apply Hq'. }
  split; try done.
  - intros h2. rewrite Em. destruct (decide (h2 = h)) as [->|Hne]; [by rewrite !lookup_insert_eq|].
    by rewrite !lookup_insert_ne.
  - intros h2 d2 l2 t2. rewrite Em. destruct (decide (h2 = h)) as [->|Hne].
    { rewrite !lookup_insert_eq. by intros [= <-] [= <- <-]. }
    rewrite !lookup_insert_ne by done. intros Hd2 HA2. destruct (Rtf h2 d2 l2 t2 Hd2 HA2) as
      [[L1 L2 L3] E1 V1 V2 N1 N2 O1 I1 M1 M2].
    assert (timenode d2 <> timenode d) as Hn by (intros E; apply Hne, (Rinj _ _ _ _ Hd2 Hd); by left).
    assert (timeoutlist d2 <> timeoutlist d) as HL by (intros E; apply Hne, (Rinj _ _ _ _ Hd2 Hd); by right).
    split; try done.
    + split; [by rewrite HW'|done|done].
    + intros id. by rewrite Hdn.
    + by rewrite Hdt.
    + intros Ht. destruct (O1 Ht) as [-> HO]. split; [done|]. by rewrite Hmem.
    + intros Ht. destruct (I1 Ht) as [HI HP]. split; [by apply Hq'|]. by rewrite Hpay.
    + by rewrite Hns.
  - intros L x Hx. rewrite Em. destruct (decide (L = timeoutlist d)) as [->|HL].
    + exists h, d'. by rewrite lookup_insert_eq.
    + rewrite HW' in Hx by done. destruct (Rlists L x Hx) as (h2 & d2 & Hd2 & E2).
      exists h2, d2. split; [|done]. rewrite lookup_insert_ne; [done|]. intros ->. congruence.
  - intros x Hx. rewrite Em. destruct (decide (x = timenode d)) as [->|Hne].
    + exists h, d'. by rewrite lookup_insert_eq.
    + apply Hmem in Hx; [|done]. destruct (Rmem x Hx) as (h2 & d2 & Hd2 & E2).
      exists h2, d2. split; [|done]. rewrite lookup_insert_ne; [done|]. intros ->. congruence.
  - assert (Hold : forall h2 d2, easies m' !! h2 = Some d2 -> exists d3, easies m !! h2 = Some d3 /\
      timenode d3 = timenode d2 /\ timeoutlist d3 = timeoutlist d2).
    { intros h2 d2. rewrite Em. destruct (decide (h2 = h)) as [->|Hne].
      - rewrite lookup_insert_eq. intros [= <-]. by exists d.
      - rewrite lookup_insert_ne by done. intros H. by exists d2. }
    intros h1 h2 d1 d2 H1 H2 E. destruct (Hold h1 d1 H1) as (d3 & H3 & E3 & F3), (Hold h2 d2 H2) as (d4 & H4 & E4 & F4).
    apply (Rinj _ _ _ _ H3 H4). rewrite E3, E4, F3, F4. done.
Qed.

(** The numbers of the transfers. *)
Definition mids (m : multi) : gmap handle Z := e_mid <$> easies m.

Lemma mids_update m m' h d d' : easies m !! h = Some d -> easies m' = <[h := d']> (easies m) ->
  e_mid d' = e_mid d -> mids m' = mids m.
Proof.
  intros Hd Em E. unfold mids. rewrite Em, fmap_insert, E. apply insert_id. by rewrite lookup_fmap, Hd.
Qed.

(** * The list operations on a transfer *)

Lemma deltimeout_spec m W h d l eid : world_rep (links m) W -> easies m !! h = Some d ->
  list_of W (timeoutlist d) h d l ->
  exists s, multi_deltimeout h eid m = Some (set_links s m) /\
    world_rep s (<[timeoutlist d := (false, elems_of h (t_del eid l).*1)]> W) /\
    list_of (<[timeoutlist d := (false, elems_of h (t_del eid l).*1)]> W) (timeoutlist d) h d (t_del eid l) /\
    dom (nodes s) = dom (nodes (links m)).
Proof.
  intros HW Hd Hl. unfold multi_deltimeout. rewrite Hd. cbn [mbind option_bind].
  destruct (list_head_count _ _ _ _ _ _ HW Hl) as [E1 E2]. rewrite E1. cbn [mbind option_bind].
  rewrite E2. cbn [mbind option_bind]. rewrite Nat2Z.id.
  destruct (deltimeout_loop_spec W (timeoutlist d) h d eid (length l) l [] (links m)) as (s & E & HW' & Hdom);
    [done|done|apply not_elem_of_nil|done|].
  rewrite E. cbn [mbind option_bind app] in *. exists s. split; [done|]. split; [done|]. split; [|done].
  destruct Hl as [HL Hnd Ht]. split; [apply lookup_insert_eq|by apply t_del_gone|].
  intros id t Hin. apply Ht. by apply t_del_sub in Hin.
Qed.

Lemma t_add_nodup id stamp l : NoDup l.*1 -> ~ (id ∈ l.*1) -> NoDup (t_add id stamp l).*1.
Proof.
  intros Hnd Hid. destruct (t_add_split id stamp l) as (l1 & l2 & -> & ->). rewrite fmap_app in *. cbn.
  rewrite <- Permutation_middle. by constructor.
Qed.

Lemma elem_of_t_add id stamp l x : x ∈ t_add id stamp l <-> x = (id, stamp) \/ x ∈ l.
Proof.
  destruct (t_add_split id stamp l) as (l1 & l2 & -> & ->). rewrite !elem_of_app, elem_of_cons. tauto.
Qed.

Lemma addtimeout_spec m W h d l eid stamp : world_rep (links m) W -> easies m !! h = Some d ->
  list_of W (timeoutlist d) h d l -> ~ (eid ∈ l.*1) -> unlinked W (node_loc h eid) ->
  node_loc h eid ∈ dom (nodes (links m)) ->
  let d' := set_expires eid (mk_tnode stamp eid) d in
  let W' := <[timeoutlist d := (false, elems_of h (t_add eid stamp l).*1)]> W in
  exists s, multi_addtimeout h stamp eid m = Some (set_links s (set_easy h d' m)) /\
    world_rep s W' /\ list_of W' (timeoutlist d) h d' (t_add eid stamp l) /\
    dom (nodes s) = dom (nodes (links m)).
Proof.
  intros HW Hd Hl Hout Hun Hnode d' W'. pose proof Hl as [HL Hnd Ht].
  assert (Hl' : list_of W (timeoutlist d) h d' l).
  { split; [done|done|]. intros id t Hin. cbn. rewrite lookup_insert_ne; [by apply Ht|].
    intros ->. apply Hout, list_elem_of_fmap. by exists (id, t). }
  unfold multi_addtimeout. rewrite Hd. cbn [mbind option_bind]. fold d'.
  change (timeoutlist d') with (timeoutlist d). change (links (set_easy h d' m)) with (links m).
  destruct (list_head_count _ _ _ _ _ _ HW Hl') as [E1 E2]. rewrite E2. cbn [mbind option_bind].
  rewrite Nat2Z.id. destruct (addtimeout_loop_spec W (timeoutlist d) h d' eid stamp (length l) l (links m) HW [] Hl')
    as (l1 & l2 & El & Ea & E); [done|]. cbn [app] in E.
  assert (Hprev : (if Z.of_nat (length l) =? 0 then Some None
    else e ← Curl_llist_head (timeoutlist d) (links m); addtimeout_loop (length l) d' stamp e None (links m))
    = Some (last_of None (elems_of h l1.*1))).
  { rewrite E1. cbn [mbind option_bind]. change (last_of None (elems_of h [].*1)) with (@None nloc) in E.
    destruct l as [|x l]; [|done]. destruct l1; [done|done]. }
  rewrite Hprev. cbn [mbind option_bind].
  destruct (world_insert (links m) W (timeoutlist d) false (elems_of h l.*1) (last_of None (elems_of h l1.*1))
    (node_ptr eid) (node_loc h eid)) as (s & Ei & HW' & Hdom); try done.
  { intros x Hx. rewrite El, fmap_app, elems_of_app, fmap_app. apply elem_of_app. left.
    revert Hx. clear. destruct (elems_of h l1.*1) as [|[y p] ys _] using rev_ind; [done|].
    rewrite last_of_snoc. intros [= <-]. rewrite fmap_app. apply elem_of_app. right. left. }
  rewrite Ei. cbn [mbind option_bind]. exists s. split; [done|].
  assert (EW : l_insert (last_of None (elems_of h l1.*1)) (node_loc h eid, node_ptr eid) (elems_of h l.*1)
    = elems_of h (t_add eid stamp l).*1).
  { rewrite Ea, El, !fmap_app, !elems_of_app. cbn. rewrite El, fmap_app in Hnd. apply NoDup_app in Hnd as (Hnd & _).
    revert Hnd. clear. destruct l1 as [|[i u] l1 _] using rev_ind; [done|]. rewrite !fmap_app, !elems_of_app.
    cbn. rewrite last_of_snoc, <- !app_assoc. cbn. intros Hnd. apply l_insert_after_mid. rewrite node_in_elems.
    apply NoDup_app in Hnd as (_ & Hd & _). intros Hin. apply (Hd i Hin). left. }
  rewrite EW in HW'. split; [done|]. split; [|done]. split; [apply lookup_insert_eq|by apply t_add_nodup|].
  intros id t Hin. apply elem_of_t_add in Hin as [[= -> ->]|Hin]; [cbn; apply lookup_insert_eq|].
  by apply (lo_times _ _ _ _ _ Hl').
Qed.

(** The nodes of a transfer are in no other list than its own. *)
Lemma timer_unlinked m A D W q h d l t xs eid : timers_rep m A D W q -> easies m !! h = Some d ->
  A !! h = Some (l, t) -> ~ (node_loc h eid ∈ xs.*1) ->
  unlinked (<[timeoutlist d := (false, xs)]> W) (node_loc h eid).
Proof.
  intros HR Hd HA Hout L [b ys]. destruct (decide (L = timeoutlist d)) as [->|HL].
  { rewrite lookup_insert_eq. by intros [= <- <-]. }
  rewrite lookup_insert_ne by done. intros HLW Hin. cbn in Hin.
  destruct (tr_lists _ _ _ _ _ HR L _ HLW) as (h2 & d2 & Hd2 & <-).
  destruct (transfer_of_easy _ _ _ _ _ _ _ HR Hd2) as (l2 & t2 & HA2 & Htf).
  rewrite (lo_list _ _ _ _ _ (tf_list _ _ _ _ _ _ _ Htf)) in HLW. injection HLW as <- <-.
  apply elem_of_elems_of in Hin as (id & Hid & E). apply node_loc_inj in E as [-> ->]. congruence.
Qed.

(** * Times of timers *)

(** A time a clock shows: not zero, and far from the end of [time_t]. *)
Definition now_ok (t : curltime) : Prop :=
  0 <= tv_sec t <= 2 ^ 61 /\ 0 <= tv_usec t < 1000000 /\ t <> zero_time.

Definition milli_ok (milli : Z) : Prop := 0 <= milli <= 9223372036854775807.

Lemma now_valid t : now_ok t -> valid_time t.
Proof. intros (H1 & H2 & _). split; lia. Qed.

Lemma expire_at_spec now milli : now_ok now -> milli_ok milli ->
  valid_time (expire_at now milli) /\ expire_at now milli <> zero_time /\
  ktime (expire_at now milli) = ktime now + 1000 * milli.
Proof.
  intros (H1 & H2 & Hnz) Hm. unfold milli_ok in Hm. unfold expire_at.
  rewrite Z.quot_div_nonneg, Z.rem_mod_nonneg, Z.geb_leb by lia.
  pose proof (Z.div_mod milli 1000 ltac:(lia)). pose proof (Z.mod_pos_bound milli 1000 ltac:(lia)).
  assert (milli / 1000 <= 9223372036854775) by lia.
  assert (0 <= milli / 1000) by (apply Z.div_pos; lia).
  assert (Hpos : 0 < tv_sec now \/ 0 < tv_usec now).
  { destruct now as [s u]. unfold zero_time in Hnz. cbn in *.
    destruct (Z.eqb_spec s 0), (Z.eqb_spec u 0); subst; [done|lia|lia|lia]. }
  unfold valid_time, ktime, zero_time.
  destruct (Z.leb_spec 1000000 (tv_usec now + milli mod 1000 * 1000)); cbn [tv_sec tv_usec].
  - split; [lia|]. split; [|lia]. intros [= E1 E2]. lia.
  - split; [lia|]. split; [|lia]. intros [= E1 E2]. lia.
Qed.

Lemma is_set_iff t : is_set t = true <-> t <> zero_time.
Proof.
  destruct t as [s u]. unfold is_set, zero_time. cbn.
  destruct (Z.eqb_spec s 0), (Z.eqb_spec u 0); cbn; split; intros H; try done; try congruence.
Qed.

(** * Entering and leaving the tree *)

Lemma enter_tree_spec m q h d set : queue_rep (trees m) (timetree m) q -> easies m !! h = Some d ->
  timenode d ∈ dom (trees m) -> ~ (timenode d ∈ members q) -> valid_time set ->
  exists hp t, enter_tree h set m = Some (set_trees hp t (set_easy h (set_expiretime set d) m)) /\
    queue_rep hp t (q_insert (ktime set) (timenode d) q) /\ dom hp = dom (trees m) /\
    payload hp (timenode d) = Some (Zpos h) /\
    forall y, y <> timenode d -> payload hp y = payload (trees m) y.
Proof.
  intros Hq Hd Hdom Hout Hv. unfold enter_tree. rewrite Hd. cbn [mbind option_bind].
  change (trees (set_easy h _ m)) with (trees m). change (timetree (set_easy h _ m)) with (timetree m).
  destruct (splay_set_spec (trees m) (timetree m) q (timenode d) (Zpos h) Hq Hdom) as (hp1 & E1 & Hq1 & Hd1 & Hp1).
  rewrite E1. cbn [mbind option_bind]. rewrite <- Hd1 in Hdom.
  destruct (splay_insert_spec hp1 (timetree m) q (timenode d) set Hq1 Hdom Hout Hv) as (hp & t & E2 & Hq2 & Hd2 & Hp2).
  rewrite E2. cbn [mbind option_bind]. exists hp, t. split; [done|]. split; [done|]. split; [congruence|].
  split; [rewrite Hp2, Hp1; unfold at_node; by rewrite decide_True|].
  intros y Hy. rewrite Hp2, Hp1. unfold at_node. by rewrite decide_False.
Qed.

Lemma leave_tree_spec m q h d : queue_rep (trees m) (timetree m) q -> easies m !! h = Some d ->
  timenode d ∈ members q ->
  exists hp t, leave_tree h m = Some (set_trees hp t m) /\
    queue_rep hp t (q_remove (timenode d) q) /\ same_nodes (trees m) hp.
Proof.
  intros Hq Hd Hin. unfold leave_tree. rewrite Hd. cbn [mbind option_bind].
  destruct (splay_remove_spec (trees m) (timetree m) q (timenode d) Hq Hin) as (hp & t & E & Hq' & Hs).
  rewrite E. cbn [mbind option_bind default id]. by exists hp, t.
Qed.

(** * Setting a timer *)

Definition t_expire (id : expire_id) (set : curltime) (lt : timeouts * curltime) : timeouts * curltime :=
  (t_add id set (t_del id lt.1),
   if is_set lt.2 && (curlx_ptimediff_ms set lt.2 >? 0) then lt.2 else set).

(** The timeouts of the transfer changed, and its place in the tree is to be
    taken. *)
Lemma enter_spec m m1 A D W W1 q q1 h d d1 l1 set : timers_rep m A D W q -> easies m !! h = Some d ->
  easies m1 = <[h := d1]> (easies m) ->
  timenode d1 = timenode d -> timeoutlist d1 = timeoutlist d -> e_mid d1 = e_mid d -> e_multi d1 = e_multi d ->
  dirty m1 = dirty m -> (forall L, L <> timeoutlist d -> W1 !! L = W !! L) ->
  world_rep (links m1) W1 -> dom (nodes (links m1)) = dom (nodes (links m)) ->
  list_of W1 (timeoutlist d) h d1 l1 -> (forall i u, (i, u) ∈ l1 -> valid_time u /\ u <> zero_time) ->
  queue_rep (trees m1) (timetree m1) q1 -> same_nodes (trees m) (trees m1) ->
  (forall K y, y <> timenode d -> queue_at q1 K y <-> queue_at q K y) -> ~ (timenode d ∈ members q1) ->
  valid_time set -> set <> zero_time ->
  exists m' q', enter_tree h set m1 = Some m' /\ timers_rep m' (<[h := (l1, set)]> A) D W1 q' /\ mids m' = mids m.
Proof.
  intros HR Hd Em Et El Emid Emul Edirty HW1 Hw1 Hdn Hl1 Hvs Hq1 [Hdt Hpay] Hat Hout Hv Hz.
  destruct (transfer_of_easy _ _ _ _ _ _ _ HR Hd) as (l & t & HA & Htf).
  pose proof Htf as [_ _ _ _ Hn Htn _ _ Hmid Hmul].
  assert (Hd1 : easies m1 !! h = Some d1) by (rewrite Em; apply lookup_insert_eq).
  destruct (enter_tree_spec m1 q1 h d1 set Hq1 Hd1) as (hp & tr & E & Hq' & Hdom & Hpn & Hpo);
    [by rewrite Et, Hdt|by rewrite Et|done|].
  rewrite Et in *. eexists _, _. split; [exact E|]. set (m' := set_trees hp tr _).
  assert (Hdh : dom hp = dom (trees m)) by (by rewrite Hdom).
  assert (Em' : easies m' = <[h := set_expiretime set d1]> (easies m)) by (cbn; by rewrite Em, insert_insert_eq).
  split; [|by apply (mids_update m m' h d _ Hd Em')].
  apply (timers_update m m' A D D W W1 q (q_insert (ktime set) (timenode d) q1) h d (set_expiretime set d1)); try done.
  - intros K y Hy. rewrite queue_at_insert, Hat by done. intuition congruence.
  - intros y Hy. cbn. rewrite Hpo by done. apply Hpay.
  - cbn. by rewrite Edirty.
  - cbn. rewrite Edirty. apply (tr_dirty _ _ _ _ _ HR).
  - split; cbn; try done.
    + rewrite El. destruct Hl1 as [L1 L2 L3]. by split.
    + intros i. by rewrite Hdn.
    + by rewrite Et, Hdh.
    + intros _. rewrite Et. split; [|done]. apply queue_at_insert. by left.
    + by rewrite Emid, Edirty.
    + by rewrite Emul.
Qed.

Lemma expire_spec m A D W q h l t milli id now : timers_rep m A D W q -> A !! h = Some (l, t) ->
  now_ok now -> milli_ok milli ->
  exists m' W' q', Curl_expire_ex h milli id now m = Some m' /\
    timers_rep m' (<[h := t_expire id (expire_at now milli) (l, t)]> A) D W' q' /\ mids m' = mids m.
Proof.
  intros HR HA Hnow Hm. destruct (transfer_of _ _ _ _ _ _ _ _ HR HA) as (d & Hd & Htf).
  pose proof HR as [Hw Hq Hb _ _ _ _ _]. pose proof Htf as [Hl Ee Hv Hvs Hn Htn Ho Hi Hmid Hmul].
  destruct (expire_at_spec now milli Hnow Hm) as (Hsv & Hsz & _). set (set := expire_at now milli) in *.
  unfold Curl_expire_ex. rewrite Hd. cbn [mbind option_bind]. rewrite Hmul. cbn [negb]. fold set.
  destruct (deltimeout_spec m W h d l id Hw Hd Hl) as (s1 & E1 & Hw1 & Hl1 & Hd1).
  rewrite E1. cbn [mbind option_bind]. pose proof (t_del_gone id l (lo_nodup _ _ _ _ _ Hl)) as [_ Hgone].
  set (W1 := <[timeoutlist d := _]> W) in *.
  destruct (addtimeout_spec (set_links s1 m) W1 h d (t_del id l) id set Hw1 Hd Hl1 Hgone) as (s2 & E2 & Hw2 & Hl2 & Hd2).
  { apply (timer_unlinked m A D W q h d l t _ id HR Hd HA). by rewrite node_in_elems. }
  { cbn [links set_links]. rewrite Hd1. apply Hn. }
  rewrite E2. cbn [mbind option_bind]. cbn zeta in *. set (d' := set_expires id (mk_tnode set id) d) in *.
  set (W2 := <[timeoutlist d := _]> W1) in *. rewrite Ee.
  set (m2 := set_links s2 _). assert (Hm2 : easies m2 !! h = Some d') by apply lookup_insert_eq.
  assert (HW2 : forall L, L <> timeoutlist d -> W2 !! L = W !! L).
  { intros L HL. unfold W2, W1. by rewrite !lookup_insert_ne. }
  assert (Hvs2 : forall i u, (i, u) ∈ t_add id set (t_del id l) -> valid_time u /\ u <> zero_time).
  { intros i u [[= -> ->]|Hin]%elem_of_t_add; [done|]. apply t_del_sub in Hin. by apply (Hvs i). }
  assert (Hdn : dom (nodes s2) = dom (nodes (links m))) by (by rewrite Hd2).
  unfold t_expire. cbn [fst snd]. destruct (is_set t) eqn:Es; cbn [andb].
  - apply is_set_iff in Es. destruct (Hi Es) as [Hat Hpay]. destruct (curlx_ptimediff_ms set t >? 0).
    + exists m2, W2, q. split; [done|]. split; [|by apply (mids_update m m2 h d d')].
      apply (timers_update m m2 A D D W W2 q q h d d'); try done.
      split; try done. cbn. intros i. by rewrite Hdn.
    + destruct (leave_tree_spec m2 q h d' Hq Hm2) as (hp & tr & E3 & Hq3 & Hs3);
        [by apply queue_at_members in Hat|]. rewrite E3. cbn [mbind option_bind].
      pose proof (q_nodup _ _ (proj1 Hq)) as Hnd.
      destruct (enter_spec m (set_trees hp tr m2) A D W W2 q (q_remove (timenode d) q) h d d'
        (t_add id set (t_del id l)) set) as (m' & q' & E4 & HR'); try done.
      * intros K y Hy. rewrite queue_at_remove by done. tauto.
      * intros [K HK]%members_at. by apply queue_at_remove in HK as [_ ?].
      * by exists m', W2, q'.
  - assert (Et : t = zero_time) by (destruct (decide (t = zero_time)) as [|Hne]; [done|apply is_set_iff in Hne; congruence]).
    destruct (Ho Et) as [_ Hout].
    destruct (enter_spec m m2 A D W W2 q q h d d' (t_add id set (t_del id l)) set) as (m' & q' & E4 & HR'); try done.
    by exists m', W2, q'.
Qed.

Lemma expire_done_spec m A D W q h l t id : timers_rep m A D W q -> A !! h = Some (l, t) ->
  exists m' W', Curl_expire_done h id m = Some m' /\ timers_rep m' (<[h := (t_del id l, t)]> A) D W' q /\
    mids m' = mids m.
Proof.
  intros HR HA. destruct (transfer_of _ _ _ _ _ _ _ _ HR HA) as (d & Hd & Htf).
  pose proof HR as [Hw Hq Hb _ _ _ _ _]. pose proof Htf as [Hl Ee Hv Hvs Hn Htn Ho Hi Hmid Hmul].
  destruct (deltimeout_spec m W h d l id Hw Hd Hl) as (s1 & E1 & Hw1 & Hl1 & Hd1).
  set (W1 := <[timeoutlist d := _]> W) in *.
  unfold Curl_expire_done. rewrite E1. exists (set_links s1 m), W1. split; [reflexivity|]. split; [|done].
  apply (timers_update m (set_links s1 m) A D D W W1 q q h d d); try done.
  - cbn. by rewrite insert_id.
  - intros L HL. unfold W1. by rewrite lookup_insert_ne.
  - split; try done; cbn.
    + intros i u Hin. apply t_del_sub in Hin. by apply (Hvs i).
    + intros i. rewrite Hd1. apply Hn.
    + intros Et. destruct (Ho Et) as [-> Hout]. done.
Qed.

(** * Clearing all timers *)

Lemma expire_clear_spec m A D W q h l t : timers_rep m A D W q -> A !! h = Some (l, t) ->
  exists m' W' q', Curl_expire_clear h m = Some m' /\ timers_rep m' (<[h := ([], zero_time)]> A) D W' q' /\
    mids m' = mids m.
Proof.
  intros HR HA. destruct (transfer_of _ _ _ _ _ _ _ _ HR HA) as (d & Hd & Htf).
  pose proof HR as [Hw Hq Hb _ _ _ _ _]. pose proof Htf as [Hl Ee Hv Hvs Hn Htn Ho Hi Hmid Hmul].
  unfold Curl_expire_clear. rewrite Hd. cbn [mbind option_bind]. rewrite Hmul, Ee. cbn [negb].
  destruct (is_set t) eqn:Es.
  - apply is_set_iff in Es. destruct (Hi Es) as [Hat Hpay].
    destruct (leave_tree_spec m q h d Hq Hd) as (hp & tr & E1 & Hq1 & Hdt & Hp1);
      [by apply queue_at_members in Hat|]. rewrite E1. cbn [mbind option_bind links set_trees Curl_llist_destroy].
    pose proof (lo_list _ _ _ _ _ Hl) as HL.
    destruct (list_fields (links m) W (timeoutlist d) Hw) as (b & xs & HL' & El); [by eexists|].
    rewrite HL in HL'. injection HL' as <- <-. rewrite El. cbn [mbind option_bind l_size]. rewrite Nat2Z.id.
    destruct (world_destroy _ (links m) W (timeoutlist d) false _ Hw HL eq_refl) as (s & E2 & Hw2 & Hd2).
    rewrite E2. cbn [mbind option_bind easies set_links set_trees]. rewrite Hd. cbn [mbind option_bind].
    pose proof (q_nodup _ _ (proj1 Hq)) as Hnd. set (W1 := <[timeoutlist d := _]> W) in *.
    eexists _, W1, (q_remove (timenode d) q). split; [reflexivity|]. set (m' := set_easy h _ _).
    split; [|by apply (mids_update m m' h d (set_expiretime zero_time d))].
    apply (timers_update m m' A D D W W1 q (q_remove (timenode d) q) h d (set_expiretime zero_time d)); try done.
    + intros L HL0. unfold W1. by rewrite lookup_insert_ne.
    + intros K y Hy. rewrite queue_at_remove by done. tauto.
    + split; try done; cbn.
      * split; [apply lookup_insert_eq|constructor|]. intros i u Hin. by apply elem_of_nil in Hin.
      * intros i u Hin. by apply elem_of_nil in Hin.
      * intros i. rewrite Hd2. apply Hn.
      * by rewrite Hdt.
      * intros _. split; [done|]. intros [K HK]%members_at. by apply queue_at_remove in HK as [_ ?].
  - assert (Et : t = zero_time) by (destruct (decide (t = zero_time)) as [|Hne]; [done|apply is_set_iff in Hne; congruence]).
    destruct (Ho Et) as [El _]. rewrite El in HA. rewrite Et in HA. exists m, W, q. split; [done|]. split; [|done].
    by rewrite insert_id.
Qed.

(** * Firing timers *)

Definition is_due (now t : curltime) : bool := is_set t && (ktime t <=? ktime now).

Definition first_time (l : timeouts) : curltime :=
  match l with [] => zero_time | x :: _ => x.2 end.

(** The timers of a transfer after its time has come. *)
Definition t_fire (now : curltime) (lt : timeouts * curltime) : timeouts * curltime :=
  if is_due now lt.2 then (t_drop now lt.1, first_time (t_drop now lt.1)) else lt.

Lemma t_drop_head now l : valid_time now -> (forall id u, (id, u) ∈ l -> valid_time u) ->
  is_due now (first_time (t_drop now l)) = false.
Proof.
  intros Hn. induction l as [|[id u] l IH]; intros Hv; [done|]. cbn [t_drop snd].
  destruct (Z.leb_spec (curlx_ptimediff_us u now) 0); [apply IH; intros i v Hin; apply (Hv i); by right|].
  cbn [first_time snd]. pose proof (ptimediff_us_sgn u now (Hv id u ltac:(left)) Hn) as Hs.
  unfold is_due. destruct (Z.leb_spec (ktime u) (ktime now)); [lia|]. by rewrite andb_false_r.
Qed.

Lemma elem_of_t_drop now l x : x ∈ t_drop now l -> x ∈ l.
Proof. destruct (t_drop_suffix now l) as (l1 & E). rewrite E at 2. intros H. apply elem_of_app. by right. Qed.

(** After the node of a transfer was taken out of the tree, the next timeout is
    put in. *)
Lemma add_next_spec m A D W q hp tr h d l t now : timers_rep m A D W q -> easies m !! h = Some d ->
  A !! h = Some (l, t) -> t <> zero_time -> valid_time now ->
  queue_rep hp tr (q_remove (timenode d) q) -> same_nodes (trees m) hp ->
  exists m' W' q', add_next_timeout now h (set_trees hp tr m) = Some m' /\
    timers_rep m' (<[h := (t_drop now l, first_time (t_drop now l))]> A) D W' q' /\
    mids m' = mids m /\ nslots (dirty m') = nslots (dirty m).
Proof.
  intros HR Hd HA Hnz Hnow Hq1 [Hdt Hp1]. pose proof HR as [Hw Hq Hb _ _ _ _ _].
  pose proof (tr_transfer _ _ _ _ _ HR h d l t Hd HA) as Htf.
  pose proof Htf as [Hl Ee Hv Hvs Hn Htn Ho Hi Hmid Hmul]. destruct (Hi Hnz) as [Hat Hpay].
  pose proof (q_nodup _ _ (proj1 Hq)) as Hnd.
  unfold add_next_timeout. cbn [easies set_trees links]. rewrite Hd. cbn [mbind option_bind].
  destruct (list_head_count _ _ _ _ _ _ Hw Hl) as [E1 E2]. rewrite E1. cbn [mbind option_bind].
  rewrite E2. cbn [mbind option_bind]. rewrite Nat2Z.id.
  destruct (outdated_loop_spec (timeoutlist d) h d now (length l) l W (links m) Hw Hl) as (s & E3 & Hw3 & Hl3 & Hd3);
    [done|]. rewrite E3. cbn [mbind option_bind links set_links].
  set (W3 := <[timeoutlist d := _]> W) in *.
  destruct (list_head_count _ _ _ _ _ _ Hw3 Hl3) as [E4 _]. rewrite E4. cbn [mbind option_bind].
  assert (HW3 : forall L, L <> timeoutlist d -> W3 !! L = W !! L) by (intros L HL; unfold W3; by rewrite lookup_insert_ne).
  assert (Hvs3 : forall i u, (i, u) ∈ t_drop now l -> valid_time u /\ u <> zero_time).
  { intros i u Hin%elem_of_t_drop. by apply (Hvs i). }
  assert (Hout : ~ (timenode d ∈ members (q_remove (timenode d) q))).
  { intros [K HK]%members_at. by apply queue_at_remove in HK as [_ ?]. }
  assert (Hex : forall xs, t_drop now l = xs -> match xs with [] => True | (i, u) :: l' =>
      node_time_of d (node_loc h i) s = Some (mk_tnode u i) end).
  { intros [|[i u] l'] E; [done|]. rewrite E in Hl3. by apply (node_time_spec s W3 (timeoutlist d) h d [] i u l'). }
  specialize (Hex _ eq_refl). destruct (t_drop now l) as [|[i u] l'] eqn:Edrop;
    cbn [fmap list_fmap fst elems_of map first_of first_time snd].
  - eexists _, W3, (q_remove (timenode d) q). split; [reflexivity|]. set (m' := set_easy h _ _).
    split; [|by split; [apply (mids_update m m' h d (set_expiretime zero_time d))|]].
    apply (timers_update m m' A D D W W3 q (q_remove (timenode d) q) h d (set_expiretime zero_time d)); try done.
    + intros K y Hy. rewrite queue_at_remove by done. tauto.
    + split; try done; cbn.
      * destruct Hl3 as [L1 L2 L3]. by split.
      * intros j. rewrite Hd3. apply Hn.
      * by rewrite Hdt.
  - rewrite Hex. cbn [mbind option_bind tn_time timetree trees set_easy set_links set_trees].
    destruct (Hvs3 i u ltac:(left)) as [Huv Hunz].
    destruct (splay_insert_spec hp tr _ (timenode d) u Hq1 ltac:(by rewrite Hdt) Hout Huv) as
      (hp2 & tr2 & E5 & Hq2 & Hdt2 & Hp2). rewrite E5. cbn [mbind option_bind].
    eexists _, W3, (q_insert (ktime u) (timenode d) (q_remove (timenode d) q)). split; [reflexivity|].
    set (m' := set_trees hp2 _ _).
    split; [|by split; [apply (mids_update m m' h d (set_expiretime u d))|]].
    apply (timers_update m m' A D D W W3 q (q_insert (ktime u) (timenode d) (q_remove (timenode d) q))
      h d (set_expiretime u d)); try done.
    + cbn. congruence.
    + intros K y Hy. rewrite queue_at_insert, queue_at_remove by done. intuition congruence.
    + intros y Hy. cbn. by rewrite Hp2, Hp1.
    + split; try done; cbn.
      * destruct Hl3 as [L1 L2 L3]. by split.
      * intros j. rewrite Hd3. apply Hn.
      * by rewrite Hdt2, Hdt.
      * intros _. split; [apply queue_at_insert; by left|]. by rewrite Hp2, Hp1.
Qed.

(** Only the set of dirty transfers and the table changed. *)
Lemma timers_set_dirty m m' A D D' W q : timers_rep m A D W q -> easies m' = easies m -> trees m' = trees m ->
  timetree m' = timetree m -> links m' = links m -> nslots (dirty m') = nslots (dirty m) ->
  bset_rep (dirty m') D' -> timers_rep m' A D' W q.
Proof.
  intros [R1 R2 R3 R4 R5 R6 R7 R8] E1 E2 E3 E4 E5 Hb. split; rewrite ?E1, ?E2, ?E3, ?E4; try done.
  intros h2 d2 l2 t2 Hd2 HA2. destruct (R5 h2 d2 l2 t2 Hd2 HA2) as [T1 T2 T3 T4 T5 T6 T7 T8 T9 T10].
  split; rewrite ?E2, ?E4, ?E5; done.
Qed.

Lemma mark_dirty_spec m A D W q h d : timers_rep m A D W q -> easies m !! h = Some d ->
  exists m', Curl_multi_mark_dirty h m = Some m' /\ timers_rep m' A ({[e_mid d]} ∪ D) W q /\
    mids m' = mids m /\ nslots (dirty m') = nslots (dirty m).
Proof.
  intros HR Hd. destruct (transfer_of_easy _ _ _ _ _ _ _ HR Hd) as (l & t & HA & Htf).
  pose proof (tr_dirty _ _ _ _ _ HR) as Hb. pose proof (tf_mid _ _ _ _ _ _ _ Htf) as Hmid.
  unfold Curl_multi_mark_dirty. rewrite Hd. cbn [mbind option_bind]. rewrite (tf_multi _ _ _ _ _ _ _ Htf).
  pose proof (rep_len_max _ _ Hb) as Hmax.
  destruct (Z.eqb_spec (e_mid d) UINT32_MAX) as [E|_]; [unfold UINT32_MAX in E; lia|]. cbn [andb negb].
  destruct (add_spec (dirty m) D (e_mid d) Hb ltac:(lia)) as (ok & b & E & Hns & Hadd). rewrite E.
  cbn [mbind option_bind]. destruct (Z.ltb_spec (e_mid d) (64 * nslots (dirty m))); [|lia].
  destruct Hadd as [_ Hb']. exists (set_dirty b m). split; [done|]. split; [|done].
  by apply (timers_set_dirty m _ A D).
Qed.

Lemma timers_trees m A D W q hp t : timers_rep m A D W q -> queue_rep hp t q -> same_nodes (trees m) hp ->
  timers_rep (set_trees hp t m) A D W q.
Proof.
  intros [R1 R2 R3 R4 R5 R6 R7 R8] Hq [Hd Hp]. split; try done.
  intros h2 d2 l2 t2 Hd2 HA2. destruct (R5 h2 d2 l2 t2 Hd2 HA2) as [T1 T2 T3 T4 T5 T6 T7 T8 T9 T10].
  split; try done; cbn.
  - by rewrite Hd.
  - intros Ht. destruct (T8 Ht) as [H1 H2]. by rewrite Hp.
Qed.

Lemma splayget_payload x h v : payload h x = Some v -> Curl_splayget x h = Some v.
Proof. unfold payload, Curl_splayget, load. cbn. done. Qed.

(** A transfer whose time has come is the one whose node is taken out. *)
Lemma best_transfer m A D W q now x : timers_rep m A D W q -> valid_time now ->
  (q_best (ktime now) q).1 = Some x ->
  exists h d l t, easies m !! h = Some d /\ A !! h = Some (l, t) /\ timenode d = x /\
    (q_best (ktime now) q).2 = q_remove x q /\ is_due now t = true /\ payload (trees m) x = Some (Zpos h).
Proof.
  intros HR Hnow Hx. pose proof (tr_queue _ _ _ _ _ HR) as Hq.
  pose proof (q_best_spec (trees m) q (ktime now) (proj1 Hq)) as Hbest. rewrite Hx in Hbest.
  destruct Hbest as [Eq (K & HK & Hle)]. pose proof (queue_at_members _ _ _ HK) as Hin.
  destruct (tr_members _ _ _ _ _ HR x Hin) as (h & d & Hd & Et).
  destruct (transfer_of_easy _ _ _ _ _ _ _ HR Hd) as (l & t & HA & Htf). pose proof Htf as [_ _ _ _ _ _ Ho Hi _ _].
  assert (Hnz : t <> zero_time) by (intros E; destruct (Ho E) as [_ Hn]; by rewrite Et in Hn).
  destruct (Hi Hnz) as [Hat Hpay]. rewrite Et in Hat, Hpay.
  pose proof (queue_at_fun _ _ _ _ (q_nodup _ _ (proj1 Hq)) HK Hat) as ->.
  exists h, d, l, t. repeat (split; [done|]). split; [|done]. unfold is_due.
  apply is_set_iff in Hnz. rewrite Hnz. cbn. lia.
Qed.

(** No time has come. *)
Lemma no_best m A D W q now : timers_rep m A D W q -> (q_best (ktime now) q).1 = None ->
  (q_best (ktime now) q).2 = q /\ forall h l t, A !! h = Some (l, t) -> is_due now t = false.
Proof.
  intros HR Hx. pose proof (q_best_spec (trees m) q (ktime now) (proj1 (tr_queue _ _ _ _ _ HR))) as Hbest.
  rewrite Hx in Hbest. destruct Hbest as [Eq Hlt]. split; [done|]. intros h l t HA.
  destruct (transfer_of _ _ _ _ _ _ _ _ HR HA) as (d & Hd & Htf). unfold is_due.
  destruct (is_set t) eqn:Es; [|done]. apply is_set_iff in Es. destruct (tf_in _ _ _ _ _ _ _ Htf Es) as [Hat _].
  apply Hlt in Hat. cbn. lia.
Qed.

(** The transfers whose time has come. *)
Definition due_count (now : curltime) (A : transfers) : nat :=
  size (filter (fun kv => is_due now kv.2.2 = true) A).

Lemma due_count_fire now A h l t v : A !! h = Some (l, t) -> is_due now t = true -> is_due now v.2 = false ->
  S (due_count now (<[h := v]> A)) = due_count now A.
Proof.
  intros HA Hd Hv. unfold due_count. rewrite map_filter_insert_False by (cbn; congruence).
  rewrite map_filter_delete. assert (Hin : filter (fun kv : handle * (timeouts * curltime) => is_due now kv.2.2 = true) A !! h
    = Some (l, t)) by (by apply map_lookup_filter_Some).
  rewrite <- (insert_delete_id _ _ _ Hin) at 2. rewrite map_size_insert_None by apply lookup_delete_eq. done.
Qed.

Lemma t_fire_fire now (A : transfers) h l t : valid_time now -> A !! h = Some (l, t) ->
  (forall id u, (id, u) ∈ l -> valid_time u) ->
  t_fire now <$> <[h := t_fire now (l, t)]> A = t_fire now <$> A.
Proof.
  intros Hn HA Hv. rewrite fmap_insert.
  assert (E : t_fire now (t_fire now (l, t)) = t_fire now (l, t)).
  { unfold t_fire. cbn [fst snd]. destruct (is_due now t) eqn:Ed; cbn [fst snd]; [by rewrite t_drop_head|by rewrite Ed]. }
  rewrite E. apply insert_id. by rewrite lookup_fmap, HA.
Qed.

(** The dirty transfers after the timers that are due have fired. *)
Definition dirtied (now : curltime) (M : gmap handle Z) (A : transfers) (D D' : gset Z) : Prop :=
  forall i, i ∈ D' <-> i ∈ D \/
    exists h l t, M !! h = Some i /\ A !! h = Some (l, t) /\ is_due now t = true.

Lemma t_fire_due now l t : valid_time now -> (forall id u, (id, u) ∈ l -> valid_time u) ->
  is_due now (t_fire now (l, t)).2 = false.
Proof.
  intros Hn Hv. unfold t_fire. cbn [fst snd]. destruct (is_due now t) eqn:Ed; cbn [fst snd]; [by apply t_drop_head|done].
Qed.

Lemma dirtied_fire now M A D D' h l t i : dirtied now M (<[h := t_fire now (l, t)]> A) ({[i]} ∪ D) D' ->
  M !! h = Some i -> A !! h = Some (l, t) -> is_due now t = true -> is_due now (t_fire now (l, t)).2 = false ->
  dirtied now M A D D'.
Proof.
  intros HD HM HA Hdue Hf j. rewrite (HD j), elem_of_union, elem_of_singleton. split.
  - intros [[->|Hj]|(h2 & l2 & t2 & H1 & H2 & H3)]; [right; by exists h, l, t|by left|right].
    destruct (decide (h2 = h)) as [->|Hne].
    + rewrite lookup_insert_eq in H2. injection H2 as H2. rewrite H2 in Hf. cbn in Hf. congruence.
    + rewrite lookup_insert_ne in H2 by done. by exists h2, l2, t2.
  - intros [Hj|(h2 & l2 & t2 & H1 & H2 & H3)]; [left; by right|].
    destruct (decide (h2 = h)) as [->|Hne]; [left; left; congruence|].
    right. exists h2, l2, t2. by rewrite lookup_insert_ne.
Qed.

(** One timer fires. *)
Lemma fire_round m A D W q hp tr x now : timers_rep m A D W q -> valid_time now ->
  (q_best (ktime now) q).1 = Some x -> queue_rep hp tr (q_best (ktime now) q).2 -> same_nodes (trees m) hp ->
  exists h l t i m1 m2 W2 q2, Curl_splayget x hp = Some (Zpos h) /\
    add_next_timeout now h (set_trees hp tr m) = Some m1 /\ Curl_multi_mark_dirty h m1 = Some m2 /\
    A !! h = Some (l, t) /\ mids m !! h = Some i /\ is_due now t = true /\
    (forall id u, (id, u) ∈ l -> valid_time u) /\
    timers_rep m2 (<[h := t_fire now (l, t)]> A) ({[i]} ∪ D) W2 q2 /\ mids m2 = mids m.
Proof.
  intros HR Hnow Ex Hq' Hs.
  destruct (best_transfer m A D W q now x HR Hnow Ex) as (h & d & l & t & Hd & HA & Et & Eq & Hdue & Hpay).
  rewrite Eq, <- Et in Hq'. rewrite <- (proj2 Hs) in Hpay.
  assert (Hnz : t <> zero_time) by (apply is_set_iff; unfold is_due in Hdue; by destruct (is_set t)).
  destruct (add_next_spec m A D W q hp tr h d l t now HR Hd HA Hnz Hnow Hq' Hs) as (m1 & W1 & q1 & E1 & HR1 & Hm1 & _).
  assert (Hi : mids m !! h = Some (e_mid d)) by (unfold mids; by rewrite lookup_fmap, Hd).
  pose proof Hi as Hi1. rewrite <- Hm1 in Hi1. unfold mids in Hi1. rewrite lookup_fmap in Hi1.
  destruct (easies m1 !! h) as [d1|] eqn:Hd1; [|done]. injection Hi1 as Emid.
  destruct (mark_dirty_spec m1 _ _ _ _ h d1 HR1 Hd1) as (m2 & E2 & HR2 & Hm2 & _). rewrite Emid in HR2.
  assert (Ef : (t_drop now l, first_time (t_drop now l)) = t_fire now (l, t)) by (unfold t_fire; cbn; by rewrite Hdue).
  rewrite Ef in HR2. exists h, l, t, (e_mid d), m1, m2, W1, q1. split; [by apply splayget_payload|].
  repeat (split; [done|]). split; [|split; [done|congruence]].
  intros id u Hin. by apply (tf_valids _ _ _ _ _ _ _ (tr_transfer _ _ _ _ _ HR h d l t Hd HA) id).
Qed.

(** Nothing to fire. *)
Lemma fire_none m A D W q hp tr now : timers_rep m A D W q -> (q_best (ktime now) q).1 = None ->
  queue_rep hp tr (q_best (ktime now) q).2 -> same_nodes (trees m) hp ->
  timers_rep (set_trees hp tr m) (t_fire now <$> A) D W q /\ dirtied now (mids m) A D D.
Proof.
  intros HR Ex Hq' Hs. destruct (no_best m A D W q now HR Ex) as [Eq Hnone]. rewrite Eq in Hq'. split.
  - assert (EA : t_fire now <$> A = A).
    { apply map_eq. intros h. rewrite lookup_fmap. destruct (A !! h) as [[l t]|] eqn:HA; [|done]. cbn.
      unfold t_fire. cbn. by rewrite (Hnone h l t HA). }
    rewrite EA. by apply timers_trees.
  - intros i. split; [by left|]. intros [Hi|(h & l & t & _ & HA & Hd)]; [done|]. by rewrite (Hnone h l t HA) in Hd.
Qed.

Lemma expired_loop_spec now fuel : forall m A D W q, timers_rep m A D W q -> valid_time now ->
  (due_count now A <= fuel)%nat ->
  exists m' D' W' q', expired_loop fuel now m = Some m' /\ timers_rep m' (t_fire now <$> A) D' W' q' /\
    dirtied now (mids m) A D D' /\ mids m' = mids m.
Proof.
  induction fuel as [|fuel IH]; intros m A D W q HR Hnow Hf; pose proof (tr_queue _ _ _ _ _ HR) as Hq;
    destruct (splay_getbest_spec (trees m) (timetree m) q now Hq Hnow) as (hp & tr & E & Hq' & Hs);
    cbn [expired_loop]; rewrite E; cbn [mbind option_bind];
    destruct ((q_best (ktime now) q).1) as [x|] eqn:Ex;
    try (destruct (fire_none m A D W q hp tr now HR Ex Hq' Hs); by exists (set_trees hp tr m), D, W, q);
    destruct (fire_round m A D W q hp tr x now HR Hnow Ex Hq' Hs) as
      (h & l & t & i & m1 & m2 & W2 & q2 & E0 & E1 & E2 & HA & HM & Hdue & Hv & HR2 & Hm2);
    pose proof (t_fire_due now l t Hnow Hv) as Hf2;
    pose proof (due_count_fire now A h l t (t_fire now (l, t)) HA Hdue Hf2) as Hc; [lia|].
  rewrite E0. cbn [mbind option_bind]. rewrite E1. cbn [mbind option_bind]. rewrite E2. cbn [mbind option_bind].
  destruct (IH m2 _ _ _ _ HR2 Hnow) as (m3 & D3 & W3 & q3 & E3 & HR3 & HD3 & Hm3); [lia|].
  exists m3, D3, W3, q3. split; [done|]. rewrite t_fire_fire in HR3 by done. split; [done|].
  split; [|congruence]. rewrite Hm2 in HD3. by apply (dirtied_fire now (mids m) A D D3 h l t i).
Qed.

(** Every transfer whose time has come has a node of its own in the tree. *)
Lemma due_count_le m A D W q now : timers_rep m A D W q -> (due_count now A <= size (trees m))%nat.
Proof.
  intros HR. unfold due_count. set (F := filter _ A).
  set (node_of := fun h : handle => match easies m !! h with Some d => timenode d | None => h end).
  rewrite <- (length_map_to_list F), <- (length_fmap (fun kv => node_of kv.1)).
  assert (Hin : forall h v, (h, v) ∈ map_to_list F -> exists d, easies m !! h = Some d /\ timenode d ∈ dom (trees m)).
  { intros h [l t] Hkv%elem_of_map_to_list. apply map_lookup_filter_Some in Hkv as [HA _].
    destruct (transfer_of _ _ _ _ _ _ _ _ HR HA) as (d & Hd & Htf). exists d. split; [done|]. apply (tf_tnode _ _ _ _ _ _ _ Htf). }
  apply nodes_le_size.
  - apply NoDup_fmap_2_strong; [|apply NoDup_map_to_list]. intros [h1 v1] [h2 v2] H1 H2. cbn. unfold node_of.
    destruct (Hin _ _ H1) as (d1 & E1 & _), (Hin _ _ H2) as (d2 & E2 & _). rewrite E1, E2. intros E.
    assert (h1 = h2) as -> by (apply (tr_inj _ _ _ _ _ HR _ _ _ _ E1 E2); by left).
    apply elem_of_map_to_list in H1, H2. congruence.
  - intros x Hx. apply list_elem_of_fmap in Hx as ([h v] & -> & Hkv). cbn. unfold node_of.
    destruct (Hin _ _ Hkv) as (d & -> & Hd). done.
Qed.

Lemma mark_expired_spec m A D W q now : timers_rep m A D W q -> valid_time now ->
  exists m' D' W' q', multi_mark_expired_as_dirty now m = Some m' /\ timers_rep m' (t_fire now <$> A) D' W' q' /\
    dirtied now (mids m) A D D' /\ mids m' = mids m.
Proof. intros HR Hnow. apply (expired_loop_spec now _ m A D W q HR Hnow). by apply (due_count_le m A D W q). Qed.

(** * Dirty transfers *)

(** A dirty transfer that would be run. *)
Definition runnable (P : gset Z) (X : gmap Z handle) (i : Z) : Prop := i ∈ P /\ is_Some (X !! i).

(** The sets and the table the dirty transfers are looked up in. *)
Record lookup_rep (m : multi) (P : gset Z) (X : gmap Z handle) : Prop := {
  lk_process : bset_rep (process m) P;
  lk_xfers : tbl_rep (xfers m) X;
  lk_live : forall i h, X !! i = Some h -> is_Some (easies m !! h);
}.

Lemma get_easy_spec m P X mid : lookup_rep m P X -> 0 <= mid <= UINT32_MAX ->
  exists x, Curl_multi_get_easy mid m = Some (set_xfers x m, X !! mid) /\ tbl_rep x X.
Proof.
  intros [Hp Hx Hl] Hm. unfold Curl_multi_get_easy. rewrite (get_spec (xfers m) X mid Hx) by lia.
  cbn [mbind option_bind]. destruct (X !! mid) as [h|] eqn:E.
  - rewrite bool_decide_eq_true_2 by (by apply (Hl mid)). exists (xfers m). split; [by destruct m|done].
  - destruct (tbl_remove_spec (xfers m) X mid Hx Hm) as (x & E2 & Hx' & _). rewrite E2. cbn [mbind option_bind].
    exists x. split; [done|]. by rewrite delete_id in Hx'.
Qed.

Lemma lookup_rep_keep m P X x b : lookup_rep m P X -> tbl_rep x X ->
  lookup_rep (set_dirty b (set_xfers x m)) P X.
Proof. by intros [Hp Hx Hl] Hx'. Qed.

(** What the search for dirty transfers ends with. *)
Definition dirties_result (m : multi) (P : gset Z) (X : gmap Z handle) (D : gset Z) (m' : multi) (r : bool) : Prop :=
  exists b x D', m' = set_dirty b (set_xfers x m) /\ nslots b = nslots (dirty m) /\ bset_rep b D' /\ tbl_rep x X /\
    D' ⊆ D /\ (forall i, i ∈ D -> runnable P X i -> i ∈ D') /\
    (if r then exists i, i ∈ D /\ runnable P X i else D' = ∅).

Lemma dirties_loop_spec P X fuel : forall m D mid, lookup_rep m P X -> bset_rep (dirty m) D -> mid ∈ D ->
  (forall j, j ∈ D -> mid <= j) -> (Z.to_nat (64 * nslots (dirty m) - mid) <= fuel)%nat ->
  exists m' r, dirties_loop fuel mid m = Some (m', r) /\ dirties_result m P X D m' r.
Proof.
  induction fuel as [|fuel IH]; intros m D mid Hk Hb Hin Hmin Hf; pose proof (rep_below _ _ _ Hb Hin) as Hr; [lia|].
  pose proof (rep_len_max _ _ Hb) as Hmax. cbn [dirties_loop].
  destruct (get_easy_spec m P X mid Hk) as (x & E1 & Hx); [unfold UINT32_MAX; lia|]. rewrite E1. cbn [mbind option_bind].
  assert (Hagain : ~ runnable P X mid -> exists m' r,
    (b ← Curl_uint32_bset_remove (dirty (set_xfers x m)) mid;
     let m := set_dirty b (set_xfers x m) in
     r ← Curl_uint32_bset_next (dirty m) mid;
     match r with (true, mid) => dirties_loop fuel mid m | (false, _) => Some (m, false) end)
      = Some (m', r) /\ dirties_result m P X D m' r).
  { intros Hnot. cbn [dirty set_xfers]. destruct (remove_spec (dirty m) D mid Hb ltac:(lia)) as (b & E2 & Hns & Hb2).
    rewrite E2. cbn [mbind option_bind dirty set_dirty].
    destruct (next_spec b (D ∖ {[mid]}) mid Hb2) as (r & E3 & Hl); [unfold UINT32_MAX; lia|].
    rewrite E3, u32_small in * by (unfold UINT32_MAX; lia). cbn [mbind option_bind]. destruct r as [j|]; cbn [search_result].
    - destruct Hl as (Hj & Hge & Hleast).
      destruct (IH (set_dirty b (set_xfers x m)) (D ∖ {[mid]}) j) as (m' & r & E4 & b' & x' & D' & -> & Hns' & Hb' & Hx' & Hsub & Hkeep & Hres);
        [by apply lookup_rep_keep|done|done| |cbn [dirty set_dirty]; rewrite Hns; lia|].
      { intros i Hi. apply Hleast; [done|]. apply elem_of_difference in Hi as [Hi Hne].
        rewrite elem_of_singleton in Hne. specialize (Hmin i Hi). lia. }
      exists (set_dirty b' (set_xfers x' m)), r. split; [exact E4|]. exists b', x', D'. split; [done|].
      split; [by rewrite Hns', <- Hns|]. split; [done|]. split; [done|].
      split; [intros i Hi; apply Hsub, elem_of_difference in Hi as [Hi _]; done|]. split.
      + intros i Hi Hrun. apply Hkeep; [|done]. apply elem_of_difference. split; [done|].
        rewrite elem_of_singleton. by intros ->.
      + destruct r; [|done]. destruct Hres as (i & Hi & Hrun). apply elem_of_difference in Hi as [Hi _]. by exists i.
    - exists (set_dirty b (set_xfers x m)), false. split; [done|]. exists b, x, (D ∖ {[mid]}). split; [done|].
      split; [done|]. split; [done|]. split; [done|].
      assert (Hempty : D ∖ {[mid]} = ∅).
      { apply set_eq. intros i. rewrite elem_of_empty. split; [|done]. intros Hi. pose proof (Hl i Hi) as Hlt.
        apply elem_of_difference in Hi as [Hi Hne]. rewrite elem_of_singleton in Hne. specialize (Hmin i Hi). lia. }
      split; [intros i Hi; apply elem_of_difference in Hi as [Hi _]; done|]. split; [|done].
      intros i Hi Hrun. apply elem_of_difference. split; [done|].
      rewrite elem_of_singleton. by intros ->. }
  destruct (X !! mid) as [h|] eqn:EX.
  - cbn [process set_xfers]. rewrite (contains_spec (process m) P mid (lk_process _ _ _ Hk)) by lia.
    cbn [mbind option_bind]. case_bool_decide as HP.
    + exists (set_xfers x m), true. split; [done|]. exists (dirty m), x, D. split; [done|]. split; [done|]. split; [done|].
      split; [done|]. split; [done|]. split; [done|]. exists mid. split; [done|]. split; [done|]. by rewrite EX.
    + apply Hagain. by intros [? _].
  - apply Hagain. intros [_ Hs]. rewrite EX in Hs. by destruct Hs.
Qed.

Lemma has_dirties_spec m P X D : lookup_rep m P X -> bset_rep (dirty m) D ->
  exists m' r, multi_has_dirties m = Some (m', r) /\ dirties_result m P X D m' r.
Proof.
  intros Hk Hb. unfold multi_has_dirties. destruct (first_spec (dirty m) D Hb) as (r & b & E & Hns & Hb' & Hl).
  rewrite E. cbn [mbind option_bind]. destruct r as [i|]; cbn [search_result].
  - destruct Hl as (Hi & _ & Hleast). pose proof (rep_below _ _ _ Hb Hi) as Hr.
    destruct (dirties_loop_spec P X (Z.to_nat (64 * nslots b)) (set_dirty b m) D i) as
      (m' & r & E2 & b' & x' & D' & -> & Hns' & H); try done.
    + by destruct Hk.
    + intros j Hj. apply Hleast; [done|]. pose proof (rep_below _ _ _ Hb Hj). lia.
    + cbn [dirty set_dirty]. lia.
    + exists (set_dirty b' (set_xfers x' m)), r. split; [exact E2|]. exists b', x', D'. split; [done|].
      cbn in Hns'. by rewrite Hns', Hns.
  - exists (set_dirty b m), false. split; [done|]. exists b, (xfers m), D. split; [by destruct m|]. split; [done|]. split; [done|].
    split; [apply Hk|].
    assert (D = ∅) as ->.
    { apply set_eq. intros i. rewrite elem_of_empty. split; [|done]. intros Hi. pose proof (Hl i Hi).
      pose proof (rep_below _ _ _ Hb Hi). lia. }
    done.
Qed.

(** * The next timeout *)

Definition next_expire (A : transfers) (e : curltime) : Prop :=
  e <> zero_time /\ (exists h l, A !! h = Some (l, e)) /\
  forall h l t, A !! h = Some (l, t) -> t <> zero_time -> ktime e <= ktime t.

(** The tree splayed for time zero has the nearest time at its root. *)
Lemma splay_first_spec m A D W q x0 : timers_rep m A D W q -> timetree m = Some x0 ->
  exists hp x n, Curl_splay zero_time (timetree m) (trees m) = Some (hp, Some x) /\
    load (Some x) hp = Some n /\ next_expire A (key n) /\ valid_time (key n) /\
    timers_rep (set_trees hp (Some x) m) A D W q.
Proof.
  intros HR Hx0. pose proof (tr_queue _ _ _ _ _ HR) as Hq.
  assert (Hne : q <> []).
  { intros ->. destruct Hq as [_ (T & Ht & ET)]. destruct T as [|a y b]; [by rewrite Hx0 in Ht|].
    cbn in ET. symmetry in ET. by apply app_cons_not_nil in ET. }
  destruct (splay_queue (trees m) (timetree m) q zero_time Hq Hne) as
    (hp & a & x & b & q1 & K & ss & q2 & E & Eq & Hg & Ht & Ea & Eb & H1 & _ & Hre & _); [done|].
  assert (q1 = []) as ->.
  { destruct q1 as [|kg q1]; [done|]. specialize (H1 kg ltac:(left)). rewrite Eq in Hg. destruct Hg as [Hg _ _].
    apply Forall_cons in Hg as [(y & ys & _ & _ & (u & _ & Hvu & Hku) & _) _]. apply ktime_nonneg in Hvu.
    change (ktime zero_time) with 0 in H1. lia. }
  cbn [app] in Eq. pose proof Hg as Hg0. rewrite Eq in Hg0.
  destruct (root_node hp [] K x ss q2 Hg0) as (n & _ & _ & Hn & Hvn & HK & _).
  destruct (groups_around hp [] K (x :: ss) q2 Hg0) as (_ & _ & _ & Hlt & _ & _).
  assert (Hat : queue_at q K x) by (rewrite Eq; apply queue_at_cons; left; split; [done|left]).
  assert (Hmin : forall K' y, queue_at q K' y -> K <= K').
  { intros K' y. rewrite Eq, queue_at_cons. intros [[-> _]|(g & Hg' & _)]; [done|]. specialize (Hlt _ Hg'). cbn in Hlt. lia. }
  destruct (tr_members _ _ _ _ _ HR x (queue_at_members _ _ _ Hat)) as (h & d & Hd & Et).
  destruct (transfer_of_easy _ _ _ _ _ _ _ HR Hd) as (l & t & HA & Htf). pose proof Htf as [_ _ Hv _ _ _ Ho Hi _ _].
  assert (Hnz : t <> zero_time).
  { intros Ez. destruct (Ho Ez) as [_ Hn0]. apply Hn0. rewrite Et. by apply (queue_at_members _ K). }
  destruct (Hi Hnz) as [Hat2 _]. rewrite Et in Hat2.
  pose proof (queue_at_fun _ _ _ _ (q_nodup _ _ (proj1 Hq)) Hat Hat2) as EK.
  assert (key n = t) as Ekey by (apply ktime_inj; congruence).
  exists hp, x, n. split; [done|]. split; [exact Hn|]. rewrite Ekey. split; [|split; [done|]].
  - split; [done|]. split; [by exists h, l|]. intros h2 l2 t2 HA2 Hnz2.
    destruct (transfer_of _ _ _ _ _ _ _ _ HR HA2) as (d2 & Hd2 & Htf2).
    destruct (tf_in _ _ _ _ _ _ _ Htf2 Hnz2) as [Hat3 _]. rewrite <- EK. by apply (Hmin _ _ Hat3).
  - apply timers_trees; [done| |by apply same_nodes_rest]. split; [done|]. exists (Node a x b). split; [done|].
    rewrite Eq. cbn [inorder]. by rewrite Ea, Eb.
Qed.

(** An empty tree holds no transfer. *)
Lemma no_tree m A D W q h l t : timers_rep m A D W q -> timetree m = None -> A !! h = Some (l, t) -> t = zero_time.
Proof.
  intros HR Hn HA. destruct (transfer_of _ _ _ _ _ _ _ _ HR HA) as (d & Hd & Htf).
  destruct (decide (t = zero_time)) as [|Hnz]; [done|]. destruct (tf_in _ _ _ _ _ _ _ Htf Hnz) as [(g & Hg & _) _].
  destruct (tr_queue _ _ _ _ _ HR) as [Hgs (T & Ht & ET)]. rewrite Hn in Ht. apply tree_at_none in Ht as ->.
  destruct q as [|kg q]; [by apply elem_of_nil in Hg|]. destruct Hgs as [Hgs _ _].
  apply Forall_cons in Hgs as [(y & ss & Eg & _) _]. unfold roots in ET. cbn in ET. by rewrite Eg in ET.
Qed.

(** The timeout of a multi handle is right: 0 exactly when a dirty transfer
    can be run or the nearest expire time has passed, -1 exactly when no
    transfer has a timer, and otherwise enough milliseconds for the nearest
    expire time to pass and fewer than two more; the timers stay as they are,
    and no dirty transfer that can be run is forgotten. *)
Theorem multi_timeout_correct (m : multi) (A : transfers) (D P : gset Z) (X : gmap Z handle) (W : world)
    (q : queue) (now : curltime) :
  timers_rep m A D W q -> lookup_rep m P X -> valid_time now ->
  exists m' D' e ms, multi_timeout false now m = Some (m', Some e, ms) /\ timers_rep m' A D' W q /\
    D' ⊆ D /\ (forall i, i ∈ D -> runnable P X i -> i ∈ D') /\
    ((exists i, i ∈ D /\ runnable P X i) /\ e = now /\ ms = 0 \/
     D' = ∅ /\ (forall h l t, A !! h = Some (l, t) -> t = zero_time) /\ e = zero_time /\ ms = -1 \/
     D' = ∅ /\ next_expire A e /\
       (if ktime e <=? ktime now then ms = 0
        else tv_sec e - tv_sec now < 9223372036854 ->
          0 < ms /\ ktime e <= ktime now + 1000 * ms < ktime e + 2000)).
Proof.
  intros HR Hk Hnow. unfold multi_timeout.
  destruct (has_dirties_spec m P X D Hk (tr_dirty _ _ _ _ _ HR)) as (m1 & r & E & Hres). rewrite E. cbn [mbind option_bind].
  destruct Hres as (b & x & D' & -> & Hns & Hb & Hx & Hsub & Hkeep & Hr).
  assert (HR1 : timers_rep (set_dirty b (set_xfers x m)) A D' W q) by (by apply (timers_set_dirty m _ A D)).
  set (m1 := set_dirty b (set_xfers x m)) in *. clearbody m1.
  destruct r; [exists m1, D', now, 0; repeat (split; [done|]); by left|].
  destruct (timetree m1) as [x0|] eqn:Et.
  - destruct (splay_first_spec m1 A D' W q x0 HR1 Et) as (hp & y & n & E1 & E2 & Hnext & Hvn & HR2).
    rewrite Et in E1. rewrite E1. cbn [mbind option_bind]. rewrite E2. cbn [mbind option_bind]. rewrite Z.gtb_ltb.
    pose proof (ptimediff_us_sgn (key n) now Hvn Hnow) as Hs.
    destruct (Z.ltb_spec 0 (curlx_ptimediff_us (key n) now)); (eexists _, D', (key n), _; split; [reflexivity|]);
      (repeat (split; [done|])); right; right; (repeat (split; [done|]));
      destruct (Z.leb_spec (ktime (key n)) (ktime now)); try lia.
    intros Hclose. pose proof (timediff_ceil_spec (key n) now Hvn Hnow) as Hc. unfold ktime, valid_time in *. lia.
  - exists m1, D', zero_time, (-1). repeat (split; [done|]). right. left. split; [done|]. split; [|done].
    intros h l t HA. by apply (no_tree m1 A D' W q h l t).
Qed.

(** * Any sequence of operations *)

Inductive x_op :=
  | XExpire (h : handle) (milli : Z) (id : expire_id) (now : curltime)
  | XDone (h : handle) (id : expire_id)
  | XClear (h : handle)
  | XFire (now : curltime).

Definition x_step (op : x_op) (m : multi) : option multi :=
  match op with
  | XExpire h milli id now => Curl_expire h milli id now m
  | XDone h id => Curl_expire_done h id m
  | XClear h => Curl_expire_clear h m
  | XFire now => multi_mark_expired_as_dirty now m
  end.

Fixpoint x_run (ops : list x_op) (m : multi) : option multi :=
  match ops with [] => Some m | op :: ops => m ← x_step op m; x_run ops m end.

Definition x_spec (op : x_op) (A : transfers) : transfers :=
  match op with
  | XExpire h milli id now => alter (t_expire id (expire_at now milli)) h A
  | XDone h id => alter (fun lt => (t_del id lt.1, lt.2)) h A
  | XClear h => alter (fun _ => ([], zero_time)) h A
  | XFire now => t_fire now <$> A
  end.

Definition x_dirties (op : x_op) (M : gmap handle Z) (A : transfers) (D D' : gset Z) : Prop :=
  match op with XFire now => dirtied now M A D D' | _ => D' = D end.

Fixpoint x_spec_run (ops : list x_op) (A : transfers) : transfers :=
  match ops with [] => A | op :: ops => x_spec_run ops (x_spec op A) end.

Fixpoint x_dirties_run (ops : list x_op) (M : gmap handle Z) (A : transfers) (D D' : gset Z) : Prop :=
  match ops with
  | [] => D' = D
  | op :: ops => exists D1, x_dirties op M A D D1 /\ x_dirties_run ops M (x_spec op A) D1 D'
  end.

Definition x_op_ok (A : transfers) (op : x_op) : Prop :=
  match op with
  | XExpire h milli _ now => is_Some (A !! h) /\ milli_ok milli /\ now_ok now
  | XDone h _ | XClear h => is_Some (A !! h)
  | XFire now => valid_time now
  end.

Lemma alter_insert (A : transfers) h v f : A !! h = Some v -> alter f h A = <[h := f v]> A.
Proof.
  intros HA. apply map_eq. intros h2. destruct (decide (h2 = h)) as [->|Hne].
  - by rewrite lookup_insert_eq, lookup_alter_eq, HA.
  - by rewrite lookup_insert_ne, lookup_alter_ne.
Qed.

Lemma x_step_spec op m A D W q : timers_rep m A D W q -> x_op_ok A op ->
  exists m' D' W' q', x_step op m = Some m' /\ timers_rep m' (x_spec op A) D' W' q' /\
    x_dirties op (mids m) A D D' /\ mids m' = mids m.
Proof.
  intros HR Hok. destruct op as [h milli id now|h id|h|now]; cbn [x_step x_spec x_dirties x_op_ok] in *.
  - destruct Hok as ([[l t] HA] & Hm & Hnow).
    destruct (expire_spec m A D W q h l t milli id now HR HA Hnow Hm) as (m' & W' & q' & E & HR' & HM).
    exists m', D, W', q'. by rewrite (alter_insert _ _ (l, t)).
  - destruct Hok as [[l t] HA]. destruct (expire_done_spec m A D W q h l t id HR HA) as (m' & W' & E & HR' & HM).
    exists m', D, W', q. by rewrite (alter_insert _ _ (l, t)).
  - destruct Hok as [[l t] HA]. destruct (expire_clear_spec m A D W q h l t HR HA) as (m' & W' & q' & E & HR' & HM).
    exists m', D, W', q'. by rewrite (alter_insert _ _ (l, t)).
  - destruct (mark_expired_spec m A D W q now HR Hok) as (m' & D' & W' & q' & E & HR' & HD & HM).
    by exists m', D', W', q'.
Qed.

(** The transfers stay the same, so what can be done before can be done after. *)
Lemma x_op_ok_later op op' A : x_op_ok A op' -> x_op_ok (x_spec op A) op'.
Proof.
  intros Hok. assert (Hdom : forall h, is_Some (A !! h) -> is_Some (x_spec op A !! h)).
  { intros h [v Hv]. destruct op as [h' ? ? ?|h' ?|h'|now]; cbn [x_spec];
      [| | |rewrite lookup_fmap, Hv; by eexists];
      (destruct (decide (h' = h)) as [->|Hne];
        [rewrite lookup_alter_eq, Hv; by eexists|rewrite lookup_alter_ne by done; by eexists]). }
  destruct op'; cbn [x_op_ok] in *; intuition.
Qed.

Lemma x_run_spec ops : forall m A D W q, timers_rep m A D W q ->
  (forall op, op ∈ ops -> x_op_ok A op) ->
  exists m' D' W' q', x_run ops m = Some m' /\ timers_rep m' (x_spec_run ops A) D' W' q' /\
    x_dirties_run ops (mids m) A D D' /\ mids m' = mids m.
Proof.
  induction ops as [|op ops IH]; intros m A D W q HR Hok; [by exists m, D, W, q|].
  destruct (x_step_spec op m A D W q HR (Hok op ltac:(left))) as (m1 & D1 & W1 & q1 & E1 & HR1 & HD1 & HM1).
  destruct (IH m1 (x_spec op A) D1 W1 q1 HR1) as (m2 & D2 & W2 & q2 & E2 & HR2 & HD2 & HM2).
  { intros op' Hop'. apply x_op_ok_later, Hok. by right. }
  exists m2, D2, W2, q2. cbn [x_run x_spec_run x_dirties_run]. rewrite E1. cbn [mbind option_bind].
  split; [done|]. split; [done|]. split; [|congruence]. exists D1. split; [done|]. by rewrite <- HM1.
Qed.

(** C20: The timers of the transfers: any sequence of setting, ending, clearing
    and firing timers runs without a bad access and without running out of
    rounds, and leaves lists, a tree and time nodes that hold exactly the
    timeouts and expire times of the abstract timers; firing takes every
    transfer whose time has come, marks those and no others dirty, drops their
    passed timeouts and files them under the next one. *)
Theorem timers_refine (ops : list x_op) (m : multi) (A : transfers) (D : gset Z) (W : world) (q : queue) :
  timers_rep m A D W q -> (forall op, op ∈ ops -> x_op_ok A op) ->
  exists m' D' W' q', x_run ops m = Some m' /\ timers_rep m' (x_spec_run ops A) D' W' q' /\
    x_dirties_run ops (mids m) A D D'.
Proof.
  intros HR Hok. destruct (x_run_spec ops m A D W q HR Hok) as (m' & D' & W' & q' & E & HR' & HD & _).
  by exists m', D', W', q'.
Qed.

(** * How late a timer can be *)

Definition by_sec (a b : expire_id * curltime) : Prop := tv_sec a.2 <= tv_sec b.2.

(** The list is in the order of the seconds, and the transfer is in the tree
    with a time in the first of them, or before. *)
Record near (l : timeouts) (t : curltime) : Prop := {
  near_sorted : StronglySorted by_sec l;
  near_first : forall id u, (id, u) ∈ l -> t <> zero_time /\ tv_sec t <= tv_sec u;
}.

Lemma diff_ms_sec a b : valid_time a -> valid_time b ->
  if curlx_ptimediff_ms a b >? 0 then tv_sec b <= tv_sec a else tv_sec a <= tv_sec b.
Proof.
  intros [Ha Ha2] [Hb Hb2]. unfold curlx_ptimediff_ms.
  change (Z.quot TIMEDIFF_T_MAX 1000) with 9223372036854775.
  change (Z.quot TIMEDIFF_T_MIN 1000) with (-9223372036854775). rewrite Z.geb_leb, Z.gtb_ltb.
  destruct (Z.leb_spec 9223372036854775 (tv_sec a - tv_sec b)); [change (0 <? TIMEDIFF_T_MAX) with true; cbn iota; lia|].
  destruct (Z.leb_spec (tv_sec a - tv_sec b) (-9223372036854775)); [change (0 <? TIMEDIFF_T_MIN) with false; cbn iota; lia|].
  destruct (Z.ltb_spec 0 ((tv_sec a - tv_sec b) * 1000 + Z.quot (tv_usec a - tv_usec b) 1000)); dlia.
Qed.

Lemma t_add_sorted id stamp l : valid_time stamp -> (forall i u, (i, u) ∈ l -> valid_time u) ->
  StronglySorted by_sec l -> StronglySorted by_sec (t_add id stamp l).
Proof.
  intros Hs. induction l as [|[i u] l IH]; intros Hv Hl; [repeat constructor|]. cbn [t_add snd].
  apply StronglySorted_inv in Hl as [Hl Hu]. rewrite Forall_forall in Hu.
  pose proof (diff_ms_sec u stamp (Hv i u ltac:(left)) Hs) as Hd.
  assert (Hvl : forall i u, (i, u) ∈ l -> valid_time u) by (intros j v Hj; apply (Hv j); by right).
  destruct (curlx_ptimediff_ms u stamp >? 0).
  - constructor; [constructor; [done|by apply Forall_forall]|]. apply Forall_forall.
    intros x [->|Hx]%elem_of_cons; [done|]. specialize (Hu x Hx). unfold by_sec in *. cbn in *. lia.
  - constructor; [by apply IH|]. apply Forall_forall. intros x [->|Hx]%elem_of_t_add; [done|by apply Hu].
Qed.

Lemma t_del_sorted id l : StronglySorted by_sec l -> StronglySorted by_sec (t_del id l).
Proof.
  induction l as [|x l IH]; intros Hl; [done|]. cbn [t_del]. apply StronglySorted_inv in Hl as [Hl Hx].
  case_decide as E; [done|]. constructor; [by apply IH|]. rewrite Forall_forall in *. intros y Hy%t_del_sub. by apply Hx.
Qed.

Lemma near_expire id set l t : near l t -> valid_time t -> valid_time set -> set <> zero_time ->
  (forall i u, (i, u) ∈ l -> valid_time u) ->
  near (t_expire id set (l, t)).1 (t_expire id set (l, t)).2.
Proof.
  intros [Hs Hf] Ht Hset Hnz Hv. unfold t_expire. cbn [fst snd]. split.
  - apply t_add_sorted; [done| |by apply t_del_sorted]. intros i u Hin%t_del_sub. by apply (Hv i).
  - pose proof (diff_ms_sec set t Hset Ht) as Hd. intros i u [[= -> ->]|Hin%t_del_sub]%elem_of_t_add.
    + destruct (is_set t) eqn:Es; cbn [andb]; [|done]. apply is_set_iff in Es.
      destruct (curlx_ptimediff_ms set t >? 0); done.
    + destruct (Hf i u Hin) as [H1 H2]. apply is_set_iff in H1 as H1'. rewrite H1'. cbn [andb].
      destruct (curlx_ptimediff_ms set t >? 0); split; try done. lia.
Qed.

Lemma near_fire now l t : near l t -> (forall i u, (i, u) ∈ l -> u <> zero_time) ->
  near (t_fire now (l, t)).1 (t_fire now (l, t)).2.
Proof.
  intros [Hs Hf] Hz. unfold t_fire. cbn [fst snd]. destruct (is_due now t); [|done]. cbn [fst snd].
  destruct (t_drop_suffix now l) as (l1 & E).
  assert (Hsub : forall i u, (i, u) ∈ t_drop now l -> u <> zero_time).
  { intros i u Hin%elem_of_t_drop. by apply (Hz i). }
  rewrite E in Hs. apply sorted_suffix in Hs. split; [done|].
  destruct (t_drop now l) as [|[j v] l2]; cbn [first_time snd]; [intros i u Hin; by apply elem_of_nil in Hin|].
  intros i u Hin. split; [apply (Hsub j); left|]. apply elem_of_cons in Hin as [[= -> ->]|Hin]; [done|].
  apply StronglySorted_inv in Hs as [_ Hs]. rewrite Forall_forall in Hs. apply (Hs _ Hin).
Qed.

Definition all_near (A : transfers) : Prop := map_Forall (fun _ lt => near lt.1 lt.2) A.

Lemma near_step op m A D W q : timers_rep m A D W q -> x_op_ok A op -> all_near A -> all_near (x_spec op A).
Proof.
  intros HR Hok HA. assert (Hval : forall h l t, A !! h = Some (l, t) -> near l t /\ valid_time t /\
    forall i u, (i, u) ∈ l -> valid_time u /\ u <> zero_time).
  { intros h l t Hh. destruct (transfer_of _ _ _ _ _ _ _ _ HR Hh) as (d & _ & Htf).
    split; [exact (HA h _ Hh)|]. split; [apply (tf_valid _ _ _ _ _ _ _ Htf)|apply (tf_valids _ _ _ _ _ _ _ Htf)]. }
  assert (Halter : forall h f, (forall l t, A !! h = Some (l, t) -> near (f (l, t)).1 (f (l, t)).2) -> all_near (alter f h A)).
  { intros h f Hf h2 v. destruct (decide (h2 = h)) as [->|Hne].
    - rewrite lookup_alter_eq. destruct (A !! h) as [[l t]|] eqn:E; [|done]. intros [= <-]. by apply Hf.
    - rewrite lookup_alter_ne by done. intros Hv. exact (HA h2 v Hv). }
  destruct op as [h milli id now|h id|h|now]; cbn [x_spec x_op_ok] in *.
  - destruct Hok as (_ & Hm & Hnow). destruct (expire_at_spec now milli Hnow Hm) as (Hv & Hz & _).
    apply Halter. intros l t E. destruct (Hval h l t E) as (H1 & H2 & H3). apply near_expire; try done.
    intros i u Hin. by apply (H3 i).
  - apply Halter. intros l t E. destruct (Hval h l t E) as ([Hs Hf] & _). split; cbn; [by apply t_del_sorted|].
    intros i u Hin%t_del_sub. by apply (Hf i).
  - apply Halter. intros l t _. split; [constructor|]. intros i u Hin. by apply elem_of_nil in Hin.
  - intros h v. rewrite lookup_fmap. destruct (A !! h) as [[l t]|] eqn:E; [|done]. intros [= <-].
    destruct (Hval h l t E) as (H1 & H2 & H3). apply near_fire; [done|]. intros i u Hin. by apply (H3 i).
Qed.

(** No timer is forgotten: whatever sequence of operations set, ended,
    cleared and fired timers, a transfer with a pending timeout is in the tree,
    with an expire time less than a second after that timeout. *)
Theorem timers_near (ops : list x_op) (m : multi) (A : transfers) (D : gset Z) (W : world) (q : queue) :
  timers_rep m A D W q -> all_near A -> (forall op, op ∈ ops -> x_op_ok A op) ->
  exists m' A' D' W' q', x_run ops m = Some m' /\ timers_rep m' A' D' W' q' /\
    forall h l t id u, A' !! h = Some (l, t) -> (id, u) ∈ l -> t <> zero_time /\ ktime t < ktime u + 1000000.
Proof.
  intros HR HA Hok.
  destruct (x_run_spec ops m A D W q HR Hok) as (m' & D' & W' & q' & E & HR' & _).
  exists m', (x_spec_run ops A), D', W', q'. split; [done|]. split; [done|].
  assert (HA' : all_near (x_spec_run ops A)).
  { clear E HR' m' D' W' q'. revert m A D W q HR HA Hok. induction ops as [|op ops IH]; intros m A D W q HR HA Hok; [done|].
    destruct (x_step_spec op m A D W q HR (Hok op ltac:(left))) as (m1 & D1 & W1 & q1 & E1 & HR1 & _).
    apply (IH m1 (x_spec op A) D1 W1 q1 HR1); [by apply (near_step op m A D W q HR (Hok op ltac:(left)))|].
    intros op' Hop'. apply x_op_ok_later, Hok. by right. }
  intros h l t id u Hh Hin. destruct (near_first _ _ (HA' h _ Hh) id u Hin) as [H1 H2]. split; [done|].
  destruct (transfer_of _ _ _ _ _ _ _ _ HR' Hh) as (d & _ & Htf).
  pose proof (tf_valid _ _ _ _ _ _ _ Htf) as [_ Hv1]. destruct (tf_valids _ _ _ _ _ _ _ Htf id u Hin) as [[_ Hv2] _].
  cbn in H2. unfold ktime. lia.
Qed.

(** * A multi handle with two transfers *)

Definition easy0 (mid : Z) (x : loc) (L : lloc) : easy := mk_easy mid true zero_time x L ∅.

Definition links0 : lstate :=
  Curl_llist_init 21 false (Curl_llist_init 22 false
    (mk_lstate ∅ (list_to_map (map (fun hi => (node_loc hi.1 hi.2, mk_lnode None 0 None None))
      (list_prod [1; 2]%positive expire_ids))))).

Definition xfers0 : uint32_tbl handle :=
  mk_tbl handle [None; None; None; Some 1%positive; Some 2%positive] false 5 2 4.

(** Transfers 3 and 4, at the addresses 1 and 2, the first one dirty. *)
Definition multi0 : multi :=
  mk_multi (list_to_map [(1, easy0 3 11 21); (2, easy0 4 12 22)])%positive
    (list_to_map [(11, node0); (12, node0)])%positive None links0
    (mk_bset [8] 1 0) (mk_bset [24] 1 0) xfers0.

Definition transfers0 : transfers := list_to_map [(1, ([], zero_time)); (2, ([], zero_time))]%positive.

Definition world0 : world := list_to_map [(21, (false, [])); (22, (false, []))]%positive.

Lemma links0_rep : world_rep links0 world0.
Proof.
  apply (world_init _ (<[22%positive := (false, [])]> ∅) 21 false); [|done]. apply world_init; [|done].
  split; [done|by intros L d xs H; rewrite lookup_empty in H|].
  intros x n L Hn HL. cbn [nodes] in Hn. apply elem_of_list_to_map_2 in Hn.
  apply list_elem_of_fmap in Hn as (hi & [= _ ->] & _). done.
Qed.

(** A set of one word, from the bits of the word. *)
Lemma bset_one x : word x -> bset_rep (mk_bset [x] 1 0) (list_to_set (elems 0 [x])).
Proof.
  intros Hx. split; [done|done|by constructor|split; [done|cbn; lia]|].
  intros i. by rewrite elem_of_list_to_set, elem_of_elems, Z.sub_0_r.
Qed.

Lemma easies0_cases h d : easies multi0 !! h = Some d ->
  h = 1%positive /\ d = easy0 3 11 21 \/ h = 2%positive /\ d = easy0 4 12 22.
Proof.
  intros H. apply elem_of_list_to_map_2 in H.
  apply list_elem_of_In in H as [[= <- <-]|[[= <- <-]|[]]]; tauto.
Qed.

Lemma transfer0_rep (h : handle) (mid : Z) (x : loc) (L : lloc) : 
  (h, mid, x, L) ∈ [(1%positive, 3, 11%positive, 21%positive); (2%positive, 4, 12%positive, 22%positive)] ->
  transfer_rep multi0 world0 [] h (easy0 mid x L) [] zero_time.
Proof.
  intros H. split; try done.
  - split; [|constructor|by intros ? ? ?%not_elem_of_nil].
    by apply list_elem_of_In in H as [[= <- <- <- <-]|[[= <- <- <- <-]|[]]].
  - by intros ? ? ?%not_elem_of_nil.
  - intros id. apply elem_of_dom. by apply list_elem_of_In in H as [[= <- <- <- <-]|[[= <- <- <- <-]|[]]]; destruct id; eexists.
  - apply elem_of_dom. apply list_elem_of_In in H as [[= <- <- <- <-]|[[= <- <- <- <-]|[]]]; by eexists.
  - intros _. split; [done|apply not_elem_of_nil].
  - by apply list_elem_of_In in H as [[= <- <- <- <-]|[[= <- <- <- <-]|[]]].
Qed.

Lemma timers0_rep : timers_rep multi0 transfers0 {[3]} world0 [].
Proof.
  split.
  - exact links0_rep.
  - split; [split; constructor|by exists Leaf].
  - apply (bset_one 8). done.
  - intros h. split; intros H; apply not_elem_of_list_to_map in H; by apply not_elem_of_list_to_map.
  - intros h d l t Hd Hl. destruct (easies0_cases h d Hd) as [[-> ->]|[-> ->]]; injection Hl as <- <-;
      apply transfer0_rep; [left|right; left].
  - intros L x H. apply elem_of_list_to_map_2 in H.
    apply list_elem_of_In in H as [[= <- <-]|[[= <- <-]|[]]]; [by exists 1%positive, (easy0 3 11 21)|
      by exists 2%positive, (easy0 4 12 22)].
  - by intros x ?%not_elem_of_nil.
  - intros h h' d d' H H'. destruct (easies0_cases h d H) as [[-> ->]|[-> ->]], (easies0_cases h' d' H') as [[-> ->]|[-> ->]];
      by intros [?|?].
Qed.

Lemma lookup0_rep : lookup_rep multi0 {[3; 4]} {[3 := 1%positive; 4 := 2%positive]}.
Proof.
  split.
  - apply (bset_one 24). done.
  - split; [done|done|done|done|]. intros k e. split.
    + intros [[<- <-]|[_ [<- <-]%lookup_singleton_Some]]%lookup_insert_Some; done.
    + intros [Hk H]. assert (k < 5) by (apply lookup_lt_Some in H; cbn in H; lia).
      assert (k = 0 \/ k = 1 \/ k = 2 \/ k = 3 \/ k = 4) as [->|[->|[->|[->| ->]]]] by lia; cbn in H; by injection H as <-.
  - intros i h [[<- <-]|[_ [<- <-]%lookup_singleton_Some]]%lookup_insert_Some; by eexists.
Qed.


(** Timers for both transfers, one of them passed when the timers fire. *)
Definition timer_ops : list x_op :=
  [XExpire 1 1500 EXPIRE_SPEEDCHECK (mk_time 100 5); XExpire 2 200 EXPIRE_TIMEOUT (mk_time 100 900000);
   XExpire 1 2 EXPIRE_TOOFAST (mk_time 101 0); XFire (mk_time 101 60000); XDone 2 EXPIRE_TIMEOUT; XClear 1].

Lemma timer_ops_ok op : op ∈ timer_ops -> x_op_ok transfers0 op.
Proof.
  intros H. apply list_elem_of_In in H. cbn in H.
  destruct_or! H; subst; try done; cbn [x_op_ok]; first [by eexists|split; [by eexists|split; [done|]]];
    unfold now_ok; cbn; (repeat split); try lia; by intros [=].
Qed.

Lemma timers_refine_witness : exists m' D' W' q', x_run timer_ops multi0 = Some m' /\
  timers_rep m' (x_spec_run timer_ops transfers0) D' W' q' /\ x_dirties_run timer_ops (mids multi0) transfers0 {[3]} D'.
Proof. exact (timers_refine timer_ops multi0 transfers0 {[3]} world0 [] timers0_rep timer_ops_ok). Defined.

Lemma timers_near_witness : exists m' A' D' W' q', x_run timer_ops multi0 = Some m' /\ timers_rep m' A' D' W' q' /\
  forall h l t id u, A' !! h = Some (l, t) -> (id, u) ∈ l -> t <> zero_time /\ ktime t < ktime u + 1000000.
Proof.
  apply (timers_near timer_ops multi0 transfers0 {[3]} world0 [] timers0_rep); [|exact timer_ops_ok].
  intros h v H. apply elem_of_list_to_map_2, list_elem_of_In in H as [[= <- <-]|[[= <- <-]|[]]];
    (split; [constructor|by intros ? ? ?%not_elem_of_nil]).
Defined.

Lemma multi_timeout_correct_witness : exists m' D' e ms,
  multi_timeout false (mk_time 101 60000) multi0 = Some (m', Some e, ms) /\
  timers_rep m' transfers0 D' world0 [] /\ D' ⊆ {[3]} /\
  (forall i, i ∈ ({[3]} : gset Z) -> runnable {[3; 4]} {[3 := 1%positive; 4 := 2%positive]} i -> i ∈ D').
Proof.
  destruct (multi_timeout_correct multi0 transfers0 {[3]} {[3; 4]} _ world0 [] (mk_time 101 60000)
    timers0_rep lookup0_rep) as (m' & D' & e & ms & E & HR & Hs & Hk & _); [done|].
  by exists m', D', e, ms.
Defined.

(** How far the tree can be behind the timeouts: a timeout at 100.0 s, then a
    second one that is set anew a thousand times, 999 microseconds later each
    time. The comparison in milliseconds takes every one for as early as the
    last, and the transfer ends up in the tree at 100.999 s, with the first
    timeout still pending. *)
Definition drift_ops : list x_op :=
  XExpire 1 0 EXPIRE_TIMEOUT (mk_time 100 0) ::
  map (fun k => XExpire 1 0 EXPIRE_SPEEDCHECK (mk_time 100 (999 * k))) (seqZ 1 1000).

Example timer_drifts :
  x_spec_run drift_ops transfers0 !! 1%positive =
    Some ([(EXPIRE_TIMEOUT, mk_time 100 0); (EXPIRE_SPEEDCHECK, mk_time 100 999000)], mk_time 100 999000).
Proof. by_compute. Qed.
