(* ===== verification/InetAddr.v ===== *)
(** IP addresses and their texts: lib/curlx/inet_pton.c and
    lib/curlx/inet_ntop.c, with lib/curlx/strcopy.c.

    The arrays the functions work in are checked memory blocks
    ([Dynbuf.mem_write], [Dynbuf.mem_read]), so [None] is an access outside of
    [tmp], [dst] or the address.  The readers are proved against a description
    of the texts they take, the writers against the text of RFC 5952. *)

From Stdlib Require Import ZArith Lia List Ascii String.
From stdpp Require Import base numbers option list.
From S2P Require Import Prelude Dynbuf Strparse.
Close Scope nat_scope.
Open Scope Z_scope.

Definition IN6ADDRSZ : Z := 16.
Definition INADDRSZ : Z := 4.
Definition INT16SZ : Z := 2.

(** The values on Linux. *)
Definition AF_INET : Z := 2.
Definition AF_INET6 : Z := 10.

Inductive errno := ENOSPC | EAFNOSUPPORT.

(** An array of [n] bytes that was not stored to. *)
Definition uninit (n : Z) : mem := replicate (Z.to_nat n) None.

(** [tmp[i]], one byte. *)
Definition rd (m : mem) (i : Z) : option Z :=
  match mem_read m i 1 with Some [x] => Some x | _ => None end.

(** * Reading *)

(** The loop of [inet_pton4]: [None] in the result is its [return 0]. *)
Fixpoint pton4_loop (src : list Z) (tp octets : Z) (saw_digit : bool) (tmp : mem)
    : option (option (Z * mem)) :=
  match src with
  | [] => Some (Some (octets, tmp))
  | ch :: src =>
      if ch =? 0 then Some (Some (octets, tmp))
      else if ISDIGIT ch then
        cur ← rd tmp tp;
        let val := u32 (cur * 10 + (ch - 48)) in
        if saw_digit && (cur =? 0) then Some None
        else if val >? 255 then Some None
        else
          tmp ← mem_write tmp tp [u8 val];
          if negb saw_digit then
            let octets := octets + 1 in
            if octets >? 4 then Some None
            else pton4_loop src tp octets true tmp
          else pton4_loop src tp octets saw_digit tmp
      else if (ch =? 46) && saw_digit then
        if octets =? 4 then Some None
        else
          let tp := tp + 1 in
          tmp ← mem_write tmp tp [0];
          pton4_loop src tp octets false tmp
      else Some None
  end.

(** The result is the array [dst] points into, here at [off], and what the
    function returns. *)
Definition inet_pton4 (src : list Z) (dst : mem) (off : Z) : option (mem * Z) :=
  tmp ← mem_write (uninit INADDRSZ) 0 [0];
  r ← pton4_loop src 0 0 false tmp;
  match r with
  | None => Some (dst, 0)
  | Some (octets, tmp) =>
      if octets <? 4 then Some (dst, 0)
      else
        a ← mem_read tmp 0 INADDRSZ;
        dst ← mem_write dst off a;
        Some (dst, 1)
  end.

(** The variables of [inet_pton6]; pointers into [tmp] are offsets. *)
Record pton6_vars := mk_p6 {
  p6_tmp : mem;
  p6_tp : Z;
  p6_colonp : option Z;
  p6_curtok : list Z;
  p6_saw : Z;
  p6_val : Z;
}.

Definition endp : Z := IN6ADDRSZ.

(** [*tp++ = (val >> 8) & 0xff; *tp++ = val & 0xff;] *)
Definition store_word (tmp : mem) (tp val : Z) : option mem :=
  tmp ← mem_write tmp tp [u8 (Z.land (Z.shiftr val 8) 255)];
  mem_write tmp (tp + 1) [u8 (Z.land val 255)].

Fixpoint pton6_loop (src : list Z) (v : pton6_vars) : option (option pton6_vars) :=
  let '(mk_p6 tmp tp colonp curtok saw_xdigit val) := v in
  match src with
  | [] => Some (Some v)
  | ch :: src =>
      if ch =? 0 then Some (Some v)
      else if ISXDIGIT ch then
        let val := Z.lor (u64 (Z.shiftl val 4)) (curlx_hexval ch) in
        if saw_xdigit + 1 >? 4 then Some None
        else pton6_loop src (mk_p6 tmp tp colonp curtok (saw_xdigit + 1) val)
      else if ch =? 58 then
        let curtok := src in
        if saw_xdigit =? 0 then
          match colonp with
          | Some _ => Some None
          | None => pton6_loop src (mk_p6 tmp tp (Some tp) curtok saw_xdigit val)
          end
        else if tp + INT16SZ >? endp then Some None
        else
          tmp ← store_word tmp tp val;
          pton6_loop src (mk_p6 tmp (tp + 2) colonp curtok 0 0)
      else if (ch =? 46) && (tp + INADDRSZ <=? endp) then
        '(tmp, r) ← inet_pton4 curtok tmp tp;
        if r >? 0 then Some (Some (mk_p6 tmp (tp + INADDRSZ) colonp curtok 0 val))
        else Some None
      else Some None
  end.

(** [for(i = 1; i <= n; i++)], with [todo] rounds to go: the bytes behind the
    gap move to the end. *)
Fixpoint shift_loop (todo : nat) (i colonp n : Z) (tmp : mem) : option mem :=
  match todo with
  | O => Some tmp
  | S todo =>
      x ← rd tmp (colonp + n - i);
      tmp ← mem_write tmp (endp - i) [x];
      tmp ← mem_write tmp (colonp + n - i) [0];
      shift_loop todo (i + 1) colonp n tmp
  end.

(** What follows the loop of [inet_pton6]. *)
Definition pton6_finish (v : pton6_vars) (dst : mem) : option (mem * Z) :=
  let '(mk_p6 tmp tp colonp _ saw_xdigit val) := v in
  let last := negb (saw_xdigit =? 0) in
  if last && (tp + INT16SZ >? endp) then Some (dst, 0)
  else
    tmp ← (if last then store_word tmp tp val else Some tmp);
    let tp := if last then tp + 2 else tp in
    match colonp with
    | Some colonp =>
        let n := tp - colonp in
        if tp =? endp then Some (dst, 0)
        else
          tmp ← shift_loop (Z.to_nat n) 1 colonp n tmp;
          a ← mem_read tmp 0 IN6ADDRSZ;
          dst ← mem_write dst 0 a;
          Some (dst, 1)
    | None =>
        if negb (tp =? endp) then Some (dst, 0)
        else
          a ← mem_read tmp 0 IN6ADDRSZ;
          dst ← mem_write dst 0 a;
          Some (dst, 1)
    end.

Definition inet_pton6 (src : list Z) (dst : mem) : option (mem * Z) :=
  tmp ← mem_write (uninit IN6ADDRSZ) 0 (replicate 16 0);
  if (deref src =? 58) && negb (deref (tail src) =? 58) then Some (dst, 0)
  else
    let src := if deref src =? 58 then tail src else src in
    r ← pton6_loop src (mk_p6 tmp 0 None src 0 0);
    match r with
    | None => Some (dst, 0)
    | Some v => pton6_finish v dst
    end.

Definition curlx_inet_pton (af : Z) (src : list Z) (dst : mem)
    : option (mem * Z * option errno) :=
  if af =? AF_INET then '(dst, r) ← inet_pton4 src dst 0; Some (dst, r, None)
  else if af =? AF_INET6 then '(dst, r) ← inet_pton6 src dst; Some (dst, r, None)
  else Some (dst, -1, Some EAFNOSUPPORT).

(** * Writing *)

(** The result of a writer: the array [dst] points into, and the error when
    the function returns NULL. *)
Abbreviation ntop_result := (option (mem * option errno)).

Definition curlx_strcopy (dest : mem) (off dsize : Z) (src : list Z) : option mem :=
  let slen := zlen src in
  if slen <? dsize then
    dest ← mem_write dest off src;
    mem_write dest (off + slen) [0]
  else if negb (dsize =? 0) then mem_write dest off [0]
  else Some dest.

(** What [%d] prints for a number from 0 to 999. *)
Definition dec (n : Z) : list Z :=
  if n <? 10 then [48 + n]
  else if n <? 100 then [48 + n / 10; 48 + n mod 10]
  else [48 + n / 100; 48 + n / 10 mod 10; 48 + n mod 10].

Definition quad_text (a b c d : Z) : list Z :=
  dec a ++ [46] ++ dec b ++ [46] ++ dec c ++ [46] ++ dec d.

(** [src] points to the four bytes; [snprintf] cuts its text to the size of
    [tmp]. *)
Definition inet_ntop4 (src : list Z) (dst : mem) (off size : Z) : ntop_result :=
  a ← src !! 0%nat; b ← src !! 1%nat; c ← src !! 2%nat; d ← src !! 3%nat;
  let text := quad_text (Z.land a 255) (Z.land b 255) (Z.land c 255) (Z.land d 255) in
  tmp ← mem_write (uninit 16) 0 (ztake 15 text ++ [0]);
  len ← mem_strlen tmp;
  if (len =? 0) || (len >=? size) then Some (dst, Some ENOSPC)
  else
    t ← mem_read tmp 0 len;
    dst ← curlx_strcopy dst off size t;
    Some (dst, None).

(** A [for] loop over the given values of its counter. *)
Fixpoint for_ {S} (ks : list Z) (body : Z -> S -> option S) (s : S) : option S :=
  match ks with
  | [] => Some s
  | k :: ks => s ← body k s; for_ ks body s
  end.

(** One round of the loop that makes words of the bytes. *)
Definition word_round (src : list Z) (i : Z) (words : list Z) : option (list Z) :=
  x ← src !! Z.to_nat i;
  w ← words !! Z.to_nat (i / 2);
  Some (<[Z.to_nat (i / 2) := Z.lor w (u32 (Z.shiftl x (Z.shiftl (1 - i mod 2) 3)))]> words).

Definition to_words (src : list Z) : option (list Z) :=
  for_ (seqZ 0 16) (word_round src) (replicate 8 0).

(** A run of zero words; [base] is -1 when there is none. *)
Record run := mk_run { base : Z; len : Z }.

(** [if(best.base == -1 || cur.len > best.len) best = cur;] *)
Definition better (best cur : run) : run :=
  if (base best =? -1) || (len cur >? len best) then cur else best.

Definition run_round (words : list Z) (i : Z) (s : run * run) : option (run * run) :=
  let '(best, cur) := s in
  w ← words !! Z.to_nat i;
  if w =? 0 then
    if base cur =? -1 then Some (best, mk_run i 1)
    else Some (best, mk_run (base cur) (len cur + 1))
  else if negb (base cur =? -1) then Some (better best cur, mk_run (-1) (len cur))
  else Some (best, cur).

Definition best_run (words : list Z) : option run :=
  '(best, cur) ← for_ (seqZ 0 8) (run_round words) (mk_run (-1) 0, mk_run (-1) 0);
  let best := if negb (base cur =? -1) then better best cur else best in
  Some (if negb (base best =? -1) && (len best <? 2) then mk_run (-1) (len best) else best).

Definition ldigits : list Z := str "0123456789abcdef".

(** The text being built: [tmp] and [tp]. *)
Abbreviation text_state := (mem * Z)%type.

Definition put (c : Z) (s : text_state) : option text_state :=
  let '(tmp, tp) := s in
  tmp ← mem_write tmp tp [c];
  Some (tmp, tp + 1).

Definition put_digit (i : Z) (s : text_state) : option text_state :=
  c ← ldigits !! Z.to_nat i; put c s.

(** Lowercase hexadecimal without leading zeroes. *)
Definition put_word (w : Z) (s : text_state) : option text_state :=
  s ← (if negb (Z.land w 61440 =? 0) then put_digit (Z.shiftr (Z.land w 61440) 12) s else Some s);
  s ← (if negb (Z.land w 65280 =? 0) then put_digit (Z.shiftr (Z.land w 3840) 8) s else Some s);
  s ← (if negb (Z.land w 65520 =? 0) then put_digit (Z.shiftr (Z.land w 240) 4) s else Some s);
  put_digit (Z.land w 15) s.

(** The size of [tmp] in [inet_ntop6]. *)
Definition TMP6 : Z := 46.

(** The loop that formats the words from [i] on; [None] in the result is its
    [return NULL]. *)
Fixpoint format_loop (todo : nat) (i : Z) (src words : list Z) (best : run) (s : text_state)
    : option (option text_state) :=
  match todo with
  | O => Some (Some s)
  | S todo =>
      if negb (base best =? -1) && (i >=? base best) && (i <? base best + len best) then
        s ← (if i =? base best then put 58 s else Some s);
        format_loop todo (i + 1) src words best s
      else
        s ← (if negb (i =? 0) then put 58 s else Some s);
        w5 ← words !! 5%nat;
        if (i =? 6) && (base best =? 0) &&
           ((len best =? 6) || ((len best =? 5) && (w5 =? 65535)))
        then
          let '(tmp, tp) := s in
          '(tmp, e) ← inet_ntop4 (drop 12 src) tmp tp (TMP6 - tp);
          match e with
          | Some _ => Some None
          | None => n ← mem_strlen (zdrop tp tmp); Some (Some (tmp, tp + n))
          end
        else
          w ← words !! Z.to_nat i;
          s ← put_word w s;
          format_loop todo (i + 1) src words best s
  end.

Definition inet_ntop6 (src : list Z) (dst : mem) (size : Z) : ntop_result :=
  words ← to_words src;
  best ← best_run words;
  r ← format_loop 8 0 src words best (uninit TMP6, 0);
  match r with
  | None => Some (dst, Some ENOSPC)
  | Some s =>
      '(tmp, tp) ← (if negb (base best =? -1) && (base best + len best =? 8) then put 58 s else Some s);
      if tp >=? size then Some (dst, Some ENOSPC)
      else
        t ← mem_read tmp 0 tp;
        dst ← curlx_strcopy dst 0 size t;
        Some (dst, None)
  end.

Definition curlx_inet_ntop (af : Z) (src : list Z) (buf : mem) (size : Z) : ntop_result :=
  if af =? AF_INET then inet_ntop4 src buf 0 size
  else if af =? AF_INET6 then inet_ntop6 src buf size
  else Some (buf, Some EAFNOSUPPORT).

(** * The texts *)

(** The text of a C string. *)
Fixpoint ctext (s : list Z) : list Z :=
  match s with
  | [] => []
  | c :: s => if c =? 0 then [] else c :: ctext s
  end.

(** Four numbers from 0 to 255 in decimal without leading zeroes, with a dot
    between them. *)
Definition ip4_text (t a : list Z) : Prop :=
  exists b0 b1 b2 b3, bytes_ok [b0; b1; b2; b3] /\ a = [b0; b1; b2; b3] /\ t = quad_text b0 b1 b2 b3.

(** One to four hexadecimal digits. *)
Definition hexword (w : list Z) : Prop :=
  1 <= zlen w <= 4 /\ Forall (fun c => ISXDIGIT c = true) w.

Definition word_bytes (w : list Z) : list Z :=
  [digits_value 16 0 w / 256; digits_value 16 0 w mod 256].

(** Words, each with a colon behind it. *)
Definition words_text (ws : list (list Z)) : list Z := concat (map (fun w => w ++ [58]) ws).
Definition words_bytes (ws : list (list Z)) : list Z := concat (map word_bytes ws).

(** How an address can end: behind a colon, with a word, or with an IPv4
    address. *)
Inductive ip6_end : list Z -> list Z -> Prop :=
  | End_colon : ip6_end [] []
  | End_word w : hexword w -> ip6_end w (word_bytes w)
  | End_quad t a : ip4_text t a -> ip6_end t a.

(** An address of 16 bytes in full, or with a double colon for at least one
    byte. *)
Inductive ip6_text : list Z -> list Z -> Prop :=
  | Ip6_full ws e eb : Forall hexword ws -> ip6_end e eb -> zlen (words_bytes ws ++ eb) = 16 ->
      ip6_text (words_text ws ++ e) (words_bytes ws ++ eb)
  | Ip6_gap ws ws' e eb n : Forall hexword ws -> Forall hexword ws' -> ip6_end e eb ->
      0 < n -> zlen (words_bytes ws) + n + zlen (words_bytes ws' ++ eb) = 16 ->
      ip6_text ((match ws with [] => [58] | _ => [] end) ++ words_text ws ++ [58] ++ words_text ws' ++ e)
        (words_bytes ws ++ replicate (Z.to_nat n) 0 ++ words_bytes ws' ++ eb).

(** * Reading an IPv4 address *)

Lemma rd_mid (p r : mem) x : rd (p ++ [Some x] ++ r) (zlen p) = Some x.
Proof. unfold rd. pose proof (mem_read_mid p r [x]) as H. by rewrite (H : mem_read (p ++ [Some x] ++ r) (zlen p) 1 = Some [x]). Qed.

Lemma wr_mid (p r : mem) y x : mem_write (p ++ [y] ++ r) (zlen p) [x] = Some (p ++ [Some x] ++ r).
Proof. by apply (mem_write_mid p [y] r [x]). Qed.

(** The text of the numbers read so far. *)
Definition quads_text (octs : list Z) (cur : option Z) : list Z :=
  concat (map (fun o => dec o ++ [46]) octs) ++ match cur with Some c => dec c | None => [] end.

Definition octets_of (octs : list Z) (cur : option Z) : Z :=
  zlen octs + match cur with Some _ => 1 | None => 0 end.

(** [tmp] while the numbers [octs] are complete and [cur] is being read. *)
Definition tmp4_at (octs : list Z) (cur : option Z) (r : mem) : mem :=
  map Some octs ++ [Some (default 0 cur)] ++ r.

Definition seen (cur : option Z) : bool := match cur with Some _ => true | None => false end.

(** The conditions under which the loop goes on. *)
Definition digit_ok (cur : option Z) (d : Z) : Prop := cur <> Some 0 /\ default 0 cur * 10 + d <= 255.

#[global] Instance digit_ok_dec cur d : Decision (digit_ok cur d).
Proof. unfold digit_ok. apply _. Defined.

Lemma ISDIGIT_iff d : ISDIGIT d = true <-> 48 <= d <= 57.
Proof. unfold ISDIGIT, between. rewrite andb_true_iff, !Z.leb_le. done. Qed.

Lemma pton4_digit octs cur r d s : is_byte (default 0 cur) -> ISDIGIT d = true -> zlen octs <= 3 ->
  pton4_loop (d :: s) (zlen octs) (octets_of octs cur) (seen cur) (tmp4_at octs cur r) =
  if decide (digit_ok cur (d - 48)) then
    pton4_loop s (zlen octs) (octets_of octs (Some (default 0 cur * 10 + (d - 48)))) true
      (tmp4_at octs (Some (default 0 cur * 10 + (d - 48))) r)
  else Some None.
Proof.
  intros Hc Hd Ho. cbn [pton4_loop]. rewrite Hd. apply ISDIGIT_iff in Hd. unfold is_byte in Hc.
  case_if; [lia|]. unfold tmp4_at. rewrite <- (zlen_map Some octs), rd_mid. cbn [mbind option_bind].
  rewrite u32_small by (unfold UINT32_MAX; lia). rewrite wr_mid, Z.gtb_ltb. cbn [mbind option_bind].
  unfold octets_of. destruct cur as [c|]; cbn [seen default id negb andb] in *.
  - destruct (decide _) as [[H1 H2]|H]; cbn [default id] in *.
    + destruct (Z.eqb_spec c 0); [congruence|]. rewrite (proj2 (Z.ltb_ge _ _)) by lia. by rewrite u8_small by (unfold is_byte; lia).
    + destruct (Z.eqb_spec c 0); [done|]. destruct (Z.ltb_spec 255 (c * 10 + (d - 48))); [done|].
      destruct H. split; [congruence|done].
  - rewrite decide_True by (split; [done|cbn; lia]). rewrite (proj2 (Z.ltb_ge _ _)) by lia.
    rewrite u8_small by (unfold is_byte; lia). rewrite Z.gtb_ltb, (proj2 (Z.ltb_ge _ _)) by lia. by rewrite Z.add_0_r.
Qed.

Lemma pton4_dot octs cur r s : is_byte (default 0 cur) -> zlen octs + zlen r = 3 ->
  pton4_loop (46 :: s) (zlen octs) (octets_of octs cur) (seen cur) (tmp4_at octs cur r) =
  match cur with
  | Some c => if zlen octs =? 3 then Some None
      else pton4_loop s (zlen (octs ++ [c])) (octets_of (octs ++ [c]) None) false (tmp4_at (octs ++ [c]) None (tail r))
  | None => Some None
  end.
Proof.
  intros Hc Ho. cbn [pton4_loop]. change (ISDIGIT 46) with false. cbn [Z.eqb andb].
  destruct cur as [c|]; cbn [seen]; [|done]. unfold octets_of. destruct (Z.eqb_spec (zlen octs) 3) as [->|Hne]; [done|].
  rewrite (proj2 (Z.eqb_neq _ _)) by lia. unfold tmp4_at. cbn [default id].
  destruct r as [|x r]; [rewrite zlen_nil in Ho; lia|]. cbn [tail].
  replace (map Some octs ++ [Some c] ++ x :: r) with (map Some (octs ++ [c]) ++ [x] ++ r)
    by (rewrite map_app, <- app_assoc; done).
  replace (zlen octs + 1) with (zlen (octs ++ [c])) by (rewrite zlen_snoc; lia).
  rewrite <- (zlen_map Some (octs ++ [c])) at 1. rewrite wr_mid. cbn [mbind option_bind].
  by rewrite Z.add_0_r.
Qed.

Lemma pton4_loop_ctext s : forall tp o saw tmp, pton4_loop s tp o saw tmp = pton4_loop (ctext s) tp o saw tmp.
Proof.
  induction s as [|c s IH]; intros tp o saw tmp; [done|]. cbn [ctext]. destruct (Z.eqb_spec c 0) as [->|Hc]; [done|].
  cbn [pton4_loop]. rewrite (proj2 (Z.eqb_neq _ _) Hc). destruct (ISDIGIT c).
  - destruct (rd tmp tp); [|done]. cbn [mbind option_bind]. destruct (_ && _); [done|]. destruct (_ >? 255); [done|].
    destruct (mem_write _ _ _); [|done]. cbn [mbind option_bind]. destruct (negb _); [destruct (_ >? 4)|]; by rewrite ?IH.
  - destruct (_ && _); [|done]. destruct (_ =? 4); [done|]. destruct (mem_write _ _ _); [|done]. by apply IH.
Qed.

Lemma dec_small d : 0 <= d <= 9 -> dec d = [48 + d].
Proof. intros H. unfold dec. case_if; [done|lia]. Qed.

Lemma dec_snoc c d : 0 < c -> 0 <= d <= 9 -> c * 10 + d <= 255 -> dec (c * 10 + d) = dec c ++ [48 + d].
Proof.
  intros Hc Hd Hle. unfold dec. repeat case_if; try lia; cbn [app];
    repeat match goal with |- _ :: _ = _ :: _ => apply f_equal2 end; done || dlia.
Qed.

(** The conditions on the digits of a number. *)
Ltac digits := unfold digit_ok, is_byte; cbn [default id]; repeat split; try dlia; intros [=]; dlia.

(** Reading a number and what follows it. *)
Lemma pton4_number octs r b s : is_byte b -> zlen octs <= 3 ->
  pton4_loop (dec b ++ s) (zlen octs) (octets_of octs None) false (tmp4_at octs None r) =
  pton4_loop s (zlen octs) (octets_of octs (Some b)) true (tmp4_at octs (Some b) r).
Proof.
  unfold is_byte. intros Hb Ho.
  assert (Hstep : forall cur d s, is_byte (default 0 cur) -> 0 <= d <= 9 -> digit_ok cur d ->
    pton4_loop (48 + d :: s) (zlen octs) (octets_of octs cur) (seen cur) (tmp4_at octs cur r) =
    pton4_loop s (zlen octs) (octets_of octs (Some (default 0 cur * 10 + d))) true
      (tmp4_at octs (Some (default 0 cur * 10 + d)) r)).
  { intros cur d s' Hc Hd Hok. rewrite pton4_digit by (try apply ISDIGIT_iff; lia || done).
    replace (48 + d - 48) with d by lia. by rewrite decide_True. }
  unfold dec. repeat case_if; cbn [app]; rewrite (Hstep None) by digits;
    cbn [default id].
  - done.
  - rewrite (Hstep (Some _)) by digits.
    cbn [default id]. do 3 f_equal; dlia.
  - rewrite (Hstep (Some _)) by digits. cbn [default id].
    rewrite (Hstep (Some _)) by digits.
    cbn [default id]. do 3 f_equal; dlia.
Qed.

(** What the loop has read when it ends. *)
Definition pton4_read (octs : list Z) (cur : option Z) (t : list Z) (res : option (Z * mem)) : Prop :=
  match res with
  | None => True
  | Some (o, tmp) => exists octs' cur' r', bytes_ok octs' /\ is_byte (default 0 cur') /\
      zlen octs' + zlen r' = 3 /\ o = octets_of octs' cur' /\ tmp = tmp4_at octs' cur' r' /\
      quads_text octs cur ++ t = quads_text octs' cur'
  end.

Lemma quads_text_digit octs cur d : is_byte (default 0 cur) -> 48 <= d <= 57 -> digit_ok cur (d - 48) ->
  quads_text octs (Some (default 0 cur * 10 + (d - 48))) = quads_text octs cur ++ [d].
Proof.
  intros Hc Hd [Hok Hle]. unfold quads_text. rewrite <- app_assoc. f_equal.
  destruct cur as [c|]; cbn [default id] in *.
  - assert (c <> 0) by congruence. unfold is_byte in Hc. rewrite dec_snoc by lia. do 2 f_equal. lia.
  - rewrite dec_small by lia. cbn [app]. f_equal. lia.
Qed.

Lemma quads_text_dot octs c : quads_text (octs ++ [c]) None = quads_text octs (Some c) ++ [46].
Proof. unfold quads_text. rewrite map_app, concat_app. cbn. by rewrite !app_nil_r, !app_assoc. Qed.

Lemma pton4_loop_sound s : forall octs cur r, bytes_ok octs -> is_byte (default 0 cur) -> zlen octs + zlen r = 3 ->
  exists res, pton4_loop s (zlen octs) (octets_of octs cur) (seen cur) (tmp4_at octs cur r) = Some res /\
    pton4_read octs cur (ctext s) res.
Proof.
  induction s as [|c s IH]; intros octs cur r Ho Hc Hr; cbn [ctext].
  { eexists. split; [done|]. cbn. exists octs, cur, r. by rewrite app_nil_r. }
  destruct (Z.eqb_spec c 0) as [->|Hc0].
  { eexists. split; [done|]. cbn. exists octs, cur, r. by rewrite app_nil_r. }
  pose proof (zlen_nonneg r).
  destruct (ISDIGIT c) eqn:Ed.
  - rewrite pton4_digit by (done || lia). destruct (decide _) as [Hok|]; [|by eexists].
    apply ISDIGIT_iff in Ed. destruct (IH octs (Some (default 0 cur * 10 + (c - 48))) r Ho) as (res & E & Hres).
    { destruct Hok as [_ Hle]. unfold is_byte in *. cbn [default id]. lia. } { done. }
    exists res. split; [done|]. unfold pton4_read in *. destruct res as [[o tmp]|]; [|done].
    rewrite quads_text_digit, <- app_assoc in Hres by done. exact Hres.
  - destruct (Z.eqb_spec c 46) as [->|Hd].
    + rewrite pton4_dot by done. destruct cur as [c|]; [|by eexists].
      destruct (Z.eqb_spec (zlen octs) 3); [by eexists|].
      destruct (IH (octs ++ [c]) None (tail r)) as (res & E & Hres).
      { apply Forall_app_2; [done|]. by constructor. } { done. }
      { destruct r; [rewrite zlen_nil in Hr; lia|]. rewrite zlen_cons in Hr. rewrite zlen_app, zlen_cons, zlen_nil. cbn [tail]. lia. }
      exists res. split; [done|]. unfold pton4_read in *. destruct res as [[o tmp]|]; [|done].
      rewrite quads_text_dot, <- app_assoc in Hres. exact Hres.
    + exists None. split; [|done]. cbn [pton4_loop].
      by rewrite (proj2 (Z.eqb_neq c 0) Hc0), Ed, (proj2 (Z.eqb_neq c 46) Hd).
Qed.

(** Storing an address of [n] bytes. *)
Definition stored (dst : mem) (off : Z) (a : list Z) : mem :=
  ztake off dst ++ map Some a ++ zdrop (off + zlen a) dst.

Lemma mem_write_stored dst off a : 0 <= off -> off + zlen a <= zlen dst ->
  mem_write dst off a = Some (stored dst off a).
Proof.
  intros H0 H1. unfold mem_write. by rewrite (proj2 (Z.leb_le 0 off) H0), (proj2 (Z.leb_le _ _) H1).
Qed.

(** The outcome of reading an address into [dst]. *)
Definition pton_outcome (is_text : list Z -> list Z -> Prop) (t : list Z) (dst : mem) (off : Z)
    (res : mem * Z) : Prop :=
  (exists a, is_text t a /\ res = (stored dst off a, 1)) \/
  res = (dst, 0) /\ forall a, ~ is_text t a.

Lemma pton4_start s : pton4_loop s 0 0 false (tmp4_at [] None [None; None; None]) =
  pton4_loop s (zlen (@nil Z)) (octets_of [] None) (seen None) (tmp4_at [] None [None; None; None]).
Proof. done. Qed.

Lemma pton4_loop_complete s b0 b1 b2 b3 : bytes_ok [b0; b1; b2; b3] -> ctext s = quad_text b0 b1 b2 b3 ->
  pton4_loop s 0 0 false (tmp4_at [] None [None; None; None]) = Some (Some (4, map Some [b0; b1; b2; b3])).
Proof.
  intros Hb Ht. unfold bytes_ok in Hb. rewrite !Forall_cons in Hb. destruct Hb as (? & ? & ? & ? & _).
  rewrite pton4_loop_ctext, Ht, pton4_start. unfold quad_text. cbn [seen].
  rewrite pton4_number by done. cbn [app].
  rewrite (pton4_dot [] (Some b0) [None; None; None]) by done. cbn [zlen length Z.of_nat Z.eqb app tail].
  rewrite (pton4_number [b0]) by done. cbn [app]. rewrite (pton4_dot [b0] (Some b1) [None; None]) by done. cbn [zlen length Z.of_nat Z.eqb app tail].
  rewrite (pton4_number [b0; b1]) by done. cbn [app]. rewrite (pton4_dot [b0; b1] (Some b2) [None]) by done. cbn [zlen length Z.of_nat Z.eqb app tail].
  rewrite <- (app_nil_r (dec b3)). by rewrite (pton4_number [b0; b1; b2]) by done.
Qed.

Lemma pton4_complete s a dst off : ip4_text (ctext s) a -> 0 <= off -> off + 4 <= zlen dst ->
  inet_pton4 s dst off = Some (stored dst off a, 1).
Proof.
  intros (b0 & b1 & b2 & b3 & Hb & -> & Ht) H0 H1. unfold inet_pton4.
  change (mem_write (uninit INADDRSZ) 0 [0]) with (Some (tmp4_at [] None [None; None; None])). cbn [mbind option_bind].
  rewrite (pton4_loop_complete s b0 b1 b2 b3) by done. cbn [mbind option_bind Z.ltb Z.compare].
  change (mem_read _ 0 INADDRSZ) with (Some [b0; b1; b2; b3]). cbn [mbind option_bind].
  by rewrite mem_write_stored.
Qed.

Lemma pton4_spec s dst off : 0 <= off -> off + 4 <= zlen dst ->
  exists res, inet_pton4 s dst off = Some res /\ pton_outcome ip4_text (ctext s) dst off res.
Proof.
  intros H0 H1. unfold inet_pton4.
  destruct (pton4_loop_sound s [] None [None; None; None]) as (res & E & Hres); [constructor|done|done|].
  rewrite <- pton4_start in E.
  change (mem_write (uninit INADDRSZ) 0 [0]) with (Some (tmp4_at [] None [None; None; None])). cbn [mbind option_bind].
  rewrite E. cbn [mbind option_bind].
  assert (Hno : (forall o tmp, res = Some (o, tmp) -> o < 4) -> forall a, ~ ip4_text (ctext s) a).
  { intros Hr a (b0 & b1 & b2 & b3 & Hb & -> & Ht). rewrite (pton4_loop_complete s b0 b1 b2 b3) in E by done.
    injection E as <-. specialize (Hr _ _ eq_refl). lia. }
  destruct res as [[o tmp]|]; [|eexists; split; [done|]; right; split; [done|by apply Hno]].
  destruct (Z.ltb_spec o 4).
  { eexists; split; [done|]. right. split; [done|]. apply Hno. by intros ? ? [= <- <-]. }
  destruct Hres as (octs & cur & r & Hb & Hc & Hlen & -> & -> & Ht). unfold octets_of in *. pose proof (zlen_nonneg r).
  destruct cur as [c|]; [|lia]. assert (zlen octs = 3) by lia. assert (r = []) as -> by (apply zlen_0; lia).
  destruct octs as [|b0 [|b1 [|b2 [|? ?]]]]; try (unfold zlen in *; cbn in *; lia).
  change (mem_read _ 0 INADDRSZ) with (Some [b0; b1; b2; c]). cbn [mbind option_bind].
  rewrite mem_write_stored by done. eexists. split; [done|]. left. exists [b0; b1; b2; c]. split; [|done].
  exists b0, b1, b2, c. split; [by apply (Forall_app_2 _ [b0; b1; b2] [c]); [|constructor]|]. split; [done|].
  cbn [app quads_text map concat] in Ht. rewrite Ht. unfold quad_text, quads_text. cbn [map concat]. by rewrite <- !app_assoc.
Qed.

(** * Reading an IPv6 address *)

(** [tmp] with the bytes [d] in front. *)
Definition tmp6_at (d : list Z) : mem := map Some d ++ replicate (Z.to_nat (16 - zlen d)) (Some 0).

(** The variables when [d] is stored, the digits [cur] of a word are read, and
    [s] is left to read. *)
Definition p6_at (d : list Z) (g : option Z) (cur s : list Z) : pton6_vars :=
  mk_p6 (tmp6_at d) (zlen d) g (cur ++ s) (zlen cur) (digits_value 16 0 cur).

Lemma digits_value_snoc ds c acc : digits_value 16 acc (ds ++ [c]) = digits_value 16 acc ds * 16 + curlx_hexval c.
Proof. unfold digits_value. by rewrite fold_left_app. Qed.

Lemma hexval_range c : 0 <= curlx_hexval c < 16.
Proof.
  unfold curlx_hexval. change 15 with (Z.ones 4). rewrite Z.land_ones by lia. apply Z.mod_pos_bound. lia.
Qed.

Lemma digits_value_range ds : 0 <= digits_value 16 0 ds < 16 ^ zlen ds.
Proof.
  induction ds as [|c ds IH] using rev_ind; [done|]. rewrite digits_value_snoc.
  pose proof (hexval_range c). pose proof (zlen_nonneg ds).
  rewrite zlen_snoc, Z.pow_add_r by lia. lia.
Qed.

Lemma word_value ds : zlen ds <= 4 -> 0 <= digits_value 16 0 ds < 65536.
Proof.
  intros H. pose proof (digits_value_range ds) as Hv. pose proof (Z.pow_le_mono_r 16 (zlen ds) 4). lia.
Qed.

Lemma lor_digit v h : 0 <= v < 2 ^ 60 -> 0 <= h < 16 -> Z.lor (u64 (Z.shiftl v 4)) h = v * 16 + h.
Proof.
  intros Hv Hh. rewrite u64_small by (rewrite Z.shiftl_mul_pow2 by lia; unfold SIZE_MAX; lia).
  rewrite lor_shiftl_add by (cbn; lia). cbn. lia.
Qed.

Lemma pton6_hex d g cur c s : ISXDIGIT c = true -> zlen cur <= 4 ->
  pton6_loop (c :: s) (p6_at d g cur (c :: s)) =
  if zlen cur =? 4 then Some None else pton6_loop s (p6_at d g (cur ++ [c]) s).
Proof.
  intros Hc Hl. unfold p6_at at 1. cbn [pton6_loop]. rewrite Hc.
  destruct (Z.eqb_spec c 0) as [->|_]; [done|]. rewrite Z.gtb_ltb.
  destruct (Z.eqb_spec (zlen cur) 4), (Z.ltb_spec 4 (zlen cur + 1)); try lia; [done|].
  unfold p6_at. rewrite digits_value_snoc, zlen_snoc, <- app_assoc.
  rewrite lor_digit; [done| |apply hexval_range]. pose proof (word_value cur). lia.
Qed.

Lemma zlen_tmp6 d : zlen d <= 16 -> zlen (tmp6_at d) = 16.
Proof. intros H. unfold tmp6_at. rewrite zlen_app, zlen_map, zlen_replicate by lia. lia. Qed.

(** Bytes stored behind the ones that are there. *)
Lemma tmp6_stored d bs : zlen d + zlen bs <= 16 -> mem_write (tmp6_at d) (zlen d) bs = Some (tmp6_at (d ++ bs)).
Proof.
  intros H. pose proof (zlen_nonneg d). pose proof (zlen_nonneg bs).
  unfold tmp6_at. rewrite map_app, <- app_assoc.
  apply (mem_write_at _ (map Some d) (replicate (Z.to_nat (zlen bs)) (Some 0)));
    [|apply zlen_map|by rewrite zlen_replicate].
  rewrite zlen_app, <- replicate_add. do 2 f_equal. lia.
Qed.

Lemma store_word_spec d v : 0 <= v < 65536 -> zlen d + 2 <= 16 ->
  store_word (tmp6_at d) (zlen d) v = Some (tmp6_at (d ++ [v / 256; v mod 256])).
Proof.
  intros Hv Hd. unfold store_word. rewrite Z.shiftr_div_pow2 by lia. change 255 with (Z.ones 8).
  rewrite !Z.land_ones by lia. change (2 ^ 8) with 256.
  rewrite !u8_small by (unfold is_byte; dlia). rewrite (Z.mod_small (v / 256)) by dlia.
  rewrite tmp6_stored by (rewrite zlen_cons, zlen_nil; lia). cbn [mbind option_bind].
  replace (zlen d + 1) with (zlen (d ++ [v / 256])) by (rewrite zlen_snoc; lia).
  rewrite tmp6_stored by (rewrite zlen_app, !zlen_cons, zlen_nil; lia). by rewrite <- app_assoc.
Qed.

Lemma pton6_colon d g cur s : zlen cur <= 4 -> zlen d <= 16 ->
  pton6_loop (58 :: s) (p6_at d g cur (58 :: s)) =
  match cur, g with
  | [], Some _ => Some None
  | [], None => pton6_loop s (p6_at d (Some (zlen d)) [] s)
  | _, _ => if zlen d + 2 >? 16 then Some None else pton6_loop s (p6_at (d ++ word_bytes cur) g [] s)
  end.
Proof.
  intros Hc Hd. unfold p6_at at 1. cbn [pton6_loop Z.eqb]. change (ISXDIGIT 58) with false. cbn [Pos.eqb].
  destruct cur as [|c cur]; [by destruct g|].
  rewrite (proj2 (Z.eqb_neq _ _)) by (rewrite zlen_cons; pose proof (zlen_nonneg cur); lia).
  change (zlen d + INT16SZ >? endp) with (zlen d + 2 >? 16). rewrite Z.gtb_ltb. destruct (Z.ltb_spec 16 (zlen d + 2)); [done|].
  rewrite store_word_spec by (done || by apply word_value). cbn [mbind option_bind].
  unfold p6_at. rewrite zlen_app. done.
Qed.

(** The variables after an IPv4 address at the end. *)
Definition p6_quad (d a : list Z) (g : option Z) (cur s : list Z) : pton6_vars :=
  mk_p6 (tmp6_at (d ++ a)) (zlen d + 4) g (cur ++ s) 0 (digits_value 16 0 cur).

Lemma stored_tmp6 d a : zlen d + zlen a <= 16 -> stored (tmp6_at d) (zlen d) a = tmp6_at (d ++ a).
Proof.
  intros H. pose proof (tmp6_stored d a H) as E. pose proof (zlen_nonneg d). pose proof (zlen_nonneg a).
  rewrite mem_write_stored in E by (rewrite ?zlen_tmp6; lia). congruence.
Qed.

Lemma pton6_dot d g cur s : zlen cur <= 4 -> zlen d <= 16 ->
  exists res, pton6_loop (46 :: s) (p6_at d g cur (46 :: s)) = Some res /\
    ((exists a, res = Some (p6_quad d a g cur (46 :: s)) /\ zlen d + 4 <= 16 /\ ip4_text (ctext (cur ++ 46 :: s)) a) \/
     res = None /\ (zlen d + 4 <= 16 -> forall a, ~ ip4_text (ctext (cur ++ 46 :: s)) a)).
Proof.
  intros Hc Hd. unfold p6_at at 1. cbn [pton6_loop Z.eqb Pos.eqb]. change (ISXDIGIT 46) with false. cbn [andb].
  change (zlen d + INADDRSZ <=? endp) with (zlen d + 4 <=? 16). destruct (Z.leb_spec (zlen d + 4) 16); [|eexists; split; [done|]; right; split; [done|lia]].
  destruct (pton4_spec (cur ++ 46 :: s) (tmp6_at d) (zlen d)) as (res & E & Hres); [apply zlen_nonneg|rewrite zlen_tmp6; lia|].
  rewrite E. cbn [mbind option_bind]. destruct Hres as [(a & Ha & ->)|[-> Hno]].
  - eexists. split; [done|]. left. exists a. split; [|done]. unfold p6_quad. do 2 f_equal.
    apply stored_tmp6. by destruct Ha as (? & ? & ? & ? & _ & -> & _).
  - eexists. split; [done|]. by right.
Qed.

(** The shift moves the bytes behind the gap to the end. *)
Lemma shift_loop_spec (A : mem) (z : nat) X : (0 < z)%nat -> forall B i,
  zlen B = i - 1 -> zlen A + zlen X + Z.of_nat z + zlen B = 16 ->
  shift_loop (length X) i (zlen A) (zlen X + (i - 1)) (A ++ map Some X ++ replicate z (Some 0) ++ B) =
  Some (A ++ replicate z (Some 0) ++ map Some X ++ B).
Proof.
  intros Hz. induction X as [|x X IH] using rev_ind; intros B i HB Hlen; [done|].
  rewrite length_app, Nat.add_comm. cbn [length Nat.add shift_loop]. rewrite zlen_snoc in *.
  pose proof (zlen_nonneg A). pose proof (zlen_nonneg X). pose proof (zlen_nonneg B).
  replace (zlen A + (zlen X + 1 + (i - 1)) - i) with (zlen (A ++ map Some X)) by (rewrite zlen_app, zlen_map; lia).
  set (m := A ++ map Some (X ++ [x]) ++ replicate z (Some 0) ++ B).
  assert (E1 : m = (A ++ map Some X) ++ [Some x] ++ replicate z (Some 0) ++ B)
    by (unfold m; rewrite map_app, <- !app_assoc; done).
  assert (E2 : m = (A ++ map Some X ++ [Some x] ++ replicate (z - 1) (Some 0)) ++ [Some 0] ++ B).
  { unfold m. rewrite map_app, <- !app_assoc. do 3 f_equal. rewrite !app_assoc. f_equal.
    rewrite <- replicate_S_end. cbn [app]. do 2 f_equal. destruct z; [lia|]. cbn. f_equal. lia. }
  rewrite E1 at 1. rewrite rd_mid. cbn [mbind option_bind]. rewrite E2.
  replace (endp - i) with (zlen (A ++ map Some X ++ [Some x] ++ replicate (z - 1) (Some 0)))
    by (rewrite !zlen_app, zlen_map, zlen_cons, zlen_nil; unfold zlen at 3; rewrite length_replicate; unfold endp, IN6ADDRSZ; lia).
  rewrite wr_mid. cbn [mbind option_bind].
  replace ((A ++ map Some X ++ [Some x] ++ replicate (z - 1) (Some 0)) ++ [Some x] ++ B)
    with ((A ++ map Some X) ++ [Some x] ++ replicate (z - 1) (Some 0) ++ Some x :: B)
    by (rewrite <- !app_assoc; done).
  rewrite wr_mid. cbn [mbind option_bind].
  replace ((A ++ map Some X) ++ [Some 0] ++ replicate (z - 1) (Some 0) ++ Some x :: B)
    with (A ++ map Some X ++ replicate z (Some 0) ++ Some x :: B)
    by (rewrite <- !app_assoc; destruct z; [lia|]; cbn; do 3 f_equal; do 2 f_equal; lia).
  replace (zlen X + 1 + (i - 1)) with (zlen X + (i + 1 - 1)) by lia.
  rewrite IH by (rewrite ?zlen_cons; lia). by rewrite map_app, <- app_assoc.
Qed.

(** The end of the function when [d] is all there is. *)
Definition fin (d : list Z) (g : option Z) (dst : mem) : option (mem * Z) :=
  pton6_finish (p6_at d g [] []) dst.

Lemma finish_word d g cur s dst : zlen d <= 16 -> zlen cur <= 4 -> cur <> [] ->
  pton6_finish (p6_at d g cur s) dst = if zlen d + 2 >? 16 then Some (dst, 0) else fin (d ++ word_bytes cur) g dst.
Proof.
  intros Hd Hc Hne. unfold p6_at, pton6_finish. destruct (Z.eqb_spec (zlen cur) 0) as [?%zlen_0|_]; [done|]. cbn [negb andb].
  change (zlen d + INT16SZ >? endp) with (zlen d + 2 >? 16). rewrite Z.gtb_ltb. destruct (Z.ltb_spec 16 (zlen d + 2)); [done|].
  rewrite store_word_spec by (done || by apply word_value). cbn [mbind option_bind].
  unfold fin, p6_at. unfold pton6_finish. by rewrite zlen_app.
Qed.

Lemma fin_eq d g dst : fin d g dst =
  match g with
  | Some c =>
      if zlen d =? 16 then Some (dst, 0)
      else
        tmp ← shift_loop (Z.to_nat (zlen d - c)) 1 c (zlen d - c) (tmp6_at d);
        a ← mem_read tmp 0 16; dst ← mem_write dst 0 a; Some (dst, 1)
  | None =>
      if negb (zlen d =? 16) then Some (dst, 0)
      else a ← mem_read (tmp6_at d) 0 16; dst ← mem_write dst 0 a; Some (dst, 1)
  end.
Proof. by destruct g. Qed.

Lemma finish_colon d g s dst : pton6_finish (p6_at d g [] s) dst = fin d g dst.
Proof. done. Qed.

Lemma finish_quad d a g cur s dst : zlen a = 4 -> pton6_finish (p6_quad d a g cur s) dst = fin (d ++ a) g dst.
Proof. intros Ha. unfold fin, p6_quad, p6_at, pton6_finish. by rewrite zlen_app, Ha. Qed.

Lemma mem_read_all d : mem_read (map Some d) 0 (zlen d) = Some d.
Proof. pose proof (mem_read_mid [] [] d) as H. cbn [app] in H. by rewrite app_nil_r in H. Qed.

Lemma fin_full d dst : zlen d <= 16 -> 16 <= zlen dst ->
  fin d None dst = if zlen d =? 16 then Some (stored dst 0 d, 1) else Some (dst, 0).
Proof.
  intros Hd Hdst. rewrite fin_eq. destruct (Z.eqb_spec (zlen d) 16) as [E|]; [|done].
  cbn [negb]. unfold tmp6_at. rewrite E. cbn [Z.sub Z.opp Z.add Z.pos_sub Z.to_nat replicate]. rewrite app_nil_r.
  rewrite <- E, mem_read_all. cbn [mbind option_bind].
  by rewrite mem_write_stored by lia.
Qed.

Lemma fin_gap d1 d2 dst : zlen d1 + zlen d2 <= 16 -> 16 <= zlen dst ->
  fin (d1 ++ d2) (Some (zlen d1)) dst =
  if zlen d1 + zlen d2 =? 16 then Some (dst, 0)
  else Some (stored dst 0 (d1 ++ replicate (Z.to_nat (16 - zlen d1 - zlen d2)) 0 ++ d2), 1).
Proof.
  intros Hd Hdst. pose proof (zlen_nonneg d1). pose proof (zlen_nonneg d2).
  rewrite fin_eq, zlen_app.
  destruct (Z.eqb_spec (zlen d1 + zlen d2) 16) as [E|]; [done|].
  set (z := Z.to_nat (16 - zlen d1 - zlen d2)).
  pose proof (shift_loop_spec (map Some d1) z d2 ltac:(lia) [] 1) as Hs. rewrite !app_nil_r, zlen_map, zlen_nil in Hs.
  replace (zlen d2 + (1 - 1)) with (zlen d2) in Hs by lia.
  replace (Z.to_nat (zlen d1 + zlen d2 - zlen d1)) with (length d2) by (unfold zlen; lia).
  replace (zlen d1 + zlen d2 - zlen d1) with (zlen d2) by lia.
  unfold tmp6_at. rewrite map_app, <- app_assoc, zlen_app.
  replace (Z.to_nat (16 - (zlen d1 + zlen d2))) with z by lia. rewrite Hs by lia. cbn [mbind option_bind].
  replace (map Some d1 ++ replicate z (Some 0) ++ map Some d2) with (map Some (d1 ++ replicate z 0 ++ d2))
    by (rewrite !map_app, <- fmap_replicate; done).
  assert (El : zlen (d1 ++ replicate z 0 ++ d2) = 16) by (rewrite !zlen_app; unfold z; rewrite zlen_replicate; lia).
  rewrite <- El, mem_read_all. cbn [mbind option_bind]. by rewrite mem_write_stored by lia.
Qed.

(** Nothing, or a NUL. *)
Definition ended (r : list Z) : Prop := r = [] \/ exists r', r = 0 :: r'.

Lemma ctext_split s : exists r, s = ctext s ++ r /\ ended r.
Proof.
  induction s as [|c s (r & Hr & He)]; [exists []; by split; [|left]|]. cbn [ctext]. destruct (Z.eqb_spec c 0) as [->|].
  - exists (0 :: s). split; [done|]. right. by eexists.
  - exists r. split; [by cbn; rewrite <- Hr|done].
Qed.

Lemma ctext_app t r : Forall (fun c => c <> 0) t -> ended r -> ctext (t ++ r) = t.
Proof.
  intros Ht Hr. induction Ht as [|c t Hc _ IH]; [by destruct Hr as [->|[r' ->]]|].
  cbn [app ctext]. by rewrite (proj2 (Z.eqb_neq _ _) Hc), IH.
Qed.

Lemma pton6_ended r d g cur : ended r -> pton6_loop r (p6_at d g cur r) = Some (Some (p6_at d g cur r)).
Proof. by intros [->|[r' ->]]. Qed.

Lemma ISXDIGIT_nonzero c : ISXDIGIT c = true -> c <> 0 /\ c <> 58 /\ c <> 46.
Proof. intros H. split_and!; by intros ->. Qed.

Lemma pton6_hexes w : forall d g cur s, Forall (fun c => ISXDIGIT c = true) w -> zlen cur + zlen w <= 4 ->
  pton6_loop (w ++ s) (p6_at d g cur (w ++ s)) = pton6_loop s (p6_at d g (cur ++ w) s).
Proof.
  induction w as [|c w IH]; intros d g cur s Hw Hl; [by rewrite app_nil_r|].
  apply Forall_cons in Hw as [Hc Hw]. rewrite zlen_cons in Hl. pose proof (zlen_nonneg w). cbn [app].
  rewrite pton6_hex by (done || lia). rewrite (proj2 (Z.eqb_neq _ _)) by lia.
  rewrite IH by (done || rewrite zlen_snoc; lia). by rewrite <- app_assoc.
Qed.

Lemma pton6_word w d g s : Forall (fun c => ISXDIGIT c = true) w -> zlen w <= 4 ->
  pton6_loop (w ++ s) (p6_at d g [] (w ++ s)) = pton6_loop s (p6_at d g w s).
Proof. intros Hw Hl. by apply (pton6_hexes w d g []). Qed.

Lemma zlen_words_bytes ws : zlen (words_bytes ws) = 2 * zlen ws.
Proof.
  induction ws as [|w ws IH]; [done|]. unfold words_bytes in *. cbn [map concat]. rewrite zlen_app, IH, zlen_cons.
  change (zlen (word_bytes w)) with 2. lia.
Qed.

Lemma pton6_words ws : forall d g s, Forall hexword ws -> zlen d + zlen (words_bytes ws) <= 16 ->
  pton6_loop (words_text ws ++ s) (p6_at d g [] (words_text ws ++ s)) =
  pton6_loop s (p6_at (d ++ words_bytes ws) g [] s).
Proof.
  induction ws as [|w ws IH]; intros d g s Hw Hl; [by rewrite app_nil_r|].
  apply Forall_cons in Hw as [[Hw Hx] Hws]. unfold words_text, words_bytes in *. cbn [map concat] in *.
  rewrite zlen_app in Hl. change (zlen (word_bytes w)) with 2 in Hl. pose proof (zlen_nonneg (concat (map word_bytes ws))).
  rewrite <- !app_assoc, pton6_word by (done || lia). cbn [app].
  rewrite pton6_colon by lia. destruct w as [|c w]; [rewrite zlen_nil in Hw; lia|].
  rewrite Z.gtb_ltb, (proj2 (Z.ltb_ge _ _)) by lia.
  rewrite IH, <- app_assoc; [done|done|]. rewrite zlen_app. change (zlen (word_bytes (c :: w))) with 2. lia.
Qed.

Lemma ip4_text_fun t a a' : Forall (fun c => c <> 0) t -> ip4_text t a -> ip4_text t a' -> a = a'.
Proof.
  intros Ht (b0 & b1 & b2 & b3 & Hb & -> & E) (c0 & c1 & c2 & c3 & Hc & -> & E').
  assert (Hct : ctext t = t) by (rewrite <- (app_nil_r t) at 1; by apply ctext_app; [|left]).
  pose proof (pton4_loop_complete t b0 b1 b2 b3 Hb (eq_trans Hct E)) as H1.
  pose proof (pton4_loop_complete t c0 c1 c2 c3 Hc (eq_trans Hct E')) as H2.
  rewrite H1 in H2. by injection H2 as -> -> -> ->.
Qed.

Lemma dec_digits b : is_byte b -> Forall (fun c => 48 <= c <= 57) (dec b) /\ 1 <= zlen (dec b) <= 3.
Proof.
  unfold is_byte, dec. intros Hb. repeat case_if; (split; [rewrite !Forall_cons, Forall_nil; dlia|unfold zlen; cbn [length]; lia]).
Qed.

Lemma digits_hex l : Forall (fun c => 48 <= c <= 57) l -> Forall (fun c => ISXDIGIT c = true) l.
Proof.
  intros H. eapply Forall_impl; [exact H|]. intros c Hc. cbn in Hc. unfold ISXDIGIT. by rewrite (proj2 (ISDIGIT_iff c) Hc).
Qed.

Lemma quad_text_nonzero a b c d : bytes_ok [a; b; c; d] -> Forall (fun c => c <> 0) (quad_text a b c d).
Proof.
  intros H. unfold bytes_ok in H. rewrite !Forall_cons in H. destruct H as (? & ? & ? & ? & _).
  assert (Hd : forall x, is_byte x -> Forall (fun c => c <> 0) (dec x)).
  { intros x Hx. eapply Forall_impl; [apply (dec_digits x Hx)|]. cbn. lia. }
  unfold quad_text. repeat (apply Forall_app_2; [by apply Hd|]; apply Forall_cons_2; [done|]). by apply Hd.
Qed.

Lemma ip6_end_nonzero e eb : ip6_end e eb -> Forall (fun c => c <> 0) e /\ zlen eb <= 4.
Proof.
  intros [|w [_ Hw]|t a (b0 & b1 & b2 & b3 & Hb & -> & ->)].
  - done.
  - split; [|done]. eapply Forall_impl; [exact Hw|]. intros c Hc. by apply ISXDIGIT_nonzero.
  - split; [|done]. by apply quad_text_nonzero.
Qed.

Lemma pton6_end e eb r d g : ip6_end e eb -> ended r -> zlen d + zlen eb <= 16 ->
  exists v, pton6_loop (e ++ r) (p6_at d g [] (e ++ r)) = Some (Some v) /\
    forall dst, pton6_finish v dst = fin (d ++ eb) g dst.
Proof.
  intros He Hr Hl. destruct He as [|w [Hw Hx]|t a Ha].
  - eexists. split; [by apply pton6_ended|]. intros dst. by rewrite app_nil_r.
  - rewrite pton6_word by (done || lia). eexists. split; [by apply pton6_ended|]. intros dst.
    change (zlen (word_bytes w)) with 2 in Hl.
    rewrite finish_word by (lia || intros ->; rewrite zlen_nil in Hw; lia). by rewrite Z.gtb_ltb, (proj2 (Z.ltb_ge _ _)) by lia.
  - destruct Ha as (b0 & b1 & b2 & b3 & Hb & -> & ->) eqn:Ea. clear Ea. change (zlen [b0; b1; b2; b3]) with 4 in Hl.
    pose proof (quad_text_nonzero _ _ _ _ Hb) as Hnz.
    pose proof Hb as Hb'. unfold bytes_ok in Hb'. apply Forall_cons in Hb' as [Hb0 _].
    destruct (dec_digits b0 Hb0) as [Hd Hdl]. pose proof (zlen_nonneg d).
    set (s := dec b1 ++ [46] ++ dec b2 ++ [46] ++ dec b3 ++ r).
    replace (quad_text b0 b1 b2 b3 ++ r) with (dec b0 ++ 46 :: s) by (unfold quad_text, s; rewrite <- !app_assoc; done).
    rewrite pton6_word by (try (by apply digits_hex); lia).
    destruct (pton6_dot d g (dec b0) s) as (res & E & Hres); [lia|lia|].
    replace (ctext (dec b0 ++ 46 :: s)) with (quad_text b0 b1 b2 b3) in Hres.
    2:{ symmetry. rewrite <- (ctext_app (quad_text b0 b1 b2 b3) r Hnz Hr). unfold quad_text, s. by rewrite <- !app_assoc. }
    assert (Hq : ip4_text (quad_text b0 b1 b2 b3) [b0; b1; b2; b3]) by (by exists b0, b1, b2, b3).
    destruct Hres as [(a & -> & _ & Hqa)|[_ Hno]]; [|by destruct (Hno ltac:(lia) _ Hq)].
    pose proof (ip4_text_fun _ _ _ Hnz Hqa Hq) as ->. eexists. split; [exact E|]. intros dst. by apply finish_quad.
Qed.

Lemma hexword_head w : hexword w -> exists c w', w = c :: w' /\ c <> 58.
Proof.
  intros [Hl Hw]. destruct w as [|c w']; [rewrite zlen_nil in Hl; lia|].
  apply Forall_cons in Hw as [Hc _]. exists c, w'. split; [done|]. by apply ISXDIGIT_nonzero.
Qed.

Lemma words_text_head ws s : Forall hexword ws -> ws <> [] -> deref (words_text ws ++ s) <> 58.
Proof.
  intros Hws Hne. destruct ws as [|w ws]; [done|]. apply Forall_cons in Hws as [Hw _].
  destruct (hexword_head w Hw) as (c & w' & -> & Hc). done.
Qed.

Lemma pton6_begin s dst src : (if deref s =? 58 then deref (tail s) = 58 /\ src = tail s else src = s) ->
  inet_pton6 s dst =
    r ← pton6_loop src (p6_at [] None [] src);
    match r with None => Some (dst, 0) | Some v => pton6_finish v dst end.
Proof.
  intros H. unfold inet_pton6. change (mem_write (uninit IN6ADDRSZ) 0 (replicate 16 0)) with (Some (tmp6_at [])).
  cbn [mbind option_bind]. destruct (deref s =? 58); [destruct H as [-> ->]|subst]; done.
Qed.

Lemma pton6_complete s a dst : ip6_text (ctext s) a -> 16 <= zlen dst ->
  inet_pton6 s dst = Some (stored dst 0 a, 1).
Proof.
  intros Ht Hdst. destruct (ctext_split s) as (r & Hs & Hr). remember (ctext s) as t eqn:Et. clear Et.
  destruct Ht as [ws e eb Hws He Hl|ws ws' e eb n Hws Hws' He Hn Hl].
  - destruct (ip6_end_nonzero e eb He) as [_ Hle]. rewrite <- app_assoc in Hs.
    assert (Hne : ws <> []) by (intros ->; cbn [words_bytes map concat app] in Hl; lia).
    rewrite (pton6_begin s dst s) by (rewrite (proj2 (Z.eqb_neq _ _)); [done|]; rewrite Hs; by apply words_text_head).
    rewrite zlen_app in Hl. pose proof (zlen_nonneg eb). rewrite Hs, pton6_words by (done || rewrite zlen_nil; lia).
    cbn [app]. destruct (pton6_end e eb r (words_bytes ws) None He Hr) as (v & E & Hf); [lia|].
    rewrite E. cbn [mbind option_bind]. rewrite Hf, fin_full by (rewrite ?zlen_app; lia). by rewrite zlen_app, Hl.
  - rewrite zlen_app in Hl. pose proof (zlen_nonneg eb). pose proof (zlen_nonneg (words_bytes ws')). pose proof (zlen_nonneg (words_bytes ws)).
    set (s' := words_text ws ++ [58] ++ words_text ws' ++ e ++ r).
    rewrite (pton6_begin s dst s').
    2:{ unfold s'. destruct ws as [|w ws]; [by rewrite Hs, <- !app_assoc|].
        rewrite (proj2 (Z.eqb_neq _ _)); [by rewrite Hs, <- !app_assoc|].
        rewrite Hs. cbn [app]. rewrite <- app_assoc. by apply words_text_head. }
    unfold s'. rewrite pton6_words by (done || rewrite zlen_nil; lia). cbn [app].
    rewrite pton6_colon by (rewrite ?zlen_nil; lia). rewrite pton6_words by (done || lia).
    destruct (pton6_end e eb r (words_bytes ws ++ words_bytes ws') (Some (zlen (words_bytes ws))) He Hr) as (v & E & Hf);
      [rewrite zlen_app; lia|].
    rewrite E. cbn [mbind option_bind]. rewrite Hf, <- app_assoc, fin_gap by (rewrite ?zlen_app; lia).
    rewrite zlen_app, (proj2 (Z.eqb_neq _ _)) by lia. do 6 f_equal. lia.
Qed.

(** What the loop has read: whole words, a gap, and digits of a word. *)
Inductive p6_shape : list Z -> list Z -> option Z -> Prop :=
  | Shape_plain ws : Forall hexword ws -> p6_shape (words_text ws) (words_bytes ws) None
  | Shape_gap ws ws' : Forall hexword ws -> Forall hexword ws' ->
      p6_shape (words_text ws ++ [58] ++ words_text ws') (words_bytes ws ++ words_bytes ws')
        (Some (zlen (words_bytes ws))).

Definition p6_read (t d : list Z) (g : option Z) (cur : list Z) : Prop :=
  zlen cur <= 4 /\ Forall (fun c => ISXDIGIT c = true) cur /\ zlen d <= 16 /\
  exists t0, t = t0 ++ cur /\ p6_shape t0 d g.

Lemma shape_word t d g w : p6_shape t d g -> hexword w -> p6_shape (t ++ w ++ [58]) (d ++ word_bytes w) g.
Proof.
  assert (Ht : forall ws, words_text (ws ++ [w]) = words_text ws ++ w ++ [58])
    by (intros; unfold words_text; rewrite map_app, concat_app; cbn; by rewrite app_nil_r).
  assert (Hb : forall ws, words_bytes (ws ++ [w]) = words_bytes ws ++ word_bytes w)
    by (intros; unfold words_bytes; by rewrite map_app, concat_app).
  assert (Hok : forall ws, Forall hexword ws -> hexword w -> Forall hexword (ws ++ [w]))
    by (intros; apply Forall_app_2; [done|by constructor]).
  intros [ws Hws|ws ws' Hws Hws'] Hw.
  - rewrite <- Ht, <- Hb. constructor. by apply Hok.
  - rewrite <- !app_assoc, <- Ht, <- Hb. constructor; [done|by apply Hok].
Qed.

Lemma shape_gap t d : p6_shape t d None -> p6_shape (t ++ [58]) d (Some (zlen d)).
Proof.
  intros H. inversion H as [ws Hws|]; subst. rewrite <- (app_nil_r (words_bytes ws)) at 1.
  by apply (Shape_gap ws []).
Qed.

(** What the rest of the function makes of the variables the loop ends with. *)
Definition p6_ends (t : list Z) (v : pton6_vars) : Prop :=
  exists t0 d g e eb, t = t0 ++ e /\ p6_shape t0 d g /\ zlen d <= 16 /\ ip6_end e eb /\
    forall dst, pton6_finish v dst = if zlen d + zlen eb >? 16 then Some (dst, 0) else fin (d ++ eb) g dst.

Lemma read_ends t d g cur s : p6_read t d g cur -> p6_ends t (p6_at d g cur s).
Proof.
  intros (Hl & Hx & Hd & t0 & -> & Hs). exists t0, d, g. destruct cur as [|c cur].
  - exists [], []. split_and!; [done|done|done|constructor|]. intros dst.
    rewrite zlen_nil, Z.gtb_ltb, (proj2 (Z.ltb_ge _ _)), app_nil_r by lia. apply finish_colon.
  - exists (c :: cur), (word_bytes (c :: cur)). split_and!; [done|done|done| |].
    + constructor. split; [|done]. rewrite zlen_cons in *. pose proof (zlen_nonneg cur). lia.
    + intros dst. by rewrite finish_word.
Qed.

Lemma pton6_loop_sound s : forall t d g cur, p6_read t d g cur ->
  exists res, pton6_loop s (p6_at d g cur s) = Some res /\
    match res with None => True | Some v => p6_ends (t ++ ctext s) v end.
Proof.
  induction s as [|c s IH]; intros t d g cur Hr; cbn [ctext].
  { eexists. split; [by apply pton6_ended; left|]. rewrite app_nil_r. by apply read_ends. }
  destruct (Z.eqb_spec c 0) as [->|Hc0].
  { eexists. split; [apply pton6_ended; right; by eexists|]. rewrite app_nil_r. by apply read_ends. }
  pose proof Hr as (Hl & Hx & Hd & t0 & Ht & Hs).
  destruct (ISXDIGIT c) eqn:Ex.
  { rewrite pton6_hex by done. destruct (Z.eqb_spec (zlen cur) 4); [by eexists|].
    destruct (IH (t ++ [c]) d g (cur ++ [c])) as (res & E & Hres).
    { split_and!; [rewrite zlen_snoc; lia|apply Forall_app_2; [done|by constructor]|done|].
      exists t0. by rewrite Ht, <- app_assoc. }
    exists res. by rewrite <- app_assoc in Hres. }
  destruct (Z.eqb_spec c 58) as [->|Hc58].
  { rewrite pton6_colon by done. 
    assert (Hstep : forall d' g', zlen d' <= 16 -> p6_shape (t ++ [58]) d' g' -> exists res,
      pton6_loop s (p6_at d' g' [] s) = Some res /\ match res with None => True | Some v => p6_ends (t ++ 58 :: ctext s) v end).
    { intros d' g' Hd' Hs'. destruct (IH (t ++ [58]) d' g' []) as (res & E & Hres).
      - split_and!; [by cbn|constructor|done|]. exists (t ++ [58]). by rewrite app_nil_r.
      - exists res. by rewrite <- app_assoc in Hres. }
    destruct cur as [|x cur].
    - rewrite app_nil_r in Ht. subst t0. destruct g; [by eexists|]. apply Hstep; [done|by apply shape_gap].
    - rewrite Z.gtb_ltb. destruct (Z.ltb_spec 16 (zlen d + 2)); [by eexists|]. apply Hstep.
      + rewrite zlen_app. change (zlen (word_bytes (x :: cur))) with 2. lia.
      + rewrite Ht, <- app_assoc. apply shape_word; [done|]. split; [|done]. rewrite zlen_cons in *. pose proof (zlen_nonneg cur). lia. }
  destruct (Z.eqb_spec c 46) as [->|Hc46].
  - destruct (pton6_dot d g cur s Hl Hd) as (res & E & Hres). exists res. split; [done|].
    destruct Hres as [(a & -> & Hroom & Ha)|[-> _]]; [|done].
    exists t0, d, g, (ctext (cur ++ 46 :: s)), a. split_and!; [|done|done|by constructor|].
    + rewrite Ht, <- app_assoc. f_equal. clear -Hx. induction Hx as [|c cur Hc _ IH]; [done|].
      cbn [app ctext]. destruct (ISXDIGIT_nonzero c Hc) as [Hc0 _]. by rewrite (proj2 (Z.eqb_neq _ _) Hc0), <- IH.
    + intros dst. assert (zlen a = 4) by (by destruct Ha as (? & ? & ? & ? & _ & -> & _)).
      rewrite Z.gtb_ltb, (proj2 (Z.ltb_ge _ _)) by lia. by apply finish_quad.
  - exists None. split; [|done]. unfold p6_at. cbn [pton6_loop].
    by rewrite (proj2 (Z.eqb_neq c 0) Hc0), Ex, (proj2 (Z.eqb_neq c 58) Hc58), (proj2 (Z.eqb_neq c 46) Hc46).
Qed.

(** The texts a function of the loop's end stores an address for. *)
Lemma fin_outcome t0 d g e eb lead dst : p6_shape t0 d g -> ip6_end e eb -> zlen d + zlen eb <= 16 -> 16 <= zlen dst ->
  lead = (match t0 with 58 :: _ => [58] | _ => [] end) ->
  exists res, fin (d ++ eb) g dst = Some res /\
    (res = (dst, 0) \/ exists a, ip6_text (lead ++ t0 ++ e) a /\ res = (stored dst 0 a, 1)).
Proof.
  intros Hs He Hl Hdst ->. pose proof (zlen_nonneg eb). destruct Hs as [ws Hws|ws ws' Hws Hws'].
  - rewrite fin_full by (rewrite ?zlen_app; lia). destruct (Z.eqb_spec (zlen (words_bytes ws ++ eb)) 16); [|eexists; split; [done|by left]].
    eexists. split; [done|]. right. exists (words_bytes ws ++ eb). split; [|done].
    destruct ws as [|w ws].
    + change (zlen (words_bytes [] ++ eb)) with (zlen eb) in *. destruct (ip6_end_nonzero e eb He). lia.
    + pose proof (words_text_head (w :: ws) [] Hws ltac:(done)) as Hh. rewrite app_nil_r in Hh.
      destruct (words_text (w :: ws)) as [|c l] eqn:E; [by destruct w|].
      replace (match c with 58 => [58] | _ => [] end) with (@nil Z) by (destruct c as [|p|]; try done; repeat (destruct p; try done)).
      rewrite <- E. cbn [app]. by constructor.
  - rewrite <- app_assoc, fin_gap by (rewrite ?zlen_app in *; lia). rewrite !zlen_app in *.
    destruct (Z.eqb_spec (zlen (words_bytes ws) + (zlen (words_bytes ws') + zlen eb)) 16); [eexists; split; [done|by left]|].
    eexists. split; [done|]. right. eexists. split; [|done].
    replace (match _ with 58 :: _ => [58] | _ => [] end) with (match ws with [] => [58] | _ => @nil Z end).
    + rewrite <- !app_assoc. apply Ip6_gap; try done; [lia|]. rewrite zlen_app. lia.
    + destruct ws as [|w ws]; [done|].
      pose proof (words_text_head (w :: ws) ([58] ++ words_text ws') Hws ltac:(done)) as Hh.
      destruct (words_text (w :: ws) ++ [58] ++ words_text ws') as [|c l]; [done|].
      destruct c as [|p|]; try done; repeat (destruct p; try done).
Qed.

Lemma ip6_end_head e eb : ip6_end e eb -> deref e <> 58.
Proof.
  intros [|w Hw|t a (b0 & b1 & b2 & b3 & Hb & -> & ->)]; [done|by destruct (hexword_head w Hw) as (c & w' & -> & Hc)|].
  unfold bytes_ok in Hb. apply Forall_cons in Hb as [Hb _]. destruct (dec_digits b0 Hb) as [Hd Hl]. unfold quad_text.
  destruct (dec b0) as [|c l]; [rewrite zlen_nil in Hl; lia|]. apply Forall_cons in Hd as [Hc _]. cbn in *. lia.
Qed.

Lemma deref_ctext s : deref (ctext s) = deref s.
Proof. destruct s as [|c s]; [done|]. cbn. by destruct (Z.eqb_spec c 0) as [->|]. Qed.

Lemma pton6_spec s dst : 16 <= zlen dst ->
  exists res, inet_pton6 s dst = Some res /\ pton_outcome ip6_text (ctext s) dst 0 res.
Proof.
  intros Hdst.
  assert (Hneg : forall res, inet_pton6 s dst = Some res -> res = (dst, 0) -> forall a, ~ ip6_text (ctext s) a).
  { intros res E -> a Ha. rewrite (pton6_complete s a dst) in E by done. by injection E. }
  assert (Hgo : forall lead src, (if deref s =? 58 then deref (tail s) = 58 /\ src = tail s else src = s) ->
    lead = (if deref s =? 58 then [58] else []) ->
    exists res, inet_pton6 s dst = Some res /\ (res = (dst, 0) \/ exists a, ip6_text (lead ++ ctext src) a /\ res = (stored dst 0 a, 1))).
  { intros lead src Hsrc Hlead. rewrite (pton6_begin s dst src Hsrc).
    destruct (pton6_loop_sound src [] [] None []) as (res & E & Hres).
    { split_and!; [by cbn|constructor|by cbn|]. exists []. split; [done|]. by apply (Shape_plain []). }
    rewrite E. cbn [mbind option_bind]. destruct res as [v|]; [|eexists; split; [done|by left]].
    destruct Hres as (t0 & d & g & e & eb & Ht & Hs & Hd & He & Hf). cbn [app] in Ht. rewrite Hf, Z.gtb_ltb.
    destruct (Z.ltb_spec 16 (zlen d + zlen eb)); [eexists; split; [done|by left]|].
    rewrite Ht. apply fin_outcome; try done.
    pose proof (ip6_end_head e eb He) as Hhe.
    assert (Hh : deref (t0 ++ e) = deref src) by (by rewrite <- Ht, deref_ctext).
    subst lead. destruct (Z.eqb_spec (deref s) 58) as [E58|N58].
    - destruct Hsrc as [H58 ->]. destruct t0 as [|c t0]; [cbn in Hh; congruence|]. cbn in Hh. by rewrite Hh, H58.
    - subst src. destruct t0 as [|c t0]; [done|]. cbn in Hh. 
      destruct c as [|p|]; try done; repeat (destruct p; try done). }
  destruct (Z.eqb_spec (deref s) 58) as [E58|N58].
  - destruct (Z.eqb_spec (deref (tail s)) 58) as [T58|Tn58].
    + destruct (Hgo [58] (tail s)) as (res & E & Hres); [done|done|]. exists res. split; [done|].
      destruct Hres as [->|(a & Ha & ->)]; [right; split; [done|by apply (Hneg _ E)]|]. left. exists a. split; [|done].
      destruct s as [|c s]; [done|]. cbn [deref] in E58. subst c. exact Ha.
    + assert (E : inet_pton6 s dst = Some (dst, 0)).
      { unfold inet_pton6. change (mem_write (uninit IN6ADDRSZ) 0 (replicate 16 0)) with (Some (tmp6_at [])). cbn [mbind option_bind].
        by rewrite (proj2 (Z.eqb_eq _ _) E58), (proj2 (Z.eqb_neq _ _) Tn58). }
      eexists. split; [exact E|]. right. split; [done|by apply (Hneg _ E)].
  - destruct (Hgo [] s) as (res & E & Hres); [done|done|]. exists res. split; [done|].
    destruct Hres as [->|(a & Ha & ->)]; [right; split; [done|by apply (Hneg _ E)]|]. left. by exists a.
Qed.

(** * The text of an address *)

(** A hexadecimal digit, and a 16-bit number without leading zeroes. *)
Definition dig (d : Z) : Z := if d <? 10 then 48 + d else 87 + d.

Definition hex (w : Z) : list Z :=
  (if w <? 4096 then [] else [dig (w / 4096)]) ++ (if w <? 256 then [] else [dig (w / 256 mod 16)]) ++
  (if w <? 16 then [] else [dig (w / 16 mod 16)]) ++ [dig (w mod 16)].

Fixpoint words_of (a : list Z) : list Z :=
  match a with x :: y :: a => x * 256 + y :: words_of a | _ => [] end.

(** The candidates for the double colon: the longer first, then the ones
    further to the left. *)
Definition runs : list (nat * nat) :=
  concat (map (fun l => map (fun b => (b, l)) (seq 0 (9 - l))) [8; 7; 6; 5; 4; 3; 2]%nat).

Definition zero_run (ws : list Z) : option (nat * nat) :=
  find (fun '(b, l) => forallb (fun w => w =? 0) (take l (drop b ws))) runs.

Fixpoint colons (ws : list Z) : list Z :=
  match ws with
  | [] => []
  | [w] => hex w
  | w :: ws => hex w ++ [58] ++ colons ws
  end.

Definition ip4_of (a : list Z) : list Z := quad_text (at_ a 0) (at_ a 1) (at_ a 2) (at_ a 3).

(** RFC 5952: the longest run of at least two zero words, the first of them, is
    a double colon; IPv4-mapped and IPv4-compatible addresses end in an IPv4
    address. *)
Definition rfc5952 (a : list Z) : list Z :=
  let ws := words_of a in
  match zero_run ws with
  | None => colons ws
  | Some (b, l) =>
      if (b =? 0)%nat && ((l =? 6)%nat || ((l =? 5)%nat && (at_ ws 5 =? 65535))) then
        [58; 58] ++ (if (l =? 5)%nat then hex 65535 ++ [58] else []) ++ ip4_of (drop 12 a)
      else colons (take b ws) ++ [58; 58] ++ colons (drop (b + l) ws)
  end.

Example rfc5952_examples :
  map rfc5952 [[32; 1; 13; 184] ++ replicate 11 0 ++ [1]; replicate 16 0;
     replicate 10 0 ++ [255; 255; 192; 0; 2; 1]; replicate 12 0 ++ [192; 0; 2; 1];
     [0; 1; 0; 0; 0; 0; 0; 2; 0; 0; 0; 0; 0; 0; 255; 10]] =
  map str ["2001:db8::1"; "::"; "::ffff:192.0.2.1"; "::192.0.2.1"; "1:0:0:2::ff0a"]%string.
Proof. vm_compute. reflexivity. Qed.

(** * Writing: the words and the run *)

Lemma to_words_spec a : bytes_ok a -> zlen a = 16 -> to_words a = Some (words_of a).
Proof.
  intros Ha Hl. do 16 (destruct a as [|? a]; [discriminate Hl|]).
  assert (a = []) as -> by (destruct a; [done|]; unfold zlen in Hl; cbn in Hl; lia).
  assert (Hw : forall x y, is_byte x -> is_byte y -> Z.lor (Z.lor 0 (u32 (Z.shiftl x 8))) (u32 (Z.shiftl y 0)) = x * 256 + y).
  { unfold is_byte. intros x y Hx Hy. rewrite Z.lor_0_l, Z.shiftl_0_r, !u32_small by
      (rewrite ?Z.shiftl_mul_pow2 by lia; unfold UINT32_MAX; lia).
    rewrite lor_shiftl_add by (cbn; lia). done. }
  unfold bytes_ok in Ha. rewrite !Forall_cons in Ha. destruct_and! Ha.
  cbn [words_of]. rewrite <- !Hw by done. reflexivity.
Qed.

(** The run found depends on which words are zero. *)
Definition pattern (ws : list Z) : list Z := map (fun w => if w =? 0 then 0 else 1) ws.

Lemma run_round_pattern ws i s : run_round ws i s = run_round (pattern ws) i s.
Proof.
  unfold run_round, pattern. destruct s as [best cur]. rewrite list_lookup_fmap.
  destruct (ws !! Z.to_nat i) as [w|]; [|done]. cbn [mbind option_bind fmap option_fmap option_map]. by destruct (w =? 0).
Qed.

Lemma best_run_pattern ws : best_run ws = best_run (pattern ws).
Proof.
  unfold best_run. assert (H : forall ks s, for_ ks (run_round ws) s = for_ ks (run_round (pattern ws)) s).
  { induction ks as [|k ks IH]; intros s; [done|]. cbn [for_]. rewrite run_round_pattern.
    destruct (run_round (pattern ws) k s); [apply IH|done]. }
  by rewrite H.
Qed.

Lemma zero_run_pattern ws : zero_run ws = zero_run (pattern ws).
Proof.
  unfold zero_run. generalize runs. induction l as [|[b l] rs IH]; [done|]. cbn [find]. rewrite IH.
  unfold pattern. replace (forallb _ (take l (drop b (map _ ws)))) with (forallb (fun w => w =? 0) (take l (drop b ws))); [done|].
  rewrite <- fmap_drop, <- fmap_take. generalize (take l (drop b ws)). clear. induction l as [|w l IH]; [done|]. cbn.
  rewrite IH. by destruct (w =? 0).
Qed.

Fixpoint patterns (n : nat) : list (list Z) :=
  match n with O => [[]] | S n => concat (map (fun p => [0 :: p; 1 :: p]) (patterns n)) end.

Lemma pattern_in ws : pattern ws ∈ patterns (length ws).
Proof.
  induction ws as [|w ws IH]; [by left|]. cbn [pattern map length patterns]. apply list_elem_of_In, in_concat.
  exists [0 :: pattern ws; 1 :: pattern ws]. split.
  - apply in_map_iff. exists (pattern ws). split; [done|]. by apply list_elem_of_In.
  - destruct (w =? 0); [by left|right; by left].
Qed.

Definition run_agrees (r : option run) (z : option (nat * nat)) : bool :=
  match r, z with
  | Some r, None => base r =? -1
  | Some r, Some (b, l) => (base r =? Z.of_nat b) && (len r =? Z.of_nat l)
  | None, _ => false
  end.

Lemma best_run_spec ws : length ws = 8%nat -> exists r, best_run ws = Some r /\
  match zero_run ws with None => base r = -1 | Some (b, l) => r = mk_run (Z.of_nat b) (Z.of_nat l) /\ (b, l) ∈ runs end.
Proof.
  intros Hl. rewrite best_run_pattern, zero_run_pattern. pose proof (pattern_in ws) as Hp. rewrite Hl in Hp.
  assert (H : forallb (fun p => run_agrees (best_run p) (zero_run p)) (patterns 8) = true) by (vm_compute; reflexivity).
  rewrite forallb_forall in H. specialize (H (pattern ws) (proj1 (list_elem_of_In _ _) Hp)).
  destruct (best_run (pattern ws)) as [r|]; [|done]. exists r. split; [done|].
  destruct (zero_run (pattern ws)) as [[b l]|] eqn:Ez; cbn in H; zb_hyps; [|done].
  split; [destruct r; cbn in *; congruence|]. unfold zero_run in Ez. apply find_some in Ez as [Hin _]. by apply list_elem_of_In.
Qed.

(** * Writing: the text *)

(** [t] is written to the front of [tmp]. *)
Definition text_rep (s : text_state) (t : list Z) : Prop :=
  exists rest, s = (map Some t ++ rest, zlen t) /\ zlen t + zlen rest = TMP6.

Lemma put_spec s t c : text_rep s t -> zlen t < TMP6 -> exists s', put c s = Some s' /\ text_rep s' (t ++ [c]).
Proof.
  intros (rest & -> & Hl) Ht. destruct rest as [|x rest]; [rewrite zlen_nil in Hl; lia|].
  unfold put. pose proof (wr_mid (map Some t) rest x c) as Hw. rewrite zlen_map in Hw. cbn [app] in Hw. rewrite Hw.
  cbn [mbind option_bind]. eexists. split; [done|]. exists rest. split.
  - by rewrite map_app, <- app_assoc, zlen_snoc.
  - rewrite zlen_snoc, <- Hl, zlen_cons. lia.
Qed.

Lemma put_digit_spec s t i : text_rep s t -> 0 <= i < 16 -> zlen t < TMP6 ->
  exists s', put_digit i s = Some s' /\ text_rep s' (t ++ [dig i]).
Proof.
  intros Hs Hi Ht. unfold put_digit.
  assert (E : ldigits !! Z.to_nat i = Some (dig i)).
  { assert (H : forallb (fun n => bool_decide (ldigits !! n = Some (dig (Z.of_nat n)))) (seq 0 16) = true) by (vm_compute; reflexivity).
    rewrite forallb_forall in H. specialize (H (Z.to_nat i)). rewrite in_seq, bool_decide_eq_true, Z2Nat.id in H by lia. apply H. lia. }
  rewrite E. cbn [mbind option_bind]. by apply put_spec.
Qed.

(** A mask of [k] bits at position [n]. *)
Lemma land_field w k n : 0 <= w -> 0 <= k -> 0 <= n ->
  Z.land w (Z.shiftl (Z.ones k) n) = w / 2 ^ n mod 2 ^ k * 2 ^ n.
Proof.
  intros Hw Hk Hn. rewrite <- Z.land_ones, <- Z.shiftr_div_pow2, <- Z.shiftl_mul_pow2 by lia.
  apply Z.bits_inj'. intros m Hm. rewrite Z.land_spec, !Z.shiftl_spec by lia. rewrite Z.land_spec.
  destruct (Z.lt_ge_cases m n); [rewrite !(Z.testbit_neg_r _ (m - n)) by lia; by rewrite andb_false_r|].
  rewrite Z.shiftr_spec by lia. do 2 f_equal. lia.
Qed.

Lemma put_word_spec s t w : text_rep s t -> 0 <= w < 65536 -> zlen t + zlen (hex w) < TMP6 ->
  exists s', put_word w s = Some s' /\ text_rep s' (t ++ hex w).
Proof.
  intros Hs Hw Hl. unfold put_word.
  change 61440 with (Z.shiftl (Z.ones 4) 12). change 65280 with (Z.shiftl (Z.ones 8) 8).
  change 65520 with (Z.shiftl (Z.ones 12) 4). change 3840 with (Z.shiftl (Z.ones 4) 8).
  change 240 with (Z.shiftl (Z.ones 4) 4). change 15 with (Z.shiftl (Z.ones 4) 0).
  rewrite !land_field by lia. change (2 ^ 12) with 4096. change (2 ^ 8) with 256. change (2 ^ 4) with 16. change (2 ^ 0) with 1.
  rewrite !Z.shiftr_div_pow2 by lia. change (2 ^ 12) with 4096. change (2 ^ 8) with 256. change (2 ^ 4) with 16.
  rewrite !Z.div_mul, Z.div_1_r, Z.mul_1_r by lia.
  rewrite (Z.mod_small (w / 4096)), (Z.mod_small (w / 256) 256), (Z.mod_small (w / 16) 4096) by dlia.
  assert (Hstep : forall (b : bool) d s0 t0 l, text_rep s0 t0 -> 0 <= d < 16 -> zlen (t0 ++ l) < TMP6 ->
    l = (if b then [] else [dig d]) -> exists s1, (if negb b then put_digit d s0 else Some s0) = Some s1 /\ text_rep s1 (t0 ++ l)).
  { intros [] d s0 t0 l Hs0 Hd Hl0 ->; cbn [negb]; [exists s0; by rewrite app_nil_r|].
    apply put_digit_spec; [done|done|]. rewrite zlen_snoc in Hl0. lia. }
  assert (Hz : forall k x, 0 < k -> x = (w <? k) -> (w / k * k =? 0) = x).
  { intros k x Hk ->. destruct (Z.ltb_spec w k); [by rewrite Z.div_small by lia|].
    pose proof (Z.div_str_pos w k). apply Z.eqb_neq. nia. }
  rewrite (Hz 4096 (w <? 4096)), (Hz 256 (w <? 256)), (Hz 16 (w <? 16)) by done.
  unfold hex in *. set (l1 := if w <? 4096 then _ else _) in *. set (l2 := if w <? 256 then _ else _) in *.
  set (l3 := if w <? 16 then _ else _) in *. rewrite !zlen_app in Hl. change (zlen [dig (w mod 16)]) with 1 in Hl.
  pose proof (zlen_nonneg l1). pose proof (zlen_nonneg l2). pose proof (zlen_nonneg l3).
  destruct (Hstep (w <? 4096) (w / 4096) s t l1) as (s1 & E1 & Hs1); [done|dlia|rewrite zlen_app; lia|done|].
  rewrite E1. cbn [mbind option_bind].
  destruct (Hstep (w <? 256) (w / 256 mod 16) s1 (t ++ l1) l2) as (s2 & E2 & Hs2); [done|dlia|rewrite !zlen_app; lia|done|].
  rewrite E2. cbn [mbind option_bind].
  destruct (Hstep (w <? 16) (w / 16 mod 16) s2 ((t ++ l1) ++ l2) l3) as (s3 & E3 & Hs3); [done|dlia|rewrite !zlen_app; lia|done|].
  rewrite E3. cbn [mbind option_bind].
  destruct (put_digit_spec s3 (((t ++ l1) ++ l2) ++ l3) (w mod 16) Hs3) as (s4 & E4 & Hs4); [dlia|rewrite !zlen_app; lia|].
  exists s4. split; [done|]. by rewrite <- !app_assoc in Hs4.
Qed.

Lemma zlen_quad_text a b c d : bytes_ok [a; b; c; d] -> 7 <= zlen (quad_text a b c d) <= 15.
Proof.
  intros H. unfold bytes_ok in H. rewrite !Forall_cons in H. destruct H as (Ha & Hb & Hc & Hd & _).
  apply dec_digits in Ha as [_ Ha], Hb as [_ Hb], Hc as [_ Hc], Hd as [_ Hd].
  unfold quad_text. rewrite !zlen_app. change (zlen [46]) with 1. lia.
Qed.

Lemma strcopy_spec dst off size t : 0 <= off -> off + size <= zlen dst -> zlen t < size ->
  curlx_strcopy dst off size t = Some (stored dst off (t ++ [0])).
Proof.
  intros H0 Hd Hl. unfold curlx_strcopy. rewrite (proj2 (Z.ltb_lt _ _)) by lia. pose proof (zlen_nonneg t).
  assert (Hw : forall x, 0 <= x <= 1 -> zlen dst - off - zlen t - x >= 0) by lia.
  rewrite mem_write_stored by lia. cbn [mbind option_bind].
  set (r := zdrop (off + zlen t) dst).
  assert (Hr : zlen r = zlen dst - off - zlen t) by (unfold r; rewrite zlen_zdrop; lia).
  destruct r as [|x r'] eqn:Er; [rewrite zlen_nil in Hr; lia|].
  assert (Eo : zlen (ztake off dst ++ map Some t) = off + zlen t) by (rewrite zlen_app, zlen_ztake, zlen_map; lia).
  unfold stored. fold r. rewrite Er, zlen_snoc, map_app, (app_assoc (ztake off dst)), <- Eo.
  pose proof (wr_mid (ztake off dst ++ map Some t) r' x 0) as Hm. cbn [app] in Hm. rewrite Hm, <- !app_assoc.
  replace (zdrop (off + (zlen t + 1)) dst) with r'; [done|].
  rewrite Z.add_assoc, Z.add_comm, <- zdrop_zdrop by lia. unfold r in Er. rewrite Er. done.
Qed.

(** [inet_ntop4] on four bytes. *)
Lemma ntop4_spec a dst off size : bytes_ok (take 4 a) -> (4 <= length a)%nat -> 0 <= off -> off + size <= zlen dst ->
  inet_ntop4 a dst off size =
  if zlen (ip4_of a) <? size then Some (stored dst off (ip4_of a ++ [0]), None) else Some (dst, Some ENOSPC).
Proof.
  intros Hb Hl H0 Hd. destruct a as [|b0 [|b1 [|b2 [|b3 a]]]]; try (cbn in Hl; lia). cbn [take] in Hb.
  pose proof Hb as Hb'. unfold bytes_ok in Hb'. rewrite !Forall_cons in Hb'. destruct_and! Hb'.
  unfold inet_ntop4. cbn [lookup list_lookup mbind option_bind].
  assert (Hm : forall x, is_byte x -> Z.land x 255 = x).
  { intros x Hx. change 255 with (Z.ones 8). rewrite Z.land_ones by lia. apply Z.mod_small. unfold is_byte in Hx. lia. }
  rewrite !Hm by done. change (ip4_of (b0 :: b1 :: b2 :: b3 :: a)) with (quad_text b0 b1 b2 b3).
  pose proof (zlen_quad_text b0 b1 b2 b3 Hb) as Hq. pose proof (quad_text_nonzero b0 b1 b2 b3 Hb) as Hnz.
  set (t := quad_text b0 b1 b2 b3) in *. rewrite ztake_ge by lia.
  rewrite mem_write_stored by (rewrite ?zlen_snoc; unfold uninit; rewrite ?zlen_replicate; lia). cbn [mbind option_bind].
  set (r := zdrop (0 + zlen (t ++ [0])) (uninit 16)).
  replace (stored (uninit 16) 0 (t ++ [0])) with (map Some t ++ Some 0 :: r)
    by (unfold stored; rewrite map_app, <- app_assoc; done).
  rewrite mem_strlen_text by done. cbn [mbind option_bind]. rewrite (proj2 (Z.eqb_neq _ _)) by lia. cbn [orb].
  rewrite Z.geb_leb. destruct (Z.leb_spec size (zlen t)), (Z.ltb_spec (zlen t) size); try lia; [done|].
  pose proof (mem_read_mid [] (Some 0 :: r) t) as Hr. cbn [app] in Hr.
  rewrite (Hr : mem_read _ 0 _ = _). cbn [mbind option_bind]. by rewrite strcopy_spec.
Qed.

(** The loop without its memory; [mapped] is [words[5] == 0xffff]. *)
Fixpoint ftext (mapped : bool) (todo : nat) (i : Z) (quad ws : list Z) (best : run) : list Z :=
  match todo with
  | O => []
  | S todo =>
      if negb (base best =? -1) && (i >=? base best) && (i <? base best + len best) then
        (if i =? base best then [58] else []) ++ ftext mapped todo (i + 1) quad ws best
      else
        (if negb (i =? 0) then [58] else []) ++
        (if (i =? 6) && (base best =? 0) && ((len best =? 6) || ((len best =? 5) && mapped))
         then quad else hex (at_ ws (Z.to_nat i)) ++ ftext mapped todo (i + 1) quad ws best)
  end.

Lemma lookup_at (l : list Z) n : (n < length l)%nat -> l !! n = Some (at_ l n).
Proof.
  intros H. destruct (lookup_lt_is_Some_2 l n H) as [x Hx]. rewrite Hx. unfold at_.
  apply list_elem_of_split_length in Hx as (l1 & l2 & -> & ->). by rewrite drop_app_length.
Qed.

(** The IPv4 address at the end. *)
Lemma put_quad_spec s t src : text_rep s t -> bytes_ok (take 4 src) -> (4 <= length src)%nat ->
  zlen t + zlen (ip4_of src) < TMP6 ->
  exists s', (let '(tmp, tp) := s in
      '(tmp, e) ← inet_ntop4 src tmp tp (TMP6 - tp);
      match e with
      | Some _ => Some None
      | None => n ← mem_strlen (zdrop tp tmp); Some (Some (tmp, tp + n))
      end) = Some (Some s') /\ text_rep s' (t ++ ip4_of src).
Proof.
  intros (rest & -> & Hl) Hb Hsrc Hroom. pose proof (zlen_nonneg t).
  rewrite ntop4_spec by (try done; rewrite zlen_app, zlen_map; lia).
  rewrite (proj2 (Z.ltb_lt _ _)) by lia. cbn [mbind option_bind].
  assert (Et : ztake (zlen t) (map Some t ++ rest) = map Some t)
    by (rewrite <- (zlen_map Some t); apply ztake_app_exact).
  unfold stored. rewrite Et, map_app, <- app_assoc.
  set (r := zdrop (zlen t + zlen (ip4_of src ++ [0])) (map Some t ++ rest)).
  assert (E : zdrop (zlen t) (map Some t ++ map Some (ip4_of src) ++ map Some [0] ++ r) =
    map Some (ip4_of src) ++ Some 0 :: r) by (rewrite <- (zlen_map Some t); apply zdrop_app_exact).
  rewrite E, mem_strlen_text.
  2:{ destruct src as [|b0 [|b1 [|b2 [|b3 src]]]]; try (cbn in Hsrc; lia). by apply quad_text_nonzero. }
  cbn [mbind option_bind]. eexists. split; [done|]. exists (Some 0 :: r). split.
  - by rewrite map_app, <- app_assoc, zlen_app.
  - assert (Hr : zlen r = zlen rest - zlen (ip4_of src) - 1).
    { unfold r. rewrite zlen_zdrop, zlen_app, zlen_map, zlen_snoc by (rewrite zlen_snoc; pose proof (zlen_nonneg (ip4_of src)); lia). lia. }
    rewrite zlen_app, zlen_cons, Hr, <- Hl. lia.
Qed.

Lemma hex_length w : 1 <= zlen (hex w) <= 4.
Proof. unfold hex. repeat case_if; unfold zlen; cbn [app length]; lia. Qed.

Lemma format_loop_spec src ws best : length ws = 8%nat -> Forall (fun w => 0 <= w < 65536) ws ->
  bytes_ok (take 4 (drop 12 src)) -> (16 <= length src)%nat ->
  forall todo i s t, 0 <= i -> i + Z.of_nat todo = 8 -> text_rep s t ->
  zlen t + zlen (ftext (at_ ws 5 =? 65535) todo i (ip4_of (drop 12 src)) ws best) < TMP6 ->
  exists s', format_loop todo i src ws best s = Some (Some s') /\
    text_rep s' (t ++ ftext (at_ ws 5 =? 65535) todo i (ip4_of (drop 12 src)) ws best).
Proof.
  intros Hl Hw Hb Hsrc. induction todo as [|todo IH]; intros i s t Hi Hsum Hs Hroom.
  { exists s. by rewrite app_nil_r. }
  cbn [ftext format_loop] in *. destruct (negb (base best =? -1) && (i >=? base best) && (i <? base best + len best)).
  - set (f := ftext (at_ ws 5 =? 65535) todo (i + 1) _ ws best) in *. rewrite zlen_app in Hroom. pose proof (zlen_nonneg f).
    destruct (i =? base best); change (zlen [58]) with 1 in Hroom; cbn [app] in *.
    + destruct (put_spec s t 58 Hs) as (s1 & E1 & Hs1); [lia|]. rewrite E1. cbn [mbind option_bind].
      destruct (IH (i + 1) s1 (t ++ [58])) as (s2 & E2 & Hs2); [lia|lia|done|rewrite zlen_snoc; fold f; lia|].
      exists s2. by rewrite <- app_assoc in Hs2.
    + cbn [mbind option_bind]. apply IH; [lia|lia|done|]. exact Hroom.
  - set (q := (i =? 6) && _ && _) in *. rewrite zlen_app in Hroom.
    pose proof (zlen_nonneg (if q then ip4_of (drop 12 src) else hex (at_ ws (Z.to_nat i)) ++ ftext (at_ ws 5 =? 65535) todo (i + 1) (ip4_of (drop 12 src)) ws best)).
    assert (Hp : exists s1, (if negb (i =? 0) then put 58 s else Some s) = Some s1 /\
      text_rep s1 (t ++ if negb (i =? 0) then [58] else [])).
    { destruct (negb (i =? 0)); [apply put_spec; [done|]; change (zlen [58]) with 1 in Hroom; lia|].
      exists s. by rewrite app_nil_r. }
    destruct Hp as (s1 & E1 & Hs1). rewrite E1. cbn [mbind option_bind]. rewrite (lookup_at ws 5) by lia. cbn [mbind option_bind].
    fold q. set (c := if negb (i =? 0) then [58] else []) in *. rewrite app_assoc. destruct q.
    + apply put_quad_spec; try done; [rewrite length_drop; lia|rewrite zlen_app; lia].
    + rewrite (lookup_at ws (Z.to_nat i)) by lia. cbn [mbind option_bind].
      pose proof (zlen_nonneg (ftext (at_ ws 5 =? 65535) todo (i + 1) (ip4_of (drop 12 src)) ws best)). rewrite zlen_app in Hroom.
      destruct (put_word_spec s1 (t ++ c) (at_ ws (Z.to_nat i)) Hs1) as (s2 & E2 & Hs2).
      { apply (Forall_lookup_1 _ _ (Z.to_nat i) _ Hw). apply lookup_at. lia. }
      { rewrite zlen_app. lia. }
      rewrite E2. cbn [mbind option_bind].
      destruct (IH (i + 1) s2 ((t ++ c) ++ hex (at_ ws (Z.to_nat i)))) as (s3 & E3 & Hs3); [lia|lia|done|rewrite !zlen_app; lia|].
      exists s3. by rewrite <- app_assoc in Hs3.
Qed.

(** ** The whole text *)

Definition run_end (best : run) : list Z :=
  if negb (base best =? -1) && (base best + len best =? 8) then [58] else [].

Lemma words_of_length a : length a = 16%nat -> length (words_of a) = 8%nat.
Proof.
  intros H. do 16 (destruct a as [|? a]; [discriminate H|]). by destruct a.
Qed.

Lemma ftext_none m ws quad r : length ws = 8%nat -> base r = -1 -> ftext m 8 0 quad ws r ++ run_end r = colons ws.
Proof.
  intros Hl Hr. destruct r as [b l]. cbn in Hr. subst b.
  destruct ws as [|w0 [|w1 [|w2 [|w3 [|w4 [|w5 [|w6 [|w7 [|]]]]]]]]]; try discriminate Hl.
  unfold run_end. cbv -[hex app]. cbn [app]. by rewrite !app_nil_r.
Qed.

Lemma ftext_run m ws quad b l : length ws = 8%nat -> (b, l) ∈ runs -> (m = true -> at_ ws 5 = 65535) ->
  ftext m 8 0 quad ws (mk_run (Z.of_nat b) (Z.of_nat l)) ++ run_end (mk_run (Z.of_nat b) (Z.of_nat l)) =
  if (b =? 0)%nat && ((l =? 6)%nat || ((l =? 5)%nat && m)) then
    [58; 58] ++ (if (l =? 5)%nat then hex 65535 ++ [58] else []) ++ quad
  else colons (take b ws) ++ [58; 58] ++ colons (drop (b + l) ws).
Proof.
  intros Hl Hin Hm. destruct ws as [|w0 [|w1 [|w2 [|w3 [|w4 [|w5 [|w6 [|w7 [|]]]]]]]]]; try discriminate Hl.
  cbn in Hm. apply list_elem_of_In in Hin. unfold runs in Hin. cbn [map concat seq app Nat.sub In] in Hin.
  repeat destruct Hin as [[= <- <-]|Hin]; [..|done].
  all: destruct m; [rewrite Hm by done|]; cbv -[hex app];
    repeat (progress (cbn [app]; rewrite <- ?app_assoc, ?app_nil_r)); reflexivity.
Qed.

Lemma words_of_range a : bytes_ok a -> Forall (fun w => 0 <= w < 65536) (words_of a).
Proof.
  revert a. fix IH 1. intros [|x [|y a]] Ha; [constructor|constructor|]. apply Forall_cons in Ha as [Hx Ha].
  apply Forall_cons in Ha as [Hy Ha]. cbn [words_of]. constructor; [unfold is_byte in *; lia|by apply IH].
Qed.

Lemma colons_length ws : zlen (colons ws) <= 5 * zlen ws.
Proof.
  induction ws as [|w ws IH]; [done|]. pose proof (hex_length w). rewrite zlen_cons. cbn [colons].
  destruct ws as [|w' ws]; [rewrite zlen_nil; lia|]. rewrite !zlen_app. change (zlen [58]) with 1. lia.
Qed.

Lemma zlen_take_drop {A} (l : list A) n m : zlen (take n l) + zlen (drop (n + m) l) <= zlen l.
Proof. unfold zlen. rewrite length_take, length_drop. lia. Qed.

Lemma ip4_of_length a : bytes_ok (take 4 a) -> (4 <= length a)%nat -> 7 <= zlen (ip4_of a) <= 15.
Proof.
  intros Hb Hl. destruct a as [|b0 [|b1 [|b2 [|b3 a]]]]; try (cbn in Hl; lia). by apply zlen_quad_text.
Qed.

Lemma rfc5952_length a : bytes_ok a -> length a = 16%nat -> zlen (rfc5952 a) <= 45.
Proof.
  intros Ha Hl. unfold rfc5952. pose proof (words_of_length a Hl) as Hw. assert (Hz : zlen (words_of a) = 8) by (unfold zlen; lia).
  destruct (zero_run (words_of a)) as [[b l]|]; [|pose proof (colons_length (words_of a)); lia].
  case_if.
  - pose proof (ip4_of_length (drop 12 a) ltac:(by apply Forall_take, Forall_drop) ltac:(rewrite length_drop; lia)).
    pose proof (hex_length 65535). rewrite !zlen_app. change (zlen [58; 58]) with 2.
    case_if; rewrite ?zlen_app; change (zlen [58]) with 1; rewrite ?zlen_nil; lia.
  - rewrite !zlen_app. change (zlen [58; 58]) with 2.
    pose proof (colons_length (take b (words_of a))). pose proof (colons_length (drop (b + l) (words_of a))).
    pose proof (zlen_take_drop (words_of a) b l). lia.
Qed.

Lemma ntop6_spec a dst size : bytes_ok a -> length a = 16%nat -> size <= zlen dst ->
  inet_ntop6 a dst size =
  if zlen (rfc5952 a) <? size then Some (stored dst 0 (rfc5952 a ++ [0]), None) else Some (dst, Some ENOSPC).
Proof.
  intros Ha Hl Hd. unfold inet_ntop6. rewrite to_words_spec by (done || unfold zlen; lia). cbn [mbind option_bind].
  pose proof (words_of_length a Hl) as Hwl. destruct (best_run_spec (words_of a) Hwl) as (r & Er & Hr).
  rewrite Er. cbn [mbind option_bind].
  assert (Ht : ftext (at_ (words_of a) 5 =? 65535) 8 0 (ip4_of (drop 12 a)) (words_of a) r ++ run_end r = rfc5952 a).
  { unfold rfc5952. destruct (zero_run (words_of a)) as [[b l]|]; [|by apply ftext_none].
    destruct Hr as [-> Hin]. apply ftext_run; [done|done|apply Z.eqb_eq]. }
  pose proof (rfc5952_length a Ha Hl) as Hlen. rewrite <- Ht, zlen_app in Hlen.
  set (f := ftext _ 8 0 (ip4_of (drop 12 a)) (words_of a) r) in *. pose proof (zlen_nonneg f). pose proof (zlen_nonneg (run_end r)).
  destruct (format_loop_spec a (words_of a) r Hwl (words_of_range a Ha)) with (todo := 8%nat) (i := 0) (s := (uninit TMP6, 0)) (t := @nil Z)
    as (s1 & E1 & Hs1); [by apply Forall_take, Forall_drop|lia|lia|done|by exists (uninit TMP6)|fold f; rewrite zlen_nil; unfold TMP6; lia|].
  rewrite E1. cbn [mbind option_bind]. fold f in Hs1. cbn [app] in Hs1.
  assert (Hend : exists s2, (if negb (base r =? -1) && (base r + len r =? 8) then put 58 s1 else Some s1) = Some s2 /\
    text_rep s2 (rfc5952 a)).
  { rewrite <- Ht. unfold run_end in *. destruct (_ && _); [|exists s1; by rewrite app_nil_r].
    change (zlen [58]) with 1 in *. apply put_spec; [done|unfold TMP6; lia]. }
  destruct Hend as (s2 & E2 & rest & -> & Hrest). rewrite E2. cbn [mbind option_bind]. rewrite Z.geb_leb.
  destruct (Z.leb_spec size (zlen (rfc5952 a))), (Z.ltb_spec (zlen (rfc5952 a)) size); try lia; [done|].
  pose proof (mem_read_mid [] rest (rfc5952 a)) as Hm. cbn [app] in Hm. rewrite (Hm : mem_read _ 0 _ = _). cbn [mbind option_bind].
  by rewrite strcopy_spec by lia.
Qed.

(** * The texts written are texts that are read *)

Lemma dig_ok d : 0 <= d < 16 -> ISXDIGIT (dig d) = true /\ curlx_hexval (dig d) = d.
Proof.
  intros Hd. assert (H : forallb (fun n => let d := Z.of_nat n in ISXDIGIT (dig d) && (curlx_hexval (dig d) =? d)) (seq 0 16) = true)
    by (vm_compute; reflexivity).
  rewrite forallb_forall in H. specialize (H (Z.to_nat d)). rewrite in_seq in H. specialize (H ltac:(lia)).
  cbv zeta in H. rewrite Z2Nat.id in H by lia. by zb_hyps.
Qed.

Lemma hex_ok w : 0 <= w < 65536 -> hexword (hex w) /\ word_bytes (hex w) = [w / 256; w mod 256].
Proof.
  intros Hw. pose proof (hex_length w) as Hl.
  assert (H : Forall (fun c => ISXDIGIT c = true) (hex w) /\ digits_value 16 0 (hex w) = w).
  { unfold hex. destruct (dig_ok (w / 4096)) as [A1 B1]; [dlia|]. destruct (dig_ok (w / 256 mod 16)) as [A2 B2]; [dlia|].
    destruct (dig_ok (w / 16 mod 16)) as [A3 B3]; [dlia|]. destruct (dig_ok (w mod 16)) as [A4 B4]; [dlia|].
    split; [repeat case_if; repeat apply Forall_cons_2; done|].
    unfold digits_value. repeat case_if; cbn [app fold_left]; rewrite ?B1, ?B2, ?B3, ?B4; dlia. }
  destruct H as [H1 H2]. split; [by split|]. unfold word_bytes. by rewrite H2.
Qed.

Lemma words_bytes_of a : forall n, length a = (2 * n)%nat -> bytes_ok a -> words_bytes (map hex (words_of a)) = a.
Proof.
  intros n. revert a. induction n as [|n IH]; intros a Hl Ha; [by destruct a|].
  destruct a as [|x [|y a]]; [cbn in Hl; lia|cbn in Hl; lia|]. apply Forall_cons in Ha as [Hx Ha]. apply Forall_cons in Ha as [Hy Ha].
  unfold is_byte in *. cbn [words_of]. unfold words_bytes in *. cbn [map concat].
  destruct (hex_ok (x * 256 + y)) as [_ ->]; [lia|]. rewrite IH by (done || cbn in Hl; lia). cbn [app].
  f_equal; [dlia|]. f_equal. dlia.
Qed.

Lemma colons_snoc ws w : colons (ws ++ [w]) = words_text (map hex ws) ++ hex w.
Proof.
  induction ws as [|v ws IH]; [done|]. cbn [app map]. unfold words_text in *. cbn [map concat]. rewrite <- !app_assoc, <- IH.
  cbn [colons]. destruct (ws ++ [w]) eqn:E; [by destruct ws|]. done.
Qed.

Lemma words_bytes_app ws ws' : words_bytes (ws ++ ws') = words_bytes ws ++ words_bytes ws'.
Proof. unfold words_bytes. by rewrite map_app, concat_app. Qed.

Lemma words_text_app ws ws' : words_text (ws ++ ws') = words_text ws ++ words_text ws'.
Proof. unfold words_text. by rewrite map_app, concat_app. Qed.

Lemma hexwords ws : Forall (fun w => 0 <= w < 65536) ws -> Forall hexword (map hex ws).
Proof. intros H. apply Forall_map. eapply Forall_impl; [exact H|]. intros w Hw. by apply hex_ok. Qed.

Lemma zero_words l : words_bytes (map hex (replicate l 0)) = replicate (2 * l) 0.
Proof.
  induction l as [|l IH]; [done|]. cbn [replicate map]. change (hex 0 :: map hex (replicate l 0)) with ([hex 0] ++ map hex (replicate l 0)).
  rewrite words_bytes_app, IH. replace (2 * S l)%nat with (S (S (2 * l))) by lia. done.
Qed.

(** A run is made of zeroes. *)
Lemma zero_run_split ws b l : length ws = 8%nat -> zero_run ws = Some (b, l) ->
  ws = take b ws ++ replicate l 0 ++ drop (b + l) ws /\ (2 <= l)%nat /\ (b + l <= 8)%nat.
Proof.
  intros Hl Hz. apply find_some in Hz as [Hin Hz].
  assert (Hr : forallb (fun '(b, l) => (2 <=? l)%nat && (b + l <=? 8)%nat) runs = true) by (vm_compute; reflexivity).
  rewrite forallb_forall in Hr. pose proof (Hr _ Hin : (2 <=? l)%nat && (b + l <=? 8)%nat = true) as Hbl.
  apply andb_true_iff in Hbl as [H2%Nat.leb_le H8%Nat.leb_le].
  split; [|done]. rewrite <- (take_drop b ws) at 1. f_equal. rewrite <- (take_drop l (drop b ws)), drop_drop. f_equal.
  rewrite forallb_forall in Hz.
  assert (H : forall k : list Z, (forall x, In x k -> (x =? 0) = true) -> k = replicate (length k) 0).
  { induction k as [|x k IH]; intros Hk; [done|]. cbn. rewrite <- IH by (intros y Hy; apply Hk; by right).
    f_equal. apply Z.eqb_eq, Hk. by left. }
  rewrite (H _ Hz) at 1. f_equal. rewrite length_take, length_drop. lia.
Qed.

(** What is behind the double colon. *)
Lemma colons_end ws : Forall (fun w => 0 <= w < 65536) ws -> exists ws' e eb, Forall hexword ws' /\ ip6_end e eb /\
  colons ws = words_text ws' ++ e /\ words_bytes (map hex ws) = words_bytes ws' ++ eb /\ (ws <> [] -> ws' = map hex (removelast ws)).
Proof.
  intros H. destruct ws as [|v ws _] using rev_ind; [exists [], [], []; split_and!; done || constructor|].
  apply Forall_app in H as [Hws Hv]. apply Forall_cons in Hv as [Hv _]. destruct (hex_ok v Hv) as [Hh Hb].
  exists (map hex ws), (hex v), (word_bytes (hex v)). split_and!; [by apply hexwords|by constructor|apply colons_snoc| |].
  - rewrite map_app, words_bytes_app. f_equal.
  - intros _. by rewrite removelast_last.
Qed.

(** An address that ends in an IPv4 address. *)
Lemma mapped_text a l : bytes_ok a -> length a = 16%nat -> take l (words_of a) = replicate l 0 ->
  l = 6%nat \/ l = 5%nat /\ at_ (words_of a) 5 = 65535 ->
  ip6_text ([58; 58] ++ (if (l =? 5)%nat then hex 65535 ++ [58] else []) ++ ip4_of (drop 12 a)) a.
Proof.
  intros Ha Hl Hz Hcase. pose proof (words_bytes_of a 8 Hl Ha) as Hwb.
  pose proof (words_of_length a Hl) as Hwl. set (ws := words_of a) in *.
  assert (Hq : ip6_end (ip4_of (drop 12 a)) (drop 12 a) /\ zlen (drop 12 a) = 4).
  { assert (Hd : length (drop 12 a) = 4%nat) by (rewrite length_drop; lia).
    assert (Hb : bytes_ok (drop 12 a)) by (by apply Forall_drop).
    destruct (drop 12 a) as [|x0 [|x1 [|x2 [|x3 [|]]]]]; try discriminate Hd. split; [|done]. constructor. by exists x0, x1, x2, x3. }
  destruct Hq as [Hq Hq4].
  assert (Hsix : a = words_bytes (map hex (take 6 ws)) ++ drop 12 a).
  { rewrite <- (take_drop 12 a) at 1. f_equal.
    rewrite <- Hwb at 1. rewrite <- (take_drop 6 ws) at 1. rewrite map_app, words_bytes_app, take_app_le.
    - apply take_ge. pose proof (zlen_words_bytes (map hex (take 6 ws))) as H. rewrite zlen_map in H.
      unfold zlen in H. rewrite length_take in H. lia.
    - pose proof (zlen_words_bytes (map hex (take 6 ws))) as H. rewrite zlen_map in H. unfold zlen in H. rewrite length_take in H. lia. }
  rewrite Hsix at 2. destruct Hcase as [->|[-> H5]].
  - rewrite Hz, zero_words. apply (Ip6_gap [] [] _ _ 12); try done.
    rewrite zlen_app. change (0 + 12 + (0 + zlen (drop 12 a)) = 16). by rewrite Hq4.
  - assert (E6 : take 6 ws = replicate 5 0 ++ [65535]).
    { rewrite <- Hz, <- H5. rewrite (take_S_r ws 5 (at_ ws 5)); [done|]. apply lookup_at. lia. }
    rewrite E6, map_app, words_bytes_app, zero_words, <- app_assoc. cbn [Nat.eqb]. rewrite <- !app_assoc.
    pose proof (Ip6_gap [] [hex 65535] (ip4_of (drop 12 a)) (drop 12 a) 10) as Hg.
    unfold words_text in Hg. cbn [map concat app] in Hg. rewrite <- app_assoc in Hg. apply Hg; try done.
    + constructor; [by apply hex_ok|constructor].
    + change (zlen (words_bytes [])) with 0. rewrite zlen_app, Hq4. done.
Qed.

Lemma rfc5952_text a : bytes_ok a -> length a = 16%nat -> ip6_text (rfc5952 a) a.
Proof.
  intros Ha Hl. pose proof (words_of_length a Hl) as Hwl. pose proof (words_of_range a Ha) as Hw.
  pose proof (words_bytes_of a 8 Hl Ha) as Hwb. unfold rfc5952. set (ws := words_of a) in *.
  assert (Hz : zlen a = 16) by (unfold zlen; lia).
  destruct (zero_run ws) as [[b l]|] eqn:Er.
  - destruct (zero_run_split ws b l Hwl Er) as (Hsplit & Hl2 & Hl8).
    assert (Hwr : Forall (fun w => 0 <= w < 65536) (take b ws ++ replicate l 0 ++ drop (b + l) ws)) by (by rewrite <- Hsplit).
    apply Forall_app in Hwr as [Hw1 Hw2]. apply Forall_app in Hw2 as [_ Hw2].
    rewrite Hsplit, !map_app, !words_bytes_app, zero_words in Hwb.
    destruct (_ && _) eqn:Em.
    + apply andb_true_iff in Em as [->%Nat.eqb_eq Em]. cbn [Nat.add take drop app] in *. apply mapped_text; [done|done| |].
      * fold ws. change (take 0 ws) with (@nil Z) in Hsplit. cbn [app] in Hsplit. rewrite Hsplit. apply take_app_length'. by rewrite length_replicate.
      * apply orb_true_iff in Em as [->%Nat.eqb_eq|[->%Nat.eqb_eq H5%Z.eqb_eq]%andb_true_iff]; [by left|by right].
    + destruct (colons_end (drop (b + l) ws) Hw2) as (ws' & e & eb & Hws' & He & Hc & Hbs & _). rewrite Hc, Hbs in *.
      pose proof (Ip6_gap (map hex (take b ws)) ws' e eb (Z.of_nat (2 * l)) (hexwords _ Hw1) Hws' He ltac:(lia)) as Hg.
      rewrite Nat2Z.id, Hwb in Hg.
      replace (colons (take b ws) ++ [58; 58] ++ words_text ws' ++ e) with
        ((match map hex (take b ws) with [] => [58] | _ => [] end) ++ words_text (map hex (take b ws)) ++ [58] ++ words_text ws' ++ e).
      * apply Hg. rewrite <- Hz, <- Hwb, !zlen_app. unfold zlen at 5. rewrite length_replicate. lia.
      * destruct (take b ws) as [|v k _] using rev_ind; [done|]. rewrite colons_snoc, map_app, words_text_app.
        destruct (map hex k ++ map hex [v]) eqn:E; [by destruct (map hex k)|]. cbn. by rewrite <- !app_assoc.
  - destruct (colons_end ws Hw) as (ws' & e & eb & Hws' & He & Hc & Hbs & _).
    rewrite Hc. rewrite <- Hwb, Hbs. constructor; try done. rewrite <- Hbs, Hwb. done.
Qed.

Lemma words_text_nonzero ws : Forall hexword ws -> Forall (fun c => c <> 0) (words_text ws).
Proof.
  induction 1 as [|w ws [_ Hw] _ IH]; [constructor|]. unfold words_text in *. cbn [map concat].
  apply Forall_app_2; [|exact IH]. apply Forall_app_2; [|by constructor].
  eapply Forall_impl; [exact Hw|]. intros c Hc. by apply ISXDIGIT_nonzero.
Qed.

Lemma ip6_text_nonzero t a : ip6_text t a -> Forall (fun c => c <> 0) t.
Proof.
  intros [ws e eb Hws He _|ws ws' e eb n Hws Hws' He _ _]; destruct (ip6_end_nonzero e eb He) as [Hez _];
    repeat apply Forall_app_2; try done; try (by apply words_text_nonzero); try (by constructor).
  destruct ws; by repeat constructor.
Qed.

(** * Both families *)

Definition known (af : Z) : Prop := af = AF_INET \/ af = AF_INET6.
Definition addr_size (af : Z) : Z := if af =? AF_INET then 4 else 16.

(** The texts that are read as the address [a], and the one it is written as. *)
Definition addr_text (af : Z) : list Z -> list Z -> Prop := if af =? AF_INET then ip4_text else ip6_text.
Definition addr_print (af : Z) (a : list Z) : list Z := if af =? AF_INET then ip4_of a else rfc5952 a.

Lemma ntop_known af a buf size : known af -> bytes_ok a -> zlen a = addr_size af -> size <= zlen buf ->
  curlx_inet_ntop af a buf size =
  if zlen (addr_print af a) <? size then Some (stored buf 0 (addr_print af a ++ [0]), None) else Some (buf, Some ENOSPC).
Proof.
  intros [-> | ->] Ha Hl Hs; unfold curlx_inet_ntop; cbn [Z.eqb Pos.eqb AF_INET AF_INET6].
  - change (addr_print AF_INET a) with (ip4_of a). change (addr_size AF_INET) with 4 in Hl.
    apply ntop4_spec; [by apply Forall_take|unfold zlen in Hl; lia|lia|lia].
  - apply ntop6_spec; [done| |done]. change (addr_size AF_INET6) with 16 in Hl. unfold zlen in Hl. lia.
Qed.

Lemma pton_known af src dst a : known af -> addr_text af (ctext src) a -> addr_size af <= zlen dst ->
  curlx_inet_pton af src dst = Some (stored dst 0 a, 1, None).
Proof.
  intros [-> | ->] Ht Hd; unfold curlx_inet_pton; cbn [Z.eqb Pos.eqb AF_INET AF_INET6].
  - by rewrite (pton4_complete src a).
  - by rewrite (pton6_complete src a).
Qed.

Lemma print_is_text af a : known af -> bytes_ok a -> zlen a = addr_size af ->
  addr_text af (addr_print af a) a /\ Forall (fun c => c <> 0) (addr_print af a) /\ zlen (addr_print af a) < 46.
Proof.
  intros [-> | ->] Ha Hl.
  - change (addr_print AF_INET a) with (ip4_of a). change (addr_size AF_INET) with 4 in Hl.
    destruct a as [|b0 [|b1 [|b2 [|b3 [|]]]]]; try (unfold zlen in Hl; cbn in Hl; lia). split_and!; [by exists b0, b1, b2, b3| |].
    + by apply quad_text_nonzero.
    + pose proof (zlen_quad_text b0 b1 b2 b3 Ha). unfold ip4_of, at_, deref. cbn [drop]. lia.
  - change (addr_print AF_INET6 a) with (rfc5952 a). change (addr_size AF_INET6) with 16 in Hl.
    assert (Hl' : length a = 16%nat) by (unfold zlen in Hl; lia). pose proof (rfc5952_text a Ha Hl') as Ht.
    pose proof (rfc5952_length a Ha Hl'). split_and!; [done|by apply (ip6_text_nonzero _ a)|lia].
Qed.

(** C21: An IPv4 or IPv6 address that is written as text and read back is the
    same address; 46 bytes are enough for the text. *)
Theorem inet_roundtrip (af : Z) (a : list Z) (buf dst : mem) (size : Z) (rest : list Z) :
  known af -> bytes_ok a -> zlen a = addr_size af -> 46 <= size <= zlen buf -> addr_size af <= zlen dst ->
  exists t, curlx_inet_ntop af a buf size = Some (stored buf 0 (t ++ [0]), None) /\
    curlx_inet_pton af (t ++ 0 :: rest) dst = Some (stored dst 0 a, 1, None).
Proof.
  intros Haf Ha Hl Hs Hd. destruct (print_is_text af a Haf Ha Hl) as (Ht & Hnz & Hlen). exists (addr_print af a). split.
  - rewrite ntop_known by (done || lia). by rewrite (proj2 (Z.ltb_lt _ _)) by lia.
  - apply pton_known; [done| |done]. rewrite ctext_app; [done|done|]. right. by eexists.
Qed.

Lemma inet_roundtrip_witness : exists t,
  curlx_inet_ntop AF_INET6 ([254; 128] ++ replicate 13 0 ++ [1]) (uninit 46) 46 = Some (stored (uninit 46) 0 (t ++ [0]), None) /\
  curlx_inet_pton AF_INET6 (t ++ [0]) (uninit 16) = Some (stored (uninit 16) 0 ([254; 128] ++ replicate 13 0 ++ [1]), 1, None).
Proof. apply (inet_roundtrip AF_INET6); [by right|by_compute|done|done|done]. Defined.

(** C22: Reading an address: exactly the dotted decimal texts are IPv4
    addresses, exactly the texts of [ip6_text] are IPv6 addresses; the address
    is stored when the result is 1, and the destination is left alone
    otherwise.  An unknown family is an error. *)
Theorem inet_pton_correct (af : Z) (src : list Z) (dst : mem) : addr_size af <= zlen dst ->
  exists dst' r e, curlx_inet_pton af src dst = Some (dst', r, e) /\
    (known af -> e = None /\
      ((exists a, addr_text af (ctext src) a /\ dst' = stored dst 0 a /\ r = 1) \/
       r = 0 /\ dst' = dst /\ forall a, ~ addr_text af (ctext src) a)) /\
    (~ known af -> r = -1 /\ dst' = dst /\ e = Some EAFNOSUPPORT).
Proof.
  intros Hd. unfold curlx_inet_pton. destruct (Z.eqb_spec af AF_INET) as [->|H4].
  - destruct (pton4_spec src dst 0) as (res & E & Hres); [done|done|]. rewrite E. destruct res as [dst' r].
    exists dst', r, None. split; [done|]. split; [|intros H; by destruct H; left]. intros _. split; [done|].
    destruct Hres as [(a & Ha & [= -> ->])|[[= -> ->] Hno]]; [left; by exists a|by right].
  - destruct (Z.eqb_spec af AF_INET6) as [->|H6].
    + destruct (pton6_spec src dst) as (res & E & Hres); [done|]. rewrite E. destruct res as [dst' r].
      exists dst', r, None. split; [done|]. split; [|intros H; by destruct H; right]. intros _. split; [done|].
      destruct Hres as [(a & Ha & [= -> ->])|[[= -> ->] Hno]]; [left; by exists a|by right].
    + exists dst, (-1), (Some EAFNOSUPPORT). split; [done|]. split; [by intros [?|?]|done].
Qed.

Lemma inet_pton_correct_witness : exists dst' r e,
  curlx_inet_pton AF_INET6 (str "::ffff:1.2.3.4") (uninit 16) = Some (dst', r, e) /\
    (known AF_INET6 -> e = None /\
      ((exists a, addr_text AF_INET6 (ctext (str "::ffff:1.2.3.4")) a /\ dst' = stored (uninit 16) 0 a /\ r = 1) \/
       r = 0 /\ dst' = uninit 16 /\ forall a, ~ addr_text AF_INET6 (ctext (str "::ffff:1.2.3.4")) a)) /\
    (~ known AF_INET6 -> r = -1 /\ dst' = uninit 16 /\ e = Some EAFNOSUPPORT).
Proof. apply (inet_pton_correct AF_INET6). vm_compute. discriminate. Defined.

(** C23: Writing an address gives the decimal text of its four bytes, or the
    text of RFC 5952 with the first longest run of zero words as a double
    colon, and a NUL, when they fit the size; otherwise the buffer is left
    alone and the error is ENOSPC. *)
Theorem inet_ntop_correct (af : Z) (a : list Z) (buf : mem) (size : Z) :
  known af -> bytes_ok a -> zlen a = addr_size af -> size <= zlen buf ->
  curlx_inet_ntop af a buf size =
    if zlen (addr_print af a) <? size then Some (stored buf 0 (addr_print af a ++ [0]), None)
    else Some (buf, Some ENOSPC).
Proof. apply ntop_known. Qed.

Lemma inet_ntop_correct_witness :
  curlx_inet_ntop AF_INET6 (replicate 15 0 ++ [1]) (uninit 4) 4 = Some (stored (uninit 4) 0 (str "::1" ++ [0]), None) /\
  curlx_inet_ntop AF_INET6 (replicate 15 0 ++ [1]) (uninit 4) 3 = Some (uninit 4, Some ENOSPC).
Proof.
  split.
  - refine (eq_trans (inet_ntop_correct AF_INET6 (replicate 15 0 ++ [1]) (uninit 4) 4 _ _ _ _) _); [by right|by_compute|done|done|done].
  - refine (eq_trans (inet_ntop_correct AF_INET6 (replicate 15 0 ++ [1]) (uninit 4) 3 _ _ _ _) _); [by right|by_compute|done|done|done].
Defined.

(** A colon too many at the end is accepted, which no form of RFC 4291 has, and
    a full address with a double colon is refused. *)
Example pton6_trailing_colon :
  curlx_inet_pton AF_INET6 (str "1:2:3:4:5:6:7:8:") (uninit 16) =
  curlx_inet_pton AF_INET6 (str "1:2:3:4:5:6:7:8") (uninit 16) /\
  curlx_inet_pton AF_INET6 (str "1:2:3:4:5:6:7:8") (uninit 16) <> Some (uninit 16, 0, None) /\
  curlx_inet_pton AF_INET6 (str "1:2:3:4::5:6:7:8") (uninit 16) = Some (uninit 16, 0, None).
Proof. split_and!; [vm_compute; reflexivity|vm_compute; discriminate|vm_compute; reflexivity]. Qed.
