(* ===== verification/Parsedate.v ===== *)
(** Parsing dates, lib/parsedate.c, on a platform with a signed 64-bit
    [time_t].

    A [const char *] into the date is the rest of the string; what is before it
    is found from the lengths.  The computations in [int] and [curl_off_t] are
    checked, so [None] is a signed overflow or an access outside of a table.
    The conversion to seconds is proved against the calendar, the parser
    against the texts of the date formats it is made for. *)

From Stdlib Require Import ZArith Lia List Ascii String.
From stdpp Require Import base numbers option list.
From S2P Require Import Prelude Dynbuf Strparse Strcase InetAddr.
Close Scope nat_scope.
Open Scope Z_scope.

Definition Curl_wkday : list (list Z) := map str ["Mon"; "Tue"; "Wed"; "Thu"; "Fri"; "Sat"; "Sun"]%string.
Definition Curl_month : list (list Z) :=
  map str ["Jan"; "Feb"; "Mar"; "Apr"; "May"; "Jun"; "Jul"; "Aug"; "Sep"; "Oct"; "Nov"; "Dec"]%string.
Definition weekday : list (list Z) :=
  map str ["Monday"; "Tuesday"; "Wednesday"; "Thursday"; "Friday"; "Saturday"; "Sunday"]%string.

Definition PARSEDATE_OK : Z := 0.
Definition PARSEDATE_FAIL : Z := -1.

(** * Time zones *)

Definition tDAYZONE : Z := -60.

(** The names with their offsets in minutes. *)
Definition tz_table : list (string * Z) :=
  [("A"%string, (-1) * 60); ("ADT"%string, 240 + tDAYZONE); ("AHST"%string, 600);
   ("AST"%string, 240); ("B"%string, (-2) * 60); ("BST"%string, 0 + tDAYZONE);
   ("C"%string, (-3) * 60); ("CAT"%string, 600); ("CCT"%string, (-480));
   ("CDT"%string, 360 + tDAYZONE); ("CEST"%string, (-60) + tDAYZONE); ("CET"%string, (-60));
   ("CST"%string, 360); ("D"%string, (-4) * 60); ("E"%string, (-5) * 60);
   ("EADT"%string, (-600) + tDAYZONE); ("EAST"%string, (-600)); ("EDT"%string, 300 + tDAYZONE);
   ("EET"%string, (-120)); ("EST"%string, 300); ("F"%string, (-6) * 60);
   ("FST"%string, (-60) + tDAYZONE); ("FWT"%string, (-60)); ("G"%string, (-7) * 60);
   ("GMT"%string, 0); ("GST"%string, (-600)); ("H"%string, (-8) * 60);
   ("HDT"%string, 600 + tDAYZONE); ("HST"%string, 600); ("I"%string, (-9) * 60);
   ("IDLE"%string, (-720)); ("IDLW"%string, 720); ("JST"%string, (-540)); ("K"%string, (-10) * 60);
   ("L"%string, (-11) * 60); ("M"%string, (-12) * 60); ("MDT"%string, 420 + tDAYZONE);
   ("MEST"%string, (-60) + tDAYZONE); ("MESZ"%string, (-60) + tDAYZONE); ("MET"%string, (-60));
   ("MEWT"%string, (-60)); ("MST"%string, 420); ("N"%string, 60); ("NT"%string, 660);
   ("NZDT"%string, (-720) + tDAYZONE); ("NZST"%string, (-720)); ("NZT"%string, (-720));
   ("O"%string, 2 * 60); ("P"%string, 3 * 60); ("PDT"%string, 480 + tDAYZONE); ("PST"%string, 480);
   ("Q"%string, 4 * 60); ("R"%string, 5 * 60); ("S"%string, 6 * 60); ("T"%string, 7 * 60);
   ("U"%string, 8 * 60); ("UT"%string, 0); ("UTC"%string, 0); ("V"%string, 9 * 60);
   ("W"%string, 10 * 60); ("WADT"%string, (-420) + tDAYZONE); ("WAST"%string, (-420));
   ("WAT"%string, 60); ("WET"%string, 0); ("X"%string, 11 * 60); ("Y"%string, 12 * 60);
   ("YDT"%string, 540 + tDAYZONE); ("YST"%string, 540); ("Z"%string, 0)].

Definition tz : list (list Z * Z) := map (fun '(n, o) => (str n, o)) tz_table.

Fixpoint strcmp (a b : list Z) : Z :=
  match a with
  | [] => - deref b
  | x :: a =>
      if negb (x =? deref b) then x - deref b
      else if x =? 0 then 0
      else strcmp a (tail b)
  end.

(** [bsearch] in a sorted array. *)
Definition bsearch {A} (cmp : A -> Z) (l : list A) : option A := find (fun x => cmp x =? 0) l.

Definition checktz (check : list Z) (len : Z) : option Z :=
  if len <=? 4 then
    name ← curlx_strcopy (uninit 5) 0 5 (ztake len check);
    n ← mem_strlen name;
    name ← mem_read name 0 n;
    match bsearch (fun what => strcmp name what.1) tz with
    | Some what => Some (what.2 * 60)
    | None => Some (-1)
    end
  else Some (-1).

(** * Names *)

(** The loop over the seven names of [checkday]. *)
Fixpoint checkday_loop (i : Z) (what : list (list Z)) (check : list Z) (len : Z) : Z :=
  match what with
  | [] => -1
  | name :: what =>
      let ilen := strlen name in
      if (ilen =? len) && curl_strnequal (Some check) (Some name) len then i
      else checkday_loop (i + 1) what check len
  end.

Definition checkday (check : list Z) (len : Z) : Z :=
  if len >? 3 then checkday_loop 0 weekday check len
  else if len =? 3 then checkday_loop 0 Curl_wkday check len
  else -1.

Fixpoint checkmonth_loop (i : Z) (what : list (list Z)) (check : list Z) : Z :=
  match what with
  | [] => -1
  | name :: what =>
      if curl_strnequal (Some check) (Some name) 3 then i else checkmonth_loop (i + 1) what check
  end.

Definition checkmonth (check : list Z) (len : Z) : Z :=
  if negb (len =? 3) then -1 else checkmonth_loop 0 Curl_month check.

Fixpoint skip (date : list Z) : list Z :=
  match date with
  | [] => []
  | c :: rest => if negb (c =? 0) && negb (ISALNUM c) then skip rest else date
  end.

(** * The fields of a date *)

(** A field is -1 when it is not known. *)
Record when := mk_when {
  wday : Z; mon : Z; mday : Z; hour : Z; minute : Z; sec : Z; year : Z; tzoff : Z
}.

Definition set_wday v w := mk_when v (mon w) (mday w) (hour w) (minute w) (sec w) (year w) (tzoff w).
Definition set_mon v w := mk_when (wday w) v (mday w) (hour w) (minute w) (sec w) (year w) (tzoff w).
Definition set_mday v w := mk_when (wday w) (mon w) v (hour w) (minute w) (sec w) (year w) (tzoff w).
Definition set_time h m s w := mk_when (wday w) (mon w) (mday w) h m s (year w) (tzoff w).
Definition set_year v w := mk_when (wday w) (mon w) (mday w) (hour w) (minute w) (sec w) v (tzoff w).
Definition set_tzoff v w := mk_when (wday w) (mon w) (mday w) (hour w) (minute w) (sec w) (year w) v.

Inductive assume := DATE_MDAY | DATE_YEAR | DATE_TIME.

#[global] Instance assume_eq_dec : EqDecision assume.
Proof. solve_decision. Defined.

Definition LEAP_DAYS_BEFORE_1969 : Z := 477.

Definition cumulative_days : list Z := [0; 31; 59; 90; 120; 151; 181; 212; 243; 273; 304; 334].

(** A computation in [int]. *)
Definition int (x : Z) : option Z :=
  if (-2147483648 <=? x) && (x <=? 2147483647) then Some x else None.

Definition time2epoch (w : when) : option Z :=
  y ← int (year w - (if mon w <=? 1 then 1 else 0));
  leap_days ← int (Z.quot y 4 - Z.quot y 100 + Z.quot y 400 - LEAP_DAYS_BEFORE_1969);
  _ ← int (year w - 1970);
  c ← (if mon w <? 0 then None else cumulative_days !! Z.to_nat (mon w));
  days ← off_t ((year w - 1970) * 365 + leap_days + c + mday w - 1);
  off_t (((days * 24 + hour w) * 60 + minute w) * 60 + sec w).

(** * Numbers *)

(** The value and what is behind it. *)
Definition oneortwodigit (date : list Z) : Z * list Z :=
  let num := deref date - 48 in
  if ISDIGIT (at_ date 1) then (num * 10 + (at_ date 1 - 48), drop 2 date)
  else (num, drop 1 date).

(** The hours, minutes and seconds, and what is behind them. *)
Definition match_time (date : list Z) : option (Z * Z * Z * list Z) :=
  let '(hh, p) := oneortwodigit date in
  if (hh <? 24) && (deref p =? 58) && ISDIGIT (at_ p 1) then
    let '(mm, p) := oneortwodigit (drop 1 p) in
    if mm <? 60 then
      if (deref p =? 58) && ISDIGIT (at_ p 1) then
        let '(ss, p) := oneortwodigit (drop 1 p) in
        if ss <=? 60 then Some (hh, mm, ss, p) else None
      else Some (hh, mm, 0, p)
    else None
  else None.

Definition NAME_LEN : Z := 12.

Definition initwhen : when := mk_when (-1) (-1) (-1) (-1) (-1) (-1) (-1) (-1).

(** The length of the name at [p]: letters, [n] more at most. *)
Fixpoint name_len (n : nat) (p : list Z) : Z :=
  match n, p with
  | S n, c :: p => if ISALPHA c then 1 + name_len n p else 0
  | _, _ => 0
  end.

(** The result, the rest of the date and the fields. *)
Definition datestring (datep : list Z) (w : when) : option (Z * list Z * when) :=
  let len := name_len (Z.to_nat NAME_LEN) datep in
  '(found, w) ←
    (if negb (len =? NAME_LEN) then
       let '(found, w) :=
         (if wday w =? -1 then
            let d := checkday datep len in (negb (d =? -1), set_wday d w)
          else (false, w)) in
       let '(found, w) :=
         (if negb found && (mon w =? -1) then
            let m := checkmonth datep len in (negb (m =? -1), set_mon m w)
          else (found, w)) in
       if negb found && (tzoff w =? -1) then
         z ← checktz datep len;
         Some (negb (z =? -1), set_tzoff z w)
       else Some (found, w)
     else Some (false, w));
  if negb found then Some (PARSEDATE_FAIL, datep, w)
  else Some (PARSEDATE_OK, zdrop len datep, w).

(** [date[-1]], for a [date] behind the start of [indate]. *)
Definition char_before (indate date : list Z) : Z :=
  at_ indate (length indate - length date - 1).

(** What [datenum] does with a number [val] of [num_digits] digits: the fields,
    what a number is taken for next, and whether it was used. *)
Definition take_zone (indate date : list Z) (num_digits val : Z) (w : when) : bool :=
  (tzoff w =? -1) && (num_digits =? 4) && (val <=? 1400) &&
  (zlen date <? zlen indate) &&
  ((char_before indate date =? 43) || (char_before indate date =? 45)).

Definition take_ymd (num_digits : Z) (w : when) : bool :=
  (num_digits =? 8) && (year w =? -1) && (mon w =? -1) && (mday w =? -1).

Definition use_number (indate date : list Z) (num_digits val : Z) (w : when) (dignext : assume)
    : bool * when * assume :=
  let '(found, w) :=
    (if take_zone indate date num_digits val w then
       let off := (val / 100 * 60 + val mod 100) * 60 in
       (true, set_tzoff (if char_before indate date =? 43 then - off else off) w)
     else if take_ymd num_digits w then
       (true, set_mday (val mod 100) (set_mon (val mod 10000 / 100 - 1) (set_year (val / 10000) w)))
     else (false, w)) in
  let '(found, w, dignext) :=
    (if negb found && bool_decide (dignext = DATE_MDAY) && (mday w =? -1) then
       if (val >? 0) && (val <? 32) then (true, set_mday val w, DATE_YEAR)
       else (found, w, DATE_YEAR)
     else (found, w, dignext)) in
  if negb found && bool_decide (dignext = DATE_YEAR) && (year w =? -1) then
    let y := if val <? 100 then (if val >? 70 then val + 1900 else val + 2000) else val in
    (true, set_year y w, if mday w =? -1 then DATE_MDAY else dignext)
  else (found, w, dignext).

Definition datenum (indate datep : list Z) (w : when) (dignextp : assume)
    : option (Z * list Z * when * assume) :=
  match (if sec w =? -1 then match_time datep else None) with
  | Some (hh, mm, ss, date) => Some (PARSEDATE_OK, date, set_time hh mm ss w, dignextp)
  | None =>
      '(rc, val, p) ← curlx_str_number datep 99999999;
      match rc with
      | STRE_OK =>
          let num_digits := zlen datep - zlen p in
          let '(found, w, dignext) := use_number indate datep num_digits val w dignextp in
          if negb found then Some (PARSEDATE_FAIL, datep, w, dignextp)
          else Some (PARSEDATE_OK, p, w, dignext)
      | _ => Some (PARSEDATE_FAIL, datep, w, dignextp)
      end
  end.

(** * The date *)

Definition datecheck (w : when) : Z * when :=
  let w := if sec w =? -1 then set_time 0 0 0 w else w in
  if (mday w =? -1) || (mon w =? -1) || (year w =? -1) then (PARSEDATE_FAIL, w)
  else if year w <? 1583 then (PARSEDATE_FAIL, w)
  else if (mday w >? 31) || (mon w >? 11) || (hour w >? 23) || (minute w >? 59) || (sec w >? 60)
  then (PARSEDATE_FAIL, w)
  else (PARSEDATE_OK, w).

Definition tzadjust (tp : Z) (w : when) : option Z :=
  let off := if tzoff w =? -1 then 0 else tzoff w in
  if (off >? 0) && (tp >? CURL_OFF_T_MAX - off) then Some CURL_OFF_T_MAX
  else off_t (tp + off).

(** The loop over the parts of a date. *)
Fixpoint parts_loop (parts : nat) (indate date : list Z) (w : when) (dignext : assume) : option (Z * when) :=
  match parts with
  | O => Some (0, w)
  | S parts =>
      if deref date =? 0 then Some (0, w)
      else
        let date := skip date in
        '(rc, date, w, dignext) ←
          (if ISALPHA (deref date) then
             '(rc, date, w) ← datestring date w; Some (rc, date, w, dignext)
           else if ISDIGIT (deref date) then datenum indate date w dignext
           else Some (0, date, w, dignext));
        if negb (rc =? 0) then Some (rc, w)
        else parts_loop parts indate date w dignext
  end.

(** The result, and what is stored in [*output]. *)
Definition parsedate (date : list Z) : option (Z * option Z) :=
  '(rc, w) ← parts_loop 6 date date initwhen DATE_MDAY;
  if negb (rc =? 0) then Some (rc, None)
  else
    let '(rc, w) := datecheck w in
    if negb (rc =? 0) then Some (rc, None)
    else
      seconds ← time2epoch w;
      seconds ← tzadjust seconds w;
      Some (PARSEDATE_OK, Some seconds).

Definition curl_getdate (p : list Z) : option Z :=
  '(rc, out) ← parsedate p;
  let parsed := default (-1) out in
  if rc =? PARSEDATE_OK then Some (if parsed =? -1 then parsed + 1 else parsed) else Some (-1).

(** The result is zero or not; [*tp] is what is stored. *)
Definition Curl_getdate_capped (p : list Z) : option (bool * option Z) :=
  '(rc, out) ← parsedate p; Some (rc =? PARSEDATE_FAIL, out).

Example getdate_examples :
  map (fun s => curl_getdate (str s))
    ["Sun, 06 Nov 1994 08:49:37 GMT"; "Sunday, 06-Nov-94 08:49:37 GMT"; "Sun Nov  6 08:49:37 1994";
     "06 Nov 1994 08:49:37"; "1994 Nov 6 08:49:37"; "GMT 08:49:37 06-Nov-94 Sunday"; "94 6 Nov 08:49:37";
     "1994 Nov 6"; "Sun/Nov/6/94/GMT"; "Sun, 12 Sep 2004 15:05:58 -0700"; "Sat, 11 Sep 2004 21:32:11 +0200";
     "20040912 15:05:58 -0700"; "20040911 +0200"; "Thu, 01-Jan-1970 00:59:58 GMT"; "20040900"; "nonsense"]%string =
  map Some [784111777; 784111777; 784111777; 784111777; 784111777; 784111777; 784111777; 784080000;
    784080000; 1095026758; 1094931131; 1095026758; 1094853600; 3598; 1093910400; -1].
Proof. vm_compute. reflexivity. Qed.

(** * The calendar *)

Definition leap (y : Z) : bool :=
  (y mod 4 =? 0) && (negb (y mod 100 =? 0) || (y mod 400 =? 0)).

(** The months are numbered from 0. *)
Definition month_len (y m : Z) : Z :=
  if m =? 1 then (if leap y then 29 else 28)
  else if (m =? 3) || (m =? 5) || (m =? 8) || (m =? 10) then 30 else 31.

Fixpoint days_before_month (y : Z) (m : nat) : Z :=
  match m with O => 0 | S m => days_before_month y m + month_len y (Z.of_nat m) end.

(** The days of the years from 0 on. *)
Fixpoint days_before_year (y : nat) : Z :=
  match y with O => 0 | S y => days_before_year y + days_before_month (Z.of_nat y) 12 end.

(** The days from 1970-01-01 to a date. *)
Definition day_number (y m d : Z) : Z :=
  days_before_year (Z.to_nat y) - days_before_year 1970 + days_before_month y (Z.to_nat m) + (d - 1).

Definition seconds_of (y m d hh mm ss : Z) : Z := 86400 * day_number y m d + 3600 * hh + 60 * mm + ss.

Lemma year_len y : days_before_month y 12 = if leap y then 366 else 365.
Proof. cbv -[leap]. by destruct (leap y). Qed.

Lemma days_before_year_spec n :
  days_before_year n = 365 * Z.of_nat n + (Z.of_nat n + 3) / 4 - (Z.of_nat n + 99) / 100 + (Z.of_nat n + 399) / 400.
Proof.
  induction n as [|n IH]; [done|]. cbn [days_before_year]. rewrite year_len, IH. unfold leap.
  destruct (Z.eqb_spec (Z.of_nat n mod 4) 0), (Z.eqb_spec (Z.of_nat n mod 100) 0), (Z.eqb_spec (Z.of_nat n mod 400) 0);
    cbn [andb orb negb]; rewrite Nat2Z.inj_succ; dlia.
Qed.

Lemma days_before_month_spec y m c : 0 <= m <= 11 -> cumulative_days !! Z.to_nat m = Some c ->
  days_before_month y (Z.to_nat m) = c + (if (2 <=? m) && leap y then 1 else 0).
Proof.
  intros Hm Hc. assert (H : m = 0 \/ m = 1 \/ m = 2 \/ m = 3 \/ m = 4 \/ m = 5 \/ m = 6 \/ m = 7 \/ m = 8 \/ m = 9 \/ m = 10 \/ m = 11) by lia.
  destruct_or! H; subst m; injection Hc as <-; cbv -[leap]; destruct (leap y); done.
Qed.

Lemma int_ok x : -2147483648 <= x <= 2147483647 -> int x = Some x.
Proof. intros H. unfold int. by rewrite !(proj2 (Z.leb_le _ _)) by lia. Qed.

Lemma off_t_ok x : - CURL_OFF_T_MAX - 1 <= x <= CURL_OFF_T_MAX -> off_t x = Some x.
Proof. intros H. unfold off_t. by rewrite !(proj2 (Z.leb_le _ _)) by lia. Qed.

(** The fields after the checks: days from 0 to 31 in any month. *)
Definition when_ok (w : when) : Prop :=
  1583 <= year w <= 99999999 /\ 0 <= mon w <= 11 /\ 0 <= mday w <= 31 /\ 0 <= hour w <= 23 /\
  0 <= minute w <= 59 /\ 0 <= sec w <= 60.

Lemma day_number_eq y m d c : 0 <= y -> 0 <= m <= 11 -> cumulative_days !! Z.to_nat m = Some c ->
  let y' := y - (if m <=? 1 then 1 else 0) in
  day_number y m d = (y - 1970) * 365 + (y' / 4 - y' / 100 + y' / 400 - 477) + c + d - 1.
Proof.
  intros Hy Hm Hc y'. unfold day_number. rewrite (days_before_month_spec y m c) by done.
  rewrite !days_before_year_spec, Z2Nat.id by lia. change (Z.of_nat 1970) with 1970.
  unfold y', leap. destruct (Z.leb_spec m 1), (Z.leb_spec 2 m); try lia; cbn [andb]; [dlia|].
  destruct (Z.eqb_spec (y mod 4) 0), (Z.eqb_spec (y mod 100) 0), (Z.eqb_spec (y mod 400) 0); cbn [andb orb negb]; dlia.
Qed.

Lemma cumulative_lookup m : 0 <= m <= 11 -> exists c, cumulative_days !! Z.to_nat m = Some c /\ 0 <= c <= 334.
Proof.
  intros Hm. assert (H : m = 0 \/ m = 1 \/ m = 2 \/ m = 3 \/ m = 4 \/ m = 5 \/ m = 6 \/ m = 7 \/ m = 8 \/ m = 9 \/ m = 10 \/ m = 11) by lia.
  destruct_or! H; subst m; (eexists; split; [reflexivity|lia]).
Qed.

Lemma time2epoch_spec w : when_ok w ->
  time2epoch w = Some (seconds_of (year w) (mon w) (mday w) (hour w) (minute w) (sec w)).
Proof.
  intros (Hy & Hm & Hd & Hh & Hmi & Hs). unfold time2epoch, seconds_of.
  destruct (cumulative_lookup (mon w) Hm) as (c & Hc & Hcr). rewrite (day_number_eq _ _ _ c) by (done || lia).
  set (y' := year w - (if mon w <=? 1 then 1 else 0)). assert (Hy' : 1582 <= y' <= 99999999) by (unfold y'; case_if; lia).
  rewrite (int_ok y'), (int_ok (year w - 1970)) by lia. cbn [mbind option_bind]. rewrite !Z.quot_div_nonneg by lia.
  set (leap_days := y' / 4 - y' / 100 + y' / 400 - LEAP_DAYS_BEFORE_1969).
  assert (Hl : -1000 <= leap_days <= 99999999) by (unfold leap_days, LEAP_DAYS_BEFORE_1969; dlia).
  rewrite int_ok by lia. cbn [mbind option_bind].
  rewrite (proj2 (Z.ltb_ge (mon w) 0)) by lia. rewrite Hc. cbn [mbind option_bind].
  rewrite off_t_ok by (unfold CURL_OFF_T_MAX; lia). cbn [mbind option_bind].
  rewrite off_t_ok by (unfold CURL_OFF_T_MAX; lia). f_equal. unfold leap_days, LEAP_DAYS_BEFORE_1969. lia.
Qed.

(** * The parser keeps the fields in range *)

Definition w_inv (w : when) : Prop :=
  -1 <= mon w <= 98 /\ -1 <= mday w <= 99 /\ -1 <= year w <= 99999999 /\ -52740 <= tzoff w <= 52740 /\
  (sec w = -1 \/ 0 <= hour w <= 23 /\ 0 <= minute w <= 59 /\ 0 <= sec w <= 60).

Lemma ISALPHA_nonzero c : ISALPHA c = true -> c <> 0.
Proof. by intros H ->. Qed.

Lemma name_len_spec n : forall p, 0 <= name_len n p <= Z.of_nat n /\ name_len n p <= zlen p /\
  Forall (fun c => c <> 0) (ztake (name_len n p) p).
Proof.
  induction n as [|n IH]; intros p; [split_and!; [done|done|apply zlen_nonneg|constructor]|].
  destruct p as [|c p]; [split_and!; cbn; try done; lia|]. cbn [name_len]. destruct (ISALPHA c) eqn:E.
  - destruct (IH p) as (H1 & H2 & H3). rewrite zlen_cons. split_and!; try lia. unfold ztake in *.
    replace (Z.to_nat (1 + name_len n p)) with (S (Z.to_nat (name_len n p))) by lia. cbn [take].
    constructor; [by apply ISALPHA_nonzero|done].
  - split_and!; try lia; [apply zlen_nonneg|constructor].
Qed.

(** The table is sorted, as [bsearch] needs it. *)
Lemma tz_sorted : forallb (fun '(a, b) => strcmp a.1 b.1 <? 0) (combine tz (tail tz)) = true.
Proof. vm_compute. reflexivity. Qed.

(** The offset of a zone name in seconds, -1 without one. *)
Definition zone_of (name : list Z) : Z :=
  match bsearch (fun what => strcmp name what.1) tz with Some what => what.2 * 60 | None => -1 end.

Lemma zone_of_range name : -46800 <= zone_of name <= 43200.
Proof.
  unfold zone_of, bsearch. destruct (find _ tz) as [what|] eqn:E; [|lia].
  apply find_some in E as [Hin _].
  assert (H : forallb (fun what => (-780 <=? what.2) && (what.2 <=? 720)) tz = true) by (vm_compute; reflexivity).
  rewrite forallb_forall in H. specialize (H what Hin). cbn in H. zb_hyps. lia.
Qed.

Lemma checktz_spec check len : 0 <= len <= zlen check -> Forall (fun c => c <> 0) (ztake len check) ->
  checktz check len = Some (if len <=? 4 then zone_of (ztake len check) else -1).
Proof.
  intros Hl Hnz. unfold checktz. destruct (Z.leb_spec len 4); [|done]. set (t := ztake len check) in *.
  assert (Ht : zlen t = len) by (unfold t; rewrite zlen_ztake; lia).
  rewrite strcopy_spec by (unfold uninit; rewrite ?zlen_replicate; lia). cbn [mbind option_bind].
  set (r := zdrop (0 + zlen (t ++ [0])) (uninit 5)).
  replace (stored (uninit 5) 0 (t ++ [0])) with (map Some t ++ Some 0 :: r) by (unfold stored; rewrite map_app, <- app_assoc; done).
  rewrite mem_strlen_text by done. cbn [mbind option_bind].
  pose proof (mem_read_mid [] (Some 0 :: r) t) as Hr. cbn [app] in Hr. rewrite (Hr : mem_read _ 0 _ = _). cbn [mbind option_bind].
  unfold zone_of. by destruct (bsearch _ tz).
Qed.

Lemma checkday_loop_range check len what : forall i, 0 <= i ->
  -1 <= checkday_loop i what check len < i + zlen what \/ what = [] /\ checkday_loop i what check len = -1.
Proof.
  induction what as [|name what IH]; intros i Hi; [by right|]. left. cbn [checkday_loop]. rewrite zlen_cons.
  pose proof (zlen_nonneg what). case_if; [lia|]. destruct (IH (i + 1)) as [H'|[-> H']]; [lia|lia|]. rewrite H', zlen_nil. lia.
Qed.

Lemma checkmonth_range check len : -1 <= checkmonth check len <= 11.
Proof.
  unfold checkmonth. case_if; [lia|].
  assert (H : forall what i, 0 <= i -> -1 <= checkmonth_loop i what check <= i + zlen what - 1 \/ checkmonth_loop i what check = -1).
  { induction what as [|name what IH]; intros i Hi; [by right|]. cbn [checkmonth_loop]. rewrite zlen_cons.
    pose proof (zlen_nonneg what). case_if; [left; lia|]. destruct (IH (i + 1)); [lia|left; lia|by right]. }
  destruct (H Curl_month 0) as [H'|H']; [lia|change (zlen Curl_month) with 12 in H'; lia|lia].
Qed.

Lemma datestring_inv date w : w_inv w -> exists rc p w', datestring date w = Some (rc, p, w') /\ w_inv w' /\
  (rc = PARSEDATE_OK \/ rc = PARSEDATE_FAIL).
Proof.
  intros Hw. unfold datestring. change (Z.to_nat NAME_LEN) with 12%nat. set (len := name_len 12 date).
  destruct (name_len_spec 12 date) as (H1 & H2 & H3). fold len in H1, H2, H3.
  assert (Hend : forall found w', w_inv w' -> exists rc p w'', (if negb found then Some (PARSEDATE_FAIL, date, w')
    else Some (PARSEDATE_OK, zdrop len date, w')) = Some (rc, p, w'') /\ w_inv w'' /\ (rc = PARSEDATE_OK \/ rc = PARSEDATE_FAIL)).
  { intros found w' Hw'. destruct found; cbn [negb]; do 3 eexists; (split; [reflexivity|]); tauto. }
  destruct (negb (len =? NAME_LEN)); [|by apply (Hend false)].
  set (a := if wday w =? -1 then _ else _).
  assert (Ha : w_inv a.2) by (unfold a; destruct (wday w =? -1); [exact Hw|done]). destruct a as [found w1]. cbn [snd] in Ha.
  set (b := if negb found && (mon w1 =? -1) then _ else _).
  assert (Hb : w_inv b.2).
  { unfold b. destruct (negb found && (mon w1 =? -1)); [|done]. pose proof (checkmonth_range date len).
    generalize dependent (checkmonth date len). unfold w_inv in *. cbn. intuition lia. }
  destruct b as [found2 w2]. cbn [snd] in Hb. destruct (negb found2 && (tzoff w2 =? -1)); [|by apply Hend].
  rewrite checktz_spec; [|lia|exact H3]. cbn [mbind option_bind]. apply Hend.
  pose proof (zone_of_range (ztake len date)). generalize dependent (zone_of (ztake len date)).
  intros z Hz. destruct (len <=? 4); unfold w_inv in *; cbn; intuition lia.
Qed.

Lemma ISDIGIT_deref date : ISDIGIT (deref date) = true -> exists c r, date = c :: r /\ 48 <= c <= 57.
Proof. intros H. apply ISDIGIT_iff in H. destruct date as [|c r]; [cbn in H; lia|]. by exists c, r. Qed.

Lemma oneortwodigit_range date : ISDIGIT (deref date) = true -> 0 <= (oneortwodigit date).1 <= 99.
Proof.
  intros H. apply ISDIGIT_iff in H. unfold oneortwodigit. destruct (ISDIGIT (at_ date 1)) eqn:E; cbn [fst]; [|lia].
  apply ISDIGIT_iff in E. lia.
Qed.

Lemma match_time_range date hh mm ss p : ISDIGIT (deref date) = true -> match_time date = Some (hh, mm, ss, p) ->
  0 <= hh <= 23 /\ 0 <= mm <= 59 /\ 0 <= ss <= 60.
Proof.
  intros H. unfold match_time. pose proof (oneortwodigit_range date H) as Hr1.
  destruct (oneortwodigit date) as [h p1]. cbn [fst] in Hr1.
  destruct ((h <? 24) && (deref p1 =? 58) && ISDIGIT (at_ p1 1)) eqn:E1; [|done]. zb_hyps.
  pose proof (oneortwodigit_range (drop 1 p1)) as Hr2. unfold at_ in *. specialize (Hr2 ltac:(done)).
  destruct (oneortwodigit (drop 1 p1)) as [m p2]. cbn [fst] in Hr2. destruct (m <? 60) eqn:E2; [|done]. zb_hyps.
  destruct ((deref p2 =? 58) && ISDIGIT (deref (drop 1 p2))) eqn:E3.
  - zb_hyps. pose proof (oneortwodigit_range (drop 1 p2) ltac:(done)) as Hr3.
    destruct (oneortwodigit (drop 1 p2)) as [s p3]. cbn [fst] in Hr3. destruct (s <=? 60) eqn:E4; [|done]. zb_hyps.
    intros [= <- <- <- <-]. lia.
  - intros [= <- <- <- <-]. lia.
Qed.

(** The number at the start of a date. *)
Lemma str_number_spec date : ISDIGIT (deref date) = true -> exists rc val p,
  curlx_str_number date 99999999 = Some (rc, val, p) /\ 0 <= val <= 99999999.
Proof.
  intros H. unfold curlx_str_number. rewrite str_num_base_spec by (try lia; unfold CURL_OFF_T_MAX; lia).
  destruct (digit_span (max_digit 10) date) as [[|d ds] r]; [by do 3 eexists|].
  destruct (Z.leb_spec (digits_value 10 0 (d :: ds)) 99999999); [|by do 3 eexists].
  do 3 eexists. split; [done|]. split; [|done]. by apply digits_value_ge.
Qed.

Lemma use_number_inv indate date n val w dn : w_inv w -> 0 <= val <= 99999999 ->
  w_inv (use_number indate date n val w dn).1.2.
Proof.
  intros Hw Hv. unfold use_number.
  set (a := if take_zone _ _ _ _ _ then _ else _).
  assert (Ha : w_inv a.2).
  { unfold a. destruct (take_zone indate date n val w) eqn:Ez.
    - unfold take_zone in Ez. zb_hyps. assert (Ho : 0 <= (val / 100 * 60 + val mod 100) * 60 <= 52740) by dlia.
      generalize dependent ((val / 100 * 60 + val mod 100) * 60). intros o Ho. destruct (_ =? 43); unfold w_inv in *; cbn; intuition lia.
    - destruct (take_ymd n w); [|done]. assert (H1 : 0 <= val mod 100 <= 99) by dlia.
      assert (H2 : -1 <= val mod 10000 / 100 - 1 <= 98) by dlia. assert (H3 : 0 <= val / 10000 <= 99999999) by dlia.
      generalize dependent (val mod 100). generalize dependent (val mod 10000 / 100 - 1). generalize dependent (val / 10000).
      intros. unfold w_inv in *. cbn. intuition lia. }
  destruct a as [found w1]. cbn [snd] in Ha.
  set (b := if negb found && bool_decide (dn = DATE_MDAY) && (mday w1 =? -1) then _ else _).
  assert (Hb : w_inv b.1.2).
  { unfold b. destruct (negb found && _ && _); [|done]. destruct ((val >? 0) && (val <? 32)) eqn:E; [|done]. zb_hyps.
    unfold w_inv in *. cbn. intuition lia. }
  destruct b as [[found2 w2] dn2]. cbn [fst snd] in Hb. destruct (negb found2 && _ && _); [|done]. cbn [fst snd].
  set (y := if val <? 100 then _ else _). assert (Hy : 0 <= y <= 99999999) by (unfold y; repeat case_if; lia).
  clearbody y. unfold w_inv in *. cbn. intuition lia.
Qed.

Lemma datenum_inv indate date w dn : w_inv w -> ISDIGIT (deref date) = true -> exists rc p w' dn',
  datenum indate date w dn = Some (rc, p, w', dn') /\ w_inv w' /\ (rc = PARSEDATE_OK \/ rc = PARSEDATE_FAIL).
Proof.
  intros Hw Hd. unfold datenum. destruct (if sec w =? -1 then match_time date else None) as [[[[hh mm] ss] p]|] eqn:Et.
  - destruct (sec w =? -1); [|done]. apply match_time_range in Et; [|done]. do 4 eexists. split; [done|].
    unfold w_inv in *. cbn. intuition lia.
  - destruct (str_number_spec date Hd) as (rc & val & p & E & Hv). rewrite E. cbn [mbind option_bind].
    destruct rc; try (by do 4 eexists; split; [done|]; tauto).
    pose proof (use_number_inv indate date (zlen date - zlen p) val w dn Hw Hv) as Hu.
    destruct (use_number _ _ _ _ _ _) as [[found w'] dn']. cbn [fst snd] in Hu.
    destruct found; cbn [negb]; do 4 eexists; (split; [done|]); tauto.
Qed.

Lemma parts_loop_inv parts indate : forall date w dn, w_inv w -> exists rc w',
  parts_loop parts indate date w dn = Some (rc, w') /\ w_inv w' /\ (rc = PARSEDATE_OK \/ rc = PARSEDATE_FAIL).
Proof.
  induction parts as [|parts IH]; intros date w dn Hw; [do 2 eexists; split; [done|]; tauto|]. cbn [parts_loop].
  destruct (deref date =? 0); [do 2 eexists; split; [done|]; tauto|]. set (d := skip date).
  assert (Hgo : forall rc p w' dn', w_inv w' -> rc = PARSEDATE_OK \/ rc = PARSEDATE_FAIL -> exists rc0 w0,
    (if negb (rc =? 0) then Some (rc, w') else parts_loop parts indate p w' dn') = Some (rc0, w0) /\ w_inv w0 /\
    (rc0 = PARSEDATE_OK \/ rc0 = PARSEDATE_FAIL)).
  { intros rc p w' dn' Hw' Hrc. destruct (negb (rc =? 0)); [do 2 eexists; split; [done|]; tauto|by apply IH]. }
  destruct (ISALPHA (deref d)).
  - destruct (datestring_inv d w Hw) as (rc & p & w' & E & Hw' & Hrc). rewrite E. cbn [mbind option_bind]. by apply Hgo.
  - destruct (ISDIGIT (deref d)) eqn:Ed; [|cbn [mbind option_bind]; apply Hgo; tauto].
    destruct (datenum_inv indate d w dn Hw Ed) as (rc & p & w' & dn' & E & Hw' & Hrc). rewrite E. cbn [mbind option_bind]. by apply Hgo.
Qed.

(** * Every string *)

Lemma datecheck_spec w : w_inv w -> exists rc w', datecheck w = (rc, w') /\ tzoff w' = tzoff w /\
  (rc = PARSEDATE_FAIL \/ rc = PARSEDATE_OK /\ when_ok w').
Proof.
  intros Hw. unfold datecheck. set (w1 := if sec w =? -1 then _ else _).
  assert (H1 : w_inv w1 /\ tzoff w1 = tzoff w /\ 0 <= hour w1 <= 23 /\ 0 <= minute w1 <= 59 /\ 0 <= sec w1 <= 60).
  { unfold w1. unfold w_inv in *. destruct (Z.eqb_spec (sec w) (-1)); cbn; intuition lia. }
  clearbody w1. destruct H1 as (Hi & Hz & Hh & Hm & Hs). unfold w_inv in Hi.
  repeat match goal with |- context [if ?b then _ else _] => destruct b eqn:? end; zb_hyps;
    (do 2 eexists; split; [reflexivity|]; split; [done|]); [by left..|].
  right. split; [done|]. unfold when_ok. intuition lia.
Qed.

Lemma seconds_range w : when_ok w -> -12213000000 <= seconds_of (year w) (mon w) (mday w) (hour w) (minute w) (sec w) <= 3200000000000000.
Proof.
  intros (Hy & Hm & Hd & Hh & Hmi & Hs). unfold seconds_of. destruct (cumulative_lookup (mon w) Hm) as (c & Hc & Hcr).
  rewrite (day_number_eq _ _ _ c) by (done || lia).
  set (y' := year w - (if mon w <=? 1 then 1 else 0)). assert (Hy' : year w - 1 <= y' <= year w) by (unfold y'; case_if; lia).
  assert (Hl : 97 * y' - 699 <= 400 * (y' / 4 - y' / 100 + y' / 400) <= 97 * y' + 396) by dlia.
  generalize dependent (y' / 4 - y' / 100 + y' / 400). intros q Hq. clearbody y'. lia.
Qed.

Lemma tzadjust_spec t w : -20000000000 <= t <= 4000000000000000 -> -52740 <= tzoff w <= 52740 ->
  tzadjust t w = Some (t + if tzoff w =? -1 then 0 else tzoff w).
Proof.
  intros Ht Hz. unfold tzadjust. set (off := if tzoff w =? -1 then 0 else tzoff w).
  assert (Ho : -52740 <= off <= 52740) by (unfold off; case_if; lia).
  destruct ((off >? 0) && (t >? CURL_OFF_T_MAX - off)) eqn:E; [zb_hyps; unfold CURL_OFF_T_MAX in *; lia|].
  apply off_t_ok. unfold CURL_OFF_T_MAX. lia.
Qed.

Lemma parsedate_cases date : parsedate date = Some (PARSEDATE_FAIL, None) \/
  exists w z, when_ok w /\ -52740 <= z <= 52740 /\
    parsedate date = Some (PARSEDATE_OK, Some (seconds_of (year w) (mon w) (mday w) (hour w) (minute w) (sec w) + z)).
Proof.
  unfold parsedate. destruct (parts_loop_inv 6 date date initwhen DATE_MDAY) as (rc & w & E & Hw & Hrc).
  { unfold w_inv, initwhen. cbn. lia. }
  rewrite E. cbn [mbind option_bind]. destruct Hrc as [->| ->]; [|by left]. cbn [PARSEDATE_OK Z.eqb negb].
  destruct (datecheck_spec w Hw) as (rc & w' & Ed & Hz & [->|[-> Hok]]); rewrite Ed; [by left|]. right.
  exists w', (if tzoff w' =? -1 then 0 else tzoff w'). cbn [PARSEDATE_OK Z.eqb negb].
  rewrite time2epoch_spec by done. cbn [mbind option_bind]. pose proof (seconds_range w' Hok).
  destruct Hw as (_ & _ & _ & Htz & _). rewrite <- Hz in Htz. rewrite tzadjust_spec by lia. cbn [mbind option_bind].
  split; [done|]. split; [case_if; lia|done].
Qed.

(** * The texts of dates *)

Definition d2 (n : Z) : list Z := [48 + n / 10; 48 + n mod 10].
Definition d4 (n : Z) : list Z := d2 (n / 100) ++ d2 (n mod 100).

Definition name_at (names : list (list Z)) (i : Z) : list Z := nth (Z.to_nat i) names [].

Definition time_text (hh mm ss : Z) : list Z := d2 hh ++ [58] ++ d2 mm ++ [58] ++ d2 ss.

(** [+hhmm] or [-hhmm] *)
Definition zone_text (east : bool) (zh zm : Z) : list Z := (if east then 43 else 45) :: d2 zh ++ d2 zm.

(** The formats: those of RFC 2616 with GMT, RFC 5322 with a numeric zone, and
    the compact one. *)
Inductive date_format :=
  | Rfc1123 | Rfc850 | Asctime | Rfc5322 (east : bool) (zh zm : Z) | Compact (east : bool) (zh zm : Z).

Definition date_text (f : date_format) (wd y m d hh mm ss : Z) : list Z :=
  match f with
  | Rfc1123 => name_at Curl_wkday wd ++ str ", " ++ d2 d ++ str " " ++ name_at Curl_month m ++ str " " ++ d4 y ++
      str " " ++ time_text hh mm ss ++ str " GMT"
  | Rfc850 => name_at weekday wd ++ str ", " ++ d2 d ++ str "-" ++ name_at Curl_month m ++ str "-" ++ d2 (y mod 100) ++
      str " " ++ time_text hh mm ss ++ str " GMT"
  | Asctime => name_at Curl_wkday wd ++ str " " ++ name_at Curl_month m ++ str " " ++
      (if d <? 10 then [32; 48 + d] else d2 d) ++ str " " ++ time_text hh mm ss ++ str " " ++ d4 y
  | Rfc5322 east zh zm => name_at Curl_wkday wd ++ str ", " ++ d2 d ++ str " " ++ name_at Curl_month m ++ str " " ++ d4 y ++
      str " " ++ time_text hh mm ss ++ str " " ++ zone_text east zh zm
  | Compact east zh zm => (d4 y ++ d2 (m + 1) ++ d2 d) ++ str " " ++ time_text hh mm ss ++ str " " ++ zone_text east zh zm
  end.

(** What the zone of the format adds. *)
Definition format_offset (f : date_format) : Z :=
  match f with
  | Rfc5322 east zh zm | Compact east zh zm => (if east then -1 else 1) * (3600 * zh + 60 * zm)
  | _ => 0
  end.

(** The years a format can write, and the zones a number can give. *)
Definition format_ok (f : date_format) (y : Z) : Prop :=
  match f with
  | Rfc850 => 1971 <= y <= 2070
  | Rfc5322 _ zh zm | Compact _ zh zm => 1583 <= y <= 9999 /\ 0 <= zh <= 13 /\ 0 <= zm <= 59
  | _ => 1583 <= y <= 9999
  end.

Example date_text_examples :
  map (fun f => date_text f 6 1994 10 6 8 49 37) [Rfc1123; Rfc850; Asctime; Rfc5322 true 2 0; Compact false 7 30] =
  map str ["Sun, 06 Nov 1994 08:49:37 GMT"; "Sunday, 06-Nov-94 08:49:37 GMT"; "Sun Nov  6 08:49:37 1994";
    "Sun, 06 Nov 1994 08:49:37 +0200"; "19941106 08:49:37 -0730"]%string.
Proof. vm_compute. reflexivity. Qed.

(** ** One part of a date *)

Lemma part_name parts indate date0 date w dn rest w' :
  deref date0 <> 0 -> skip date0 = date -> ISALPHA (deref date) = true ->
  datestring date w = Some (PARSEDATE_OK, rest, w') ->
  parts_loop (S parts) indate date0 w dn = parts_loop parts indate rest w' dn.
Proof.
  intros H0 Hs Ha Hd. cbn [parts_loop]. rewrite (proj2 (Z.eqb_neq _ _) H0), Hs, Ha, Hd. done.
Qed.

Lemma part_number parts indate date0 date w dn rest w' dn' :
  deref date0 <> 0 -> skip date0 = date -> ISDIGIT (deref date) = true ->
  datenum indate date w dn = Some (PARSEDATE_OK, rest, w', dn') ->
  parts_loop (S parts) indate date0 w dn = parts_loop parts indate rest w' dn'.
Proof.
  intros H0 Hs Ha Hd. cbn [parts_loop]. rewrite (proj2 (Z.eqb_neq _ _) H0), Hs, Ha, Hd.
  replace (ISALPHA (deref date)) with false; [done|]. apply ISDIGIT_iff in Ha. symmetry.
  unfold ISALPHA, ISLOWER, ISUPPER, between. apply orb_false_iff. rewrite !andb_false_iff, !Z.leb_gt. lia.
Qed.

Lemma name_len_app n t r : Forall (fun c => ISALPHA c = true) t -> (length t <= n)%nat -> ISALPHA (deref r) = false ->
  name_len n (t ++ r) = zlen t.
Proof.
  intros Ht. revert n. induction Ht as [|c t Hc _ IH]; intros n Hn Hr.
  - destruct n, r; try done. cbn in *. by rewrite Hr.
  - destruct n; [cbn in Hn; lia|]. cbn [app name_len]. rewrite Hc, IH by (done || cbn in Hn; lia). by rewrite zlen_cons.
Qed.

(** The name of a day, of a month, and GMT. *)
Lemma seven i : 0 <= i <= 6 -> i = 0 \/ i = 1 \/ i = 2 \/ i = 3 \/ i = 4 \/ i = 5 \/ i = 6.
Proof. lia. Qed.

Lemma twelve m : 0 <= m <= 11 ->
  m = 0 \/ m = 1 \/ m = 2 \/ m = 3 \/ m = 4 \/ m = 5 \/ m = 6 \/ m = 7 \/ m = 8 \/ m = 9 \/ m = 10 \/ m = 11.
Proof. lia. Qed.

Lemma datestring_found t r w w' :
  Forall (fun c => ISALPHA c = true) t -> (length t < 12)%nat -> ISALPHA (deref r) = false ->
  (wday w = -1 /\ 0 <= checkday (t ++ r) (zlen t) /\ w' = set_wday (checkday (t ++ r) (zlen t)) w \/
   (wday w = -1 -> checkday (t ++ r) (zlen t) = -1) /\
     (mon w = -1 /\ 0 <= checkmonth (t ++ r) (zlen t) /\ w' = set_mon (checkmonth (t ++ r) (zlen t)) w \/
      mon w <> -1 /\ tzoff w = -1 /\ zlen t <= 4 /\ zone_of t <> -1 /\ w' = set_tzoff (zone_of t) w)) ->
  datestring (t ++ r) w = Some (PARSEDATE_OK, r, w').
Proof.
  intros Ht Hl Hr Hcase. unfold datestring. rewrite name_len_app by (done || change (Z.to_nat NAME_LEN) with 12%nat; lia).
  assert (Hn : negb (zlen t =? NAME_LEN) = true) by (apply negb_true_iff, Z.eqb_neq; unfold zlen, NAME_LEN; lia). rewrite Hn.
  assert (Hlen : zlen t <= zlen (t ++ r)) by (rewrite zlen_app; pose proof (zlen_nonneg r); lia).
  assert (Htake : ztake (zlen t) (t ++ r) = t) by apply ztake_app_exact.
  assert (Hnz : Forall (fun c => c <> 0) t) by (eapply Forall_impl; [exact Ht|apply ISALPHA_nonzero]).
  assert (Hdrop : zdrop (zlen t) (t ++ r) = r) by apply zdrop_app_exact.
  rewrite Hdrop. pose proof (zlen_nonneg t).
  destruct Hcase as [(Hw & Hd & ->)|[Hno Hcase]].
  - rewrite Hw. cbn [Z.eqb Pos.eqb]. rewrite (proj2 (Z.eqb_neq (checkday _ _) _)) by lia. done.
  - assert (E : (if wday w =? -1 then (negb (checkday (t ++ r) (zlen t) =? -1), set_wday (checkday (t ++ r) (zlen t)) w) else (false, w)) = (false, w)).
    { destruct (Z.eqb_spec (wday w) (-1)) as [Hw|]; [|done]. rewrite (Hno Hw). destruct w. cbn in Hw. by subst. }
    cbv zeta. rewrite E. destruct Hcase as [(Hm & Hc & ->)|(Hm & Hz & Hl4 & Hzone & ->)].
    + rewrite Hm. cbn [Z.eqb Pos.eqb negb andb]. rewrite (proj2 (Z.eqb_neq (checkmonth _ _) _)) by lia. done.
    + rewrite (proj2 (Z.eqb_neq (mon w) _)) by done. cbn [negb andb]. rewrite Hz. cbn [Z.eqb Pos.eqb].
      rewrite checktz_spec by (rewrite ?Htake; done || lia). rewrite (proj2 (Z.leb_le _ _)) by lia. rewrite Htake. cbn [mbind option_bind].
      by rewrite (proj2 (Z.eqb_neq (zone_of t) _)) by done.
Qed.

(** Days by short or long name, months and GMT. *)
Lemma checkday_short i r : 0 <= i <= 6 -> checkday (name_at Curl_wkday i ++ r) 3 = i.
Proof. intros Hi. pose proof (seven i Hi) as H7. destruct r, H7 as [->|[->|[->|[->|[->|[->| ->]]]]]]; vm_compute; reflexivity. Qed.

Lemma datestring_wkday i r w : 0 <= i <= 6 -> wday w = -1 -> ISALPHA (deref r) = false ->
  datestring (name_at Curl_wkday i ++ r) w = Some (PARSEDATE_OK, r, set_wday i w).
Proof.
  intros Hi Hw Hr. pose proof (checkday_short i r Hi) as Hc. pose proof (seven i Hi) as H7.
  assert (Hn : zlen (name_at Curl_wkday i) = 3 /\ Forall (fun c => ISALPHA c = true) (name_at Curl_wkday i))
    by (destruct_or! H7; subst i; by_compute).
  destruct Hn as [Hl Hf]. apply datestring_found; [done|unfold zlen in Hl; lia|done|]. left. rewrite Hl, Hc. split_and!; [done|lia|done].
Qed.

Lemma datestring_weekday i r w : 0 <= i <= 6 -> wday w = -1 -> ISALPHA (deref r) = false ->
  datestring (name_at weekday i ++ r) w = Some (PARSEDATE_OK, r, set_wday i w).
Proof.
  intros Hi Hw Hr. pose proof (seven i Hi) as H7.
  assert (Hc : checkday (name_at weekday i ++ r) (zlen (name_at weekday i)) = i)
    by (destruct r, H7 as [->|[->|[->|[->|[->|[->| ->]]]]]]; vm_compute; reflexivity).
  assert (Hn : Forall (fun c => ISALPHA c = true) (name_at weekday i) /\ (length (name_at weekday i) < 12)%nat)
    by (destruct_or! H7; subst i; by_compute).
  destruct Hn as [Hf Hl]. apply datestring_found; [done|done|done|]. left. rewrite Hc. split_and!; [done|lia|done].
Qed.

Lemma datestring_month m r w : 0 <= m <= 11 -> mon w = -1 -> ISALPHA (deref r) = false ->
  datestring (name_at Curl_month m ++ r) w = Some (PARSEDATE_OK, r, set_mon m w).
Proof.
  intros Hm Hw Hr. pose proof (twelve m Hm) as H12.
  assert (Hc : checkmonth (name_at Curl_month m ++ r) 3 = m /\ checkday (name_at Curl_month m ++ r) 3 = -1)
    by (destruct r, H12 as [->|[->|[->|[->|[->|[->|[->|[->|[->|[->|[->| ->]]]]]]]]]]]; split; vm_compute; reflexivity).
  assert (Hn : zlen (name_at Curl_month m) = 3 /\ Forall (fun c => ISALPHA c = true) (name_at Curl_month m))
    by (destruct_or! H12; subst m; by_compute).
  destruct Hc as [Hc1 Hc2], Hn as [Hl Hf]. apply datestring_found; [done|unfold zlen in Hl; lia|done|].
  right. rewrite Hl, Hc1, Hc2. split; [done|]. left. split_and!; [done|lia|done].
Qed.

Lemma datestring_gmt r w : mon w <> -1 -> tzoff w = -1 -> ISALPHA (deref r) = false ->
  datestring (str "GMT" ++ r) w = Some (PARSEDATE_OK, r, set_tzoff 0 w).
Proof.
  intros Hm Hz Hr. apply datestring_found; [by_compute|by_compute|done|]. right.
  split; [intros _; destruct r; vm_compute; reflexivity|]. right. split_and!; try done; by_compute.
Qed.

(** ** Numbers *)

Lemma d2_digits n : 0 <= n <= 99 -> Forall (fun c => 48 <= c <= 57) (d2 n).
Proof. intros H. unfold d2. rewrite !Forall_cons, Forall_nil. dlia. Qed.

Lemma hexval_of_digit c : 48 <= c <= 57 -> curlx_hexval c = c - 48.
Proof.
  intros H. assert (Hc : forallb (fun n => curlx_hexval (48 + Z.of_nat n) =? Z.of_nat n) (seq 0 10) = true) by (vm_compute; reflexivity).
  rewrite forallb_forall in Hc. specialize (Hc (Z.to_nat (c - 48))). rewrite in_seq in Hc. specialize (Hc ltac:(lia)).
  apply Z.eqb_eq in Hc. rewrite Z2Nat.id in Hc by lia. by replace (48 + (c - 48)) with c in Hc by lia.
Qed.

Lemma one_digits n r : 0 <= n <= 99 -> oneortwodigit (d2 n ++ r) = (n, r).
Proof.
  intros H. pose proof (d2_digits n H) as Hd. unfold d2 in *. rewrite !Forall_cons in Hd. destruct Hd as (Ha & Hb & _).
  unfold oneortwodigit, at_. cbn [app drop deref]. rewrite (proj2 (ISDIGIT_iff _) Hb). f_equal. dlia.
Qed.

Lemma value_snoc2 acc n : 0 <= n <= 99 -> digits_value 10 acc (d2 n) = acc * 100 + n.
Proof.
  intros H. unfold d2, digits_value. cbn [fold_left]. rewrite !hexval_of_digit by dlia. dlia.
Qed.

Lemma digits_value_app b acc ds ds' : digits_value b acc (ds ++ ds') = digits_value b (digits_value b acc ds) ds'.
Proof. apply fold_left_app. Qed.

Lemma match_time_text hh mm ss r : 0 <= hh <= 23 -> 0 <= mm <= 59 -> 0 <= ss <= 60 ->
  match_time (time_text hh mm ss ++ r) = Some (hh, mm, ss, r).
Proof.
  intros Hh Hm Hs. unfold match_time, time_text. rewrite <- !app_assoc, one_digits by lia. cbn [app].
  rewrite (proj2 (Z.ltb_lt hh 24)) by lia. cbn [deref Z.eqb Pos.eqb andb].
  assert (Hd : forall n r, 0 <= n <= 99 -> ISDIGIT (at_ (58 :: d2 n ++ r) 1) = true).
  { intros n r' Hn. apply ISDIGIT_iff. pose proof (d2_digits n Hn) as H. unfold d2 in H. apply Forall_cons in H as [H _]. exact H. }
  rewrite Hd by lia.
  cbn [drop]. rewrite drop_0, one_digits by lia. rewrite (proj2 (Z.ltb_lt mm 60)) by lia. cbn [deref Z.eqb Pos.eqb andb]. rewrite Hd by lia.
  cbn [drop]. rewrite drop_0, one_digits by lia. by rewrite (proj2 (Z.leb_le ss 60)) by lia.
Qed.

(** A number that is not a time. *)
Lemma match_time_none ds r : Forall (fun c => 48 <= c <= 57) ds -> ISDIGIT (deref r) = false -> deref r <> 58 -> ds <> [] ->
  match_time (ds ++ r) = None.
Proof.
  intros Hd Hr H58 Hne. unfold match_time, oneortwodigit. destruct ds as [|a [|b ds]]; [done| |].
  - cbn [app]. change (at_ (a :: r) 1) with (deref r). rewrite Hr. cbn [drop]. by rewrite drop_0, (proj2 (Z.eqb_neq _ 58) H58), andb_false_r.
  - rewrite !Forall_cons in Hd. destruct Hd as (Ha & Hb & Hd). cbn [app]. change (at_ (a :: b :: ds ++ r) 1) with b.
    rewrite (proj2 (ISDIGIT_iff b) Hb). cbn [drop]. rewrite drop_0. replace (deref (ds ++ r) =? 58) with false; [by rewrite andb_false_r|].
    symmetry. apply Z.eqb_neq. destruct ds as [|c ds]; [done|]. apply Forall_cons in Hd as [Hc _]. cbn. lia.
Qed.

Lemma digit_span_app ds r : Forall (fun c => 48 <= c <= 57) ds -> ISDIGIT (deref r) = false ->
  digit_span (max_digit 10) (ds ++ r) = (ds, r).
Proof.
  assert (Hv : forall c, valid_digit c (max_digit 10) = ISDIGIT c).
  { intros c. destruct (ISDIGIT c) eqn:E.
    - apply ISDIGIT_iff in E. assert (Hc : forallb (fun n => valid_digit (48 + Z.of_nat n) 57) (seq 0 10) = true) by (vm_compute; reflexivity).
      rewrite forallb_forall in Hc. specialize (Hc (Z.to_nat (c - 48))). rewrite in_seq in Hc.
      replace (48 + Z.of_nat (Z.to_nat (c - 48))) with c in Hc by lia. apply Hc. lia.
    - apply not_true_iff_false in E. rewrite ISDIGIT_iff in E. unfold valid_digit. change (max_digit 10) with 57.
      destruct (Z.leb_spec 48 c), (Z.leb_spec c 57); try done. lia. }
  intros Hd Hr. induction Hd as [|c ds Hc _ IH]; cbn [app].
  - destruct r as [|c r]; [done|]. cbn [digit_span]. rewrite Hv. cbn in Hr. by rewrite Hr.
  - cbn [digit_span]. by rewrite Hv, (proj2 (ISDIGIT_iff c) Hc), IH.
Qed.

Lemma datenum_number indate ds r w dn w' dn' : Forall (fun c => 48 <= c <= 57) ds -> ds <> [] ->
  ISDIGIT (deref r) = false -> deref r <> 58 -> digits_value 10 0 ds <= 99999999 ->
  use_number indate (ds ++ r) (zlen ds) (digits_value 10 0 ds) w dn = (true, w', dn') ->
  datenum indate (ds ++ r) w dn = Some (PARSEDATE_OK, r, w', dn').
Proof.
  intros Hd Hne Hr H58 Hmax Hu. unfold datenum. rewrite match_time_none by done.
  replace (if sec w =? -1 then None else None) with (@None (Z * Z * Z * list Z)) by (by destruct (sec w =? -1)).
  unfold curlx_str_number. rewrite str_num_base_spec, digit_span_app by (done || lia || (unfold CURL_OFF_T_MAX; lia)).
  destruct ds as [|d ds]; [done|]. rewrite (proj2 (Z.leb_le _ _)) by done. cbn [mbind option_bind].
  replace (zlen ((d :: ds) ++ r) - zlen r) with (zlen (d :: ds)) by (rewrite zlen_app; lia). by rewrite Hu.
Qed.

Lemma datenum_time indate hh mm ss r w dn : 0 <= hh <= 23 -> 0 <= mm <= 59 -> 0 <= ss <= 60 -> sec w = -1 ->
  datenum indate (time_text hh mm ss ++ r) w dn = Some (PARSEDATE_OK, r, set_time hh mm ss w, dn).
Proof. intros Hh Hm Hs Hw. unfold datenum. by rewrite Hw, match_time_text. Qed.

Lemma not_zone indate date n val w : n <> 4 \/ 1400 < val -> take_zone indate date n val w = false.
Proof.
  intros H. unfold take_zone. destruct (Z.eqb_spec n 4), (Z.leb_spec val 1400); rewrite ?andb_false_r; try done. lia.
Qed.

Lemma not_ymd n w : n <> 8 -> take_ymd n w = false.
Proof. intros H. unfold take_ymd. by rewrite (proj2 (Z.eqb_neq _ _) H). Qed.

Lemma use_day indate date n d w : n <> 4 -> n <> 8 -> 1 <= d <= 31 -> mday w = -1 ->
  use_number indate date n d w DATE_MDAY = (true, set_mday d w, DATE_YEAR).
Proof.
  intros H4 H8 Hd Hw. unfold use_number. rewrite not_zone, not_ymd, Hw by tauto. cbn [negb andb Z.eqb Pos.eqb].
  rewrite bool_decide_true by done. cbn [negb andb]. rewrite Z.gtb_ltb, !(proj2 (Z.ltb_lt _ _)) by lia. done.
Qed.

Lemma use_year indate date n val w y : n = 4 /\ 1400 < val \/ n = 2 ->
  y = (if val <? 100 then (if val >? 70 then val + 1900 else val + 2000) else val) -> year w = -1 -> mday w <> -1 ->
  use_number indate date n val w DATE_YEAR = (true, set_year y w, DATE_YEAR).
Proof.
  intros Hn -> Hy Hd. unfold use_number. rewrite not_zone, not_ymd by lia. cbn [negb andb].
  rewrite (bool_decide_false (DATE_YEAR = DATE_MDAY)) by done. cbn [andb].
  rewrite bool_decide_true by done. rewrite Hy. cbn [andb Z.eqb Pos.eqb]. by rewrite (proj2 (Z.eqb_neq _ _) Hd).
Qed.

Lemma use_ymd indate date y m d w dn : 0 <= y -> 0 <= m <= 11 -> 0 <= d <= 99 ->
  year w = -1 -> mon w = -1 -> mday w = -1 ->
  use_number indate date 8 (y * 10000 + (m + 1) * 100 + d) w dn = (true, set_mday d (set_mon m (set_year y w)), dn).
Proof.
  intros Hy Hm Hd H1 H2 H3. unfold use_number. rewrite not_zone by lia. unfold take_ymd. rewrite H1, H2, H3.
  cbn [negb andb Z.eqb Pos.eqb]. do 2 f_equal. f_equal; [dlia|]. do 2 f_equal; dlia.
Qed.

Lemma use_zone (pre : list Z) (east : bool) date zh zm w dn : 0 <= zh <= 13 -> 0 <= zm <= 59 -> tzoff w = -1 ->
  use_number (pre ++ (if east then 43 else 45) :: date) date 4 (zh * 100 + zm) w dn =
  (true, set_tzoff (format_offset (Compact east zh zm)) w, dn).
Proof.
  intros Hh Hm Hz. unfold use_number, take_zone. rewrite Hz.
  assert (E : char_before (pre ++ (if east then 43 else 45) :: date) date = if east then 43 else 45).
  { unfold char_before, at_. rewrite length_app. cbn [length].
    replace (length pre + S (length date) - length date - 1)%nat with (length pre) by lia. by rewrite drop_app_length. }
  rewrite E, zlen_app, zlen_cons. rewrite (proj2 (Z.leb_le (zh * 100 + zm) _)), (proj2 (Z.ltb_lt _ _)) by (pose proof (zlen_nonneg pre); lia).
  assert (Hv : ((zh * 100 + zm) / 100 * 60 + (zh * 100 + zm) mod 100) * 60 = 3600 * zh + 60 * zm) by dlia. rewrite Hv.
  destruct east; cbn [format_offset negb andb orb Z.eqb Pos.eqb]; do 3 f_equal; lia.
Qed.

Lemma skip_seps seps date : Forall (fun c => c <> 0 /\ ISALNUM c = false) seps -> ISALNUM (deref date) = true ->
  skip (seps ++ date) = date.
Proof.
  intros Hs Hd. induction Hs as [|c seps [Hc Ha] _ IH]; cbn [app].
  - destruct date as [|c date]; [done|]. cbn [skip]. cbn in Hd. by rewrite Hd, andb_false_r.
  - cbn [skip]. by rewrite (proj2 (Z.eqb_neq _ _) Hc), Ha.
Qed.

Lemma seps_head seps date : Forall (fun c => c <> 0 /\ ISALNUM c = false) seps -> ISALNUM (deref date) = true ->
  deref (seps ++ date) <> 0.
Proof.
  intros Hs Hd. destruct Hs as [|c seps [Hc _] _]; [|done]. cbn [app]. intros E. by rewrite E in Hd.
Qed.

Lemma alpha_alnum c : ISALPHA c = true -> ISALNUM c = true.
Proof. unfold ISALPHA, ISALNUM. intros H. rewrite <- orb_assoc, H. apply orb_true_r. Qed.

Lemma digit_alnum c : ISDIGIT c = true -> ISALNUM c = true.
Proof. unfold ISALNUM. by intros ->. Qed.

(** A part behind separators. *)
Lemma sep_name parts indate seps date w dn rest w' : Forall (fun c => c <> 0 /\ ISALNUM c = false) seps ->
  ISALPHA (deref date) = true -> datestring date w = Some (PARSEDATE_OK, rest, w') ->
  parts_loop (S parts) indate (seps ++ date) w dn = parts_loop parts indate rest w' dn.
Proof.
  intros Hs Ha Hd. pose proof (alpha_alnum _ Ha). apply (part_name _ _ _ date); [by apply seps_head|by apply skip_seps|done|done].
Qed.

Lemma sep_number parts indate seps date w dn rest w' dn' : Forall (fun c => c <> 0 /\ ISALNUM c = false) seps ->
  ISDIGIT (deref date) = true -> datenum indate date w dn = Some (PARSEDATE_OK, rest, w', dn') ->
  parts_loop (S parts) indate (seps ++ date) w dn = parts_loop parts indate rest w' dn'.
Proof.
  intros Hs Ha Hd. pose proof (digit_alnum _ Ha). apply (part_number _ _ _ date); [by apply seps_head|by apply skip_seps|done|done].
Qed.

(** ** Whole dates *)

Lemma name_head names i r : forallb (fun n => ISALPHA (deref n)) names = true -> 0 <= i < zlen names ->
  ISALPHA (deref (name_at names i ++ r)) = true.
Proof.
  intros H Hi. rewrite forallb_forall in H. specialize (H (name_at names i)).
  assert (Ha : ISALPHA (deref (name_at names i)) = true) by (apply H, nth_In; unfold zlen in Hi; lia).
  by destruct (name_at names i).
Qed.

Lemma d2_head n r : 0 <= n <= 99 -> ISDIGIT (deref (d2 n ++ r)) = true.
Proof. intros Hn. pose proof (d2_digits n Hn) as H. apply Forall_cons in H as [H _]. by apply ISDIGIT_iff. Qed.

Lemma time_head hh mm ss r : 0 <= hh <= 99 -> ISDIGIT (deref (time_text hh mm ss ++ r)) = true.
Proof. intros H. unfold time_text. rewrite <- app_assoc. by apply d2_head. Qed.

Lemma d4_digits n : 0 <= n <= 9999 -> Forall (fun c => 48 <= c <= 57) (d4 n).
Proof. intros H. apply Forall_app_2; apply d2_digits; dlia. Qed.

Lemma d4_value n : 0 <= n <= 9999 -> digits_value 10 0 (d4 n) = n.
Proof. intros H. unfold d4. rewrite digits_value_app, !value_snoc2 by dlia. dlia. Qed.

Lemma d4_head n r : 0 <= n <= 9999 -> ISDIGIT (deref (d4 n ++ r)) = true.
Proof. intros H. unfold d4. rewrite <- app_assoc. apply d2_head. dlia. Qed.

(** The fields a date can have. *)
Definition fields_ok (wd m d hh mm ss : Z) : Prop :=
  0 <= wd <= 6 /\ 0 <= m <= 11 /\ 1 <= d <= 31 /\ 0 <= hh <= 23 /\ 0 <= mm <= 59 /\ 0 <= ss <= 60.


Lemma day_part parts indate seps d r w : Forall (fun c => c <> 0 /\ ISALNUM c = false) seps -> 1 <= d <= 31 -> mday w = -1 ->
  ISDIGIT (deref r) = false -> deref r <> 58 ->
  parts_loop (S parts) indate (seps ++ d2 d ++ r) w DATE_MDAY = parts_loop parts indate r (set_mday d w) DATE_YEAR.
Proof.
  intros Hs Hd Hw Hc H58. apply sep_number; [done|apply d2_head; lia|]. apply (datenum_number _ (d2 d)); try done.
  - apply d2_digits. lia.
  - rewrite value_snoc2 by lia. lia.
  - rewrite value_snoc2 by lia. by apply use_day.
Qed.

Lemma year_part parts indate seps y r w : Forall (fun c => c <> 0 /\ ISALNUM c = false) seps -> 1583 <= y <= 9999 -> year w = -1 -> mday w <> -1 ->
  ISDIGIT (deref r) = false -> deref r <> 58 ->
  parts_loop (S parts) indate (seps ++ d4 y ++ r) w DATE_YEAR = parts_loop parts indate r (set_year y w) DATE_YEAR.
Proof.
  intros Hs Hy Hw Hd Hc H58. apply sep_number; [done|apply d4_head; lia|]. apply (datenum_number _ (d4 y)); try done.
  - apply d4_digits. lia.
  - rewrite d4_value by lia. lia.
  - rewrite d4_value by lia. apply use_year; [left; split; [done|lia]| |done|done]. by rewrite (proj2 (Z.ltb_ge _ _)) by lia.
Qed.

Lemma time_part parts indate seps hh mm ss r w dn : Forall (fun c => c <> 0 /\ ISALNUM c = false) seps ->
  0 <= hh <= 23 -> 0 <= mm <= 59 -> 0 <= ss <= 60 -> sec w = -1 ->
  parts_loop (S parts) indate (seps ++ time_text hh mm ss ++ r) w dn = parts_loop parts indate r (set_time hh mm ss w) dn.
Proof. intros Hs Hh Hm Hss Hw. apply sep_number; [done|apply time_head; lia|by apply datenum_time]. Qed.

Lemma gmt_part parts indate w dn : mon w <> -1 -> tzoff w = -1 ->
  parts_loop (S parts) indate (str " GMT") w dn = parts_loop parts indate [] (set_tzoff 0 w) dn.
Proof.
  intros Hm Hz. apply (sep_name _ _ (str " ") (str "GMT" ++ [])); [by_compute|done|]. by apply datestring_gmt.
Qed.

Lemma zone_part parts pre east zh zm w dn seps : Forall (fun c => c <> 0 /\ ISALNUM c = false) seps ->
  0 <= zh <= 13 -> 0 <= zm <= 59 -> tzoff w = -1 ->
  parts_loop (S parts) (pre ++ zone_text east zh zm) (seps ++ zone_text east zh zm) w dn =
  parts_loop parts (pre ++ zone_text east zh zm) [] (set_tzoff (format_offset (Compact east zh zm)) w) dn.
Proof.
  intros Hs Hh Hm Hz. unfold zone_text at 2. set (sign := if east then 43 else 45).
  replace (seps ++ sign :: d2 zh ++ d2 zm) with ((seps ++ [sign]) ++ (d2 zh ++ d2 zm) ++ []) by (rewrite <- app_assoc, app_nil_r; done).
  assert (Hv : digits_value 10 0 (d2 zh ++ d2 zm) = zh * 100 + zm) by (rewrite digits_value_app, !value_snoc2 by lia; lia).
  assert (Hf : Forall (fun c => 48 <= c <= 57) (d2 zh ++ d2 zm)) by (apply Forall_app_2; apply d2_digits; lia).
  apply sep_number.
  - apply Forall_app_2; [done|]. constructor; [by destruct east|constructor].
  - rewrite <- app_assoc. apply d2_head. lia.
  - apply datenum_number; try done; rewrite Hv; [lia|]. rewrite app_nil_r. change (zlen (d2 zh ++ d2 zm)) with 4. by apply use_zone.
Qed.

Definition zone_fields (f : date_format) : Z :=
  match f with Asctime => -1 | _ => format_offset f end.

Definition day_field (f : date_format) (wd : Z) : Z :=
  match f with Compact _ _ _ => -1 | _ => wd end.

Lemma name_part parts indate seps names i r w w' : Forall (fun c => c <> 0 /\ ISALNUM c = false) seps ->
  forallb (fun n => ISALPHA (deref n)) names = true -> 0 <= i < zlen names ->
  datestring (name_at names i ++ r) w = Some (PARSEDATE_OK, r, w') -> forall dn,
  parts_loop (S parts) indate (seps ++ name_at names i ++ r) w dn = parts_loop parts indate r w' dn.
Proof. intros Hs Hn Hi Hd dn. apply sep_name; [done|by apply name_head|done]. Qed.

Lemma asctime_day parts indate d r w : 1 <= d <= 31 -> mday w = -1 -> ISDIGIT (deref r) = false -> deref r <> 58 ->
  parts_loop (S parts) indate (str " " ++ (if d <? 10 then [32; 48 + d] else d2 d) ++ r) w DATE_MDAY =
  parts_loop parts indate r (set_mday d w) DATE_YEAR.
Proof.
  intros Hd Hw Hc H58. case_if; [|by apply (day_part _ _ (str " ")); [by_compute|..]].
  apply (sep_number _ _ (str "  ") ([48 + d] ++ r)); [by_compute|apply ISDIGIT_iff; change (48 <= 48 + d <= 57); lia|].
  assert (Hv : digits_value 10 0 [48 + d] = d) by (unfold digits_value; cbn [fold_left]; rewrite hexval_of_digit by lia; lia).
  apply datenum_number; try done; [by apply Forall_singleton; lia| |]; rewrite Hv; [lia|]. by apply use_day.
Qed.

Lemma short_year_part parts indate seps y r w : Forall (fun c => c <> 0 /\ ISALNUM c = false) seps -> 1971 <= y <= 2070 ->
  year w = -1 -> mday w <> -1 -> ISDIGIT (deref r) = false -> deref r <> 58 ->
  parts_loop (S parts) indate (seps ++ d2 (y mod 100) ++ r) w DATE_YEAR = parts_loop parts indate r (set_year y w) DATE_YEAR.
Proof.
  intros Hs Hy Hw Hd Hc H58. apply sep_number; [done|apply d2_head; dlia|]. apply (datenum_number _ (d2 (y mod 100))); try done.
  - apply d2_digits. dlia.
  - rewrite value_snoc2 by dlia. dlia.
  - rewrite value_snoc2 by dlia. apply use_year; [by right| |done|done]. cbn [Z.mul Z.add]. repeat case_if; dlia.
Qed.

Lemma ymd_part parts indate y m d r w : 0 <= y <= 9999 -> 0 <= m <= 11 -> 1 <= d <= 31 ->
  year w = -1 -> mon w = -1 -> mday w = -1 -> ISDIGIT (deref r) = false -> deref r <> 58 -> forall dn,
  parts_loop (S parts) indate ((d4 y ++ d2 (m + 1) ++ d2 d) ++ r) w dn =
  parts_loop parts indate r (set_mday d (set_mon m (set_year y w))) dn.
Proof.
  intros Hy Hm Hd H1 H2 H3 Hc H58 dn.
  assert (Hv : digits_value 10 0 (d4 y ++ d2 (m + 1) ++ d2 d) = y * 10000 + (m + 1) * 100 + d).
  { rewrite !digits_value_app, d4_value, !value_snoc2 by lia. lia. }
  apply (sep_number _ _ [] ((d4 y ++ d2 (m + 1) ++ d2 d) ++ r)); [by_compute|rewrite <- app_assoc; apply d4_head; lia|].
  apply datenum_number; try done; [| |]; rewrite ?Hv; [|lia|by apply use_ymd; lia].
  apply Forall_app_2; [apply d4_digits; lia|apply Forall_app_2; apply d2_digits; lia].
Qed.

Lemma wkday_part parts indate wd r w dn : 0 <= wd <= 6 -> wday w = -1 -> ISALPHA (deref r) = false ->
  parts_loop (S parts) indate (name_at Curl_wkday wd ++ r) w dn = parts_loop parts indate r (set_wday wd w) dn.
Proof.
  intros Hwd Hw Hr. apply (name_part _ _ [] Curl_wkday); [by_compute|by_compute|change (zlen Curl_wkday) with 7; lia|].
  by apply datestring_wkday.
Qed.

Lemma weekday_part parts indate wd r w dn : 0 <= wd <= 6 -> wday w = -1 -> ISALPHA (deref r) = false ->
  parts_loop (S parts) indate (name_at weekday wd ++ r) w dn = parts_loop parts indate r (set_wday wd w) dn.
Proof.
  intros Hwd Hw Hr. apply (name_part _ _ [] weekday); [by_compute|by_compute|change (zlen weekday) with 7; lia|].
  by apply datestring_weekday.
Qed.

Lemma month_part parts indate seps m r w dn : Forall (fun c => c <> 0 /\ ISALNUM c = false) seps ->
  0 <= m <= 11 -> mon w = -1 -> ISALPHA (deref r) = false ->
  parts_loop (S parts) indate (seps ++ name_at Curl_month m ++ r) w dn = parts_loop parts indate r (set_mon m w) dn.
Proof.
  intros Hs Hm Hw Hr. apply name_part; [done|by_compute|change (zlen Curl_month) with 12; lia|by apply datestring_month].
Qed.

Lemma date_text_parts f wd y m d hh mm ss : fields_ok wd m d hh mm ss -> format_ok f y ->
  parts_loop 6 (date_text f wd y m d hh mm ss) (date_text f wd y m d hh mm ss) initwhen DATE_MDAY =
  Some (0, mk_when (day_field f wd) m d hh mm ss y (zone_fields f)).
Proof.
  intros (Hwd & Hm & Hd & Hh & Hmi & Hs) Hf.
  assert (Hend : forall n indate w dn, parts_loop n indate [] w dn = Some (0, w)) by (by intros []).
  destruct f as [| | |east zh zm|east zh zm]; cbn [format_ok] in Hf.
  - generalize (date_text Rfc1123 wd y m d hh mm ss) at 1. intros indate. unfold date_text.
    rewrite wkday_part, (day_part _ _ (str ", ")) by (done || by_compute).
    rewrite (month_part _ _ (str " ")), (year_part _ _ (str " ")) by (done || by_compute || (cbn; lia)).
    rewrite (time_part _ _ (str " ")) by (done || by_compute). rewrite gmt_part by (done || (cbn; lia)). apply Hend.
  - generalize (date_text Rfc850 wd y m d hh mm ss) at 1. intros indate. unfold date_text.
    rewrite weekday_part, (day_part _ _ (str ", ")) by (done || by_compute).
    rewrite (month_part _ _ (str "-")), (short_year_part _ _ (str "-")) by (done || by_compute || (cbn; lia)).
    rewrite (time_part _ _ (str " ")) by (done || by_compute). rewrite gmt_part by (done || (cbn; lia)). apply Hend.
  - generalize (date_text Asctime wd y m d hh mm ss) at 1. intros indate. unfold date_text.
    rewrite wkday_part, (month_part _ _ (str " ")), asctime_day by (done || by_compute).
    rewrite (time_part _ _ (str " ")) by (done || by_compute).
    rewrite <- (app_nil_r (d4 y)). rewrite (year_part _ _ (str " ")) by (done || by_compute || (cbn; lia)). apply Hend.
  - destruct Hf as (Hy & Hzh & Hzm).
    assert (E : date_text (Rfc5322 east zh zm) wd y m d hh mm ss =
      (name_at Curl_wkday wd ++ str ", " ++ d2 d ++ str " " ++ name_at Curl_month m ++ str " " ++ d4 y ++
        str " " ++ time_text hh mm ss ++ str " ") ++ zone_text east zh zm) by (unfold date_text; by rewrite <- !app_assoc).
    rewrite E at 1. unfold date_text. rewrite wkday_part, (day_part _ _ (str ", ")) by (done || by_compute).
    rewrite (month_part _ _ (str " ")), (year_part _ _ (str " ")) by (done || by_compute || (cbn; lia)).
    rewrite (time_part _ _ (str " ")) by (done || by_compute).
    rewrite (zone_part _ _ _ _ _ _ _ (str " ")) by (done || by_compute). apply Hend.
  - destruct Hf as (Hy & Hzh & Hzm).
    assert (E : date_text (Compact east zh zm) wd y m d hh mm ss =
      ((d4 y ++ d2 (m + 1) ++ d2 d) ++ str " " ++ time_text hh mm ss ++ str " ") ++ zone_text east zh zm)
      by (unfold date_text; by rewrite <- !app_assoc).
    rewrite E at 1. unfold date_text. rewrite ymd_part by (done || lia).
    rewrite (time_part _ _ (str " ")) by (done || by_compute).
    rewrite (zone_part _ _ _ _ _ _ _ (str " ")) by (done || by_compute). apply Hend.
Qed.

(** * The properties *)

(** C24: A date written in the formats of RFC 1123, RFC 850, asctime, RFC 5322 or
    the compact one is read as the seconds from the epoch to that time in its
    zone; only the second before the epoch is read as the epoch, because -1
    is the error. *)
Theorem getdate_formats (f : date_format) (wd y m d hh mm ss : Z) :
  fields_ok wd m d hh mm ss -> format_ok f y ->
  let t := seconds_of y m d hh mm ss + format_offset f in
  curl_getdate (date_text f wd y m d hh mm ss) = Some (if t =? -1 then 0 else t).
Proof.
  intros Hfields Hf t. unfold curl_getdate, parsedate. rewrite date_text_parts by done. cbn [mbind option_bind Z.eqb negb].
  destruct Hfields as (Hwd & Hm & Hd & Hh & Hmi & Hs).
  assert (Hy : 1583 <= y <= 9999) by (destruct f; cbn in Hf; lia).
  assert (Hz : -52740 <= zone_fields f <= 52740 /\ (if zone_fields f =? -1 then 0 else zone_fields f) = format_offset f).
  { destruct f as [| | |[] zh zm|[] zh zm]; cbn [format_ok zone_fields format_offset] in *; try (split; [lia|done]);
      (split; [lia|]); case_if; lia. }
  set (w := mk_when (day_field f wd) m d hh mm ss y (zone_fields f)).
  assert (Hok : when_ok w) by (unfold when_ok, w; cbn; lia).
  assert (Ew : datecheck w = (PARSEDATE_OK, w)).
  { unfold datecheck, w. cbn [sec mday mon year hour minute].
    rewrite (proj2 (Z.eqb_neq ss _)), (proj2 (Z.eqb_neq d _)), (proj2 (Z.eqb_neq m _)), (proj2 (Z.eqb_neq y _)) by lia.
    cbn [orb mday mon year hour minute sec]. rewrite !Z.gtb_ltb, !(proj2 (Z.ltb_ge _ _)) by lia. done. }
  rewrite Ew. cbn [PARSEDATE_OK Z.eqb negb]. rewrite time2epoch_spec by done. cbn [mbind option_bind].
  pose proof (seconds_range w Hok). rewrite tzadjust_spec by (unfold w in *; cbn [tzoff]; lia). cbn [mbind option_bind].
  cbn [w year mon mday hour minute sec tzoff]. destruct Hz as [_ Hz]. unfold w. cbn [year mon mday hour minute sec tzoff].
  rewrite Hz. fold t. cbn [default id PARSEDATE_OK Z.eqb]. case_if; f_equal; lia.
Qed.

Lemma getdate_formats_witness :
  curl_getdate (str "Sun, 06 Nov 1994 08:49:37 GMT") = Some (86400 * day_number 1994 10 6 + 31777) /\
  curl_getdate (str "19941106 08:49:37 +0200") = Some (86400 * day_number 1994 10 6 + 24577).
Proof.
  split.
  - refine (eq_trans (getdate_formats Rfc1123 6 1994 10 6 8 49 37 _ _) _); [by_compute|cbn; lia|vm_compute; reflexivity].
  - refine (eq_trans (getdate_formats (Compact true 2 0) 6 1994 10 6 8 49 37 _ _) _); [by_compute|cbn; lia|vm_compute; reflexivity].
Defined.

(** Any string is read without overflow and without an access outside of a
    table: it is refused and nothing is stored, or it gives a time of a year
    from 1583 on, moved by a zone of less than 15 hours; [curl_getdate] returns
    -1 exactly for a string that is refused. *)
Theorem parsedate_total (date : list Z) :
  exists rc out s, parsedate date = Some (rc, out) /\ curl_getdate date = Some s /\
    (s = -1 <-> rc = PARSEDATE_FAIL) /\
    (rc = PARSEDATE_FAIL /\ out = None \/
     rc = PARSEDATE_OK /\ exists w z, when_ok w /\ -52740 <= z <= 52740 /\
       let t := seconds_of (year w) (mon w) (mday w) (hour w) (minute w) (sec w) + z in
       out = Some t /\ s = if t =? -1 then 0 else t).
Proof.
  unfold curl_getdate. destruct (parsedate_cases date) as [E|(w & z & Hw & Hz & E)]; rewrite E; cbn [mbind option_bind].
  - exists PARSEDATE_FAIL, None, (-1). split_and!; try done. by left.
  - set (t := seconds_of _ _ _ _ _ _ + z). exists PARSEDATE_OK, (Some t), (if t =? -1 then 0 else t). split_and!; [done| | |].
    + cbn [default id PARSEDATE_OK Z.eqb]. case_if; f_equal; lia.
    + split; [|done]. case_if; lia.
    + right. split; [done|]. by exists w, z.
Qed.

(** The conversion of a date to seconds counts the days of the years and
    months before it, with the leap years of the Gregorian calendar, for
    every year from 1583 to 99999999, without overflow. *)
Theorem time2epoch_calendar (w : when) : when_ok w ->
  time2epoch w = Some (86400 * day_number (year w) (mon w) (mday w) + 3600 * hour w + 60 * minute w + sec w).
Proof. apply time2epoch_spec. Qed.

Lemma time2epoch_calendar_witness :
  time2epoch (mk_when 3 1 29 23 59 60 2000 0) = Some (86400 * day_number 2000 1 29 + 3600 * 23 + 60 * 59 + 60) /\
  day_number 1970 0 1 = 0.
Proof. split; [apply (time2epoch_calendar (mk_when 3 1 29 23 59 60 2000 0)); by_compute|vm_compute; reflexivity]. Defined.

(** The day before the first is accepted in the compact format, and a number of
    ten digits for a day. *)
Example getdate_day_zero :
  curl_getdate (str "20040900") = curl_getdate (str "20040831") /\
  curl_getdate (str "0000000009 Sep 2004") = curl_getdate (str "9 Sep 2004") /\
  curl_getdate (str "9 Sep 2004") = Some 1094688000.
Proof. split_and!; vm_compute; reflexivity. Qed.
