(* ===== verification/Mprintf.v ===== *)
(** Formatted output, lib/mprintf.c.

    A format is parsed into segments of output and a table of inputs, which is
    then filled from the argument list; [formatf] walks over the segments and
    hands every byte to a [stream] function that may refuse it.  The streams
    are the ones of [curl_mvsnprintf] (a bounded buffer), [curl_mvsprintf] (a
    buffer without a bound) and [curl_mvaprintf] (a dynamic buffer).  A
    [double] is a [spec_float]; the [snprintf] of the C library that writes
    one is a parameter. *)

From Stdlib Require Import ZArith Lia List String SpecFloat.
From stdpp Require Import base numbers option list.
From S2P Require Import Prelude Escape Dynbuf Strparse InetAddr.
Close Scope nat_scope.
Open Scope Z_scope.

(** * Data *)

Definition BUFFSIZE : Z := 326.
Definition MAX_PARAMETERS : Z := 128.
Definition MAX_SEGMENTS : Z := 128.
Definition INT_MIN : Z := -2147483648.


Inductive FormatType :=
  | MTYPE_STRING | MTYPE_PTR | MTYPE_INTPTR
  | MTYPE_INT | MTYPE_LONG | MTYPE_LONGLONG
  | MTYPE_INTU | MTYPE_LONGU | MTYPE_LONGLONGU
  | MTYPE_DOUBLE | MTYPE_LONGDOUBLE | MTYPE_WIDTH | MTYPE_PRECISION.

#[global] Instance FormatType_eq_dec : EqDecision FormatType.
Proof. solve_decision. Defined.

Definition FLAGS_SPACE : Z := 1.
Definition FLAGS_SHOWSIGN : Z := 2.
Definition FLAGS_LEFT : Z := 4.
Definition FLAGS_ALT : Z := 8.
Definition FLAGS_SHORT : Z := 16.
Definition FLAGS_LONG : Z := 32.
Definition FLAGS_LONGLONG : Z := 64.
Definition FLAGS_LONGDOUBLE : Z := 128.
Definition FLAGS_PAD_NIL : Z := 256.
Definition FLAGS_UNSIGNED : Z := 512.
Definition FLAGS_OCTAL : Z := 1024.
Definition FLAGS_HEX : Z := 2048.
Definition FLAGS_UPPER : Z := 4096.
Definition FLAGS_WIDTH : Z := 8192.
Definition FLAGS_WIDTHPARAM : Z := 16384.
Definition FLAGS_PREC : Z := 32768.
Definition FLAGS_PRECPARAM : Z := 65536.
Definition FLAGS_CHAR : Z := 131072.
Definition FLAGS_FLOATE : Z := 262144.
Definition FLAGS_FLOATG : Z := 524288.
Definition FLAGS_SUBSTR : Z := 1048576.

(** [flags & ~F] for an [unsigned int]. *)
Definition without (flags f : Z) : Z := Z.land flags (u32 (Z.lnot f)).

Inductive dollar := DOLLAR_UNKNOWN | DOLLAR_NOPE | DOLLAR_USE.

#[global] Instance dollar_eq_dec : EqDecision dollar.
Proof. solve_decision. Defined.

Inductive pfmt :=
  | PFMT_OK | PFMT_DOLLAR | PFMT_DOLLARWIDTH | PFMT_DOLLARPREC | PFMT_MANYARGS
  | PFMT_PREC | PFMT_PRECMIX | PFMT_WIDTH | PFMT_INPUTGAP | PFMT_WIDTHARG
  | PFMT_PRECARG | PFMT_MANYSEGS.

#[global] Instance pfmt_eq_dec : EqDecision pfmt.
Proof. solve_decision. Defined.

Record outsegment := mk_seg {
  seg_width : Z; seg_precision : Z; seg_flags : Z; seg_input : Z; seg_start : list Z; seg_outlen : Z }.

(** The union of [struct va_input]: the member that was stored. *)
Inductive va_value :=
  | V_str (s : option (list Z)) | V_ptr (p : Z) | V_nums (n : Z) | V_numu (n : Z) | V_dnum (d : spec_float).

(** An argument, with the type it was promoted to. *)
Inductive va_arg :=
  | A_str (s : option (list Z)) | A_ptr (p : Z) | A_int (n : Z) | A_uint (n : Z)
  | A_long (n : Z) | A_ulong (n : Z) | A_double (d : spec_float).

(** * Parsing *)

(** The number, 0-based or -1, and [*end]. *)
Definition dollarstring (p : list Z) : option (Z * list Z) :=
  '(rc, num, q) ← curlx_str_number p MAX_PARAMETERS;
  match rc with
  | STRE_OK =>
      match curlx_str_single q 36 with
      | (STRE_OK, q) => if num =? 0 then Some (-1, p) else Some (num - 1, q)
      | _ => Some (-1, p)
      end
  | _ => Some (-1, p)
  end.

(** The locals of [parse_flags]. *)
Record pflags := mk_pf { pf_flags : Z; pf_width : Z; pf_precision : Z }.

Definition pf_or (f : Z) (p : pflags) := mk_pf (Z.lor (pf_flags p) f) (pf_width p) (pf_precision p).
Definition pf_set_width (w : Z) (p : pflags) := mk_pf (pf_flags p) w (pf_precision p).
Definition pf_set_precision (n : Z) (p : pflags) := mk_pf (pf_flags p) (pf_width p) n.

(** [case '.'], with [fmt] behind the dot. *)
Definition flags_dot (fmt : list Z) (use_dollar : dollar) (p : pflags) : option (pfmt * pflags * list Z) :=
  '(rc, p, fmt) ←
    (if deref fmt =? 42 then
       let p := pf_or FLAGS_PRECPARAM p in
       let fmt := drop 1 fmt in
       if bool_decide (use_dollar = DOLLAR_USE) then
         '(precision, fmt) ← dollarstring fmt;
         Some (if precision <? 0 then PFMT_DOLLARPREC else PFMT_OK, pf_set_precision precision p, fmt)
       else Some (PFMT_OK, pf_set_precision (-1) p, fmt)
     else
       let p := pf_or FLAGS_PREC p in
       let is_neg := deref fmt =? 45 in
       let fmt := if is_neg then drop 1 fmt else fmt in
       '(rc, num, fmt) ← curlx_str_number fmt INT_MAX;
       match rc with
       | STRE_OK => Some (PFMT_OK, pf_set_precision (if is_neg then - num else num) p, fmt)
       | _ => Some (PFMT_PREC, p, fmt)
       end);
  match rc with
  | PFMT_OK =>
      if Z.land (pf_flags p) (Z.lor FLAGS_PREC FLAGS_PRECPARAM) =? Z.lor FLAGS_PREC FLAGS_PRECPARAM
      then Some (PFMT_PRECMIX, p, fmt) else Some (PFMT_OK, p, fmt)
  | _ => Some (rc, p, fmt)
  end.

(** [case '0'] to [case '9'], with [fmt] at the digit. *)
Definition flags_width (fmt : list Z) (p : pflags) : option (pfmt * pflags * list Z) :=
  let p := if (deref fmt =? 48) && negb (has (pf_flags p) FLAGS_LEFT) then pf_or FLAGS_PAD_NIL p else p in
  let p := pf_or FLAGS_WIDTH p in
  '(rc, num, fmt) ← curlx_str_number fmt INT_MAX;
  match rc with
  | STRE_OK => Some (PFMT_OK, pf_set_width num p, fmt)
  | _ => Some (PFMT_WIDTH, p, fmt)
  end.

(** [case '*'], with [fmt] behind the star. *)
Definition flags_star (fmt : list Z) (use_dollar : dollar) (p : pflags) : option (pfmt * pflags * list Z) :=
  let p := pf_or FLAGS_WIDTHPARAM p in
  if bool_decide (use_dollar = DOLLAR_USE) then
    '(width, fmt) ← dollarstring fmt;
    Some (if width <? 0 then PFMT_DOLLARWIDTH else PFMT_OK, pf_set_width width p, fmt)
  else Some (PFMT_OK, pf_set_width (-1) p, fmt).

(** One round of the loop of [parse_flags]: [None] inside is its last. *)
Definition flag_step (fmt : list Z) (use_dollar : dollar) (p : pflags)
    : option (option (pfmt * pflags * list Z)) :=
  let c := deref fmt in
  let next := drop 1 fmt in
  let set f := Some (Some (PFMT_OK, pf_or f p, next)) in
  if c =? 32 then set FLAGS_SPACE
  else if c =? 43 then set FLAGS_SHOWSIGN
  else if c =? 45 then
    let flags := without (Z.lor (pf_flags p) FLAGS_LEFT) FLAGS_PAD_NIL in
    Some (Some (PFMT_OK, mk_pf flags (pf_width p) (pf_precision p), next))
  else if c =? 35 then set FLAGS_ALT
  else if c =? 46 then Some <$> flags_dot next use_dollar p
  else if c =? 104 then set FLAGS_SHORT
  else if c =? 108 then
    set (if has (pf_flags p) FLAGS_LONG then FLAGS_LONGLONG else FLAGS_LONG)
  else if c =? 76 then set FLAGS_LONGDOUBLE
  else if c =? 113 then set FLAGS_LONGLONG
  else if c =? 122 then set FLAGS_LONG
  else if c =? 79 then set FLAGS_LONG
  else if between 48 c 57 then Some <$> flags_width fmt p
  else if c =? 42 then Some <$> flags_star next use_dollar p
  else Some None.

(** Every round but the last takes a byte: [fuel] is the length of [fmt]. *)
Fixpoint flags_loop (fuel : nat) (fmt : list Z) (use_dollar : dollar) (p : pflags)
    : option (pfmt * pflags * list Z) :=
  r ← flag_step fmt use_dollar p;
  match r with
  | None => Some (PFMT_OK, p, fmt)
  | Some (PFMT_OK, p, fmt) =>
      match fuel with O => None | S fuel => flags_loop fuel fmt use_dollar p end
  | Some r => Some r
  end.

Definition parse_flags (fmt : list Z) (use_dollar : dollar) : option (pfmt * pflags * list Z) :=
  flags_loop (length fmt) fmt use_dollar (mk_pf 0 0 0).

(** [None] for an invalid conversion. *)
Definition parse_conversion (f flags : Z) : option (Z * FormatType) :=
  let sized l ll i := if has flags FLAGS_LONGLONG then ll else if has flags FLAGS_LONG then l else i in
  let signed := sized MTYPE_LONG MTYPE_LONGLONG MTYPE_INT in
  let unsigned := sized MTYPE_LONGU MTYPE_LONGLONGU MTYPE_INTU in
  let with_ fl type := Some (Z.lor flags fl, type) in
  if f =? 83 then with_ FLAGS_ALT MTYPE_STRING
  else if f =? 115 then with_ 0 MTYPE_STRING
  else if f =? 110 then with_ 0 MTYPE_INTPTR
  else if f =? 112 then with_ 0 MTYPE_PTR
  else if (f =? 100) || (f =? 105) then with_ 0 signed
  else if f =? 117 then with_ FLAGS_UNSIGNED unsigned
  else if f =? 111 then with_ (Z.lor FLAGS_OCTAL FLAGS_UNSIGNED) unsigned
  else if f =? 120 then with_ (Z.lor FLAGS_HEX FLAGS_UNSIGNED) unsigned
  else if f =? 88 then with_ (Z.lor FLAGS_HEX (Z.lor FLAGS_UPPER FLAGS_UNSIGNED)) unsigned
  else if f =? 99 then with_ FLAGS_CHAR MTYPE_INT
  else if f =? 102 then with_ 0 MTYPE_DOUBLE
  else if f =? 101 then with_ FLAGS_FLOATE MTYPE_DOUBLE
  else if f =? 69 then with_ (Z.lor FLAGS_FLOATE FLAGS_UPPER) MTYPE_DOUBLE
  else if f =? 103 then with_ FLAGS_FLOATG MTYPE_DOUBLE
  else if f =? 71 then with_ (Z.lor FLAGS_FLOATG FLAGS_UPPER) MTYPE_DOUBLE
  else None.

(** [is_arg_used] and [mark_arg_used]: an index behind the array is undefined. *)
Definition is_arg_used (x : list Z) (y : Z) : option bool :=
  b ← (if y <? 0 then None else x !! Z.to_nat (y / 8));
  Some (negb (Z.land b (Z.shiftl 1 (Z.land y 7)) =? 0)).

Definition mark_arg_used (x : list Z) (y : Z) : option (list Z) :=
  b ← (if y <? 0 then None else x !! Z.to_nat (y / 8));
  Some (<[Z.to_nat (y / 8) := Z.lor b (u8 (Z.shiftl 1 (Z.land y 7)))]> x).

(** The locals of [parsefmt] and its two arrays. *)
Record pstate := mk_ps {
  use_dollar : dollar; param_num : Z; max_param : Z; usedinput : list Z;
  inp : list (option FormatType); out : list outsegment }.

Definition set_dollar d s := mk_ps d (param_num s) (max_param s) (usedinput s) (inp s) (out s).
Definition next_param s := mk_ps (use_dollar s) (param_num s + 1) (max_param s) (usedinput s) (inp s) (out s).

(** The type of input [n] is stored and the input is marked. *)
Definition set_input (n : Z) (t : FormatType) (s : pstate) : option pstate :=
  if (0 <=? n) && (n <? zlen (inp s)) then
    used ← mark_arg_used (usedinput s) n;
    Some (mk_ps (use_dollar s) (param_num s) (if n >=? max_param s then n else max_param s) used
                (<[Z.to_nat n := Some t]> (inp s)) (out s))
  else None.

(** [optr = &out[ocount++]], with its test and the stores to it. *)
Definition add_segment (seg : outsegment) (s : pstate) : pfmt * pstate :=
  if zlen (out s) + 1 >? MAX_SEGMENTS then (PFMT_MANYSEGS, s)
  else (PFMT_OK, mk_ps (use_dollar s) (param_num s) (max_param s) (usedinput s) (inp s) (out s ++ [seg])).

Definition text_segment (start : list Z) (outlen : Z) : outsegment :=
  mk_seg 0 0 FLAGS_SUBSTR 0 start outlen.

(** The argument that holds a width or a precision. *)
Definition star_input (n : Z) (t : FormatType) (twice : pfmt) (s : pstate) : option (pfmt * Z * pstate) :=
  '(rc, n, s) ←
    (if n <? 0 then Some (PFMT_OK, param_num s, next_param s)
     else used ← is_arg_used (usedinput s) n; Some (if used : bool then twice else PFMT_OK, n, s));
  match rc with
  | PFMT_OK =>
      if n >=? MAX_PARAMETERS then Some (PFMT_MANYARGS, n, s)
      else s ← set_input n t s; Some (PFMT_OK, n, s)
  | _ => Some (rc, n, s)
  end.

(** The parameter number of a directive, when it has one: -1 when not. *)
Definition dollar_param (fmt : list Z) (s : pstate) : option (pfmt * Z * list Z * pstate) :=
  if bool_decide (use_dollar s = DOLLAR_NOPE) then Some (PFMT_OK, -1, fmt, s)
  else
    '(param, fmt) ← dollarstring fmt;
    if param <? 0 then
      if bool_decide (use_dollar s = DOLLAR_USE) then Some (PFMT_DOLLAR, param, fmt, s)
      else Some (PFMT_OK, -1, fmt, set_dollar DOLLAR_NOPE s)
    else Some (PFMT_OK, param, fmt, set_dollar DOLLAR_USE s).

(** A directive, with [fmt] behind its percent sign; the result has the new
    [fmt] and [start]. *)
Definition directive (fmt start : list Z) (outlen : Z) (s : pstate)
    : option (pfmt * pstate * list Z * list Z) :=
  '(rc, param, fmt, s) ← dollar_param fmt s;
  match rc with
  | PFMT_OK =>
      '(rc, p, fmt) ← parse_flags fmt (use_dollar s);
      match rc with
      | PFMT_OK =>
          match parse_conversion (deref fmt) (pf_flags p) with
          | None => Some (PFMT_OK, s, fmt, start)
          | Some (flags, type) =>
              '(rc, width, s) ←
                (if has flags FLAGS_WIDTHPARAM then star_input (pf_width p) MTYPE_WIDTH PFMT_WIDTHARG s
                 else Some (PFMT_OK, pf_width p, s));
              match rc with
              | PFMT_OK =>
                  '(rc, precision, s) ←
                    (if has flags FLAGS_PRECPARAM
                     then star_input (pf_precision p) MTYPE_PRECISION PFMT_PRECARG s
                     else Some (PFMT_OK, pf_precision p, s));
                  match rc with
                  | PFMT_OK =>
                      let '(param, s) := if param <? 0 then (param_num s, next_param s) else (param, s) in
                      if param >=? MAX_PARAMETERS then Some (PFMT_MANYARGS, s, fmt, start)
                      else
                        s ← set_input param type s;
                        let fmt := drop 1 fmt in
                        let '(rc, s) := add_segment (mk_seg width precision flags param start outlen) s in
                        Some (rc, s, fmt, fmt)
                  | _ => Some (rc, s, fmt, start)
                  end
              | _ => Some (rc, s, fmt, start)
              end
          end
      | _ => Some (rc, s, fmt, start)
      end
  | _ => Some (rc, s, fmt, start)
  end.

(** The loop of [parsefmt]; every round takes a byte. *)
Fixpoint fmt_loop (fuel : nat) (fmt start : list Z) (s : pstate) : option (pfmt * pstate * list Z * list Z) :=
  let c := deref fmt in
  if c =? 0 then Some (PFMT_OK, s, fmt, start)
  else
    match fuel with
    | O => None
    | S fuel =>
        let fmt := drop 1 fmt in
        if c =? 37 then
          let outlen := zlen start - zlen fmt - 1 in
          if deref fmt =? 37 then
            let '(rc, s) := if negb (outlen =? 0) then add_segment (text_segment start outlen) s else (PFMT_OK, s) in
            match rc with
            | PFMT_OK => fmt_loop fuel (drop 1 fmt) fmt s
            | _ => Some (rc, s, fmt, start)
            end
          else
            '(rc, s, fmt, start) ← directive fmt start outlen s;
            match rc with
            | PFMT_OK => fmt_loop fuel fmt start s
            | _ => Some (rc, s, fmt, start)
            end
        else fmt_loop fuel fmt start s
    end.

(** [va_arg]: an argument of another type is undefined, but for a value that
    the signed and the unsigned type share. *)
Definition va_fetch (t : FormatType) (a : va_arg) : option va_value :=
  match t, a with
  | MTYPE_STRING, A_str s => Some (V_str s)
  | (MTYPE_INTPTR | MTYPE_PTR), A_ptr p => Some (V_ptr p)
  | (MTYPE_LONGLONGU | MTYPE_LONGU), A_ulong n => Some (V_numu n)
  | (MTYPE_LONGLONGU | MTYPE_LONGU), A_long n => if 0 <=? n then Some (V_numu n) else None
  | (MTYPE_LONGLONG | MTYPE_LONG), A_long n => Some (V_nums n)
  | (MTYPE_LONGLONG | MTYPE_LONG), A_ulong n => if n <=? CURL_OFF_T_MAX then Some (V_nums n) else None
  | MTYPE_INTU, A_uint n => Some (V_numu n)
  | MTYPE_INTU, A_int n => if 0 <=? n then Some (V_numu n) else None
  | (MTYPE_INT | MTYPE_WIDTH | MTYPE_PRECISION), A_int n => Some (V_nums n)
  | (MTYPE_INT | MTYPE_WIDTH | MTYPE_PRECISION), A_uint n => if n <=? INT_MAX then Some (V_nums n) else None
  | MTYPE_DOUBLE, A_double d => Some (V_dnum d)
  | _, _ => None
  end.

(** The arguments of inputs [i], [i + 1], ... *)
Fixpoint read_inputs (n : nat) (i : Z) (used : list Z) (types : list (option FormatType)) (args : list va_arg)
    : option (pfmt * list (FormatType * va_value)) :=
  match n with
  | O => Some (PFMT_OK, [])
  | S n =>
      u ← is_arg_used used i;
      if negb u then Some (PFMT_INPUTGAP, [])
      else
        t ← (types !! Z.to_nat i : option (option FormatType));
        t ← t;
        match args with
        | [] => None
        | a :: args =>
            v ← va_fetch t a;
            '(rc, l) ← read_inputs n (i + 1) used types args;
            Some (rc, (t, v) :: l)
        end
  end.

Definition parse_start : pstate :=
  mk_ps DOLLAR_UNKNOWN 0 (-1) (replicate 16 0) (replicate 128 None) [].

(** The code, [out] and [in]. *)
Definition parsefmt (format : list Z) (arglist : list va_arg)
    : option (pfmt * list outsegment * list (FormatType * va_value)) :=
  '(rc, s, fmt, start) ← fmt_loop (length format) format format parse_start;
  match rc with
  | PFMT_OK =>
      let outlen := zlen start - zlen fmt in
      let '(rc, s) := if negb (outlen =? 0) then add_segment (text_segment start outlen) s else (PFMT_OK, s) in
      match rc with
      | PFMT_OK =>
          '(rc, l) ← read_inputs (Z.to_nat (max_param s + 1)) 0 (usedinput s) (inp s) arglist;
          Some (rc, out s, l)
      | _ => Some (rc, out s, [])
      end
  | _ => Some (rc, out s, [])
  end.

(** * Output *)

Record mproperty := mk_prop { p_width : Z; p_prec : Z; p_flags : Z }.

Section Stream.
Context {U : Type}.

(** A stream takes a byte and says whether it failed; [None] is undefined. *)
Context (stream : Z -> U -> option (bool * U)).

(** The stream's state, [*donep] and the stores of the %n directives: the
    pointer, the size of the integer and its value. *)
Record ostate := mk_o { userp : U; donep : Z; stores : list (Z * Z * Z) }.

(** A piece of output: [true] is the early return. *)
Definition output : Type := ostate -> option (bool * ostate).

Definition OUTCHAR (x : Z) : output := fun o =>
  '(fail, u) ← stream (u8 x) (userp o);
  if fail : bool then Some (true, mk_o u (donep o) (stores o))
  else if donep o =? INT_MAX then None
  else Some (false, mk_o u (donep o + 1) (stores o)).

Definition out_nop : output := fun o => Some (false, o).

Definition out_seq (a b : output) : output := fun o =>
  '(stop, o) ← a o; if stop : bool then Some (true, o) else b o.

Definition out_when (c : bool) (a : output) : output := if c then a else out_nop.

(** [while(n-- > 0) OUTCHAR(x);] *)
Definition out_pad (x n : Z) : output := Nat.iter (Z.to_nat n) (out_seq (OUTCHAR x)) out_nop.

Fixpoint out_bytes (l : list Z) : output :=
  match l with [] => out_nop | c :: l => out_seq (OUTCHAR c) (out_bytes l) end.

(** [while(num > 0)]: the digits in front of [w], and as many as [num] has. *)
Fixpoint put_digits (fuel : nat) (digits : list Z) (base num : Z) (w : list Z) : option (list Z) :=
  if num >? 0 then
    match fuel with
    | O => None
    | S fuel =>
        d ← (if base =? 10 then Some (48 + num mod 10) else digits !! Z.to_nat (num mod base));
        put_digits fuel digits base (num / base) (d :: w)
    end
  else Some w.

(** [w] is the text behind the pointer of that name; [work] has room for
    [BUFFSIZE - 1] bytes of it. *)
Definition out_number (p : mproperty) (num nums : Z) : output := fun o =>
  let flags := p_flags p in
  let width := p_width p in
  let prec := p_prec p in
  let is_alt := has flags FLAGS_ALT in
  if has flags FLAGS_CHAR then
    out_seq (out_when (negb (has flags FLAGS_LEFT)) (out_pad 32 (width - 1)))
      (out_seq (OUTCHAR num) (out_when (has flags FLAGS_LEFT) (out_pad 32 (width - 1)))) o
  else
    let base := if has flags FLAGS_OCTAL then 8 else if has flags FLAGS_HEX then 16 else 10 in
    let digits :=
      if negb (has flags FLAGS_OCTAL) && has flags FLAGS_HEX && has flags FLAGS_UPPER
      then Curl_udigits else Curl_ldigits in
    let is_neg :=
      negb (has flags FLAGS_OCTAL) && negb (has flags FLAGS_HEX) && negb (has flags FLAGS_UNSIGNED)
      && (nums <? 0) in
    let num := if is_neg then u64 (u64 (- (nums + 1)) + 1) else num in
    let prec := if prec =? -1 then 1 else prec in
    w ← put_digits 64 digits base num [];
    let width := width - zlen w in
    let prec := prec - zlen w in
    if prec <? INT_MIN then None else
    let '(w, width) := if is_alt && (base =? 8) && (prec <=? 0) then (48 :: w, width - 1) else (w, width) in
    let '(w, width) :=
      if prec >? 0
      then (replicate (Z.to_nat (Z.min prec (BUFFSIZE - 1 - zlen w))) 48 ++ w, width - prec)
      else (w, width) in
    let width := if is_alt && (base =? 16) then width - 2 else width in
    let sign := is_neg || has flags FLAGS_SHOWSIGN || has flags FLAGS_SPACE in
    let width := if sign then width - 1 else width in
    if width - 1 <? INT_MIN then None
    else
      out_seq (out_when (negb (has flags FLAGS_LEFT) && negb (has flags FLAGS_PAD_NIL)) (out_pad 32 width))
      (out_seq
        (if is_neg then OUTCHAR 45
         else if has flags FLAGS_SHOWSIGN then OUTCHAR 43
         else if has flags FLAGS_SPACE then OUTCHAR 32 else out_nop)
      (out_seq
        (out_when (is_alt && (base =? 16))
           (out_seq (OUTCHAR 48) (OUTCHAR (if has flags FLAGS_UPPER then 88 else 120))))
      (out_seq
        (out_when (negb (has flags FLAGS_LEFT) && has flags FLAGS_PAD_NIL) (out_pad 48 width))
      (out_seq (out_bytes w)
        (out_when (has flags FLAGS_LEFT) (out_pad 32 width)))))) o.

Definition nilstr : list Z := str "(nil)".

Definition out_string (p : mproperty) (s : option (list Z)) : output :=
  let flags := p_flags p in
  let prec := p_prec p in
  let '(s, len, flags) :=
    match s with
    | None =>
        if (prec =? -1) || (prec >=? 5) then (nilstr, 5, without flags FLAGS_ALT) else ([], 0, flags)
    | Some s =>
        (s, if negb (prec =? -1) then u64 prec else if deref s =? 0 then 0 else strlen s, flags)
    end in
  let width := p_width p - (if len >? INT_MAX then INT_MAX else len) in
  out_seq (out_when (has flags FLAGS_ALT) (OUTCHAR 34))
  (out_seq (out_when (negb (has flags FLAGS_LEFT)) (out_pad 32 width))
  (out_seq (out_bytes (ztake len (ctext s)))
  (out_seq (out_when (has flags FLAGS_LEFT) (out_pad 32 width))
    (out_when (has flags FLAGS_ALT) (OUTCHAR 34))))).

Definition out_pointer (p : mproperty) (ptr : Z) : output :=
  if negb (ptr =? 0) then
    out_number (mk_prop (p_width p) (p_prec p) (Z.lor (p_flags p) (Z.lor FLAGS_HEX FLAGS_ALT))) ptr 0
  else
    let width := p_width p - 5 in
    out_seq (out_when (has (p_flags p) FLAGS_LEFT) (out_pad 32 width))
    (out_seq (out_bytes nilstr)
      (out_when (negb (has (p_flags p) FLAGS_LEFT)) (out_pad 32 width))).

(** [case MTYPE_INTPTR] of [formatf]: the count at its width. *)
Definition out_count (p : mproperty) (ptr : Z) : output := fun o =>
  let size :=
    if has (p_flags p) FLAGS_LONGLONG then 8 else if has (p_flags p) FLAGS_LONG then 8
    else if negb (has (p_flags p) FLAGS_SHORT) then 4 else 2 in
  Some (false, mk_o (userp o) (donep o) (stores o ++ [(ptr, size, donep o mod 2 ^ (8 * size))])).

(** What [formatf] does with a [double]. *)
Context (out_double : mproperty -> spec_float -> output).

(** The member [nums] of the union, as an [int]; the bytes of a pointer or a
    [double] in its place are not modelled. *)
Definition val_int (v : va_value) : option Z :=
  match v with
  | V_nums n | V_numu n => Some ((n + 2 ^ 31) mod 2 ^ 32 - 2 ^ 31)
  | _ => None
  end.

(** The width and the precision of a segment. *)
Definition seg_prop (input : list (FormatType * va_value)) (optr : outsegment) : option mproperty :=
  let flags := seg_flags optr in
  '(width, flags) ←
    (if has flags FLAGS_WIDTHPARAM then
       v ← input !! Z.to_nat (seg_width optr);
       n ← val_int (snd v);
       if n <? 0
       then Some (if n =? INT_MIN then INT_MAX else - n,
                  without (Z.lor flags FLAGS_LEFT) FLAGS_PAD_NIL)
       else Some (n, flags)
     else Some (seg_width optr, flags));
  prec ←
    (if has flags FLAGS_PRECPARAM then
       v ← input !! Z.to_nat (seg_precision optr);
       n ← val_int (snd v);
       Some (if n <? 0 then -1 else n)
     else if has flags FLAGS_PREC then Some (seg_precision optr) else Some (-1));
  Some (mk_prop width prec flags).

(** The switch of [formatf]. *)
Definition out_value (p : mproperty) (t : FormatType) (v : va_value) : output :=
  match t, v with
  | (MTYPE_INTU | MTYPE_LONGU | MTYPE_LONGLONGU), V_numu n =>
      out_number (mk_prop (p_width p) (p_prec p) (Z.lor (p_flags p) FLAGS_UNSIGNED)) n 0
  | (MTYPE_INT | MTYPE_LONG | MTYPE_LONGLONG), V_nums n => out_number p (u64 n) n
  | MTYPE_STRING, V_str s => out_string p s
  | MTYPE_PTR, V_ptr ptr => out_pointer p ptr
  | MTYPE_DOUBLE, V_dnum d => out_double p d
  | MTYPE_INTPTR, V_ptr ptr => out_count p ptr
  | MTYPE_WIDTH, _ | MTYPE_PRECISION, _ | MTYPE_LONGDOUBLE, _ => out_nop
  | _, _ => fun _ => None
  end.

Definition out_segment (input : list (FormatType * va_value)) (optr : outsegment) : output := fun o =>
  out_seq (out_bytes (ztake (seg_outlen optr) (ctext (seg_start optr))))
    (fun o =>
       if negb (seg_outlen optr =? 0) && has (seg_flags optr) FLAGS_SUBSTR then Some (false, o)
       else
         p ← seg_prop input optr;
         '(t, v) ← input !! Z.to_nat (seg_input optr);
         out_value p t v o) o.

Fixpoint out_segments (input : list (FormatType * va_value)) (l : list outsegment) : output :=
  match l with [] => out_nop | seg :: l => out_seq (out_segment input seg) (out_segments input l) end.

(** The stream's state at the end, [done] and the stores. *)
Definition formatf (format : list Z) (ap_save : list va_arg) (u : U) : option ostate :=
  '(rc, output, input) ← parsefmt format ap_save;
  match rc with
  | PFMT_OK => snd <$> out_segments input output (mk_o u 0 [])
  | _ => Some (mk_o u 0 [])
  end.

End Stream.

(** * The streams *)

Record nsprintf := mk_ns { ns_buffer : mem; ns_length : Z; ns_max : Z }.

Definition addbyter (outc : Z) (infop : nsprintf) : option (bool * nsprintf) :=
  if ns_length infop <? ns_max infop then
    m ← mem_write (ns_buffer infop) (ns_length infop) [outc];
    Some (false, mk_ns m (ns_length infop + 1) (ns_max infop))
  else Some (true, infop).

(** The return value, the buffer and the stores. *)
Definition curl_mvsnprintf (out_double : mproperty -> spec_float -> output (U := nsprintf))
    (buffer : mem) (maxlength : Z) (format : list Z) (args : list va_arg)
    : option (Z * mem * list (Z * Z * Z)) :=
  o ← formatf addbyter out_double format args (mk_ns buffer 0 maxlength);
  let info := userp o in
  if negb (ns_max info =? 0) then
    if ns_max info =? ns_length info then
      m ← mem_write (ns_buffer info) (ns_length info - 1) [0];
      Some (donep o - 1, m, stores o)
    else
      m ← mem_write (ns_buffer info) (ns_length info) [0];
      Some (donep o, m, stores o)
  else Some (donep o, ns_buffer info, stores o).

(** ** Numbers with a fraction *)

(** 10.0 *)
Definition ten : spec_float := S754_finite false 5629499534213120 (-49).

(** [while(val >= 10.0) { val /= 10; maxprec--; }]; a finite [double] takes
    at most 308 rounds. *)
Fixpoint scale_down (fuel : nat) (val : spec_float) (maxprec : Z) : option Z :=
  if SFleb ten val then
    match fuel with
    | O => None
    | S fuel => scale_down fuel (SFdiv 53 1024 val ten) (maxprec - 1)
    end
  else Some maxprec.

(** The recursive [curl_msnprintf(fptr, left, format, n)]. *)
Definition fmt_number (left : Z) (format : list Z) (n : Z) : option (list Z) :=
  '(len, m, _) ← curl_mvsnprintf (fun _ _ _ => None) (uninit left) left format [A_int n];
  mem_read m 0 len.

(** The precision that leaves room in [work]. *)
Definition double_prec (dnum : spec_float) (width prec : Z) : option Z :=
  let maxprec := BUFFSIZE - 1 in
  let prec := if prec >? maxprec then maxprec - 1 else prec in
  let maxprec := if (width >? 0) && (prec <=? width) then maxprec - width else maxprec in
  maxprec ← scale_down 400 dnum maxprec;
  let prec := if prec >? maxprec then maxprec - 1 else prec in
  Some (if prec <? 0 then 0 else prec).

(** The format for the [snprintf] of the C library. *)
Definition double_format (p : mproperty) (dnum : spec_float) : option (list Z) :=
  let flags := p_flags p in
  let fmt :=
    str "%" ++ (if has flags FLAGS_LEFT then [45] else []) ++ (if has flags FLAGS_SHOWSIGN then [43] else [])
    ++ (if has flags FLAGS_SPACE then [32] else []) ++ (if has flags FLAGS_ALT then [35] else []) in
  let width := if (p_width p >=? 0) && (p_width p >=? BUFFSIZE) then BUFFSIZE - 1 else p_width p in
  w ← (if p_width p >=? 0 then fmt_number 31 (str "%d") width else Some []);
  prec ← (if p_prec p >=? 0
          then n ← double_prec dnum width (p_prec p); fmt_number (31 - zlen w) (str ".%d") n
          else Some []);
  Some (fmt ++ w ++ prec ++ (if has flags FLAGS_LONG then [108] else []) ++
        [if has flags FLAGS_FLOATE then if has flags FLAGS_UPPER then 69 else 101
         else if has flags FLAGS_FLOATG then if has flags FLAGS_UPPER then 71 else 103
         else 102]).

Section Printf.

(** The text that [snprintf] of the C library makes of a [double]. *)
Context (c_snprintf : list Z -> spec_float -> list Z).

Definition out_double {U} (stream : Z -> U -> option (bool * U)) (p : mproperty) (dnum : spec_float)
    : output (U := U) := fun o =>
  fmt ← double_format p dnum;
  out_bytes stream (ctext (ztake (BUFFSIZE - 1) (c_snprintf fmt dnum))) o.

Definition curl_msnprintf (buffer : mem) (maxlength : Z) (format : list Z) (args : list va_arg) :=
  curl_mvsnprintf (out_double addbyter) buffer maxlength format args.

(** [info->merr] *)
Inductive merr := MERR_OK | MERR_MEM | MERR_TOO_LARGE.

Record asprintf := mk_as { as_b : dynbuf; as_merr : merr; as_o : allocs }.

Definition alloc_addbyter (outc : Z) (infop : asprintf) : option (bool * asprintf) :=
  '(b, result, o) ← curlx_dyn_addn (as_b infop) [outc] (as_o infop);
  match result with
  | CURLE_OK => Some (false, mk_as b (as_merr infop) o)
  | CURLE_TOO_LARGE => Some (true, mk_as b MERR_TOO_LARGE o)
  | _ => Some (true, mk_as b MERR_MEM o)
  end.

(** The buffer and the MERR code, with the stores. *)
Definition curlx_dyn_vprintf (dyn : dynbuf) (format : list Z) (args : list va_arg) (o : allocs)
    : option (merr * dynbuf * allocs * list (Z * Z * Z)) :=
  s ← formatf alloc_addbyter (out_double alloc_addbyter) format args (mk_as dyn MERR_OK o);
  let info := userp s in
  match as_merr info with
  | MERR_OK => Some (MERR_OK, as_b info, as_o info, stores s)
  | e => Some (e, curlx_dyn_free (as_b info), as_o info, stores s)
  end.

Definition DYN_APRINTF : Z := 8000000.

(** The block with the text, [None] for NULL. *)
Definition curl_mvaprintf (format : list Z) (args : list va_arg) (o : allocs)
    : option (option mem * allocs * list (Z * Z * Z)) :=
  s ← formatf alloc_addbyter (out_double alloc_addbyter) format args
        (mk_as (curlx_dyn_init DYN_APRINTF) MERR_OK o);
  let info := userp s in
  match as_merr info with
  | MERR_OK =>
      if negb (curlx_dyn_len (as_b info) =? 0)
      then Some (curlx_dyn_ptr (as_b info), as_o info, stores s)
      else
        let '(ok, o) := next_alloc (as_o info) in
        Some (if ok then Some [Some 0] else None, o, stores s)
  | _ => Some (None, as_o info, stores s)
  end.

(** The pointer into the buffer is the block and the offset. *)
Definition storebuffer (outc : Z) (f : mem * Z) : option (bool * (mem * Z)) :=
  m ← mem_write (fst f) (snd f) [outc];
  Some (false, (m, snd f + 1)).

Definition curl_mvsprintf (buffer : mem) (format : list Z) (args : list va_arg)
    : option (Z * mem * list (Z * Z * Z)) :=
  o ← formatf storebuffer (out_double storebuffer) format args (buffer, 0);
  m ← mem_write (fst (userp o)) (snd (userp o)) [0];
  Some (donep o, m, stores o).

(** [curlx_dyn_vaddf] in the tool, which is not built as libcurl. *)
Definition curlx_dyn_addf (s : dynbuf) (fmt : list Z) (args : list va_arg) (o : allocs)
    : option (dynbuf * CURLcode * allocs) :=
  '(st, o, _) ← curl_mvaprintf fmt args o;
  match st with
  | Some m =>
      n ← mem_strlen m;
      b ← mem_read m 0 n;
      dyn_nappend s b o
  | None => Some (curlx_dyn_free s, CURLE_OUT_OF_MEMORY, o)
  end.

(** [curlx_dyn_vaddf] in libcurl. *)
Definition curlx_dyn_addf_lib (s : dynbuf) (fmt : list Z) (args : list va_arg) (o : allocs)
    : option (dynbuf * CURLcode * allocs) :=
  '(rc, s, o, _) ← curlx_dyn_vprintf s fmt args o;
  Some (s, match rc with MERR_OK => CURLE_OK | MERR_TOO_LARGE => CURLE_TOO_LARGE | MERR_MEM => CURLE_OUT_OF_MEMORY end, o).

End Printf.
