(* ===== verification/PrintfSpec.v ===== *)
(** What formatted output means, for Mprintf.v.

    Output is a sequence of events: a byte for the stream or a store of the
    count of bytes.  Every piece of output emits a sequence that does not depend
    on the stream, so that all the printf functions share the text of a format
    and differ in what their stream does with it. *)

From Stdlib Require Import ZArith Lia List String SpecFloat.
From stdpp Require Import base numbers option list.
From S2P Require Import Prelude Dynbuf Strparse Escape InetAddr Mprintf.
Close Scope nat_scope.
Open Scope Z_scope.

(** * Events *)

Inductive event := Byte (c : Z) | Count (ptr size : Z).

Definition ev_bytes (l : list Z) : list event := map Byte l.

(** The bytes the stream gets. *)
Fixpoint ev_text (l : list event) : list Z :=
  match l with
  | [] => []
  | Byte c :: l => u8 c :: ev_text l
  | Count _ _ :: l => ev_text l
  end.

Section Events.
Context {U : Type} (stream : Z -> U -> option (bool * U)).

Definition out_event (e : event) : output (U := U) :=
  match e with
  | Byte c => OUTCHAR stream c
  | Count ptr size => fun o =>
      Some (false, mk_o (userp o) (donep o) (stores o ++ [(ptr, size, donep o mod 2 ^ (8 * size))]))
  end.

Fixpoint out_events (l : list event) : output :=
  match l with [] => out_nop | e :: l => out_seq (out_event e) (out_events l) end.

(** Two pieces of output that do the same. *)
#[local] Instance output_equiv : Equiv (output (U := U)) := pointwise_relation _ eq.

#[local] Instance output_equivalence : Equivalence (≡@{output (U := U)}).
Proof.
  split; [intros a o; reflexivity|intros a b H o; by rewrite H|].
  intros a b c H1 H2 o. by rewrite H1, H2.
Qed.

#[local] Instance out_seq_proper : Proper ((≡) ==> (≡) ==> (≡)) (out_seq (U := U)).
Proof.
  intros a b H c d H' o. unfold out_seq. rewrite H. destruct (b o) as [[[] o']|]; cbn; [done|apply H'|done].
Qed.

Lemma out_seq_assoc (a b c : output (U := U)) : out_seq (out_seq a b) c ≡ out_seq a (out_seq b c).
Proof. intros o. unfold out_seq. by destruct (a o) as [[[] o']|]. Qed.

Lemma out_seq_nop (a : output (U := U)) : out_seq out_nop a ≡ a.
Proof. intros o. reflexivity. Qed.

Lemma out_seq_nop_r (a : output (U := U)) : out_seq a out_nop ≡ a.
Proof. intros o. unfold out_seq, out_nop. by destruct (a o) as [[[] o']|]. Qed.

Lemma out_events_app l k : out_events (l ++ k) ≡ out_seq (out_events l) (out_events k).
Proof.
  induction l as [|e l IH]; cbn [app out_events]; [by rewrite out_seq_nop|].
  by rewrite IH, out_seq_assoc.
Qed.

(** ** Pieces of output and their events *)

Definition emits (a : output (U := U)) (l : list event) : Prop := a ≡ out_events l.

Lemma emits_nop : emits out_nop [].
Proof. unfold emits. reflexivity. Qed.

Lemma emits_char c : emits (OUTCHAR stream c) [Byte c].
Proof. unfold emits. cbn [out_events out_event]. by rewrite out_seq_nop_r. Qed.

Lemma emits_seq a b l k : emits a l -> emits b k -> emits (out_seq a b) (l ++ k).
Proof. unfold emits. intros -> ->. by rewrite out_events_app. Qed.

Lemma emits_when c a l : emits a l -> emits (out_when c a) (if c then l else []).
Proof. destruct c; [done|intros _; apply emits_nop]. Qed.

Lemma emits_bytes l : emits (out_bytes stream l) (ev_bytes l).
Proof.
  induction l as [|c l IH]; [apply emits_nop|].
  change (ev_bytes (c :: l)) with ([Byte c] ++ ev_bytes l). apply emits_seq; [apply emits_char|exact IH].
Qed.

Lemma emits_pad x n : emits (out_pad stream x n) (ev_bytes (replicate (Z.to_nat n) x)).
Proof.
  unfold out_pad. induction (Z.to_nat n) as [|k IH]; [apply emits_nop|].
  cbn [Nat.iter replicate]. change (ev_bytes (x :: replicate k x)) with ([Byte x] ++ ev_bytes (replicate k x)).
  apply emits_seq; [apply emits_char|exact IH].
Qed.

Lemma emits_if (c : bool) a b l k : emits a l -> emits b k -> emits (if c then a else b) (if c then l else k).
Proof. by destruct c. Qed.

End Events.

Create HintDb emits discriminated.
#[export] Hint Resolve emits_nop emits_char emits_seq emits_when emits_bytes emits_pad emits_if : emits.

(** * Numbers *)

(** The bit of a flag. *)
Definition flag_bit (f : Z) : Prop := exists k, 0 <= k < 32 /\ f = 2 ^ k.

Lemma has_testbit a k : 0 <= k -> has a (2 ^ k) = Z.testbit a k.
Proof.
  intros Hk. unfold has. destruct (Z.testbit a k) eqn:E.
  - apply negb_true_iff, Z.eqb_neq. intros H. apply (f_equal (fun x => Z.testbit x k)) in H.
    rewrite Z.land_spec, E, Z.pow2_bits_true, Z.bits_0 in H by lia. done.
  - apply negb_false_iff, Z.eqb_eq. apply Z.bits_inj'. intros i Hi. rewrite Z.land_spec, Z.bits_0.
    destruct (Z.eq_dec i k) as [->|Hne]; [by rewrite E|].
    rewrite Z.pow2_bits_false by lia. apply andb_false_r.
Qed.

Lemma has_lor a b f : flag_bit f -> has (Z.lor a b) f = has a f || has b f.
Proof. intros (k & Hk & ->). rewrite !has_testbit by lia. apply Z.lor_spec. Qed.

Lemma has_without a b f : flag_bit f -> has (without a b) f = has a f && negb (has b f).
Proof.
  intros (k & Hk & ->). rewrite !has_testbit by lia. unfold without, u32.
  rewrite Z.land_spec, Z.mod_pow2_bits_low, Z.lnot_spec by lia. done.
Qed.

(** The digits of a number, as the loop of [out_number] writes them. *)
Definition digit_chars (base : Z) (up : bool) : list Z :=
  if (base =? 16) && up then Curl_udigits else Curl_ldigits.

Definition digits (base : Z) (up : bool) (n : Z) : list Z :=
  default [] (put_digits 64 (digit_chars base up) base n []).

Definition good_base (base : Z) : Prop := base = 8 \/ base = 10 \/ base = 16.

Lemma digit_char base up n : good_base base -> 0 <= n < base ->
  exists d, (if base =? 10 then Some (48 + n) else digit_chars base up !! Z.to_nat n) = Some d /\
    valid_digit d (max_digit base) = true /\ curlx_hexval d = n /\ (0 < n -> d <> 48) /\ 48 <= d <= 102.
Proof.
  intros Hb Hn. set (get := fun n => if base =? 10 then Some (48 + n) else digit_chars base up !! Z.to_nat n).
  pose (P := fun n => match get n with
    | Some d => valid_digit d (max_digit base) && (curlx_hexval d =? n) && ((n =? 0) || negb (d =? 48)) &&
                (48 <=? d) && (d <=? 102)
    | None => false end).
  assert (HP : implb (n <? base) (P n) = true).
  { apply (byte_forall (fun n => implb (n <? base) (P n))).
    - unfold P, get. destruct Hb as [-> | [-> | ->]], up; vm_compute; done.
    - unfold is_byte. destruct Hb as [-> | [-> | ->]]; lia. }
  rewrite (proj2 (Z.ltb_lt _ _)) in HP by lia. cbn [implb] in HP. unfold P in HP.
  change (exists d, get n = Some d /\ valid_digit d (max_digit base) = true /\ curlx_hexval d = n /\
    (0 < n -> d <> 48) /\ 48 <= d <= 102).
  destruct (get n) as [d|]; [|done]. zb_hyps. exists d. split; [done|]. split; [done|].
  split; [done|]. split; [|lia]. intros Hp. destruct (Z.eqb_spec n 0); [lia|]. cbn in *. zb_hyps. done.
Qed.

(** What the loop adds in front of [w]: digits of value [num], the first of
    them no zero. *)
Lemma put_digits_spec base up : good_base base -> forall fuel num w, 0 <= num < base ^ Z.of_nat fuel ->
  exists d, put_digits fuel (digit_chars base up) base num w = Some (d ++ w) /\
    digits_value base 0 d = num /\ Forall (fun c => valid_digit c (max_digit base) = true) d /\
    (forall c d', d = c :: d' -> c <> 48) /\ (zlen d <= Z.of_nat fuel) /\ (d = [] <-> num = 0).
Proof.
  intros Hb. assert (1 < base) by (destruct Hb as [-> | [-> | ->]]; lia).
  induction fuel as [|fuel IH]; intros num w Hn; cbn [put_digits].
  - assert (num = 0) as -> by lia. exists []. repeat split; try done; try lia.
  - rewrite Z.gtb_ltb. destruct (Z.ltb_spec 0 num) as [Hp|Hp].
    2: { assert (num = 0) as -> by lia. exists []. repeat split; try done; try lia. }
    destruct (digit_char base up (num mod base) Hb) as (c & Ec & Hv & Hx & Hz & _); [apply Z.mod_pos_bound; lia|].
    replace (if base =? 10 then Some (48 + num mod 10) else digit_chars base up !! Z.to_nat (num mod base))
      with (Some c) by (rewrite <- Ec; by destruct Hb as [-> | [-> | ->]]). cbn [mbind option_bind].
    destruct (IH (num / base) (c :: w)) as (d & E & Hval & Hd & Hhd & Hl & Hnil).
    { rewrite Nat2Z.inj_succ, Z.pow_succ_r in Hn by lia. split; [apply Z.div_pos; lia|apply Z.div_lt_upper_bound; lia]. }
    exists (d ++ [c]). rewrite E, <- app_assoc. split; [done|].
    split. { unfold digits_value in *. rewrite fold_left_app, Hval. cbn [fold_left]. rewrite Hx. pose proof (Z.div_mod num base). lia. }
    split; [apply Forall_app; by repeat constructor|].
    split. { intros c' d' Hc. destruct d as [|x d]; cbn in Hc; injection Hc as <- <-; [|by eapply Hhd].
      apply Hz. assert (num / base = 0) by by apply Hnil. pose proof (Z.div_mod num base). lia. }
    split; [rewrite zlen_snoc; lia|]. split; [by destruct d|lia].
Qed.

Lemma digits_spec base up n : good_base base -> 0 <= n <= SIZE_MAX ->
  put_digits 64 (digit_chars base up) base n [] = Some (digits base up n) /\
  digits_value base 0 (digits base up n) = n /\
  Forall (fun c => valid_digit c (max_digit base) = true) (digits base up n) /\
  (forall c d, digits base up n = c :: d -> c <> 48) /\ zlen (digits base up n) <= 64.
Proof.
  intros Hb Hn. destruct (put_digits_spec base up Hb 64 n []) as (d & E & H1 & H2 & H3 & H4 & _).
  { unfold SIZE_MAX in Hn. destruct Hb as [-> | [-> | ->]]; cbn; lia. }
  rewrite app_nil_r in E. unfold digits. rewrite E. cbn [default]. done.
Qed.

(** A text in a field with [pad] places left: the lead (sign and prefix) is in
    front of zeros. *)
Definition field (left nil : bool) (pad : Z) (lead body : list Z) : list Z :=
  let fill c := replicate (Z.to_nat pad) c in
  if left then lead ++ body ++ fill 32
  else if nil then lead ++ fill 48 ++ body
  else fill 32 ++ lead ++ body.

(** The digits of a conversion: at least [prec], but no more zeros than there
    is room for, and a zero in front for the alternate form of octal numbers. *)
Definition num_body (alt : bool) (base : Z) (up : bool) (prec n : Z) : list Z :=
  let d := digits base up n in
  if zlen d <? prec then replicate (Z.to_nat (Z.min prec (BUFFSIZE - 1) - zlen d)) 48 ++ d
  else if alt && (base =? 8) then 48 :: d else d.

Definition num_sign (neg showsign space : bool) : list Z :=
  if neg then [45] else if showsign then [43] else if space then [32] else [].

Definition num_prefix (alt up : bool) (base : Z) : list Z :=
  if alt && (base =? 16) then [48; if up then 88 else 120] else [].

(** The precision, 1 when there is none. *)
Definition num_prec (prec : Z) : Z := if prec =? -1 then 1 else prec.

(** Sign and prefix. *)
Definition num_lead (flags base : Z) (neg : bool) : list Z :=
  let f := has flags in
  num_sign neg (f FLAGS_SHOWSIGN) (f FLAGS_SPACE) ++ num_prefix (f FLAGS_ALT) (f FLAGS_UPPER) base.

Definition num_digits (flags prec base n : Z) : list Z :=
  let f := has flags in num_body (f FLAGS_ALT) base (f FLAGS_UPPER) (num_prec prec) n.

(** The places that are left in the field; zeros that there is no room for
    are counted as if they were there. *)
Definition num_pad (flags width prec base : Z) (neg : bool) (n : Z) : Z :=
  width - zlen (num_lead flags base neg) - zlen (num_digits flags prec base n) - Z.max 0 (num_prec prec - (BUFFSIZE - 1)).

(** The text of the number [n] (its absolute value, when it is negative). *)
Definition num_text (flags width prec base : Z) (neg : bool) (n : Z) : list Z :=
  field (has flags FLAGS_LEFT) (has flags FLAGS_PAD_NIL) (num_pad flags width prec base neg n)
    (num_lead flags base neg) (num_digits flags prec base n).

Definition num_base (flags : Z) : Z := if has flags FLAGS_OCTAL then 8 else if has flags FLAGS_HEX then 16 else 10.

Definition num_neg (flags nums : Z) : bool :=
  negb (has flags FLAGS_OCTAL) && negb (has flags FLAGS_HEX) && negb (has flags FLAGS_UNSIGNED) && (nums <? 0).

Lemma num_base_good flags : good_base (num_base flags).
Proof. unfold num_base, good_base. destruct (has flags FLAGS_OCTAL); [lia|]. destruct (has flags FLAGS_HEX); lia. Qed.

Lemma ev_bytes_app l k : ev_bytes (l ++ k) = ev_bytes l ++ ev_bytes k.
Proof. apply map_app. Qed.

(** The digits that a number has without regard to its precision. *)
Definition num_len (flags base n : Z) : Z := zlen (digits base (has flags FLAGS_UPPER) n).

(** The arithmetic of [out_number] on [int] does not overflow: the precision
    less the digits, and the places left less one, which the loops that pad
    end with. *)
Definition num_fits (flags width prec base : Z) (neg : bool) (n : Z) : bool :=
  (INT_MIN <=? num_prec prec - num_len flags base n) && (INT_MIN <? num_pad flags width prec base neg n).

Section Emit.
Context {U : Type} (stream : Z -> U -> option (bool * U)).

Lemma emits_eq a l k : emits stream a l -> l = k -> emits stream a k.
Proof. by intros H ->. Qed.

Lemma emits_field (left nil neg showsign space alt up : bool) (pad base : Z) (w : list Z) :
  emits stream
    (out_seq (out_when (negb left && negb nil) (out_pad stream 32 pad))
       (out_seq
         (if neg then OUTCHAR stream 45 else if showsign then OUTCHAR stream 43
          else if space then OUTCHAR stream 32 else out_nop)
       (out_seq (out_when (alt && (base =? 16)) (out_seq (OUTCHAR stream 48) (OUTCHAR stream (if up then 88 else 120))))
       (out_seq (out_when (negb left && nil) (out_pad stream 48 pad))
       (out_seq (out_bytes stream w) (out_when left (out_pad stream 32 pad)))))))
    (ev_bytes (field left nil pad (num_sign neg showsign space ++ num_prefix alt up base) w)).
Proof.
  eapply emits_eq; [eauto 20 with emits|]. unfold field, num_sign, num_prefix.
  destruct left, nil, neg, showsign, space, (alt && (base =? 16)); cbn [negb andb app]; unfold ev_bytes;
    repeat (progress (rewrite ?map_app, ?app_nil_r; cbn [app map])); by rewrite <- ?app_assoc, ?app_nil_r.
Qed.

(** The layout of a number with the digits [d]. *)
Lemma emits_layout (alt up showsign space left nil neg : bool) (width prec base : Z) (d : list Z) o :
  0 <= zlen d -> zlen d <= 64 -> good_base base ->
  let lead := num_sign neg showsign space ++ num_prefix alt up base in
  let body := if zlen d <? prec then replicate (Z.to_nat (Z.min prec (BUFFSIZE - 1) - zlen d)) 48 ++ d
              else if alt && (base =? 8) then 48 :: d else d in
  let pad := width - zlen lead - zlen body - Z.max 0 (prec - (BUFFSIZE - 1)) in
  (let '(w, width) :=
     if alt && (base =? 8) && (prec - zlen d <=? 0) then (48 :: d, width - zlen d - 1) else (d, width - zlen d) in
   let '(w, width) :=
     if prec - zlen d >? 0
     then (replicate (Z.to_nat (Z.min (prec - zlen d) (BUFFSIZE - 1 - zlen w))) 48 ++ w, width - (prec - zlen d))
     else (w, width) in
   let width := if alt && (base =? 16) then width - 2 else width in
   let width := if neg || showsign || space then width - 1 else width in
   if width - 1 <? INT_MIN then None
   else
     out_seq (out_when (negb left && negb nil) (out_pad stream 32 width))
       (out_seq
         (if neg then OUTCHAR stream 45 else if showsign then OUTCHAR stream 43
          else if space then OUTCHAR stream 32 else out_nop)
       (out_seq (out_when (alt && (base =? 16)) (out_seq (OUTCHAR stream 48) (OUTCHAR stream (if up then 88 else 120))))
       (out_seq (out_when (negb left && nil) (out_pad stream 48 width))
       (out_seq (out_bytes stream w) (out_when left (out_pad stream 32 width)))))) o) =
  if INT_MIN <? pad then out_events stream (ev_bytes (field left nil pad lead body)) o else None.
Proof.
  intros Hd0 Hd Hb lead body pad.
  assert (Hbody : forall K : list Z -> Z -> option (bool * ostate (U := U)),
    (let '(w, width) :=
       if alt && (base =? 8) && (prec - zlen d <=? 0) then (48 :: d, width - zlen d - 1) else (d, width - zlen d) in
     let '(w, width) :=
       if prec - zlen d >? 0
       then (replicate (Z.to_nat (Z.min (prec - zlen d) (BUFFSIZE - 1 - zlen w))) 48 ++ w, width - (prec - zlen d))
       else (w, width) in K w width) = K body (width - zlen body - Z.max 0 (prec - (BUFFSIZE - 1)))).
  { intros K. unfold body, BUFFSIZE. rewrite Z.gtb_ltb.
    destruct (Z.ltb_spec (zlen d) prec) as [Hl|Hl].
    - rewrite (proj2 (Z.leb_gt _ _)), andb_false_r, (proj2 (Z.ltb_lt _ _)), zlen_app, zlen_replicate by lia.
      replace (Z.min (prec - zlen d) (326 - 1 - zlen d)) with (Z.min prec (326 - 1) - zlen d) by lia. f_equal; lia.
    - rewrite (proj2 (Z.leb_le _ _)), andb_true_r, (proj2 (Z.ltb_ge _ _)) by lia.
      destruct (alt && (base =? 8)); rewrite ?zlen_cons; f_equal; lia. }
  etransitivity; [exact (Hbody _)|]. cbv beta zeta. clear Hbody.
  assert (Hlead : forall x, (if neg || showsign || space then (if alt && (base =? 16) then x - 2 else x) - 1
                   else if alt && (base =? 16) then x - 2 else x) = x - zlen lead).
  { intros x. unfold lead, num_sign, num_prefix. destruct neg, showsign, space, (alt && (base =? 16)); cbn [app orb];
      unfold zlen; cbn [length]; lia. }
  rewrite Hlead. replace (width - zlen body - Z.max 0 (prec - (BUFFSIZE - 1)) - zlen lead) with pad by (unfold pad; lia).
  clearbody pad. destruct (Z.ltb_spec INT_MIN pad), (Z.ltb_spec (pad - 1) INT_MIN); try lia; [|done].
  apply emits_field.
Qed.

(** A number is put out as [num_text] says where the arithmetic fits, and
    undefined elsewhere. *)
Lemma out_number_text p num nums o : has (p_flags p) FLAGS_CHAR = false ->
  0 <= num <= SIZE_MAX -> - CURL_OFF_T_MAX - 1 <= nums <= CURL_OFF_T_MAX ->
  let neg := num_neg (p_flags p) nums in
  let n := if neg then - nums else num in
  out_number stream p num nums o =
  if num_fits (p_flags p) (p_width p) (p_prec p) (num_base (p_flags p)) neg n
  then out_events stream (ev_bytes (num_text (p_flags p) (p_width p) (p_prec p) (num_base (p_flags p)) neg n)) o
  else None.
Proof.
  intros Hc Hn Hs neg n. unfold out_number. rewrite Hc.
  fold (num_base (p_flags p)) (num_neg (p_flags p) nums). fold neg (num_prec (p_prec p)).
  replace (if negb (has (p_flags p) FLAGS_OCTAL) && has (p_flags p) FLAGS_HEX && has (p_flags p) FLAGS_UPPER
           then Curl_udigits else Curl_ldigits)
    with (digit_chars (num_base (p_flags p)) (has (p_flags p) FLAGS_UPPER))
    by (unfold digit_chars, num_base; by destruct (has _ FLAGS_OCTAL), (has _ FLAGS_HEX), (has _ FLAGS_UPPER)).
  assert (Hnum : (if neg then u64 (u64 (- (nums + 1)) + 1) else num) = n /\ 0 <= n <= SIZE_MAX).
  { unfold n. destruct neg eqn:E; [|done]. unfold neg, num_neg in E. zb_hyps.
    unfold CURL_OFF_T_MAX in Hs. rewrite !u64_small by (rewrite ?u64_small by (unfold SIZE_MAX; lia); unfold SIZE_MAX; lia).
    unfold SIZE_MAX. lia. }
  destruct Hnum as [-> Hnum]. clearbody n neg. unfold num_fits, num_text, num_pad, num_lead, num_digits, num_len, num_body.
  pose proof (num_base_good (p_flags p)) as Hb. revert Hb. generalize (num_base (p_flags p)) as base. intros base Hb.
  destruct (digits_spec base (has (p_flags p) FLAGS_UPPER) n Hb Hnum) as (-> & _ & _ & _ & Hl).
  revert Hl. generalize (digits base (has (p_flags p) FLAGS_UPPER) n) as d. intros d Hl.
  cbn [mbind option_bind]. pose proof (zlen_nonneg d) as Hd0. generalize (num_prec (p_prec p)) as prec. intros prec.
  destruct (Z.ltb_spec (prec - zlen d) INT_MIN), (Z.leb_spec INT_MIN (prec - zlen d)); try lia; [done|]. cbn [andb].
  by apply emits_layout.
Qed.

(** * Characters, strings and pointers *)

Definition spaces (n : Z) : list Z := replicate (Z.to_nat n) 32.

Definition char_text (flags width c : Z) : list Z :=
  if has flags FLAGS_LEFT then c :: spaces (width - 1) else spaces (width - 1) ++ [c].

Definition quote (q : bool) (l : list Z) : list Z := if q then [34] ++ l ++ [34] else l.

(** A text with [pad] spaces in front of it or behind it. *)
Definition padded (left : bool) (pad : Z) (t : list Z) : list Z :=
  if left then t ++ spaces pad else spaces pad ++ t.

(** The spaces of a string are counted from its precision, even where the string
    is shorter. *)
Definition str_text (flags width prec : Z) (s : option (list Z)) : list Z :=
  let alt := has flags FLAGS_ALT in
  let left := has flags FLAGS_LEFT in
  match s with
  | None =>
      if (prec =? -1) || (prec >=? 5) then padded left (width - 5) nilstr
      else quote alt (padded left width [])
  | Some s =>
      if prec =? -1 then quote alt (padded left (width - Z.min (zlen (ctext s)) INT_MAX) (ctext s))
      else quote alt (padded left (width - Z.min (u64 prec) INT_MAX) (ztake (u64 prec) (ctext s)))
  end.

(** The text of the NULL pointer; the flag that asks for the left does the
    opposite. *)
Definition nilptr_text (flags width : Z) : list Z := padded (negb (has flags FLAGS_LEFT)) (width - 5) nilstr.

Lemma emits_char_text p num nums : has (p_flags p) FLAGS_CHAR = true ->
  emits stream (out_number stream p num nums) (ev_bytes (char_text (p_flags p) (p_width p) num)).
Proof.
  intros Hc.
  assert (E : emits stream
    (out_seq (out_when (negb (has (p_flags p) FLAGS_LEFT)) (out_pad stream 32 (p_width p - 1)))
      (out_seq (OUTCHAR stream num) (out_when (has (p_flags p) FLAGS_LEFT) (out_pad stream 32 (p_width p - 1)))))
    (ev_bytes (char_text (p_flags p) (p_width p) num))).
  { eapply emits_eq; [eauto 20 with emits|]. unfold char_text, spaces.
    destruct (has (p_flags p) FLAGS_LEFT); cbn [negb app]; rewrite ?app_nil_r; [done|].
    by rewrite ev_bytes_app. }
  intros o. rewrite <- E. unfold out_number. by rewrite Hc.
Qed.

Lemma emits_padded q left pad t :
  emits stream
    (out_seq (out_when q (OUTCHAR stream 34))
    (out_seq (out_when (negb left) (out_pad stream 32 pad))
    (out_seq (out_bytes stream t)
    (out_seq (out_when left (out_pad stream 32 pad)) (out_when q (OUTCHAR stream 34))))))
    (ev_bytes (quote q (padded left pad t))).
Proof.
  eapply emits_eq; [eauto 20 with emits|]. unfold quote, padded, spaces, ev_bytes.
  destruct q, left; cbn [negb app]; repeat (progress (rewrite ?map_app, ?app_nil_r; cbn [app map]));
    by rewrite <- ?app_assoc.
Qed.

Lemma strlen_ctext s : strlen s = zlen (ctext s).
Proof. induction s as [|c s IH]; [done|]. cbn [strlen ctext]. case_if; [done|]. rewrite zlen_cons. lia. Qed.

Lemma emits_string p s :
  emits stream (out_string stream p s) (ev_bytes (str_text (p_flags p) (p_width p) (p_prec p) s)).
Proof.
  assert (Hmin : forall x, (if x >? INT_MAX then INT_MAX else x) = Z.min x INT_MAX).
  { intros x. rewrite Z.gtb_ltb. case_if; lia. }
  unfold out_string, str_text. destruct s as [s|].
  - destruct (p_prec p =? -1) eqn:Ep; cbn [negb]; rewrite Hmin.
    + assert (Hlen : (if deref s =? 0 then 0 else strlen s) = zlen (ctext s)).
      { rewrite <- strlen_ctext. destruct s as [|c s]; [done|]. cbn [deref strlen]. by destruct (c =? 0). }
      rewrite Hlen. eapply emits_eq; [apply emits_padded|]. by rewrite ztake_ge.
    + apply emits_padded.
  - destruct ((p_prec p =? -1) || (p_prec p >=? 5)).
    + rewrite has_without by (by exists 3). change (has FLAGS_ALT FLAGS_ALT) with true.
      rewrite andb_false_r. rewrite has_without by (by exists 2). change (has FLAGS_ALT FLAGS_LEFT) with false.
      rewrite andb_true_r. change (Z.min 5 INT_MAX) with 5.
      eapply emits_eq; [apply emits_padded|]. done.
    + rewrite Z.sub_0_r. eapply emits_eq; [apply emits_padded|]. done.
Qed.

Lemma emits_nilptr p :
  emits stream (out_pointer stream p 0) (ev_bytes (nilptr_text (p_flags p) (p_width p))).
Proof.
  unfold out_pointer. cbn [negb Z.eqb]. unfold nilptr_text, padded, spaces.
  eapply emits_eq; [eauto 20 with emits|]. unfold ev_bytes.
  destruct (has (p_flags p) FLAGS_LEFT); cbn [negb]; by rewrite ?map_app, ?app_nil_r.
Qed.

Lemma emits_count p ptr : emits stream (out_count p ptr)
  [Count ptr (if has (p_flags p) FLAGS_LONGLONG then 8 else if has (p_flags p) FLAGS_LONG then 8
              else if negb (has (p_flags p) FLAGS_SHORT) then 4 else 2)].
Proof. intros o. reflexivity. Qed.

End Emit.

(** * Formats *)

Section Format.
Context (c_snprintf : list Z -> spec_float -> list Z).

(** The arithmetic of [out_number] is defined for a number with its flags. *)
Definition num_ok (p : mproperty) (num nums : Z) : bool :=
  let f := p_flags p in
  let neg := num_neg f nums in
  has f FLAGS_CHAR || num_fits f (p_width p) (p_prec p) (num_base f) neg (if neg then - nums else num).

(** A number with its flags, characters included. *)
Definition ev_number (p : mproperty) (num nums : Z) : option (list event) :=
  if num_ok p num nums &&
     (0 <=? num) && (num <=? SIZE_MAX) && (- CURL_OFF_T_MAX - 1 <=? nums) && (nums <=? CURL_OFF_T_MAX)
  then
    let f := p_flags p in
    Some (ev_bytes
      (if has f FLAGS_CHAR then char_text f (p_width p) num
       else num_text f (p_width p) (p_prec p) (num_base f) (num_neg f nums) (if num_neg f nums then - nums else num)))
  else None.

Definition ev_value (p : mproperty) (t : FormatType) (v : va_value) : option (list event) :=
  let f := p_flags p in
  match t, v with
  | (MTYPE_INTU | MTYPE_LONGU | MTYPE_LONGLONGU), V_numu n =>
      ev_number (mk_prop (p_width p) (p_prec p) (Z.lor f FLAGS_UNSIGNED)) n 0
  | (MTYPE_INT | MTYPE_LONG | MTYPE_LONGLONG), V_nums n => ev_number p (u64 n) n
  | MTYPE_STRING, V_str s => Some (ev_bytes (str_text f (p_width p) (p_prec p) s))
  | MTYPE_PTR, V_ptr ptr =>
      if ptr =? 0 then Some (ev_bytes (nilptr_text f (p_width p)))
      else ev_number (mk_prop (p_width p) (p_prec p) (Z.lor f (Z.lor FLAGS_HEX FLAGS_ALT))) ptr 0
  | MTYPE_DOUBLE, V_dnum d =>
      fmt ← double_format p d;
      Some (ev_bytes (ctext (ztake (BUFFSIZE - 1) (c_snprintf fmt d))))
  | MTYPE_INTPTR, V_ptr ptr =>
      Some [Count ptr (if has f FLAGS_LONGLONG then 8 else if has f FLAGS_LONG then 8
                       else if negb (has f FLAGS_SHORT) then 4 else 2)]
  | MTYPE_WIDTH, _ | MTYPE_PRECISION, _ | MTYPE_LONGDOUBLE, _ => Some []
  | _, _ => None
  end.

Definition ev_segment (input : list (FormatType * va_value)) (optr : outsegment) : option (list event) :=
  let lit := ev_bytes (ztake (seg_outlen optr) (ctext (seg_start optr))) in
  if negb (seg_outlen optr =? 0) && has (seg_flags optr) FLAGS_SUBSTR then Some lit
  else
    p ← seg_prop input optr;
    '(t, v) ← input !! Z.to_nat (seg_input optr);
    l ← ev_value p t v;
    Some (lit ++ l).

(** The events of a format with its arguments. *)
Definition format_events (format : list Z) (args : list va_arg) : option (list event) :=
  '(rc, output, input) ← parsefmt format args;
  match rc with
  | PFMT_OK => l ← mapM (ev_segment input) output; Some (concat l)
  | _ => Some []
  end.

Section Stream.
Context {U : Type} (stream : Z -> U -> option (bool * U)).

Lemma emits_ev_number p num nums l : ev_number p num nums = Some l -> emits stream (out_number stream p num nums) l.
Proof.
  unfold ev_number. case_if; [|done]. intros [= <-]. unfold num_ok in *. cbv zeta in *. zb_hyps.
  destruct (has (p_flags p) FLAGS_CHAR) eqn:Ec; [by apply emits_char_text|]. cbn [orb] in *.
  intros o. pose proof (out_number_text stream p num nums o Ec ltac:(lia) ltac:(lia)) as E. cbv zeta in E. by rewrite E, H.
Qed.

Lemma emits_value p t v l : ev_value p t v = Some l ->
  emits stream (out_value stream (out_double c_snprintf stream) p t v) l.
Proof.
  unfold ev_value, out_value. intros H. destruct t, v; try done;
    try (by apply emits_ev_number); try (injection H as <-; by auto using emits_string, emits_count, emits_nop).
  - destruct (Z.eqb_spec p0 0) as [->|Hp]; [injection H as <-; apply emits_nilptr|].
    unfold out_pointer. rewrite (proj2 (Z.eqb_neq _ _)) by done. by apply emits_ev_number.
  - destruct (double_format p d) as [fmt|] eqn:Ef; [|done]. injection H as <-.
    intros o. unfold out_double. rewrite Ef. cbn [mbind option_bind]. apply emits_bytes.
Qed.

Lemma emits_segment input optr l : ev_segment input optr = Some l ->
  emits stream (out_segment stream (out_double c_snprintf stream) input optr) l.
Proof.
  unfold ev_segment. intros H.
  assert (Hlit := emits_bytes stream (ztake (seg_outlen optr) (ctext (seg_start optr)))).
  assert (Hseq : forall b k, emits stream b k -> l = ev_bytes (ztake (seg_outlen optr) (ctext (seg_start optr))) ++ k ->
    emits stream (out_seq (out_bytes stream (ztake (seg_outlen optr) (ctext (seg_start optr)))) b) l).
  { intros b k Hb ->. by apply emits_seq. }
  destruct (_ && _) eqn:E.
  - injection H as <-. intros o. unfold out_segment. erewrite <- (Hseq out_nop []); [|apply emits_nop|by rewrite app_nil_r].
    unfold out_seq. destruct (out_bytes _ _ _) as [[[] o']|]; cbn [mbind option_bind]; [done| |done]. by rewrite E.
  - destruct (seg_prop input optr) as [p|] eqn:Ep; [|done]. cbn [mbind option_bind] in H.
    destruct (input !! Z.to_nat (seg_input optr)) as [[t v]|] eqn:Ei; [|done]. cbn [mbind option_bind] in H.
    destruct (ev_value p t v) as [k|] eqn:Ev; [|done]. injection H as <-.
    intros o. unfold out_segment. rewrite <- (Hseq _ _ (emits_value p t v k Ev) eq_refl o).
    unfold out_seq. destruct (out_bytes _ _ _) as [[[] o']|]; cbn [mbind option_bind]; [done| |done].
    rewrite E, Ep. cbn [mbind option_bind]. by rewrite Ei.
Qed.

Lemma emits_segments input segs l : mapM (ev_segment input) segs = Some l ->
  emits stream (out_segments stream (out_double c_snprintf stream) input segs) (concat l).
Proof.
  revert l; induction segs as [|seg segs IH]; intros l H; [injection H as <-; apply emits_nop|].
  cbn in H. destruct (ev_segment input seg) as [k|] eqn:E; [|done]. cbn in H.
  destruct (mapM (ev_segment input) segs) as [l'|] eqn:E'; [|done]. injection H as <-.
  cbn [out_segments concat]. apply emits_seq; [by apply emits_segment|by apply IH].
Qed.

(** Output does not depend on the stream: it gets the events of the format. *)
Lemma formatf_events format args u evs : format_events format args = Some evs ->
  formatf stream (out_double c_snprintf stream) format args u = snd <$> out_events stream evs (mk_o u 0 []).
Proof.
  unfold format_events, formatf. destruct (parsefmt format args) as [[[rc segs] input]|]; [|done]. cbn [mbind option_bind].
  destruct rc; try (by intros [= <-]).
  destruct (mapM (ev_segment input) segs) as [l|] eqn:E; [|done]. intros [= <-].
  by rewrite (emits_segments input segs l E).
Qed.

End Stream.
End Format.

(** * The streams *)

Lemma stored_nil m off : stored m off [] = m.
Proof. unfold stored. rewrite zlen_nil, Z.add_0_r. cbn [map app]. apply ztake_zdrop. Qed.

Lemma zlen_stored m off a : 0 <= off -> off + zlen a <= zlen m -> zlen (stored m off a) = zlen m.
Proof.
  intros H0 H1. unfold stored. pose proof (zlen_nonneg a).
  rewrite !zlen_app, zlen_map, zlen_ztake, zlen_zdrop by lia. lia.
Qed.

Lemma stored_app m off a b : 0 <= off -> off + zlen a + zlen b <= zlen m ->
  stored (stored m off a) (off + zlen a) b = stored m off (a ++ b).
Proof.
  intros H0 H1. pose proof (zlen_nonneg a). pose proof (zlen_nonneg b). unfold stored.
  assert (Hp : zlen (ztake off m ++ map Some a) = off + zlen a).
  { rewrite zlen_app, zlen_map, zlen_ztake by lia. lia. }
  rewrite (app_assoc (ztake off m)). rewrite <- Hp at 1. rewrite ztake_app_exact.
  rewrite zlen_app, map_app, <- !app_assoc. do 3 f_equal.
  rewrite Z.add_comm, <- zdrop_zdrop by lia. rewrite <- Hp at 1.
  rewrite app_assoc, zdrop_app_exact, zdrop_zdrop by lia. f_equal. lia.
Qed.

(** Storing [a] and then a zero over what follows, or over its last byte. *)
Lemma stored_last m off a x b : 0 <= off -> off + zlen a + 1 <= zlen m -> 
  stored (stored m off (a ++ [x])) (off + zlen a) [b] = stored m off (a ++ [b]).
Proof.
  intros H0 H1. pose proof (zlen_nonneg a). rewrite <- stored_app by (change (zlen [x]) with 1; lia).
  set (m1 := stored m off a). assert (Hm : zlen m1 = zlen m) by (apply zlen_stored; lia).
  rewrite <- (stored_app m off a [b]) by (change (zlen [b]) with 1; lia). fold m1.
  unfold stored. change (zlen [x]) with 1. change (zlen [b]) with 1. cbn [map].
  assert (Hp : zlen (ztake (off + zlen a) m1) = off + zlen a) by (rewrite zlen_ztake by lia; lia).
  rewrite <- Hp at 1. rewrite ztake_app_exact. do 2 f_equal. rewrite Z.add_comm, <- zdrop_zdrop by lia.
  rewrite <- Hp at 1. by rewrite zdrop_app_exact.
Qed.

Lemma ev_text_bytes l : bytes_ok l -> ev_text (ev_bytes l) = l.
Proof. induction 1 as [|c l Hc _ IH]; [done|]. cbn. rewrite u8_small by done. f_equal. exact IH. Qed.

Lemma ev_text_app l k : ev_text (l ++ k) = ev_text l ++ ev_text k.
Proof. induction l as [|[] l IH]; cbn; [done|by rewrite IH|done]. Qed.

Lemma addbyter_room c m len max : 0 <= len < max -> max <= zlen m ->
  addbyter c (mk_ns m len max) = Some (false, mk_ns (stored m len [c]) (len + 1) max).
Proof.
  intros Hl Hm. unfold addbyter. cbn [ns_length ns_max ns_buffer]. rewrite (proj2 (Z.ltb_lt _ _)) by lia.
  by rewrite mem_write_stored by (change (zlen [c]) with 1; lia).
Qed.

Lemma addbyter_full c m max : addbyter c (mk_ns m max max) = Some (true, mk_ns m max max).
Proof. unfold addbyter. cbn [ns_length ns_max ns_buffer]. by rewrite Z.ltb_irrefl. Qed.

Lemma storebuffer_room c m pos : 0 <= pos < zlen m -> storebuffer c (m, pos) = Some (false, (stored m pos [c], pos + 1)).
Proof. intros Hp. unfold storebuffer. cbn [fst snd]. by rewrite mem_write_stored by (change (zlen [c]) with 1; lia). Qed.

Lemma addbyter_events evs : forall m len max done st, 0 <= len <= max -> max <= zlen m ->
  0 <= done -> done + Z.min (zlen (ev_text evs)) (max - len) <= INT_MAX ->
  exists st', out_events addbyter evs (mk_o (mk_ns m len max) done st) =
    Some (max - len <? zlen (ev_text evs),
      mk_o (mk_ns (stored m len (ztake (max - len) (ev_text evs))) (len + Z.min (zlen (ev_text evs)) (max - len)) max)
        (done + Z.min (zlen (ev_text evs)) (max - len)) st').
Proof.
  induction evs as [|[c|ptr size] evs IH]; intros m len max done st Hl Hm Hd Hi.
  - exists st. cbn [ev_text out_events]. unfold out_nop. rewrite zlen_nil.
    rewrite (proj2 (Z.ltb_ge _ _)), Z.min_l by lia. rewrite !Z.add_0_r. unfold ztake. rewrite take_nil, stored_nil. done.
  - cbn [ev_text] in *. rewrite zlen_cons in *. pose proof (zlen_nonneg (ev_text evs)) as Ht.
    cbn [out_events out_event]. unfold out_seq, OUTCHAR. cbn [userp].
    destruct (Z.lt_ge_cases len max) as [Hlm|Hlm].
    + rewrite addbyter_room by lia. cbn [mbind option_bind donep].
      rewrite (proj2 (Z.eqb_neq _ _)) by lia. cbn [mbind option_bind donep stores].
      destruct (IH (stored m len [u8 c]) (len + 1) max (done + 1) st) as (st' & E); try lia.
      { rewrite zlen_stored by (change (zlen [u8 c]) with 1; lia). done. }
      exists st'. rewrite E. do 2 f_equal; [apply Bool.eq_iff_eq_true; rewrite !Z.ltb_lt; lia|].
      f_equal; [|lia]. f_equal; [|lia].
      replace (Z.to_nat (max - len)) with (S (Z.to_nat (max - (len + 1)))) by lia.
      change (len + 1) with (len + zlen [u8 c]). rewrite stored_app.
      * f_equal. unfold ztake. change (zlen [u8 c]) with 1. replace (Z.to_nat (max - len)) with (S (Z.to_nat (max - (len + 1)))) by lia. done.
      * lia.
      * change (zlen [u8 c]) with 1. rewrite zlen_ztake by lia. lia.
    + assert (len = max) as -> by lia. rewrite addbyter_full. cbn [mbind option_bind]. exists st.
      rewrite Z.sub_diag, (proj2 (Z.ltb_lt _ _)), Z.min_r, !Z.add_0_r, ztake_0, stored_nil by lia. done.
  - cbn [ev_text] in *. cbn [out_events out_event]. unfold out_seq. cbn [mbind option_bind userp donep stores].
    by apply IH.
Qed.

Lemma storebuffer_events evs : forall m pos done st, 0 <= pos -> pos + zlen (ev_text evs) <= zlen m ->
  0 <= done -> done + zlen (ev_text evs) <= INT_MAX ->
  exists st', out_events storebuffer evs (mk_o (m, pos) done st) =
    Some (false, mk_o (stored m pos (ev_text evs), pos + zlen (ev_text evs)) (done + zlen (ev_text evs)) st').
Proof.
  induction evs as [|[c|ptr size] evs IH]; intros m pos done st Hp Hm Hd Hi.
  - exists st. cbn [ev_text out_events]. by rewrite zlen_nil, !Z.add_0_r, stored_nil.
  - cbn [ev_text] in *. rewrite zlen_cons in *. pose proof (zlen_nonneg (ev_text evs)) as Ht.
    cbn [out_events out_event]. unfold out_seq, OUTCHAR. cbn [userp].
    rewrite storebuffer_room by lia. cbn [mbind option_bind donep].
    rewrite (proj2 (Z.eqb_neq _ _)) by lia. cbn [mbind option_bind donep stores].
    destruct (IH (stored m pos [u8 c]) (pos + 1) (done + 1) st) as (st' & E); try lia.
    { rewrite zlen_stored by (change (zlen [u8 c]) with 1; lia). lia. }
    exists st'. rewrite E. change (pos + 1) with (pos + zlen [u8 c]) at 1. rewrite stored_app by (change (zlen [u8 c]) with 1; lia).
    do 3 f_equal; [f_equal; lia|lia].
  - cbn [ev_text] in *. cbn [out_events out_event]. unfold out_seq. cbn [mbind option_bind userp donep stores].
    by apply IH.
Qed.

(** An append that reports lack of memory was refused an allocation. *)
Lemma dyn_nappend_oom s b o s' r o' : dyn_nappend s b o = Some (s', r, o') ->
  (r = CURLE_OUT_OF_MEMORY -> false ∈ o) /\ (false ∈ o' -> false ∈ o).
Proof.
  unfold dyn_nappend. case_if; [by intros [= <- <- <-]|].
  destruct (dyn_alloc_size _ _) as [a|]; [|done]. cbn [mbind option_bind]. case_if.
  - destruct (next_alloc o) as [ok o1] eqn:Eo. apply next_alloc_fails in Eo as [H1 H2]. destruct ok; cbn [negb].
    + destruct (dyn_store _ _ _); [|done]. cbn [mbind option_bind]. by intros [= <- <- <-].
    + intros [= <- <- <-]. auto.
  - destruct (dyn_store _ _ _); [|done]. cbn [mbind option_bind]. by intros [= <- <- <-].
Qed.

(** What the events do to a dynamic buffer that holds [b]. *)
Definition as_post (t : list Z) (b : list Z) (limit : Z) (had : bool) (o : allocs)
    (res : option (bool * ostate (U := asprintf))) : Prop :=
  exists fail s e o' done st, res = Some (fail, mk_o (mk_as s e o') done st) /\ (false ∈ o' -> false ∈ o) /\
    ((fail = false /\ e = MERR_OK /\ dyn_rep s (b ++ t) /\ toobig s = limit /\
        (had = true \/ t <> [] -> bufr s <> None) /\ done <= zlen (b ++ t)) \/
     (fail = true /\ dyn_rep s [] /\ toobig s = limit /\
        (e = MERR_MEM /\ false ∈ o \/ e = MERR_TOO_LARGE /\ limit < zlen b + zlen t + 1))).

Lemma alloc_addbyter_step c s e o s1 r o1 : dyn_nappend s [c] o = Some (s1, r, o1) ->
  alloc_addbyter c (mk_as s e o) =
  Some (match r with
        | CURLE_OK => (false, mk_as s1 e o1)
        | CURLE_TOO_LARGE => (true, mk_as s1 MERR_TOO_LARGE o1)
        | _ => (true, mk_as s1 MERR_MEM o1)
        end).
Proof. intros E. unfold alloc_addbyter, curlx_dyn_addn. cbn [as_b as_o as_merr]. rewrite E. by destruct r. Qed.

Lemma alloc_addbyter_events evs : forall s b o done st, dyn_rep s b -> 0 <= done <= zlen b -> toobig s <= INT_MAX ->
  as_post (ev_text evs) b (toobig s) (bool_decide (bufr s <> None)) o
    (out_events alloc_addbyter evs (mk_o (mk_as s MERR_OK o) done st)).
Proof.
  induction evs as [|[c|ptr size] evs IH]; intros s b o done st Hs Hd Hi.
  - exists false, s, MERR_OK, o, done, st. split; [done|]. split; [done|]. left. rewrite app_nil_r.
    repeat (split; [done|]). split; [|lia]. intros [H|H]; [by apply bool_decide_eq_true in H|done].
  - cbn [ev_text out_events out_event]. unfold out_seq, OUTCHAR. cbn [userp].
    destruct (dyn_nappend_spec s b [u8 c] o Hs) as (s1 & r & o1 & E & Ht & Hr); [done|].
    destruct (dyn_nappend_oom _ _ _ _ _ _ E) as [Hoom Ho1].
    pose proof (dyn_rep_lt _ _ Hs) as Hlt. pose proof (zlen_nonneg (ev_text evs)).
    rewrite (alloc_addbyter_step _ _ _ _ _ _ _ E). cbn [mbind option_bind].
    destruct Hr as [(-> & Hl & Hs1 & Hb1)|[(-> & Hl & Hs1 & Hb1)|(-> & Hl & Hs1 & Hb1)]]; cbn [mbind option_bind donep stores].
    + rewrite (proj2 (Z.eqb_neq _ _)) by lia. cbn [mbind option_bind].
      destruct (IH s1 (b ++ [u8 c]) o1 (done + 1) st Hs1) as (fail & s2 & e & o2 & d2 & st2 & E2 & Ho2 & H2).
      { rewrite zlen_snoc. lia. }
      { lia. }
      exists fail, s2, e, o2, d2, st2. split; [exact E2|]. split; [auto|].
      rewrite <- app_assoc, Ht in H2. cbn [app] in H2. rewrite zlen_snoc in H2. rewrite zlen_cons.
      destruct H2 as [(-> & -> & H3 & H4 & H5 & H6)|(-> & H3 & H4 & H5)]; [left|right].
      * repeat (split; [done|]). split; [|done]. intros _. apply H5. left. by apply bool_decide_eq_true.
      * repeat (split; [done|]). destruct H5 as [[-> H5]|[-> H5]]; [left; auto|right; split; [done|lia]].
    + exists true, s1, MERR_TOO_LARGE, o1, done, st. split; [done|]. split; [done|]. right.
      repeat (split; [done|]). right. split; [done|]. change (zlen [u8 c]) with 1 in Hl. rewrite zlen_cons. lia.
    + exists true, s1, MERR_MEM, o1, done, st. split; [done|]. split; [done|]. right.
      repeat (split; [done|]). left. auto.
  - cbn [ev_text out_events out_event]. unfold out_seq. cbn [mbind option_bind userp donep stores]. by apply IH.
Qed.

(** * The printf functions *)

Section Family.
Context (c_snprintf : list Z -> spec_float -> list Z) (format : list Z) (args : list va_arg).

Lemma msnprintf_spec evs buffer maxlength : format_events c_snprintf format args = Some evs ->
  0 <= maxlength <= zlen buffer -> maxlength <= INT_MAX ->
  exists st, curl_msnprintf c_snprintf buffer maxlength format args =
    Some (Z.min (zlen (ev_text evs)) (Z.max 0 (maxlength - 1)),
      (if maxlength =? 0 then buffer else stored buffer 0 (ztake (maxlength - 1) (ev_text evs) ++ [0])), st).
Proof.
  intros He Hm Hi. set (t := ev_text evs) in *. pose proof (zlen_nonneg t) as Ht0.
  destruct (addbyter_events evs buffer 0 maxlength 0 []) as (st & E); try lia.
  fold t in E. rewrite Z.sub_0_r, !Z.add_0_l in E. exists st.
  unfold curl_msnprintf, curl_mvsnprintf. rewrite (formatf_events c_snprintf addbyter _ _ _ evs He), E.
  cbn [fmap option_fmap option_map snd mbind option_bind userp ns_max ns_length ns_buffer donep stores].
  destruct (Z.eqb_spec maxlength 0) as [->|Hm0]; cbn [negb].
  { rewrite ztake_0, stored_nil, !Z.min_r by lia. done. }
  destruct (Z.eqb_spec maxlength (Z.min (zlen t) maxlength)) as [El|El].
  - assert (Hk : maxlength <= zlen t) by lia. rewrite <- El.
    destruct (list_split_at t (maxlength - 1)) as (t1 & t2 & Et & Ht1); [lia|].
    destruct t2 as [|x t2]; [rewrite Et, zlen_app, zlen_nil in Hk; lia|].
    assert (Ef : ztake maxlength t = t1 ++ [x]).
    { rewrite Et. change (x :: t2) with ([x] ++ t2). rewrite app_assoc.
      replace maxlength with (zlen (t1 ++ [x])) by (rewrite zlen_snoc; lia). apply ztake_app_exact. }
    assert (Eg : ztake (maxlength - 1) t = t1) by (rewrite Et, <- Ht1; apply ztake_app_exact).
    rewrite Ef, Eg, <- Ht1. rewrite mem_write_stored; [|lia|rewrite zlen_stored; rewrite ?zlen_snoc; change (zlen [0]) with 1; lia].
    cbn [mbind option_bind]. rewrite <- (Z.add_0_l (zlen t1)), stored_last by lia. do 3 f_equal. lia.
  - assert (Hk : zlen t < maxlength) by lia. rewrite !Z.min_l by lia.
    rewrite !ztake_ge by lia. rewrite mem_write_stored; [|lia|rewrite zlen_stored; change (zlen [0]) with 1; lia].
    cbn [mbind option_bind]. rewrite <- (Z.add_0_l (zlen t)), stored_app by (change (zlen [0]) with 1; lia). done.
Qed.

Lemma mvsprintf_spec evs buffer : format_events c_snprintf format args = Some evs ->
  zlen (ev_text evs) < zlen buffer -> zlen (ev_text evs) <= INT_MAX ->
  exists st, curl_mvsprintf c_snprintf buffer format args =
    Some (zlen (ev_text evs), stored buffer 0 (ev_text evs ++ [0]), st).
Proof.
  intros He Hm Hi. pose proof (zlen_nonneg (ev_text evs)) as Ht0.
  destruct (storebuffer_events evs buffer 0 0 []) as (st & E); try lia. exists st.
  unfold curl_mvsprintf. rewrite (formatf_events c_snprintf storebuffer _ _ _ evs He), E.
  cbn [fmap option_fmap option_map snd fst mbind option_bind userp donep stores].
  rewrite mem_write_stored by (rewrite ?zlen_stored by lia; change (zlen [0]) with 1; lia).
  cbn [mbind option_bind]. rewrite stored_app by (change (zlen [0]) with 1; lia). done.
Qed.

Lemma vprintf_spec evs s b o : format_events c_snprintf format args = Some evs ->
  dyn_rep s b -> toobig s <= INT_MAX ->
  exists rc s' o' st, curlx_dyn_vprintf c_snprintf s format args o = Some (rc, s', o', st) /\
    toobig s' = toobig s /\ (false ∈ o' -> false ∈ o) /\
    ((rc = MERR_OK /\ dyn_rep s' (b ++ ev_text evs)) \/
     (dyn_rep s' [] /\ (rc = MERR_MEM /\ false ∈ o \/ rc = MERR_TOO_LARGE /\ toobig s < zlen b + zlen (ev_text evs) + 1))).
Proof.
  intros He Hs Hi. pose proof (zlen_nonneg b).
  destruct (alloc_addbyter_events evs s b o 0 [] Hs) as (fail & s1 & e & o1 & d & st & E & Ho & Hr); [lia|done|].
  unfold curlx_dyn_vprintf. rewrite (formatf_events c_snprintf alloc_addbyter _ _ _ evs He), E.
  cbn [fmap option_fmap option_map snd mbind option_bind userp as_merr as_b as_o stores].
  destruct Hr as [(-> & -> & H1 & H2 & _)|(-> & H1 & H2 & [[-> H3]|[-> H3]])]; do 4 eexists; (split; [done|]).
  - split; [done|]. split; [exact Ho|]. by left.
  - split; [exact H2|]. split; [exact Ho|]. right. split; [by eapply dyn_free_rep|by left].
  - split; [exact H2|]. split; [exact Ho|]. right. split; [by eapply dyn_free_rep|by right].
Qed.

Lemma mvaprintf_spec evs o : format_events c_snprintf format args = Some evs ->
  exists r o' st, curl_mvaprintf c_snprintf format args o = Some (r, o', st) /\
    match r with
    | Some m => exists rest, m = map Some (ev_text evs) ++ Some 0 :: rest
    | None => false ∈ o \/ DYN_APRINTF <= zlen (ev_text evs)
    end /\ (false ∈ o' -> false ∈ o).
Proof.
  intros He.
  assert (Hs : dyn_rep (curlx_dyn_init DYN_APRINTF) []) by (apply dyn_init_rep; unfold DYN_APRINTF, MAX_DYNBUF_SIZE; lia).
  destruct (alloc_addbyter_events evs _ [] o 0 [] Hs) as (fail & s1 & e & o1 & d & st & E & Ho & Hr);
    [done|unfold DYN_APRINTF, INT_MAX; cbn; lia|].
  unfold curl_mvaprintf. rewrite (formatf_events c_snprintf alloc_addbyter _ _ _ evs He), E.
  cbn [fmap option_fmap option_map snd mbind option_bind userp as_merr as_b as_o stores].
  destruct Hr as [(-> & -> & H1 & H2 & H3 & _)|(-> & H1 & H2 & [[-> H3]|[-> H3]])].
  - cbn [app] in *. rewrite (dyn_rep_len _ _ H1). destruct (Z.eqb_spec (zlen (ev_text evs)) 0) as [El|El]; cbn [negb].
    + destruct (next_alloc o1) as [ok o2] eqn:Eo. apply next_alloc_fails in Eo as [Hf Hf'].
      do 3 eexists. split; [done|]. split; [|auto]. destruct ok; [|left; auto]. apply zlen_0 in El. rewrite El. by exists [].
    + do 3 eexists. split; [done|]. split; [|auto]. unfold curlx_dyn_ptr. destruct (bufr s1) as [m|] eqn:Eb.
      * destruct H1 as (_ & _ & H1). rewrite Eb in H1. destruct H1 as (_ & _ & rest & ->). by exists rest.
      * exfalso. apply H3; [|done]. right. by intros E0; rewrite E0 in El.
  - do 3 eexists. split; [done|]. split; [by left|auto].
  - do 3 eexists. split; [done|]. split; [|auto]. right. cbn [toobig curlx_dyn_init] in H3. rewrite zlen_nil in H3. lia.
Qed.

End Family.
