(* ===== verification/PrintfFormat.v ===== *)
(** Formats and their arguments, for Mprintf.v.

    A format is written from a list of pieces: literal text, percent signs and
    conversions.  The pieces and the arguments determine the output
    ([render]), and the parser of formats finds it in the text of the pieces.
    On any other format the parser stays inside of its arrays, but for the one
    test that comes too late. *)

From Stdlib Require Import ZArith Lia List String SpecFloat.
From stdpp Require Import base numbers option list.
From S2P Require Import Prelude Dynbuf Strparse InetAddr Mprintf PrintfSpec.
Close Scope nat_scope.
Open Scope Z_scope.

(** * Pieces *)

Inductive pflag := F_space | F_plus | F_minus | F_alt | F_zero.

#[global] Instance pflag_eq_dec : EqDecision pflag.
Proof. solve_decision. Defined.

(** A width or a precision. *)
Inductive psize := P_none | P_num (n : Z) | P_star.

Inductive plen := L_none | L_h | L_l | L_ll | L_q | L_z | L_O.

Inductive pconv := C_d | C_i | C_u | C_o | C_x | C_X | C_c | C_s | C_S | C_p | C_n.

#[global] Instance plen_eq_dec : EqDecision plen.
Proof. solve_decision. Defined.

#[global] Instance pconv_eq_dec : EqDecision pconv.
Proof. solve_decision. Defined.

Record pspec := mk_spec {
  sp_flags : list pflag; sp_width : psize; sp_prec : psize; sp_len : plen; sp_conv : pconv }.

Inductive piece := Lit (l : list Z) | Percent | Conv (c : pspec).

(** ** Their text *)

Definition flag_char (f : pflag) : Z :=
  match f with F_space => 32 | F_plus => 43 | F_minus => 45 | F_alt => 35 | F_zero => 48 end.

Definition dec (n : Z) : list Z := if n =? 0 then [48] else digits 10 false n.

Definition width_text (w : psize) : list Z :=
  match w with P_none => [] | P_num n => dec n | P_star => [42] end.

Definition prec_text (w : psize) : list Z :=
  match w with P_none => [] | P_num n => 46 :: dec n | P_star => [46; 42] end.

Definition len_text (l : plen) : list Z :=
  match l with
  | L_none => [] | L_h => [104] | L_l => [108] | L_ll => [108; 108] | L_q => [113] | L_z => [122] | L_O => [79]
  end.

Definition conv_char (c : pconv) : Z :=
  match c with
  | C_d => 100 | C_i => 105 | C_u => 117 | C_o => 111 | C_x => 120 | C_X => 88 | C_c => 99
  | C_s => 115 | C_S => 83 | C_p => 112 | C_n => 110
  end.

(** A conversion, behind its percent sign. *)
Definition spec_text (c : pspec) : list Z :=
  map flag_char (sp_flags c) ++ width_text (sp_width c) ++ prec_text (sp_prec c) ++ len_text (sp_len c)
  ++ [conv_char (sp_conv c)].

Definition piece_text (p : piece) : list Z :=
  match p with Lit l => l | Percent => [37; 37] | Conv c => 37 :: spec_text c end.

Definition pieces_text (ps : list piece) : list Z := concat (map piece_text ps).

(** Literal text has no percent sign and no zero byte; a width is positive,
    since a zero would be a flag. *)
Definition piece_ok (p : piece) : bool :=
  match p with
  | Lit l => forallb (fun c => negb (c =? 0) && negb (c =? 37)) l
  | Percent => true
  | Conv c =>
      match sp_width c with P_num n => (1 <=? n) && (n <=? INT_MAX) | _ => true end &&
      match sp_prec c with P_num n => (0 <=? n) && (n <=? INT_MAX) | _ => true end
  end.

(** ** Their meaning *)

Definition bits (l : list (bool * Z)) : Z := foldr (fun '(b, f) w => Z.lor (if b : bool then f else 0) w) 0 l.

Definition flag_in (f : pflag) (c : pspec) : bool := bool_decide (f ∈ sp_flags c).

(** The flags of a conversion; [neg] says that its width was negative, which
    asks for the left. *)
Definition spec_flags (c : pspec) (neg : bool) : Z :=
  let left := flag_in F_minus c || neg in
  let conv l := bool_decide (sp_conv c ∈ l) in
  let len l := bool_decide (sp_len c ∈ l) in
  bits
    [(flag_in F_space c, FLAGS_SPACE); (flag_in F_plus c, FLAGS_SHOWSIGN); (left, FLAGS_LEFT);
     (flag_in F_alt c || conv [C_S], FLAGS_ALT); (flag_in F_zero c && negb left, FLAGS_PAD_NIL);
     (len [L_h], FLAGS_SHORT); (len [L_l; L_ll; L_z; L_O], FLAGS_LONG); (len [L_ll; L_q], FLAGS_LONGLONG);
     (conv [C_u; C_o; C_x; C_X], FLAGS_UNSIGNED); (conv [C_o], FLAGS_OCTAL); (conv [C_x; C_X], FLAGS_HEX);
     (conv [C_X], FLAGS_UPPER); (conv [C_c], FLAGS_CHAR)].

Definition spec_type (c : pspec) : FormatType :=
  let sized i l ll := match sp_len c with L_none | L_h => i | L_l | L_z | L_O => l | L_ll | L_q => ll end in
  match sp_conv c with
  | C_d | C_i => sized MTYPE_INT MTYPE_LONG MTYPE_LONGLONG
  | C_u | C_o | C_x | C_X => sized MTYPE_INTU MTYPE_LONGU MTYPE_LONGLONGU
  | C_c => MTYPE_INT
  | C_s | C_S => MTYPE_STRING
  | C_p => MTYPE_PTR
  | C_n => MTYPE_INTPTR
  end.

(** The types of the inputs of a conversion. *)
Definition spec_types (c : pspec) : list FormatType :=
  match sp_width c with P_star => [MTYPE_WIDTH] | _ => [] end ++
  match sp_prec c with P_star => [MTYPE_PRECISION] | _ => [] end ++ [spec_type c].

Definition piece_types (p : piece) : list FormatType := match p with Conv c => spec_types c | _ => [] end.

(** A conversion with its width and precision given: [INT_MIN] has no
    absolute value, and a negative precision is none. *)
Definition conv_prop (c : pspec) (width prec : Z) : mproperty :=
  mk_prop (Z.min (Z.abs width) INT_MAX) (if prec <? 0 then -1 else prec) (spec_flags c (width <? 0)).

Definition conv_events (c : pspec) (width prec : Z) (v : va_value) : option (list event) :=
  ev_value (fun _ _ => []) (conv_prop c width prec) (spec_type c) v.

(** The values of the inputs, in the order of the types. *)
Fixpoint fetch_all (ts : list FormatType) (args : list va_arg) : option (list va_value) :=
  match ts, args with
  | [], _ => Some []
  | t :: ts, a :: args => v ← va_fetch t a; vs ← fetch_all ts args; Some (v :: vs)
  | _ :: _, [] => None
  end.

(** A width or a precision, and the values behind it. *)
Definition take_size (s : psize) (dflt : Z) (vs : list va_value) : option (Z * list va_value) :=
  match s, vs with
  | P_none, _ => Some (dflt, vs) | P_num n, _ => Some (n, vs)
  | P_star, v :: vs => n ← val_int v; Some (n, vs) | P_star, [] => None
  end.

(** The width, the precision and the value of a conversion, and what is made
    of them. *)
Definition spec_with {A} (k : Z -> Z -> va_value -> option A) (c : pspec) (vs : list va_value) : option A :=
  '(width, vs) ← take_size (sp_width c) 0 vs;
  '(prec, vs) ← take_size (sp_prec c) (-1) vs;
  v ← head vs;
  k width prec v.

Definition spec_events (c : pspec) : list va_value -> option (list event) := spec_with (conv_events c) c.

(** The output of pieces with their arguments. *)
Fixpoint render (ps : list piece) (args : list va_arg) : option (list event) :=
  match ps with
  | [] => Some []
  | Lit l :: ps => r ← render ps args; Some (ev_bytes l ++ r)
  | Percent :: ps => r ← render ps args; Some (ev_bytes [37] ++ r)
  | Conv c :: ps =>
      vs ← fetch_all (spec_types c) args;
      l ← spec_events c vs;
      r ← render ps (drop (length (spec_types c)) args);
      Some (l ++ r)
  end.

(** A test of every conversion with its width, precision and value. *)
Fixpoint pieces_all (f : pspec -> Z -> Z -> va_value -> bool) (ps : list piece) (args : list va_arg) : bool :=
  match ps with
  | [] => true
  | (Lit _ | Percent) :: ps => pieces_all f ps args
  | Conv c :: ps =>
      match vs ← fetch_all (spec_types c) args; spec_with (fun w n v => Some (f c w n v)) c vs with
      | Some b => b && pieces_all f ps (drop (length (spec_types c)) args)
      | None => false
      end
  end.

(** * The parser is total *)

(** [drop] and the number parser leave a suffix of the text. *)
Lemma suffix_len (p' p : list Z) : p' `suffix_of` p -> (length p' <= length p)%nat.
Proof. apply suffix_length. Qed.

Lemma drop_suffix n (p : list Z) : drop n p `suffix_of` p.
Proof. exists (take n p). by rewrite take_drop. Qed.

Lemma format_span_app m p ds r : digit_span m p = (ds, r) ->
  p = ds ++ r /\ Forall (fun c => valid_digit c m = true) ds /\ valid_digit (deref r) m = false.
Proof.
  revert ds r. induction p as [|c p IH]; intros ds r E; cbn [digit_span] in E.
  - injection E as <- <-. split; [done|]. split; [done|]. unfold valid_digit. by destruct (48 <=? deref []) eqn:?.
  - destruct (valid_digit c m) eqn:Ev; [|injection E as <- <-; by rewrite <- Ev].
    destruct (digit_span _ p) as [ds' r']. injection E as <- <-. destruct (IH _ _ eq_refl) as (-> & H & Hr).
    split; [done|]. split; [by constructor|done].
Qed.

Lemma curlx_str_number_total p max : 0 <= max <= CURL_OFF_T_MAX ->
  exists rc num p', curlx_str_number p max = Some (rc, num, p') /\ 0 <= num <= max /\ p' `suffix_of` p /\
    ((rc = STRE_OK /\ (length p' < length p)%nat) \/ rc <> STRE_OK).
Proof.
  intros Hm. unfold curlx_str_number. rewrite str_num_base_spec by (done || lia).
  destruct (digit_span (max_digit 10) p) as [ds r] eqn:E. apply format_span_app in E as (-> & _).
  destruct ds as [|d ds].
  - exists STRE_NO_NUM, 0, r. split; [done|]. split; [lia|]. split; [done|by right].
  - case_if.
    + do 3 eexists. split; [done|]. split; [|split; [by eexists|left; split; [done|rewrite length_app; cbn [length]; lia]]].
      split; [|done]. apply (digits_value_ge 10 0); lia.
    + exists STRE_OVERFLOW, 0, ((d :: ds) ++ r). split; [done|]. split; [lia|]. split; [done|by right].
Qed.

Lemma dollarstring_total p : exists n p', dollarstring p = Some (n, p') /\ -1 <= n < 128 /\ p' `suffix_of` p.
Proof.
  unfold dollarstring. destruct (curlx_str_number_total p MAX_PARAMETERS) as (rc & num & q & -> & Hn & Hq & _);
    [unfold MAX_PARAMETERS, CURL_OFF_T_MAX; lia|]. unfold MAX_PARAMETERS in Hn. cbn [mbind option_bind].
  assert (Hno : exists n p', Some (-1, p) = Some (n, p') /\ -1 <= n < 128 /\ p' `suffix_of` p).
  { exists (-1), p. repeat split; lia || done. }
  destruct rc; try exact Hno. unfold curlx_str_single. destruct (negb (deref q =? 36)); [exact Hno|].
  destruct (Z.eqb_spec num 0); [exact Hno|].
  do 2 eexists. split; [done|]. split; [lia|]. etransitivity; [apply drop_suffix|exact Hq].
Qed.

(** Everything [parse_flags] can set its locals to. *)
Definition pf_ok (p : pflags) : Prop :=
  -1 <= pf_width p <= INT_MAX /\ - INT_MAX <= pf_precision p <= INT_MAX /\
  (has (pf_flags p) FLAGS_PRECPARAM = true -> -1 <= pf_precision p < 128).

Lemma has_precparam a f : has (Z.lor a f) FLAGS_PRECPARAM = has a FLAGS_PRECPARAM || has f FLAGS_PRECPARAM.
Proof. apply has_lor. by exists 16. Qed.

Lemma pf_or_ok f p : pf_ok p -> has f FLAGS_PRECPARAM = false -> pf_ok (pf_or f p).
Proof. intros (H1 & H2 & H3) Hf. split; [done|]. split; [done|]. cbn. by rewrite has_precparam, Hf, orb_false_r. Qed.

Lemma pf_width_ok w p : pf_ok p -> -1 <= w <= INT_MAX -> pf_ok (pf_set_width w p).
Proof. intros (H1 & H2 & H3) Hf. done. Qed.

(** A step of the flags: an OK that goes on has taken bytes. *)
Definition step_ok (fmt : list Z) (r : option (pfmt * pflags * list Z)) : Prop :=
  match r with
  | Some (rc, p, fmt') =>
      fmt' `suffix_of` fmt /\ (rc = PFMT_OK -> pf_ok p /\ (length fmt' < length fmt)%nat)
  | None => True
  end.

Lemma int_max_fits : 0 <= INT_MAX <= CURL_OFF_T_MAX.
Proof. unfold INT_MAX, CURL_OFF_T_MAX. lia. Qed.

Lemma flags_dot_total fmt d p : pf_ok p -> exists rc p' fmt', flags_dot fmt d p = Some (rc, p', fmt') /\
  fmt' `suffix_of` fmt /\ (rc = PFMT_OK -> pf_ok p').
Proof.
  intros (Hw & Hp & Hpp). unfold flags_dot.
  assert (Hend : forall rc p' (fmt' : list Z), fmt' `suffix_of` fmt ->
    (rc = PFMT_OK -> Z.land (pf_flags p') (Z.lor FLAGS_PREC FLAGS_PRECPARAM) <> Z.lor FLAGS_PREC FLAGS_PRECPARAM -> pf_ok p') ->
    exists rc1 p1 fmt1,
    match rc with
    | PFMT_OK => if Z.land (pf_flags p') (Z.lor FLAGS_PREC FLAGS_PRECPARAM) =? Z.lor FLAGS_PREC FLAGS_PRECPARAM
                 then Some (PFMT_PRECMIX, p', fmt') else Some (PFMT_OK, p', fmt')
    | _ => Some (rc, p', fmt')
    end = Some (rc1, p1, fmt1) /\ fmt1 `suffix_of` fmt /\ (rc1 = PFMT_OK -> pf_ok p1)).
  { intros rc p' fmt' Hl Hp'. destruct rc; try (do 3 eexists; split; [done|]; done).
    case_if; do 3 eexists; (split; [done|]; split; [done|]); [done|auto]. }
  destruct (deref fmt =? 42).
  - destruct (bool_decide (d = DOLLAR_USE)).
    + destruct (dollarstring_total (drop 1 fmt)) as (n & q & -> & Hn & Hl). cbn [mbind option_bind].
      apply Hend; [by etransitivity; [exact Hl|apply drop_suffix]|]. intros _ _. unfold INT_MAX in *.
      split; [exact Hw|]. cbn [pf_precision pf_set_precision]. unfold INT_MAX in *. split; [lia|intros _; lia].
    + cbn [mbind option_bind]. apply (Hend PFMT_OK); [apply drop_suffix|]. intros _ _. unfold INT_MAX in *.
      split; [exact Hw|]. cbn [pf_precision pf_set_precision]. unfold INT_MAX in *. split; [lia|intros _; lia].
  - destruct (curlx_str_number_total (if deref fmt =? 45 then drop 1 fmt else fmt) INT_MAX int_max_fits)
      as (rc & num & q & -> & Hn & Hq & _). cbn [mbind option_bind].
    assert (Hl : q `suffix_of` fmt).
    { etransitivity; [exact Hq|]. destruct (deref fmt =? 45)%Z; [apply drop_suffix|done]. }
    destruct rc; cbn [mbind option_bind]; (first [apply (Hend PFMT_OK)|apply (Hend PFMT_PREC)]; [exact Hl|]); try done.
    intros _ Hmix. split; [exact Hw|]. split; [cbn; case_if; lia|]. intros Hboth. exfalso. apply Hmix.
    cbn [pf_flags pf_set_precision pf_or] in *. rewrite has_precparam in Hboth. change (has FLAGS_PREC FLAGS_PRECPARAM) with false in Hboth.
    rewrite orb_false_r in Hboth. apply Z.bits_inj'. intros i Hi. rewrite Z.land_spec, !Z.lor_spec.
    change FLAGS_PRECPARAM with (2 ^ 16) in *. change FLAGS_PREC with (2 ^ 15). rewrite has_testbit in Hboth by lia.
    destruct (Z.eq_dec i 16) as [->|]; [by rewrite Hboth|]. rewrite (Z.pow2_bits_false 16) by lia.
    rewrite orb_false_r. by destruct (Z.testbit (2 ^ 15) i); rewrite ?orb_true_r, ?andb_false_r.
Qed.

Lemma deref_length (c : Z) fmt : deref fmt = c -> c <> 0 -> (0 < length fmt)%nat.
Proof. destruct fmt; cbn; [congruence|lia]. Qed.

Lemma flag_step_total fmt d p : pf_ok p -> exists r, flag_step fmt d p = Some r /\ step_ok fmt r.
Proof.
  intros Hp. unfold flag_step. pose proof (drop_suffix 1 fmt) as Hsuf.
  assert (Hlen : deref fmt <> 0 -> (length (drop 1 fmt) < length fmt)%nat).
  { intros H. pose proof (deref_length _ fmt eq_refl H). rewrite length_drop. lia. }
  assert (Hset : forall f, deref fmt <> 0 -> has f FLAGS_PRECPARAM = false ->
    exists r, Some (Some (PFMT_OK, pf_or f p, drop 1 fmt)) = Some r /\ step_ok fmt r).
  { intros f H%Hlen Hf. eexists. split; [done|]. split; [done|]. intros _. split; [by apply pf_or_ok|done]. }
  case_if; [apply Hset; [lia|done]|]. case_if; [apply Hset; [lia|done]|].
  case_if.
  { eexists; split; [done|]; split; [done|intros _; split; [|apply Hlen; lia]].
    destruct Hp as (H1 & H2 & H3). split; [done|]. split; [done|]. cbn. rewrite has_without by (by exists 16).
    rewrite has_precparam. change (has FLAGS_LEFT FLAGS_PRECPARAM) with false. rewrite orb_false_r, andb_true_r. exact H3. }
  case_if; [apply Hset; [lia|done]|].
  case_if.
  { destruct (flags_dot_total (drop 1 fmt) d p Hp) as (rc & p' & fmt' & -> & Hl & Hp').
    eexists. split; [done|]. assert (deref fmt <> 0) as H%Hlen by lia. split; [by etransitivity|].
    intros Hrc. apply suffix_len in Hl. split; [auto|lia]. }
  case_if; [apply Hset; [lia|done]|]. case_if; [apply Hset; [lia|by case_if]|]. case_if; [apply Hset; [lia|done]|].
  case_if; [apply Hset; [lia|done]|]. case_if; [apply Hset; [lia|done]|]. case_if; [apply Hset; [lia|done]|].
  case_if.
  { unfold flags_width. destruct (curlx_str_number_total fmt INT_MAX int_max_fits) as (rc & num & q & -> & Hn & Hq & Hr).
    cbn [mbind option_bind]. destruct rc; (eexists; split; [done|]; split; [exact Hq|]; intros Hok; try done).
    destruct Hr as [[_ ?]|?]; [|done]. split; [|done]. apply pf_width_ok; [|lia].
    apply pf_or_ok; [|done]. case_if; [by apply pf_or_ok|done]. }
  case_if; [|by exists None].
  unfold flags_star. assert (deref fmt <> 0) as H%Hlen by lia. destruct (bool_decide (d = DOLLAR_USE)).
  - destruct (dollarstring_total (drop 1 fmt)) as (n & q & -> & Hn & Hl). cbn [mbind option_bind].
    eexists. split; [done|]. split; [by etransitivity|]. intros _. apply suffix_len in Hl.
    split; [|lia]. apply pf_width_ok; [by apply pf_or_ok|unfold INT_MAX; lia].
  - eexists. split; [done|]. split; [done|]. intros _. split; [|done].
    apply pf_width_ok; [by apply pf_or_ok|unfold INT_MAX; lia].
Qed.

(** The flags end after as many rounds as there are bytes, and more rounds do
    not matter. *)
Lemma flags_loop_total fuel fmt d p : pf_ok p -> (length fmt <= fuel)%nat ->
  exists rc p' fmt', flags_loop fuel fmt d p = Some (rc, p', fmt') /\ fmt' `suffix_of` fmt /\
    (rc = PFMT_OK -> pf_ok p').
Proof.
  revert fmt p; induction fuel as [|fuel IH]; intros fmt p Hp Hf; cbn [flags_loop];
    destruct (flag_step_total fmt d p Hp) as (r & -> & Hr); cbn [mbind option_bind];
    (destruct r as [[[rc p'] fmt']|]; [|do 3 eexists; split; [done|]; done]); destruct Hr as [Hs Hr].
  - destruct rc; [destruct (Hr eq_refl); lia|..]; (do 3 eexists; split; [done|]; split; [exact Hs|done]).
  - destruct rc; try (do 3 eexists; split; [done|]; split; [exact Hs|done]).
    destruct (Hr eq_refl) as [Hp' Hl]. destruct (IH fmt' p' Hp') as (rc & p1 & fmt1 & -> & H1 & H2); [lia|].
    do 3 eexists. split; [done|]. split; [by etransitivity|done].
Qed.

Lemma flags_loop_more fuel fmt d p : pf_ok p -> (length fmt <= fuel)%nat ->
  flags_loop fuel fmt d p = flags_loop (length fmt) fmt d p.
Proof.
  remember (length fmt) as n eqn:En. revert fuel fmt p En.
  induction (lt_wf n) as [n _ IH]. intros fuel fmt p -> Hp Hf.
  destruct (flag_step_total fmt d p Hp) as (r & Er & Hr).
  destruct fuel as [|fuel]; [by destruct (length fmt); [|lia]|].
  destruct (length fmt) as [|n] eqn:El; cbn [flags_loop]; rewrite Er; cbn [mbind option_bind];
    (destruct r as [[[[] p'] fmt']|]; try done); destruct Hr as [_ Hr]; destruct (Hr eq_refl) as [Hp' Hl]; [lia|].
  rewrite (IH (length fmt')) by (done || lia). symmetry. apply IH; done || lia.
Qed.

Lemma pf_start_ok : pf_ok (mk_pf 0 0 0).
Proof. split; cbn; unfold INT_MAX; [lia|]. split; [lia|done]. Qed.

Lemma parse_flags_total fmt d : exists rc p fmt', parse_flags fmt d = Some (rc, p, fmt') /\
  fmt' `suffix_of` fmt /\ (rc = PFMT_OK -> pf_ok p).
Proof. apply flags_loop_total; [apply pf_start_ok|done]. Qed.

(** * The bit map of the inputs *)

Definition marked (x : list Z) (i : Z) : bool := Z.testbit (nth (Z.to_nat (i / 8)) x 0) (i mod 8).

Lemma used_byte x i : length x = 16%nat -> 0 <= i < 128 ->
  (if i <? 0 then None else x !! Z.to_nat (i / 8)) = Some (nth (Z.to_nat (i / 8)) x 0).
Proof.
  intros Hx Hi. rewrite (proj2 (Z.ltb_ge _ _)) by lia.
  destruct (nth_lookup_or_length x (Z.to_nat (i / 8)) 0) as [H|H]; [done|]. rewrite Hx in H. dlia.
Qed.

Lemma bit_of i : Z.shiftl 1 (Z.land i 7) = 2 ^ (i mod 8).
Proof. change 7 with (2 ^ 3 - 1). rewrite land_mask, Z.shiftl_1_l by lia. done. Qed.

Lemma is_arg_used_spec x i : length x = 16%nat -> 0 <= i < 128 -> is_arg_used x i = Some (marked x i).
Proof.
  intros Hx Hi. unfold is_arg_used. rewrite used_byte by done. cbn [mbind option_bind]. rewrite bit_of.
  f_equal. apply has_testbit. dlia.
Qed.

Lemma mark_arg_used_spec x i : length x = 16%nat -> 0 <= i < 128 -> exists x', mark_arg_used x i = Some x' /\
  length x' = 16%nat /\ forall j, 0 <= j < 128 -> marked x' j = (j =? i) || marked x j.
Proof.
  intros Hx Hi. unfold mark_arg_used. rewrite used_byte by done. cbn [mbind option_bind]. rewrite bit_of.
  eexists. split; [done|]. split; [by rewrite length_insert|]. intros j Hj. unfold marked.
  assert (Hb : u8 (2 ^ (i mod 8)) = 2 ^ (i mod 8)).
  { apply u8_small. split; [apply Z.pow_nonneg; lia|]. change 256 with (2 ^ 8). apply Z.pow_lt_mono_r; dlia. }
  rewrite Hb. destruct (Z.eq_dec (j / 8) (i / 8)) as [Eq|Ne].
  - assert (Hin : (Z.to_nat (i / 8) < length x)%nat) by (rewrite Hx; dlia).
    rewrite Eq. rewrite (nth_lookup_Some _ _ 0 _ (list_lookup_insert_eq x _ _ Hin)).
    rewrite Z.lor_spec. destruct (Z.eqb_spec j i) as [->|Hji].
    + rewrite Z.pow2_bits_true by dlia. apply orb_true_r.
    + rewrite Z.pow2_bits_false by dlia. apply orb_false_r.
  - rewrite (proj2 (Z.eqb_neq j i)) by (intros ->; done). cbn [orb]. f_equal.
    rewrite !nth_lookup. by rewrite list_lookup_insert_ne by dlia.
Qed.

(** * The invariant of the parser *)

(** A segment is text of the format, or its inputs are among the first [n]. *)
Definition seg_inv (format : list Z) (n : Z) (seg : outsegment) : Prop :=
  seg_start seg `suffix_of` format /\ 0 <= seg_outlen seg <= zlen (seg_start seg) /\
  (seg_flags seg = FLAGS_SUBSTR /\ 0 < seg_outlen seg \/
   0 <= seg_input seg < n /\
   (has (seg_flags seg) FLAGS_WIDTHPARAM = true -> 0 <= seg_width seg < n) /\
   (has (seg_flags seg) FLAGS_PRECPARAM = true -> 0 <= seg_precision seg < n)).

Record parse_inv (format : list Z) (s : pstate) : Prop := {
  pi_used : length (usedinput s) = 16%nat;
  pi_inp : length (inp s) = 128%nat;
  pi_num : 0 <= param_num s <= 128;
  pi_max : -1 <= max_param s < 128;
  pi_out : zlen (out s) <= MAX_SEGMENTS;
  pi_marks : forall i, 0 <= i < 128 -> marked (usedinput s) i = true ->
    i <= max_param s /\ exists t, inp s !! Z.to_nat i = Some (Some t);
  pi_segs : Forall (seg_inv format (max_param s + 1)) (out s);
}.

Lemma seg_inv_mono format n m seg : n <= m -> seg_inv format n seg -> seg_inv format m seg.
Proof.
  intros Hnm (H1 & H2 & H3). split; [done|]. split; [done|].
  destruct H3 as [H3|(Ha & Hb & Hc)]; [by left|right]. split; [lia|]. split; [intros Hw%Hb|intros Hp%Hc]; lia.
Qed.

Lemma set_input_inv format n t s : parse_inv format s -> 0 <= n < 128 -> exists s', set_input n t s = Some s' /\
  parse_inv format s' /\ n <= max_param s' /\ max_param s <= max_param s' /\ use_dollar s' = use_dollar s.
Proof.
  intros [Hu Hi Hn Hm Ho Hk Hs] Hr. unfold set_input.
  assert (Hz : zlen (inp s) = 128) by (unfold zlen; lia).
  rewrite Hz, (proj2 (Z.leb_le _ _)), (proj2 (Z.ltb_lt _ _)) by lia. cbn [andb].
  destruct (mark_arg_used_spec (usedinput s) n Hu Hr) as (x & -> & Hx & Hmark). cbn [mbind option_bind].
  eexists. split; [done|]. assert (Hmax : n <= (if n >=? max_param s then n else max_param s) /\
    max_param s <= (if n >=? max_param s then n else max_param s) < 128) by (case_if; lia).
  split; [|cbn [max_param use_dollar]; lia || (split; [|split]; [..|done]; lia)].
  constructor; cbn [usedinput inp param_num max_param out]; [done|by rewrite length_insert|done|lia|done| |].
  - intros i Hi' Hmi. rewrite Hmark in Hmi by done. destruct (Z.eqb_spec i n) as [->|Hne]; cbn [orb] in Hmi.
    + split; [lia|]. exists t. apply list_lookup_insert_eq. rewrite Hi. lia.
    + destruct (Hk i Hi' Hmi) as [H1 (t' & H2)]. split; [lia|]. exists t'. by rewrite list_lookup_insert_ne by lia.
  - eapply Forall_impl; [exact Hs|]. intros seg. apply seg_inv_mono. lia.
Qed.

Lemma next_param_inv format s : parse_inv format s -> param_num s < 128 -> parse_inv format (next_param s).
Proof. intros [Hu Hi Hn Hm Ho Hk Hs] Hl. constructor; cbn; done || lia. Qed.

Lemma set_dollar_inv format d s : parse_inv format s -> parse_inv format (set_dollar d s).
Proof. intros [Hu Hi Hn Hm Ho Hk Hs]. constructor; done. Qed.

Lemma add_segment_inv format seg s : parse_inv format s -> seg_inv format (max_param s + 1) seg ->
  exists rc s', add_segment seg s = (rc, s') /\ (rc = PFMT_OK -> parse_inv format s').
Proof.
  intros [Hu Hi Hn Hm Ho Hk Hs] Hseg. unfold add_segment. rewrite Z.gtb_ltb. case_if; [by do 2 eexists|].
  do 2 eexists. split; [done|]. intros _. constructor; cbn [usedinput inp param_num max_param out]; try done.
  - rewrite zlen_snoc. lia.
  - apply Forall_app. by split; [|constructor].
Qed.

(** A width or precision from the arguments: the number must be one that the
    bit map can hold. *)
Lemma star_input_inv format n t twice s : parse_inv format s -> -1 <= n < 128 -> twice <> PFMT_OK ->
  exists rc n' s', star_input n t twice s = Some (rc, n', s') /\
    (rc = PFMT_OK -> parse_inv format s' /\ 0 <= n' <= max_param s' /\ max_param s <= max_param s').
Proof.
  intros Hinv Hn Ht. unfold star_input.
  assert (Hset : forall n s1, parse_inv format s1 \/ 128 <= n -> 0 <= n -> max_param s1 = max_param s -> exists rc n' s',
    (if n >=? MAX_PARAMETERS then Some (PFMT_MANYARGS, n, s1)
     else s ← set_input n t s1; Some (PFMT_OK, n, s)) = Some (rc, n', s') /\
    (rc = PFMT_OK -> parse_inv format s' /\ 0 <= n' <= max_param s' /\ max_param s <= max_param s')).
  { intros n1 s1 Hs1 Hn1 Hmax. unfold MAX_PARAMETERS. rewrite Z.geb_leb. case_if; [do 3 eexists; by split|].
    destruct Hs1 as [Hs1|?]; [|lia].
    destruct (set_input_inv format n1 t s1 Hs1) as (s2 & -> & H1 & H2 & H3 & _); [lia|].
    do 3 eexists. split; [done|]. intros _. split; [done|lia]. }
  destruct (Z.ltb_spec n 0) as [Hneg|Hpos]; cbn [mbind option_bind].
  - pose proof (pi_num _ _ Hinv). apply Hset; [|lia|done].
    destruct (Z.eq_dec (param_num s) 128); [right; lia|left; apply next_param_inv; [done|lia]].
  - rewrite (is_arg_used_spec _ _ (pi_used _ _ Hinv)) by lia. cbn [mbind option_bind].
    destruct (marked (usedinput s) n); [|apply Hset; [by left|lia|done]].
    destruct twice; try done; do 3 eexists; (split; [done|done]).
Qed.

(** The formats whose star widths are parameters there can be; [parsefmt]
    tests the bit map before it compares the number with the limit. *)
Definition widths_fit (fmt : list Z) (d : dollar) : bool :=
  match parse_flags fmt d with
  | Some (PFMT_OK, p, _) => negb (has (pf_flags p) FLAGS_WIDTHPARAM) || (pf_width p <? MAX_PARAMETERS)
  | _ => true
  end.

Fixpoint widths_ok (format : list Z) : bool :=
  widths_fit format DOLLAR_UNKNOWN && widths_fit format DOLLAR_NOPE && widths_fit format DOLLAR_USE &&
  match format with [] => true | _ :: format => widths_ok format end.

Lemma widths_ok_suffix format fmt d : widths_ok format = true -> fmt `suffix_of` format -> widths_fit fmt d = true.
Proof.
  intros H (k & ->). induction k as [|c k IH].
  - cbn [app] in H. destruct fmt; cbn [widths_ok] in H; zb_hyps; by destruct d.
  - cbn [app widths_ok] in H. zb_hyps. auto.
Qed.

(** What a conversion adds to the flags is none of the parser's marks. *)
Lemma parse_conversion_flags f flags flags' t x : parse_conversion f flags = Some (flags', t) ->
  x = FLAGS_WIDTHPARAM \/ x = FLAGS_PRECPARAM \/ x = FLAGS_SUBSTR \/ x = FLAGS_PREC -> has flags' x = has flags x.
Proof.
  unfold parse_conversion. intros H Hx.
  assert (Hadd : forall a, has a x = false -> has (Z.lor flags a) x = has flags x).
  { intros a Ha. rewrite has_lor, Ha, orb_false_r; [done|].
    destruct Hx as [-> | [-> | [-> | ->]]]; [by exists 14|by exists 16|by exists 20|by exists 15]. }
  cbv zeta in H.
  repeat match type of H with (if ?b then _ else _) = _ =>
    destruct b; [injection H as <- _; apply Hadd; destruct Hx as [-> | [-> | [-> | ->]]]; done|] end. done.
Qed.

Lemma dollar_param_inv format fmt s : parse_inv format s -> exists rc n fmt' s',
  dollar_param fmt s = Some (rc, n, fmt', s') /\ fmt' `suffix_of` fmt /\
  (rc = PFMT_OK -> parse_inv format s' /\ -1 <= n < 128).
Proof.
  intros Hinv. unfold dollar_param. case_bool_decide.
  { do 4 eexists. split; [done|]. split; [done|]. intros _. split; [done|lia]. }
  destruct (dollarstring_total fmt) as (n & q & -> & Hn & Hq). cbn [mbind option_bind]. case_if.
  - case_bool_decide; do 4 eexists; (split; [done|]; split; [exact Hq|]; try done).
    intros _. split; [by apply set_dollar_inv|lia].
  - do 4 eexists. split; [done|]. split; [exact Hq|]. intros _. split; [by apply set_dollar_inv|lia].
Qed.

(** The part of [directive] that stores its value and the segment. *)
Lemma directive_end_inv format fmt start outlen s param type width precision flags :
  parse_inv format s -> start `suffix_of` format -> 0 <= outlen <= zlen start -> -1 <= param < 128 ->
  (has flags FLAGS_WIDTHPARAM = true -> 0 <= width <= max_param s) ->
  (has flags FLAGS_PRECPARAM = true -> 0 <= precision <= max_param s) ->
  exists rc s' fmt' start',
  (let '(param, s) := if param <? 0 then (param_num s, next_param s) else (param, s) in
   if param >=? MAX_PARAMETERS then Some (PFMT_MANYARGS, s, fmt, start)
   else
     s ← set_input param type s;
     let fmt := drop 1 fmt in
     let '(rc, s) := add_segment (mk_seg width precision flags param start outlen) s in
     Some (rc, s, fmt, fmt)) = Some (rc, s', fmt', start') /\
  fmt' `suffix_of` fmt /\ (start' = start \/ start' = fmt') /\ (rc = PFMT_OK -> parse_inv format s').
Proof.
  intros Hinv Hst Ho Hp Hw Hpr.
  assert (Hgo : forall n s1, parse_inv format s1 \/ 128 <= n -> 0 <= n -> max_param s1 = max_param s -> exists rc s' fmt' start',
    (if n >=? MAX_PARAMETERS then Some (PFMT_MANYARGS, s1, fmt, start)
     else
       s ← set_input n type s1;
       let fmt := drop 1 fmt in
       let '(rc, s) := add_segment (mk_seg width precision flags n start outlen) s in
       Some (rc, s, fmt, fmt)) = Some (rc, s', fmt', start') /\
    fmt' `suffix_of` fmt /\ (start' = start \/ start' = fmt') /\ (rc = PFMT_OK -> parse_inv format s')).
  { intros n s1 Hs1 Hn Hmax. unfold MAX_PARAMETERS. rewrite Z.geb_leb. case_if; [do 4 eexists; split; [done|]; split; [done|]; by split; [left|]|].
    destruct Hs1 as [Hs1|?]; [|lia].
    destruct (set_input_inv format n type s1 Hs1) as (s2 & -> & H1 & H2 & H3 & _); [lia|]. cbn [mbind option_bind].
    destruct (add_segment_inv format (mk_seg width precision flags n start outlen) s2 H1) as (rc & s3 & -> & H4).
    { split; [done|]. split; [done|]. right. cbn. split; [lia|]. split; [intros Hx%Hw|intros Hx%Hpr]; lia. }
    do 4 eexists. split; [done|]. split; [apply drop_suffix|]. split; [by right|done]. }
  destruct (Z.ltb_spec param 0); [|apply Hgo; [by left|lia|done]].
  pose proof (pi_num _ _ Hinv). apply Hgo; [|lia|done].
  destruct (Z.eq_dec (param_num s) 128); [right; lia|left; apply next_param_inv; [done|lia]].
Qed.

Section Parser.
Context (format : list Z) (Hwidths : widths_ok format = true).

Lemma directive_inv fmt start outlen s : parse_inv format s -> fmt `suffix_of` format -> start `suffix_of` format ->
  0 <= outlen <= zlen start ->
  exists rc s' fmt' start', directive fmt start outlen s = Some (rc, s', fmt', start') /\
  fmt' `suffix_of` fmt /\ (start' = start \/ start' = fmt') /\ (rc = PFMT_OK -> parse_inv format s').
Proof.
  intros Hinv Hf Hst Ho. unfold directive.
  assert (Herr : forall rc s1 (f1 : list Z), rc <> PFMT_OK -> f1 `suffix_of` fmt -> exists rc' s' fmt' start',
    Some (rc, s1, f1, start) = Some (rc', s', fmt', start') /\ fmt' `suffix_of` fmt /\
    (start' = start \/ start' = fmt') /\ (rc' = PFMT_OK -> parse_inv format s')).
  { intros rc s1 f1 Hrc Hs. do 4 eexists. split; [done|]. split; [done|]. by split; [left|]. }
  destruct (dollar_param_inv format fmt s Hinv) as (rc & param & fmt1 & s1 & -> & Hf1 & H1). cbn [mbind option_bind].
  destruct rc; try (by apply Herr). destruct (H1 eq_refl) as [Hinv1 Hparam]. clear H1.
  pose proof (widths_ok_suffix _ _ (use_dollar s1) Hwidths (transitivity Hf1 Hf)) as Hfit. unfold widths_fit in Hfit.
  destruct (parse_flags_total fmt1 (use_dollar s1)) as (rc & p & fmt2 & Ep & Hf2 & H2). rewrite Ep in *. cbn [mbind option_bind].
  assert (Hf2' : fmt2 `suffix_of` fmt) by (by etransitivity).
  destruct rc; try (by apply Herr). destruct (H2 eq_refl) as (Hpw & _ & Hpp). clear H2.
  destruct (parse_conversion (deref fmt2) (pf_flags p)) as [[flags type]|] eqn:Ec.
  2: { do 4 eexists. split; [done|]. split; [done|]. by split; [left|]. }
  rewrite <- (parse_conversion_flags _ _ _ _ FLAGS_WIDTHPARAM Ec) in Hfit by auto.
  rewrite <- (parse_conversion_flags _ _ _ _ FLAGS_PRECPARAM Ec) in Hpp by auto.
  assert (Hw : exists rc width s2,
    (if has flags FLAGS_WIDTHPARAM then star_input (pf_width p) MTYPE_WIDTH PFMT_WIDTHARG s1
     else Some (PFMT_OK, pf_width p, s1)) = Some (rc, width, s2) /\
    (rc = PFMT_OK -> parse_inv format s2 /\ (has flags FLAGS_WIDTHPARAM = true -> 0 <= width <= max_param s2))).
  { destruct (has flags FLAGS_WIDTHPARAM).
    - cbn [negb orb] in Hfit. zb_hyps. unfold MAX_PARAMETERS in Hfit.
      destruct (star_input_inv format (pf_width p) MTYPE_WIDTH PFMT_WIDTHARG s1 Hinv1) as (rc & n & s2 & -> & H2); [lia|done|].
      do 3 eexists. split; [done|]. intros Hrc. destruct (H2 Hrc) as (? & ? & ?). split; [done|lia].
    - do 3 eexists. split; [done|]. done. }
  destruct Hw as (rc & width & s2 & -> & Hw). cbn [mbind option_bind].
  destruct rc; try (by apply Herr). destruct (Hw eq_refl) as [Hinv2 Hwidth]. clear Hw.
  assert (Hp : exists rc precision s3,
    (if has flags FLAGS_PRECPARAM then star_input (pf_precision p) MTYPE_PRECISION PFMT_PRECARG s2
     else Some (PFMT_OK, pf_precision p, s2)) = Some (rc, precision, s3) /\
    (rc = PFMT_OK -> parse_inv format s3 /\ max_param s2 <= max_param s3 /\
       (has flags FLAGS_PRECPARAM = true -> 0 <= precision <= max_param s3))).
  { destruct (has flags FLAGS_PRECPARAM).
    - destruct (star_input_inv format (pf_precision p) MTYPE_PRECISION PFMT_PRECARG s2 Hinv2 (Hpp eq_refl)) as (rc & n & s3 & -> & H3); [done|].
      do 3 eexists. split; [done|]. intros Hrc. by destruct (H3 Hrc) as (? & ? & ?).
    - do 3 eexists. split; [done|]. done. }
  destruct Hp as (rc & precision & s3 & -> & Hp). cbn [mbind option_bind].
  destruct rc; try (by apply Herr). destruct (Hp eq_refl) as (Hinv3 & Hmax & Hprec). clear Hp.
  destruct (directive_end_inv format fmt2 start outlen s3 param type width precision flags Hinv3 Hst Ho Hparam)
    as (rc & s4 & fmt4 & start4 & E & Hf4 & H4); [intros Hx%Hwidth; lia|done|].
  do 4 eexists. split; [exact E|]. split; [by etransitivity|exact H4].
Qed.

Lemma fmt_loop_inv fuel fmt start s : parse_inv format s -> fmt `suffix_of` start -> start `suffix_of` format ->
  (length fmt <= fuel)%nat ->
  exists rc s' fmt' start', fmt_loop fuel fmt start s = Some (rc, s', fmt', start') /\
    (rc = PFMT_OK -> parse_inv format s' /\ fmt' `suffix_of` start' /\ start' `suffix_of` format).
Proof.
  revert fmt start s; induction fuel as [|fuel IH]; intros fmt start s Hinv Hf Hst Hl; cbn [fmt_loop].
  { destruct fmt; [|cbn in Hl; lia]. do 4 eexists. by split. }
  destruct (Z.eqb_spec (deref fmt) 0) as [_|H0]; [do 4 eexists; by split|].
  pose proof (drop_suffix 1 fmt) as Hd. pose proof (deref_length _ _ eq_refl H0) as Hlen.
  assert (Hl1 : (length (drop 1 fmt) < length fmt)%nat) by (rewrite length_drop; lia).
  assert (Hds : drop 1 fmt `suffix_of` start) by (by etransitivity).
  destruct (deref fmt =? 37); [|apply IH; done || lia].
  assert (Hout : 0 <= zlen start - zlen (drop 1 fmt) - 1 <= zlen start).
  { apply suffix_len in Hf. unfold zlen. lia. }
  destruct (deref (drop 1 fmt) =? 37) eqn:E1; zb_hyps.
  - assert (Hadd : exists rc s1,
      (if negb (zlen start - zlen (drop 1 fmt) - 1 =? 0)
       then add_segment (text_segment start (zlen start - zlen (drop 1 fmt) - 1)) s else (PFMT_OK, s)) = (rc, s1) /\
      (rc = PFMT_OK -> parse_inv format s1)).
    { case_if; [|by do 2 eexists]. apply add_segment_inv; [done|]. split; [done|]. split; [done|]. left. cbn. split; [done|lia]. }
    destruct Hadd as (rc & s1 & -> & Hs1). destruct rc; try (do 4 eexists; by split).
    apply IH; [by apply Hs1|apply drop_suffix|by etransitivity|rewrite length_drop; lia].
  - destruct (directive_inv (drop 1 fmt) start _ s Hinv (transitivity Hds Hst) Hst Hout) as (rc & s1 & fmt1 & start1 & -> & Hf1 & Hs1 & H1).
    cbn [mbind option_bind]. destruct rc; try (do 4 eexists; by split).
    apply suffix_len in Hf1 as Hl2. apply IH; [by apply H1| | |lia].
    + destruct Hs1 as [-> | ->]; [by etransitivity|done].
    + destruct Hs1 as [-> | ->]; [done|]. etransitivity; [exact Hf1|]. by etransitivity.
Qed.

Lemma parse_start_inv : parse_inv format parse_start.
Proof.
  assert (Hm : forall i, marked (usedinput parse_start) i = false).
  { intros i. unfold marked. cbn [usedinput parse_start]. rewrite nth_lookup.
    destruct (replicate 16 0 !! Z.to_nat (i / 8)) eqn:E; [apply lookup_replicate in E as [-> _]|]; apply Z.bits_0. }
  constructor; try (cbn; done || lia). intros i _. by rewrite Hm.
Qed.

End Parser.
