(* ===== verification/PrintfPieces.v ===== *)
(** The parser of formats on the text of pieces, and the theorems about
    formatted output.

    The parser of PrintfFormat.v reads the flags, widths and precisions of a
    conversion back, gives the inputs their numbers in order and stores one
    segment for each conversion; the segments then produce what [render] says. *)

From Stdlib Require Import ZArith Lia List String SpecFloat.
From stdpp Require Import base numbers option list.
From S2P Require Import Prelude Dynbuf Strparse InetAddr Mprintf PrintfSpec PrintfFormat.
Close Scope nat_scope.
Open Scope Z_scope.

(** * Flags *)

(** The loop of [parse_flags] without parameter numbers. *)
Definition flags_of (fmt : list Z) (p : pflags) := flags_loop (length fmt) fmt DOLLAR_NOPE p.

(** The loop goes from one text and state to another. *)
Definition flags_to (fmt : list Z) (p : pflags) (fmt' : list Z) (p' : pflags) : Prop :=
  pf_ok p -> pf_ok p' /\ flags_of fmt p = flags_of fmt' p'.

Lemma flags_to_refl fmt p : flags_to fmt p fmt p.
Proof. done. Qed.

Lemma flags_to_trans f1 p1 f2 p2 f3 p3 : flags_to f1 p1 f2 p2 -> flags_to f2 p2 f3 p3 -> flags_to f1 p1 f3 p3.
Proof. intros H1 H2 Hp. destruct (H1 Hp) as [Hp2 ->]. destruct (H2 Hp2) as [Hp3 ->]. done. Qed.

Lemma flags_to_step fmt p fmt' p' : flag_step fmt DOLLAR_NOPE p = Some (Some (PFMT_OK, p', fmt')) -> flags_to fmt p fmt' p'.
Proof.
  intros E Hp. destruct (flag_step_total fmt DOLLAR_NOPE p Hp) as (r & E' & Hr). rewrite E in E'. injection E' as <-.
  destruct Hr as [_ Hr]. destruct (Hr eq_refl) as [Hp' Hl]. split; [done|].
  unfold flags_of. rewrite <- (flags_loop_more (pred (length fmt)) fmt') by (done || lia).
  destruct (length fmt) as [|n] eqn:En; [lia|]. cbn [flags_loop Nat.pred]. by rewrite E.
Qed.

Definition nondigit (c : Z) : Prop := valid_digit c (max_digit 10) = false.

Lemma digit_span_exact ds rest : Forall (fun c => valid_digit c (max_digit 10) = true) ds -> nondigit (deref rest) ->
  digit_span (max_digit 10) (ds ++ rest) = (ds, rest).
Proof.
  intros H Hr. induction H as [|c ds Hc _ IH]; cbn [app digit_span].
  - destruct rest as [|c r]; [done|]. cbn [digit_span]. unfold nondigit in Hr. cbn [deref] in Hr. by rewrite Hr.
  - by rewrite Hc, IH.
Qed.

Lemma dec_spec n : 0 <= n <= SIZE_MAX -> Forall (fun c => valid_digit c (max_digit 10) = true) (dec n) /\
  digits_value 10 0 (dec n) = n /\ exists c d, dec n = c :: d /\ (n <> 0 -> c <> 48).
Proof.
  intros Hn. unfold dec. case_if; [subst; split; [by repeat constructor|]; split; [done|]; by exists 48, []|].
  destruct (digits_spec 10 false n) as (_ & Hv & Hd & Hh & _); [unfold good_base; lia|done|].
  split; [done|]. split; [done|]. destruct (digits 10 false n) as [|c d] eqn:Ed.
  - cbn in Hv. lia.
  - exists c, d. split; [done|]. intros _. by eapply Hh.
Qed.

Lemma number_text_reads n rest max : 0 <= n <= max -> max <= CURL_OFF_T_MAX -> nondigit (deref rest) ->
  curlx_str_number (dec n ++ rest) max = Some (STRE_OK, n, rest).
Proof.
  intros Hn Hm Hr. destruct (dec_spec n) as (Hd & Hv & c & d & Ec & _); [unfold SIZE_MAX, CURL_OFF_T_MAX in *; lia|].
  unfold curlx_str_number. rewrite str_num_base_spec, digit_span_exact, Hv by (done || lia).
  rewrite Ec. by rewrite (proj2 (Z.leb_le _ _)) by lia.
Qed.

(** The state after one flag. *)
Definition flag_word (p : pflags) (f : pflag) : pflags :=
  match f with
  | F_space => pf_or FLAGS_SPACE p
  | F_plus => pf_or FLAGS_SHOWSIGN p
  | F_minus => mk_pf (without (Z.lor (pf_flags p) FLAGS_LEFT) FLAGS_PAD_NIL) (pf_width p) (pf_precision p)
  | F_alt => pf_or FLAGS_ALT p
  | F_zero => pf_set_width 0 (pf_or FLAGS_WIDTH (if negb (has (pf_flags p) FLAGS_LEFT) then pf_or FLAGS_PAD_NIL p else p))
  end.

(** A zero flag in front of a width changes nothing when the width is read. *)
Lemma width_word (z : bool) p w :
  pf_set_width w (pf_or FLAGS_WIDTH
    (if z && negb (has (pf_flags (flag_word p F_zero)) FLAGS_LEFT)
     then pf_or FLAGS_PAD_NIL (flag_word p F_zero) else flag_word p F_zero)) =
  pf_set_width w (pf_or FLAGS_WIDTH (if negb (has (pf_flags p) FLAGS_LEFT) then pf_or FLAGS_PAD_NIL p else p)).
Proof.
  assert (HL : has (pf_flags (flag_word p F_zero)) FLAGS_LEFT = has (pf_flags p) FLAGS_LEFT).
  { cbn [flag_word pf_set_width pf_or pf_flags]. rewrite has_lor by (by exists 2).
    change (has FLAGS_WIDTH FLAGS_LEFT) with false. rewrite orb_false_r.
    case_if; cbn [pf_or pf_flags]; [|done]. rewrite has_lor by (by exists 2).
    change (has FLAGS_PAD_NIL FLAGS_LEFT) with false. apply orb_false_r. }
  rewrite HL. destruct p as [f w0 n]. unfold flag_word, pf_set_width, pf_or. cbn [pf_flags pf_width pf_precision].
  destruct (has f FLAGS_LEFT), z; cbn [negb andb pf_flags pf_width pf_precision]; f_equal;
    apply Z.bits_inj'; intros i _; rewrite !Z.lor_spec;
    by destruct (Z.testbit f i), (Z.testbit FLAGS_PAD_NIL i), (Z.testbit FLAGS_WIDTH i).
Qed.

(** The digits a text starts with are not too large a number. *)
Definition run_fits (fmt : list Z) : Prop := digits_value 10 0 (fst (digit_span (max_digit 10) fmt)) <= INT_MAX.

Lemma zero_step T p : run_fits T -> flags_to (48 :: T) p T (flag_word p F_zero).
Proof.
  intros Hfit Hp.
  set (q := pf_or FLAGS_WIDTH (if negb (has (pf_flags p) FLAGS_LEFT) then pf_or FLAGS_PAD_NIL p else p)).
  assert (Hnum : curlx_str_number (48 :: T) INT_MAX =
    Some (STRE_OK, digits_value 10 0 (fst (digit_span (max_digit 10) T)), snd (digit_span (max_digit 10) T))).
  { unfold curlx_str_number. rewrite str_num_base_spec by (unfold INT_MAX, CURL_OFF_T_MAX; lia).
    cbn [digit_span]. change (valid_digit 48 (max_digit 10)) with true. cbn iota.
    unfold run_fits in Hfit. destruct (digit_span (max_digit 10) T) as [ds r]. cbn [fst snd] in *.
    change (digits_value 10 0 (48 :: ds)) with (digits_value 10 0 ds). by rewrite (proj2 (Z.leb_le _ _)) by done. }
  assert (Hstep : flag_step (48 :: T) DOLLAR_NOPE p =
    Some (Some (PFMT_OK, pf_set_width (digits_value 10 0 (fst (digit_span (max_digit 10) T))) q, snd (digit_span (max_digit 10) T)))).
  { unfold flag_step. cbn [deref Z.eqb Pos.eqb between Z.leb Z.compare Pos.compare Pos.compare_cont andb].
    unfold flags_width. cbn [deref Z.eqb Pos.eqb andb]. by rewrite Hnum. }
  destruct (flags_to_step _ _ _ _ Hstep Hp) as [Hp1 E]. rewrite E. clear E.
  assert (Hp2 : pf_ok (flag_word p F_zero)).
  { apply pf_width_ok; [|unfold INT_MAX; lia]. apply pf_or_ok; [|done]. case_if; [by apply pf_or_ok|done]. }
  split; [done|]. destruct T as [|c T']; [done|].
  destruct (valid_digit c (max_digit 10)) eqn:Hc.
  2: { cbn [digit_span]. by rewrite Hc. }
  set (T := c :: T') in *.
  assert (Hd : between 48 c 57 = true).
  { unfold valid_digit, max_digit in Hc. cbn in Hc. zb_hyps. unfold between. apply andb_true_iff.
    split; by apply Z.leb_le. }
  assert (Hstep2 : flag_step T DOLLAR_NOPE (flag_word p F_zero) =
    Some (Some (PFMT_OK, pf_set_width (digits_value 10 0 (fst (digit_span (max_digit 10) T))) q, snd (digit_span (max_digit 10) T)))).
  { unfold flag_step, between in *. cbn [deref T]. zb_hyps.
    repeat (rewrite (proj2 (Z.eqb_neq c _)) by lia). rewrite (proj2 (Z.leb_le _ _)), (proj2 (Z.leb_le _ _)) by lia. cbn [andb].
    unfold flags_width. cbn [deref].
    assert (Hnum2 : curlx_str_number T INT_MAX =
      Some (STRE_OK, digits_value 10 0 (fst (digit_span (max_digit 10) T)), snd (digit_span (max_digit 10) T))).
    { unfold curlx_str_number. rewrite str_num_base_spec by (unfold INT_MAX, CURL_OFF_T_MAX; lia).
      unfold run_fits in Hfit. destruct (digit_span (max_digit 10) T) as [ds r] eqn:Es. cbn [fst snd] in *.
      destruct ds as [|d ds]; [|by rewrite (proj2 (Z.leb_le _ _)) by done].
      unfold T in Es. cbn [digit_span] in Es. rewrite Hc in Es. by destruct (digit_span _ T'). }
    unfold T at 2. rewrite Hnum2. cbn [fmap option_fmap option_map mbind option_bind].
    unfold q. by rewrite (width_word (deref T =? 48)). }
  destruct (flags_to_step _ _ _ _ Hstep2 Hp2) as [_ E]. by rewrite E.
Qed.

Lemma flags_run fl rest p : run_fits rest -> flags_to (map flag_char fl ++ rest) p rest (fold_left flag_word fl p).
Proof.
  intros Hrest. revert p. induction fl as [|f fl IH]; intros p; [apply flags_to_refl|]. cbn [map app fold_left].
  apply flags_to_trans with (map flag_char fl ++ rest) (flag_word p f); [|apply IH].
  destruct f; try (by apply flags_to_step). apply zero_step. clear IH.
  induction fl as [|g fl IH]; [done|]. cbn [map app]. destruct g; unfold run_fits in *; cbn [flag_char digit_span];
    try (cbn; unfold INT_MAX; lia).
  change (valid_digit 48 (max_digit 10)) with true. cbn iota. destruct (digit_span _ (map flag_char fl ++ rest)). exact IH.
Qed.

(** The state after a width, a precision and a length. *)
Definition width_word_of (w : psize) (p : pflags) : pflags :=
  match w with
  | P_none => p
  | P_num n => pf_set_width n (pf_or FLAGS_WIDTH p)
  | P_star => pf_set_width (-1) (pf_or FLAGS_WIDTHPARAM p)
  end.

Definition prec_word_of (w : psize) (p : pflags) : pflags :=
  match w with
  | P_none => p
  | P_num n => pf_set_precision n (pf_or FLAGS_PREC p)
  | P_star => pf_set_precision (-1) (pf_or FLAGS_PRECPARAM p)
  end.

Definition len_word (l : plen) (p : pflags) : pflags :=
  match l with
  | L_none => p
  | L_h => pf_or FLAGS_SHORT p
  | L_l | L_z | L_O => pf_or FLAGS_LONG p
  | L_ll => pf_or FLAGS_LONGLONG (pf_or FLAGS_LONG p)
  | L_q => pf_or FLAGS_LONGLONG p
  end.

Lemma width_run w rest p : (forall n, w = P_num n -> 1 <= n <= INT_MAX) -> nondigit (deref rest) ->
  flags_to (width_text w ++ rest) p rest (width_word_of w p).
Proof.
  intros Hw Hr. destruct w as [|n|]; [apply flags_to_refl| |by apply flags_to_step].
  specialize (Hw n eq_refl). apply flags_to_step. cbn [width_text].
  pose proof int_max_fits as Hi.
  destruct (dec_spec n) as (Hd & _ & c & d & Ec & Hc); [unfold SIZE_MAX, CURL_OFF_T_MAX in *; lia|].
  assert (Hc48 : 49 <= c <= 57).
  { rewrite Ec in Hd. apply Forall_cons in Hd as [Hd _]. unfold valid_digit, max_digit in Hd. cbn [Z.eqb Pos.eqb] in Hd. zb_hyps.
    specialize (Hc ltac:(lia)). lia. }
  pose proof (number_text_reads n rest INT_MAX ltac:(lia) ltac:(lia) Hr) as Hread.
  unfold flag_step, flags_width, between. rewrite Ec in *. cbn [app deref].
  repeat (rewrite (proj2 (Z.eqb_neq c _)) by lia). rewrite (proj2 (Z.leb_le 48 c)), (proj2 (Z.leb_le c 57)) by lia.
  cbn [andb app] in *. by rewrite Hread.
Qed.

Lemma prec_run w rest p : (forall n, w = P_num n -> 0 <= n <= INT_MAX) -> nondigit (deref rest) ->
  has (pf_flags p) FLAGS_PREC = false -> has (pf_flags p) FLAGS_PRECPARAM = false ->
  flags_to (prec_text w ++ rest) p rest (prec_word_of w p).
Proof.
  intros Hw Hr Hp Hpp.
  assert (Hmix : forall a b k, has a (2 ^ k) = false -> 0 <= k -> Z.testbit (Z.lor FLAGS_PREC FLAGS_PRECPARAM) k = true ->
    Z.testbit b k = false -> (Z.land (Z.lor a b) (Z.lor FLAGS_PREC FLAGS_PRECPARAM) =? Z.lor FLAGS_PREC FLAGS_PRECPARAM) = false).
  { intros a b k Ha Hk Hm Hb. apply Z.eqb_neq. intros E. apply (f_equal (fun x => Z.testbit x k)) in E.
    rewrite has_testbit in Ha by done. rewrite Z.land_spec, Z.lor_spec, Ha, Hb, Hm in E. done. }
  destruct w as [|n|]; [apply flags_to_refl| |]; apply flags_to_step; cbn [prec_text app].
  - specialize (Hw n eq_refl). pose proof int_max_fits as Hi.
    destruct (dec_spec n) as (Hd & _ & c & d & Ec & _); [unfold SIZE_MAX, CURL_OFF_T_MAX in *; lia|].
    assert (Hc48 : 48 <= c <= 57).
    { rewrite Ec in Hd. apply Forall_cons in Hd as [Hd _]. unfold valid_digit, max_digit in Hd. cbn [Z.eqb Pos.eqb] in Hd. zb_hyps. lia. }
    pose proof (number_text_reads n rest INT_MAX ltac:(lia) ltac:(lia) Hr) as Hread.
    unfold flag_step. cbn [deref Z.eqb Pos.eqb drop]. unfold flags_dot. rewrite ?drop_0, Ec in *. cbn [app deref].
    rewrite !(proj2 (Z.eqb_neq c _)) by lia. cbn [app] in Hread. rewrite Hread. cbn [mbind option_bind].
    cbn [pf_flags pf_set_precision pf_or]. by rewrite (Hmix (pf_flags p) FLAGS_PREC 16).
  - unfold flag_step. cbn [deref Z.eqb Pos.eqb drop]. unfold flags_dot. rewrite ?drop_0. cbn [app deref Z.eqb Pos.eqb].
    rewrite bool_decide_eq_false_2 by done. cbn [mbind option_bind pf_flags pf_set_precision pf_or].
    by rewrite (Hmix (pf_flags p) FLAGS_PRECPARAM 15).
Qed.

Lemma len_run l rest p : has (pf_flags p) FLAGS_LONG = false -> flags_to (len_text l ++ rest) p rest (len_word l p).
Proof.
  intros Hl. destruct l; try (by apply flags_to_step); try apply flags_to_refl.
  - apply flags_to_step. unfold flag_step. cbn [app len_text deref Z.eqb Pos.eqb drop]. by rewrite Hl, ?drop_0.
  - apply flags_to_trans with ([108] ++ rest) (pf_or FLAGS_LONG p); apply flags_to_step; unfold flag_step;
      cbn [app len_text deref Z.eqb Pos.eqb drop pf_or pf_flags].
    + by rewrite Hl, ?drop_0.
    + rewrite has_lor by (by exists 5). change (has FLAGS_LONG FLAGS_LONG) with true. by rewrite orb_true_r, ?drop_0.
Qed.

(** What the parser knows of a conversion. *)
Definition spec_word (c : pspec) : pflags :=
  len_word (sp_len c) (prec_word_of (sp_prec c) (width_word_of (sp_width c) (fold_left flag_word (sp_flags c) (mk_pf 0 0 0)))).

(** ** The flags a conversion ends with *)

(** Computes which flags the constants of the goal have. *)
Ltac has_const := repeat match goal with
  | |- context [has ?a ?b] =>
      is_const a; let v := eval vm_compute in (has a b) in
      lazymatch v with true => change (has a b) with true | false => change (has a b) with false end
  | |- context [has 0 ?b] => change (has 0 b) with false
  end.

Ltac is_flag_bit :=
  lazymatch goal with |- flag_bit ?f => let k := eval vm_compute in (Z.log2 f) in exists k; split; [lia|reflexivity] end.

Ltac flag_bits :=
  repeat first
    [ rewrite has_lor by is_flag_bit | rewrite has_without by is_flag_bit ];
  has_const; rewrite ?orb_false_r, ?orb_true_r, ?andb_true_r, ?andb_false_r.

Lemma in_cons (f g : pflag) fl : bool_decide (f ∈ g :: fl) = bool_decide (g = f) || bool_decide (f ∈ fl).
Proof.
  rewrite <- bool_decide_or. apply bool_decide_ext. rewrite elem_of_cons. split; intros [H|H]; auto.
Qed.

(** The flags that a flag character sets and no other changes. *)
Lemma fold_flag (x : Z) (f : pflag) :
  x = FLAGS_SPACE /\ f = F_space \/ x = FLAGS_SHOWSIGN /\ f = F_plus \/ x = FLAGS_LEFT /\ f = F_minus \/
  x = FLAGS_ALT /\ f = F_alt ->
  forall fl p, has (pf_flags (fold_left flag_word fl p)) x = has (pf_flags p) x || bool_decide (f ∈ fl).
Proof.
  intros Hx. induction fl as [|g fl IH]; intros p; [cbn; by rewrite orb_false_r|]. cbn [fold_left].
  rewrite IH, in_cons, orb_assoc. f_equal.
  destruct Hx as [[-> ->]|[[-> ->]|[[-> ->]|[-> ->]]]]; destruct g; cbn [flag_word pf_or pf_set_width pf_flags];
    try (destruct (negb _); cbn [pf_or pf_flags]); by flag_bits.
Qed.

Lemma fold_pad_nil fl p : has (pf_flags (fold_left flag_word fl p)) FLAGS_PAD_NIL =
  (has (pf_flags p) FLAGS_PAD_NIL || (bool_decide (F_zero ∈ fl) && negb (has (pf_flags p) FLAGS_LEFT)))
  && negb (bool_decide (F_minus ∈ fl)).
Proof.
  revert p. induction fl as [|g fl IH]; intros p; [cbn; by rewrite orb_false_r, andb_true_r|]. cbn [fold_left].
  rewrite IH, !in_cons.
  assert (Hn : has (pf_flags (flag_word p g)) FLAGS_PAD_NIL =
    (has (pf_flags p) FLAGS_PAD_NIL || (bool_decide (g = F_zero) && negb (has (pf_flags p) FLAGS_LEFT))) && negb (bool_decide (g = F_minus))).
  { destruct g; cbn [flag_word pf_or pf_set_width pf_flags]; try (destruct (has (pf_flags p) FLAGS_LEFT) eqn:EL; cbn [negb pf_or pf_flags]);
      flag_bits; cbn; by rewrite ?orb_false_r, ?andb_true_r, ?orb_true_r, ?andb_false_r. }
  assert (Hl : has (pf_flags (flag_word p g)) FLAGS_LEFT = has (pf_flags p) FLAGS_LEFT || bool_decide (g = F_minus)).
  { pose proof (fold_flag FLAGS_LEFT F_minus ltac:(auto) [g] p) as H. rewrite in_cons in H.
    change (bool_decide (F_minus ∈ [])) with false in H. by rewrite orb_false_r in H. }
  rewrite Hn, Hl.
  destruct (has (pf_flags p) FLAGS_PAD_NIL), (has (pf_flags p) FLAGS_LEFT), g, (bool_decide (F_zero ∈ fl)), (bool_decide (F_minus ∈ fl)); done.
Qed.

(** The flags no flag character touches. *)
Lemma fold_other x : x ∈ [FLAGS_SHORT; FLAGS_LONG; FLAGS_LONGLONG; FLAGS_UNSIGNED; FLAGS_OCTAL; FLAGS_HEX; FLAGS_UPPER;
    FLAGS_CHAR; FLAGS_WIDTHPARAM; FLAGS_PREC; FLAGS_PRECPARAM] ->
  forall fl p, has (pf_flags (fold_left flag_word fl p)) x = has (pf_flags p) x.
Proof.
  intros Hx. induction fl as [|g fl IH]; intros p; [done|]. cbn [fold_left]. rewrite IH.
  repeat (apply elem_of_cons in Hx as [->|Hx]; [destruct g; cbn [flag_word pf_or pf_set_width pf_flags];
    try (destruct (negb _); cbn [pf_or pf_flags]); by flag_bits|]). by apply elem_of_nil in Hx.
Qed.

(** What the parts of a conversion add to its flags. *)
Definition len_bits (l : plen) : Z :=
  match l with
  | L_none => 0 | L_h => FLAGS_SHORT | L_l | L_z | L_O => FLAGS_LONG
  | L_ll => Z.lor FLAGS_LONG FLAGS_LONGLONG | L_q => FLAGS_LONGLONG
  end.

Definition width_bits (w : psize) : Z :=
  match w with P_none => 0 | P_num _ => FLAGS_WIDTH | P_star => FLAGS_WIDTHPARAM end.

Definition prec_bits (w : psize) : Z :=
  match w with P_none => 0 | P_num _ => FLAGS_PREC | P_star => FLAGS_PRECPARAM end.

Definition conv_bits (c : pconv) : Z :=
  match c with
  | C_u => FLAGS_UNSIGNED | C_o => Z.lor FLAGS_OCTAL FLAGS_UNSIGNED | C_x => Z.lor FLAGS_HEX FLAGS_UNSIGNED
  | C_X => Z.lor FLAGS_HEX (Z.lor FLAGS_UPPER FLAGS_UNSIGNED) | C_c => FLAGS_CHAR | C_S => FLAGS_ALT | _ => 0
  end.

(** The flags of a segment. *)
Definition spec_final (c : pspec) : Z := Z.lor (pf_flags (spec_word c)) (conv_bits (sp_conv c)).

Lemma spec_final_has c f : flag_bit f ->
  has (spec_final c) f = has (pf_flags (fold_left flag_word (sp_flags c) (mk_pf 0 0 0))) f || has (width_bits (sp_width c)) f
    || has (prec_bits (sp_prec c)) f || has (len_bits (sp_len c)) f || has (conv_bits (sp_conv c)) f.
Proof.
  intros Hf. unfold spec_final. rewrite has_lor by done. f_equal. unfold spec_word.
  assert (H0 : forall x, x = x || has 0 f) by (intros x; unfold has; cbn; by rewrite orb_false_r).
  assert (Hl : forall l p, has (pf_flags (len_word l p)) f = has (pf_flags p) f || has (len_bits l) f).
  { intros l p. destruct l; cbn [len_word len_bits pf_or pf_flags]; rewrite ?has_lor by done; rewrite ?orb_assoc; done || apply H0. }
  assert (Hp : forall l p, has (pf_flags (prec_word_of l p)) f = has (pf_flags p) f || has (prec_bits l) f).
  { intros l p. destruct l; cbn [prec_word_of prec_bits pf_or pf_set_precision pf_flags]; rewrite ?has_lor by done; done || apply H0. }
  assert (Hw : forall l p, has (pf_flags (width_word_of l p)) f = has (pf_flags p) f || has (width_bits l) f).
  { intros l p. destruct l; cbn [width_word_of width_bits pf_or pf_set_width pf_flags]; rewrite ?has_lor by done; done || apply H0. }
  by rewrite Hl, Hp, Hw.
Qed.

(** The flags that the output depends on. *)
Definition out_flags : list Z :=
  [FLAGS_SPACE; FLAGS_SHOWSIGN; FLAGS_LEFT; FLAGS_ALT; FLAGS_PAD_NIL; FLAGS_SHORT; FLAGS_LONG; FLAGS_LONGLONG;
   FLAGS_UNSIGNED; FLAGS_OCTAL; FLAGS_HEX; FLAGS_UPPER; FLAGS_CHAR].

Definition same_flags (a b : Z) : Prop := forall f, f ∈ out_flags -> has a f = has b f.

#[local] Instance same_flags_equiv : Equivalence same_flags.
Proof. split; [intros a f Hf; done|intros a b H f Hf; by rewrite H|intros a b c H1 H2 f Hf; by rewrite H1, H2]. Qed.

Lemma has_bits b x l f : flag_bit f -> has (bits ((b, x) :: l)) f = (b && has x f) || has (bits l) f.
Proof.
  intros Hf. unfold bits at 1. cbn [foldr]. fold (bits l). rewrite has_lor by done. f_equal. by destruct b.
Qed.

Lemma spec_final_flags c : same_flags (spec_final c) (spec_flags c false).
Proof.
  assert (Hw : forall f, f ∈ out_flags -> has (width_bits (sp_width c)) f = false).
  { intros f Hf. repeat (apply elem_of_cons in Hf as [->|Hf]; [by destruct (sp_width c)|]). by apply elem_of_nil in Hf. }
  assert (Hp : forall f, f ∈ out_flags -> has (prec_bits (sp_prec c)) f = false).
  { intros f Hf. repeat (apply elem_of_cons in Hf as [->|Hf]; [by destruct (sp_prec c)|]). by apply elem_of_nil in Hf. }
  assert (H0 : forall f, has (pf_flags (mk_pf 0 0 0)) f = false) by done.
  intros f Hf. pose proof (Hw f Hf) as Hwf. pose proof (Hp f Hf) as Hpf. clear Hw Hp. unfold spec_flags, flag_in.
  repeat (apply elem_of_cons in Hf as [->|Hf]; [
    rewrite spec_final_has, Hwf, Hpf by is_flag_bit; repeat (rewrite has_bits by is_flag_bit); has_const;
    rewrite ?andb_true_r, ?andb_false_r, ?orb_false_r, ?orb_false_l;
    first [rewrite (fold_flag _ F_space) by auto | rewrite (fold_flag _ F_plus) by auto
          | rewrite (fold_flag _ F_minus) by auto 6 | rewrite (fold_flag _ F_alt) by auto 8
          | rewrite fold_pad_nil | rewrite fold_other by (by_compute)];
    rewrite ?H0; clear;
    repeat match goal with |- context [bool_decide (?g ∈ sp_flags c)] => destruct (bool_decide (g ∈ sp_flags c)) end;
    destruct (sp_len c), (sp_conv c); vm_compute; reflexivity|]).
  by apply elem_of_nil in Hf.
Qed.

(** A negative width asks for the left. *)
Lemma spec_flags_left c w : same_flags w (spec_flags c false) ->
  same_flags (without (Z.lor w FLAGS_LEFT) FLAGS_PAD_NIL) (spec_flags c true).
Proof.
  intros H f Hf. pose proof (H f Hf) as Hw. revert Hw. unfold spec_flags.
  repeat (apply elem_of_cons in Hf as [->|Hf]; [
    flag_bits; intros Hw; rewrite ?Hw; repeat (rewrite has_bits by is_flag_bit); has_const;
    rewrite ?andb_true_r, ?andb_false_r, ?orb_false_r, ?orb_false_l, ?orb_true_r; cbn;
    rewrite ?andb_true_r, ?andb_false_r, ?orb_false_r, ?orb_true_r; done|]).
  by apply elem_of_nil in Hf.
Qed.

Lemma same_flags_lor a b x : same_flags a b -> same_flags (Z.lor a x) (Z.lor b x).
Proof.
  intros H f Hf. rewrite !has_lor by (revert Hf; clear; intros Hf;
    repeat (apply elem_of_cons in Hf as [->|Hf]; [is_flag_bit|]); by apply elem_of_nil in Hf). by rewrite (H f Hf).
Qed.

Lemma ev_number_same w n a b num nums : same_flags a b ->
  ev_number (mk_prop w n a) num nums = ev_number (mk_prop w n b) num nums.
Proof.
  intros H. unfold ev_number, num_ok, char_text, num_text, num_fits, num_pad, num_lead, num_digits, num_len, num_base, num_neg. cbn [p_width p_prec p_flags].
  rewrite !(H FLAGS_CHAR), !(H FLAGS_LEFT), !(H FLAGS_OCTAL), !(H FLAGS_HEX), !(H FLAGS_UNSIGNED), !(H FLAGS_SHOWSIGN),
    !(H FLAGS_SPACE), !(H FLAGS_ALT), !(H FLAGS_UPPER), !(H FLAGS_PAD_NIL) by by_compute. done.
Qed.

Lemma ev_value_same c_snprintf w n a b t v : same_flags a b -> t <> MTYPE_DOUBLE ->
  ev_value c_snprintf (mk_prop w n a) t v = ev_value (fun _ _ => []) (mk_prop w n b) t v.
Proof.
  intros H Ht. unfold ev_value. cbn [p_width p_prec p_flags].
  destruct t, v; try done; try (by apply ev_number_same); try (by apply ev_number_same, same_flags_lor).
  - unfold str_text. rewrite !(H FLAGS_ALT), !(H FLAGS_LEFT) by by_compute. done.
  - unfold nilptr_text. rewrite !(H FLAGS_LEFT) by by_compute.
    case_if; [done|]. by apply ev_number_same, same_flags_lor.
  - rewrite !(H FLAGS_LONGLONG), !(H FLAGS_LONG), !(H FLAGS_SHORT) by by_compute. done.
Qed.

(** * A conversion is parsed *)

Lemma conv_char_nondigit c rest : nondigit (deref (conv_char c :: rest)).
Proof. by destruct c. Qed.

Lemma len_text_nondigit l rest : nondigit (deref rest) -> nondigit (deref (len_text l ++ rest)).
Proof. by destruct l. Qed.

Lemma prec_text_nondigit w rest : nondigit (deref rest) -> nondigit (deref (prec_text w ++ rest)).
Proof. by destruct w. Qed.

Lemma width_fits w rest : (forall n, w = P_num n -> 1 <= n <= INT_MAX) -> nondigit (deref rest) ->
  run_fits (width_text w ++ rest).
Proof.
  intros Hw Hr. unfold run_fits. destruct w as [|n|]; cbn [width_text app].
  - destruct rest as [|c r]; cbn [digit_span]; [by unfold INT_MAX|]. unfold nondigit in Hr. cbn [deref] in Hr. by rewrite Hr.
  - specialize (Hw n eq_refl). destruct (dec_spec n) as (Hd & Hv & _); [unfold SIZE_MAX, INT_MAX in *; lia|].
    rewrite digit_span_exact by done. cbn [fst]. lia.
  - by unfold INT_MAX.
Qed.

Definition spec_ok (c : pspec) : Prop :=
  (forall n, sp_width c = P_num n -> 1 <= n <= INT_MAX) /\ (forall n, sp_prec c = P_num n -> 0 <= n <= INT_MAX).

Lemma piece_ok_spec c : piece_ok (Conv c) = true -> spec_ok c.
Proof.
  unfold piece_ok. intros H. zb_hyps. split; intros n E; rewrite E in *; zb_hyps; lia.
Qed.

Lemma parse_spec c rest : spec_ok c ->
  parse_flags (spec_text c ++ rest) DOLLAR_NOPE = Some (PFMT_OK, spec_word c, conv_char (sp_conv c) :: rest).
Proof.
  intros [Hw Hp]. unfold spec_text. rewrite <- !app_assoc. cbn [app].
  set (T4 := conv_char (sp_conv c) :: rest). assert (H4 : nondigit (deref T4)) by apply conv_char_nondigit.
  set (T3 := len_text (sp_len c) ++ T4). assert (H3 : nondigit (deref T3)) by by apply len_text_nondigit.
  set (T2 := prec_text (sp_prec c) ++ T3). assert (H2 : nondigit (deref T2)) by by apply prec_text_nondigit.
  set (p1 := fold_left flag_word (sp_flags c) (mk_pf 0 0 0)).
  assert (Hno : forall x, x ∈ [FLAGS_LONG; FLAGS_PREC; FLAGS_PRECPARAM] -> has (pf_flags p1) x = false).
  { intros x Hx. unfold p1. rewrite fold_other; [by unfold has|].
    repeat (apply elem_of_cons in Hx as [->|Hx]; [by_compute|]). by apply elem_of_nil in Hx. }
  assert (Hno2 : forall x, x ∈ [FLAGS_LONG; FLAGS_PREC; FLAGS_PRECPARAM] -> has (pf_flags (width_word_of (sp_width c) p1)) x = false).
  { intros x Hx. specialize (Hno x Hx). destruct (sp_width c); cbn [width_word_of pf_set_width pf_or pf_flags]; [done|..];
      repeat (apply elem_of_cons in Hx as [->|Hx]; [flag_bits; done|]); by apply elem_of_nil in Hx. }
  assert (Hno3 : has (pf_flags (prec_word_of (sp_prec c) (width_word_of (sp_width c) p1))) FLAGS_LONG = false).
  { specialize (Hno2 FLAGS_LONG ltac:(by_compute)). destruct (sp_prec c); cbn [prec_word_of pf_set_precision pf_or pf_flags]; [done|..];
      flag_bits; done. }
  pose proof (flags_run (sp_flags c) _ (mk_pf 0 0 0) (width_fits (sp_width c) T2 Hw H2)) as R1. fold p1 in R1.
  pose proof (width_run (sp_width c) T2 p1 Hw H2) as R2.
  pose proof (prec_run (sp_prec c) T3 _ Hp H3 (Hno2 FLAGS_PREC ltac:(by_compute)) (Hno2 FLAGS_PRECPARAM ltac:(by_compute))) as R3.
  pose proof (len_run (sp_len c) T4 _ Hno3) as R4.
  destruct (flags_to_trans _ _ _ _ _ _ R1 (flags_to_trans _ _ _ _ _ _ R2 (flags_to_trans _ _ _ _ _ _ R3 R4)) pf_start_ok) as [_ E].
  unfold parse_flags. unfold flags_of in E. rewrite E. fold (spec_word c). cbn [length flags_loop T4].
  by destruct (sp_conv c).
Qed.

Lemma parse_conv c : parse_conversion (conv_char (sp_conv c)) (pf_flags (spec_word c)) = Some (spec_final c, spec_type c).
Proof.
  assert (Hl : forall x, x ∈ [FLAGS_LONG; FLAGS_LONGLONG] -> has (pf_flags (spec_word c)) x = has (spec_flags c false) x).
  { intros x Hx. rewrite <- spec_final_flags by (repeat (apply elem_of_cons in Hx as [->|Hx]; [by_compute|]); by apply elem_of_nil in Hx).
    unfold spec_final. repeat (apply elem_of_cons in Hx as [->|Hx]; [
      rewrite has_lor by is_flag_bit; by destruct (sp_conv c); has_const; rewrite ?orb_false_r|]). by apply elem_of_nil in Hx. }
  assert (HL : has (pf_flags (spec_word c)) FLAGS_LONG = bool_decide (sp_len c ∈ [L_l; L_ll; L_z; L_O])).
  { rewrite Hl by by_compute. unfold spec_flags. repeat (rewrite has_bits by is_flag_bit). has_const.
    by rewrite ?andb_false_r, ?andb_true_r, ?orb_false_r, ?orb_false_l. }
  assert (HLL : has (pf_flags (spec_word c)) FLAGS_LONGLONG = bool_decide (sp_len c ∈ [L_ll; L_q])).
  { rewrite Hl by by_compute. unfold spec_flags. repeat (rewrite has_bits by is_flag_bit). has_const.
    by rewrite ?andb_false_r, ?andb_true_r, ?orb_false_r, ?orb_false_l. }
  unfold parse_conversion, spec_final, spec_type. rewrite HL, HLL. clear.
  destruct (sp_conv c), (sp_len c); reflexivity.
Qed.

(** ** No parameter numbers *)

Lemma spec_text_chars c : spec_ok c -> Forall (fun x => x <> 36 /\ x <> 37) (spec_text c).
Proof.
  intros [Hw Hp]. unfold spec_text.
  assert (Hdec : forall n, 0 <= n <= INT_MAX -> Forall (fun x => x <> 36 /\ x <> 37) (dec n)).
  { intros n Hn. destruct (dec_spec n) as (Hd & _); [unfold SIZE_MAX, INT_MAX in *; lia|].
    eapply Forall_impl; [exact Hd|]. intros x Hx. split; intros ->; done. }
  rewrite !Forall_app. split; [|split; [|split; [|split]]].
  - apply Forall_map. apply Forall_true. by intros [].
  - destruct (sp_width c) as [|n|]; [constructor|apply Hdec; specialize (Hw n eq_refl); lia|by repeat constructor].
  - destruct (sp_prec c) as [|n|]; [constructor|constructor; [done|apply Hdec; by apply Hp]|by repeat constructor].
  - destruct (sp_len c); by repeat constructor.
  - by destruct (sp_conv c); repeat constructor.
Qed.

(** A text with a byte that is no digit, and no dollar sign before it. *)
Lemma no_dollarstring t x rest : nondigit x -> Forall (fun x => x <> 36) (t ++ [x]) ->
  dollarstring (t ++ x :: rest) = Some (-1, t ++ x :: rest).
Proof.
  intros Hx Ht. unfold dollarstring, curlx_str_number.
  rewrite str_num_base_spec by (unfold MAX_PARAMETERS, CURL_OFF_T_MAX; lia || auto).
  assert (Hspan : forall ds r, digit_span (max_digit 10) (t ++ x :: rest) = (ds, r) -> deref r <> 36).
  { clear -Hx Ht. induction t as [|c t IH]; cbn [app digit_span]; intros ds r E.
    - unfold nondigit in Hx. rewrite Hx in E. injection E as <- <-. cbn [deref]. by apply Forall_cons in Ht as [Ht _].
    - cbn [app] in Ht. apply Forall_cons in Ht as [Hc Ht]. destruct (valid_digit c (max_digit 10)).
      + destruct (digit_span (max_digit 10) (t ++ x :: rest)) as [ds' r'] eqn:E'. injection E as <- <-. by eapply IH.
      + by injection E as <- <-. }
  destruct (digit_span (max_digit 10) (t ++ x :: rest)) as [ds r] eqn:E. specialize (Hspan ds r eq_refl).
  destruct ds as [|d ds]; [done|]. case_if; [|done]. cbn [mbind option_bind]. unfold curlx_str_single.
  by rewrite (proj2 (Z.eqb_neq (deref r) 36)).
Qed.

Lemma spec_dollarstring c rest : spec_ok c -> dollarstring (spec_text c ++ rest) = Some (-1, spec_text c ++ rest).
Proof.
  intros Hok. assert (Hd : Forall (fun x => x <> 36) (spec_text c)).
  { eapply Forall_impl; [by apply spec_text_chars|]. by intros x [? _]. }
  unfold spec_text in *.
  rewrite !app_assoc in *. rewrite <- (app_assoc _ [conv_char (sp_conv c)] rest). cbn [app].
  apply no_dollarstring; [|exact Hd]. by destruct (sp_conv c).
Qed.

(** * The state of the parser *)

(** The inputs got the types [ts] in their order. *)
Record seq_state (s : pstate) (ts : list FormatType) : Prop := {
  sq_dollar : use_dollar s <> DOLLAR_USE;
  sq_num : param_num s = zlen ts;
  sq_max : max_param s = zlen ts - 1;
  sq_used : length (usedinput s) = 16%nat;
  sq_inp : length (inp s) = 128%nat;
  sq_marks : forall i, 0 <= i < 128 -> marked (usedinput s) i = (i <? zlen ts);
  sq_types : forall i t, ts !! i = Some t -> inp s !! i = Some (Some t);
}.

Lemma seq_input s ts t : seq_state s ts -> zlen ts < 128 -> exists s',
  set_input (zlen ts) t (next_param s) = Some s' /\ seq_state s' (ts ++ [t]) /\ out s' = out s /\ use_dollar s' = use_dollar s.
Proof.
  intros [Hd Hn Hm Hu Hi Hk Ht] Hl. pose proof (zlen_nonneg ts) as H0. unfold set_input. cbn [inp next_param usedinput max_param].
  assert (Hz : zlen (inp s) = 128) by (unfold zlen; lia).
  rewrite Hz, (proj2 (Z.leb_le _ _)), (proj2 (Z.ltb_lt _ _)) by lia. cbn [andb].
  destruct (mark_arg_used_spec (usedinput s) (zlen ts) Hu ltac:(lia)) as (x & -> & Hx & Hmark). cbn [mbind option_bind].
  eexists. split; [done|]. split; [|done].
  constructor; cbn [use_dollar param_num max_param usedinput inp next_param]; try done.
  - rewrite zlen_snoc. lia.
  - rewrite zlen_snoc, Hm, Z.geb_leb, (proj2 (Z.leb_le _ _)) by lia. lia.
  - by rewrite length_insert.
  - intros i Hi'. rewrite Hmark, Hk by done. rewrite zlen_snoc.
    apply Bool.eq_iff_eq_true. rewrite orb_true_iff, Z.eqb_eq, !Z.ltb_lt. lia.
  - intros i t' Hlk. apply lookup_app_Some in Hlk as [Hlk|[Hge Hlk]].
    + pose proof (lookup_lt_Some _ _ _ Hlk). rewrite list_lookup_insert_ne by (unfold zlen; lia). by apply Ht.
    + destruct (i - length ts)%nat eqn:Ei; [|done]. injection Hlk as <-.
      replace (Z.to_nat (zlen ts)) with i by (unfold zlen; lia). apply list_lookup_insert_eq. unfold zlen in Hl. lia.
Qed.

Lemma seq_star s ts t twice : seq_state s ts -> zlen ts < 128 -> exists s',
  star_input (-1) t twice s = Some (PFMT_OK, zlen ts, s') /\ seq_state s' (ts ++ [t]) /\ out s' = out s.
Proof.
  intros Hs Hl. destruct (seq_input s ts t Hs Hl) as (s' & E & Hs' & Ho & _). exists s'. split; [|done].
  unfold star_input. cbn [Z.ltb Z.compare mbind option_bind]. rewrite (sq_num _ _ Hs).
  unfold MAX_PARAMETERS. rewrite Z.geb_leb, (proj2 (Z.leb_gt _ _)), E by lia. done.
Qed.

(** The segment of a conversion whose inputs start at [k]. *)
Definition spec_segment (c : pspec) (k : Z) (start : list Z) (outlen : Z) : outsegment :=
  let kp := k + match sp_width c with P_star => 1 | _ => 0 end in
  let kv := kp + match sp_prec c with P_star => 1 | _ => 0 end in
  mk_seg (match sp_width c with P_star => k | _ => pf_width (spec_word c) end)
    (match sp_prec c with P_star => kp | _ => pf_precision (spec_word c) end) (spec_final c) kv start outlen.

Lemma spec_final_params c : has (spec_final c) FLAGS_WIDTHPARAM = match sp_width c with P_star => true | _ => false end /\
  has (spec_final c) FLAGS_PRECPARAM = match sp_prec c with P_star => true | _ => false end /\
  has (spec_final c) FLAGS_PREC = match sp_prec c with P_num _ => true | _ => false end /\
  has (spec_final c) FLAGS_SUBSTR = false.
Proof.
  rewrite !spec_final_has by is_flag_bit. rewrite !fold_other by by_compute.
  assert (Hsub : forall fl p, has (pf_flags (fold_left flag_word fl p)) FLAGS_SUBSTR = has (pf_flags p) FLAGS_SUBSTR).
  { induction fl as [|g fl IH]; intros p; [done|]. cbn [fold_left]. rewrite IH.
    destruct g; cbn [flag_word pf_or pf_set_width pf_flags]; try (destruct (negb _); cbn [pf_or pf_flags]); by flag_bits. }
  rewrite Hsub. destruct (sp_width c), (sp_prec c), (sp_len c), (sp_conv c); done.
Qed.

Lemma spec_word_star c : (sp_width c = P_star -> pf_width (spec_word c) = -1) /\
  (sp_prec c = P_star -> pf_precision (spec_word c) = -1).
Proof. unfold spec_word. split; intros E; rewrite E; destruct (sp_len c), (sp_prec c), (sp_width c); done. Qed.

Lemma directive_spec c rest start outlen s ts : spec_ok c -> seq_state s ts ->
  zlen ts + zlen (spec_types c) <= 128 -> zlen (out s) < 128 ->
  exists s', directive (spec_text c ++ rest) start outlen s = Some (PFMT_OK, s', rest, rest) /\
    seq_state s' (ts ++ spec_types c) /\ out s' = out s ++ [spec_segment c (zlen ts) start outlen].
Proof.
  intros Hok Hs Hl Ho. unfold directive.
  assert (Hdol : exists s1, dollar_param (spec_text c ++ rest) s = Some (PFMT_OK, -1, spec_text c ++ rest, s1) /\
    use_dollar s1 = DOLLAR_NOPE /\ seq_state s1 ts /\ out s1 = out s).
  { unfold dollar_param. case_bool_decide as Ed; [by exists s|]. rewrite spec_dollarstring by done. cbn [mbind option_bind].
    cbn [Z.ltb Z.compare]. rewrite bool_decide_eq_false_2 by apply (sq_dollar _ _ Hs).
    eexists. split; [done|]. split; [done|]. split; [|done]. by destruct Hs; constructor. }
  destruct Hdol as (s1 & -> & Ed & Hs1 & Ho1). cbn [mbind option_bind]. rewrite Ed, parse_spec by done.
  cbn [mbind option_bind deref]. rewrite parse_conv.
  destruct (spec_final_params c) as (HW & HP & _ & _). rewrite HW, HP. destruct (spec_word_star c) as [HWs HPs].
  assert (Hlen : zlen ts + match sp_width c with P_star => 1 | _ => 0 end + match sp_prec c with P_star => 1 | _ => 0 end + 1 <= 128 /\
    0 <= match sp_width c with P_star => 1 | _ => 0 end /\ 0 <= match sp_prec c with P_star => 1 | _ => 0 end).
  { unfold spec_types in Hl. rewrite !zlen_app in Hl. unfold zlen at 2 3 4 in Hl. by destruct (sp_width c), (sp_prec c); cbn [length] in Hl; lia. }
  clear Hl. unfold spec_types, spec_segment.
  assert (Hw : exists s2, (if match sp_width c with P_star => true | _ => false end
      then star_input (pf_width (spec_word c)) MTYPE_WIDTH PFMT_WIDTHARG s1 else Some (PFMT_OK, pf_width (spec_word c), s1)) =
    Some (PFMT_OK, match sp_width c with P_star => zlen ts | _ => pf_width (spec_word c) end, s2) /\
    seq_state s2 (ts ++ match sp_width c with P_star => [MTYPE_WIDTH] | _ => [] end) /\ out s2 = out s1).
  { destruct (sp_width c); try (exists s1; rewrite app_nil_r; done). rewrite HWs by done.
    apply seq_star; [done|lia]. }
  destruct Hw as (s2 & -> & Hs2 & Ho2). cbn [mbind option_bind].
  set (ts2 := ts ++ match sp_width c with P_star => [MTYPE_WIDTH] | _ => [] end) in *.
  assert (Hl2 : zlen ts2 = zlen ts + match sp_width c with P_star => 1 | _ => 0 end).
  { unfold ts2. rewrite zlen_app. by destruct (sp_width c). }
  assert (Hp : exists s3, (if match sp_prec c with P_star => true | _ => false end
      then star_input (pf_precision (spec_word c)) MTYPE_PRECISION PFMT_PRECARG s2 else Some (PFMT_OK, pf_precision (spec_word c), s2)) =
    Some (PFMT_OK, match sp_prec c with P_star => zlen ts2 | _ => pf_precision (spec_word c) end, s3) /\
    seq_state s3 (ts2 ++ match sp_prec c with P_star => [MTYPE_PRECISION] | _ => [] end) /\ out s3 = out s2).
  { destruct (sp_prec c); try (exists s2; rewrite app_nil_r; done). rewrite HPs by done.
    apply seq_star; [done|lia]. }
  destruct Hp as (s3 & -> & Hs3 & Ho3). cbn [mbind option_bind].
  set (ts3 := ts2 ++ match sp_prec c with P_star => [MTYPE_PRECISION] | _ => [] end) in *.
  assert (Hl3 : zlen ts3 = zlen ts2 + match sp_prec c with P_star => 1 | _ => 0 end).
  { unfold ts3. rewrite zlen_app. by destruct (sp_prec c). }
  assert (Hlt : zlen ts3 < 128) by lia.
  cbn [Z.ltb Z.compare]. rewrite (sq_num _ _ Hs3). unfold MAX_PARAMETERS. rewrite Z.geb_leb, (proj2 (Z.leb_gt _ _)) by lia.
  destruct (seq_input s3 ts3 (spec_type c) Hs3 Hlt) as (s4 & -> & Hs4 & Ho4 & _). cbn [mbind option_bind drop].
  unfold add_segment, MAX_SEGMENTS. rewrite Ho4, Ho3, Ho2, Ho1, Z.gtb_ltb, (proj2 (Z.ltb_ge _ _)) by lia.
  eexists. split; [done|]. cbn [out]. rewrite Hl3, Hl2. split; [|done].
  unfold ts3, ts2 in Hs4. rewrite <- !app_assoc in Hs4. by destruct Hs4; constructor.
Qed.

(** * The segments produce the output *)

Definition lit_ok (l : list Z) : Prop := Forall (fun c => c <> 0) l.

Lemma literal_text l T : lit_ok l -> ztake (zlen l) (ctext (l ++ T)) = l.
Proof.
  intros H. assert (E : ctext (l ++ T) = l ++ ctext T).
  { induction H as [|c l Hc _ IH]; [done|]. cbn [app ctext]. by rewrite (proj2 (Z.eqb_neq _ _) Hc), IH. }
  rewrite E. apply ztake_app_exact.
Qed.

Lemma lookup_behind {A} (l k : list A) (i : nat) : (l ++ k) !! Z.to_nat (zlen l + Z.of_nat i) = k !! i.
Proof. rewrite lookup_app_r by (unfold zlen; lia). f_equal. unfold zlen. lia. Qed.

Section Segments.
Context (c_snprintf : list Z -> spec_float -> list Z).

Lemma spec_type_not_double c : spec_type c <> MTYPE_DOUBLE.
Proof. unfold spec_type. by destruct (sp_conv c), (sp_len c). Qed.

(** The properties of a segment from its width and precision. *)
Lemma seg_prop_spec c k start outlen input w prec : spec_ok c ->
  match sp_width c with
  | P_none => w = 0 | P_num n => w = n
  | P_star => exists tv, input !! Z.to_nat k = Some tv /\ val_int (snd tv) = Some w /\ - INT_MAX - 1 <= w <= INT_MAX
  end ->
  match sp_prec c with
  | P_none => prec = -1 | P_num n => prec = n
  | P_star => exists tv, input !! Z.to_nat (k + match sp_width c with P_star => 1 | _ => 0 end) = Some tv /\ val_int (snd tv) = Some prec
  end ->
  exists f, seg_prop input (spec_segment c k start outlen) =
    Some (mk_prop (Z.min (Z.abs w) INT_MAX) (if prec <? 0 then -1 else prec) f) /\ same_flags f (spec_flags c (w <? 0)).
Proof.
  intros [Hokw Hokp] Hw Hp. destruct (spec_final_params c) as (HW & HP & HPN & _).
  unfold seg_prop, spec_segment. cbn [seg_flags seg_width seg_precision]. rewrite HW.
  set (kp := k + match sp_width c with P_star => 1 | _ => 0 end) in *. clearbody kp.
  assert (Hsw : sp_width c <> P_star -> pf_width (spec_word c) = w).
  { unfold spec_word. intros Hns.
    assert (Hlw : forall p, pf_width (len_word (sp_len c) (prec_word_of (sp_prec c) p)) = pf_width p) by (intros p; by destruct (sp_len c), (sp_prec c)).
    rewrite Hlw. assert (Hfl : forall fl p, pf_width p = 0 -> pf_width (fold_left flag_word fl p) = 0).
    { induction fl as [|g fl IH]; intros p Hp0; [done|]. apply IH. by destruct g. }
    destruct (sp_width c); cbn [width_word_of pf_set_width pf_width]; [rewrite Hfl by done|..]; done. }
  assert (Hsp : sp_prec c <> P_star -> match sp_prec c with P_num _ => pf_precision (spec_word c) = prec | _ => True end).
  { unfold spec_word. intros Hns. destruct (sp_prec c); try done. subst. by destruct (sp_len c). }
  assert (Hprec : forall f, has f FLAGS_PRECPARAM = has (spec_final c) FLAGS_PRECPARAM -> has f FLAGS_PREC = has (spec_final c) FLAGS_PREC ->
    (if has f FLAGS_PRECPARAM then
       v ← input !! Z.to_nat (match sp_prec c with P_star => kp | _ => pf_precision (spec_word c) end);
       n ← val_int (snd v); Some (if n <? 0 then -1 else n)
     else if has f FLAGS_PREC
       then Some (match sp_prec c with P_star => kp | _ => pf_precision (spec_word c) end)
       else Some (-1)) = Some (if prec <? 0 then -1 else prec)).
  { intros f -> ->. rewrite HP, HPN. destruct (sp_prec c) as [|n|] eqn:Epr.
    - by subst.
    - rewrite (Hsp ltac:(done)). specialize (Hokp n eq_refl). subst. by rewrite (proj2 (Z.ltb_ge n 0)) by lia.
    - destruct Hp as (tv & -> & Hv). cbn [mbind option_bind]. by rewrite Hv. }
  destruct (sp_width c) as [|n|] eqn:Ew.
  - rewrite (Hsw ltac:(done)) in *. subst w. cbn [mbind option_bind]. rewrite Hprec by done. cbn [mbind option_bind]. eexists. split; [done|]. apply spec_final_flags.
  - rewrite (Hsw ltac:(done)) in *. subst w. specialize (Hokw n eq_refl). cbn [mbind option_bind]. rewrite Hprec by done. cbn [mbind option_bind].
    rewrite Z.abs_eq, Z.min_l, (proj2 (Z.ltb_ge n 0)) by lia. eexists. split; [done|]. apply spec_final_flags.
  - destruct Hw as (tv & -> & Hv & Hr). cbn [mbind option_bind]. rewrite Hv. cbn [mbind option_bind].
    destruct (Z.ltb_spec w 0) as [Hneg|Hpos]; cbn [mbind option_bind].
    + rewrite Hprec by (flag_bits; done). cbn [mbind option_bind]. eexists. split; [|apply spec_flags_left, spec_final_flags].
      do 2 f_equal. unfold INT_MIN, INT_MAX in *. case_if; lia.
    + rewrite Hprec by done. cbn [mbind option_bind]. eexists. split; [|apply spec_final_flags].
      do 2 f_equal. lia.
Qed.

Lemma val_int_range v w : val_int v = Some w -> - INT_MAX - 1 <= w <= INT_MAX.
Proof. unfold val_int, INT_MAX. destruct v; try done; intros [= <-]; pose proof (Z.mod_pos_bound (n + 2 ^ 31) (2 ^ 32)); lia. Qed.

Lemma segment_events c vs l I0 I1 lit T : spec_ok c -> lit_ok lit -> length vs = length (spec_types c) ->
  spec_events c vs = Some l ->
  ev_segment c_snprintf (I0 ++ zip (spec_types c) vs ++ I1) (spec_segment c (zlen I0) (lit ++ T) (zlen lit)) =
  Some (ev_bytes lit ++ l).
Proof.
  intros Hok Hlit Hlen He. unfold ev_segment. cbn [seg_outlen seg_start seg_flags spec_segment].
  rewrite literal_text by done. destruct (spec_final_params c) as (_ & _ & _ & ->). rewrite andb_false_r.
  fold (spec_segment c (zlen I0) (lit ++ T) (zlen lit)).
  unfold spec_events, spec_with, take_size in He. unfold spec_types in *.
  set (input := I0 ++ zip _ vs ++ I1).
  assert (Hseg : exists w prec v, 
    match sp_width c with
    | P_none => w = 0 | P_num n => w = n
    | P_star => exists tv, input !! Z.to_nat (zlen I0) = Some tv /\ val_int (snd tv) = Some w /\ - INT_MAX - 1 <= w <= INT_MAX
    end /\
    match sp_prec c with
    | P_none => prec = -1 | P_num n => prec = n
    | P_star => exists tv, input !! Z.to_nat (zlen I0 + match sp_width c with P_star => 1 | _ => 0 end) = Some tv /\ val_int (snd tv) = Some prec
    end /\
    input !! Z.to_nat (seg_input (spec_segment c (zlen I0) (lit ++ T) (zlen lit))) = Some (spec_type c, v) /\
    conv_events c w prec v = Some l).
  { unfold spec_segment. cbn [seg_input]. unfold input. clear input.
    assert (Hat : forall L i x j, L !! i = Some x -> j = zlen I0 + Z.of_nat i -> (I0 ++ L) !! Z.to_nat j = Some x).
    { intros L i x j Hx ->. by rewrite lookup_behind. }
    destruct (sp_width c) as [|n|], (sp_prec c) as [|m|]; cbn [app length] in Hlen;
      do 3 (try (destruct vs as [|? vs]; try done)); cbn [app zip zip_with] in *; cbn [mbind option_bind] in He;
      repeat match type of He with context [val_int ?v] => destruct (val_int v) eqn:?; cbn [mbind option_bind] in He; [|done] end;
      cbn [head mbind option_bind] in He;
      do 3 eexists; (split; [|split; [|split; [|exact He]]]); try done;
      try (eexists; split; [eapply (Hat _ 0%nat); [reflexivity|lia]|split; [done|by eapply val_int_range]]);
      try (eexists; split; [eapply (Hat _ 0%nat); [reflexivity|lia]|done]);
      try (eexists; split; [eapply (Hat _ 1%nat); [reflexivity|lia]|done]);
      try (eapply (Hat _ 0%nat); [reflexivity|lia]); try (eapply (Hat _ 1%nat); [reflexivity|lia]);
      try (eapply (Hat _ 2%nat); [reflexivity|lia]). }
  destruct Hseg as (w & prec & v & Hw & Hp & Hin & Hev).
  destruct (seg_prop_spec c (zlen I0) (lit ++ T) (zlen lit) input w prec Hok Hw Hp) as (f & -> & Hf).
  cbn [mbind option_bind]. rewrite Hin. cbn [mbind option_bind].
  rewrite (ev_value_same c_snprintf _ _ _ _ _ _ Hf (spec_type_not_double c)).
  unfold conv_events, conv_prop in Hev. by rewrite Hev.
Qed.

(** ** The inputs *)

Lemma fetch_all_app ts1 ts2 args vs1 vs2 : fetch_all ts1 args = Some vs1 ->
  fetch_all ts2 (drop (length ts1) args) = Some vs2 -> fetch_all (ts1 ++ ts2) args = Some (vs1 ++ vs2).
Proof.
  revert args vs1. induction ts1 as [|t ts1 IH]; intros args vs1 H1 H2; [by injection H1 as <-|].
  destruct args as [|a args]; [done|]. cbn [fetch_all app length drop] in *.
  destruct (va_fetch t a) as [v|]; [|done]. cbn [mbind option_bind] in *.
  destruct (fetch_all ts1 args) as [vs|] eqn:E; [|done]. injection H1 as <-. by rewrite (IH args vs E H2).
Qed.

Lemma fetch_all_length ts args vs : fetch_all ts args = Some vs -> length vs = length ts.
Proof.
  revert args vs. induction ts as [|t ts IH]; intros args vs H; [by injection H as <-|].
  destruct args as [|a args]; [done|]. cbn [fetch_all] in H. destruct (va_fetch t a) as [v|]; [|done]. cbn [mbind option_bind] in H.
  destruct (fetch_all ts args) as [vs'|] eqn:E; [|done]. injection H as <-. cbn [length]. f_equal. by eapply IH.
Qed.

Lemma read_inputs_seq s ts : seq_state s ts -> zlen ts <= 128 -> forall t2 t1 args vs, ts = t1 ++ t2 ->
  fetch_all t2 args = Some vs -> read_inputs (length t2) (zlen t1) (usedinput s) (inp s) args = Some (PFMT_OK, zip t2 vs).
Proof.
  intros Hs Hl. induction t2 as [|t t2 IH]; intros t1 args vs Ets Hf; [by injection Hf as <-|].
  destruct args as [|a args]; [done|]. cbn [fetch_all length read_inputs] in *.
  pose proof (zlen_nonneg t1). assert (Ht : zlen t1 < zlen ts) by (rewrite Ets, zlen_app, zlen_cons; zlen_pos; lia).
  rewrite is_arg_used_spec by (apply (sq_used _ _ Hs) || lia). cbn [mbind option_bind].
  rewrite (sq_marks _ _ Hs), (proj2 (Z.ltb_lt _ _)) by lia. cbn [negb].
  rewrite (sq_types _ _ Hs (Z.to_nat (zlen t1)) t). 2: { rewrite Ets. rewrite <- (Z.add_0_r (zlen t1)). by rewrite (lookup_behind t1 _ 0). }
  cbn [mbind option_bind]. destruct (va_fetch t a) as [v|]; [|done]. cbn [mbind option_bind] in *.
  destruct (fetch_all t2 args) as [vs'|] eqn:E; [|done]. injection Hf as <-.
  pose proof (IH (t1 ++ [t]) args vs' ltac:(by rewrite <- app_assoc) E) as Hr. rewrite zlen_snoc in Hr. by rewrite Hr.
Qed.

Lemma mapM_app_Some {A B} (f : A -> option B) l k l' k' :
  mapM f l = Some l' -> mapM f k = Some k' -> mapM f (l ++ k) = Some (l' ++ k').
Proof.
  revert l'. induction l as [|x l IH]; intros l' H1 H2; [by injection H1 as <-|]. cbn in *.
  destruct (f x); [|done]. cbn in *. destruct (mapM f l) as [m|]; [|done]. injection H1 as <-. by rewrite (IH m).
Qed.

(** ** The loop over the text of pieces *)

Lemma fmt_loop_literal l fuel rest start s : Forall (fun c => c <> 0 /\ c <> 37) l ->
  fmt_loop (length l + fuel) (l ++ rest) start s = fmt_loop fuel rest start s.
Proof.
  induction 1 as [|c l [Hc0 Hc] _ IH]; [done|]. cbn [length app Nat.add fmt_loop deref].
  rewrite (proj2 (Z.eqb_neq c 0)), (proj2 (Z.eqb_neq c 37)) by done. exact IH.
Qed.

Definition pieces_types (ps : list piece) : list FormatType := concat (map piece_types ps).

(** What the loop does with the text of pieces behind a literal. *)
Definition loop_post (ps : list piece) (lit : list Z) (s : pstate) (ts : list FormatType) (args : list va_arg)
    (evs : list event) (res : option (pfmt * pstate * list Z * list Z)) : Prop :=
  exists s' tail segs vs, res = Some (PFMT_OK, s', [], tail) /\ lit_ok tail /\
    seq_state s' (ts ++ pieces_types ps) /\ out s' = out s ++ segs /\ zlen segs <= zlen ps /\
    fetch_all (pieces_types ps) args = Some vs /\
    forall I0, zlen I0 = zlen ts -> exists evss,
      mapM (ev_segment c_snprintf (I0 ++ zip (pieces_types ps) vs)) segs = Some evss /\
      concat evss ++ ev_bytes tail = ev_bytes lit ++ evs.

Lemma text_segment_events input lit T : lit_ok lit -> lit <> [] ->
  ev_segment c_snprintf input (text_segment (lit ++ T) (zlen lit)) = Some (ev_bytes lit).
Proof.
  intros Hl Hne. unfold ev_segment, text_segment. cbn [seg_outlen seg_start seg_flags]. rewrite literal_text by done.
  destruct (Z.eqb_spec (zlen lit) 0) as [E|_]; [by apply zlen_0 in E|]. done.
Qed.

Lemma loop_percent ps lit s ts args evs fuel : seq_state s ts -> lit_ok lit -> zlen (out s) + zlen ps < 127 ->
  (forall s1, seq_state s1 ts -> zlen (out s1) <= zlen (out s) + 1 ->
     loop_post ps [37] s1 ts args evs (fmt_loop fuel (pieces_text ps) ([37] ++ pieces_text ps) s1)) ->
  loop_post (Percent :: ps) lit s ts args (ev_bytes [37] ++ evs)
    (fmt_loop (S fuel) (37 :: 37 :: pieces_text ps) (lit ++ 37 :: 37 :: pieces_text ps) s).
Proof.
  intros Hs Hl Ho IH. cbn [fmt_loop deref drop Z.eqb Pos.eqb]. rewrite ?drop_0.
  replace (zlen (lit ++ 37 :: 37 :: pieces_text ps) - zlen (37 :: pieces_text ps) - 1) with (zlen lit)
    by (rewrite zlen_app, !zlen_cons; lia).
  destruct (Z.eqb_spec (zlen lit) 0) as [E|E]; cbn [negb].
  - apply zlen_0 in E as ->. destruct (IH s Hs ltac:(lia)) as (s' & tail & segs & vs & E & H1 & H2 & H3 & H4 & H5 & H6).
    exists s', tail, segs, vs. split; [exact E|]. rewrite zlen_cons. by repeat (split; [done || lia|]).
  - unfold add_segment, MAX_SEGMENTS. rewrite Z.gtb_ltb, (proj2 (Z.ltb_ge _ _)) by (pose proof (zlen_nonneg ps); lia).
    set (s1 := mk_ps _ _ _ _ _ _).
    destruct (IH s1) as (s' & tail & segs & vs & E1 & H1 & H2 & H3 & H4 & H5 & H6).
    { by destruct Hs; constructor. }
    { cbn [out s1]. rewrite zlen_snoc. lia. }
    exists s', tail, (text_segment (lit ++ 37 :: 37 :: pieces_text ps) (zlen lit) :: segs), vs.
    split; [exact E1|]. split; [done|]. split; [done|]. split; [rewrite H3; cbn [out s1]; by rewrite <- app_assoc|].
    split; [rewrite !zlen_cons; lia|]. split; [done|]. intros I0 HI. destruct (H6 I0 HI) as (evss & Hm & Hc).
    exists (ev_bytes lit :: evss). change (pieces_types (Percent :: ps)) with (pieces_types ps).
    cbn [mapM]. rewrite text_segment_events by (done || by intros ->). cbn [mbind option_bind]. rewrite Hm. split; [done|].
    cbn [concat]. by rewrite <- app_assoc, Hc.
Qed.

Lemma loop_conv c ps lit s ts args vs1 l evs fuel : spec_ok c -> seq_state s ts -> lit_ok lit ->
  zlen (out s) + zlen ps < 127 -> zlen ts + zlen (spec_types c) <= 128 ->
  fetch_all (spec_types c) args = Some vs1 -> spec_events c vs1 = Some l ->
  (forall s1, seq_state s1 (ts ++ spec_types c) -> zlen (out s1) <= zlen (out s) + 1 ->
     loop_post ps [] s1 (ts ++ spec_types c) (drop (length (spec_types c)) args) evs (fmt_loop fuel (pieces_text ps) (pieces_text ps) s1)) ->
  loop_post (Conv c :: ps) lit s ts args (l ++ evs)
    (fmt_loop (S fuel) (37 :: spec_text c ++ pieces_text ps) (lit ++ 37 :: spec_text c ++ pieces_text ps) s).
Proof.
  intros Hok Hs Hl Ho Ht Hf He IH. cbn [fmt_loop deref drop Z.eqb Pos.eqb]. rewrite ?drop_0.
  replace (zlen (lit ++ 37 :: spec_text c ++ pieces_text ps) - zlen (spec_text c ++ pieces_text ps) - 1) with (zlen lit)
    by (rewrite zlen_app, zlen_cons; lia).
  assert (H37 : (deref (spec_text c ++ pieces_text ps) =? 37) = false).
  { apply Z.eqb_neq. pose proof (spec_text_chars c Hok) as Hc. destruct (spec_text c) as [|x t] eqn:Ex.
    - unfold spec_text in Ex. apply (f_equal length) in Ex. rewrite !length_app in Ex. cbn in Ex. lia.
    - apply Forall_cons in Hc as [[_ Hc] _]. exact Hc. }
  rewrite H37. pose proof (zlen_nonneg ps).
  destruct (directive_spec c (pieces_text ps) (lit ++ 37 :: spec_text c ++ pieces_text ps) (zlen lit) s ts Hok Hs Ht ltac:(lia))
    as (s1 & -> & Hs1 & Ho1). cbn [mbind option_bind].
  destruct (IH s1 Hs1) as (s' & tail & segs & vs & E & H1 & H2 & H3 & H4 & H5 & H6); [rewrite Ho1, zlen_snoc; lia|].
  exists s', tail, (spec_segment c (zlen ts) (lit ++ 37 :: spec_text c ++ pieces_text ps) (zlen lit) :: segs), (vs1 ++ vs).
  change (pieces_types (Conv c :: ps)) with (spec_types c ++ pieces_types ps).
  split; [exact E|]. split; [done|]. split; [by rewrite app_assoc|]. split; [rewrite H3, Ho1; by rewrite <- app_assoc|].
  split; [rewrite !zlen_cons; lia|]. split; [by apply fetch_all_app|]. intros I0 HI.
  pose proof (fetch_all_length _ _ _ Hf) as Hlen.
  assert (Hzip : zip (spec_types c ++ pieces_types ps) (vs1 ++ vs) = zip (spec_types c) vs1 ++ zip (pieces_types ps) vs).
  { by apply zip_with_app. }
  destruct (H6 (I0 ++ zip (spec_types c) vs1)) as (evss & Hm & Hc).
  { rewrite !zlen_app. unfold zlen in *. rewrite length_zip_with, Hlen. lia. }
  exists ((ev_bytes lit ++ l) :: evss). cbn [mapM]. rewrite Hzip, <- HI, (segment_events c vs1 l) by done. cbn [mbind option_bind].
  rewrite <- app_assoc in Hm. rewrite Hm. split; [done|]. cbn [concat]. rewrite <- !app_assoc. by rewrite Hc.
Qed.

Lemma loop_pieces ps : forall fuel lit s ts args evs, forallb piece_ok ps = true -> seq_state s ts -> lit_ok lit ->
  render ps args = Some evs -> zlen ts + zlen (pieces_types ps) <= 128 -> zlen (out s) + zlen ps < 128 ->
  (length (pieces_text ps) <= fuel)%nat ->
  loop_post ps lit s ts args evs (fmt_loop fuel (pieces_text ps) (lit ++ pieces_text ps) s).
Proof.
  induction ps as [|p ps IH]; intros fuel lit s ts args evs Hok Hs Hl Hr Ht Ho Hf.
  - injection Hr as <-. exists s, lit, [], []. cbn [pieces_text map concat].
    split; [by destruct fuel; rewrite ?app_nil_r|]. split; [done|]. rewrite app_nil_r. split; [done|]. rewrite app_nil_r.
    split; [done|]. split; [done|]. split; [done|]. intros I0 HI. exists []. cbn [mapM concat app]. by rewrite app_nil_r.
  - cbn [forallb] in Hok. apply andb_true_iff in Hok as [Hp Hok]. rewrite zlen_cons in Ho. pose proof (zlen_nonneg ps) as Hz1.
    change (pieces_text (p :: ps)) with (piece_text p ++ pieces_text ps) in *.
    change (pieces_types (p :: ps)) with (piece_types p ++ pieces_types ps) in *.
    rewrite length_app in Hf. rewrite zlen_app in Ht. pose proof (zlen_nonneg (piece_types p)) as Hz2.
    pose proof (zlen_nonneg (pieces_types ps)) as Hz3.
    destruct p as [l| |c]; cbn [piece_text piece_types render app] in *.
    + destruct (render ps args) as [r|] eqn:Er; [|done]. injection Hr as <-.
      assert (Hlok : Forall (fun c => c <> 0 /\ c <> 37) l).
      { apply Forall_forall. intros c Hc. cbn [piece_ok] in Hp. rewrite forallb_forall in Hp.
        apply list_elem_of_In in Hc. specialize (Hp c Hc). zb_hyps. done. }
      replace fuel with (length l + (fuel - length l))%nat by lia. rewrite fmt_loop_literal by done. rewrite app_assoc.
      destruct (IH (fuel - length l)%nat (lit ++ l) s ts args r) as (s' & tail & segs & vs & E & H1 & H2 & H3 & H4 & H5 & H6);
        try done; try lia.
      { apply Forall_app. split; [done|]. eapply Forall_impl; [exact Hlok|]. by intros c [? _]. }
      exists s', tail, segs, vs. rewrite zlen_cons. split; [exact E|]. repeat (split; [done || lia|]).
      intros I0 HI. destruct (H6 I0 HI) as (evss & Hm & Hc). exists evss. split; [done|]. by rewrite Hc, ev_bytes_app, <- app_assoc.
    + destruct (render ps args) as [r|] eqn:Er; [|done]. injection Hr as <-.
      cbn [length] in Hf. destruct fuel as [|fuel]; [lia|]. apply loop_percent; [done|done|lia|].
      intros s1 Hs1 Ho1. apply IH; try done; try lia. by constructor.
    + apply piece_ok_spec in Hp.
      destruct (fetch_all (spec_types c) args) as [vs1|] eqn:Ef; [|done]. cbn [mbind option_bind] in Hr.
      destruct (spec_events c vs1) as [l|] eqn:Ee; [|done]. cbn [mbind option_bind] in Hr.
      destruct (render ps _) as [r|] eqn:Er; [|done]. injection Hr as <-.
      cbn [length] in Hf. destruct fuel as [|fuel]; [lia|].
      eapply loop_conv; try done; try lia. intros s1 Hs1 Ho1.
      apply (IH fuel [] s1); try done; try lia; [by constructor|]. rewrite zlen_app. lia.
Qed.

Lemma start_seq : seq_state parse_start [].
Proof.
  constructor; try done. intros i Hi. unfold marked. cbn [usedinput parse_start].
  change (i <? zlen []) with (i <? 0). rewrite (proj2 (Z.ltb_ge i 0)), nth_lookup by lia.
  destruct (replicate 16 0 !! Z.to_nat (i / 8)) eqn:E; [apply lookup_replicate in E as [-> _]|]; apply Z.bits_0.
Qed.

(** The events of the text of pieces are what the pieces mean. *)
Lemma format_events_pieces ps args evs : forallb piece_ok ps = true -> zlen ps < 128 -> zlen (pieces_types ps) <= 128 ->
  render ps args = Some evs -> format_events c_snprintf (pieces_text ps) args = Some evs.
Proof.
  intros Hok Hn Ht Hr. unfold format_events, parsefmt.
  destruct (loop_pieces ps (length (pieces_text ps)) [] parse_start [] args evs Hok start_seq) as
    (s' & tail & segs & vs & E & H1 & H2 & H3 & H4 & H5 & H6); try done; [by constructor|].
  cbn [app] in E, H2. rewrite E. cbn [mbind option_bind]. rewrite zlen_nil, Z.sub_0_r.
  destruct (H6 [] eq_refl) as (evss & Hm & Hc). cbn [app ev_bytes map] in *.
  assert (Hread : read_inputs (Z.to_nat (max_param s' + 1)) 0 (usedinput s') (inp s') args = Some (PFMT_OK, zip (pieces_types ps) vs)).
  { rewrite (sq_max _ _ H2). replace (Z.to_nat (zlen (pieces_types ps) - 1 + 1)) with (length (pieces_types ps)) by (unfold zlen; lia).
    by apply (read_inputs_seq s' (pieces_types ps) H2 Ht (pieces_types ps) []). }
  destruct (Z.eqb_spec (zlen tail) 0) as [E0|E0]; cbn [negb].
  - rewrite Hread. cbn [mbind option_bind]. rewrite H3. cbn [out parse_start app]. rewrite Hm. cbn [mbind option_bind].
    apply zlen_0 in E0 as ->. cbn [map] in Hc. by rewrite app_nil_r in Hc; rewrite Hc.
  - unfold add_segment, MAX_SEGMENTS. rewrite H3. cbn [out parse_start app]. rewrite Z.gtb_ltb, (proj2 (Z.ltb_ge _ _)) by lia.
    cbn [max_param usedinput inp out]. rewrite Hread. cbn [mbind option_bind].
    pose proof (text_segment_events (zip (pieces_types ps) vs) tail [] H1 ltac:(by intros ->)) as Hseg.
    rewrite app_nil_r in Hseg.
    rewrite (mapM_app_Some _ _ _ _ [ev_bytes tail] Hm) by (cbn; by rewrite Hseg).
    cbn [mbind option_bind]. rewrite concat_app. cbn [concat].
    by rewrite app_nil_r, Hc.
Qed.

End Segments.
