(* ===== verification/PrintfDoc.v ===== *)
(** What docs/libcurl/curl_mprintf.md says that the conversions print.

    [doc_value] is written from the manual page and not from the code: flags,
    widths, precisions and conversions as it describes them.  [doc_case] says
    for which conversions and values the manual and the code agree, and
    [render_documented] that on these the text of the code is the text of the
    manual.  Left out are the cases where the code does something else, each of
    them shown in PrintfTheorems.v, and what the manual does not describe: the
    alternate forms, the conversion S, a zero flag on characters and strings,
    strings and pointers that are NULL. *)

From Stdlib Require Import ZArith Lia List String SpecFloat.
From stdpp Require Import base numbers option list.
From S2P Require Import Prelude Dynbuf Strparse InetAddr Mprintf PrintfSpec PrintfFormat PrintfPieces.
Close Scope nat_scope.
Open Scope Z_scope.

(** * The text of the manual *)

(** A text in a field: blanks, or zeros behind the sign and the prefix. *)
Definition doc_field (left zero : bool) (width : Z) (lead body : list Z) : list Z :=
  field left zero (width - zlen lead - zlen body) lead body.

(** At least [prec] digits; none for 0 with a precision of 0. *)
Definition doc_digits (base : Z) (up : bool) (prec n : Z) : list Z :=
  let d := digits base up n in replicate (Z.to_nat (prec - zlen d)) 48 ++ d.

(** The sign of a signed conversion: a plus overrides a space. *)
Definition doc_sign (c : pspec) (z : Z) : list Z :=
  if z <? 0 then [45] else if flag_in F_plus c then [43] else if flag_in F_space c then [32] else [].

(** A conversion with its width, its precision and its value.  A negative width
    asks for the left, a negative precision is none; the default precision of
    a number is 1. *)
Definition doc_value (c : pspec) (width prec : Z) (v : va_value) : option (list Z) :=
  let left := flag_in F_minus c || (width <? 0) in
  let zero := flag_in F_zero c && negb left in
  let number lead base up n :=
    doc_field left zero (Z.abs width) lead (doc_digits base up (if prec <? 0 then 1 else prec) n) in
  match sp_conv c, v with
  | (C_d | C_i), V_nums z => Some (number (doc_sign c z) 10 false (Z.abs z))
  | C_u, V_numu n => Some (number [] 10 false n)
  | C_o, V_numu n => Some (number [] 8 false n)
  | C_x, V_numu n => Some (number [] 16 false n)
  | C_X, V_numu n => Some (number [] 16 true n)
  | C_c, V_nums z => Some (doc_field left false (Z.abs width) [] [z])
  | C_s, V_str (Some s) =>
      Some (doc_field left false (Z.abs width) [] (if prec <? 0 then ctext s else ztake prec (ctext s)))
  | C_p, V_ptr p => Some (number [48; 120] 16 false p)
  | C_n, V_ptr _ => Some []
  | _, _ => None
  end.

(** The text of pieces with their arguments. *)
Fixpoint doc_text (ps : list piece) (args : list va_arg) : option (list Z) :=
  match ps with
  | [] => Some []
  | Lit l :: ps => r ← doc_text ps args; Some (l ++ r)
  | Percent :: ps => r ← doc_text ps args; Some (37 :: r)
  | Conv c :: ps =>
      vs ← fetch_all (spec_types c) args;
      t ← spec_with (doc_value c) c vs;
      r ← doc_text ps (drop (length (spec_types c)) args);
      Some (t ++ r)
  end.

(** * Where code and manual agree *)

(** At most 325 digits are asked for, signs only of signed conversions, an
    argument of a conversion with h is in the range of its type, a string is not
    shorter than its precision unless there is no width, and a pointer has no
    precision. *)
Definition doc_case (c : pspec) (width prec : Z) (v : va_value) : bool :=
  negb (flag_in F_alt c) && (Z.abs width <=? INT_MAX) &&
  let short lo hi n := negb (bool_decide (sp_len c = L_h)) || ((lo <=? n) && (n <=? hi)) in
  let unsigned := negb (flag_in F_plus c) && negb (flag_in F_space c) in
  match sp_conv c, v with
  | (C_d | C_i), V_nums z => (prec <=? BUFFSIZE - 1) && short (-32768) 32767 z
  | (C_u | C_o | C_x | C_X), V_numu n => (prec <=? BUFFSIZE - 1) && unsigned && short 0 65535 n
  | C_c, V_nums _ => negb (flag_in F_zero c)
  | C_s, V_str (Some s) => negb (flag_in F_zero c) && ((prec <=? zlen (ctext s)) || (width =? 0))
  | C_p, V_ptr p => negb (p =? 0) && (prec <? 0) && unsigned
  | C_n, V_ptr _ => true
  | _, _ => false
  end.

Definition documented : list piece -> list va_arg -> bool := pieces_all doc_case.

(** * They do *)

Lemma ev_text_u8 l : ev_text (ev_bytes l) = map u8 l.
Proof. induction l as [|c l IH]; [done|]. cbn. by f_equal. Qed.

(** The flags of a conversion. *)
Lemma spec_flags_has c neg :
  let f := spec_flags c neg in
  let left := flag_in F_minus c || neg in
  let conv l := bool_decide (sp_conv c ∈ l) in
  (has f FLAGS_SPACE = flag_in F_space c /\ has f FLAGS_SHOWSIGN = flag_in F_plus c /\ has f FLAGS_LEFT = left /\
   has f FLAGS_ALT = (flag_in F_alt c || conv [C_S]) /\ has f FLAGS_PAD_NIL = flag_in F_zero c && negb left) /\
  has f FLAGS_UNSIGNED = conv [C_u; C_o; C_x; C_X] /\ has f FLAGS_OCTAL = conv [C_o] /\
  has f FLAGS_HEX = conv [C_x; C_X] /\ has f FLAGS_UPPER = conv [C_X] /\ has f FLAGS_CHAR = conv [C_c].
Proof.
  cbv zeta. unfold spec_flags.
  repeat match goal with |- _ /\ _ => split end; repeat (rewrite has_bits by is_flag_bit); has_const;
    rewrite ?andb_true_r, ?andb_false_r, ?orb_false_r, ?orb_false_l; reflexivity.
Qed.

Lemma num_text_doc f w n base neg num lead : num_lead f base neg = lead -> has f FLAGS_ALT && (base =? 8) = false ->
  n <= BUFFSIZE - 1 ->
  num_text f w (if n <? 0 then -1 else n) base neg num =
  doc_field (has f FLAGS_LEFT) (has f FLAGS_PAD_NIL) w lead
    (doc_digits base (has f FLAGS_UPPER) (if n <? 0 then 1 else n) num).
Proof.
  intros Hl Ha Hn. assert (Hp : num_prec (if n <? 0 then -1 else n) = (if n <? 0 then 1 else n)).
  { destruct (Z.ltb_spec n 0); [done|]. unfold num_prec. by rewrite (proj2 (Z.eqb_neq _ _)) by lia. }
  unfold num_text, num_pad, num_digits, doc_field, doc_digits, num_body. rewrite Hp, Hl, Ha.
  assert (Hq : (if n <? 0 then 1 else n) <= BUFFSIZE - 1) by (case_if; unfold BUFFSIZE in *; lia).
  set (q := if n <? 0 then 1 else n) in *. clearbody q. set (d := digits _ _ _). rewrite Z.max_l, Z.sub_0_r by lia.
  destruct (Z.ltb_spec (zlen d) q); [by rewrite Z.min_l by lia|].
  by replace (Z.to_nat (q - zlen d)) with 0%nat by lia.
Qed.

Lemma ev_number_inv p num nums l : ev_number p num nums = Some l -> has (p_flags p) FLAGS_CHAR = false ->
  l = ev_bytes (num_text (p_flags p) (p_width p) (p_prec p) (num_base (p_flags p)) (num_neg (p_flags p) nums)
    (if num_neg (p_flags p) nums then - nums else num)) /\
  0 <= num <= SIZE_MAX /\ - CURL_OFF_T_MAX - 1 <= nums <= CURL_OFF_T_MAX.
Proof. unfold ev_number. intros H Hc. rewrite Hc in H. destruct (_ && _) eqn:E; [|done]. injection H as <-. clear Hc. zb_hyps. split; [reflexivity|lia]. Qed.

(** The text of a number of a conversion, the unsigned flag or the flags of a
    pointer added. *)
Lemma number_doc c w n x num nums l base up lead f :
  f = Z.lor (spec_flags c (w <? 0)) x ->
  ev_number (mk_prop (Z.min (Z.abs w) INT_MAX) (if n <? 0 then -1 else n) f) num nums = Some l ->
  Z.abs w <= INT_MAX -> n <= BUFFSIZE - 1 ->
  has f FLAGS_CHAR = false -> has f FLAGS_LEFT = has (spec_flags c (w <? 0)) FLAGS_LEFT ->
  has f FLAGS_PAD_NIL = has (spec_flags c (w <? 0)) FLAGS_PAD_NIL -> has f FLAGS_UPPER = up -> num_base f = base ->
  has f FLAGS_ALT && (base =? 8) = false -> num_lead f base (num_neg f nums) = lead ->
  let left := flag_in F_minus c || (w <? 0) in
  ev_text l = map u8 (doc_field left (flag_in F_zero c && negb left) (Z.abs w) lead
    (doc_digits base up (if n <? 0 then 1 else n) (if num_neg f nums then - nums else num))) /\
  0 <= num <= SIZE_MAX /\ - CURL_OFF_T_MAX - 1 <= nums <= CURL_OFF_T_MAX.
Proof.
  intros _ He Hw Hn Hc Hleft Hnil Hup Hb Ha Hl left. apply ev_number_inv in He as (-> & Hnum & Hs); [|done].
  cbn [p_flags p_width p_prec]. split; [|done]. rewrite ev_text_u8. f_equal. rewrite Hb, Z.min_l by done.
  erewrite num_text_doc; [|exact Hl|exact Ha|exact Hn]. rewrite Hleft, Hnil, Hup.
  destruct (spec_flags_has c (w <? 0)) as [(_ & _ & -> & _ & ->) _]. done.
Qed.

Lemma padded_doc left w t : padded left (w - zlen t) t = doc_field left false w [] t.
Proof. unfold padded, spaces, doc_field, field. cbn [app]. rewrite zlen_nil, Z.sub_0_r. by destruct left. Qed.

Lemma signed_doc c w n z l : sp_conv c = C_d \/ sp_conv c = C_i -> ev_number (conv_prop c w n) (u64 z) z = Some l ->
  flag_in F_alt c = false -> Z.abs w <= INT_MAX -> n <= BUFFSIZE - 1 ->
  let left := flag_in F_minus c || (w <? 0) in
  ev_text l = map u8 (doc_field left (flag_in F_zero c && negb left) (Z.abs w) (doc_sign c z)
    (doc_digits 10 false (if n <? 0 then 1 else n) (Z.abs z))).
Proof.
  intros Hc He Ha Hw Hn left.
  destruct (spec_flags_has c (w <? 0)) as [(Fsp & Fplus & Fleft & Falt & Fnil) (Funs & Foct & Fhex & Fup & Fchar)].
  assert (Hk : bool_decide (sp_conv c ∈ [C_S]) = false /\ bool_decide (sp_conv c ∈ [C_u; C_o; C_x; C_X]) = false /\
    bool_decide (sp_conv c ∈ [C_o]) = false /\ bool_decide (sp_conv c ∈ [C_x; C_X]) = false /\
    bool_decide (sp_conv c ∈ [C_X]) = false /\ bool_decide (sp_conv c ∈ [C_c]) = false) by (by destruct Hc as [-> | ->]).
  destruct Hk as (K1 & K2 & K3 & K4 & K5 & K6). rewrite K1 in Falt. rewrite K2 in Funs. rewrite K3 in Foct.
  rewrite K4 in Fhex. rewrite K5 in Fup. rewrite K6 in Fchar.
  rewrite Ha in Falt. set (f := spec_flags c (w <? 0)) in *.
  assert (Hneg : num_neg f z = (z <? 0)) by (unfold num_neg; by rewrite Foct, Fhex, Funs).
  destruct (number_doc c w n 0 (u64 z) z l 10 false (doc_sign c z) f) as (-> & Hu & Hz); try done.
  - by rewrite Z.lor_0_r.
  - unfold num_base. by rewrite Foct, Fhex.
  - by rewrite andb_false_r.
  - unfold num_lead, num_prefix, num_sign, doc_sign. rewrite Hneg, Fsp, Fplus, Falt. cbn [andb orb]. by rewrite app_nil_r.
  - fold left. rewrite Hneg. do 3 f_equal. destruct (Z.ltb_spec z 0); [by rewrite Z.abs_neq by lia|].
    rewrite Z.abs_eq, u64_small by (unfold CURL_OFF_T_MAX, SIZE_MAX in *; lia). done.
Qed.

Definition unsigned_base (c : pconv) : option (Z * bool) :=
  match c with C_u => Some (10, false) | C_o => Some (8, false) | C_x => Some (16, false) | C_X => Some (16, true) | _ => None end.

Lemma unsigned_doc c w n num l base up : unsigned_base (sp_conv c) = Some (base, up) ->
  ev_number (mk_prop (p_width (conv_prop c w n)) (p_prec (conv_prop c w n)) (Z.lor (p_flags (conv_prop c w n)) FLAGS_UNSIGNED)) num 0
    = Some l ->
  flag_in F_alt c = false -> flag_in F_plus c = false -> flag_in F_space c = false -> Z.abs w <= INT_MAX -> n <= BUFFSIZE - 1 ->
  let left := flag_in F_minus c || (w <? 0) in
  ev_text l = map u8 (doc_field left (flag_in F_zero c && negb left) (Z.abs w) []
    (doc_digits base up (if n <? 0 then 1 else n) num)).
Proof.
  intros Hc He Ha Hp Hs Hw Hn left. cbn [p_width p_prec p_flags conv_prop] in He.
  destruct (spec_flags_has c (w <? 0)) as [(Fsp & Fplus & Fleft & Falt & Fnil) (Funs & Foct & Fhex & Fup & Fchar)].
  rewrite Ha in Falt. rewrite Hp in Fplus. rewrite Hs in Fsp. set (f := spec_flags c (w <? 0)) in *.
  assert (Hf : forall b, flag_bit b -> has (Z.lor f FLAGS_UNSIGNED) b = has f b || has FLAGS_UNSIGNED b) by (intros; by apply has_lor).
  assert (Hneg : num_neg (Z.lor f FLAGS_UNSIGNED) 0 = false) by (unfold num_neg; by rewrite andb_false_r).
  destruct (number_doc c w n FLAGS_UNSIGNED num 0 l base up [] (Z.lor f FLAGS_UNSIGNED)) as (-> & Hu & _); try done.
  - rewrite Hf, Fchar by is_flag_bit. by destruct (sp_conv c).
  - rewrite Hf by is_flag_bit. by rewrite orb_false_r.
  - rewrite Hf by is_flag_bit. by rewrite orb_false_r.
  - rewrite Hf, Fup by is_flag_bit. destruct (sp_conv c); try done; injection Hc as <- <-; done.
  - unfold num_base. rewrite !Hf, Foct, Fhex by is_flag_bit. destruct (sp_conv c); try done; injection Hc as <- <-; done.
  - rewrite Hf, Falt by is_flag_bit. by destruct (sp_conv c).
  - unfold num_lead, num_prefix, num_sign. rewrite Hneg, !Hf, Fsp, Fplus, Falt by is_flag_bit. by destruct (sp_conv c).
  - by rewrite Hneg.
Qed.

Lemma pointer_doc c w n p l : sp_conv c = C_p ->
  ev_number (mk_prop (p_width (conv_prop c w n)) (p_prec (conv_prop c w n)) (Z.lor (p_flags (conv_prop c w n)) (Z.lor FLAGS_HEX FLAGS_ALT))) p 0
    = Some l ->
  flag_in F_plus c = false -> flag_in F_space c = false -> Z.abs w <= INT_MAX -> n < 0 ->
  let left := flag_in F_minus c || (w <? 0) in
  ev_text l = map u8 (doc_field left (flag_in F_zero c && negb left) (Z.abs w) [48; 120]
    (doc_digits 16 false (if n <? 0 then 1 else n) p)).
Proof.
  intros Hc He Hp Hs Hw Hn left. cbn [p_width p_prec p_flags conv_prop] in He.
  destruct (spec_flags_has c (w <? 0)) as [(Fsp & Fplus & Fleft & Falt & Fnil) (Funs & Foct & Fhex & Fup & Fchar)].
  rewrite Hc in *. rewrite Hp in Fplus. rewrite Hs in Fsp. set (f := spec_flags c (w <? 0)) in *.
  set (x := Z.lor FLAGS_HEX FLAGS_ALT) in *.
  assert (Hf : forall b, flag_bit b -> has (Z.lor f x) b = has f b || has x b) by (intros; by apply has_lor).
  assert (Hneg : num_neg (Z.lor f x) 0 = false) by (unfold num_neg; by rewrite andb_false_r).
  destruct (number_doc c w n x p 0 l 16 false [48; 120] (Z.lor f x)) as (-> & Hu & _); try done.
  - unfold BUFFSIZE. lia.
  - by rewrite Hf, Fchar by is_flag_bit.
  - rewrite Hf by is_flag_bit. by rewrite orb_false_r.
  - rewrite Hf by is_flag_bit. by rewrite orb_false_r.
  - by rewrite Hf, Fup by is_flag_bit.
  - unfold num_base. by rewrite !Hf, Foct, Fhex by is_flag_bit.
  - by rewrite andb_false_r.
  - unfold num_lead, num_prefix, num_sign. rewrite Hneg, !Hf, Fsp, Fplus, Falt, Fup by is_flag_bit.
    unfold x. rewrite !has_lor by is_flag_bit. has_const. by rewrite orb_true_r.
  - by rewrite Hneg.
Qed.

Lemma char_doc c w n z l : sp_conv c = C_c -> ev_number (conv_prop c w n) (u64 z) z = Some l -> Z.abs w <= INT_MAX ->
  ev_text l = map u8 (doc_field (flag_in F_minus c || (w <? 0)) false (Z.abs w) [] [z]).
Proof.
  intros Hc He Hw. destruct (spec_flags_has c (w <? 0)) as [(_ & _ & Fleft & _ & _) (_ & _ & _ & _ & Fchar)].
  rewrite Hc in Fchar. unfold ev_number in He. cbn [p_flags p_width conv_prop] in He. rewrite Fchar in He.
  change (bool_decide (C_c ∈ [C_c])) with true in He. destruct (_ && _) in He; [|done]. injection He as <-.
  rewrite ev_text_u8, Z.min_l by done. rewrite <- padded_doc. change (zlen [z]) with 1.
  unfold char_text, padded, spaces. rewrite Fleft.
  assert (Hz : u8 (u64 z) = u8 z).
  { unfold u8, u64. change (2 ^ 64) with (256 * 2 ^ 56). rewrite Z.mul_comm. apply Z.mod_mod_divide. by exists (2 ^ 56). }
  destruct (flag_in F_minus c || (w <? 0)); cbn [map app]; rewrite ?map_app; cbn [map]; by rewrite Hz.
Qed.

Lemma string_doc c w n s : sp_conv c = C_s -> flag_in F_alt c = false -> Z.abs w <= INT_MAX -> n <= INT_MAX ->
  (n <=? zlen (ctext s)) || (w =? 0) = true ->
  str_text (p_flags (conv_prop c w n)) (p_width (conv_prop c w n)) (p_prec (conv_prop c w n)) (Some s) =
  doc_field (flag_in F_minus c || (w <? 0)) false (Z.abs w) [] (if n <? 0 then ctext s else ztake n (ctext s)).
Proof.
  intros Hc Ha Hw Hn Hfit. cbn [p_flags p_width p_prec conv_prop].
  destruct (spec_flags_has c (w <? 0)) as [(_ & _ & Fleft & Falt & _) _]. rewrite Hc, Ha in Falt.
  unfold str_text. rewrite Fleft, Falt. change (false || bool_decide (C_s ∈ [C_S])) with false. cbn [quote].
  rewrite Z.min_l, <- padded_doc by done. pose proof (zlen_nonneg (ctext s)) as Hs.
  assert (Hpad : forall q a b t, Z.max 0 a = Z.max 0 b -> padded q a t = padded q b t).
  { intros q a b t H. unfold padded, spaces. by replace (Z.to_nat a) with (Z.to_nat b) by lia. }
  destruct (Z.ltb_spec n 0).
  - change (-1 =? -1) with true. cbn iota. apply Hpad. lia.
  - rewrite (proj2 (Z.eqb_neq n (-1))), u64_small by (unfold SIZE_MAX, INT_MAX in *; lia). apply Hpad.
    apply orb_true_iff in Hfit as [Hfit%Z.leb_le|Hfit%Z.eqb_eq]; [rewrite zlen_ztake by lia; lia|].
    subst w. pose proof (zlen_nonneg (ztake n (ctext s))). lia.
Qed.

(** Code and manual agree on a conversion. *)
Lemma conv_doc c w n v l : conv_events c w n v = Some l -> n <= INT_MAX -> doc_case c w n v = true ->
  exists t, doc_value c w n v = Some t /\ ev_text l = map u8 t.
Proof.
  intros He Hni Hd. unfold doc_case in Hd. apply andb_true_iff in Hd as [Hd Hc]. apply andb_true_iff in Hd as [Ha Hw].
  apply negb_true_iff in Ha. apply Z.leb_le in Hw. unfold conv_events, ev_value, spec_type in He. unfold doc_value.
  assert (Hsize : forall b1 b2 : bool, b1 && b2 = true -> b1 = true) by (by intros [] []).
  destruct (sp_conv c) eqn:Ec; destruct v as [s|p|z|z|d]; try done; try (destruct s as [s|]; [|done]);
    (eexists; split; [reflexivity|]).
  - apply Hsize, Z.leb_le in Hc. apply signed_doc; auto. by destruct (sp_len c).
  - apply Hsize, Z.leb_le in Hc. apply signed_doc; auto. by destruct (sp_len c).
  - apply Hsize in Hc. zb_hyps. eapply unsigned_doc; try eassumption; [by rewrite Ec|by destruct (sp_len c)].
  - apply Hsize in Hc. zb_hyps. eapply unsigned_doc; try eassumption; [by rewrite Ec|by destruct (sp_len c)].
  - apply Hsize in Hc. zb_hyps. eapply unsigned_doc; try eassumption; [by rewrite Ec|by destruct (sp_len c)].
  - apply Hsize in Hc. zb_hyps. eapply unsigned_doc; try eassumption; [by rewrite Ec|by destruct (sp_len c)].
  - by eapply char_doc.
  - apply andb_true_iff in Hc as [_ Hc]. injection He as <-. rewrite ev_text_u8.
    f_equal. by apply string_doc.
  - apply andb_true_iff in Hc as [Hc Hu]. zb_hyps. rewrite (proj2 (Z.eqb_neq p 0)) in He by done. by eapply pointer_doc.
  - by injection He as <-.
Qed.

(** The width, the precision and the value that a conversion is given. *)
Lemma spec_with_inv {A} (k : Z -> Z -> va_value -> option A) c vs l : spec_ok c -> spec_with k c vs = Some l ->
  exists w n v, n <= INT_MAX /\ forall B (k' : Z -> Z -> va_value -> option B), spec_with k' c vs = k' w n v.
Proof.
  intros [_ Hn]. unfold spec_with. destruct (take_size (sp_width c) 0 vs) as [[w vs1]|]; [|done]. cbn [mbind option_bind].
  destruct (take_size (sp_prec c) (-1) vs1) as [[n vs2]|] eqn:En; [|done]. cbn [mbind option_bind].
  destruct (head vs2) as [v|]; [|done]. intros _. exists w, n, v. split; [|done].
  unfold take_size in En. destruct (sp_prec c) as [|m|].
  - injection En as <- _. unfold INT_MAX. lia.
  - injection En as <- _. by apply Hn.
  - destruct vs1 as [|x vs1]; [done|]. destruct (val_int x) as [m|] eqn:Ev; [|done]. injection En as <- _.
    unfold val_int, INT_MAX in *. destruct x as [| |z|z|]; try done; injection Ev as <-; pose proof (Z.mod_pos_bound (z + 2 ^ 31) (2 ^ 32)); lia.
Qed.

(** On documented pieces the text of the code is the text of the manual. *)
Theorem render_documented ps : forall args evs, forallb piece_ok ps = true -> render ps args = Some evs ->
  documented ps args = true -> exists d, doc_text ps args = Some d /\ ev_text evs = map u8 d.
Proof.
  unfold documented. induction ps as [|p ps IH]; intros args evs Hok Hr Hd; [injection Hr as <-; by exists []|].
  cbn [forallb] in Hok. apply andb_true_iff in Hok as [Hok Hoks]. destruct p as [t| |c]; cbn [render pieces_all doc_text] in *.
  1, 2: destruct (render ps args) as [r|] eqn:Er; [|done]; injection Hr as <-;
    destruct (IH args r Hoks Er Hd) as (d & -> & E); eexists; (split; [reflexivity|]).
  - by rewrite ev_text_app, ev_text_u8, map_app, E.
  - cbn [ev_bytes map app ev_text]. by rewrite E.
  - destruct (fetch_all (spec_types c) args) as [vs|]; [|done]. cbn [mbind option_bind] in *.
    destruct (spec_events c vs) as [l|] eqn:El; [|done]. cbn [mbind option_bind] in Hr. unfold spec_events in El.
    destruct (render ps _) as [r|] eqn:Er; [|done]. injection Hr as <-.
    destruct (spec_with_inv _ c vs l (piece_ok_spec c Hok) El) as (w & n & v & Hn & Hk). rewrite Hk in El, Hd. rewrite Hk.
    apply andb_true_iff in Hd as [Hd Hds]. destruct (conv_doc c w n v l El Hn Hd) as (t & -> & Et).
    destruct (IH _ r Hoks Er Hds) as (d & -> & E). exists (t ++ d). split; [done|].
    by rewrite ev_text_app, map_app, Et, E.
Qed.
