(* ===== verification/PrintfTheorems.v ===== *)
(** The theorems about formatted output, for Mprintf.v: what the functions
    write for a format of pieces, that well-typed arguments lead to undefined
    behaviour only where the arithmetic on a precision overflows, that the
    functions agree with each other, that numbers are read back, and that the
    parser of formats stays in its arrays. *)

From Stdlib Require Import ZArith Lia List String SpecFloat.
From stdpp Require Import base numbers option list.
From S2P Require Import Prelude Dynbuf Strparse InetAddr Mprintf PrintfSpec PrintfFormat PrintfPieces PrintfDoc.
Close Scope nat_scope.
Open Scope Z_scope.

(** * Types *)

(** The values of an argument of a type. *)
Definition arg_has_type (t : FormatType) (a : va_arg) : bool :=
  match t, a with
  | (MTYPE_INT | MTYPE_WIDTH | MTYPE_PRECISION), A_int n => (INT_MIN <=? n) && (n <=? INT_MAX)
  | (MTYPE_LONG | MTYPE_LONGLONG), A_long n => (- CURL_OFF_T_MAX - 1 <=? n) && (n <=? CURL_OFF_T_MAX)
  | MTYPE_INTU, A_uint n => (0 <=? n) && (n <=? UINT32_MAX)
  | (MTYPE_LONGU | MTYPE_LONGLONGU), A_ulong n => (0 <=? n) && (n <=? SIZE_MAX)
  | MTYPE_STRING, A_str _ => true
  | (MTYPE_PTR | MTYPE_INTPTR), A_ptr p => (0 <=? p) && (p <=? SIZE_MAX)
  | _, _ => false
  end.

Definition args_typed (ps : list piece) (args : list va_arg) : bool :=
  (length args =? length (pieces_types ps))%nat && forallb (fun '(t, a) => arg_has_type t a) (zip (pieces_types ps) args).

(** The width and precision of a number, pointers that are not NULL included,
    leave the arithmetic of [out_number] in the range of [int]. *)
Definition value_fits (c : pspec) (width prec : Z) (v : va_value) : bool :=
  let p := conv_prop c width prec in
  match spec_type c, v with
  | (MTYPE_INTU | MTYPE_LONGU | MTYPE_LONGLONGU), V_numu n =>
      num_ok (mk_prop (p_width p) (p_prec p) (Z.lor (p_flags p) FLAGS_UNSIGNED)) n 0
  | (MTYPE_INT | MTYPE_LONG | MTYPE_LONGLONG), V_nums n => num_ok p (u64 n) n
  | MTYPE_PTR, V_ptr ptr =>
      (ptr =? 0) || num_ok (mk_prop (p_width p) (p_prec p) (Z.lor (p_flags p) (Z.lor FLAGS_HEX FLAGS_ALT))) ptr 0
  | _, _ => true
  end.

Definition pieces_fit : list piece -> list va_arg -> bool := pieces_all value_fits.

(** A precision that always fits. *)
Definition PREC_MAX : Z := INT_MAX - 3.

Definition pieces_small : list piece -> list va_arg -> bool := pieces_all (fun _ _ n _ => n <=? PREC_MAX).

Lemma fetch_typed ts args : (length ts <= length args)%nat ->
  forallb (fun '(t, a) => arg_has_type t a) (zip ts args) = true -> exists vs, fetch_all ts args = Some vs.
Proof.
  revert args. induction ts as [|t ts IH]; intros args Hl Ht; [by exists []|].
  destruct args as [|a args]; [cbn in Hl; lia|]. cbn [zip zip_with forallb length fetch_all] in *.
  apply andb_true_iff in Ht as [Ht Hts].
  assert (exists v, va_fetch t a = Some v) as [v ->] by (destruct t, a; try done; by eexists).
  destruct (IH args) as [vs ->]; [lia|done|]. by eexists.
Qed.

Lemma ev_number_defined p num nums : num_ok p num nums = true -> 0 <= num <= SIZE_MAX ->
  - CURL_OFF_T_MAX - 1 <= nums <= CURL_OFF_T_MAX -> exists l, ev_number p num nums = Some l.
Proof.
  intros Hf Hnum Hs. unfold ev_number. rewrite Hf, !(proj2 (Z.leb_le _ _)) by lia. by eexists.
Qed.

Lemma conv_events_typed c w n a v : arg_has_type (spec_type c) a = true -> va_fetch (spec_type c) a = Some v ->
  value_fits c w n v = true -> exists l, conv_events c w n v = Some l.
Proof.
  unfold conv_events, value_fits. destruct (conv_prop c w n) as [pw pn pf]. cbn [p_width p_prec p_flags].
  intros Ht Hv Hf.
  destruct (spec_type c), a; try done; cbn [va_fetch arg_has_type] in *; injection Hv as <-; zb_hyps;
    unfold ev_value; cbn [p_width p_prec p_flags]; try (by eexists);
    try (by (apply ev_number_defined; [done|first [apply u64_range | unfold UINT32_MAX, SIZE_MAX in *; lia]
                     |unfold INT_MIN, INT_MAX, CURL_OFF_T_MAX in *; lia])).
  case_if; [by eexists|]. cbn [orb] in Hf. by apply ev_number_defined; [|lia|unfold CURL_OFF_T_MAX; lia].
Qed.

(** A width or a precision from the arguments is the argument. *)
Lemma fetch_int t a v : (t = MTYPE_WIDTH \/ t = MTYPE_PRECISION) -> arg_has_type t a = true -> va_fetch t a = Some v ->
  exists n, val_int v = Some n /\ - INT_MAX - 1 <= n <= INT_MAX.
Proof.
  intros [-> | ->] Ht Hv; destruct a; try done; cbn [va_fetch arg_has_type] in *; injection Hv as <-; zb_hyps;
    unfold val_int; eexists; (split; [done|]); unfold INT_MIN, INT_MAX in *; rewrite Z.mod_small by lia; lia.
Qed.

(** The inputs of a conversion whose arguments have their types. *)
Lemma spec_with_typed c args vs : spec_ok c ->
  forallb (fun '(t, a) => arg_has_type t a) (zip (spec_types c) args) = true -> fetch_all (spec_types c) args = Some vs ->
  exists w n a v, (forall A (k : Z -> Z -> va_value -> option A), spec_with k c vs = k w n v) /\
    - INT_MAX - 1 <= w <= INT_MAX /\ n <= INT_MAX /\
    arg_has_type (spec_type c) a = true /\ va_fetch (spec_type c) a = Some v.
Proof.
  unfold spec_types, spec_with, take_size. intros [Hw Hn] Ht Hf.
  destruct (sp_width c) as [|w|] eqn:Ew, (sp_prec c) as [|n|] eqn:En; cbn [app] in *;
    do 3 (try (destruct args as [|? args])); cbn [fetch_all zip zip_with forallb] in *; try done;
    repeat match type of Hf with context [va_fetch ?t ?a] =>
      destruct (va_fetch t a) eqn:?; cbn [mbind option_bind] in Hf; [|done] end;
    try discriminate Hf; injection Hf as <-; zb_hyps;
    repeat match goal with
    | E : va_fetch MTYPE_WIDTH _ = Some ?v |- _ => apply fetch_int in E as (? & ? & ?); [|by left|done]
    | E : va_fetch MTYPE_PRECISION _ = Some ?v |- _ => apply fetch_int in E as (? & ? & ?); [|by right|done]
    end;
    try specialize (Hw _ eq_refl); try specialize (Hn _ eq_refl);
    do 4 eexists; (split; [intros A k; repeat (cbn [mbind option_bind head]; match goal with E : val_int _ = Some _ |- _ => rewrite E; clear E end);
      cbn [mbind option_bind head]; reflexivity|]);
    (split; [|split; [|split; eassumption]]); unfold INT_MAX in *; lia.
Qed.

Lemma fetch_all_more ts k r vs : fetch_all ts k = Some vs -> fetch_all ts (k ++ r) = Some vs.
Proof.
  revert k vs. induction ts as [|t ts IH]; intros k vs Hk; [by injection Hk as <-|].
  destruct k as [|a k]; [done|]. cbn [fetch_all app] in *. destruct (va_fetch t a); [|done]. cbn [mbind option_bind] in *.
  destruct (fetch_all ts k) as [vs'|] eqn:E; [|done]. by rewrite (IH k vs' E).
Qed.

(** The arguments of a conversion and those that follow. *)
Lemma args_typed_conv c ps args : args_typed (Conv c :: ps) args = true ->
  args_typed ps (drop (length (spec_types c)) args) = true /\
  exists vs, fetch_all (spec_types c) args = Some vs /\
    forallb (fun '(t, a) => arg_has_type t a) (zip (spec_types c) (take (length (spec_types c)) args)) = true /\
    fetch_all (spec_types c) (take (length (spec_types c)) args) = Some vs.
Proof.
  unfold args_typed. intros Ht. apply andb_true_iff in Ht as [Hl Ht].
  change (pieces_types (Conv c :: ps)) with (spec_types c ++ pieces_types ps) in *.
  apply Nat.eqb_eq in Hl. rewrite length_app in Hl.
  rewrite <- (take_drop (length (spec_types c)) args), zip_with_app, forallb_app in Ht by (rewrite length_take; lia).
  apply andb_true_iff in Ht as [Ht1 Ht2]. split.
  { apply andb_true_iff. split; [|done]. apply Nat.eqb_eq. rewrite length_drop. lia. }
  destruct (fetch_typed (spec_types c) (take (length (spec_types c)) args)) as [vs Hvs]; [rewrite length_take; lia|done|].
  exists vs. split; [|done]. rewrite <- (take_drop (length (spec_types c)) args). by apply fetch_all_more.
Qed.

Lemma render_typed ps : forall args, forallb piece_ok ps = true -> args_typed ps args = true ->
  pieces_fit ps args = true -> exists evs, render ps args = Some evs.
Proof.
  induction ps as [|p ps IH]; intros args Hok Ht Hf; [by eexists|]. cbn [forallb] in Hok.
  apply andb_true_iff in Hok as [Hok Hoks].
  destruct p as [l| |c]; cbn [render].
  1, 2: destruct (IH args Hoks Ht Hf) as [r ->]; by eexists.
  apply args_typed_conv in Ht as (Ht & vs & Hvs & Htv & Hvt). unfold pieces_fit in *. cbn [pieces_all] in Hf.
  rewrite Hvs in *. cbn [mbind option_bind] in *.
  destruct (spec_with_typed c _ vs (piece_ok_spec c Hok) Htv Hvt) as (w & n & a & v & Hk & _ & _ & Ha & Hv).
  rewrite Hk in Hf. apply andb_true_iff in Hf as [Hf Hfs]. unfold spec_events. rewrite Hk.
  destruct (conv_events_typed c w n a v Ha Hv Hf) as [l ->]. cbn [mbind option_bind].
  destruct (IH _ Hoks Ht Hfs) as [r ->]. by eexists.
Qed.

(** ** Precisions that fit *)

Lemma num_fits_small flags w n base (neg : bool) num : good_base base -> 0 <= num <= SIZE_MAX ->
  0 <= w <= INT_MAX -> -1 <= n <= PREC_MAX -> num_fits flags w n base neg num = true.
Proof.
  intros Hb Hnum Hw Hn. unfold num_fits, num_pad, num_lead, num_digits, num_len, num_body.
  destruct (digits_spec base (has flags FLAGS_UPPER) num Hb Hnum) as (_ & _ & _ & _ & Hl).
  set (d := digits _ _ _) in *. clearbody d. pose proof (zlen_nonneg d) as Hd.
  assert (Hp : -1 < num_prec n <= PREC_MAX) by (unfold num_prec, PREC_MAX, INT_MAX in *; case_if; lia).
  set (q := num_prec n) in *. clearbody q.
  assert (Hlead : zlen (num_sign neg (has flags FLAGS_SHOWSIGN) (has flags FLAGS_SPACE) ++
    num_prefix (has flags FLAGS_ALT) (has flags FLAGS_UPPER) base) <= 3).
  { unfold num_sign, num_prefix. by destruct neg, (has flags FLAGS_SHOWSIGN), (has flags FLAGS_SPACE), (_ && _). }
  set (lead := zlen (_ ++ _)) in *. clearbody lead. unfold PREC_MAX, INT_MAX, INT_MIN, BUFFSIZE in *.
  apply andb_true_iff. rewrite Z.leb_le, Z.ltb_lt. split; [lia|].
  destruct (Z.ltb_spec (zlen d) q); [rewrite zlen_app, zlen_replicate by lia; lia|].
  destruct (has flags FLAGS_ALT && (base =? 8)); rewrite ?zlen_cons; lia.
Qed.

Lemma num_ok_small p num nums : 0 <= p_width p <= INT_MAX -> -1 <= p_prec p <= PREC_MAX -> 0 <= num <= SIZE_MAX ->
  - CURL_OFF_T_MAX - 1 <= nums <= CURL_OFF_T_MAX -> num_ok p num nums = true.
Proof.
  intros Hw Hn Hnum Hs. unfold num_ok. apply orb_true_iff. right. apply num_fits_small; [apply num_base_good| |exact Hw|exact Hn].
  destruct (num_neg (p_flags p) nums) eqn:E; [|exact Hnum]. unfold num_neg in E. zb_hyps. unfold CURL_OFF_T_MAX, SIZE_MAX in *. lia.
Qed.

(** Precisions up to 2147483644 fit, whatever the widths and the values. *)
Lemma small_precisions_fit ps : forall args, forallb piece_ok ps = true -> args_typed ps args = true ->
  pieces_small ps args = true -> pieces_fit ps args = true.
Proof.
  induction ps as [|p ps IH]; intros args Hok Ht Hs; [done|]. cbn [forallb] in Hok. apply andb_true_iff in Hok as [Hok Hoks].
  unfold pieces_small, pieces_fit in *. cbn [pieces_all] in *. destruct p as [l| |c]; [by apply IH..|].
  apply args_typed_conv in Ht as (Ht & vs & Hvs & Htv & Hvt). rewrite Hvs in *. cbn [mbind option_bind] in *.
  destruct (spec_with_typed c _ vs (piece_ok_spec c Hok) Htv Hvt) as (w & n & a & v & Hk & Hw & _ & Ha & Hv).
  rewrite Hk in *. apply andb_true_iff in Hs as [Hn Hs]. apply Z.leb_le in Hn.
  rewrite (IH _ Hoks Ht Hs), andb_true_r. unfold value_fits.
  assert (Hpw : 0 <= p_width (conv_prop c w n) <= INT_MAX) by (cbn; unfold INT_MAX in *; lia).
  assert (Hpn : -1 <= p_prec (conv_prop c w n) <= PREC_MAX) by (cbn; case_if; unfold PREC_MAX, INT_MAX in *; lia).
  destruct (spec_type c), a; try done; cbn [va_fetch arg_has_type] in *; injection Hv as <-; zb_hyps; try done;
    rewrite ?orb_true_iff; try right; (apply num_ok_small; [exact Hpw|exact Hpn|try (apply u64_range)|]);
    unfold UINT32_MAX, SIZE_MAX, INT_MIN, INT_MAX, CURL_OFF_T_MAX in *; lia.
Qed.

(** * Numbers *)

(** A number without sign, at least one digit. *)
Definition number_chars (base : Z) (up : bool) (n : Z) : list Z := if n =? 0 then [48] else digits base up n.

Lemma num_body_plain base up n : good_base base -> 0 <= n <= SIZE_MAX ->
  num_body false base up 1 n = number_chars base up n.
Proof.
  intros Hb Hn. unfold num_body, number_chars. destruct (digits_spec base up n Hb Hn) as (_ & Hv & _ & _ & _).
  destruct (Z.eqb_spec n 0) as [->|Hne].
  - by destruct Hb as [-> | [-> | ->]], up.
  - destruct (digits base up n) as [|c d]; [cbn in Hv; lia|]. rewrite zlen_cons.
    rewrite (proj2 (Z.ltb_ge _ _)) by (pose proof (zlen_nonneg d); lia). done.
Qed.

Lemma number_chars_spec base up n : good_base base -> 0 <= n <= SIZE_MAX ->
  digits_value base 0 (number_chars base up n) = n /\
  Forall (fun c => valid_digit c (max_digit base) = true) (number_chars base up n) /\
  number_chars base up n <> [] /\ zlen (number_chars base up n) <= 64.
Proof.
  intros Hb Hn. unfold number_chars. destruct (digits_spec base up n Hb Hn) as (_ & Hv & Hd & _ & Hl).
  destruct (Z.eqb_spec n 0) as [->|Hne].
  - split; [by destruct Hb as [-> | [-> | ->]]|]. split; [|done]. repeat constructor. by destruct Hb as [-> | [-> | ->]].
  - split; [done|]. split; [done|]. split; [|done]. intros E. rewrite E in Hv. cbn in Hv. lia.
Qed.

(** The conversions of numbers and their bases. *)
Definition number_conv (c : pconv) : option (Z * bool) :=
  match c with
  | C_d | C_i | C_u => Some (10, false) | C_o => Some (8, false) | C_x => Some (16, false) | C_X => Some (16, true)
  | _ => None
  end.

(** A long in a field of a width from the arguments. *)
Definition long_spec (zero : bool) (c : pconv) : pspec := mk_spec (if zero then [F_zero] else []) P_star P_none L_l c.

Definition long_text (zero : bool) (base : Z) (up : bool) (w n : Z) : list Z :=
  let d := number_chars base up n in replicate (Z.to_nat (w - zlen d)) (if zero then 48 else 32) ++ d.

Lemma digit_is_byte base c : good_base base -> valid_digit c (max_digit base) = true -> 48 <= c <= 102.
Proof. intros Hb. unfold valid_digit, max_digit. intros H. zb_hyps. destruct Hb as [-> | [-> | ->]]; cbn in *; lia. Qed.

Lemma long_text_bytes zero base up w n : good_base base -> 0 <= n <= SIZE_MAX -> Forall is_byte (long_text zero base up w n).
Proof.
  intros Hb Hn. destruct (number_chars_spec base up n Hb Hn) as (_ & Hd & _ & _). unfold long_text.
  apply Forall_app. split; [apply Forall_replicate; by destruct zero|].
  eapply Forall_impl; [exact Hd|]. intros c Hc. apply (digit_is_byte base c Hb) in Hc. unfold is_byte. lia.
Qed.

Lemma render_long zero c base up w n : number_conv c = Some (base, up) -> 0 <= w <= INT_MAX -> 0 <= n <= CURL_OFF_T_MAX ->
  render [Conv (long_spec zero c)] [A_int w; A_long n] = Some (ev_bytes (long_text zero base up w n)).
Proof.
  intros Hc Hw Hn.
  assert (Hn' : 0 <= n <= SIZE_MAX) by (unfold CURL_OFF_T_MAX, SIZE_MAX in *; lia).
  assert (Hb : good_base base) by (unfold good_base; destruct c; try done; injection Hc as <- <-; lia).
  assert (Hval : exists t, spec_type (long_spec zero c) = t /\ exists v, va_fetch t (A_long n) = Some v /\
    ev_value (fun _ _ => []) (mk_prop w (-1) (spec_flags (long_spec zero c) false)) t v =
    Some (ev_bytes (long_text zero base up w n))).
  { eexists. split; [done|].
    assert (Hgo : forall f nums, nums = n \/ nums = 0 -> has f FLAGS_CHAR = false -> has f FLAGS_LEFT = false ->
      has f FLAGS_PAD_NIL = zero -> has f FLAGS_SHOWSIGN = false -> has f FLAGS_SPACE = false -> has f FLAGS_ALT = false ->
      has f FLAGS_UPPER = up -> num_base f = base ->
      ev_number (mk_prop w (-1) f) n nums = Some (ev_bytes (long_text zero base up w n))).
    { intros f nums Hnums H1 H2 H3 H4 H5 H6 H7 H8. unfold ev_number.
      rewrite num_ok_small by (cbn; unfold PREC_MAX, SIZE_MAX, CURL_OFF_T_MAX, INT_MAX in *; lia).
      rewrite !(proj2 (Z.leb_le _ _)) by (unfold SIZE_MAX, CURL_OFF_T_MAX in *; lia). cbn [p_width p_prec p_flags andb].
      rewrite H1, H8. unfold num_neg. rewrite (proj2 (Z.ltb_ge nums 0)), andb_false_r by lia.
      unfold num_text, num_pad, num_lead, num_digits, num_prec. rewrite H2, H3, H4, H5, H6, H7. cbn [num_sign num_prefix andb app Z.eqb]. rewrite num_body_plain by done.
      unfold field, long_text. cbn [app]. rewrite zlen_nil, Z.sub_0_r. change (Z.max 0 (1 - (BUFFSIZE - 1))) with 0.
      rewrite Z.sub_0_r. by destruct zero. }
    destruct c; try done; injection Hc as <- <-; (eexists; split; [cbn [spec_type sp_conv sp_len long_spec va_fetch]; rewrite ?(proj2 (Z.leb_le 0 n)) by lia; reflexivity|]);
      cbn [ev_value spec_type sp_conv sp_len long_spec p_flags p_width p_prec]; rewrite ?u64_small by done;
      (apply Hgo; [auto|destruct zero; reflexivity..]). }
  destruct Hval as (t & Ht & v & Hv & Hev).
  unfold render. unfold spec_types. cbn [sp_width sp_prec long_spec app]. fold (long_spec zero c). rewrite Ht.
  cbn [fetch_all]. change (va_fetch MTYPE_WIDTH (A_int w)) with (Some (V_nums w)). cbn [mbind option_bind]. rewrite Hv.
  cbn [mbind option_bind]. unfold spec_events, spec_with, take_size. cbn [sp_width sp_prec long_spec]. unfold val_int.
  rewrite Z.mod_small by (unfold INT_MAX in *; lia). replace (w + 2 ^ 31 - 2 ^ 31) with w by lia.
  cbn [mbind option_bind head]. unfold conv_events, conv_prop. rewrite (proj2 (Z.ltb_ge w 0)) by lia.
  rewrite Z.abs_eq, Z.min_l by lia. cbn [Z.ltb Z.compare]. fold (long_spec zero c). rewrite Ht, Hev. cbn [mbind option_bind].
  by rewrite app_nil_r.
Qed.

Lemma long_text_reads zero base up w n : good_base base -> 0 <= n <= CURL_OFF_T_MAX ->
  str_num_base (curlx_str_passblanks (long_text zero base up w n)) CURL_OFF_T_MAX base = Some (STRE_OK, n, []).
Proof.
  intros Hb Hn. destruct (number_chars_spec base up n Hb) as (Hv & Hd & Hne & _); [unfold CURL_OFF_T_MAX, SIZE_MAX in *; lia|].
  unfold long_text. set (d := number_chars base up n) in *. set (k := Z.to_nat (w - zlen d)). clearbody d k.
  assert (Hskip : forall l, Forall (fun c => valid_digit c (max_digit base) = true) l -> curlx_str_passblanks l = l).
  { intros l Hl. destruct l as [|c l]; [done|]. apply Forall_cons in Hl as [Hc _]. apply (digit_is_byte base c Hb) in Hc.
    cbn [curlx_str_passblanks]. unfold ISBLANK. by rewrite !(proj2 (Z.eqb_neq c _)) by lia. }
  assert (Hspan : forall l, Forall (fun c => valid_digit c (max_digit base) = true) l -> digit_span (max_digit base) l = (l, [])).
  { intros l Hl. induction Hl as [|c l Hc _ IH]; [done|]. cbn [digit_span]. by rewrite Hc, IH. }
  assert (Hread : forall l, Forall (fun c => valid_digit c (max_digit base) = true) l -> l <> [] -> digits_value base 0 l = n ->
    str_num_base l CURL_OFF_T_MAX base = Some (STRE_OK, n, [])).
  { intros l Hl Hl0 Hval. rewrite str_num_base_spec by (done || unfold CURL_OFF_T_MAX; lia). rewrite Hspan, Hval by done.
    destruct l; [done|]. by rewrite (proj2 (Z.leb_le _ _)) by lia. }
  destruct zero.
  - assert (Hz : Forall (fun c => valid_digit c (max_digit base) = true) (replicate k 48 ++ d)).
    { apply Forall_app. split; [|done]. apply Forall_replicate. by destruct Hb as [-> | [-> | ->]]. }
    rewrite Hskip by done. apply Hread; [done|by destruct k|].
    rewrite <- Hv. induction k as [|k IH]; [done|]. cbn [replicate app]. unfold digits_value in *. cbn [fold_left].
    change (curlx_hexval 48) with 0. rewrite Z.mul_0_l, Z.add_0_r. apply IH. by apply Forall_cons in Hz as [_ Hz].
  - induction k as [|k IH]; [cbn [replicate app]; rewrite Hskip by done; by apply Hread|]. exact IH.
Qed.

(** * The theorems *)

Section Printf.
Context (c_snprintf : list Z -> spec_float -> list Z).

(** The printf functions agree.  Whenever the events of a format are
    defined, [curl_mvsprintf] writes their text, [curl_msnprintf] the part of it
    that fits, [curl_mvaprintf] allocates it and [curlx_dyn_vprintf] appends it
    to a buffer, or frees the buffer and says whether it got too large or an
    allocation failed. *)
Theorem printf_family format args evs : format_events c_snprintf format args = Some evs ->
  let t := ev_text evs in
  (forall buffer, zlen t < zlen buffer -> zlen t <= INT_MAX -> exists st,
     curl_mvsprintf c_snprintf buffer format args = Some (zlen t, stored buffer 0 (t ++ [0]), st)) /\
  (forall buffer max, 0 <= max <= zlen buffer -> max <= INT_MAX -> exists st,
     curl_msnprintf c_snprintf buffer max format args =
     Some (Z.min (zlen t) (Z.max 0 (max - 1)),
           if max =? 0 then buffer else stored buffer 0 (ztake (max - 1) t ++ [0]), st)) /\
  (forall o, exists r o' st, curl_mvaprintf c_snprintf format args o = Some (r, o', st) /\
     match r with
     | Some m => exists rest, m = map Some t ++ Some 0 :: rest
     | None => false ∈ o \/ DYN_APRINTF <= zlen t
     end) /\
  (forall s b o, dyn_rep s b -> toobig s <= INT_MAX -> exists rc s' o' st,
     curlx_dyn_vprintf c_snprintf s format args o = Some (rc, s', o', st) /\ toobig s' = toobig s /\
     match rc with
     | MERR_OK => dyn_rep s' (b ++ t)
     | MERR_MEM => dyn_rep s' [] /\ false ∈ o
     | MERR_TOO_LARGE => dyn_rep s' [] /\ toobig s < zlen b + zlen t + 1
     end).
Proof.
  intros He t. split; [|split; [|split]].
  - intros buffer Hb Hi. by apply mvsprintf_spec.
  - intros buffer max Hb Hi. by apply msnprintf_spec.
  - intros o. destruct (mvaprintf_spec c_snprintf _ _ _ o He) as (r & o1 & st & E & Hm & _). by exists r, o1, st.
  - intros s b o Hs Hi. destruct (vprintf_spec c_snprintf format args evs s b o He Hs Hi) as (rc & s' & o' & st & E & Ht & _ & Hr).
    exists rc, s', o', st. split; [done|]. split; [done|]. fold t in Hr.
    destruct Hr as [[-> Hr]|[Hr [[-> Ho]|[-> Hl]]]]; done.
Qed.

(** C25: the text of a format.  For a format of literal text, percent signs and
    conversions (flags, widths and precisions given or from the arguments,
    lengths, and the conversions d, i, u, o, x, X, c, s, S, p and n) whose pieces
    render the arguments to a text, [curl_msnprintf] fills its buffer with as
    much of that text as fits and a terminator and returns the length of what it
    wrote, and [curl_mvaprintf] returns the whole text, or NULL when an
    allocation failed or the text has 8000000 bytes or more.  Where the manual
    page says what a conversion prints and the code follows it ([documented]),
    that text is the one that [doc_text] writes from the manual page. *)
Theorem printf_pieces ps args evs :
  forallb piece_ok ps = true -> zlen ps < 128 -> zlen (pieces_types ps) <= 128 -> render ps args = Some evs ->
  (forall buffer max, 0 < max <= zlen buffer -> max <= INT_MAX -> exists st,
     curl_msnprintf c_snprintf buffer max (pieces_text ps) args =
     Some (Z.min (zlen (ev_text evs)) (max - 1), stored buffer 0 (ztake (max - 1) (ev_text evs) ++ [0]), st)) /\
  (forall o, exists r o' st, curl_mvaprintf c_snprintf (pieces_text ps) args o = Some (r, o', st) /\
     match r with
     | Some m => exists rest, m = map Some (ev_text evs) ++ Some 0 :: rest
     | None => false ∈ o \/ DYN_APRINTF <= zlen (ev_text evs)
     end) /\
  (documented ps args = true -> exists d, doc_text ps args = Some d /\ ev_text evs = map u8 d).
Proof.
  intros Hok Hn Ht Hr. pose proof (format_events_pieces c_snprintf ps args evs Hok Hn Ht Hr) as He.
  destruct (printf_family _ _ _ He) as (_ & Hsn & Has & _). split; [|split; [exact Has|by apply render_documented]].
  intros buffer max Hm Hi. destruct (Hsn buffer max) as (st & E); [lia|done|].
  exists st. rewrite E, (proj2 (Z.eqb_neq max 0)) by lia. by rewrite Z.max_r by lia.
Qed.

(** C26: type safety, for formats of literal text, percent signs and the
    conversions d, i, u, o, x, X, c, s, S, p and n, without parameter numbers.
    When each argument has the type that the format asks for at its place, with
    any value of that type, and the widths and precisions of the numbers leave
    the [int] arithmetic of [out_number] in range ([pieces_fit], which
    precisions up to 2147483644 always do), all the functions are defined: no
    conversion reads a missing argument or one of another type, nothing
    overflows and nothing is stored outside of the buffer.  There is one text
    that [curl_mvsprintf] writes to a buffer with room for it, of which
    [curl_msnprintf] writes what fits, that [curl_mvaprintf] allocates and
    [curlx_dyn_vprintf] appends. *)
Theorem printf_type_safe ps args :
  forallb piece_ok ps = true -> zlen ps < 128 -> zlen (pieces_types ps) <= 128 ->
  args_typed ps args = true -> pieces_fit ps args = true ->
  exists t,
  (forall buffer, zlen t < zlen buffer -> zlen t <= INT_MAX -> exists st,
     curl_mvsprintf c_snprintf buffer (pieces_text ps) args = Some (zlen t, stored buffer 0 (t ++ [0]), st)) /\
  (forall buffer max, 0 <= max <= zlen buffer -> max <= INT_MAX -> exists st,
     curl_msnprintf c_snprintf buffer max (pieces_text ps) args =
     Some (Z.min (zlen t) (Z.max 0 (max - 1)),
           if max =? 0 then buffer else stored buffer 0 (ztake (max - 1) t ++ [0]), st)) /\
  (forall o, exists r o' st, curl_mvaprintf c_snprintf (pieces_text ps) args o = Some (r, o', st) /\
     match r with
     | Some m => exists rest, m = map Some t ++ Some 0 :: rest
     | None => false ∈ o \/ DYN_APRINTF <= zlen t
     end) /\
  (forall s b o, dyn_rep s b -> toobig s <= INT_MAX -> exists rc s' o' st,
     curlx_dyn_vprintf c_snprintf s (pieces_text ps) args o = Some (rc, s', o', st) /\ toobig s' = toobig s /\
     match rc with
     | MERR_OK => dyn_rep s' (b ++ t)
     | MERR_MEM => dyn_rep s' [] /\ false ∈ o
     | MERR_TOO_LARGE => dyn_rep s' [] /\ toobig s < zlen b + zlen t + 1
     end).
Proof.
  intros Hok Hn Ht Ha Hf. destruct (render_typed ps args Hok Ha Hf) as [evs Hr]. exists (ev_text evs).
  exact (printf_family (pieces_text ps) args evs (format_events_pieces c_snprintf ps args evs Hok Hn Ht Hr)).
Qed.

(** Numbers are read back.  A long printed by d, i, u, o, x or X in a field
    of any width, padded with spaces or with zeros, fills the field, and the
    number parser for the base of the conversion reads the same number from the
    text. *)
Theorem printf_number_roundtrip zero c base up w n buffer max : number_conv c = Some (base, up) ->
  0 <= n <= CURL_OFF_T_MAX -> 0 <= w -> Z.max w 64 < max <= zlen buffer -> max <= INT_MAX ->
  exists t st, curl_msnprintf c_snprintf buffer max (pieces_text [Conv (long_spec zero c)]) [A_int w; A_long n] =
    Some (zlen t, stored buffer 0 (t ++ [0]), st) /\ w <= zlen t /\
    str_num_base (curlx_str_passblanks t) CURL_OFF_T_MAX base = Some (STRE_OK, n, []).
Proof.
  intros Hc Hn Hw Hm Hi. assert (Hb : good_base base) by (unfold good_base; destruct c; try done; injection Hc as <- <-; lia).
  assert (Hn' : 0 <= n <= SIZE_MAX) by (unfold CURL_OFF_T_MAX, SIZE_MAX in *; lia).
  pose proof (render_long zero c base up w n Hc ltac:(lia) Hn) as Hr.
  assert (He : format_events c_snprintf (pieces_text [Conv (long_spec zero c)]) [A_int w; A_long n] =
    Some (ev_bytes (long_text zero base up w n))).
  { apply format_events_pieces; [by destruct zero|done|by destruct c|exact Hr]. }
  destruct (msnprintf_spec c_snprintf _ _ _ buffer max He) as (st & E); [lia|done|].
  rewrite ev_text_bytes in E by by apply long_text_bytes. rewrite (proj2 (Z.eqb_neq max 0)) in E by lia.
  assert (Hlen : w <= zlen (long_text zero base up w n) <= Z.max w 64).
  { destruct (number_chars_spec base up n Hb Hn') as (_ & _ & _ & Hl). unfold long_text. rewrite zlen_app.
    assert (Hrep : forall k (x : Z), zlen (replicate (Z.to_nat k) x) = Z.max 0 k) by (intros; unfold zlen; rewrite length_replicate; lia).
    rewrite Hrep. pose proof (zlen_nonneg (number_chars base up n)). lia. }
  exists (long_text zero base up w n), st. rewrite E, Z.min_l, ztake_ge by lia. split; [done|]. split; [lia|].
  by apply long_text_reads.
Qed.

End Printf.

(** C27: the parser of formats on any string.  Unless a width star is followed by
    a number behind the last parameter, the loop over the format ends, and
    when it accepts the format there are at most 128 inputs and 128 segments,
    each segment lies inside of the format, and every input that a segment
    refers to has been given a type. *)
Theorem parsefmt_in_range format : widths_ok format = true ->
  exists rc s fmt start, fmt_loop (length format) format format parse_start = Some (rc, s, fmt, start) /\
    (rc = PFMT_OK -> parse_inv format s /\ start `suffix_of` format).
Proof.
  intros Hw. destruct (fmt_loop_inv format Hw (length format) format format parse_start) as (rc & s & fmt & start & E & H);
    [apply parse_start_inv|done|done|done|].
  exists rc, s, fmt, start. split; [exact E|]. intros Hrc. destruct (H Hrc) as (H1 & _ & H2). done.
Qed.

(** * What the code does otherwise than it says *)

(** A number behind a width star is tested against the bit map of 128 inputs
    before it is compared with 128. *)
Example star_width_past_bitmap : parsefmt (str "%*1000d") [A_int 1; A_int 2] = None.
Proof. reflexivity. Qed.

(** A string shorter than its precision gets a field narrower than its width. *)
Example string_field_too_narrow :
  render [Conv (mk_spec [] (P_num 10) (P_num 5) L_none C_s)] [A_str (Some (str "ab"))] = Some (ev_bytes (str "     ab")).
Proof. reflexivity. Qed.

(** A NULL pointer is moved to the right by the flag that asks for the left. *)
Example nil_pointer_right :
  render [Conv (mk_spec [F_minus] (P_num 8) P_none L_none C_p)] [A_ptr 0] = Some (ev_bytes (str "   (nil)")).
Proof. reflexivity. Qed.

(** At most 325 digits are printed, whatever the precision asks for. *)
Example precision_truncated :
  option_map zlen (render [Conv (mk_spec [] P_none (P_num 400) L_none C_d)] [A_int 1]) = Some 325.
Proof. vm_compute. reflexivity. Qed.

(** A flag for signs is obeyed by conversions of unsigned numbers. *)
Example unsigned_with_sign :
  render [Conv (mk_spec [F_plus] P_none P_none L_none C_u)] [A_uint 5] = Some (ev_bytes (str "+5")).
Proof. reflexivity. Qed.

(** A single point is no precision of zero, the format is refused. *)
Example single_point_refused :
  (fun r => fst (fst r)) <$> parsefmt (str "%.d") [A_int 7] = Some PFMT_PREC.
Proof. vm_compute. reflexivity. Qed.

(** A negative precision in the format is not taken as if it were omitted: a
    zero has no digits. *)
Example negative_precision_kept :
  format_events (fun _ _ => []) (str "%.-5d") [A_int 0] = Some [] /\
  format_events (fun _ _ => []) (str "%.*d") [A_int (-5); A_int 0] = Some (ev_bytes (str "0")).
Proof. split; vm_compute; reflexivity. Qed.

(** The modifier h does not make the argument a short. *)
Example short_not_narrowed :
  render [Conv (mk_spec [] P_none P_none L_h C_d)] [A_int 70000] = Some (ev_bytes (str "70000")).
Proof. reflexivity. Qed.

(** The loop of [out_double] that makes room for the digits of an infinity does
    not end. *)
Lemma infinity_never_scaled fuel maxprec : scale_down fuel (S754_infinity false) maxprec = None.
Proof.
  revert maxprec; induction fuel as [|fuel IH]; intros maxprec; [done|]. cbn [scale_down].
  change (SFleb ten (S754_infinity false)) with true. cbn iota. apply IH.
Qed.

(** * Witnesses *)

Definition demo_pieces : list piece :=
  [Lit (str "size "); Conv (mk_spec [F_zero] P_star P_none L_l C_d); Percent; Lit (str " of ");
   Conv (mk_spec [F_minus; F_alt] (P_num 6) (P_num 3) L_none C_x); Conv (mk_spec [] P_none P_none L_none C_s)].

Definition demo_args : list va_arg := [A_int 5; A_long 42; A_uint 255; A_str (Some (str "!"))].

Lemma printf_pieces_witness :
  pieces_text demo_pieces = str "size %0*ld%% of %-#6.3x%s" /\
  (exists st, curl_msnprintf (fun _ _ => []) (uninit 40) 40 (pieces_text demo_pieces) demo_args =
    Some (Z.min 22 39, stored (uninit 40) 0 (ztake 39 (str "size 00042% of 0x0ff !") ++ [0]), st)).
Proof.
  split; [reflexivity|].
  destruct (printf_pieces (fun _ _ => []) demo_pieces demo_args (ev_bytes (str "size 00042% of 0x0ff !"))) as [H _];
    [reflexivity|reflexivity|vm_compute; discriminate|vm_compute; reflexivity|].
  destruct (H (uninit 40) 40) as (st & E); [vm_compute; split; [reflexivity|discriminate]|vm_compute; discriminate|].
  exists st. exact E.
Defined.

(** A format whose text is that of the manual. *)
Example documented_demo :
  let ps := [Conv (mk_spec [F_plus; F_zero] (P_num 8) (P_num 3) L_l C_d); Lit (str "|");
             Conv (mk_spec [] P_star P_none L_none C_X); Conv (mk_spec [] (P_num 5) (P_num 2) L_none C_s);
             Conv (mk_spec [F_zero] (P_num 8) P_none L_none C_p); Conv (mk_spec [F_minus] (P_num 3) P_none L_none C_c)] in
  let args := [A_long 42; A_int (-6); A_uint 48879; A_str (Some (str "abc")); A_ptr 255; A_int 65] in
  documented ps args = true /\ doc_text ps args = Some (str "+0000042|BEEF     ab0x0000ffA  ").
Proof. split; vm_compute; reflexivity. Qed.

(** Every conversion of the demo but the string is a number with a precision or
    a width, the second the largest that fits. *)
Definition typed_pieces : list piece :=
  demo_pieces ++ [Conv (mk_spec [] P_none (P_num INT_MAX) L_none C_d); Conv (mk_spec [] P_star P_star L_none C_i)].

Definition typed_args : list va_arg := demo_args ++ [A_int 0; A_int INT_MIN; A_int INT_MIN; A_int INT_MIN].

Lemma printf_type_safe_witness :
  args_typed typed_pieces typed_args = true /\ pieces_fit typed_pieces typed_args = true /\
  exists t,
  (forall buffer max, 0 <= max <= zlen buffer -> max <= INT_MAX -> exists st,
     curl_msnprintf (fun _ _ => []) buffer max (pieces_text typed_pieces) typed_args =
     Some (Z.min (zlen t) (Z.max 0 (max - 1)),
           if max =? 0 then buffer else stored buffer 0 (ztake (max - 1) t ++ [0]), st)).
Proof.
  split; [vm_compute; reflexivity|]. split; [vm_compute; reflexivity|].
  destruct (printf_type_safe (fun _ _ => []) typed_pieces typed_args) as (t & _ & H & _);
    [vm_compute; reflexivity|reflexivity|vm_compute; discriminate|vm_compute; reflexivity|vm_compute; reflexivity|].
  exists t. exact H.
Defined.

(** A precision near the largest [int] overflows: for a negative number, whose
    sign takes one more place, and, written as a negative number, for any
    number of more than one digit. *)
Example large_precision_overflows :
  curl_mvsprintf (fun _ _ => []) (uninit 400) (str "%.2147483647d") [A_int (-1)] = None.
Proof. vm_compute. reflexivity. Qed.

Example negative_precision_overflows :
  curl_mvsprintf (fun _ _ => []) (uninit 400) (str "%.-2147483647d") [A_int 10] = None.
Proof. vm_compute. reflexivity. Qed.

(** A format with parameter numbers, which is not one of pieces. *)
Lemma printf_family_witness :
  exists st, curl_mvsprintf (fun _ _ => []) (uninit 8) (str "%2$s %1$*3$d") [A_int (-7); A_str (Some (str "x")); A_int 4] =
    Some (6, stored (uninit 8) 0 (str "x   -7" ++ [0]), st).
Proof.
  destruct (printf_family (fun _ _ => []) (str "%2$s %1$*3$d") [A_int (-7); A_str (Some (str "x")); A_int 4]
    (ev_bytes (str "x   -7"))) as [H _]; [vm_compute; reflexivity|].
  apply (H (uninit 8)); [reflexivity|vm_compute; discriminate].
Defined.

Lemma printf_number_roundtrip_witness :
  exists t st, curl_msnprintf (fun _ _ => []) (uninit 80) 80 (str "%0*lX") [A_int 6; A_long 48879] =
    Some (zlen t, stored (uninit 80) 0 (t ++ [0]), st) /\ 6 <= zlen t /\
    str_num_base (curlx_str_passblanks t) CURL_OFF_T_MAX 16 = Some (STRE_OK, 48879, []).
Proof.
  apply (printf_number_roundtrip (fun _ _ => []) true C_X 16 true 6 48879 (uninit 80) 80);
    [reflexivity|vm_compute; split; discriminate|discriminate|vm_compute; split; [reflexivity|discriminate]|vm_compute; discriminate].
Defined.

Lemma parsefmt_in_range_witness :
  widths_ok (str "%*1000d") = false /\
  exists rc s fmt start,
    fmt_loop (length (str "%1$d %q %.3s%")) (str "%1$d %q %.3s%") (str "%1$d %q %.3s%") parse_start = Some (rc, s, fmt, start) /\
    (rc = PFMT_OK -> parse_inv (str "%1$d %q %.3s%") s /\ start `suffix_of` str "%1$d %q %.3s%").
Proof. split; [reflexivity|]. apply (parsefmt_in_range (str "%1$d %q %.3s%")). reflexivity. Defined.
