(* ===== verification/Urlglob.v ===== *)
(** URL globs of the command line tool, src/src/tool_urlglob.c.

    A glob is a list of patterns: fixed texts, sets, letter and number ranges.
    The entries in use are the list [pattern]; the entry behind them, which the
    parsing functions fill before [add_glob] counts it, is their result.  Each
    allocation asks the oracle, and the URL parser that [peek_ipv6] asks for a
    verdict on a text in brackets is a parameter.  The parser is proved against
    the texts of globs, the iteration against the product of the patterns. *)

From Stdlib Require Import ZArith Lia List String SpecFloat.
From stdpp Require Import base numbers option list.
From S2P Require Import Prelude Dynbuf Strparse InetAddr Parsedate Mprintf PrintfSpec PrintfFormat PrintfPieces PrintfTheorems.
Close Scope nat_scope.
Open Scope Z_scope.

(** * Data *)

Inductive globc :=
  | GLOB_SET (elem : list (list Z)) (idx palloc : Z)
  | GLOB_ASCII (min max letter step : Z)
  | GLOB_NUM (min max idx step npad : Z).

Record URLPattern := mk_pattern { pat_name : option (list Z); globindex : Z; pat_c : globc }.

Record URLGlob := mk_glob {
  glob_buf : dynbuf;
  pattern : list URLPattern;
  glob_palloc : Z;
  beenhere : bool;
  glob_error : option string;
  glob_pos : Z;
}.

Definition pnum (g : URLGlob) : Z := zlen (pattern g).

Definition set_buf b g := mk_glob b (pattern g) (glob_palloc g) (beenhere g) (glob_error g) (glob_pos g).
Definition set_pattern p g := mk_glob (glob_buf g) p (glob_palloc g) (beenhere g) (glob_error g) (glob_pos g).
Definition set_palloc n g := mk_glob (glob_buf g) (pattern g) n (beenhere g) (glob_error g) (glob_pos g).
Definition set_beenhere b g := mk_glob (glob_buf g) (pattern g) (glob_palloc g) b (glob_error g) (glob_pos g).

(** The code it returns is the argument [error] of the function. *)
Definition globerror (g : URLGlob) (err : option string) (pos : Z) : URLGlob :=
  mk_glob (glob_buf g) (pattern g) (glob_palloc g) (beenhere g) err pos.

(** What the parser threads through its functions: the glob, the position,
    the number of URLs and the allocations to come. *)
Record gstate := mk_gs { gs_glob : URLGlob; gs_pos : Z; gs_amount : Z; gs_o : allocs }.

Definition gs_fail (err : option string) (pos : Z) (s : gstate) : gstate :=
  mk_gs (globerror (gs_glob s) err pos) (gs_pos s) (gs_amount s) (gs_o s).
Definition gs_set_glob g s := mk_gs g (gs_pos s) (gs_amount s) (gs_o s).
Definition gs_set_o o s := mk_gs (gs_glob s) (gs_pos s) (gs_amount s) o.
Definition gs_set_amount a s := mk_gs (gs_glob s) (gs_pos s) a (gs_o s).
Definition gs_move n s := mk_gs (gs_glob s) (gs_pos s + n) (gs_amount s) (gs_o s).

(** A result: the code, the state and a value when the code is [CURLE_OK]. *)
Abbreviation gresult A := (option (CURLcode * gstate * option A)).

(** [curlx_malloc], [curlx_strdup] and the like. *)
Definition galloc (s : gstate) : bool * gstate :=
  let '(ok, o) := next_alloc (gs_o s) in (ok, gs_set_o o s).

(** [curlx_dyn_addn(&glob->buf, p, n)] *)
Definition buf_addn (b : list Z) (s : gstate) : option (CURLcode * gstate) :=
  '(buf, r, o) ← curlx_dyn_addn (glob_buf (gs_glob s)) b (gs_o s);
  Some (r, gs_set_o o (gs_set_glob (set_buf buf (gs_glob s)) s)).

Definition buf_reset (s : gstate) : option gstate :=
  buf ← curlx_dyn_reset (glob_buf (gs_glob s));
  Some (gs_set_glob (set_buf buf (gs_glob s)) s).

(** A store to [glob->pattern[glob->pnum]] stays in the array. *)
Definition slot_ok (s : gstate) : bool := pnum (gs_glob s) <? glob_palloc (gs_glob s).

(** * Parsing *)

Definition glob_fixed (fixed : list Z) (s : gstate) : gresult URLPattern :=
  if negb (slot_ok s) then None
  else
    let '(ok, s) := galloc s in
    if negb ok then Some (CURLE_OUT_OF_MEMORY, gs_fail None 0 s, None)
    else
      let '(ok, s) := galloc s in
      if negb ok then Some (CURLE_OUT_OF_MEMORY, gs_fail None 0 s, None)
      else Some (CURLE_OK, s, Some (mk_pattern None (-1) (GLOB_SET [fixed] 0 1))).

(** [None] for an amount that does not fit. *)
Definition multiply (amount with_ : Z) : option Z :=
  if (with_ <=? 0) || (amount <=? 0) then Some 0
  else if amount * with_ >? CURL_OFF_T_MAX then None
  else Some (amount * with_).

(** The [case ','] of [glob_set]: the text in the buffer becomes an element. *)
Definition set_add (elem : list (list Z)) (palloc : Z) (s : gstate) : gresult (list (list Z) * Z) :=
  if zlen elem >=? 100000 then Some (CURLE_URL_MALFORMAT, gs_fail (Some "range overflow"%string) 0 s, None)
  else
    let '(ok, s, palloc) :=
      (if palloc =? 0 then let '(ok, s) := galloc s in (ok, s, 5)
       else if zlen elem >=? palloc then let '(ok, s) := galloc s in (ok, s, palloc * 2)
       else (true, s, palloc)) in
    if negb ok then Some (CURLE_OUT_OF_MEMORY, gs_fail None 0 s, None)
    else
      text ← dyn_text (glob_buf (gs_glob s));
      let '(ok, s) := galloc s in
      if negb ok then Some (CURLE_OUT_OF_MEMORY, gs_fail None 0 s, None)
      else
        s ← buf_reset s;
        Some (CURLE_OK, s, Some (elem ++ [text], palloc)).

(** The loop of [glob_set]; [first] says that [pattern] is where it started. *)
Fixpoint set_loop (pattern : list Z) (first : bool) (elem : list (list Z)) (palloc : Z) (s : gstate)
    : gresult (list Z * list (list Z) * Z) :=
  match pattern with
  | [] => Some (CURLE_URL_MALFORMAT, gs_fail (Some "unmatched brace"%string) (gs_pos s) s, None)
  | c :: pattern =>
      if c =? 0 then Some (CURLE_URL_MALFORMAT, gs_fail (Some "unmatched brace"%string) (gs_pos s) s, None)
      else if (c =? 123) || (c =? 91) then
        Some (CURLE_URL_MALFORMAT, gs_fail (Some "nested brace"%string) (gs_pos s) s, None)
      else if c =? 125 then
        if first then
          Some (CURLE_URL_MALFORMAT, gs_fail (Some "empty string within braces"%string) (gs_pos s) s, None)
        else
          match multiply (gs_amount s) (zlen elem + 1) with
          | None => Some (CURLE_URL_MALFORMAT, gs_fail (Some "range overflow"%string) 0 s, None)
          | Some amount =>
              '(r, s, v) ← set_add elem palloc (gs_set_amount amount s);
              match v with
              | None => Some (r, s, None)
              | Some (elem, palloc) => Some (CURLE_OK, s, Some (pattern, elem, palloc))
              end
          end
      else if c =? 44 then
        '(r, s, v) ← set_add elem palloc s;
        match v with
        | None => Some (r, s, None)
        | Some (elem, palloc) => set_loop pattern false elem palloc (gs_move 1 s)
        end
      else if c =? 93 then
        Some (CURLE_URL_MALFORMAT, gs_fail (Some "unexpected close bracket"%string) (gs_pos s) s, None)
      else
        match pattern with
        | d :: pattern' =>
            if (c =? 92) && negb (d =? 0) then
              '(r, s) ← buf_addn [d] (gs_move 1 s);
              if is_ok r then set_loop pattern' false elem palloc (gs_move 1 s)
              else Some (CURLE_OUT_OF_MEMORY, s, None)
            else
              '(r, s) ← buf_addn [c] s;
              if is_ok r then set_loop pattern false elem palloc (gs_move 1 s)
              else Some (CURLE_OUT_OF_MEMORY, s, None)
        | [] =>
            '(r, s) ← buf_addn [c] s;
            if is_ok r then set_loop pattern false elem palloc (gs_move 1 s)
            else Some (CURLE_OUT_OF_MEMORY, s, None)
        end
  end.

(** The name of a pattern, copied when there is one. *)
Definition dup_name (name : Curl_str) (s : gstate) : bool * gstate * option (list Z) :=
  if negb (str_len name =? 0) then
    let '(ok, s) := galloc s in (ok, s, if (ok : bool) then Some (str_bytes name) else None)
  else (true, s, None).

Definition glob_set (patternp : list Z) (index : Z) (name : Curl_str) (s : gstate)
    : gresult (list Z * URLPattern) :=
  '(r, s, v) ← set_loop patternp true [] 0 s;
  match v with
  | None => Some (r, s, None)
  | Some (pattern, elem, palloc) =>
      if negb (slot_ok s) then None
      else
        let '(ok, s, name) := dup_name name s in
        if negb ok then Some (CURLE_OUT_OF_MEMORY, s, None)
        else Some (CURLE_OK, s, Some (pattern, mk_pattern name index (GLOB_SET elem 0 palloc)))
  end.

(** A [char] is signed. *)
Definition schar (c : Z) : Z := if c >=? 128 then c - 256 else c.

(** The letters and the step of a character range, and what is behind it:
    [None] when the three characters do not match. *)
Definition ascii_range (pattern : list Z) : option (option (Z * Z * Z) * list Z) :=
  if (at_ pattern 1 =? 45) && negb (at_ pattern 2 =? 0) && negb (at_ pattern 3 =? 0) then
    let min_c := schar (at_ pattern 0) in
    let max_c := schar (at_ pattern 2) in
    let end_c := at_ pattern 3 in
    if end_c =? 58 then
      '(rc, num, p) ← curlx_str_number (drop 4 pattern) 256;
      match rc with
      | STRE_OK =>
          let '(rc, p) := curlx_str_single p 93 in
          Some (Some (min_c, max_c, match rc with STRE_OK => u8 num | _ => 0 end), p)
      | _ => Some (Some (min_c, max_c, 0), p)
      end
    else if negb (end_c =? 93) then Some (None, pattern)
    else Some (Some (min_c, max_c, 1), drop 4 pattern)
  else Some (None, pattern).

Definition bad_ascii (min_c max_c step : Z) : bool :=
  (step =? 0) || ((min_c =? max_c) && negb (step =? 1)) ||
  (negb (min_c =? max_c) && ((min_c >? max_c) || (step >? u32 (max_c - min_c)) || (max_c - min_c >? 25))).

Definition bad_num (min_n max_n step_n : Z) : bool :=
  (step_n =? 0) || ((min_n =? max_n) && negb (step_n =? 1)) ||
  (negb (min_n =? max_n) && ((min_n >? max_n) || (step_n >? max_n - min_n))).

(** The digits counted for a number with leading zeroes. *)
Fixpoint count_digits (c : list Z) : Z :=
  match c with [] => 0 | d :: c => if ISDIGIT d then 1 + count_digits c else 0 end.

(** The numbers of a range, 0 for what is not read, and what is behind it. *)
Definition num_range (pattern : list Z) : option (Z * Z * Z * list Z) :=
  '(rc, num, p) ← curlx_str_number pattern CURL_OFF_T_MAX;
  match rc with
  | STRE_OK =>
      let min_n := num in
      let '(rc, p) := curlx_str_single p 45 in
      match rc with
      | STRE_OK =>
          let p := curlx_str_passblanks p in
          '(rc, num, p) ← curlx_str_number p CURL_OFF_T_MAX;
          match rc with
          | STRE_OK =>
              let max_n := num in
              let '(rc, p) := curlx_str_single p 93 in
              match rc with
              | STRE_OK => Some (min_n, max_n, 1, p)
              | _ =>
                  let '(rc, p) := curlx_str_single p 58 in
                  match rc with
                  | STRE_OK =>
                      '(rc, num, p) ← curlx_str_number p CURL_OFF_T_MAX;
                      match rc with
                      | STRE_OK =>
                          let '(rc, p) := curlx_str_single p 93 in
                          Some (min_n, max_n, match rc with STRE_OK => num | _ => 0 end, p)
                      | _ => Some (min_n, max_n, 0, p)
                      end
                  | _ => Some (min_n, max_n, 0, p)
                  end
              end
          | _ => Some (min_n, 0, 0, p)
          end
      | _ => Some (min_n, 0, 0, p)
      end
  | _ => Some (0, 0, 0, p)
  end.

(** [glob_range]; the entry behind the patterns is stored to from the start. *)
Definition glob_range (patternp : list Z) (index : Z) (name : Curl_str) (s : gstate)
    : gresult (list Z * URLPattern) :=
  let bad msg pos s := Some (CURLE_URL_MALFORMAT, gs_fail (Some msg) pos s, None) in
  let named pattern c s :=
    let '(ok, s, name) := dup_name name s in
    if negb ok then Some (CURLE_OUT_OF_MEMORY, s, None)
    else Some (CURLE_OK, s, Some (pattern, mk_pattern name index c)) in
  if negb (slot_ok s) then None
  else if ISALPHA (deref patternp) then
    '(range, pattern) ← ascii_range patternp;
    let s := gs_move (zlen patternp - zlen pattern) s in
    match range with
    | None => bad "bad range"%string (gs_pos s) s
    | Some (min_c, max_c, step) =>
        if bad_ascii min_c max_c step then bad "bad range"%string (gs_pos s) s
        else
          match multiply (gs_amount s) (Z.quot (u8 max_c - u8 min_c) step + 1) with
          | None => bad "range overflow"%string (gs_pos s) s
          | Some amount => named pattern (GLOB_ASCII (u8 min_c) (u8 max_c) (u8 min_c) step) (gs_set_amount amount s)
          end
    end
  else if ISDIGIT (deref patternp) then
    npad ← (if deref patternp =? 48 then int (count_digits patternp) else Some 0);
    '(min_n, max_n, step_n, pattern) ← num_range patternp;
    let s := gs_move (zlen patternp - zlen pattern) s in
    if bad_num min_n max_n step_n then bad "bad range"%string (gs_pos s) s
    else if CURL_OFF_T_MAX - step_n <? max_n then bad "range end/step overflow"%string (gs_pos s) s
    else
      match multiply (gs_amount s) (Z.quot (max_n - min_n) step_n + 1) with
      | None => bad "range overflow"%string (gs_pos s) s
      | Some amount => named pattern (GLOB_NUM min_n max_n min_n step_n npad) (gs_set_amount amount s)
      end
  else bad "bad range specification"%string (gs_pos s) s.

Definition MAX_IP6LEN : Z := 128.
Definition MAX_GLOBNAME_LEN : Z := 64.
Definition MAX_CONFIG_LINE_LENGTH : Z := 10 * 1024 * 1024.

(** [strchr], as an offset. *)
Fixpoint strchr (s : list Z) (c : Z) : option Z :=
  match s with
  | [] => None
  | x :: s => if x =? c then Some 0 else if x =? 0 then None else Z.succ <$> strchr s c
  end.

(** The state of the array of patterns with one more of them in use. *)
Definition add_glob (pat : URLPattern) (s : gstate) : CURLcode * gstate :=
  let g := gs_glob s in
  let g := set_pattern (pattern g ++ [pat]) g in
  if pnum g >=? glob_palloc g then
    let s := gs_set_glob (set_palloc (glob_palloc g * 2) g) s in
    if pnum g <? 255 then
      let '(ok, s) := galloc s in
      if negb ok then (CURLE_OUT_OF_MEMORY, gs_fail None (gs_pos s) s) else (CURLE_OK, s)
    else (CURLE_URL_MALFORMAT, gs_fail (Some "too many {} sets"%string) (gs_pos s) s)
  else (CURLE_OK, gs_set_glob g s).

Fixpoint find_name (l : list URLPattern) (name : Curl_str) : option URLPattern :=
  match l with
  | [] => None
  | pat :: l =>
      if (match pat_name pat with Some n => curlx_str_cmp name (Some n) | None => false end) then Some pat
      else find_name l name
  end.

Definition glob_find_name (g : URLGlob) (name : Curl_str) : option URLPattern := find_name (pattern g) name.

Section Parse.

(** [curl_url_set(u, CURLUPART_URL, text, CURLU_GUESS_SCHEME)] on a new handle:
    its verdict on a text, which may depend on the allocations it makes. *)
Context (curl_url_set : list Z -> allocs -> CURLUcode * allocs).

(** The code, [*skip] and [*ipv6p]. *)
Definition peek_ipv6 (str : list Z) (s : gstate) : CURLcode * Z * bool * gstate :=
  match strchr str 93 with
  | None => (CURLE_OK, 0, false, s)
  | Some endbr =>
      let hlen := endbr + 1 in
      if hlen >=? MAX_IP6LEN then (CURLE_OK, 0, false, s)
      else
        let '(ok, s) := galloc s in
        if negb ok then (CURLE_OUT_OF_MEMORY, 0, false, s)
        else
          let '(rc, o) := curl_url_set (ztake hlen str) (gs_o s) in
          let s := gs_set_o o s in
          match rc with
          | CURLUE_OUT_OF_MEMORY => (CURLE_OUT_OF_MEMORY, 0, false, s)
          | CURLUE_OK => (CURLE_OK, hlen, true, s)
          | _ => (CURLE_OK, 0, false, s)
          end
  end.

(** The inner loop of [glob_parse]: literal text goes to the buffer.  The value
    is the rest of the pattern; every round takes a byte. *)
Fixpoint literal_loop (fuel : nat) (pattern : list Z) (s : gstate) : gresult (list Z) :=
  let c := deref pattern in
  if (c =? 0) || (c =? 123) then Some (CURLE_OK, s, Some pattern)
  else
    match fuel with
    | O => None
    | S fuel =>
        if c =? 91 then
          let '(result, skip, ipv6, s) := peek_ipv6 pattern s in
          if negb (is_ok result) then Some (result, s, None)
          else
            let skip := if negb ipv6 && (at_ pattern 1 =? 93) then 2 else skip in
            if negb (skip =? 0) then
              '(r, s) ← buf_addn (ztake skip pattern) s;
              if is_ok r then literal_loop fuel (zdrop skip pattern) s
              else Some (CURLE_OUT_OF_MEMORY, s, None)
            else Some (CURLE_OK, s, Some pattern)
        else if (c =? 125) || (c =? 93) then
          Some (CURLE_URL_MALFORMAT, gs_fail (Some "unmatched close brace/bracket"%string) (gs_pos s) s, None)
        else
          let d := at_ pattern 1 in
          let esc := (c =? 92) && ((d =? 123) || (d =? 91) || (d =? 125) || (d =? 93)) in
          let '(pattern, s) := if esc then (drop 1 pattern, gs_move 1 s) else (pattern, s) in
          '(r, s) ← buf_addn [deref pattern] s;
          if is_ok r then literal_loop fuel (drop 1 pattern) (gs_move 1 s)
          else Some (CURLE_OUT_OF_MEMORY, s, None)
    end.

(** The name of a glob, and the pattern behind it: [None] for none. *)
Definition glob_name (pattern : list Z) : option (Curl_str * list Z) :=
  match curlx_str_single pattern 60 with
  | (STRE_OK, p) =>
      match curlx_str_until p MAX_GLOBNAME_LEN 62 with
      | (STRE_OK, p, name) =>
          match curlx_str_single p 62 with (STRE_OK, p) => Some (name, p) | _ => None end
      | _ => None
      end
  | _ => None
  end.

(** What [glob_parse] does at a brace or a bracket; [pattern] is behind it. *)
Definition glob_entry (ipattern start : list Z) (set : bool) (index : Z) (s : gstate) : gresult (list Z) :=
  let '(name, pattern, pos) :=
    match glob_name start with
    | Some (name, p) => (name, p, zlen start - zlen p)
    | None => (curlx_str_init, start, 0)
    end in
  if negb (pos =? 0) && (match glob_find_name (gs_glob s) name with Some _ => true | None => false end) then
    Some (CURLE_URL_MALFORMAT, gs_fail (Some "Duplicate glob name"%string) (zlen ipattern - zlen pattern) s, None)
  else
    let s := gs_move pos s in
    '(r, s, v) ← (if set then glob_set pattern index name s else glob_range pattern index name s);
    match v with
    | None => Some (r, s, None)
    | Some (pattern, pat) =>
        let '(r, s) := add_glob pat s in
        Some (r, s, if is_ok r then Some pattern else None)
    end.

(** The literal text in the buffer becomes a pattern. *)
Definition add_literal (s : gstate) : option (CURLcode * gstate) :=
  m ← curlx_dyn_ptr (glob_buf (gs_glob s));
  fixed ← mem_read m 0 (curlx_dyn_len (glob_buf (gs_glob s)));
  '(r, s, v) ← glob_fixed fixed s;
  let '(r, s) := match v with Some pat => add_glob pat s | None => (r, s) end in
  s ← buf_reset s;
  Some (r, s).

(** The outer loop of [glob_parse]; every round takes a byte or is the last. *)
Fixpoint parse_loop (fuel : nat) (ipattern pattern : list Z) (index : Z) (s : gstate) : option (CURLcode * gstate) :=
  if deref pattern =? 0 then Some (CURLE_OK, s)
  else
    match fuel with
    | O => None
    | S fuel =>
        '(r, s, v) ← literal_loop (length pattern) pattern s;
        match v with
        | None => Some (r, s)
        | Some pattern =>
            if negb (curlx_dyn_len (glob_buf (gs_glob s)) =? 0) then
              '(r, s) ← add_literal s;
              if is_ok r then parse_loop fuel ipattern pattern index s else Some (r, s)
            else
              let c := deref pattern in
              if c =? 0 then Some (CURLE_OK, s)
              else if (c =? 123) || (c =? 91) then
                '(r, s, v) ← glob_entry ipattern (drop 1 pattern) (c =? 123) index (gs_move 1 s);
                match v with
                | Some pattern => parse_loop fuel ipattern pattern (index + 1) s
                | None => Some (r, s)
                end
              else parse_loop fuel ipattern pattern index s
        end
    end.

Definition glob_parse (pattern : list Z) (g : URLGlob) (pos : Z) (o : allocs) : option (CURLcode * gstate) :=
  parse_loop (S (length pattern)) pattern pattern 0 (mk_gs g pos 1 o).

(** The code, the glob, [*urlnum] when it is stored, and the allocations left;
    the error text that is printed is left out. *)
Definition glob_url (url : list Z) (o : allocs) : option (CURLcode * URLGlob * option Z * allocs) :=
  let g := mk_glob (curlx_dyn_init MAX_CONFIG_LINE_LENGTH) [] 0 false None 0 in
  let '(ok, o) := next_alloc o in
  if negb ok then Some (CURLE_OUT_OF_MEMORY, g, None, o)
  else
    '(r, s) ← glob_parse url (set_palloc 2 g) 1 o;
    if is_ok r then Some (CURLE_OK, gs_glob s, Some (gs_amount s), gs_o s)
    else Some (r, gs_glob s, Some 1, gs_o s).

End Parse.

(** * Iteration *)

Definition glob_inuse (g : URLGlob) : bool := negb (glob_palloc g =? 0).

(** A pattern moved on by one, and the carry. *)
Definition next_pattern (pat : URLPattern) : URLPattern * bool :=
  let set c := mk_pattern (pat_name pat) (globindex pat) c in
  match pat_c pat with
  | GLOB_SET elem idx palloc =>
      if negb (palloc =? 0) then
        if idx + 1 =? zlen elem then (set (GLOB_SET elem 0 palloc), true)
        else (set (GLOB_SET elem (idx + 1) palloc), false)
      else (pat, false)
  | GLOB_ASCII mn mx letter step =>
      if letter + step >? mx then (set (GLOB_ASCII mn mx mn step), true)
      else (set (GLOB_ASCII mn mx (letter + step) step), false)
  | GLOB_NUM mn mx idx step npad =>
      if idx + step >? mx then (set (GLOB_NUM mn mx mn step npad), true)
      else (set (GLOB_NUM mn mx (idx + step) step npad), false)
  end.

(** The loop over the patterns from the last to the first, while it carries. *)
Fixpoint next_patterns (rev_patterns : list URLPattern) : list URLPattern * bool :=
  match rev_patterns with
  | [] => ([], true)
  | pat :: l =>
      let '(pat, carry) := next_pattern pat in
      if carry then let '(l, carry) := next_patterns l in (pat :: l, carry) else (pat :: l, false)
  end.

Section Output.
Context (c_snprintf : list Z -> spec_float -> list Z).

(** The current value of a pattern goes to a buffer. *)
Definition add_value (pat : URLPattern) (b : dynbuf) (o : allocs) : option (dynbuf * CURLcode * allocs) :=
  match pat_c pat with
  | GLOB_SET elem idx palloc =>
      if negb (palloc =? 0) then
        e ← (if idx <? 0 then None else elem !! Z.to_nat idx);
        curlx_dyn_add b e o
      else Some (b, CURLE_OK, o)
  | GLOB_ASCII _ _ letter _ => curlx_dyn_addn b [u8 letter] o
  | GLOB_NUM _ _ idx _ npad => curlx_dyn_addf c_snprintf b (str "%0*ld") [A_int npad; A_long idx] o
  end.

Fixpoint add_values (l : list URLPattern) (b : dynbuf) (o : allocs) : option (dynbuf * CURLcode * allocs) :=
  match l with
  | [] => Some (b, CURLE_OK, o)
  | pat :: l =>
      '(b, r, o) ← add_value pat b o;
      if is_ok r then add_values l b o else Some (b, CURLE_OUT_OF_MEMORY, o)
  end.

(** The code, [*globbed] and the glob. *)
Definition glob_next_url (g : URLGlob) (o : allocs) : option (CURLcode * option (list Z) * URLGlob * allocs) :=
  b ← curlx_dyn_reset (glob_buf g);
  let g := set_buf b g in
  let '(g, carry) :=
    if negb (beenhere g) then (set_beenhere true g, false)
    else
      let '(l, carry) := next_patterns (reverse (pattern g)) in
      (set_pattern (reverse l) g, carry) in
  if carry then Some (CURLE_OK, None, g, o)
  else
    '(b, r, o) ← add_values (pattern g) (glob_buf g) o;
    let g := set_buf b g in
    if negb (is_ok r) then Some (CURLE_OUT_OF_MEMORY, None, g, o)
    else
      text ← dyn_text b;
      let '(ok, o) := next_alloc o in
      if ok then Some (CURLE_OK, Some text, g, o) else Some (CURLE_OUT_OF_MEMORY, None, g, o).

(** * File names *)

Definition MAX_OUTPUT_GLOB_LENGTH : Z := 1024 * 1024.

Fixpoint find_index (l : list URLPattern) (num : Z) : option URLPattern :=
  match l with
  | [] => None
  | pat :: l => if globindex pat =? num then Some pat else find_index l num
  end.

(** The pattern a reference stands for and the file name behind it, or none:
    the error is that of a name which no glob has. *)
Definition file_ref (filename : list Z) (g : URLGlob) (g2 : option URLGlob)
    : option (CURLcode * option (URLPattern * list Z)) :=
  if glob_inuse g && (deref filename =? 35) && ISDIGIT (at_ filename 1) then
    '(rc, num, p) ← curlx_str_number (drop 1 filename) (pnum g);
    match rc with
    | STRE_OK =>
        if num =? 0 then Some (CURLE_OK, None)
        else
          match find_index (pattern g) (num - 1) with
          | Some pat => Some (CURLE_OK, Some (pat, p))
          | None => Some (CURLE_OK, None)
          end
    | _ => Some (CURLE_OK, None)
    end
  else if (deref filename =? 35) && (at_ filename 1 =? 60) then
    match curlx_str_until (drop 2 filename) MAX_GLOBNAME_LEN 62 with
    | (STRE_OK, p, name) =>
        match curlx_str_single p 62 with
        | (STRE_OK, p) =>
            let pat := if glob_inuse g then glob_find_name g name else None in
            let pat :=
              match pat, g2 with
              | None, Some g2 => if glob_inuse g2 then glob_find_name g2 name else None
              | _, _ => pat
              end in
            match pat with
            | Some pat => Some (CURLE_OK, Some (pat, p))
            | None => Some (CURLE_BAD_FUNCTION_ARGUMENT, None)
            end
        | _ => Some (CURLE_OK, None)
        end
    | _ => Some (CURLE_OK, None)
    end
  else Some (CURLE_OK, None).

(** The loop of [glob_match_url]; every round takes a byte.  A failed
    [glob_match_url] has no value. *)
Fixpoint match_loop (fuel : nat) (filename : list Z) (g : URLGlob) (g2 : option URLGlob) (dyn : dynbuf) (o : allocs)
    : option (dynbuf * CURLcode * allocs) :=
  if deref filename =? 0 then Some (dyn, CURLE_OK, o)
  else
    match fuel with
    | O => None
    | S fuel =>
        '(r, ref) ← file_ref filename g g2;
        if negb (is_ok r) then Some (curlx_dyn_free dyn, r, o)
        else
          let '(add, rest) :=
            match ref with
            | Some (pat, p) => (add_value pat dyn o, p)
            | None => (curlx_dyn_addn dyn [deref filename] o, drop 1 filename)
            end in
          '(dyn, r, o) ← add;
          if is_ok r then match_loop fuel rest g g2 dyn o else Some (dyn, r, o)
    end.

(** The code and the block of [*output]; the error text that an unknown name
    leaves in the glob is left out. *)
Definition glob_match_url (filename : list Z) (g : URLGlob) (g2 : option URLGlob) (o : allocs)
    : option (CURLcode * option mem * allocs) :=
  '(dyn, r, o) ← match_loop (length filename) filename g g2 (curlx_dyn_init MAX_OUTPUT_GLOB_LENGTH) o;
  if negb (is_ok r) then Some (r, None, o)
  else
    '(dyn, r, o) ← curlx_dyn_addn dyn [] o;
    if is_ok r then Some (CURLE_OK, curlx_dyn_ptr dyn, o) else Some (CURLE_OUT_OF_MEMORY, None, o).

End Output.
