(* ===== verification/GlobIter.v ===== *)
(** The iteration over a glob, for Urlglob.v: what a pattern stands for, the
    texts of a glob as the product of its patterns, and that the calls of
    [glob_next_url] list that product in its order. *)

From Stdlib Require Import ZArith Lia List String SpecFloat.
From stdpp Require Import base numbers option list.
From S2P Require Import Prelude Dynbuf Strparse InetAddr Mprintf PrintfSpec PrintfFormat PrintfPieces PrintfTheorems Urlglob.
Close Scope nat_scope.
Open Scope Z_scope.

(** * What a pattern stands for *)

(** The number of its values, and the pattern moved to the [i]-th. *)
Definition pat_size (p : URLPattern) : Z :=
  match pat_c p with
  | GLOB_SET elem _ _ => zlen elem
  | GLOB_ASCII mn mx _ step => (mx - mn) / step + 1
  | GLOB_NUM mn mx _ step _ => (mx - mn) / step + 1
  end.

Definition pat_at (p : URLPattern) (i : Z) : URLPattern :=
  mk_pattern (pat_name p) (globindex p)
    match pat_c p with
    | GLOB_SET elem _ palloc => GLOB_SET elem i palloc
    | GLOB_ASCII mn mx _ step => GLOB_ASCII mn mx (mn + i * step) step
    | GLOB_NUM mn mx _ step npad => GLOB_NUM mn mx (mn + i * step) step npad
    end.

(** The text of the current value. *)
Definition pat_text (p : URLPattern) : list Z :=
  match pat_c p with
  | GLOB_SET elem idx _ => default [] (elem !! Z.to_nat idx)
  | GLOB_ASCII _ _ letter _ => [letter]
  | GLOB_NUM _ _ idx _ npad => long_text true 10 false npad idx
  end.

Definition pat_values (p : URLPattern) : list (list Z) := (fun i => pat_text (pat_at p i)) <$> seqZ 0 (pat_size p).

(** A pattern that the parser makes: values there are, no value overflows. *)
Definition pat_wf (p : URLPattern) : Prop :=
  match pat_c p with
  | GLOB_SET elem _ palloc => 0 < zlen elem <= palloc /\ Forall (fun t => Forall is_char t /\ zlen t < MAX_CONFIG_LINE_LENGTH) elem
  | GLOB_ASCII mn mx _ step => 1 <= step /\ 0 < mn <= mx /\ mx < 256
  | GLOB_NUM mn mx _ step npad => 1 <= step /\ 0 <= mn <= mx /\ mx + step <= CURL_OFF_T_MAX /\ 0 <= npad <= INT_MAX
  end.

(** All texts of a list of patterns; the last pattern moves first. *)
Fixpoint urls (ps : list URLPattern) : list (list Z) :=
  match ps with
  | [] => [[]]
  | p :: ps => v ← pat_values p; app v <$> urls ps
  end.

Fixpoint urls_total (ps : list URLPattern) : Z :=
  match ps with [] => 1 | p :: ps => pat_size p * urls_total ps end.

(** The patterns in the state of the [n]-th text; the list is reversed. *)
Fixpoint spread (rps : list URLPattern) (n : Z) : list URLPattern :=
  match rps with
  | [] => []
  | p :: rps => pat_at p (n mod pat_size p) :: spread rps (n / pat_size p)
  end.

Definition glob_at (ps : list URLPattern) (n : Z) : list URLPattern := reverse (spread (reverse ps) n).

(** * Lemmas on patterns *)

Lemma pat_size_pos p : pat_wf p -> 0 < pat_size p.
Proof.
  unfold pat_wf, pat_size. destruct (pat_c p) as [e i a|mn mx l st|mn mx i st n].
  - intros [H _]. lia.
  - intros (H1 & H2 & H3). pose proof (Z.div_pos (mx - mn) st). lia.
  - intros (H1 & H2 & H3). pose proof (Z.div_pos (mx - mn) st). lia.
Qed.

Lemma range_last mn mx st i : 1 <= st -> mn <= mx -> 0 <= i <= (mx - mn) / st ->
  mn + i * st <= mx /\ (mn + i * st + st >? mx) = (i + 1 =? (mx - mn) / st + 1).
Proof.
  intros H1 H2 H3. pose proof (Z.mul_div_le (mx - mn) st). pose proof (Z.mul_succ_div_gt (mx - mn) st).
  split; [nia|]. rewrite Z.gtb_ltb. apply eq_true_iff_eq. rewrite Z.ltb_lt, Z.eqb_eq. nia.
Qed.

Lemma next_pattern_at p i : pat_wf p -> 0 <= i < pat_size p ->
  next_pattern (pat_at p i) = if i + 1 =? pat_size p then (pat_at p 0, true) else (pat_at p (i + 1), false).
Proof.
  unfold pat_wf, pat_size, next_pattern, pat_at. cbn [pat_c pat_name globindex].
  destruct (pat_c p) as [e idx a|mn mx l st|mn mx idx st n].
  - intros [H _] Hi. rewrite (proj2 (Z.eqb_neq a 0)) by lia. by case_if.
  - intros (H1 & H2 & _) Hi. destruct (range_last mn mx st i) as [_ ->]; [lia..|]. rewrite Z.mul_0_l, Z.add_0_r.
    case_if; [done|]. do 3 f_equal. lia.
  - intros (H1 & H2 & _) Hi. destruct (range_last mn mx st i) as [_ ->]; [lia..|]. rewrite Z.mul_0_l, Z.add_0_r.
    case_if; [done|]. do 3 f_equal. lia.
Qed.

Lemma urls_total_pos ps : Forall pat_wf ps -> 0 < urls_total ps.
Proof. induction 1 as [|p ps Hp _ IH]; cbn [urls_total]; [lia|]. apply pat_size_pos in Hp. nia. Qed.

Lemma urls_total_app ps qs : urls_total (ps ++ qs) = urls_total ps * urls_total qs.
Proof. induction ps as [|p ps IH]; cbn [app urls_total]; [lia|]. rewrite IH. lia. Qed.

Lemma urls_total_reverse ps : urls_total (reverse ps) = urls_total ps.
Proof. induction ps as [|p ps IH]; [done|]. rewrite reverse_cons, urls_total_app, IH. cbn [urls_total]. lia. Qed.

(** * The counter *)

Lemma next_patterns_spread rps n : Forall pat_wf rps -> 0 <= n < urls_total rps ->
  next_patterns (spread rps n) = if n + 1 =? urls_total rps then (spread rps 0, true) else (spread rps (n + 1), false).
Proof.
  intros H. revert n. induction H as [|p rps Hp Hw IH]; intros n Hn; cbn [spread next_patterns urls_total] in *.
  { by rewrite (proj2 (Z.eqb_eq _ _)) by lia. }
  pose proof (pat_size_pos p Hp) as Hs. pose proof (urls_total_pos rps Hw) as Ht.
  set (s := pat_size p) in *. set (t := urls_total rps) in *.
  pose proof (Z.mod_pos_bound n s Hs) as Hm. pose proof (Z.div_mod n s ltac:(lia)) as Hd.
  assert (Hq : 0 <= n / s < t) by (split; [apply Z.div_pos; lia|apply Z.div_lt_upper_bound; lia]).
  rewrite next_pattern_at by done. fold s. destruct (Z.eqb_spec (n mod s + 1) s) as [E|E].
  - rewrite (IH (n / s) Hq), Z.mod_0_l, Z.div_0_l by lia.
    assert (E1 : (n + 1) / s = n / s + 1) by (symmetry; apply (Z.div_unique _ _ _ 0); lia).
    assert (E2 : (n + 1) mod s = 0) by (symmetry; apply (Z.mod_unique _ _ (n / s + 1)); lia).
    rewrite E1, E2. replace (n + 1 =? s * t) with (n / s + 1 =? t); [by case_if|].
    apply eq_true_iff_eq. rewrite !Z.eqb_eq. nia.
  - assert (E1 : (n + 1) / s = n / s) by (symmetry; apply (Z.div_unique _ _ _ (n mod s + 1)); lia).
    assert (E2 : (n + 1) mod s = n mod s + 1) by (symmetry; apply (Z.mod_unique _ _ (n / s)); lia).
    rewrite E1, E2, (proj2 (Z.eqb_neq (n + 1) (s * t))); [done|]. intros E3. apply E.
    rewrite E3, Z.mul_comm, Z.mod_mul in E2 by lia. lia.
Qed.

Lemma next_patterns_at ps n : Forall pat_wf ps -> 0 <= n < urls_total ps ->
  (let '(l, carry) := next_patterns (reverse (glob_at ps n)) in (reverse l, carry)) =
  if n + 1 =? urls_total ps then (glob_at ps 0, true) else (glob_at ps (n + 1), false).
Proof.
  intros Hw Hn. unfold glob_at. rewrite reverse_involutive, next_patterns_spread.
  - rewrite urls_total_reverse. by case_if.
  - by apply Forall_reverse.
  - by rewrite urls_total_reverse.
Qed.

Lemma spread_snoc rps p n : Forall pat_wf rps -> 0 <= n -> spread (rps ++ [p]) n = spread rps n ++ [pat_at p ((n / urls_total rps) mod pat_size p)].
Proof.
  intros H. revert n. induction H as [|q rps Hq Hw IH]; intros n Hn; cbn [app spread urls_total].
  { by rewrite Z.div_1_r. }
  pose proof (pat_size_pos q Hq). pose proof (urls_total_pos rps Hw). rewrite IH by (apply Z.div_pos; lia). by rewrite Z.div_div by lia.
Qed.

Lemma spread_mod rps n k : Forall pat_wf rps -> spread rps (n + k * urls_total rps) = spread rps n.
Proof.
  intros H. revert n k. induction H as [|q rps Hq Hw IH]; intros n k; cbn [spread urls_total]; [done|].
  pose proof (pat_size_pos q Hq). replace (k * (pat_size q * urls_total rps)) with ((k * urls_total rps) * pat_size q) by lia.
  rewrite Z.mod_add, Z.div_add by lia. by rewrite IH.
Qed.

Lemma glob_at_cons p ps i r : Forall pat_wf ps -> 0 <= i < pat_size p -> 0 <= r < urls_total ps ->
  glob_at (p :: ps) (i * urls_total ps + r) = pat_at p i :: glob_at ps r.
Proof.
  intros Hw Hi Hr. unfold glob_at. rewrite reverse_cons. assert (Hw' : Forall pat_wf (reverse ps)) by by apply Forall_reverse.
  rewrite spread_snoc by (done || nia). rewrite reverse_snoc, urls_total_reverse. f_equal.
  - rewrite Z.div_add_l, Z.div_small, Z.add_0_r, Z.mod_small by lia. done.
  - rewrite Z.add_comm. by rewrite <- (urls_total_reverse ps), spread_mod by done.
Qed.

(** * The product *)

Definition url_text (qs : list URLPattern) : list Z := concat (map pat_text qs).

Lemma bind_uniform_lookup {A B} (f : A -> list B) l m i r x : (forall a, a ∈ l -> length (f a) = m) -> l !! i = Some x ->
  (r < m)%nat -> (l ≫= f) !! (i * m + r)%nat = f x !! r.
Proof.
  revert i. induction l as [|a l IH]; intros i Hm Hx Hr; [done|]. cbn.
  assert (Ha : length (f a) = m) by (apply Hm; left). destruct i as [|i].
  - injection Hx as ->. rewrite lookup_app_l by lia. done.
  - rewrite lookup_app_r by lia. rewrite Ha. replace (S i * m + r - m)%nat with (i * m + r)%nat by lia.
    apply IH; [|done|done]. intros b Hb. apply Hm. by right.
Qed.

Lemma bind_uniform_length {A B} (f : A -> list B) l m : (forall a, a ∈ l -> length (f a) = m) ->
  length (l ≫= f) = (length l * m)%nat.
Proof.
  induction l as [|a l IH]; intros Hm; [done|]. cbn. rewrite length_app, IH; [|intros b Hb; apply Hm; by right].
  rewrite Hm by left. lia.
Qed.

Lemma urls_length ps : Forall pat_wf ps -> zlen (urls ps) = urls_total ps.
Proof.
  induction 1 as [|p ps Hp Hw IH]; [done|]. cbn [urls urls_total]. unfold zlen in *.
  rewrite (bind_uniform_length _ _ (length (urls ps))) by (intros; by rewrite length_fmap).
  unfold pat_values. rewrite length_fmap, length_seqZ. apply pat_size_pos in Hp. lia.
Qed.

Lemma urls_lookup ps n : Forall pat_wf ps -> 0 <= n < urls_total ps -> urls ps !! Z.to_nat n = Some (url_text (glob_at ps n)).
Proof.
  intros H. revert n. induction H as [|p ps Hp Hw IH]; intros n Hn; cbn [urls urls_total] in *.
  { by replace n with 0 by lia. }
  pose proof (pat_size_pos p Hp) as Hs. pose proof (urls_total_pos ps Hw) as Ht.
  pose proof (Z.mod_pos_bound n (urls_total ps) Ht) as Hm. pose proof (Z.div_mod n (urls_total ps) ltac:(lia)) as Hd.
  assert (Hq : 0 <= n / urls_total ps < pat_size p) by (split; [apply Z.div_pos; lia|apply Z.div_lt_upper_bound; lia]).
  pose proof (urls_length ps Hw) as Hl. unfold zlen in Hl.
  replace n with (n / urls_total ps * urls_total ps + n mod urls_total ps) at 2 by lia.
  rewrite glob_at_cons by done.
  replace (Z.to_nat n) with (Z.to_nat (n / urls_total ps) * length (urls ps) + Z.to_nat (n mod urls_total ps))%nat by nia.
  rewrite (bind_uniform_lookup _ _ _ _ _ (pat_text (pat_at p (n / urls_total ps)))).
  - rewrite list_lookup_fmap, IH by done. done.
  - intros. by rewrite length_fmap.
  - unfold pat_values. rewrite list_lookup_fmap, lookup_seqZ_lt by lia. cbn. do 3 f_equal. lia.
  - lia.
Qed.

(** * The text of one URL *)

Lemma base_ten : good_base 10.
Proof. right. by left. Qed.

(** The digits of a number, and how long its text is. *)
Lemma long_text_chars w n : 0 <= n <= CURL_OFF_T_MAX -> Forall is_char (long_text true 10 false w n).
Proof.
  intros Hn. destruct (number_chars_spec 10 false n base_ten) as (_ & Hd & _ & _); [unfold CURL_OFF_T_MAX, SIZE_MAX in *; lia|].
  unfold long_text. apply Forall_app. split; [by apply Forall_replicate|]. eapply Forall_impl; [exact Hd|].
  intros c Hc. apply (digit_is_byte 10 _ base_ten) in Hc. unfold is_char. lia.
Qed.

Lemma long_text_len w n : 0 <= n <= CURL_OFF_T_MAX -> zlen (long_text true 10 false w n) <= Z.max w 64.
Proof.
  intros Hn. destruct (number_chars_spec 10 false n base_ten) as (_ & _ & _ & Hl); [unfold CURL_OFF_T_MAX, SIZE_MAX in *; lia|].
  unfold long_text. rewrite zlen_app. unfold zlen at 1. rewrite length_replicate. lia.
Qed.

(** A pattern at one of its values. *)
Definition pat_current (q : URLPattern) : Prop := exists p i, pat_wf p /\ 0 <= i < pat_size p /\ q = pat_at p i.

Lemma glob_at_current ps n : Forall pat_wf ps -> Forall pat_current (glob_at ps n).
Proof.
  intros H. unfold glob_at. apply Forall_reverse. apply Forall_reverse in H. revert n.
  induction H as [|p rps Hp _ IH]; intros n; cbn [spread]; constructor; [|apply IH].
  exists p, (n mod pat_size p). pose proof (pat_size_pos p Hp). split; [done|]. split; [|done]. apply Z.mod_pos_bound. lia.
Qed.

Lemma pat_text_chars q : pat_current q -> Forall is_char (pat_text q).
Proof.
  intros (p & i & Hp & Hi & ->). unfold pat_wf, pat_size, pat_text, pat_at in *. cbn [pat_c].
  destruct (pat_c p) as [e idx a|mn mx l st|mn mx idx st n].
  - destruct (e !! Z.to_nat i) as [t|] eqn:E; cbn; [|by constructor]. destruct Hp as [_ Hp].
    by eapply (Forall_lookup_1 _ _ _ _ Hp E).
  - destruct Hp as (H1 & H2 & H3). destruct (range_last mn mx st i) as [H _]; [lia..|]. repeat constructor; lia || nia.
  - destruct Hp as (H1 & H2 & H3 & _). destruct (range_last mn mx st i) as [H _]; [lia..|].
    apply long_text_chars. nia.
Qed.

Lemma pat_text_len q : pat_current q -> zlen (pat_text q) <= MAX_DYNBUF_SIZE.
Proof.
  intros (p & i & Hp & Hi & ->). unfold pat_wf, pat_size, pat_text, pat_at, MAX_DYNBUF_SIZE in *. cbn [pat_c].
  destruct (pat_c p) as [e idx a|mn mx l st|mn mx idx st n].
  - destruct (e !! Z.to_nat i) as [t|] eqn:E; cbn; [|done]. destruct Hp as [_ Hp].
    destruct (Forall_lookup_1 _ _ _ _ Hp E) as [_ Ht]. unfold MAX_CONFIG_LINE_LENGTH in Ht. lia.
  - done.
  - destruct Hp as (H1 & H2 & H3 & H4). destruct (range_last mn mx st i) as [H _]; [lia..|].
    pose proof (long_text_len n (mn + i * st)) as Hl. unfold INT_MAX, CURL_OFF_T_MAX in *. nia.
Qed.

Lemma url_text_chars qs : Forall pat_current qs -> Forall is_char (url_text qs).
Proof. induction 1 as [|q qs Hq _ IH]; [constructor|]. unfold url_text. cbn. apply Forall_app. split; [by apply pat_text_chars|exact IH]. Qed.

(** The buffer after a text was added: the limit, and either the text or what
    made it fail. *)
Definition grown (cap : Z) (s : dynbuf) (c t : list Z) (o : allocs) (res : option (dynbuf * CURLcode * allocs)) : Prop :=
  exists s' r o', res = Some (s', r, o') /\ (false ∈ o' -> false ∈ o) /\ toobig s' = toobig s /\
    (r = CURLE_OK /\ dyn_rep s' (c ++ t) \/ r <> CURLE_OK /\ dyn_rep s' [] /\ (false ∈ o \/ cap <= zlen (c ++ t))).

Lemma nappend_grown cap s c t o : dyn_rep s c -> cap < toobig s -> zlen t <= MAX_DYNBUF_SIZE ->
  grown cap s c t o (dyn_nappend s t o).
Proof.
  intros Hs Hc Ht. destruct (dyn_nappend_spec s c t o Hs Ht) as (s' & r & o' & E & Hto & Hr).
  destruct (dyn_nappend_oom _ _ _ _ _ _ E) as [Ho1 Ho2]. exists s', r, o'. split; [done|]. split; [done|]. split; [done|].
  rewrite zlen_app. destruct Hr as [(-> & _ & Hr & _)|[(-> & Hl & Hr & _)|(-> & _ & Hr & _)]].
  - by left.
  - right. split; [done|]. split; [done|]. right. lia.
  - right. split; [done|]. split; [done|]. left. auto.
Qed.

(** * The buffer of a glob *)

Section Output.
Context (c_snprintf : list Z -> spec_float -> list Z).

Lemma addf_grown cap s c w n o : cap <= DYN_APRINTF -> dyn_rep s c -> cap < toobig s -> 0 <= w <= INT_MAX -> 0 <= n <= CURL_OFF_T_MAX ->
  grown cap s c (long_text true 10 false w n) o (curlx_dyn_addf c_snprintf s (str "%0*ld") [A_int w; A_long n] o).
Proof.
  intros Hcap Hs Hc Hw Hn. set (t := long_text true 10 false w n).
  assert (Hb : bytes_ok t) by (apply long_text_bytes; [exact base_ten|unfold CURL_OFF_T_MAX, SIZE_MAX in *; lia]).
  assert (He : format_events c_snprintf (str "%0*ld") [A_int w; A_long n] = Some (ev_bytes t)).
  { apply (format_events_pieces c_snprintf [Conv (long_spec true C_d)]); [done|done|done|]. by apply render_long. }
  destruct (mvaprintf_spec c_snprintf _ _ _ o He) as (r & o' & st & E & Hm & Ho). rewrite (ev_text_bytes t Hb) in Hm.
  unfold curlx_dyn_addf. rewrite E. cbn [mbind option_bind]. destruct r as [m|].
  - destruct Hm as [rest ->].
    assert (Hnz : Forall (fun x => x <> 0) t) by by apply char_nonzero, long_text_chars.
    rewrite mem_strlen_text by done. cbn [mbind option_bind]. rewrite mem_read_text. cbn [mbind option_bind].
    destruct (nappend_grown cap s c t o' Hs Hc) as (s' & r & o2 & E2 & Ho2 & Ht & Hr).
    { assert (zlen t <= Z.max w 64); [|unfold MAX_DYNBUF_SIZE, INT_MAX in *; lia].
      by apply long_text_len. }
    exists s', r, o2. split; [done|]. split; [auto|]. split; [done|]. destruct Hr as [?|(? & ? & [?|?])]; [by left|right; auto..].
  - exists (curlx_dyn_free s), CURLE_OUT_OF_MEMORY, o'. split; [done|]. split; [done|]. split; [done|]. right. split; [done|].
    split; [by eapply dyn_free_rep|]. destruct Hm as [?|?]; [by left|]. right. rewrite zlen_app. pose proof (zlen_nonneg c). lia.
Qed.

Lemma add_value_grown cap q s c o : cap <= DYN_APRINTF -> pat_current q -> dyn_rep s c -> cap < toobig s ->
  grown cap s c (pat_text q) o (add_value c_snprintf q s o).
Proof.
  intros Hcap Hq Hs Hc. pose proof (pat_text_len q Hq) as Hl. pose proof (pat_text_chars q Hq) as Hch. destruct Hq as (p & i & Hp & Hi & ->).
  unfold pat_wf, pat_size, pat_text, pat_at, add_value in *. cbn [pat_c] in *.
  destruct (pat_c p) as [e idx a|mn mx l st|mn mx idx st n].
  - destruct Hp as [Hp _]. rewrite (proj2 (Z.eqb_neq a 0)) by lia. cbn [negb]. rewrite (proj2 (Z.ltb_ge i 0)) by lia.
    destruct (lookup_lt_is_Some_2 e (Z.to_nat i)) as [t Et]; [unfold zlen in *; lia|]. rewrite Et in *. cbn [default from_option id mbind option_bind] in *.
    unfold curlx_dyn_add. rewrite strlen_nonzero by by apply char_nonzero. rewrite ztake_ge by lia. by apply nappend_grown.
  - destruct Hp as (H1 & H2 & H3). apply Forall_cons in Hch as [Hch _]. rewrite u8_small by (unfold is_byte, is_char in *; lia).
    by apply nappend_grown.
  - destruct Hp as (H1 & H2 & H3 & H4). destruct (range_last mn mx st i) as [Hm _]; [lia..|]. apply addf_grown; [done|done|done|lia|nia].
Qed.

Lemma add_values_grown qs s c o : Forall pat_current qs -> dyn_rep s c -> DYN_APRINTF < toobig s ->
  grown DYN_APRINTF s c (url_text qs) o (add_values c_snprintf qs s o).
Proof.
  intros Hq Hs Hc. revert s c o Hs Hc. induction Hq as [|q qs Hq Hqs IH]; intros s c o Hs Hc; cbn [add_values].
  { exists s, CURLE_OK, o. split; [done|]. split; [done|]. split; [done|]. left. by rewrite app_nil_r. }
  change (url_text (q :: qs)) with (pat_text q ++ url_text qs).
  destruct (add_value_grown DYN_APRINTF q s c o ltac:(lia) Hq Hs Hc) as (s1 & r & o1 & E & Ho1 & Ht1 & Hr). rewrite E. cbn [mbind option_bind].
  destruct Hr as [[-> Hr]|(Hr & Hrep & Hf)].
  - cbn [is_ok]. destruct (IH s1 _ o1 Hr) as (s2 & r2 & o2 & E2 & Ho2 & Ht2 & Hr2); [by rewrite Ht1|].
    exists s2, r2, o2. split; [done|]. split; [auto|]. split; [by rewrite Ht2|]. rewrite <- app_assoc in Hr2.
    destruct Hr2 as [?|(? & ? & [?|?])]; [by left|right; auto..].
  - rewrite (proj2 (is_ok_false r)) by done. exists s1, CURLE_OUT_OF_MEMORY, o1. split; [done|]. split; [done|]. split; [done|].
    right. split; [done|]. split; [done|]. destruct Hf as [?|Hf]; [by left|right]. rewrite !zlen_app in *.
    pose proof (zlen_nonneg (url_text qs)). lia.
Qed.

(** * The sequence of URLs *)

(** A glob as the parser leaves it, and as it is before its [k]-th URL. *)
Definition glob_ready (g : URLGlob) : Prop :=
  (exists c, dyn_rep (glob_buf g) c) /\ toobig (glob_buf g) = MAX_CONFIG_LINE_LENGTH.

Definition glob_state (g : URLGlob) (ps : list URLPattern) (k : Z) : Prop :=
  glob_ready g /\ if k =? 0 then beenhere g = false /\ pattern g = glob_at ps 0
  else beenhere g = true /\ pattern g = glob_at ps (k - 1).

(** The patterns have not been moved. *)
Definition pat_fresh (p : URLPattern) : Prop := pat_at p 0 = p.

Lemma glob_at_start ps : Forall pat_wf ps -> Forall pat_fresh ps -> glob_at ps 0 = ps.
Proof.
  intros Hw Hf. unfold glob_at. transitivity (reverse (reverse ps)); [|apply reverse_involutive]. f_equal.
  apply Forall_reverse in Hw. apply Forall_reverse in Hf. induction Hw as [|p rps Hp _ IH]; cbn [spread]; [done|].
  apply Forall_cons in Hf as [Hf1 Hf]. pose proof (pat_size_pos p Hp). rewrite Z.mod_0_l, Z.div_0_l, Hf1, IH by (done || lia). done.
Qed.

(** The outcome of the [k]-th call. *)
Definition next_spec (ps : list URLPattern) (k : Z) (o : allocs)
    (res : option (CURLcode * option (list Z) * URLGlob * allocs)) : Prop :=
  exists r u g' o', res = Some (r, u, g', o') /\ (false ∈ o' -> false ∈ o) /\
    if k =? urls_total ps then r = CURLE_OK /\ u = None
    else exists t, urls ps !! Z.to_nat k = Some t /\
      (r = CURLE_OK /\ u = Some t /\ glob_state g' ps (k + 1) \/
       r = CURLE_OUT_OF_MEMORY /\ u = None /\ (false ∈ o \/ DYN_APRINTF <= zlen t)).

Lemma next_url_text g ps n o : Forall pat_wf ps -> 0 <= n < urls_total ps -> dyn_rep (glob_buf g) [] ->
  toobig (glob_buf g) = MAX_CONFIG_LINE_LENGTH -> beenhere g = true -> pattern g = glob_at ps n ->
  next_spec ps n o
    ('(b, r, o) ← add_values c_snprintf (pattern g) (glob_buf g) o;
     let g := set_buf b g in
     if negb (is_ok r) then Some (CURLE_OUT_OF_MEMORY, None, g, o)
     else
       text ← dyn_text b;
       let '(ok, o) := next_alloc o in
       if ok then Some (CURLE_OK, Some text, g, o) else Some (CURLE_OUT_OF_MEMORY, None, g, o)).
Proof.
  intros Hw Hn Hb Ht Hh Hp. pose proof (glob_at_current ps n Hw) as Hc. pose proof (urls_lookup ps n Hw Hn) as Hu.
  unfold next_spec. rewrite (proj2 (Z.eqb_neq n _)) by lia. rewrite Hp.
  destruct (add_values_grown (glob_at ps n) (glob_buf g) [] o Hc Hb) as (b & r & o1 & E & Ho & Hto & Hr);
    [rewrite Ht; unfold DYN_APRINTF, MAX_CONFIG_LINE_LENGTH; lia|]. rewrite E. cbn [mbind option_bind].
  destruct Hr as [[-> Hr]|(Hr & _ & Hf)]; cbn [app] in *.
  - cbn [is_ok negb]. rewrite (dyn_text_rep b _ Hr) by by apply url_text_chars. cbn [mbind option_bind].
    destruct (next_alloc o1) as [ok o2] eqn:Eo. apply next_alloc_fails in Eo as [Hf Hf'].
    destruct ok; do 4 eexists; (split; [done|]); (split; [auto|]); eexists; (split; [done|]).
    + left. split; [done|]. split; [done|]. split; [split; [by eexists|by rewrite <- Ht]|].
      rewrite (proj2 (Z.eqb_neq (n + 1) 0)) by lia. split; [done|]. cbn. rewrite Hp. f_equal. lia.
    + right. split; [done|]. split; [done|]. left. auto.
  - rewrite (proj2 (is_ok_false r)) by done. cbn [negb]. do 4 eexists. split; [done|]. split; [done|]. eexists. split; [done|].
    right. done.
Qed.

Lemma next_url_spec g ps k o : Forall pat_wf ps -> 0 <= k <= urls_total ps -> glob_state g ps k ->
  next_spec ps k o (glob_next_url c_snprintf g o).
Proof.
  intros Hw Hk [[[c Hb] Ht] Hs]. pose proof (urls_total_pos ps Hw) as Hpos. unfold glob_next_url.
  destruct (dyn_reset_rep _ _ Hb) as (b & -> & Hb0 & Htb & _). cbn [mbind option_bind].
  change (beenhere (set_buf b g)) with (beenhere g). change (pattern (set_buf b g)) with (pattern g).
  destruct (Z.eqb_spec k 0) as [->|Hk0]; destruct Hs as [Hh Hp]; rewrite Hh; cbn [negb].
  - apply next_url_text; [done|lia|done|by rewrite <- Ht|done|done].
  - pose proof (next_patterns_at ps (k - 1) Hw ltac:(lia)) as E. rewrite <- Hp in E.
    destruct (next_patterns (reverse (pattern g))) as [l carry]. replace (k - 1 + 1) with k in E by lia.
    destruct (Z.eqb_spec k (urls_total ps)) as [Hkt|Hkt]; injection E as El ->.
    + unfold next_spec. rewrite (proj2 (Z.eqb_eq k _)) by done. do 4 eexists. split; [done|]. done.
    + apply next_url_text; [done|lia|done|by rewrite <- Ht|done|done].
Qed.

(** The calls up to the one that has no URL, or that fails. *)
Fixpoint glob_urls (fuel : nat) (g : URLGlob) (o : allocs) : option (CURLcode * list (list Z)) :=
  match fuel with
  | O => None
  | S fuel =>
      '(r, u, g, o) ← glob_next_url c_snprintf g o;
      match u with
      | None => Some (r, [])
      | Some t => '(r, l) ← glob_urls fuel g o; Some (r, t :: l)
      end
  end.

Lemma glob_urls_from g ps k o fuel : Forall pat_wf ps -> 0 <= k <= urls_total ps -> glob_state g ps k ->
  fuel = Z.to_nat (urls_total ps - k) ->
  exists r l, glob_urls (S fuel) g o = Some (r, l) /\
    (r = CURLE_OK /\ l = drop (Z.to_nat k) (urls ps) \/
     r = CURLE_OUT_OF_MEMORY /\ l `prefix_of` drop (Z.to_nat k) (urls ps) /\
       (false ∈ o \/ exists t, t ∈ urls ps /\ DYN_APRINTF <= zlen t)).
Proof.
  intros Hw. revert g k o. induction fuel as [|fuel IH]; intros g k o Hk Hs Hf;
    destruct (next_url_spec g ps k o Hw Hk Hs) as (r & u & g' & o' & E & Ho & Hr); cbn [glob_urls]; rewrite E; cbn [mbind option_bind].
  - rewrite (proj2 (Z.eqb_eq k _)) in Hr by lia. destruct Hr as [-> ->]. do 2 eexists. split; [done|]. left. split; [done|].
    rewrite drop_ge; [done|]. pose proof (urls_length ps Hw). unfold zlen in *. lia.
  - rewrite (proj2 (Z.eqb_neq k _)) in Hr by lia. destruct Hr as (t & Hu & [(-> & -> & Hs')|(-> & -> & Hr)]).
    + destruct (IH g' (k + 1) o') as (r & l & E2 & Hr); [lia|done|lia|]. cbn [glob_urls mbind option_bind] in E2. rewrite E2.
      cbn [mbind option_bind]. do 2 eexists. split; [done|]. rewrite (drop_S _ _ _ Hu).
      replace (S (Z.to_nat k)) with (Z.to_nat (k + 1)) by lia.
      destruct Hr as [[-> ->]|(-> & Hl & Hr)]; [by left|right]. split; [done|]. split; [by apply prefix_cons|].
      destruct Hr as [?|?]; [left; auto|by right].
    + do 2 eexists. split; [done|]. right. split; [done|]. split; [apply prefix_nil|]. destruct Hr as [?|Hr]; [by left|right].
      exists t. split; [|done]. by eapply list_elem_of_lookup_2.
Qed.

Lemma glob_urls_spec g ps o : Forall pat_wf ps -> Forall pat_fresh ps -> glob_ready g -> beenhere g = false -> pattern g = ps ->
  exists r l, glob_urls (S (length (urls ps))) g o = Some (r, l) /\
    (r = CURLE_OK /\ l = urls ps \/
     r = CURLE_OUT_OF_MEMORY /\ l `prefix_of` urls ps /\ (false ∈ o \/ exists t, t ∈ urls ps /\ DYN_APRINTF <= zlen t)).
Proof.
  intros Hw Hf Hg Hh Hp. pose proof (urls_total_pos ps Hw). apply (glob_urls_from g ps 0 o); [done|lia| |].
  - split; [done|]. cbn. by rewrite glob_at_start.
  - pose proof (urls_length ps Hw). unfold zlen in *. lia.
Qed.

End Output.
