(* ===== verification/GlobParse.v ===== *)
(** The parser of globs, for Urlglob.v: that it returns on any text, and what
    it leaves behind when it accepts one. *)

From Stdlib Require Import ZArith Lia List String SpecFloat.
From stdpp Require Import base numbers option list.
From S2P Require Import Prelude Dynbuf Strparse InetAddr Parsedate Mprintf PrintfSpec PrintfFormat PrintfPieces PrintfTheorems Urlglob GlobIter.
Close Scope nat_scope.
Open Scope Z_scope.

(** * The state of the parser *)

(** The buffer holds a text. *)
Definition buf_rep (s : gstate) (c : list Z) : Prop :=
  dyn_rep (glob_buf (gs_glob s)) c /\ toobig (glob_buf (gs_glob s)) = MAX_CONFIG_LINE_LENGTH /\ Forall is_char c.

(** The patterns and their array are as they were. *)
Definition frame (s s' : gstate) : Prop :=
  pattern (gs_glob s') = pattern (gs_glob s) /\ glob_palloc (gs_glob s') = glob_palloc (gs_glob s) /\
  beenhere (gs_glob s') = beenhere (gs_glob s).

(** The codes of a refused glob. *)
Definition refused (r : CURLcode) : Prop := r = CURLE_URL_MALFORMAT \/ r = CURLE_OUT_OF_MEMORY.

(** A parsing step returns: a value, or a refusal. *)
Definition returns {A} (res : gresult A) (Q : A -> gstate -> Prop) : Prop :=
  exists r s v, res = Some (r, s, v) /\ match v with Some a => r = CURLE_OK /\ Q a s | None => refused r end.

Lemma malformat : refused CURLE_URL_MALFORMAT.
Proof. by left. Qed.

Lemma no_memory : refused CURLE_OUT_OF_MEMORY.
Proof. by right. Qed.

#[export] Hint Resolve malformat no_memory : gurl.

Lemma returns_fail {A} r s (Q : A -> gstate -> Prop) : refused r -> returns (Some (r, s, None)) Q.
Proof. intros H. by exists r, s, None. Qed.

Lemma returns_ok {A} s (a : A) (Q : A -> gstate -> Prop) : Q a s -> returns (Some (CURLE_OK, s, Some a)) Q.
Proof. intros H. by exists CURLE_OK, s, (Some a). Qed.

Lemma returns_bind {A B} (res : gresult A) (Q : A -> gstate -> Prop) (R : B -> gstate -> Prop)
    (k : CURLcode -> gstate -> option A -> gresult B) : returns res Q ->
  (forall r s, refused r -> returns (k r s None) R) -> (forall s a, Q a s -> returns (k CURLE_OK s (Some a)) R) ->
  returns ('(r, s, v) ← res; k r s v) R.
Proof.
  intros (r & s & v & -> & H) Hf Hok. cbn [mbind option_bind]. destruct v as [a|]; [|by apply Hf].
  destruct H as [-> H]. by apply Hok.
Qed.

Ltac refuse := apply returns_fail; auto with gurl.

Lemma frame_refl s : frame s s.
Proof. done. Qed.

Lemma frame_trans s1 s2 s3 : frame s1 s2 -> frame s2 s3 -> frame s1 s3.
Proof. intros (H1 & H2 & H3) (H4 & H5 & H6). split_and!; congruence. Qed.

Lemma galloc_spec s : exists ok o, galloc s = (ok, gs_set_o o s).
Proof. unfold galloc. destruct (next_alloc (gs_o s)) as [ok o]. by exists ok, o. Qed.

(** [buf_addn] and [buf_reset] on a buffer that holds a text. *)
Lemma buf_addn_spec s c b : buf_rep s c -> Forall is_char b -> zlen b <= MAX_DYNBUF_SIZE ->
  exists r s', buf_addn b s = Some (r, s') /\ frame s s' /\ gs_amount s' = gs_amount s /\ (r = CURLE_OK -> buf_rep s' (c ++ b)).
Proof.
  intros (Hs & Ht & Hc) Hb Hl. unfold buf_addn, curlx_dyn_addn.
  destruct (dyn_nappend_spec _ _ b (gs_o s) Hs Hl) as (buf & r & o & -> & Hto & Hr). cbn [mbind option_bind].
  do 2 eexists. split; [done|]. split; [done|]. split; [done|]. intros ->.
  destruct Hr as [(_ & _ & Hr & _)|[[? _]|[? _]]]; [|done..]. split; [done|]. split; [by rewrite <- Ht|]. by apply Forall_app.
Qed.

Lemma buf_reset_spec s c : buf_rep s c -> exists s', buf_reset s = Some s' /\ frame s s' /\ gs_amount s' = gs_amount s /\ buf_rep s' [].
Proof.
  intros (Hs & Ht & Hc). unfold buf_reset. destruct (dyn_reset_rep _ _ Hs) as (b & -> & Hb & Htb & _). cbn [mbind option_bind].
  eexists. split; [done|]. split; [done|]. split; [done|]. split; [done|]. split; [by rewrite <- Ht|constructor].
Qed.

Lemma buf_rep_len s c : buf_rep s c -> zlen c < MAX_CONFIG_LINE_LENGTH.
Proof. intros (H & <- & _). by eapply dyn_rep_lt. Qed.

Lemma multiply_spec a b : 0 < a -> 0 < b -> multiply a b = if a * b >? CURL_OFF_T_MAX then None else Some (a * b).
Proof. intros Ha Hb. unfold multiply. rewrite !(proj2 (Z.leb_gt _ _)) by lia. done. Qed.

(** * Sets *)

(** An element that fits in the buffer. *)
Definition elem_ok (t : list Z) : Prop := Forall is_char t /\ zlen t < MAX_CONFIG_LINE_LENGTH.

Definition elems_ok (elem : list (list Z)) (palloc : Z) : Prop := zlen elem <= palloc /\ Forall elem_ok elem.

Lemma set_add_spec elem palloc s c : elems_ok elem palloc -> buf_rep s c ->
  returns (set_add elem palloc s) (fun '(elem', palloc') s' =>
    elem' = elem ++ [c] /\ elems_ok elem' palloc' /\ buf_rep s' [] /\ frame s s' /\ gs_amount s' = gs_amount s).
Proof.
  intros [Hp He] Hb. pose proof (zlen_nonneg elem). unfold set_add. case_if; [refuse|].
  assert (Hgrow : exists ok o p, (if palloc =? 0 then let '(ok, s) := galloc s in (ok, s, 5)
       else if zlen elem >=? palloc then let '(ok, s) := galloc s in (ok, s, palloc * 2)
       else (true, s, palloc)) = (ok, gs_set_o o s, p) /\ zlen elem + 1 <= p).
  { destruct (galloc_spec s) as (ok & o & ->). case_if; [exists ok, o, 5; split; [done|lia]|].
    case_if; [exists ok, o, (palloc * 2); split; [done|lia]|]. exists true, (gs_o s), palloc. split; [by destruct s|lia]. }
  destruct Hgrow as (ok & o & p & -> & Hp'). destruct ok; cbn [negb]; [|refuse].
  assert (Hb' : buf_rep (gs_set_o o s) c) by done. pose proof Hb' as (Hrep & _ & Hc).
  rewrite (dyn_text_rep _ _ Hrep Hc). cbn [mbind option_bind]. destruct (galloc_spec (gs_set_o o s)) as (ok & o2 & ->).
  destruct ok; cbn [negb]; [|refuse]. destruct (buf_reset_spec (gs_set_o o2 (gs_set_o o s)) c Hb) as (s' & -> & Hf & Ha & Hr).
  cbn [mbind option_bind]. apply returns_ok. split; [done|]. split; [|done]. split; [by rewrite zlen_snoc|].
  apply Forall_app. split; [done|]. repeat constructor; [done|]. by eapply buf_rep_len.
Qed.

(** What the loop over a set leaves. *)
Definition set_post (pattern : list Z) (s : gstate) '((p, elem, palloc) : list Z * list (list Z) * Z) (s' : gstate) : Prop :=
  (exists used, used <> [] /\ pattern = used ++ p) /\ elems_ok elem palloc /\ 0 < zlen elem /\ buf_rep s' [] /\ frame s s' /\
  gs_amount s' = gs_amount s * zlen elem /\ gs_amount s' <= CURL_OFF_T_MAX.

Lemma set_post_behind used pattern s s1 v s' : set_post pattern s1 v s' -> frame s s1 -> gs_amount s1 = gs_amount s ->
  set_post (used ++ pattern) s v s'.
Proof.
  destruct v as [[p elem] palloc]. intros ((u & Hu & ->) & H1 & H2 & H3 & H4 & H5 & H6) Hf Ha. split.
  { exists (used ++ u). split; [by destruct used|]. by rewrite app_assoc. }
  rewrite <- Ha. split; [done|]. split; [done|]. split; [done|]. split; [by eapply frame_trans|]. done.
Qed.

Lemma set_loop_spec n : forall pattern first elem palloc s c, (length pattern <= n)%nat -> Forall is_char pattern ->
  elems_ok elem palloc -> buf_rep s c -> 0 < gs_amount s ->
  returns (set_loop pattern first elem palloc s) (set_post pattern s).
Proof.
  induction n as [|n IH]; intros pattern first elem palloc s c Hn Hp He Hb Ha; (destruct pattern as [|x pattern]; [refuse|]);
    cbn [length] in Hn; [lia|]. apply Forall_cons in Hp as [Hx Hp]. cbn [set_loop].
  (* a character goes to the buffer *)
  assert (Hput : forall y used rest s1, Forall is_char (y :: rest) -> (length rest <= n)%nat -> buf_rep s1 c -> frame s s1 ->
    gs_amount s1 = gs_amount s -> used ++ rest = x :: pattern ->
    returns ('(r, s2) ← buf_addn [y] s1;
      if is_ok r then set_loop rest false elem palloc (gs_move 1 s2) else Some (CURLE_OUT_OF_MEMORY, s2, None)) (set_post (x :: pattern) s)).
  { intros y used rest s1 Hy Hr Hb1 Hf1 Ha1 Hu. apply Forall_cons in Hy as [Hy Hrest].
    destruct (buf_addn_spec s1 c [y] Hb1) as (r & s2 & -> & Hf2 & Ha2 & Hb2); [by constructor|done|]. cbn [mbind option_bind].
    destruct (is_ok r) eqn:Er; [|refuse]. apply is_ok_iff in Er as ->.
    destruct (IH rest false elem palloc (gs_move 1 s2) (c ++ [y])) as (r' & s' & v & -> & Hv); [done..|by apply Hb2|cbn; lia|].
    exists r', s', v. split; [done|]. destruct v as [v|]; [|done]. destruct Hv as [-> Hv]. split; [done|]. rewrite <- Hu.
    apply (set_post_behind used rest s (gs_move 1 s2)); [done|by eapply frame_trans|cbn; lia]. }
  case_if; [refuse|]. case_if; [refuse|]. case_if.
  - case_if; [refuse|]. pose proof (zlen_nonneg elem). rewrite multiply_spec by lia. case_if; [refuse|].
    eapply returns_bind; [by apply (set_add_spec elem palloc _ c)|by intros; apply returns_fail|].
    intros s1 [elem' palloc'] (-> & He' & Hb' & Hf' & Ha'). apply returns_ok.
    split; [by exists [x]|]. split; [done|]. rewrite Ha'. cbn [gs_amount gs_set_amount]. rewrite zlen_snoc. split; [lia|].
    split; [done|]. split; [done|]. split; lia.
  - case_if.
    + eapply returns_bind; [by apply (set_add_spec elem palloc _ c)|by intros; apply returns_fail|].
      intros s1 [elem' palloc'] (-> & He' & Hb' & Hf' & Ha').
      destruct (IH pattern false (elem ++ [c]) palloc' (gs_move 1 s1) []) as (r' & s' & v & -> & Hv); [lia|done..|cbn; lia|].
      exists r', s', v. split; [done|]. destruct v as [v|]; [|done]. destruct Hv as [-> Hv]. split; [done|].
      by apply (set_post_behind [x] pattern s (gs_move 1 s1)).
    + case_if; [refuse|]. destruct pattern as [|d pattern'].
      * apply (Hput x [x] []); [by constructor|cbn; lia|done..].
      * cbn [length] in Hn. case_if; [apply (Hput d [x; d] pattern' (gs_move 1 s))|apply (Hput x [x] (d :: pattern'))];
          solve [done|by constructor|cbn [length]; lia].
Qed.

(** * The entry of a pattern *)

Definition is_value (pattern : list Z) (index : Z) (s : gstate) '((p, pat) : list Z * URLPattern) (s' : gstate) : Prop :=
  (length p < length pattern)%nat /\ p `suffix_of` pattern /\ pat_wf pat /\ pat_fresh pat /\ globindex pat = index /\
  buf_rep s' [] /\ frame s s' /\ gs_amount s' = gs_amount s * pat_size pat /\ gs_amount s' <= CURL_OFF_T_MAX.

(** The name a pattern gets. *)
Definition given_name (name : Curl_str) : option (list Z) := if str_len name =? 0 then None else Some (str_bytes name).

Lemma dup_name_spec name s : exists (ok : bool) o, dup_name name s = (ok, gs_set_o o s, if (ok : bool) then given_name name else None).
Proof.
  unfold dup_name, given_name. destruct (str_len name =? 0); cbn [negb].
  - exists true, (gs_o s). by destruct s.
  - destruct (galloc_spec s) as (ok & o & ->). exists ok, o. by destruct ok.
Qed.

Lemma glob_set_spec pattern index name s c : Forall is_char pattern -> buf_rep s c -> 0 < gs_amount s -> slot_ok s = true ->
  returns (glob_set pattern index name s) (fun v s' => is_value pattern index s v s' /\ pat_name v.2 = given_name name).
Proof.
  intros Hp Hb Ha Hs. unfold glob_set. eapply returns_bind.
  - apply (set_loop_spec (length pattern) pattern true [] 0 s c); [done..|by split|done|done].
  - intros; by apply returns_fail.
  - intros s1 [[p elem] palloc] ((used & Hu & ->) & He & Hl & Hb1 & Hf & Ha1 & Hm).
    assert (Hs1 : slot_ok s1 = true). { unfold slot_ok, pnum in *. destruct Hf as (-> & -> & _). done. } rewrite Hs1. cbn [negb].
    destruct (dup_name_spec name s1) as (ok & o & ->). destruct ok; cbn [negb]; [|refuse]. apply returns_ok. split; [|done].
    split; [rewrite length_app; destruct used; [done|cbn; lia]|]. split; [by eexists|]. destruct He as [He1 He2].
    split; [split; [lia|done]|]. done.
Qed.

Lemma ISALPHA_range c : ISALPHA c = true -> 65 <= c <= 122.
Proof. unfold ISALPHA, ISLOWER, ISUPPER, between. intros H. apply orb_prop in H as [H|H]; zb_hyps; lia. Qed.

Lemma at_range pattern i : Forall is_char pattern -> 0 <= at_ pattern i < 256.
Proof.
  intros H. unfold at_. assert (H' : Forall is_char (drop i pattern)) by by apply Forall_drop.
  destruct H' as [|c l Hc _]; cbn; [lia|]. unfold is_char in Hc. lia.
Qed.

Lemma ascii_range_spec pattern : Forall is_char pattern -> exists range p, ascii_range pattern = Some (range, p) /\ p `suffix_of` pattern /\
  match range with
  | Some (mn, mx, step) => mn = schar (at_ pattern 0) /\ mx = schar (at_ pattern 2) /\ 0 <= step < 256 /\ (length p < length pattern)%nat
  | None => True
  end.
Proof.
  intros Hp. unfold ascii_range.
  destruct ((at_ pattern 1 =? 45) && negb (at_ pattern 2 =? 0) && negb (at_ pattern 3 =? 0)) eqn:E; [|by do 2 eexists].
  apply andb_prop in E as [E E3]. apply negb_true_iff, Z.eqb_neq in E3.
  assert (Hl : (3 < length pattern)%nat).
  { destruct (decide (3 < length pattern)%nat) as [|Hn]; [done|]. exfalso. apply E3. unfold at_. by rewrite drop_ge by lia. }
  pose proof (suffix_drop pattern 4) as Hd. assert (Hd' : (length (drop 4 pattern) < length pattern)%nat) by (rewrite length_drop; lia).
  case_if.
  - destruct (curlx_str_number_total (drop 4 pattern) 256) as (rc & num & p & -> & Hn & Hs & _); [unfold CURL_OFF_T_MAX; lia|].
    cbn [mbind option_bind]. pose proof (suffix_length _ _ Hs).
    assert (Hq : forall q, q `suffix_of` p -> q `suffix_of` pattern /\ (length q < length pattern)%nat).
    { intros q Hq. pose proof (suffix_length _ _ Hq). split; [by do 2 (etrans; [done|])|lia]. }
    destruct rc; try (do 2 eexists; split; [done|]; split; [by apply Hq|]; split; [done|]; split; [done|]; split; [lia|by apply Hq]).
    unfold curlx_str_single. destruct (negb (deref p =? 93)); do 2 eexists; (split; [done|]).
    + split; [by apply Hq|]. split; [done|]. split; [done|]. split; [lia|by apply Hq].
    + split; [apply Hq, suffix_drop|]. split; [done|]. split; [done|]. split; [|apply Hq, suffix_drop].
      unfold u8. apply (Z.mod_pos_bound num 256). lia.
  - case_if; [by do 2 eexists|]. do 2 eexists. split; [done|]. split; [done|]. split; [done|]. split; [done|]. split; [lia|done].
Qed.

Lemma bad_ascii_spec mn mx step : 0 <= step < 256 -> -128 <= mx < 128 -> 0 < mn -> bad_ascii mn mx step = false ->
  1 <= step /\ mn <= mx.
Proof.
  intros Hs Hx Hn. unfold bad_ascii. intros H. apply orb_false_elim in H as [H H2]. apply orb_false_elim in H as [H0 H1]. zb_hyps.
  split; [lia|]. destruct (Z.eqb_spec mn mx) as [->|E]; [lia|]. cbn [negb andb] in H2.
  apply orb_false_elim in H2 as [H2 _]. apply orb_false_elim in H2 as [H2 _]. zb_hyps. lia.
Qed.

Lemma bad_num_spec mn mx step : 0 <= step -> bad_num mn mx step = false -> 1 <= step /\ mn <= mx.
Proof.
  intros Hs. unfold bad_num. intros H. apply orb_false_elim in H as [H H2]. apply orb_false_elim in H as [H0 H1]. zb_hyps.
  split; [lia|]. destruct (Z.eqb_spec mn mx) as [->|E]; [lia|]. cbn [negb andb] in H2.
  apply orb_false_elim in H2 as [H2 _]. zb_hyps. lia.
Qed.

Lemma passblanks_suffix p : curlx_str_passblanks p `suffix_of` p.
Proof. induction p as [|c p IH]; cbn; [done|]. case_if; [by apply suffix_cons_r|done]. Qed.

Lemma num_range_spec pattern : ISDIGIT (deref pattern) = true -> exists mn mx step p, num_range pattern = Some (mn, mx, step, p) /\
  p `suffix_of` pattern /\ 0 <= mn <= CURL_OFF_T_MAX /\ 0 <= mx <= CURL_OFF_T_MAX /\ 0 <= step <= CURL_OFF_T_MAX /\
  (step <> 0 -> (length p < length pattern)%nat).
Proof.
  intros Hd. assert (Hoff : 0 <= CURL_OFF_T_MAX <= CURL_OFF_T_MAX) by (unfold CURL_OFF_T_MAX; lia). unfold num_range.
  destruct (curlx_str_number_total pattern _ Hoff) as (rc & num & p & -> & Hn & Hs & Hr). cbn [mbind option_bind].
  destruct rc; try (do 4 eexists; split; [done|]; split; [done|]; split_and!; lia).
  destruct Hr as [[_ Hr]|?]; [|done].
  assert (Hq : forall q, q `suffix_of` p -> q `suffix_of` pattern /\ (length q < length pattern)%nat).
  { intros q Hq. pose proof (suffix_length _ _ Hq). split; [by etrans|lia]. }
  assert (Hsingle : forall l b, exists rc, (curlx_str_single l b).1 = rc /\ (curlx_str_single l b).2 `suffix_of` l).
  { intros l b. eexists. split; [done|]. unfold curlx_str_single. case_if; [done|apply suffix_drop]. }
  destruct (curlx_str_single p 45) as [rc p1] eqn:E1. destruct (Hsingle p 45) as (_ & _ & H1). rewrite E1 in H1. cbn in H1.
  destruct rc; try (do 4 eexists; split; [done|]; split; [by apply Hq|]; split_and!; lia).
  pose proof (passblanks_suffix p1) as Hb.
  destruct (curlx_str_number_total (curlx_str_passblanks p1) _ Hoff) as (rc & num2 & p2 & -> & Hn2 & Hs2 & _). cbn [mbind option_bind].
  assert (H2 : p2 `suffix_of` p) by (etrans; [exact Hs2|]; by etrans).
  destruct rc; try (do 4 eexists; split; [done|]; split; [by apply Hq|]; split_and!; lia).
  destruct (curlx_str_single p2 93) as [rc p3] eqn:E3. destruct (Hsingle p2 93) as (_ & _ & H3). rewrite E3 in H3. cbn in H3.
  assert (H3' : p3 `suffix_of` p) by (etrans; [exact H3|exact H2]).
  assert (Hcolon : exists mn mx step p', (let '(rc, p) := curlx_str_single p3 58 in
      match rc with
      | STRE_OK =>
          '(rc, num0, p) ← curlx_str_number p CURL_OFF_T_MAX;
          match rc with
          | STRE_OK =>
              let '(rc, p) := curlx_str_single p 93 in
              Some (num, num2, match rc with STRE_OK => num0 | _ => 0 end, p)
          | _ => Some (num, num2, 0, p)
          end
      | _ => Some (num, num2, 0, p)
      end) = Some (mn, mx, step, p') /\
    p' `suffix_of` pattern /\ 0 <= mn <= CURL_OFF_T_MAX /\ 0 <= mx <= CURL_OFF_T_MAX /\ 0 <= step <= CURL_OFF_T_MAX /\
    (step <> 0 -> (length p' < length pattern)%nat)).
  { destruct (curlx_str_single p3 58) as [rc2 p4] eqn:E4. destruct (Hsingle p3 58) as (_ & _ & H4). rewrite E4 in H4. cbn in H4.
    assert (H4' : p4 `suffix_of` p) by (etrans; [exact H4|exact H3']).
    destruct rc2; try (do 4 eexists; split; [done|]; split; [by apply Hq|]; split_and!; lia).
    destruct (curlx_str_number_total p4 _ Hoff) as (rc3 & num3 & p5 & -> & Hn3 & Hs3 & _). cbn [mbind option_bind].
    assert (H5 : p5 `suffix_of` p) by (etrans; [exact Hs3|exact H4']).
    destruct rc3; try (do 4 eexists; split; [done|]; split; [by apply Hq|]; split_and!; lia).
    destruct (curlx_str_single p5 93) as [rc4 p6] eqn:E6. destruct (Hsingle p5 93) as (_ & _ & H6). rewrite E6 in H6. cbn in H6.
    assert (H6' : p6 `suffix_of` p) by (etrans; [exact H6|exact H5]).
    do 4 eexists. split; [done|]. split; [by apply Hq|]. split; [done|]. split; [done|]. split; [destruct rc4; lia|]. intros _. by apply Hq. }
  destruct rc; try done.
  do 4 eexists. split; [done|]. split; [by apply Hq|]. split; [done|]. split; [done|]. split; [by unfold CURL_OFF_T_MAX|]. intros _. by apply Hq.
Qed.

Lemma count_digits_range l : 0 <= count_digits l <= zlen l.
Proof. induction l as [|c l IH]; cbn [count_digits]; [done|]. rewrite zlen_cons. case_if; lia. Qed.

Lemma glob_range_spec pattern index name s : Forall is_char pattern -> zlen pattern <= INT_MAX -> buf_rep s [] -> 0 < gs_amount s ->
  slot_ok s = true ->
  returns (glob_range pattern index name s) (fun v s' => is_value pattern index s v s' /\ pat_name v.2 = given_name name).
Proof.
  intros Hp Hl Hb Ha Hs. unfold glob_range. rewrite Hs. cbn [negb].
  (* the range is read: its amount and its name *)
  assert (Hgo : forall p c s1 n, pat_wf (mk_pattern None index c) -> pat_fresh (mk_pattern None index c) -> p `suffix_of` pattern ->
    (length p < length pattern)%nat -> s1 = gs_move n s ->
    returns (match multiply (gs_amount s1) (pat_size (mk_pattern None index c)) with
      | None => Some (CURLE_URL_MALFORMAT, gs_fail (Some "range overflow"%string) (gs_pos s1) s1, None)
      | Some amount => let '(ok, s, name) := dup_name name (gs_set_amount amount s1) in
          if negb ok then Some (CURLE_OUT_OF_MEMORY, s, None) else Some (CURLE_OK, s, Some (p, mk_pattern name index c))
      end) (fun v s' => is_value pattern index s v s' /\ pat_name v.2 = given_name name)).
  { intros p c s1 n Hw Hfr Hsuf Hlen ->. pose proof (pat_size_pos _ Hw) as Hpos. rewrite multiply_spec by (cbn; lia). case_if; [refuse|].
    destruct (dup_name_spec name (gs_set_amount (gs_amount (gs_move n s) * pat_size (mk_pattern None index c)) (gs_move n s))) as (ok & o & ->).
    destruct ok; cbn [negb]; [|refuse]. apply returns_ok. split; [|done]. split; [done|]. split; [done|]. split; [done|].
    split; [|done]. unfold pat_fresh, pat_at in *. cbn [pat_c pat_name globindex] in *. congruence. }
  case_if.
  - apply ISALPHA_range in E. destruct (ascii_range_spec pattern Hp) as (range & p & -> & Hsuf & Hr). cbn [mbind option_bind].
    destruct range as [[[mn mx] step]|]; [|refuse]. destruct Hr as (Hmn & Hmx & Hst & Hlen).
    change (at_ pattern 0) with (deref pattern) in Hmn. unfold schar in Hmn, Hmx. rewrite Z.geb_leb, (proj2 (Z.leb_gt _ _)) in Hmn by lia.
    pose proof (at_range pattern 2 Hp) as H2. assert (Hmx' : -128 <= mx < 128) by (rewrite Hmx; case_if; lia).
    case_if; [refuse|]. apply bad_ascii_spec in E0 as [Hst' Hle]; [|lia..].
    rewrite !u8_small by (unfold is_byte; lia). rewrite Z.quot_div_nonneg by lia.
    eapply (Hgo p (GLOB_ASCII mn mx mn step)); [split; [done|cbn; lia]| |done|done|done].
    unfold pat_fresh, pat_at. cbn. do 2 f_equal. lia.
  - case_if; [|refuse].
    assert (Hnp : exists npad, (if deref pattern =? 48 then int (count_digits pattern) else Some 0) = Some npad /\ 0 <= npad <= INT_MAX).
    { pose proof (count_digits_range pattern). unfold INT_MAX in *. case_if; [rewrite int_ok by lia|]; eexists; (split; [done|lia]). }
    destruct Hnp as (npad & -> & Hnp). cbn [mbind option_bind].
    destruct (num_range_spec pattern E0) as (mn & mx & step & p & -> & Hsuf & Hmn & Hmx & Hst & Hlen). cbn [mbind option_bind].
    case_if; [refuse|]. apply bad_num_spec in E1 as [Hst' Hle]; [|lia]. case_if; [refuse|].
    rewrite Z.quot_div_nonneg by lia.
    eapply (Hgo p (GLOB_NUM mn mx mn step npad)); [cbn; lia| |done|apply Hlen; lia|done].
    unfold pat_fresh, pat_at. cbn. do 2 f_equal. lia.
Qed.

(** * The glob *)

(** A glob under construction, with [index] braces and brackets read. *)
Record glob_inv (index : Z) (g : URLGlob) (amount : Z) : Prop := mk_inv {
  inv_wf : Forall pat_wf (pattern g);
  inv_fresh : Forall pat_fresh (pattern g);
  inv_names : NoDup (omap pat_name (pattern g));
  inv_chars : Forall (Forall is_char) (omap pat_name (pattern g));
  inv_indexes : filter (Z.le 0) (map globindex (pattern g)) = seqZ 0 index;
  inv_index : 0 <= index;
  inv_array : pnum g < glob_palloc g /\ (exists k, 1 <= k <= 8 /\ glob_palloc g = 2 ^ k);
  inv_new : beenhere g = false;
  inv_amount : amount = urls_total (pattern g) /\ amount <= CURL_OFF_T_MAX;
}.

Definition name_new (name : option (list Z)) (g : URLGlob) : Prop :=
  match name with Some n => (n ∉ omap pat_name (pattern g)) /\ Forall is_char n | None => True end.

(** The parser at a place between the patterns. *)
Definition parse_inv_at (index : Z) (s : gstate) : Prop := glob_inv index (gs_glob s) (gs_amount s) /\ buf_rep s [].

Lemma glob_inv_slot index s : glob_inv index (gs_glob s) (gs_amount s) -> slot_ok s = true /\ 0 < gs_amount s.
Proof.
  intros H. destruct (inv_array _ _ _ H) as [H1 _]. destruct (inv_amount _ _ _ H) as [H2 _]. split; [by apply Z.ltb_lt|].
  rewrite H2. by apply urls_total_pos, (inv_wf index _ _ H).
Qed.

Lemma next_power k n : 1 <= k <= 8 -> n < 2 ^ k -> n + 1 >= 2 ^ k -> n + 1 < 255 -> k < 8.
Proof. intros Hk H1 H2 H3. destruct (Z.eq_dec k 8) as [->|]; [|lia]. change (2 ^ 8) with 256 in *. lia. Qed.

(** The new pattern is the last, and the index of a brace or bracket is next. *)
Lemma add_glob_spec index i s pat amount : glob_inv index (gs_glob s) amount -> pat_wf pat -> pat_fresh pat ->
  name_new (pat_name pat) (gs_glob s) -> globindex pat = i -> i = index \/ i = -1 ->
  gs_amount s = amount * pat_size pat -> gs_amount s <= CURL_OFF_T_MAX ->
  exists r s', add_glob pat s = (r, s') /\ gs_amount s' = gs_amount s /\ glob_buf (gs_glob s') = glob_buf (gs_glob s) /\
    (r = CURLE_OK /\ glob_inv (if i =? -1 then index else index + 1) (gs_glob s') (gs_amount s') \/ refused r).
Proof.
  intros Hi Hw Hf Hn Hg Hi' Ha Hm. pose proof (inv_index _ _ _ Hi) as Hpos.
  set (g := set_pattern (pattern (gs_glob s) ++ [pat]) (gs_glob s)).
  assert (Hadd : forall p, (pnum g < p /\ exists k, 1 <= k <= 8 /\ p = 2 ^ k) ->
    glob_inv (if i =? -1 then index else index + 1) (set_palloc p g) (gs_amount s)).
  { intros p Hp. destruct (inv_amount _ _ _ Hi) as [Ham _]. constructor; cbn [pattern set_palloc g set_pattern beenhere glob_palloc].
    - apply Forall_app. split; [exact (inv_wf _ _ _ Hi)|by repeat constructor].
    - apply Forall_app. split; [exact (inv_fresh _ _ _ Hi)|by repeat constructor].
    - rewrite omap_app. cbn. pose proof (inv_names _ _ _ Hi) as Hnd. destruct (pat_name pat) as [n|]; [|by rewrite app_nil_r].
      apply NoDup_app. split; [done|]. split; [|by apply NoDup_singleton]. intros x Hx Hx'. apply list_elem_of_singleton in Hx' as ->.
      by apply Hn.
    - rewrite omap_app. apply Forall_app. split; [exact (inv_chars _ _ _ Hi)|]. cbn.
      destruct (pat_name pat) as [n|]; constructor; [by apply Hn|constructor].
    - rewrite map_app, filter_app, (inv_indexes _ _ _ Hi). cbn [map]. rewrite Hg. destruct Hi' as [->| ->].
      + rewrite (proj2 (Z.eqb_neq index (-1))) by lia. rewrite seqZ_app by lia. rewrite Z.add_0_l. by rewrite filter_cons_True by lia.
      + cbn. by rewrite app_nil_r.
    - case_if; lia.
    - exact Hp.
    - exact (inv_new _ _ _ Hi).
    - rewrite urls_total_app. cbn [urls_total]. split; [lia|done]. }
  destruct (inv_array _ _ _ Hi) as (Hlt & k & Hk & Hpk).
  assert (Hpn : pnum g = pnum (gs_glob s) + 1) by apply zlen_snoc.
  unfold add_glob. change (glob_palloc (set_pattern (pattern (gs_glob s) ++ [pat]) (gs_glob s))) with (glob_palloc (gs_glob s)).
  change (set_pattern (pattern (gs_glob s) ++ [pat]) (gs_glob s)) with g.
  change (pnum (set_palloc (glob_palloc (gs_glob s) * 2) g)) with (pnum g).
  destruct (pnum g >=? glob_palloc (gs_glob s)) eqn:E; zb_hyps.
  - destruct (pnum g <? 255) eqn:E2; zb_hyps.
    + destruct (galloc_spec (gs_set_glob (set_palloc (glob_palloc (gs_glob s) * 2) g) s)) as (ok & o & ->).
      destruct ok; cbn [negb]; (do 2 eexists; split; [done|]; split; [done|]; split; [done|]); [left|by right; auto with gurl].
      split; [done|]. apply Hadd. pose proof (next_power k (pnum (gs_glob s))). split; [lia|].
      exists (k + 1). split; [lia|]. rewrite Z.pow_add_r by lia. lia.
    + do 2 eexists. split; [done|]. split; [done|]. split; [done|]. by right; auto with gurl.
  - do 2 eexists. split; [done|]. split; [done|]. split; [done|]. left. split; [done|].
    apply (Hadd (glob_palloc (gs_glob s))). split; [lia|by exists k].
Qed.

(** * Names *)

Lemma strncmp_eq_prefix w rest : strncmp_eq (w ++ rest) w (length w) = true.
Proof. induction w as [|c w IH]; cbn; [done|]. rewrite Z.eqb_refl. cbn [negb]. case_if; [done|]. exact IH. Qed.

Lemma find_name_none l name : find_name l name = None -> Forall is_char (str_bytes name) ->
  (exists p, str_p name = Some p /\ str_len name = zlen (str_bytes name)) -> str_bytes name ∉ omap pat_name l.
Proof.
  intros H Hc (p & Hp & Hl). induction l as [|pat l IH]; cbn [find_name omap list_omap] in *; [by apply not_elem_of_nil|].
  destruct (pat_name pat) as [n|] eqn:En; [|by apply IH]. destruct (curlx_str_cmp name (Some n)) eqn:Ec; [done|].
  apply not_elem_of_cons. split; [|by apply IH]. intros E. rewrite <- E in Ec. unfold curlx_str_cmp in Ec. rewrite Hp in Ec.
  cbn [default from_option id] in Ec. rewrite strlen_nonzero in Ec by by apply char_nonzero. rewrite Hl, Z.eqb_refl in Ec. cbn [andb] in Ec.
  unfold zlen in Ec. rewrite Nat2Z.id in Ec. rewrite <- not_true_iff_false in Ec. apply Ec.
  assert (Hsplit : p = str_bytes name ++ zdrop (str_len name) p).
  { unfold str_bytes. rewrite Hp. cbn. by rewrite ztake_zdrop. }
  rewrite Hsplit at 1. apply strncmp_eq_prefix.
Qed.

Lemma glob_name_spec start : Forall is_char start ->
  match glob_name start with
  | Some (name, p) => p `suffix_of` start /\ zlen p < zlen start /\ given_name name = Some (str_bytes name) /\
      Forall is_char (str_bytes name) /\ exists q, str_p name = Some q /\ str_len name = zlen (str_bytes name)
  | None => True
  end.
Proof.
  intros Hc. unfold glob_name. unfold curlx_str_single at 1. destruct (Z.eqb_spec (deref start) 60) as [E|]; cbn [negb]; [|done].
  destruct start as [|c start]; [done|]. cbn in E. subst c. cbn [drop]. rewrite drop_0. apply Forall_cons in Hc as [_ Hc].
  destruct (word_span (fun c => c =? 62) start) as [w rest] eqn:Ew.
  pose proof (str_until_correct start MAX_GLOBNAME_LEN 62 w rest ltac:(done) Ew) as H.
  destruct (curlx_str_until start MAX_GLOBNAME_LEN 62) as [[rc p] name] eqn:Eu. destruct H as [-> H]. destruct rc; try done.
  destruct H as [(_ & Hl & -> & Hn)|[(? & _)|(? & _)]]; [|done..].
  unfold curlx_str_single. destruct (Z.eqb_spec (deref rest) 62) as [E|]; cbn [negb]; [|done].
  destruct rest as [|c rest]; [done|]. cbn [drop]. rewrite drop_0.
  assert (Hlen : str_len name = zlen w).
  { unfold curlx_str_until in Eu. rewrite (scan_word_spec _ _ _ _ _ _ Ew) in Eu by done. rewrite Z.add_0_l, (proj2 (Z.leb_le _ _)) in Eu by lia.
    cbn [take_word] in Eu. rewrite (proj2 (Z.eqb_neq _ _)) in Eu by lia. by injection Eu as <-. }
  assert (Hp : str_p name = Some (w ++ c :: rest)).
  { unfold curlx_str_until in Eu. rewrite (scan_word_spec _ _ _ _ _ _ Ew) in Eu by done. rewrite Z.add_0_l, (proj2 (Z.leb_le _ _)) in Eu by lia.
    cbn [take_word] in Eu. rewrite (proj2 (Z.eqb_neq _ _)) in Eu by lia. by injection Eu as <-. }
  split; [exists (60 :: w ++ [c]); by rewrite <- app_comm_cons, <- app_assoc|]. split; [rewrite zlen_cons, zlen_app, zlen_cons; lia|].
  split; [unfold given_name; by rewrite (proj2 (Z.eqb_neq _ _)) by lia|]. rewrite Hn. split; [by apply Forall_app in Hc as [Hc _]|].
  eexists. split; [exact Hp|exact Hlen].
Qed.

(** * The loops *)

Lemma strchr_spec s c i : strchr s c = Some i -> 0 <= i < zlen s.
Proof.
  revert i. induction s as [|x s IH]; intros i; cbn [strchr]; [done|]. rewrite zlen_cons. pose proof (zlen_nonneg s).
  case_if; [intros [= <-]; lia|]. case_if; [done|]. destruct (strchr s c) as [j|]; [|done]. intros [= <-]. specialize (IH j eq_refl). lia.
Qed.

Lemma at_1_lt pattern c : at_ pattern 1 = c -> c <> 0 -> 2 <= zlen pattern.
Proof. destruct pattern as [|x [|y l]]; cbn; intros; [lia..|]. rewrite !zlen_cons. pose proof (zlen_nonneg l). lia. Qed.

Section Parse.
Context (curl_url_set : list Z -> allocs -> CURLUcode * allocs).

Lemma peek_ipv6_spec pattern s : exists r skip ipv6 s', peek_ipv6 curl_url_set pattern s = (r, skip, ipv6, s') /\
  (r = CURLE_OK \/ refused r) /\ 0 <= skip <= zlen pattern /\ skip < MAX_IP6LEN /\ (ipv6 = true -> 0 < skip) /\
  gs_glob s' = gs_glob s /\ gs_amount s' = gs_amount s.
Proof.
  unfold peek_ipv6. pose proof (zlen_nonneg pattern). destruct (strchr pattern 93) as [e|] eqn:E.
  2: { do 4 eexists. split; [done|]. split; [by left|]. split_and!; done || lia. }
  apply strchr_spec in E. case_if.
  { do 4 eexists. split; [done|]. split; [by left|]. split_and!; done || lia. }
  destruct (galloc_spec s) as (ok & o & ->). destruct ok; cbn [negb].
  2: { do 4 eexists. split; [done|]. split; [right; auto with gurl|]. split_and!; done || lia. }
  destruct (curl_url_set _ _) as [rc o2].
  destruct rc; do 4 eexists; (split; [done|]); (split; [first [by left | right; auto with gurl]|]); split_and!; done || lia.
Qed.

(** The literal text in front of a glob. *)
Definition literal_post (pattern c : list Z) (s : gstate) (p : list Z) (s' : gstate) : Prop :=
  frame s s' /\ gs_amount s' = gs_amount s /\ p `suffix_of` pattern /\ (p = [] \/ deref p = 123 \/ deref p = 91) /\
  exists w, buf_rep s' (c ++ w) /\ (p = pattern /\ w = [] \/ w <> [] /\ (length p < length pattern)%nat).

Lemma literal_post_behind used q pattern c w s s1 p s' : pattern = used ++ q -> used <> [] -> w <> [] -> frame s s1 ->
  gs_amount s1 = gs_amount s -> literal_post q (c ++ w) s1 p s' -> literal_post pattern c s p s'.
Proof.
  intros -> Hu Hw Hf Ha (H1 & H2 & H3 & H4 & w' & H5 & H6). split; [by eapply frame_trans|]. split; [congruence|].
  split; [by apply suffix_app_r|]. split; [done|]. exists (w ++ w'). rewrite app_assoc. split; [done|]. right.
  split; [by destruct w|]. rewrite length_app. destruct used; [done|]. cbn [length]. destruct H6 as [[-> _]|[_ ?]]; lia.
Qed.

Lemma literal_loop_spec fuel : forall pattern s c, (length pattern <= fuel)%nat -> Forall is_char pattern -> buf_rep s c ->
  returns (literal_loop curl_url_set fuel pattern s) (literal_post pattern c s).
Proof.
  induction fuel as [|fuel IH]; intros pattern s c Hn Hp Hb.
  { destruct pattern as [|x l]; [|cbn in Hn; lia]. apply returns_ok. split; [done|]. split; [done|]. split; [done|]. split; [by left|].
    exists []. rewrite app_nil_r. split; [done|by left]. }
  cbn [literal_loop].
  assert (Hstop : deref pattern = 0 \/ deref pattern = 123 \/ deref pattern = 91 ->
    returns (Some (CURLE_OK, s, Some pattern)) (literal_post pattern c s)).
  { intros Hd. apply returns_ok. split; [done|]. split; [done|]. split; [done|].
    split. { destruct Hd as [Hd|Hd]; [left|by right]. destruct Hp as [|x l Hx _]; [done|]. cbn in Hd. unfold is_char in Hx. lia. }
    exists []. rewrite app_nil_r. split; [done|by left]. }
  destruct ((deref pattern =? 0) || (deref pattern =? 123)) eqn:E.
  { apply Hstop. apply orb_prop in E as [E|E]; zb_hyps; auto. }
  apply orb_false_elim in E as [E0 E1]. zb_hyps.
  (* text of the pattern goes to the buffer *)
  assert (Hput : forall used b q s1 m, pattern = used ++ q -> used <> [] -> b <> [] -> Forall is_char b -> zlen b <= MAX_DYNBUF_SIZE ->
    frame s s1 -> buf_rep s1 c -> gs_amount s1 = gs_amount s -> (forall s, gs_glob (m s) = gs_glob s /\ gs_amount (m s) = gs_amount s) ->
    returns ('(r, s2) ← buf_addn b s1; if is_ok r then literal_loop curl_url_set fuel q (m s2) else Some (CURLE_OUT_OF_MEMORY, s2, None))
      (literal_post pattern c s)).
  { intros used b q s1 m Hu Hne Hbn Hbc Hbl Hf1 Hb1 Ha1 Hmove.
    destruct (buf_addn_spec s1 c b Hb1 Hbc Hbl) as (r & s2 & -> & Hf2 & Ha2 & Hb2). cbn [mbind option_bind].
    destruct (is_ok r) eqn:Er; [|refuse]. apply is_ok_iff in Er. destruct (Hmove s2) as [Hm1 Hm2].
    destruct (IH q (m s2) (c ++ b)) as (r' & s' & v & -> & H).
    - rewrite Hu, length_app in Hn. destruct used; [done|]. cbn in Hn. lia.
    - rewrite Hu in Hp. by apply Forall_app in Hp as [_ Hp].
    - unfold buf_rep. rewrite Hm1. by apply Hb2.
    - exists r', s', v. split; [done|]. destruct v as [v|]; [|done]. destruct H as [-> H]. split; [done|].
      apply (literal_post_behind used q pattern c b s (m s2)); try done; [|congruence].
      eapply frame_trans; [exact Hf1|]. unfold frame in *. rewrite Hm1. exact Hf2. }
  case_if.
  - destruct (peek_ipv6_spec pattern s) as (r & skip & ipv6 & s1 & -> & Hr & Hs1 & Hs2 & Hs3 & Hg & Ha).
    destruct (is_ok r) eqn:Er; cbn [negb]; [|destruct Hr as [->|Hr]; [done|by apply returns_fail]].
    assert (Hf1 : frame s s1) by (unfold frame; by rewrite Hg).
    assert (Hb1 : buf_rep s1 c) by (unfold buf_rep; by rewrite Hg).
    set (k := if negb ipv6 && (at_ pattern 1 =? 93) then 2 else skip).
    assert (Hk : 0 <= k <= zlen pattern /\ k < MAX_IP6LEN).
    { subst k. case_if; [|done]. split; [|done]. assert (at_ pattern 1 = 93) as H93 by done. apply at_1_lt in H93; lia. }
    destruct (Z.eqb_spec k 0) as [Hk0|Hk0]; cbn [negb].
    + apply returns_ok. split; [done|]. split; [done|]. split; [done|]. split; [by right; right|].
      exists []. rewrite app_nil_r. split; [done|by left].
    + apply (Hput (ztake k pattern) (ztake k pattern) (zdrop k pattern) s1 id); try done.
      * by rewrite ztake_zdrop.
      * intros H0. apply (f_equal zlen) in H0. rewrite zlen_ztake, zlen_nil in H0 by lia. lia.
      * intros H0. apply (f_equal zlen) in H0. rewrite zlen_ztake, zlen_nil in H0 by lia. lia.
      * by apply Forall_take.
      * rewrite zlen_ztake by lia. unfold MAX_IP6LEN, MAX_DYNBUF_SIZE in *. lia.
  - case_if; [refuse|]. destruct pattern as [|x l]; [done|].
    assert (Hmv : forall s, gs_glob (gs_move 1 s) = gs_glob s /\ gs_amount (gs_move 1 s) = gs_amount s) by done.
    apply Forall_cons in Hp as [Hx Hl]. case_if.
    + cbn [drop]. rewrite drop_0. destruct l as [|y l]; [by cbn in *; zb_hyps|]. apply Forall_cons in Hl as [Hy Hl]. cbn [deref drop]. rewrite drop_0.
      apply (Hput [x; y] [y] l (gs_move 1 s) (gs_move 1)); try done; by apply Forall_singleton.
    + cbn [deref drop]. rewrite drop_0. apply (Hput [x] [x] l s (gs_move 1)); try done; by apply Forall_singleton.
Qed.

Lemma add_literal_spec index s c : glob_inv index (gs_glob s) (gs_amount s) -> buf_rep s c -> c <> [] ->
  exists r s', add_literal s = Some (r, s') /\ (r = CURLE_OK /\ parse_inv_at index s' \/ refused r).
Proof.
  intros Hi Hb Hc. pose proof Hb as ((Hlen & Hto & Hm) & Htb & Hch). unfold add_literal, curlx_dyn_ptr, curlx_dyn_len.
  destruct (bufr (glob_buf (gs_glob s))) as [m|]; [|by destruct Hm as [-> _]]. destruct Hm as (_ & _ & rest & ->).
  cbn [mbind option_bind]. rewrite Hlen, mem_read_text. cbn [mbind option_bind]. unfold glob_fixed.
  destruct (glob_inv_slot index s Hi) as [Hs Ha]. rewrite Hs. cbn [negb].
  assert (Hfail : forall s1, glob_buf (gs_glob s1) = glob_buf (gs_glob s) -> exists r s',
    (s2 ← buf_reset s1; Some (CURLE_OUT_OF_MEMORY, s2)) = Some (r, s') /\ (r = CURLE_OK /\ parse_inv_at index s' \/ refused r)).
  { intros s1 Hs1. assert (Hb1 : buf_rep s1 c) by (unfold buf_rep; by rewrite Hs1).
    destruct (buf_reset_spec s1 c Hb1) as (s2 & -> & _). cbn [mbind option_bind]. do 2 eexists. split; [done|]. right. auto with gurl. }
  destruct (galloc_spec s) as (ok & o & ->). destruct ok; cbn [negb mbind option_bind]; [|by apply Hfail].
  destruct (galloc_spec (gs_set_o o s)) as (ok & o2 & ->). destruct ok; cbn [negb mbind option_bind]; [|by apply Hfail].
  set (s1 := gs_set_o o2 (gs_set_o o s)). set (pat := mk_pattern None (-1) (GLOB_SET [c] 0 1)).
  assert (Hw : pat_wf pat) by (split; [done|]; repeat constructor; [done|by eapply buf_rep_len]).
  destruct (inv_amount _ _ _ Hi) as [_ Hmax].
  destruct (add_glob_spec index (-1) s1 pat (gs_amount s)) as (r & s2 & -> & Ha2 & Hb2 & Hr); [done..|by right|change (pat_size pat) with 1; cbn; lia|done|].
  assert (Hb2' : buf_rep s2 c) by (unfold buf_rep; by rewrite Hb2).
  destruct (buf_reset_spec s2 c Hb2') as (s3 & -> & (Hf1 & Hf2 & Hf3) & Ha3 & Hb3). cbn [mbind option_bind].
  do 2 eexists. split; [done|]. destruct Hr as [[-> Hr]|Hr]; [left|by right]. split; [done|]. split; [|done]. cbn in Hr.
  destruct Hr. constructor; unfold pnum in *; rewrite ?Hf1, ?Hf2, ?Hf3, ?Ha3; try done.
Qed.

Lemma glob_entry_spec ipattern start set index s : glob_inv index (gs_glob s) (gs_amount s) -> buf_rep s [] ->
  Forall is_char start -> zlen start <= INT_MAX ->
  returns (glob_entry ipattern start set index s)
    (fun p s' => parse_inv_at (index + 1) s' /\ p `suffix_of` start /\ (length p < length start)%nat).
Proof.
  intros Hi Hb Hc Hl. unfold glob_entry. pose proof (glob_name_spec start Hc) as Hname. destruct (glob_inv_slot index s Hi) as [Hs Ha].
  (* behind the name *)
  assert (Hgo : forall name p pos, p `suffix_of` start -> name_new (given_name name) (gs_glob s) ->
    returns ('(r, s, v) ← (if set then glob_set p index name (gs_move pos s) else glob_range p index name (gs_move pos s));
      match v with
      | None => Some (r, s, None)
      | Some (pattern, pat) => let '(r, s) := add_glob pat s in Some (r, s, if is_ok r then Some pattern else None)
      end) (fun p s' => parse_inv_at (index + 1) s' /\ p `suffix_of` start /\ (length p < length start)%nat)).
  { intros name p pos Hsuf Hnew. assert (Hpc : Forall is_char p) by (destruct Hsuf as [u ->]; by apply Forall_app in Hc as [_ Hc]).
    pose proof (suffix_length _ _ Hsuf) as Hsl.
    apply (returns_bind _ (fun v s' => is_value p index (gs_move pos s) v s' /\ pat_name v.2 = given_name name)).
    - destruct set; [by eapply glob_set_spec|]. apply glob_range_spec; try done. unfold zlen in *. lia.
    - intros; by apply returns_fail.
    - intros s1 [q pat] [(Hq1 & Hq2 & Hw & Hfr & Hgi & Hb1 & (Hf1 & Hf2 & Hf3) & Ha1 & Hm) Hn]. cbn [snd] in Hn.
      assert (Hi1 : glob_inv index (gs_glob s1) (gs_amount s)).
      { destruct Hi. constructor; unfold pnum in *; rewrite ?Hf1, ?Hf2, ?Hf3; try done. }
      destruct (add_glob_spec index index s1 pat (gs_amount s)) as (r & s2 & -> & Ha2 & Hb2 & Hr); [done..| |done|by left|done|done|].
      { rewrite Hn. unfold name_new in *. rewrite Hf1. done. }
      destruct Hr as [[-> Hr]|Hr].
      + apply returns_ok. rewrite (proj2 (Z.eqb_neq index (-1))) in Hr by (pose proof (inv_index _ _ _ Hi); lia).
        split; [split; [done|unfold buf_rep; by rewrite Hb2]|]. split; [by etrans|lia].
      + destruct (is_ok r) eqn:Er; [apply is_ok_iff in Er as ->; by destruct Hr|]. by apply returns_fail. }
  destruct (glob_name start) as [[name p]|].
  - destruct Hname as (Hsuf & Hlt & Hgn & Hnc & Hrep). rewrite (proj2 (Z.eqb_neq _ 0)) by lia. cbn [negb andb].
    unfold glob_find_name. destruct (find_name (pattern (gs_glob s)) name) as [pat|] eqn:Ef; [refuse|].
    apply Hgo; [done|]. rewrite Hgn. split; [|done]. by apply find_name_none.
  - rewrite Z.eqb_refl. cbn [negb andb]. apply Hgo; done.
Qed.

Lemma parse_loop_spec fuel : forall ipattern pattern index s, (length pattern < fuel)%nat -> Forall is_char pattern ->
  zlen pattern <= INT_MAX -> parse_inv_at index s ->
  exists r s', parse_loop curl_url_set fuel ipattern pattern index s = Some (r, s') /\
    (r = CURLE_OK /\ (exists index', parse_inv_at index' s') \/ refused r).
Proof.
  induction fuel as [|fuel IH]; intros ipattern pattern index s Hn Hp Hl [Hi Hb]; [lia|]. cbn [parse_loop].
  case_if; [do 2 eexists; split; [done|]; left; split; [done|]; by exists index|].
  destruct (literal_loop_spec (length pattern) pattern s [] ltac:(done) Hp Hb) as (r & s1 & v & -> & H). cbn [mbind option_bind].
  destruct v as [p|]; [|do 2 eexists; split; [done|]; by right]. destruct H as (-> & (Hf1 & Hf2 & Hf3) & Ha & Hsuf & Hd & w & Hb1 & Hw).
  assert (Hi1 : glob_inv index (gs_glob s1) (gs_amount s1)).
  { destruct Hi. constructor; unfold pnum in *; rewrite ?Hf1, ?Hf2, ?Hf3, ?Ha; try done. }
  assert (Hpc : Forall is_char p) by (destruct Hsuf as [u ->]; by apply Forall_app in Hp as [_ Hp]).
  pose proof (suffix_length _ _ Hsuf) as Hsl. assert (Hpl : zlen p <= INT_MAX) by (unfold zlen in *; lia).
  cbn [app] in Hb1. pose proof Hb1 as [Hrep _]. rewrite (dyn_rep_len _ _ Hrep).
  destruct Hw as [[-> ->]|[Hw Hlt]].
  - rewrite zlen_nil. cbn [Z.eqb negb]. rewrite (proj2 (Z.eqb_neq _ _)) by done.
    rewrite (proj2 (orb_true_iff _ _)).
    2: { destruct Hd as [->|[->| ->]]; [by cbn in E|by left|by right]. }
    destruct pattern as [|c start]; [by cbn in E|]. cbn [drop]. rewrite drop_0. apply Forall_cons in Hpc as [_ Hsc]. rewrite zlen_cons in Hl.
    destruct (glob_entry_spec ipattern start (deref (c :: start) =? 123) index (gs_move 1 s1) Hi1 Hb1 Hsc) as (r & s2 & v & -> & H); [lia|].
    cbn [mbind option_bind]. destruct v as [q|]; [|do 2 eexists; split; [done|]; by right]. destruct H as (-> & Hi2 & Hq & Hql).
    apply IH; [cbn in Hn; lia| | |done].
    + destruct Hq as [u ->]. by apply Forall_app in Hsc as [_ Hsc].
    + unfold zlen in *. lia.
  - rewrite (proj2 (Z.eqb_neq (zlen w) 0)). 2: { intros H0. by apply zlen_0 in H0. } cbn [negb].
    destruct (add_literal_spec index s1 w Hi1 Hb1 Hw) as (r & s2 & -> & Hr). cbn [mbind option_bind].
    destruct Hr as [[-> Hr]|Hr]; cbn [is_ok].
    + apply IH; [lia|done..].
    + destruct (is_ok r) eqn:Er; [apply is_ok_iff in Er as ->; by destruct Hr|]. do 2 eexists. split; [done|]. by right.
Qed.

(** The outcome of [glob_url]. *)
Lemma glob_url_spec url o : Forall is_char url -> zlen url <= INT_MAX ->
  exists r g n o', glob_url curl_url_set url o = Some (r, g, n, o') /\
    (r = CURLE_OK /\ n = Some (urls_total (pattern g)) /\ glob_ready g /\ (exists k, glob_inv k g (urls_total (pattern g))) \/
     refused r /\ (n = Some 1 \/ n = None)).
Proof.
  intros Hu Hl. unfold glob_url. destruct (next_alloc o) as [ok o1]. destruct ok; cbn [negb].
  2: { do 4 eexists. split; [done|]. right. split; [auto with gurl|by right]. }
  set (g := set_palloc 2 (mk_glob (curlx_dyn_init MAX_CONFIG_LINE_LENGTH) [] 0 false None 0)).
  assert (Hi : parse_inv_at 0 (mk_gs g 1 1 o1)).
  { split; [constructor; cbn; try done; try constructor; try lia|].
    - reflexivity.
    - by exists 1.
    - split; [|split; [done|constructor]]. apply dyn_init_rep. unfold MAX_CONFIG_LINE_LENGTH, MAX_DYNBUF_SIZE. lia. }
  unfold glob_parse. destruct (parse_loop_spec (S (length url)) url url 0 _ ltac:(lia) Hu Hl Hi) as (r & s & -> & Hr).
  cbn [mbind option_bind]. destruct Hr as [[-> [k [Hk Hb]]]|Hr]; cbn [is_ok].
  - do 4 eexists. split; [done|]. left. split; [done|]. destruct (inv_amount _ _ _ Hk) as [Ha _]. split; [by rewrite Ha|].
    destruct Hb as (Hb & Ht & _). split; [split; [by eexists|done]|]. exists k. by rewrite <- Ha.
  - destruct (is_ok r) eqn:Er; [apply is_ok_iff in Er as ->; by destruct Hr|]. do 4 eexists. split; [done|]. right. split; [done|by left].
Qed.

End Parse.
