(* ===== verification/GlobText.v ===== *)
(** Globs as text, for Urlglob.v: the pieces of a glob, how they are written,
    what they stand for, and that the parser reads them back. *)

From Stdlib Require Import ZArith Lia List String SpecFloat.
From stdpp Require Import base numbers option list.
From S2P Require Import Prelude Dynbuf Strparse InetAddr Parsedate Mprintf PrintfSpec PrintfFormat PrintfPieces PrintfTheorems Urlglob GlobIter GlobParse.
Close Scope nat_scope.
Open Scope Z_scope.

(** * Pieces *)

Inductive gpiece :=
  | P_text (t : list Z)
  | P_set (name : option (list Z)) (elems : list (list Z))
  | P_letters (name : option (list Z)) (mn mx step : Z)
  | P_numbers (name : option (list Z)) (width mn mx step : Z).

Definition in_text (c : Z) : bool := (c =? 123) || (c =? 91) || (c =? 125) || (c =? 93).
Definition in_set (c : Z) : bool := in_text c || (c =? 44) || (c =? 92) || (c =? 60).

Definition escaped (special : Z -> bool) (t : list Z) : list Z := t ≫= fun c => if special c then [92; c] else [c].

Definition name_text (name : option (list Z)) : list Z := match name with Some n => [60] ++ n ++ [62] | None => [] end.

Fixpoint set_body (elems : list (list Z)) : list Z :=
  match elems with
  | [] => [125]
  | [e] => escaped in_set e ++ [125]
  | e :: elems => escaped in_set e ++ [44] ++ set_body elems
  end.

Definition step_text (step : Z) : list Z := if step =? 1 then [] else 58 :: number_chars 10 false step.

Definition gpiece_text (p : gpiece) : list Z :=
  match p with
  | P_text t => escaped in_text t
  | P_set name elems => [123] ++ name_text name ++ set_body elems
  | P_letters name mn mx step => [91] ++ name_text name ++ [mn; 45; mx] ++ step_text step ++ [93]
  | P_numbers name width mn mx step =>
      [91] ++ name_text name ++ long_text true 10 false width mn ++ [45] ++ number_chars 10 false mx ++ step_text step ++ [93]
  end.

Definition glob_text (ps : list gpiece) : list Z := ps ≫= gpiece_text.

(** What a piece stands for. *)
Definition gpiece_values (p : gpiece) : list (list Z) :=
  match p with
  | P_text t => [t]
  | P_set _ elems => elems
  | P_letters _ mn mx step => (fun i => [mn + i * step]) <$> seqZ 0 ((mx - mn) / step + 1)
  | P_numbers _ width mn mx step => (fun i => long_text true 10 false width (mn + i * step)) <$> seqZ 0 ((mx - mn) / step + 1)
  end.

Fixpoint product (vs : list (list (list Z))) : list (list Z) :=
  match vs with [] => [[]] | v :: vs => x ← v; app x <$> product vs end.

Definition expand (ps : list gpiece) : list (list Z) := product (map gpiece_values ps).

(** Which pieces can be written. *)
Definition charb (c : Z) : bool := (0 <? c) && (c <? 256).

Definition name_okb (name : option (list Z)) : bool :=
  match name with
  | Some n => (1 <=? zlen n) && (zlen n <=? MAX_GLOBNAME_LEN) && forallb (fun c => charb c && negb (c =? 62) && negb (c =? 93)) n
  | None => true
  end.

Definition range_okb (mn mx step : Z) : bool :=
  (1 <=? step) && (mn <=? mx) && (if mn =? mx then step =? 1 else step <=? mx - mn).

Definition gpiece_ok (p : gpiece) : bool :=
  match p with
  | P_text t =>
      negb (zlen t =? 0) && forallb charb t && negb (default 0 (last t) =? 92) && (zlen t <? MAX_CONFIG_LINE_LENGTH)
  | P_set name elems =>
      name_okb name && negb (zlen elems =? 0) && negb ((zlen elems =? 1) && (zlen (default [] (head elems)) =? 0)) &&
      (zlen elems <=? 100000) && forallb (fun e => forallb charb e && (zlen e <? MAX_CONFIG_LINE_LENGTH)) elems
  | P_letters name mn mx step => name_okb name && ISALPHA mn && ISALPHA mx && (mx - mn <=? 25) && range_okb mn mx step
  | P_numbers name width mn mx step =>
      name_okb name && (0 <=? width) && (width <=? INT_MAX) && (0 <=? mn) && range_okb mn mx step && (mx + step <=? CURL_OFF_T_MAX)
  end.

Definition gpiece_name (p : gpiece) : option (list Z) :=
  match p with P_text _ => None | P_set n _ => n | P_letters n _ _ _ => n | P_numbers n _ _ _ _ => n end.

Definition is_text (p : gpiece) : bool := match p with P_text _ => true | _ => false end.
Definition is_range (p : gpiece) : bool := match p with P_letters _ _ _ _ | P_numbers _ _ _ _ _ => true | _ => false end.

(** No text follows a text: the parser would read one. *)
Fixpoint texts_apart (ps : list gpiece) : bool :=
  match ps with
  | p :: (q :: _) as ps => negb (is_text p && is_text q) && texts_apart ps
  | _ => true
  end.

Definition gpiece_size (p : gpiece) : Z :=
  match p with
  | P_text _ => 1
  | P_set _ elems => zlen elems
  | P_letters _ mn mx step => (mx - mn) / step + 1
  | P_numbers _ _ mn mx step => (mx - mn) / step + 1
  end.

Definition expand_total (ps : list gpiece) : Z := foldr (fun p n => gpiece_size p * n) 1 ps.

Definition pieces_ok (ps : list gpiece) : bool :=
  forallb gpiece_ok ps && texts_apart ps && (zlen ps <=? 255) && (expand_total ps <=? CURL_OFF_T_MAX) &&
  bool_decide (NoDup (omap gpiece_name ps)).

(** * Granted allocations *)

(** The state after a step that leaves the patterns, with the text in the buffer. *)
Definition moved (s s' : gstate) (c : list Z) : Prop :=
  frame s s' /\ gs_amount s' = gs_amount s /\ gs_o s' = [] /\ buf_rep s' c.

Lemma moved_trans s1 s2 s3 c d : moved s1 s2 c -> moved s2 s3 d -> moved s1 s3 d.
Proof. intros (H1 & H2 & _) (H3 & H4 & H5 & H6). split; [by eapply frame_trans|]. split; [congruence|done]. Qed.

Lemma galloc_granted s : gs_o s = [] -> galloc s = (true, s).
Proof. destruct s as [g p a o]. cbn. by intros ->. Qed.

Lemma buf_addn_granted s c b : gs_o s = [] -> buf_rep s c -> Forall is_char b -> zlen (c ++ b) < MAX_CONFIG_LINE_LENGTH ->
  exists s', buf_addn b s = Some (CURLE_OK, s') /\ moved s s' (c ++ b).
Proof.
  intros Ho (Hs & Ht & Hc) Hb Hl. unfold buf_addn, curlx_dyn_addn. rewrite Ho. rewrite zlen_app in Hl. pose proof (zlen_nonneg c).
  destruct (dyn_nappend_granted _ _ b Hs) as (buf & r & -> & Hm & Hto & Hr); [unfold MAX_CONFIG_LINE_LENGTH, MAX_DYNBUF_SIZE in *; lia|].
  cbn [mbind option_bind]. destruct Hr as [(-> & _ & Hr & _)|[(_ & Hx & _)|(? & _)]]; [|lia|done].
  eexists. split; [done|]. split; [done|]. split; [done|]. split; [done|]. split; [done|]. split; [by rewrite <- Ht|]. by apply Forall_app.
Qed.

Lemma buf_reset_granted s c : gs_o s = [] -> buf_rep s c -> exists s', buf_reset s = Some s' /\ moved s s' [].
Proof.
  intros Ho Hb. destruct (buf_reset_spec s c Hb) as (s' & E & Hf & Ha & Hb'). exists s'. split; [done|]. split; [done|]. split; [done|].
  split; [|done]. revert E. unfold buf_reset. destruct (curlx_dyn_reset _); [|done]. cbn. by intros [= <-].
Qed.

Lemma charb_spec c : charb c = true <-> is_char c.
Proof. unfold charb, is_char. rewrite andb_true_iff, !Z.ltb_lt. done. Qed.

Lemma charsb_spec l : forallb charb l = true -> Forall is_char l.
Proof. intros H. apply Forall_forall. intros c Hc. apply charb_spec. rewrite forallb_forall in H. apply H. by apply list_elem_of_In. Qed.

(** * Reading sets *)

Lemma set_loop_char c rest first elem palloc s b : gs_o s = [] -> buf_rep s b -> is_char c -> zlen b + 1 < MAX_CONFIG_LINE_LENGTH ->
  exists s', set_loop ((if in_set c then [92; c] else [c]) ++ rest) first elem palloc s = set_loop rest false elem palloc s' /\
    moved s s' (b ++ [c]).
Proof.
  intros Ho Hb Hc Hl. assert (Hc1 : Forall is_char [c]) by by apply Forall_singleton.
  assert (Hlen : zlen (b ++ [c]) < MAX_CONFIG_LINE_LENGTH) by by rewrite zlen_snoc.
  unfold in_set, in_text. case_if.
  - cbn [app set_loop]. change (92 =? 0) with false. cbn [Z.eqb Pos.eqb orb]. rewrite (proj2 (Z.eqb_neq c 0)) by (unfold is_char in Hc; lia).
    cbn [negb andb]. destruct (buf_addn_granted (gs_move 1 s) b [c] Ho Hb Hc1 Hlen) as (s' & -> & Hm). cbn [mbind option_bind is_ok].
    exists (gs_move 1 s'). split; [done|]. exact Hm.
  - repeat match goal with H : _ || _ = false |- _ => apply orb_false_elim in H as [? ?] end. zb_hyps.
    destruct (buf_addn_granted s b [c] Ho Hb Hc1 Hlen) as (s' & E & Hm). exists (gs_move 1 s'). split; [|exact Hm].
    cbn [app set_loop]. unfold is_char in Hc. rewrite !(proj2 (Z.eqb_neq c _)) by lia. cbn [orb andb].
    rewrite E. cbn [mbind option_bind is_ok]. by destruct rest.
Qed.

Lemma set_loop_text t rest first elem palloc s b : gs_o s = [] -> buf_rep s b -> Forall is_char t -> zlen b + zlen t < MAX_CONFIG_LINE_LENGTH ->
  exists s' first', set_loop (escaped in_set t ++ rest) first elem palloc s = set_loop rest first' elem palloc s' /\
    (t <> [] -> first' = false) /\ (t = [] -> first' = first) /\ moved s s' (b ++ t).
Proof.
  intros Ho Hb Ht Hl. revert s b first Ho Hb Hl. induction Ht as [|c t Hc Ht IH]; intros s b first Ho Hb Hl.
  { exists s, first. rewrite app_nil_r. split; [done|]. split; [done|]. split; [done|]. done. }
  rewrite zlen_cons in Hl. pose proof (zlen_nonneg t). change (escaped in_set (c :: t)) with ((if in_set c then [92; c] else [c]) ++ escaped in_set t).
  rewrite <- app_assoc. destruct (set_loop_char c (escaped in_set t ++ rest) first elem palloc s b Ho Hb Hc) as (s1 & -> & Hm1); [lia|].
  pose proof Hm1 as (_ & _ & Ho1 & Hb1). destruct (IH s1 (b ++ [c]) false Ho1 Hb1) as (s2 & f2 & -> & H1 & H2 & Hm2); [rewrite zlen_snoc; lia|].
  exists s2, f2. split; [done|]. split. { intros _. destruct t; [by rewrite H2|by apply H1]. } split; [done|].
  rewrite <- app_assoc in Hm2. by eapply moved_trans.
Qed.

Lemma set_add_granted elem palloc s c : zlen elem < 100000 -> gs_o s = [] -> buf_rep s c ->
  exists s' palloc', set_add elem palloc s = Some (CURLE_OK, s', Some (elem ++ [c], palloc')) /\ moved s s' [] /\
    (zlen elem <= palloc -> zlen elem + 1 <= palloc').
Proof.
  intros Hl Ho Hb. unfold set_add. rewrite Z.geb_leb, (proj2 (Z.leb_gt _ _)) by lia.
  rewrite (galloc_granted s Ho). pose proof (zlen_nonneg elem).
  assert (Hgrow : exists p, (if palloc =? 0 then (true, s, 5) else if zlen elem >=? palloc then (true, s, palloc * 2) else (true, s, palloc)) = (true, s, p) /\
    (zlen elem <= palloc -> zlen elem + 1 <= p)).
  { repeat case_if; eexists; (split; [done|lia]). }
  destruct Hgrow as (p & -> & Hp). cbn [negb]. pose proof Hb as (Hrep & _ & Hc). rewrite (dyn_text_rep _ _ Hrep Hc). cbn [mbind option_bind].
  rewrite (galloc_granted s Ho). cbn [negb]. destruct (buf_reset_granted s c Ho Hb) as (s' & -> & Hm). cbn [mbind option_bind].
  by exists s', p.
Qed.

Lemma set_loop_body elems rest : forall first elem palloc s, gs_o s = [] -> buf_rep s [] -> 0 < gs_amount s ->
  Forall elem_ok elems -> elems <> [] -> (first = true -> elems <> [[]]) -> zlen elem + zlen elems <= 100000 -> zlen elem <= palloc ->
  gs_amount s * (zlen elem + zlen elems) <= CURL_OFF_T_MAX ->
  exists s' palloc', set_loop (set_body elems ++ rest) first elem palloc s = Some (CURLE_OK, s', Some (rest, elem ++ elems, palloc')) /\
    frame s s' /\ gs_amount s' = gs_amount s * (zlen elem + zlen elems) /\ gs_o s' = [] /\ buf_rep s' [] /\ zlen elem + zlen elems <= palloc'.
Proof.
  induction elems as [|e elems IH]; intros first elem palloc s Ho Hb Ha He Hne Hf Hl Hp Hm; [done|].
  apply Forall_cons in He as [[Hec Hel] He]. rewrite zlen_cons in *. pose proof (zlen_nonneg elem). pose proof (zlen_nonneg elems).
  assert (Htext : forall rest, exists s' first', set_loop (escaped in_set e ++ rest) first elem palloc s = set_loop rest first' elem palloc s' /\
    (e <> [] -> first' = false) /\ (e = [] -> first' = first) /\ moved s s' e).
  { intros r. by apply (set_loop_text e r first elem palloc s []). }
  destruct elems as [|e2 elems].
  - cbn [set_body]. rewrite <- app_assoc. destruct (Htext ([125] ++ rest)) as (s1 & f1 & -> & Hf1 & Hf1' & Hm1).
    pose proof Hm1 as (Hfr1 & Ha1 & Ho1 & Hb1). cbn [app set_loop Z.eqb Pos.eqb orb].
    assert (f1 = false) as ->. { destruct e; [rewrite Hf1' by done; destruct first; [by destruct Hf|done]|by apply Hf1]. }
    rewrite zlen_nil in *. rewrite Ha1, multiply_spec, Z.gtb_ltb, (proj2 (Z.ltb_ge _ _)) by lia.
    destruct (set_add_granted elem palloc (gs_set_amount (gs_amount s * (zlen elem + 1)) s1) e) as (s2 & p2 & -> & (Hfr2 & Ha2 & Ho2 & Hb2) & Hp2); [lia|done..|].
    cbn [mbind option_bind]. exists s2, p2. split; [done|]. split; [by eapply frame_trans|]. split; [rewrite Ha2; cbn [gs_amount gs_set_amount]; zlen_nils; lia|].
    split; [done|]. split; [done|]. zlen_nils; lia.
  - change (set_body (e :: e2 :: elems)) with (escaped in_set e ++ [44] ++ set_body (e2 :: elems)). rewrite <- !app_assoc.
    destruct (Htext ([44] ++ set_body (e2 :: elems) ++ rest)) as (s1 & f1 & -> & _ & _ & Hm1).
    pose proof Hm1 as (Hfr1 & Ha1 & Ho1 & Hb1). cbn [app set_loop Z.eqb Pos.eqb orb].
    destruct (set_add_granted elem palloc s1 e) as (s2 & p2 & -> & Hm2 & Hp2); [lia|done..|]. pose proof Hm2 as (Hfr2 & Ha2 & Ho2 & Hb2).
    cbn [mbind option_bind]. destruct (IH false (elem ++ [e]) p2 (gs_move 1 s2)) as (s3 & p3 & -> & Hfr3 & Ha3 & Ho3 & Hb3 & Hp3);
      [done|done|cbn; lia|done|done|done|rewrite zlen_snoc; lia|rewrite zlen_snoc; lia|cbn [gs_move gs_amount]; rewrite zlen_snoc, Ha2, Ha1; lia|].
    exists s3, p3. rewrite <- app_assoc. split; [done|]. split; [by do 2 (eapply frame_trans; [done|])|].
    split; [rewrite Ha3; cbn [gs_move gs_amount]; rewrite Ha2, Ha1, zlen_snoc; lia|]. split; [done|]. split; [done|]. rewrite zlen_snoc in Hp3. lia.
Qed.

(** * Reading numbers *)

Definition all_digits (t : list Z) : Prop := Forall (fun c => valid_digit c (max_digit 10) = true) t.

Lemma digits_read t rest max : all_digits t -> t <> [] -> digits_value 10 0 t <= max -> 0 <= max <= CURL_OFF_T_MAX -> nondigit (deref rest) ->
  curlx_str_number (t ++ rest) max = Some (STRE_OK, digits_value 10 0 t, rest).
Proof.
  intros Ht Hne Hv Hm Hr. unfold curlx_str_number. rewrite str_num_base_spec, digit_span_exact by (done || lia).
  destruct t; [done|]. by rewrite (proj2 (Z.leb_le _ _)) by lia.
Qed.

Lemma digit_code c : valid_digit c (max_digit 10) = true -> 48 <= c <= 57 /\ curlx_hexval c = c - 48.
Proof.
  intros H. assert (48 <= c <= 57) by (unfold valid_digit in H; zb_hyps; by change (max_digit 10) with 57 in *). split; [done|]. by apply hexval_of_digit.
Qed.

(** A number has as many digits as its size asks for. *)
Lemma digits_bounds t : all_digits t -> forall acc, 0 <= acc ->
  acc * 10 ^ zlen t <= digits_value 10 acc t < (acc + 1) * 10 ^ zlen t.
Proof.
  induction 1 as [|c t Hc _ IH]; intros acc Ha.
  - unfold digits_value. cbn [fold_left]. rewrite zlen_nil. lia.
  - apply digit_code in Hc as [Hc Hv]. rewrite zlen_cons. unfold digits_value in *. cbn [fold_left]. rewrite Hv.
    pose proof (zlen_nonneg t). rewrite Z.pow_add_r by lia. specialize (IH (acc * 10 + (c - 48)) ltac:(lia)). nia.
Qed.

Lemma ten_chars n : 0 <= n <= CURL_OFF_T_MAX -> all_digits (number_chars 10 false n) /\ digits_value 10 0 (number_chars 10 false n) = n /\
  number_chars 10 false n <> [] /\ (n <> 0 -> deref (number_chars 10 false n) <> 48).
Proof.
  intros Hn. assert (Hn' : 0 <= n <= SIZE_MAX) by (unfold CURL_OFF_T_MAX, SIZE_MAX in *; lia).
  destruct (number_chars_spec 10 false n base_ten Hn') as (Hv & Hd & Hne & _). split; [done|]. split; [done|]. split; [done|].
  intros H0. unfold number_chars in *. rewrite (proj2 (Z.eqb_neq n 0)) in * by done.
  destruct (digits_spec 10 false n base_ten Hn') as (_ & _ & _ & Hh & _). destruct (digits 10 false n) as [|c d] eqn:Ed; [done|]. by eapply Hh.
Qed.

Lemma ten_chars_mono m n : 0 <= m <= n -> n <= CURL_OFF_T_MAX -> zlen (number_chars 10 false m) <= zlen (number_chars 10 false n).
Proof.
  intros Hm Hn. destruct (ten_chars m) as (Hd & Hv & Hne & Hh); [lia|]. destruct (ten_chars n) as (Hd' & Hv' & Hne' & _); [lia|].
  destruct (Z.eqb_spec m 0) as [->|Hm0].
  { destruct (number_chars 10 false n) as [|c d]; [done|]. rewrite zlen_cons. pose proof (zlen_nonneg d). change (number_chars 10 false 0) with [48].
    rewrite zlen_cons, zlen_nil. lia. }
  specialize (Hh Hm0). set (dm := number_chars 10 false m) in *. set (dn := number_chars 10 false n) in *. clearbody dm dn.
  destruct (Z.le_gt_cases (zlen dm) (zlen dn)) as [|Hlt]; [done|exfalso].
  pose proof (digits_bounds dn Hd' 0 ltac:(lia)) as Hb. rewrite Hv' in Hb.
  destruct dm as [|c d]; [done|]. rewrite zlen_cons in Hlt. pose proof (zlen_nonneg dn).
  apply Forall_cons in Hd as [Hc Hd]. apply digit_code in Hc as [Hc Hcv]. cbn in Hh.
  pose proof (digits_bounds d Hd (c - 48) ltac:(lia)) as Hb2.
  assert (Hv2 : digits_value 10 (c - 48) d = m) by (rewrite <- Hv; unfold digits_value; cbn [fold_left]; by rewrite Hcv).
  assert (Hpow : 10 ^ zlen dn <= 10 ^ zlen d) by (apply Z.pow_le_mono_r; lia). nia.
Qed.

Lemma long_zeros w n : 0 <= n <= CURL_OFF_T_MAX -> let t := long_text true 10 false w n in
  all_digits t /\ digits_value 10 0 t = n /\ t <> [] /\
  t = replicate (Z.to_nat (w - zlen (number_chars 10 false n))) 48 ++ number_chars 10 false n.
Proof.
  intros Hn t. destruct (ten_chars n Hn) as (Hd & Hv & Hne & _). split; [|split; [|split; [|done]]].
  - apply Forall_app. split; [by apply Forall_replicate|done].
  - subst t. unfold long_text. rewrite <- Hv at 3. generalize (Z.to_nat (w - zlen (number_chars 10 false n))). intros k.
    induction k as [|k IH]; [done|]. cbn [replicate app]. unfold digits_value in *. cbn [fold_left]. exact IH.
  - subst t. unfold long_text. intros H. by apply app_eq_nil in H as [_ H].
Qed.

Lemma count_digits_text t rest : all_digits t -> ISDIGIT (deref rest) = false -> count_digits (t ++ rest) = zlen t.
Proof.
  intros Ht Hr. induction Ht as [|c t Hc _ IH]; cbn [app].
  - destruct rest as [|x r]; [done|]. cbn [count_digits]. cbn in Hr. by rewrite Hr.
  - cbn [count_digits]. apply digit_code in Hc as [Hc _]. rewrite (proj2 (ISDIGIT_iff c)) by done. by rewrite IH, zlen_cons.
Qed.

(** The padding that is counted gives the values their width. *)
Definition counted_pad (t : list Z) : Z := if deref t =? 48 then zlen t else 0.

Lemma counted_pad_width w mn n : 0 <= mn <= n -> n <= CURL_OFF_T_MAX ->
  long_text true 10 false (counted_pad (long_text true 10 false w mn)) n = long_text true 10 false w n.
Proof.
  intros Hm Hn. pose proof (ten_chars_mono mn n Hm Hn) as Hmono. destruct (ten_chars mn) as (_ & _ & Hne & Hh); [lia|].
  unfold counted_pad, long_text at 2 3. set (dm := number_chars 10 false mn) in *. set (k := Z.to_nat (w - zlen dm)).
  assert (Hgoal : forall a, Z.max 0 (a - zlen (number_chars 10 false n)) = Z.max 0 (w - zlen (number_chars 10 false n)) ->
    long_text true 10 false a n = long_text true 10 false w n).
  { intros a Ha. unfold long_text. do 2 f_equal. lia. }
  apply Hgoal. assert (Hl : zlen (replicate k 48 ++ dm) = Z.max w (zlen dm)).
  { rewrite zlen_app. unfold zlen at 1. rewrite length_replicate. lia. }
  pose proof (zlen_nonneg dm). destruct (Nat.eq_dec k 0%nat) as [Hk|Hk].
  - rewrite Hk in *. cbn [replicate app] in *. case_if; [|lia]. lia.
  - replace (deref (replicate k 48 ++ dm)) with 48 by (by destruct k). cbn [Z.eqb Pos.eqb]. rewrite Hl. lia.
Qed.

(** * Reading ranges *)

Lemma single_bracket rest : curlx_str_single (93 :: rest) 93 = (STRE_OK, rest).
Proof. cbn. by rewrite drop_0. Qed.

Lemma nondigit_head c rest : 0 <= c < 256 -> ISDIGIT c = false -> nondigit (deref (c :: rest)).
Proof.
  intros Hc H. unfold nondigit. cbn [deref]. destruct (valid_digit c (max_digit 10)) eqn:E; [|done].
  apply digit_code in E as [E _]. apply ISDIGIT_iff in E. congruence.
Qed.

Lemma passblanks_digits t rest : all_digits t -> t <> [] -> curlx_str_passblanks (t ++ rest) = t ++ rest.
Proof.
  intros Ht Hne. destruct Ht as [|c t Hc _]; [done|]. apply digit_code in Hc as [Hc _]. cbn [app curlx_str_passblanks]. unfold ISBLANK.
  by rewrite !(proj2 (Z.eqb_neq c _)) by lia.
Qed.

Lemma step_text_head step rest : nondigit (deref (step_text step ++ 93 :: rest)).
Proof. unfold step_text. by case_if. Qed.

Lemma num_range_text w mn mx step rest : 0 <= mn <= mx -> 1 <= step -> mx + step <= CURL_OFF_T_MAX ->
  num_range (long_text true 10 false w mn ++ 45 :: number_chars 10 false mx ++ step_text step ++ 93 :: rest) = Some (mn, mx, step, rest).
Proof.
  intros Hm Hs Ho. assert (Hoff : 0 <= CURL_OFF_T_MAX <= CURL_OFF_T_MAX) by (unfold CURL_OFF_T_MAX; lia).
  destruct (long_zeros w mn) as (Hd1 & Hv1 & Hn1 & _); [lia|]. destruct (ten_chars mx) as (Hd2 & Hv2 & Hn2 & _); [lia|].
  destruct (ten_chars step) as (Hd3 & Hv3 & Hn3 & _); [lia|]. unfold num_range.
  rewrite digits_read by (done || lia). rewrite Hv1. cbn [mbind option_bind]. unfold curlx_str_single at 1. cbn [deref Z.eqb Pos.eqb negb drop]. rewrite drop_0.
  rewrite passblanks_digits, digits_read, Hv2 by (done || lia || apply step_text_head). cbn [mbind option_bind].
  unfold step_text. destruct (Z.eqb_spec step 1) as [->|Hne].
  - cbn [app]. by rewrite single_bracket.
  - cbn [app]. unfold curlx_str_single at 1. cbn [deref Z.eqb Pos.eqb negb]. unfold curlx_str_single at 1. cbn [deref Z.eqb Pos.eqb negb drop]. rewrite drop_0.
    rewrite digits_read, Hv3 by (done || lia). cbn [mbind option_bind]. by rewrite single_bracket.
Qed.

Lemma ascii_range_text mn mx step rest : 0 < mx < 128 -> 0 < mn < 128 -> 1 <= step <= 25 ->
  ascii_range (mn :: 45 :: mx :: step_text step ++ 93 :: rest) = Some (Some (mn, mx, step), rest).
Proof.
  intros Hx Hn Hs. assert (Hsc : forall c, 0 < c < 128 -> schar c = c) by (intros c Hc; unfold schar; by rewrite Z.geb_leb, (proj2 (Z.leb_gt _ _)) by lia).
  unfold ascii_range. unfold at_. cbn [drop deref Z.eqb Pos.eqb andb]. rewrite (proj2 (Z.eqb_neq mx 0)) by lia. rewrite !Hsc by done. cbn [negb andb].
  unfold step_text. destruct (Z.eqb_spec step 1) as [->|Hne].
  - cbn [app drop deref Z.eqb Pos.eqb negb]. by rewrite drop_0.
  - destruct (ten_chars step) as (Hd3 & Hv3 & Hn3 & _); [unfold CURL_OFF_T_MAX; lia|]. cbn [app drop deref Z.eqb Pos.eqb negb]. rewrite drop_0.
    rewrite digits_read, Hv3 by (done || (unfold CURL_OFF_T_MAX; lia)). cbn [mbind option_bind]. rewrite single_bracket.
    rewrite u8_small by (unfold is_byte; lia). done.
Qed.

(** * Reading the entry of a piece *)

(** What follows the name. *)
Definition gpiece_body (p : gpiece) : list Z :=
  match p with
  | P_text _ => []
  | P_set _ elems => set_body elems
  | P_letters _ mn mx step => mn :: 45 :: mx :: step_text step ++ [93]
  | P_numbers _ width mn mx step => long_text true 10 false width mn ++ 45 :: number_chars 10 false mx ++ step_text step ++ [93]
  end.

Definition gpiece_open (p : gpiece) : Z := match p with P_set _ _ => 123 | _ => 91 end.

Lemma gpiece_text_entry p : is_text p = false -> gpiece_text p = gpiece_open p :: name_text (gpiece_name p) ++ gpiece_body p.
Proof. destruct p; done. Qed.

(** The pattern that a piece becomes. *)
Definition pat_of (p : gpiece) (index : Z) (pat : URLPattern) : Prop :=
  pat_wf pat /\ pat_fresh pat /\ pat_values pat = gpiece_values p /\ pat_size pat = gpiece_size p /\
  pat_name pat = gpiece_name p /\ globindex pat = index.

(** The state behind an entry: the pattern is read and not counted. *)
Definition entered (p : gpiece) (s s' : gstate) : Prop :=
  frame s s' /\ gs_amount s' = gs_amount s * gpiece_size p /\ gs_o s' = [] /\ buf_rep s' [].

Lemma dup_name_granted name s : gs_o s = [] -> dup_name name s = (true, s, given_name name).
Proof.
  intros Ho. destruct (dup_name_spec name s) as (ok & o & E). revert E. unfold dup_name, given_name. rewrite (galloc_granted s Ho).
  by destruct (str_len name =? 0).
Qed.

Lemma range_okb_spec mn mx step : range_okb mn mx step = true -> 1 <= step /\ mn <= mx /\ (mn = mx -> step = 1) /\ (mn <> mx -> step <= mx - mn).
Proof.
  unfold range_okb. intros H. apply andb_prop in H as [H H3]. zb_hyps. split; [done|]. split; [done|].
  destruct (Z.eqb_spec mn mx); zb_hyps; split; intros; lia.
Qed.

Lemma set_entry name elems index nm rest s : gpiece_ok (P_set name elems) = true -> given_name nm = name ->
  gs_o s = [] -> buf_rep s [] -> 0 < gs_amount s -> slot_ok s = true -> gs_amount s * zlen elems <= CURL_OFF_T_MAX ->
  exists s' pat, glob_set (set_body elems ++ rest) index nm s = Some (CURLE_OK, s', Some (rest, pat)) /\
    entered (P_set name elems) s s' /\ pat_of (P_set name elems) index pat.
Proof.
  intros Hok Hnm Ho Hb Ha Hs Hm. cbn [gpiece_ok] in Hok.
  apply andb_prop in Hok as [Hok He]. apply andb_prop in Hok as [Hok Hl]. apply andb_prop in Hok as [Hok Hone]. apply andb_prop in Hok as [Hn H0].
  apply negb_true_iff, Z.eqb_neq in H0. apply negb_true_iff in Hone. zb_hyps.
  assert (Hel : Forall elem_ok elems).
  { apply Forall_forall. intros e Hx. rewrite forallb_forall in He. specialize (He e). rewrite <- list_elem_of_In in He. specialize (He Hx).
    apply andb_prop in He as [He1 He2]. zb_hyps. split; [by apply charsb_spec|done]. }
  unfold glob_set. destruct (set_loop_body elems rest true [] 0 s) as (s1 & pa & -> & Hf & Ha1 & Ho1 & Hb1 & Hp1); try done.
  - by destruct elems.
  - intros _ ->. done.
  - cbn [mbind option_bind app]. assert (Hs1 : slot_ok s1 = true). { unfold slot_ok, pnum in *. destruct Hf as (-> & -> & _). done. }
    rewrite Hs1, (dup_name_granted nm s1 Ho1). cbn [negb]. do 2 eexists. split; [done|]. rewrite zlen_nil in *. split; [done|].
    assert (Hpos : 0 < zlen elems) by (pose proof (zlen_nonneg elems); lia).
    split; [split; [lia|done]|]. split; [done|]. split; [|done]. unfold pat_values, pat_size, pat_at, pat_text. cbn [pat_c].
    apply list_eq. intros i. rewrite list_lookup_fmap. destruct (decide (i < length elems)%nat) as [Hi|Hi].
    + rewrite lookup_seqZ_lt by (unfold zlen; lia). cbn [fmap option_fmap option_map]. rewrite Z.add_0_l, Nat2Z.id.
      destruct (lookup_lt_is_Some_2 elems i Hi) as [e E]. by rewrite E.
    + rewrite lookup_seqZ_ge by (unfold zlen; lia). cbn. symmetry. apply lookup_ge_None. cbn [gpiece_values]. lia.
Qed.

Lemma range_entry p index nm rest s : is_range p = true -> gpiece_ok p = true -> given_name nm = gpiece_name p ->
  gs_o s = [] -> buf_rep s [] -> 0 < gs_amount s -> slot_ok s = true -> gs_amount s * gpiece_size p <= CURL_OFF_T_MAX ->
  exists s' pat, glob_range (gpiece_body p ++ rest) index nm s = Some (CURLE_OK, s', Some (rest, pat)) /\
    entered p s s' /\ pat_of p index pat.
Proof.
  intros Hr Hok Hnm Ho Hb Ha Hs Hm. unfold glob_range. rewrite Hs. cbn [negb].
  assert (Hgo : forall pat_c n, pat_of p index (mk_pattern (given_name nm) index pat_c) -> exists s' pat,
    match multiply (gs_amount (gs_move n s)) (pat_size (mk_pattern (given_name nm) index pat_c)) with
    | None => Some (CURLE_URL_MALFORMAT, gs_fail (Some "range overflow"%string) (gs_pos (gs_move n s)) (gs_move n s), None)
    | Some amount => let '(ok, s, name) := dup_name nm (gs_set_amount amount (gs_move n s)) in
        if negb ok then Some (CURLE_OUT_OF_MEMORY, s, None) else Some (CURLE_OK, s, Some (rest, mk_pattern name index pat_c))
    end = Some (CURLE_OK, s', Some (rest, pat)) /\ entered p s s' /\ pat_of p index pat).
  { intros c n Hp. pose proof Hp as (Hw & _ & _ & Hsz & _). pose proof (pat_size_pos _ Hw). rewrite multiply_spec by (cbn; lia).
    rewrite Hsz, Z.gtb_ltb, (proj2 (Z.ltb_ge _ _)) by (cbn [gs_move gs_amount]; lia). rewrite dup_name_granted by done. cbn [negb].
    do 2 eexists. split; [done|]. split; [|done]. done. }
  destruct p as [t|name elems|name mn mx step|name w mn mx step]; try done; cbn [gpiece_body gpiece_name gpiece_ok] in *.
  - apply andb_prop in Hok as [Hok Hrg]. apply range_okb_spec in Hrg as (Hst & Hle & Heq & Hlt). zb_hyps.
    assert (Hal : ISALPHA mn = true) by assumption. assert (Hax : ISALPHA mx = true) by assumption. pose proof (ISALPHA_range mn Hal) as Hmn.
    pose proof (ISALPHA_range mx Hax) as Hmx. assert (Hst' : step <= 25) by lia.
    assert (Ht : (mn :: 45 :: mx :: step_text step ++ [93]) ++ rest = mn :: 45 :: mx :: step_text step ++ 93 :: rest)
      by (cbn [app]; by rewrite <- app_assoc).
    rewrite Ht. cbn [deref]. rewrite Hal, ascii_range_text by lia. cbn [mbind option_bind].
    assert (Hbad : bad_ascii mn mx step = false).
    { unfold bad_ascii. rewrite (proj2 (Z.eqb_neq step 0)) by lia. cbn [orb]. destruct (Z.eqb_spec mn mx) as [E|E].
      - rewrite (Heq E). done.
      - specialize (Hlt E). cbn [negb andb orb]. rewrite u32_small by (unfold UINT32_MAX; lia).
        rewrite !Z.gtb_ltb, !(proj2 (Z.ltb_ge _ _)) by lia. done. }
    rewrite Hbad, !u8_small, Z.quot_div_nonneg by (unfold is_byte; lia).
    apply (Hgo (GLOB_ASCII mn mx mn step)). split; [split; [done|cbn; lia]|]. split; [unfold pat_fresh, pat_at; cbn; do 2 f_equal; lia|].
    split; [done|]. done.
  - apply andb_prop in Hok as [Hok Ho2]. apply andb_prop in Hok as [Hok Hrg]. apply range_okb_spec in Hrg as (Hst & Hle & Heq & Hlt). zb_hyps.
    assert (Hmn : 0 <= mn <= CURL_OFF_T_MAX) by lia.
    set (t := long_text true 10 false w mn). destruct (long_zeros w mn Hmn) as (Hd & Hv & Hne & _).
    assert (Ht : (t ++ 45 :: number_chars 10 false mx ++ step_text step ++ [93]) ++ rest = t ++ 45 :: number_chars 10 false mx ++ step_text step ++ 93 :: rest)
      by (by rewrite <- app_assoc; cbn [app]; rewrite <- !app_assoc).
    rewrite Ht. set (tail := 45 :: number_chars 10 false mx ++ step_text step ++ 93 :: rest).
    assert (Hhead : exists c t', t = c :: t' /\ 48 <= c <= 57).
    { fold t in Hd, Hne. destruct t as [|c t']; [done|]. apply Forall_cons in Hd as [Hc _]. apply digit_code in Hc as [Hc _]. by exists c, t'. }
    assert (Hde : deref (t ++ tail) = deref t) by (by destruct Hhead as (c & t' & -> & _)).
    rewrite Hde. assert (Hdig : 48 <= deref t <= 57) by (by destruct Hhead as (c & t' & -> & ?)).
    assert (Hnal : ISALPHA (deref t) = false).
    { destruct (ISALPHA (deref t)) eqn:E; [|done]. apply ISALPHA_range in E. lia. }
    rewrite Hnal, (proj2 (ISDIGIT_iff _)) by done.
    assert (Hpad : (if deref t =? 48 then int (count_digits (t ++ tail)) else Some 0) = Some (counted_pad t)).
    { unfold counted_pad. case_if; [|done]. rewrite (count_digits_text t tail Hd) by done. apply int_ok. pose proof (zlen_nonneg t).
      pose proof (long_text_len w mn Hmn) as Hlen. fold t in Hlen. unfold INT_MAX in *. lia. }
    rewrite Hpad. cbn [mbind option_bind]. assert (Hnr : num_range (t ++ tail) = Some (mn, mx, step, rest)) by (apply num_range_text; lia). rewrite Hnr. cbn [mbind option_bind].
    assert (Hbad : bad_num mn mx step = false).
    { unfold bad_num. rewrite (proj2 (Z.eqb_neq step 0)) by lia. cbn [orb]. destruct (Z.eqb_spec mn mx) as [E|E].
      - rewrite (Heq E). done.
      - specialize (Hlt E). cbn [negb andb orb]. rewrite !Z.gtb_ltb, !(proj2 (Z.ltb_ge _ _)) by lia. done. }
    rewrite Hbad, (proj2 (Z.ltb_ge (CURL_OFF_T_MAX - step) mx)), Z.quot_div_nonneg by lia.
    assert (Hcp : 0 <= counted_pad t <= INT_MAX).
    { unfold counted_pad. pose proof (long_text_len w mn Hmn) as Hlen. fold t in Hlen. pose proof (zlen_nonneg t). unfold INT_MAX in *. case_if; lia. }
    apply (Hgo (GLOB_NUM mn mx mn step (counted_pad t))).
    split; [cbn; lia|]. split; [unfold pat_fresh, pat_at; cbn; do 2 f_equal; lia|]. split; [|done].
    unfold pat_values, pat_size, pat_at, pat_text. cbn [pat_c gpiece_values]. apply list_fmap_ext. intros i x Hi.
    apply lookup_seqZ in Hi as [-> Hi]. apply counted_pad_width; [nia|].
    destruct (range_last mn mx step (0 + Z.of_nat i) Hst Hle) as [Hbd _]; lia.
Qed.

(** * Names *)

Definition name_str (name : option (list Z)) (body : list Z) : Curl_str :=
  match name with Some n => mk_str (Some (n ++ 62 :: body)) (zlen n) | None => curlx_str_init end.

Lemma given_name_str name body : name_okb name = true -> given_name (name_str name body) = name.
Proof.
  intros H. destruct name as [n|]; [|done]. cbn [name_okb] in H. zb_hyps. unfold given_name, name_str. cbn [str_len].
  rewrite (proj2 (Z.eqb_neq _ 0)) by lia. unfold str_bytes. cbn [str_len str_p default from_option id]. by rewrite ztake_app_exact.
Qed.

Lemma word_span_text (stop : Z -> bool) n rest : Forall (fun c => c <> 0 /\ stop c = false) n ->
  word_span stop (n ++ rest) = (let '(w, r) := word_span stop rest in (n ++ w, r)).
Proof.
  induction 1 as [|c n [Hc Hs] _ IH]; cbn [app word_span]; [by destruct (word_span stop rest)|].
  rewrite (proj2 (Z.eqb_neq c 0)) by done. rewrite Hs. cbn [orb]. rewrite IH. by destruct (word_span stop rest).
Qed.

Lemma name_chars n : forallb (fun c => charb c && negb (c =? 62) && negb (c =? 93)) n = true ->
  Forall (fun c => is_char c /\ c <> 62 /\ c <> 93) n.
Proof.
  intros H. apply Forall_forall. intros c Hc. rewrite forallb_forall in H. specialize (H c). rewrite <- list_elem_of_In in H. specialize (H Hc).
  apply andb_prop in H as [H H3]. apply andb_prop in H as [H1 H2]. apply charb_spec in H1. apply negb_true_iff, Z.eqb_neq in H2.
  by apply negb_true_iff, Z.eqb_neq in H3.
Qed.

Lemma glob_name_text name body : name_okb name = true -> (name = None -> deref body <> 60) ->
  glob_name (name_text name ++ body) = match name with Some n => Some (name_str name body, body) | None => None end.
Proof.
  intros H Hb. destruct name as [n|]; unfold glob_name.
  - cbn [name_okb] in H. apply andb_prop in H as [H Hc]. apply name_chars in Hc. zb_hyps.
    replace (name_text (Some n) ++ body) with (60 :: n ++ 62 :: body) by (cbn; by rewrite <- app_assoc).
    unfold curlx_str_single at 1. cbn [deref Z.eqb Pos.eqb negb drop]. rewrite drop_0. unfold curlx_str_until.
    assert (Hw : word_span (fun c => c =? 62) (n ++ 62 :: body) = (n, 62 :: body)).
    { rewrite word_span_text; [cbn; by rewrite app_nil_r|]. eapply Forall_impl; [exact Hc|]. intros c (H1 & H2 & _).
      split; [unfold is_char in H1; lia|by apply Z.eqb_neq]. }
    rewrite (scan_word_spec _ _ _ _ _ _ Hw) by done. rewrite Z.add_0_l, (proj2 (Z.leb_le _ _)) by done. cbn [take_word].
    rewrite (proj2 (Z.eqb_neq _ 0)) by lia. cbn. by rewrite drop_0.
  - cbn [name_text app]. unfold curlx_str_single. by rewrite (proj2 (Z.eqb_neq _ 60)) by by apply Hb.
Qed.

Lemma strncmp_eq_full w n rest : strncmp_eq (w ++ rest) n (length n) = true -> Forall is_char n -> length w = length n -> w = n.
Proof.
  revert n. induction w as [|c w IH]; intros [|d n] H Hn Hl; try done. apply Forall_cons in Hn as [Hd Hn]. cbn in H.
  destruct (Z.eqb_spec c d) as [->|]; [|done]. cbn [negb] in H. rewrite (proj2 (Z.eqb_neq d 0)) in H by (unfold is_char in Hd; lia).
  rewrite !drop_0 in H. f_equal. injection Hl as Hl. by apply IH.
Qed.

(** A name that no pattern has is not found. *)
Lemma find_name_new l n body : n ∉ omap pat_name l -> Forall (Forall is_char) (omap pat_name l) -> find_name l (name_str (Some n) body) = None.
Proof.
  induction l as [|pat l IH]; cbn [find_name omap list_omap]; [done|]. destruct (pat_name pat) as [m|]; [|done]. intros Hn Hc.
  apply not_elem_of_cons in Hn as [Hne Hn]. apply Forall_cons in Hc as [Hm Hc]. unfold curlx_str_cmp. cbn [name_str str_len str_p default from_option id].
  rewrite strlen_nonzero by by apply char_nonzero. destruct (Z.eqb_spec (zlen n) (zlen m)) as [E|E]; cbn [andb]; [|by apply IH].
  destruct (strncmp_eq (n ++ 62 :: body) m (Z.to_nat (zlen m))) eqn:Es; [exfalso|by apply IH].
  unfold zlen in *. rewrite Nat2Z.id in Es. apply Hne. by eapply (strncmp_eq_full n m); [exact Es|done|lia].
Qed.

(** * The parser on the text of a glob *)

Lemma add_glob_granted index i s pat amount : glob_inv index (gs_glob s) amount -> pat_wf pat -> pat_fresh pat ->
  name_new (pat_name pat) (gs_glob s) -> globindex pat = i -> i = index \/ i = -1 ->
  gs_amount s = amount * pat_size pat -> gs_amount s <= CURL_OFF_T_MAX -> gs_o s = [] -> pnum (gs_glob s) < 255 ->
  exists s', add_glob pat s = (CURLE_OK, s') /\ gs_amount s' = gs_amount s /\ glob_buf (gs_glob s') = glob_buf (gs_glob s) /\
    glob_inv (if i =? -1 then index else index + 1) (gs_glob s') (gs_amount s') /\ gs_o s' = [] /\
    pattern (gs_glob s') = pattern (gs_glob s) ++ [pat].
Proof.
  intros Hi Hw Hf Hn Hg Hi' Ha Hm Ho Hp.
  destruct (add_glob_spec index i s pat amount Hi Hw Hf Hn Hg Hi' Ha Hm) as (r & s' & E & Ha' & Hb & Hr). rewrite E.
  destruct (inv_array _ _ _ Hi) as (Hlt & k & Hk & Hpk).
  assert (Hk7 : pnum (gs_glob s) + 1 >= glob_palloc (gs_glob s) -> pnum (gs_glob s) + 1 < 255).
  { intros Hge. destruct (Z.eq_dec k 8) as [->|Hk8]; [change (2 ^ 8) with 256 in *; lia|].
    assert (2 ^ k <= 2 ^ 7) by (apply Z.pow_le_mono_r; lia). change (2 ^ 7) with 128 in *. lia. }
  assert (Hpn : pnum (set_pattern (pattern (gs_glob s) ++ [pat]) (gs_glob s)) = pnum (gs_glob s) + 1) by apply zlen_snoc.
  revert E. unfold add_glob. cbv zeta. rewrite Hpn. change (glob_palloc (set_pattern (pattern (gs_glob s) ++ [pat]) (gs_glob s))) with (glob_palloc (gs_glob s)).
  assert (Hdone : forall s2, (CURLE_OK, s2) = (r, s') -> gs_o s2 = [] -> pattern (gs_glob s2) = pattern (gs_glob s) ++ [pat] ->
    exists s'0, (r, s') = (CURLE_OK, s'0) /\ gs_amount s'0 = gs_amount s /\ glob_buf (gs_glob s'0) = glob_buf (gs_glob s) /\
      glob_inv (if i =? -1 then index else index + 1) (gs_glob s'0) (gs_amount s'0) /\ gs_o s'0 = [] /\ pattern (gs_glob s'0) = pattern (gs_glob s) ++ [pat]).
  { intros s2 [= <- <-] H1 H2. exists s2. destruct Hr as [[_ Hr]|[Hr|Hr]]; done. }
  case_if; [|intros E2; by apply (Hdone _ E2)]. rewrite (proj2 (Z.ltb_lt _ 255)) by (apply Hk7; lia).
  rewrite galloc_granted by done. cbn [negb]. intros E2. by apply (Hdone _ E2).
Qed.

Lemma strchr_app t c rest : Forall (fun x => x <> c /\ x <> 0) t -> strchr (t ++ c :: rest) c = Some (zlen t).
Proof.
  induction 1 as [|x t [Hx Hx0] _ IH]; cbn [app strchr]; [by rewrite Z.eqb_refl|].
  rewrite (proj2 (Z.eqb_neq x c)), (proj2 (Z.eqb_neq x 0)), IH by done. cbn. f_equal. rewrite zlen_cons. lia.
Qed.

Section Parse.
Context (curl_url_set : list Z -> allocs -> CURLUcode * allocs).

(** The URL parser does not take a text for an IPv6 host. *)
Definition rejects (t : list Z) : Prop :=
  let '(rc, o) := curl_url_set t [] in rc <> CURLUE_OK /\ rc <> CURLUE_OUT_OF_MEMORY /\ o = [].

Lemma peek_rejected t rest s : gs_o s = [] -> Forall (fun x => x <> 93 /\ x <> 0) t -> rejects (t ++ [93]) ->
  peek_ipv6 curl_url_set (t ++ 93 :: rest) s = (CURLE_OK, 0, false, s).
Proof.
  intros Ho Ht Hr. unfold peek_ipv6. rewrite strchr_app by done. case_if; [done|]. rewrite (galloc_granted s Ho). cbn [negb].
  replace (ztake (zlen t + 1) (t ++ 93 :: rest)) with (t ++ [93]).
  2: { rewrite <- (ztake_app_exact (t ++ [93]) rest). rewrite <- app_assoc, zlen_snoc. done. }
  rewrite Ho. unfold rejects in Hr. destruct (curl_url_set (t ++ [93]) []) as [rc o]. destruct Hr as (H1 & H2 & ->).
  assert (Hs : gs_set_o [] s = s) by (destruct s; cbn in *; by subst). rewrite Hs. by destruct rc.
Qed.

(** The text of a range: a bracket, and no closing bracket up to its end. *)
Lemma range_text_shape p : is_range p = true -> gpiece_ok p = true -> exists t, gpiece_text p = 91 :: t ++ [93] /\ Forall (fun x => x <> 93 /\ x <> 0) t /\
  deref (t ++ [93]) <> 93 /\ Forall is_char t.
Proof.
  intros Hr Hok.
  assert (Hnt : forall n, name_okb n = true -> Forall (fun x => is_char x /\ x <> 93) (name_text n)).
  { intros [n|] Hn; [|constructor]. cbn [name_okb name_text] in *. apply andb_prop in Hn as [_ Hn]. apply name_chars in Hn.
    constructor; [unfold is_char; lia|]. apply Forall_app. split; [|repeat constructor; unfold is_char; lia].
    eapply Forall_impl; [exact Hn|]. by intros c (? & _ & ?). }
  assert (Hdg : forall t, all_digits t -> Forall (fun x => is_char x /\ x <> 93) t).
  { intros t Ht. eapply Forall_impl; [exact Ht|]. intros c Hc. apply digit_code in Hc as [Hc _]. unfold is_char. lia. }
  assert (Hst : forall st, 0 <= st <= CURL_OFF_T_MAX -> Forall (fun x => is_char x /\ x <> 93) (step_text st)).
  { intros st Hs. unfold step_text. case_if; [constructor|]. constructor; [unfold is_char; lia|]. apply Hdg, ten_chars. done. }
  assert (Hshape : forall n b, name_okb n = true -> Forall (fun x => is_char x /\ x <> 93) b -> b <> [] ->
    gpiece_text p = 91 :: (name_text n ++ b) ++ [93] -> exists t, gpiece_text p = 91 :: t ++ [93] /\
      Forall (fun x => x <> 93 /\ x <> 0) t /\ deref (t ++ [93]) <> 93 /\ Forall is_char t).
  { intros n b Hn Hb Hne E. exists (name_text n ++ b). split; [done|].
    assert (Hall : Forall (fun x => is_char x /\ x <> 93) (name_text n ++ b)) by (apply Forall_app; by split; [apply Hnt|]).
    split; [eapply Forall_impl; [exact Hall|]; intros c [H ?]; unfold is_char in H; lia|]. split.
    - destruct (name_text n ++ b) as [|c l] eqn:El; [by apply app_eq_nil in El as [_ ?]|]. by apply Forall_cons in Hall as [[_ ?] _].
    - eapply Forall_impl; [exact Hall|]. by intros c [? _]. }
  destruct p as [t|name elems|name mn mx step|name w mn mx step]; try done; cbn [gpiece_ok] in Hok.
  - apply andb_prop in Hok as [Hok Hrg]. apply range_okb_spec in Hrg as (Hs & Hle & Heq & Hlt). zb_hyps.
    assert (Hal : ISALPHA mn = true) by assumption. apply ISALPHA_range in Hal.
    apply (Hshape name (mn :: 45 :: mx :: step_text step)); [done| |done|].
    + assert (Hl : forall c, ISALPHA c = true -> is_char c /\ c <> 93).
      { intros c Hc. pose proof (ISALPHA_range c Hc). split; [unfold is_char; lia|]. by intros ->. }
      constructor; [by apply Hl|]. constructor; [unfold is_char; lia|]. constructor; [by apply Hl|]. apply Hst. unfold CURL_OFF_T_MAX. lia.
    + cbn [gpiece_text]. by rewrite <- app_assoc.
  - apply andb_prop in Hok as [Hok Ho2]. apply andb_prop in Hok as [Hok Hrg]. apply range_okb_spec in Hrg as (Hs & Hle & Heq & Hlt). zb_hyps.
    apply (Hshape name (long_text true 10 false w mn ++ 45 :: number_chars 10 false mx ++ step_text step)); [done| | |].
    + apply Forall_app. split; [apply Hdg, long_zeros; lia|]. constructor; [unfold is_char; lia|]. apply Forall_app.
      split; [apply Hdg, ten_chars; lia|apply Hst; lia].
    + intros E. by apply app_eq_nil in E as [_ E].
    + cbn [gpiece_text]. rewrite <- !app_assoc. cbn [app]. by rewrite <- !app_assoc.
Qed.

(** What ends a text: the end, or an entry that the parser takes for one. *)
Definition entry_next (ps : list gpiece) : Prop :=
  match ps with [] => True | p :: _ => is_text p = false /\ gpiece_ok p = true /\ (is_range p = true -> rejects (gpiece_text p)) end.

Lemma glob_text_cons p ps : glob_text (p :: ps) = gpiece_text p ++ glob_text ps.
Proof. done. Qed.

Lemma literal_stop ps s fuel : entry_next ps -> gs_o s = [] -> (length (glob_text ps) <= fuel)%nat ->
  literal_loop curl_url_set fuel (glob_text ps) s = Some (CURLE_OK, s, Some (glob_text ps)).
Proof.
  intros Hn Ho Hl. destruct ps as [|p ps]; [by destruct fuel|]. destruct Hn as (Ht & Hok & Hrj). rewrite glob_text_cons in *.
  destruct (is_range p) eqn:Er.
  - destruct (range_text_shape p Er Hok) as (t & E & Hc & Hne & _). specialize (Hrj eq_refl). rewrite E in *. clear E.
    destruct fuel as [|fuel]; [cbn in Hl; lia|].
    replace ((91 :: t ++ [93]) ++ glob_text ps) with ((91 :: t) ++ 93 :: glob_text ps) in * by (cbn [app]; by rewrite <- app_assoc).
    cbn [literal_loop]. change (deref ((91 :: t) ++ 93 :: glob_text ps)) with 91. cbn [Z.eqb Pos.eqb orb].
    rewrite (peek_rejected (91 :: t) (glob_text ps) s Ho); [|by constructor|done]. cbn [is_ok negb].
    assert (H1 : at_ ((91 :: t) ++ 93 :: glob_text ps) 1 <> 93) by (unfold at_; cbn [app drop]; rewrite drop_0; by destruct t).
    by rewrite (proj2 (Z.eqb_neq _ _) H1).
  - destruct p; try done. by destruct fuel.
Qed.

(** The text of a literal goes to the buffer. *)
Lemma glob_literal_text t ps : entry_next ps -> forall s b fuel, Forall is_char t -> last t <> Some 92 ->
  gs_o s = [] -> buf_rep s b -> zlen b + zlen t < MAX_CONFIG_LINE_LENGTH -> (length (escaped in_text t ++ glob_text ps) <= fuel)%nat ->
  exists s', literal_loop curl_url_set fuel (escaped in_text t ++ glob_text ps) s = Some (CURLE_OK, s', Some (glob_text ps)) /\ moved s s' (b ++ t).
Proof.
  intros Hps. induction t as [|c t IH]; intros s b fuel Ht Hlast Ho Hb Hl Hf.
  { exists s. rewrite app_nil_r. split; [by apply literal_stop|done]. }
  apply Forall_cons in Ht as [Hc Ht]. rewrite zlen_cons in Hl. pose proof (zlen_nonneg t).
  change (escaped in_text (c :: t)) with ((if in_text c then [92; c] else [c]) ++ escaped in_text t) in *. rewrite <- app_assoc in *.
  assert (Hgo : forall s1 fuel m, gs_o s1 = [] -> buf_rep s1 b -> frame s s1 -> gs_amount s1 = gs_amount s ->
    (length (escaped in_text t ++ glob_text ps) <= fuel)%nat ->
    exists s', ('(r, s2) ← buf_addn [c] s1; if is_ok r then literal_loop curl_url_set fuel (escaped in_text t ++ glob_text ps) (gs_move m s2)
      else Some (CURLE_OUT_OF_MEMORY, s2, None)) = Some (CURLE_OK, s', Some (glob_text ps)) /\ moved s s' (b ++ c :: t)).
  { intros s1 f m Ho1 Hb1 Hf1 Ha1 Hlen. destruct (buf_addn_granted s1 b [c] Ho1 Hb1) as (s2 & -> & Hm2); [by apply Forall_singleton|rewrite zlen_snoc; lia|].
    cbn [mbind option_bind is_ok]. pose proof Hm2 as (_ & _ & Ho2 & Hb2).
    destruct (IH (gs_move m s2) (b ++ [c]) f) as (s3 & -> & Hm3); [done|by destruct t|done|done|rewrite zlen_snoc; lia|done|].
    exists s3. split; [done|]. rewrite <- app_assoc in Hm3. eapply (moved_trans s (gs_move m s2)); [|exact Hm3].
    destruct Hm2 as (H1 & H2 & H3 & H4). split; [by eapply frame_trans|]. split; [cbn; congruence|]. by split. }
  destruct fuel as [|fuel]; [rewrite length_app in Hf; destruct (in_text c); cbn in Hf; lia|]. cbn [literal_loop].
  unfold is_char in Hc. case_if.
  - cbn [app] in *. cbn [deref Z.eqb Pos.eqb orb andb]. change (at_ (92 :: c :: escaped in_text t ++ glob_text ps) 1) with c.
    assert (Hsp : (c =? 123) || (c =? 91) || (c =? 125) || (c =? 93) = true) by exact E. rewrite Hsp. cbn [drop deref]. rewrite drop_0.
    apply Hgo; try done. cbn [length] in Hf. lia.
  - cbn [app] in *. unfold in_text in E. repeat match goal with H : _ || _ = false |- _ => apply orb_false_elim in H as [? ?] end. zb_hyps.
    cbn [deref]. rewrite !(proj2 (Z.eqb_neq c _)) by lia. cbn [orb].
    assert (Hesc : (c =? 92) && ((at_ (c :: escaped in_text t ++ glob_text ps) 1 =? 123) || (at_ (c :: escaped in_text t ++ glob_text ps) 1 =? 91) ||
      (at_ (c :: escaped in_text t ++ glob_text ps) 1 =? 125) || (at_ (c :: escaped in_text t ++ glob_text ps) 1 =? 93)) = false).
    { destruct (Z.eqb_spec c 92) as [->|]; [|done]. cbn [andb]. destruct t as [|d t]; [done|].
      change (escaped in_text (d :: t)) with ((if in_text d then [92; d] else [d]) ++ escaped in_text t).
      destruct (in_text d) eqn:Ed; [done|]. cbn [app]. exact Ed. }
    rewrite Hesc. cbn [drop deref]. rewrite drop_0. apply Hgo; try done. cbn [length] in Hf. lia.
Qed.

Lemma add_literal_granted index s c : glob_inv index (gs_glob s) (gs_amount s) -> buf_rep s c -> c <> [] -> gs_o s = [] ->
  pnum (gs_glob s) < 255 ->
  exists s' pat, add_literal s = Some (CURLE_OK, s') /\ parse_inv_at index s' /\ gs_o s' = [] /\ gs_amount s' = gs_amount s /\
    pattern (gs_glob s') = pattern (gs_glob s) ++ [pat] /\ pat_values pat = [c] /\ pat_name pat = None.
Proof.
  intros Hi Hb Hc Ho Hp. pose proof Hb as ((Hlen & Hto & Hm) & Htb & Hch). unfold add_literal, curlx_dyn_ptr, curlx_dyn_len.
  destruct (bufr (glob_buf (gs_glob s))) as [m|]; [|by destruct Hm as [-> _]]. destruct Hm as (_ & _ & rest & ->).
  cbn [mbind option_bind]. rewrite Hlen, mem_read_text. cbn [mbind option_bind]. unfold glob_fixed.
  destruct (glob_inv_slot index s Hi) as [Hs Ha]. rewrite Hs. cbn [negb]. rewrite !(galloc_granted s Ho). cbn [negb mbind option_bind].
  set (pat := mk_pattern None (-1) (GLOB_SET [c] 0 1)).
  assert (Hw : pat_wf pat) by (split; [done|]; repeat constructor; [done|by eapply buf_rep_len]).
  destruct (inv_amount _ _ _ Hi) as [_ Hmax].
  destruct (add_glob_granted index (-1) s pat (gs_amount s)) as (s2 & -> & Ha2 & Hb2 & Hi2 & Ho2 & Hp2);
    [done..|by right|change (pat_size pat) with 1; lia|done|done|done|]. change (-1 =? -1) with true in Hi2. cbn iota in Hi2.
  assert (Hb2' : buf_rep s2 c) by (unfold buf_rep; by rewrite Hb2).
  destruct (buf_reset_granted s2 c Ho2 Hb2') as (s3 & -> & ((Hf1 & Hf2 & Hf3) & Ha3 & Ho3 & Hb3)). cbn [mbind option_bind].
  exists s3, pat. split; [done|]. split.
  { split; [|done]. destruct Hi2. constructor; unfold pnum in *; rewrite ?Hf1, ?Hf2, ?Hf3, ?Ha3; done. }
  split; [done|]. split; [congruence|]. split; [congruence|]. done.
Qed.

Lemma set_body_head elems : deref (set_body elems) <> 60.
Proof.
  assert (H : forall e r, deref r <> 60 -> deref (escaped in_set e ++ r) <> 60).
  { intros e r Hr. destruct e as [|c e]; [done|]. change (escaped in_set (c :: e)) with ((if in_set c then [92; c] else [c]) ++ escaped in_set e).
    unfold in_set, in_text. by case_if. }
  destruct elems as [|e [|e2 elems]]; cbn [set_body]; [done|by apply H|by apply H].
Qed.

Lemma body_head p rest : is_text p = false -> gpiece_ok p = true -> deref (gpiece_body p ++ rest) <> 60.
Proof.
  intros Ht Hok. assert (H : forall l, l <> [] -> deref l <> 60 -> deref (l ++ rest) <> 60) by by intros [|c l].
  destruct p as [t|name elems|name mn mx step|name w mn mx step]; try done; cbn [gpiece_body gpiece_ok] in *.
  - apply H; [|apply set_body_head]. destruct elems as [|e [|e2 elems]]; cbn [set_body]; [done|..]; intros E; by apply app_eq_nil in E as [_ E].
  - apply andb_prop in Hok as [Hok _]. zb_hyps. assert (Hal : ISALPHA mn = true) by assumption. cbn [app deref]. by intros ->.
  - apply andb_prop in Hok as [Hok Ho2]. apply andb_prop in Hok as [Hok Hrg]. apply range_okb_spec in Hrg as (Hs & Hle & _). zb_hyps.
    destruct (long_zeros w mn) as (Hd & _ & Hne & _); [lia|]. destruct (long_text true 10 false w mn) as [|c l]; [done|].
    apply Forall_cons in Hd as [Hc _]. apply digit_code in Hc as [Hc _]. cbn. lia.
Qed.

Lemma entry_text ipattern p rest index s : is_text p = false -> gpiece_ok p = true ->
  parse_inv_at index s -> gs_o s = [] -> pnum (gs_glob s) < 255 -> gs_amount s * gpiece_size p <= CURL_OFF_T_MAX ->
  name_new (gpiece_name p) (gs_glob s) ->
  exists s' pat, glob_entry ipattern (name_text (gpiece_name p) ++ gpiece_body p ++ rest) (gpiece_open p =? 123) index s =
      Some (CURLE_OK, s', Some rest) /\
    parse_inv_at (index + 1) s' /\ gs_o s' = [] /\ gs_amount s' = gs_amount s * gpiece_size p /\
    pattern (gs_glob s') = pattern (gs_glob s) ++ [pat] /\ pat_values pat = gpiece_values p /\ pat_name pat = gpiece_name p.
Proof.
  intros Ht Hok [Hi Hb] Ho Hp Hm Hnew. destruct (glob_inv_slot index s Hi) as [Hs Ha].
  assert (Hnok : name_okb (gpiece_name p) = true).
  { destruct p as [t|name elems|name mn mx step|name w mn mx step]; try done; cbn [gpiece_ok gpiece_name] in *; repeat (apply andb_prop in Hok as [Hok ?]); done. }
  unfold glob_entry. rewrite glob_name_text by (done || (intros _; by apply body_head)).
  (* behind the name *)
  assert (Hgo : forall pos, exists s' pat,
    ('(r, s, v) ← (if gpiece_open p =? 123 then glob_set (gpiece_body p ++ rest) index (name_str (gpiece_name p) (gpiece_body p ++ rest)) (gs_move pos s)
        else glob_range (gpiece_body p ++ rest) index (name_str (gpiece_name p) (gpiece_body p ++ rest)) (gs_move pos s));
      match v with
      | None => Some (r, s, None)
      | Some (pattern, pat) => let '(r, s) := add_glob pat s in Some (r, s, if is_ok r then Some pattern else None)
      end) = Some (CURLE_OK, s', Some rest) /\
    parse_inv_at (index + 1) s' /\ gs_o s' = [] /\ gs_amount s' = gs_amount s * gpiece_size p /\
    pattern (gs_glob s') = pattern (gs_glob s) ++ [pat] /\ pat_values pat = gpiece_values p /\ pat_name pat = gpiece_name p).
  { intros pos. set (nm := name_str (gpiece_name p) (gpiece_body p ++ rest)).
    assert (Hnm : given_name nm = gpiece_name p) by by apply given_name_str.
    assert (Hread : exists s1 pat, (if gpiece_open p =? 123 then glob_set (gpiece_body p ++ rest) index nm (gs_move pos s)
        else glob_range (gpiece_body p ++ rest) index nm (gs_move pos s)) = Some (CURLE_OK, s1, Some (rest, pat)) /\
      entered p (gs_move pos s) s1 /\ pat_of p index pat).
    { destruct (is_range p) eqn:Er.
      - replace (gpiece_open p =? 123) with false by by destruct p. by apply range_entry.
      - destruct p as [|name elems| |]; try done. cbn [gpiece_open Z.eqb Pos.eqb gpiece_body]. by apply set_entry. }
    destruct Hread as (s1 & pat & -> & ((Hf1 & Hf2 & Hf3) & Ha1 & Ho1 & Hb1) & (Hw & Hfr & Hv & Hsz & Hpn & Hgi)). cbn [mbind option_bind].
    assert (Hi1 : glob_inv index (gs_glob s1) (gs_amount s)).
    { destruct Hi. constructor; unfold pnum in *; rewrite ?Hf1, ?Hf2, ?Hf3; done. }
    assert (Hn1 : name_new (pat_name pat) (gs_glob s1)) by (rewrite Hpn; unfold name_new in *; by rewrite Hf1).
    assert (Ha1' : gs_amount s1 = gs_amount s * pat_size pat) by by rewrite Hsz.
    destruct (add_glob_granted index index s1 pat (gs_amount s)) as (s2 & -> & Ha2 & Hb2 & Hi2 & Ho2 & Hp2);
      [done..|by left|done|rewrite Ha1; cbn [gs_move gs_amount]; lia|done|unfold pnum in *; by rewrite Hf1|].
    rewrite (proj2 (Z.eqb_neq index (-1))) in Hi2 by (pose proof (inv_index _ _ _ Hi); lia).
    exists s2, pat. split; [done|]. split; [split; [done|unfold buf_rep; by rewrite Hb2]|]. split; [done|]. split; [by rewrite Ha2, Ha1|].
    split; [rewrite Hp2, Hf1; done|]. done. }
  destruct (gpiece_name p) as [n|] eqn:En; cbn [name_text].
  - assert (Hlen : zlen (([60] ++ n ++ [62]) ++ gpiece_body p ++ rest) - zlen (gpiece_body p ++ rest) <> 0).
    { rewrite zlen_app. cbn [app]. rewrite zlen_cons. pose proof (zlen_nonneg (n ++ [62])). lia. }
    rewrite (proj2 (Z.eqb_neq _ 0) Hlen). cbn [negb andb]. unfold glob_find_name. destruct Hnew as [Hnew Hnc].
    rewrite find_name_new by (done || exact (inv_chars _ _ _ Hi)). apply Hgo.
  - rewrite Z.eqb_refl. cbn [negb andb]. cbn [app]. apply Hgo.
Qed.

(** * The whole glob *)

Lemma gpiece_size_pos p : gpiece_ok p = true -> 1 <= gpiece_size p.
Proof.
  intros Hp. destruct p as [t|name elems|name mn mx step|name w mn mx step]; cbn [gpiece_ok gpiece_size] in *; [lia|..].
  - apply andb_prop in Hp as [Hp _]. apply andb_prop in Hp as [Hp _]. apply andb_prop in Hp as [Hp _]. apply andb_prop in Hp as [_ Hp].
    apply negb_true_iff, Z.eqb_neq in Hp. pose proof (zlen_nonneg elems). lia.
  - apply andb_prop in Hp as [_ Hp]. apply range_okb_spec in Hp as (H1 & H2 & _). pose proof (Z.div_pos (mx - mn) step). lia.
  - apply andb_prop in Hp as [Hp _]. apply andb_prop in Hp as [_ Hp]. apply range_okb_spec in Hp as (H1 & H2 & _). pose proof (Z.div_pos (mx - mn) step). lia.
Qed.

Lemma expand_total_pos ps : forallb gpiece_ok ps = true -> 1 <= expand_total ps.
Proof.
  induction ps as [|p ps IH]; cbn [forallb expand_total foldr]; [lia|]. intros H. apply andb_prop in H as [Hp Hps]. specialize (IH Hps).
  fold (expand_total ps). pose proof (gpiece_size_pos p Hp). nia.
Qed.

Lemma parse_text ps : forall fuel ipattern index s, forallb gpiece_ok ps = true -> texts_apart ps = true ->
  Forall (fun p => is_range p = true -> rejects (gpiece_text p)) ps ->
  parse_inv_at index s -> gs_o s = [] -> pnum (gs_glob s) + zlen ps <= 255 -> gs_amount s * expand_total ps <= CURL_OFF_T_MAX ->
  NoDup (omap pat_name (pattern (gs_glob s)) ++ omap gpiece_name ps) -> (length (glob_text ps) < fuel)%nat ->
  exists s', parse_loop curl_url_set fuel ipattern (glob_text ps) index s = Some (CURLE_OK, s') /\ gs_o s' = [] /\
    (exists index', parse_inv_at index' s') /\ gs_amount s' = gs_amount s * expand_total ps /\
    map pat_values (pattern (gs_glob s')) = map pat_values (pattern (gs_glob s)) ++ map gpiece_values ps.
Proof.
  induction ps as [|p ps IH]; intros fuel ipattern index s Hok Hta Hrj Hinv Ho Hp Hm Hnd Hf; (destruct fuel as [|fuel]; [lia|]).
  { exists s. split; [done|]. split; [done|]. split; [by exists index|]. cbn. split; [lia|by rewrite app_nil_r]. }
  cbn [forallb] in Hok. apply andb_prop in Hok as [Hokp Hok]. apply Forall_cons in Hrj as [Hrjp Hrj]. rewrite zlen_cons in Hp.
  pose proof (zlen_nonneg ps). cbn [expand_total foldr] in Hm. fold (expand_total ps) in Hm. pose proof (expand_total_pos ps Hok) as Htot.
  pose proof Hinv as [Hi Hb]. destruct (glob_inv_slot index s Hi) as [_ Ha]. rewrite glob_text_cons in *. cbn [parse_loop].
  destruct (is_text p) eqn:Et.
  - destruct p as [t| | |]; try done. cbn [gpiece_text gpiece_ok] in *. apply andb_prop in Hokp as [Hokp Hlen]. apply andb_prop in Hokp as [Hokp Hlast].
    apply andb_prop in Hokp as [Hne Hch]. apply charsb_spec in Hch. apply negb_true_iff, Z.eqb_neq in Hne. apply negb_true_iff, Z.eqb_neq in Hlast. zb_hyps.
    assert (Hnext : entry_next ps).
    { destruct ps as [|q ps]; [done|]. cbn [texts_apart is_text andb] in Hta. apply andb_prop in Hta as [Hq _]. apply negb_true_iff in Hq.
      cbn [forallb] in Hok. apply andb_prop in Hok as [Hq2 _]. apply Forall_cons in Hrj as [Hq3 _]. done. }
    assert (Hd : deref (escaped in_text t ++ glob_text ps) <> 0).
    { destruct t as [|c t]; [done|]. apply Forall_cons in Hch as [Hc _]. unfold is_char in Hc.
      change (escaped in_text (c :: t)) with ((if in_text c then [92; c] else [c]) ++ escaped in_text t). destruct (in_text c); cbn; lia. }
    rewrite (proj2 (Z.eqb_neq _ 0) Hd).
    destruct (glob_literal_text t ps Hnext s [] (length (escaped in_text t ++ glob_text ps))) as (s1 & -> & ((Hf1 & Hf2 & Hf3) & Ha1 & Ho1 & Hb1));
      [done|by destruct (last t) as [c|]; [intros [= ->]|]|done|done|done|done|]. cbn [mbind option_bind app] in *.
    rewrite (dyn_rep_len _ _ (proj1 Hb1)), (proj2 (Z.eqb_neq (zlen t) 0)) by done. cbn [negb].
    assert (Hi1 : glob_inv index (gs_glob s1) (gs_amount s1)).
    { destruct Hi. constructor; unfold pnum in *; rewrite ?Hf1, ?Hf2, ?Hf3, ?Ha1; done. }
    destruct (add_literal_granted index s1 t Hi1 Hb1) as (s2 & pat & -> & Hinv2 & Ho2 & Ha2 & Hp2 & Hv2 & Hn2);
      [by destruct t|done|unfold pnum in *; rewrite Hf1; lia|]. cbn [mbind option_bind is_ok].
    destruct (IH fuel ipattern index s2) as (s3 & -> & Ho3 & Hinv3 & Ha3 & Hv3); try done.
    + destruct ps; [done|]. by apply andb_prop in Hta as [_ Hta].
    + unfold pnum in *. rewrite Hp2, Hf1, zlen_snoc. lia.
    + rewrite Ha2, Ha1. cbn [gpiece_size] in Hm. lia.
    + rewrite Hp2, Hf1, omap_app. cbn. rewrite Hn2, app_nil_r. exact Hnd.
    + rewrite length_app in Hf. destruct t as [|c t]; [done|]. change (escaped in_text (c :: t)) with ((if in_text c then [92; c] else [c]) ++ escaped in_text t) in Hf.
      rewrite length_app in Hf. destruct (in_text c); cbn in Hf; lia.
    + exists s3. split; [done|]. split; [done|]. split; [done|]. split; [rewrite Ha3, Ha2, Ha1; cbn [expand_total foldr gpiece_size]; fold (expand_total ps); lia|].
      rewrite Hv3, Hp2, Hf1, map_app, <- app_assoc. cbn [map app]. by rewrite Hv2.
  - assert (Hnext : entry_next (p :: ps)) by done.
    pose proof (literal_stop (p :: ps) s (length (glob_text (p :: ps))) Hnext Ho ltac:(done)) as Hlit. rewrite glob_text_cons in Hlit.
    rewrite (gpiece_text_entry p Et) in *. cbn [app] in *. rewrite <- app_assoc in *. cbn [deref].
    assert (Hopen : gpiece_open p = 123 \/ gpiece_open p = 91) by (destruct p; auto).
    rewrite (proj2 (Z.eqb_neq (gpiece_open p) 0)) by lia. rewrite Hlit. cbn [mbind option_bind]. rewrite (dyn_rep_len _ _ (proj1 Hb)), zlen_nil.
    cbn [Z.eqb negb deref]. rewrite ?(proj2 (Z.eqb_neq (gpiece_open p) 0)) by lia. rewrite (proj2 (orb_true_iff _ _)) by (rewrite !Z.eqb_eq; lia).
    cbn [drop]. rewrite drop_0.
    assert (Hnew : name_new (gpiece_name p) (gs_glob s)).
    { unfold name_new. cbn [omap list_omap] in Hnd. destruct (gpiece_name p) as [n|] eqn:En; [|done].
      apply NoDup_app in Hnd as (_ & Hx & _). split; [intros Hin; apply (Hx n Hin); left|].
      assert (Hnok : name_okb (Some n) = true).
      { rewrite <- En. destruct p as [t|name elems|name mn mx step|name w mn mx step]; try done; cbn [gpiece_ok gpiece_name] in *;
          repeat (apply andb_prop in Hokp as [Hokp ?]); done. }
      cbn [name_okb] in Hnok. apply andb_prop in Hnok as [_ Hnok]. apply name_chars in Hnok. eapply Forall_impl; [exact Hnok|]. by intros c [? _]. }
    destruct (entry_text ipattern p (glob_text ps) index (gs_move 1 s)) as (s2 & pat & E & Hinv2 & Ho2 & Ha2 & Hp2 & Hv2 & Hn2);
      [done|done|done|done|cbn; lia|cbn [gs_move gs_amount]; transitivity (gs_amount s * (gpiece_size p * expand_total ps)); [|done]; apply Z.mul_le_mono_nonneg_l; [lia|pose proof (gpiece_size_pos p Hokp); nia]|done|]. rewrite E. cbn [mbind option_bind].
    destruct (IH fuel ipattern (index + 1) s2) as (s3 & -> & Ho3 & Hinv3 & Ha3 & Hv3); try done.
    + destruct ps; [done|]. by apply andb_prop in Hta as [_ Hta].
    + unfold pnum in *. rewrite Hp2. cbn [gs_move gs_glob]. rewrite zlen_snoc. lia.
    + rewrite Ha2. cbn [gs_move gs_amount]. lia.
    + rewrite Hp2, omap_app, <- app_assoc. cbn [omap list_omap gs_move gs_glob] in *. rewrite Hn2. destruct (gpiece_name p); exact Hnd.
    + cbn [length] in Hf. rewrite !length_app in Hf. lia.
    + exists s3. split; [done|]. split; [done|]. split; [done|]. split; [rewrite Ha3, Ha2; cbn [gs_move gs_amount expand_total foldr]; fold (expand_total ps); lia|].
      rewrite Hv3, Hp2, map_app, <- app_assoc. cbn [map app gs_move gs_glob]. by rewrite Hv2.
Qed.

Lemma urls_product ps : urls ps = product (map pat_values ps).
Proof. induction ps as [|p ps IH]; [done|]. cbn [urls map product]. by rewrite IH. Qed.

(** The text of a glob is read as its pieces. *)
Lemma glob_url_text ps : pieces_ok ps = true -> Forall (fun p => is_range p = true -> rejects (gpiece_text p)) ps ->
  exists g, glob_url curl_url_set (glob_text ps) [] = Some (CURLE_OK, g, Some (expand_total ps), []) /\
    (exists k, glob_inv k g (expand_total ps)) /\ glob_ready g /\ urls (pattern g) = expand ps.
Proof.
  intros Hok Hrj. unfold pieces_ok in Hok. apply andb_prop in Hok as [Hok Hnd]. apply bool_decide_eq_true in Hnd.
  apply andb_prop in Hok as [Hok Htot]. apply andb_prop in Hok as [Hok Hlen]. apply andb_prop in Hok as [Hok Hta]. zb_hyps.
  unfold glob_url. cbn [next_alloc negb].
  set (g := set_palloc 2 (mk_glob (curlx_dyn_init MAX_CONFIG_LINE_LENGTH) [] 0 false None 0)).
  assert (Hi : parse_inv_at 0 (mk_gs g 1 1 [])).
  { split; [constructor; cbn; try done; try constructor; try lia|].
    - reflexivity.
    - by exists 1.
    - split; [|split; [done|constructor]]. apply dyn_init_rep. unfold MAX_CONFIG_LINE_LENGTH, MAX_DYNBUF_SIZE. lia. }
  unfold glob_parse.
  destruct (parse_text ps (S (length (glob_text ps))) (glob_text ps) 0 _ Hok Hta Hrj Hi) as (s & -> & Ho & [k [Hk Hb]] & Ha & Hv);
    [done|exact Hlen|cbn [gs_amount]; lia|done|lia|]. cbn [mbind option_bind is_ok]. cbn [gs_amount] in Ha. rewrite Z.mul_1_l in Ha.
  exists (gs_glob s). rewrite Ha, Ho. split; [done|]. split; [exists k; by rewrite <- Ha|]. destruct Hb as (Hb & Ht & _).
  split; [split; [by eexists|done]|]. rewrite urls_product, Hv. done.
Qed.

End Parse.
