(* ===== verification/GlobTheorems.v ===== *)
(** The theorems about URL globs, for Urlglob.v: the parser on any text, the
    texts that an accepted glob lists, globs that are written and read back, and
    the references to globs in file names. *)

From Stdlib Require Import ZArith Lia List String SpecFloat.
From stdpp Require Import base numbers option list.
From S2P Require Import Prelude Dynbuf Strparse InetAddr Parsedate Mprintf PrintfSpec PrintfFormat PrintfPieces PrintfTheorems.
From S2P Require Import Urlglob GlobIter GlobParse GlobText.
Close Scope nat_scope.
Open Scope Z_scope.

Section Globs.
Context (c_snprintf : list Z -> spec_float -> list Z) (curl_url_set : list Z -> allocs -> CURLUcode * allocs).

(** C30: the parser of globs on any text and with any allocations that fail,
    whatever the URL parser thinks of texts in brackets.  It returns.  A text that
    it refuses is malformed or memory was missing; the number of URLs is then 1
    or not given.  When it accepts the text, each pattern has values and none of
    them overflows its type, no pattern has been moved, no two patterns have the
    same name, the braces and brackets are numbered from 0 in their order, the
    array of patterns is larger than their number, and the number of URLs is the
    product of the sizes and fits in a [curl_off_t]. *)
Theorem glob_url_sound url o : Forall is_char url -> zlen url <= INT_MAX ->
  exists r g n o', glob_url curl_url_set url o = Some (r, g, n, o') /\
    (r = CURLE_OK /\ n = Some (urls_total (pattern g)) /\ (exists k, glob_inv k g (urls_total (pattern g))) \/
     (r = CURLE_URL_MALFORMAT \/ r = CURLE_OUT_OF_MEMORY) /\ (n = Some 1 \/ n = None)).
Proof.
  intros Hu Hl. destruct (glob_url_spec curl_url_set url o Hu Hl) as (r & g & n & o' & E & H). exists r, g, n, o'. split; [done|].
  destruct H as [(H1 & H2 & _ & H3)|[H1 H2]]; [left|right]; done.
Qed.

(** C29: the URLs of a glob.  When [glob_url] has accepted a text and promised [n]
    URLs, there are [n] texts in the product of its patterns, and calls of
    [glob_next_url] hand out exactly these, in the order in which the last pattern
    moves first, and then none; otherwise they hand out a first part of them and
    report that memory is missing, and then an allocation failed or one of the
    texts has 8000000 bytes. *)
Theorem glob_lists_product url o o2 g n o' : Forall is_char url -> zlen url <= INT_MAX ->
  glob_url curl_url_set url o = Some (CURLE_OK, g, Some n, o') ->
  zlen (urls (pattern g)) = n /\
  exists r l, glob_urls c_snprintf (S (length (urls (pattern g)))) g o2 = Some (r, l) /\
    (r = CURLE_OK /\ l = urls (pattern g) \/
     r = CURLE_OUT_OF_MEMORY /\ l `prefix_of` urls (pattern g) /\
       (false ∈ o2 \/ exists t, t ∈ urls (pattern g) /\ DYN_APRINTF <= zlen t)).
Proof.
  intros Hu Hl E. destruct (glob_url_spec curl_url_set url o Hu Hl) as (r & g1 & n1 & o1 & E1 & H). rewrite E1 in E.
  injection E as -> -> -> ->. destruct H as [(_ & [= ->] & Hr & k & Hi)|[[?|?] _]]; [|done..].
  split; [by apply urls_length, (inv_wf k _ _ Hi)|].
  apply glob_urls_spec; [exact (inv_wf k _ _ Hi)|exact (inv_fresh k _ _ Hi)|done|exact (inv_new k _ _ Hi)|done].
Qed.

(** C28: globs as they are written.  A glob of texts, sets of words, ranges of
    letters and ranges of numbers with a fixed width and a step, each brace and
    bracket with a name or without, is written with its special characters
    escaped.  When the URL parser does not take the brackets for IPv6 hosts and no
    allocation fails, [glob_url] reads the glob and [glob_next_url] lists the
    product of what the pieces stand for, and then ends. *)
Theorem glob_text_expands ps : pieces_ok ps = true -> Forall (fun p => is_range p = true -> rejects curl_url_set (gpiece_text p)) ps ->
  Forall (fun t => zlen t < DYN_APRINTF) (expand ps) ->
  exists g, glob_url curl_url_set (glob_text ps) [] = Some (CURLE_OK, g, Some (zlen (expand ps)), []) /\
    glob_urls c_snprintf (S (length (expand ps))) g [] = Some (CURLE_OK, expand ps).
Proof.
  intros Hok Hrj Hlen. destruct (glob_url_text curl_url_set ps Hok Hrj) as (g & E & [k Hi] & Hr & Hu). exists g. rewrite <- Hu in *.
  pose proof (inv_amount k _ _ Hi) as [Ha _]. rewrite (urls_length _ (inv_wf k _ _ Hi)), <- Ha. split; [done|].
  destruct (glob_urls_spec c_snprintf g (pattern g) [] (inv_wf k _ _ Hi) (inv_fresh k _ _ Hi) Hr (inv_new k _ _ Hi) eq_refl) as (r & l & -> & H).
  destruct H as [[-> ->]|(_ & _ & [H|(t & Ht & Hl)])]; [done|by apply not_elem_of_nil in H|].
  rewrite Forall_forall in Hlen. specialize (Hlen t Ht). lia.
Qed.

(** * References in file names *)

Inductive fpiece :=
  | F_text (t : list Z)
  | F_number (n : Z)
  | F_name (n : list Z).

Definition fpiece_text (p : fpiece) : list Z :=
  match p with
  | F_text t => t
  | F_number n => 35 :: number_chars 10 false n
  | F_name n => 35 :: 60 :: n ++ [62]
  end.

(** The text that replaces a piece: the value of the glob with that number or
    that name, which the second glob has when the first has not. *)
Definition fpiece_value (g : URLGlob) (g2 : option URLGlob) (p : fpiece) : option (list Z) :=
  match p with
  | F_text t => Some t
  | F_number n => if (1 <=? n) && (n <=? pnum g) then pat_text <$> find_index (pattern g) (n - 1) else None
  | F_name n =>
      let nm := mk_str (Some (n ++ [62])) (zlen n) in
      match glob_find_name g nm with
      | Some p => Some (pat_text p)
      | None => match g2 with Some g2 => if glob_inuse g2 then pat_text <$> glob_find_name g2 nm else None | None => None end
      end
  end.

Definition fpiece_ok (p : fpiece) : bool :=
  match p with
  | F_text t => forallb (fun c => charb c && negb (c =? 35)) t
  | F_number _ => true
  | F_name n => (1 <=? zlen n) && (zlen n <=? MAX_GLOBNAME_LEN) && forallb (fun c => charb c && negb (c =? 62)) n
  end.

(** A number is followed by no digit. *)
Fixpoint numbers_end (ps : list fpiece) : bool :=
  match ps with
  | F_number _ :: ps => negb (ISDIGIT (deref (ps ≫= fpiece_text))) && numbers_end ps
  | _ :: ps => numbers_end ps
  | [] => true
  end.

Definition file_cap : Z := MAX_OUTPUT_GLOB_LENGTH - 1.

Lemma find_index_in l n p : find_index l n = Some p -> p ∈ l.
Proof. induction l as [|q l IH]; cbn [find_index]; [done|]. case_if; [intros [= ->]; left|right; auto]. Qed.

Lemma find_name_in l n p : find_name l n = Some p -> p ∈ l.
Proof. induction l as [|q l IH]; cbn [find_name]; [done|]. case_if; [intros [= ->]; left|right; auto]. Qed.

(** A comparison with a name looks at its bytes only. *)
Lemma strncmp_eq_tail w r r' n : (n <= length w)%nat -> forall m, strncmp_eq (w ++ r) m n = strncmp_eq (w ++ r') m n.
Proof.
  revert w. induction n as [|n IH]; intros w Hl m; [done|]. destruct w as [|c w]; [cbn in Hl; lia|]. cbn [app strncmp_eq deref drop].
  rewrite !drop_0. by rewrite (IH w) by (cbn in Hl; lia).
Qed.

Lemma strlen_le m : 0 <= strlen m.
Proof. induction m as [|c m IH]; cbn; [done|]. case_if; lia. Qed.

Lemma find_name_tail l n r r' : find_name l (mk_str (Some (n ++ r)) (zlen n)) = find_name l (mk_str (Some (n ++ r')) (zlen n)).
Proof.
  induction l as [|p l IH]; cbn [find_name]; [done|]. rewrite IH. destruct (pat_name p) as [m|]; [|done].
  assert (E : curlx_str_cmp (mk_str (Some (n ++ r)) (zlen n)) (Some m) = curlx_str_cmp (mk_str (Some (n ++ r')) (zlen n)) (Some m)).
  { unfold curlx_str_cmp. cbn [str_len str_p default from_option id]. destruct (Z.eqb_spec (zlen n) (strlen m)) as [El|]; [|done].
    cbn [andb]. apply strncmp_eq_tail. rewrite <- El. unfold zlen. lia. }
  by rewrite E.
Qed.

Section Match.
Context (g : URLGlob) (g2 : option URLGlob).
Context (Huse : glob_inuse g = true) (Hcur : Forall pat_current (pattern g)).
Context (Hcur2 : forall g', g2 = Some g' -> Forall pat_current (pattern g')) (Hmax : pnum g <= CURL_OFF_T_MAX).

Lemma grown_app cap s c t1 t2 o res k : grown cap s c t1 o res ->
  (forall s' o', dyn_rep s' (c ++ t1) -> toobig s' = toobig s -> (false ∈ o' -> false ∈ o) -> grown cap s' (c ++ t1) t2 o' (k s' o')) ->
  grown cap s c (t1 ++ t2) o ('(d, r, o) ← res; if is_ok r then k d o else Some (d, r, o)).
Proof.
  intros (s1 & r & o1 & -> & Ho & Ht & Hr) Hk. cbn [mbind option_bind]. destruct Hr as [[-> Hr]|(Hr & Hrep & Hf)].
  - cbn [is_ok]. destruct (Hk s1 o1 Hr Ht Ho) as (s2 & r2 & o2 & E & Ho2 & Ht2 & Hr2). exists s2, r2, o2. split; [done|].
    split; [auto|]. split; [congruence|]. rewrite app_assoc. destruct Hr2 as [?|(? & ? & [?|?])]; [by left|right; auto..].
  - rewrite (proj2 (is_ok_false r) Hr). exists s1, r, o1. split; [done|]. split; [done|]. split; [done|]. right. split; [done|].
    split; [done|]. destruct Hf as [?|?]; [by left|right]. rewrite !zlen_app in *. pose proof (zlen_nonneg t2). lia.
Qed.

(** A reference is replaced by the current value of its pattern. *)
Lemma match_ref fuel f pat p s c o t2 : file_ref f g g2 = Some (CURLE_OK, Some (pat, p)) -> deref f <> 0 -> pat_current pat ->
  dyn_rep s c -> toobig s = MAX_OUTPUT_GLOB_LENGTH ->
  (forall s' o', dyn_rep s' (c ++ pat_text pat) -> toobig s' = toobig s -> (false ∈ o' -> false ∈ o) ->
    grown file_cap s' (c ++ pat_text pat) t2 o' (match_loop c_snprintf fuel p g g2 s' o')) ->
  grown file_cap s c (pat_text pat ++ t2) o (match_loop c_snprintf (S fuel) f g g2 s o).
Proof.
  intros Hf Hd Hp Hs Ht Hk. cbn [match_loop]. rewrite (proj2 (Z.eqb_neq _ 0) Hd), Hf. cbn [mbind option_bind is_ok negb].
  apply grown_app; [|done]. apply add_value_grown; [unfold file_cap, MAX_OUTPUT_GLOB_LENGTH, DYN_APRINTF; lia|done|done|].
  rewrite Ht. unfold file_cap. lia.
Qed.

Lemma match_char fuel x f s c o t2 : is_char x -> x <> 35 -> dyn_rep s c -> toobig s = MAX_OUTPUT_GLOB_LENGTH ->
  (forall s' o', dyn_rep s' (c ++ [x]) -> toobig s' = toobig s -> (false ∈ o' -> false ∈ o) ->
    grown file_cap s' (c ++ [x]) t2 o' (match_loop c_snprintf fuel f g g2 s' o')) ->
  grown file_cap s c (x :: t2) o (match_loop c_snprintf (S fuel) (x :: f) g g2 s o).
Proof.
  intros Hx Hne Hs Ht Hk. cbn [match_loop deref]. rewrite (proj2 (Z.eqb_neq x 0)) by (unfold is_char in Hx; lia).
  unfold file_ref. cbn [deref]. rewrite (proj2 (Z.eqb_neq x 35)), andb_false_r by done. cbn [andb mbind option_bind is_ok negb drop].
  rewrite drop_0. apply (grown_app file_cap s c [x] t2); [|done]. apply nappend_grown; [done|rewrite Ht; unfold file_cap; lia|done].
Qed.

Lemma glob_pnum_nonneg : 0 <= pnum g.
Proof. apply zlen_nonneg. Qed.

(** What a reference finds. *)
Lemma file_ref_number n rest p : 1 <= n <= pnum g -> find_index (pattern g) (n - 1) = Some p -> ISDIGIT (deref rest) = false ->
  file_ref (35 :: number_chars 10 false n ++ rest) g g2 = Some (CURLE_OK, Some (p, rest)).
Proof.
  intros Hn Hp Hr. destruct (ten_chars n) as (Hd & Hv & Hne & _); [lia|]. unfold file_ref. rewrite Huse.
  assert (H1 : ISDIGIT (at_ (35 :: number_chars 10 false n ++ rest) 1) = true).
  { unfold at_. cbn [drop]. rewrite drop_0. destruct (number_chars 10 false n) as [|c l]; [done|]. apply Forall_cons in Hd as [Hc _].
    apply digit_code in Hc as [Hc _]. by apply ISDIGIT_iff. }
  rewrite H1. cbn [deref Z.eqb Pos.eqb andb drop]. rewrite drop_0.
  assert (Hnd : nondigit (deref rest)).
  { unfold nondigit. destruct (valid_digit (deref rest) (max_digit 10)) eqn:E; [|done]. apply digit_code in E as [E _]. apply ISDIGIT_iff in E. congruence. }
  pose proof glob_pnum_nonneg. rewrite digits_read, Hv by (done || lia). cbn [mbind option_bind].
  rewrite (proj2 (Z.eqb_neq n 0)) by lia. by rewrite Hp.
Qed.

Lemma file_ref_name n rest : fpiece_ok (F_name n) = true -> file_ref (35 :: 60 :: n ++ 62 :: rest) g g2 =
  (let nm := mk_str (Some (n ++ [62])) (zlen n) in
   match (match glob_find_name g nm with
          | Some p => Some p
          | None => match g2 with Some g2 => if glob_inuse g2 then glob_find_name g2 nm else None | None => None end
          end) with
   | Some p => Some (CURLE_OK, Some (p, rest))
   | None => Some (CURLE_BAD_FUNCTION_ARGUMENT, None)
   end).
Proof.
  intros Hok. cbn [fpiece_ok] in Hok. apply andb_prop in Hok as [Hok Hc]. zb_hyps.
  assert (Hch : Forall (fun c => c <> 0 /\ (c =? 62) = false) n).
  { apply Forall_forall. intros c Hin. rewrite forallb_forall in Hc. specialize (Hc c). rewrite <- list_elem_of_In in Hc. specialize (Hc Hin).
    apply andb_prop in Hc as [H1 H2]. apply charb_spec in H1. apply negb_true_iff in H2. split; [unfold is_char in H1; lia|done]. }
  unfold file_ref. rewrite Huse. change (at_ (35 :: 60 :: n ++ 62 :: rest) 1) with 60. cbn [deref Z.eqb Pos.eqb andb drop]. rewrite drop_0.
  change (ISDIGIT 60) with false. cbn iota. unfold curlx_str_until.
  assert (Hw : word_span (fun c => c =? 62) (n ++ 62 :: rest) = (n, 62 :: rest)) by (rewrite word_span_text by done; cbn; by rewrite app_nil_r).
  rewrite (scan_word_spec _ _ _ _ _ _ Hw), Z.add_0_l, (proj2 (Z.leb_le _ _)) by done. cbn [take_word].
  rewrite (proj2 (Z.eqb_neq (zlen n) 0)) by lia. cbn [curlx_str_single deref Z.eqb Pos.eqb negb drop]. unfold curlx_str_single.
  cbn [deref Z.eqb Pos.eqb negb drop]. rewrite drop_0. unfold glob_find_name.
  rewrite (find_name_tail _ n (62 :: rest) [62]). destruct (find_name (pattern g) _) as [p|]; [done|].
  destruct g2 as [g2'|]; [|done]. by rewrite (find_name_tail _ n (62 :: rest) [62]).
Qed.

Lemma match_pieces ps : forall ts fuel s c o, forallb fpiece_ok ps = true -> numbers_end ps = true ->
  mapM (fpiece_value g g2) ps = Some ts -> (length (ps ≫= fpiece_text) <= fuel)%nat ->
  dyn_rep s c -> toobig s = MAX_OUTPUT_GLOB_LENGTH ->
  grown file_cap s c (concat ts) o (match_loop c_snprintf fuel (ps ≫= fpiece_text) g g2 s o).
Proof.
  induction ps as [|p ps IH]; intros ts fuel s c o Hok Hne Hts Hf Hs Ht.
  { injection Hts as <-. exists s, CURLE_OK, o. cbn [concat]. rewrite app_nil_r. split; [by destruct fuel|]. split; [done|]. split; [done|by left]. }
  cbn [forallb] in Hok. apply andb_prop in Hok as [Hp Hok]. cbn [mapM] in Hts.
  destruct (fpiece_value g g2 p) as [t|] eqn:Ev; [|done]. cbn [mbind option_bind] in Hts.
  destruct (mapM (fpiece_value g g2) ps) as [ts'|] eqn:Ets; [|done]. injection Hts as <-. cbn [concat].
  change ((p :: ps) ≫= fpiece_text) with (fpiece_text p ++ (ps ≫= fpiece_text)) in *. rewrite length_app in Hf.
  assert (Hrest : forall fuel s' o' c', numbers_end ps = true -> (length (ps ≫= fpiece_text) <= fuel)%nat -> dyn_rep s' c' -> toobig s' = toobig s ->
    grown file_cap s' c' (concat ts') o' (match_loop c_snprintf fuel (ps ≫= fpiece_text) g g2 s' o')).
  { intros f s' o' c' Hne' Hl Hs' Ht'. apply IH; try done. congruence. }
  destruct p as [t0|n|n]; cbn [fpiece_value fpiece_text numbers_end] in *.
  - injection Ev as <-. revert s c o fuel Hs Ht Hf Hrest. induction t0 as [|x t0 IHt]; intros s c o fuel Hs Ht Hf Hrest.
    { cbn [app length] in *. by apply Hrest. }
    cbn [fpiece_ok forallb] in Hp. apply andb_prop in Hp as [Hx Hp]. apply andb_prop in Hx as [Hx Hx35]. apply charb_spec in Hx.
    apply negb_true_iff, Z.eqb_neq in Hx35. cbn [length app] in *. destruct fuel as [|fuel]; [lia|].
    apply match_char; [done..|]. intros s' o' Hs' Ht' Ho'. apply IHt; [done|done|congruence|lia|].
    intros f s2 o2 c2 H1 H2 H3 H4. apply Hrest; [done|done|done|congruence].
  - apply andb_prop in Hne as [Hd Hne]. apply negb_true_iff in Hd.
    destruct ((1 <=? n) && (n <=? pnum g)) eqn:En; [|done]. zb_hyps. destruct (find_index (pattern g) (n - 1)) as [pat|] eqn:Ep; [|done].
    injection Ev as <-. cbn [app length] in *. destruct fuel as [|fuel]; [lia|].
    eapply match_ref; [by apply file_ref_number|done| |done|done|].
    + rewrite Forall_forall in Hcur. apply Hcur. by eapply find_index_in.
    + intros s' o' Hs' Ht' _. apply Hrest; [done|lia|done|done].
  - assert (E : (35 :: 60 :: n ++ [62]) ++ (ps ≫= fpiece_text) = 35 :: 60 :: n ++ 62 :: (ps ≫= fpiece_text)) by (cbn [app]; by rewrite <- app_assoc).
    rewrite E. cbn [length] in Hf. rewrite length_app in Hf. destruct fuel as [|fuel]; [lia|].
    pose proof (file_ref_name n (ps ≫= fpiece_text) Hp) as Hr. cbv zeta in Hr.
    destruct (glob_find_name g (mk_str (Some (n ++ [62])) (zlen n))) as [pat|] eqn:Ep.
    + injection Ev as <-. eapply match_ref; [exact Hr|done| |done|done|].
      * rewrite Forall_forall in Hcur. apply Hcur. by eapply find_name_in.
      * intros s' o' Hs' Ht' _. apply Hrest; [done|lia|done|done].
    + destruct g2 as [g2'|] eqn:Eg; [|done]. destruct (glob_inuse g2'); [|done].
      destruct (glob_find_name g2' (mk_str (Some (n ++ [62])) (zlen n))) as [pat|] eqn:Ep2; [|done].
      injection Ev as <-. rewrite <- Eg in *. eapply match_ref; [exact Hr|done| |done|done|].
      * specialize (Hcur2 g2' Eg). rewrite Forall_forall in Hcur2. apply Hcur2. by eapply find_name_in.
      * intros s' o' Hs' Ht' _. apply Hrest; [done|lia|done|done].
Qed.

End Match.

(** File names with references to globs.  When the patterns of the glob, and
    of the second glob if there is one, are at values of theirs, and a file name
    consists of text without number signs and of references by number or by name
    that one of the globs has, [glob_match_url] gives the file name with each
    reference replaced by the current value of its pattern; otherwise an
    allocation failed or the name has a length of at least 1048575 bytes. *)
Theorem glob_match_replaces g g2 ps ts o : glob_inuse g = true -> Forall pat_current (pattern g) ->
  (forall g', g2 = Some g' -> Forall pat_current (pattern g')) -> pnum g <= CURL_OFF_T_MAX ->
  forallb fpiece_ok ps = true -> numbers_end ps = true -> mapM (fpiece_value g g2) ps = Some ts ->
  exists r out o', glob_match_url c_snprintf (ps ≫= fpiece_text) g g2 o = Some (r, out, o') /\
    (r = CURLE_OK /\ (exists rest, out = Some (map Some (concat ts) ++ Some 0 :: rest)) \/
     r <> CURLE_OK /\ out = None /\ (false ∈ o \/ MAX_OUTPUT_GLOB_LENGTH - 1 <= zlen (concat ts))).
Proof.
  intros Huse Hcur Hcur2 Hmax Hok Hne Hts. unfold glob_match_url.
  assert (Hs : dyn_rep (curlx_dyn_init MAX_OUTPUT_GLOB_LENGTH) []) by (apply dyn_init_rep; unfold MAX_OUTPUT_GLOB_LENGTH, MAX_DYNBUF_SIZE; lia).
  destruct (match_pieces g g2 Huse Hcur Hcur2 Hmax ps ts (length (ps ≫= fpiece_text)) _ [] o Hok Hne Hts ltac:(done) Hs eq_refl)
    as (s & r & o1 & -> & Ho & Ht & Hr). cbn [mbind option_bind app] in *. destruct Hr as [[-> Hr]|(Hr & _ & Hf)].
  - cbn [is_ok negb]. unfold curlx_dyn_addn. destruct (dyn_nappend_spec s (concat ts) [] o1 Hr) as (s2 & r2 & o2 & E & Hto & Hr2); [done|].
    destruct (dyn_nappend_oom _ _ _ _ _ _ E) as [Ho1 _]. rewrite E. cbn [mbind option_bind]. rewrite app_nil_r, zlen_nil in Hr2.
    destruct Hr2 as [(-> & _ & Hr2 & Hnn)|[(-> & Hl & _)|(-> & _)]]; cbn [is_ok]; do 3 eexists; (split; [done|]).
    + left. split; [done|]. destruct Hr2 as (_ & _ & Hm). unfold curlx_dyn_ptr. destruct (bufr s2) as [m|]; [|done].
      destruct Hm as (_ & _ & rest & ->). by exists rest.
    + right. split; [done|]. split; [done|]. right. rewrite Ht in Hl. cbn in Hl. lia.
    + right. split; [done|]. split; [done|]. left. auto.
  - rewrite (proj2 (is_ok_false r) Hr). cbn [negb]. do 3 eexists. split; [done|]. right. done.
Qed.

End Globs.

(** * Witnesses *)

(** A URL parser that refuses whatever has a hyphen. *)
Definition demo_url_set (t : list Z) (o : allocs) : CURLUcode * allocs :=
  (if existsb (fun c => c =? 45) t then CURLUE_BAD_IPV6 else CURLUE_OK, o).

Definition demo_glob : list gpiece :=
  [P_text (str "http://{"); P_set (Some (str "h")) [str "a,b"; []; str "c"]; P_letters None 97 101 2; P_text (str "/x");
   P_numbers (Some (str "n")) 3 8 10 2].

Definition demo_snprintf (_ : list Z) (_ : spec_float) : list Z := [].

(** * What the code does otherwise than it says *)

(** The column of an error leaves out the text of an IPv6 host in front of it:
    the brace is in column 7. *)
Example ipv6_error_column :
  (fun '(r, g, _, _) => (r, glob_error g, glob_pos g)) <$> glob_url demo_url_set (str "[::1]/}") [] =
  Some (CURLE_URL_MALFORMAT, Some "unmatched close brace/bracket"%string, 2).
Proof. vm_compute. reflexivity. Qed.

(** A glob with more sets than the 30 that the header announces. *)
Example forty_globs :
  (fun '(r, g, _, _) => (r, pnum g)) <$> glob_url demo_url_set (concat (replicate 40 (str "{a}"))) [] = Some (CURLE_OK, 40).
Proof. vm_compute. reflexivity. Qed.

Lemma glob_url_sound_witness : exists r g n o',
  glob_url demo_url_set (str "[::1]/{a,b}[1-3") [] = Some (r, g, n, o') /\
    (r = CURLE_OK /\ n = Some (urls_total (pattern g)) /\ (exists k, glob_inv k g (urls_total (pattern g))) \/
     (r = CURLE_URL_MALFORMAT \/ r = CURLE_OUT_OF_MEMORY) /\ (n = Some 1 \/ n = None)).
Proof. apply (glob_url_sound demo_url_set (str "[::1]/{a,b}[1-3") []); [repeat constructor|vm_compute; discriminate]. Defined.

Definition demo_parsed : option (CURLcode * URLGlob * option Z * allocs) := glob_url demo_url_set (str "[::1]/{a,b}[08-10]") [].

Definition demo_g : URLGlob := match demo_parsed with Some (_, g, _, _) => g | None => mk_glob (curlx_dyn_init 1) [] 0 false None 0 end.

Lemma glob_lists_product_witness :
  urls (pattern demo_g) = map str ["[::1]/a08"; "[::1]/a09"; "[::1]/a10"; "[::1]/b08"; "[::1]/b09"; "[::1]/b10"]%string /\
  zlen (urls (pattern demo_g)) = 6 /\
  exists r l, glob_urls demo_snprintf (S (length (urls (pattern demo_g)))) demo_g [true; true; false] = Some (r, l) /\
    (r = CURLE_OK /\ l = urls (pattern demo_g) \/
     r = CURLE_OUT_OF_MEMORY /\ l `prefix_of` urls (pattern demo_g) /\
       (false ∈ [true; true; false] \/ exists t, t ∈ urls (pattern demo_g) /\ DYN_APRINTF <= zlen t)).
Proof.
  split; [vm_compute; reflexivity|].
  apply (glob_lists_product demo_snprintf demo_url_set (str "[::1]/{a,b}[08-10]") [] [true; true; false] demo_g 6 []);
    [repeat constructor|vm_compute; discriminate|vm_compute; reflexivity].
Defined.

Lemma glob_text_expands_witness :
  glob_text demo_glob = str "http://\{{<h>a\,b,,c}[a-e:2]/x[<n>008-10:2]" /\
  take 4 (expand demo_glob) = map str ["http://{a,ba/x008"; "http://{a,ba/x010"; "http://{a,bc/x008"; "http://{a,bc/x010"]%string /\
  exists g, glob_url demo_url_set (glob_text demo_glob) [] = Some (CURLE_OK, g, Some 18, []) /\
    glob_urls demo_snprintf 19 g [] = Some (CURLE_OK, expand demo_glob).
Proof.
  split; [vm_compute; reflexivity|]. split; [vm_compute; reflexivity|].
  apply (glob_text_expands demo_snprintf demo_url_set demo_glob).
  - vm_compute; reflexivity.
  - repeat (apply Forall_cons; split); try apply Forall_nil; try done; intros H; try discriminate H; vm_compute; repeat split; discriminate.
  - apply (bool_decide_unpack _). vm_compute. exact I.
Defined.

Lemma demo_current : Forall pat_current (pattern demo_g).
Proof.
  assert (E : pattern demo_g = [mk_pattern None (-1) (GLOB_SET [str "[::1]/"] 0 1); mk_pattern None 0 (GLOB_SET [str "a"; str "b"] 0 5);
    mk_pattern None 1 (GLOB_NUM 8 10 8 1 2)]) by (vm_compute; reflexivity).
  assert (H : forall p, pat_wf p -> pat_at p 0 = p -> pat_current p).
  { intros p Hp Hf. exists p, 0. split; [done|]. split; [|done]. split; [done|by apply pat_size_pos]. }
  rewrite E. repeat first [apply Forall_nil_2 | apply Forall_cons_2]; (apply H; [|reflexivity]); unfold pat_wf; cbn [pat_c].
  - split; [vm_compute; split; [reflexivity|discriminate]|]. repeat constructor.
  - split; [vm_compute; split; [reflexivity|discriminate]|]. repeat constructor.
  - unfold CURL_OFF_T_MAX, INT_MAX. lia.
Qed.

Lemma glob_match_replaces_witness : exists r out o',
  glob_match_url demo_snprintf (str "out-#1_#2.#1x") demo_g None [] = Some (r, out, o') /\
    (r = CURLE_OK /\ (exists rest, out = Some (map Some (str "out-a_08.ax") ++ Some 0 :: rest)) \/
     r <> CURLE_OK /\ out = None /\ (false ∈ [] \/ MAX_OUTPUT_GLOB_LENGTH - 1 <= zlen (str "out-a_08.ax"))).
Proof.
  apply (glob_match_replaces demo_snprintf demo_g None
    [F_text (str "out-"); F_number 1; F_text (str "_"); F_number 2; F_text (str "."); F_number 1; F_text (str "x")]
    (map str ["out-"; "a"; "_"; "08"; "."; "a"; "x"]%string) []);
    [vm_compute; reflexivity|exact demo_current|discriminate|vm_compute; discriminate|vm_compute; reflexivity..].
Defined.
