(* ===== verification/Fnmatch.v ===== *)
(** File name patterns, src/lib/curl_fnmatch.c.

    The matcher walks over the pattern and the string; a star tries the rest of
    the pattern at every place of the string, and the sets in brackets are read
    into an array of flags.  The declarative side is a language of tokens:
    [Curl_fnmatch] decides membership for patterns with at most two groups of
    stars, and sets that are written are read back. *)

From Stdlib Require Import ZArith Lia List String.
From stdpp Require Import base numbers option list.
From S2P Require Import Prelude Parsedate.
Close Scope nat_scope.
Open Scope Z_scope.

(** * Data *)

Definition CURLFNM_CHARSET_LEN : Z := 256.
Definition CURLFNM_CHSET_SIZE : Z := CURLFNM_CHARSET_LEN + 15.
Definition CURLFNM_NEGATE : Z := CURLFNM_CHARSET_LEN.
Definition CURLFNM_ALNUM : Z := CURLFNM_CHARSET_LEN + 1.
Definition CURLFNM_DIGIT : Z := CURLFNM_CHARSET_LEN + 2.
Definition CURLFNM_XDIGIT : Z := CURLFNM_CHARSET_LEN + 3.
Definition CURLFNM_ALPHA : Z := CURLFNM_CHARSET_LEN + 4.
Definition CURLFNM_PRINT : Z := CURLFNM_CHARSET_LEN + 5.
Definition CURLFNM_BLANK : Z := CURLFNM_CHARSET_LEN + 6.
Definition CURLFNM_LOWER : Z := CURLFNM_CHARSET_LEN + 7.
Definition CURLFNM_GRAPH : Z := CURLFNM_CHARSET_LEN + 8.
Definition CURLFNM_SPACE : Z := CURLFNM_CHARSET_LEN + 9.
Definition CURLFNM_UPPER : Z := CURLFNM_CHARSET_LEN + 10.

Inductive setcharset_state := CURLFNM_SCHS_DEFAULT | CURLFNM_SCHS_RIGHTBR | CURLFNM_SCHS_RIGHTBRLEFTBR.

Inductive char_class := CCLASS_OTHER | CCLASS_DIGIT | CCLASS_UPPER | CCLASS_LOWER.

#[global] Instance char_class_eq_dec : EqDecision char_class.
Proof. solve_decision. Defined.

Inductive fnmatch_result := CURL_FNMATCH_MATCH | CURL_FNMATCH_NOMATCH | CURL_FNMATCH_FAIL.

Definition ISLOWPRINT (x : Z) : bool := between 9 x 13.
Definition ISPRINT (x : Z) : bool := ISLOWPRINT x || between 32 x 126.
Definition ISGRAPH (x : Z) : bool := ISLOWPRINT x || between 33 x 126.

(** The array [charset]: one flag for each character and each keyword. *)
Abbreviation charset := (list bool).

Definition empty_charset : charset := replicate 271 false.

(** A store to the array, a test of one of its flags. *)
Definition cs_set (cs : charset) (i : Z) : option charset :=
  if (0 <=? i) && (i <? zlen cs) then Some (<[Z.to_nat i := true]> cs) else None.

Definition cs_has (cs : charset) (i : Z) : option bool := if 0 <=? i then cs !! Z.to_nat i else None.

(** * Sets *)

(** The loop of [parsekeyword]: [found] is the state behind the colon.  The
    result is the keyword and the pattern behind it, or none. *)
Fixpoint keyword_loop (rounds : nat) (ddot : bool) (keyword p : list Z) : option (list Z * list Z) :=
  match rounds with
  | O => None
  | S rounds =>
      let c := deref p in
      let p := drop 1 p in
      if negb ddot then
        if ISLOWER c then keyword_loop rounds false (keyword ++ [c]) p
        else if c =? 58 then keyword_loop rounds true keyword p
        else None
      else if c =? 93 then Some (keyword, p) else None
  end.

Definition keyword_key (keyword : list Z) : option Z :=
  if bool_decide (keyword = str "digit") then Some CURLFNM_DIGIT
  else if bool_decide (keyword = str "alnum") then Some CURLFNM_ALNUM
  else if bool_decide (keyword = str "alpha") then Some CURLFNM_ALPHA
  else if bool_decide (keyword = str "xdigit") then Some CURLFNM_XDIGIT
  else if bool_decide (keyword = str "print") then Some CURLFNM_PRINT
  else if bool_decide (keyword = str "graph") then Some CURLFNM_GRAPH
  else if bool_decide (keyword = str "space") then Some CURLFNM_SPACE
  else if bool_decide (keyword = str "blank") then Some CURLFNM_BLANK
  else if bool_decide (keyword = str "upper") then Some CURLFNM_UPPER
  else if bool_decide (keyword = str "lower") then Some CURLFNM_LOWER
  else None.

(** [SETCHARSET_FAIL] is [None] inside; the pattern and the set of a success.
    The keyword has room for 10 bytes. *)
Definition parsekeyword (pattern : list Z) (cs : charset) : option (option (list Z * charset)) :=
  match keyword_loop 10 false [] pattern with
  | None => Some None
  | Some (keyword, p) =>
      match keyword_key keyword with
      | None => Some None
      | Some k => cs ← cs_set cs k; Some (Some (p, cs))
      end
  end.

Definition charclass (c : Z) : char_class :=
  if ISUPPER c then CCLASS_UPPER else if ISLOWER c then CCLASS_LOWER else if ISDIGIT c then CCLASS_DIGIT else CCLASS_OTHER.

(** [while(c++ != endrange)], with [n] the characters between them. *)
Fixpoint range_loop (n : nat) (c : Z) (cc : char_class) (cs : charset) : option charset :=
  match n with
  | O => Some cs
  | S n =>
      let c := u8 (c + 1) in
      cs ← (if decide (charclass c = cc) then cs_set cs c else Some cs);
      range_loop n c cc cs
  end.

Definition setcharorrange (pp : list Z) (cs : charset) : option (list Z * charset) :=
  let c := deref pp in
  let p := drop 1 pp in
  cs ← cs_set cs c;
  if ISALNUM c && (deref p =? 45) then
    let p := drop 1 p in
    let cc := charclass c in
    let endrange := deref p in
    let p := drop 1 p in
    let '(endrange, p) := if endrange =? 92 then (deref p, drop 1 p) else (endrange, p) in
    if (endrange >=? c) && bool_decide (charclass endrange = cc) then
      cs ← range_loop (Z.to_nat (endrange - c)) c cc cs;
      Some (p, cs)
    else Some (drop 1 pp, cs)
  else Some (drop 1 pp, cs).

(** The loop of [setcharset]; every round takes a byte.  [None] inside is
    [SETCHARSET_FAIL], and [p] of a success is at the closing bracket. *)
Fixpoint setcharset_loop (fuel : nat) (state : setcharset_state) (something_found : bool) (p : list Z) (cs : charset)
    : option (option (list Z * charset)) :=
  let c := deref p in
  if c =? 0 then Some None
  else
    match fuel with
    | O => None
    | S fuel =>
        match state with
        | CURLFNM_SCHS_DEFAULT =>
            if c =? 93 then
              if something_found then Some (Some (p, cs))
              else
                cs ← cs_set cs c;
                setcharset_loop fuel CURLFNM_SCHS_RIGHTBR true (drop 1 p) cs
            else if c =? 91 then
              kw ← (if at_ p 1 =? 58 then parsekeyword (drop 2 p) cs else Some None);
              match kw with
              | Some (pp, cs) => setcharset_loop fuel state true pp cs
              | None => cs ← cs_set cs c; setcharset_loop fuel state true (drop 1 p) cs
              end
            else if (c =? 94) || (c =? 33) then
              neg ← cs_has cs CURLFNM_NEGATE;
              if negb something_found then
                if (neg : bool) then cs ← cs_set cs c; setcharset_loop fuel state true (drop 1 p) cs
                else cs ← cs_set cs CURLFNM_NEGATE; setcharset_loop fuel state false (drop 1 p) cs
              else cs ← cs_set cs c; setcharset_loop fuel state something_found (drop 1 p) cs
            else if c =? 92 then
              let p := drop 1 p in
              if negb (deref p =? 0) then '(p, cs) ← setcharorrange p cs; setcharset_loop fuel state true p cs
              else cs ← cs_set cs 92; setcharset_loop fuel state true p cs
            else '(p, cs) ← setcharorrange p cs; setcharset_loop fuel state true p cs
        | CURLFNM_SCHS_RIGHTBR =>
            if c =? 91 then cs ← cs_set cs c; setcharset_loop fuel CURLFNM_SCHS_RIGHTBRLEFTBR something_found (drop 1 p) cs
            else if c =? 93 then Some (Some (p, cs))
            else if ISPRINT c then cs ← cs_set cs c; setcharset_loop fuel CURLFNM_SCHS_DEFAULT something_found (drop 1 p) cs
            else Some None
        | CURLFNM_SCHS_RIGHTBRLEFTBR =>
            if c =? 93 then Some (Some (p, cs))
            else cs ← cs_set cs c; setcharset_loop fuel CURLFNM_SCHS_DEFAULT something_found (drop 1 p) cs
        end
    end.

Definition setcharset (p : list Z) : option (option (list Z * charset)) :=
  setcharset_loop (length p) CURLFNM_SCHS_DEFAULT false p empty_charset.

(** What the character [s] is to a set. *)
Definition set_found (cs : charset) (s : Z) : option bool :=
  literal ← cs_has cs s;
  alnum ← cs_has cs CURLFNM_ALNUM;
  alpha ← cs_has cs CURLFNM_ALPHA;
  digit ← cs_has cs CURLFNM_DIGIT;
  xdigit ← cs_has cs CURLFNM_XDIGIT;
  print ← cs_has cs CURLFNM_PRINT;
  space ← cs_has cs CURLFNM_SPACE;
  upper ← cs_has cs CURLFNM_UPPER;
  lower ← cs_has cs CURLFNM_LOWER;
  blank ← cs_has cs CURLFNM_BLANK;
  graph ← cs_has cs CURLFNM_GRAPH;
  negate ← cs_has cs CURLFNM_NEGATE;
  let found :=
    if literal : bool then true
    else if alnum : bool then ISALNUM s
    else if alpha : bool then ISALPHA s
    else if digit : bool then ISDIGIT s
    else if xdigit : bool then ISXDIGIT s
    else if print : bool then ISPRINT s
    else if space : bool then ISBLANK s
    else if upper : bool then ISUPPER s
    else if lower : bool then ISLOWER s
    else if blank : bool then ISBLANK s
    else if graph : bool then ISGRAPH s
    else false in
  Some (if negate : bool then negb found else found).

(** * Matching *)

(** What follows a star: the pattern and the string behind the stars and the
    question marks, or the answer that is known by then. *)
Fixpoint skip_stars (p s : list Z) : list Z * list Z + bool :=
  match p with
  | [] => inr true
  | c :: p' =>
      if c =? 0 then inr true
      else if c =? 63 then if deref s =? 0 then inr false else skip_stars p' (drop 1 s)
      else if c =? 42 then skip_stars p' s
      else inl (p, s)
  end.

(** The loop over the string behind a star: [try] is the rest of the pattern. *)
Fixpoint star_loop (try : list Z -> option bool) (s : list Z) : option bool :=
  match s with
  | [] => Some false
  | c :: s' =>
      if c =? 0 then Some false
      else
        r ← try s;
        if (r : bool) then Some true else star_loop try s'
  end.

(** [loop]: every round takes a byte of the pattern; [true] is a match. *)
Fixpoint loop (fuel : nat) (p s : list Z) (maxstars : nat) : option bool :=
  let c := deref p in
  if c =? 0 then Some (deref s =? 0)
  else
    match fuel with
    | O => None
    | S fuel =>
        if c =? 42 then
          match maxstars with
          | O => Some false
          | S maxstars =>
              match skip_stars (drop 1 p) s with
              | inr r => Some r
              | inl (p, s) => star_loop (fun s => loop fuel p s maxstars) s
              end
          end
        else if c =? 63 then if deref s =? 0 then Some false else loop fuel (drop 1 p) (drop 1 s) maxstars
        else if c =? 92 then
          let p := if negb (at_ p 1 =? 0) then drop 1 p else p in
          if negb (deref s =? deref p) then Some false else loop fuel (drop 1 p) (drop 1 s) maxstars
        else if c =? 91 then
          r ← setcharset (drop 1 p);
          match r with
          | None => Some false
          | Some (pp, cs) =>
              if deref s =? 0 then Some false
              else
                found ← set_found cs (deref s);
                if (found : bool) then loop fuel (drop 1 pp) (drop 1 s) maxstars else Some false
          end
        else if negb (c =? deref s) then Some false
        else loop fuel (drop 1 p) (drop 1 s) maxstars
    end.

Definition Curl_fnmatch (pattern string : option (list Z)) : option fnmatch_result :=
  match pattern, string with
  | Some pattern, Some string =>
      r ← loop (length pattern) pattern string 2;
      Some (if (r : bool) then CURL_FNMATCH_MATCH else CURL_FNMATCH_NOMATCH)
  | _, _ => Some CURL_FNMATCH_FAIL
  end.

(** * The language of patterns *)

Inductive token := T_star | T_any | T_char (c : Z) | T_set (f : Z -> bool) | T_bad.

(** The tokens of a pattern; a set that is not closed matches nothing. *)
Fixpoint tokens (fuel : nat) (p : list Z) : option (list token) :=
  let c := deref p in
  if c =? 0 then Some []
  else
    match fuel with
    | O => None
    | S fuel =>
        if c =? 42 then cons T_star <$> tokens fuel (drop 1 p)
        else if c =? 63 then cons T_any <$> tokens fuel (drop 1 p)
        else if c =? 92 then
          let p := if negb (at_ p 1 =? 0) then drop 1 p else p in
          cons (T_char (deref p)) <$> tokens fuel (drop 1 p)
        else if c =? 91 then
          r ← setcharset (drop 1 p);
          match r with
          | None => Some [T_bad]
          | Some (pp, cs) => cons (T_set (fun x => default false (set_found cs x))) <$> tokens fuel (drop 1 pp)
          end
        else cons (T_char c) <$> tokens fuel (drop 1 p)
    end.

Inductive matches : list token -> list Z -> Prop :=
  | matches_nil : matches [] []
  | matches_star ts s1 s2 : matches ts s2 -> matches (T_star :: ts) (s1 ++ s2)
  | matches_any ts c s : matches ts s -> matches (T_any :: ts) (c :: s)
  | matches_char ts c s : matches ts s -> matches (T_char c :: ts) (c :: s)
  | matches_set ts f c s : f c = true -> matches ts s -> matches (T_set f :: ts) (c :: s).

(** The groups of stars: a star with the stars and question marks behind it. *)
Fixpoint star_groups (inside : bool) (ts : list token) : nat :=
  match ts with
  | [] => 0
  | T_star :: ts => (if inside then 0 else 1) + star_groups true ts
  | T_any :: ts => star_groups inside ts
  | _ :: ts => star_groups false ts
  end.

(** * Sets are read inside of their arrays *)

Lemma cs_set_ok cs i : zlen cs = CURLFNM_CHSET_SIZE -> 0 <= i < CURLFNM_CHSET_SIZE ->
  exists cs', cs_set cs i = Some cs' /\ zlen cs' = CURLFNM_CHSET_SIZE /\ cs' = <[Z.to_nat i := true]> cs.
Proof.
  intros Hl Hi. unfold cs_set. rewrite Hl, (proj2 (Z.leb_le _ _)), (proj2 (Z.ltb_lt _ _)) by lia. eexists. split; [done|].
  split; [|done]. unfold zlen in *. by rewrite length_insert.
Qed.

Lemma cs_has_ok cs i : zlen cs = CURLFNM_CHSET_SIZE -> 0 <= i < CURLFNM_CHSET_SIZE -> exists b, cs_has cs i = Some b.
Proof.
  intros Hl Hi. unfold cs_has. rewrite (proj2 (Z.leb_le _ _)) by lia. apply lookup_lt_is_Some_2. unfold zlen in Hl. lia.
Qed.

Lemma deref_range p : bytes_ok p -> 0 <= deref p < 256.
Proof. intros H. destruct H as [|c p Hc _]; cbn; [lia|]. unfold is_byte in Hc. lia. Qed.

Lemma bytes_drop n p : bytes_ok p -> bytes_ok (drop n p).
Proof. apply Forall_drop. Qed.

Lemma keyword_loop_suffix n : forall ddot kw p kw' p', keyword_loop n ddot kw p = Some (kw', p') -> p' `suffix_of` p /\ (length p' < length p)%nat.
Proof.
  induction n as [|n IH]; intros ddot kw p kw' p'; cbn [keyword_loop]; [done|].
  assert (Hd : deref p <> 0 -> (length (drop 1 p) < length p)%nat) by (destruct p; cbn; [done|rewrite drop_0; lia]).
  assert (Hgo : forall dd k, keyword_loop n dd k (drop 1 p) = Some (kw', p') -> p' `suffix_of` p /\ (length p' < length p)%nat).
  { intros dd k H. apply IH in H as [H1 H2]. split; [etrans; [exact H1|apply suffix_drop]|]. pose proof (suffix_length _ _ (suffix_drop p 1)). lia. }
  case_if; [case_if; [by apply Hgo|case_if; [by apply Hgo|done]]|]. case_if; [|done]. intros [= _ <-]. split; [apply suffix_drop|apply Hd; lia].
Qed.

Lemma keyword_key_range kw k : keyword_key kw = Some k -> CURLFNM_ALNUM <= k <= CURLFNM_UPPER.
Proof. unfold keyword_key. repeat case_if; intros [= <-]; by vm_compute. Qed.

Lemma parsekeyword_total p cs : zlen cs = CURLFNM_CHSET_SIZE -> exists r, parsekeyword p cs = Some r /\
  match r with Some (p', cs') => p' `suffix_of` p /\ (length p' < length p)%nat /\ zlen cs' = CURLFNM_CHSET_SIZE | None => True end.
Proof.
  intros Hl. unfold parsekeyword. destruct (keyword_loop 10 false [] p) as [[kw p']|] eqn:E; [|by eexists].
  destruct (keyword_key kw) as [k|] eqn:Ek; [|by eexists]. apply keyword_key_range in Ek. apply keyword_loop_suffix in E as [H1 H2].
  destruct (cs_set_ok cs k Hl) as (cs' & -> & Hl' & _); [unfold CURLFNM_ALNUM, CURLFNM_UPPER, CURLFNM_CHSET_SIZE, CURLFNM_CHARSET_LEN in *; lia|].
  by eexists.
Qed.

Lemma range_loop_total n : forall c cc cs, zlen cs = CURLFNM_CHSET_SIZE -> exists cs', range_loop n c cc cs = Some cs' /\ zlen cs' = CURLFNM_CHSET_SIZE.
Proof.
  induction n as [|n IH]; intros c cc cs Hl; cbn [range_loop]; [by eexists|].
  pose proof (Z.mod_pos_bound (c + 1) (2 ^ 8) ltac:(lia)) as Hb. fold (u8 (c + 1)) in Hb.
  destruct (decide (charclass (u8 (c + 1)) = cc)); [|by apply IH].
  destruct (cs_set_ok cs (u8 (c + 1)) Hl) as (cs1 & -> & Hl1 & _); [unfold CURLFNM_CHSET_SIZE, CURLFNM_CHARSET_LEN; lia|].
  cbn [mbind option_bind]. by apply IH.
Qed.

Lemma setcharorrange_total p cs : bytes_ok p -> deref p <> 0 -> zlen cs = CURLFNM_CHSET_SIZE ->
  exists p' cs', setcharorrange p cs = Some (p', cs') /\ p' `suffix_of` p /\ (length p' < length p)%nat /\ zlen cs' = CURLFNM_CHSET_SIZE.
Proof.
  intros Hp Hd Hl. pose proof (deref_range p Hp) as Hr. unfold setcharorrange.
  destruct (cs_set_ok cs (deref p) Hl) as (cs1 & -> & Hl1 & _); [unfold CURLFNM_CHSET_SIZE, CURLFNM_CHARSET_LEN; lia|].
  cbn [mbind option_bind]. destruct p as [|c p]; [done|]. cbn [deref drop] in *. rewrite drop_0.
  assert (Hone : exists p' cs', Some (p, cs1) = Some (p', cs') /\ p' `suffix_of` c :: p /\ (length p' < length (c :: p))%nat /\ zlen cs' = CURLFNM_CHSET_SIZE).
  { do 2 eexists. split; [done|]. split; [by apply suffix_cons_r|]. split; [cbn; lia|done]. }
  case_if; [|done].
  assert (Hq : forall endrange q, q `suffix_of` p -> exists p' cs',
    (if (endrange >=? c) && bool_decide (charclass endrange = charclass c) then
       cs ← range_loop (Z.to_nat (endrange - c)) c (charclass c) cs1; Some (q, cs)
     else Some (p, cs1)) = Some (p', cs') /\ p' `suffix_of` c :: p /\ (length p' < length (c :: p))%nat /\ zlen cs' = CURLFNM_CHSET_SIZE).
  { intros e q Hq. case_if; [|done]. destruct (range_loop_total (Z.to_nat (e - c)) c (charclass c) cs1 Hl1) as (cs2 & -> & Hl2).
    cbn [mbind option_bind]. do 2 eexists. split; [done|]. split; [by apply suffix_cons_r|]. pose proof (suffix_length _ _ Hq). split; [cbn; lia|done]. }
  case_if; apply Hq; rewrite ?drop_drop; apply suffix_drop.
Qed.

Definition set_result_ok (p : list Z) (r : option (list Z * charset)) : Prop :=
  match r with Some (pp, cs) => pp `suffix_of` p /\ deref pp = 93 /\ zlen cs = CURLFNM_CHSET_SIZE | None => True end.

Lemma set_result_behind p q r : q `suffix_of` p -> set_result_ok q r -> set_result_ok p r.
Proof. intros Hs. destruct r as [[pp cs]|]; [|done]. intros (H1 & H2 & H3). split; [by etrans|done]. Qed.

Lemma setcharset_loop_total fuel : forall state found p cs, (length p <= fuel)%nat -> bytes_ok p -> zlen cs = CURLFNM_CHSET_SIZE ->
  exists r, setcharset_loop fuel state found p cs = Some r /\ set_result_ok p r.
Proof.
  induction fuel as [|fuel IH]; intros state found p cs Hn Hp Hl.
  { destruct p; [|cbn in Hn; lia]. by eexists. }
  pose proof (deref_range p Hp) as Hr. cbn [setcharset_loop]. destruct (Z.eqb_spec (deref p) 0) as [|Hd]; [by eexists|].
  assert (Hclose : deref p = 93 -> exists r, Some (Some (p, cs)) = Some r /\ set_result_ok p r) by (intros H; by eexists).
  assert (Hgo : forall st f q cs', q `suffix_of` p -> (length q < length p)%nat -> zlen cs' = CURLFNM_CHSET_SIZE ->
    exists r, setcharset_loop fuel st f q cs' = Some r /\ set_result_ok p r).
  { intros st f q cs' Hs Hlt Hl'. destruct (IH st f q cs') as (r & -> & Hres); [lia| |done|].
    - destruct Hs as [u ->]. by apply bytes_ok_app in Hp as [_ Hp].
    - exists r. split; [done|]. by eapply set_result_behind. }
  assert (Hset : forall i st f, 0 <= i < CURLFNM_CHSET_SIZE -> exists r, (cs' ← cs_set cs i; setcharset_loop fuel st f (drop 1 p) cs') = Some r /\ set_result_ok p r).
  { intros i st f Hi. destruct (cs_set_ok cs i Hl Hi) as (cs' & -> & Hl' & _). cbn [mbind option_bind]. apply Hgo; [apply suffix_drop| |done].
    destruct p; [done|]. cbn. rewrite drop_0. lia. }
  assert (Hci : 0 <= deref p < CURLFNM_CHSET_SIZE) by (unfold CURLFNM_CHSET_SIZE, CURLFNM_CHARSET_LEN; lia).
  assert (Hrange : forall q, q `suffix_of` p -> deref q <> 0 -> exists r,
    ('(p, cs) ← setcharorrange q cs; setcharset_loop fuel state true p cs) = Some r /\ set_result_ok p r).
  { intros q Hq Hdq. destruct (setcharorrange_total q cs) as (p' & cs' & -> & Hs & Hlt & Hl'); [|done|done|].
    - destruct Hq as [u ->]. by apply bytes_ok_app in Hp as [_ Hp].
    - cbn [mbind option_bind]. apply Hgo; [by etrans| |done]. pose proof (suffix_length _ _ Hq). lia. }
  destruct state.
  - case_if; [case_if; [by apply Hclose|by apply Hset]|]. case_if.
    + assert (Hkw : exists kw, (if at_ p 1 =? 58 then parsekeyword (drop 2 p) cs else Some None) = Some kw /\
        match kw with Some (p', cs') => p' `suffix_of` p /\ (length p' < length p)%nat /\ zlen cs' = CURLFNM_CHSET_SIZE | None => True end).
      { case_if; [|by eexists]. destruct (parsekeyword_total (drop 2 p) cs Hl) as (r & -> & H). exists r. split; [done|].
        destruct r as [[p' cs']|]; [|done]. destruct H as (H1 & H2 & H3). split; [etrans; [exact H1|apply suffix_drop]|].
        pose proof (suffix_length _ _ (suffix_drop p 2)). split; [lia|done]. }
      destruct Hkw as (kw & -> & Hkw). cbn [mbind option_bind]. destruct kw as [[p' cs']|]; [destruct Hkw as (H1 & H2 & H3); by apply Hgo|by apply Hset].
    + case_if.
      * destruct (cs_has_ok cs CURLFNM_NEGATE Hl) as [b ->]; [unfold CURLFNM_NEGATE, CURLFNM_CHSET_SIZE, CURLFNM_CHARSET_LEN; lia|].
        cbn [mbind option_bind]. case_if; [destruct b|]; apply Hset; done.
      * case_if.
        -- destruct (Z.eqb_spec (deref (drop 1 p)) 0) as [Hz|Hz]; cbn [negb].
           ++ apply Hset. unfold CURLFNM_CHSET_SIZE, CURLFNM_CHARSET_LEN. lia.
           ++ apply Hrange; [apply suffix_drop|done].
        -- by apply Hrange.
  - case_if; [by apply Hset|]. case_if; [by apply Hclose|]. case_if; [by apply Hset|by eexists].
  - case_if; [by apply Hclose|by apply Hset].
Qed.

Lemma setcharset_total p : bytes_ok p -> exists r, setcharset p = Some r /\ set_result_ok p r.
Proof. intros Hp. by apply setcharset_loop_total. Qed.

Lemma set_found_total cs x : zlen cs = CURLFNM_CHSET_SIZE -> 0 <= x < 256 -> exists b, set_found cs x = Some b.
Proof.
  intros Hl Hx. unfold set_found.
  assert (H : forall i, 0 <= i < CURLFNM_CHSET_SIZE -> exists b, cs_has cs i = Some b) by (intros; by apply cs_has_ok).
  destruct (H x) as [b ->]; [unfold CURLFNM_CHSET_SIZE, CURLFNM_CHARSET_LEN; lia|].
  repeat match goal with |- context [cs_has cs ?i] => destruct (H i) as [? ->]; [by vm_compute|] end. cbn [mbind option_bind]. by eexists.
Qed.

(** * The matcher decides the language *)

Lemma drop_1_lt (p : list Z) : deref p <> 0 -> (length (drop 1 p) < length p)%nat.
Proof. destruct p; cbn; [done|]. rewrite drop_0. lia. Qed.

Lemma drop_2_lt (p : list Z) : deref p <> 0 -> (length (drop 1 (drop 1 p)) < length p)%nat.
Proof. intros H. pose proof (drop_1_lt p H). rewrite (length_drop (drop 1 p)). lia. Qed.

(** The pattern behind a backslash and what it escapes. *)
Definition escape_at (p : list Z) : list Z := if negb (at_ p 1 =? 0) then drop 1 p else p.

Lemma escape_lt p : deref p <> 0 -> (length (drop 1 (escape_at p)) < length p)%nat.
Proof. intros H. unfold escape_at. case_if; [by apply drop_2_lt|by apply drop_1_lt]. Qed.

Lemma escape_suffix p : drop 1 (escape_at p) `suffix_of` p.
Proof. unfold escape_at. case_if; [|apply suffix_drop]. rewrite drop_drop. apply suffix_drop. Qed.

Lemma escape_nonzero p : deref p <> 0 -> deref (escape_at p) <> 0.
Proof. unfold escape_at. intros H. by destruct (Z.eqb_spec (at_ p 1) 0). Qed.

Lemma tokens_total fuel : forall p, (length p <= fuel)%nat -> bytes_ok p -> exists ts, tokens fuel p = Some ts.
Proof.
  induction fuel as [|fuel IH]; intros p Hn Hp; (destruct (Z.eqb_spec (deref p) 0) as [E|Hd]; [exists []; destruct p as [|c p]; cbn in *; [done|by rewrite E]|]).
  { destruct p; [done|cbn in Hn; lia]. }
  cbn [tokens]. rewrite (proj2 (Z.eqb_neq _ 0) Hd).
  assert (Hgo : forall t q, q `suffix_of` p -> (length q < length p)%nat -> exists ts, cons t <$> tokens fuel q = Some ts).
  { intros t q Hq Hl. destruct (IH q) as [ts ->]; [lia| |by eexists]. destruct Hq as [u ->]. by apply bytes_ok_app in Hp as [_ Hp]. }
  pose proof (drop_1_lt p Hd) as H1. pose proof (suffix_drop p 1) as Hs1.
  case_if; [by apply Hgo|]. case_if; [by apply Hgo|]. case_if; [apply Hgo; [apply escape_suffix|by apply escape_lt]|].
  case_if; [|by apply Hgo]. destruct (setcharset_total (drop 1 p)) as (r & -> & Hr); [by apply bytes_drop|]. cbn [mbind option_bind].
  destruct r as [[pp cs]|]; [|by eexists]. destruct Hr as (Hs & _ & _). apply Hgo; [do 2 (etrans; [|done]); apply suffix_drop|].
  pose proof (suffix_length _ _ Hs). rewrite length_drop. lia.
Qed.

(** Two sufficient rounds give the same tokens. *)
Lemma tokens_fuel f1 : forall f2 p ts, (length p <= f2)%nat -> bytes_ok p -> tokens f1 p = Some ts -> tokens f2 p = Some ts.
Proof.
  induction f1 as [|f1 IH]; intros f2 p ts Hn Hp; cbn [tokens].
  { destruct (Z.eqb_spec (deref p) 0) as [E|]; [|done]. intros [= <-]. destruct f2; cbn [tokens]; by rewrite E. }
  destruct (Z.eqb_spec (deref p) 0) as [E|Hd]; [intros [= <-]; destruct f2; cbn [tokens]; by rewrite E|].
  destruct f2 as [|f2]; [destruct p; [done|cbn in Hn; lia]|]. cbn [tokens]. rewrite (proj2 (Z.eqb_neq _ 0) Hd).
  assert (Hgo : forall t q, q `suffix_of` p -> (length q < length p)%nat -> cons t <$> tokens f1 q = Some ts -> cons t <$> tokens f2 q = Some ts).
  { intros t q Hq Hl. destruct (tokens f1 q) as [ts'|] eqn:E; [|done]. intros [= <-]. apply (IH f2) in E as ->; [done|lia|].
    destruct Hq as [u ->]. by apply bytes_ok_app in Hp as [_ Hp]. }
  pose proof (drop_1_lt p Hd) as H1. pose proof (suffix_drop p 1) as Hs1.
  case_if; [by apply Hgo|]. case_if; [by apply Hgo|]. case_if; [apply Hgo; [apply escape_suffix|by apply escape_lt]|].
  case_if; [|by apply Hgo]. destruct (setcharset_total (drop 1 p)) as (r & -> & Hr); [by apply bytes_drop|]. cbn [mbind option_bind].
  destruct r as [[pp cs]|]; [|done]. destruct Hr as (Hs & _ & _). apply Hgo; [do 2 (etrans; [|done]); apply suffix_drop|].
  pose proof (suffix_length _ _ Hs). rewrite length_drop. lia.
Qed.

Definition is_wild (t : token) : bool := match t with T_star | T_any => true | _ => false end.

Fixpoint any_count (ts : list token) : nat :=
  match ts with [] => 0 | T_any :: ts => S (any_count ts) | _ :: ts => any_count ts end.

(** Wild tokens in front take a part of the string that is long enough. *)
Lemma matches_wild run ts s : forallb is_wild run = true ->
  matches (T_star :: run ++ ts) s <-> exists s1 s2, s = s1 ++ s2 /\ (any_count run <= length s1)%nat /\ matches ts s2.
Proof.
  revert s. induction run as [|t run IH]; intros s Hw; cbn [app forallb] in *.
  { split.
    - inversion 1; subst. do 2 eexists. split; [done|]. split; [cbn; lia|done].
    - intros (s1 & s2 & -> & _ & H). by constructor. }
  apply andb_prop in Hw as [Ht Hw]. destruct t; try done.
  - split.
    + inversion 1 as [|ts' s1 s2 H1| | |]; subst. apply (IH s2 Hw) in H1 as (s3 & s4 & -> & Hc & Hm).
      exists (s1 ++ s3), s4. rewrite app_assoc. split; [done|]. rewrite length_app. cbn [any_count]. split; [lia|done].
    + intros (s1 & s2 & -> & Hc & Hm). apply (matches_star _ [] (s1 ++ s2)). apply IH; [done|]. by exists s1, s2.
  - split.
    + inversion 1 as [|ts' s1 s2 H1| | |]; subst. inversion H1 as [| |ts' c s3 H2| |]; subst.
      assert (H3 : matches (T_star :: run ++ ts) s3) by apply (matches_star _ [] _ H2).
      apply (IH s3 Hw) in H3 as (s4 & s5 & -> & Hc & Hm). exists (s1 ++ c :: s4), s5. split; [by rewrite <- app_assoc|].
      rewrite length_app. cbn [any_count length]. split; [lia|done].
    + intros (s1 & s2 & -> & Hc & Hm). cbn [any_count] in Hc. destruct s1 as [|c s1]; [cbn in Hc; lia|].
      cbn [length] in Hc. assert (H : matches (T_star :: run ++ ts) (s1 ++ s2)) by (apply IH; [done|]; exists s1, s2; split; [done|split; [lia|done]]).
      inversion H as [|ts' s3 s4 H1 E1 E2| | |]; subst. rewrite <- app_comm_cons, <- E2. change (c :: s3 ++ s4) with ((c :: s3) ++ s4).
      destruct (exists_last (l := c :: s3)) as (l & x & ->); [done|]. rewrite <- app_assoc. constructor. by constructor.
Qed.

(** What the loop over the stars and question marks behind a star finds. *)
Definition skip_post (fuel : nat) (p s : list Z) (ts : list token) (r : list Z * list Z + bool) : Prop :=
  match r with
  | inr true => forallb is_wild ts = true /\ (any_count ts <= length s)%nat
  | inr false => exists run ts', ts = run ++ ts' /\ forallb is_wild run = true /\ (length s < any_count run)%nat
  | inl (p', s') => exists run ts', ts = run ++ ts' /\ forallb is_wild run = true /\ s' = drop (any_count run) s /\
      (any_count run <= length s)%nat /\ p' `suffix_of` p /\ deref p' <> 0 /\ deref p' <> 42 /\ deref p' <> 63 /\ tokens fuel p' = Some ts'
  end.

Lemma skip_post_cons fuel fuel' c p s s0 t ts r : skip_post fuel p s ts r -> is_wild t = true -> (length p <= fuel')%nat -> bytes_ok p ->
  (any_count [t] + length s = length s0)%nat -> s = drop (any_count [t]) s0 -> skip_post fuel' (c :: p) s0 (t :: ts) r.
Proof.
  intros H Ht Hf Hp Hl Hs.
  assert (Hc : forall l, any_count (t :: l) = (any_count [t] + any_count l)%nat) by (intros l; by destruct t).
  destruct r as [[p' s']|[]]; cbn [skip_post] in *.
  - destruct H as (run & ts' & -> & Hw & -> & Hle & Hsuf & H1 & H2 & H3 & H4). exists (t :: run), ts'. split; [done|].
    cbn [forallb]. rewrite Ht, Hc. split; [done|]. split; [by rewrite Hs, drop_drop|]. split; [lia|]. split; [by apply suffix_cons_r|].
    split; [done|]. split; [done|]. split; [done|]. eapply tokens_fuel; [|by destruct Hsuf as [u ->]; apply bytes_ok_app in Hp as [_ Hp]|exact H4].
    pose proof (suffix_length _ _ Hsuf). lia.
  - destruct H as [H1 H2]. cbn [forallb]. rewrite Ht, Hc. split; [done|lia].
  - destruct H as (run & ts' & -> & Hw & Hle). exists (t :: run), ts'. cbn [forallb]. rewrite Ht, Hc. split; [done|]. split; [done|lia].
Qed.

Lemma skip_stars_spec p : forall fuel s ts, (length p <= fuel)%nat -> bytes_ok p -> Forall is_char s -> tokens fuel p = Some ts ->
  skip_post fuel p s ts (skip_stars p s).
Proof.
  induction p as [|c p IH]; intros fuel s ts Hn Hp Hs Ht; cbn [skip_stars].
  { assert (ts = []) as -> by (destruct fuel; cbn in Ht; by injection Ht as <-). cbn. split; [done|lia]. }
  cbn [length] in Hn. destruct fuel as [|fuel]; [lia|]. pose proof Ht as Ht0. cbn [tokens deref] in Ht.
  apply Forall_cons in Hp as [Hc Hp]. destruct (Z.eqb_spec c 0) as [->|H0].
  { injection Ht as <-. cbn. split; [done|lia]. }
  destruct (Z.eqb_spec c 63) as [->|H63].
  - cbn [Z.eqb Pos.eqb drop] in Ht. rewrite drop_0 in Ht. destruct (tokens fuel p) as [ts'|] eqn:E; [|done]. injection Ht as <-.
    destruct s as [|x s].
    + cbn [deref Z.eqb]. exists [T_any], ts'. split; [done|]. split; [done|]. cbn. lia.
    + apply Forall_cons in Hs as [Hx Hs]. cbn [deref drop]. rewrite drop_0, (proj2 (Z.eqb_neq x 0)) by (unfold is_char in Hx; lia).
      eapply skip_post_cons; [apply (IH fuel s ts'); [lia|done..]|done|lia|done|cbn; lia|cbn; by rewrite drop_0].
  - destruct (Z.eqb_spec c 42) as [->|H42].
    + cbn [drop] in Ht. rewrite drop_0 in Ht. destruct (tokens fuel p) as [ts'|] eqn:E; [|done]. injection Ht as <-.
      eapply skip_post_cons; [apply (IH fuel s ts'); [lia|done..]|done|lia|done|cbn; lia|by cbn].
    + exists [], ts. cbn [app any_count drop forallb]. rewrite drop_0. split_and!; try done; cbn; lia.
Qed.

(** The answer of the loop at a place. *)
Definition decides (b : bool) (ts : list token) (s : list Z) (maxstars : nat) : Prop :=
  b = true <-> matches ts s /\ (star_groups false ts <= maxstars)%nat.

Lemma star_groups_wild run ts : forallb is_wild run = true -> star_groups true (run ++ ts) = star_groups true ts.
Proof. induction run as [|t run IH]; intros H; [done|]. cbn [forallb] in H. apply andb_prop in H as [Ht H]. destruct t; try done; cbn; by rewrite IH. Qed.

Lemma star_groups_consume ts : match ts with (T_star | T_any) :: _ => False | _ => True end -> star_groups true ts = star_groups false ts.
Proof. by destruct ts as [|[] ts]. Qed.

Lemma star_loop_spec try ts s k : Forall is_char s -> (forall s', s' `suffix_of` s -> exists b, try s' = Some b /\ decides b ts s' k) ->
  ~ matches ts [] -> exists b, star_loop try s = Some b /\
    (b = true <-> (exists s1 s2, s = s1 ++ s2 /\ matches ts s2) /\ (star_groups false ts <= k)%nat).
Proof.
  intros Hs Ht Hne. induction Hs as [|c s Hc Hs IH]; cbn [star_loop].
  { exists false. split; [done|]. split; [done|]. intros [(s1 & s2 & E & Hm) _]. symmetry in E. apply app_eq_nil in E as [_ ->]. done. }
  rewrite (proj2 (Z.eqb_neq c 0)) by (unfold is_char in Hc; lia).
  destruct (Ht (c :: s)) as (b & -> & Hb); [done|]. cbn [mbind option_bind]. destruct b.
  - exists true. split; [done|]. split; [|done]. intros _. destruct Hb as [Hb _]. destruct (Hb eq_refl) as [Hm Hk]. split; [|done]. by exists [], (c :: s).
  - destruct IH as (b & -> & Hb2). { intros s' Hs'. apply Ht. by apply suffix_cons_r. }
    exists b. split; [done|]. rewrite Hb2. split.
    + intros [(s1 & s2 & -> & Hm) Hk]. split; [|done]. exists (c :: s1), s2. done.
    + intros [(s1 & s2 & E & Hm) Hk]. split; [|done]. destruct s1 as [|x s1].
      * cbn in E. subst s2. destruct Hb as [_ Hb]. discriminate Hb. by split.
      * injection E as <- ->. by exists s1, s2.
Qed.

Lemma consume_nil ts : match ts with [] | (T_star | T_any) :: _ => False | _ => True end -> ~ matches ts [].
Proof. intros H Hm. inversion Hm; subst; done. Qed.

(** The first token of a pattern that does not start with a wild one. *)
Lemma tokens_head fuel p ts : tokens fuel p = Some ts -> deref p <> 0 -> deref p <> 42 -> deref p <> 63 ->
  match ts with [] | (T_star | T_any) :: _ => False | _ => True end.
Proof.
  intros H H0 H1 H2. destruct fuel as [|fuel]; cbn [tokens] in H; rewrite (proj2 (Z.eqb_neq _ _) H0) in H; [done|].
  rewrite (proj2 (Z.eqb_neq _ _) H1), (proj2 (Z.eqb_neq _ _) H2) in H. case_if_in H; [destruct (tokens fuel _); [|done]; by injection H as <-|].
  case_if_in H; [|destruct (tokens fuel _); [|done]; by injection H as <-].
  destruct (setcharset _) as [[[pp cs]|]|]; cbn [mbind option_bind] in H; [|by injection H as <-|done].
  destruct (tokens fuel _); [|done]. by injection H as <-.
Qed.

Lemma decides_consume (f : Z -> bool) t ts x s k b : (forall c s', matches (t :: ts) (c :: s') <-> f c = true /\ matches ts s') ->
  star_groups false (t :: ts) = star_groups false ts -> f x = true -> decides b ts s k -> decides b (t :: ts) (x :: s) k.
Proof. intros Hm Hg Hf Hd. unfold decides in *. rewrite Hg, Hm, Hd. tauto. Qed.

Lemma decides_mismatch t ts s k : (matches (t :: ts) s -> False) -> decides false (t :: ts) s k.
Proof. intros H. split; [done|]. by intros [? _]. Qed.

Lemma matches_char_iff d ts c s : matches (T_char d :: ts) (c :: s) <-> (c =? d) = true /\ matches ts s.
Proof.
  rewrite Z.eqb_eq. split; [by inversion 1|]. intros [-> H]. by constructor.
Qed.

Lemma matches_set_iff f ts c s : matches (T_set f :: ts) (c :: s) <-> f c = true /\ matches ts s.
Proof. split; [by inversion 1|]. intros [H1 H2]. by constructor. Qed.

Lemma loop_spec fuel : forall p s k ts, (length p <= fuel)%nat -> bytes_ok p -> Forall is_char s -> tokens fuel p = Some ts ->
  exists b, loop fuel p s k = Some b /\ decides b ts s k.
Proof.
  induction fuel as [|fuel IH]; intros p s k ts Hn Hp Hs Ht; (destruct (Z.eqb_spec (deref p) 0) as [E|Hd];
    [assert (ts = []) as -> by (destruct p as [|c p]; cbn in Ht, E; [by injection Ht as <-|rewrite E in Ht; by injection Ht as <-]);
     exists (deref s =? 0); split; [destruct p as [|c p]; cbn in *; [done|by rewrite E]|]; split;
     [intros Hz; split; [|cbn; lia]; destruct Hs as [|c s Hc _]; [constructor|cbn in Hz; zb_hyps; unfold is_char in Hc; lia]|intros [Hm _]; by inversion Hm]|]).
  { destruct p; [done|cbn in Hn; lia]. }
  cbn [tokens] in Ht. cbn [loop]. rewrite (proj2 (Z.eqb_neq _ 0) Hd) in *.
  pose proof (drop_1_lt p Hd) as Hlt1. assert (Hp1 : bytes_ok (drop 1 p)) by by apply bytes_drop.
  assert (Hs1 : Forall is_char (drop 1 s)) by by apply Forall_drop.
  destruct (Z.eqb_spec (deref p) 42) as [E42|H42].
  { (* a star *)
    destruct (tokens fuel (drop 1 p)) as [ts1|] eqn:Et; [|done]. injection Ht as <-.
    destruct k as [|k].
    { exists false. split; [done|]. split; [done|]. intros [_ Hk]. cbn in Hk. lia. }
    pose proof (skip_stars_spec (drop 1 p) fuel s ts1 ltac:(lia) Hp1 Hs Et) as Hskip.
    destruct (skip_stars (drop 1 p) s) as [[p' s']|[]]; cbn [skip_post] in Hskip.
    - destruct Hskip as (run & ts' & -> & Hw & -> & Hle & Hsuf & H1 & H2 & H3 & H4).
      assert (Hp' : bytes_ok p') by (destruct Hsuf as [u Hu]; rewrite Hu in Hp1; by apply bytes_ok_app in Hp1 as [_ Hp1]).
      pose proof (suffix_length _ _ Hsuf) as Hsl. pose proof (tokens_head _ _ _ H4 H1 H2 H3) as Hhead.
      destruct (star_loop_spec (fun s => loop fuel p' s k) ts' (drop (any_count run) s) k) as (b & -> & Hb).
      + by apply Forall_drop.
      + intros s'' Hs''. apply IH; [lia|done| |done]. destruct Hs'' as [u Hu].
        assert (Hd' : Forall is_char (drop (any_count run) s)) by by apply Forall_drop. rewrite Hu in Hd'. by apply Forall_app in Hd' as [_ Hd'].
      + by apply consume_nil.
      + exists b. split; [done|]. unfold decides. rewrite Hb, matches_wild by done. cbn [star_groups]. rewrite star_groups_wild by done.
        rewrite star_groups_consume by by destruct ts' as [|[] ts']. split.
        * intros [(s1 & s2 & E & Hm) Hk]. split; [|lia]. exists (take (any_count run) s ++ s1), s2. rewrite <- app_assoc, <- E, take_drop.
          split; [done|]. rewrite length_app, length_take. split; [lia|done].
        * intros [(s1 & s2 & -> & Hc & Hm) Hk]. split; [|lia]. exists (drop (any_count run) s1), s2. split; [|done].
          by rewrite drop_app_le.
    - destruct Hskip as [Hw Hc]. exists true. split; [done|]. split; [|done]. intros _.
      assert (E : ts1 = ts1 ++ []) by by rewrite app_nil_r. split.
      + rewrite E. apply matches_wild; [done|]. exists s, []. rewrite app_nil_r. split; [done|]. split; [done|constructor].
      + cbn [star_groups]. rewrite E, star_groups_wild by done. cbn. lia.
    - destruct Hskip as (run & ts' & -> & Hw & Hc). exists false. split; [done|]. split; [done|]. intros [Hm _].
      apply matches_wild in Hm as (s1 & s2 & -> & Hc2 & _); [|done]. rewrite length_app in Hc. lia. }
  destruct (Z.eqb_spec (deref p) 63) as [E63|H63].
  { (* a question mark *)
    destruct (tokens fuel (drop 1 p)) as [ts1|] eqn:Et; [|done]. injection Ht as <-. destruct s as [|x s].
    - exists false. split; [done|]. split; [done|]. intros [Hm _]. by inversion Hm.
    - apply Forall_cons in Hs as [Hx Hs]. cbn [deref drop] in *. rewrite drop_0 in *. rewrite (proj2 (Z.eqb_neq x 0)) by (unfold is_char in Hx; lia).
      destruct (IH (drop 1 p) s k ts1) as (b & -> & Hb); [lia|done..|]. exists b. split; [done|].
      apply (decides_consume (fun _ => true)); [|done|done|done]. intros c s'. split; [by inversion 1|]. intros [_ H]. by constructor. }
  (* a character *)
  assert (Hchar : forall d q ts1, d <> 0 -> q `suffix_of` p -> (length q < length p)%nat -> tokens fuel q = Some ts1 ->
    exists b, (if negb (d =? deref s) then Some false else loop fuel q (drop 1 s) k) = Some b /\ decides b (T_char d :: ts1) s k).
  { intros d q ts1 Hd0 Hq Hql Hqt. destruct s as [|x s].
    - cbn [deref]. rewrite (proj2 (Z.eqb_neq d 0)) by done. exists false. split; [done|]. apply decides_mismatch. by inversion 1.
    - cbn [deref drop]. rewrite drop_0. destruct (Z.eqb_spec d x) as [->|Hne]; cbn [negb].
      + destruct (IH q s k ts1) as (b & -> & Hb); [lia| |by apply Forall_cons in Hs as [_ Hs]|done|].
        { destruct Hq as [u ->]. by apply bytes_ok_app in Hp as [_ Hp]. }
        exists b. split; [done|]. apply (decides_consume (fun c => c =? x)); [apply matches_char_iff|done|by apply Z.eqb_refl|done].
      + exists false. split; [done|]. apply decides_mismatch. intros Hm. by inversion Hm. }
  destruct (Z.eqb_spec (deref p) 92) as [E92|H92].
  { fold (escape_at p) in *. destruct (tokens fuel (drop 1 (escape_at p))) as [ts1|] eqn:Et; [|done]. injection Ht as <-.
    rewrite (Z.eqb_sym (deref s)). apply Hchar; [by apply escape_nonzero|apply escape_suffix|by apply escape_lt|done]. }
  destruct (Z.eqb_spec (deref p) 91) as [E91|H91].
  2: { destruct (tokens fuel (drop 1 p)) as [ts1|] eqn:Et; [|done]. injection Ht as <-. apply Hchar; [done|apply suffix_drop|done|done]. }
  (* a set *)
  destruct (setcharset_total (drop 1 p) Hp1) as (r & Er & Hr). rewrite Er in *. cbn [mbind option_bind] in *.
  destruct r as [[pp cs]|].
  2: { injection Ht as <-. exists false. split; [done|]. apply decides_mismatch. by inversion 1. }
  destruct (tokens fuel (drop 1 pp)) as [ts1|] eqn:Et; [|done]. injection Ht as <-. destruct Hr as (Hsuf & _ & Hcl). destruct s as [|x s].
  - exists false. split; [done|]. apply decides_mismatch. by inversion 1.
  - apply Forall_cons in Hs as [Hx Hs]. cbn [deref drop]. rewrite drop_0, (proj2 (Z.eqb_neq x 0)) by (unfold is_char in Hx; lia).
    destruct (set_found_total cs x Hcl) as [f Ef]; [unfold is_char in Hx; lia|]. rewrite Ef. cbn [mbind option_bind]. destruct f.
    + destruct (IH (drop 1 pp) s k ts1) as (b & -> & Hb); [| |done|done|].
      * pose proof (suffix_length _ _ Hsuf). rewrite length_drop. lia.
      * apply bytes_drop. destruct Hsuf as [u Hu]. rewrite Hu in Hp1. by apply bytes_ok_app in Hp1 as [_ Hp1].
      * exists b. split; [done|]. eapply (decides_consume _ _ _ _ _ _ _ (matches_set_iff _ _)); [done|by rewrite Ef|done].
    + exists false. split; [done|]. apply decides_mismatch. intros Hm. inversion Hm; subst. rewrite Ef in *. done.
Qed.

(** * Patterns that are written *)

(** A set in brackets holds characters, ranges and at most one keyword. *)
Inductive set_item := I_char (c : Z) | I_range (a b : Z).

Inductive keyword := K_alnum | K_alpha | K_digit | K_xdigit | K_print | K_space | K_upper | K_lower | K_blank | K_graph.

Inductive fn_elem := E_star | E_any | E_char (c : Z) | E_set (negate : bool) (items : list set_item) (kw : option keyword).

Definition keyword_name (k : keyword) : list Z :=
  match k with
  | K_alnum => str "alnum" | K_alpha => str "alpha" | K_digit => str "digit" | K_xdigit => str "xdigit" | K_print => str "print"
  | K_space => str "space" | K_upper => str "upper" | K_lower => str "lower" | K_blank => str "blank" | K_graph => str "graph"
  end.

Definition keyword_flag (k : keyword) : Z :=
  match k with
  | K_alnum => CURLFNM_ALNUM | K_alpha => CURLFNM_ALPHA | K_digit => CURLFNM_DIGIT | K_xdigit => CURLFNM_XDIGIT | K_print => CURLFNM_PRINT
  | K_space => CURLFNM_SPACE | K_upper => CURLFNM_UPPER | K_lower => CURLFNM_LOWER | K_blank => CURLFNM_BLANK | K_graph => CURLFNM_GRAPH
  end.

(** The characters of a keyword; [space] stands for the blanks only. *)
Definition in_keyword (k : keyword) (x : Z) : bool :=
  match k with
  | K_alnum => ISALNUM x | K_alpha => ISALPHA x | K_digit => ISDIGIT x | K_xdigit => ISXDIGIT x | K_print => ISPRINT x
  | K_space => ISBLANK x | K_upper => ISUPPER x | K_lower => ISLOWER x | K_blank => ISBLANK x | K_graph => ISGRAPH x
  end.

(** What needs a backslash in a set, and outside of one. *)
Definition set_special (c : Z) : bool := existsb (Z.eqb c) (str "[]!^-\").
Definition fn_special (c : Z) : bool := existsb (Z.eqb c) (str "*?[\").

Definition write_char (special : Z -> bool) (c : Z) : list Z := if special c then [92; c] else [c].

Definition write_item (i : set_item) : list Z :=
  match i with I_char c => write_char set_special c | I_range a b => [a; 45; b] end.

Definition write_keyword (kw : option keyword) : list Z :=
  match kw with Some k => str "[:" ++ keyword_name k ++ str ":]" | None => [] end.

Definition write_elem (e : fn_elem) : list Z :=
  match e with
  | E_star => [42]
  | E_any => [63]
  | E_char c => write_char fn_special c
  | E_set negate items kw => [91] ++ (if negate then [33] else []) ++ concat (map write_item items) ++ write_keyword kw ++ [93]
  end.

Definition write_pattern (es : list fn_elem) : list Z := concat (map write_elem es).

Definition in_item (x : Z) (i : set_item) : bool := match i with I_char c => x =? c | I_range a b => between a x b end.

Definition in_set (negate : bool) (items : list set_item) (kw : option keyword) (x : Z) : bool :=
  xorb negate (existsb (in_item x) items || match kw with Some k => in_keyword k x | None => false end).

(** A range has two ends of one class, a set holds something. *)
Definition item_ok (i : set_item) : Prop :=
  match i with I_char c => is_char c | I_range a b => a <= b /\ charclass a <> CCLASS_OTHER /\ charclass a = charclass b end.

Definition elem_ok (e : fn_elem) : Prop :=
  match e with
  | E_char c => is_char c
  | E_set _ items kw => Forall item_ok items /\ (items <> [] \/ kw <> None)
  | _ => True
  end.

(** The strings of a pattern. *)
Inductive in_pattern : list fn_elem -> list Z -> Prop :=
  | in_nil : in_pattern [] []
  | in_star es s1 s2 : in_pattern es s2 -> in_pattern (E_star :: es) (s1 ++ s2)
  | in_any es c s : in_pattern es s -> in_pattern (E_any :: es) (c :: s)
  | in_char es c s : in_pattern es s -> in_pattern (E_char c :: es) (c :: s)
  | in_brackets es negate items kw c s : in_set negate items kw c = true -> in_pattern es s -> in_pattern (E_set negate items kw :: es) (c :: s).

(** A set of flags as a function. *)
Definition flags (cs : charset) (f : Z -> bool) : Prop :=
  zlen cs = CURLFNM_CHSET_SIZE /\ forall i, 0 <= i < CURLFNM_CHSET_SIZE -> cs_has cs i = Some (f i).

Lemma flags_empty : flags empty_charset (fun _ => false).
Proof.
  split; [done|]. intros i Hi. unfold cs_has, empty_charset. rewrite (proj2 (Z.leb_le _ _)) by lia.
  apply lookup_replicate_2. unfold CURLFNM_CHSET_SIZE, CURLFNM_CHARSET_LEN in Hi. lia.
Qed.

Lemma flags_ext cs f g : flags cs f -> (forall i, 0 <= i < CURLFNM_CHSET_SIZE -> f i = g i) -> flags cs g.
Proof. intros [H1 H2] He. split; [done|]. intros i Hi. by rewrite <- He, H2. Qed.

Lemma flags_set cs f i : flags cs f -> 0 <= i < CURLFNM_CHSET_SIZE -> exists cs', cs_set cs i = Some cs' /\ flags cs' (fun j => f j || (j =? i)).
Proof.
  intros [Hl Hf] Hi. destruct (cs_set_ok cs i Hl Hi) as (cs' & E & Hl' & ->). exists (<[Z.to_nat i:=true]> cs). split; [done|]. split; [done|].
  intros j Hj. specialize (Hf j Hj). unfold cs_has in *. rewrite (proj2 (Z.leb_le 0 j)) in * by lia.
  destruct (Z.eqb_spec j i) as [->|Hne].
  - rewrite list_lookup_insert_eq by (unfold zlen in Hl; lia). by rewrite orb_true_r.
  - rewrite list_lookup_insert_ne by lia. by rewrite orb_false_r.
Qed.

Lemma set_found_flags cs f x : flags cs f -> 0 <= x < 256 -> set_found cs x = Some (xorb (f CURLFNM_NEGATE) (
  if f x then true
  else if f CURLFNM_ALNUM then ISALNUM x
  else if f CURLFNM_ALPHA then ISALPHA x
  else if f CURLFNM_DIGIT then ISDIGIT x
  else if f CURLFNM_XDIGIT then ISXDIGIT x
  else if f CURLFNM_PRINT then ISPRINT x
  else if f CURLFNM_SPACE then ISBLANK x
  else if f CURLFNM_UPPER then ISUPPER x
  else if f CURLFNM_LOWER then ISLOWER x
  else if f CURLFNM_BLANK then ISBLANK x
  else if f CURLFNM_GRAPH then ISGRAPH x
  else false)).
Proof.
  intros [Hl Hf] Hx. unfold set_found. rewrite (Hf x) by (unfold CURLFNM_CHSET_SIZE, CURLFNM_CHARSET_LEN; lia).
  by rewrite !Hf by by vm_compute.
Qed.

(** * Written patterns are read back *)

Definition item_flags (i : set_item) (j : Z) : bool := match i with I_char c => j =? c | I_range a b => between a j b end.

Lemma range_loop_flags n : forall c cc cs f, flags cs f -> 0 <= c -> c + Z.of_nat n < 256 -> cc <> CCLASS_OTHER ->
  (forall j, c < j <= c + Z.of_nat n -> charclass j = cc) ->
  exists cs', range_loop n c cc cs = Some cs' /\ flags cs' (fun j => f j || between (c + 1) j (c + Z.of_nat n)).
Proof.
  induction n as [|n IH]; intros c cc cs f Hf H0 Hc Hcc Hall; cbn [range_loop].
  { exists cs. split; [done|]. eapply flags_ext; [exact Hf|]. intros i _. cbn beta. destruct (between _ _ _) eqn:E; [|by rewrite orb_false_r].
    unfold between in E. zb_hyps. lia. }
  assert (Hu : u8 (c + 1) = c + 1) by (unfold u8; apply Z.mod_small; lia). rewrite Hu.
  rewrite decide_True by (apply Hall; lia).
  destruct (flags_set cs f (c + 1) Hf) as (cs1 & -> & Hf1); [unfold CURLFNM_CHSET_SIZE, CURLFNM_CHARSET_LEN; lia|].
  cbn [mbind option_bind]. destruct (IH (c + 1) cc cs1 _ Hf1) as (cs2 & -> & Hf2); [lia|lia|done|intros j Hj; apply Hall; lia|].
  exists cs2. split; [done|]. eapply flags_ext; [exact Hf2|]. intros i _. cbn beta. rewrite <- orb_assoc. f_equal.
  unfold between. apply eq_true_iff_eq. rewrite orb_true_iff, !andb_true_iff, !Z.leb_le, Z.eqb_eq. lia.
Qed.

Definition class_range (k : char_class) (x : Z) : Prop :=
  match k with CCLASS_UPPER => 65 <= x <= 90 | CCLASS_LOWER => 97 <= x <= 122 | CCLASS_DIGIT => 48 <= x <= 57 | CCLASS_OTHER => True end.

Lemma charclass_range x : class_range (charclass x) x.
Proof.
  unfold charclass, ISUPPER, ISLOWER, ISDIGIT, between. case_if; [cbn; lia|]. case_if; [cbn; lia|]. case_if; cbn; lia.
Qed.

Lemma range_charclass k x : k <> CCLASS_OTHER -> class_range k x -> charclass x = k.
Proof.
  intros Hk Hx. pose proof (charclass_range x) as Hr. unfold charclass in *. unfold ISUPPER, ISLOWER, ISDIGIT, between in *.
  destruct k; cbn in Hx; try done.
  - rewrite (proj2 (Z.leb_gt 65 x)), (proj2 (Z.leb_gt 97 x)), (proj2 (Z.leb_le 48 x)), (proj2 (Z.leb_le x 57)) by lia. done.
  - rewrite (proj2 (Z.leb_le 65 x)), (proj2 (Z.leb_le x 90)) by lia. done.
  - rewrite (proj2 (Z.leb_le 65 x)), (proj2 (Z.leb_gt x 90)), (proj2 (Z.leb_le 97 x)), (proj2 (Z.leb_le x 122)) by lia. done.
Qed.

(** The characters of a class other than the last one follow each other. *)
Lemma charclass_interval a b j : charclass a <> CCLASS_OTHER -> charclass a = charclass b -> a <= j <= b -> charclass j = charclass a.
Proof.
  intros H0 H1 Hj. apply range_charclass; [done|]. pose proof (charclass_range a) as Ha. pose proof (charclass_range b) as Hb.
  rewrite <- H1 in Hb. destruct (charclass a); cbn in *; try done; lia.
Qed.

Lemma class_alnum a : charclass a <> CCLASS_OTHER -> ISALNUM a = true /\ 48 <= a <= 122 /\ ~ (58 <= a <= 64) /\ ~ (91 <= a <= 96).
Proof.
  unfold charclass, ISALNUM, ISALPHA. destruct (ISUPPER a) eqn:E1, (ISLOWER a) eqn:E2, (ISDIGIT a) eqn:E3; try done; intros _; (split; [done|]);
    unfold ISUPPER, ISLOWER, ISDIGIT, between in *; zb_hyps; lia.
Qed.

Lemma setcharorrange_range a b rest cs f : flags cs f -> item_ok (I_range a b) ->
  exists cs', setcharorrange (a :: 45 :: b :: rest) cs = Some (rest, cs') /\ flags cs' (fun j => f j || between a j b).
Proof.
  intros Hf (Hab & Hc & Hcb). destruct (class_alnum a Hc) as (Ha & Hra & _ & _). rewrite Hcb in Hc.
  destruct (class_alnum b Hc) as (_ & Hrb & _ & Hb92). unfold setcharorrange. cbn [deref drop].
  destruct (flags_set cs f a Hf) as (cs1 & -> & Hf1); [unfold CURLFNM_CHSET_SIZE, CURLFNM_CHARSET_LEN; lia|]. cbn [mbind option_bind].
  rewrite Ha, (proj2 (Z.eqb_neq b 92)) by lia. cbn [andb Z.eqb Pos.eqb]. rewrite drop_0.
  rewrite (bool_decide_true (charclass b = charclass a)) by done. rewrite Z.geb_leb, (proj2 (Z.leb_le a b)) by lia. cbn [andb].
  destruct (range_loop_flags (Z.to_nat (b - a)) a (charclass a) cs1 _ Hf1) as (cs2 & -> & Hf2); [lia|lia|by rewrite Hcb| |].
  { intros j Hj. apply (charclass_interval a b); [by rewrite Hcb|done|lia]. }
  cbn [mbind option_bind]. exists cs2. split; [done|]. eapply flags_ext; [exact Hf2|]. intros i _. cbn beta. rewrite <- orb_assoc. f_equal.
  unfold between. apply eq_true_iff_eq. rewrite orb_true_iff, !andb_true_iff, !Z.leb_le, Z.eqb_eq. lia.
Qed.

Lemma setcharorrange_char c rest cs f : flags cs f -> is_char c -> deref rest <> 45 ->
  exists cs', setcharorrange (c :: rest) cs = Some (rest, cs') /\ flags cs' (fun j => f j || (j =? c)).
Proof.
  intros Hf Hc Hr. unfold setcharorrange. cbn [deref drop]. rewrite drop_0.
  destruct (flags_set cs f c Hf) as (cs1 & -> & Hf1); [unfold is_char, CURLFNM_CHSET_SIZE, CURLFNM_CHARSET_LEN in *; lia|].
  cbn [mbind option_bind]. rewrite (proj2 (Z.eqb_neq _ 45)) by done. rewrite andb_false_r. by exists cs1.
Qed.

Lemma set_special_spec c : set_special c = false -> c <> 91 /\ c <> 93 /\ c <> 33 /\ c <> 94 /\ c <> 45 /\ c <> 92.
Proof. unfold set_special. vm_compute (str _). cbn [existsb]. rewrite !orb_false_iff, !Z.eqb_neq. tauto. Qed.

(** One item in the loop. *)
Lemma setcharset_item i : forall fuel found rest cs f, item_ok i -> flags cs f -> deref rest <> 45 ->
  exists cs', setcharset_loop (S fuel) CURLFNM_SCHS_DEFAULT found (write_item i ++ rest) cs = setcharset_loop fuel CURLFNM_SCHS_DEFAULT true rest cs' /\
    flags cs' (fun j => f j || item_flags i j).
Proof.
  intros fuel found rest cs f Hi Hf Hr. destruct i as [c|a b]; cbn [write_item item_flags].
  - unfold write_char. destruct (set_special c) eqn:Es.
    + cbn [app setcharset_loop deref Z.eqb Pos.eqb orb drop].
      rewrite (proj2 (Z.eqb_neq c 0)) by (cbn in Hi; unfold is_char in Hi; lia). cbn [negb].
      destruct (setcharorrange_char c rest cs f) as (cs' & -> & Hf'); [done..|]. by exists cs'.
    + apply set_special_spec in Es. cbn [app setcharset_loop deref]. cbn in Hi. unfold is_char in Hi.
      rewrite !(proj2 (Z.eqb_neq c _)) by lia. cbn [orb].
      destruct (setcharorrange_char c rest cs f) as (cs' & -> & Hf'); [done..|]. by exists cs'.
  - pose proof Hi as (Hab & Hc & Hcb). destruct (class_alnum a Hc) as (Ha & Hra & Hs1 & Hs2).
    cbn [app setcharset_loop deref]. rewrite !(proj2 (Z.eqb_neq a _)) by lia. cbn [orb].
    destruct (setcharorrange_range a b rest cs f) as (cs' & -> & Hf'); [done..|]. by exists cs'.
Qed.

Lemma write_item_head i : item_ok i -> exists c r, write_item i = c :: r /\ c <> 45.
Proof.
  destruct i as [c|a b]; cbn [write_item item_ok].
  - intros _. unfold write_char. destruct (set_special c) eqn:E; do 2 eexists; split; try done. apply set_special_spec in E. lia.
  - intros (_ & Hc & _). destruct (class_alnum a Hc) as (_ & H & _ & _). do 2 eexists. split; [done|]. lia.
Qed.

Lemma setcharset_items items : forall fuel found rest cs f, Forall item_ok items -> flags cs f -> deref rest <> 45 ->
  exists cs', setcharset_loop (length items + fuel) CURLFNM_SCHS_DEFAULT found (concat (map write_item items) ++ rest) cs =
      setcharset_loop fuel CURLFNM_SCHS_DEFAULT (found || negb (bool_decide (items = []))) rest cs' /\
    flags cs' (fun j => f j || existsb (fun i => item_flags i j) items).
Proof.
  induction items as [|i items IH]; intros fuel found rest cs f Hi Hf Hr; cbn [concat map length Nat.add app existsb].
  { exists cs. rewrite bool_decide_true by done. cbn [negb]. rewrite orb_false_r. split; [done|]. eapply flags_ext; [exact Hf|].
    intros j _. by rewrite orb_false_r. }
  apply Forall_cons in Hi as [Hi His]. rewrite <- app_assoc.
  destruct (setcharset_item i (length items + fuel) found (concat (map write_item items) ++ rest) cs f) as (cs1 & -> & Hf1); [done|done| |].
  { destruct His as [|i2 items H2 _]; [done|]. cbn [map concat]. destruct (write_item_head i2 H2) as (c & r & -> & Hc). done. }
  destruct (IH fuel true rest cs1 _ His Hf1 Hr) as (cs2 & -> & Hf2). exists cs2. rewrite (bool_decide_false (i :: items = [])) by done. cbn [negb orb].
  rewrite orb_true_r. split; [done|]. eapply flags_ext; [exact Hf2|]. intros j _. cbn beta. by rewrite <- orb_assoc.
Qed.

Lemma parsekeyword_name k rest cs f : flags cs f ->
  exists cs', parsekeyword (keyword_name k ++ 58 :: 93 :: rest) cs = Some (Some (rest, cs')) /\ flags cs' (fun j => f j || (j =? keyword_flag k)).
Proof.
  intros Hf. destruct (flags_set cs f (keyword_flag k) Hf) as (cs' & E & Hf'); [by destruct k; vm_compute|]. exists cs'. split; [|done].
  unfold parsekeyword. assert (Hl : keyword_loop 10 false [] (keyword_name k ++ 58 :: 93 :: rest) = Some (keyword_name k, rest)) by by destruct k.
  rewrite Hl. assert (Hk : keyword_key (keyword_name k) = Some (keyword_flag k)) by by destruct k. rewrite Hk. by rewrite E.
Qed.

(** The function a written set stands for in its array. *)
Definition set_flags (negate : bool) (items : list set_item) (kw : option keyword) (j : Z) : bool :=
  ((negate && (j =? CURLFNM_NEGATE)) || existsb (fun i => item_flags i j) items) ||
  match kw with Some k => j =? keyword_flag k | None => false end.

Lemma items_length items : (length items <= length (concat (map write_item items)))%nat.
Proof.
  induction items as [|i items IH]; cbn [map concat length]; [lia|]. rewrite length_app.
  assert (1 <= length (write_item i))%nat by (destruct i; cbn; unfold write_char; [case_if|]; cbn; lia). lia.
Qed.

Definition kw_rounds (kw : option keyword) : nat := match kw with Some _ => 2 | None => 1 end.

Lemma setcharset_end found fuel items kw rest cs f : Forall item_ok items -> flags cs f -> (found = true \/ items <> [] \/ kw <> None) ->
  (length items + kw_rounds kw <= fuel)%nat ->
  exists cs', setcharset_loop fuel CURLFNM_SCHS_DEFAULT found (concat (map write_item items) ++ write_keyword kw ++ 93 :: rest) cs =
      Some (Some (93 :: rest, cs')) /\
    flags cs' (fun j => (f j || existsb (fun i => item_flags i j) items) || match kw with Some k => j =? keyword_flag k | None => false end).
Proof.
  intros Hi Hf Hne Hfuel. unfold kw_rounds in Hfuel. assert (Hn : exists n, fuel = (length items + n)%nat) by (exists (fuel - length items)%nat; lia).
  destruct Hn as [n ->]. destruct (setcharset_items items n found (write_keyword kw ++ 93 :: rest) cs f) as (cs1 & -> & Hf1); [done|done| |].
  { destruct kw; [by destruct k|done]. }
  destruct kw as [k|].
  - destruct n as [|[|n]]; [lia|lia|]. destruct (parsekeyword_name k (93 :: rest) cs1 _ Hf1) as (cs2 & E & Hf2). exists cs2. split; [|done].
    cbn [write_keyword]. rewrite <- !app_assoc. vm_compute (str "[:"). vm_compute (str ":]"). cbn [app].
    remember (keyword_name k ++ 58 :: 93 :: 93 :: rest) as q eqn:Eq. cbn [setcharset_loop deref Z.eqb Pos.eqb drop]. unfold at_.
    cbn [drop deref Z.eqb Pos.eqb]. rewrite drop_0, E. done.
  - destruct n as [|n]; [lia|]. exists cs1. split.
    + cbn [write_keyword app setcharset_loop deref Z.eqb Pos.eqb]. destruct Hne as [->|[Hne|Hne]]; [done| |done].
      rewrite bool_decide_false by done. cbn [negb]. by rewrite orb_true_r.
    + eapply flags_ext; [exact Hf1|]. intros j _. cbn beta. by rewrite orb_false_r.
Qed.

Lemma setcharset_written negate items kw rest : elem_ok (E_set negate items kw) ->
  exists cs, setcharset ((if negate then [33] else []) ++ concat (map write_item items) ++ write_keyword kw ++ 93 :: rest) =
      Some (Some (93 :: rest, cs)) /\ flags cs (set_flags negate items kw).
Proof.
  intros [Hi Hne]. unfold setcharset. set (p := concat (map write_item items) ++ write_keyword kw ++ 93 :: rest).
  assert (Hlen : (length items + kw_rounds kw <= length p)%nat).
  { unfold p, kw_rounds. rewrite !length_app. pose proof (items_length items). destruct kw as [k|]; [|cbn; lia]. destruct k; cbn; lia. }
  destruct negate.
  - cbn [app length setcharset_loop deref Z.eqb Pos.eqb orb drop]. rewrite drop_0.
    assert (E : cs_has empty_charset CURLFNM_NEGATE = Some false) by by vm_compute. rewrite E. cbn [mbind option_bind negb].
    destruct (flags_set empty_charset _ CURLFNM_NEGATE flags_empty) as (cs1 & -> & Hf1); [by vm_compute|]. cbn [mbind option_bind].
    destruct (setcharset_end false (length p) items kw rest cs1 _ Hi Hf1) as (cs & Hp & Hf); [by right|done|]. exists cs. split; [exact Hp|exact Hf].
  - cbn [app]. destruct (setcharset_end false (length p) items kw rest empty_charset _ Hi flags_empty) as (cs & Hp & Hf); [by right|done|].
    exists cs. split; [exact Hp|exact Hf].
Qed.

(** The keywords' flags are behind the characters. *)
Lemma items_no_flag items j : Forall item_ok items -> 256 <= j -> existsb (fun i => item_flags i j) items = false.
Proof.
  intros Hi Hj. induction Hi as [|i items Hi _ IH]; [done|]. cbn [existsb]. rewrite IH, orb_false_r. destruct i as [c|a b]; cbn [item_flags item_ok] in *.
  - apply Z.eqb_neq. unfold is_char in Hi. lia.
  - destruct Hi as (_ & H1 & H2). rewrite H2 in H1. apply class_alnum in H1. unfold between. apply andb_false_intro2, Z.leb_gt. lia.
Qed.

(** A written set stands for the characters it names. *)
Lemma set_found_written negate items kw cs x : elem_ok (E_set negate items kw) -> flags cs (set_flags negate items kw) -> is_char x ->
  set_found cs x = Some (in_set negate items kw x).
Proof.
  intros [Hi _] Hf Hx. unfold is_char in Hx. rewrite (set_found_flags _ _ _ Hf) by lia.
  assert (Hx0 : set_flags negate items kw x = existsb (in_item x) items).
  { unfold set_flags, CURLFNM_NEGATE, CURLFNM_CHARSET_LEN. rewrite (proj2 (Z.eqb_neq x 256)) by lia. rewrite andb_false_r. cbn [orb].
    assert (E : match kw with Some k => x =? keyword_flag k | None => false end = false).
    { destruct kw as [k|]; [|done]. apply Z.eqb_neq. assert (257 <= keyword_flag k) by by destruct k. lia. }
    rewrite E, orb_false_r. clear. induction items as [|i items IH]; [done|]. cbn [existsb]. by rewrite IH. }
  assert (Hj : forall j, 256 <= j -> set_flags negate items kw j = (negate && (j =? CURLFNM_NEGATE)) || match kw with Some k => j =? keyword_flag k | None => false end).
  { intros j Hj. unfold set_flags. by rewrite items_no_flag, orb_false_r. }
  rewrite Hx0, !Hj by by vm_compute. unfold in_set. f_equal. destruct (existsb (in_item x) items); [by destruct negate, kw as [[]|]|].
  by destruct negate, kw as [[]|].
Qed.

(** What an element is as a token. *)
Inductive like : fn_elem -> token -> Prop :=
  | like_star : like E_star T_star
  | like_any : like E_any T_any
  | like_char c : like (E_char c) (T_char c)
  | like_set negate items kw f : (forall x, is_char x -> f x = in_set negate items kw x) -> like (E_set negate items kw) (T_set f).

Lemma fn_special_spec c : fn_special c = false -> c <> 42 /\ c <> 63 /\ c <> 91 /\ c <> 92.
Proof. unfold fn_special. vm_compute (str _). cbn [existsb]. rewrite !orb_false_iff, !Z.eqb_neq. tauto. Qed.

Lemma write_char_bytes special c : is_char c -> bytes_ok (write_char special c).
Proof. intros Hc. unfold is_char in Hc. unfold write_char. case_if; repeat apply Forall_cons_2; try apply Forall_nil_2; unfold is_byte; lia. Qed.

Lemma write_elem_bytes e : elem_ok e -> bytes_ok (write_elem e).
Proof.
  destruct e as [| |c|negate items kw]; cbn [write_elem elem_ok]; intros He.
  1, 2: apply Forall_singleton; unfold is_byte; lia.
  - by apply write_char_bytes.
  - destruct He as [Hi _]. apply Forall_cons_2; [unfold is_byte; lia|]. apply Forall_app. split.
    { destruct negate; [apply Forall_singleton; unfold is_byte; lia|apply Forall_nil_2]. }
    apply Forall_app. split; [|apply Forall_app; split; [|apply Forall_singleton; unfold is_byte; lia]].
    + induction Hi as [|i items Hi _ IH]; [apply Forall_nil_2|]. cbn [map concat]. apply Forall_app. split; [|exact IH].
      destruct i as [c|a b]; cbn [write_item item_ok] in *; [by apply write_char_bytes|]. destruct Hi as (Hab & H1 & H2).
      pose proof (class_alnum a H1). rewrite H2 in H1. pose proof (class_alnum b H1).
      repeat apply Forall_cons_2; try apply Forall_nil_2; unfold is_byte; lia.
    + destruct kw as [k|]; [|apply Forall_nil_2]. by destruct k; repeat constructor.
Qed.

Lemma write_pattern_bytes es : Forall elem_ok es -> bytes_ok (write_pattern es).
Proof. induction 1 as [|e es He _ IH]; [apply Forall_nil_2|]. unfold write_pattern. cbn [map concat]. apply Forall_app. split; [by apply write_elem_bytes|exact IH]. Qed.

Lemma tokens_written es : forall fuel, Forall elem_ok es -> (length (write_pattern es) <= fuel)%nat ->
  exists ts, tokens fuel (write_pattern es) = Some ts /\ Forall2 like es ts.
Proof.
  induction es as [|e es IH]; intros fuel Hes Hn.
  { exists []. destruct fuel; by split. }
  apply Forall_cons in Hes as [He Hes]. unfold write_pattern in *. cbn [map concat] in *. rewrite length_app in Hn. set (rest := concat (map write_elem es)) in *.
  assert (Hgo : forall n t, (length rest <= n)%nat -> like e t -> exists ts, cons t <$> tokens n rest = Some ts /\ Forall2 like (e :: es) ts).
  { intros n t Hl Ht. destruct (IH n Hes Hl) as (ts & -> & Hts). exists (t :: ts). split; [done|]. by constructor. }
  destruct e as [| |c|negate items kw]; cbn [write_elem elem_ok] in *.
  - destruct fuel as [|fuel]; [cbn in Hn; lia|]. cbn [app tokens deref Z.eqb Pos.eqb drop]. rewrite drop_0. apply Hgo; [cbn in Hn; lia|constructor].
  - destruct fuel as [|fuel]; [cbn in Hn; lia|]. cbn [app tokens deref Z.eqb Pos.eqb drop]. rewrite drop_0. apply Hgo; [cbn in Hn; lia|constructor].
  - unfold is_char in He. unfold write_char in *. destruct (fn_special c) eqn:Es; cbn [length] in Hn; (destruct fuel as [|fuel]; [lia|]).
    + cbn [app tokens deref Z.eqb Pos.eqb]. unfold at_. cbn [drop deref]. rewrite (proj2 (Z.eqb_neq c 0)) by lia. cbn [negb deref drop].
      rewrite drop_0. apply Hgo; [lia|constructor].
    + apply fn_special_spec in Es. cbn [app tokens deref drop]. rewrite !(proj2 (Z.eqb_neq c _)), drop_0 by lia. apply Hgo; [lia|constructor].
  - rewrite !length_app in Hn. destruct fuel as [|fuel]; [cbn in Hn; lia|]. rewrite <- !app_assoc. cbn [app tokens deref Z.eqb Pos.eqb drop]. rewrite drop_0.
    destruct (setcharset_written negate items kw rest He) as (cs & Hset & Hf). cbn [app] in Hset. rewrite Hset. cbn [mbind option_bind drop]. rewrite drop_0.
    apply Hgo; [cbn in Hn; lia|]. constructor. intros x Hx. by rewrite (set_found_written negate items kw cs x He Hf Hx).
Qed.

Lemma matches_like es ts : Forall2 like es ts -> forall s, Forall is_char s -> matches ts s <-> in_pattern es s.
Proof.
  induction 1 as [|e t es ts Ht _ IH]; intros s Hs.
  { split; inversion 1; constructor. }
  split.
  - inversion 1; subst; inversion Ht; subst; try (apply Forall_cons in Hs as [Hc Hs]); try (apply Forall_app in Hs as [Hs1 Hs]);
      constructor; try by apply IH. by match goal with H : forall x, _ |- _ => rewrite <- H end.
  - inversion 1; subst; inversion Ht; subst; try (apply Forall_cons in Hs as [Hc Hs]); try (apply Forall_app in Hs as [Hs1 Hs]);
      constructor; try by apply IH. by match goal with H : forall x, _ |- _ => rewrite H end.
Qed.

(** The groups of stars of a pattern. *)
Fixpoint elem_groups (inside : bool) (es : list fn_elem) : nat :=
  match es with
  | [] => 0
  | E_star :: es => (if inside then 0 else 1) + elem_groups true es
  | E_any :: es => elem_groups inside es
  | _ :: es => elem_groups false es
  end.

Lemma groups_like es ts : Forall2 like es ts -> forall b, star_groups b ts = elem_groups b es.
Proof. induction 1 as [|e t es ts Ht _ IH]; intros b; [done|]. destruct Ht; cbn; by rewrite IH. Qed.

Lemma Curl_fnmatch_spec p s ts : bytes_ok p -> Forall is_char s -> tokens (length p) p = Some ts ->
  exists b : bool, Curl_fnmatch (Some p) (Some s) = Some (if b then CURL_FNMATCH_MATCH else CURL_FNMATCH_NOMATCH) /\ decides b ts s 2.
Proof.
  intros Hp Hs Ht. destruct (loop_spec (length p) p s 2 ts) as (b & E & Hb); [done..|]. exists b. unfold Curl_fnmatch. by rewrite E.
Qed.

Example unit1307_sets : forallb (fun '(p, s, r) => match Curl_fnmatch (Some (str p)) (Some (str s)), r with
    | Some CURL_FNMATCH_MATCH, true | Some CURL_FNMATCH_NOMATCH, false => true | _, _ => false end)
  [("[][]", "]", true); ("[[[]", "[", true); ("[[]", "]", false); ("S[a-][x]*.txt", "S-x.txt", true); ("[\a-\b]", "b", true);
   ("[?*[][?*[][?*[]", "?*[", true); ("[]?*-]", "-", true); ("*[^a].t?t", "ac.txt", true); ("[!!]", "x", true); ("[[:xdigit:]]", "G", false);
   ("[[:foo:]]", "f]", true); ("*[[:blank:]]*", "hi, im_Pavel", true); ("\", "\", true); ("****.txt", ".txt", true)]%string = true.
Proof. by vm_compute. Qed.

(** Of two keywords in a set only one is looked at. *)
Example two_keywords : Curl_fnmatch (Some (str "[[:digit:][:upper:]]")) (Some (str "A")) = Some CURL_FNMATCH_NOMATCH.
Proof. by vm_compute. Qed.

(** The keyword for white space does not stand for a line feed. *)
Example space_is_blank : Curl_fnmatch (Some (str "[[:space:]]")) (Some [10]) = Some CURL_FNMATCH_NOMATCH /\
  Curl_fnmatch (Some (str "[[:print:]]")) (Some [10]) = Some CURL_FNMATCH_MATCH.
Proof. by vm_compute. Qed.

(** A range behind a closing bracket that is a member is three characters. *)
Example bracket_range : Curl_fnmatch (Some (str "[]a-z]")) (Some (str "b")) = Some CURL_FNMATCH_NOMATCH /\
  Curl_fnmatch (Some (str "[]a-z]")) (Some (str "-")) = Some CURL_FNMATCH_MATCH.
Proof. by vm_compute. Qed.

(** C32: the matcher always answers.  It says that a string matches a pattern
    when the string is in the language of the pattern's tokens and the pattern
    has at most two groups of stars; with more than two it never does; without
    a pattern or a string it fails. *)
Theorem fnmatch_decides p s : bytes_ok p -> Forall is_char s ->
  exists ts r, tokens (length p) p = Some ts /\ Curl_fnmatch (Some p) (Some s) = Some r /\ r <> CURL_FNMATCH_FAIL /\
    (r = CURL_FNMATCH_MATCH <-> matches ts s /\ (star_groups false ts <= 2)%nat) /\
    Curl_fnmatch None (Some s) = Some CURL_FNMATCH_FAIL /\ Curl_fnmatch (Some p) None = Some CURL_FNMATCH_FAIL.
Proof.
  intros Hp Hs. destruct (tokens_total (length p) p ltac:(done) Hp) as [ts Ht]. destruct (Curl_fnmatch_spec p s ts Hp Hs Ht) as (b & E & Hb).
  exists ts, (if b then CURL_FNMATCH_MATCH else CURL_FNMATCH_NOMATCH). split; [done|]. split; [done|]. unfold decides in Hb.
  split; [by destruct b|]. split; [rewrite <- Hb; by destruct b|done].
Qed.

Lemma fnmatch_decides_witness : exists ts, tokens 8 (str "*[!a]??c") = Some ts /\
  (matches ts (str "abcdec") /\ (star_groups false ts <= 2)%nat <-> Curl_fnmatch (Some (str "*[!a]??c")) (Some (str "abcdec")) = Some CURL_FNMATCH_MATCH).
Proof.
  destruct (fnmatch_decides (str "*[!a]??c") (str "abcdec")) as (ts & r & Ht & Hr & _ & Hm & _).
  { repeat apply Forall_cons_2; try apply Forall_nil_2; done. }
  { repeat apply Forall_cons_2; try apply Forall_nil_2; done. }
  exists ts. split; [exact Ht|]. rewrite Hr. rewrite <- Hm. split; [by intros ->|by intros [= ->]].
Defined.

(** C31: a pattern that is written with the characters that mean something
    escaped matches the strings it stands for: stars, question marks,
    characters, and sets of characters, ranges of one class and at most one
    keyword, negated or not.  The written pattern has at most two groups of
    stars. *)
Theorem fnmatch_written es s : Forall elem_ok es -> (elem_groups false es <= 2)%nat -> Forall is_char s ->
  Curl_fnmatch (Some (write_pattern es)) (Some s) = Some CURL_FNMATCH_MATCH <-> in_pattern es s.
Proof.
  intros Hes Hg Hs. destruct (tokens_written es _ Hes ltac:(done)) as (ts & Ht & Hl).
  destruct (Curl_fnmatch_spec _ s ts (write_pattern_bytes es Hes) Hs Ht) as (b & -> & Hb). unfold decides in Hb.
  rewrite <- (matches_like es ts Hl s Hs). rewrite (groups_like es ts Hl) in Hb. destruct b; [split; [|done]; intros _; by apply Hb|].
  split; [done|]. intros Hm. discriminate (proj2 Hb (conj Hm Hg)).
Qed.

Lemma fnmatch_written_witness : in_pattern [E_star; E_char 46; E_set true [I_range 97 99; I_char 93] (Some K_digit); E_any] (str "x.zz").
Proof.
  apply (fnmatch_written [E_star; E_char 46; E_set true [I_range 97 99; I_char 93] (Some K_digit); E_any] (str "x.zz")).
  - repeat apply Forall_cons_2; try apply Forall_nil_2; try done. split; [|by left].
    repeat apply Forall_cons_2; try apply Forall_nil_2; done.
  - cbn. lia.
  - repeat apply Forall_cons_2; try apply Forall_nil_2; done.
  - by vm_compute.
Defined.
