(* ===== verification/Chains.v ===== *)
(** Tables of chains: what lib/hash.c and lib/uint-hash.c have in common.

    A table is a list of slots, a slot a list of elements with a key and a
    value.  [represents] says that the table stands for a finite map: every
    element is in the slot of its key and the elements are the map's.  The
    lemmas give the maps of a table after an element is linked, changed or
    unlinked, or after all slots are filtered. *)

From Stdlib Require Import ZArith Lia List.
From stdpp Require Import base numbers option list gmap.
From S2P Require Import Prelude.
Close Scope nat_scope.
Open Scope Z_scope.

(** The first element of a chain with the property, its neighbours. *)
Fixpoint split_at {E} (f : E -> bool) (chain : list E) : option (list E * E * list E) :=
  match chain with
  | [] => None
  | e :: r => if f e then Some ([], e, r) else '(l, x, r) ← split_at f r; Some (e :: l, x, r)
  end.

Lemma split_at_some {E} (f : E -> bool) chain l x r : split_at f chain = Some (l, x, r) -> chain = l ++ x :: r /\ f x = true.
Proof.
  revert l. induction chain as [|e chain IH]; intros l; cbn [split_at]; [done|]. destruct (f e) eqn:Ef.
  - by intros [= <- <- <-].
  - destruct (split_at f chain) as [[[l' x'] r']|]; [|done]. cbn. intros [= <- <- <-]. by destruct (IH l' eq_refl) as [-> ?].
Qed.

Lemma split_at_none {E} (f : E -> bool) chain : split_at f chain = None -> Forall (fun e => f e = false) chain.
Proof.
  induction chain as [|e chain IH]; cbn [split_at]; [by constructor|]. destruct (f e) eqn:Ef; [done|].
  destruct (split_at f chain) as [[[l' x'] r']|]; [done|]. intros _. constructor; auto.
Qed.

Lemma split_at_ext {E} (f g : E -> bool) chain : (forall e, f e = g e) -> split_at f chain = split_at g chain.
Proof. intros H. induction chain as [|e chain IH]; cbn; [done|]. by rewrite H, IH. Qed.

(** The elements of a table when one slot changes. *)
Lemma concat_slot {E} (tbl : list (list E)) i ch ch' : tbl !! i = Some ch ->
  concat tbl = concat (take i tbl) ++ ch ++ concat (drop (S i) tbl) /\
  concat (<[i := ch']> tbl) = concat (take i tbl) ++ ch' ++ concat (drop (S i) tbl).
Proof.
  intros H. split.
  - rewrite <- (take_drop_middle tbl i ch H) at 1. rewrite concat_app. done.
  - rewrite insert_take_drop by (by apply lookup_lt_Some in H). rewrite concat_app. done.
Qed.

Lemma concat_link {E} (tbl : list (list E)) i ch e : tbl !! i = Some ch -> concat (<[i := e :: ch]> tbl) ≡ₚ e :: concat tbl.
Proof. intros H. destruct (concat_slot tbl i ch (e :: ch) H) as [-> ->]. cbn [app]. by rewrite <- Permutation_middle. Qed.

Lemma concat_unlink {E} (tbl : list (list E)) i l e r : tbl !! i = Some (l ++ e :: r) -> concat tbl ≡ₚ e :: concat (<[i := l ++ r]> tbl).
Proof.
  intros H. destruct (concat_slot tbl i _ (l ++ r) H) as [-> ->]. rewrite <- !app_assoc. cbn [app]. by rewrite !Permutation_middle.
Qed.

Lemma concat_change {E} (tbl : list (list E)) i l e e' r : tbl !! i = Some (l ++ e :: r) ->
  exists A B, concat tbl = A ++ e :: B /\ concat (<[i := l ++ e' :: r]> tbl) = A ++ e' :: B.
Proof.
  intros H. destruct (concat_slot tbl i _ (l ++ e' :: r) H) as [-> ->]. exists (concat (take i tbl) ++ l), (r ++ concat (drop (S i) tbl)).
  rewrite <- !app_assoc. done.
Qed.

Lemma in_slot {E} (tbl : list (list E)) i ch e : tbl !! i = Some ch -> e ∈ ch -> e ∈ concat tbl.
Proof. intros Hi He. destruct (concat_slot tbl i ch [] Hi) as [-> _]. set_solver. Qed.

Section Chains.
Context {K V E : Type} `{Countable K} (key : E -> K) (value : E -> V) (slot_of : K -> nat).

Definition entry (e : E) : K * V := (key e, value e).

Definition placed (tbl : list (list E)) : Prop := forall i ch e, tbl !! i = Some ch -> e ∈ ch -> slot_of (key e) = i.

Definition represents (tbl : list (list E)) (m : gmap K V) : Prop := placed tbl /\ map entry (concat tbl) ≡ₚ map_to_list m.

Lemma represents_size tbl m : represents tbl m -> length (concat tbl) = size m.
Proof. intros [_ H1]. apply Permutation_length in H1. by rewrite length_map, length_map_to_list in H1. Qed.

Lemma represents_elem tbl m e : represents tbl m -> e ∈ concat tbl -> m !! key e = Some (value e).
Proof.
  intros [_ Hp] He. apply elem_of_map_to_list. rewrite <- Hp. apply list_elem_of_In, in_map_iff. exists e. split; [done|by apply list_elem_of_In].
Qed.

Lemma represents_keys tbl m : represents tbl m -> NoDup (map key (concat tbl)).
Proof.
  intros [_ Hp]. assert (E1 : map key (concat tbl) = (map entry (concat tbl)).*1) by (change fst with (@fst K V); by rewrite <- (map_map entry fst)).
  rewrite E1, Hp. apply NoDup_fst_map_to_list.
Qed.

Lemma represents_empty n : represents (replicate n []) ∅.
Proof.
  split.
  - intros i ch e Hi. apply lookup_replicate in Hi as [-> _]. intros He. by apply not_elem_of_nil in He.
  - rewrite map_to_list_empty. induction n; cbn; [done|exact IHn].
Qed.

(** What looking through the slot of a key finds. *)
Lemma represents_found tbl m k ch l e r : represents tbl m -> tbl !! slot_of k = Some ch -> ch = l ++ e :: r -> key e = k ->
  m !! k = Some (value e).
Proof.
  intros Hr Hi -> <-. eapply represents_elem; [exact Hr|]. eapply in_slot; [exact Hi|]. set_solver.
Qed.

Lemma represents_missing tbl m k ch : represents tbl m -> tbl !! slot_of k = Some ch -> Forall (fun e => key e <> k) ch -> m !! k = None.
Proof.
  intros [Hpl Hp] Hi Hno. apply eq_None_not_Some. intros [v Hv]. apply elem_of_map_to_list in Hv. rewrite <- Hp in Hv.
  apply list_elem_of_In, in_map_iff in Hv as (e & He & Hin). injection He as Hk _. apply in_concat in Hin as (ch' & Hch & Hin).
  apply list_elem_of_In, list_elem_of_lookup_1 in Hch as [j Hj]. apply list_elem_of_In in Hin. pose proof (Hpl j ch' e Hj Hin) as Hs. rewrite Hk in Hs.
  subst j. rewrite Hi in Hj. injection Hj as ->. rewrite Forall_forall in Hno. by apply (Hno e).
Qed.

Lemma placed_slot tbl i ch ch' : placed tbl -> tbl !! i = Some ch -> (forall e, e ∈ ch' -> e ∈ ch \/ slot_of (key e) = i) -> placed (<[i := ch']> tbl).
Proof.
  intros Hpl Hi Hin j c e Hj He. destruct (decide (i = j)) as [<-|Hne].
  - rewrite list_lookup_insert_eq in Hj by (by apply lookup_lt_Some in Hi). injection Hj as <-. destruct (Hin e He) as [He'|]; [|done]. by eapply Hpl.
  - rewrite list_lookup_insert_ne in Hj by done. by eapply Hpl.
Qed.

Lemma represents_link tbl m e ch : represents tbl m -> tbl !! slot_of (key e) = Some ch -> m !! key e = None ->
  represents (<[slot_of (key e) := e :: ch]> tbl) (<[key e := value e]> m).
Proof.
  intros [Hpl Hp] Hi Hm. destruct (concat_slot tbl _ ch (e :: ch) Hi) as [E1 E2]. split.
  - eapply placed_slot; [done|exact Hi|]. intros e' He'. apply elem_of_cons in He' as [->|He']; [by right|by left].
  - rewrite E2, map_to_list_insert by done. rewrite <- Hp, E1, !map_app. cbn [map app]. by rewrite <- Permutation_middle.
Qed.

Lemma represents_unlink tbl m l e r : represents tbl m -> tbl !! slot_of (key e) = Some (l ++ e :: r) ->
  represents (<[slot_of (key e) := l ++ r]> tbl) (delete (key e) m).
Proof.
  intros [Hpl Hp] Hi. destruct (concat_slot tbl _ _ (l ++ r) Hi) as [E1 E2]. split.
  - eapply placed_slot; [done|exact Hi|]. intros e' He'. left. apply elem_of_app in He' as [He'|He']; apply elem_of_app; [by left|right; by apply elem_of_cons; right].
  - assert (Hm : m !! key e = Some (value e)) by (eapply (represents_found tbl m (key e)); [by split|exact Hi|done|done]).
    apply (Permutation_cons_inv (a := entry e)). unfold entry at 3. rewrite map_to_list_delete by done. rewrite <- Hp, E1, E2, !map_app. cbn [map app].
    rewrite <- !app_assoc. cbn [app]. by rewrite !Permutation_middle.
Qed.

Lemma represents_change tbl m l e e' r : represents tbl m -> tbl !! slot_of (key e) = Some (l ++ e :: r) -> key e' = key e ->
  represents (<[slot_of (key e) := l ++ e' :: r]> tbl) (<[key e := value e']> m).
Proof.
  intros Hr Hi Hk. pose proof (represents_unlink tbl m l e r Hr Hi) as [_ Hu]. destruct Hr as [Hpl Hp]. destruct (concat_slot tbl _ _ (l ++ e' :: r) Hi) as [E1 E2].
  destruct (concat_slot tbl _ _ (l ++ r) Hi) as [_ E3]. split.
  - eapply placed_slot; [done|exact Hi|]. intros x Hx. apply elem_of_app in Hx as [Hx|Hx]; [left; set_solver|].
    apply elem_of_cons in Hx as [->|Hx]; [right; by rewrite Hk|left; set_solver].
  - rewrite <- insert_delete_eq, map_to_list_insert by apply lookup_delete_eq. rewrite <- Hu, E2, E3, !map_app. cbn [map app].
    rewrite <- !app_assoc. cbn [app]. assert (E4 : entry e' = (key e, value e')) by (unfold entry; by rewrite Hk). rewrite E4. by rewrite <- !Permutation_middle.
Qed.

(** Filtering all slots by the entries. *)
Lemma concat_filter (P : E -> Prop) `{forall x, Decision (P x)} tbl : concat (map (filter P) tbl) = filter P (concat tbl).
Proof. induction tbl as [|c tbl IH]; [done|]. cbn [map concat]. by rewrite IH, filter_app. Qed.

Lemma map_entry_filter (P : K * V -> Prop) `{forall x, Decision (P x)} l : map entry (filter (fun e => P (entry e)) l) = filter P (map entry l).
Proof. induction l as [|e l IH]; [done|]. rewrite filter_cons. cbn [map]. rewrite filter_cons. case_decide; cbn [map]; by rewrite IH. Qed.

Lemma represents_filter (P : K * V -> Prop) `{forall x, Decision (P x)} tbl m : represents tbl m ->
  represents (map (filter (fun e => P (entry e))) tbl) (filter P m).
Proof.
  intros [Hpl Hp]. split.
  - intros i c e Hi He. apply list_lookup_fmap_Some in Hi as (c0 & -> & Hi). apply list_elem_of_filter in He as [_ He]. by eapply Hpl.
  - rewrite concat_filter, map_entry_filter, Hp, map_filter_alt. symmetry. apply map_to_list_to_map.
    apply (sublist_NoDup _ (map_to_list m).*1); [apply NoDup_fst_map_to_list|apply fmap_sublist, sublist_filter].
Qed.
End Chains.
