(* ===== verification/Hash.v ===== *)
(** Hash tables, lib/hash.c.

    A table of chains of elements; the elements have addresses, which an
    iterator keeps.  The hash function and the comparison are fields of the
    table; [HashKey] states what the table relies on, and the functions
    the library passes are instances.  A table behaves as a finite map and
    hands every pointer it was given to a destructor exactly once. *)

From Stdlib Require Import ZArith Lia List String.
From stdpp Require Import base numbers option list gmap.
From S2P Require Import Prelude Chains.
Close Scope nat_scope.
Open Scope Z_scope.

(** * Data *)

(** A call of the destructor of an element, with a key, or of the table's. *)
Inductive dtor_call := D_elem (d : Z) (key : list Z) (p : Z) | D_hash (p : Z).

(** [struct Curl_hash_element] at the address [he_id]; its [next] is the
    element behind it in the chain.  A missing [dtor] is NULL. *)
Record Curl_hash_element := HE { he_id : nat; he_key : list Z; he_ptr : Z; he_dtor : option Z }.

(** [struct Curl_hash], the next unused address and the destructor calls so
    far. *)
Record Curl_hash := Hash {
  h_table : option (list (list Curl_hash_element));
  h_slots : Z;
  h_size : Z;
  h_next : nat;
  h_log : list dtor_call
}.

Record Curl_hash_iterator := Iter { it_slot_index : nat; it_current : option nat }.

Definition set_he_ptr (he : Curl_hash_element) (p : Z) := HE (he_id he) (he_key he) p (he_dtor he).
Definition set_he_value (he : Curl_hash_element) (p : Z) (d : option Z) := HE (he_id he) (he_key he) p d.
Definition set_h_table (h : Curl_hash) (t : option (list (list Curl_hash_element))) := Hash t (h_slots h) (h_size h) (h_next h) (h_log h).
Definition set_h_size (h : Curl_hash) (n : Z) := Hash (h_table h) (h_slots h) n (h_next h) (h_log h).
Definition log_dtor (h : Curl_hash) (d : dtor_call) := Hash (h_table h) (h_slots h) (h_size h) (h_next h) (h_log h ++ [d]).

(** The chain of a slot is replaced. *)
Definition set_chain (h : Curl_hash) (i : nat) (chain : list Curl_hash_element) : Curl_hash :=
  set_h_table h ((fun t => <[i := chain]> t) <$> h_table h).

Definition Curl_hash_init (slots : Z) : Curl_hash := Hash None slots 0 0 [].

Definition hash_elem_create (ok : bool) (id : nat) (key : list Z) (p : Z) (dtor : option Z) : option Curl_hash_element :=
  if ok then Some (HE id key p dtor) else None.

Definition hash_elem_clear_ptr (h : Curl_hash) (he : Curl_hash_element) : Curl_hash * Curl_hash_element :=
  if negb (he_ptr he =? 0) then
    (log_dtor h (match he_dtor he with Some d => D_elem d (he_key he) (he_ptr he) | None => D_hash (he_ptr he) end), set_he_ptr he 0)
  else (h, he).

Definition hash_elem_destroy (h : Curl_hash) (he : Curl_hash_element) : Curl_hash := (hash_elem_clear_ptr h he).1.

(** The anchor is behind the elements [l] of slot [i]. *)
Definition hash_elem_unlink (h : Curl_hash) (i : nat) (l r : list Curl_hash_element) : Curl_hash :=
  let h := set_chain h i (l ++ r) in set_h_size h (u64 (h_size h - 1)).

Definition hash_elem_link (h : Curl_hash) (i : nat) (he : Curl_hash_element) (chain : list Curl_hash_element) : Curl_hash :=
  let h := set_chain h i (he :: chain) in set_h_size h (u64 (h_size h + 1)).

Definition take_id (h : Curl_hash) : Curl_hash := Hash (h_table h) (h_slots h) (h_size h) (S (h_next h)) (h_log h).

Section Hash.
  Context (hash_func : list Z -> Z -> option Z) (comp_func : list Z -> list Z -> bool).

(** The slot of a key. *)
Definition CURL_HASH_SLOT (h : Curl_hash) (key : list Z) : option (nat * list Curl_hash_element) :=
  tbl ← h_table h;
  i ← hash_func key (h_slots h);
  chain ← (if 0 <=? i then tbl !! Z.to_nat i else None);
  Some (Z.to_nat i, chain).

Definition find_key (key : list Z) (chain : list Curl_hash_element) :=
  split_at (fun he => comp_func (he_key he) key) chain.

(** The result is the pointer or NULL (0). *)
Definition Curl_hash_add2 (o : allocs) (h : Curl_hash) (key : list Z) (p : Z) (dtor : option Z) : option (Curl_hash * Z * allocs) :=
  let '(h, ok, o) :=
    match h_table h with
    | Some _ => (h, true, o)
    | None =>
        let '(ok, o) := next_alloc o in
        (if ok then set_h_table h (Some (replicate (Z.to_nat (h_slots h)) [])) else h, ok, o)
    end in
  if negb ok then Some (h, 0, o)
  else
    '(i, chain) ← CURL_HASH_SLOT h key;
    match find_key key chain with
    | Some (l, he, r) =>
        let '(h, he) := hash_elem_clear_ptr h he in
        Some (set_chain h i (l ++ set_he_value he p dtor :: r), p, o)
    | None =>
        let '(ok, o) := next_alloc o in
        match hash_elem_create ok (h_next h) key p dtor with
        | None => Some (h, 0, o)
        | Some he => Some (hash_elem_link (take_id h) i he chain, p, o)
        end
    end.

Definition Curl_hash_add (o : allocs) (h : Curl_hash) (key : list Z) (p : Z) : option (Curl_hash * Z * allocs) :=
  Curl_hash_add2 o h key p None.

Definition Curl_hash_delete (h : Curl_hash) (key : list Z) : option (Curl_hash * Z) :=
  match h_table h with
  | None => Some (h, 1)
  | Some _ =>
      '(i, chain) ← CURL_HASH_SLOT h key;
      match find_key key chain with
      | Some (l, he, r) => Some (hash_elem_destroy (hash_elem_unlink h i l r) he, 0)
      | None => Some (h, 1)
      end
  end.

Definition Curl_hash_pick (h : Curl_hash) (key : list Z) : option Z :=
  match h_table h with
  | None => Some 0
  | Some _ =>
      '(_, chain) ← CURL_HASH_SLOT h key;
      match find_key key chain with
      | Some (_, he, _) => Some (he_ptr he)
      | None => Some 0
      end
  end.

End Hash.

(** The loop over a chain, which is [chain] when it begins. *)
Fixpoint clean_chain (h : Curl_hash) (i : nat) (chain : list Curl_hash_element) : Curl_hash :=
  match chain with
  | [] => h
  | he :: r => clean_chain (hash_elem_destroy (hash_elem_unlink h i [] r) he) i r
  end.

(** [n] slots from [i]. *)
Fixpoint clean_slots (n i : nat) (h : Curl_hash) : option Curl_hash :=
  match n with
  | O => Some h
  | S n =>
      tbl ← h_table h;
      chain ← tbl !! i;
      clean_slots n (S i) (clean_chain h i chain)
  end.

Definition Curl_hash_clean (h : Curl_hash) : option Curl_hash :=
  match h_table h with None => Some h | Some _ => clean_slots (Z.to_nat (h_slots h)) 0 h end.

Definition Curl_hash_destroy (h : Curl_hash) : option Curl_hash :=
  h ← (match h_table h with None => Some h | Some _ => h ← Curl_hash_clean h; Some (set_h_table h None) end);
  Some (Hash (h_table h) 0 (h_size h) (h_next h) (h_log h)).

Definition Curl_hash_count (h : Curl_hash) : Z := h_size h.

(** The caller's criterium, with its [user] argument; NULL removes all. *)
Definition removes (comp : option (Z -> bool)) (p : Z) : bool := match comp with None => true | Some f => f p end.

(** [kept] are the elements in front of the anchor. *)
Fixpoint criterium_chain (comp : option (Z -> bool)) (h : Curl_hash) (i : nat) (kept chain : list Curl_hash_element) : Curl_hash :=
  match chain with
  | [] => h
  | he :: r =>
      if removes comp (he_ptr he) then criterium_chain comp (hash_elem_destroy (hash_elem_unlink h i kept r) he) i kept r
      else criterium_chain comp h i (kept ++ [he]) r
  end.

Fixpoint criterium_slots (comp : option (Z -> bool)) (n i : nat) (h : Curl_hash) : option Curl_hash :=
  match n with
  | O => Some h
  | S n =>
      tbl ← h_table h;
      chain ← tbl !! i;
      criterium_slots comp n (S i) (criterium_chain comp h i [] chain)
  end.

Definition Curl_hash_clean_with_criterium (h : Curl_hash) (comp : option (Z -> bool)) : option Curl_hash :=
  match h_table h with None => Some h | Some _ => criterium_slots comp (Z.to_nat (h_slots h)) 0 h end.

Fixpoint hash_str_loop (key : list Z) (h : Z) : Z :=
  match key with
  | [] => h
  | c :: key =>
      let j := u64 (signed_char c) in
      let h := u64 (h + u64 (Z.shiftl h 5)) in
      hash_str_loop key (Z.lxor h j)
  end.

(** A remainder by 0 is undefined. *)
Definition Curl_hash_str (key : list Z) (slots_num : Z) : option Z :=
  if slots_num =? 0 then None else Some (hash_str_loop key 5381 mod slots_num).

Fixpoint memcmp_same (a b : list Z) : bool :=
  match a, b with
  | x :: a, y :: b => (x =? y) && memcmp_same a b
  | _, _ => true
  end.

Definition curlx_str_key_compare (k1 k2 : list Z) : bool := (zlen k1 =? zlen k2) && memcmp_same k1 k2.

(** The keys of the socket table (lib/multi_ev.c): the bytes of an [int] in the
    order of a little-endian platform. *)
Definition socket_key (fd : Z) : list Z := [fd mod 256; fd / 256 mod 256; fd / 65536 mod 256; fd / 16777216 mod 256].

Definition load_socket (key : list Z) : option Z :=
  match key with
  | [a; b; c; d] => Some (let x := a + 256 * b + 65536 * c + 16777216 * d in if x <? 2147483648 then x else x - 4294967296)
  | _ => None
  end.

Definition mev_sh_entry_hash (key : list Z) (slots_num : Z) : option Z :=
  fd ← load_socket key;
  if slots_num =? 0 then None else Some (u64 (Z.rem fd slots_num)).

Definition mev_sh_entry_compare (k1 k2 : list Z) : bool :=
  match load_socket k1, load_socket k2 with Some a, Some b => a =? b | _, _ => false end.

(** * Iteration *)

Definition Curl_hash_start_iterate : Curl_hash_iterator := Iter 0 None.

(** [current->next]; the element must still be there. *)
Fixpoint elem_next (tbl : list (list Curl_hash_element)) (id : nat) : option (option Curl_hash_element) :=
  match tbl with
  | [] => None
  | chain :: tbl =>
      match split_at (fun he => bool_decide (he_id he = id)) chain with
      | Some (_, _, r) => Some (head r)
      | None => elem_next tbl id
      end
  end.

(** The first element of the slots from [i] on, with the index behind it. *)
Fixpoint first_slot (n i : nat) (tbl : list (list Curl_hash_element)) : option (option (Curl_hash_element * nat)) :=
  match n with
  | O => Some None
  | S n =>
      chain ← tbl !! i;
      match chain with
      | he :: _ => Some (Some (he, S i))
      | [] => first_slot n (S i) tbl
      end
  end.

Definition Curl_hash_next_element (h : Curl_hash) (it : Curl_hash_iterator) : option (option Curl_hash_element * Curl_hash_iterator) :=
  match h_table h with
  | None => Some (None, it)
  | Some tbl =>
      current ← (match it_current it with Some id => elem_next tbl id | None => Some None end);
      match current with
      | Some he => Some (Some he, Iter (it_slot_index it) (Some (he_id he)))
      | None =>
          f ← first_slot (Z.to_nat (h_slots h) - it_slot_index it) (it_slot_index it) tbl;
          match f with
          | Some (he, i) => Some (Some he, Iter i (Some (he_id he)))
          | None => Some (None, Iter (it_slot_index it) None)
          end
      end
  end.

(** All elements, the way the callers of the iterator loop. *)
Fixpoint iterate (fuel : nat) (h : Curl_hash) (it : Curl_hash_iterator) : option (list Curl_hash_element) :=
  match fuel with
  | O => None
  | S fuel =>
      '(e, it) ← Curl_hash_next_element h it;
      match e with
      | None => Some []
      | Some he => cons he <$> iterate fuel h it
      end
  end.

(** * Sequences of operations *)

Inductive hash_op :=
  | H_add (key : list Z) (p : Z) (dtor : option Z)
  | H_delete (key : list Z)
  | H_pick (key : list Z)
  | H_count
  | H_clean
  | H_criterium (comp : option (Z -> bool))
  | H_list.

Inductive hash_out := O_ptr (p : Z) | O_code (n : Z) | O_count (n : Z) | O_done | O_list (l : list Curl_hash_element).

Definition hash_step hash_func comp_func (o : allocs) (h : Curl_hash) (op : hash_op) : option (Curl_hash * hash_out * allocs) :=
  match op with
  | H_add key p dtor => '(h, p, o) ← Curl_hash_add2 hash_func comp_func o h key p dtor; Some (h, O_ptr p, o)
  | H_delete key => '(h, n) ← Curl_hash_delete hash_func comp_func h key; Some (h, O_code n, o)
  | H_pick key => p ← Curl_hash_pick hash_func comp_func h key; Some (h, O_ptr p, o)
  | H_count => Some (h, O_count (Curl_hash_count h), o)
  | H_clean => h ← Curl_hash_clean h; Some (h, O_done, o)
  | H_criterium comp => h ← Curl_hash_clean_with_criterium h comp; Some (h, O_done, o)
  | H_list =>
      l ← iterate (S (match h_table h with Some tbl => length (concat tbl) | None => 0 end)) h Curl_hash_start_iterate;
      Some (h, O_list l, o)
  end.

Fixpoint hash_run hash_func comp_func (o : allocs) (h : Curl_hash) (ops : list hash_op) : option (Curl_hash * list hash_out * allocs) :=
  match ops with
  | [] => Some (h, [], o)
  | op :: ops =>
      '(h, out, o) ← hash_step hash_func comp_func o h op;
      '(h, outs, o) ← hash_run hash_func comp_func o h ops;
      Some (h, out :: outs, o)
  end.

(** * What a table relies on *)

(** On the keys [dom] a comparison is equality and the hash is a slot. *)
Class HashKey (hash_func : list Z -> Z -> option Z) (comp_func : list Z -> list Z -> bool) (dom : list Z -> Prop) := {
  hash_key_compare k1 k2 : dom k1 -> dom k2 -> comp_func k1 k2 = bool_decide (k1 = k2);
  hash_key_slot k n : dom k -> 0 < n <= INT_MAX -> exists i, hash_func k n = Some i /\ 0 <= i < n
}.

Lemma memcmp_same_spec a : forall b, length a = length b -> memcmp_same a b = bool_decide (a = b).
Proof.
  induction a as [|x a IH]; intros [|y b] Hl; cbn; try done. cbn in Hl. rewrite IH by lia.
  destruct (Z.eqb_spec x y) as [->|Hne]; cbn [andb].
  - apply bool_decide_ext. split; [by intros ->|by intros [= ->]].
  - symmetry. apply bool_decide_false. by intros [= ->].
Qed.

#[export] Instance str_hash_key : HashKey Curl_hash_str curlx_str_key_compare (fun _ => True).
Proof.
  split.
  - intros k1 k2 _ _. unfold curlx_str_key_compare, zlen. destruct (Z.eqb_spec (Z.of_nat (length k1)) (Z.of_nat (length k2))) as [E|E]; cbn [andb].
    + apply memcmp_same_spec. lia.
    + symmetry. apply bool_decide_false. by intros ->.
  - intros k n _ Hn. unfold Curl_hash_str. rewrite (proj2 (Z.eqb_neq n 0)) by lia. eexists. split; [done|]. apply Z.mod_pos_bound. lia.
Qed.

(** Sockets are not negative. *)
Definition is_socket_key (k : list Z) : Prop := exists fd, 0 <= fd <= INT_MAX /\ k = socket_key fd.

Lemma load_socket_key fd : 0 <= fd <= INT_MAX -> load_socket (socket_key fd) = Some fd.
Proof.
  unfold INT_MAX. intros H. unfold socket_key, load_socket. cbv zeta. set (x := _ + _ + _ + _). assert (E : x = fd) by (unfold x; dlia).
  rewrite E, (proj2 (Z.ltb_lt _ _)) by lia. done.
Qed.

#[export] Instance socket_hash_key : HashKey mev_sh_entry_hash mev_sh_entry_compare is_socket_key.
Proof.
  split.
  - intros k1 k2 (a & Ha & ->) (b & Hb & ->). unfold mev_sh_entry_compare. rewrite !load_socket_key by done.
    destruct (Z.eqb_spec a b) as [->|Hne]; symmetry; [by apply bool_decide_true|]. apply bool_decide_false. intros E.
    apply (f_equal load_socket) in E. rewrite !load_socket_key in E by done. by injection E.
  - intros k n (fd & Hf & ->) Hn. unfold mev_sh_entry_hash. rewrite load_socket_key by done. cbn [mbind option_bind].
    rewrite (proj2 (Z.eqb_neq n 0)) by lia. eexists. split; [done|]. rewrite Z.rem_mod_nonneg by lia. pose proof (Z.mod_pos_bound fd n ltac:(lia)).
    unfold u64. rewrite Z.mod_small; [lia|]. unfold INT_MAX in *. lia.
Qed.

(** * The map a table stands for *)

(** A pointer with its destructor; what is called for it. *)
Abbreviation hash_value := (Z * option Z)%type.

Definition value_of (he : Curl_hash_element) : hash_value := (he_ptr he, he_dtor he).

Definition destroyed (k : list Z) (v : hash_value) : list dtor_call :=
  if v.1 =? 0 then [] else [match v.2 with Some d => D_elem d k v.1 | None => D_hash v.1 end].

Definition destroyed_all (l : list (list Z * hash_value)) : list dtor_call := concat (map (fun '(k, v) => destroyed k v) l).

Section Rep.
Context {hash_func : list Z -> Z -> option Z} {comp_func : list Z -> list Z -> bool} {dom : list Z -> Prop}
  `{HK : !HashKey hash_func comp_func dom}.

Definition slot_fn (n : Z) (k : list Z) : nat := Z.to_nat (default 0 (hash_func k n)).

Definition table_rep (h : Curl_hash) (tbl : list (list Curl_hash_element)) (m : gmap (list Z) hash_value) : Prop :=
  length tbl = Z.to_nat (h_slots h) /\ represents he_key value_of (slot_fn (h_slots h)) tbl m /\
  NoDup (map he_id (concat tbl)) /\ Forall (fun e => (he_id e < h_next h)%nat) (concat tbl).

Definition hash_rep (h : Curl_hash) (m : gmap (list Z) hash_value) : Prop :=
  0 < h_slots h <= INT_MAX /\ h_size h = u64 (Z.of_nat (size m)) /\ map_Forall (fun k _ => dom k) m /\
  match h_table h with None => m = ∅ | Some tbl => table_rep h tbl m end.

Lemma hash_rep_init n : 0 < n <= INT_MAX -> hash_rep (Curl_hash_init n) ∅.
Proof. intros Hn. split; [exact Hn|]. split; [by rewrite map_size_empty|]. split; [apply map_Forall_empty|done]. Qed.

Lemma slot_found h m tbl key : hash_rep h m -> h_table h = Some tbl -> dom key ->
  exists chain, tbl !! slot_fn (h_slots h) key = Some chain /\ CURL_HASH_SLOT hash_func h key = Some (slot_fn (h_slots h) key, chain).
Proof.
  intros (Hn & _ & _ & Ht) Etbl Hk. rewrite Etbl in Ht. destruct Ht as (Hl & _). destruct (hash_key_slot key (h_slots h) Hk Hn) as (i & Ei & Hi).
  unfold slot_fn. rewrite Ei. cbn [default]. destruct (lookup_lt_is_Some_2 tbl (Z.to_nat i)) as [chain Hc]; [lia|].
  exists chain. split; [done|]. unfold CURL_HASH_SLOT. rewrite Etbl, Ei. cbn [mbind option_bind]. by rewrite (proj2 (Z.leb_le 0 i)), Hc by lia.
Qed.

Definition found_post (tbl : list (list Curl_hash_element)) (h : Curl_hash) (m : gmap (list Z) hash_value) (key : list Z)
    (r : option (list Curl_hash_element * Curl_hash_element * list Curl_hash_element)) : Prop :=
  match r with
  | Some (l, he, r) => tbl !! slot_fn (h_slots h) (he_key he) = Some (l ++ he :: r) /\ he_key he = key /\ m !! key = Some (value_of he)
  | None => m !! key = None
  end.

Lemma find_key_spec h m tbl key chain : hash_rep h m -> h_table h = Some tbl -> dom key -> tbl !! slot_fn (h_slots h) key = Some chain ->
  found_post tbl h m key (find_key comp_func key chain).
Proof.
  intros Hr Et Hk Hc. pose proof Hr as (_ & _ & Hd & Ht). rewrite Et in Ht. destruct Ht as (_ & Hrep & _).
  assert (Hdom : forall e, e ∈ chain -> dom (he_key e)).
  { intros e He. eapply (Hd (he_key e)). eapply represents_elem; [exact Hrep|]. eapply in_slot; [exact Hc|done]. }
  unfold find_key. destruct (split_at _ chain) as [[[l he] r]|] eqn:E.
  - apply split_at_some in E as [-> Hm]. rewrite hash_key_compare in Hm by (done || (apply Hdom; set_solver)).
    apply bool_decide_eq_true_1 in Hm. unfold found_post. rewrite Hm. split; [done|]. split; [done|]. by eapply represents_found.
  - cbn. eapply represents_missing; [exact Hrep|exact Hc|]. apply split_at_none in E. rewrite Forall_forall in *. intros e He Heq.
    specialize (E e He). cbn beta in E. rewrite hash_key_compare in E by (done || by apply Hdom). by apply bool_decide_eq_false_1 in E.
Qed.
End Rep.

Lemma u64_add_l a b : u64 (u64 a + b) = u64 (a + b).
Proof. unfold u64. by rewrite Zplus_mod_idemp_l. Qed.

Lemma u64_sub_l a b : u64 (u64 a - b) = u64 (a - b).
Proof. unfold u64. by rewrite Zminus_mod_idemp_l. Qed.

Lemma u64_idem a : u64 (u64 a) = u64 a.
Proof. unfold u64. by rewrite Zmod_mod. Qed.

(** What a destructor call leaves alone. *)
Lemma clear_ptr_spec h he : exists h' he', hash_elem_clear_ptr h he = (h', he') /\ h_table h' = h_table h /\ h_slots h' = h_slots h /\
  h_size h' = h_size h /\ h_next h' = h_next h /\ h_log h' = h_log h ++ destroyed (he_key he) (value_of he) /\
  he_id he' = he_id he /\ he_key he' = he_key he.
Proof.
  unfold hash_elem_clear_ptr, destroyed, value_of. cbn [fst snd]. destruct (Z.eqb_spec (he_ptr he) 0) as [E|E]; cbn [negb]; do 2 eexists.
  - split; [done|]. by rewrite app_nil_r.
  - split; [done|]. by destruct (he_dtor he).
Qed.

Lemma destroy_spec h he : exists h', hash_elem_destroy h he = h' /\ h_table h' = h_table h /\ h_slots h' = h_slots h /\
  h_size h' = h_size h /\ h_next h' = h_next h /\ h_log h' = h_log h ++ destroyed (he_key he) (value_of he).
Proof.
  unfold hash_elem_destroy. destruct (clear_ptr_spec h he) as (h' & he' & -> & H1 & H2 & H3 & H4 & H5 & _). by exists h'.
Qed.

Section Steps.
Context {hash_func : list Z -> Z -> option Z} {comp_func : list Z -> list Z -> bool} {dom : list Z -> Prop}
  `{HK : !HashKey hash_func comp_func dom}.

Abbreviation rep := (hash_rep (hash_func := hash_func) (dom := dom)).

(** The map behind an operation, and the destructor calls it makes. *)
Inductive hash_spec (m : gmap (list Z) hash_value) : hash_op -> hash_out -> list dtor_call -> gmap (list Z) hash_value -> Prop :=
  | spec_add k p d : hash_spec m (H_add k p d) (O_ptr p) (match m !! k with Some v => destroyed k v | None => [] end) (<[k := (p, d)]> m)
  | spec_add_fails k p d : m !! k = None -> hash_spec m (H_add k p d) (O_ptr 0) [] m
  | spec_delete k v : m !! k = Some v -> hash_spec m (H_delete k) (O_code 0) (destroyed k v) (delete k m)
  | spec_delete_none k : m !! k = None -> hash_spec m (H_delete k) (O_code 1) [] m
  | spec_pick k : hash_spec m (H_pick k) (O_ptr (match m !! k with Some v => v.1 | None => 0 end)) [] m
  | spec_count : hash_spec m H_count (O_count (u64 (Z.of_nat (size m)))) [] m
  | spec_clean ev : ev ≡ₚ destroyed_all (map_to_list m) -> hash_spec m H_clean O_done ev ∅
  | spec_criterium comp ev : ev ≡ₚ destroyed_all (map_to_list (filter (fun kv => removes comp kv.2.1 = true) m)) ->
      hash_spec m (H_criterium comp) O_done ev (filter (fun kv => removes comp kv.2.1 = false) m)
  | spec_list l : map (fun e => (he_key e, value_of e)) l ≡ₚ map_to_list m -> hash_spec m H_list (O_list l) [] m.

Definition hash_op_ok (op : hash_op) : Prop := match op with H_add k _ _ | H_delete k | H_pick k => dom k | _ => True end.

Definition step_post (h : Curl_hash) (m : gmap (list Z) hash_value) (op : hash_op) (r : option (Curl_hash * hash_out * allocs)) : Prop :=
  exists h' out o' ev m', r = Some (h', out, o') /\ hash_spec m op out ev m' /\ h_log h' = h_log h ++ ev /\ rep h' m'.

Lemma add_elem h m tbl key p dtor o : rep h m -> h_table h = Some tbl -> dom key ->
  exists h' p' o', ('(i, chain) ← CURL_HASH_SLOT hash_func h key;
    match find_key comp_func key chain with
    | Some (l, he, r) =>
        let '(h, he) := hash_elem_clear_ptr h he in
        Some (set_chain h i (l ++ set_he_value he p dtor :: r), p, o)
    | None =>
        let '(ok, o) := next_alloc o in
        match hash_elem_create ok (h_next h) key p dtor with
        | None => Some (h, 0, o)
        | Some he => Some (hash_elem_link (take_id h) i he chain, p, o)
        end
    end) = Some (h', p', o') /\ exists ev m', hash_spec m (H_add key p dtor) (O_ptr p') ev m' /\ h_log h' = h_log h ++ ev /\ rep h' m'.
Proof.
  intros Hr Et Hk. destruct (slot_found h m tbl key Hr Et Hk) as (chain & Hc & ->). cbn [mbind option_bind].
  pose proof (find_key_spec h m tbl key chain Hr Et Hk Hc) as Hf. pose proof Hr as (Hn & Hs & Hd & Ht). rewrite Et in Ht.
  destruct Ht as (Hl & Hrep & Hnd & Hid). destruct (find_key comp_func key chain) as [[[l he] r]|]; cbn [found_post] in Hf.
  - destruct Hf as (Hsl & Hkey & Hm). destruct (clear_ptr_spec h he) as (h1 & he1 & -> & T1 & T2 & T3 & T4 & T5 & T6 & T7).
    do 3 eexists. split; [done|]. do 2 eexists. split; [apply spec_add|]. rewrite Hm. split; [cbn; by rewrite T5, Hkey|].
    unfold hash_rep. cbn. rewrite T1, T2, T3, Et. cbn. split; [done|]. split.
    { rewrite Hs, map_size_insert_Some by (by exists (value_of he)). done. }
    split; [by apply map_Forall_insert_2|]. unfold table_rep. cbn. rewrite T2, T4, length_insert. split; [done|].
    rewrite <- Hkey. split; [apply (represents_change he_key value_of); [done|done|by cbn]|].
    destruct (concat_change tbl _ l he (set_he_value he1 p dtor) r Hsl) as (A & B & EA & EB). rewrite EB, EA in *. rewrite !map_app in *. cbn [map he_id set_he_value] in *.
    rewrite T6. split; [done|]. apply Forall_app in Hid as [? Hid]. apply Forall_cons in Hid as [? Hid]. apply Forall_app. split; [done|].
    apply Forall_cons. cbn. by rewrite T6.
  - destruct (next_alloc o) as [[] o']; cbn [hash_elem_create]; do 3 eexists; (split; [done|]).
    + do 2 eexists. split; [apply spec_add|]. rewrite Hf. split; [cbn; by rewrite app_nil_r|]. unfold hash_rep. cbn. rewrite Et. cbn.
      split; [done|]. split. { rewrite Hs, map_size_insert_None by done. rewrite u64_add_l. f_equal. lia. }
      split; [by apply map_Forall_insert_2|]. unfold table_rep. cbn. rewrite length_insert. split; [done|]. split.
      { apply (represents_link he_key value_of _ tbl m (HE (h_next h) key p dtor) chain); done. }
      rewrite (concat_link _ _ _ _ Hc). cbn [map]. split.
      * apply NoDup_cons. split; [|done]. intros Hin. apply list_elem_of_In, in_map_iff in Hin as (e & He & Hin). rewrite Forall_forall in Hid.
        apply list_elem_of_In in Hin. specialize (Hid e Hin). cbn in He. lia.
      * apply Forall_cons. split; [cbn; lia|]. eapply Forall_impl; [exact Hid|]. cbn. lia.
    + do 2 eexists. split; [by apply spec_add_fails|]. by rewrite app_nil_r.
Qed.

Lemma replicate_rep h m : rep h m -> h_table h = None -> rep (set_h_table h (Some (replicate (Z.to_nat (h_slots h)) []))) m.
Proof.
  intros (Hn & Hs & Hd & Ht) Et. rewrite Et in Ht. subst m. split; [done|]. split; [done|]. split; [done|]. cbn. unfold table_rep. cbn.
  rewrite length_replicate. split; [done|]. split; [apply represents_empty|].
  assert (E : concat (replicate (Z.to_nat (h_slots h)) ([] : list Curl_hash_element)) = []) by (by induction (Z.to_nat (h_slots h))).
  rewrite E. split; constructor.
Qed.

Lemma hash_add_spec h m key p dtor o : rep h m -> dom key -> step_post h m (H_add key p dtor) (hash_step hash_func comp_func o h (H_add key p dtor)).
Proof.
  intros Hr Hk. unfold step_post, hash_step, Curl_hash_add2. destruct (h_table h) as [tbl|] eqn:Et.
  - destruct (add_elem h m tbl key p dtor o Hr Et Hk) as (h' & p' & o' & E & ev & m' & H1 & H2 & H3). cbn [negb].
    rewrite E. cbn [mbind option_bind]. by exists h', (O_ptr p'), o', ev, m'.
  - destruct (next_alloc o) as [[] o1]; cbn [negb].
    + pose proof (replicate_rep h m Hr Et) as Hr1. set (h1 := set_h_table h _) in *.
      destruct (add_elem h1 m _ key p dtor o1 Hr1 eq_refl Hk) as (h' & p' & o' & E & ev & m' & H1 & H2 & H3).
      rewrite E. cbn [mbind option_bind]. by exists h', (O_ptr p'), o', ev, m'.
    + cbn [mbind option_bind]. exists h, (O_ptr 0), o1, [], m. split; [done|]. split; [|by rewrite app_nil_r].
      apply spec_add_fails. destruct Hr as (_ & _ & _ & Ht). rewrite Et in Ht. by subst m.
Qed.

Lemma delete_spec h m key o : rep h m -> dom key -> step_post h m (H_delete key) (hash_step hash_func comp_func o h (H_delete key)).
Proof.
  intros Hr Hk. unfold step_post, hash_step, Curl_hash_delete. destruct (h_table h) as [tbl|] eqn:Et.
  2: { cbn [mbind option_bind]. exists h, (O_code 1), o, [], m. split; [done|]. split; [|by rewrite app_nil_r].
       apply spec_delete_none. destruct Hr as (_ & _ & _ & Ht). rewrite Et in Ht. by subst m. }
  destruct (slot_found h m tbl key Hr Et Hk) as (chain & Hc & ->). cbn [mbind option_bind].
  pose proof (find_key_spec h m tbl key chain Hr Et Hk Hc) as Hf. pose proof Hr as (Hn & Hs & Hd & Ht). rewrite Et in Ht.
  destruct Ht as (Hl & Hrep & Hnd & Hid). destruct (find_key comp_func key chain) as [[[l he] r]|]; cbn [found_post] in Hf.
  - destruct Hf as (Hsl & Hkey & Hm). set (h0 := hash_elem_unlink h _ l r).
    destruct (destroy_spec h0 he) as (h1 & -> & T1 & T2 & T3 & T4 & T5). cbn [mbind option_bind].
    do 5 eexists. split; [done|]. split; [by apply spec_delete|]. split; [by rewrite T5, Hkey|].
    unfold hash_rep. rewrite T1, T2, T3. cbn. rewrite Et. cbn. split; [done|]. split.
    { rewrite Hs, u64_sub_l. rewrite map_size_delete_Some by (by exists (value_of he)). f_equal.
      assert (size m <> 0%nat) by (apply map_size_non_empty_iff; intros ->; by rewrite lookup_empty in Hm). lia. }
    split; [by apply map_Forall_delete|]. unfold table_rep. rewrite T2, T4. cbn. rewrite length_insert. split; [done|].
    rewrite <- Hkey. split; [by apply represents_unlink|].
    pose proof (concat_unlink tbl _ l he r Hsl) as Hp. rewrite Hp in Hnd, Hid. cbn [map] in Hnd. apply NoDup_cons in Hnd as [_ Hnd].
    by apply Forall_cons in Hid as [_ Hid].
  - cbn [mbind option_bind]. exists h, (O_code 1), o, [], m. split; [done|]. split; [by apply spec_delete_none|]. by rewrite app_nil_r.
Qed.

Lemma pick_spec h m key o : rep h m -> dom key -> step_post h m (H_pick key) (hash_step hash_func comp_func o h (H_pick key)).
Proof.
  intros Hr Hk. unfold step_post, hash_step, Curl_hash_pick.
  assert (Hend : forall p, p = match m !! key with Some v => v.1 | None => 0 end -> exists h' out o' ev m',
    Some (h, O_ptr p, o) = Some (h', out, o') /\ hash_spec m (H_pick key) out ev m' /\ h_log h' = h_log h ++ ev /\ rep h' m').
  { intros p ->. exists h, (O_ptr (match m !! key with Some v => v.1 | None => 0 end)), o, [], m. split; [done|]. split; [constructor|]. by rewrite app_nil_r. }
  destruct (h_table h) as [tbl|] eqn:Et.
  2: { cbn [mbind option_bind]. apply Hend. destruct Hr as (_ & _ & _ & Ht). rewrite Et in Ht. by subst m. }
  destruct (slot_found h m tbl key Hr Et Hk) as (chain & Hc & ->). cbn [mbind option_bind].
  pose proof (find_key_spec h m tbl key chain Hr Et Hk Hc) as Hf.
  destruct (find_key comp_func key chain) as [[[l he] r]|]; cbn [found_post mbind option_bind] in *; apply Hend.
  - destruct Hf as (_ & _ & ->). done.
  - by rewrite Hf.
Qed.

Lemma hash_count_spec h m o : rep h m -> step_post h m H_count (hash_step hash_func comp_func o h H_count).
Proof.
  intros Hr. exists h, (O_count (Curl_hash_count h)), o, [], m. split; [done|]. split; [|by rewrite app_nil_r].
  destruct Hr as (_ & Hs & _). unfold Curl_hash_count. rewrite Hs. constructor.
Qed.
End Steps.

(** * Removing elements *)

Definition elem_entry (he : Curl_hash_element) : list Z * hash_value := (he_key he, value_of he).

Lemma clean_chain_criterium chain : forall h i, clean_chain h i chain = criterium_chain None h i [] chain.
Proof. induction chain as [|he r IH]; intros h i; [done|]. cbn. by rewrite IH. Qed.

Lemma clean_slots_criterium n : forall i h, clean_slots n i h = criterium_slots None n i h.
Proof.
  induction n as [|n IH]; intros i h; [done|]. cbn [clean_slots criterium_slots]. destruct (h_table h) as [tbl|]; [|done]. cbn [mbind option_bind].
  destruct (tbl !! i) as [chain|]; [|done]. cbn [mbind option_bind]. by rewrite clean_chain_criterium, IH.
Qed.

Section Criterium.
Context (comp : option (Z -> bool)).

Definition kept_of (chain : list Curl_hash_element) := filter (fun e => removes comp (elem_entry e).2.1 = false) chain.
Definition removed_of (chain : list Curl_hash_element) := filter (fun e => removes comp (elem_entry e).2.1 = true) chain.

Lemma removed_cons he r : removed_of (he :: r) = if removes comp (he_ptr he) then he :: removed_of r else removed_of r.
Proof. unfold removed_of. rewrite filter_cons. cbn. by destruct (removes comp (he_ptr he)). Qed.

Lemma kept_cons he r : kept_of (he :: r) = if removes comp (he_ptr he) then kept_of r else he :: kept_of r.
Proof. unfold kept_of. rewrite filter_cons. cbn. by destruct (removes comp (he_ptr he)). Qed.

Lemma kept_removed_length l : length l = (length (kept_of l) + length (removed_of l))%nat.
Proof. induction l as [|he r IH]; [done|]. rewrite kept_cons, removed_cons. destruct (removes comp (he_ptr he)); cbn [length]; lia. Qed.

(** What removing [gone] from the table leaves alone. *)
Definition removed_post (h h' : Curl_hash) (tbl : list (list Curl_hash_element)) (gone : list Curl_hash_element) : Prop :=
  h_table h' = Some tbl /\ h_slots h' = h_slots h /\ h_next h' = h_next h /\
  h_log h' = h_log h ++ destroyed_all (map elem_entry gone) /\
  (u64 (h_size h) = h_size h -> h_size h' = u64 (h_size h - Z.of_nat (length gone))).

Lemma criterium_chain_spec chain : forall h i kept tbl, h_table h = Some tbl -> tbl !! i = Some (kept ++ chain) ->
  removed_post h (criterium_chain comp h i kept chain) (<[i := kept ++ kept_of chain]> tbl) (removed_of chain).
Proof.
  induction chain as [|he r IH]; intros h i kept tbl Et Hi; cbn [criterium_chain].
  { unfold removed_post. cbn. rewrite app_nil_r in *. rewrite list_insert_id by done. rewrite Z.sub_0_r, app_nil_r. split_and!; done || congruence. }
  rewrite removed_cons, kept_cons. destruct (removes comp (he_ptr he)).
  - set (h0 := hash_elem_unlink h i kept r). destruct (destroy_spec h0 he) as (h1 & -> & T1 & T2 & T3 & T4 & T5).
    assert (Et1 : h_table h1 = Some (<[i := kept ++ r]> tbl)) by (rewrite T1; cbn; by rewrite Et).
    destruct (IH h1 i kept _ Et1) as (P1 & P2 & P3 & P4 & P5).
    { apply list_lookup_insert_eq. by apply lookup_lt_Some in Hi. }
    unfold removed_post. rewrite list_insert_insert_eq in P1. rewrite P1, P2, P3, P4, T2, T4, T5. split; [done|]. split; [done|]. split; [done|].
    split; [cbn; unfold destroyed_all; cbn; by rewrite <- app_assoc|]. intros _. cbn [length]. rewrite Nat2Z.inj_succ.
    rewrite P5; rewrite T3; subst h0; cbn [hash_elem_unlink set_h_size h_size set_chain set_h_table]; [|apply u64_idem].
    rewrite u64_sub_l. f_equal. lia.
  - specialize (IH h i (kept ++ [he]) tbl Et). rewrite <- !app_assoc in IH. by apply IH.
Qed.

Lemma criterium_slots_spec n : forall h i tbl, h_table h = Some tbl -> (i + n = length tbl)%nat ->
  exists h', criterium_slots comp n i h = Some h' /\
    removed_post h h' (take i tbl ++ map kept_of (drop i tbl)) (removed_of (concat (drop i tbl))).
Proof.
  induction n as [|n IH]; intros h i tbl Et Hl; cbn [criterium_slots].
  { exists h. split; [done|]. rewrite drop_ge, take_ge by lia. unfold removed_post. cbn. rewrite !app_nil_r, Z.sub_0_r. split_and!; done || congruence. }
  rewrite Et. cbn [mbind option_bind]. destruct (lookup_lt_is_Some_2 tbl i) as [chain Hc]; [lia|]. rewrite Hc. cbn [mbind option_bind].
  destruct (criterium_chain_spec chain h i [] tbl Et Hc) as (P1 & P2 & P3 & P4 & P5). cbn [app] in P1.
  set (h1 := criterium_chain comp h i [] chain) in *. destruct (IH h1 (S i) _ P1) as (h' & -> & Q1 & Q2 & Q3 & Q4 & Q5); [rewrite length_insert; lia|].
  exists h'. split; [done|]. unfold removed_post. rewrite Q1, Q2, Q3, Q4, P2, P3, P4. rewrite (drop_S tbl chain i Hc).
  rewrite drop_insert_lt by lia. cbn [map concat]. unfold removed_of. rewrite filter_app, map_app. split.
  { f_equal. rewrite (take_S_r _ _ (kept_of chain)) by (by apply list_lookup_insert_eq; apply lookup_lt_Some in Hc).
    by rewrite take_insert_ge, <- app_assoc by lia. }
  split; [done|]. split; [done|]. split.
  { unfold destroyed_all. by rewrite map_app, concat_app, <- app_assoc. }
  intros Hu. specialize (P5 Hu). rewrite Q5, P5 by (rewrite P5; apply u64_idem). rewrite u64_sub_l. f_equal.
  rewrite drop_insert_lt by lia. unfold removed_of. rewrite length_app. lia.
Qed.
End Criterium.

Section Clean.
Context {hash_func : list Z -> Z -> option Z} {comp_func : list Z -> list Z -> bool} {dom : list Z -> Prop}
  `{HK : !HashKey hash_func comp_func dom}.

Abbreviation rep := (hash_rep (hash_func := hash_func) (dom := dom)).

Lemma destroyed_all_perm l k : l ≡ₚ k -> destroyed_all l ≡ₚ destroyed_all k.
Proof. intros H. unfold destroyed_all. by rewrite H. Qed.

Lemma filter_entries (P : list Z * hash_value -> Prop) `{forall x, Decision (P x)} (l : list Curl_hash_element) (m : gmap (list Z) hash_value) :
  map elem_entry l ≡ₚ map_to_list m -> map elem_entry (filter (fun e => P (elem_entry e)) l) ≡ₚ map_to_list (filter P m).
Proof.
  intros Hp. pose proof (map_entry_filter he_key value_of P l) as E. unfold entry in E. unfold elem_entry in *.
  rewrite E, Hp, map_filter_alt. symmetry. apply map_to_list_to_map.
  apply (sublist_NoDup _ (map_to_list m).*1); [apply NoDup_fst_map_to_list|apply fmap_sublist, sublist_filter].
Qed.

Lemma criterium_spec comp h m : rep h m -> exists h' ev, Curl_hash_clean_with_criterium h comp = Some h' /\
  ev ≡ₚ destroyed_all (map_to_list (filter (fun kv => removes comp kv.2.1 = true) m)) /\ h_log h' = h_log h ++ ev /\
  rep h' (filter (fun kv => removes comp kv.2.1 = false) m).
Proof.
  intros Hr. unfold Curl_hash_clean_with_criterium. pose proof Hr as (Hn & Hs & Hd & Ht). destruct (h_table h) as [tbl|] eqn:Et.
  2: { subst m. exists h, []. rewrite !map_filter_empty, map_to_list_empty, app_nil_r. done. }
  destruct Ht as (Hl & Hrep & Hnd & Hid). pose proof Hrep as [_ Hp].
  destruct (criterium_slots_spec comp (Z.to_nat (h_slots h)) h 0 tbl Et) as (h' & -> & P1 & P2 & P3 & P4 & P5); [by rewrite Hl|].
  rewrite drop_0, take_0 in *. cbn [app] in P1. exists h', (destroyed_all (map elem_entry (removed_of comp (concat tbl)))). split; [done|].
  pose proof (filter_entries (fun kv => removes comp kv.2.1 = true) (concat tbl) m Hp) as Hgone.
  split; [by apply destroyed_all_perm|]. split; [done|].
  set (m' := filter (fun kv : list Z * hash_value => removes comp kv.2.1 = false) m).
  assert (Hrep' : represents he_key value_of (slot_fn (hash_func := hash_func) (h_slots h)) (map (kept_of comp) tbl) m').
  { exact (represents_filter he_key value_of (slot_fn (hash_func := hash_func) (h_slots h)) (fun kv => removes comp kv.2.1 = false) tbl m Hrep). }
  assert (Hsz : (size m = size m' + length (removed_of comp (concat tbl)))%nat).
  { rewrite <- (represents_size _ _ _ _ _ Hrep), <- (represents_size _ _ _ _ _ Hrep'). unfold kept_of. rewrite concat_filter. apply kept_removed_length. }
  unfold hash_rep. rewrite P1, P2. split; [done|]. split.
  { rewrite P5, Hs by (rewrite Hs; apply u64_idem). rewrite u64_sub_l, Hsz. f_equal. lia. }
  split; [intros k v [Hk _]%map_lookup_filter_Some; by apply (Hd k v)|]. unfold table_rep. rewrite P2, length_map. split; [done|]. split; [done|].
  unfold kept_of. rewrite concat_filter. split.
  - eapply sublist_NoDup; [exact Hnd|]. apply fmap_sublist, sublist_filter.
  - rewrite P3. rewrite Forall_forall in *. intros e [_ He]%list_elem_of_filter. by apply Hid.
Qed.
End Clean.

(** * Iteration goes through the elements *)

Lemma split_at_first {E} (f : E -> bool) l e r : Forall (fun x => f x = false) l -> f e = true -> split_at f (l ++ e :: r) = Some (l, e, r).
Proof. intros Hl He. induction Hl as [|x l Hx _ IH]; cbn; [by rewrite He|]. by rewrite Hx, IH. Qed.

Lemma split_at_no {E} (f : E -> bool) l : Forall (fun x => f x = false) l -> split_at f l = None.
Proof. intros Hl. induction Hl as [|x l Hx _ IH]; cbn; [done|]. by rewrite Hx, IH. Qed.

Lemma elem_next_spec tbl : forall j l e r, NoDup (map he_id (concat tbl)) -> tbl !! j = Some (l ++ e :: r) ->
  elem_next tbl (he_id e) = Some (head r).
Proof.
  induction tbl as [|c tbl IH]; intros j l e r Hnd Hj; [done|]. cbn [concat] in Hnd. rewrite map_app in Hnd. apply NoDup_app in Hnd as (Hc & Hdis & Ht).
  cbn [elem_next]. destruct j as [|j].
  - injection Hj as ->. rewrite (split_at_first _ l e r); [done| |by apply bool_decide_true].
    rewrite map_app in Hc. cbn [map] in Hc. apply NoDup_app in Hc as (_ & Hl & _). apply Forall_forall. intros x Hx. apply bool_decide_false. intros E.
    apply (Hl (he_id x)); [by apply list_elem_of_In, in_map, list_elem_of_In|]. rewrite E. apply elem_of_cons. by left.
  - cbn in Hj. rewrite split_at_no; [by eapply IH|]. apply Forall_forall. intros x Hx. apply bool_decide_false. intros E.
    apply (Hdis (he_id x)); [by apply list_elem_of_In, in_map, list_elem_of_In|]. rewrite E. apply list_elem_of_In, in_map, list_elem_of_In.
    eapply in_slot; [exact Hj|]. set_solver.
Qed.

Lemma first_slot_spec n : forall i tbl, (i + n = length tbl)%nat ->
  match concat (drop i tbl) with
  | [] => first_slot n i tbl = Some None
  | e :: rest => exists j r, first_slot n i tbl = Some (Some (e, S j)) /\ tbl !! j = Some (e :: r) /\ rest = r ++ concat (drop (S j) tbl)
  end.
Proof.
  induction n as [|n IH]; intros i tbl Hl; cbn [first_slot].
  { by rewrite drop_ge by lia. }
  destruct (lookup_lt_is_Some_2 tbl i) as [c Hc]; [lia|]. rewrite Hc, (drop_S _ _ _ Hc). cbn [mbind option_bind concat]. destruct c as [|e r]; cbn [app].
  - apply IH. lia.
  - by exists i, r.
Qed.

(** The elements an iterator has in front of it. *)
Definition iter_rep (tbl : list (list Curl_hash_element)) (it : Curl_hash_iterator) (rest : list Curl_hash_element) : Prop :=
  match it_current it with
  | None => rest = concat (drop (it_slot_index it) tbl)
  | Some id => exists j l e r, tbl !! j = Some (l ++ e :: r) /\ id = he_id e /\ it_slot_index it = S j /\ rest = r ++ concat (drop (S j) tbl)
  end.

Lemma next_element_spec h tbl it rest : h_table h = Some tbl -> length tbl = Z.to_nat (h_slots h) -> NoDup (map he_id (concat tbl)) ->
  (it_slot_index it <= length tbl)%nat -> iter_rep tbl it rest ->
  exists it', Curl_hash_next_element h it = Some (head rest, it') /\ iter_rep tbl it' (tail rest) /\ (it_slot_index it' <= length tbl)%nat.
Proof.
  intros Et Hl Hnd Hs Hit. unfold Curl_hash_next_element. rewrite Et.
  assert (Hscan : rest = concat (drop (it_slot_index it) tbl) -> exists it',
    (f ← first_slot (Z.to_nat (h_slots h) - it_slot_index it) (it_slot_index it) tbl;
     match f with
     | Some (he, i) => Some (Some he, Iter i (Some (he_id he)))
     | None => Some (None, Iter (it_slot_index it) None)
     end) = Some (head rest, it') /\ iter_rep tbl it' (tail rest) /\ (it_slot_index it' <= length tbl)%nat).
  { intros ->. pose proof (first_slot_spec (Z.to_nat (h_slots h) - it_slot_index it) (it_slot_index it) tbl ltac:(lia)) as Hf.
    destruct (concat (drop (it_slot_index it) tbl)) as [|e rest] eqn:E.
    - rewrite Hf. cbn [mbind option_bind]. eexists. split; [done|]. split; [by unfold iter_rep|done].
    - destruct Hf as (j & r & -> & Hj & ->). cbn [mbind option_bind]. eexists. split; [done|]. cbn [it_slot_index tail]. split.
      + exists j, [], e, r. done.
      + apply lookup_lt_Some in Hj. lia. }
  unfold iter_rep in Hit. destruct (it_current it) as [id|]; [|by apply Hscan]. destruct Hit as (j & l & e & r & Hj & -> & Hi & ->).
  rewrite (elem_next_spec tbl j l e r Hnd Hj). cbn [mbind option_bind]. destruct r as [|e2 r]; cbn [head].
  - cbn [app] in *. apply Hscan. by rewrite Hi.
  - eexists. split; [done|]. cbn [tail app it_slot_index]. split; [|done]. exists j, (l ++ [e]), e2, r. rewrite <- app_assoc. done.
Qed.

Lemma iterate_spec fuel : forall h tbl it rest, h_table h = Some tbl -> length tbl = Z.to_nat (h_slots h) -> NoDup (map he_id (concat tbl)) ->
  (it_slot_index it <= length tbl)%nat -> iter_rep tbl it rest -> (length rest < fuel)%nat -> iterate fuel h it = Some rest.
Proof.
  induction fuel as [|fuel IH]; intros h tbl it rest Et Hl Hnd Hs Hit Hf; [lia|]. cbn [iterate].
  destruct (next_element_spec h tbl it rest Et Hl Hnd Hs Hit) as (it' & -> & Hit' & Hs'). cbn [mbind option_bind].
  destruct rest as [|e rest]; cbn [head]; [done|]. cbn in Hf. by rewrite (IH h tbl it' rest Et Hl Hnd Hs' Hit') by lia.
Qed.

(** * Tables refine maps *)

Section Refines.
Context {hash_func : list Z -> Z -> option Z} {comp_func : list Z -> list Z -> bool} {dom : list Z -> Prop}
  `{HK : !HashKey hash_func comp_func dom}.

Abbreviation rep := (hash_rep (hash_func := hash_func) (dom := dom)).

Lemma Curl_hash_clean_none h : Curl_hash_clean h = Curl_hash_clean_with_criterium h None.
Proof. unfold Curl_hash_clean, Curl_hash_clean_with_criterium. destruct (h_table h); [|done]. apply clean_slots_criterium. Qed.

Lemma clean_spec h m : rep h m -> exists h' ev, Curl_hash_clean h = Some h' /\ ev ≡ₚ destroyed_all (map_to_list m) /\ h_log h' = h_log h ++ ev /\ rep h' ∅.
Proof.
  intros Hr. rewrite Curl_hash_clean_none. destruct (criterium_spec None h m Hr) as (h' & ev & -> & He & Hl & Hr'). cbn [removes] in *.
  rewrite map_filter_id in He by done. rewrite (proj2 (map_empty_filter _ m)) in Hr' by done. by exists h', ev.
Qed.

Lemma step_spec h m op o : rep h m -> hash_op_ok (dom := dom) op ->
  step_post (hash_func := hash_func) (dom := dom) h m op (hash_step hash_func comp_func o h op).
Proof.
  intros Hr Hok. destruct op as [k p d|k|k| | |comp|]; cbn [hash_op_ok] in Hok.
  - by apply hash_add_spec.
  - by apply delete_spec.
  - by apply pick_spec.
  - by apply hash_count_spec.
  - destruct (clean_spec h m Hr) as (h' & ev & E & He & Hl & Hr'). unfold step_post, hash_step. rewrite E. cbn [mbind option_bind].
    exists h', O_done, o, ev, ∅. split; [done|]. split; [by constructor|done].
  - destruct (criterium_spec comp h m Hr) as (h' & ev & E & He & Hl & Hr'). unfold step_post, hash_step. rewrite E. cbn [mbind option_bind].
    do 5 eexists. split; [done|]. split; [by constructor|done].
  - unfold step_post, hash_step. assert (Hit : exists l, iterate (S match h_table h with Some tbl => length (concat tbl) | None => 0%nat end) h Curl_hash_start_iterate = Some l /\
      map (fun e => (he_key e, value_of e)) l ≡ₚ map_to_list m).
    { destruct Hr as (_ & _ & _ & Ht). destruct (h_table h) as [tbl|] eqn:Et.
      - destruct Ht as (Hl & [_ Hp] & Hnd & _). exists (concat tbl). split; [|exact Hp].
        apply (iterate_spec _ h tbl); [done|done|done|cbn; lia|by unfold iter_rep|lia].
      - subst m. exists []. cbn. unfold Curl_hash_next_element. rewrite Et. by rewrite map_to_list_empty. }
    destruct Hit as (l & -> & Hl). cbn [mbind option_bind]. exists h, (O_list l), o, [], m. split; [done|]. split; [by constructor|]. by rewrite app_nil_r.
Qed.

(** A sequence of operations on a map. *)
Inductive hash_spec_run : gmap (list Z) hash_value -> list hash_op -> list hash_out -> list dtor_call -> gmap (list Z) hash_value -> Prop :=
  | spec_run_nil m : hash_spec_run m [] [] [] m
  | spec_run_cons m op ops out outs ev evs m1 m2 : hash_spec m op out ev m1 -> hash_spec_run m1 ops outs evs m2 ->
      hash_spec_run m (op :: ops) (out :: outs) (ev ++ evs) m2.

Lemma run_spec ops : forall h m o, rep h m -> Forall (hash_op_ok (dom := dom)) ops ->
  exists h' outs o' ev m', hash_run hash_func comp_func o h ops = Some (h', outs, o') /\ hash_spec_run m ops outs ev m' /\
    h_log h' = h_log h ++ ev /\ rep h' m'.
Proof.
  induction ops as [|op ops IH]; intros h m o Hr Hops; cbn [hash_run].
  { exists h, [], o, [], m. rewrite app_nil_r. split; [done|]. split; [constructor|done]. }
  apply Forall_cons in Hops as [Hop Hops]. destruct (step_spec h m op o Hr Hop) as (h1 & out & o1 & ev & m1 & -> & Hs & Hl & Hr1).
  cbn [mbind option_bind]. destruct (IH h1 m1 o1 Hr1 Hops) as (h2 & outs & o2 & evs & m2 & -> & Hss & Hl2 & Hr2). cbn [mbind option_bind].
  exists h2, (out :: outs), o2, (ev ++ evs), m2. split; [done|]. split; [by econstructor|]. by rewrite Hl2, Hl, <- app_assoc.
Qed.
End Refines.

(** * Every pointer is destroyed once *)

Definition ptr_of (d : dtor_call) : Z := match d with D_elem _ _ p | D_hash p => p end.

(** The pointers that destructors will be called for. *)
Definition live (m : gmap (list Z) hash_value) : list Z := map ptr_of (destroyed_all (map_to_list m)).

(** The pointers a table accepts. *)
Definition accepted (op : hash_op) (out : hash_out) : list Z :=
  match op, out with H_add _ _ _, O_ptr p => if p =? 0 then [] else [p] | _, _ => [] end.

Lemma destroyed_ptr k p d : map ptr_of (destroyed k (p, d)) = if p =? 0 then [] else [p].
Proof. unfold destroyed. cbn [fst snd]. destruct (p =? 0); [done|]. by destruct d. Qed.

Lemma live_insert m k v : m !! k = None -> live (<[k := v]> m) ≡ₚ map ptr_of (destroyed k v) ++ live m.
Proof. intros Hm. unfold live, destroyed_all. rewrite (map_to_list_insert m k v Hm). cbn [map concat]. by rewrite map_app. Qed.

Lemma live_delete m k v : m !! k = Some v -> live m ≡ₚ map ptr_of (destroyed k v) ++ live (delete k m).
Proof. intros Hm. rewrite <- (insert_delete_id m k v Hm) at 1. by rewrite live_insert by apply lookup_delete_eq. Qed.

Lemma live_filter (P : list Z * hash_value -> Prop) `{forall x, Decision (P x)} (m : gmap (list Z) hash_value) :
  live m ≡ₚ live (filter P m) ++ live (filter (fun x => ~ P x) m).
Proof.
  assert (Hf : forall (Q : list Z * hash_value -> Prop) (dec : forall x, Decision (Q x)), map_to_list (filter Q m) ≡ₚ filter Q (map_to_list m)).
  { intros Q dec. rewrite map_filter_alt. apply map_to_list_to_map.
    apply (sublist_NoDup _ (map_to_list m).*1); [apply NoDup_fst_map_to_list|apply fmap_sublist, sublist_filter]. }
  unfold live, destroyed_all. rewrite <- map_app, <- concat_app, <- map_app, !Hf. by rewrite filter_app_complement.
Qed.

Lemma spec_owns m op out ev m' : hash_spec m op out ev m' -> map ptr_of ev ++ live m' ≡ₚ live m ++ accepted op out.
Proof.
  assert (Hperm : forall l, l ≡ₚ destroyed_all (map_to_list m) -> map ptr_of l ≡ₚ live m) by (intros l ->; done).
  intros H. destruct H; cbn [accepted map app]; rewrite ?app_nil_r; try done.
  - rewrite <- insert_delete_eq, live_insert by apply lookup_delete_eq. rewrite destroyed_ptr.
    destruct (m !! k) as [v|] eqn:Em.
    + rewrite (live_delete m k v Em). solve_Permutation.
    + rewrite delete_id by done. cbn. solve_Permutation.
  - by rewrite (live_delete m k v).
  - by rewrite Hperm.
  - assert (E : filter (fun kv : list Z * hash_value => removes comp kv.2.1 = false) m = filter (fun kv => ~ removes comp kv.2.1 = true) m).
    { apply map_filter_ext. intros k v _. cbn. by destruct (removes comp v.1). }
    rewrite E. rewrite (live_filter (fun kv => removes comp kv.2.1 = true) m). f_equiv. by rewrite H.
Qed.

Lemma run_owns m ops outs ev m' : hash_spec_run m ops outs ev m' -> map ptr_of ev ++ live m' ≡ₚ live m ++ concat (zip_with accepted ops outs).
Proof.
  induction 1 as [m|m op ops out outs ev evs m1 m2 Hs _ IH]; cbn [map app zip_with concat]; [by rewrite app_nil_r|].
  apply spec_owns in Hs. rewrite map_app, <- app_assoc, IH, app_assoc, Hs. by rewrite <- app_assoc.
Qed.

Lemma destroy_table_spec {hash_func comp_func dom} `{!HashKey hash_func comp_func dom} h m :
  hash_rep (hash_func := hash_func) (dom := dom) h m -> exists h' ev, Curl_hash_destroy h = Some h' /\ h_table h' = None /\ h_size h' = 0 /\
    h_log h' = h_log h ++ ev /\ ev ≡ₚ destroyed_all (map_to_list m).
Proof.
  intros Hr. unfold Curl_hash_destroy. destruct (clean_spec h m Hr) as (h1 & ev & E & He & Hl & Hr1). pose proof Hr as (_ & Hs & _ & Ht).
  destruct (h_table h) as [tbl|] eqn:Et.
  - rewrite E. cbn [mbind option_bind]. eexists _, ev. split; [done|]. cbn. split; [done|]. split; [|done]. destruct Hr1 as (_ & -> & _). by rewrite map_size_empty.
  - cbn [mbind option_bind]. subst m. eexists _, []. split; [done|]. cbn. split; [done|]. rewrite Hs, map_size_empty. split; [done|].
    by rewrite app_nil_r, map_to_list_empty.
Qed.

(** C33: on the keys a hash function and a comparison are made for, any
    sequence of operations on a table, whatever allocations fail, stays inside
    its slots and answers like a finite map: adding replaces, deleting removes,
    looking up finds, counting counts, iterating lists every entry once, and
    the destructors that run are the ones of the entries that go.  A table that
    is destroyed has destroyed the entries that were left. *)
Theorem hash_refines_map hash_func comp_func dom `{!HashKey hash_func comp_func dom} n o ops :
  0 < n <= INT_MAX -> Forall (hash_op_ok (dom := dom)) ops ->
  exists h outs o' m, hash_run hash_func comp_func o (Curl_hash_init n) ops = Some (h, outs, o') /\ hash_spec_run ∅ ops outs (h_log h) m /\
    exists h' ev, Curl_hash_destroy h = Some h' /\ h_table h' = None /\ h_size h' = 0 /\ h_log h' = h_log h ++ ev /\
      ev ≡ₚ destroyed_all (map_to_list m).
Proof.
  intros Hn Hops. destruct (run_spec ops (Curl_hash_init n) ∅ o (hash_rep_init n Hn) Hops) as (h & outs & o' & ev & m & E & Hs & Hl & Hr).
  exists h, outs, o', m. split; [done|]. split; [by rewrite Hl|]. by apply destroy_table_spec.
Qed.

(** Host names as keys: two entries are replaced and deleted. *)
Definition host_ops : list hash_op :=
  [H_add (str "curl.se") 11 None; H_add (str "haxx.se") 12 (Some 7); H_add (str "curl.se") 13 None; H_count; H_list; H_pick (str "curl.se");
   H_delete (str "haxx.se"); H_pick (str "haxx.se"); H_add (str "localhost") 14 None; H_criterium (Some (fun p => p =? 14)); H_count].

Lemma hash_refines_map_witness : exists h outs o' m, hash_run Curl_hash_str curlx_str_key_compare [] (Curl_hash_init 7) host_ops = Some (h, outs, o') /\
  hash_spec_run ∅ host_ops outs (h_log h) m.
Proof.
  destruct (hash_refines_map Curl_hash_str curlx_str_key_compare (fun _ => True) 7 [] host_ops) as (h & outs & o' & m & E & Hs & _).
  - by vm_compute.
  - repeat constructor.
  - exists h, outs, o', m. split; [exact E|exact Hs].
Defined.

(** C34: every pointer a table accepted is handed to a destructor exactly once:
    when it is replaced, removed, or when the table is destroyed. *)
Theorem hash_destroys_once hash_func comp_func dom `{!HashKey hash_func comp_func dom} n o ops :
  0 < n <= INT_MAX -> Forall (hash_op_ok (dom := dom)) ops ->
  exists h outs o' h', hash_run hash_func comp_func o (Curl_hash_init n) ops = Some (h, outs, o') /\ Curl_hash_destroy h = Some h' /\
    map ptr_of (h_log h') ≡ₚ concat (zip_with accepted ops outs).
Proof.
  intros Hn Hops. destruct (run_spec ops (Curl_hash_init n) ∅ o (hash_rep_init n Hn) Hops) as (h & outs & o' & ev & m & E & Hs & Hl & Hr).
  destruct (destroy_table_spec h m Hr) as (h' & ev' & Ed & _ & _ & Hl' & He). exists h, outs, o', h'. split; [done|]. split; [done|].
  rewrite Hl', Hl. cbn [Curl_hash_init h_log app]. rewrite map_app, He. fold (live m). rewrite (run_owns _ _ _ _ _ Hs). unfold live. by rewrite map_to_list_empty.
Qed.

Lemma hash_destroys_once_witness : exists h outs o' h', hash_run mev_sh_entry_hash mev_sh_entry_compare [true; true; false] (Curl_hash_init 3)
    [H_add (socket_key 5) 21 None; H_add (socket_key 8) 22 None; H_add (socket_key 2147483647) 23 None; H_add (socket_key 5) 24 None] = Some (h, outs, o') /\
  Curl_hash_destroy h = Some h' /\ map ptr_of (h_log h') ≡ₚ [21; 23; 24].
Proof.
  destruct (hash_destroys_once mev_sh_entry_hash mev_sh_entry_compare is_socket_key 3 [true; true; false]
    [H_add (socket_key 5) 21 None; H_add (socket_key 8) 22 None; H_add (socket_key 2147483647) 23 None; H_add (socket_key 5) 24 None])
    as (h & outs & o' & h' & E & Ed & Hp).
  - by vm_compute.
  - repeat (apply Forall_cons_2 || apply Forall_nil_2); first [exists 5; by vm_compute|exists 8; by vm_compute|exists 2147483647; by vm_compute].
  - exists h, outs, o', h'. split; [exact E|]. split; [exact Ed|]. vm_compute in E. injection E as <- <- <-. exact Hp.
Defined.
