(* ===== verification/UintHash.v ===== *)
(** Hash tables with 32-bit keys, lib/uint-hash.c: chains again, with the
    remainder of the key as its slot.  A table behaves as a finite map. *)

From Stdlib Require Import ZArith Lia List.
From stdpp Require Import base numbers option list gmap.
From S2P Require Import Prelude Chains.
Close Scope nat_scope.
Open Scope Z_scope.

(** * Data *)

Record uint_hash_entry := UE { ue_value : Z; ue_id : Z }.

(** [struct uint_hash]; [uh_dtor] says whether there is a destructor, and
    [uh_log] are its calls so far. *)
Record uint_hash := UH { uh_table : option (list (list uint_hash_entry)); uh_dtor : bool; uh_slots : Z; uh_size : Z; uh_log : list (Z * Z) }.

Definition set_uh_table (h : uint_hash) (t : option (list (list uint_hash_entry))) := UH t (uh_dtor h) (uh_slots h) (uh_size h) (uh_log h).
Definition set_uh_size (h : uint_hash) (n : Z) := UH (uh_table h) (uh_dtor h) (uh_slots h) n (uh_log h).

Definition set_uh_chain (h : uint_hash) (i : nat) (chain : list uint_hash_entry) : uint_hash :=
  set_uh_table h ((fun t => <[i := chain]> t) <$> uh_table h).

(** A remainder by 0 is undefined. *)
Definition uint32_hash_hash (id slots : Z) : option Z := if slots =? 0 then None else Some (id mod slots).

Definition Curl_uint32_hash_init (slots : Z) (dtor : bool) : uint_hash := UH None dtor slots 0 [].

Definition uint32_hash_mk_entry (ok : bool) (id value : Z) : option uint_hash_entry := if ok then Some (UE value id) else None.

Definition uint32_hash_entry_clear (h : uint_hash) (e : uint_hash_entry) : uint_hash * uint_hash_entry :=
  if negb (ue_value e =? 0) then
    (if uh_dtor h then UH (uh_table h) (uh_dtor h) (uh_slots h) (uh_size h) (uh_log h ++ [(ue_id e, ue_value e)]) else h, UE 0 (ue_id e))
  else (h, e).

Definition uint32_hash_entry_destroy (h : uint_hash) (e : uint_hash_entry) : uint_hash := (uint32_hash_entry_clear h e).1.

Definition uint32_hash_entry_unlink (h : uint_hash) (i : nat) (l r : list uint_hash_entry) : uint_hash :=
  let h := set_uh_chain h i (l ++ r) in set_uh_size h (u32 (uh_size h - 1)).

Definition uint32_hash_elem_link (h : uint_hash) (i : nat) (e : uint_hash_entry) (chain : list uint_hash_entry) : uint_hash :=
  let h := set_uh_chain h i (e :: chain) in set_uh_size h (u32 (uh_size h + 1)).

Definition CURL_UINT32_HASH_SLOT (h : uint_hash) (id : Z) : option (nat * list uint_hash_entry) :=
  tbl ← uh_table h;
  i ← uint32_hash_hash id (uh_slots h);
  chain ← tbl !! Z.to_nat i;
  Some (Z.to_nat i, chain).

Definition find_id (id : Z) (chain : list uint_hash_entry) := split_at (fun e => ue_id e =? id) chain.

Definition Curl_uint32_hash_set (o : allocs) (h : uint_hash) (id value : Z) : option (uint_hash * bool * allocs) :=
  let '(h, ok, o) :=
    match uh_table h with
    | Some _ => (h, true, o)
    | None =>
        let '(ok, o) := next_alloc o in
        (if ok then set_uh_table h (Some (replicate (Z.to_nat (uh_slots h)) [])) else h, ok, o)
    end in
  if negb ok then Some (h, false, o)
  else
    '(i, chain) ← CURL_UINT32_HASH_SLOT h id;
    match find_id id chain with
    | Some (l, e, r) =>
        let '(h, e) := uint32_hash_entry_clear h e in
        Some (set_uh_chain h i (l ++ UE value (ue_id e) :: r), true, o)
    | None =>
        let '(ok, o) := next_alloc o in
        match uint32_hash_mk_entry ok id value with
        | None => Some (h, false, o)
        | Some e => Some (uint32_hash_elem_link h i e chain, true, o)
        end
    end.

Definition Curl_uint32_hash_remove (h : uint_hash) (id : Z) : option (uint_hash * bool) :=
  match uh_table h with
  | None => Some (h, false)
  | Some _ =>
      '(i, chain) ← CURL_UINT32_HASH_SLOT h id;
      match find_id id chain with
      | Some (l, e, r) => Some (uint32_hash_entry_destroy (uint32_hash_entry_unlink h i l r) e, true)
      | None => Some (h, false)
      end
  end.

Definition Curl_uint32_hash_get (h : uint_hash) (id : Z) : option Z :=
  match uh_table h with
  | None => Some 0
  | Some _ =>
      '(_, chain) ← CURL_UINT32_HASH_SLOT h id;
      match find_id id chain with
      | Some (_, e, _) => Some (ue_value e)
      | None => Some 0
      end
  end.

Fixpoint clear_uint_chain (h : uint_hash) (i : nat) (chain : list uint_hash_entry) : uint_hash :=
  match chain with
  | [] => h
  | e :: r => clear_uint_chain (uint32_hash_entry_destroy (uint32_hash_entry_unlink h i [] r) e) i r
  end.

Fixpoint clear_uint_slots (n i : nat) (h : uint_hash) : option uint_hash :=
  match n with
  | O => Some h
  | S n =>
      tbl ← uh_table h;
      chain ← tbl !! i;
      clear_uint_slots n (S i) (clear_uint_chain h i chain)
  end.

Definition uint_hash_clear (h : uint_hash) : option uint_hash :=
  match uh_table h with None => Some h | Some _ => clear_uint_slots (Z.to_nat (uh_slots h)) 0 h end.

Definition Curl_uint32_hash_destroy (h : uint_hash) : option uint_hash :=
  h ← (match uh_table h with None => Some h | Some _ => h ← uint_hash_clear h; Some (set_uh_table h None) end);
  Some (UH (uh_table h) (uh_dtor h) 0 (uh_size h) (uh_log h)).

Definition Curl_uint32_hash_count (h : uint_hash) : Z := uh_size h.

(** The callback gets its user data, which it changes, and says whether to go
    on. *)
Fixpoint visit_chain {A} (cb : A -> Z -> Z -> A * bool) (a : A) (chain : list uint_hash_entry) : A * bool :=
  match chain with
  | [] => (a, true)
  | e :: r => let '(a, more) := cb a (ue_id e) (ue_value e) in if (more : bool) then visit_chain cb a r else (a, false)
  end.

Fixpoint visit_slots {A} (cb : A -> Z -> Z -> A * bool) (n i : nat) (tbl : list (list uint_hash_entry)) (a : A) : option A :=
  match n with
  | O => Some a
  | S n =>
      chain ← tbl !! i;
      let '(a, more) := visit_chain cb a chain in
      if (more : bool) then visit_slots cb n (S i) tbl a else Some a
  end.

Definition Curl_uint32_hash_visit {A} (h : uint_hash) (cb : A -> Z -> Z -> A * bool) (a : A) : option A :=
  match uh_table h with None => Some a | Some tbl => visit_slots cb (Z.to_nat (uh_slots h)) 0 tbl a end.

(** * Sequences of operations *)

Inductive uhash_op := U_set (id value : Z) | U_remove (id : Z) | U_get (id : Z) | U_count | U_clear | U_visit (n : nat).

Inductive uhash_out := V_bool (b : bool) | V_value (v : Z) | V_count (n : Z) | V_done | V_seen (l : list (Z * Z)).

(** A callback that collects [n] entries at most. *)
Definition collect (n : nat) (l : list (Z * Z)) (id value : Z) : list (Z * Z) * bool :=
  let l := l ++ [(id, value)] in (l, negb (n <=? length l)%nat).

Definition uhash_step (o : allocs) (h : uint_hash) (op : uhash_op) : option (uint_hash * uhash_out * allocs) :=
  match op with
  | U_set id v => '(h, b, o) ← Curl_uint32_hash_set o h id v; Some (h, V_bool b, o)
  | U_remove id => '(h, b) ← Curl_uint32_hash_remove h id; Some (h, V_bool b, o)
  | U_get id => v ← Curl_uint32_hash_get h id; Some (h, V_value v, o)
  | U_count => Some (h, V_count (Curl_uint32_hash_count h), o)
  | U_clear => h ← uint_hash_clear h; Some (h, V_done, o)
  | U_visit n => l ← Curl_uint32_hash_visit h (collect n) []; Some (h, V_seen l, o)
  end.

Fixpoint uhash_run (o : allocs) (h : uint_hash) (ops : list uhash_op) : option (uint_hash * list uhash_out * allocs) :=
  match ops with
  | [] => Some (h, [], o)
  | op :: ops =>
      '(h, out, o) ← uhash_step o h op;
      '(h, outs, o) ← uhash_run o h ops;
      Some (h, out :: outs, o)
  end.

(** * The map a table stands for *)

Definition uslot (n id : Z) : nat := Z.to_nat (id mod n).

Definition uh_rep (h : uint_hash) (m : gmap Z Z) : Prop :=
  0 < uh_slots h < 2 ^ 32 /\ uh_size h = u32 (Z.of_nat (size m)) /\
  match uh_table h with
  | None => m = ∅
  | Some tbl => length tbl = Z.to_nat (uh_slots h) /\ represents ue_id ue_value (uslot (uh_slots h)) tbl m
  end.

(** The call of the destructor for an entry. *)
Definition ended (dtor : bool) (id v : Z) : list (Z * Z) := if (v =? 0) || negb dtor then [] else [(id, v)].

Definition ended_all (dtor : bool) (l : list (Z * Z)) : list (Z * Z) := concat (map (fun '(k, v) => ended dtor k v) l).

Lemma uh_rep_init n d : 0 < n < 2 ^ 32 -> uh_rep (Curl_uint32_hash_init n d) ∅.
Proof. intros Hn. split; [exact Hn|]. split; [by rewrite map_size_empty|done]. Qed.

Lemma uslot_found h m tbl id : uh_rep h m -> uh_table h = Some tbl -> 0 <= id ->
  exists chain, tbl !! uslot (uh_slots h) id = Some chain /\ CURL_UINT32_HASH_SLOT h id = Some (uslot (uh_slots h) id, chain).
Proof.
  intros (Hn & _ & Ht) Et Hid. rewrite Et in Ht. destruct Ht as [Hl _]. pose proof (Z.mod_pos_bound id (uh_slots h) ltac:(lia)) as Hb.
  unfold uslot. destruct (lookup_lt_is_Some_2 tbl (Z.to_nat (id mod uh_slots h))) as [chain Hc]; [lia|]. exists chain. split; [done|].
  unfold CURL_UINT32_HASH_SLOT, uint32_hash_hash. rewrite Et, (proj2 (Z.eqb_neq (uh_slots h) 0)) by lia. cbn [mbind option_bind]. by rewrite Hc.
Qed.

Definition ufound_post (tbl : list (list uint_hash_entry)) (h : uint_hash) (m : gmap Z Z) (id : Z)
    (r : option (list uint_hash_entry * uint_hash_entry * list uint_hash_entry)) : Prop :=
  match r with
  | Some (l, e, r) => tbl !! uslot (uh_slots h) (ue_id e) = Some (l ++ e :: r) /\ ue_id e = id /\ m !! id = Some (ue_value e)
  | None => m !! id = None
  end.

Lemma find_id_spec h m tbl id chain : uh_rep h m -> uh_table h = Some tbl -> tbl !! uslot (uh_slots h) id = Some chain ->
  ufound_post tbl h m id (find_id id chain).
Proof.
  intros (_ & _ & Ht) Et Hc. rewrite Et in Ht. destruct Ht as [_ Hrep]. unfold find_id. destruct (split_at _ chain) as [[[l e] r]|] eqn:E.
  - apply split_at_some in E as [-> He]. apply Z.eqb_eq in He. unfold ufound_post. rewrite He. split; [done|]. split; [done|]. by eapply represents_found.
  - cbn. eapply represents_missing; [exact Hrep|exact Hc|]. apply split_at_none in E. eapply Forall_impl; [exact E|]. cbn. intros e. by rewrite Z.eqb_neq.
Qed.

Lemma u32_add_l a b : u32 (u32 a + b) = u32 (a + b).
Proof. unfold u32. by rewrite Zplus_mod_idemp_l. Qed.

Lemma u32_sub_l a b : u32 (u32 a - b) = u32 (a - b).
Proof. unfold u32. by rewrite Zminus_mod_idemp_l. Qed.

Lemma uclear_spec h e : exists h' e', uint32_hash_entry_clear h e = (h', e') /\ uh_table h' = uh_table h /\ uh_slots h' = uh_slots h /\
  uh_size h' = uh_size h /\ uh_dtor h' = uh_dtor h /\ uh_log h' = uh_log h ++ ended (uh_dtor h) (ue_id e) (ue_value e) /\ ue_id e' = ue_id e.
Proof.
  unfold uint32_hash_entry_clear, ended. destruct (Z.eqb_spec (ue_value e) 0) as [E|E]; cbn [negb orb]; do 2 eexists.
  - split; [done|]. by rewrite app_nil_r.
  - split; [done|]. destruct (uh_dtor h) eqn:Ed; cbn; rewrite ?app_nil_r; split_and!; done.
Qed.

Lemma udestroy_spec h e : exists h', uint32_hash_entry_destroy h e = h' /\ uh_table h' = uh_table h /\ uh_slots h' = uh_slots h /\
  uh_size h' = uh_size h /\ uh_dtor h' = uh_dtor h /\ uh_log h' = uh_log h ++ ended (uh_dtor h) (ue_id e) (ue_value e).
Proof. unfold uint32_hash_entry_destroy. destruct (uclear_spec h e) as (h' & e' & -> & H1 & H2 & H3 & H4 & H5 & _). by exists h'. Qed.

(** The map behind an operation, and the destructor calls it makes. *)
Inductive uhash_spec (d : bool) (m : gmap Z Z) : uhash_op -> uhash_out -> list (Z * Z) -> gmap Z Z -> Prop :=
  | uspec_set id v : uhash_spec d m (U_set id v) (V_bool true) (match m !! id with Some w => ended d id w | None => [] end) (<[id := v]> m)
  | uspec_set_fails id v : m !! id = None -> uhash_spec d m (U_set id v) (V_bool false) [] m
  | uspec_remove id v : m !! id = Some v -> uhash_spec d m (U_remove id) (V_bool true) (ended d id v) (delete id m)
  | uspec_remove_none id : m !! id = None -> uhash_spec d m (U_remove id) (V_bool false) [] m
  | uspec_get id : uhash_spec d m (U_get id) (V_value (default 0 (m !! id))) [] m
  | uspec_count : uhash_spec d m U_count (V_count (u32 (Z.of_nat (size m)))) [] m
  | uspec_clear ev : ev ≡ₚ ended_all d (map_to_list m) -> uhash_spec d m U_clear V_done ev ∅
  | uspec_visit n l : l ≡ₚ map_to_list m -> uhash_spec d m (U_visit n) (V_seen (take (Nat.max 1 n) l)) [] m.

Definition uhash_op_ok (op : uhash_op) : Prop := match op with U_set id _ | U_remove id | U_get id => 0 <= id < 2 ^ 32 | _ => True end.

Definition ustep_post (h : uint_hash) (m : gmap Z Z) (op : uhash_op) (r : option (uint_hash * uhash_out * allocs)) : Prop :=
  exists h' out o' ev m', r = Some (h', out, o') /\ uhash_spec (uh_dtor h) m op out ev m' /\ uh_log h' = uh_log h ++ ev /\ uh_dtor h' = uh_dtor h /\ uh_rep h' m'.

Lemma uset_elem h m tbl id v o : uh_rep h m -> uh_table h = Some tbl -> 0 <= id < 2 ^ 32 ->
  exists h' b o', ('(i, chain) ← CURL_UINT32_HASH_SLOT h id;
    match find_id id chain with
    | Some (l, e, r) =>
        let '(h, e) := uint32_hash_entry_clear h e in
        Some (set_uh_chain h i (l ++ UE v (ue_id e) :: r), true, o)
    | None =>
        let '(ok, o) := next_alloc o in
        match uint32_hash_mk_entry ok id v with
        | None => Some (h, false, o)
        | Some e => Some (uint32_hash_elem_link h i e chain, true, o)
        end
    end) = Some (h', b, o') /\ exists ev m', uhash_spec (uh_dtor h) m (U_set id v) (V_bool b) ev m' /\ uh_log h' = uh_log h ++ ev /\
    uh_dtor h' = uh_dtor h /\ uh_rep h' m'.
Proof.
  intros Hr Et Hid. destruct (uslot_found h m tbl id Hr Et ltac:(lia)) as (chain & Hc & ->). cbn [mbind option_bind].
  pose proof (find_id_spec h m tbl id chain Hr Et Hc) as Hf. pose proof Hr as (Hn & Hs & Ht). rewrite Et in Ht. destruct Ht as [Hl Hrep].
  destruct (find_id id chain) as [[[l e] r]|]; cbn [ufound_post] in Hf.
  - destruct Hf as (Hsl & Hkey & Hm). destruct (uclear_spec h e) as (h1 & e1 & -> & T1 & T2 & T3 & T4 & T5 & T6).
    do 3 eexists. split; [done|]. do 2 eexists. split; [apply uspec_set|]. rewrite Hm. split; [cbn; by rewrite T5, Hkey|]. split; [done|].
    unfold uh_rep. cbn. rewrite T1, T2, T3, Et. cbn. split; [done|]. split.
    { by rewrite Hs, map_size_insert_Some by (by exists (ue_value e)). }
    rewrite length_insert. split; [done|]. rewrite <- Hkey. apply (represents_change ue_id ue_value _ tbl m l e (UE v (ue_id e1)) r); done.
  - destruct (next_alloc o) as [[] o']; cbn [uint32_hash_mk_entry]; do 3 eexists; (split; [done|]).
    + do 2 eexists. split; [apply uspec_set|]. rewrite Hf. split; [cbn; by rewrite app_nil_r|]. split; [done|]. unfold uh_rep. cbn. rewrite Et. cbn.
      split; [done|]. split. { rewrite Hs, map_size_insert_None by done. rewrite u32_add_l. f_equal. lia. }
      rewrite length_insert. split; [done|]. by apply (represents_link ue_id ue_value _ tbl m (UE v id) chain).
    + do 2 eexists. split; [by apply uspec_set_fails|]. by rewrite app_nil_r.
Qed.

Lemma uset_spec h m id v o : uh_rep h m -> 0 <= id < 2 ^ 32 -> ustep_post h m (U_set id v) (uhash_step o h (U_set id v)).
Proof.
  intros Hr Hid. unfold ustep_post, uhash_step, Curl_uint32_hash_set. destruct (uh_table h) as [tbl|] eqn:Et.
  - destruct (uset_elem h m tbl id v o Hr Et Hid) as (h' & b & o' & E & ev & m' & H). cbn [negb]. rewrite E. cbn [mbind option_bind].
    by exists h', (V_bool b), o', ev, m'.
  - destruct (next_alloc o) as [[] o1]; cbn [negb].
    + set (h1 := set_uh_table h _). assert (Hr1 : uh_rep h1 m).
      { destruct Hr as (Hn & Hs & Ht). rewrite Et in Ht. subst m. split; [done|]. split; [done|]. cbn. rewrite length_replicate. split; [done|]. apply represents_empty. }
      destruct (uset_elem h1 m _ id v o1 Hr1 eq_refl Hid) as (h' & b & o' & E & ev & m' & H). rewrite E. cbn [mbind option_bind].
      by exists h', (V_bool b), o', ev, m'.
    + cbn [mbind option_bind]. exists h, (V_bool false), o1, [], m. split; [done|]. split; [|by rewrite app_nil_r].
      apply uspec_set_fails. destruct Hr as (_ & _ & Ht). rewrite Et in Ht. by subst m.
Qed.

Lemma uremove_spec h m id o : uh_rep h m -> 0 <= id < 2 ^ 32 -> ustep_post h m (U_remove id) (uhash_step o h (U_remove id)).
Proof.
  intros Hr Hid. unfold ustep_post, uhash_step, Curl_uint32_hash_remove. destruct (uh_table h) as [tbl|] eqn:Et.
  2: { cbn [mbind option_bind]. exists h, (V_bool false), o, [], m. split; [done|]. split; [|by rewrite app_nil_r].
       apply uspec_remove_none. destruct Hr as (_ & _ & Ht). rewrite Et in Ht. by subst m. }
  destruct (uslot_found h m tbl id Hr Et ltac:(lia)) as (chain & Hc & ->). cbn [mbind option_bind].
  pose proof (find_id_spec h m tbl id chain Hr Et Hc) as Hf. pose proof Hr as (Hn & Hs & Ht). rewrite Et in Ht. destruct Ht as [Hl Hrep].
  destruct (find_id id chain) as [[[l e] r]|]; cbn [ufound_post] in Hf.
  - destruct Hf as (Hsl & Hkey & Hm). set (h0 := uint32_hash_entry_unlink h _ l r).
    destruct (udestroy_spec h0 e) as (h1 & -> & T1 & T2 & T3 & T4 & T5). cbn [mbind option_bind].
    do 5 eexists. split; [done|]. split; [by apply uspec_remove|]. split; [by rewrite T5, Hkey|]. split; [by rewrite T4|].
    unfold uh_rep. rewrite T1, T2, T3. cbn. rewrite Et. cbn. split; [done|]. split.
    { rewrite Hs, u32_sub_l. rewrite map_size_delete_Some by (by exists (ue_value e)). f_equal.
      assert (size m <> 0%nat) by (apply map_size_non_empty_iff; intros ->; by rewrite lookup_empty in Hm). lia. }
    rewrite length_insert. split; [done|]. rewrite <- Hkey. by apply represents_unlink.
  - cbn [mbind option_bind]. exists h, (V_bool false), o, [], m. split; [done|]. split; [by apply uspec_remove_none|]. by rewrite app_nil_r.
Qed.

Lemma uget_spec h m id o : uh_rep h m -> 0 <= id < 2 ^ 32 -> ustep_post h m (U_get id) (uhash_step o h (U_get id)).
Proof.
  intros Hr Hid. unfold ustep_post, uhash_step, Curl_uint32_hash_get.
  assert (Hend : forall v, v = default 0 (m !! id) -> exists h' out o' ev m', Some (h, V_value v, o) = Some (h', out, o') /\
    uhash_spec (uh_dtor h) m (U_get id) out ev m' /\ uh_log h' = uh_log h ++ ev /\ uh_dtor h' = uh_dtor h /\ uh_rep h' m').
  { intros v ->. exists h, (V_value (default 0 (m !! id))), o, [], m. split; [done|]. split; [constructor|]. by rewrite app_nil_r. }
  destruct (uh_table h) as [tbl|] eqn:Et.
  2: { cbn [mbind option_bind]. apply Hend. destruct Hr as (_ & _ & Ht). rewrite Et in Ht. by subst m. }
  destruct (uslot_found h m tbl id Hr Et ltac:(lia)) as (chain & Hc & ->). cbn [mbind option_bind].
  pose proof (find_id_spec h m tbl id chain Hr Et Hc) as Hf.
  destruct (find_id id chain) as [[[l e] r]|]; cbn [ufound_post mbind option_bind] in *; apply Hend.
  - by destruct Hf as (_ & _ & ->).
  - by rewrite Hf.
Qed.

(** * Clearing and visiting *)

Definition uentry (e : uint_hash_entry) : Z * Z := (ue_id e, ue_value e).

Definition ucleared (h h' : uint_hash) (tbl : list (list uint_hash_entry)) (gone : list uint_hash_entry) : Prop :=
  uh_table h' = Some tbl /\ uh_slots h' = uh_slots h /\ uh_dtor h' = uh_dtor h /\
  uh_log h' = uh_log h ++ ended_all (uh_dtor h) (map uentry gone) /\
  (u32 (uh_size h) = uh_size h -> uh_size h' = u32 (uh_size h - Z.of_nat (length gone))).

Lemma u32_idem a : u32 (u32 a) = u32 a.
Proof. unfold u32. by rewrite Zmod_mod. Qed.

Lemma clear_uint_chain_spec chain : forall h i tbl, uh_table h = Some tbl -> tbl !! i = Some chain ->
  ucleared h (clear_uint_chain h i chain) (<[i := []]> tbl) chain.
Proof.
  induction chain as [|e r IH]; intros h i tbl Et Hi; cbn [clear_uint_chain].
  { unfold ucleared. cbn. rewrite list_insert_id by done. rewrite Z.sub_0_r, app_nil_r. split_and!; done || congruence. }
  set (h0 := uint32_hash_entry_unlink h i [] r). destruct (udestroy_spec h0 e) as (h1 & -> & T1 & T2 & T3 & T4 & T5).
  assert (Et1 : uh_table h1 = Some (<[i := r]> tbl)) by (rewrite T1; cbn; by rewrite Et).
  destruct (IH h1 i _ Et1) as (P1 & P2 & P3 & P4 & P5). { apply list_lookup_insert_eq. by apply lookup_lt_Some in Hi. }
  unfold ucleared. rewrite list_insert_insert_eq in P1. rewrite P1, P2, P3, P4, T2, T4, T5. split; [done|]. split; [done|]. split; [done|].
  split; [cbn; unfold ended_all; cbn; by rewrite <- app_assoc|]. intros _. cbn [length]. rewrite Nat2Z.inj_succ.
  rewrite P5; rewrite T3; subst h0; cbn [uint32_hash_entry_unlink set_uh_size uh_size set_uh_chain set_uh_table]; [|apply u32_idem].
  rewrite u32_sub_l. f_equal. lia.
Qed.

Lemma clear_uint_slots_spec n : forall h i tbl, uh_table h = Some tbl -> (i + n = length tbl)%nat ->
  exists h', clear_uint_slots n i h = Some h' /\ ucleared h h' (take i tbl ++ replicate n []) (concat (drop i tbl)).
Proof.
  induction n as [|n IH]; intros h i tbl Et Hl; cbn [clear_uint_slots].
  { exists h. split; [done|]. rewrite drop_ge, take_ge by lia. unfold ucleared. cbn. rewrite !app_nil_r, Z.sub_0_r. split_and!; done || congruence. }
  rewrite Et. cbn [mbind option_bind]. destruct (lookup_lt_is_Some_2 tbl i) as [chain Hc]; [lia|]. rewrite Hc. cbn [mbind option_bind].
  destruct (clear_uint_chain_spec chain h i tbl Et Hc) as (P1 & P2 & P3 & P4 & P5). set (h1 := clear_uint_chain h i chain) in *.
  destruct (IH h1 (S i) _ P1) as (h' & -> & Q1 & Q2 & Q3 & Q4 & Q5); [rewrite length_insert; lia|].
  exists h'. split; [done|]. unfold ucleared. rewrite Q1, Q2, Q3, Q4, P2, P3, P4. rewrite (drop_S tbl chain i Hc), drop_insert_lt by lia. cbn [concat]. split.
  { f_equal. rewrite (take_S_r _ _ []) by (by apply list_lookup_insert_eq; apply lookup_lt_Some in Hc). by rewrite take_insert_ge, <- app_assoc by lia. }
  split; [done|]. split; [done|]. split; [unfold ended_all; by rewrite !map_app, concat_app, <- app_assoc|].
  intros Hu. specialize (P5 Hu). rewrite Q5, P5 by (rewrite P5; apply u32_idem). rewrite u32_sub_l, drop_insert_lt by lia. rewrite length_app. f_equal. lia.
Qed.

Lemma uclear_all h m : uh_rep h m -> exists h' ev, uint_hash_clear h = Some h' /\ ev ≡ₚ ended_all (uh_dtor h) (map_to_list m) /\
  uh_log h' = uh_log h ++ ev /\ uh_dtor h' = uh_dtor h /\ uh_rep h' ∅.
Proof.
  intros (Hn & Hs & Ht). unfold uint_hash_clear. destruct (uh_table h) as [tbl|] eqn:Et.
  2: { subst m. exists h, []. rewrite map_to_list_empty, app_nil_r. split_and!; try done. unfold uh_rep. by rewrite Et. }
  destruct Ht as [Hl Hrep]. pose proof Hrep as [_ Hp]. destruct (clear_uint_slots_spec (Z.to_nat (uh_slots h)) h 0 tbl Et) as (h' & -> & P1 & P2 & P3 & P4 & P5); [by rewrite Hl|].
  rewrite take_0, drop_0 in *. cbn [app] in P1. exists h', (ended_all (uh_dtor h) (map uentry (concat tbl))). split; [done|].
  split. { unfold ended_all. change uentry with (entry ue_id ue_value). by rewrite Hp. }
  split; [done|]. split; [done|]. unfold uh_rep. rewrite P1, P2. split; [done|]. split.
  - rewrite P5, Hs by (rewrite Hs; apply u32_idem). rewrite u32_sub_l, (represents_size _ _ _ _ _ Hrep), map_size_empty. f_equal. lia.
  - rewrite length_replicate. split; [done|]. apply represents_empty.
Qed.

(** What the collecting callback has after a list. *)
Definition collected (n : nat) (a : list (Z * Z)) (l : list uint_hash_entry) : list (Z * Z) * bool :=
  match l with
  | [] => (a, true)
  | _ => (a ++ take (Nat.max 1 (n - length a)) (map uentry l), negb (n <=? length a + length l)%nat)
  end.

Lemma visit_chain_spec n chain : forall a, visit_chain (collect n) a chain = collected n a chain.
Proof.
  induction chain as [|e r IH]; intros a; [done|]. cbn [visit_chain collect]. rewrite length_app. cbn [length].
  destruct (Nat.leb_spec n (length a + 1)) as [Hle|Hgt]; cbn [negb].
  - cbn [collected map length]. assert (E : Nat.max 1 (n - length a) = 1%nat) by lia. rewrite E. cbn [take]. rewrite take_0. f_equal.
    by rewrite (proj2 (Nat.leb_le n _)) by lia.
  - rewrite IH. destruct r as [|e2 r]; cbn [collected map length].
    + rewrite (proj2 (Nat.leb_gt n _)) by lia. cbn [negb]. f_equal. by rewrite (take_ge [uentry e]) by (cbn; lia).
    + rewrite length_app. cbn [length]. f_equal.
      * assert (E : Nat.max 1 (n - length a) = S (Nat.max 1 (n - (length a + 1)))) by lia. rewrite E, <- app_assoc. done.
      * f_equal. by replace (length a + 1 + S (length r))%nat with (length a + S (S (length r)))%nat by lia.
Qed.

Lemma collected_app n a l k : collected n a (l ++ k) =
  let '(a', more) := collected n a l in if (more : bool) then collected n a' k else (a', false).
Proof.
  destruct l as [|e l]; [done|]. cbn [collected app map length]. rewrite map_app, !length_app, app_comm_cons.
  destruct (Nat.leb_spec n (length a + S (length l))) as [Hle|Hgt]; cbn [negb].
  - rewrite (proj2 (Nat.leb_le n _)) by (rewrite ?length_app; lia). cbn [negb]. rewrite take_app_le by (cbn; rewrite length_map; lia). done.
  - assert (E : take (Nat.max 1 (n - length a)) (uentry e :: map uentry l) = uentry e :: map uentry l) by (apply take_ge; cbn; rewrite length_map; lia).
    destruct k as [|e2 k]; cbn [collected map length].
    + rewrite E, !app_nil_r, E. f_equal. rewrite (proj2 (Nat.leb_gt n _)) by lia. done.
    + rewrite E, take_app_ge by (cbn; rewrite length_map; lia). rewrite <- app_assoc, length_app. cbn [length app]. rewrite length_map. f_equal.
      * assert (E2 : (Nat.max 1 (n - length a) - S (length l) = Nat.max 1 (n - (length a + S (length l))))%nat) by lia. by rewrite E2.
      * assert (E2 : (length a + S (length l + S (length k)) = length a + S (length l) + S (length k))%nat) by lia. by rewrite E2.
Qed.

Lemma visit_slots_spec n k : forall i tbl a, (i + k = length tbl)%nat ->
  visit_slots (collect n) k i tbl a = Some (collected n a (concat (drop i tbl))).1.
Proof.
  induction k as [|k IH]; intros i tbl a Hl; cbn [visit_slots]; [by rewrite drop_ge by lia|].
  destruct (lookup_lt_is_Some_2 tbl i) as [chain Hc]; [lia|]. rewrite Hc, (drop_S _ _ _ Hc). cbn [mbind option_bind concat]. rewrite visit_chain_spec, collected_app.
  destruct (collected n a chain) as [a' []]; [|done]. apply IH. lia.
Qed.

Lemma ustep_spec h m op o : uh_rep h m -> uhash_op_ok op -> ustep_post h m op (uhash_step o h op).
Proof.
  intros Hr Hok. destruct op as [id v|id|id| | |n]; cbn [uhash_op_ok] in Hok.
  - by apply uset_spec.
  - by apply uremove_spec.
  - by apply uget_spec.
  - exists h, (V_count (uh_size h)), o, [], m. split; [done|]. split; [|by rewrite app_nil_r]. destruct Hr as (_ & -> & _). constructor.
  - destruct (uclear_all h m Hr) as (h' & ev & E & He & Hl & Hd & Hr'). unfold ustep_post, uhash_step. rewrite E. cbn [mbind option_bind].
    exists h', V_done, o, ev, ∅. split; [done|]. split; [by constructor|done].
  - unfold ustep_post, uhash_step, Curl_uint32_hash_visit. pose proof Hr as (Hn & _ & Ht). destruct (uh_table h) as [tbl|] eqn:Et.
    + destruct Ht as [Hl [_ Hp]]. rewrite visit_slots_spec by (by rewrite Hl). rewrite drop_0. cbn [mbind option_bind].
      exists h, (V_seen (take (Nat.max 1 n) (map uentry (concat tbl)))), o, [], m. split.
      { destruct (concat tbl) as [|e l]; [cbn [map]; by rewrite take_nil|]. cbn [collected fst app length]. by rewrite Nat.sub_0_r. }
      split; [by constructor|]. by rewrite app_nil_r.
    + subst m. cbn [mbind option_bind]. exists h, (V_seen []), o, [], ∅. split; [done|]. split; [|by rewrite app_nil_r].
      pose proof (uspec_visit (uh_dtor h) ∅ n []) as H. rewrite take_nil in H. apply H. by rewrite map_to_list_empty.
Qed.

Inductive uhash_spec_run (d : bool) : gmap Z Z -> list uhash_op -> list uhash_out -> list (Z * Z) -> gmap Z Z -> Prop :=
  | uspec_run_nil m : uhash_spec_run d m [] [] [] m
  | uspec_run_cons m op ops out outs ev evs m1 m2 : uhash_spec d m op out ev m1 -> uhash_spec_run d m1 ops outs evs m2 ->
      uhash_spec_run d m (op :: ops) (out :: outs) (ev ++ evs) m2.

Lemma urun_spec ops : forall h m o, uh_rep h m -> Forall uhash_op_ok ops ->
  exists h' outs o' ev m', uhash_run o h ops = Some (h', outs, o') /\ uhash_spec_run (uh_dtor h) m ops outs ev m' /\
    uh_log h' = uh_log h ++ ev /\ uh_dtor h' = uh_dtor h /\ uh_rep h' m'.
Proof.
  induction ops as [|op ops IH]; intros h m o Hr Hops; cbn [uhash_run].
  { exists h, [], o, [], m. rewrite app_nil_r. split; [done|]. split; [constructor|done]. }
  apply Forall_cons in Hops as [Hop Hops]. destruct (ustep_spec h m op o Hr Hop) as (h1 & out & o1 & ev & m1 & -> & Hs & Hl & Hd & Hr1).
  cbn [mbind option_bind]. destruct (IH h1 m1 o1 Hr1 Hops) as (h2 & outs & o2 & evs & m2 & -> & Hss & Hl2 & Hd2 & Hr2). cbn [mbind option_bind].
  exists h2, (out :: outs), o2, (ev ++ evs), m2. split; [done|]. rewrite Hd in *. split; [by econstructor|]. split; [by rewrite Hl2, Hl, <- app_assoc|]. done.
Qed.

(** Any sequence of operations on a table with 32-bit keys, whatever
    allocations fail, stays inside its slots and answers like a finite map;
    the destructor is called for the values that are replaced or removed, and for
    the rest when the table is destroyed. *)
Theorem uhash_refines_map n d o ops : 0 < n < 2 ^ 32 -> Forall uhash_op_ok ops ->
  exists h outs o' m, uhash_run o (Curl_uint32_hash_init n d) ops = Some (h, outs, o') /\ uhash_spec_run d ∅ ops outs (uh_log h) m /\
    exists h' ev, Curl_uint32_hash_destroy h = Some h' /\ uh_table h' = None /\ uh_size h' = 0 /\ uh_log h' = uh_log h ++ ev /\
      ev ≡ₚ ended_all d (map_to_list m).
Proof.
  intros Hn Hops. destruct (urun_spec ops (Curl_uint32_hash_init n d) ∅ o (uh_rep_init n d Hn) Hops) as (h & outs & o' & ev & m & E & Hs & Hl & Hd & Hr).
  exists h, outs, o', m. split; [done|]. split; [by rewrite Hl|]. unfold Curl_uint32_hash_destroy.
  destruct (uclear_all h m Hr) as (h1 & ev1 & E1 & He & Hl1 & _ & Hr1). pose proof Hr as (_ & Hs' & Ht). destruct (uh_table h) as [tbl|] eqn:Et.
  - rewrite E1. cbn [mbind option_bind]. eexists _, ev1. split; [done|]. cbn. split; [done|]. split; [destruct Hr1 as (_ & -> & _); by rewrite map_size_empty|].
    split; [done|]. by rewrite Hd in He.
  - subst m. cbn [mbind option_bind]. eexists _, []. split; [done|]. cbn. split; [done|]. rewrite Hs', map_size_empty. split; [done|].
    by rewrite app_nil_r, map_to_list_empty.
Qed.

Lemma uhash_refines_map_witness : exists h outs o' m,
  uhash_run [] (Curl_uint32_hash_init 3 true) [U_set 1 10; U_set 4 40; U_set 1 11; U_visit 1; U_get 4; U_remove 1; U_count; U_clear; U_count] = Some (h, outs, o') /\
  uhash_spec_run true ∅ [U_set 1 10; U_set 4 40; U_set 1 11; U_visit 1; U_get 4; U_remove 1; U_count; U_clear; U_count] outs (uh_log h) m /\
  outs = [V_bool true; V_bool true; V_bool true; V_seen [(4, 40)]; V_value 40; V_bool true; V_count 1; V_done; V_count 0].
Proof.
  destruct (uhash_refines_map 3 true [] [U_set 1 10; U_set 4 40; U_set 1 11; U_visit 1; U_get 4; U_remove 1; U_count; U_clear; U_count])
    as (h & outs & o' & m & E & Hs & _).
  - lia.
  - repeat (apply Forall_cons_2 || apply Forall_nil_2); cbn; lia.
  - exists h, outs, o', m. split; [exact E|]. split; [exact Hs|]. vm_compute in E. by injection E as <- <- <-.
Defined.
