(* ===== verification/Protocol.v ===== *)
(** The table of URL schemes, lib/protocol.c.

    A scheme has a name, a protocol, a family, flags and a default port;
    whether the build has an implementation of it (the member [run]) is a
    matter of the build configuration and not part of the model.  A scheme is
    looked up through a hash of its name without case: the table holds
    every scheme at its place. *)

From Stdlib Require Import ZArith Lia List String.
From stdpp Require Import base numbers option list.
From S2P Require Import Prelude Strcase.
Close Scope nat_scope.
Open Scope Z_scope.

(** * Constants (lib/protocol.h, include/curl/curl.h) *)

Definition PORT_FTP : Z := 21.
Definition PORT_FTPS : Z := 990.
Definition PORT_TELNET : Z := 23.
Definition PORT_HTTP : Z := 80.
Definition PORT_HTTPS : Z := 443.
Definition PORT_DICT : Z := 2628.
Definition PORT_LDAP : Z := 389.
Definition PORT_LDAPS : Z := 636.
Definition PORT_TFTP : Z := 69.
Definition PORT_SSH : Z := 22.
Definition PORT_IMAP : Z := 143.
Definition PORT_IMAPS : Z := 993.
Definition PORT_POP3 : Z := 110.
Definition PORT_POP3S : Z := 995.
Definition PORT_SMB : Z := 445.
Definition PORT_SMBS : Z := 445.
Definition PORT_SMTP : Z := 25.
Definition PORT_SMTPS : Z := 465.
Definition PORT_RTSP : Z := 554.
Definition PORT_GOPHER : Z := 70.
Definition PORT_SOCKS : Z := 1080.
Definition PORT_MQTT : Z := 1883.
Definition PORT_MQTTS : Z := 8883.
Definition PORT_NFS : Z := 2049.

Definition CURLPROTO_HTTP : Z := Z.shiftl 1 0.
Definition CURLPROTO_HTTPS : Z := Z.shiftl 1 1.
Definition CURLPROTO_FTP : Z := Z.shiftl 1 2.
Definition CURLPROTO_FTPS : Z := Z.shiftl 1 3.
Definition CURLPROTO_SCP : Z := Z.shiftl 1 4.
Definition CURLPROTO_SFTP : Z := Z.shiftl 1 5.
Definition CURLPROTO_TELNET : Z := Z.shiftl 1 6.
Definition CURLPROTO_LDAP : Z := Z.shiftl 1 7.
Definition CURLPROTO_LDAPS : Z := Z.shiftl 1 8.
Definition CURLPROTO_DICT : Z := Z.shiftl 1 9.
Definition CURLPROTO_FILE : Z := Z.shiftl 1 10.
Definition CURLPROTO_TFTP : Z := Z.shiftl 1 11.
Definition CURLPROTO_IMAP : Z := Z.shiftl 1 12.
Definition CURLPROTO_IMAPS : Z := Z.shiftl 1 13.
Definition CURLPROTO_POP3 : Z := Z.shiftl 1 14.
Definition CURLPROTO_POP3S : Z := Z.shiftl 1 15.
Definition CURLPROTO_SMTP : Z := Z.shiftl 1 16.
Definition CURLPROTO_SMTPS : Z := Z.shiftl 1 17.
Definition CURLPROTO_RTSP : Z := Z.shiftl 1 18.
Definition CURLPROTO_GOPHER : Z := Z.shiftl 1 25.
Definition CURLPROTO_SMB : Z := Z.shiftl 1 26.
Definition CURLPROTO_SMBS : Z := Z.shiftl 1 27.
Definition CURLPROTO_MQTT : Z := Z.shiftl 1 28.
Definition CURLPROTO_GOPHERS : Z := Z.shiftl 1 29.
Definition CURLPROTO_WS : Z := Z.shiftl 1 30.
Definition CURLPROTO_WSS : Z := Z.shiftl 1 31.
Definition CURLPROTO_MQTTS : Z := Z.shiftl 1 32.
Definition CURLPROTO_SOCKS : Z := Z.shiftl 1 33.
Definition CURLPROTO_NFS : Z := Z.shiftl 1 34.

Definition PROTOPT_NONE : Z := 0.
Definition PROTOPT_SSL : Z := Z.shiftl 1 0.
Definition PROTOPT_DUAL : Z := Z.shiftl 1 1.
Definition PROTOPT_CLOSEACTION : Z := Z.shiftl 1 2.
Definition PROTOPT_DIRLOCK : Z := Z.shiftl 1 3.
Definition PROTOPT_NONETWORK : Z := Z.shiftl 1 4.
Definition PROTOPT_NEEDSPWD : Z := Z.shiftl 1 5.
Definition PROTOPT_NOURLQUERY : Z := Z.shiftl 1 6.
Definition PROTOPT_CREDSPERREQUEST : Z := Z.shiftl 1 7.
Definition PROTOPT_ALPN : Z := Z.shiftl 1 8.
Definition PROTOPT_URLOPTIONS : Z := Z.shiftl 1 10.
Definition PROTOPT_PROXY_AS_HTTP : Z := Z.shiftl 1 11.
Definition PROTOPT_WILDCARD : Z := Z.shiftl 1 12.
Definition PROTOPT_USERPWDCTRL : Z := Z.shiftl 1 13.
Definition PROTOPT_NOTCPPROXY : Z := Z.shiftl 1 14.
Definition PROTOPT_SSL_REUSE : Z := Z.shiftl 1 15.
Definition PROTOPT_CONN_REUSE : Z := Z.shiftl 1 16.
Definition PROTOPT_NO_TRANSFER : Z := Z.shiftl 1 17.
Definition PROTOPT_HTTP_PROXY_TUNNEL : Z := Z.shiftl 1 18.

(** * The schemes *)

Record Curl_scheme := Scheme { sc_name : list Z; sc_protocol : Z; sc_family : Z; sc_flags : Z; sc_defport : Z }.

Definition flags_of (l : list Z) : Z := fold_right Z.lor 0 l.

Definition Curl_scheme_dict := Scheme (str "dict") CURLPROTO_DICT CURLPROTO_DICT (flags_of [PROTOPT_NONE; PROTOPT_NOURLQUERY]) PORT_DICT.
Definition Curl_scheme_file := Scheme (str "file") CURLPROTO_FILE CURLPROTO_FILE (flags_of [PROTOPT_NONETWORK; PROTOPT_NOURLQUERY]) 0.
Definition Curl_scheme_ftp := Scheme (str "ftp") CURLPROTO_FTP CURLPROTO_FTP (flags_of [PROTOPT_DUAL; PROTOPT_CLOSEACTION; PROTOPT_NEEDSPWD; PROTOPT_NOURLQUERY; PROTOPT_PROXY_AS_HTTP; PROTOPT_WILDCARD; PROTOPT_SSL_REUSE; PROTOPT_CONN_REUSE]) PORT_FTP.
Definition Curl_scheme_ftps := Scheme (str "ftps") CURLPROTO_FTPS CURLPROTO_FTP (flags_of [PROTOPT_SSL; PROTOPT_DUAL; PROTOPT_CLOSEACTION; PROTOPT_NEEDSPWD; PROTOPT_NOURLQUERY; PROTOPT_WILDCARD; PROTOPT_CONN_REUSE]) PORT_FTPS.
Definition Curl_scheme_gopher := Scheme (str "gopher") CURLPROTO_GOPHER CURLPROTO_GOPHER (flags_of [PROTOPT_NONE]) PORT_GOPHER.
Definition Curl_scheme_gophers := Scheme (str "gophers") CURLPROTO_GOPHERS CURLPROTO_GOPHER (flags_of [PROTOPT_SSL]) PORT_GOPHER.
Definition Curl_scheme_http := Scheme (str "http") CURLPROTO_HTTP CURLPROTO_HTTP (flags_of [PROTOPT_CREDSPERREQUEST; PROTOPT_USERPWDCTRL; PROTOPT_CONN_REUSE]) PORT_HTTP.
Definition Curl_scheme_https := Scheme (str "https") CURLPROTO_HTTPS CURLPROTO_HTTP (flags_of [PROTOPT_SSL; PROTOPT_CREDSPERREQUEST; PROTOPT_ALPN; PROTOPT_USERPWDCTRL; PROTOPT_CONN_REUSE; PROTOPT_HTTP_PROXY_TUNNEL]) PORT_HTTPS.
Definition Curl_scheme_imap := Scheme (str "imap") CURLPROTO_IMAP CURLPROTO_IMAP (flags_of [PROTOPT_CLOSEACTION; PROTOPT_URLOPTIONS; PROTOPT_SSL_REUSE; PROTOPT_CONN_REUSE]) PORT_IMAP.
Definition Curl_scheme_imaps := Scheme (str "imaps") CURLPROTO_IMAPS CURLPROTO_IMAP (flags_of [PROTOPT_CLOSEACTION; PROTOPT_SSL; PROTOPT_URLOPTIONS; PROTOPT_CONN_REUSE]) PORT_IMAPS.
Definition Curl_scheme_ldap := Scheme (str "ldap") CURLPROTO_LDAP CURLPROTO_LDAP (flags_of [PROTOPT_SSL_REUSE]) PORT_LDAP.
Definition Curl_scheme_ldaps := Scheme (str "ldaps") CURLPROTO_LDAPS CURLPROTO_LDAP (flags_of [PROTOPT_SSL]) PORT_LDAPS.
Definition Curl_scheme_mqtt := Scheme (str "mqtt") CURLPROTO_MQTT CURLPROTO_MQTT (flags_of [PROTOPT_NONE]) PORT_MQTT.
Definition Curl_scheme_mqtts := Scheme (str "mqtts") CURLPROTO_MQTTS CURLPROTO_MQTT (flags_of [PROTOPT_SSL]) PORT_MQTTS.
Definition Curl_scheme_nfs := Scheme (str "nfs") CURLPROTO_NFS CURLPROTO_NFS (flags_of [PROTOPT_NONETWORK; PROTOPT_NOURLQUERY]) PORT_NFS.
Definition Curl_scheme_pop3 := Scheme (str "pop3") CURLPROTO_POP3 CURLPROTO_POP3 (flags_of [PROTOPT_CLOSEACTION; PROTOPT_NOURLQUERY; PROTOPT_URLOPTIONS; PROTOPT_SSL_REUSE; PROTOPT_CONN_REUSE]) PORT_POP3.
Definition Curl_scheme_pop3s := Scheme (str "pop3s") CURLPROTO_POP3S CURLPROTO_POP3 (flags_of [PROTOPT_CLOSEACTION; PROTOPT_SSL; PROTOPT_NOURLQUERY; PROTOPT_URLOPTIONS; PROTOPT_CONN_REUSE]) PORT_POP3S.
Definition Curl_scheme_rtsp := Scheme (str "rtsp") CURLPROTO_RTSP CURLPROTO_RTSP (flags_of [PROTOPT_CONN_REUSE]) PORT_RTSP.
Definition Curl_scheme_sftp := Scheme (str "sftp") CURLPROTO_SFTP CURLPROTO_SFTP (flags_of [PROTOPT_DIRLOCK; PROTOPT_CLOSEACTION; PROTOPT_NOURLQUERY; PROTOPT_CONN_REUSE]) PORT_SSH.
Definition Curl_scheme_scp := Scheme (str "scp") CURLPROTO_SCP CURLPROTO_SCP (flags_of [PROTOPT_DIRLOCK; PROTOPT_CLOSEACTION; PROTOPT_NOURLQUERY; PROTOPT_CONN_REUSE]) PORT_SSH.
Definition Curl_scheme_smb := Scheme (str "smb") CURLPROTO_SMB CURLPROTO_SMB (flags_of [PROTOPT_NONE]) PORT_SMB.
Definition Curl_scheme_smbs := Scheme (str "smbs") CURLPROTO_SMBS CURLPROTO_SMB (flags_of [PROTOPT_SSL]) PORT_SMBS.
Definition Curl_scheme_smtp := Scheme (str "smtp") CURLPROTO_SMTP CURLPROTO_SMTP (flags_of [PROTOPT_CLOSEACTION; PROTOPT_NOURLQUERY; PROTOPT_URLOPTIONS; PROTOPT_SSL_REUSE; PROTOPT_CONN_REUSE]) PORT_SMTP.
Definition Curl_scheme_smtps := Scheme (str "smtps") CURLPROTO_SMTPS CURLPROTO_SMTP (flags_of [PROTOPT_CLOSEACTION; PROTOPT_SSL; PROTOPT_NOURLQUERY; PROTOPT_URLOPTIONS; PROTOPT_CONN_REUSE]) PORT_SMTPS.
Definition Curl_scheme_socks := Scheme (str "socks") CURLPROTO_SOCKS CURLPROTO_SOCKS (flags_of [PROTOPT_NO_TRANSFER]) PORT_SOCKS.
Definition Curl_scheme_socks4 := Scheme (str "socks4") CURLPROTO_SOCKS CURLPROTO_SOCKS (flags_of [PROTOPT_NO_TRANSFER]) PORT_SOCKS.
Definition Curl_scheme_socks4a := Scheme (str "socks4a") CURLPROTO_SOCKS CURLPROTO_SOCKS (flags_of [PROTOPT_NO_TRANSFER]) PORT_SOCKS.
Definition Curl_scheme_socks5 := Scheme (str "socks5") CURLPROTO_SOCKS CURLPROTO_SOCKS (flags_of [PROTOPT_NO_TRANSFER]) PORT_SOCKS.
Definition Curl_scheme_socks5h := Scheme (str "socks5h") CURLPROTO_SOCKS CURLPROTO_SOCKS (flags_of [PROTOPT_NO_TRANSFER]) PORT_SOCKS.
Definition Curl_scheme_telnet := Scheme (str "telnet") CURLPROTO_TELNET CURLPROTO_TELNET (flags_of [PROTOPT_NONE; PROTOPT_NOURLQUERY]) PORT_TELNET.
Definition Curl_scheme_tftp := Scheme (str "tftp") CURLPROTO_TFTP CURLPROTO_TFTP (flags_of [PROTOPT_NOTCPPROXY; PROTOPT_NOURLQUERY]) PORT_TFTP.
Definition Curl_scheme_ws := Scheme (str "ws") CURLPROTO_WS CURLPROTO_HTTP (flags_of [PROTOPT_CREDSPERREQUEST; PROTOPT_USERPWDCTRL; PROTOPT_HTTP_PROXY_TUNNEL]) PORT_HTTP.
Definition Curl_scheme_wss := Scheme (str "wss") CURLPROTO_WSS CURLPROTO_HTTP (flags_of [PROTOPT_SSL; PROTOPT_CREDSPERREQUEST; PROTOPT_USERPWDCTRL; PROTOPT_HTTP_PROXY_TUNNEL]) PORT_HTTPS.

Definition all_schemes : list (option Curl_scheme) :=
  [None; Some Curl_scheme_pop3; None; Some Curl_scheme_smtps;
   Some Curl_scheme_socks; Some Curl_scheme_socks4; Some Curl_scheme_socks5; Some Curl_scheme_nfs;
   None; Some Curl_scheme_gophers; Some Curl_scheme_ws; Some Curl_scheme_sftp;
   Some Curl_scheme_socks4a; Some Curl_scheme_scp; Some Curl_scheme_rtsp; Some Curl_scheme_dict;
   None; None; Some Curl_scheme_gopher; None;
   None; None; Some Curl_scheme_wss; None;
   Some Curl_scheme_smb; None; Some Curl_scheme_ldap; Some Curl_scheme_ldaps;
   Some Curl_scheme_imap; None; None; None;
   Some Curl_scheme_imaps; Some Curl_scheme_https; Some Curl_scheme_tftp; Some Curl_scheme_telnet;
   None; None; None; Some Curl_scheme_file;
   Some Curl_scheme_smtp; None; None; None;
   None; None; None; None;
   Some Curl_scheme_ftp; Some Curl_scheme_mqtt; None; Some Curl_scheme_socks5h;
   Some Curl_scheme_http; Some Curl_scheme_pop3s; None; Some Curl_scheme_mqtts;
   None; Some Curl_scheme_smbs; Some Curl_scheme_ftps].

(** * Looking up *)

Fixpoint scheme_hash (s : list Z) (l : nat) (c : Z) : Z :=
  match l with
  | O => c
  | S l =>
      let c := u32 (Z.shiftl c 5) in
      let c := u32 (c + u32 (signed_char (Curl_raw_tolower (deref s)))) in
      scheme_hash (drop 1 s) l c
  end.

Definition Curl_getn_scheme (scheme : list Z) (len : Z) : option (option Curl_scheme) :=
  if negb (len =? 0) && (len <=? 7) then
    let c := scheme_hash scheme (Z.to_nat len) 443 in
    h ← all_schemes !! Z.to_nat (c mod 59);
    match h with
    | Some h => Some (if curl_strnequal (Some scheme) (Some (sc_name h)) len && (at_ (sc_name h) (Z.to_nat len) =? 0) then Some h else None)
    | None => Some None
    end
  else Some None.

Definition Curl_get_scheme (scheme : list Z) : option (option Curl_scheme) := Curl_getn_scheme scheme (strlen scheme).

(** * The schemes of the table are found, and nothing else *)

Lemma ncasecompare_spec n : forall a b, bytes_ok a -> bytes_ok b -> Forall (fun c => c <> 0) a -> Forall (fun c => c <> 0) b ->
  ncasecompare a b n = true <-> map upper (take n a) = map upper (take n b).
Proof.
  induction n as [|n IH]; intros a b Ha Hb Hna Hnb; [by destruct a|]. destruct a as [|c a]; cbn [ncasecompare].
  - destruct b as [|d b]; [done|]. cbn [deref take map]. apply Forall_cons in Hb as [Hd _]. apply Forall_cons in Hnb as [Hd0 _].
    rewrite Z.eqb_eq, (toupper_upper d) by done. change (Curl_raw_toupper 0) with 0. split; [|done].
    intros E. symmetry in E. destruct (Hd0 (proj1 (upper_0 d Hd) E)).
  - apply Forall_cons in Ha as [Hc Ha]. apply Forall_cons in Hna as [Hc0 Hna]. rewrite (proj2 (Z.eqb_neq c 0)) by done. rewrite (toupper_upper c) by done.
    destruct b as [|d b]; cbn [deref take map].
    + change (Curl_raw_toupper 0) with 0. rewrite (proj2 (Z.eqb_neq (upper c) 0)); [done|].
      by rewrite upper_0.
    + apply Forall_cons in Hb as [Hd Hb]. apply Forall_cons in Hnb as [Hd0 Hnb]. rewrite (toupper_upper d) by done. cbn [drop]. rewrite drop_0.
      destruct (Z.eqb_spec (upper c) (upper d)) as [E|E]; cbn [negb]; [|split; [done|congruence]].
      rewrite IH by done. rewrite E. split; [by intros ->|by intros [= ->]].
Qed.

Definition plain_name (n : list Z) : bool := forallb (fun c => ISLOWER c || ISDIGIT c) n && (1 <=? length n)%nat && (length n <=? 7)%nat.

Lemma table_names : forallb (fun x => match x with Some h => plain_name (sc_name h) | None => true end) all_schemes = true.
Proof. by vm_compute. Qed.

Lemma table_places : forallb (fun x => match x with
  | Some h => match all_schemes !! Z.to_nat (scheme_hash (sc_name h) (length (sc_name h)) 443 mod 59) with
              | Some (Some h') => bool_decide (sc_name h = sc_name h') && (sc_protocol h =? sc_protocol h') && (sc_family h =? sc_family h') &&
                  (sc_flags h =? sc_flags h') && (sc_defport h =? sc_defport h')
              | _ => false
              end
  | None => true
  end) all_schemes = true.
Proof. by vm_compute. Qed.

Lemma plain_names h : Some h ∈ all_schemes -> Forall (fun c => ISLOWER c = true \/ ISDIGIT c = true) (sc_name h) /\ (1 <= length (sc_name h) <= 7)%nat.
Proof.
  intros Hin. pose proof table_names as H. rewrite forallb_forall in H. apply list_elem_of_In in Hin. specialize (H _ Hin). cbn beta iota in H.
  unfold plain_name in H. apply andb_prop in H as [H H2]. apply andb_prop in H as [H H1]. split; [|apply Nat.leb_le in H1, H2; lia].
  apply Forall_forall. intros c Hc. rewrite forallb_forall in H. apply list_elem_of_In in Hc. specialize (H c Hc). by apply orb_true_iff in H.
Qed.

Lemma place_of h : Some h ∈ all_schemes -> all_schemes !! Z.to_nat (scheme_hash (sc_name h) (length (sc_name h)) 443 mod 59) = Some (Some h).
Proof.
  intros Hin. pose proof table_places as H. rewrite forallb_forall in H. apply list_elem_of_In in Hin. specialize (H _ Hin). cbn beta iota in H.
  destruct (all_schemes !! _) as [[h'|]|]; [|done|done]. repeat (apply andb_prop in H as [H ?]). zb_hyps. apply bool_decide_eq_true_1 in H.
  destruct h, h'. cbn in *. by subst.
Qed.

(** Lower case characters and digits stand for themselves. *)
Lemma lower_name n : Forall (fun c => ISLOWER c = true \/ ISDIGIT c = true) n -> bytes_ok n /\ Forall (fun c => c <> 0) n /\ map lower n = n.
Proof.
  induction 1 as [|c n Hc _ (H1 & H2 & H3)]; [by repeat split; constructor|]. unfold ISLOWER, ISDIGIT, between in Hc.
  assert (Hr : 48 <= c <= 57 \/ 97 <= c <= 122) by (destruct Hc; zb_hyps; lia).
  split; [apply Forall_cons_2; [unfold is_byte; lia|done]|]. split; [apply Forall_cons_2; [lia|done]|]. cbn [map]. rewrite H3. f_equal.
  unfold lower, between. rewrite (proj2 (andb_false_iff _ _)); [done|]. destruct Hr; [left; apply Z.leb_gt; lia|right; apply Z.leb_gt; lia].
Qed.

Lemma upper_lower a b : is_byte a -> is_byte b -> lower b = b -> upper a = upper b -> lower a = b.
Proof. unfold is_byte, upper, lower, between. intros Ha Hb. repeat case_if; lia. Qed.

Lemma lower_upper a : is_byte a -> upper a = upper (lower a).
Proof. unfold is_byte, upper, lower, between. intros Ha. repeat case_if; lia. Qed.

Lemma map_upper_lower a b : bytes_ok a -> bytes_ok b -> map lower b = b -> map upper a = map upper b <-> map lower a = b.
Proof.
  intros Ha. revert b. induction Ha as [|x a Hx Ha IH]; intros [|y b] Hb Hl; try done. apply Forall_cons in Hb as [Hy Hb]. cbn [map] in *.
  injection Hl as Hy1 Hl. split.
  - intros [= E1 E2]. f_equal; [by apply upper_lower|]. by apply IH.
  - intros [= E1 E2]. f_equal; [by rewrite (lower_upper x), E1|]. by apply IH.
Qed.

Lemma scheme_hash_lower l : forall s c, bytes_ok s -> (l <= length s)%nat -> scheme_hash s l c = scheme_hash (map lower s) l c.
Proof.
  induction l as [|l IH]; intros s c Hs Hl; [done|]. destruct s as [|x s]; [cbn in Hl; lia|]. apply Forall_cons in Hs as [Hx Hs]. cbn [length] in Hl.
  assert (E : Curl_raw_tolower (lower x) = Curl_raw_tolower x).
  { rewrite !tolower_lower; unfold is_byte, lower, between in *; repeat case_if; lia. }
  cbn [scheme_hash map deref drop]. rewrite !drop_0, E. apply IH; [done|lia].
Qed.

Lemma get_scheme_spec s : bytes_ok s -> Forall (fun c => c <> 0) s ->
  exists r, Curl_get_scheme s = Some r /\ forall h, r = Some h <-> Some h ∈ all_schemes /\ map lower s = sc_name h.
Proof.
  intros Hs Hn. unfold Curl_get_scheme, Curl_getn_scheme. rewrite (strlen_nonzero s Hn). destruct (negb (zlen s =? 0) && (zlen s <=? 7)) eqn:El.
  2: { eexists. split; [done|]. intros h. split; [done|]. intros [Hin E]. apply plain_names in Hin as [_ Hl]. rewrite <- E, length_map in Hl.
       apply andb_false_iff in El as [El|El]; unfold zlen in *; zb_hyps; lia. }
  zb_hyps. unfold zlen in *. rewrite Nat2Z.id.
  assert (Hmod : (Z.to_nat (scheme_hash s (length s) 443 mod 59) < length all_schemes)%nat).
  { pose proof (Z.mod_pos_bound (scheme_hash s (length s) 443) 59 ltac:(lia)). change (length all_schemes) with 59%nat. lia. }
  destruct (lookup_lt_is_Some_2 all_schemes _ Hmod) as [x Hx]. rewrite Hx. cbn [mbind option_bind].
  assert (Hback : forall h, Some h ∈ all_schemes -> map lower s = sc_name h -> x = Some h).
  { intros h Hin E. pose proof (place_of h Hin) as Hp. rewrite <- E in Hp at 1. rewrite <- E, length_map in Hp. rewrite <- scheme_hash_lower in Hp by done.
    rewrite Hx in Hp. by injection Hp. }
  destruct x as [h|].
  2: { eexists. split; [done|]. intros h. split; [done|]. intros [Hin E]. by specialize (Hback h Hin E). }
  assert (Hin : Some h ∈ all_schemes) by (by eapply list_elem_of_lookup_2). destruct (plain_names h Hin) as [Hpl Hlen].
  destruct (lower_name _ Hpl) as (Hb & Hz & Hlow). cbn [curl_strnequal]. rewrite Nat2Z.id. eexists. split; [done|].
  assert (Hend : at_ (sc_name h) (length s) = 0 <-> (length (sc_name h) <= length s)%nat).
  { unfold at_. split.
    - intros E. destruct (decide (length (sc_name h) <= length s)%nat); [done|]. exfalso. rewrite Forall_forall in Hz.
      destruct (drop (length s) (sc_name h)) as [|y r] eqn:Ed. { apply (f_equal length) in Ed. rewrite length_drop in Ed. cbn in Ed. lia. }
      cbn in E. subst y. apply (Hz 0); [|done]. rewrite <- (take_drop (length s) (sc_name h)), Ed. apply elem_of_app. right. apply elem_of_cons. by left.
    - intros Hle. by rewrite drop_ge. }
  intros h'. destruct (ncasecompare s (sc_name h) (length s) && (at_ (sc_name h) (length s) =? 0)) eqn:E.
  - apply andb_prop in E as [E1 E2]. apply ncasecompare_spec in E1; [|done..]. apply Z.eqb_eq, Hend in E2. rewrite take_ge, (take_ge (sc_name h)) in E1 by lia.
    apply map_upper_lower in E1; [|done..]. split.
    + by intros [= <-].
    + intros [Hin' E']. f_equal. specialize (Hback h' Hin' E'). by injection Hback.
  - split; [done|]. intros [Hin' E']. specialize (Hback h' Hin' E'). injection Hback as <-. exfalso.
    assert (Hl : length s = length (sc_name h)) by (rewrite <- E'; by rewrite length_map).
    apply andb_false_iff in E as [E|E].
    + apply not_true_iff_false in E. apply E. apply ncasecompare_spec; [done..|]. rewrite take_ge, (take_ge (sc_name h)) by lia. by apply map_upper_lower.
    + apply Z.eqb_neq in E. apply E. apply Hend. lia.
Qed.

(** Looking up a scheme by its name finds the entry of the table that has
    this name, whatever its case, and nothing for other names. *)
Theorem get_scheme_correct s : bytes_ok s -> Forall (fun c => c <> 0) s ->
  exists r, Curl_get_scheme s = Some r /\ forall h, r = Some h <-> Some h ∈ all_schemes /\ map lower s = sc_name h.
Proof. apply get_scheme_spec. Qed.

Lemma get_scheme_correct_witness : Curl_get_scheme (str "SmTpS") = Some (Some Curl_scheme_smtps) /\ Curl_get_scheme (str "gurl") = Some None.
Proof.
  assert (H : forall s, s = str "SmTpS" \/ s = str "gurl" -> bytes_ok s /\ Forall (fun c => c <> 0) s).
  { intros s [-> | ->]; split; repeat apply Forall_cons_2; try apply Forall_nil_2; done. }
  split.
  - destruct (get_scheme_correct (str "SmTpS")) as (r & -> & Hr); [by apply H; left..|]. f_equal. apply Hr. split; [|by vm_compute].
    apply (list_elem_of_lookup_2 _ 3). done.
  - destruct (get_scheme_correct (str "gurl")) as (r & E & _); [by apply H; right..|]. rewrite E. vm_compute in E. by injection E as <-.
Defined.
