(* ===== verification/Urlapi.v ===== *)
(** The URL API, lib/urlapi.c: the data, the monads and the parts of a URL.

    A handle is a record of strings; a string that is only read is the value,
    the blocks that are written in place are blocks of memory.  The functions
    are written in two monads: [E] for those that only allocate and fail,
    [U] for those that change a handle.  The build has IPv6 and no IDN. *)

From Stdlib Require Import ZArith Lia List String SpecFloat.
From stdpp Require Import base numbers option list.
From S2P Require Import Prelude Dynbuf Strparse Strcase Escape InetAddr Mprintf Protocol.
Close Scope nat_scope.
Open Scope Z_scope.

(** * Data *)

(** [struct Curl_URL]; a missing string is NULL. *)
Record Curl_URL := URL {
  u_scheme : option (list Z);
  u_user : option (list Z);
  u_password : option (list Z);
  u_options : option (list Z);
  u_host : option (list Z);
  u_zoneid : option (list Z);
  u_path : option (list Z);
  u_query : option (list Z);
  u_fragment : option (list Z);
  u_portnum : Z;
  u_port_present : bool;
  u_query_present : bool;
  u_fragment_present : bool;
  u_guessed_scheme : bool
}.

(** [curl_url] and the cleared handle of [memset]. *)
Definition empty_url : Curl_URL := URL None None None None None None None None None 0 false false false false.

Definition set_scheme (x : option (list Z)) (u : Curl_URL) : Curl_URL :=
  let '(URL a b c d e f g h i p q r s t) := u in URL x b c d e f g h i p q r s t.
Definition set_user (x : option (list Z)) (u : Curl_URL) : Curl_URL :=
  let '(URL a b c d e f g h i p q r s t) := u in URL a x c d e f g h i p q r s t.
Definition set_password (x : option (list Z)) (u : Curl_URL) : Curl_URL :=
  let '(URL a b c d e f g h i p q r s t) := u in URL a b x d e f g h i p q r s t.
Definition set_options (x : option (list Z)) (u : Curl_URL) : Curl_URL :=
  let '(URL a b c d e f g h i p q r s t) := u in URL a b c x e f g h i p q r s t.
Definition set_host (x : option (list Z)) (u : Curl_URL) : Curl_URL :=
  let '(URL a b c d e f g h i p q r s t) := u in URL a b c d x f g h i p q r s t.
Definition set_zoneid (x : option (list Z)) (u : Curl_URL) : Curl_URL :=
  let '(URL a b c d e f g h i p q r s t) := u in URL a b c d e x g h i p q r s t.
Definition set_path (x : option (list Z)) (u : Curl_URL) : Curl_URL :=
  let '(URL a b c d e f g h i p q r s t) := u in URL a b c d e f x h i p q r s t.
Definition set_query (x : option (list Z)) (u : Curl_URL) : Curl_URL :=
  let '(URL a b c d e f g h i p q r s t) := u in URL a b c d e f g x i p q r s t.
Definition set_fragment (x : option (list Z)) (u : Curl_URL) : Curl_URL :=
  let '(URL a b c d e f g h i p q r s t) := u in URL a b c d e f g h x p q r s t.
Definition set_port (n : Z) (present : bool) (u : Curl_URL) : Curl_URL :=
  let '(URL a b c d e f g h i p q r s t) := u in URL a b c d e f g h i n present r s t.
Definition set_query_present (x : bool) (u : Curl_URL) : Curl_URL :=
  let '(URL a b c d e f g h i p q r s t) := u in URL a b c d e f g h i p q x s t.
Definition set_fragment_present (x : bool) (u : Curl_URL) : Curl_URL :=
  let '(URL a b c d e f g h i p q r s t) := u in URL a b c d e f g h i p q r x t.
Definition set_guessed_scheme (x : bool) (u : Curl_URL) : Curl_URL :=
  let '(URL a b c d e f g h i p q r s t) := u in URL a b c d e f g h i p q r s x.

Inductive CURLUPart :=
  | CURLUPART_URL | CURLUPART_SCHEME | CURLUPART_USER | CURLUPART_PASSWORD | CURLUPART_OPTIONS | CURLUPART_HOST
  | CURLUPART_PORT | CURLUPART_PATH | CURLUPART_QUERY | CURLUPART_FRAGMENT | CURLUPART_ZONEID.

Definition CURLU_DEFAULT_PORT : Z := Z.shiftl 1 0.
Definition CURLU_NO_DEFAULT_PORT : Z := Z.shiftl 1 1.
Definition CURLU_DEFAULT_SCHEME : Z := Z.shiftl 1 2.
Definition CURLU_NON_SUPPORT_SCHEME : Z := Z.shiftl 1 3.
Definition CURLU_PATH_AS_IS : Z := Z.shiftl 1 4.
Definition CURLU_DISALLOW_USER : Z := Z.shiftl 1 5.
Definition CURLU_URLDECODE : Z := Z.shiftl 1 6.
Definition CURLU_URLENCODE : Z := Z.shiftl 1 7.
Definition CURLU_APPENDQUERY : Z := Z.shiftl 1 8.
Definition CURLU_GUESS_SCHEME : Z := Z.shiftl 1 9.
Definition CURLU_NO_AUTHORITY : Z := Z.shiftl 1 10.
Definition CURLU_ALLOW_SPACE : Z := Z.shiftl 1 11.
Definition CURLU_PUNYCODE : Z := Z.shiftl 1 12.
Definition CURLU_PUNY2IDN : Z := Z.shiftl 1 13.
Definition CURLU_GET_EMPTY : Z := Z.shiftl 1 14.
Definition CURLU_NO_GUESS_SCHEME : Z := Z.shiftl 1 15.

Inductive host_type := HOST_ERROR | HOST_NAME | HOST_IPV4 | HOST_IPV6.
Inductive query_mode := QUERY_NO | QUERY_NOT_YET | QUERY_YES.

Definition MAX_SCHEME_LEN : Z := 40.
Definition MAX_ZONEID_LEN : Z := 16.
Definition CURL_MAX_INPUT_LENGTH : Z := 8000000.
Definition UINT_MAX : Z := 4294967295.
Definition DEFAULT_SCHEME : list Z := str "https".

(** The characters between the quotes, a double quote (34) among them. *)
Definition HOSTNAME_INVALID_CHARS : list Z :=
  [32; 13; 10; 9] ++ str "/:#?!@{}[]\$'" ++ [34] ++ str "^`*<>=;,+&()%|".

(** * Monads *)

Definition E (A : Type) : Type := allocs -> option ((CURLUcode + A) * allocs).

#[global] Instance E_ret : MRet E := fun A a o => Some (inr a, o).
#[global] Instance E_bind : MBind E := fun A B f m o =>
  match m o with
  | Some (inr a, o) => f a o
  | Some (inl e, o) => Some (inl e, o)
  | None => None
  end.

Definition throw {A} (e : CURLUcode) : E A := fun o => Some (inl e, o).
Definition undef {A} : E A := fun _ => None.

(** Undefined behaviour inside of an expression. *)
Definition defined {A} (x : option A) : E A := fun o => a ← x; Some (inr a, o).

Definition E_alloc : E bool := fun o => let '(ok, o) := next_alloc o in Some (inr ok, o).

(** [curlx_strdup] and [curlx_memdup0], where a failure is
    [CURLUE_OUT_OF_MEMORY]. *)
Definition E_dup (s : list Z) : E (list Z) := ok ← E_alloc; if (ok : bool) then mret s else throw CURLUE_OUT_OF_MEMORY.

(** An operation on a buffer. *)
Definition E_dyn (f : allocs -> option (dynbuf * CURLcode * allocs)) : E (dynbuf * CURLcode) :=
  fun o => '(s, r, o) ← f o; Some (inr (s, r), o).

Definition cc2cu (x : CURLcode) : CURLUcode := match x with CURLE_TOO_LARGE => CURLUE_TOO_LARGE | _ => CURLUE_OUT_OF_MEMORY end.

(** [if(result) return cc2cu(result);] *)
Definition E_dyn_ok (f : allocs -> option (dynbuf * CURLcode * allocs)) : E dynbuf :=
  '(s, r) ← E_dyn f; if is_ok r then mret s else throw (cc2cu r).

(** [Curl_urldecode] that rejects control characters: the decoded block and
    its length, if it succeeds. *)
Definition E_urldecode (string : list Z) (length : Z) : E (option (mem * Z)) := fun o =>
  '(result, decoded, dlen, o) ← Curl_urldecode string length REJECT_CTRL o;
  if is_ok result then m ← decoded; n ← dlen; Some (inr (Some (m, n)), o) else Some (inr None, o).

Definition U (A : Type) : Type := Curl_URL -> allocs -> option ((CURLUcode + A) * Curl_URL * allocs).

#[global] Instance U_ret : MRet U := fun A a u o => Some (inr a, u, o).
#[global] Instance U_bind : MBind U := fun A B f m u o =>
  match m u o with
  | Some (inr a, u, o) => f a u o
  | Some (inl e, u, o) => Some (inl e, u, o)
  | None => None
  end.

(** Run a function and look at its result. *)
Definition E_try {A} (m : E A) : E (CURLUcode + A) := fun o => '(r, o) ← m o; Some (inr r, o).

Definition lift {A} (m : E A) : U A := fun u o => '(r, o) ← m o; Some (r, u, o).
Definition fails {A} (e : CURLUcode) : U A := fun u o => Some (inl e, u, o).
Definition getu : U Curl_URL := fun u o => Some (inr u, u, o).
Definition modu (f : Curl_URL -> Curl_URL) : U unit := fun u o => Some (inr tt, f u, o).

(** * Strings *)

(** [strchr], [strstr]: what follows, from the match on. *)
Fixpoint strchr (s : list Z) (c : Z) : option (list Z) :=
  match s with
  | [] => None
  | x :: s' => if x =? c then Some s else strchr s' c
  end.

Fixpoint has_prefix (p s : list Z) : bool :=
  match p with
  | [] => true
  | c :: p => match s with x :: s => (x =? c) && has_prefix p s | [] => false end
  end.

Fixpoint strstr (s needle : list Z) : option (list Z) :=
  if has_prefix needle s then Some s else match s with [] => None | _ :: s => strstr s needle end.

(** The number of characters in front, [None] if there is no match. *)
Definition pos_of (s : list Z) (r : option (list Z)) : option Z := (fun r => zlen s - zlen r) <$> r.

Definition memchr (s : list Z) (c : Z) : option Z := pos_of s (strchr s c).

(** The position of the last match. *)
Fixpoint memrchr (s : list Z) (c : Z) : option Z :=
  match s with
  | [] => None
  | x :: s => match memrchr s c with Some i => Some (1 + i) | None => if x =? c then Some 0 else None end
  end.

Fixpoint strspn (s accept : list Z) : Z :=
  match s with
  | [] => 0
  | c :: s => if existsb (Z.eqb c) accept then 1 + strspn s accept else 0
  end.

(** [checkprefix(a, b)] *)
Definition checkprefix (a b : list Z) : bool := curl_strnequal (Some b) (Some a) (zlen a).

(** * Encoding *)

Fixpoint skip_to_sep (s : list Z) : list Z :=
  match s with
  | [] => []
  | c :: s' => if (c =? 47) || (c =? 63) then s else skip_to_sep s'
  end.

Definition find_host_sep (url : list Z) : list Z :=
  let sep := match strstr url (str "//") with None => url | Some sep => drop 2 sep end in
  skip_to_sep sep.

(** [len] characters from [iptr] on. *)
Fixpoint urlencode_loop (len : nat) (o : dynbuf) (iptr : list Z) (query : query_mode) : E dynbuf :=
  match len with
  | O => mret o
  | S len1 =>
      let c := deref iptr in
      if c =? 32 then
        o ← (match query with QUERY_YES => E_dyn_ok (curlx_dyn_addn o (str "+")) | _ => E_dyn_ok (curlx_dyn_addn o (str "%20")) end);
        urlencode_loop len1 o (drop 1 iptr) query
      else if (c <? 32) || (c >=? 127) then
        o ← E_dyn_ok (curlx_dyn_addn o (37 :: Curl_hexbyte c));
        urlencode_loop len1 o (drop 1 iptr) query
      else
        let c1 := at_ iptr 1 in
        let c2 := at_ iptr 2 in
        let plain :=
          o ← E_dyn_ok (curlx_dyn_addn o [c]);
          urlencode_loop len1 o (drop 1 iptr)
            (if c =? 63 then match query with QUERY_NOT_YET => QUERY_YES | q => q end else query) in
        match len1 with
        | S (S len3) =>
            if (c =? 37) && ISXDIGIT c1 && ISXDIGIT c2 && (ISLOWER c1 || ISLOWER c2) then
              let hex := u8 (Z.lor (Z.shiftl (curlx_hexval c1) 4) (curlx_hexval c2)) in
              o ← E_dyn_ok (curlx_dyn_addn o (37 :: Curl_hexbyte hex));
              urlencode_loop len3 o (drop 3 iptr) query
            else plain
        | _ => plain
        end
  end.

(** [url] is a C string and [len] at most its length. *)
Definition urlencode_str (o : dynbuf) (url : list Z) (len : Z) (relative : bool) (query : query_mode) : E dynbuf :=
  if negb relative then
    let host_sep := find_host_sep url in
    let n := zlen url - zlen host_sep in
    o ← E_dyn_ok (curlx_dyn_addn o (ztake n url));
    if len <? n then undef else urlencode_loop (Z.to_nat (len - n)) o host_sep query
  else urlencode_loop (Z.to_nat len) o url query.

(** * Schemes *)

(** The index where the loop over the scheme stops, [i] being the next. *)
Fixpoint scheme_end (rounds : nat) (i : Z) (s : list Z) : Z :=
  match rounds with
  | O => i
  | S rounds =>
      let c := deref s in
      if negb (c =? 0) && (ISALNUM c || (c =? 43) || (c =? 45) || (c =? 46)) then scheme_end rounds (i + 1) (drop 1 s) else i
  end.

(** The length of the scheme and the scheme in lower case. *)
Definition Curl_is_absolute_url (url : list Z) (guess_scheme : bool) : Z * list Z :=
  let i := if ISALPHA (deref url) then scheme_end 39 1 (drop 1 url) else 0 in
  if negb (i =? 0) && (deref (zdrop i url) =? 58) && ((deref (zdrop (i + 1) url) =? 47) || negb guess_scheme)
  then (i, Curl_strntolower url i) else (0, []).

Fixpoint junk (control : Z) (p : list Z) : bool :=
  match p with
  | [] => false
  | c :: p => (c <=? control) || (c =? 127) || junk control p
  end.

(** The length of the URL. *)
Definition Curl_junkscan (url : list Z) (allowspace : bool) : E Z :=
  let n := zlen url in
  if n >? CURL_MAX_INPUT_LENGTH then throw CURLUE_MALFORMED_INPUT
  else if junk (if allowspace then 31 else 32) url then throw CURLUE_MALFORMED_INPUT
  else mret n.
