(* ===== verification/UrlParse.v ===== *)
(** The URL API, lib/urlapi.c: from a text to a handle.

    The parser splits a URL at its separators and checks and normalises each
    part: login details, port, host (name, numeric IPv4 address, bracketed IPv6
    address), path with its dot segments, query, fragment. *)

From Stdlib Require Import ZArith Lia List String SpecFloat.
From stdpp Require Import base numbers option list.
From S2P Require Import Prelude Dynbuf Strparse Strcase Escape InetAddr Mprintf Protocol Urlapi.
Close Scope nat_scope.
Open Scope Z_scope.

(** * Login details *)

(** The lengths of the three portions of [len] characters, with the positions
    of the separators. *)
Definition login_lengths (len : Z) (psep osep : option Z) : Z * Z * Z :=
  let ulen := match psep, osep with
              | Some p, Some q => if p >? q then q else p
              | Some p, None => p
              | None, Some q => q
              | None, None => len
              end in
  let plen := match psep with
              | Some p => match osep with Some q => if q >? p then q - p else len - p | None => len - p end - 1
              | None => 0
              end in
  let olen := match osep with
              | Some q => match psep with Some p => if p >? q then p - q else len - q | None => len - q end - 1
              | None => 0
              end in
  (ulen, plen, olen).

(** lib/url.c: [*userp], [*passwdp] and [*optionsp]; [options] says that
    [optionsp] is not NULL. *)
Definition Curl_parse_login_details (login : list Z) (len : Z) (options : bool)
    : E (list Z * option (list Z) * option (list Z)) :=
  let login := ztake len login in
  let psep := memchr login 58 in
  let osep := if options then memchr login 59 else None in
  let '(ulen, plen, olen) := login_lengths len psep osep in
  ubuf ← E_dup (ztake ulen login);
  pbuf ← (match psep with Some p => b ← E_dup (slice login (p + 1) plen); mret (Some b) | None => mret None end);
  obuf ← (match osep with
          | Some q => if negb (olen =? 0) then b ← E_dup (slice login (q + 1) olen); mret (Some b) else mret None
          | None => mret None
          end);
  mret (ubuf, pbuf, obuf).

(** [out:] *)
Definition login_out {A} (m : U A) : U A :=
  modu (fun u => set_user None (set_password None (set_options None u)));; m.

(** The offset of the hostname. *)
Definition parse_hostname_login (login : list Z) (len flags : Z) : U Z :=
  match memchr (ztake len login) 64 with
  | None => login_out (mret 0)
  | Some at_sign =>
      u ← getu;
      h ← (match u_scheme u with Some s => lift (defined (Curl_get_scheme s)) | None => mret None end);
      let options := match h with Some h => has (sc_flags h) PROTOPT_URLOPTIONS | None => false end in
      r ← lift (E_try (Curl_parse_login_details login at_sign options));
      match r with
      | inl _ => login_out (fails CURLUE_OUT_OF_MEMORY)
      | inr (userp, passwdp, optionsp) =>
          if has flags CURLU_DISALLOW_USER then login_out (fails CURLUE_USER_NOT_ALLOWED)
          else
            modu (set_user (Some userp));;
            modu (match passwdp with Some p => set_password (Some p) | None => id end);;
            modu (match optionsp with Some p => set_options (Some p) | None => id end);;
            mret (at_sign + 1)
      end
  end.

(** * Port *)

(** The C string a buffer holds, undefined if it holds no memory. *)
Definition held (b : dynbuf) : option (list Z) := m ← curlx_dyn_ptr b; mem_text m.

(** Where the colon in front of the port is. *)
Definition find_port (hostname : list Z) : CURLUcode + option (list Z) :=
  if deref hostname =? 91 then
    match strchr hostname 93 with
    | None => inl CURLUE_BAD_IPV6
    | Some portptr =>
        let portptr := drop 1 portptr in
        if negb (deref portptr =? 0) then
          if negb (deref portptr =? 58) then inl CURLUE_BAD_PORT_NUMBER else inr (Some portptr)
        else inr None
    end
  else inr (strchr hostname 58).

Definition parse_port (host : dynbuf) (has_scheme : bool) : U dynbuf :=
  hostname ← lift (defined (held host));
  modu (set_port 0 false);;
  match find_port hostname with
  | inl e => fails e
  | inr None => mret host
  | inr (Some portptr) =>
      let keep := zlen hostname - zlen portptr in
      '(host, _) ← lift (defined (curlx_dyn_setlen host keep));
      let portptr := drop 1 portptr in
      if deref portptr =? 0 then if has_scheme then mret host else fails CURLUE_BAD_PORT_NUMBER
      else
        '(rc, port, portptr) ← lift (defined (curlx_str_number portptr 65535));
        match rc with
        | STRE_OK =>
            if negb (deref portptr =? 0) then fails CURLUE_BAD_PORT_NUMBER
            else modu (set_port port true);; mret host
        | _ => fails CURLUE_BAD_PORT_NUMBER
        end
  end.

(** * Host *)

Definition IPV6_LETTERS : list Z := str "0123456789abcdefABCDEF:.".

(** The loop that copies the zone id, up to the closing bracket: the zone and
    what is left. *)
Fixpoint zone_loop (room : nat) (h : list Z) : list Z * list Z :=
  match room, h with
  | S room, c :: h' => if c =? 93 then ([], h) else let '(z, r) := zone_loop room h' in (c :: z, r)
  | _, _ => ([], h)
  end.

(** The zone id behind the percent sign at [hostname[len]]. *)
Definition ipv6_zone (hostname : list Z) (len : Z) : option (list Z) :=
  let h := zdrop (len + 1) hostname in
  let h := if strncmp_eq h (str "25") 2 && negb (at_ h 2 =? 0) && negb (at_ h 2 =? 93) then drop 2 h else h in
  let '(zoneid, h) := zone_loop (Z.to_nat (MAX_ZONEID_LEN - 1)) h in
  if (zlen zoneid =? 0) || negb (deref h =? 93) then None else Some zoneid.

(** The block behind the opening bracket, of which [hlen] characters are the
    address: end it there, write the address in the usual form. *)
Definition ipv6_normalize (m : mem) (hlen : Z) : option (CURLUcode + mem) :=
  m ← mem_write m hlen [0];
  hostname ← mem_text m;
  '(dest, rc, _) ← curlx_inet_pton AF_INET6 hostname (uninit 16);
  if negb (rc =? 1) then Some (inl CURLUE_BAD_IPV6)
  else
    addr ← mem_read dest 0 16;
    '(m, err) ← curlx_inet_ntop AF_INET6 addr m (hlen + 1);
    '(m, hlen) ← (match err with
                  | None => hlen ← mem_strlen m; m ← mem_write m (hlen + 1) [0]; Some (m, hlen)
                  | Some _ => Some (m, hlen)
                  end);
    m ← mem_write m hlen [93];
    Some (inr m).

(** The block at [hostname], whose first character is the bracket. *)
Definition ipv6_parse (hostname : mem) (hlen : Z) : U mem :=
  if hlen <? 4 then fails CURLUE_BAD_IPV6
  else
    let bracket := take 1 hostname in
    let m := drop 1 hostname in
    let hlen := hlen - 2 in
    text ← lift (defined (mem_text m));
    let len := strspn text IPV6_LETTERS in
    '(m, hlen) ← (if negb (hlen =? len) then
                    if at_ text (Z.to_nat len) =? 37 then
                      match ipv6_zone text len with
                      | None => fails CURLUE_BAD_IPV6
                      | Some zoneid =>
                          modu (set_zoneid None);;
                          z ← lift (E_dup zoneid);
                          modu (set_zoneid (Some z));;
                          m ← lift (defined (mem_write m len [93]));
                          m ← lift (defined (mem_write m (len + 1) [0]));
                          mret (m, len)
                      end
                    else fails CURLUE_BAD_IPV6
                  else mret (m, hlen));
    r ← lift (defined (ipv6_normalize m hlen));
    match r with
    | inl e => fails e
    | inr m => mret (bracket ++ m)
    end.

Definition hostname_check (hostname : mem) (hlen : Z) : U mem :=
  if hlen =? 0 then fails CURLUE_NO_HOST
  else
    text ← lift (defined (mem_text hostname));
    if deref text =? 91 then ipv6_parse hostname hlen
    else
      let len := strcspn text HOSTNAME_INVALID_CHARS in
      if negb (hlen =? len) then fails CURLUE_BAD_HOSTNAME
      else if (hlen >=? 2) && (at_ text (Z.to_nat (hlen - 1)) =? 46) && (at_ text (Z.to_nat (hlen - 2)) =? 46)
      then fails CURLUE_BAD_HOSTNAME
      else if (hlen =? 1) && (deref text =? 46) then fails CURLUE_BAD_HOSTNAME
      else mret hostname.

(** ** Numeric addresses *)

(** The number at [c]: the result code, the value and what follows; the hex
    prefix without digits is [None]. *)
Definition ipv4_number (c : list Z) : option (option (STRE * Z * list Z)) :=
  if deref c =? 48 then
    if Curl_raw_tolower (at_ c 1) =? 120 then
      '(rc, l, c) ← curlx_str_hex (drop 2 c) UINT_MAX;
      Some (match rc with STRE_OK => Some (rc, l, c) | _ => None end)
    else Some <$> curlx_str_octal c UINT_MAX
  else Some <$> curlx_str_number c UINT_MAX.

(** The parts, [done] those in front of part [n]; [None] inside is
    [HOST_NAME].  A round adds a part, and there are at most four. *)
Fixpoint ipv4_loop (rounds : nat) (done : list Z) (c : list Z) : option (option (list Z)) :=
  match rounds with
  | O => None
  | S rounds =>
      x ← ipv4_number c;
      match x with
      | None => Some None
      | Some (rc, l, c) =>
          let n := zlen done in
          match (match rc with
                 | STRE_OK => Some (done ++ [l])
                 | STRE_NO_NUM => if (n =? 0) || negb (deref c =? 0) then None else Some done
                 | _ => None
                 end) with
          | None => Some None
          | Some parts =>
              if deref c =? 46 then
                if zlen parts - 1 =? 3 then
                  if negb (at_ c 1 =? 0) then Some None else Some (Some parts)
                else ipv4_loop rounds parts (drop 1 c)
              else if deref c =? 0 then Some (Some parts)
              else Some None
          end
      end
  end.

(** The four numbers to print. *)
Definition ipv4_quad (parts : list Z) : option (list Z) :=
  let byte x k := Z.land (Z.shiftr x k) 255 in
  match parts with
  | [a] => Some [Z.shiftr a 24; byte a 16; byte a 8; Z.land a 255]
  | [a; b] => if (a >? 255) || (b >? 16777215) then None else Some [a; byte b 16; byte b 8; Z.land b 255]
  | [a; b; c] => if (a >? 255) || (b >? 255) || (c >? 65535) then None else Some [a; b; byte c 8; Z.land c 255]
  | [a; b; c; d] => if (a >? 255) || (b >? 255) || (c >? 255) || (d >? 255) then None else Some [a; b; c; d]
  | _ => None
  end.

Section Urlapi.

(** [snprintf] of the C library, which prints numbers with a fraction; the
    formats of this file have none. *)
Context (c_snprintf : list Z -> spec_float -> list Z).

(** [curlx_dyn_addf] *)
Definition E_addf (s : dynbuf) (fmt : list Z) (args : list va_arg) : E (dynbuf * CURLcode) :=
  E_dyn (curlx_dyn_addf_lib c_snprintf s fmt args).

Definition ipv4_normalize (host : dynbuf) : E (host_type * dynbuf) :=
  c ← defined (held host);
  if deref c =? 91 then mret (HOST_IPV6, host)
  else
    parts ← defined (ipv4_loop 4 [] c);
    match (parts ← parts; ipv4_quad parts) with
    | None => mret (HOST_NAME, host)
    | Some quad =>
        host ← defined (curlx_dyn_reset host);
        '(host, result) ← E_addf host (str "%u.%u.%u.%u") (A_uint <$> quad);
        mret (if negb (is_ok result) then HOST_ERROR else HOST_IPV4, host)
    end.

(** [curlx_dyn_reset] leaves the memory, [curlx_dyn_addn] writes to it. *)
Definition urldecode_host (host : dynbuf) : E dynbuf :=
  hostname ← defined (held host);
  match strchr hostname 37 with
  | None => mret host
  | Some _ =>
      r ← E_urldecode hostname 0;
      match r with
      | None => throw CURLUE_BAD_HOSTNAME
      | Some (decoded, dlen) =>
          bytes ← defined (mem_read decoded 0 dlen);
          host ← defined (curlx_dyn_reset host);
          E_dyn_ok (curlx_dyn_addn host bytes)
      end
  end.

(** A buffer whose memory was written to. *)
Definition dyn_with (b : dynbuf) (m : mem) : dynbuf := mk_dynbuf (Some m) (leng b) (allc b) (toobig b).

(** A check that writes to the memory of the buffer. *)
Definition in_place (host : dynbuf) (f : mem -> Z -> U mem) : U dynbuf :=
  m ← lift (defined (curlx_dyn_ptr host));
  m ← f m (curlx_dyn_len host);
  mret (dyn_with host m).

Definition parse_authority (auth : list Z) (authlen flags : Z) (host : dynbuf) (has_scheme : bool) : U dynbuf :=
  offset ← parse_hostname_login auth authlen flags;
  host ← lift (E_dyn_ok (curlx_dyn_addn host (slice auth offset (authlen - offset))));
  host ← parse_port host has_scheme;
  host ← (if curlx_dyn_len host =? 0 then fails CURLUE_NO_HOST else lift (urldecode_host host));
  '(t, host) ← lift (ipv4_normalize host);
  match t with
  | HOST_IPV4 => mret host
  | HOST_IPV6 => in_place host ipv6_parse
  | HOST_NAME => in_place host hostname_check
  | HOST_ERROR => fails CURLUE_OUT_OF_MEMORY
  end.

(** The C string a buffer hands over, NULL if it has no memory. *)
Definition dyn_give (b : dynbuf) : option (option (list Z)) :=
  match curlx_dyn_ptr b with None => Some None | Some m => Some <$> mem_text m end.

Definition Curl_url_set_authority (authority : list Z) : U unit :=
  u ← getu;
  let has_scheme := match u_scheme u with Some _ => true | None => false end in
  host ← parse_authority authority (zlen authority) CURLU_DISALLOW_USER (curlx_dyn_init CURL_MAX_INPUT_LENGTH) has_scheme;
  h ← lift (defined (dyn_give host));
  modu (set_host h).

End Urlapi.
