(* ===== verification/UrlPath.v ===== *)
(** The URL API, lib/urlapi.c: dot segments, file URLs, schemes and the parser
    of a whole URL. *)

From Stdlib Require Import ZArith Lia List String SpecFloat.
From stdpp Require Import base numbers option list.
From S2P Require Import Prelude Dynbuf Strparse Strcase Escape InetAddr Mprintf Protocol Urlapi UrlParse.
Close Scope nat_scope.
Open Scope Z_scope.

(** * Dot segments *)

(** Is there a dot, and where [*str] and [*clen] are then. *)
Definition is_dot (p : list Z) (clen : Z) : bool * list Z * Z :=
  if deref p =? 46 then (true, drop 1 p, u64 (clen - 1))
  else if (clen >=? 3) && (deref p =? 37) && (at_ p 1 =? 50) && (Z.lor (at_ p 2) 32 =? 101)
  then (true, drop 3 p, u64 (clen - 3))
  else (false, p, clen).

Definition ISSLASH (x : Z) : bool := x =? 47.

(** Remove a leading dot segment: [None] is [goto end]. *)
Definition skip_leading_dots (input : list Z) (clen : Z) : option (list Z * Z) :=
  let '(one, dinput, dlen) := is_dot input clen in
  if one then
    if ISSLASH (deref dinput) then Some (drop 1 dinput, u64 (dlen - 1))
    else
      let '(two, dinput, dlen) := is_dot dinput dlen in
      if two then
        if dlen =? 0 then None
        else if ISSLASH (deref dinput) then Some (drop 1 dinput, u64 (dlen - 1))
        else Some (input, clen)
      else Some (input, clen)
  else Some (input, clen).

(** Remove the last segment from the output buffer. *)
Definition trim_last (out : dynbuf) : option dynbuf :=
  let len := curlx_dyn_len out in
  if negb (len =? 0) then
    m ← curlx_dyn_ptr out;
    text ← mem_read m 0 len;
    match memrchr text 47 with
    | Some last => '(out, _) ← curlx_dyn_setlen out last; Some out
    | None => Some out
    end
  else Some out.

(** What to do at the start of a segment. *)
Inductive dots :=
  | DOT_NONE
  | DOT_SKIP (input : list Z) (clen : Z)
  | DOT_END
  | DOTDOT_SKIP (input : list Z) (clen : Z)
  | DOTDOT_END.

Definition look_for_dots (input : list Z) (clen : Z) : dots :=
  if ISSLASH (deref input) then
    let '(one, p, blen) := is_dot (drop 1 input) (u64 (clen - 1)) in
    if one then
      if blen =? 0 then DOT_END
      else if ISSLASH (deref p) then DOT_SKIP p blen
      else
        let '(two, p, blen) := is_dot p blen in
        if two && (ISSLASH (deref p) || (blen =? 0)) then
          if negb (blen =? 0) then DOTDOT_SKIP p blen else DOTDOT_END
        else DOT_NONE
    else DOT_NONE
  else DOT_NONE.

(** [while(clen && !result)]: a round takes a character at least. *)
Fixpoint dedot_loop (rounds : nat) (input : list Z) (clen : Z) (out : dynbuf) : E dynbuf :=
  if clen =? 0 then mret out
  else
    match rounds with
    | O => undef
    | S rounds =>
        match look_for_dots input clen with
        | DOT_NONE =>
            out ← E_dyn_ok (curlx_dyn_addn out [deref input]);
            dedot_loop rounds (drop 1 input) (u64 (clen - 1)) out
        | DOT_SKIP input clen => dedot_loop rounds input clen out
        | DOT_END => E_dyn_ok (curlx_dyn_addn out (str "/"))
        | DOTDOT_SKIP input clen =>
            out ← defined (trim_last out);
            dedot_loop rounds input clen out
        | DOTDOT_END =>
            out ← defined (trim_last out);
            E_dyn_ok (curlx_dyn_addn out (str "/"))
        end
    end.

(** The result and [*outp]. *)
Definition dedotdotify (input : list Z) (clen : Z) : E (Z * option (list Z)) :=
  if clen <? 2 then mret (0, None)
  else
    r ← E_try (match skip_leading_dots input clen with
               | None => mret (curlx_dyn_init (clen + 1))
               | Some (input, clen1) => dedot_loop (Z.to_nat clen) input clen1 (curlx_dyn_init (clen + 1))
               end);
    match r with
    | inl _ => mret (1, None)
    | inr out =>
        if negb (curlx_dyn_len out =? 0) then t ← defined (held out); mret (0, Some t)
        else ok ← E_alloc; mret (if (ok : bool) then (0, Some []) else (1, None))
    end.

(** * File URLs *)

Definition STARTS_WITH_URL_DRIVE_PREFIX (s : list Z) : bool :=
  (between 97 (at_ s 0) 122 || between 65 (at_ s 0) 90) && ((at_ s 1 =? 58) || (at_ s 1 =? 124)) &&
  ((at_ s 2 =? 47) || (at_ s 2 =? 92) || (at_ s 2 =? 0)).

(** [*pathp] and [*pathlenp]. *)
Definition parse_file (url : list Z) (urllen : Z) : U (list Z * Z) :=
  if urllen <=? 6 then fails CURLUE_BAD_FILE_URL
  else
    let path := zdrop 5 url in
    if negb (at_ path 0 =? 47) then fails CURLUE_BAD_FILE_URL
    else
      '(path, pathlen) ←
        (if at_ path 1 =? 47 then
           let ptr := drop 2 path in
           if negb (at_ ptr 0 =? 47) && negb (STARTS_WITH_URL_DRIVE_PREFIX ptr) then
             if checkprefix (str "localhost/") ptr || checkprefix (str "127.0.0.1/") ptr
             then mret (drop 9 ptr, urllen - 16)
             else fails CURLUE_BAD_FILE_URL
           else mret (ptr, urllen - 7)
         else mret (path, urllen - 5));
      if ((at_ path 0 =? 47) && STARTS_WITH_URL_DRIVE_PREFIX (drop 1 path)) || STARTS_WITH_URL_DRIVE_PREFIX path
      then fails CURLUE_BAD_FILE_URL
      else
        modu (set_scheme None);;
        s ← lift (E_dup (str "file"));
        modu (set_scheme (Some s));;
        mret (path, pathlen).

(** * Schemes *)

(** The loop over the slashes, at most [room] of them: [i] and [p]. *)
Fixpoint skip_slashes (room : nat) (p : list Z) : Z * list Z :=
  match room with
  | O => (0, p)
  | S room => if deref p =? 47 then let '(i, p) := skip_slashes room (drop 1 p) in (1 + i, p) else (0, p)
  end.

(** Where the hostname starts. *)
Definition parse_scheme (url schemebuf : list Z) (schemelen flags : Z) : U (list Z) :=
  '(schemep, hostp) ←
    (if negb (schemelen =? 0) then
       let '(i, p) := skip_slashes 4 (zdrop (schemelen + 1) url) in
       h ← lift (defined (Curl_get_scheme schemebuf));
       match h with
       | None => if negb (has flags CURLU_NON_SUPPORT_SCHEME) then fails CURLUE_UNSUPPORTED_SCHEME else mret tt
       | Some _ => mret tt
       end;;
       if (i <? 1) || (i >? 3) then fails CURLUE_BAD_SLASHES else mret (Some schemebuf, p)
     else if negb (has flags (Z.lor CURLU_DEFAULT_SCHEME CURLU_GUESS_SCHEME)) then fails CURLUE_BAD_SCHEME
     else mret (if has flags CURLU_DEFAULT_SCHEME then Some DEFAULT_SCHEME else None, url));
  match schemep with
  | Some s =>
      modu (set_scheme None);;
      s ← lift (E_dup s);
      modu (set_scheme (Some s));;
      mret hostp
  | None => mret hostp
  end.

(** The scheme for a hostname. *)
Definition guessed (hostname : list Z) : list Z :=
  if checkprefix (str "ftp.") hostname then str "ftp"
  else if checkprefix (str "dict.") hostname then str "dict"
  else if checkprefix (str "ldap.") hostname then str "ldap"
  else if checkprefix (str "imap.") hostname then str "imap"
  else if checkprefix (str "smtp.") hostname then str "smtp"
  else if checkprefix (str "pop3.") hostname then str "pop3"
  else str "http".

Definition guess_scheme (host : dynbuf) : U unit :=
  hostname ← lift (defined (held host));
  modu (set_scheme None);;
  s ← lift (E_dup (guessed hostname));
  modu (fun u => set_guessed_scheme true (set_scheme (Some s) u)).

(** * Fragment, query, path *)

(** The text [urlencode_str] makes of [len] characters. *)
Definition encoded (s : list Z) (len : Z) (query : query_mode) : E (list Z) :=
  enc ← urlencode_str (curlx_dyn_init CURL_MAX_INPUT_LENGTH) s len true query;
  defined (held enc).

Definition handle_fragment (fragment : list Z) (fraglen flags : Z) : U unit :=
  modu (set_fragment_present true);;
  if fraglen >? 1 then
    f ← lift (if has flags CURLU_URLENCODE then encoded (drop 1 fragment) (fraglen - 1) QUERY_NO
              else E_dup (slice fragment 1 (fraglen - 1)));
    modu (set_fragment (Some f))
  else mret tt.

Definition handle_query (query : list Z) (qlen flags : Z) : U unit :=
  modu (set_query_present true);;
  q ← lift (if qlen >? 1 then
              if has flags CURLU_URLENCODE then encoded (drop 1 query) (qlen - 1) QUERY_YES
              else E_dup (slice query 1 (qlen - 1))
            else E_dup []);
  modu (set_query (Some q)).

Definition handle_path (path : list Z) (pathlen flags : Z) (is_file : bool) : U unit :=
  '(path, pathlen) ←
    (if negb (pathlen =? 0) && has flags CURLU_URLENCODE then
       p ← lift (encoded path pathlen QUERY_NO);
       modu (set_path (Some p));;
       mret (p, zlen p)
     else mret (path, pathlen));
  if pathlen >=? 1 + (if is_file then 0 else 1) then
    u ← getu;
    path ← (match u_path u with
            | None => p ← lift (E_dup (ztake pathlen path)); modu (set_path (Some p));; mret p
            | Some p => (if has flags CURLU_URLENCODE then modu (set_path (Some (ztake pathlen p))) else mret tt);; mret path
            end);
    if negb (has flags CURLU_PATH_AS_IS) then
      '(err, dedot) ← lift (dedotdotify path pathlen);
      if negb (err =? 0) then fails CURLUE_OUT_OF_MEMORY
      else modu (match dedot with Some p => set_path (Some p) | None => id end)
    else mret tt
  else mret tt.

(** * A whole URL *)

Section Urlapi.

Context (c_snprintf : list Z -> spec_float -> list Z).

(** The authority of a URL that starts at [hostp] and is [hostlen] long. *)
Definition parse_host (hostp : list Z) (hostlen flags : Z) (host : dynbuf) : U dynbuf :=
  if negb (hostlen =? 0) then
    u ← getu;
    let scheme := match u_scheme u with Some _ => true | None => false end in
    host ← parse_authority c_snprintf hostp hostlen flags host scheme;
    u ← getu;
    (if has flags CURLU_GUESS_SCHEME && match u_scheme u with Some _ => false | None => true end
     then guess_scheme host else mret tt);;
    mret host
  else if has flags CURLU_NO_AUTHORITY then
    '(host, r) ← lift (E_dyn (curlx_dyn_add host []));
    if negb (is_ok r) then fails CURLUE_OUT_OF_MEMORY else mret host
  else fails CURLUE_NO_HOST.

(** A handle to [memset] to zero first; when the parser fails its strings
    are freed and it is not used any more. *)
Definition parseurl (url : list Z) (flags : Z) : U unit :=
  let host := curlx_dyn_init CURL_MAX_INPUT_LENGTH in
  urllen ← lift (Curl_junkscan url (has flags CURLU_ALLOW_SPACE));
  let '(schemelen, schemebuf) := Curl_is_absolute_url url (has flags (Z.lor CURLU_GUESS_SCHEME CURLU_DEFAULT_SCHEME)) in
  let is_file := negb (schemelen =? 0) && bool_decide (schemebuf = str "file") in
  '(path, pathlen, host) ←
    (if is_file then '(path, pathlen) ← parse_file url urllen; mret (path, pathlen, host)
     else
       hostp ← parse_scheme url schemebuf schemelen flags;
       let hostlen := strcspn hostp (str "/?#") in
       let path := zdrop hostlen hostp in
       let pathlen := urllen - (zlen url - zlen path) in
       host ← parse_host hostp hostlen flags host;
       mret (path, pathlen, host));
  pathlen ←
    (match strchr path 35 with
     | Some fragment =>
         let fraglen := pathlen - (zlen path - zlen fragment) in
         handle_fragment fragment fraglen flags;;
         mret (pathlen - fraglen)
     | None => mret pathlen
     end);
  pathlen ←
    (match memchr (ztake pathlen path) 63 with
     | Some q =>
         let qlen := pathlen - q in
         handle_query (zdrop q path) qlen flags;;
         mret (pathlen - qlen)
     | None => mret pathlen
     end);
  handle_path path pathlen flags is_file;;
  h ← lift (defined (dyn_give host));
  modu (set_host h).

Definition parseurl_and_replace (url : list Z) (flags : Z) : U unit := fun u o =>
  '(r, tmpurl, o) ← parseurl url flags empty_url o;
  Some (match r with inl e => (inl e, u, o) | inr _ => (inr tt, tmpurl, o) end).

End Urlapi.
