(* ===== verification/UrlSet.v ===== *)
(** The URL API, lib/urlapi.c: getting and setting parts, relative URLs, and
    what other files ask of a handle. *)

From Stdlib Require Import ZArith Lia List String SpecFloat.
From stdpp Require Import base numbers option list.
From S2P Require Import Prelude Dynbuf Strparse Strcase Escape InetAddr Mprintf Protocol Urlapi UrlParse UrlPath.
Close Scope nat_scope.
Open Scope Z_scope.

(** * Copying a handle *)

(** [DUP] *)
Definition dup_part (s : option (list Z)) : E (option (list Z)) :=
  match s with Some s => s ← E_dup s; mret (Some s) | None => mret None end.

(** The copy, or the failure that makes the function return NULL. *)
Definition curl_url_dup (in_ : Curl_URL) : E Curl_URL :=
  ok ← E_alloc;
  if negb ok then throw CURLUE_OUT_OF_MEMORY
  else
    scheme ← dup_part (u_scheme in_);
    user ← dup_part (u_user in_);
    password ← dup_part (u_password in_);
    options ← dup_part (u_options in_);
    host ← dup_part (u_host in_);
    path ← dup_part (u_path in_);
    query ← dup_part (u_query in_);
    fragment ← dup_part (u_fragment in_);
    zoneid ← dup_part (u_zoneid in_);
    mret (URL scheme user password options host zoneid path query fragment
            (u_portnum in_) (u_port_present in_) (u_query_present in_) (u_fragment_present in_) false).

(** * Getting *)

(** lib/idn.c, for a string that is not NULL. *)
Definition Curl_is_ASCII_name (hostname : list Z) : bool := forallb (fun c => Z.land c 128 =? 0) hostname.

(** [curl_easy_escape(NULL, host, 0)] *)
Definition E_escape (s : list Z) : E (option (list Z)) := fun o =>
  '(r, o) ← curl_easy_escape (Some s) 0 o;
  match r with Some m => t ← mem_text m; Some (inr (Some t), o) | None => Some (inr None, o) end.

Section Urlapi.

Context (c_snprintf : list Z -> spec_float -> list Z).

(** Which schemes the build implements: those whose [run] is not NULL. *)
Context (runs : Curl_scheme -> bool).

(** [curl_maprintf], where NULL becomes [CURLUE_OUT_OF_MEMORY]. *)
Definition E_aprintf (fmt : list Z) (args : list va_arg) : E (list Z) := fun o =>
  '(r, o, _) ← curl_mvaprintf c_snprintf fmt args o;
  match r with
  | Some m => t ← mem_text m; Some (inr t, o)
  | None => Some (inl CURLUE_OUT_OF_MEMORY, o)
  end.

(** The text [curl_msnprintf] leaves in an array of [size] characters. *)
Definition E_snprintf (size : Z) (fmt : list Z) (args : list va_arg) : E (list Z) :=
  defined ('(_, m, _) ← curl_msnprintf c_snprintf (uninit size) size fmt args; mem_text m).

Definition portbuf (portnum : Z) : E (list Z) := E_snprintf 7 (str "%u") [A_uint portnum].

Definition plus_to_space (s : list Z) : list Z := map (fun c => if c =? 43 then 32 else c) s.

(** [*partp], NULL when the encoder has nothing to encode. *)
Definition urlget_format (u : Curl_URL) (what : CURLUPart) (ptr : list Z) (plusdecode : bool) (flags : Z)
    : E (option (list Z)) :=
  let is_host := match what with CURLUPART_HOST => true | _ => false end in
  let punycode := has flags CURLU_PUNYCODE && is_host in
  let depunyfy := has flags CURLU_PUNY2IDN && is_host in
  part ← E_dup ptr;
  let part := if plusdecode then plus_to_space part else part in
  part ← (if has flags CURLU_URLDECODE then
            r ← E_urldecode part (zlen part);
            match r with
            | None => throw CURLUE_URLDECODE
            | Some (decoded, dlen) => defined (mem_read decoded 0 dlen)
            end
          else mret part);
  if has flags CURLU_URLENCODE then
    enc ← urlencode_str (curlx_dyn_init CURL_MAX_INPUT_LENGTH) part (zlen part) true
            (match what with CURLUPART_QUERY => QUERY_YES | _ => QUERY_NO end);
    defined (dyn_give enc)
  else if punycode then
    host ← defined (u_host u);
    if negb (Curl_is_ASCII_name host) then throw CURLUE_LACKS_IDN else mret (Some part)
  else if depunyfy then
    host ← defined (u_host u);
    if Curl_is_ASCII_name host then throw CURLUE_LACKS_IDN else mret (Some part)
  else mret (Some part).

Definition or_empty (s : option (list Z)) : list Z := default [] s.

Definition file_url (u : Curl_URL) (fragmentsep querysep : list Z) : E (list Z) :=
  E_aprintf (str "file://%s%s%s%s%s")
    [A_str (u_path u); A_str (Some querysep); A_str (Some (or_empty (u_query u)));
     A_str (Some fragmentsep); A_str (Some (or_empty (u_fragment u)))].

Definition given {A} (x : option A) : bool := match x with Some _ => true | None => false end.

Definition fragment_sep (u : Curl_URL) (flags : Z) : list Z :=
  if given (u_fragment u) || (u_fragment_present u && has flags CURLU_GET_EMPTY) then str "#" else [].

Definition query_sep (u : Curl_URL) (flags : Z) : list Z :=
  if negb (deref (or_empty (u_query u)) =? 0) || (u_query_present u && has flags CURLU_GET_EMPTY) then str "?" else [].

(** The port to print, for a scheme of the table. *)
Definition url_port (u : Curl_URL) (h : option Curl_scheme) (flags : Z) : E (option (list Z)) :=
  port ← (if u_port_present u then p ← portbuf (u_portnum u); mret (Some p) else mret None);
  match h with
  | Some h =>
      if negb (u_port_present u) && has flags CURLU_DEFAULT_PORT then p ← portbuf (sc_defport h); mret (Some p)
      else if u_port_present u && (sc_defport h =? u_portnum u) && has flags CURLU_NO_DEFAULT_PORT then mret None
      else mret port
  | None => mret port
  end.

(** [allochost]: the host to print instead of the stored one. *)
Definition url_host (u : Curl_URL) (host : list Z) (flags : Z) : E (option (list Z)) :=
  if deref host =? 91 then
    match u_zoneid u with
    | Some zoneid =>
        if zlen host >? INT_MAX then undef
        else
          '(enc, r) ← E_addf c_snprintf (curlx_dyn_init CURL_MAX_INPUT_LENGTH) (str "%.*s%%25%s]")
                        [A_int (zlen host - 1); A_str (Some host); A_str (Some zoneid)];
          if negb (is_ok r) then throw CURLUE_OUT_OF_MEMORY
          else t ← defined (held enc); mret (Some t)
    | None => mret None
    end
  else if has flags CURLU_URLENCODE then
    r ← E_escape host;
    match r with None => throw CURLUE_OUT_OF_MEMORY | Some t => mret (Some t) end
  else if has flags CURLU_PUNYCODE then
    if negb (Curl_is_ASCII_name host) then throw CURLUE_LACKS_IDN else mret None
  else if has flags CURLU_PUNY2IDN then
    if Curl_is_ASCII_name host then throw CURLUE_LACKS_IDN else mret None
  else mret None.

Definition urlget_url (u : Curl_URL) (flags : Z) : E (list Z) :=
  let fragmentsep := fragment_sep u flags in
  let querysep := query_sep u flags in
  if curl_strequal (Some (str "file")) (u_scheme u) then file_url u fragmentsep querysep
  else
    match u_host u with
    | None => throw CURLUE_NO_HOST
    | Some host =>
        scheme ← (match u_scheme u with
                  | Some s => mret s
                  | None => if has flags CURLU_DEFAULT_SCHEME then mret DEFAULT_SCHEME else throw CURLUE_NO_SCHEME
                  end);
        h ← defined (Curl_get_scheme scheme);
        port ← url_port u h flags;
        let options := match h with
                       | Some h => if has (sc_flags h) PROTOPT_URLOPTIONS then u_options u else None
                       | None => u_options u
                       end in
        allochost ← url_host u host flags;
        schemebuf ← (if negb (has flags CURLU_NO_GUESS_SCHEME) || negb (u_guessed_scheme u)
                     then E_snprintf (MAX_SCHEME_LEN + 5) (str "%s://") [A_str (Some scheme)]
                     else mret []);
        let sep c (x : option (list Z)) := if given x then [c] else [] in
        E_aprintf (str "%s%s%s%s%s%s%s%s%s%s%s%s%s%s%s")
          (map (fun s => A_str (Some s))
             [schemebuf; or_empty (u_user u); sep 58 (u_password u); or_empty (u_password u);
              sep 59 options; or_empty options;
              if given (u_user u) || given (u_password u) || given options then str "@" else [];
              default host allochost; sep 58 port; or_empty port; default (str "/") (u_path u);
              querysep; or_empty (u_query u); fragmentsep; or_empty (u_fragment u)])
    end.

(** The port that [CURLUPART_PORT] gets. *)
Definition get_port_text (u : Curl_URL) (flags : Z) : E (option (list Z)) :=
  h ← defined (match u_scheme u with Some s => Curl_get_scheme s | None => Some None end);
  if u_port_present u then
    match h with
    | Some h =>
        if (sc_defport h =? u_portnum u) && has flags CURLU_NO_DEFAULT_PORT then mret None
        else p ← portbuf (u_portnum u); mret (Some p)
    | None => p ← portbuf (u_portnum u); mret (Some p)
    end
  else if has flags CURLU_DEFAULT_PORT then
    match h with Some h => p ← portbuf (sc_defport h); mret (Some p) | None => mret None end
  else mret None.

(** [curl_url_get] of a handle: [*part]. *)
Definition url_get (u : Curl_URL) (what : CURLUPart) (flags : Z) : E (option (list Z)) :=
  let fetch ptr ifmissing plusdecode flags :=
    match ptr with
    | Some ptr => urlget_format u what ptr plusdecode flags
    | None => throw ifmissing
    end in
  match what with
  | CURLUPART_SCHEME =>
      let flags := without flags CURLU_URLDECODE in
      if has flags CURLU_NO_GUESS_SCHEME && u_guessed_scheme u then throw CURLUE_NO_SCHEME
      else fetch (u_scheme u) CURLUE_NO_SCHEME false flags
  | CURLUPART_USER => fetch (u_user u) CURLUE_NO_USER false flags
  | CURLUPART_PASSWORD => fetch (u_password u) CURLUE_NO_PASSWORD false flags
  | CURLUPART_OPTIONS => fetch (u_options u) CURLUE_NO_OPTIONS false flags
  | CURLUPART_HOST => fetch (u_host u) CURLUE_NO_HOST false flags
  | CURLUPART_ZONEID => fetch (u_zoneid u) CURLUE_NO_ZONEID false flags
  | CURLUPART_PORT =>
      let flags := without flags CURLU_URLDECODE in
      ptr ← get_port_text u flags;
      fetch ptr CURLUE_NO_PORT false flags
  | CURLUPART_PATH => fetch (Some (default (str "/") (u_path u))) CURLUE_UNKNOWN_PART false flags
  | CURLUPART_QUERY =>
      let ptr := match u_query u with
                 | Some q => if (deref q =? 0) && negb (has flags CURLU_GET_EMPTY) then None else Some q
                 | None => None
                 end in
      fetch ptr CURLUE_NO_QUERY (has flags CURLU_URLDECODE) flags
  | CURLUPART_FRAGMENT =>
      let ptr := match u_fragment u with
                 | None => if u_fragment_present u && has flags CURLU_GET_EMPTY then Some [] else None
                 | f => f
                 end in
      fetch ptr CURLUE_NO_FRAGMENT false flags
  | CURLUPART_URL => t ← urlget_url u flags; mret (Some t)
  end.

(** The handle is NULL as [None]; [part] says that the place for the result
    is not NULL. *)
Definition curl_url_get (u : option Curl_URL) (what : CURLUPart) (part : bool) (flags : Z) : E (option (list Z)) :=
  match u with
  | None => throw CURLUE_BAD_HANDLE
  | Some u => if negb part then throw CURLUE_BAD_PARTPOINTER else url_get u what flags
  end.

(** * Relative URLs *)

(** Where [relurl] is put on top of [base], whose host starts at [protsep]:
    the length of [base] that stays, what is appended, and whether the host is
    replaced. *)
Definition redirect_parts (base relurl : list Z) (u : Curl_URL) (host : Z) : Z * list Z * bool :=
  let protsep := zdrop host base in
  let from (r : option (list Z)) := (fun r => zlen base - zlen r) <$> r in
  let whole (c : option Z) := default (zlen base) c in
  if deref relurl =? 47 then
    if at_ relurl 1 =? 47 then (host, drop 2 relurl, true)
    else (whole (from (strchr protsep 47)), relurl, false)
  else if deref relurl =? 35 then
    (whole (if given (u_fragment u) then from (strchr protsep 35) else None), relurl, false)
  else
    let cutoff := if negb (deref (or_empty (u_query u)) =? 0) then from (strchr protsep 63)
                  else if negb (deref (or_empty (u_fragment u)) =? 0) then from (strchr protsep 35)
                  else None in
    if negb (deref relurl =? 63) then
      let upto := match cutoff with Some c => c - host | None => zlen protsep end in
      (whole ((fun i => host + i + 1) <$> memrchr (ztake upto protsep) 47), relurl, false)
    else (whole cutoff, relurl, false).

(** The text of the new URL. *)
Definition redirect_text (base relurl : list Z) (u : Curl_URL) : E (list Z) :=
  let host := zlen (default DEFAULT_SCHEME (u_scheme u)) + 3 in
  if zlen base <? host then undef
  else
    let '(prelen, useurl, host_changed) := redirect_parts base relurl u host in
    urlbuf ← E_dyn_ok (curlx_dyn_addn (curlx_dyn_init CURL_MAX_INPUT_LENGTH) (ztake prelen base));
    urlbuf ← urlencode_str urlbuf useurl (zlen useurl) (negb host_changed) QUERY_NOT_YET;
    defined (held urlbuf).

Definition redirect_url (base relurl : list Z) (flags : Z) : U unit :=
  u ← getu;
  r ← lift (E_try (redirect_text base relurl u));
  match r with
  | inr url => parseurl_and_replace c_snprintf url (without flags CURLU_PATH_AS_IS)
  | inl _ => fails CURLUE_OUT_OF_MEMORY
  end.

(** * Setting *)

(** The scheme is stored by the caller. *)
Definition set_url_scheme (scheme : list Z) (flags : Z) : U unit :=
  let plen := zlen scheme in
  if (plen >? MAX_SCHEME_LEN) || (plen <? 1) then fails CURLUE_BAD_SCHEME
  else
    h ← lift (defined (Curl_get_scheme scheme));
    if negb (has flags CURLU_NON_SUPPORT_SCHEME) && match h with Some h => negb (runs h) | None => true end
    then fails CURLUE_UNSUPPORTED_SCHEME
    else if match h with
            | Some _ => true
            | None => ISALPHA (deref scheme) &&
                      forallb (fun c => ISALNUM c || (c =? 43) || (c =? 45) || (c =? 46)) (drop 1 scheme)
            end
    then modu (set_guessed_scheme false)
    else fails CURLUE_BAD_SCHEME.

Definition set_url_port (provided_port : list Z) : U unit :=
  if negb (ISDIGIT (deref provided_port)) then fails CURLUE_BAD_PORT_NUMBER
  else
    '(rc, port, rest) ← lift (defined (curlx_str_number provided_port 65535));
    match rc with
    | STRE_OK => if negb (deref rest =? 0) then fails CURLUE_BAD_PORT_NUMBER else modu (set_port port true)
    | _ => fails CURLUE_BAD_PORT_NUMBER
    end.

Definition set_url (url : list Z) (part_size flags : Z) : U unit :=
  u ← getu;
  if part_size =? 0 then
    r ← lift (E_try (url_get u CURLUPART_URL flags));
    match r with
    | inr _ => modu (fun u => set_fragment_present false (set_fragment None u))
    | inl CURLUE_OUT_OF_MEMORY => fails CURLUE_OUT_OF_MEMORY
    | inl _ => fails CURLUE_MALFORMED_INPUT
    end
  else if negb (fst (Curl_is_absolute_url url (has flags (Z.lor CURLU_GUESS_SCHEME CURLU_DEFAULT_SCHEME))) =? 0)
  then parseurl_and_replace c_snprintf url flags
  else
    r ← lift (E_try (url_get u CURLUPART_URL (without flags CURLU_NO_GUESS_SCHEME)));
    match r with
    | inl CURLUE_OUT_OF_MEMORY => fails CURLUE_OUT_OF_MEMORY
    | inl _ => parseurl_and_replace c_snprintf url flags
    | inr oldurl => oldurl ← lift (defined oldurl); redirect_url oldurl url flags
    end.

Definition urlset_clear (what : CURLUPart) : U unit :=
  modu (match what with
        | CURLUPART_URL => fun _ => empty_url
        | CURLUPART_SCHEME => fun u => set_guessed_scheme false (set_scheme None u)
        | CURLUPART_USER => set_user None
        | CURLUPART_PASSWORD => set_password None
        | CURLUPART_OPTIONS => set_options None
        | CURLUPART_HOST => set_host None
        | CURLUPART_ZONEID => set_zoneid None
        | CURLUPART_PORT => set_port 0 false
        | CURLUPART_PATH => set_path None
        | CURLUPART_QUERY => fun u => set_query_present false (set_query None u)
        | CURLUPART_FRAGMENT => fun u => set_fragment_present false (set_fragment None u)
        end).

Definition allowed_in_path (x : Z) : bool := existsb (Z.eqb x) (str "!$&'(){}[]*+,;=:@/").

Fixpoint url_encode_part (encp : dynbuf) (part : list Z) (plusencode pathmode equalsencode : bool) : E dynbuf :=
  match part with
  | [] => mret encp
  | i :: part =>
      if (i =? 32) && plusencode then
        encp ← E_dyn_ok (curlx_dyn_addn encp (str "+"));
        url_encode_part encp part plusencode pathmode equalsencode
      else if ISUNRESERVED i || (pathmode && allowed_in_path i) || ((i =? 61) && equalsencode) then
        encp ← E_dyn_ok (curlx_dyn_addn encp [i]);
        url_encode_part encp part plusencode pathmode (equalsencode && negb (i =? 61))
      else
        encp ← E_dyn_ok (curlx_dyn_addn encp (37 :: Curl_hexbyte i));
        url_encode_part encp part plusencode pathmode equalsencode
  end.

(** The loop that changes the copy in place: the string it leaves. *)
Fixpoint uppercase_hex (p : list Z) : list Z :=
  match p with
  | c :: ((a :: b :: p') as p1) =>
      if (c =? 37) && ISXDIGIT a && ISXDIGIT b && (ISLOWER a || ISLOWER b)
      then c :: Curl_raw_toupper a :: Curl_raw_toupper b :: uppercase_hex p'
      else c :: uppercase_hex p1
  | _ => p
  end.

Definition url_uppercasehex_part (encp : dynbuf) (part : list Z) : E dynbuf :=
  encp ← E_dyn_ok (curlx_dyn_add encp part);
  m ← defined (curlx_dyn_ptr encp);
  p ← defined (mem_text m);
  m ← defined (mem_write m 0 (uppercase_hex p));
  mret (dyn_with encp m).

Definition url_append_query (encp : list Z) : U unit :=
  u ← getu;
  let query := or_empty (u_query u) in
  let querylen := zlen query in
  if negb (querylen =? 0) then
    qbuf ← lift (E_dyn_ok (curlx_dyn_addn (curlx_dyn_init CURL_MAX_INPUT_LENGTH) query));
    qbuf ← (if negb (at_ query (Z.to_nat (querylen - 1)) =? 38)
            then lift (E_dyn_ok (curlx_dyn_addn qbuf (str "&"))) else mret qbuf);
    qbuf ← lift (E_dyn_ok (curlx_dyn_add qbuf encp));
    q ← lift (defined (held qbuf));
    modu (set_query (Some q))
  else modu (set_query (Some encp)).

(** Whether the host is fine. *)
Definition host_accepted (check : U mem) : U bool := fun u o =>
  '(r, u, o) ← check u o;
  Some (inr (match r with inl _ => false | inr _ => true end), u, o).

(** The buffer, which the check may write to. *)
Definition url_sethost (encp : dynbuf) (urlencode : bool) (flags : Z) : U dynbuf :=
  let n := curlx_dyn_len encp in
  if n =? 0 then if has flags CURLU_NO_AUTHORITY then mret encp else fails CURLUE_BAD_HOSTNAME
  else
    newp ← lift (defined (curlx_dyn_ptr encp));
    if negb urlencode then
      text ← lift (defined (mem_text newp));
      r ← lift (E_urldecode text n);
      match r with
      | None => fails CURLUE_BAD_HOSTNAME
      | Some (decoded, dlen) =>
          ok ← host_accepted (hostname_check decoded dlen);
          if (ok : bool) then mret encp else fails CURLUE_BAD_HOSTNAME
      end
    else fun u o =>
      '(r, u, o) ← hostname_check newp n u o;
      Some (match r with inl _ => inl CURLUE_BAD_HOSTNAME | inr m => inr (dyn_with encp m) end, u, o).

(** The place where a part is stored. *)
Definition store_part (what : CURLUPart) (newp : option (list Z)) : Curl_URL -> Curl_URL :=
  match what with
  | CURLUPART_SCHEME => set_scheme newp
  | CURLUPART_USER => set_user newp
  | CURLUPART_PASSWORD => set_password newp
  | CURLUPART_OPTIONS => set_options newp
  | CURLUPART_HOST => set_host newp
  | CURLUPART_ZONEID => set_zoneid newp
  | CURLUPART_PATH => set_path newp
  | CURLUPART_QUERY => set_query newp
  | CURLUPART_FRAGMENT => set_fragment newp
  | CURLUPART_PORT | CURLUPART_URL => id
  end.

(** The modes of the encoder for a part. *)
Record set_mode := Mode { urlencode : bool; plusencode : bool; pathmode : bool; leadingslash : bool; appendquery : bool }.

Definition mode_of (what : CURLUPart) (flags : Z) : set_mode :=
  let enc := has flags CURLU_URLENCODE in
  match what with
  | CURLUPART_SCHEME => Mode false false false false false
  | CURLUPART_PATH => Mode enc false true true false
  | CURLUPART_QUERY => Mode enc enc false false (has flags CURLU_APPENDQUERY)
  | _ => Mode enc false false false false
  end.

(** Encode the part and store it. *)
Definition set_encoded (what : CURLUPart) (part : list Z) (nalloc flags : Z) : U unit :=
  let m := mode_of what flags in
  let enc := curlx_dyn_init (nalloc * 3 + 1 + (if leadingslash m then 1 else 0)) in
  enc ← lift (if leadingslash m && negb (deref part =? 47) then E_dyn_ok (curlx_dyn_addn enc (str "/")) else mret enc);
  enc ← lift (if urlencode m then url_encode_part enc part (plusencode m) (pathmode m) (appendquery m)
              else url_uppercasehex_part enc part);
  newp ← lift (defined (dyn_give enc));
  match newp with
  | Some q =>
      if appendquery m then url_append_query q
      else
        enc ← (match what with CURLUPART_HOST => url_sethost enc (urlencode m) flags | _ => mret enc end);
        newp ← lift (defined (dyn_give enc));
        modu (store_part what newp)
  | None =>
      enc ← (match what with CURLUPART_HOST => url_sethost enc (urlencode m) flags | _ => mret enc end);
      modu (store_part what None)
  end.

(** [curl_url_set] of a handle, for a part that is not NULL. *)
Definition url_set (what : CURLUPart) (part : list Z) (flags : Z) : U unit :=
  let nalloc := zlen part in
  if nalloc >? CURL_MAX_INPUT_LENGTH then fails CURLUE_MALFORMED_INPUT
  else
    match what with
    | CURLUPART_PORT => set_url_port part
    | CURLUPART_URL => set_url part nalloc flags
    | _ =>
        match what with
        | CURLUPART_SCHEME => set_url_scheme part flags
        | CURLUPART_HOST => modu (set_zoneid None)
        | CURLUPART_QUERY => modu (set_query_present true)
        | CURLUPART_FRAGMENT => modu (set_fragment_present true)
        | _ => mret tt
        end;;
        set_encoded what part nalloc flags
    end.

Definition curl_url_set (u : option Curl_URL) (what : CURLUPart) (part : option (list Z)) (flags : Z) (o : allocs)
    : option ((CURLUcode + unit) * option Curl_URL * allocs) :=
  match u with
  | None => Some (inl CURLUE_BAD_HANDLE, None, o)
  | Some u =>
      '(r, u, o) ← (match part with None => urlset_clear what | Some part => url_set what part flags end) u o;
      Some (r, Some u, o)
  end.

End Urlapi.

(** * Questions about handles *)

Definition Curl_url_same_origin (base href : Curl_URL) : option bool :=
  match u_scheme base, u_host base with
  | Some base_scheme, Some base_host =>
      if given (u_scheme href) && negb (curl_strequal (u_scheme base) (u_scheme href)) then Some false
      else if given (u_host href) then
        if negb (curl_strequal (u_host base) (u_host href)) then Some false
        else
          let zones := Some (curl_strequal (Some (or_empty (u_zoneid base))) (Some (or_empty (u_zoneid href)))) in
          if negb (Bool.eqb (u_port_present base) (u_port_present href)) then
            s ← Curl_get_scheme base_scheme;
            match s with
            | None => Some false
            | Some s =>
                if (u_port_present base && negb (u_portnum base =? sc_defport s)) ||
                   (u_port_present href && negb (u_portnum href =? sc_defport s))
                then Some false else zones
            end
          else if negb (u_portnum base =? u_portnum href) then Some false
          else zones
      else Some (negb (u_port_present href))
  | _, _ => Some false
  end.

(** The result and [*pport]. *)
Definition Curl_url_get_port (u : Curl_URL) : option (CURLUcode * Z) :=
  if u_port_present u then Some (CURLUE_OK, u_portnum u)
  else
    s ← (match u_scheme u with Some s => Curl_get_scheme s | None => Some None end);
    Some (match s with
          | Some s => if negb (sc_defport s =? 0) then (CURLUE_OK, sc_defport s) else (CURLUE_NO_PORT, 0)
          | None => (CURLUE_NO_PORT, 0)
          end).
