(* ===== verification/UrlRules.v ===== *)
(** Rules for the two monads of the URL API.

    [ewp F K m Q]: whatever allocations fail, [m] returns, its result is as [Q]
    says, or it is one of the failures [F] and due to a failed allocation or to
    [K] not holding ([K] says that the texts are short enough for the buffers).
    [uwp F K I m u Q] is the same for a function that changes a handle; [I] is
    what the handle satisfies even when memory is short.  The classes say
    which failures a lack of memory is among. *)

From Stdlib Require Import ZArith Lia List.
From stdpp Require Import base numbers option list.
From S2P Require Import Prelude Dynbuf Strparse Escape Mprintf PrintfSpec Urlapi UrlParse.
Close Scope nat_scope.
Open Scope Z_scope.

Class HasOom (F : CURLUcode -> Prop) := has_oom : F CURLUE_OUT_OF_MEMORY.
Class HasLarge (F : CURLUcode -> Prop) := has_large : F CURLUE_TOO_LARGE.

(** What the functions report when memory is short: a host or a part that
    cannot be decoded for lack of memory counts as a bad one. *)
Definition mem_failure (e : CURLUcode) : Prop :=
  e = CURLUE_OUT_OF_MEMORY \/ e = CURLUE_TOO_LARGE \/ e = CURLUE_BAD_HOSTNAME \/ e = CURLUE_URLDECODE.

Definition oom_failure (e : CURLUcode) : Prop := e = CURLUE_OUT_OF_MEMORY.

#[global] Instance mem_failure_oom : HasOom mem_failure.
Proof. by left. Qed.

#[global] Instance mem_failure_large : HasLarge mem_failure.
Proof. right. by left. Qed.

#[global] Instance oom_failure_oom : HasOom oom_failure.
Proof. done. Qed.

Definition nomem (F : CURLUcode -> Prop) {A} (x : CURLUcode + A) : Prop := exists e, x = inl e /\ F e.

(** Memory was short, or the texts are too long. *)
Definition short_of (K : Prop) (o : allocs) : Prop := false ∈ o \/ ~ K.

Definition ewp (F : CURLUcode -> Prop) {A} (K : Prop) (m : E A) (Q : CURLUcode + A -> Prop) : Prop := forall o,
  exists x o', m o = Some (x, o') /\ (Q x \/ nomem F x /\ short_of K o) /\ (false ∈ o' -> false ∈ o).

Definition uwp (F : CURLUcode -> Prop) {A} (K : Prop) (I : Curl_URL -> Prop) (m : U A) (u : Curl_URL) (Q : CURLUcode + A -> Curl_URL -> Prop) : Prop :=
  forall o, exists x u' o', m u o = Some (x, u', o') /\
    (Q x u' \/ nomem F x /\ short_of K o /\ I u') /\ (false ∈ o' -> false ∈ o).

(** * Functions that allocate *)

Lemma E_bind_inr {A B} (m : E A) (f : A -> E B) o a o1 : m o = Some (inr a, o1) -> (m ≫= f) o = f a o1.
Proof. intros E. unfold mbind, E_bind. by rewrite E. Qed.

Lemma E_try_eq {A} (m : E A) o x o1 : m o = Some (x, o1) -> E_try m o = Some (inr x, o1).
Proof. intros E. unfold E_try. by rewrite E. Qed.

Section Rules.

Context {F : CURLUcode -> Prop} {K : Prop}.

Lemma nomem_oom {A} `{!HasOom F} : nomem F (A := A) (inl CURLUE_OUT_OF_MEMORY).
Proof. by exists CURLUE_OUT_OF_MEMORY. Qed.

Lemma nomem_large {A} `{!HasLarge F} : nomem F (A := A) (inl CURLUE_TOO_LARGE).
Proof. by exists CURLUE_TOO_LARGE. Qed.

Lemma ewp_mono {A} (m : E A) (P Q : CURLUcode + A -> Prop) : ewp F K m P -> (forall x, P x -> Q x) -> ewp F K m Q.
Proof. intros H HPQ o. destruct (H o) as (x & o' & E & Hx & Ho). exists x, o'. split; [done|]. split; [|done]. destruct Hx; auto. Qed.

Lemma ewp_ret {A} (a : A) (Q : CURLUcode + A -> Prop) : Q (inr a) -> ewp F K (mret a) Q.
Proof. intros H o. exists (inr a), o. split; [done|]. auto. Qed.

Lemma ewp_throw {A} e (Q : CURLUcode + A -> Prop) : Q (inl e) -> ewp F K (throw e) Q.
Proof. intros H o. exists (inl e), o. split; [done|]. auto. Qed.

Lemma ewp_defined {A} (x : option A) a (Q : CURLUcode + A -> Prop) : x = Some a -> Q (inr a) -> ewp F K (defined x) Q.
Proof. intros -> H o. exists (inr a), o. split; [done|]. auto. Qed.

(** A failure that is not for memory is passed on. *)
Lemma ewp_bind {A B} (m : E A) (f : A -> E B) (P : CURLUcode + A -> Prop) (Q : CURLUcode + B -> Prop) :
  ewp F K m P -> (forall a, P (inr a) -> ewp F K (f a) Q) -> (forall e, P (inl e) -> Q (inl e)) -> ewp F K (m ≫= f) Q.
Proof.
  intros Hm Hf He o. destruct (Hm o) as (x & o1 & E & Hx & Ho). unfold mbind, E_bind. rewrite E. destruct x as [e|a].
  - exists (inl e), o1. split; [done|]. split; [|done]. destruct Hx as [Hx|[Hx Hs]]; [auto|]. right. split; [|done].
    destruct Hx as (e' & [= ->] & Hx). by exists e'.
  - destruct Hx as [Hx|[(? & ? & _) _]]; [|done]. destruct (Hf a Hx o1) as (y & o2 & E2 & Hy & Ho2). exists y, o2. split; [done|]. split; [|auto].
    destruct Hy as [Hy|(Hy & [Hs|Hs])]; [auto| |]; right; (split; [done|]); [left; auto|by right].
Qed.

(** The two outcomes of a check. *)
Lemma ewp_bind_inr {A B} (m : E A) (f : A -> E B) a (Q : CURLUcode + B -> Prop) :
  ewp F K m (fun x => x = inr a) -> ewp F K (f a) Q -> ewp F K (m ≫= f) Q.
Proof. intros Hm Hf. eapply ewp_bind; [exact Hm| |done]. by intros ? [= ->]. Qed.

Lemma ewp_alloc (Q : CURLUcode + bool -> Prop) : (forall b o o', next_alloc o = (b, o') -> Q (inr b)) -> ewp F K E_alloc Q.
Proof.
  intros H o. unfold E_alloc. destruct (next_alloc o) as [b o'] eqn:E. exists (inr b), o'. split; [done|].
  split; [left; by eapply H|]. by apply next_alloc_fails in E as [_ ?].
Qed.

Lemma ewp_dup `{!HasOom F} (s : list Z) (Q : CURLUcode + list Z -> Prop) : Q (inr s) -> ewp F K (E_dup s) Q.
Proof.
  intros H o. unfold E_dup, E_alloc, mbind, E_bind. destruct (next_alloc o) as [b o'] eqn:E. apply next_alloc_fails in E as [H1 H2].
  destruct b.
  - exists (inr s), o'. split; [done|]. auto.
  - exists (inl CURLUE_OUT_OF_MEMORY), o'. split; [done|]. split; [|done]. right. split; [apply nomem_oom|]. left. auto.
Qed.

(** An append to a buffer. *)
Lemma ewp_addn `{!HasOom F, !HasLarge F} s c b (Q : CURLUcode + dynbuf -> Prop) :
  dyn_rep s c -> zlen b <= MAX_DYNBUF_SIZE -> (K -> zlen c + zlen b + 1 <= toobig s) ->
  (forall s', dyn_rep s' (c ++ b) -> toobig s' = toobig s -> bufr s' <> None -> Q (inr s')) ->
  ewp F K (E_dyn_ok (curlx_dyn_addn s b)) Q.
Proof.
  intros Hs Hb HK HQ o. destruct (dyn_nappend_spec s c b o Hs Hb) as (s' & r & o' & E & Ht & Hr).
  pose proof (dyn_nappend_oom _ _ _ _ _ _ E) as [Ho1 Ho2]. unfold E_dyn_ok, E_dyn, curlx_dyn_addn, mbind, E_bind. rewrite E.
  cbn [option_bind].
  destruct Hr as [(-> & _ & Hr & Hn)|[(-> & Hl & _)|(-> & _)]]; cbn [is_ok].
  - exists (inr s'), o'. split; [done|]. auto.
  - exists (inl CURLUE_TOO_LARGE), o'. split; [done|]. split; [|done]. right. split; [apply nomem_large|]. right. intros Hk. specialize (HK Hk). lia.
  - exists (inl CURLUE_OUT_OF_MEMORY), o'. split; [done|]. split; [|done]. right. split; [apply nomem_oom|]. left. auto.
Qed.

(** [E_try]: what is done with a failure must also be fine when the failure
    is a lack of memory. *)
Lemma ewp_try {A B} (m : E A) (f : CURLUcode + A -> E B) (P : CURLUcode + A -> Prop) (Q : CURLUcode + B -> Prop) :
  ewp F K m P -> (forall x, P x -> ewp F K (f x) Q) ->
  (forall x o, nomem F x -> exists y o', f x o = Some (y, o') /\ nomem F y /\ (false ∈ o' -> false ∈ o)) ->
  ewp F K (E_try m ≫= f) Q.
Proof.
  intros Hm Hf Hn o. destruct (Hm o) as (x & o1 & E & Hx & Ho). unfold E_try, mbind, E_bind. rewrite E. cbn [option_bind].
  destruct Hx as [Hx|[Hx Hs]].
  - destruct (Hf x Hx o1) as (y & o2 & E2 & Hy & Ho2). exists y, o2. split; [done|]. split; [|auto].
    destruct Hy as [Hy|(Hy & [Hs|Hs])]; [auto| |]; right; (split; [done|]); [left; auto|by right].
  - destruct (Hn x o1 Hx) as (y & o2 & E2 & Hy & Ho2). exists y, o2. split; [done|]. split; [|auto]. by right.
Qed.

(** * Functions that change a handle *)

Context {I : Curl_URL -> Prop}.

Lemma uwp_mono {A} (m : U A) u (P Q : CURLUcode + A -> Curl_URL -> Prop) :
  uwp F K I m u P -> (forall x u', P x u' -> Q x u') -> uwp F K I m u Q.
Proof. intros H HPQ o. destruct (H o) as (x & u' & o' & E & Hx & Ho). exists x, u', o'. split; [done|]. split; [|done]. destruct Hx; auto. Qed.

Lemma uwp_ret {A} (a : A) u (Q : CURLUcode + A -> Curl_URL -> Prop) : Q (inr a) u -> uwp F K I (mret a) u Q.
Proof. intros H o. exists (inr a), u, o. split; [done|]. auto. Qed.

Lemma uwp_fails {A} e u (Q : CURLUcode + A -> Curl_URL -> Prop) : Q (inl e) u -> uwp F K I (fails e) u Q.
Proof. intros H o. exists (inl e), u, o. split; [done|]. auto. Qed.

Lemma uwp_bind {A B} (m : U A) (f : A -> U B) u (P : CURLUcode + A -> Curl_URL -> Prop) (Q : CURLUcode + B -> Curl_URL -> Prop) :
  uwp F K I m u P -> (forall a u', P (inr a) u' -> uwp F K I (f a) u' Q) -> (forall e u', P (inl e) u' -> Q (inl e) u') ->
  uwp F K I (m ≫= f) u Q.
Proof.
  intros Hm Hf He o. destruct (Hm o) as (x & u1 & o1 & E & Hx & Ho). unfold mbind, U_bind. rewrite E. destruct x as [e|a].
  - exists (inl e), u1, o1. split; [done|]. split; [|done]. destruct Hx as [Hx|[Hx Hs]]; [auto|]. right. split; [|done].
    destruct Hx as (e' & [= ->] & Hx). by exists e'.
  - destruct Hx as [Hx|[(? & ? & _) _]]; [|done]. destruct (Hf a u1 Hx o1) as (y & u2 & o2 & E2 & Hy & Ho2). exists y, u2, o2.
    split; [done|]. split; [|auto]. destruct Hy as [Hy|(Hy & [Hs|Hs] & Hi)]; [auto| |]; right; (split; [done|]); (split; [|done]); [left; auto|by right].
Qed.

Lemma uwp_assoc {A B C} (m : U A) (f : A -> U B) (g : B -> U C) u Q : uwp F K I (m ≫= (fun a => f a ≫= g)) u Q -> uwp F K I ((m ≫= f) ≫= g) u Q.
Proof.
  intros H o. destruct (H o) as (x & u2 & o' & E & Hx). exists x, u2, o'. split; [|done]. revert E. unfold mbind, U_bind.
  by destruct (m u o) as [[[[e|a] u1] o1]|].
Qed.

Lemma uwp_ret_bind {A B} (a : A) (f : A -> U B) u Q : uwp F K I (f a) u Q -> uwp F K I (mret a ≫= f) u Q.
Proof. done. Qed.

Lemma uwp_getu {B} (f : Curl_URL -> U B) u Q : uwp F K I (f u) u Q -> uwp F K I (getu ≫= f) u Q.
Proof. done. Qed.

Lemma uwp_modu {B} (g : Curl_URL -> Curl_URL) (m : U B) u Q : uwp F K I m (g u) Q -> uwp F K I (modu g;; m) u Q.
Proof. done. Qed.

Lemma uwp_modu_end (g : Curl_URL -> Curl_URL) u (Q : CURLUcode + unit -> Curl_URL -> Prop) : Q (inr tt) (g u) -> uwp F K I (modu g) u Q.
Proof. intros H o. exists (inr tt), (g u), o. split; [done|]. auto. Qed.

Lemma uwp_lift {A} (m : E A) u (P : CURLUcode + A -> Prop) (Q : CURLUcode + A -> Curl_URL -> Prop) :
  ewp F K m P -> I u -> (forall x, P x -> Q x u) -> uwp F K I (lift m) u Q.
Proof.
  intros Hm Hi HQ o. destruct (Hm o) as (x & o' & E & Hx & Ho). exists x, u, o'. unfold lift. rewrite E. cbn [mbind option_bind].
  split; [done|]. split; [|done]. destruct Hx as [Hx|[Hx Hs]]; auto.
Qed.

Lemma uwp_lift_bind {A B} (m : E A) (f : A -> U B) u (P : CURLUcode + A -> Prop) Q :
  ewp F K m P -> I u -> (forall a, P (inr a) -> uwp F K I (f a) u Q) -> (forall e, P (inl e) -> Q (inl e) u) -> uwp F K I (lift m ≫= f) u Q.
Proof.
  intros Hm Hi Hf He. eapply (uwp_bind _ _ _ (fun x u' => u' = u /\ P x)).
  - eapply uwp_lift; [done..|]. auto.
  - intros a u' [-> Ha]. auto.
  - intros e u' [-> Ha]. auto.
Qed.

Lemma uwp_lift_inr {A B} (m : E A) (f : A -> U B) u a Q : ewp F K m (fun x => x = inr a) -> I u -> uwp F K I (f a) u Q -> uwp F K I (lift m ≫= f) u Q.
Proof. intros Hm Hi Hf. eapply uwp_lift_bind; [exact Hm|done| |done]. by intros ? [= ->]. Qed.

Lemma uwp_defined_bind {A B} (x : option A) a (f : A -> U B) u Q : x = Some a -> uwp F K I (f a) u Q -> uwp F K I (lift (defined x) ≫= f) u Q.
Proof. intros -> H. done. Qed.

Lemma uwp_try {A B} (m : E A) (f : CURLUcode + A -> U B) u (P : CURLUcode + A -> Prop) Q :
  ewp F K m P -> (forall x, P x -> uwp F K I (f x) u Q) ->
  (forall x o, nomem F x -> exists y u' o', f x u o = Some (y, u', o') /\ nomem F y /\ I u' /\ (false ∈ o' -> false ∈ o)) ->
  uwp F K I (lift (E_try m) ≫= f) u Q.
Proof.
  intros Hm Hf Hn o. destruct (Hm o) as (x & o1 & E & Hx & Ho). unfold lift, E_try, mbind, U_bind. rewrite E. cbn [option_bind].
  destruct Hx as [Hx|[Hx Hs]].
  - destruct (Hf x Hx o1) as (y & u2 & o2 & E2 & Hy & Ho2). exists y, u2, o2. split; [done|]. split; [|auto].
    destruct Hy as [Hy|(Hy & [Hs|Hs] & Hi)]; [auto| |]; right; (split; [done|]); (split; [|done]); [left; auto|by right].
  - destruct (Hn x o1 Hx) as (y & u2 & o2 & E2 & Hy & Hi & Ho2). exists y, u2, o2. split; [done|]. split; [|auto]. by right.
Qed.

(** A function that reports a lack of memory in its result. *)
Lemma uwp_lift_raw {A B} (m : E A) (f : A -> U B) u Q : I u ->
  (forall o, exists a o', m o = Some (inr a, o') /\ (false ∈ o' -> false ∈ o) /\
     (uwp F K I (f a) u Q \/ false ∈ o /\ exists e, F e /\ f a = fails e)) ->
  uwp F K I (lift m ≫= f) u Q.
Proof.
  intros Hu H o. destruct (H o) as (a & o1 & E & Ho & Hf). unfold mbind, U_bind, lift. rewrite E. cbn [mbind option_bind]. destruct Hf as [Hf|(Hs & e & He & ->)].
  - destruct (Hf o1) as (x & u2 & o2 & E2 & Hx & Ho2). exists x, u2, o2. split; [done|]. split; [|auto].
    destruct Hx as [Hx|(Hx & [Hs|Hs] & Hi)]; [by left| |]; right; (split; [done|]); (split; [|done]); [left; auto|by right].
  - do 3 eexists. split; [done|]. split; [|done]. right. split; [by exists e|]. split; [by left|done].
Qed.

End Rules.

(** The text a buffer holds. *)
Lemma held_rep s c : dyn_rep s c -> bufr s <> None -> Forall is_char c -> held s = Some c.
Proof.
  intros H Hn Hc. apply dyn_text_rep in H; [|done]. unfold dyn_text, held, curlx_dyn_ptr in *. by destruct (bufr s).
Qed.

Lemma give_rep s c : dyn_rep s c -> bufr s <> None -> Forall is_char c -> dyn_give s = Some (Some c).
Proof.
  intros H Hn Hc. apply dyn_text_rep in H; [|done]. unfold dyn_text, dyn_give, curlx_dyn_ptr in *. destruct (bufr s); [|done]. by rewrite H.
Qed.

Lemma uwp_weaken {F K A} (I I' : Curl_URL -> Prop) (m : U A) u Q : (forall u, I u -> I' u) -> uwp F K I m u Q -> uwp F K I' m u Q.
Proof.
  intros HI H o. destruct (H o) as (x & u' & o' & E & Hx & Ho). exists x, u', o'. split; [done|]. split; [|done].
  destruct Hx as [Hx|(H1 & H2 & H3)]; [by left|right; auto].
Qed.
