(* ===== verification/UrlDots.v ===== *)
(** The removal of dot segments, [dedotdotify] of lib/urlapi.c, against RFC
    3986, section 5.2.4.

    An absolute path is a sequence of segments, each with a slash in front.
    The standard takes them one by one: a dot goes, two dots take the last
    segment that was kept with them, and either of them at the end leaves
    an empty segment.  A dot may be written as %2e. *)

From Stdlib Require Import ZArith Lia List String.
From stdpp Require Import base numbers option list.
From S2P Require Import Prelude Dynbuf Urlapi UrlParse UrlPath UrlRules.
Close Scope nat_scope.
Open Scope Z_scope.

(** * The standard *)

(** The segment behind a dot. *)
Definition strip_dot (s : list Z) : option (list Z) :=
  match s with
  | c :: s' =>
      if c =? 46 then Some s'
      else match s' with
           | a :: b :: s'' => if (c =? 37) && (a =? 50) && ((b =? 69) || (b =? 101)) then Some s'' else None
           | _ => None
           end
  | [] => None
  end.

Definition dot_segment (s : list Z) : bool := match strip_dot s with Some [] => true | _ => false end.
Definition dotdot_segment (s : list Z) : bool := match strip_dot s with Some s => dot_segment s | None => false end.

(** [out] are the segments that were kept. *)
Fixpoint remove_dots (out segs : list (list Z)) : list (list Z) :=
  match segs with
  | [] => out
  | s :: segs =>
      if dot_segment s then match segs with [] => out ++ [[]] | _ => remove_dots out segs end
      else if dotdot_segment s then
        match segs with [] => removelast out ++ [[]] | _ => remove_dots (removelast out) segs end
      else remove_dots (out ++ [s]) segs
  end.

Definition path_of (segs : list (list Z)) : list Z := concat (map (cons 47) segs).

(** A segment: characters, none of which is a slash. *)
Definition segment_ok (s : list Z) : Prop := Forall (fun c => is_char c /\ c <> 47) s.

(** What follows a segment. *)
Definition tail_ok (t : list Z) : Prop := t = [] \/ exists r, t = 47 :: r.

Example rfc_example : path_of (remove_dots [] [str "a"; str "b"; str "c"; str "."; str ".."; str "%2E."; str "g"]) = str "/a/g".
Proof. reflexivity. Qed.

(** * Lemmas *)

Lemma path_of_app a b : path_of (a ++ b) = path_of a ++ path_of b.
Proof. unfold path_of. by rewrite map_app, concat_app. Qed.

Lemma path_of_snoc a s : path_of (a ++ [s]) = path_of a ++ 47 :: s.
Proof. rewrite path_of_app. unfold path_of. cbn [map concat]. by rewrite app_nil_r. Qed.

Lemma path_tail segs : tail_ok (path_of segs).
Proof. destruct segs as [|s segs]; [by left|]. right. eexists. done. Qed.

Lemma strip_dot_split s s' : strip_dot s = Some s' -> exists d, s = d ++ s' /\ (zlen d = 1 \/ zlen d = 3).
Proof.
  unfold strip_dot. destruct s as [|c s1]; [done|]. case_if; [intros [= <-]; exists [c]; split; [done|by left]|].
  destruct s1 as [|a [|b s2]]; [done..|]. case_if; [|done]. intros [= <-]. exists [c; a; b]. split; [done|by right].
Qed.

Lemma segment_app a b : segment_ok (a ++ b) -> segment_ok b.
Proof. unfold segment_ok. rewrite Forall_app. tauto. Qed.

Lemma lor_32 b : is_byte b -> (Z.lor b 32 =? 101) = (b =? 69) || (b =? 101).
Proof. revert b. intros b Hb. pattern b. apply byte_forall with (P := fun b => Bool.eqb (Z.lor b 32 =? 101) ((b =? 69) || (b =? 101))) in Hb; [by apply eqb_prop|by vm_compute]. Qed.

Lemma is_dot_spec s t : segment_ok s -> tail_ok t -> zlen (s ++ t) <= SIZE_MAX ->
  is_dot (s ++ t) (zlen (s ++ t)) =
  match strip_dot s with
  | Some s' => (true, s' ++ t, zlen (s' ++ t))
  | None => (false, s ++ t, zlen (s ++ t))
  end.
Proof.
  intros Hs Ht Hl. unfold is_dot, strip_dot.
  assert (Hno : forall c, deref t <> c -> c <> 47 -> c <> 0 -> (deref t =? c) = false) by (intros; by apply Z.eqb_neq).
  assert (Hd : deref t = 0 \/ deref t = 47) by (destruct Ht as [->|[r ->]]; [by left|by right]).
  destruct s as [|c s].
  { cbn [app]. rewrite !(proj2 (Z.eqb_neq (deref t) _)) by lia. by rewrite !andb_false_r. }
  cbn [app deref drop] in *. apply Forall_cons in Hs as [[Hc _] Hs]. rewrite zlen_cons in *. pose proof (zlen_nonneg (s ++ t)).
  case_if.
  { rewrite u64_small by lia. do 2 f_equal. lia. }
  assert (Hlong : forall a b r, s ++ t = a :: b :: r -> (1 + zlen (s ++ t) >=? 3) = true).
  { intros a b r ->. rewrite !zlen_cons. pose proof (zlen_nonneg r). rewrite Z.geb_leb. apply Z.leb_le. lia. }
  unfold at_. cbn [drop]. destruct s as [|a [|b s]].
  - cbn [app]. rewrite (proj2 (Z.eqb_neq (deref (drop 0 t)) 50)) by (rewrite drop_0; lia). by rewrite !andb_false_r.
  - cbn [app drop deref]. rewrite (proj2 (Z.eqb_neq (Z.lor _ _) _)), !andb_false_r; [done|]. rewrite drop_0. by destruct Hd as [-> | ->].
  - cbn [app drop deref] in *. rewrite (Hlong a b (s ++ t)) by done. cbn [andb]. inversion Hs as [|? ? _ Hs1]; subst. inversion Hs1 as [|? ? [Hb _] _]; subst.
    rewrite lor_32 by (unfold is_char, is_byte in *; lia). case_if; [|done]. rewrite !zlen_cons in *.
    pose proof (zlen_nonneg (s ++ t)). rewrite drop_0, u64_small by lia. do 2 f_equal. lia.
Qed.

Lemma segment_deref s t : segment_ok s -> tail_ok t -> ISSLASH (deref (s ++ t)) = match s with [] => ISSLASH (deref t) | _ => false end.
Proof. intros Hs Ht. destruct s as [|c s]; [done|]. apply Forall_cons in Hs as [[_ Hc] _]. by apply Z.eqb_neq. Qed.

Lemma zlen_tail t : tail_ok t -> zlen t = 0 /\ t = [] \/ 0 < zlen t /\ ISSLASH (deref t) = true.
Proof. intros [->|[r ->]]; [by left|]. right. rewrite zlen_cons. pose proof (zlen_nonneg r). split; [lia|done]. Qed.

Lemma strip_dot_ok s s' : segment_ok s -> strip_dot s = Some s' -> segment_ok s' /\ zlen s' < zlen s.
Proof.
  intros Hs H. apply strip_dot_split in H as (d & -> & Hd). split; [by apply segment_app in Hs|]. rewrite zlen_app. lia.
Qed.

(** What is found in front of a segment. *)
Lemma look_spec s t : segment_ok s -> tail_ok t -> zlen (47 :: s ++ t) <= SIZE_MAX ->
  look_for_dots (47 :: s ++ t) (zlen (47 :: s ++ t)) =
  if dot_segment s then match t with [] => DOT_END | _ => DOT_SKIP t (zlen t) end
  else if dotdot_segment s then match t with [] => DOTDOT_END | _ => DOTDOT_SKIP t (zlen t) end
  else DOT_NONE.
Proof.
  intros Hs Ht Hl. unfold look_for_dots. cbn [deref]. change (ISSLASH 47) with true. cbv iota.
  rewrite zlen_cons in *. change (drop 1 (47 :: s ++ t)) with (drop 0 (s ++ t)). rewrite drop_0. pose proof (zlen_nonneg (s ++ t)).
  rewrite u64_small by lia. replace (1 + zlen (s ++ t) - 1) with (zlen (s ++ t)) by lia. rewrite is_dot_spec by (done || lia).
  unfold dotdot_segment, dot_segment. destruct (strip_dot s) as [s1|] eqn:E1; [|done].
  destruct (strip_dot_ok _ _ Hs E1) as [Hs1 Hlt1]. rewrite (segment_deref s1 t) by done. rewrite zlen_app in Hl.
  pose proof (zlen_nonneg s1). pose proof (zlen_nonneg t).
  destruct (zlen_tail t Ht) as [[Hz ->]|[Hz Hsl]].
  - rewrite !app_nil_r. destruct s1 as [|c s1]; [done|]. rewrite (proj2 (Z.eqb_neq (zlen (c :: s1)) 0)) by (rewrite zlen_cons; pose proof (zlen_nonneg s1); lia).
    pose proof (is_dot_spec (c :: s1) [] Hs1 (or_introl eq_refl) ltac:(rewrite app_nil_r; lia)) as Hd. rewrite !app_nil_r in Hd. rewrite Hd.
    destruct (strip_dot (c :: s1)) as [s2|] eqn:E2; [|done]. rewrite app_nil_r. cbn [andb]. destruct (strip_dot_ok _ _ Hs1 E2) as [Hs2 _].
    pose proof (segment_deref s2 [] Hs2 (or_introl eq_refl)) as Hd2. rewrite app_nil_r in Hd2. rewrite Hd2. destruct s2 as [|x s2]; [done|].
    cbn [orb]. by rewrite (proj2 (Z.eqb_neq (zlen (x :: s2)) 0)) by (rewrite zlen_cons; pose proof (zlen_nonneg s2); lia).
  - rewrite (proj2 (Z.eqb_neq (zlen (s1 ++ t)) 0)) by (rewrite zlen_app; lia).
    destruct s1 as [|c s1]; [rewrite Hsl; by destruct t|]. rewrite is_dot_spec by (done || rewrite zlen_app; lia).
    destruct (strip_dot (c :: s1)) as [s2|] eqn:E2; [|by destruct t]. cbn [andb]. destruct (strip_dot_ok _ _ Hs1 E2) as [Hs2 _].
    pose proof (zlen_nonneg s2). rewrite (segment_deref s2 t) by done. destruct s2 as [|x s2].
    + rewrite Hsl. cbn [app orb]. rewrite (proj2 (Z.eqb_neq (zlen t) 0)) by lia. by destruct t.
    + rewrite (proj2 (Z.eqb_neq (zlen ((x :: s2) ++ t)) 0)) by (rewrite zlen_app; lia). by destruct t.
Qed.

Lemma memrchr_none s : Forall (fun c => c <> 47) s -> memrchr s 47 = None.
Proof. induction 1 as [|c s Hc _ IH]; [done|]. cbn [memrchr]. by rewrite IH, (proj2 (Z.eqb_neq c 47)). Qed.

Lemma memrchr_last a s : Forall (fun c => c <> 47) s -> memrchr (a ++ 47 :: s) 47 = Some (zlen a).
Proof.
  intros Hs. induction a as [|x a IH]; cbn [app memrchr]; [by rewrite memrchr_none|]. by rewrite IH, zlen_cons.
Qed.

Lemma segment_no_slash s : segment_ok s -> Forall (fun c => c <> 47) s.
Proof. intros H. eapply Forall_impl; [exact H|]. by intros c [_ ?]. Qed.

Lemma trim_last_spec b out : Forall segment_ok out -> dyn_rep b (path_of out) ->
  exists b', trim_last b = Some b' /\ dyn_rep b' (path_of (removelast out)) /\ toobig b' = toobig b.
Proof.
  intros Ho Hb. unfold trim_last. rewrite (dyn_rep_len _ _ Hb).
  destruct (decide (out = [])) as [->|Hne]. { by exists b. }
  destruct (exists_last Hne) as (init & s & ->). rewrite removelast_last. apply Forall_app in Ho as [_ Hs]. apply Forall_inv in Hs.
  rewrite path_of_snoc in *. rewrite (proj2 (Z.eqb_neq (zlen (path_of init ++ 47 :: s)) 0)).
  2: { rewrite zlen_app, zlen_cons. pose proof (zlen_nonneg (path_of init)). pose proof (zlen_nonneg s). lia. }
  cbn [negb]. unfold curlx_dyn_ptr. pose proof Hb as (Hlen & Htb & Hm). destruct (bufr b) as [m|] eqn:Em.
  2: { destruct Hm as [Hm _]. by destruct (path_of init). }
  destruct Hm as (_ & _ & rest & Hrest). cbn [mbind option_bind].
  rewrite Hrest, mem_read_text. cbn [mbind option_bind]. rewrite memrchr_last by by apply segment_no_slash.
  destruct (dyn_setlen_rep b _ (zlen (path_of init)) Hb) as (b' & r & E & Hr); [by rewrite Em|apply zlen_nonneg|].
  rewrite E. cbn [mbind option_bind]. exists b'. split; [done|].
  destruct Hr as [(_ & _ & Hr)|(Hlt & _)]; [|rewrite zlen_app in Hlt; pose proof (zlen_nonneg (47 :: s)); lia].
  rewrite ztake_app_exact in Hr. split; [done|]. revert E. unfold curlx_dyn_setlen. case_if; [by intros [= <- <-]|].
  rewrite Em. cbn [mbind option_bind]. destruct (mem_write m _ _); [|done]. by intros [= <- <-].
Qed.

(** * The loop *)

Section Loop.

Context {K : Prop}.

(** A loop that needs as many rounds as there are characters. *)
Definition dedot_returns (segs out : list (list Z)) (rounds : nat) (b : dynbuf) : Prop :=
  ewp mem_failure K (dedot_loop rounds (path_of segs) (zlen (path_of segs)) b)
    (fun x => exists b', x = inr b' /\ dyn_rep b' (path_of (remove_dots out segs)) /\ bufr b' <> None).

Lemma chars_loop P s : forall t b c rounds, segment_ok s -> tail_ok t -> dyn_rep b c ->
  zlen (s ++ t) <= SIZE_MAX -> zlen c + zlen s + 1 <= toobig b ->
  (forall b', dyn_rep b' (c ++ s) -> toobig b' = toobig b -> (s <> [] \/ bufr b <> None -> bufr b' <> None) ->
     ewp mem_failure K (dedot_loop rounds t (zlen t) b') P) ->
  ewp mem_failure K (dedot_loop (length s + rounds) (s ++ t) (zlen (s ++ t)) b) P.
Proof.
  induction s as [|x s IH]; intros t b c rounds Hs Ht Hb Hl Hroom Hk.
  { cbn [app length Nat.add] in *. apply Hk; [by rewrite app_nil_r|done|]. intros [?|?]; done. }
  apply Forall_cons in Hs as [[Hx Hx47] Hs]. cbn [app length Nat.add dedot_loop] in *. rewrite !zlen_cons in *.
  pose proof (zlen_nonneg (s ++ t)). pose proof (zlen_nonneg s). rewrite (proj2 (Z.eqb_neq (1 + zlen (s ++ t)) 0)) by lia.
  assert (Hn : look_for_dots (x :: s ++ t) (1 + zlen (s ++ t)) = DOT_NONE).
  { unfold look_for_dots. cbn [deref]. unfold ISSLASH. by rewrite (proj2 (Z.eqb_neq x 47)). }
  rewrite Hn. cbn [deref drop]. rewrite drop_0, u64_small by lia. replace (1 + zlen (s ++ t) - 1) with (zlen (s ++ t)) by lia.
  eapply ewp_bind with (P := fun r => exists b', r = inr b' /\ dyn_rep b' (c ++ [x]) /\ toobig b' = toobig b /\ bufr b' <> None).
  - eapply ewp_addn; [exact Hb|done|intros _; rewrite zlen_cons, zlen_nil; lia|]. intros b' H1 H2 H3. by exists b'.
  - intros ? (b' & [= ->] & H1 & H2 & H3). apply (IH t b' (c ++ [x])); [done|done|done|lia|rewrite zlen_snoc; lia|].
    intros b2 H4 H5 H6. rewrite <- app_assoc in H4. apply Hk; [done|congruence|]. intros _. apply H6. by right.
  - by intros e (b' & ? & _).
Qed.

Lemma zlen_removelast segs : zlen (path_of (removelast segs)) <= zlen (path_of segs).
Proof.
  destruct (decide (segs = [])) as [->|Hne]; [done|]. destruct (exists_last Hne) as (i & s & ->).
  rewrite removelast_last, path_of_snoc, zlen_app. pose proof (zlen_nonneg (47 :: s)). lia.
Qed.

Lemma segments_removelast segs : Forall segment_ok segs -> Forall segment_ok (removelast segs).
Proof. destruct (decide (segs = [])) as [->|Hne]; [done|]. destruct (exists_last Hne) as (i & s & ->). rewrite removelast_last, Forall_app. tauto. Qed.

(** Both kinds of dot segments at the end. *)
Lemma dots_end (out : list (list Z)) b : dyn_rep b (path_of out) -> zlen (path_of out) + 2 <= toobig b ->
  ewp mem_failure K (E_dyn_ok (curlx_dyn_addn b (str "/"))) (fun x => exists b', x = inr b' /\ dyn_rep b' (path_of (out ++ [[]])) /\ bufr b' <> None).
Proof.
  intros Hb Hroom. eapply ewp_addn; [exact Hb|done|intros _; change (zlen (str "/")) with 1; lia|]. intros b' H1 _ H3. exists b'.
  rewrite path_of_snoc. done.
Qed.

Lemma dedot_loop_spec segs : forall out rounds b, Forall segment_ok segs -> Forall segment_ok out -> (segs = [] -> bufr b <> None) ->
  dyn_rep b (path_of out) -> zlen (path_of segs) <= Z.of_nat rounds -> zlen (path_of out) + zlen (path_of segs) + 1 <= toobig b ->
  dedot_returns segs out rounds b.
Proof.
  induction segs as [|s segs IH]; intros out rounds b Hs Ho Hne Hb Hr Hroom; unfold dedot_returns.
  { destruct rounds; (apply ewp_ret; exists b; split_and!; [done|done|by apply Hne]). }
  apply Forall_cons in Hs as [Hs Hsegs]. pose proof (path_tail segs) as Ht. pose proof Hb as (_ & Hmax & _).
  change (path_of (s :: segs)) with (47 :: s ++ path_of segs) in *. pose proof (zlen_nonneg (path_of segs)). pose proof (zlen_nonneg (path_of out)).
  pose proof (zlen_nonneg s). rewrite zlen_cons, zlen_app in Hr, Hroom. destruct rounds as [|rounds]; [lia|].
  cbn [dedot_loop]. rewrite (proj2 (Z.eqb_neq (zlen (47 :: s ++ path_of segs)) 0)) by (rewrite zlen_cons, zlen_app; lia).
  rewrite look_spec; [|done..|rewrite zlen_cons, zlen_app; unfold MAX_DYNBUF_SIZE, SIZE_MAX in *; lia].
  cbn [remove_dots]. destruct (dot_segment s).
  { destruct segs as [|s2 segs]; [apply dots_end; [done|lia]|].
    change (path_of (s2 :: segs)) with (47 :: s2 ++ path_of segs) in *. cbv iota. apply (IH out rounds b); try done; lia. }
  destruct (dotdot_segment s).
  { destruct (trim_last_spec b out Ho Hb) as (b' & E & Hb' & Htb). pose proof (zlen_removelast out). pose proof (segments_removelast out Ho).
    destruct segs as [|s2 segs].
    - cbn [path_of map concat]. eapply ewp_bind_inr; [by eapply ewp_defined|]. apply dots_end; [done|lia].
    - change (path_of (s2 :: segs)) with (47 :: s2 ++ path_of segs) in *. cbv iota. eapply ewp_bind_inr; [by eapply ewp_defined|].
      apply (IH (removelast out) rounds b'); try done; lia. }
  cbn [deref drop]. rewrite drop_0, u64_small by (rewrite zlen_cons, zlen_app; unfold MAX_DYNBUF_SIZE, SIZE_MAX in *; lia).
  rewrite zlen_cons. replace (1 + zlen (s ++ path_of segs) - 1) with (zlen (s ++ path_of segs)) by lia.
  eapply ewp_bind with (P := fun r => exists b', r = inr b' /\ dyn_rep b' (path_of out ++ [47]) /\ toobig b' = toobig b /\ bufr b' <> None).
  - eapply ewp_addn; [exact Hb|done|intros _; rewrite zlen_cons, zlen_nil; lia|]. intros b' G1 G2 G3. by exists b'.
  - intros ? (b' & [= ->] & G1 & G2 & G3). replace rounds with (length s + (rounds - length s))%nat by (unfold zlen in *; lia).
    apply (chars_loop _ s _ b' _ _ Hs Ht G1); [rewrite zlen_app; unfold MAX_DYNBUF_SIZE, SIZE_MAX in *; lia|rewrite zlen_snoc; lia|].
    intros b2 G4 G5 G6. rewrite <- app_assoc in G4. cbn [app] in G4. rewrite <- path_of_snoc in G4.
    apply (IH (out ++ [s])); try done.
    + apply Forall_app. split; [done|by apply Forall_cons_2].
    + intros ->. apply G6. by right.
    + unfold zlen in *. lia.
    + rewrite path_of_snoc, zlen_app, zlen_cons. rewrite G5, G2. lia.
  - by intros e (b' & ? & _).
Qed.

End Loop.

(** * The function *)

(** The text in front of the first slash, and the segments. *)
Fixpoint cut_path (p : list Z) : list Z * list (list Z) :=
  match p with
  | [] => ([], [])
  | c :: p => let '(s, l) := cut_path p in if c =? 47 then ([], s :: l) else (c :: s, l)
  end.

Definition segments (p : list Z) : list (list Z) := snd (cut_path p).

Lemma cut_path_spec p : Forall is_char p -> let '(s, l) := cut_path p in p = s ++ path_of l /\ segment_ok s /\ Forall segment_ok l.
Proof.
  induction 1 as [|c p Hc _ IH]; cbn [cut_path]; [by repeat constructor|]. destruct (cut_path p) as [s l]. destruct IH as (-> & Hs & Hl).
  case_if.
  - subst c. split; [done|]. split; [constructor|]. by apply Forall_cons_2.
  - split; [done|]. split; [|done]. by apply Forall_cons_2.
Qed.

Lemma segments_spec p : Forall is_char p -> deref p = 47 -> path_of (segments p) = p /\ Forall segment_ok (segments p) /\ segments p <> [].
Proof.
  intros Hp Hd. destruct p as [|c p]; [done|]. cbn [deref] in Hd. subst c. pose proof (cut_path_spec _ Hp) as H. unfold segments.
  cbn [cut_path] in *. destruct (cut_path p) as [s l]. cbn [Z.eqb Pos.eqb snd] in *. destruct H as (E & _ & H). by rewrite E.
Qed.

Lemma remove_dots_nonempty segs : forall out, segs <> [] -> remove_dots out segs <> [].
Proof.
  assert (Hsnoc : forall (l : list (list Z)) x, l ++ [x] <> []) by (intros l x H; apply app_eq_nil in H as [_ H]; done).
  induction segs as [|s segs IH]; intros out Hn; [done|]. cbn [remove_dots].
  destruct (dot_segment s); [destruct segs; [apply Hsnoc|by apply IH]|].
  destruct (dotdot_segment s); [destruct segs; [apply Hsnoc|by apply IH]|].
  destruct segs as [|s2 segs]; [cbn [remove_dots]; apply Hsnoc|by apply IH].
Qed.

Lemma path_of_pos segs : segs <> [] -> deref (path_of segs) = 47 /\ 0 < zlen (path_of segs).
Proof.
  destruct segs as [|s segs]; [done|]. intros _. change (path_of (s :: segs)) with (47 :: s ++ path_of segs). split; [done|].
  rewrite zlen_cons. pose proof (zlen_nonneg (s ++ path_of segs)). lia.
Qed.

(** What is kept is among what there was, with no dots. *)
Lemma remove_dots_kept (P : list Z -> Prop) segs : P [] -> forall out, Forall P segs -> Forall P out -> Forall P (remove_dots out segs).
Proof.
  intros Hnil. assert (Hsnoc : forall l, Forall P l -> Forall P (l ++ [[]])).
  { intros l Hl. apply Forall_app. split; [done|]. by apply Forall_cons_2. }
  assert (Hrl : forall l : list (list Z), Forall P l -> Forall P (removelast l)).
  { intros l Hl. destruct (decide (l = [])) as [->|Hn]; [done|]. destruct (exists_last Hn) as (i & s & ->). rewrite removelast_last. by apply Forall_app in Hl as [? _]. }
  induction segs as [|s segs IH]; intros out Hs Ho; [done|]. apply Forall_cons in Hs as [Hs Hsegs]. cbn [remove_dots].
  destruct (dot_segment s); [destruct segs; auto|]. destruct (dotdot_segment s); [destruct segs; auto|].
  apply IH; [done|]. apply Forall_app. split; [done|by apply Forall_cons_2].
Qed.

Definition no_dots (s : list Z) : Prop := dot_segment s = false /\ dotdot_segment s = false.

Lemma remove_dots_no_dots segs : forall out, Forall no_dots out -> Forall no_dots (remove_dots out segs).
Proof.
  assert (Hsnoc : forall l, Forall no_dots l -> Forall no_dots (l ++ [[]])).
  { intros l Hl. apply Forall_app. split; [done|]. by apply Forall_cons_2. }
  assert (Hrl : forall l, Forall no_dots l -> Forall no_dots (removelast l)).
  { intros l Hl. destruct (decide (l = [])) as [->|Hn]; [done|]. destruct (exists_last Hn) as (i & s & ->). rewrite removelast_last. by apply Forall_app in Hl as [? _]. }
  induction segs as [|s segs IH]; intros out Ho; [done|]. cbn [remove_dots].
  destruct (dot_segment s) eqn:E1; [destruct segs; auto|]. destruct (dotdot_segment s) eqn:E2; [destruct segs; auto|].
  apply IH. apply Forall_app. split; [done|by apply Forall_cons_2].
Qed.

Lemma remove_dots_id segs : Forall no_dots segs -> forall out, remove_dots out segs = out ++ segs.
Proof.
  induction 1 as [|s segs [H1 H2] _ IH]; intros out; cbn [remove_dots]; [by rewrite app_nil_r|]. rewrite H1, H2, IH. by rewrite <- app_assoc.
Qed.

Lemma path_of_chars segs : Forall segment_ok segs -> Forall is_char (path_of segs).
Proof.
  induction 1 as [|s segs Hs _ IH]; [constructor|]. change (path_of (s :: segs)) with (47 :: s ++ path_of segs).
  apply Forall_cons_2; [unfold is_char; lia|]. apply Forall_app. split; [|done]. eapply Forall_impl; [exact Hs|]. by intros c [? _].
Qed.

Lemma dedotdotify_spec segs o : Forall segment_ok segs -> 2 <= zlen (path_of segs) < MAX_DYNBUF_SIZE ->
  exists r o', dedotdotify (path_of segs) (zlen (path_of segs)) o = Some (inr r, o') /\
    (r = (0, Some (path_of (remove_dots [] segs))) \/ r = (1, None) /\ false ∈ o) /\ (false ∈ o' -> false ∈ o).
Proof.
  intros Hs Hl. set (p := path_of segs) in *. assert (Hne : segs <> []) by (intros ->; change (2 <= 0 < MAX_DYNBUF_SIZE) in Hl; lia).
  destruct (path_of_pos segs Hne) as [Hd _]. fold p in Hd.
  assert (Hskip : skip_leading_dots p (zlen p) = Some (p, zlen p)).
  { unfold skip_leading_dots, is_dot. rewrite Hd. cbn [Z.eqb Pos.eqb]. by rewrite andb_false_r. }
  unfold dedotdotify. rewrite (proj2 (Z.ltb_ge (zlen p) 2)) by lia. rewrite Hskip.
  assert (Hloop : dedot_returns (K := True) segs [] (Z.to_nat (zlen p)) (curlx_dyn_init (zlen p + 1))).
  { pose proof (zlen_nonneg p). apply dedot_loop_spec; [done|constructor|done|apply dyn_init_rep; lia|fold p; lia|]. fold p. cbn [toobig curlx_dyn_init]. change (path_of []) with (@nil Z). rewrite zlen_nil. lia. }
  destruct (Hloop o) as (x & o1 & E & Hx & Ho). fold p in E. rewrite (E_bind_inr _ _ o x o1) by (by apply E_try_eq).
  destruct Hx as [(b & -> & Hb & Hn)|(Hx & [Hf|Hk])]; [| |by destruct Hk].
  2: { exists (1, None), o1. destruct Hx as (e & -> & _). auto. }
  set (q := remove_dots [] segs) in *. assert (Hq : q <> []) by by apply remove_dots_nonempty. destruct (path_of_pos q Hq) as [_ Hpos].
  rewrite (dyn_rep_len _ _ Hb), (proj2 (Z.eqb_neq (zlen (path_of q)) 0)) by lia. cbn [negb].
  assert (Hc : Forall is_char (path_of q)) by (apply path_of_chars, remove_dots_kept; [constructor|done|constructor]).
  rewrite (held_rep b _ Hb Hn Hc). exists (0, Some (path_of q)), o1. cbn. auto.
Qed.

(** C36: an absolute path, written as its segments, loses its dot segments as
    RFC 3986 prescribes: [dedotdotify] gives the text of what the standard
    keeps, unless an allocation fails; nothing that is kept is a dot segment,
    and a path without dot segments stays as it is. *)
Theorem dedotdotify_rfc segs o : Forall segment_ok segs -> 2 <= zlen (path_of segs) < MAX_DYNBUF_SIZE ->
  (exists r o', dedotdotify (path_of segs) (zlen (path_of segs)) o = Some (inr r, o') /\
    (r = (0, Some (path_of (remove_dots [] segs))) \/ r = (1, None) /\ false ∈ o)) /\
  Forall no_dots (remove_dots [] segs) /\ (Forall no_dots segs -> remove_dots [] segs = segs).
Proof.
  intros Hs Hl. split; [|split].
  - destruct (dedotdotify_spec segs o Hs Hl) as (r & o' & E & Hr & _). by exists r, o'.
  - apply remove_dots_no_dots. constructor.
  - intros Hn. by apply (remove_dots_id segs Hn []).
Qed.

Definition dots_example : list (list Z) := [str "a"; str "%2e"; str "b"; str ".%2E"; str "c"; str ".."].

Lemma dedotdotify_rfc_witness : exists o', dedotdotify (str "/a/%2e/b/.%2E/c/..") 18 [] = Some (inr (0, Some (str "/a/")), o').
Proof.
  destruct (dedotdotify_rfc dots_example []) as [(r & o' & E & Hr) _].
  - unfold dots_example, segment_ok. repeat apply Forall_cons_2; try apply Forall_nil_2; by vm_compute.
  - by vm_compute.
  - exists o'. destruct Hr as [-> | [_ Hf]]; [exact E|]. apply elem_of_nil in Hf as [].
Defined.

(** A path that does not start with a slash is not treated by these rules: one
    leading dot segment goes, and a first segment is not taken by the
    two dots behind it. *)
Example relative_paths : dedotdotify (str "../../a") 7 [] = Some (inr (0, Some (str "../a")), []) /\
  dedotdotify (str "a/../b") 6 [] = Some (inr (0, Some (str "a/b")), []).
Proof. split; vm_compute; reflexivity. Qed.
