(* ===== verification/UrlPrint.v ===== *)
(** The formats that lib/urlapi.c prints with: strings and numbers put one
    behind the other. *)

From Stdlib Require Import ZArith Lia List String SpecFloat.
From stdpp Require Import base numbers option list.
From S2P Require Import Prelude Dynbuf Strparse InetAddr Mprintf PrintfSpec PrintfFormat PrintfPieces PrintfTheorems Urlapi UrlParse UrlSet UrlRules.
Close Scope nat_scope.
Open Scope Z_scope.

Definition plain (prec : psize) (c : pconv) : pspec := mk_spec [] P_none prec L_none c.

(** A string, a number, a literal, a percent sign, a string cut to a length. *)
Inductive item := It_str (t : list Z) | It_uint (n : Z) | It_lit (t : list Z) | It_percent | It_cut (n : Z) (t : list Z).

Definition item_piece (x : item) : piece :=
  match x with
  | It_str _ => Conv (plain P_none C_s)
  | It_uint _ => Conv (plain P_none C_u)
  | It_lit t => Lit t
  | It_percent => Percent
  | It_cut _ _ => Conv (plain P_star C_s)
  end.

Definition item_args (x : item) : list va_arg :=
  match x with
  | It_str t => [A_str (Some t)]
  | It_uint n => [A_uint n]
  | It_lit _ | It_percent => []
  | It_cut n t => [A_int n; A_str (Some t)]
  end.

Definition item_text (x : item) : list Z :=
  match x with It_str t => t | It_uint n => dec n | It_lit t => t | It_percent => [37] | It_cut n t => ztake n t end.

Definition item_ok (x : item) : Prop :=
  match x with
  | It_str t => Forall is_char t
  | It_uint n => 0 <= n <= UINT32_MAX
  | It_lit t => Forall is_char t
  | It_percent => True
  | It_cut n t => Forall is_char t /\ 0 <= n <= zlen t /\ n <= INT_MAX
  end.

Definition items_text (l : list item) : list Z := concat (map item_text l).

Lemma dec_chars n : 0 <= n <= UINT32_MAX -> Forall (fun c => 48 <= c <= 57) (dec n) /\ digits_value 10 0 (dec n) = n /\ dec n <> [].
Proof.
  intros Hn. destruct (dec_spec n) as (Hd & Hv & c & d & E & _); [unfold UINT32_MAX, SIZE_MAX in *; lia|]. split_and!; [|done|by rewrite E].
  eapply Forall_impl; [exact Hd|]. intros x. unfold valid_digit, max_digit. cbn [Z.eqb Pos.eqb]. intros H. zb_hyps. lia.
Qed.

Lemma ctext_chars t : Forall is_char t -> ctext t = t.
Proof. induction 1 as [|c t Hc _ IH]; [done|]. cbn [ctext]. rewrite (proj2 (Z.eqb_neq c 0)), IH by (unfold is_char in Hc; lia). done. Qed.

Lemma item_text_chars x : item_ok x -> Forall is_char (item_text x).
Proof.
  destruct x as [t|n|t| |n t]; cbn; [done| |done| |].
  - intros Hn. destruct (dec_chars n Hn) as (Hd & _). eapply Forall_impl; [exact Hd|]. unfold is_char. lia.
  - intros _. by_compute.
  - intros [Ht _]. by apply Forall_take.
Qed.

Lemma items_text_chars l : Forall item_ok l -> Forall is_char (items_text l).
Proof. induction 1 as [|x l Hx _ IH]; [constructor|]. apply Forall_app. split; [by apply item_text_chars|exact IH]. Qed.

Lemma num_text_plain n : 0 <= n <= SIZE_MAX -> num_text FLAGS_UNSIGNED 0 (-1) 10 false n = dec n.
Proof.
  intros Hn. unfold num_text, num_pad, num_lead, num_digits, num_prec. change (has FLAGS_UNSIGNED FLAGS_SHOWSIGN) with false. change (has FLAGS_UNSIGNED FLAGS_SPACE) with false.
  change (has FLAGS_UNSIGNED FLAGS_ALT) with false. change (has FLAGS_UNSIGNED FLAGS_UPPER) with false.
  change (has FLAGS_UNSIGNED FLAGS_LEFT) with false. change (has FLAGS_UNSIGNED FLAGS_PAD_NIL) with false.
  cbn [num_sign num_prefix andb app]. change (if -1 =? -1 then 1 else -1) with 1. rewrite num_body_plain by (done || right; left; done).
  change (number_chars 10 false n) with (dec n). unfold field. cbn [app]. change (zlen (@nil Z)) with 0. pose proof (zlen_nonneg (dec n)).
  change (Z.max 0 (1 - (BUFFSIZE - 1))) with 0. by replace (Z.to_nat (0 - 0 - zlen (dec n) - 0)) with 0%nat by lia.
Qed.

Lemma str_text_plain prec t : Forall is_char t -> prec = -1 \/ 0 <= prec <= INT_MAX ->
  str_text 0 0 prec (Some t) = if prec =? -1 then t else ztake prec t.
Proof.
  intros Ht Hp. assert (Hpad : forall w l, 0 <= w -> padded (has 0 FLAGS_LEFT) (0 - w) l = l).
  { intros w l Hw. unfold padded, spaces. change (has 0 FLAGS_LEFT) with false. cbv iota. by replace (Z.to_nat (0 - w)) with 0%nat by lia. }
  unfold str_text. change (has 0 FLAGS_ALT) with false. rewrite ctext_chars by done. case_if.
  - rewrite Hpad; [done|]. pose proof (zlen_nonneg t). unfold INT_MAX. lia.
  - rewrite u64_small, Hpad by (unfold INT_MAX, SIZE_MAX in *; lia). done.
Qed.

Lemma conv_uint n : 0 <= n <= UINT32_MAX -> conv_events (plain P_none C_u) 0 (-1) (V_numu n) = Some (ev_bytes (dec n)).
Proof.
  intros Hn. change (conv_events _ 0 (-1) (V_numu n)) with (ev_number (mk_prop 0 (-1) FLAGS_UNSIGNED) n 0).
  unfold ev_number. rewrite num_ok_small by (cbn [p_width p_prec]; unfold PREC_MAX, INT_MAX, UINT32_MAX, SIZE_MAX, CURL_OFF_T_MAX in *; lia).
  rewrite (proj2 (Z.leb_le 0 n)), (proj2 (Z.leb_le n SIZE_MAX)) by (unfold UINT32_MAX, SIZE_MAX in *; lia).
  change (Some (ev_bytes (num_text FLAGS_UNSIGNED 0 (-1) 10 false n)) = Some (ev_bytes (dec n))).
  rewrite num_text_plain by (unfold UINT32_MAX, SIZE_MAX in *; lia). done.
Qed.

Lemma render_items l : Forall item_ok l -> render (map item_piece l) (concat (map item_args l)) = Some (ev_bytes (items_text l)).
Proof.
  induction 1 as [|x l Hx _ IH]; [done|]. unfold items_text. cbn [map concat]. rewrite ev_bytes_app. fold (items_text l).
  destruct x as [t|n|t| |n t]; cbn [item_piece item_args item_ok item_text app] in *.
  - cbn [render]. change (spec_types (plain P_none C_s)) with [MTYPE_STRING]. cbn [fetch_all va_fetch mbind option_bind length drop]. rewrite drop_0, IH.
    unfold spec_events, spec_with, take_size, conv_events, conv_prop. cbn [plain sp_width sp_prec head mbind option_bind ev_value spec_type sp_conv].
    change (spec_flags _ _) with 0. cbn [p_flags p_width p_prec Z.abs Z.min Z.ltb]. cbn -[str_text ev_bytes]. rewrite str_text_plain by auto. done.
  - cbn [render]. change (spec_types (plain P_none C_u)) with [MTYPE_INTU]. cbn [fetch_all va_fetch mbind option_bind length drop]. rewrite drop_0, IH.
    unfold spec_events, spec_with, take_size. cbn [plain sp_width sp_prec head mbind option_bind]. change (mk_spec _ _ _ _ _) with (plain P_none C_u).
    rewrite conv_uint by done. done.
  - cbn [render]. by rewrite IH.
  - cbn [render]. by rewrite IH.
  - cbn [render]. change (spec_types (plain P_star C_s)) with [MTYPE_PRECISION; MTYPE_STRING]. cbn [fetch_all va_fetch mbind option_bind length drop]. rewrite drop_0, IH.
    destruct Hx as (Ht & Hn & Hi).
    unfold spec_events, spec_with, take_size, conv_events, conv_prop. cbn [plain sp_width sp_prec head mbind option_bind ev_value spec_type sp_conv val_int].
    assert (E : (n + 2 ^ 31) mod 2 ^ 32 - 2 ^ 31 = n) by (rewrite Z.mod_small; unfold INT_MAX in *; lia).
    change (spec_flags _ _) with 0. rewrite E, (proj2 (Z.ltb_ge n 0)) by lia. cbn -[str_text ev_bytes]. rewrite str_text_plain by (done || lia).
    by rewrite (proj2 (Z.eqb_neq n (-1))) by lia.
Qed.

(** * The printing functions *)

Section Print.

Context (c_snprintf : list Z -> spec_float -> list Z).

Definition items_format (l : list item) : list Z := pieces_text (map item_piece l).
Definition items_args (l : list item) : list va_arg := concat (map item_args l).

(** As many as the formats of the file have. *)
Definition items_few (l : list item) : Prop :=
  forallb (fun x => piece_ok (item_piece x)) l = true /\ (length l <= 20)%nat.

Lemma items_events l : Forall item_ok l -> items_few l ->
  format_events c_snprintf (items_format l) (items_args l) = Some (ev_bytes (items_text l)).
Proof.
  intros Hok [Hp Hn]. apply format_events_pieces.
  - clear -Hp. induction l as [|x l IH]; [done|]. cbn [map forallb] in *. apply andb_prop in Hp as [-> Hp]. by apply IH.
  - rewrite zlen_map. unfold zlen. lia.
  - clear -Hn. assert (H : (length (pieces_types (map item_piece l)) <= 2 * length l)%nat); [|unfold zlen; lia].
    clear Hn. induction l as [|x l IH]; [cbn; lia|]. unfold pieces_types in *. cbn [map concat length]. rewrite length_app.
    assert (length (piece_types (item_piece x)) <= 2)%nat by (destruct x; cbn; lia). lia.
  - by apply render_items.
Qed.

Lemma items_bytes l : Forall item_ok l -> ev_text (ev_bytes (items_text l)) = items_text l.
Proof.
  intros H. apply ev_text_bytes. eapply Forall_impl; [by apply items_text_chars|]. unfold is_char, is_byte. intros; cbv beta in *; lia.
Qed.

Lemma addf_spec l s c o : Forall item_ok l -> items_few l -> items_text l <> [] -> dyn_rep s c -> toobig s <= INT_MAX ->
  exists s' r o', E_addf c_snprintf s (items_format l) (items_args l) o = Some (inr (s', r), o') /\ (false ∈ o' -> false ∈ o) /\
    (r = CURLE_OK /\ dyn_rep s' (c ++ items_text l) /\ bufr s' <> None \/
     r <> CURLE_OK /\ (false ∈ o \/ toobig s < zlen c + zlen (items_text l) + 1)).
Proof.
  intros Hok Hf Hne Hs Hb. pose proof (items_events l Hok Hf) as He.
  destruct (vprintf_spec c_snprintf _ _ _ s c o He Hs Hb) as (rc & s' & o' & st & E & _ & Ho & Hr). rewrite items_bytes in Hr by done.
  unfold E_addf, E_dyn, curlx_dyn_addf_lib. rewrite E. cbn [mbind option_bind]. do 3 eexists. split; [done|].
  split; [done|]. destruct Hr as [[-> Hr]|[_ [[-> Hf2]|[-> Hl]]]].
  - left. split; [done|]. split; [done|]. intros Hn. destruct Hr as (_ & _ & Hm). rewrite Hn in Hm. destruct Hm as [Hm _].
    apply app_eq_nil in Hm as [_ Hm]. done.
  - right. split; [done|]. by left.
  - right. split; [done|]. by right.
Qed.

(** The text, or a lack of memory. *)
Lemma aprintf_spec {F} `{!HasOom F} (K : Prop) l (Q : CURLUcode + list Z -> Prop) : Forall item_ok l -> items_few l -> (K -> zlen (items_text l) < DYN_APRINTF) ->
  Q (inr (items_text l)) -> ewp F K (E_aprintf c_snprintf (items_format l) (items_args l)) Q.
Proof.
  intros Hok Hf HK HQ o. destruct (mvaprintf_spec c_snprintf _ _ _ o (items_events l Hok Hf)) as (r & o' & st & E & Hm & Ho).
  rewrite items_bytes in Hm by done. unfold E_aprintf. rewrite E. cbn [mbind option_bind]. destruct r as [m|].
  - destruct Hm as [rest ->]. rewrite mem_text_spec by by apply items_text_chars. do 2 eexists. split; [done|]. auto.
  - do 2 eexists. split; [done|]. split; [|done]. right. split; [apply nomem_oom|]. destruct Hm as [Hm|Hm]; [by left|]. right. intros Hk. specialize (HK Hk). lia.
Qed.

Lemma snprintf_spec {F} (K : Prop) size l (Q : CURLUcode + list Z -> Prop) : Forall item_ok l -> items_few l -> zlen (items_text l) < size <= INT_MAX ->
  Q (inr (items_text l)) -> ewp F K (E_snprintf c_snprintf size (items_format l) (items_args l)) Q.
Proof.
  intros Hok Hf Hs HQ. pose proof (zlen_nonneg (items_text l)). unfold E_snprintf.
  assert (Hu : zlen (uninit size) = size) by (apply zlen_replicate; lia).
  destruct (msnprintf_spec c_snprintf _ _ _ (uninit size) size (items_events l Hok Hf)) as (st & E); [lia|lia|].
  rewrite items_bytes in E by done. rewrite E. cbn [mbind option_bind]. rewrite (proj2 (Z.eqb_neq size 0)) by lia.
  eapply ewp_defined; [|exact HQ]. rewrite ztake_ge by lia. unfold stored. rewrite ztake_0. cbn [app]. rewrite map_app, <- app_assoc. cbn [map app].
  apply mem_text_spec. by apply items_text_chars.
Qed.

End Print.
