(* ===== verification/UrlHost.v ===== *)
(** Hosts of URLs: numeric IPv4 addresses, percent-encoded names, bracketed
    IPv6 addresses.

    The numeric forms of an IPv4 address are described by a grammar; the
    normaliser accepts exactly these and writes the address as four decimal
    numbers.  A bracketed address is checked and rewritten in the memory of the
    buffer that holds the host. *)

From Stdlib Require Import ZArith Lia List String SpecFloat.
From stdpp Require Import base numbers option list.
From S2P Require Import Prelude Dynbuf Strparse Strcase Escape InetAddr Mprintf PrintfSpec PrintfFormat Urlapi UrlParse UrlSet UrlRules UrlPrint.
Close Scope nat_scope.
Open Scope Z_scope.

(** * Numeric IPv4 addresses *)

Definition digits_of (base : Z) (ds : list Z) : Prop := Forall (fun c => valid_digit c (max_digit base) = true) ds.

(** A number: decimal, octal with a zero in front, hexadecimal with 0x. *)
Inductive ip4_number : list Z -> Z -> Prop :=
  | Num_dec ds : ds <> [] -> deref ds <> 48 -> digits_of 10 ds -> ip4_number ds (digits_value 10 0 ds)
  | Num_oct ds : digits_of 8 ds -> ip4_number (48 :: ds) (digits_value 8 0 ds)
  | Num_hex x ds : x = 120 \/ x = 88 -> ds <> [] -> digits_of 16 ds -> ip4_number (48 :: x :: ds) (digits_value 16 0 ds).

(** Numbers that fit in 32 bits with dots between them; there may be a dot at
    the end. *)
Inductive ip4_parts : list Z -> list Z -> Prop :=
  | Parts_one t v : ip4_number t v -> v <= UINT_MAX -> ip4_parts t [v]
  | Parts_dot t v : ip4_number t v -> v <= UINT_MAX -> ip4_parts (t ++ [46]) [v]
  | Parts_more t v rest vs : ip4_number t v -> v <= UINT_MAX -> ip4_parts rest vs -> ip4_parts (t ++ 46 :: rest) (v :: vs).

(** The address: every part but the last is a byte, the last takes the bytes
    that are left. *)
Definition ip4_value (parts : list Z) : option Z :=
  match parts with
  | [a] => Some a
  | [a; b] => if (a <=? 255) && (b <=? 16777215) then Some (a * 16777216 + b) else None
  | [a; b; c] => if (a <=? 255) && (b <=? 255) && (c <=? 65535) then Some (a * 16777216 + b * 65536 + c) else None
  | [a; b; c; d] =>
      if (a <=? 255) && (b <=? 255) && (c <=? 255) && (d <=? 255)
      then Some (a * 16777216 + b * 65536 + c * 256 + d) else None
  | _ => None
  end.

Definition ip4_bytes (v : Z) : list Z := [v / 16777216; v / 65536 mod 256; v / 256 mod 256; v mod 256].

Definition dotted (l : list Z) : list Z :=
  match l with a :: l => dec a ++ concat (map (fun b => 46 :: dec b) l) | [] => [] end.

Definition ip4_print (v : Z) : list Z := dotted (ip4_bytes v).

Lemma digit_span_prefix base ds r : digits_of base ds -> valid_digit (deref r) (max_digit base) = false ->
  digit_span (max_digit base) (ds ++ r) = (ds, r).
Proof.
  intros Hd Hr. induction Hd as [|c ds Hc _ IH]; cbn [app digit_span].
  - destruct r as [|x r]; [done|]. cbn [digit_span deref] in *. by rewrite Hr.
  - by rewrite Hc, IH.
Qed.

Lemma digit_span_inv base p ds r : digit_span (max_digit base) p = (ds, r) -> p = ds ++ r /\ digits_of base ds.
Proof.
  revert ds r. induction p as [|c p IH]; intros ds r; cbn [digit_span]; [intros [= <- <-]; split; [done|constructor]|].
  destruct (valid_digit c (max_digit base)) eqn:E; [|intros [= <- <-]; split; [done|constructor]].
  destruct (digit_span _ p) as [ds1 r1]. intros [= <- <-]. destruct (IH ds1 r1 eq_refl) as [-> H]. split; [done|]. by apply Forall_cons_2.
Qed.

Lemma digits_zero base ds : base = 8 \/ base = 10 \/ base = 16 -> digits_value base 0 (48 :: ds) = digits_value base 0 ds.
Proof. intros [-> | [-> | ->]]; reflexivity. Qed.

Lemma stop_dot base rest : base = 8 \/ base = 10 \/ base = 16 -> rest = [] \/ deref rest = 46 -> valid_digit (deref rest) (max_digit base) = false.
Proof. intros [-> | [-> | ->]] [-> | ->]; reflexivity. Qed.

Lemma valid_dec_char c : valid_digit c (max_digit 10) = true <-> 48 <= c <= 57.
Proof.
  unfold valid_digit. change (max_digit 10) with 57. split; [intros H; zb_hyps; lia|]. intros Hc.
  assert (c = 48 \/ c = 49 \/ c = 50 \/ c = 51 \/ c = 52 \/ c = 53 \/ c = 54 \/ c = 55 \/ c = 56 \/ c = 57) as H by lia.
  repeat destruct H as [-> | H]; try done. by subst c.
Qed.

Lemma uint_max_ok : 0 <= UINT_MAX <= CURL_OFF_T_MAX.
Proof. unfold UINT_MAX, CURL_OFF_T_MAX. lia. Qed.

(** A number in front of a dot or the end is read. *)
Lemma ipv4_number_complete t v rest : ip4_number t v -> v <= UINT_MAX -> rest = [] \/ deref rest = 46 ->
  ipv4_number (t ++ rest) = Some (Some (STRE_OK, v, rest)).
Proof.
  assert (Hread : forall base ds, base = 8 \/ base = 10 \/ base = 16 -> ds <> [] -> digits_of base ds -> digits_value base 0 ds <= UINT_MAX ->
    rest = [] \/ deref rest = 46 -> str_num_base (ds ++ rest) UINT_MAX base = Some (STRE_OK, digits_value base 0 ds, rest)).
  { intros base ds Hb Hn Hd Hl Hr. rewrite str_num_base_spec by (done || apply uint_max_ok). rewrite digit_span_prefix by (done || by apply stop_dot).
    destruct ds; [done|]. by rewrite (proj2 (Z.leb_le _ _)). }
  intros H Hv Hr. unfold ipv4_number, curlx_str_number, curlx_str_hex, curlx_str_octal. destruct H as [ds Hn H0 Hd|ds Hd|x ds Hx Hn Hd].
  - assert (deref (ds ++ rest) = deref ds) as -> by by destruct ds. rewrite (proj2 (Z.eqb_neq (deref ds) 48)) by done.
    by rewrite Hread by auto.
  - cbn [app deref Z.eqb Pos.eqb]. change (48 =? 48) with true. cbv iota.
    assert (Hlow : (Curl_raw_tolower (at_ (48 :: ds ++ rest) 1) =? 120) = false).
    { unfold at_. cbn [drop]. rewrite drop_0. destruct ds as [|c ds].
      - destruct Hr as [->|Hr]; [done|]. cbn [app]. by rewrite Hr.
      - cbn [app deref]. inversion Hd as [|? ? Hc _]; subst. unfold valid_digit in Hc. change (max_digit 8) with 55 in Hc. zb_hyps.
        assert (c = 48 \/ c = 49 \/ c = 50 \/ c = 51 \/ c = 52 \/ c = 53 \/ c = 54 \/ c = 55) as Hcs by lia. repeat destruct Hcs as [-> | Hcs]; try done. by subst c. }
    rewrite Hlow. change (48 :: ds ++ rest) with ((48 :: ds) ++ rest). rewrite Hread; [|auto|done|by apply Forall_cons_2|by rewrite digits_zero by auto|done].
    by rewrite digits_zero by auto.
  - cbn [app deref]. change (48 =? 48) with true. cbv iota. assert (Hlow : (Curl_raw_tolower (at_ (48 :: x :: ds ++ rest) 1) =? 120) = true).
    { unfold at_. cbn [drop deref]. by destruct Hx as [-> | ->]. }
    rewrite Hlow. cbn [drop]. rewrite drop_0, Hread by auto. done.
Qed.

(** What is read is a number. *)
Lemma ipv4_number_sound c : exists x, ipv4_number c = Some x /\
  match x with
  | None => True
  | Some (STRE_OK, v, rest) => exists t, c = t ++ rest /\ ip4_number t v /\ v <= UINT_MAX
  | Some (STRE_NO_NUM, _, rest) => rest = c
  | Some _ => True
  end.
Proof.
  assert (Hread : forall base p, base = 8 \/ base = 10 \/ base = 16 -> exists rc v r, str_num_base p UINT_MAX base = Some (rc, v, r) /\
    match rc with
    | STRE_OK => exists ds, ds <> [] /\ p = ds ++ r /\ digits_of base ds /\ v = digits_value base 0 ds /\ v <= UINT_MAX
    | STRE_NO_NUM => r = p
    | _ => True
    end).
  { intros base p Hb. rewrite str_num_base_spec by (done || apply uint_max_ok). destruct (digit_span _ p) as [ds r] eqn:E.
    apply digit_span_inv in E as [-> Hd]. destruct ds as [|d ds]; [by do 3 eexists|]. case_if; [|by do 3 eexists].
    do 3 eexists. split; [done|]. exists (d :: ds). done. }
  unfold ipv4_number, curlx_str_number, curlx_str_hex, curlx_str_octal. case_if.
  - destruct c as [|z c]; [done|]. cbn [deref] in E. subst z. case_if.
    + destruct (Hread 16 (drop 2 (48 :: c))) as (rc & v & r & E1 & H1); [auto|]. rewrite E1. cbn [mbind option_bind].
      destruct rc; (eexists; split; [reflexivity|]); try done. destruct H1 as (ds & Hn & Hp & Hd & -> & Hv).
      unfold at_ in E. cbn [drop] in E, Hp. rewrite drop_0 in E. destruct c as [|x c]; [done|]. cbn [deref drop] in E, Hp. rewrite drop_0 in Hp. subst c.
      exists (48 :: x :: ds). split; [done|]. split; [|done]. apply Num_hex; [|done|done].
      revert E. clear. intros E. apply Z.eqb_eq in E. destruct (decide (is_byte x)) as [Hx|Hx].
      * rewrite tolower_lower in E by done. unfold lower in E. case_if_in E; zb_hyps; lia.
      * exfalso. unfold Curl_raw_tolower in E. destruct (decide (x < 0)) as [Hn|Hp].
        -- rewrite Z2Nat.nonpos in E by lia. done.
        -- rewrite nth_overflow in E; [done|]. unfold is_byte in Hx. change (length tolowermap) with 256%nat. lia.
    + destruct (Hread 8 (48 :: c)) as (rc & v & r & E1 & H1); [auto|]. rewrite E1. cbn [fmap option_fmap option_map]. eexists. split; [reflexivity|].
      destruct rc; try done. destruct H1 as (ds & Hn & Hp & Hd & -> & Hv). exists ds. split; [done|]. split; [|done].
      destruct ds as [|d ds]; [done|]. injection Hp as <- Hp. rewrite digits_zero by auto. apply Num_oct. by apply Forall_cons in Hd as [_ Hd].
  - destruct (Hread 10 c) as (rc & v & r & E1 & H1); [auto|]. rewrite E1. cbn [fmap option_fmap option_map]. eexists. split; [reflexivity|].
    destruct rc; try done. destruct H1 as (ds & Hn & Hp & Hd & -> & Hv). exists ds. split; [done|]. split; [|done].
    apply Num_dec; [done| |done]. intros E2. apply E. subst c. by destruct ds.
Qed.

Lemma ip4_number_pos t v : ip4_number t v -> t <> [] /\ 0 <= v.
Proof.
  intros [ds Hn _ Hd|ds Hd|x ds _ _ Hd]; (split; [done|]); by apply digits_value_ge.
Qed.

(** What the loop finds, behind [done]. *)
Lemma ipv4_loop_complete c vs : ip4_parts c vs -> forall rounds done, (length done + rounds = 4)%nat -> (length vs <= rounds)%nat ->
  ipv4_loop rounds done c = Some (Some (done ++ vs)).
Proof.
  induction 1 as [t v Ht Hv|t v Ht Hv|t v rest vs Ht Hv Hp IH]; intros rounds dn Hl Hr; (destruct rounds as [|rounds]; [cbn in Hr; lia|]); cbn [ipv4_loop length] in *.
  - rewrite <- (app_nil_r t), (ipv4_number_complete t v []) by auto. done.
  - rewrite (ipv4_number_complete t v [46]) by auto. cbn [mbind option_bind deref]. change (46 =? 46) with true. cbv iota.
    case_if; [done|]. cbn [drop]. destruct rounds as [|rounds]; [exfalso; apply E; rewrite zlen_app; unfold zlen; cbn; lia|].
    cbn [ipv4_loop]. assert (Hn : (zlen (dn ++ [v]) =? 0) = false) by (apply Z.eqb_neq; rewrite zlen_app; pose proof (zlen_nonneg dn); unfold zlen at 2; cbn; lia).
    destruct (ipv4_number_sound []) as (x & Ex & _). vm_compute in Ex. injection Ex as <-. change (ipv4_number []) with (Some (Some (STRE_NO_NUM, 0, @nil Z))).
    cbn [mbind option_bind]. rewrite Hn. done.
  - rewrite (ipv4_number_complete t v (46 :: rest)) by auto. cbn [mbind option_bind deref]. change (46 =? 46) with true. cbv iota.
    destruct rounds as [|rounds]; [destruct Hp; cbn in Hr; lia|].
    rewrite (proj2 (Z.eqb_neq (zlen (dn ++ [v]) - 1) 3)) by (rewrite zlen_app; unfold zlen; cbn; lia). cbn [drop]. rewrite drop_0.
    rewrite (IH (S rounds) (dn ++ [v])); [by rewrite <- app_assoc|rewrite length_app; cbn; lia|lia].
Qed.

Lemma ipv4_loop_sound rounds : forall dn c, (length dn + rounds = 4)%nat -> (0 < rounds)%nat -> Forall is_char c ->
  exists r, ipv4_loop rounds dn c = Some r /\ forall parts, r = Some parts ->
    exists vs, parts = dn ++ vs /\ (length parts <= 4)%nat /\ (ip4_parts c vs \/ c = [] /\ vs = [] /\ dn <> []).
Proof.
  assert (Hend : forall c, Forall is_char c -> deref c = 0 -> c = []).
  { intros c Hc E. destruct c as [|x c]; [done|]. apply Forall_cons in Hc as [Hx _]. cbn in E. unfold is_char in Hx. lia. }
  induction rounds as [|rounds IH]; intros dn c Hl Hr Hc; [lia|]. cbn [ipv4_loop].
  destruct (ipv4_number_sound c) as (x & -> & Hx). cbn [mbind option_bind].
  destruct x as [[[rc v] rest]|]; [|by exists None].
  destruct rc; try by exists None.
  - destruct Hx as (t & -> & Ht & Hv). apply Forall_app in Hc as [_ Hc]. pose proof (ip4_number_pos _ _ Ht) as [Htn _].
    case_if.
    + destruct rest as [|z rest]; [done|]. cbn [deref] in E. subst z. apply Forall_cons in Hc as [_ Hc]. case_if.
      * unfold at_. cbn [drop]. rewrite drop_0. case_if; [by exists None|]. apply Hend in E0; [|done]. subst rest.
        eexists. split; [done|]. intros parts [= <-]. exists [v]. split; [done|]. split; [rewrite length_app; cbn; lia|]. left. by apply Parts_dot.
      * cbn [drop]. rewrite drop_0. rewrite zlen_app in E. unfold zlen in E. cbn in E.
        destruct (IH (dn ++ [v]) rest) as (r & E1 & H1); [rewrite length_app; cbn; lia|lia|done|].
        exists r. split; [done|]. intros parts Hp. destruct (H1 parts Hp) as (vs & -> & Hlen & Hvs). exists (v :: vs). rewrite <- app_assoc in *.
        split; [done|]. split; [done|]. left. destruct Hvs as [Hvs|(-> & -> & _)]; [by apply Parts_more|by apply Parts_dot].
    + case_if; [|by exists None]. apply Hend in E0; [|done]. subst rest. eexists. split; [done|]. intros parts [= <-]. exists [v]. split; [done|].
      split; [rewrite length_app; cbn; lia|]. left. rewrite app_nil_r. by apply Parts_one.
  - subst rest. case_if; [by exists None|].
    replace (deref c) with 0 by done. change (0 =? 46) with false. change (0 =? 0) with true. cbv iota.
    assert (c = []) as -> by by apply Hend. eexists. split; [done|]. intros parts [= <-]. exists []. rewrite app_nil_r. split; [done|].
    split; [lia|]. right. split; [done|]. split; [done|]. intros ->. done.
Qed.

Lemma ipv4_loop_spec c : Forall is_char c -> exists r, ipv4_loop 4 [] c = Some r /\
  forall parts, r = Some parts <-> ip4_parts c parts /\ (length parts <= 4)%nat.
Proof.
  intros Hc. destruct (ipv4_loop_sound 4 [] c) as (r & E & H); [done|lia|done|]. exists r. split; [done|]. intros parts. split.
  - intros Hr. destruct (H parts Hr) as (vs & -> & Hl & [Hp|(_ & _ & Hn)]); done.
  - intros [Hp Hl]. rewrite (ipv4_loop_complete c parts Hp 4 []) in E by (cbn; lia). by injection E.
Qed.

Lemma ip4_parts_range c parts : ip4_parts c parts -> Forall (fun v => 0 <= v <= UINT_MAX) parts.
Proof.
  induction 1 as [t v Ht Hv|t v Ht Hv|t v rest vs Ht Hv _ IH]; apply ip4_number_pos in Ht as [_ Ht]; by repeat apply Forall_cons_2.
Qed.

Lemma land_ff x : Z.land x 255 = x mod 256.
Proof. apply (land_mask x 8). lia. Qed.

Lemma quad_value parts : Forall (fun v => 0 <= v <= UINT_MAX) parts -> ipv4_quad parts = ip4_bytes <$> ip4_value parts.
Proof.
  intros H. assert (Hs : forall x k, 0 <= k -> Z.shiftr x k = x / 2 ^ k) by (intros; by apply Z.shiftr_div_pow2).
  destruct parts as [|a [|b [|c [|d [|]]]]]; try done;
    repeat match goal with H : Forall _ (_ :: _) |- _ => apply Forall_cons in H as [? H] end; unfold UINT_MAX in *; cbn [ipv4_quad ip4_value fmap option_fmap option_map].
  - unfold ip4_bytes. rewrite !Hs, !land_ff by lia. done.
  - rewrite !Z.gtb_ltb. rewrite (Z.ltb_antisym a 255), (Z.ltb_antisym b 16777215), <- negb_andb. destruct (_ && _) eqn:E; [|done]. cbn [negb fmap option_fmap option_map]. zb_hyps.
    unfold ip4_bytes. rewrite !Hs, !land_ff by lia. change (2 ^ 16) with 65536. change (2 ^ 8) with 256. do 2 f_equal; [dlia|]. f_equal; [dlia|]. f_equal; [dlia|]. f_equal. dlia.
  - rewrite !Z.gtb_ltb. rewrite (Z.ltb_antisym a 255), (Z.ltb_antisym b 255), (Z.ltb_antisym c 65535), <- !negb_andb.
    destruct (_ && _) eqn:E; [|done]. cbn [negb fmap option_fmap option_map]. zb_hyps.
    unfold ip4_bytes. rewrite !Hs, !land_ff by lia. change (2 ^ 8) with 256. do 2 f_equal; [dlia|]. f_equal; [dlia|]. f_equal; [dlia|]. f_equal. dlia.
  - rewrite !Z.gtb_ltb. rewrite (Z.ltb_antisym a 255), (Z.ltb_antisym b 255), (Z.ltb_antisym c 255), (Z.ltb_antisym d 255), <- !negb_andb.
    destruct (_ && _) eqn:E; [|done]. cbn [negb fmap option_fmap option_map]. zb_hyps.
    unfold ip4_bytes. do 2 f_equal; [dlia|]. f_equal; [dlia|]. f_equal; [dlia|]. f_equal. dlia.
Qed.

(** ** The normaliser *)

(** The address a host stands for. *)
Definition ip4_host (c : list Z) (v : Z) : Prop := exists parts, ip4_parts c parts /\ ip4_value parts = Some v.

(** The same as a function. *)
Definition numeric (c : list Z) : option Z := parts ← ipv4_loop 4 [] c; parts ← parts; ip4_value parts.

Lemma ip4_value_range parts v : Forall (fun v => 0 <= v <= UINT_MAX) parts -> ip4_value parts = Some v -> 0 <= v <= UINT_MAX.
Proof.
  intros H E. unfold UINT_MAX in *. destruct parts as [|a [|b [|c [|d [|]]]]]; try done; cbn [ip4_value] in E;
    repeat match goal with H : Forall _ (_ :: _) |- _ => apply Forall_cons in H as [? H] end; revert E; try case_if; try done; intros [= <-]; lia.
Qed.

Lemma numeric_spec c v : Forall is_char c -> numeric c = Some v <-> ip4_host c v.
Proof.
  intros Hc. unfold numeric, ip4_host. destruct (ipv4_loop_spec c Hc) as (r & -> & Hr). cbn [mbind option_bind]. split.
  - destruct r as [parts|]; [|done]. cbn [mbind option_bind]. intros E. exists parts. split; [|done]. by apply (Hr parts).
  - intros (parts & Hp & Hv). assert (Hl : (length parts <= 4)%nat) by (destruct parts as [|? [|? [|? [|? [|]]]]]; cbn in *; lia || done).
    rewrite (proj2 (Hr parts)) by done. done.
Qed.

Lemma ip4_host_range c v : ip4_host c v -> 0 <= v <= UINT_MAX.
Proof. intros (parts & Hp & Hv). eapply ip4_value_range; [|exact Hv]. by eapply ip4_parts_range. Qed.

Lemma ip4_bytes_range v : 0 <= v <= UINT_MAX -> Forall (fun b => 0 <= b <= 255) (ip4_bytes v).
Proof. unfold UINT_MAX. intros H. unfold ip4_bytes. repeat apply Forall_cons_2; try apply Forall_nil_2; dlia. Qed.

Lemma dec_byte b : 0 <= b <= 255 -> Forall (fun c => 48 <= c <= 57) (dec b) /\ 1 <= zlen (dec b) <= 3 /\ (deref (dec b) = 48 -> dec b = [48]) /\ ip4_number (dec b) b.
Proof.
  intros Hb. destruct (dec_chars b) as (Hd & Hv & Hn); [unfold UINT32_MAX; lia|].
  pose (P := fun b => (1 <=? zlen (dec b)) && (zlen (dec b) <=? 3) && (negb (deref (dec b) =? 48) || bool_decide (dec b = [48]))).
  assert (Hp : P b = true) by (apply byte_forall; [by vm_compute|unfold is_byte; lia]). unfold P in Hp. clear P.
  apply andb_prop in Hp as [Hp H3]. zb_hyps. assert (H48 : deref (dec b) = 48 -> dec b = [48]).
  { intros E. rewrite E in H3. cbn [Z.eqb Pos.eqb negb orb] in H3. change (48 =? 48) with true in H3. cbn [negb orb] in H3. by apply bool_decide_eq_true in H3. }
  split; [done|]. split; [lia|]. split; [done|]. destruct (decide (deref (dec b) = 48)) as [E|E].
  - rewrite <- Hv at 2. rewrite (H48 E). apply (Num_oct []). constructor.
  - rewrite <- Hv at 2. apply Num_dec; [done|done|]. eapply Forall_impl; [exact Hd|]. intros c Hc. by apply valid_dec_char.
Qed.

(** What is printed is read as the same address. *)
Lemma ip4_print_host v : 0 <= v <= UINT_MAX -> ip4_host (ip4_print v) v.
Proof.
  intros Hv. pose proof (ip4_bytes_range v Hv) as Hb. exists (ip4_bytes v). unfold UINT_MAX in *. split.
  - unfold ip4_print, ip4_bytes in *. set (a := v / 16777216) in *. set (b := v / 65536 mod 256) in *. set (c := v / 256 mod 256) in *. set (d := v mod 256) in *.
    clearbody a b c d. repeat match goal with H : Forall _ (_ :: _) |- _ => apply Forall_cons in H as [? H] end.
    assert (Hn : forall x, 0 <= x <= 255 -> ip4_number (dec x) x) by (intros x Hx; by apply dec_byte).
    cbn [dotted map concat]. rewrite app_nil_r. cbn [app]. apply Parts_more; [auto|unfold UINT_MAX; lia|]. apply Parts_more; [auto|unfold UINT_MAX; lia|].
    apply Parts_more; [auto|unfold UINT_MAX; lia|]. apply Parts_one; [auto|unfold UINT_MAX; lia].
  - unfold ip4_bytes in *. repeat match goal with H : Forall _ (_ :: _) |- _ => apply Forall_cons in H as [? H] end. cbn [ip4_value].
    rewrite !(proj2 (Z.leb_le _ 255)) by lia. cbn [andb]. f_equal. dlia.
Qed.

Lemma ip4_print_text v : 0 <= v <= UINT_MAX -> Forall (fun c => 46 <= c <= 57 /\ c <> 47) (ip4_print v) /\ 7 <= zlen (ip4_print v) <= 15.
Proof.
  intros Hv. pose proof (ip4_bytes_range v Hv) as Hb. unfold ip4_print, ip4_bytes in *.
  repeat match goal with H : Forall _ (_ :: _) |- _ => apply Forall_cons in H as [? H] end.
  assert (Hd : forall x, 0 <= x <= 255 -> Forall (fun c => 46 <= c <= 57 /\ c <> 47) (dec x) /\ 1 <= zlen (dec x) <= 3).
  { intros x Hx. destruct (dec_byte x Hx) as (G1 & G2 & _). split; [|done]. eapply Forall_impl; [exact G1|]. intros; cbv beta in *; lia. }
  cbn [dotted map concat]. rewrite app_nil_r. cbn [app].
  rewrite zlen_app, zlen_cons, zlen_app, zlen_cons, zlen_app, zlen_cons. split; [|destruct (Hd (v / 16777216)), (Hd (v / 65536 mod 256)), (Hd (v / 256 mod 256)), (Hd (v mod 256)); lia].
  repeat first [apply Forall_app; split; [by apply Hd|]|apply Forall_cons_2; [lia|]]. by apply Hd.
Qed.

Definition quad_items (l : list Z) : list item :=
  match l with [a; b; c; d] => [It_uint a; It_lit (str "."); It_uint b; It_lit (str "."); It_uint c; It_lit (str "."); It_uint d] | _ => [] end.

Section Urlapi.

Context (c_snprintf : list Z -> spec_float -> list Z).

(** The buffer ends up with a text. *)
Definition holds (b : dynbuf) (c : list Z) : Prop := dyn_rep b c /\ bufr b <> None /\ Forall is_char c.

Lemma holds_held b c : holds b c -> held b = Some c.
Proof. intros (H1 & H2 & H3). by apply held_rep. Qed.

Lemma normalize_spec host c o : holds host c -> toobig host = CURL_MAX_INPUT_LENGTH ->
  exists t host' o', ipv4_normalize c_snprintf host o = Some (inr (t, host'), o') /\ (false ∈ o' -> false ∈ o) /\
    if deref c =? 91 then t = HOST_IPV6 /\ host' = host
    else match numeric c with
         | Some v => t = HOST_IPV4 /\ holds host' (ip4_print v) \/ t = HOST_ERROR /\ false ∈ o
         | None => t = HOST_NAME /\ host' = host
         end.
Proof.
  intros Hh Hb. unfold ipv4_normalize. rewrite (E_bind_inr _ _ o c o) by (unfold defined; by rewrite (holds_held _ _ Hh)).
  destruct Hh as (Hr & Hn & Hc). destruct (deref c =? 91); [by exists HOST_IPV6, host, o|].
  unfold numeric. destruct (ipv4_loop_spec c Hc) as (r & Er & Hp). rewrite Er. erewrite (E_bind_inr _ _ o r o) by done.
  cbn [mbind option_bind]. destruct r as [parts|]; [|by exists HOST_NAME, host, o]. cbn [mbind option_bind].
  pose proof (proj1 (Hp parts) eq_refl) as [Hpp _]. pose proof (ip4_parts_range _ _ Hpp) as Hrange. rewrite (quad_value parts Hrange).
  destruct (ip4_value parts) as [v|] eqn:Ev; [|by exists HOST_NAME, host, o]. cbn [fmap option_fmap option_map].
  pose proof (ip4_value_range _ _ Hrange Ev) as Hv. destruct (dyn_reset_rep host c Hr) as (h1 & E1 & Hr1 & Ht1 & _).
  rewrite (E_bind_inr _ _ o h1 o) by (unfold defined; by rewrite E1).
  pose proof (ip4_bytes_range v Hv) as Hbytes. pose proof (ip4_print_text v Hv) as [Hpt Hpl].
  assert (Hit : items_text (quad_items (ip4_bytes v)) = ip4_print v).
  { unfold items_text, quad_items, ip4_print, ip4_bytes. cbn [map concat item_text dotted]. reflexivity. }
  assert (Hok : Forall item_ok (quad_items (ip4_bytes v))).
  { unfold quad_items, ip4_bytes in *. repeat match goal with H : Forall _ (_ :: _) |- _ => apply Forall_cons in H as [? H] end.
    repeat apply Forall_cons_2; try apply Forall_nil_2; cbn [item_ok]; try (unfold UINT32_MAX; lia); by_compute. }
  assert (Hd : toobig h1 <= INT_MAX) by (rewrite Ht1, Hb; unfold CURL_MAX_INPUT_LENGTH, INT_MAX; lia).
  destruct (addf_spec c_snprintf (quad_items (ip4_bytes v)) h1 [] o Hok) as (h2 & rc & o2 & E2 & Ho2 & H2); [by split; [|cbn; lia]| |done|done|].
  { rewrite Hit. intros E. rewrite E in Hpl. change (7 <= 0 <= 15) in Hpl. lia. }
  change (items_format _) with (str "%u.%u.%u.%u") in E2. change (items_args _) with (A_uint <$> ip4_bytes v) in E2.
  rewrite (E_bind_inr _ _ o (h2, rc) o2) by done. rewrite Hit in H2. cbn [app] in H2.
  destruct H2 as [(-> & H3 & H4)|(H3 & H4)].
  - exists HOST_IPV4, h2, o2. split; [done|]. split; [done|]. left. split; [done|]. split; [done|]. split; [done|].
    eapply Forall_impl; [exact Hpt|]. unfold is_char. intros; cbv beta in *; lia.
  - rewrite (proj2 (is_ok_false rc)) by done. exists HOST_ERROR, h2, o2. split; [done|]. split; [done|]. right. split; [done|].
    destruct H4 as [H4|H4]; [done|]. rewrite Ht1, Hb in H4. unfold CURL_MAX_INPUT_LENGTH in H4. rewrite zlen_nil in H4. lia.
Qed.

(** C37: the normaliser of hosts.  A host of one to four numbers, decimal, octal
    or hexadecimal, that stands for an IPv4 address is replaced by the
    four bytes of the address in decimal, every other host is left as it is;
    the bytes in decimal are again a host for the same address. *)
Theorem ipv4_normalize_correct host c o : dyn_rep host c -> bufr host <> None -> Forall is_char c -> toobig host = CURL_MAX_INPUT_LENGTH -> deref c <> 91 ->
  exists t host' o', ipv4_normalize c_snprintf host o = Some (inr (t, host'), o') /\
    (t = HOST_IPV4 /\ (exists v, ip4_host c v /\ ip4_host (ip4_print v) v /\ dyn_rep host' (ip4_print v)) \/
     t = HOST_NAME /\ host' = host /\ (forall v, ~ ip4_host c v) \/
     t = HOST_ERROR /\ false ∈ o).
Proof.
  intros Hr Hn Hc Hb Hd. destruct (normalize_spec host c o (conj Hr (conj Hn Hc)) Hb) as (t & h & o' & E & _ & H).
  exists t, h, o'. split; [done|]. rewrite (proj2 (Z.eqb_neq (deref c) 91) Hd) in H. destruct (numeric c) as [v|] eqn:Ev.
  - apply numeric_spec in Ev; [|done]. destruct H as [[-> Hh]|H]; [|by auto]. left. split; [done|]. exists v. split; [done|].
    split; [|apply Hh]. apply ip4_print_host. by apply (ip4_host_range c).
  - right. left. destruct H as [-> ->]. split; [done|]. split; [done|]. intros v Hv. apply numeric_spec in Hv; [|done]. congruence.
Qed.

End Urlapi.

Definition host_example : dynbuf := mk_dynbuf (Some (map Some (str "0x7f.1") ++ [Some 0])) 6 7 CURL_MAX_INPUT_LENGTH.

Lemma ipv4_normalize_correct_witness :
  exists host' o', ipv4_normalize (fun _ _ => []) host_example [] = Some (inr (HOST_IPV4, host'), o') /\ dyn_rep host' (str "127.0.0.1").
Proof.
  assert (Hc : Forall is_char (str "0x7f.1")) by by_compute.
  destruct (ipv4_normalize_correct (fun _ _ => []) host_example (str "0x7f.1") []) as (t & h & o & E & H); [|done|done|done|done|].
  - split; [done|]. split; [by vm_compute|]. split; [done|]. split; [by vm_compute|]. by exists [].
  - assert (Hv : ip4_host (str "0x7f.1") 2130706433) by (apply (numeric_spec _ _ Hc); by vm_compute).
    destruct H as [(-> & v & Hv' & _ & Hr)|[(_ & _ & H)|[_ H]]].
    + exists h, o. split; [exact E|]. apply (numeric_spec _ _ Hc) in Hv. apply (numeric_spec _ _ Hc) in Hv'. rewrite Hv in Hv'. injection Hv' as <-.
      replace (str "127.0.0.1") with (ip4_print 2130706433) by by_compute. exact Hr.
    + destruct (H _ Hv).
    + apply elem_of_nil in H as [].
Defined.
