(* ===== verification/UrlRef.v ===== *)
(** The URL parser as functions on texts: no buffers, no memory, no C strings
    that are cut in place.

    This is what lib/urlapi.c promises: the parts of a URL, checked and
    normalised, or the reason why it is not one.  The monad [P] is a handle that
    is changed and a failure that leaves it as it is then. *)

From Stdlib Require Import ZArith Lia List String.
From stdpp Require Import base numbers option list.
From S2P Require Import Prelude Dynbuf Strparse Strcase Escape InetAddr Mprintf PrintfFormat Protocol Urlapi UrlParse UrlPath UrlSet UrlDots UrlHost.
Close Scope nat_scope.
Open Scope Z_scope.

Definition P (A : Type) : Type := Curl_URL -> (CURLUcode + A) * Curl_URL.

#[global] Instance P_ret : MRet P := fun A a u => (inr a, u).
#[global] Instance P_bind : MBind P := fun A B f m u =>
  match m u with (inr a, u) => f a u | (inl e, u) => (inl e, u) end.

Definition plift {A} (x : CURLUcode + A) : P A := fun u => (x, u).
Definition pfail {A} (e : CURLUcode) : P A := plift (inl e).
Definition pget : P Curl_URL := fun u => (inr u, u).
Definition pmod (f : Curl_URL -> Curl_URL) : P unit := fun u => (inr tt, f u).

(** * Encoding *)

Fixpoint enc_text (s : list Z) (query : query_mode) : list Z :=
  match s with
  | [] => []
  | c :: s =>
      let plain := c :: enc_text s (if c =? 63 then match query with QUERY_NOT_YET => QUERY_YES | q => q end else query) in
      if c =? 32 then (match query with QUERY_YES => str "+" | _ => str "%20" end) ++ enc_text s query
      else if (c <? 32) || (c >=? 127) then 37 :: Curl_hexbyte c ++ enc_text s query
      else match s with
           | a :: b :: s =>
               if (c =? 37) && ISXDIGIT a && ISXDIGIT b && (ISLOWER a || ISLOWER b)
               then 37 :: Curl_hexbyte (hexdig a * 16 + hexdig b) ++ enc_text s query
               else plain
           | _ => plain
           end
  end.

(** * Authority *)

(** The user, the password and the options in front of the at sign. *)
Definition ref_login (login : list Z) (options : bool) : list Z * option (list Z) * option (list Z) :=
  let psep := memchr login 58 in
  let osep := if options then memchr login 59 else None in
  let '(ulen, plen, olen) := login_lengths (zlen login) psep osep in
  (ztake ulen login,
   (fun p => slice login (p + 1) plen) <$> psep,
   q ← osep; if olen =? 0 then None else Some (slice login (q + 1) olen)).

Definition clear_login (u : Curl_URL) : Curl_URL := set_user None (set_password None (set_options None u)).

Definition takes_options (scheme : option (list Z)) : bool :=
  match (s ← scheme; h ← Curl_get_scheme s; h) with Some h => has (sc_flags h) PROTOPT_URLOPTIONS | None => false end.

(** What follows the login details. *)
Definition ref_hostname_login (auth : list Z) (flags : Z) : P (list Z) :=
  match memchr auth 64 with
  | None => pmod clear_login;; mret auth
  | Some i =>
      u ← pget;
      let '(user, password, options) := ref_login (ztake i auth) (takes_options (u_scheme u)) in
      if has flags CURLU_DISALLOW_USER then pmod clear_login;; pfail CURLUE_USER_NOT_ALLOWED
      else
        pmod (set_user (Some user));;
        pmod (match password with Some p => set_password (Some p) | None => id end);;
        pmod (match options with Some p => set_options (Some p) | None => id end);;
        mret (zdrop (i + 1) auth)
  end.

(** The port of at most 65535 that a text is. *)
Definition port_number (t : list Z) : option Z :=
  match digit_span 57 t with
  | ([], _) => None
  | (ds, []) => if digits_value 10 0 ds <=? 65535 then Some (digits_value 10 0 ds) else None
  | _ => None
  end.

(** The host in front of the port. *)
Definition ref_port (host : list Z) (has_scheme : bool) : P (list Z) :=
  pmod (set_port 0 false);;
  match find_port host with
  | inl e => pfail e
  | inr None => mret host
  | inr (Some portptr) =>
      let name := ztake (zlen host - zlen portptr) host in
      match drop 1 portptr with
      | [] => if has_scheme then mret name else pfail CURLUE_BAD_PORT_NUMBER
      | t => match port_number t with
             | Some port => pmod (set_port port true);; mret name
             | None => pfail CURLUE_BAD_PORT_NUMBER
             end
      end
  end.

Definition ref_decode (host : list Z) : CURLUcode + list Z :=
  match strchr host 37 with
  | None => inr host
  | Some _ => if existsb (rejected REJECT_CTRL) (pct_decode host) then inl CURLUE_BAD_HOSTNAME else inr (pct_decode host)
  end.

(** The 16 bytes of an IPv6 address. *)
Definition ip6_read (a : list Z) : option (list Z) :=
  '(m, rc, _) ← curlx_inet_pton AF_INET6 a (uninit 16);
  if rc =? 1 then mem_read m 0 16 else None.

(** In brackets and in the usual form, unless that is longer. *)
Definition ref_addr (a : list Z) : CURLUcode + list Z :=
  match ip6_read a with
  | None => inl CURLUE_BAD_IPV6
  | Some b => inr (91 :: (if zlen (rfc5952 b) <=? zlen a then rfc5952 b else a) ++ [93])
  end.

(** A bracketed host: the zone and the address. *)
Definition ref_ip6 (host : list Z) : P (list Z) :=
  if zlen host <? 4 then pfail CURLUE_BAD_IPV6
  else
    let t := drop 1 host in
    let len := strspn t IPV6_LETTERS in
    if zlen host - 2 =? len then plift (ref_addr (ztake len t))
    else if at_ t (Z.to_nat len) =? 37 then
      match ipv6_zone t len with
      | None => pfail CURLUE_BAD_IPV6
      | Some zone => pmod (set_zoneid (Some zone));; plift (ref_addr (ztake len t))
      end
    else pfail CURLUE_BAD_IPV6.

Definition name_ok (host : list Z) : bool :=
  forallb (fun c => negb (existsb (Z.eqb c) HOSTNAME_INVALID_CHARS)) host &&
  negb (bool_decide (host = [46])) &&
  negb ((zlen host >=? 2) && bool_decide (zdrop (zlen host - 2) host = [46; 46])).

Definition ref_check (host : list Z) : P (list Z) :=
  match host with
  | [] => pfail CURLUE_NO_HOST
  | c :: _ => if c =? 91 then ref_ip6 host else if name_ok host then mret host else pfail CURLUE_BAD_HOSTNAME
  end.

(** The host, whatever kind it is. *)
Definition ref_host (host : list Z) : P (list Z) :=
  if deref host =? 91 then ref_ip6 host
  else match numeric host with
       | Some v => mret (ip4_print v)
       | None => ref_check host
       end.

Definition ref_authority (auth : list Z) (flags : Z) (has_scheme : bool) : P (list Z) :=
  t ← ref_hostname_login auth flags;
  t ← ref_port t has_scheme;
  match t with
  | [] => pfail CURLUE_NO_HOST
  | _ => t ← plift (ref_decode t); ref_host t
  end.

(** * Scheme and path *)

Definition ref_file (url : list Z) : P (list Z) :=
  if zlen url <=? 6 then pfail CURLUE_BAD_FILE_URL
  else
    let path := drop 5 url in
    if negb (deref path =? 47) then pfail CURLUE_BAD_FILE_URL
    else
      path ← (if at_ path 1 =? 47 then
                let p := drop 2 path in
                if negb (deref p =? 47) && negb (STARTS_WITH_URL_DRIVE_PREFIX p) then
                  if checkprefix (str "localhost/") p || checkprefix (str "127.0.0.1/") p then mret (drop 9 p)
                  else pfail CURLUE_BAD_FILE_URL
                else mret p
              else mret path);
      if ((deref path =? 47) && STARTS_WITH_URL_DRIVE_PREFIX (drop 1 path)) || STARTS_WITH_URL_DRIVE_PREFIX path
      then pfail CURLUE_BAD_FILE_URL
      else pmod (set_scheme (Some (str "file")));; mret path.

Definition ref_scheme (url scheme : list Z) (flags : Z) : P (list Z) :=
  match scheme with
  | [] =>
      if negb (has flags (Z.lor CURLU_DEFAULT_SCHEME CURLU_GUESS_SCHEME)) then pfail CURLUE_BAD_SCHEME
      else (if has flags CURLU_DEFAULT_SCHEME then pmod (set_scheme (Some DEFAULT_SCHEME)) else mret tt);; mret url
  | _ =>
      let '(i, p) := skip_slashes 4 (zdrop (zlen scheme + 1) url) in
      if match Curl_get_scheme scheme with Some (Some _) => false | _ => negb (has flags CURLU_NON_SUPPORT_SCHEME) end
      then pfail CURLUE_UNSUPPORTED_SCHEME
      else if (i <? 1) || (i >? 3) then pfail CURLUE_BAD_SLASHES
      else pmod (set_scheme (Some scheme));; mret p
  end.

Definition ref_guess (host : list Z) (flags : Z) : P unit :=
  u ← pget;
  if has flags CURLU_GUESS_SCHEME && negb (given (u_scheme u))
  then pmod (fun u => set_guessed_scheme true (set_scheme (Some (guessed host)) u))
  else mret tt.

Definition ref_host_part (auth : list Z) (flags : Z) : P (list Z) :=
  match auth with
  | [] => if has flags CURLU_NO_AUTHORITY then mret [] else pfail CURLUE_NO_HOST
  | _ =>
      u ← pget;
      host ← ref_authority auth flags (given (u_scheme u));
      ref_guess host flags;;
      mret host
  end.

(** The dot segments of a path are removed. *)
Definition ref_dedot (path : list Z) : list Z := path_of (remove_dots [] (segments path)).

(** The path that is stored. *)
Definition ref_path (path : list Z) (flags : Z) (is_file : bool) : option (list Z) :=
  let enc := has flags CURLU_URLENCODE && negb (zlen path =? 0) in
  let p := if enc then enc_text path QUERY_NO else path in
  if zlen p >=? 1 + (if is_file then 0 else 1) then
    Some (if has flags CURLU_PATH_AS_IS || (zlen p <? 2) then p else ref_dedot p)
  else if enc then Some p else None.

(** The text in front of a character and, if it is there, what follows it. *)
Fixpoint cut_at (c : Z) (s : list Z) : list Z * option (list Z) :=
  match s with
  | [] => ([], None)
  | x :: s => if x =? c then ([], Some s) else let '(a, b) := cut_at c s in (x :: a, b)
  end.

Definition ref_fragment (fragment : option (list Z)) (flags : Z) : Curl_URL -> Curl_URL :=
  match fragment with
  | None => id
  | Some [] => set_fragment_present true
  | Some f => fun u => set_fragment (Some (if has flags CURLU_URLENCODE then enc_text f QUERY_NO else f)) (set_fragment_present true u)
  end.

Definition ref_query (query : option (list Z)) (flags : Z) : Curl_URL -> Curl_URL :=
  match query with
  | None => id
  | Some q => fun u => set_query (Some (if has flags CURLU_URLENCODE then enc_text q QUERY_YES else q)) (set_query_present true u)
  end.

(** * A whole URL *)

Definition ref_junk (url : list Z) (allowspace : bool) : CURLUcode + unit :=
  if (zlen url >? CURL_MAX_INPUT_LENGTH) || junk (if allowspace then 31 else 32) url then inl CURLUE_MALFORMED_INPUT else inr tt.

Definition ref_parse (url : list Z) (flags : Z) : P unit :=
  plift (ref_junk url (has flags CURLU_ALLOW_SPACE));;
  let '(_, scheme) := Curl_is_absolute_url url (has flags (Z.lor CURLU_GUESS_SCHEME CURLU_DEFAULT_SCHEME)) in
  let is_file := bool_decide (scheme = str "file") in
  '(rest, host) ←
    (if is_file then p ← ref_file url; mret (p, None)
     else
       hostp ← ref_scheme url scheme flags;
       let n := strcspn hostp (str "/?#") in
       host ← ref_host_part (ztake n hostp) flags;
       mret (zdrop n hostp, Some host));
  let '(rest, fragment) := cut_at 35 rest in
  let '(path, query) := cut_at 63 rest in
  pmod (ref_fragment fragment flags);;
  pmod (ref_query query flags);;
  pmod (match ref_path path flags is_file with Some p => set_path (Some p) | None => id end);;
  pmod (set_host host).
