(* ===== verification/UrlRefine.v ===== *)
(** The parser of URLs against the functions of UrlRef.v: authorities.

    [refu u R m p]: on the handle [u] the function [m] returns whatever
    allocations fail, and it does what [p] says, with results related by [R],
    unless memory is short. *)

From Stdlib Require Import ZArith Lia List String SpecFloat.
From stdpp Require Import base numbers option list.
From S2P Require Import Prelude Dynbuf Strparse Strcase Escape InetAddr Mprintf Protocol Urlapi UrlParse UrlPath UrlSet UrlRules UrlDots UrlPrint UrlHost UrlRef.
Close Scope nat_scope.
Open Scope Z_scope.

(** * Rules *)

Definition agree {A B} (R : A -> B -> Prop) (x : CURLUcode + A) (y : CURLUcode + B) : Prop :=
  match x, y with
  | inr a, inr b => R a b
  | inl e, inl e' => e = e'
  | _, _ => False
  end.

(** What is kept even when memory is short, up to the path: the scheme is a C
    string and there is no path. *)
Definition fresh_ok (u : Curl_URL) : Prop := match u_scheme u with Some s => Forall is_char s | None => True end /\ u_path u = None.

Section Rules.

Context {K : Prop}.

Definition refu {A B} (u : Curl_URL) (R : A -> B -> Prop) (m : U A) (p : P B) : Prop :=
  uwp mem_failure K fresh_ok m u (fun x u' => exists y, p u = (y, u') /\ agree R x y /\ fresh_ok u').

Lemma refu_ret {A B} u (R : A -> B -> Prop) a b : fresh_ok u -> R a b -> refu u R (mret a) (mret b).
Proof. intros Hu H. apply uwp_ret. by exists (inr b). Qed.

Lemma refu_fails {A B} u (R : A -> B -> Prop) e : fresh_ok u -> refu u R (fails e) (pfail e).
Proof. intros Hu. apply uwp_fails. by exists (inl e). Qed.

Lemma refu_bind {A B A' B'} u (R : A -> A' -> Prop) (R' : B -> B' -> Prop) (m : U A) p (f : A -> U B) (g : A' -> P B') :
  refu u R m p -> (forall a b u', R a b -> fresh_ok u' -> p u = (inr b, u') -> refu u' R' (f a) (g b)) -> refu u R' (m ≫= f) (p ≫= g).
Proof.
  intros Hm Hf. eapply uwp_bind; [exact Hm| |].
  - intros a u' (y & E & Ha & Hu). destruct y as [e|b]; [done|]. eapply uwp_mono; [by apply (Hf a b u')|].
    intros x u2 (y & E2 & H). exists y. split; [|done]. unfold mbind, P_bind. by rewrite E.
  - intros e u' (y & E & Ha & Hu). destruct y as [e'|b]; [|done]. cbn in Ha. subst e'. exists (inl e). split; [|done]. unfold mbind, P_bind. by rewrite E.
Qed.

Lemma refu_getu {A B} u (R : A -> B -> Prop) (f : Curl_URL -> U A) (g : Curl_URL -> P B) :
  refu u R (f u) (g u) -> refu u R (getu ≫= f) (pget ≫= g).
Proof. done. Qed.

Lemma refu_modu {A B} u (R : A -> B -> Prop) h (m : U A) (p : P B) : refu (h u) R m p -> refu u R (modu h;; m) (pmod h;; p).
Proof. done. Qed.

Lemma refu_modu_end u h : fresh_ok (h u) -> refu u eq (modu h) (pmod h).
Proof. intros H. apply uwp_modu_end. by exists (inr tt). Qed.

Lemma refu_lift {A B} u (R : A -> B -> Prop) (m : E A) y : fresh_ok u -> ewp mem_failure K m (fun x => agree R x y) -> refu u R (lift m) (plift y).
Proof. intros Hu H. eapply uwp_lift; [exact H|done|]. intros x Hx. by exists y. Qed.

(** An allocation that the functions on texts do not have. *)
Lemma refu_lift_bind {A B C} u (R : B -> C -> Prop) (m : E A) a (f : A -> U B) (p : P C) :
  fresh_ok u -> ewp mem_failure K m (fun x => x = inr a) -> refu u R (f a) p -> refu u R (lift m ≫= f) p.
Proof. intros Hu H Hf. eapply uwp_lift_bind; [exact H|done| |done]. by intros ? [= ->]. Qed.

Lemma refu_mono {A B} u (R R' : A -> B -> Prop) (m : U A) (p : P B) : refu u R m p -> (forall a b, R a b -> R' a b) -> refu u R' m p.
Proof.
  intros H HR. eapply uwp_mono; [exact H|]. intros x u' (y & E & Ha & Hu). exists y. split; [done|]. split; [|done].
  destruct x, y; cbn in *; auto.
Qed.

(** A step that only computes. *)
Lemma refu_step {A B C} u (R : B -> C -> Prop) (m : U A) a (f : A -> U B) (p : P C) :
  (forall o, m u o = Some (inr a, u, o)) -> refu u R (f a) p -> refu u R (m ≫= f) p.
Proof. intros E H o. destruct (H o) as (x & u2 & o' & E2 & Hx). exists x, u2, o'. split; [|done]. unfold mbind, U_bind. by rewrite E. Qed.

Lemma refu_defined {A B C} u (R : B -> C -> Prop) (x : option A) a (f : A -> U B) (p : P C) :
  x = Some a -> refu u R (f a) p -> refu u R (lift (defined x) ≫= f) p.
Proof. intros ->. by apply refu_step. Qed.

Lemma refu_fails_bind {A B C} u (R : B -> C -> Prop) e (f : A -> U B) : fresh_ok u -> refu u R (fails e ≫= f) (pfail e).
Proof. apply refu_fails. Qed.

(** A function that reports a lack of memory in its result. *)
Lemma refu_lift_raw {A B C} u (R : B -> C -> Prop) (m : E A) (f : A -> U B) (p : P C) : fresh_ok u ->
  (forall o, exists a o', m o = Some (inr a, o') /\ (false ∈ o' -> false ∈ o) /\
     (refu u R (f a) p \/ false ∈ o /\ f a = fails CURLUE_OUT_OF_MEMORY)) ->
  refu u R (lift m ≫= f) p.
Proof.
  intros Hu H. apply uwp_lift_raw; [done|]. intros o. destruct (H o) as (a & o1 & E & Ho & Hf). exists a, o1. split; [done|]. split; [done|].
  destruct Hf as [Hf|[Hs E2]]; [by left|]. right. split; [done|]. exists CURLUE_OUT_OF_MEMORY. split; [by left|done].
Qed.

End Rules.

(** * Strings *)

Lemma memchr_range s c i : memchr s c = Some i -> 0 <= i < zlen s.
Proof.
  unfold memchr, pos_of. revert i. induction s as [|x s IH]; intros i; cbn [strchr]; [done|]. rewrite zlen_cons. pose proof (zlen_nonneg s). case_if.
  - intros [= <-]. rewrite zlen_cons. lia.
  - destruct (strchr s c) as [r|]; [|done]. cbn. intros [= <-]. specialize (IH _ eq_refl). lia.
Qed.

Lemma strchr_memchr s c : match strchr s c with Some r => memchr s c = Some (zlen s - zlen r) /\ r = zdrop (zlen s - zlen r) s | None => memchr s c = None end.
Proof.
  unfold memchr, pos_of. destruct (strchr s c) as [r|] eqn:E; [|done]. split; [done|]. revert E. induction s as [|x s IH]; cbn [strchr]; [done|]. case_if.
  - intros [= <-]. by rewrite Z.sub_diag, zdrop_0.
  - intros E1. specialize (IH E1). assert (Hl : zlen r <= zlen s).
    { pose proof (memchr_range s c (zlen s - zlen r)) as Hm. unfold memchr, pos_of in Hm. rewrite E1 in Hm. specialize (Hm eq_refl). lia. }
    rewrite zlen_cons. unfold zdrop in *. replace (Z.to_nat (1 + zlen s - zlen r)) with (S (Z.to_nat (zlen s - zlen r))) by lia. exact IH.
Qed.

Lemma chars_bytes s : Forall is_char s -> bytes_ok s.
Proof. intros H. eapply Forall_impl; [exact H|]. unfold is_char, is_byte. intros; cbv beta in *; lia. Qed.

Lemma get_scheme_chars s : Forall is_char s -> exists r, Curl_get_scheme s = Some r.
Proof.
  intros H. destruct (get_scheme_spec s) as (r & E & _); [by apply chars_bytes|by apply char_nonzero|]. by exists r.
Qed.

(** * Login details *)

Section Auth.

Context {K : Prop} (c_snprintf : list Z -> spec_float -> list Z).

Lemma login_details_spec login i options : 0 <= i <= zlen login ->
  ewp mem_failure K (Curl_parse_login_details login i options) (fun x => x = inr (ref_login (ztake i login) options)).
Proof.
  intros Hi. unfold Curl_parse_login_details, ref_login. rewrite zlen_ztake, Z.min_l by lia.
  set (psep := memchr (ztake i login) 58). set (osep := if options then _ else _).
  destruct (login_lengths i psep osep) as [[ulen plen] olen].
  eapply ewp_bind_inr; [by apply ewp_dup|]. eapply (ewp_bind_inr _ _ ((fun p => slice (ztake i login) (p + 1) plen) <$> psep)).
  { destruct psep as [p|]; [|by apply ewp_ret]. eapply ewp_bind_inr; [by apply ewp_dup|]. by apply ewp_ret. }
  eapply (ewp_bind_inr _ _ (q ← osep; if olen =? 0 then None else Some (slice (ztake i login) (q + 1) olen))); [|by apply ewp_ret].
  destruct osep as [q|]; [|by apply ewp_ret]. cbn [mbind option_bind]. destruct (olen =? 0); cbn [negb]; [by apply ewp_ret|].
  eapply ewp_bind_inr; [by apply ewp_dup|]. by apply ewp_ret.
Qed.

(** The text behind the login details. *)
Definition behind (login : list Z) (len off : Z) (t : list Z) : Prop := 0 <= off <= len /\ t = slice login off (len - off).

Lemma hostname_login_refines u login len flags : fresh_ok u -> 0 <= len <= zlen login ->
  refu (K := K) u (behind login len) (parse_hostname_login login len flags) (ref_hostname_login (ztake len login) flags).
Proof.
  intros Hu Hl. unfold parse_hostname_login, ref_hostname_login. destruct (memchr _ 64) as [i|] eqn:E.
  2: { unfold login_out. apply refu_modu. apply refu_ret; [by destruct u|]. split; [lia|]. unfold slice. by rewrite zdrop_0, Z.sub_0_r. }
  apply memchr_range in E. rewrite zlen_ztake, Z.min_l in E by lia. apply refu_getu. rewrite ztake_ztake by lia.
  assert (Hh : exists h, takes_options (u_scheme u) = match h with Some h => has (sc_flags h) PROTOPT_URLOPTIONS | None => false end /\
    forall o, (match u_scheme u with Some s => lift (defined (Curl_get_scheme s)) | None => mret None end : U (option Curl_scheme)) u o = Some (inr h, u, o)).
  { destruct Hu as [Hu _]. unfold takes_options. destruct (u_scheme u) as [s|]; [|by exists None]. destruct (get_scheme_chars s Hu) as (h & Eh). exists h. cbn [mbind option_bind]. rewrite Eh. by destruct h. }
  destruct Hh as (h & Et & Eh). eapply refu_step; [exact Eh|]. cbv zeta. rewrite <- Et. clear h Et Eh. set (opts := takes_options _).
  destruct (ref_login _ opts) as [[user password] options] eqn:El.
  eapply uwp_try; [apply login_details_spec; lia| |].
  - intros x ->. rewrite El. destruct (has flags CURLU_DISALLOW_USER).
    + unfold login_out. apply refu_modu. apply refu_fails. by destruct u.
    + do 3 apply refu_modu. apply refu_ret; [destruct password, options; by destruct u|]. split; [lia|].
      unfold slice, ztake, zdrop. rewrite skipn_firstn_comm. f_equal. lia.
  - intros x o (e & -> & He). do 3 eexists. split; [done|]. split; [apply nomem_oom|]. by destruct u.
Qed.

(** * Port *)

(** The buffer of the host holds a text. *)
Definition hb (b : dynbuf) (t : list Z) : Prop := holds b t /\ toobig b = CURL_MAX_INPUT_LENGTH.

Lemma strchr_suffix s c r : strchr s c = Some r -> exists a, s = a ++ r /\ deref r = c /\ r <> [].
Proof.
  induction s as [|x s IH]; cbn [strchr]; [done|]. case_if; [intros [= <-]; by exists []|].
  intros H. destruct (IH H) as (a & -> & Hr). by exists (x :: a).
Qed.

Lemma find_port_suffix t p : find_port t = inr (Some p) -> exists a rest, t = a ++ p /\ p = 58 :: rest.
Proof.
  unfold find_port. case_if.
  - destruct (strchr t 93) as [r|] eqn:Er; [|done]. apply strchr_suffix in Er as (a & -> & Hd & Hn). destruct r as [|x r]; [done|]. cbn [deref drop] in *. rewrite drop_0. subst x.
    case_if; [|done]. case_if; [done|]. intros [= <-]. destruct r as [|x r]; [done|]. cbn [deref] in *.
    exists (a ++ [93]), r. rewrite <- app_assoc. split; [done|]. f_equal. destruct (Z.eqb_spec x 58); [done|]. by destruct E1.
  - intros [= E1]. apply strchr_suffix in E1 as (a & -> & Hd & Hn). destruct p as [|x rest]; [done|]. cbn in Hd. subst x. by exists a, rest.
Qed.

Lemma deref_chars t : Forall is_char t -> (deref t =? 0) = match t with [] => true | _ => false end.
Proof. intros H. destruct t as [|x t]; [done|]. apply Forall_cons in H as [H _]. cbn. apply Z.eqb_neq. unfold is_char in H. lia. Qed.

Lemma setlen_holds b a r : holds b (a ++ r) -> exists b' rc, curlx_dyn_setlen b (zlen a) = Some (b', rc) /\ holds b' a /\ toobig b' = toobig b.
Proof.
  intros (Hr & Hn & Hc). apply Forall_app in Hc as [Hc _]. destruct (dyn_setlen_rep b (a ++ r) (zlen a) Hr Hn) as (s & rc & E & H); [apply zlen_nonneg|].
  exists s, rc. split; [done|]. destruct H as [(_ & _ & H)|(Hl & _)]; [|rewrite zlen_app in Hl; pose proof (zlen_nonneg r); lia].
  rewrite ztake_app_exact in H. revert E. unfold curlx_dyn_setlen. destruct (bufr b) as [m|] eqn:Em; [|done]. case_if.
  - intros [= <- <-]. split; [|done]. split; [done|]. by rewrite Em.
  - cbn [mbind option_bind]. destruct (mem_write m _ _) as [m'|]; [|done]. cbn. intros [= <- <-]. by split.
Qed.

Lemma parse_port_refines u b t has_scheme : fresh_ok u -> hb b t -> refu (K := K) u hb (parse_port b has_scheme) (ref_port t has_scheme).
Proof.
  intros Hu [Hb Ht]. unfold parse_port, ref_port. eapply refu_defined; [by apply holds_held|]. apply refu_modu.
  assert (Hu' : forall n x, fresh_ok (set_port n x u)) by (intros; by destruct u). destruct (find_port t) as [e|[p|]] eqn:Ef; [by apply refu_fails| |by apply refu_ret].
  apply find_port_suffix in Ef as (a & rest & -> & ->). rewrite zlen_app, zlen_cons. replace (zlen a + (1 + zlen rest) - (1 + zlen rest)) with (zlen a) by lia.
  destruct (setlen_holds b a (58 :: rest) Hb) as (b' & rc & E & Hb' & Ht'). eapply refu_defined; [exact E|]. cbv beta iota. rewrite ztake_app_exact.
  cbn [drop]. rewrite drop_0. assert (Hr : hb b' a) by (split; [done|congruence]). clear E Hb' Ht' rc.
  destruct Hb as (_ & _ & Hc). apply Forall_app in Hc as [_ Hc]. apply Forall_cons in Hc as [_ Hc]. rewrite (deref_chars rest Hc). destruct rest as [|c rest].
  - destruct has_scheme; [by apply refu_ret|by apply refu_fails].
  - set (t := c :: rest) in *. pose proof (str_num_base_spec t 65535 10) as E. specialize (E ltac:(auto) ltac:(unfold CURL_OFF_T_MAX; lia)).
    change (str_num_base t 65535 10) with (curlx_str_number t 65535) in E.
    unfold port_number. change (max_digit 10) with 57 in E. destruct (digit_span 57 t) as [ds r] eqn:Ed. destruct ds as [|d ds].
    { eapply refu_defined; [exact E|]. cbv beta iota. by apply refu_fails. }
    assert (Hr0 : (deref r =? 0) = match r with [] => true | _ => false end).
    { apply deref_chars. apply (digit_span_inv 10) in Ed as [Ed _]. rewrite Ed in Hc. by apply Forall_app in Hc as [_ ?]. }
    destruct (_ <=? 65535); (eapply refu_defined; [exact E|]); cbv beta iota; [|destruct r; by apply refu_fails]. rewrite Hr0. destruct r; cbn [negb]; [|by apply refu_fails].
    apply refu_modu. apply refu_ret; [by destruct u|done].
Qed.

(** * Percent-encoded hosts *)

Lemma hexdig_range x : ISXDIGIT x = true -> 0 <= hexdig x < 16.
Proof. intros H. apply hexval_digit in H. lia. Qed.

Lemma pct_decode_bytes s : bytes_ok s -> bytes_ok (pct_decode s).
Proof.
  remember (length s) as n eqn:Hn. revert s Hn. induction n as [n IH] using lt_wf_ind. intros s Hn H.
  destruct s as [|c [|h [|l s]]]; [done|done|rewrite pct_decode_pair|rewrite pct_decode_triple].
  - repeat (apply Forall_cons in H as [? H]). by repeat apply Forall_cons_2.
  - cbn [length] in Hn. destruct (_ && _ && _) eqn:E.
    + apply andb_prop in E as [E El]. apply andb_prop in E as [_ Eh]. pose proof (hexdig_range h Eh). pose proof (hexdig_range l El).
      repeat (apply Forall_cons in H as [? H]). apply Forall_cons_2; [unfold is_byte; lia|]. by apply (IH (length s)); [lia| |].
    + apply Forall_cons in H as [? H]. apply Forall_cons_2; [done|]. by apply (IH (length (h :: l :: s))); [cbn [length]; lia| |].
Qed.

(** The decoder of texts, with any allocations. *)
Lemma E_urldecode_spec s length o : (if negb (length =? 0) then length else strlen s) = zlen s ->
  exists r o', E_urldecode s length o = Some (inr r, o') /\ (false ∈ o' -> false ∈ o) /\
    (r = None /\ false ∈ o \/
     if existsb (rejected REJECT_CTRL) (pct_decode s) then r = None
     else exists spare, r = Some (map Some (pct_decode s) ++ Some 0 :: spare, zlen (pct_decode s))).
Proof.
  intros Hl. pose proof (Curl_urldecode_spec s [] length REJECT_CTRL) as (spare & E); [by rewrite app_nil_r|]. rewrite app_nil_r in E.
  unfold E_urldecode, Curl_urldecode in *. destruct (next_alloc o) as [ok o'] eqn:Eo. apply next_alloc_fails in Eo as [H1 H2].
  cbn [next_alloc negb] in E. destruct ok; cbn [negb].
  2: { exists None, o'. split; [done|]. split; [done|]. left. auto. }
  destruct (urldecode_loop _ _ _ _ _ _) as [r|]; [|done]. cbn [mbind option_bind] in *. destruct r as [[m ns]|].
  - destruct (mem_write m ns [0]) as [m'|]; [|done]. cbn [mbind option_bind is_ok] in *. do 2 eexists. split; [reflexivity|]. split; [done|]. right.
    destruct (existsb _ _); [done|]. injection E as -> ->. by exists spare.
  - exists None, o'. split; [done|]. split; [done|]. right. destruct (existsb _ _); [done|]. done.
Qed.

Lemma decoded_chars s : bytes_ok s -> existsb (rejected REJECT_CTRL) (pct_decode s) = false -> Forall is_char (pct_decode s).
Proof.
  intros Hs. pose proof (pct_decode_bytes s Hs) as H. induction H as [|c t Hc _ IH]; [by constructor|]. cbn [existsb rejected]. intros E.
  apply orb_false_elim in E as [E1 E2]. zb_hyps. apply Forall_cons_2; [unfold is_char, is_byte in *; lia|]. auto.
Qed.

Lemma dyn_bound b t : dyn_rep b t -> zlen t < MAX_DYNBUF_SIZE.
Proof. intros H. pose proof (dyn_rep_lt _ _ H). destruct H as (_ & H & _). lia. Qed.

Lemma urldecode_host_spec b t : hb b t -> ewp mem_failure K (urldecode_host b) (fun x => agree hb x (ref_decode t)).
Proof.
  intros [Hb Ht]. unfold urldecode_host, ref_decode. eapply ewp_bind_inr; [eapply ewp_defined; [by apply holds_held|done]|].
  destruct (strchr t 37) as [p|]; [|by apply ewp_ret]. destruct Hb as (Hr & Hn & Hc). intros o.
  destruct (E_urldecode_spec t 0 o) as (r & o1 & E & Ho1 & H); [by apply strlen_nonzero, char_nonzero|].
  rewrite (E_bind_inr _ _ _ _ _ E). destruct H as [[-> Hf]|H].
  { do 2 eexists. split; [done|]. split; [|done]. right. split; [|by left]. eexists. split; [done|]. right. right. by left. }
  destruct (existsb _ _) eqn:Ex.
  { subst r. do 2 eexists. split; [done|]. split; [by left|done]. }
  destruct H as (spare & ->). pose proof (decoded_chars t (chars_bytes t Hc) Ex) as Hd. rewrite (E_bind_inr _ _ o1 (pct_decode t) o1) by (unfold defined; by rewrite mem_read_text).
  destruct (dyn_reset_rep b t Hr) as (b1 & Er & Hr1 & Ht1 & Hn1). rewrite (E_bind_inr _ _ o1 b1 o1) by (unfold defined; by rewrite Er).
  pose proof (pct_decode_length t) as Hl. pose proof (dyn_rep_lt _ _ Hr) as Hl2. pose proof (dyn_bound _ _ Hr).
  destruct (ewp_addn (F := mem_failure) (K := K) b1 [] (pct_decode t) (fun x => agree hb x (inr (pct_decode t))) Hr1) with (o := o1) as (x & o2 & E2 & H2 & Ho2).
  - lia.
  - intros _. rewrite Ht1. change (zlen []) with 0. lia.
  - intros s' Hs Hts Hns. cbn. split; [done|congruence].
  - exists x, o2. split; [done|]. split; [|auto]. destruct H2 as [H2|(H2 & [Hf|Hf])]; [by left|right; split; [done|left; auto]|right; split; [done|by right]].
Qed.

End Auth.
