(* ===== verification/UrlIp6.v ===== *)
(** The parser of URLs against the functions of UrlRef.v: bracketed IPv6
    addresses, which are rewritten in the memory of the buffer, and the whole
    authority. *)

From Stdlib Require Import ZArith Lia List String SpecFloat.
From stdpp Require Import base numbers option list.
From S2P Require Import Prelude Dynbuf Strparse Strcase Escape InetAddr Mprintf Protocol Urlapi UrlParse UrlPath UrlSet UrlRules UrlDots UrlPrint UrlHost UrlRef UrlRefine.
Close Scope nat_scope.
Open Scope Z_scope.

(** * The letters of addresses *)

Definition ip6_letter (c : Z) : bool := existsb (Z.eqb c) IPV6_LETTERS.

Lemma xdigit_letter c : ISXDIGIT c = true -> ip6_letter c = true.
Proof.
  intros H. pose proof (ISXDIGIT_byte c H) as Hb. pose (Q := fun c => implb (ISXDIGIT c) (ip6_letter c)).
  assert (HQ : Q c = true) by (apply byte_forall; [by vm_compute|done]). unfold Q in HQ. by rewrite H in HQ.
Qed.

Lemma letter_char c : ip6_letter c = true -> is_char c /\ c <> 37 /\ c <> 93 /\ c <> 64.
Proof.
  unfold ip6_letter. intros H. apply existsb_exists in H as (x & Hin & E). apply Z.eqb_eq in E. subst x. revert Hin.
  assert (HF : Forall (fun c => is_char c /\ c <> 37 /\ c <> 93 /\ c <> 64) IPV6_LETTERS).
  { by_compute. }
  intros Hin. rewrite Forall_forall in HF. apply HF. by apply list_elem_of_In.
Qed.

Lemma ip6_text_letters t a : ip6_text t a -> Forall (fun c => ip6_letter c = true) t.
Proof.
  assert (Hd : forall l, Forall (fun c => 48 <= c <= 57) l -> Forall (fun c => ip6_letter c = true) l).
  { intros l Hl. eapply Forall_impl; [exact (digits_hex l Hl)|]. intros; by apply xdigit_letter. }
  assert (Hw : forall ws, Forall hexword ws -> Forall (fun c => ip6_letter c = true) (words_text ws)).
  { induction 1 as [|w ws [_ Hw] _ IH]; [constructor|]. unfold words_text in *. cbn [map concat]. apply Forall_app_2; [|exact IH].
    apply Forall_app_2; [|by repeat constructor]. eapply Forall_impl; [exact Hw|]. intros; by apply xdigit_letter. }
  assert (He : forall e eb, ip6_end e eb -> Forall (fun c => ip6_letter c = true) e).
  { intros e eb [|w [_ H]|t' a' (b0 & b1 & b2 & b3 & Hb & -> & ->)]; [constructor| |].
    - eapply Forall_impl; [exact H|]. intros; by apply xdigit_letter.
    - unfold bytes_ok in Hb. rewrite !Forall_cons in Hb. destruct Hb as (? & ? & ? & ? & _).
      unfold quad_text. repeat (apply Forall_app_2; [by apply Hd, dec_digits|]; apply Forall_cons_2; [done|]). by apply Hd, dec_digits. }
  intros [ws e eb Hws H _|ws ws' e eb n Hws Hws' H _ _].
  - apply Forall_app_2; eauto.
  - apply Forall_app_2; [destruct ws; by_compute|]. apply Forall_app_2; [by apply Hw|]. apply Forall_app_2; [by_compute|]. apply Forall_app_2; eauto.
Qed.

Lemma letters_chars t : Forall (fun c => ip6_letter c = true) t -> Forall is_char t.
Proof. intros H. eapply Forall_impl; [exact H|]. intros c Hc. by apply letter_char. Qed.

(** ** Reading *)

Lemma ip6_text_bytes t a : ip6_text t a -> length a = 16%nat /\ bytes_ok a.
Proof.
  assert (Hw1 : forall w, hexword w -> bytes_ok (word_bytes w)).
  { intros w [Hw _]. pose proof (word_value w ltac:(lia)). unfold word_bytes, bytes_ok. repeat apply Forall_cons_2; try apply Forall_nil_2; unfold is_byte; dlia. }
  assert (Hw : forall ws, Forall hexword ws -> bytes_ok (words_bytes ws)).
  { induction 1 as [|w ws H _ IH]; [constructor|]. unfold words_bytes in *. cbn [map concat]. apply Forall_app_2; [by apply Hw1|exact IH]. }
  assert (He : forall e eb, ip6_end e eb -> bytes_ok eb).
  { intros e eb [|w H|t' a' (b0 & b1 & b2 & b3 & Hb & -> & _)]; [constructor|by apply Hw1|done]. }
  intros [ws e eb Hws H Hl|ws ws' e eb n Hws Hws' H Hn Hl]; split.
  - unfold zlen in Hl. lia.
  - apply Forall_app_2; [by apply Hw|by apply (He e)].
  - unfold zlen in Hl. rewrite length_app in Hl. rewrite !length_app, length_replicate. lia.
  - apply Forall_app_2; [by apply Hw|]. apply Forall_app_2; [apply Forall_replicate; unfold is_byte; lia|]. apply Forall_app_2; [by apply Hw|by apply (He e)].
Qed.

Lemma read_stored b : length b = 16%nat -> mem_read (stored (uninit 16) 0 b) 0 16 = Some b.
Proof.
  intros Hl. unfold stored. rewrite ztake_0. cbn [app]. replace 16 with (zlen b) at 2 by (unfold zlen; lia). apply (mem_read_mid [] _ b).
Qed.

Lemma ip6_read_spec a : Forall is_char a -> exists (m : mem) (r : Z),
  curlx_inet_pton AF_INET6 a (uninit 16) = Some (m, r, None) /\
  match ip6_read a with
  | Some b => r = 1 /\ mem_read m 0 16 = Some b /\ ip6_text a b
  | None => r <> 1 /\ forall b, ~ ip6_text a b
  end.
Proof.
  intros Ha. destruct (pton6_spec a (uninit 16)) as (res & E & H); [done|]. destruct res as [m r]. exists m, r.
  assert (E' : curlx_inet_pton AF_INET6 a (uninit 16) = Some (m, r, None)).
  { unfold curlx_inet_pton. change (AF_INET6 =? AF_INET) with false. change (AF_INET6 =? AF_INET6) with true. cbv iota. by rewrite E. }
  split; [done|]. unfold ip6_read. rewrite E'. cbn [mbind option_bind]. rewrite (ctext_chars a Ha) in H. destruct H as [(b & Hb & [= -> ->])|[[= -> ->] Hn]]; [|done].
  pose proof (ip6_text_bytes a b Hb) as [Hl Hbb]. change (1 =? 1) with true. cbv iota.
  by rewrite (read_stored b Hl).
Qed.

Lemma ip6_read_complete a b : ip6_text a b -> ip6_read a = Some b.
Proof.
  intros H. pose proof (letters_chars a (ip6_text_letters a b H)) as Ha. destruct (ip6_read_spec a Ha) as (m & r & E & Hr).
  unfold curlx_inet_pton in E. change (AF_INET6 =? AF_INET) with false in E. change (AF_INET6 =? AF_INET6) with true in E. cbv iota in E.
  rewrite (pton6_complete a b) in E by (rewrite ?ctext_chars; done). cbn [mbind option_bind] in E. injection E as <- <-.
  destruct (ip6_read a) as [b'|]; [|by destruct Hr as [Hr _]]. destruct Hr as (_ & Hr & _). rewrite <- Hr.
  apply read_stored. by destruct (ip6_text_bytes a b H).
Qed.

(** * Rewriting in memory *)

(** The memory behind the bracket: the address, a character to overwrite, the
    end. *)
Lemma ipv6_normalize_spec a x rest : Forall is_char a -> exists y,
  ipv6_normalize (map Some a ++ x :: Some 0 :: rest) (zlen a) = Some y /\
  match ref_addr a, y with
  | inl e, inl e' => e' = e
  | inr h, inr m => Forall is_char h /\ exists rest', Some 91 :: m = map Some h ++ Some 0 :: rest'
  | _, _ => False
  end.
Proof.
  intros Ha. unfold ipv6_normalize. rewrite (mem_write_at _ (map Some a) [x] (Some 0 :: rest)) by (done || apply zlen_map). cbn [mbind option_bind map app].
  rewrite mem_text_spec by done. cbn [mbind option_bind]. destruct (ip6_read_spec a Ha) as (m & r & -> & Hr). unfold ref_addr. cbn [mbind option_bind].
  destruct (ip6_read a) as [b|]; [|destruct Hr as [Hr _]; rewrite (proj2 (Z.eqb_neq r 1) Hr); by eexists].
  destruct Hr as (-> & Hm & Ht). change (negb (1 =? 1)) with false. cbv iota. rewrite Hm. cbn [mbind option_bind].
  destruct (ip6_text_bytes a b Ht) as [Hl Hb]. pose proof (letters_chars _ (ip6_text_letters _ _ (rfc5952_text b Hb Hl))) as Hc. pose proof (zlen_nonneg (rfc5952 b)).
  unfold curlx_inet_ntop. change (AF_INET6 =? AF_INET) with false. change (AF_INET6 =? AF_INET6) with true. cbv iota.
  rewrite ntop6_spec; [|done|done|zlia]. set (t := rfc5952 b) in *. destruct (Z.ltb_spec (zlen t) (zlen a + 1)) as [Hlt|Hge].
  - rewrite (proj2 (Z.leb_le (zlen t) (zlen a))) by lia. cbn [mbind option_bind]. unfold stored. rewrite ztake_0. cbn [app].
    rewrite map_app. cbn [map]. rewrite <- app_assoc. cbn [app]. rewrite mem_strlen_text by by apply char_nonzero. cbn [mbind option_bind].
    set (m1 := zdrop _ _). assert (Hm1 : exists z r1, m1 = z :: r1).
    { destruct m1 as [|z r1] eqn:E; [|by do 2 eexists]. exfalso. assert (H1 : zlen m1 = 0) by by rewrite E. unfold m1 in H1. rewrite zlen_zdrop in H1 by zlia. revert H1. zlia. }
    destruct Hm1 as (z & r1 & ->). rewrite (mem_write_at _ (map Some t ++ [Some 0]) [z] r1) by (rewrite <- ?app_assoc; done || zlia).
    cbn [mbind option_bind map app]. rewrite <- app_assoc. cbn [app].
    rewrite (mem_write_at _ (map Some t) [Some 0] (Some 0 :: r1)) by (done || apply zlen_map). cbn [mbind option_bind map app].
    eexists. split; [done|]. split; [apply Forall_cons_2; [by_compute|]; apply Forall_app_2; [done|by_compute]|].
    exists r1. cbn [map app]. by rewrite map_app, <- app_assoc.
  - rewrite (proj2 (Z.leb_gt (zlen t) (zlen a))) by lia. cbn [mbind option_bind].
    rewrite (mem_write_at _ (map Some a) [Some 0] (Some 0 :: rest)) by (done || apply zlen_map). cbn [mbind option_bind map app].
    eexists. split; [done|]. split; [apply Forall_cons_2; [by_compute|]; apply Forall_app_2; [done|by_compute]|].
    exists rest. cbn [map app]. by rewrite map_app, <- app_assoc.
Qed.

(** The memory holds a text and its end. *)
Definition mem_holds (m : mem) (t : list Z) : Prop := Forall is_char t /\ exists rest, m = map Some t ++ Some 0 :: rest.

Lemma strspn_range s l : 0 <= strspn s l <= zlen s.
Proof. induction s as [|c s IH]; cbn [strspn]; [done|]. rewrite zlen_cons. case_if; lia. Qed.

Lemma char_at_split t n x : at_ t (Z.to_nat n) = x -> x <> 0 -> 0 <= n -> exists r, t = ztake n t ++ x :: r /\ zlen (ztake n t) = n.
Proof.
  unfold at_. intros E Hx Hn. destruct (drop (Z.to_nat n) t) as [|y r] eqn:Ed; [by destruct Hx|]. cbn [deref] in E. subst y. exists r.
  split; [unfold ztake; by rewrite <- Ed, take_drop|]. assert (Hl : (length (drop (Z.to_nat n) t) = S (length r))%nat) by by rewrite Ed.
  rewrite length_drop in Hl. rewrite zlen_ztake by lia. unfold zlen. lia.
Qed.

Lemma at_app_exact a t : at_ (a ++ t) (Z.to_nat (zlen a)) = deref t.
Proof. unfold at_, zlen. by rewrite Nat2Z.id, drop_app_length. Qed.

Section Ip6.

Context {K : Prop} (c_snprintf : list Z -> spec_float -> list Z).

Lemma normalize_refines u a x rest : fresh_ok u -> Forall is_char a ->
  refu (K := K) u mem_holds (r ← lift (defined (ipv6_normalize (map Some a ++ x :: Some 0 :: rest) (zlen a)));
    match r with inl e => fails e | inr m => mret ([Some 91] ++ m) end) (plift (ref_addr a)).
Proof.
  intros Hu Ha. destruct (ipv6_normalize_spec a x rest Ha) as (y & E & H). eapply refu_defined; [exact E|].
  destruct (ref_addr a) as [e|h], y as [e'|m]; try done; [by subst; apply refu_fails|]. apply refu_ret; [done|]. exact H.
Qed.

Lemma ipv6_parse_refines u t rest : fresh_ok u -> Forall is_char t ->
  refu (K := K) u mem_holds (ipv6_parse (map Some (91 :: t) ++ Some 0 :: rest) (zlen (91 :: t))) (ref_ip6 (91 :: t)).
Proof.
  intros Hu Ht. unfold ipv6_parse, ref_ip6. set (n := zlen (91 :: t)). destruct (Z.ltb_spec n 4) as [|Hn]; [by apply refu_fails|].
  cbn [map app take drop]. rewrite take_0, !drop_0. unfold n in *. rewrite zlen_cons in *. clear n.
  eapply refu_defined; [by apply mem_text_spec|]. cbv beta zeta. pose proof (strspn_range t IPV6_LETTERS) as Hl. set (len := strspn t IPV6_LETTERS) in *.
  clearbody len. destruct (list_split_at t len) as (a & t2 & -> & <-); [lia|]. rewrite ztake_app_exact. apply Forall_app in Ht as [Ha Ht2].
  rewrite zlen_app in *. destruct (Z.eqb_spec (1 + (zlen a + zlen t2) - 2) (zlen a)) as [E|E]; cbn [negb].
  - eapply refu_step; [done|]. cbv beta iota. destruct t2 as [|x [|]]; [unfold zlen in E; cbn in E; lia| |unfold zlen in E; cbn in E; lia].
    rewrite E, map_app, <- app_assoc. cbn [map app]. by apply normalize_refines.
  - rewrite at_app_exact. destruct (Z.eqb_spec (deref t2) 37) as [E37|]; [|by apply refu_fails_bind].
    destruct t2 as [|c t2]; [done|]. cbn [deref] in E37. subst c. destruct (ipv6_zone _ _) as [zone|] eqn:Ez; [|by apply refu_fails_bind].
    destruct t2 as [|y t2].
    { exfalso. revert Ez. unfold ipv6_zone. rewrite zdrop_ge by (rewrite zlen_app; unfold zlen; cbn; lia). done. }
    apply uwp_assoc. apply uwp_modu. assert (Hu0 : fresh_ok (set_zoneid None u)) by by destruct u.
    apply uwp_assoc. eapply uwp_lift_inr; [by apply ewp_dup|done|]. apply uwp_assoc. apply uwp_modu.
    replace (set_zoneid (Some zone) (set_zoneid None u)) with (set_zoneid (Some zone) u) by by destruct u.
    apply uwp_assoc. rewrite map_app, <- app_assoc. cbn [map app].
    eapply uwp_defined_bind; [apply (mem_write_at _ (map Some a) [Some 37] (Some y :: map Some t2 ++ Some 0 :: rest)); [done|apply zlen_map|done]|].
    apply uwp_assoc. cbn [map app].
    eapply uwp_defined_bind; [apply (mem_write_at _ (map Some a ++ [Some 93]) [Some y] (map Some t2 ++ Some 0 :: rest)); [by rewrite <- app_assoc|zlia|done]|].
    rewrite <- app_assoc. cbn [map app].
    assert (Hu1 : fresh_ok (set_zoneid (Some zone) u)) by by destruct u.
    intros o. destruct (normalize_refines _ a (Some 93) (map Some t2 ++ Some 0 :: rest) Hu1 Ha o) as (x & u' & o' & H). by exists x, u', o'.
Qed.

Lemma strcspn_full s l : Forall is_char s -> (zlen s =? strcspn s l) = forallb (fun c => negb (existsb (Z.eqb c) l)) s /\ 0 <= strcspn s l <= zlen s.
Proof.
  induction 1 as [|c s Hc _ [IH Hs]]; [done|]. cbn [strcspn forallb]. rewrite zlen_cons. pose proof (zlen_nonneg s).
  rewrite (proj2 (Z.eqb_neq c 0)) by (unfold is_char in Hc; lia). cbn [orb]. destruct (existsb (Z.eqb c) l); cbn [negb andb].
  - split; [apply Z.eqb_neq; lia|lia].
  - split; [|lia]. rewrite <- IH. destruct (Z.eqb_spec (zlen s) (strcspn s l)); [apply Z.eqb_eq; lia|apply Z.eqb_neq; lia].
Qed.

(** The last two characters. *)
Lemma two_dots t : 2 <= zlen t -> bool_decide (zdrop (zlen t - 2) t = [46; 46]) = (at_ t (Z.to_nat (zlen t - 1)) =? 46) && (at_ t (Z.to_nat (zlen t - 2)) =? 46).
Proof.
  intros Hl. destruct (list_split_at t (zlen t - 2)) as (a & r & -> & Ha); [lia|]. assert (Hr : zlen r = 2) by (rewrite zlen_app in Ha; lia).
  destruct r as [|x [|y [|]]]; try (unfold zlen in Hr; cbn in Hr; lia). rewrite <- Ha, zdrop_app_exact, at_app_exact.
  replace (zlen (a ++ [x; y]) - 1) with (zlen (a ++ [x])) by zlia. replace (a ++ [x; y]) with ((a ++ [x]) ++ [y]) by by rewrite <- app_assoc. rewrite at_app_exact. cbn [deref].
  destruct (Z.eqb_spec y 46) as [->|], (Z.eqb_spec x 46) as [->|]; cbn [andb]; [by apply bool_decide_eq_true|apply bool_decide_eq_false; congruence..].
Qed.

Lemma hostname_check_refines u t rest : fresh_ok u -> Forall is_char t ->
  refu (K := K) u mem_holds (hostname_check (map Some t ++ Some 0 :: rest) (zlen t)) (ref_check t).
Proof.
  intros Hu Ht. unfold hostname_check, ref_check. destruct t as [|c t]; [by apply refu_fails|]. rewrite (proj2 (Z.eqb_neq (zlen (c :: t)) 0)) by zlia.
  eapply refu_defined; [by apply mem_text_spec|]. cbv beta. cbn [deref]. destruct (Z.eqb_spec c 91) as [->|].
  { apply Forall_cons in Ht as [_ Ht]. by apply ipv6_parse_refines. }
  set (t1 := c :: t) in *. cbv zeta. rewrite (proj1 (strcspn_full t1 _ Ht)). unfold name_ok.
  destruct (forallb _ t1); cbn [negb andb]; [|by apply refu_fails].
  assert (E1 : bool_decide (t1 = [46]) = (zlen t1 =? 1) && (c =? 46)).
  { unfold t1. rewrite zlen_cons. destruct t as [|x t]; [destruct (Z.eqb_spec c 46) as [->|]; [done|]; cbn; apply bool_decide_eq_false; congruence|].
    rewrite zlen_cons, (proj2 (Z.eqb_neq (1 + (1 + zlen t)) 1)) by zlia. by apply bool_decide_eq_false. }
  rewrite E1. assert (E2 : ((zlen t1 >=? 2) && bool_decide (zdrop (zlen t1 - 2) t1 = [46; 46])) =
    ((zlen t1 >=? 2) && (at_ t1 (Z.to_nat (zlen t1 - 1)) =? 46) && (at_ t1 (Z.to_nat (zlen t1 - 2)) =? 46))).
  { rewrite Z.geb_leb. destruct (Z.leb_spec 2 (zlen t1)); [|done]. cbn [andb]. by apply two_dots. }
  rewrite E2. destruct (_ && _ && _); cbn [negb]; rewrite ?andb_false_r; [by apply refu_fails|]. destruct (_ && _); cbn [negb andb]; [by apply refu_fails|].
  apply refu_ret; [done|]. split; [done|]. by exists rest.
Qed.

(** * The authority *)

(** The buffer of a host that may have been cut in place. *)
Definition host_ends (b : dynbuf) (t : list Z) : Prop := held b = Some t /\ Forall is_char t.

Lemma in_place_refines u b m f p : bufr b = Some m -> refu (K := K) u mem_holds (f m (leng b)) p -> refu (K := K) u host_ends (in_place b f) p.
Proof.
  intros Hb Hf. unfold in_place. eapply refu_defined; [exact Hb|].
  intros o. destruct (Hf o) as (x & u' & o' & E & Hx & Ho). cbv beta. unfold mbind at 1, U_bind at 1, curlx_dyn_len. rewrite E.
  destruct x as [e|m'].
  { exists (inl e), u', o'. split; [done|]. split; [|done]. destruct Hx as [(y & Ey & Hy & Hu')|((e' & [= <-] & He) & Hx)].
    - left. exists y. split; [done|]. split; [|done]. by destruct y.
    - right. split; [by exists e|done]. }
  exists (inr (dyn_with b m')), u', o'. split; [done|]. split; [|done].
  destruct Hx as [(y & Ey & Hy & Hu')|((e & ? & _) & _)]; [|done]. left. exists y. split; [done|]. split; [|done].
  destruct y as [e|h]; [done|]. destruct Hy as (Hh & rest & ->). split; [|done]. unfold held. cbn. by apply mem_text_spec.
Qed.

Lemma host_refines u b t : fresh_ok u -> hb b t ->
  refu (K := K) u host_ends ('(ty, host) ← lift (ipv4_normalize c_snprintf b);
    match ty with
    | HOST_IPV4 => mret host
    | HOST_IPV6 => in_place host ipv6_parse
    | HOST_NAME => in_place host hostname_check
    | HOST_ERROR => fails CURLUE_OUT_OF_MEMORY
    end) (ref_host t).
Proof.
  intros Hu [Hb Ht]. apply refu_lift_raw; [done|]. intros o. destruct (normalize_spec c_snprintf b t o Hb Ht) as (ty & h & o' & E & Ho & H).
  exists (ty, h), o'. split; [done|]. split; [done|]. unfold ref_host. destruct Hb as ((Hl & _ & Hm) & Hn & Hc). destruct (bufr b) as [m|] eqn:Em; [|done].
  destruct Hm as (_ & _ & rest & ->). destruct (Z.eqb_spec (deref t) 91) as [E91|E91].
  - destruct H as [-> ->]. left. destruct t as [|c t]; [done|]. cbn [deref] in E91. subst c. apply Forall_cons in Hc as [_ Hc].
    eapply in_place_refines; [exact Em|]. rewrite Hl. by apply ipv6_parse_refines.
  - destruct (numeric t) as [v|].
    + destruct H as [[-> Hh]|[-> Hf]]; [left|by right]. apply refu_ret; [done|]. split; [by apply holds_held|apply Hh].
    + destruct H as [-> ->]. left. eapply in_place_refines; [exact Em|]. rewrite Hl. by apply hostname_check_refines.
Qed.

Lemma authority_refines u auth len flags has_scheme : fresh_ok u -> 0 <= len <= zlen auth -> Forall is_char auth -> zlen auth <= MAX_DYNBUF_SIZE ->
  (K -> zlen auth < CURL_MAX_INPUT_LENGTH) ->
  refu (K := K) u host_ends (parse_authority c_snprintf auth len flags (curlx_dyn_init CURL_MAX_INPUT_LENGTH) has_scheme)
    (ref_authority (ztake len auth) flags has_scheme).
Proof.
  intros Hu Hlen Hc Hmax HK. unfold parse_authority, ref_authority. eapply refu_bind; [by apply hostname_login_refines|].
  intros off t u1 [Hoff ->] Hu1 _. assert (Hl : zlen (slice auth off (len - off)) <= zlen auth).
  { unfold slice. rewrite zlen_ztake, zlen_zdrop by lia. lia. }
  assert (Hct : Forall is_char (slice auth off (len - off))) by (unfold slice; by apply Forall_take, Forall_drop).
  set (t := slice auth off (len - off)) in *. clearbody t.
  eapply uwp_lift_bind; [|exact Hu1| |].
  { apply (ewp_addn (curlx_dyn_init CURL_MAX_INPUT_LENGTH) [] t (fun x => exists b, x = inr b /\ hb b t)); [by apply dyn_init_rep|lia| |].
    - intros Hk. specialize (HK Hk). change (zlen []) with 0. cbn [toobig curlx_dyn_init]. lia.
    - intros b Hb Hbt Hn. exists b. split; [done|]. split; [done|]. exact Hbt. }
  2: { by intros e (b & [=] & _). }
  intros b (b' & [= <-] & Hb). eapply refu_bind; [by apply parse_port_refines|].
  clear Hb. intros b2 t2 u2 Hb2 Hu2 _. destruct Hb2 as [Hb Hbt]. pose proof Hb as ((Hl2 & _) & _). unfold curlx_dyn_len. rewrite Hl2. destruct t2 as [|c t2].
  { apply refu_fails_bind. done. }
  rewrite (proj2 (Z.eqb_neq (zlen (c :: t2)) 0)) by zlia. eapply refu_bind; [apply refu_lift; [done|by apply urldecode_host_spec]|].
  intros b1 t1 u3 Hb1 Hu3 _. by apply host_refines.
Qed.

End Ip6.
