(* ===== verification/UrlEnc.v ===== *)
(** The encoder of parts of URLs, [urlencode_str], against a function on texts. *)

From Stdlib Require Import ZArith Lia List String SpecFloat.
From stdpp Require Import base numbers option list.
From S2P Require Import Prelude Dynbuf Strparse Strcase Escape InetAddr Mprintf PrintfSpec Protocol Urlapi UrlParse UrlPath UrlSet UrlRules UrlDots UrlPrint UrlHost UrlRef UrlRefine.
Close Scope nat_scope.
Open Scope Z_scope.

Lemma hexbyte_eq c : is_byte c -> Curl_hexbyte c = [at_ Curl_udigits (Z.to_nat (c / 16)); at_ Curl_udigits (Z.to_nat (c mod 16))].
Proof. intros Hc. unfold Curl_hexbyte. by rewrite shiftr4, land15. Qed.

Lemma hex_pair a b : ISXDIGIT a = true -> ISXDIGIT b = true ->
  u8 (Z.lor (Z.shiftl (curlx_hexval a) 4) (curlx_hexval b)) = hexdig a * 16 + hexdig b /\ is_byte (hexdig a * 16 + hexdig b).
Proof.
  intros Ha Hb. destruct (hexval_digit a Ha) as [-> H1]. destruct (hexval_digit b Hb) as [-> H2]. unfold is_byte. split; [|lia].
  pose (Q := fun x => (u8 (Z.lor (Z.shiftl (x / 16) 4) (x mod 16)) =? x)).
  assert (HQ : Q (hexdig a * 16 + hexdig b) = true) by (apply byte_forall; [by vm_compute|unfold is_byte; lia]). unfold Q in HQ. apply Z.eqb_eq in HQ.
  etransitivity; [|exact HQ]. f_equal. f_equal; [f_equal; dlia|dlia].
Qed.

Lemma hexbyte_chars c : is_byte c -> Forall is_char (37 :: Curl_hexbyte c) /\ zlen (Curl_hexbyte c) = 2.
Proof.
  intros Hc. split; [|done]. rewrite hexbyte_eq by done. destruct (hexbyte_decode c Hc) as (H1 & H2 & _).
  assert (Hx : forall x, ISXDIGIT x = true -> is_char x). { intros x Hx. pose proof (ISXDIGIT_byte x Hx). destruct (ISXDIGIT_nonzero x Hx). unfold is_char, is_byte in *. lia. }
  repeat apply Forall_cons_2; [by_compute|by apply Hx|by apply Hx|constructor].
Qed.

(** ** The equations of [enc_text] *)

(** What is done with the first characters: what they become, what follows and
    the mode for it. *)
Definition enc_head (c : Z) (s : list Z) (query : query_mode) : list Z * list Z * query_mode :=
  let plain := ([c], s, if c =? 63 then match query with QUERY_NOT_YET => QUERY_YES | q => q end else query) in
  if c =? 32 then (match query with QUERY_YES => str "+" | _ => str "%20" end, s, query)
  else if (c <? 32) || (c >=? 127) then (37 :: Curl_hexbyte c, s, query)
  else match s with
       | a :: b :: s' =>
           if (c =? 37) && ISXDIGIT a && ISXDIGIT b && (ISLOWER a || ISLOWER b)
           then (37 :: Curl_hexbyte (hexdig a * 16 + hexdig b), s', query) else plain
       | _ => plain
       end.

Lemma enc_text_cons c s query : enc_text (c :: s) query = let '(w, s', q) := enc_head c s query in w ++ enc_text s' q.
Proof.
  unfold enc_head. cbn [enc_text]. destruct (c =? 32); [by destruct query|]. destruct (_ || _); [done|]. destruct s as [|a [|b s]]; [done|done|]. by destruct (_ && _ && _ && _).
Qed.

Lemma enc_head_spec c s query : is_byte c -> let '(w, s', q) := enc_head c s query in
  1 <= zlen w <= 3 /\ (Forall is_char (c :: s) -> Forall is_char w) /\ (length s' <= length s)%nat /\ exists x, s = x ++ s'.
Proof.
  intros Hc. unfold enc_head.
  assert (Hplain : forall q : query_mode, 1 <= zlen [c] <= 3 /\ (Forall is_char (c :: s) -> Forall is_char [c]) /\ (length s <= length s)%nat /\ exists x, s = x ++ s).
  { intros q. split; [done|]. split; [|split; [done|by exists []]]. intros H. apply Forall_cons in H as [H _]. by apply Forall_cons_2. }
  destruct (c =? 32); [destruct query; (split; [by vm_compute|]); (split; [intros _; by_compute|]); (split; [done|by exists []])|].
  destruct (_ || _). { split; [unfold zlen; cbn; lia|]. split; [by intros _; apply hexbyte_chars|]. split; [done|by exists []]. }
  destruct s as [|a [|b s]]; [by apply Hplain|by apply Hplain|]. destruct (_ && _ && _ && _) eqn:E; [|by apply Hplain].
  repeat (apply andb_prop in E as [E ?]). destruct (hex_pair a b) as [_ Hb]; [done|done|].
  split; [unfold zlen; cbn; lia|]. split; [by intros _; apply hexbyte_chars|]. split; [cbn; lia|by exists [a; b]].
Qed.

Lemma enc_text_ind (Q : list Z -> query_mode -> Prop) : (forall q, Q [] q) ->
  (forall c s q, is_byte c -> (let '(w, s', q') := enc_head c s q in Q s' q') -> Q (c :: s) q) -> forall s, bytes_ok s -> forall q, Q s q.
Proof.
  intros H0 Hc s. remember (length s) as n eqn:Hn. revert s Hn. induction n as [n IH] using lt_wf_ind. intros s Hn Hs q.
  destruct s as [|c s]; [done|]. apply Forall_cons in Hs as [Hb Hs]. apply Hc; [done|]. pose proof (enc_head_spec c s q Hb) as H.
  destruct (enc_head c s q) as [[w s'] q']. destruct H as (_ & _ & Hl & x & ->). apply Forall_app in Hs as [_ Hs].
  apply (IH (length s')); [cbn [length] in Hn; lia|done|done].
Qed.

Lemma enc_text_chars s query : Forall is_char s -> Forall is_char (enc_text s query).
Proof.
  intros Hs. assert (Hb : bytes_ok s) by by apply chars_bytes. revert Hs. pattern s, query. apply enc_text_ind; [by constructor| |done]. clear.
  intros c s q Hc IH Hs. rewrite enc_text_cons. pose proof (enc_head_spec c s q Hc) as H. destruct (enc_head c s q) as [[w s'] q'].
  destruct H as (_ & Hw & _ & x & ->). apply Forall_app_2; [by apply Hw|]. apply IH. apply Forall_cons in Hs as [_ Hs]. by apply Forall_app in Hs as [_ ?].
Qed.

Lemma enc_text_length s query : bytes_ok s -> zlen (enc_text s query) <= 3 * zlen s.
Proof.
  intros Hs. pattern s, query. apply enc_text_ind; [done| |done]. clear. intros c s q Hc IH. rewrite enc_text_cons. pose proof (enc_head_spec c s q Hc) as H.
  destruct (enc_head c s q) as [[w s'] q']. destruct H as (Hw & _ & Hl & _). rewrite zlen_app, zlen_cons. assert (zlen s' <= zlen s) by (unfold zlen; lia). lia.
Qed.

(** ** The loop *)

Section Encode.

Context {F : CURLUcode -> Prop} {K : Prop} `{!HasOom F, !HasLarge F}.

(** An append in the loop. *)
Lemma ewp_append {A} s c w (k : dynbuf -> E A) (Q : CURLUcode + A -> Prop) : dyn_rep s c -> zlen w <= 3 -> (K -> zlen c + zlen w + 1 <= toobig s) ->
  (forall s', dyn_rep s' (c ++ w) -> toobig s' = toobig s -> bufr s' <> None -> ewp F K (k s') Q) ->
  ewp F K (E_dyn_ok (curlx_dyn_addn s w) ≫= k) Q.
Proof.
  intros Hs Hw HK Hk. eapply (ewp_bind _ _ (fun x => exists s', x = inr s' /\ dyn_rep s' (c ++ w) /\ toobig s' = toobig s /\ bufr s' <> None)).
  - apply (ewp_addn s c w); [done|unfold MAX_DYNBUF_SIZE, SIZE_MAX; lia|done|]. intros s' H1 H2 H3. by exists s'.
  - intros s' (? & [= <-] & H1 & H2 & H3). by apply Hk.
  - by intros e (? & [=] & _).
Qed.

Definition encodes (s t : list Z) (query : query_mode) : Prop := forall b c, dyn_rep b c -> (K -> zlen c + zlen (enc_text s query) + 1 <= toobig b) ->
  ewp F K (urlencode_loop (length s) b (s ++ t) query) (fun x => exists b', x = inr b' /\ dyn_rep b' (c ++ enc_text s query) /\ toobig b' = toobig b /\
    (s <> [] \/ bufr b <> None -> bufr b' <> None)).

Lemma urlencode_round c0 s t query : is_byte c0 -> (let '(w, s', q) := enc_head c0 s query in encodes s' t q) -> encodes (c0 :: s) t query.
Proof.
  intros Hc0 H b c Hb HK. pose proof (enc_head_spec c0 s query Hc0) as Hw. rewrite enc_text_cons in *. destruct (enc_head c0 s query) as [[w s'] q] eqn:Eh.
  destruct Hw as (Hw & _). rewrite zlen_app in HK. pose proof (zlen_nonneg (enc_text s' q)).
  assert (Hgo : ewp F K (o ← E_dyn_ok (curlx_dyn_addn b w); urlencode_loop (length s') o (s' ++ t) q)
    (fun x => exists b', x = inr b' /\ dyn_rep b' (c ++ w ++ enc_text s' q) /\ toobig b' = toobig b /\ (c0 :: s <> [] \/ bufr b <> None -> bufr b' <> None))).
  { eapply ewp_append; [done|lia|intros Hk; specialize (HK Hk); lia|]. intros b1 Hb1 Ht1 Hn1. eapply ewp_mono; [apply (H b1 (c ++ w)); [done|]|].
    - intros Hk. specialize (HK Hk). rewrite zlen_app, Ht1. lia.
    - intros x (b' & -> & Hb' & Ht & Hn). exists b'. rewrite app_assoc. split; [done|]. split; [done|]. split; [congruence|]. auto. }
  revert Eh Hgo. unfold enc_head. cbn [length urlencode_loop app deref drop]. rewrite !drop_0. destruct (c0 =? 32).
  { destruct query; intros [= <- <- <-] Hgo; exact Hgo. }
  destruct (_ || _); [by intros [= <- <- <-] Hgo|]. destruct s as [|a [|b0 s]]; [by intros [= <- <- <-] Hgo|by intros [= <- <- <-] Hgo|].
  cbn [length app]. unfold at_. cbn [drop deref]. destruct (_ && _ && _ && _) eqn:E; [|by intros [= <- <- <-] Hgo].
  repeat (apply andb_prop in E as [E ?]). destruct (hex_pair a b0) as [-> _]; [done|done|]. intros [= <- <- <-] Hgo. rewrite !drop_0 || idtac. exact Hgo.
Qed.

Lemma urlencode_loop_spec s t query : bytes_ok s -> encodes s t query.
Proof.
  intros Hs. pattern s, query. apply enc_text_ind; [| |done].
  - intros q b c Hb HK. apply ewp_ret. exists b. rewrite app_nil_r. split; [done|]. split; [done|]. split; [done|]. by intros [?|?].
  - intros c s' q Hc IH. by apply urlencode_round.
Qed.

(** A part that is encoded. *)
Lemma encoded_spec s t n query (Q : CURLUcode + list Z -> Prop) : Forall is_char s -> n = zlen s -> s <> [] -> (K -> zlen (enc_text s query) < CURL_MAX_INPUT_LENGTH) ->
  Q (inr (enc_text s query)) -> ewp F K (encoded (s ++ t) n query) Q.
Proof.
  intros Hs -> Hn HK HQ. unfold encoded, urlencode_str. cbn [negb]. unfold zlen at 1. rewrite Nat2Z.id.
  eapply ewp_bind; [apply (urlencode_loop_spec s t query (chars_bytes s Hs) (curlx_dyn_init CURL_MAX_INPUT_LENGTH) [])| |].
  - by apply dyn_init_rep.
  - intros Hk. specialize (HK Hk). change (zlen (@nil Z)) with 0. cbn [toobig curlx_dyn_init]. lia.
  - intros b (b' & [= <-] & Hb & Ht & Hnn). eapply ewp_defined; [apply held_rep; [exact Hb|auto|by apply enc_text_chars]|done].
  - by intros e (b' & [=] & _).
Qed.

End Encode.
