(* ===== verification/UrlWhole.v ===== *)
(** The parser of URLs against the functions of UrlRef.v: schemes, file URLs,
    query, fragment, path, and the parser of a whole URL. *)

From Stdlib Require Import ZArith Lia List String SpecFloat.
From stdpp Require Import base numbers option list.
From S2P Require Import Prelude Dynbuf Strparse Strcase Escape InetAddr Mprintf PrintfSpec PrintfFormat Protocol Urlapi UrlParse UrlPath UrlSet UrlRules UrlDots UrlPrint UrlHost UrlRef UrlRefine UrlIp6 UrlEnc.
Close Scope nat_scope.
Open Scope Z_scope.

(** * Schemes of a text *)

Definition scheme_char (c : Z) : bool := ISALNUM c || (c =? 43) || (c =? 45) || (c =? 46).

Lemma scheme_end_spec rounds : forall i s, Forall is_char s -> exists a r, s = a ++ r /\ Forall (fun c => scheme_char c = true) a /\
  scheme_end rounds i s = i + zlen a /\ zlen a <= Z.of_nat rounds.
Proof.
  induction rounds as [|rounds IH]; intros i s Hs; cbn [scheme_end].
  { exists [], s. split_and!; [done|constructor|zlia|done]. }
  destruct s as [|c s]; [exists [], []; split_and!; [done|constructor|cbn; unfold zlen; cbn; lia|unfold zlen; cbn; lia]|]. apply Forall_cons in Hs as [Hc Hs]. cbn [deref drop]. rewrite drop_0.
  destruct (negb (c =? 0) && _) eqn:E.
  - apply andb_prop in E as [_ E]. destruct (IH (i + 1) s Hs) as (a & r & -> & Ha & E2 & Hl). exists (c :: a), r.
    split_and!; [done|by apply Forall_cons_2|rewrite E2; zlia|zlia].
  - exists [], (c :: s). split_and!; [done|constructor|zlia|zlia].
Qed.

Lemma strn_loop_map f r s : Forall is_char s -> s <> [] -> strn_loop f (s ++ r) (length s) = map f s.
Proof.
  induction 1 as [|c s Hc Hs IH]; intros Hn; [done|]. cbn [app length]. destruct s as [|d s]; [done|]. change ((d :: s) ++ r) with (d :: s ++ r) in *.
  cbn [strn_loop length deref map] in *. rewrite (proj2 (Z.eqb_neq c 0)) by (unfold is_char in Hc; lia). f_equal. by apply IH.
Qed.

Lemma lower_char c : is_char c -> is_char (lower c).
Proof. unfold is_char, lower, between. intros H. destruct (_ && _) eqn:E; zb_hyps; lia. Qed.

Lemma strntolower_prefix s r : Forall is_char s -> s <> [] -> Curl_strntolower (s ++ r) (zlen s) = map lower s.
Proof.
  intros Hs Hn. unfold Curl_strntolower. rewrite (proj2 (Z.ltb_ge _ 1)) by (destruct s; [done|zlia]). unfold zlen. rewrite Nat2Z.id, strn_loop_map by done.
  apply map_ext_in. intros x Hx. apply tolower_lower. rewrite Forall_forall in Hs. apply list_elem_of_In in Hx. specialize (Hs x Hx). unfold is_char, is_byte in *. lia.
Qed.

(** The scheme in front of a URL, in lower case. *)
Lemma abs_url_spec url guess : Forall is_char url -> exists s, Curl_is_absolute_url url guess = (zlen s, map lower s) /\
  (s = [] \/ exists rest, url = s ++ 58 :: rest /\ Forall (fun c => scheme_char c = true) s /\ ISALPHA (deref s) = true /\ zlen s <= MAX_SCHEME_LEN).
Proof.
  intros Hc. unfold Curl_is_absolute_url. destruct url as [|c url]; [by exists []; split; [|left]|]. cbn [deref drop]. rewrite drop_0.
  destruct (ISALPHA c) eqn:Ea; [|exists []; split; [done|by left]]. apply Forall_cons in Hc as [Hc Hu].
  destruct (scheme_end_spec 39 1 url Hu) as (a & r & -> & Ha & -> & Hl). rewrite (proj2 (Z.eqb_neq (1 + zlen a) 0)) by zlia. cbn [negb andb].
  replace (1 + zlen a) with (zlen (c :: a)) by zlia. change (c :: a ++ r) with ((c :: a) ++ r). rewrite zdrop_app_exact.
  destruct (Z.eqb_spec (deref r) 58) as [Er|]; cbn [andb]; [|exists []; split; [done|by left]]. destruct (_ || _); [|exists []; split; [done|by left]].
  destruct r as [|x r]; [done|]. cbn in Er. subst x. exists (c :: a). split.
  - f_equal. apply strntolower_prefix; [|done]. apply Forall_app in Hu as [Hu _]. by apply Forall_cons_2.
  - right. exists r. split; [done|]. split; [apply Forall_cons_2; [|done]|]. { unfold scheme_char, ISALNUM, ISALPHA in *. destruct (ISLOWER c); [by rewrite orb_true_r|]. cbn in Ea. by rewrite Ea, !orb_true_r. }
    split; [done|]. unfold MAX_SCHEME_LEN. zlia.
Qed.

Lemma lower_chars s : Forall is_char s -> Forall is_char (map lower s).
Proof. intros H. apply Forall_map. eapply Forall_impl; [exact H|]. intros; by apply lower_char. Qed.

(** * File URLs *)

Lemma checkprefix_spec a b : Forall is_char a -> Forall is_char b -> checkprefix a b = true <-> map upper (take (length a) b) = map upper a.
Proof.
  intros Ha Hb. unfold checkprefix, curl_strnequal, zlen. rewrite Nat2Z.id.
  rewrite ncasecompare_spec by (by apply chars_bytes || by apply char_nonzero). by rewrite (take_ge a) by lia.
Qed.

Lemma upper_slash c : upper c = 47 -> c = 47.
Proof. unfold upper, between. destruct (_ && _) eqn:E; intros; zb_hyps; lia. Qed.

(** The slash behind a host that is allowed in a file URL. *)
Lemma checkprefix_slash a b : Forall is_char a -> Forall is_char b -> checkprefix (a ++ [47]) b = true -> exists p r, b = p ++ 47 :: r /\ zlen p = zlen a.
Proof.
  intros Ha Hb H. apply checkprefix_spec in H; [|apply Forall_app_2; [done|by_compute]|done]. rewrite length_app in H. cbn [length] in H.
  assert (Hl : (length a + 1 <= length b)%nat) by (apply (f_equal length) in H; rewrite !length_map, length_take, length_app in H; cbn [length] in H; lia).
  destruct (list_split_at b (zlen a)) as (p & r & -> & Hp); [unfold zlen; lia|]. destruct r as [|x r]; [rewrite app_nil_r in Hl; unfold zlen in Hp; lia|].
  exists p, r. split; [|done]. f_equal. f_equal. assert (Hpl : length p = length a) by (unfold zlen in Hp; lia).
  rewrite <- Hpl, take_app_add in H. cbn [take] in H. rewrite !map_app in H. apply app_inj_2 in H as [_ H]; [|done]. injection H as H. by apply upper_slash in H.
Qed.

(** ** Cutting *)

Definition cut_tail (c : Z) (r : option (list Z)) : list Z := match r with Some f => c :: f | None => [] end.

Lemma cut_at_spec c s : let '(a, r) := cut_at c s in
  s = a ++ cut_tail c r /\ strchr s c = (cons c <$> r) /\ Forall (fun x => x <> c) a.
Proof.
  induction s as [|x s IH]; cbn [cut_at strchr]; [by split; [|split]|]. destruct (Z.eqb_spec x c) as [->|Hx]; [by split; [|split]|].
  destruct (cut_at c s) as [a r]. destruct IH as (-> & -> & Ha). split; [done|]. split; [done|]. by apply Forall_cons_2.
Qed.

Lemma memchr_cut c s : memchr s c = (let '(a, r) := cut_at c s in (fun _ => zlen a) <$> r).
Proof.
  unfold memchr, pos_of. pose proof (cut_at_spec c s) as H. destruct (cut_at c s) as [a r]. destruct H as (-> & -> & _). destruct r as [f|]; [|done]. cbn. f_equal. zlia.
Qed.

Lemma strcspn_stop s l : Forall is_char s -> zdrop (strcspn s l) s = [] \/ existsb (Z.eqb (deref (zdrop (strcspn s l) s))) l = true.
Proof.
  induction 1 as [|c s Hc Hs IH]; [by left|]. cbn [strcspn]. rewrite (proj2 (Z.eqb_neq c 0)) by (unfold is_char in Hc; lia). cbn [orb].
  destruct (existsb (Z.eqb c) l) eqn:E; [right; by rewrite zdrop_0|]. pose proof (proj2 (strcspn_full s l Hs)).
  unfold zdrop in *. by replace (Z.to_nat (1 + strcspn s l)) with (S (Z.to_nat (strcspn s l))) by lia.
Qed.

Section Whole.

Context {K : Prop} (c_snprintf : list Z -> spec_float -> list Z).

(** A text and its length. *)
Definition sized (x : list Z * Z) (t : list Z) : Prop := x = (t, zlen t).

Lemma zlen_drop n (url : list Z) : Z.of_nat n <= zlen url -> zlen (drop n url) = zlen url - Z.of_nat n.
Proof. unfold zlen. rewrite length_drop. lia. Qed.

Lemma set_scheme_refines {A B} u (R : A -> B -> Prop) s (m : U A) (p : P B) : fresh_ok u -> Forall is_char s ->
  (fresh_ok (set_scheme (Some s) u) -> refu (K := K) (set_scheme (Some s) u) R m p) ->
  refu (K := K) u R (modu (set_scheme None);; s ← lift (E_dup s); modu (set_scheme (Some s));; m) (pmod (set_scheme (Some s));; p).
Proof.
  intros Hu Hs H. apply uwp_modu. eapply uwp_lift_inr; [by apply ewp_dup|by destruct u; destruct Hu|]. apply uwp_modu.
  replace (set_scheme (Some s) (set_scheme None u)) with (set_scheme (Some s) u) by by destruct u. apply H. destruct u. by destruct Hu.
Qed.

Lemma parse_file_refines u url : fresh_ok u -> Forall is_char url ->
  refu (K := K) u (fun x t => sized x t /\ deref t = 47 /\ t `suffix_of` url) (parse_file url (zlen url)) (ref_file url).
Proof.
  intros Hu Hc. unfold parse_file, ref_file. destruct (Z.leb_spec (zlen url) 6) as [|Hl]; [by apply refu_fails|].
  change (zdrop 5 url) with (drop 5 url). set (path := drop 5 url). change (at_ path 0) with (deref path).
  assert (Hp : zlen path = zlen url - 5) by (unfold path; rewrite zlen_drop; lia).
  assert (Hs : path `suffix_of` url) by apply drop_suffix. assert (Hcp : Forall is_char path) by by apply Forall_drop. clearbody path.
  destruct (Z.eqb_spec (deref path) 47) as [E47|]; cbn [negb]; [|by apply refu_fails].
  eapply (refu_bind _ (fun x t => sized x t /\ (deref t = 47 \/ STARTS_WITH_URL_DRIVE_PREFIX t = true) /\ t `suffix_of` url)).
  - destruct (at_ path 1 =? 47); [|by apply refu_ret; [|split; [unfold sized; f_equal; lia|split; [by left|]]]].
    set (ptr := drop 2 path). assert (Hptr : zlen ptr = zlen url - 7) by (unfold ptr; rewrite zlen_drop; lia).
    assert (Hsp : ptr `suffix_of` url) by (etrans; [apply drop_suffix|done]). assert (Hcptr : Forall is_char ptr) by by apply Forall_drop. clearbody ptr.
    change (at_ ptr 0) with (deref ptr). destruct (Z.eqb_spec (deref ptr) 47) as [Eq|Eq]; cbn [negb andb].
    { apply refu_ret; [done|]. split; [unfold sized; f_equal; lia|]. split; [by left|done]. }
    destruct (STARTS_WITH_URL_DRIVE_PREFIX ptr) eqn:Ed; cbn [negb].
    { apply refu_ret; [done|]. split; [unfold sized; f_equal; lia|]. split; [by right|done]. }
    destruct (_ || _) eqn:Ec; [|by apply refu_fails].
    assert (H9 : exists p r, ptr = p ++ 47 :: r /\ zlen p = 9).
    { apply orb_prop in Ec as [Ec|Ec]; [apply (checkprefix_slash (str "localhost")) in Ec|apply (checkprefix_slash (str "127.0.0.1")) in Ec]; try done; by_compute. }
    destruct H9 as (p & r & -> & Hp9). replace (drop 9 (p ++ 47 :: r)) with (47 :: r) by (change (47 :: r = zdrop 9 (p ++ 47 :: r)); by rewrite <- Hp9, zdrop_app_exact).
    apply refu_ret; [done|]. rewrite zlen_app in Hptr. split; [unfold sized; f_equal; lia|]. split; [by left|]. etrans; [by exists p|done].
  - intros x t u1 (-> & Ht & Hst) Hu1 _. change (at_ t 0) with (deref t). destruct (_ || _) eqn:Ec; [by apply refu_fails|].
    apply orb_false_elim in Ec as [_ Ec]. rewrite Ec in Ht. destruct Ht as [Ht|Ht]; [|done].
    apply set_scheme_refines; [done|by_compute|]. intros Hu2. by apply refu_ret.
Qed.

(** * Scheme *)

Lemma skip_slashes_suffix room p : snd (skip_slashes room p) `suffix_of` p.
Proof.
  revert p. induction room as [|room IH]; intros p; cbn [skip_slashes]; [by exists []|]. case_if; [|by exists []].
  specialize (IH (drop 1 p)). destruct (skip_slashes room (drop 1 p)) as [i q]. cbn [snd] in *. etrans; [exact IH|apply drop_suffix].
Qed.

Lemma parse_scheme_refines u url s flags : fresh_ok u -> Forall is_char s ->
  refu (K := K) u (fun x t => x = t /\ t `suffix_of` url) (parse_scheme url s (zlen s) flags) (ref_scheme url s flags).
Proof.
  intros Hu Hs. unfold parse_scheme, ref_scheme. destruct s as [|c s'].
  - change (zlen []) with 0. cbn [Z.eqb negb]. destruct (negb (has flags (Z.lor _ _))); [by apply refu_fails_bind|]. eapply refu_step; [done|]. cbv beta iota.
    destruct (has flags CURLU_DEFAULT_SCHEME).
    + apply set_scheme_refines; [done|by_compute|]. intros. apply refu_ret; [done|]. split; [done|by exists []].
    + change (refu (K := K) u (fun x t => x = t /\ t `suffix_of` url) (mret url) (mret url)). apply refu_ret; [done|]. split; [done|by exists []].
  - set (s := c :: s') in *. rewrite (proj2 (Z.eqb_neq (zlen s) 0)) by (unfold s; zlia). cbn [negb].
    pose proof (skip_slashes_suffix 4 (zdrop (zlen s + 1) url)) as Hq. destruct (skip_slashes 4 _) as [i q]. cbn [snd] in Hq.
    assert (Hsq : q `suffix_of` url) by (etrans; [exact Hq|apply drop_suffix]).
    destruct (get_scheme_chars s Hs) as (h & Eh). apply uwp_assoc. eapply refu_defined; [exact Eh|]. rewrite Eh. apply uwp_assoc.
    destruct h as [h|]; [eapply refu_step; [done|]|destruct (negb (has flags CURLU_NON_SUPPORT_SCHEME)); [by apply refu_fails_bind|eapply refu_step; [done|]]];
      (destruct ((i <? 1) || (i >? 3)); [by apply refu_fails_bind|]; eapply refu_step; [done|]; cbv beta iota; apply set_scheme_refines; [done|done|]; intros; by apply refu_ret).
Qed.

(** * Host *)

Lemma guess_refines u b t flags : fresh_ok u -> host_ends b t ->
  refu (K := K) u eq (u ← getu; if has flags CURLU_GUESS_SCHEME && match u_scheme u with Some _ => false | None => true end then guess_scheme b else mret tt) (ref_guess t flags).
Proof.
  intros Hu [Hb Ht]. unfold ref_guess. apply refu_getu. unfold given.
  replace (match u_scheme u with Some _ => false | None => true end) with (negb match u_scheme u with Some _ => true | None => false end) by by destruct (u_scheme u).
  destruct (_ && _); [|by apply refu_ret]. unfold guess_scheme. eapply refu_defined; [exact Hb|]. apply uwp_modu.
  eapply uwp_lift_inr; [by apply ewp_dup|by destruct u; destruct Hu|]. apply uwp_modu_end. exists (inr tt). split; [by destruct u|]. split; [done|].
  destruct u. destruct Hu as [_ Hu]. split; [|exact Hu]. cbn. unfold guessed. repeat case_if; by_compute.
Qed.

Lemma parse_host_refines u hostp n flags : fresh_ok u -> 0 <= n <= zlen hostp -> Forall is_char hostp -> zlen hostp <= MAX_DYNBUF_SIZE ->
  (K -> zlen hostp < CURL_MAX_INPUT_LENGTH) ->
  refu (K := K) u host_ends (parse_host c_snprintf hostp n flags (curlx_dyn_init CURL_MAX_INPUT_LENGTH)) (ref_host_part (ztake n hostp) flags).
Proof.
  intros Hu Hn Hc Hm HK. unfold parse_host, ref_host_part. assert (Hz : zlen (ztake n hostp) = n) by (rewrite zlen_ztake; lia).
  destruct (ztake n hostp) as [|c auth] eqn:Et.
  - change (zlen []) with 0 in Hz. subst n. cbn [Z.eqb negb]. destruct (has flags CURLU_NO_AUTHORITY); [|by apply refu_fails].
    apply refu_lift_raw; [done|]. intros o.
    destruct (dyn_nappend_spec (curlx_dyn_init CURL_MAX_INPUT_LENGTH) [] [] o) as (b & r & o' & E & Hb & Hr); [by apply dyn_init_rep|done|].
    pose proof (dyn_nappend_oom _ _ _ _ _ _ E) as [Ho1 Ho2]. unfold E_dyn, curlx_dyn_add. change (zlen []) with 0 in *.
    unfold curlx_dyn_addn in *. change (ztake (strlen []) []) with (@nil Z). rewrite E. cbn [mbind option_bind]. do 2 eexists. split; [reflexivity|]. split; [done|].
    destruct Hr as [(-> & _ & Hr & Hnn)|[(_ & Hl & _)|(-> & _)]]; cbn [is_ok negb].
    + left. apply refu_ret; [done|]. split; [by apply held_rep|done].
    + cbn [toobig curlx_dyn_init] in Hl. change (zlen (@nil Z)) with 0 in Hl. unfold CURL_MAX_INPUT_LENGTH in Hl. lia.
    + right. split; [auto|done].
  - rewrite (proj2 (Z.eqb_neq n 0)) by (revert Hz; zlia). rewrite <- Et. clear Hz. cbn [negb]. apply refu_getu. unfold given. eapply refu_bind; [by apply authority_refines|].
    intros b t u1 Hbt Hu1 _. refine (refu_bind u1 eq host_ends _ _ (fun _ => mret b) (fun _ => mret t) (guess_refines u1 b t flags Hu1 Hbt) _).
    intros ? ? u2 _ Hu2 _. by apply refu_ret.
Qed.

(** * Fragment, query, path *)

(** Whether there is room for an encoded text. *)
Definition enc_room (url : list Z) (flags : Z) : Prop := K -> zlen url < CURL_MAX_INPUT_LENGTH /\ (has flags CURLU_URLENCODE = true -> 3 * zlen url < CURL_MAX_INPUT_LENGTH).

Lemma part_spec s t n query flags : Forall is_char s -> n = zlen s -> s <> [] -> enc_room s flags ->
  ewp mem_failure K (if has flags CURLU_URLENCODE then encoded (s ++ t) n query else E_dup s)
    (fun x => x = inr (if has flags CURLU_URLENCODE then enc_text s query else s)).
Proof.
  intros Hs Hn Hne Hr. destruct (has flags CURLU_URLENCODE) eqn:Ef; [|by apply ewp_dup]. apply encoded_spec; [done..| |done].
  intros Hk. destruct (Hr Hk) as [_ H]. rewrite Ef in H. specialize (H eq_refl). pose proof (enc_text_length s query (chars_bytes s Hs)). lia.
Qed.

Lemma fragment_refines u f flags : fresh_ok u -> Forall is_char f -> enc_room f flags ->
  refu (K := K) u eq (handle_fragment (35 :: f) (1 + zlen f) flags) (pmod (ref_fragment (Some f) flags)).
Proof.
  intros Hu Hf Hr. unfold handle_fragment, ref_fragment. apply uwp_modu. assert (Hu1 : fresh_ok (set_fragment_present true u)) by by destruct u.
  destruct f as [|c f'].
  - change (1 + zlen [] >? 1) with false. apply uwp_ret. by exists (inr tt).
  - set (f := c :: f') in *. rewrite Z.gtb_ltb, (proj2 (Z.ltb_lt _ _)) by (unfold f; zlia). cbn [drop]. rewrite drop_0. replace (1 + zlen f - 1) with (zlen f) by lia.
    replace (slice (35 :: f) 1 (zlen f)) with f by (unfold slice; change (zdrop 1 (35 :: f)) with f; by rewrite ztake_ge).
    eapply uwp_lift_inr; [pose proof (part_spec f [] (zlen f) QUERY_NO flags Hf eq_refl ltac:(done) Hr) as H; rewrite app_nil_r in H; exact H|done|].
    apply uwp_modu_end. exists (inr tt). split; [done|]. split; [done|]. by destruct u.
Qed.

Lemma query_refines u q t flags : fresh_ok u -> Forall is_char q -> enc_room q flags ->
  refu (K := K) u eq (handle_query (63 :: q ++ t) (1 + zlen q) flags) (pmod (ref_query (Some q) flags)).
Proof.
  intros Hu Hq Hr. unfold handle_query, ref_query. apply uwp_modu. assert (Hu1 : fresh_ok (set_query_present true u)) by by destruct u.
  eapply (uwp_lift_inr _ _ _ (if has flags CURLU_URLENCODE then enc_text q QUERY_YES else q)); [|done|].
  - destruct q as [|c q'].
    + change (1 + zlen [] >? 1) with false. cbv iota. replace (if has flags CURLU_URLENCODE then enc_text [] QUERY_YES else []) with (@nil Z) by by destruct (has _ _). by apply ewp_dup.
    + set (q := c :: q') in *. rewrite Z.gtb_ltb, (proj2 (Z.ltb_lt _ _)) by (unfold q; zlia). cbn [drop]. rewrite drop_0. replace (1 + zlen q - 1) with (zlen q) by lia.
      replace (slice (63 :: q ++ t) 1 (zlen q)) with q by (unfold slice; change (zdrop 1 (63 :: q ++ t)) with (q ++ t); by rewrite ztake_app_exact).
      by apply part_spec.
  - apply uwp_modu_end. exists (inr tt). split; [done|]. split; [done|]. by destruct u.
Qed.

(** The dot segments of a stored path. *)
Lemma dedot_refines u p flags : Forall is_char p -> deref p = 47 -> zlen p < MAX_DYNBUF_SIZE -> u_path u = Some p ->
  uwp mem_failure K (fun _ => True) (if negb (has flags CURLU_PATH_AS_IS) then
      '(err, dedot) ← lift (dedotdotify p (zlen p));
      if negb (err =? 0) then fails CURLUE_OUT_OF_MEMORY
      else modu (match dedot with Some p => set_path (Some p) | None => id end)
    else mret tt) u
    (fun x u' => x = inr tt /\ u' = set_path (Some (if has flags CURLU_PATH_AS_IS || (zlen p <? 2) then p else ref_dedot p)) u).
Proof.
  intros Hp Hd Hl Hu. assert (Hs : set_path (Some p) u = u) by (destruct u; cbn in Hu; by rewrite <- Hu).
  destruct (has flags CURLU_PATH_AS_IS); cbn [negb orb]; [by apply uwp_ret|]. apply uwp_lift_raw; [done|]. intros o. destruct (Z.ltb_spec (zlen p) 2) as [H2|H2].
  - exists (0, None), o. unfold dedotdotify. rewrite (proj2 (Z.ltb_lt _ _)) by lia. split; [done|]. split; [done|]. left. by apply uwp_modu_end.
  - destruct (segments_spec p Hp Hd) as (Ep & Hseg & _). destruct (dedotdotify_spec (segments p) o Hseg) as (r & o' & E & Hr & Ho); [rewrite Ep; lia|].
    rewrite Ep in E. exists r, o'. split; [done|]. split; [done|]. destruct Hr as [-> |[-> Hf]].
    + left. cbn [Z.eqb negb]. by apply uwp_modu_end.
    + right. split; [done|]. exists CURLUE_OUT_OF_MEMORY. split; [by left|done].
Qed.

Lemma enc_text_slash p query : deref p = 47 -> deref (enc_text p query) = 47.
Proof. destruct p as [|c p]; [done|]. cbn [deref]. intros ->. rewrite enc_text_cons. unfold enc_head. destruct p as [|a [|b p]]; by destruct query. Qed.

Lemma path_refines u p t flags is_file : u_path u = None -> Forall is_char p -> p = [] \/ deref p = 47 -> enc_room p flags -> 3 * zlen p < MAX_DYNBUF_SIZE ->
  uwp mem_failure K (fun _ => True) (handle_path (p ++ t) (zlen p) flags is_file) u
    (fun x u' => x = inr tt /\ u' = (match ref_path p flags is_file with Some p => set_path (Some p) | None => id end) u).
Proof.
  intros Hu Hp Hd Hr Hl. unfold handle_path, ref_path. destruct p as [|c p'].
  { change (zlen []) with 0. cbn [Z.eqb negb andb]. apply uwp_ret_bind. rewrite andb_false_r. destruct is_file; by apply uwp_ret. }
  set (p := c :: p') in *. destruct Hd as [Hd|Hd]; [done|]. rewrite (proj2 (Z.eqb_neq (zlen p) 0)) by (unfold p; zlia). cbn [negb andb].
 
  pose proof (enc_text_length p QUERY_NO (chars_bytes p Hp)) as Hlen. pose proof (zlen_nonneg p).
  destruct (has flags CURLU_URLENCODE) eqn:Ef; cbn [andb].
  - apply uwp_assoc. eapply uwp_lift_inr; [pose proof (part_spec p t (zlen p) QUERY_NO flags Hp eq_refl ltac:(done) Hr) as Hs; rewrite Ef in Hs; exact Hs|done|].
    apply uwp_assoc. apply uwp_modu. set (e := enc_text p QUERY_NO) in *.
    assert (He : Forall is_char e) by by apply enc_text_chars. assert (Hde : deref e = 47) by by apply enc_text_slash. clearbody e.
    apply uwp_ret_bind. cbv beta iota.
    destruct (zlen e >=? _); [|by apply uwp_ret]. apply uwp_getu. replace (u_path (set_path (Some e) u)) with (Some e) by by destruct u.
    apply uwp_assoc. apply uwp_modu. rewrite ztake_ge by lia. eapply uwp_mono; [apply (dedot_refines _ e flags He Hde ltac:(lia)); by destruct u|].
    intros x u' [-> ->]. split; [done|]. by destruct u.
  - apply uwp_ret_bind. cbv beta iota.
    destruct (zlen p >=? _); [|by apply uwp_ret]. apply uwp_getu. rewrite Hu, ztake_app_exact. apply uwp_assoc. eapply uwp_lift_inr; [by apply ewp_dup|done|].
    apply uwp_assoc. apply uwp_modu. eapply uwp_mono; [apply (dedot_refines _ p flags Hp Hd ltac:(lia)); by destruct u|].
    intros x u' [-> ->]. split; [done|]. by destruct u.
Qed.

(** * The parser *)

Lemma input_fits : 3 * CURL_MAX_INPUT_LENGTH < MAX_DYNBUF_SIZE.
Proof. by vm_compute. Qed.

(** The path, the query and the fragment behind the authority. *)
Definition rest_ok (t : list Z) : Prop := t = [] \/ existsb (Z.eqb (deref t)) (str "/?#") = true.

(** The text behind the authority and the host. *)
Definition located (url : list Z) (x : list Z * Z * dynbuf) (y : list Z * option (list Z)) : Prop :=
  sized (fst x) (fst y) /\ rest_ok (fst y) /\ fst y `suffix_of` url /\ dyn_give (snd x) = Some (snd y).

Lemma host_ends_give b t : host_ends b t -> dyn_give b = Some (Some t).
Proof. intros [H _]. unfold host_ends, held, dyn_give, curlx_dyn_ptr in *. destruct (bufr b); [|done]. cbn in H. by rewrite H. Qed.

Lemma suffix_facts t url : t `suffix_of` url -> Forall is_char url -> Forall is_char t /\ zlen t <= zlen url.
Proof. intros [a ->] H. apply Forall_app in H as [_ H]. split; [done|]. zlia. Qed.

Lemma authority_part_refines u url scheme flags : fresh_ok u -> Forall is_char url -> Forall is_char scheme -> zlen url <= CURL_MAX_INPUT_LENGTH ->
  (K -> zlen url < CURL_MAX_INPUT_LENGTH) ->
  refu (K := K) u (located url) (hostp ← parse_scheme url scheme (zlen scheme) flags;
     let hostlen := strcspn hostp (str "/?#") in
     let path := zdrop hostlen hostp in
     let pathlen := zlen url - (zlen url - zlen path) in
     host ← parse_host c_snprintf hostp hostlen flags (curlx_dyn_init CURL_MAX_INPUT_LENGTH);
     mret (path, pathlen, host))
    (hostp ← ref_scheme url scheme flags;
     let n := strcspn hostp (str "/?#") in
     host ← ref_host_part (ztake n hostp) flags;
     mret (zdrop n hostp, Some host)).
Proof.
  intros Hu Hc Hsc Hl HK. eapply refu_bind; [by apply parse_scheme_refines|]. intros h t u1 [-> Hs] Hu1 _. cbv zeta.
  destruct (suffix_facts t url Hs Hc) as [Hct Htl]. pose proof (proj2 (strcspn_full t (str "/?#") Hct)) as Hn. pose proof (strcspn_stop t (str "/?#") Hct) as Hst.
  eapply refu_bind.
  - apply parse_host_refines; [done|lia|done|pose proof input_fits; lia|]. intros Hk. specialize (HK Hk). lia.
  - intros b th u2 Hb Hu2 _. apply refu_ret; [done|]. unfold located. cbn [fst snd]. split; [unfold sized; f_equal; lia|]. split; [exact Hst|].
    split; [|by apply host_ends_give]. etrans; [|exact Hs]. exists (ztake (strcspn t (str "/?#")) t). by rewrite ztake_zdrop.
Qed.

(** What follows the authority. *)
Lemma tail_refines u url rest flags is_file b host : fresh_ok u -> Forall is_char url -> enc_room url flags -> zlen url <= CURL_MAX_INPUT_LENGTH ->
  rest_ok rest -> rest `suffix_of` url -> dyn_give b = Some host ->
  uwp mem_failure K (fun _ => True)
    (pathlen ←
      (match strchr rest 35 with
       | Some fragment =>
           let fraglen := zlen rest - (zlen rest - zlen fragment) in
           handle_fragment fragment fraglen flags;;
           mret (zlen rest - fraglen)
       | None => mret (zlen rest)
       end);
     pathlen ←
      (match memchr (ztake pathlen rest) 63 with
       | Some q =>
           let qlen := pathlen - q in
           handle_query (zdrop q rest) qlen flags;;
           mret (pathlen - qlen)
       | None => mret pathlen
       end);
     handle_path rest pathlen flags is_file;;
     h ← lift (defined (dyn_give b));
     modu (set_host h)) u
    (fun x u' => (let '(rest, fragment) := cut_at 35 rest in
                  let '(path, query) := cut_at 63 rest in
                  pmod (ref_fragment fragment flags);;
                  pmod (ref_query query flags);;
                  pmod (match ref_path path flags is_file with Some p => set_path (Some p) | None => id end);;
                  pmod (set_host host)) u = (x, u')).
Proof.
  intros Hu Hc Hr Hl Hro Hs Hb. destruct (suffix_facts rest url Hs Hc) as [Hcr Hlr].
  assert (Hroom : forall t, zlen t <= zlen rest -> enc_room t flags).
  { intros t Ht Hk. destruct (Hr Hk) as [H1 H2]. split; [lia|]. intros Hf. specialize (H2 Hf). lia. }
  pose proof (cut_at_spec 35 rest) as H35. destruct (cut_at 35 rest) as [rest1 f]. destruct H35 as (-> & -> & Hn35).
  pose proof (memchr_cut 63 rest1) as Hm. pose proof (cut_at_spec 63 rest1) as H63. destruct (cut_at 63 rest1) as [p q]. destruct H63 as (-> & _ & Hn63).
  apply Forall_app in Hcr as [Hcr Hcf]. apply Forall_app in Hcr as [Hcp Hcq]. rewrite !zlen_app in Hlr, Hroom. pose proof input_fits. zlen_pos.
  assert (Hp : p = [] \/ deref p = 47).
  { destruct p as [|c p]; [by left|]. right. destruct Hro as [Hro|Hro]; [done|]. cbn [app deref] in *. apply Forall_cons in Hn63 as [Hn63 _].
    apply Forall_cons in Hn35 as [Hn35 _]. cbn [existsb] in Hro.
    change (((c =? 47) || ((c =? 63) || ((c =? 35) || false))) = true) in Hro. rewrite (proj2 (Z.eqb_neq c 63)), (proj2 (Z.eqb_neq c 35)) in Hro by done.
    rewrite !orb_false_r in Hro. by apply Z.eqb_eq in Hro. }
  set (u1 := ref_fragment f flags u). set (u2 := ref_query q flags u1).
  eapply (uwp_bind _ _ _ (fun x u' => x = inr (zlen (p ++ cut_tail 63 q)) /\ u' = u1 /\ fresh_ok u')).
  { destruct f as [f|]; cbn [fmap option_fmap option_map cut_tail].
    - eapply uwp_bind; [eapply uwp_weaken; [done|]; cbn [cut_tail] in *; rewrite zlen_cons in *; replace (_ - _) with (1 + zlen f) by zlia; apply (fragment_refines u f flags Hu)| |].
      + by apply Forall_cons in Hcf as [_ ?].
      + apply Hroom. lia.
      + intros a u' (y & [= <- <-] & _ & Hu'). apply uwp_ret. split; [f_equal; zlia|]. by split.
      + by intros e u' (y & [= <- <-] & Hfalse & _).
    - apply uwp_ret. rewrite app_nil_r. by split. }
  2: { by intros e u' ([=] & _). }
  intros n u' ([= ->] & -> & Hu1). rewrite ztake_app_exact, Hm.
  eapply (uwp_bind _ _ _ (fun x u' => x = inr (zlen p) /\ u' = u2 /\ fresh_ok u')).
  { destruct q as [q|]; cbn [fmap option_fmap option_map cut_tail].
    - rewrite <- app_assoc, zdrop_app_exact. cbn [app].
      eapply uwp_bind; [eapply uwp_weaken; [done|]; cbn [cut_tail] in *; rewrite zlen_cons in *; replace (_ - _) with (1 + zlen q) by zlia; apply (query_refines u1 q (cut_tail 35 f) flags Hu1)| |].
      + by apply Forall_cons in Hcq as [_ ?].
      + apply Hroom. lia.
      + intros a u' (y & [= <- <-] & _ & Hu'). apply uwp_ret. split; [f_equal; zlia|]. by split.
      + by intros e u' (y & [= <- <-] & Hfalse & _).
    - apply uwp_ret. rewrite app_nil_r. by split. }
  2: { by intros e u' ([=] & _). }
  intros n u' ([= ->] & -> & Hu2). rewrite <- app_assoc. eapply uwp_bind; [apply (path_refines u2 p _ flags is_file)| |].
  - by destruct Hu2.
  - done.
  - done.
  - apply Hroom. lia.
  - lia.
  - intros a u' [_ ->]. eapply uwp_defined_bind; [exact Hb|]. by apply uwp_modu_end.
  - by intros e u' [[=] _].
Qed.

Lemma parseurl_refines u url flags : fresh_ok u -> Forall is_char url -> enc_room url flags ->
  uwp mem_failure K (fun _ => True) (parseurl c_snprintf url flags) u (fun x u' => ref_parse url flags u = (x, u')).
Proof.
  intros Hu Hc Hr. unfold parseurl, ref_parse, Curl_junkscan, ref_junk. rewrite Z.gtb_ltb.
  destruct (Z.ltb_spec CURL_MAX_INPUT_LENGTH (zlen url)) as [|Hl]; [by apply uwp_fails|]. cbn [orb].
  destruct (junk _ url); [by apply uwp_fails|]. eapply uwp_lift_inr; [by apply ewp_ret|done|].
  destruct (abs_url_spec url (has flags (Z.lor CURLU_GUESS_SCHEME CURLU_DEFAULT_SCHEME)) Hc) as (s & Es & Hs). rewrite Es. cbv beta iota zeta.
  assert (Hcs : Forall is_char s).
  { destruct Hs as [->|(r & -> & _)]; [constructor|]. by apply Forall_app in Hc as [? _]. }
  assert (Ef : negb (zlen s =? 0) && bool_decide (map lower s = str "file") = bool_decide (map lower s = str "file")) by by destruct s.
  rewrite Ef. set (scheme := map lower s) in *. assert (Hsc : Forall is_char scheme) by by apply lower_chars. replace (zlen s) with (zlen scheme) by apply zlen_map. clearbody scheme.
  set (is_file := bool_decide (scheme = str "file")).
  change (mbind (M := P) ?f (plift (inr tt)) u) with (f tt u).
  eapply (uwp_bind _ _ _ (fun x u' => exists y, (if is_file then p ← ref_file url; mret (p, None)
     else hostp ← ref_scheme url scheme flags; let n := strcspn hostp (str "/?#") in host ← ref_host_part (ztake n hostp) flags; mret (zdrop n hostp, Some host)) u = (y, u') /\ agree (located url) x y /\ fresh_ok u')).
  - eapply uwp_weaken; [done|]. destruct is_file.
    + eapply refu_bind; [by apply parse_file_refines|]. intros x t u1 (-> & Ht & Hst) Hu1 _. apply refu_ret; [done|]. split; [done|]. split; [|by split].
      right. unfold rest_ok. cbn [fst]. by rewrite Ht.
    + apply authority_part_refines; try done. intros Hk. by destruct (Hr Hk).
  - intros [[path pathlen] b] u1 (y & Ey & Hy & Hu1). destruct y as [e|[rest host]]; [done|]. destruct Hy as ([= -> ->] & Hro & Hsr & Hb). cbn [fst snd] in *.
    eapply uwp_mono; [by apply (tail_refines u1 url rest flags is_file b host)|]. intros x u' <-. cbv zeta. unfold mbind at 1, P_bind at 1. cbv zeta in Ey. rewrite Ey. done.
  - intros e u1 (y & Ey & Hy & Hu1). destruct y as [e'|y]; [|done]. cbn in Hy. subst e'. cbv zeta in *. unfold mbind at 1, P_bind at 1. by rewrite Ey.
Qed.


End Whole.

(** ** The theorem *)

(** Texts that fit the buffers, encoded or not. *)
Definition fits (url : list Z) (flags : Z) : Prop :=
  zlen url < CURL_MAX_INPUT_LENGTH /\ (has flags CURLU_URLENCODE = true -> 3 * zlen url < CURL_MAX_INPUT_LENGTH).

Lemma replace_refines c_snprintf url flags u o : Forall is_char url ->
  exists x u' o', parseurl_and_replace c_snprintf url flags u o = Some (x, u', o') /\ (false ∈ o' -> false ∈ o) /\
    (x = fst (ref_parse url flags empty_url) /\ u' = (match x with inl _ => u | inr _ => snd (ref_parse url flags empty_url) end) \/
     (exists e, x = inl e /\ mem_failure e) /\ u' = u /\ (false ∈ o \/ ~ fits url flags)).
Proof.
  intros Hc. unfold parseurl_and_replace.
  destruct (parseurl_refines (K := fits url flags) c_snprintf empty_url url flags) with (o := o) as (x & u' & o' & E & H & Ho); [done|done|by intros H|].
  rewrite E. cbn [mbind option_bind]. exists (match x with inl e => inl e | inr _ => inr tt end), (match x with inl _ => u | inr _ => u' end), o'.
  split; [by destruct x as [|[]]|]. split; [done|]. destruct H as [H|((e & -> & He) & Hs & _)].
  - left. rewrite H. cbn [fst snd]. by destruct x as [e|[]].
  - right. split; [by exists e|]. split; [done|]. exact Hs.
Qed.

(** C35: the parser of URLs refines the functions on texts: for any C string,
    whatever allocations fail, it stays in its memory and returns, and unless
    memory is short it gives the result and the handle of [ref_parse] on an
    empty handle; on a failure of any kind the handle is as before. *)
Theorem url_parser_refines c_snprintf url flags u o : Forall is_char url ->
  exists x u' o', parseurl_and_replace c_snprintf url flags u o = Some (x, u', o') /\
    (x = fst (ref_parse url flags empty_url) /\ u' = (match x with inl _ => u | inr _ => snd (ref_parse url flags empty_url) end) \/
     (exists e, x = inl e /\ mem_failure e) /\ u' = u /\ (false ∈ o \/ ~ fits url flags)).
Proof.
  intros Hc. destruct (replace_refines c_snprintf url flags u o Hc) as (x & u' & o' & E & _ & H). by exists x, u', o'.
Qed.

Definition url_example : list Z := str "HTTP://me:pw@[0:0::1%25eth0]:080/a/./b/../c?q=%41#f".

Definition url_example_handle : Curl_URL :=
  URL (Some (str "http")) (Some (str "me")) (Some (str "pw")) None (Some (str "[::1]")) (Some (str "eth0"))
    (Some (str "/a/c")) (Some (str "q=%41")) (Some (str "f")) 80 true true true false.

Lemma url_parser_refines_witness : exists o',
  parseurl_and_replace (fun _ _ => []) url_example 0 empty_url [] = Some (inr tt, url_example_handle, o').
Proof.
  destruct (url_parser_refines (fun _ _ => []) url_example 0 empty_url []) as (x & u' & o' & E & H); [by_compute|]. exists o'.
  assert (Er : ref_parse url_example 0 empty_url = (inr tt, url_example_handle)) by by vm_compute.
  rewrite Er in H. cbn [fst snd] in H. destruct H as [[Hx Hu]|(_ & _ & [H|H])].
  - subst x. subst u'. exact E.
  - apply elem_of_nil in H as [].
  - destruct H. split; [by vm_compute|done].
Defined.
