(* ===== verification/UrlText.v ===== *)
(** Well-formed handles, their text, and the parser on that text. *)

From Stdlib Require Import ZArith Lia List String.
From stdpp Require Import base numbers option list.
From S2P Require Import Prelude Dynbuf Strparse Strcase Escape InetAddr Mprintf PrintfFormat Protocol Urlapi UrlParse UrlPath UrlSet UrlRules UrlDots UrlPrint UrlHost UrlRef UrlRefine UrlIp6 UrlEnc UrlWhole.
Close Scope nat_scope.
Open Scope Z_scope.

(** * Well-formed handles *)

(** What the parser lets through: no control characters, no spaces. *)
Definition url_char (c : Z) : bool := (33 <=? c) && (c <? 256) && negb (c =? 127).

(** A text without certain separators. *)
Definition plain_text (seps s : list Z) : bool := forallb (fun c => url_char c && negb (existsb (Z.eqb c) seps)) s.

Definition scheme_text (s : list Z) : bool :=
  ISALPHA (deref s) && forallb scheme_char s && bool_decide (map lower s = s) && (zlen s <=? MAX_SCHEME_LEN).

(** A zone that is not taken for one with a percent sign in front. *)
Definition zone_ok (zone : option (list Z)) : Prop :=
  match zone with
  | None => True
  | Some z => 1 <= zlen z < MAX_ZONEID_LEN /\ plain_text (str "/?#@]%") z = true /\ (take 2 z = str "25" -> zlen z <= 2)
  end.

(** A host and its zone: a name, the four bytes of an IPv4 address, an IPv6
    address in its usual form, or in another one that is shorter. *)
Inductive host_ok : list Z -> option (list Z) -> Prop :=
  | Host_name h : h <> [] -> plain_text [] h = true -> name_ok h = true -> numeric h = None -> host_ok h None
  | Host_ip4 v : 0 <= v <= UINT_MAX -> host_ok (ip4_print v) None
  | Host_ip6 a b zone : ip6_text a b -> a = rfc5952 b \/ zlen a < zlen (rfc5952 b) -> zone_ok zone -> host_ok (91 :: a ++ [93]) zone.

(** User, password and options; [opts] says that the scheme takes options. *)
Definition login_ok (user password options : option (list Z)) (opts : bool) : Prop :=
  match user with
  | None => password = None /\ options = None
  | Some u =>
      plain_text (str "/?#@:" ++ if opts then str ";" else []) u = true /\
      match password with Some p => plain_text (str "/?#@" ++ if opts then str ";" else []) p = true | None => True end /\
      match options with
      | Some o => opts = true /\ o <> [] /\ plain_text (str "/?#@" ++ match password with None => str ":" | _ => [] end) o = true
      | None => True
      end
  end.

Definition port_ok (port : Z) (present : bool) : Prop := if present then 0 <= port <= 65535 else port = 0.

(** Segments without dots. *)
Definition path_ok (p : list Z) : Prop :=
  exists segs, segs <> [] /\ p = path_of segs /\ Forall (fun s => plain_text (str "/?#") s = true /\ no_dots s) segs.

Definition query_ok (q : option (list Z)) (present : bool) : Prop :=
  match q with Some q => present = true /\ plain_text (str "#") q = true | None => present = false end.

Definition fragment_ok (f : option (list Z)) (present : bool) : Prop :=
  match f with Some f => present = true /\ f <> [] /\ plain_text [] f = true | None => True end.

(** The flags of the parser that a handle needs. *)
Definition scheme_known (s : list Z) (flags : Z) : Prop :=
  (exists h, Curl_get_scheme s = Some (Some h)) \/ has flags CURLU_NON_SUPPORT_SCHEME = true.

(** * Its text *)

Definition opt_text (c : Z) (x : option (list Z)) : list Z := match x with Some s => c :: s | None => [] end.

Definition login_text (user password options : option (list Z)) : list Z :=
  match user with None => [] | Some u => u ++ opt_text 58 password ++ opt_text 59 options ++ [64] end.

Definition host_text (h : list Z) (zone : option (list Z)) : list Z :=
  match zone with None => h | Some z => ztake (zlen h - 1) h ++ str "%25" ++ z ++ [93] end.

Definition port_text (port : Z) (present : bool) : list Z := if present then 58 :: dec port else [].

Definition tail_text (path query fragment : option (list Z)) (qp fp : bool) : list Z :=
  default (str "/") path ++ (if qp then 63 :: default [] query else []) ++ (if fp then 35 :: default [] fragment else []).

Definition auth_text (u : Curl_URL) : list Z :=
  login_text (u_user u) (u_password u) (u_options u) ++ host_text (default [] (u_host u)) (u_zoneid u) ++ port_text (u_portnum u) (u_port_present u).

Definition url_text (u : Curl_URL) : list Z :=
  default [] (u_scheme u) ++ str "://" ++ auth_text u ++ tail_text (u_path u) (u_query u) (u_fragment u) (u_query_present u) (u_fragment_present u).

(** ** Well-formed *)

Inductive wf_url (flags : Z) : Curl_URL -> Prop :=
  | Wf_file path query fragment qp fp :
      path_ok path -> STARTS_WITH_URL_DRIVE_PREFIX (drop 1 (tail_text (Some path) query fragment qp fp)) = false -> query_ok query qp -> fragment_ok fragment fp ->
      wf_url flags (URL (Some (str "file")) None None None None None (Some path) query fragment 0 false qp fp false)
  | Wf_host scheme user password options host zone path query fragment port pp qp fp :
      scheme_text scheme = true -> scheme <> str "file" -> scheme_known scheme flags ->
      login_ok user password options (takes_options (Some scheme)) -> (given user = true -> has flags CURLU_DISALLOW_USER = false) ->
      host_ok host zone -> port_ok port pp ->
      match path with Some p => path_ok p /\ 2 <= zlen p | None => True end ->
      query_ok query qp -> fragment_ok fragment fp ->
      wf_url flags (URL (Some scheme) user password options (Some host) zone path query fragment port pp qp fp false).

(** * Texts *)

Lemma plain_app seps a b : plain_text seps (a ++ b) = plain_text seps a && plain_text seps b.
Proof. apply forallb_app. Qed.

Lemma plain_weaken seps seps' s : (forall c, existsb (Z.eqb c) seps' = true -> existsb (Z.eqb c) seps = true) -> plain_text seps s = true -> plain_text seps' s = true.
Proof.
  intros H. unfold plain_text. rewrite !forallb_forall. intros Hs c Hc. specialize (Hs c Hc). apply andb_prop in Hs as [-> Hs]. cbn [andb].
  specialize (H c). destruct (existsb _ seps'); [|done]. by rewrite H in Hs.
Qed.

Lemma plain_nil seps s : plain_text seps s = true -> plain_text [] s = true.
Proof. by apply plain_weaken. Qed.

(** The separator is not there. *)
Lemma plain_no c seps s : plain_text seps s = true -> existsb (Z.eqb c) seps = true -> Forall (fun x => x <> c) s.
Proof.
  unfold plain_text. rewrite forallb_forall, Forall_forall. intros H Hc x Hx. apply list_elem_of_In in Hx. specialize (H x Hx).
  apply andb_prop in H as [_ H]. intros ->. by rewrite Hc in H.
Qed.

Lemma plain_chars seps s : plain_text seps s = true -> Forall is_char s.
Proof.
  unfold plain_text. rewrite forallb_forall, Forall_forall. intros H x Hx. apply list_elem_of_In in Hx. specialize (H x Hx).
  apply andb_prop in H as [H _]. unfold url_char in H. zb_hyps. unfold is_char. lia.
Qed.

Lemma plain_cons seps c s : plain_text seps (c :: s) = url_char c && negb (existsb (Z.eqb c) seps) && plain_text seps s.
Proof. done. Qed.

Lemma junk_plain s : plain_text [] s = true -> junk 32 s = false /\ junk 31 s = false.
Proof.
  induction s as [|c s IH]; [done|]. rewrite plain_cons. intros H. apply andb_prop in H as [H Hs]. apply andb_prop in H as [H _]. destruct (IH Hs) as [H1 H2].
  unfold url_char in H. zb_hyps. cbn [junk]. rewrite H1, H2, !orb_false_r. split; apply orb_false_intro; lia.
Qed.

Lemma strchr_skip c a r : Forall (fun x => x <> c) a -> strchr (a ++ r) c = strchr r c.
Proof. induction 1 as [|x a Hx _ IH]; [done|]. cbn [app strchr]. by rewrite (proj2 (Z.eqb_neq x c)), IH. Qed.

Lemma strchr_found c a r : Forall (fun x => x <> c) a -> strchr (a ++ c :: r) c = Some (c :: r).
Proof. intros H. rewrite strchr_skip by done. cbn [strchr]. by rewrite Z.eqb_refl. Qed.

Lemma strchr_none c a : Forall (fun x => x <> c) a -> strchr a c = None.
Proof. intros H. rewrite <- (app_nil_r a), strchr_skip by done. done. Qed.

Lemma memchr_found c a r : Forall (fun x => x <> c) a -> memchr (a ++ c :: r) c = Some (zlen a).
Proof. intros H. unfold memchr, pos_of. rewrite strchr_found by done. cbn. f_equal. zlia. Qed.

Lemma memchr_none c a : Forall (fun x => x <> c) a -> memchr a c = None.
Proof. intros H. unfold memchr, pos_of. by rewrite strchr_none. Qed.

Lemma cut_at_found c a r : Forall (fun x => x <> c) a -> cut_at c (a ++ c :: r) = (a, Some r).
Proof. induction 1 as [|x a Hx _ IH]; cbn [app cut_at]; [by rewrite Z.eqb_refl|]. by rewrite (proj2 (Z.eqb_neq x c)), IH. Qed.

Lemma cut_at_none c a : Forall (fun x => x <> c) a -> cut_at c a = (a, None).
Proof. induction 1 as [|x a Hx _ IH]; cbn [cut_at]; [done|]. by rewrite (proj2 (Z.eqb_neq x c)), IH. Qed.

Lemma strcspn_found a r l : Forall is_char a -> Forall (fun c => existsb (Z.eqb c) l = false) a -> existsb (Z.eqb (deref r)) l = true -> r <> [] -> strcspn (a ++ r) l = zlen a.
Proof.
  intros Ha Hl Hr Hn. induction Ha as [|c a Hc Ha IH]; cbn [app strcspn].
  - destruct r as [|x r]; [done|]. cbn [deref] in Hr. cbn [strcspn]. by rewrite Hr, orb_true_r.
  - apply Forall_cons in Hl as [Hx Hl]. cbv beta in Hx. rewrite (proj2 (Z.eqb_neq c 0)) by (unfold is_char in Hc; lia). rewrite Hx, IH by done. cbn [orb]. by rewrite zlen_cons.
Qed.

Lemma P_bind_eq {A B} (m : P A) (f : A -> P B) u a u' : m u = (inr a, u') -> (m ≫= f) u = f a u'.
Proof. intros E. unfold mbind, P_bind. by rewrite E. Qed.

(** * Scheme *)

Lemma scheme_end_exact rounds : forall a i r, Forall (fun c => scheme_char c = true) a -> scheme_char (deref r) = false -> (length a <= rounds)%nat ->
  scheme_end rounds i (a ++ r) = i + zlen a.
Proof.
  induction rounds as [|rounds IH]; intros a i r Ha Hr Hl.
  - destruct a; [|cbn in Hl; lia]. cbn. unfold zlen. cbn. lia.
  - unfold scheme_char in *. destruct Ha as [|c a Hc Ha]; cbn [app scheme_end].
    + rewrite Hr, andb_false_r. unfold zlen. cbn. lia.
    + cbn [deref drop]. rewrite Hc, drop_0, andb_true_r. destruct (Z.eqb_spec c 0) as [->|_]; [done|]. cbn [negb]. rewrite IH by (done || cbn [length] in Hl; lia). zlia.
Qed.

Lemma scheme_text_facts s : scheme_text s = true -> Forall (fun c => scheme_char c = true) s /\ ISALPHA (deref s) = true /\ map lower s = s /\ zlen s <= MAX_SCHEME_LEN /\ s <> [].
Proof.
  unfold scheme_text. intros H. repeat (apply andb_prop in H as [H ?]). apply bool_decide_eq_true in H1. zb_hyps. split_and!; try done; [|by intros ->].
  rewrite forallb_forall in H2. rewrite Forall_forall. intros x Hx. apply H2. by apply list_elem_of_In.
Qed.

Lemma scheme_char_facts c : scheme_char c = true -> is_char c /\ url_char c = true /\ c <> 58.
Proof.
  intros H. assert (Hb : is_byte c). { unfold scheme_char, ISALNUM, ISDIGIT, ISLOWER, ISUPPER, between in H. unfold is_byte. repeat (apply orb_prop in H as [H|H]); zb_hyps; lia. }
  pose (Q := fun c => implb (scheme_char c) ((1 <=? c) && (c <? 256) && url_char c && negb (c =? 58))).
  assert (HQ : Q c = true) by (apply byte_forall; [by vm_compute|done]). unfold Q in HQ. rewrite H in HQ. cbn [implb] in HQ.
  repeat (apply andb_prop in HQ as [HQ ?]). zb_hyps. unfold is_char. split_and!; [lia|lia|done|done].
Qed.

Lemma abs_url_text s r guess : scheme_text s = true -> Curl_is_absolute_url (s ++ str "://" ++ r) guess = (zlen s, s).
Proof.
  intros Hs. destruct (scheme_text_facts s Hs) as (Hc & Ha & Hm & Hl & Hn). unfold Curl_is_absolute_url.
  assert (E1 : deref (zdrop (zlen s) (s ++ str "://" ++ r)) = 58) by by rewrite zdrop_app_exact.
  assert (E2 : deref (zdrop (zlen s + 1) (s ++ str "://" ++ r)) = 47).
  { replace (zlen s + 1) with (zlen (s ++ [58])) by zlia. change (str "://" ++ r) with ([58] ++ 47 :: 47 :: r). by rewrite app_assoc, zdrop_app_exact. }
  assert (E3 : Curl_strntolower (s ++ str "://" ++ r) (zlen s) = s).
  { rewrite strntolower_prefix; [done| |done]. eapply Forall_impl; [exact Hc|]. intros; by apply scheme_char_facts. }
  assert (E4 : deref (s ++ str "://" ++ r) = deref s) by by destruct s. rewrite E4, Ha.
  assert (E5 : scheme_end 39 1 (drop 1 (s ++ str "://" ++ r)) = zlen s).
  { destruct s as [|c a]; [done|]. apply Forall_cons in Hc as [Hc Hca]. cbn [app drop]. rewrite drop_0. unfold MAX_SCHEME_LEN, zlen in Hl. cbn [length] in Hl.
    rewrite scheme_end_exact; [zlia|done|done|lia]. }
  rewrite E5, E1, E2, E3, (proj2 (Z.eqb_neq (zlen s) 0)); [done|]. destruct s; [done|zlia].
Qed.

Lemma ref_scheme_text s x flags u : scheme_text s = true -> scheme_known s flags -> deref x <> 47 ->
  ref_scheme (s ++ str "://" ++ x) s flags u = (inr x, set_scheme (Some s) u).
Proof.
  intros Hs Hk Hx. destruct (scheme_text_facts s Hs) as (_ & _ & _ & _ & Hn). unfold ref_scheme. destruct s as [|c s']; [done|]. set (s := c :: s') in *.
  assert (E : zdrop (zlen s + 1) (s ++ str "://" ++ x) = 47 :: 47 :: x).
  { replace (zlen s + 1) with (zlen (s ++ [58])) by zlia. change (str "://" ++ x) with ([58] ++ 47 :: 47 :: x). by rewrite app_assoc, zdrop_app_exact. }
  rewrite E. assert (Es : skip_slashes 4 (47 :: 47 :: x) = (2, x)).
  { cbn [skip_slashes deref drop]. change (47 =? 47) with true. cbv iota. rewrite !drop_0. by rewrite (proj2 (Z.eqb_neq (deref x) 47)). }
  rewrite Es. destruct Hk as [[h ->]| ->]; [done|]. by destruct (Curl_get_scheme s) as [[h|]|].
Qed.

(** * Login details *)

Lemma plain_sep c seps seps2 s : plain_text (seps ++ seps2) s = true -> existsb (Z.eqb c) seps2 = true -> Forall (fun x => x <> c) s.
Proof. intros H Hc. eapply plain_no; [exact H|]. rewrite existsb_app, Hc. apply orb_true_r. Qed.

Lemma ztake_len {A} (l : list A) n : n = zlen l -> ztake n l = l.
Proof. intros ->. by rewrite ztake_ge. Qed.

Lemma slice_mid {A} (a b c : list A) n m : n = zlen a -> m = zlen b -> slice (a ++ b ++ c) n m = b.
Proof. intros -> ->. unfold slice. by rewrite zdrop_app_exact, ztake_app_exact. Qed.

Lemma ref_login_text user password options opts : login_ok (Some user) password options opts ->
  ref_login (user ++ opt_text 58 password ++ opt_text 59 options) opts = (user, password, options).
Proof.
  intros (Hu & Hp & Ho). unfold ref_login.
  assert (Hu58 : Forall (fun x => x <> 58) user) by (eapply plain_no; [exact Hu|done]).
  assert (Hs59 : opts = true -> Forall (fun x => x <> 59) user) by (intros ->; eapply plain_no; [exact Hu|done]).
  destruct password as [p|]; cbn [opt_text].
  - change ((58 :: p) ++ opt_text 59 options) with (58 :: p ++ opt_text 59 options). rewrite memchr_found by done.
    assert (Hp59 : opts = true -> Forall (fun x => x <> 59) (user ++ 58 :: p)).
    { intros ->. apply Forall_app_2; [auto|]. apply Forall_cons_2; [done|]. eapply plain_no; [exact Hp|done]. }
    destruct options as [o|]; cbn [opt_text].
    + destruct Ho as (-> & Hne & _). rewrite (app_comm_cons p), app_assoc, memchr_found by auto. unfold login_lengths.
      rewrite Z.gtb_ltb, (proj2 (Z.ltb_ge _ _)) by zlia. rewrite Z.gtb_ltb, (proj2 (Z.ltb_lt _ _)) by zlia.
      cbn [fmap option_fmap option_map mbind option_bind]. rewrite (proj2 (Z.eqb_neq _ 0)) by (destruct o; [done|zlia]).
      f_equal; [f_equal|].
      * rewrite <- app_assoc. apply ztake_app_exact.
      * f_equal. rewrite <- app_assoc. change (58 :: p ++ 59 :: o) with ([58] ++ p ++ 59 :: o). cbn [app]. change (user ++ 58 :: p ++ 59 :: o) with (user ++ [58] ++ p ++ 59 :: o).
        rewrite app_assoc. apply slice_mid; zlia.
      * f_equal. replace ((user ++ 58 :: p) ++ 59 :: o) with (((user ++ 58 :: p) ++ [59]) ++ o ++ []) by (rewrite app_nil_r, <- !app_assoc; done). apply slice_mid; zlia.
    + rewrite app_nil_r. assert (E : (if opts then memchr (user ++ 58 :: p) 59 else None) = None) by (destruct opts; [by apply memchr_none, Hp59|done]). rewrite E. unfold login_lengths.
      cbn [fmap option_fmap option_map mbind option_bind]. f_equal. f_equal.
      * apply ztake_app_exact.
      * f_equal. replace (user ++ 58 :: p) with ((user ++ [58]) ++ p ++ []) by (rewrite app_nil_r, <- app_assoc; done). apply slice_mid; zlia.
  - cbn [app]. destruct options as [o|]; cbn [opt_text].
    + destruct Ho as (-> & Hne & Ho). rewrite memchr_none by (apply Forall_app_2; [done|]; apply Forall_cons_2; [done|]; eapply plain_no; [exact Ho|done]).
      rewrite memchr_found by auto. unfold login_lengths. cbn [fmap option_fmap option_map mbind option_bind]. rewrite (proj2 (Z.eqb_neq _ 0)) by (destruct o; [done|zlia]).
      f_equal; [f_equal; apply ztake_app_exact|]. f_equal. replace (user ++ 59 :: o) with ((user ++ [59]) ++ o ++ []) by (rewrite app_nil_r, <- app_assoc; done). apply slice_mid; zlia.
    + rewrite app_nil_r, memchr_none by done. assert (E : (if opts then memchr user 59 else None) = None) by (destruct opts; [by apply memchr_none, Hs59|done]). rewrite E. cbn.
      by rewrite ztake_len.
Qed.

Lemma hostname_login_text s user password options h flags u : login_ok user password options (takes_options (Some s)) ->
  (given user = true -> has flags CURLU_DISALLOW_USER = false) -> Forall (fun x => x <> 64) h ->
  u = set_scheme (Some s) empty_url ->
  ref_hostname_login (login_text user password options ++ h) flags u = (inr h, URL (Some s) user password options None None None None None 0 false false false false).
Proof.
  intros Hl Hd Hh ->. unfold ref_hostname_login, login_text. destruct user as [user|].
  2: { cbn [app]. rewrite memchr_none by done. destruct Hl as [-> ->]. done. }
  set (lt := user ++ opt_text 58 password ++ opt_text 59 options).
  replace ((user ++ opt_text 58 password ++ opt_text 59 options ++ [64]) ++ h) with (lt ++ 64 :: h) by (unfold lt; rewrite <- !app_assoc; done).
  assert (Hat : Forall (fun x => x <> 64) lt).
  { destruct Hl as (H1 & H2 & H3). unfold lt. apply Forall_app_2; [eapply plain_no; [exact H1|done]|]. apply Forall_app_2.
    - destruct password as [p|]; [|constructor]. apply Forall_cons_2; [done|]. eapply plain_no; [exact H2|done].
    - destruct options as [o|]; [|constructor]. apply Forall_cons_2; [done|]. destruct H3 as (_ & _ & H3). eapply plain_no; [exact H3|done]. }
  rewrite memchr_found by done. rewrite ztake_app_exact. unfold pget. erewrite P_bind_eq by reflexivity. change (u_scheme (set_scheme (Some s) empty_url)) with (Some s).
  unfold lt. rewrite (ref_login_text user password options _ Hl). rewrite Hd by done. fold lt.
  replace (zdrop (zlen lt + 1) (lt ++ 64 :: h)) with h; [by destruct password, options|].
  replace (zlen lt + 1) with (zlen (lt ++ [64])) by zlia. change (64 :: h) with ([64] ++ h). by rewrite app_assoc, zdrop_app_exact.
Qed.

(** * Host *)

Lemma plain_of_forall seps s : Forall (fun c => url_char c && negb (existsb (Z.eqb c) seps) = true) s -> plain_text seps s = true.
Proof. intros H. unfold plain_text. rewrite forallb_forall. intros x Hx. rewrite Forall_forall in H. apply H. by apply list_elem_of_In. Qed.

Lemma name_ok_no c h : name_ok h = true -> existsb (Z.eqb c) HOSTNAME_INVALID_CHARS = true -> Forall (fun x => x <> c) h.
Proof.
  unfold name_ok. intros H Hc. apply andb_prop in H as [H _]. apply andb_prop in H as [H _]. rewrite forallb_forall in H. rewrite Forall_forall.
  intros x Hx. apply list_elem_of_In in Hx. specialize (H x Hx). intros ->. by rewrite Hc in H.
Qed.

Lemma letters_plain seps a : Forall (fun c => ip6_letter c = true) a -> forallb (fun c => negb (ip6_letter c) || url_char c && negb (existsb (Z.eqb c) seps)) IPV6_LETTERS = true -> plain_text seps a = true.
Proof.
  intros Ha Hs. apply plain_of_forall. eapply Forall_impl; [exact Ha|]. intros c Hc. cbv beta in *. rewrite forallb_forall in Hs.
  assert (Hin : In c IPV6_LETTERS). { unfold ip6_letter in Hc. apply existsb_exists in Hc as (x & Hx & E). apply Z.eqb_eq in E. by subst. }
  specialize (Hs c Hin). by rewrite Hc in Hs.
Qed.

Lemma host_text_ip6 a zone : host_text (91 :: a ++ [93]) zone = 91 :: (a ++ match zone with None => [] | Some z => str "%25" ++ z end) ++ [93].
Proof.
  unfold host_text. destruct zone as [z|]; [|by rewrite app_nil_r]. replace (zlen (91 :: a ++ [93]) - 1) with (zlen (91 :: a)) by zlia.
  rewrite app_comm_cons, ztake_app_exact, <- !app_assoc. done.
Qed.

Definition host_shape (H : list Z) : Prop :=
  (exists body, H = 91 :: body ++ [93] /\ Forall (fun x => x <> 93) body) \/ (deref H <> 91 /\ H <> [] /\ Forall (fun x => x <> 58) H).

Lemma zone_plain z seps : plain_text (str "/?#@]%") z = true -> (forall c, existsb (Z.eqb c) seps = true -> existsb (Z.eqb c) (str "/?#@]%") = true) -> plain_text seps z = true.
Proof. intros H Hs. by eapply plain_weaken. Qed.

Lemma host_text_spec h zone : host_ok h zone -> plain_text (str "/?#@") (host_text h zone) = true /\ host_shape (host_text h zone).
Proof.
  intros [h' Hn Hp Hok Hnum|v Hv|a b z Hab _ Hz].
  - cbn [host_text]. split.
    + apply plain_of_forall. rewrite Forall_forall. intros x Hx. unfold plain_text in Hp. rewrite forallb_forall in Hp. pose proof (Hp x (proj1 (list_elem_of_In _ _) Hx)) as Hxp.
      apply andb_prop in Hxp as [-> _]. cbn [andb]. destruct (existsb (Z.eqb x) (str "/?#@")) eqn:E; [|done]. exfalso.
      assert (Hi : existsb (Z.eqb x) HOSTNAME_INVALID_CHARS = true).
      { revert E. cbn. rewrite !orb_false_r. intros E. repeat (apply orb_prop in E as [E|E]); apply Z.eqb_eq in E; by subst x. }
      pose proof (name_ok_no x h' Hok Hi) as HF. rewrite Forall_forall in HF. by apply (HF x Hx).
    + right. split_and!; [|done|by apply name_ok_no]. intros E. destruct h' as [|c h']; [done|]. cbn [deref] in E. subst c.
      pose proof (name_ok_no 91 _ Hok eq_refl) as HF. apply Forall_cons in HF as [HF _]. done.
  - cbn [host_text]. destruct (ip4_print_text v Hv) as [Ht Hl]. split.
    + apply plain_of_forall. eapply Forall_impl; [exact Ht|]. intros c Hc. cbv beta in *. unfold url_char. cbn [existsb]. change (str "/?#@") with [47; 63; 35; 64]. cbn [existsb].
      apply andb_true_intro. split; [lia|]. rewrite !(proj2 (Z.eqb_neq c _)) by lia. done.
    + right. split_and!.
      * destruct (ip4_print v) as [|c t]; [done|]. apply Forall_cons in Ht as [Ht _]. cbn. lia.
      * intros E. rewrite E in Hl. unfold zlen in Hl. cbn in Hl. lia.
      * eapply Forall_impl; [exact Ht|]. intros; cbv beta in *; lia.
  - rewrite host_text_ip6. pose proof (ip6_text_letters a b Hab) as Hl.
    assert (Hb : plain_text (str "/?#@]") (a ++ match z with None => [] | Some z => str "%25" ++ z end) = true).
    { rewrite plain_app, (letters_plain (str "/?#@]") a Hl eq_refl). cbn [andb]. destruct z as [z|]; [|done]. rewrite plain_app. change (plain_text (str "/?#@]") (str "%25")) with true. cbn [andb].
      destruct Hz as (_ & Hz & _). eapply zone_plain; [exact Hz|]. intros c. change (str "/?#@]%") with (str "/?#@]" ++ [37]). rewrite existsb_app. intros ->. done. }
    split.
    + rewrite plain_cons, plain_app. change (plain_text (str "/?#@") [93]) with true. rewrite andb_true_r.
      rewrite (plain_weaken (str "/?#@]") (str "/?#@") _) by (done || (intros c; change (str "/?#@]") with (str "/?#@" ++ [93]); rewrite existsb_app; by intros ->)). done.
    + left. eexists. split; [done|]. eapply plain_no; [exact Hb|done].
Qed.

(** * Port *)

Lemma find_port_text H port pp : host_shape H -> find_port (H ++ port_text port pp) = inr (if pp then Some (port_text port pp) else None).
Proof.
  intros [(body & -> & Hb)|(Hd & Hn & Hc)]; unfold find_port.
  - cbn [app deref]. change (91 =? 91) with true. cbv iota. rewrite <- app_assoc. cbn [app]. change (91 :: body ++ 93 :: port_text port pp) with ((91 :: body) ++ 93 :: port_text port pp).
    rewrite strchr_found by by apply Forall_cons_2. cbn [drop]. rewrite drop_0. by destruct pp.
  - assert (E : deref (H ++ port_text port pp) = deref H) by by destruct H. rewrite E, (proj2 (Z.eqb_neq _ _) Hd). f_equal. destruct pp; cbn [port_text].
    + by rewrite strchr_found.
    + by rewrite app_nil_r, strchr_none.
Qed.

Lemma port_number_dec p : 0 <= p <= 65535 -> port_number (dec p) = Some p.
Proof.
  intros Hp. destruct (dec_chars p) as (Hd & Hv & Hn); [unfold UINT32_MAX; lia|]. unfold port_number.
  assert (E : digit_span 57 (dec p) = (dec p, [])).
  { rewrite <- (app_nil_r (dec p)) at 1. apply (digit_span_prefix 10); [|done]. eapply Forall_impl; [exact Hd|]. intros c Hc. by apply valid_dec_char. }
  rewrite E. destruct (dec p) as [|c t]; [done|]. rewrite Hv. by rewrite (proj2 (Z.leb_le p 65535)) by lia.
Qed.

Lemma port_parse_text H port pp u : host_shape H -> port_ok port pp -> ref_port (H ++ port_text port pp) true u = (inr H, set_port port pp u).
Proof.
  intros Hs Hp. unfold ref_port. erewrite P_bind_eq by reflexivity. rewrite find_port_text by done. destruct pp; cbn [port_ok] in Hp.
  - cbn [port_text]. replace (zlen (H ++ 58 :: dec port) - zlen (58 :: dec port)) with (zlen H) by zlia. rewrite ztake_app_exact. cbn [drop]. rewrite drop_0.
    destruct (dec_chars port) as (_ & _ & Hn); [unfold UINT32_MAX; lia|]. pose proof (port_number_dec port Hp) as E. destruct (dec port) as [|c t]; [done|]. rewrite E. by destruct u.
  - subst port. cbn [port_text]. by rewrite app_nil_r.
Qed.

Lemma pct_decode_skip a s : Forall (fun x => x <> 37) a -> pct_decode (a ++ s) = a ++ pct_decode s.
Proof. induction 1 as [|c a Hc _ IH]; [done|]. cbn [app]. rewrite pct_decode_plain, IH by by apply Z.eqb_neq. done. Qed.

Lemma strspn_exact a r : Forall (fun c => ip6_letter c = true) a -> ip6_letter (deref r) = false -> strspn (a ++ r) IPV6_LETTERS = zlen a.
Proof.
  intros Ha Hr. induction Ha as [|c a Hc _ IH]; cbn [app].
  - destruct r as [|x r]; [done|]. cbn [strspn deref] in *. unfold ip6_letter in Hr. by rewrite Hr.
  - cbn [strspn]. unfold ip6_letter in Hc. rewrite Hc, IH. by rewrite zlen_cons.
Qed.

Lemma zone_loop_text z : forall room, zlen z <= Z.of_nat room -> Forall (fun x => x <> 93) z -> zone_loop room (z ++ [93]) = (z, [93]).
Proof.
  induction z as [|c z IH]; intros room Hl Hz; [by destruct room|]. destruct room as [|room]; [unfold zlen in Hl; cbn in Hl; lia|].
  apply Forall_cons in Hz as [Hc Hz]. cbn [app zone_loop]. rewrite (proj2 (Z.eqb_neq c 93)), IH by (done || (rewrite zlen_cons in Hl; lia)). done.
Qed.

Lemma ipv6_zone_text a z : zone_ok (Some z) -> ipv6_zone (a ++ 37 :: z ++ [93]) (zlen a) = Some z.
Proof.
  intros (Hl & Hp & H25). unfold MAX_ZONEID_LEN in Hl. unfold ipv6_zone.
  replace (zdrop (zlen a + 1) (a ++ 37 :: z ++ [93])) with (z ++ [93]).
  2: { replace (zlen a + 1) with (zlen (a ++ [37])) by zlia. change (37 :: z ++ [93]) with ([37] ++ z ++ [93]). by rewrite app_assoc, zdrop_app_exact. }
  assert (Hh : (if strncmp_eq (z ++ [93]) (str "25") 2 && negb (at_ (z ++ [93]) 2 =? 0) && negb (at_ (z ++ [93]) 2 =? 93) then drop 2 (z ++ [93]) else z ++ [93]) = z ++ [93]).
  { destruct z as [|x [|y [|w z]]]; [done| | |].
    - cbn. by rewrite andb_false_r.
    - by rewrite andb_false_r.
    - destruct (strncmp_eq _ _ 2) eqn:E; [|done]. exfalso. assert (Hxy : x = 50 /\ y = 53).
      { revert E. cbn [strncmp_eq deref drop app]. change (deref (str "25")) with 50. change (deref (drop 1 (str "25"))) with 53. destruct (Z.eqb_spec x 50) as [->|]; [|done]. cbn [negb Z.eqb]. destruct (Z.eqb_spec y 53) as [->|]; done. }
      destruct Hxy as [-> ->]. specialize (H25 eq_refl). unfold zlen in H25. cbn [length] in H25. lia. }
  rewrite Hh, zone_loop_text; [|unfold MAX_ZONEID_LEN; lia|by eapply plain_no]. rewrite (proj2 (Z.eqb_neq _ 0)) by lia. done.
Qed.

Lemma ip6_text_zlen a b : ip6_text a b -> 2 <= zlen a.
Proof.
  assert (Hw : forall w, hexword w -> 1 <= zlen w) by (intros w [H _]; lia).
  assert (Hws : forall ws, Forall hexword ws -> 2 * zlen ws <= zlen (words_text ws)).
  { induction 1 as [|w ws H _ IH]; [done|]. unfold words_text in *. cbn [map concat]. rewrite !zlen_app, zlen_cons. apply Hw in H. change (zlen [58]) with 1. lia. }
  intros [ws e eb H He Hl|ws ws' e eb n H H' He Hn Hl].
  - rewrite zlen_app, zlen_words_bytes in Hl. destruct (ip6_end_nonzero e eb He) as [_ He4]. specialize (Hws ws H). zlia.
  - specialize (Hws ws H). destruct ws as [|w ws]; [zlia|]. rewrite zlen_cons in Hws. zlia.
Qed.

Lemma ref_addr_text a b : ip6_text a b -> a = rfc5952 b \/ zlen a < zlen (rfc5952 b) -> ref_addr a = inr (91 :: a ++ [93]).
Proof.
  intros H Ha. unfold ref_addr. rewrite (ip6_read_complete a b H). destruct (Z.leb_spec (zlen (rfc5952 b)) (zlen a)); [|done]. destruct Ha as [<- |Ha]; [done|lia].
Qed.

Lemma host_parse_text h zone u : host_ok h zone -> exists t, host_text h zone <> [] /\ ref_decode (host_text h zone) = inr t /\
  ref_host t u = (inr h, match zone with None => u | Some z => set_zoneid (Some z) u end).
Proof.
  intros [h' Hn Hp Hok Hnum|v Hv|a b z Hab Hrf Hz].
  - exists h'. cbn [host_text]. split; [done|]. assert (H37 : Forall (fun x => x <> 37) h') by (by apply name_ok_no). assert (H91 : Forall (fun x => x <> 91) h') by (by apply name_ok_no).
    unfold ref_decode. rewrite strchr_none by done. split; [done|]. unfold ref_host, ref_check. destruct h' as [|c h']; [done|]. apply Forall_cons in H91 as [H91 _]. cbn [deref].
    rewrite (proj2 (Z.eqb_neq c 91)), Hnum, Hok by done. done.
  - exists (ip4_print v). cbn [host_text]. destruct (ip4_print_text v Hv) as [Ht Hl]. split; [intros E; rewrite E in Hl; unfold zlen in Hl; cbn in Hl; lia|].
    unfold ref_decode. rewrite strchr_none by (eapply Forall_impl; [exact Ht|]; intros; cbv beta in *; lia). split; [done|]. unfold ref_host.
    assert (Hd : deref (ip4_print v) <> 91). { destruct (ip4_print v) as [|c t]; [done|]. apply Forall_cons in Ht as [Ht _]. cbn. lia. }
    rewrite (proj2 (Z.eqb_neq _ _) Hd). rewrite (proj2 (numeric_spec (ip4_print v) v ltac:(eapply Forall_impl; [exact Ht|]; unfold is_char; intros; cbv beta in *; lia))) by by apply ip4_print_host. done.
  - pose proof (ip6_text_letters a b Hab) as Hl. pose proof (ip6_text_zlen a b Hab) as Hlen. pose proof (ref_addr_text a b Hab Hrf) as Hr.
    assert (Ha37 : Forall (fun x => x <> 37) (91 :: a)) by (apply Forall_cons_2; [done|]; eapply Forall_impl; [exact Hl|]; intros c Hc; by apply letter_char).
    rewrite host_text_ip6. destruct z as [z|].
    + pose proof Hz as (Hzl & Hzp & _). exists (91 :: a ++ 37 :: z ++ [93]). split; [done|].
      assert (Hz37 : Forall (fun x => x <> 37) z) by by eapply plain_no.
      replace (91 :: (a ++ str "%25" ++ z) ++ [93]) with ((91 :: a) ++ str "%25" ++ z ++ [93]) by (rewrite <- !app_assoc; done).
      unfold ref_decode. rewrite strchr_skip by done. change (strchr (str "%25" ++ z ++ [93]) 37) with (Some (str "%25" ++ z ++ [93])). cbv iota.
      rewrite pct_decode_skip by done. change (str "%25" ++ z ++ [93]) with (37 :: 50 :: 53 :: z ++ [93]). rewrite pct_decode_triple. change (ISXDIGIT 50) with true. change (ISXDIGIT 53) with true. cbn [Z.eqb Pos.eqb andb].
      change (37 =? 37) with true. cbv iota. change (hexdig 50 * 16 + hexdig 53) with 37. rewrite pct_decode_skip by done. change (pct_decode [93]) with [93].
      assert (Hx : existsb (rejected REJECT_CTRL) ((91 :: a) ++ 37 :: z ++ [93]) = false).
      { assert (HF : Forall (fun c => rejected REJECT_CTRL c = false) ((91 :: a) ++ 37 :: z ++ [93])).
        { apply Forall_app_2; [apply Forall_cons_2; [done|]; eapply Forall_impl; [exact Hl|]|apply Forall_cons_2; [done|]; apply Forall_app_2; [|by repeat apply Forall_cons_2]].
          - intros c Hc. cbv beta in *. cbn. pose proof (letters_plain [] [c] ltac:(by apply Forall_cons_2) eq_refl) as Hpc. rewrite plain_cons in Hpc. apply andb_prop in Hpc as [Hpc _]. apply andb_prop in Hpc as [Hpc _]. unfold url_char in Hpc. zb_hyps. lia.
          - unfold plain_text in Hzp. rewrite forallb_forall in Hzp. rewrite Forall_forall. intros c Hc. apply list_elem_of_In in Hc. specialize (Hzp c Hc). apply andb_prop in Hzp as [Hpc _]. unfold url_char in Hpc. zb_hyps. cbn. lia. }
        clear -HF. induction HF as [|c s Hc _ IH]; [done|]. cbn [existsb]. by rewrite Hc, IH. }
      rewrite Hx. split; [done|]. unfold ref_host, ref_ip6. cbn [app deref]. change (91 =? 91) with true. cbv iota. rewrite (proj2 (Z.ltb_ge _ 4)) by zlia. cbn [drop]. rewrite drop_0.
      rewrite strspn_exact by done. rewrite (proj2 (Z.eqb_neq _ _)) by zlia. rewrite at_app_exact. cbn [deref]. change (37 =? 37) with true. cbv iota.
      rewrite ipv6_zone_text by done. rewrite ztake_app_exact. erewrite P_bind_eq by reflexivity. by rewrite Hr.
    + exists (91 :: a ++ [93]). rewrite app_nil_r. split; [done|]. unfold ref_decode. rewrite strchr_none; [|apply (Forall_app_2 _ (91 :: a) [93]); [done|by apply Forall_cons_2]].
      split; [done|]. unfold ref_host, ref_ip6. cbn [deref]. change (91 =? 91) with true. cbv iota. rewrite (proj2 (Z.ltb_ge _ 4)) by zlia. cbn [drop]. rewrite drop_0.
      rewrite strspn_exact by done. rewrite (proj2 (Z.eqb_eq _ _)) by zlia. rewrite ztake_app_exact. by rewrite Hr.
Qed.

(** * Path, query, fragment *)

Lemma cut_path_exact s t : Forall (fun c => c <> 47) s -> cut_path (s ++ t) = let '(a, l) := cut_path t in (s ++ a, l).
Proof.
  induction 1 as [|c s Hc _ IH]; [cbn [app]; by destruct (cut_path t)|]. cbn [app cut_path]. rewrite IH. destruct (cut_path t) as [a l]. by rewrite (proj2 (Z.eqb_neq c 47)).
Qed.

Lemma segments_path_of segs : Forall (fun s => Forall (fun c => c <> 47) s) segs -> cut_path (path_of segs) = ([], segs).
Proof.
  induction 1 as [|s segs Hs _ IH]; [done|]. change (path_of (s :: segs)) with (47 :: s ++ path_of segs). cbn [cut_path]. rewrite cut_path_exact, IH by done.
  by rewrite app_nil_r.
Qed.

Lemma path_ok_facts p : path_ok p -> deref p = 47 /\ plain_text (str "?#") p = true /\ ref_dedot p = p /\ 1 <= zlen p.
Proof.
  intros (segs & Hn & -> & Hs). destruct (path_of_pos segs Hn) as [Hd Hl]. split; [done|]. split; [|split; [|lia]].
  - clear Hn Hd Hl. induction Hs as [|s segs [Hs _] _ IH]; [done|]. change (path_of (s :: segs)) with (47 :: s ++ path_of segs). rewrite plain_cons, plain_app, IH, andb_true_r.
    change (url_char 47 && negb (existsb (Z.eqb 47) (str "?#"))) with true. rewrite andb_true_l, ?andb_true_r. eapply plain_weaken; [|exact Hs]. intros c. change (str "/?#") with ([47] ++ str "?#"). rewrite existsb_app. intros ->. apply orb_true_r.
  - unfold ref_dedot, segments. rewrite segments_path_of; cbn [snd].
    + rewrite remove_dots_id; [done|]. eapply Forall_impl; [exact Hs|]. by intros s [_ ?].
    + eapply Forall_impl; [exact Hs|]. intros s [H _]. by eapply plain_no.
Qed.

Definition tail_handle (path query fragment : option (list Z)) (qp fp : bool) (u : Curl_URL) : Curl_URL :=
  match path with Some p => set_path (Some p) | None => id end
    (match query with Some q => set_query (Some q) | None => id end (set_query_present qp
      (match fragment with Some f => set_fragment (Some f) | None => id end (set_fragment_present fp u)))).

Lemma tail_parse_text path query fragment qp fp flags (is_file : bool) u host :
  has flags CURLU_URLENCODE = false -> u_query_present u = false -> u_fragment_present u = false ->
  match path with Some p => path_ok p /\ (if is_file then 1 else 2) <= zlen p | None => is_file = false end ->
  query_ok query qp -> fragment_ok fragment fp ->
  (let '(rest, fragment) := cut_at 35 (tail_text path query fragment qp fp) in
   let '(path, query) := cut_at 63 rest in
   pmod (ref_fragment fragment flags);;
   pmod (ref_query query flags);;
   pmod (match ref_path path flags is_file with Some p => set_path (Some p) | None => id end);;
   pmod (set_host host)) u = (inr tt, set_host host (tail_handle path query fragment qp fp u)).
Proof.
  intros He Huq Huf Hp Hq Hf. unfold tail_text. set (p := default (str "/") path).
  assert (Hpp : plain_text (str "?#") p = true /\ match ref_path p flags is_file with Some p => set_path (Some p) | None => id end = match path with Some p => set_path (Some p) | None => id end).
  { unfold ref_path. rewrite He. cbn [andb]. cbv zeta iota. destruct path as [p'|]; cbn [default] in p.
    - destruct Hp as [Hp Hl]. destruct (path_ok_facts p' Hp) as (_ & H1 & H2 & _). split; [done|]. subst p. change (id p') with p'. rewrite H2, Z.geb_leb, (proj2 (Z.leb_le _ _)) by (destruct is_file; lia). by destruct (_ || _).
    - subst is_file p. split; [done|]. done. }
  destruct Hpp as [Hpl Hpath]. clearbody p.
  assert (H35 : Forall (fun x => x <> 35) (p ++ (if qp then 63 :: default [] query else []))).
  { apply Forall_app_2; [by eapply plain_no|]. destruct qp; [|constructor]. apply Forall_cons_2; [done|]. destruct query as [q|]; [|constructor]. destruct Hq as [_ Hq]. by eapply plain_no. }
  assert (H63 : Forall (fun x => x <> 63) p) by by eapply plain_no. rewrite app_assoc.
  assert (E35 : cut_at 35 ((p ++ (if qp then 63 :: default [] query else [])) ++ (if fp then 35 :: default [] fragment else [])) =
    (p ++ (if qp then 63 :: default [] query else []), if fp then Some (default [] fragment) else None)).
  { destruct fp; [by rewrite cut_at_found|]. by rewrite app_nil_r, cut_at_none. }
  assert (E63 : cut_at 63 (p ++ (if qp then 63 :: default [] query else [])) = (p, if qp then Some (default [] query) else None)).
  { destruct qp; [by rewrite cut_at_found|]. by rewrite app_nil_r, cut_at_none. }
  rewrite E35, E63. repeat (erewrite P_bind_eq by reflexivity). rewrite Hpath. clear -He Huq Huf Hq Hf. unfold pmod, tail_handle. do 3 f_equal.
  assert (Ef : ref_fragment (if fp then Some (default [] fragment) else None) flags u = match fragment with Some f => set_fragment (Some f) | None => id end (set_fragment_present fp u)).
  { unfold ref_fragment. rewrite He. destruct fragment as [f|].
    - destruct Hf as (-> & Hn & _). cbn [default]. by destruct f.
    - destruct fp; [done|]. destruct u. cbn in Huf. by subst. }
  rewrite Ef. set (u1 := match fragment with Some _ => _ | None => _ end _). assert (Hu1 : u_query_present u1 = false) by (unfold u1; destruct fragment; by destruct u). clearbody u1.
  unfold ref_query. rewrite He. destruct query as [q|]; cbn [query_ok default] in *; [by destruct Hq as [-> _]|]. subst qp. destruct u1. cbn in Hu1. by subst.
Qed.

(** * The whole *)

Lemma plain_login user password options opts : login_ok user password options opts -> plain_text (str "/?#") (login_text user password options) = true.
Proof.
  unfold login_text. destruct user as [user|]; [|done]. intros (Hu & Hp & Ho).
  assert (Hw : forall seps s, plain_text (str "/?#" ++ seps) s = true -> plain_text (str "/?#") s = true).
  { intros seps s. apply plain_weaken. intros c Hc. by rewrite existsb_app, Hc. }
  rewrite !plain_app. apply andb_true_intro. split; [by apply (Hw (str "@:" ++ if opts then str ";" else []))|]. apply andb_true_intro. split; [|apply andb_true_intro; split; [|done]].
  - destruct password as [p|]; [|done]. cbn [opt_text]. rewrite plain_cons. apply andb_true_intro. split; [done|]. by apply (Hw (str "@" ++ if opts then str ";" else [])).
  - destruct options as [o|]; [|done]. cbn [opt_text]. rewrite plain_cons. apply andb_true_intro. split; [done|]. destruct Ho as (_ & _ & Ho). by apply (Hw (str "@" ++ match password with None => str ":" | _ => [] end)).
Qed.

Lemma plain_port port pp : port_ok port pp -> plain_text (str "/?#@") (port_text port pp) = true.
Proof.
  intros H. destruct pp; [|done]. cbn [port_ok port_text] in *. rewrite plain_cons. apply andb_true_intro. split; [done|].
  destruct (dec_chars port) as (Hd & _); [unfold UINT32_MAX; lia|]. apply plain_of_forall. eapply Forall_impl; [exact Hd|]. intros c Hc. cbv beta in *. unfold url_char.
  change (str "/?#@") with [47; 63; 35; 64]. cbn [existsb]. rewrite !(proj2 (Z.eqb_neq c _)) by lia. lia.
Qed.

Lemma plain_tail path query fragment qp fp : match path with Some p => path_ok p | None => True end -> query_ok query qp -> fragment_ok fragment fp ->
  plain_text [] (tail_text path query fragment qp fp) = true /\ deref (tail_text path query fragment qp fp) = 47.
Proof.
  intros Hp Hq Hf. unfold tail_text. assert (Hpp : plain_text [] (default (str "/") path) = true /\ deref (default (str "/") path) = 47).
  { destruct path as [p|]; [|done]. destruct (path_ok_facts p Hp) as (H1 & H2 & _). split; [by eapply plain_nil|done]. }
  destruct Hpp as [H1 H2]. set (p := default (str "/") path) in *. clearbody p. split.
  - rewrite !plain_app, H1. cbn [andb]. apply andb_true_intro. split.
    + destruct qp; [|done]. rewrite plain_cons. apply andb_true_intro. split; [done|]. destruct query as [q|]; [|done]. destruct Hq as [_ Hq]. by eapply plain_nil.
    + destruct fp; [|done]. rewrite plain_cons. apply andb_true_intro. split; [done|]. destruct fragment as [f|]; [|done]. by destruct Hf as (_ & _ & Hf).
  - by destruct p.
Qed.

Lemma deref_plain c seps s : plain_text seps s = true -> existsb (Z.eqb c) seps = true -> c <> 0 -> deref s <> c.
Proof. intros H Hc H0. pose proof (plain_no c seps s H Hc) as HF. destruct HF as [|x s Hx _]; cbn [deref]; [congruence|done]. Qed.

Lemma authority_text scheme user password options h zone port pp flags :
  login_ok user password options (takes_options (Some scheme)) -> (given user = true -> has flags CURLU_DISALLOW_USER = false) -> host_ok h zone -> port_ok port pp ->
  ref_authority (login_text user password options ++ host_text h zone ++ port_text port pp) flags true (set_scheme (Some scheme) empty_url) =
    (inr h, URL (Some scheme) user password options None zone None None None port pp false false false).
Proof.
  intros Hl Hd Hh Hp. destruct (host_text_spec h zone Hh) as [Hpl Hs]. unfold ref_authority.
  erewrite P_bind_eq; [|apply hostname_login_text; [done|done| |done]].
  2: { apply Forall_app_2; [by eapply plain_no|]. eapply plain_no; [by apply plain_port|done]. }
  erewrite P_bind_eq by by apply port_parse_text. edestruct host_parse_text as (t & Hn & Ed & Eh); [exact Hh|]. destruct (host_text h zone) as [|c x]; [done|].
  erewrite P_bind_eq by (unfold plift; by rewrite Ed). rewrite Eh. by destruct zone.
Qed.

Lemma scheme_plain s : scheme_text s = true -> plain_text [] s = true.
Proof.
  intros Hs. destruct (scheme_text_facts s Hs) as (Hsc & _). apply plain_of_forall. eapply Forall_impl; [exact Hsc|]. intros c Hc. cbv beta in *. cbn [existsb negb]. rewrite andb_true_r.
  by apply scheme_char_facts.
Qed.

Lemma ref_junk_text s b : plain_text [] s = true -> zlen s <= CURL_MAX_INPUT_LENGTH -> ref_junk s b = inr tt.
Proof.
  intros Hs Hl. unfold ref_junk. rewrite Z.gtb_ltb, (proj2 (Z.ltb_ge _ _)) by done. cbn [orb]. destruct (junk_plain s Hs) as [H1 H2]. destruct b; by rewrite ?H1, ?H2.
Qed.

Lemma plain_free seps s : plain_text seps s = true -> Forall (fun c => existsb (Z.eqb c) seps = false) s.
Proof.
  unfold plain_text. rewrite forallb_forall, Forall_forall. intros H x Hx. apply list_elem_of_In in Hx. specialize (H x Hx). apply andb_prop in H as [_ H]. by destruct (existsb _ _).
Qed.

(** The authority and what follows. *)
Lemma host_part_text scheme auth tl flags h u' : scheme_text scheme = true -> scheme_known scheme flags -> plain_text (str "/?#") auth = true -> auth <> [] -> deref tl = 47 ->
  ref_authority auth flags true (set_scheme (Some scheme) empty_url) = (inr h, u') -> u_scheme u' = Some scheme ->
  (hostp ← ref_scheme (scheme ++ str "://" ++ auth ++ tl) scheme flags;
   let n := strcspn hostp (str "/?#") in
   host ← ref_host_part (ztake n hostp) flags;
   mret (zdrop n hostp, Some host)) empty_url = (inr (tl, Some h), u').
Proof.
  intros Hs Hk Ha Hn Ht He Hu. erewrite P_bind_eq.
  2: { apply ref_scheme_text; [done|done|]. destruct auth as [|c auth]; [done|]. cbn [app deref]. pose proof (plain_no 47 _ _ Ha eq_refl) as HF. by apply Forall_cons in HF as [HF _]. }
  cbv zeta. rewrite (strcspn_found auth tl (str "/?#")); [|by eapply plain_chars|by apply plain_free|by rewrite Ht|by intros E; rewrite E in Ht].
  rewrite ztake_app_exact, zdrop_app_exact. erewrite P_bind_eq; [reflexivity|]. unfold ref_host_part. destruct auth as [|c auth]; [done|]. unfold pget.
  erewrite P_bind_eq by reflexivity. change (given (u_scheme (set_scheme (Some scheme) empty_url))) with true. erewrite P_bind_eq by exact He.
  unfold ref_guess, pget. erewrite P_bind_eq; [reflexivity|]. erewrite P_bind_eq by reflexivity. rewrite Hu. cbn [given negb]. by rewrite andb_false_r.
Qed.

Lemma file_text path query fragment qp fp u : path_ok path -> STARTS_WITH_URL_DRIVE_PREFIX (drop 1 (tail_text (Some path) query fragment qp fp)) = false ->
  ref_file (str "file://" ++ tail_text (Some path) query fragment qp fp) u = (inr (tail_text (Some path) query fragment qp fp), set_scheme (Some (str "file")) u).
Proof.
  intros Hp Hd. destruct (path_ok_facts path Hp) as (H47 & _ & _ & Hl). set (tl := tail_text _ _ _ _ _) in *.
  assert (Ht : deref tl = 47) by (unfold tl, tail_text; cbn [default]; by destruct path). assert (Htl : 1 <= zlen tl) by (destruct tl; [done|zlia]).
  unfold ref_file. rewrite zlen_app. change (zlen (str "file://")) with 7. rewrite (proj2 (Z.leb_gt _ 6)) by lia.
  change (drop 5 (str "file://" ++ tl)) with (47 :: 47 :: tl). cbn [deref]. change (negb (47 =? 47)) with false. cbv iota zeta.
  change (at_ (47 :: 47 :: tl) 1 =? 47) with true. cbv iota. change (drop 2 (47 :: 47 :: tl)) with tl. rewrite Ht. change (47 =? 47) with true. cbn [negb andb]. erewrite P_bind_eq by reflexivity.
  rewrite Ht. change (47 =? 47) with true. cbn [andb]. rewrite Hd. cbn [orb].
  assert (Hs : STARTS_WITH_URL_DRIVE_PREFIX tl = false). { unfold STARTS_WITH_URL_DRIVE_PREFIX. change (at_ tl 0) with (deref tl). by rewrite Ht. }
  by rewrite Hs.
Qed.

Lemma parse_url_text flags u : has flags CURLU_URLENCODE = false -> wf_url flags u -> zlen (url_text u) <= CURL_MAX_INPUT_LENGTH ->
  ref_parse (url_text u) flags empty_url = (inr tt, u).
Proof.
  intros He Hu Hl. destruct Hu as [path query fragment qp fp Hp Hdr Hq Hf|scheme user password options host zone path query fragment port pp qp fp Hs Hnf Hk Hlo Hdu Hh Hpo Hp Hq Hf].
  - set (u := URL _ _ _ _ _ _ _ _ _ _ _ _ _ _) in *. change (url_text u) with (str "file" ++ str "://" ++ tail_text (Some path) query fragment qp fp) in *.
    destruct (plain_tail (Some path) query fragment qp fp Hp Hq Hf) as [Htp Htd]. set (tl := tail_text (Some path) query fragment qp fp) in *.
    unfold ref_parse. erewrite P_bind_eq.
    2: { unfold plift. rewrite ref_junk_text; [reflexivity| |done]. rewrite !plain_app, Htp. done. }
    rewrite (abs_url_text (str "file") tl) by done. cbv beta iota zeta. rewrite (bool_decide_eq_true_2 (str "file" = str "file")) by done.
    erewrite P_bind_eq by (erewrite P_bind_eq; [reflexivity|]; by apply file_text). cbv beta iota. unfold tl. rewrite tail_parse_text; try done.
    + destruct path; [by destruct Hp as (segs & Hn & E & _); destruct segs|]. unfold u, tail_handle. f_equal. destruct query as [q|]; [destruct Hq as [-> _]|cbn in Hq; subst qp]; by destruct fragment.
    + split; [done|]. by apply path_ok_facts.
  - assert (Hpath : match path with Some p => path_ok p | None => True end) by (destruct path; [by destruct Hp|done]).
    set (u := URL _ _ _ _ _ _ _ _ _ _ _ _ _ _) in *. destruct (plain_tail path query fragment qp fp Hpath Hq Hf) as [Htp Htd].
    set (tl := tail_text path query fragment qp fp) in *. set (auth := login_text user password options ++ host_text host zone ++ port_text port pp).
    change (url_text u) with (scheme ++ str "://" ++ auth ++ tl) in *. destruct (host_text_spec host zone Hh) as [Hhp Hhs].
    assert (Hap : plain_text (str "/?#") auth = true).
    { unfold auth. rewrite !plain_app, (plain_login _ _ _ _ Hlo). cbn [andb]. apply andb_true_intro.
      assert (Hw : forall s, plain_text (str "/?#@") s = true -> plain_text (str "/?#") s = true) by (intros s; apply plain_weaken; intros c; change (str "/?#@") with (str "/?#" ++ [64]); rewrite existsb_app; by intros ->).
      split; apply Hw; [done|by apply plain_port]. }
    assert (Han : auth <> []).
    { unfold auth. intros E. apply app_eq_nil in E as [_ E]. apply app_eq_nil in E as [E _]. destruct Hhs as [(body & Hb & _)|(_ & Hn & _)]; [by rewrite E in Hb|done]. }
    unfold ref_parse. erewrite P_bind_eq.
    2: { unfold plift. rewrite ref_junk_text; [reflexivity| |done]. rewrite !plain_app, Htp, (plain_nil _ _ Hap), (scheme_plain _ Hs). done. }
    rewrite abs_url_text by done. cbv beta iota zeta. rewrite (bool_decide_eq_false_2 (scheme = str "file")) by done.
    erewrite P_bind_eq; [|by eapply host_part_text; [..|by apply authority_text|done]]. cbv beta iota. unfold tl. rewrite tail_parse_text; try done.
    + unfold u, tail_handle. f_equal. destruct query as [q|]; [destruct Hq as [-> _]|cbn in Hq; subst qp]; by destruct fragment, path.
    + by destruct path.
Qed.
