(* ===== verification/UrlTrip.v ===== *)
(** Getting the URL of a handle and setting it again. *)

From Stdlib Require Import ZArith Lia List String SpecFloat.
From stdpp Require Import base numbers option list.
From S2P Require Import Prelude Dynbuf Strparse Strcase Escape InetAddr Mprintf PrintfSpec PrintfFormat PrintfPieces Protocol Urlapi UrlParse UrlPath UrlSet UrlRules UrlDots UrlPrint UrlHost UrlRef UrlRefine UrlIp6 UrlEnc UrlWhole UrlText.
Close Scope nat_scope.
Open Scope Z_scope.

(** * Numbers and strings *)

Lemma digits_value_pow ds : forall acc, 0 <= acc -> acc * 10 ^ zlen ds <= digits_value 10 acc ds.
Proof.
  induction ds as [|c ds IH]; intros acc Ha; [change (digits_value 10 acc []) with acc; rewrite zlen_nil, Z.pow_0_r; lia|change (digits_value 10 acc (c :: ds)) with (digits_value 10 (acc * 10 + curlx_hexval c) ds)].
  rewrite zlen_cons, Z.pow_add_r by (lia || apply zlen_nonneg). specialize (IH (acc * 10 + curlx_hexval c)). pose proof (hexval_range c).
  pose proof (zlen_nonneg ds). assert (0 < 10 ^ zlen ds) by lia. change (10 ^ 1) with 10. nia.
Qed.

Lemma dec_zlen p : 0 <= p <= 65535 -> zlen (dec p) <= 5.
Proof.
  intros Hp. destruct (decide (p = 0)) as [->|Hn]; [by vm_compute|]. destruct (dec_spec p) as (Hd & Hv & c & d & E & Hc); [unfold SIZE_MAX; lia|].
  rewrite E in *. specialize (Hc Hn). apply Forall_cons in Hd as [Hd _]. apply valid_dec_char in Hd. change (digits_value 10 (0 * 10 + curlx_hexval c) d = p) in Hv.
  pose proof (digits_value_pow d (0 * 10 + curlx_hexval c)) as Hpow. pose proof (hexval_range c).
  assert (Hx : 1 <= curlx_hexval c). { assert (c = 49 \/ c = 50 \/ c = 51 \/ c = 52 \/ c = 53 \/ c = 54 \/ c = 55 \/ c = 56 \/ c = 57) as H9 by lia. repeat destruct H9 as [-> | H9]; try (by vm_compute). subst c. by vm_compute. }
  rewrite zlen_cons. destruct (Z.le_gt_cases (zlen d) 4) as [|Hl]; [lia|]. exfalso. assert (10 ^ 5 <= 10 ^ zlen d) by (apply Z.pow_le_mono_r; lia). change (10 ^ 5) with 100000 in *. nia.
Qed.

Lemma text_id s : Forall is_char s -> text s = s.
Proof. intros H. unfold text. rewrite strlen_nonzero by by apply char_nonzero. by apply ztake_ge. Qed.

Lemma strequal_file s : Forall is_char s -> map lower s = s -> s <> str "file" -> curl_strequal (Some (str "file")) (Some s) = false.
Proof.
  intros Hs Hl Hn. apply not_true_iff_false. intros E. cbn [curl_strequal] in E. apply casecompare_spec in E; [|by_compute|by apply chars_bytes].
  rewrite !text_id in E by (done || by_compute). apply map_upper_lower in E; [|by_compute|by apply chars_bytes|done]. by destruct Hn.
Qed.

Section Trip.

Context {K : Prop} (c_snprintf : list Z -> spec_float -> list Z).

(** The items of a format of strings. *)
Definition strs (l : list (list Z)) : list item := map It_str l.

Lemma strs_text l : items_text (strs l) = concat l.
Proof. unfold items_text, strs. rewrite map_map. f_equal. by rewrite map_id. Qed.

Lemma strs_ok l : Forall (Forall is_char) l -> Forall item_ok (strs l).
Proof. intros H. apply Forall_map. exact H. Qed.

Lemma portbuf_spec p : 0 <= p <= 65535 -> ewp mem_failure K (portbuf c_snprintf p) (fun x => x = inr (dec p)).
Proof.
  intros Hp. unfold portbuf. pose proof (dec_zlen p Hp). pose proof (zlen_nonneg (dec p)). assert (Hi : items_text [It_uint p] = dec p) by (unfold items_text; cbn; by rewrite app_nil_r).
  apply (snprintf_spec c_snprintf K 7 [It_uint p]); [|by split; [|cbn; lia]|rewrite Hi; unfold INT_MAX; lia|by rewrite Hi].
  apply Forall_cons_2; [cbn; unfold UINT32_MAX; lia|constructor].
Qed.

Lemma url_port_spec h port pp : port_ok port pp -> forall u, u_portnum u = port -> u_port_present u = pp ->
  ewp mem_failure K (url_port c_snprintf u h CURLU_GET_EMPTY) (fun x => x = inr (if pp then Some (dec port) else None)).
Proof.
  intros Hp u <- <-. unfold url_port. change (has CURLU_GET_EMPTY CURLU_DEFAULT_PORT) with false. change (has CURLU_GET_EMPTY CURLU_NO_DEFAULT_PORT) with false. rewrite !andb_false_r.
  eapply (ewp_bind_inr _ _ (if u_port_present u then Some (dec (u_portnum u)) else None)); [|destruct h; rewrite ?andb_false_r; by apply ewp_ret].
  destruct (u_port_present u); [|by apply ewp_ret]. eapply ewp_bind_inr; [by apply portbuf_spec|by apply ewp_ret].
Qed.

(** The host to print. *)
Lemma url_host_spec u h zone : host_ok h zone -> u_zoneid u = zone -> (K -> zlen (host_text h zone) < CURL_MAX_INPUT_LENGTH) -> zlen h <= INT_MAX ->
  ewp mem_failure K (url_host c_snprintf u h CURLU_GET_EMPTY) (fun x => exists y, x = inr y /\ default h y = host_text h zone).
Proof.
  intros Hh Hz HK Hl. unfold url_host. change (has CURLU_GET_EMPTY CURLU_URLENCODE) with false. change (has CURLU_GET_EMPTY CURLU_PUNYCODE) with false. change (has CURLU_GET_EMPTY CURLU_PUNY2IDN) with false.
  cbv iota. rewrite Hz. destruct zone as [z|].
  2: { destruct (_ =? 91); apply ewp_ret; by exists None. }
  inversion Hh as [| |a b ? Hab Hr Hzo]; subst. set (h := 91 :: a ++ [93]) in *. change (deref h =? 91) with true. cbv iota. rewrite Z.gtb_ltb, (proj2 (Z.ltb_ge _ _)) by done.
  pose proof (letters_chars a (ip6_text_letters a b Hab)) as Ha. assert (Hhc : Forall is_char h) by (apply Forall_cons_2; [by_compute|]; apply Forall_app_2; [done|by_compute]).
  destruct Hzo as (Hz1 & Hz2 & _). pose proof (plain_chars _ _ Hz2) as Hzc.
  set (items := [It_cut (zlen h - 1) h; It_percent; It_lit (str "25"); It_str z; It_lit (str "]")]).
  assert (Hit : items_text items = host_text h (Some z)) by (unfold items_text, items; cbn [map concat item_text host_text]; by rewrite app_nil_r).
  assert (Hok : Forall item_ok items).
  { apply Forall_cons_2; [cbn [item_ok]; split; [done|]; split; [pose proof (zlen_nonneg (a ++ [93])); unfold h; rewrite zlen_cons; lia|lia]|].
    apply Forall_cons_2; [done|]. apply Forall_cons_2; [cbn [item_ok]; by_compute|]. apply Forall_cons_2; [exact Hzc|]. apply Forall_cons_2; [cbn [item_ok]; by_compute|constructor]. }
  intros o. destruct (addf_spec c_snprintf items (curlx_dyn_init CURL_MAX_INPUT_LENGTH) [] o Hok) as (s' & r & o' & E & Ho & Hs); [split; [done|unfold items; cbn; lia]| |by apply dyn_init_rep|done|].
  { rewrite Hit. unfold host_text. intros E0. apply app_eq_nil in E0 as [_ E0]. done. }
  change (items_format items) with (str "%.*s%%25%s]") in E. change (items_args items) with [A_int (zlen h - 1); A_str (Some h); A_str (Some z)] in E.
  rewrite (E_bind_inr _ _ o (s', r) o') by done. rewrite Hit in Hs. cbn [app] in Hs. destruct Hs as [(-> & Hs & Hn)|(Hr' & Hs)].
  - cbn [is_ok negb]. rewrite (E_bind_inr _ _ o' (host_text h (Some z)) o').
    + do 2 eexists. split; [done|]. split; [|done]. left. eexists. split; [done|]. done.
    + unfold defined. rewrite (held_rep _ _ Hs Hn); [done|]. rewrite <- Hit. by apply items_text_chars.
  - rewrite (proj2 (is_ok_false r)) by done. cbn [negb]. do 2 eexists. split; [done|]. split; [|done]. right. split; [apply nomem_oom|]. destruct Hs as [Hs|Hs]; [by left|].
    right. intros Hk. specialize (HK Hk). cbn [toobig curlx_dyn_init] in Hs. change (zlen (@nil Z)) with 0 in Hs. lia.
Qed.

(** The texts that are printed one behind the other. *)
Lemma print_strs l (Q : CURLUcode + list Z -> Prop) : Forall (Forall is_char) l -> (length l <= 20)%nat -> (K -> zlen (concat l) < DYN_APRINTF) -> Q (inr (concat l)) ->
  ewp mem_failure K (E_aprintf c_snprintf (items_format (strs l)) (items_args (strs l))) Q.
Proof.
  intros Hl Hn HK HQ. rewrite <- strs_text in HK, HQ. apply (aprintf_spec (F := mem_failure) c_snprintf K); [by apply strs_ok| |done|done].
  split; [|unfold strs; by rewrite length_map]. clear. induction l as [|x l IH]; [done|]. exact IH.
Qed.

Definition sep (c : Z) (x : option (list Z)) : list Z := if given x then [c] else [].

Lemma sep_text c x : opt_text c x = sep c x ++ or_empty x.
Proof. by destruct x. Qed.

Lemma query_sep_text u : query_ok (u_query u) (u_query_present u) -> query_sep u CURLU_GET_EMPTY = (if u_query_present u then [63] else []) /\
  (if u_query_present u then 63 :: default [] (u_query u) else []) = (if u_query_present u then [63] else []) ++ or_empty (u_query u).
Proof.
  intros Hq. unfold query_sep. change (has CURLU_GET_EMPTY CURLU_GET_EMPTY) with true. rewrite andb_true_r. destruct (u_query u) as [q|]; cbn [query_ok] in Hq.
  - destruct Hq as [-> _]. by rewrite orb_true_r.
  - rewrite Hq. done.
Qed.

Lemma fragment_sep_text u : fragment_ok (u_fragment u) (u_fragment_present u) -> fragment_sep u CURLU_GET_EMPTY = (if u_fragment_present u then [35] else []) /\
  (if u_fragment_present u then 35 :: default [] (u_fragment u) else []) = (if u_fragment_present u then [35] else []) ++ or_empty (u_fragment u).
Proof.
  intros Hf. unfold fragment_sep. change (has CURLU_GET_EMPTY CURLU_GET_EMPTY) with true. rewrite andb_true_r. destruct (u_fragment u) as [f|]; cbn [fragment_ok] in Hf.
  - destruct Hf as [-> _]. done.
  - by destruct (u_fragment_present u).
Qed.

Lemma opt_chars seps x : match x with Some s => plain_text seps s = true | None => True end -> Forall is_char (or_empty x).
Proof. destruct x as [s|]; [by apply plain_chars|by constructor]. Qed.

Lemma tail_chars path query fragment qp fp : match path with Some p => path_ok p | None => True end -> query_ok query qp -> fragment_ok fragment fp ->
  Forall is_char (default (str "/") path) /\ Forall is_char (or_empty query) /\ Forall is_char (or_empty fragment).
Proof.
  intros Hp Hq Hf. split_and!.
  - destruct path as [p|]; [|by_compute]. destruct (path_ok_facts p Hp) as (_ & H & _). by eapply plain_chars.
  - destruct query as [q|]; [|by constructor]. destruct Hq as [_ H]. by eapply plain_chars.
  - destruct fragment as [f|]; [|by constructor]. destruct Hf as (_ & _ & H). by eapply plain_chars.
Qed.

Lemma one_char (b : bool) c : is_char c -> Forall is_char (if b then [c] else []).
Proof. intros H. destruct b; [by apply Forall_cons_2|constructor]. Qed.

Lemma login_print user password options opts : login_ok user password options opts ->
  login_text user password options = or_empty user ++ sep 58 password ++ or_empty password ++ sep 59 options ++ or_empty options ++ (if given user || given password || given options then str "@" else []) /\
  Forall is_char (or_empty user) /\ Forall is_char (or_empty password) /\ Forall is_char (or_empty options) /\ (options <> None -> opts = true).
Proof.
  destruct user as [user|]; [|by intros [-> ->]]. intros (Hu & Hp & Ho). split; [|split; [by eapply plain_chars|split; [by eapply opt_chars|split]]].
  - unfold login_text. rewrite !sep_text, <- !app_assoc. done.
  - destruct options as [o|]; [|by constructor]. destruct Ho as (_ & _ & Ho). by eapply plain_chars.
  - destruct options as [o|]; [|done]. by destruct Ho as (-> & _).
Qed.

Definition file_items (path qsep q fsep f : list Z) : list item := It_lit (str "file://") :: strs [path; qsep; q; fsep; f].

Lemma print_file path qsep q fsep f (Q : CURLUcode + list Z -> Prop) : Forall item_ok (file_items path qsep q fsep f) ->
  (K -> zlen (items_text (file_items path qsep q fsep f)) < DYN_APRINTF) -> Q (inr (items_text (file_items path qsep q fsep f))) ->
  ewp mem_failure K (E_aprintf c_snprintf (str "file://%s%s%s%s%s") [A_str (Some path); A_str (Some qsep); A_str (Some q); A_str (Some fsep); A_str (Some f)]) Q.
Proof.
  intros Hok HK HQ. assert (Ef : str "file://%s%s%s%s%s" = items_format (file_items path qsep q fsep f)) by reflexivity. rewrite Ef.
  assert (Ea : [A_str (Some path); A_str (Some qsep); A_str (Some q); A_str (Some fsep); A_str (Some f)] = items_args (file_items path qsep q fsep f)) by reflexivity. rewrite Ea.
  apply (aprintf_spec (F := mem_failure) c_snprintf K); [done|by split; [|cbn; lia]|done|done].
Qed.

Lemma urlget_file path query fragment qp fp (u : Curl_URL) flags : u = URL (Some (str "file")) None None None None None (Some path) query fragment 0 false qp fp false ->
  path_ok path -> query_ok query qp -> fragment_ok fragment fp -> flags = CURLU_GET_EMPTY -> (K -> zlen (url_text u) < DYN_APRINTF) ->
  ewp mem_failure K (urlget_url c_snprintf u flags) (fun x => x = inr (url_text u)).
Proof.
  intros -> Hp Hq Hf -> HK. unfold urlget_url. set (u := URL _ _ _ _ _ _ _ _ _ _ _ _ _ _) in *. change (curl_strequal (Some (str "file")) (u_scheme u)) with true. cbv iota zeta.
  destruct (query_sep_text u Hq) as [Eq1 Eq2]. destruct (fragment_sep_text u Hf) as [Ef1 Ef2]. rewrite Eq1, Ef1. unfold file_url.
  assert (Et : url_text u = items_text (file_items path (if qp then [63] else []) (or_empty query) (if fp then [35] else []) (or_empty fragment))).
  { change (url_text u) with (str "file://" ++ tail_text (Some path) query fragment qp fp). unfold tail_text.
    change (if qp then 63 :: default [] query else []) with (if u_query_present u then 63 :: default [] (u_query u) else []). rewrite Eq2.
    change (if fp then 35 :: default [] fragment else []) with (if u_fragment_present u then 35 :: default [] (u_fragment u) else []). rewrite Ef2.
    unfold items_text, file_items. cbn [map concat item_text strs default]. rewrite app_nil_r, <- !app_assoc. done. }
  rewrite Et in *. destruct (tail_chars (Some path) query fragment qp fp Hp Hq Hf) as (H1 & H2 & H3).
  apply print_file; [|exact HK|done].
  unfold file_items. apply Forall_cons_2; [cbn [item_ok]; by_compute|]. apply strs_ok. apply Forall_cons_2; [exact H1|]. apply Forall_cons_2; [by apply one_char; by_compute|]. apply Forall_cons_2; [done|].
  apply Forall_cons_2; [by apply one_char; by_compute|]. by apply Forall_cons_2.
Qed.

Lemma print_fifteen l (Q : CURLUcode + list Z -> Prop) : length l = 15%nat -> Forall (Forall is_char) l -> (K -> zlen (concat l) < DYN_APRINTF) -> Q (inr (concat l)) ->
  ewp mem_failure K (E_aprintf c_snprintf (str "%s%s%s%s%s%s%s%s%s%s%s%s%s%s%s") (map (fun s => A_str (Some s)) l)) Q.
Proof.
  intros Hn Hl HK HQ.
  assert (Ef : str "%s%s%s%s%s%s%s%s%s%s%s%s%s%s%s" = items_format (strs l)) by (unfold items_format, strs; rewrite map_map; do 16 (destruct l as [|? l]; try done)).
  assert (Ea : map (fun s => A_str (Some s)) l = items_args (strs l)).
  { unfold items_args, strs. rewrite map_map. clear. induction l as [|x l IH]; [done|]. cbn [map concat item_args app]. by rewrite IH. }
  rewrite Ef, Ea. apply print_strs; [done|lia|done|done].
Qed.

Lemma scheme_buf_spec s : scheme_text s = true -> ewp mem_failure K (E_snprintf c_snprintf (MAX_SCHEME_LEN + 5) (str "%s://") [A_str (Some s)]) (fun x => x = inr (s ++ str "://")).
Proof.
  intros Hs. destruct (scheme_text_facts s Hs) as (_ & _ & _ & Hl & _). pose proof (scheme_plain s Hs) as Hp. pose proof (zlen_nonneg s).
  assert (Hi : items_text [It_str s; It_lit (str "://")] = s ++ str "://") by (unfold items_text; cbn [map concat item_text]; by rewrite app_nil_r).
  unfold MAX_SCHEME_LEN in *. apply (snprintf_spec (F := mem_failure) c_snprintf K (40 + 5) [It_str s; It_lit (str "://")]).
  - apply Forall_cons_2; [by eapply plain_chars|]. apply Forall_cons_2; [cbn [item_ok]; by_compute|constructor].
  - by split; [|cbn; lia].
  - rewrite Hi, zlen_app. change (zlen (str "://")) with 3. unfold INT_MAX. lia.
  - by rewrite Hi.
Qed.

Lemma urlget_host flags scheme user password options host zone path query fragment port pp qp fp (u : Curl_URL) :
  u = URL (Some scheme) user password options (Some host) zone path query fragment port pp qp fp false -> wf_url flags u -> scheme <> str "file" ->
  (K -> zlen (url_text u) < DYN_APRINTF) -> zlen (url_text u) <= INT_MAX -> ewp mem_failure K (urlget_url c_snprintf u CURLU_GET_EMPTY) (fun x => x = inr (url_text u)).
Proof.
  intros Eu Hwf Hnf HK Hmax. rewrite Eu in Hwf. inversion Hwf as [|? ? ? ? ? ? ? ? ? ? ? ? ? Hs _ Hk Hlo Hdu Hh Hpo Hp Hq Hf]; subst.
  set (u := URL _ _ _ _ _ _ _ _ _ _ _ _ _ _) in *. destruct (scheme_text_facts scheme Hs) as (_ & _ & Hlow & Hsl & _). pose proof (plain_chars _ _ (scheme_plain _ Hs)) as Hsc.
  assert (Hpath : match path with Some p => path_ok p | None => True end) by (destruct path; [by destruct Hp|done]).
  destruct (tail_chars path query fragment qp fp Hpath Hq Hf) as (Hc1 & Hc2 & Hc3). destruct (login_print user password options _ Hlo) as (El & Hc4 & Hc5 & Hc6 & Hopt).
  destruct (query_sep_text u Hq) as [Eq1 Eq2]. destruct (fragment_sep_text u Hf) as [Ef1 Ef2].
  assert (Et : url_text u = concat [scheme ++ str "://"; or_empty user; sep 58 password; or_empty password; sep 59 options; or_empty options;
     (if given user || given password || given options then str "@" else []); host_text host zone; sep 58 (if pp then Some (dec port) else None);
     or_empty (if pp then Some (dec port) else None); default (str "/") path; (if qp then [63] else []); or_empty query; (if fp then [35] else []); or_empty fragment]).
  { change (url_text u) with (scheme ++ str "://" ++ (login_text user password options ++ host_text host zone ++ port_text port pp) ++ tail_text path query fragment qp fp).
    rewrite El. unfold tail_text. change (if qp then 63 :: default [] query else []) with (if u_query_present u then 63 :: default [] (u_query u) else []). rewrite Eq2.
    change (if fp then 35 :: default [] fragment else []) with (if u_fragment_present u then 35 :: default [] (u_fragment u) else []). rewrite Ef2.
    cbn [concat]. rewrite app_nil_r, <- !app_assoc. by destruct pp. }
  assert (Hparts : zlen (host_text host zone) <= zlen (url_text u) /\ zlen host <= zlen (host_text host zone)).
  { rewrite Et. cbn [concat]. rewrite !zlen_app. zlen_pos. split; [lia|]. unfold host_text. destruct zone as [z|]; [|lia]. pose proof (zlen_nonneg host). pose proof (zlen_nonneg z).
    rewrite !zlen_app. change (zlen (str "%25")) with 3. change (zlen [93]) with 1. destruct (decide (1 <= zlen host)); [rewrite zlen_ztake by lia; lia|]. zlen_pos. lia. }
  unfold urlget_url. change (u_scheme u) with (Some scheme). rewrite strequal_file by done. cbv iota zeta. change (u_host u) with (Some host). cbv iota.
  destruct (get_scheme_chars scheme Hsc) as (h & Eh). eapply ewp_bind_inr; [by apply ewp_ret|]. eapply ewp_bind_inr; [by eapply ewp_defined|].
  eapply ewp_bind_inr; [by apply (url_port_spec h port pp Hpo)|].
  assert (Eo : match h with Some h0 => if has (sc_flags h0) PROTOPT_URLOPTIONS then u_options u else None | None => u_options u end = options).
  { change (u_options u) with options. destruct h as [h0|]; [|done]. cbv iota. destruct options as [o|]; [|by destruct (has (sc_flags h0) PROTOPT_URLOPTIONS)]. specialize (Hopt ltac:(done)). unfold takes_options in Hopt. cbn [mbind option_bind] in Hopt. rewrite Eh in Hopt. cbn [mbind option_bind] in Hopt. by rewrite Hopt. }
  rewrite Eo. eapply ewp_bind; [apply (url_host_spec u host zone Hh eq_refl); [|lia]| |].
  { intros Hk'. specialize (HK Hk'). unfold DYN_APRINTF, CURL_MAX_INPUT_LENGTH in *. lia. }
  2: { by intros e (y & [=] & _). }
  intros ah (y & [= <-] & Eah). change (negb (has CURLU_GET_EMPTY CURLU_NO_GUESS_SCHEME)) with true. cbn [orb].
  eapply ewp_bind_inr; [by apply scheme_buf_spec|]. fold (sep 58 (u_password u)). fold (sep 59 options). fold (sep 58 (if pp then Some (dec port) else None)). rewrite Eah, Eq1, Ef1.
  change (u_user u) with user. change (u_password u) with password. change (u_path u) with path. change (u_query u) with query. change (u_fragment u) with fragment.
  apply print_fifteen; [done| |intros Hk'; specialize (HK Hk'); rewrite Et in HK; exact HK|f_equal; symmetry; exact Et].
  assert (Hd : Forall is_char (or_empty (if pp then Some (dec port) else None))).
  { destruct pp; [|constructor]. cbn [port_ok] in Hpo. destruct (dec_chars port) as (Hd & _); [unfold UINT32_MAX; lia|]. eapply Forall_impl; [exact Hd|]. unfold is_char. intros; cbv beta in *; lia. }
  destruct (host_text_spec host zone Hh) as [Hht _]. unfold sep.
  repeat (apply Forall_cons_2; [|]); try apply Forall_nil_2; try done; try (by apply one_char; by_compute).
  - apply Forall_app_2; [done|by_compute].
  - by eapply plain_chars.
Qed.

Lemma urlget_text flags u : wf_url flags u -> (K -> zlen (url_text u) < DYN_APRINTF) -> zlen (url_text u) <= INT_MAX ->
  ewp mem_failure K (urlget_url c_snprintf u CURLU_GET_EMPTY) (fun x => x = inr (url_text u)).
Proof.
  intros Hu HK Hl. pose proof Hu as Hwf. destruct Hu as [path query fragment qp fp Hp Hd Hq Hf|scheme user password options host zone path query fragment port pp qp fp Hs Hnf].
  - by apply (urlget_file path query fragment qp fp).
  - by eapply urlget_host.
Qed.

End Trip.

Lemma wf_text_abs flags u guess : wf_url flags u -> zlen (url_text u) <> 0 /\ fst (Curl_is_absolute_url (url_text u) guess) <> 0 /\ Forall is_char (url_text u).
Proof.
  assert (Hs : forall s r, scheme_text s = true -> Forall is_char r -> zlen (s ++ str "://" ++ r) <> 0 /\ fst (Curl_is_absolute_url (s ++ str "://" ++ r) guess) <> 0 /\ Forall is_char (s ++ str "://" ++ r)).
  { intros s r Hs Hr. rewrite abs_url_text by done. cbn [fst]. pose proof (plain_chars _ _ (scheme_plain _ Hs)) as Hsc. destruct (scheme_text_facts s Hs) as (_ & _ & _ & _ & Hn). split_and!.
    - rewrite !zlen_app. change (zlen (str "://")) with 3. pose proof (zlen_nonneg s). pose proof (zlen_nonneg r). lia.
    - destruct s; [done|zlia].
    - apply Forall_app_2; [done|]. apply Forall_app_2; [by_compute|done]. }
  intros [path query fragment qp fp Hp Hd Hq Hf|scheme user password options host zone path query fragment port pp qp fp Hsc Hnf Hk Hlo Hdu Hh Hpo Hp Hq Hf].
  - apply (Hs (str "file") (tail_text (Some path) query fragment qp fp)); [done|]. destruct (plain_tail (Some path) query fragment qp fp Hp Hq Hf) as [H _]. by eapply plain_chars.
  - apply (Hs scheme ((login_text user password options ++ host_text host zone ++ port_text port pp) ++ tail_text path query fragment qp fp)); [done|].
    apply Forall_app_2; [apply Forall_app_2; [|apply Forall_app_2]|].
    + eapply plain_chars. by eapply plain_login.
    + eapply plain_chars. by apply host_text_spec.
    + eapply plain_chars. by apply plain_port.
    + destruct (plain_tail path query fragment qp fp) as [H _]; [by destruct path; [destruct Hp|]|done|done|]. by eapply plain_chars.
Qed.

(** C38: a well-formed handle goes through its URL: getting the URL of the handle
    gives its text, and setting that text as the URL of any handle gives the
    handle back; what else can happen is that an allocation fails, and then
    the handle that is set is as before. *)
Theorem url_roundtrip c_snprintf runs flags u v o : has flags CURLU_URLENCODE = false -> wf_url flags u -> zlen (url_text u) < CURL_MAX_INPUT_LENGTH ->
  (exists x o', curl_url_get c_snprintf (Some u) CURLUPART_URL true CURLU_GET_EMPTY o = Some (x, o') /\
     (x = inr (Some (url_text u)) \/ (exists e, x = inl e /\ mem_failure e) /\ false ∈ o)) /\
  (exists x w o', curl_url_set c_snprintf runs (Some v) CURLUPART_URL (Some (url_text u)) flags o = Some (x, Some w, o') /\
     (x = inr tt /\ w = u \/ (exists e, x = inl e /\ mem_failure e) /\ w = v /\ false ∈ o)).
Proof.
  intros He Hu Hl. split.
  - destruct (urlget_text (K := True) c_snprintf flags u Hu) with (o := o) as (x & o' & E & H & _); [done|unfold CURL_MAX_INPUT_LENGTH, INT_MAX in *; lia|].
    unfold curl_url_get, url_get. cbn [negb]. unfold mbind at 1, E_bind at 1. rewrite E. destruct H as [->|[(e & -> & He') [Hs|Hs]]]; [| |by destruct Hs].
    + do 2 eexists. split; [done|]. by left.
    + do 2 eexists. split; [done|]. right. split; [by exists e|done].
  - pose proof (wf_text_abs flags u (has flags (Z.lor CURLU_GUESS_SCHEME CURLU_DEFAULT_SCHEME)) Hu) as (Hne & Ha & Hc).
    assert (Es : url_set c_snprintf runs CURLUPART_URL (url_text u) flags v o = parseurl_and_replace c_snprintf (url_text u) flags v o).
    { unfold url_set. rewrite Z.gtb_ltb, (proj2 (Z.ltb_ge _ _)) by lia. unfold set_url. unfold mbind, U_bind, getu.
      rewrite (proj2 (Z.eqb_neq _ 0) Hne), (proj2 (Z.eqb_neq _ 0) Ha). done. }
    unfold curl_url_set. rewrite Es.
    destruct (replace_refines c_snprintf (url_text u) flags v o Hc) as (x & w & o' & E & _ & H). rewrite E. cbn [mbind option_bind].
    exists x, w, o'. split; [done|]. rewrite (parse_url_text flags u He Hu) in H by lia. cbn [fst snd] in H. destruct H as [[-> ->]|(He' & -> & [Hs|Hs])]; [by left|by right|].
    destruct Hs. split; [done|]. by rewrite He.
Qed.

Lemma example_wf : wf_url 0 url_example_handle.
Proof.
  pose (b := replicate 15 0 ++ [1]). assert (Hh : host_ok (str "[::1]") (Some (str "eth0"))).
  { replace (str "[::1]") with (91 :: rfc5952 b ++ [93]) by by vm_compute. apply (Host_ip6 (rfc5952 b) b); [|by left|].
    - apply rfc5952_text; [unfold b; by_compute|done].
    - split; [by vm_compute|]. split; [by vm_compute|done]. }
  apply Wf_host; [by vm_compute|done|left; eexists; by vm_compute| |done|exact Hh|by vm_compute| | |].
  - split; [by vm_compute|]. split; [by vm_compute|done].
  - split; [|by vm_compute]. exists [str "a"; str "c"]. split; [done|]. split; [by vm_compute|]. repeat apply Forall_cons_2; try apply Forall_nil_2; by vm_compute.
  - split; [done|by vm_compute].
  - split; [done|]. split; [done|by vm_compute].
Qed.

Lemma url_roundtrip_witness :
  (exists o', curl_url_get (fun _ _ => []) (Some url_example_handle) CURLUPART_URL true CURLU_GET_EMPTY [] = Some (inr (Some (str "http://me:pw@[::1%25eth0]:80/a/c?q=%41#f")), o')) /\
  (exists o', curl_url_set (fun _ _ => []) (fun _ => true) (Some empty_url) CURLUPART_URL (Some (str "http://me:pw@[::1%25eth0]:80/a/c?q=%41#f")) 0 [] = Some (inr tt, Some url_example_handle, o')).
Proof.
  assert (Et : url_text url_example_handle = str "http://me:pw@[::1%25eth0]:80/a/c?q=%41#f") by (vm_compute; reflexivity).
  rewrite <- Et.
  destruct (url_roundtrip (fun _ _ => []) (fun _ => true) 0 url_example_handle empty_url []) as [(x & o1 & E1 & H1) (y & w & o2 & E2 & H2)].
  - reflexivity.
  - exact example_wf.
  - rewrite Et. vm_compute. reflexivity.
  - split.
    + exists o1. destruct H1 as [Hx|H1].
      * rewrite <- Hx. exact E1.
      * destruct H1 as [_ Hf]. inversion Hf.
    + exists o2. destruct H2 as [H2|H2].
      * destruct H2 as [Hy Hw]. rewrite Hy, Hw in E2. exact E2.
      * destruct H2 as [_ [_ Hf]]. inversion Hf.
Defined.
