(* ===== verification/UrlCases.v ===== *)
(** The URL API on particular inputs: behaviour that the theorems on the parser
    have to leave room for. *)

From Stdlib Require Import ZArith Lia List String SpecFloat.
From stdpp Require Import base numbers option list.
From S2P Require Import Prelude Dynbuf Strparse Mprintf Protocol Urlapi UrlParse UrlPath UrlSet.
Close Scope nat_scope.
Open Scope Z_scope.

Definition no_snprintf (fmt : list Z) (x : spec_float) : list Z := [].

(** Parts that are set one after the other: the result of the last. *)
Fixpoint set_parts (l : list (CURLUPart * list Z * Z)) (u : Curl_URL) : option (CURLUcode * Curl_URL) :=
  match l with
  | [] => Some (CURLUE_OK, u)
  | (what, part, flags) :: l =>
      '(r, u, _) ← url_set no_snprintf (fun _ => true) what part flags u [];
      match l with [] => Some (match r with inl e => e | inr _ => CURLUE_OK end, u) | _ => set_parts l u end
  end.

Definition get_part (what : CURLUPart) (flags : Z) (u : Curl_URL) : option (CURLUcode + option (list Z)) :=
  fst <$> url_get no_snprintf u what flags [].

(** The parts that are set and then the part that is got. *)
Definition set_get (l : list (CURLUPart * list Z * Z)) (what : CURLUPart) (flags : Z) : option (CURLUcode * (CURLUcode + option (list Z))) :=
  '(e, u) ← set_parts l empty_url; r ← get_part what flags u; Some (e, r).

(** A copy does not know that the scheme was guessed. *)
Example dup_forgets_guess : forall u, exists v, curl_url_dup u [] = Some (inr v, []) /\ u_guessed_scheme v = false.
Proof. intros [[] [] [] [] [] [] [] [] [] ? ? ? ? ?]; by eexists. Qed.

(** A host that is refused takes the zone with it. *)
Example refused_host_clears_zone :
  (fun x => (fst x, u_host (snd x), u_zoneid (snd x))) <$> set_parts [(CURLUPART_URL, str "http://[fe80::1%25eth0]/", 0); (CURLUPART_HOST, str "a b", 0)] empty_url =
  Some (CURLUE_BAD_HOSTNAME, Some (str "[fe80::1]"), None).
Proof. vm_compute. reflexivity. Qed.

(** The closing bracket is not looked at. *)
Example bracket_unchecked :
  set_get [(CURLUPART_HOST, str "[::1x", 0)] CURLUPART_HOST 0 = Some (CURLUE_OK, inr (Some (str "[::1x"))) /\
  set_get [(CURLUPART_URL, str "http://%5b%3a%3a1x/", 0)] CURLUPART_URL 0 = Some (CURLUE_OK, inr (Some (str "http://[::1]/"))).
Proof. split; vm_compute; reflexivity. Qed.

(** A zone in a host that is set stays in the host, and is printed twice. *)
Example zone_twice :
  set_get [(CURLUPART_SCHEME, str "http", 0); (CURLUPART_HOST, str "[fe80::1%25eth0]", 0)] CURLUPART_URL 0 =
  Some (CURLUE_OK, inr (Some (str "http://[fe80::1%25eth0%25eth0]/"))).
Proof. vm_compute. reflexivity. Qed.

(** A file URL without a path. *)
Example file_without_path : set_get [(CURLUPART_SCHEME, str "file", 0)] CURLUPART_URL 0 = Some (CURLUE_OK, inr (Some (str "file://(nil)"))).
Proof. vm_compute. reflexivity. Qed.

(** A relative URL that is a fragment, on a URL that ends in a number sign. *)
Example two_number_signs :
  set_get [(CURLUPART_URL, str "http://h/#", 0); (CURLUPART_URL, str "#x", CURLU_GET_EMPTY)] CURLUPART_URL 0 = Some (CURLUE_OK, inr (Some (str "http://h/##x"))).
Proof. vm_compute. reflexivity. Qed.

(** An empty part that is to be encoded is success without a string. *)
Example empty_encoded : set_get [(CURLUPART_USER, [], 0)] CURLUPART_USER CURLU_URLENCODE = Some (CURLUE_OK, inr None) /\
  set_get [(CURLUPART_USER, [], 0)] CURLUPART_USER 0 = Some (CURLUE_OK, inr (Some [])).
Proof. split; vm_compute; reflexivity. Qed.

(** A host with the character DEL is accepted, the URL that is got is not. *)
Example del_in_host : set_get [(CURLUPART_URL, str "http://%7f/", 0)] CURLUPART_URL 0 = Some (CURLUE_OK, inr (Some (str "http://" ++ [127; 47]))) /\
  set_get [(CURLUPART_URL, str "http://" ++ [127; 47], 0)] CURLUPART_URL 0 = Some (CURLUE_MALFORMED_INPUT, inl CURLUE_NO_HOST).
Proof. split; vm_compute; reflexivity. Qed.

(** Options in front of the password change places with it, and with a
    semicolon in the password the URL that is got means something else. *)
Example options_move :
  set_get [(CURLUPART_URL, str "imap://u;o:p;q@h/", 0)] CURLUPART_PASSWORD 0 = Some (CURLUE_OK, inr (Some (str "p;q"))) /\
  set_get [(CURLUPART_URL, str "imap://u;o:p;q@h/", 0)] CURLUPART_URL 0 = Some (CURLUE_OK, inr (Some (str "imap://u:p;q;o@h/"))) /\
  set_get [(CURLUPART_URL, str "imap://u:p;q;o@h/", 0)] CURLUPART_PASSWORD 0 = Some (CURLUE_OK, inr (Some (str "p"))).
Proof. split_and!; vm_compute; reflexivity. Qed.
