(* ===== verification/Ws.v ===== *)
(** WebSocket frames, lib/ws.c: data, header bytes, decoder and encoder.

    The decoder and the encoder are members of one [struct websocket], and the
    functions they call while they run (the writers of the application, the
    connection) can change it.  So a function is a computation in the monad [W]
    over the whole state; only the parser of a frame head, which calls nothing,
    is a function on the decoder and the queue it reads. *)

From Stdlib Require Import ZArith Lia List.
From stdpp Require Import base numbers option list.
From S2P Require Import Prelude Dynbuf Bufq.
Close Scope nat_scope.
Open Scope Z_scope.

(** * Data *)

Definition WSBIT_FIN : Z := 128.
Definition WSBIT_RSV1 : Z := 64.
Definition WSBIT_RSV2 : Z := 32.
Definition WSBIT_RSV3 : Z := 16.
Definition WSBIT_OPCODE_CONT : Z := 0.
Definition WSBIT_OPCODE_TEXT : Z := 1.
Definition WSBIT_OPCODE_BIN : Z := 2.
Definition WSBIT_OPCODE_CLOSE : Z := 8.
Definition WSBIT_OPCODE_PING : Z := 9.
Definition WSBIT_OPCODE_PONG : Z := 10.
Definition WSBIT_MASK : Z := 128.
Definition WS_CHUNK_SIZE : Z := 65535.
Definition WS_CHUNK_COUNT : Z := 2.
Definition WS_MAX_CNTRL_LEN : Z := 125.

(** include/curl/websockets.h *)
Definition CURLWS_TEXT : Z := Z.shiftl 1 0.
Definition CURLWS_BINARY : Z := Z.shiftl 1 1.
Definition CURLWS_CONT : Z := Z.shiftl 1 2.
Definition CURLWS_CLOSE : Z := Z.shiftl 1 3.
Definition CURLWS_PING : Z := Z.shiftl 1 4.
Definition CURLWS_OFFSET : Z := Z.shiftl 1 5.
Definition CURLWS_PONG : Z := Z.shiftl 1 6.

Inductive ws_dec_state := WS_DEC_INIT | WS_DEC_HEAD | WS_DEC_PAYLOAD.

(** [head] has ten bytes. *)
Record ws_decoder := mk_dec {
  d_frame_age : Z;
  d_frame_flags : Z;
  d_payload_offset : Z;
  d_payload_len : Z;
  d_head : list Z;
  d_head_len : Z;
  d_head_total : Z;
  d_state : ws_dec_state;
  d_cont_flags : Z
}.

(** [mask] has four bytes. *)
Record ws_encoder := mk_enc {
  e_payload_len : Z;
  e_payload_remain : Z;
  e_xori : Z;
  e_mask : list Z;
  e_firstbyte : Z;
  e_contfragment : bool
}.

(** The first [payload_len] bytes of the payload. *)
Record ws_cntrl_frame := mk_cntrl { c_type : Z; c_payload : list Z }.

(** include/curl/websockets.h *)
Record curl_ws_frame := mk_frame { f_age : Z; f_flags : Z; f_offset : Z; f_bytesleft : Z; f_len : Z }.

Record websocket := mk_ws {
  w_dec : ws_decoder;
  w_enc : ws_encoder;
  w_recvbuf : bufq;
  w_sendbuf : bufq;
  w_recvframe : curl_ws_frame;
  w_pending : ws_cntrl_frame;
  w_sendbuf_payload : Z
}.

(** * The first byte of a frame *)

Definition ws_frame_firstbyte2flags (firstbyte cont_flags : Z) : Z :=
  let cont := has cont_flags CURLWS_CONT in
  if firstbyte =? WSBIT_OPCODE_CONT then if negb cont then 0 else Z.lor cont_flags CURLWS_CONT
  else if firstbyte =? Z.lor WSBIT_OPCODE_CONT WSBIT_FIN then
    if negb cont then 0 else Z.land cont_flags (Z.lnot CURLWS_CONT)
  else if firstbyte =? WSBIT_OPCODE_TEXT then if cont then 0 else Z.lor CURLWS_TEXT CURLWS_CONT
  else if firstbyte =? Z.lor WSBIT_OPCODE_TEXT WSBIT_FIN then if cont then 0 else CURLWS_TEXT
  else if firstbyte =? WSBIT_OPCODE_BIN then if cont then 0 else Z.lor CURLWS_BINARY CURLWS_CONT
  else if firstbyte =? Z.lor WSBIT_OPCODE_BIN WSBIT_FIN then if cont then 0 else CURLWS_BINARY
  else if firstbyte =? WSBIT_OPCODE_CLOSE then 0
  else if firstbyte =? Z.lor WSBIT_OPCODE_CLOSE WSBIT_FIN then CURLWS_CLOSE
  else if firstbyte =? WSBIT_OPCODE_PING then 0
  else if firstbyte =? Z.lor WSBIT_OPCODE_PING WSBIT_FIN then CURLWS_PING
  else if firstbyte =? WSBIT_OPCODE_PONG then 0
  else if firstbyte =? Z.lor WSBIT_OPCODE_PONG WSBIT_FIN then CURLWS_PONG
  else 0.

(** The result and [*pfirstbyte]. *)
Definition ws_frame_flags2firstbyte (flags : Z) (contfragment : bool) : CURLcode * Z :=
  let f := Z.land flags (Z.lnot CURLWS_OFFSET) in
  if f =? 0 then
    if contfragment then (CURLE_OK, Z.lor WSBIT_OPCODE_CONT WSBIT_FIN) else (CURLE_BAD_FUNCTION_ARGUMENT, 0)
  else if f =? CURLWS_CONT then
    if contfragment then (CURLE_OK, WSBIT_OPCODE_CONT) else (CURLE_BAD_FUNCTION_ARGUMENT, 0)
  else if f =? CURLWS_TEXT then
    (CURLE_OK, if contfragment then Z.lor WSBIT_OPCODE_CONT WSBIT_FIN else Z.lor WSBIT_OPCODE_TEXT WSBIT_FIN)
  else if f =? Z.lor CURLWS_TEXT CURLWS_CONT then
    (CURLE_OK, if contfragment then WSBIT_OPCODE_CONT else WSBIT_OPCODE_TEXT)
  else if f =? CURLWS_BINARY then
    (CURLE_OK, if contfragment then Z.lor WSBIT_OPCODE_CONT WSBIT_FIN else Z.lor WSBIT_OPCODE_BIN WSBIT_FIN)
  else if f =? Z.lor CURLWS_BINARY CURLWS_CONT then
    (CURLE_OK, if contfragment then WSBIT_OPCODE_CONT else WSBIT_OPCODE_BIN)
  else if f =? CURLWS_CLOSE then (CURLE_OK, Z.lor WSBIT_OPCODE_CLOSE WSBIT_FIN)
  else if f =? Z.lor CURLWS_CLOSE CURLWS_CONT then (CURLE_BAD_FUNCTION_ARGUMENT, 0)
  else if f =? CURLWS_PING then (CURLE_OK, Z.lor WSBIT_OPCODE_PING WSBIT_FIN)
  else if f =? Z.lor CURLWS_PING CURLWS_CONT then (CURLE_BAD_FUNCTION_ARGUMENT, 0)
  else if f =? CURLWS_PONG then (CURLE_OK, Z.lor WSBIT_OPCODE_PONG WSBIT_FIN)
  else (CURLE_BAD_FUNCTION_ARGUMENT, 0).

(** * The head of a frame that comes in *)

Definition d_set_head (h : list Z) (n : Z) (d : ws_decoder) : ws_decoder :=
  mk_dec (d_frame_age d) (d_frame_flags d) (d_payload_offset d) (d_payload_len d) h n (d_head_total d) (d_state d) (d_cont_flags d).
Definition d_set_total (n : Z) (d : ws_decoder) : ws_decoder :=
  mk_dec (d_frame_age d) (d_frame_flags d) (d_payload_offset d) (d_payload_len d) (d_head d) (d_head_len d) n (d_state d) (d_cont_flags d).
Definition d_set_flags (flags cont : Z) (d : ws_decoder) : ws_decoder :=
  mk_dec (d_frame_age d) flags (d_payload_offset d) (d_payload_len d) (d_head d) (d_head_len d) (d_head_total d) (d_state d) cont.
Definition d_set_payload (age off len : Z) (d : ws_decoder) : ws_decoder :=
  mk_dec age (d_frame_flags d) off len (d_head d) (d_head_len d) (d_head_total d) (d_state d) (d_cont_flags d).
Definition d_set_state (s : ws_dec_state) (d : ws_decoder) : ws_decoder :=
  mk_dec (d_frame_age d) (d_frame_flags d) (d_payload_offset d) (d_payload_len d) (d_head d) (d_head_len d) (d_head_total d) s (d_cont_flags d).

Definition ws_dec_next_frame (d : ws_decoder) : ws_decoder :=
  mk_dec 0 0 0 0 (d_head d) 0 0 WS_DEC_INIT (d_cont_flags d).

Definition ws_dec_reset (d : ws_decoder) : ws_decoder := mk_dec 0 0 0 0 (d_head d) 0 0 WS_DEC_INIT 0.

Definition ws_dec_init (d : ws_decoder) : ws_decoder := ws_dec_reset d.

(** [dec->head[i] = v] and the bytes the head has now. *)
Definition put_head (i v : Z) (d : ws_decoder) : option ws_decoder :=
  if (0 <=? i) && (i <? zlen (d_head d)) then Some (d_set_head (<[Z.to_nat i := v]> (d_head d)) (i + 1) d) else None.

(** The complete head: the decoder and the result. *)
Definition head_done (d : ws_decoder) : ws_decoder * CURLcode :=
  let h i := at_ (d_head d) i in
  let ok n := (d_set_payload 0 0 n d, CURLE_OK) in
  if d_head_total d =? 2 then ok (h 1%nat)
  else if d_head_total d =? 4 then ok (Z.lor (Z.shiftl (h 2%nat) 8) (h 3%nat))
  else if d_head_total d =? 10 then
    if h 2%nat >? 127 then (d, CURLE_RECV_ERROR)
    else ok (Z.lor (Z.lor (Z.lor (Z.lor (Z.lor (Z.lor (Z.lor (Z.shiftl (h 2%nat) 56) (Z.shiftl (h 3%nat) 48))
               (Z.shiftl (h 4%nat) 40)) (Z.shiftl (h 5%nat) 32)) (Z.shiftl (h 6%nat) 24))
               (Z.shiftl (h 7%nat) 16)) (Z.shiftl (h 8%nat) 8)) (h 9%nat))
  else (d, CURLE_RECV_ERROR).

(** The checks of the second byte. *)
Definition second_byte_bad (flags b : Z) : bool :=
  has b WSBIT_MASK || (has flags CURLWS_PING && (b >? WS_MAX_CNTRL_LEN))
  || (has flags CURLWS_PONG && (b >? WS_MAX_CNTRL_LEN)) || (has flags CURLWS_CLOSE && (b >? WS_MAX_CNTRL_LEN)).

(** The flags of a frame, and those the frames that continue it go on with. *)
Definition first_byte (b : Z) (d : ws_decoder) : ws_decoder :=
  let flags := ws_frame_firstbyte2flags b (d_cont_flags d) in
  d_set_flags flags (if has flags (Z.lor CURLWS_TEXT CURLWS_BINARY) then flags else d_cont_flags d) d.

(** [while(Curl_bufq_peek(inraw, &inbuf, &inlen))]: the decoder, the queue and
    the result.  Every round but the last takes a byte, of ten at most. *)
Fixpoint read_head_loop (fuel : nat) (d : ws_decoder) (inraw : bufq) : option (ws_decoder * bufq * CURLcode) :=
  '(inraw, p) ← Curl_bufq_peek inraw;
  match p, fuel with
  | None, _ => Some (d, inraw, CURLE_AGAIN)
  | Some _, O => None
  | Some inbuf, S fuel =>
      let b := deref inbuf in
      if d_head_len d =? 0 then
        d ← put_head 0 b d;
        inraw ← Curl_bufq_skip inraw 1;
        if ws_frame_firstbyte2flags b (d_cont_flags d) =? 0 then Some (ws_dec_reset d, inraw, CURLE_RECV_ERROR)
        else read_head_loop fuel (first_byte b d) inraw
      else
        '(d, inraw, next) ←
          (if d_head_len d =? 1 then
             d ← put_head 1 b d;
             inraw ← Curl_bufq_skip inraw 1;
             if second_byte_bad (d_frame_flags d) b then Some (ws_dec_reset d, inraw, Some (Some CURLE_RECV_ERROR))
             else if b =? 126 then Some (d_set_total 4 d, inraw, Some None)
             else if b =? 127 then Some (d_set_total 10 d, inraw, Some None)
             else Some (d_set_total 2 d, inraw, None)
           else Some (d, inraw, None));
        match next with
        | Some (Some result) => Some (d, inraw, result)
        | Some None => read_head_loop fuel d inraw
        | None =>
            if d_head_len d <? d_head_total d then
              d ← put_head (d_head_len d) b d;
              inraw ← Curl_bufq_skip inraw 1;
              if d_head_len d <? d_head_total d then read_head_loop fuel d inraw
              else let '(d, result) := head_done d in Some (d, inraw, result)
            else let '(d, result) := head_done d in Some (d, inraw, result)
        end
  end.

Definition ws_dec_read_head (d : ws_decoder) (inraw : bufq) : option (ws_decoder * bufq * CURLcode) :=
  read_head_loop 11 d inraw.
