(* ===== verification/WsConn.v ===== *)
(** WebSocket connections, lib/ws.c: the operations on a [struct websocket].

    What the code calls outside of lib/ws.c is an interface: [WsNet] has the
    random numbers, the socket and its timeouts; the next writer and the
    next reader of the transfer are computations of the monad, since the
    application they end in may call the websocket functions again. *)

From Stdlib Require Import ZArith Lia List.
From stdpp Require Import base numbers option list.
From S2P Require Import Prelude Dynbuf Bufq Ws.
Close Scope nat_scope.
Open Scope Z_scope.

(** The outside world: [N] is its state. *)
Class WsNet (N : Type) := {
  randit : N -> N * CURLcode * Z;
  easy_connection : N -> CURLcode;
  Curl_conn_send : N -> list Z -> N * CURLcode * Z;
  Curl_timeleft_ms : N -> Z;
  socket_bad : N -> bool;
  SOCKET_WRITABLE : N -> Z -> N * Z;
  curl_easy_recv : N -> Z -> N * CURLcode * list Z;
  Curl_connect_only_attach : N -> CURLcode;
  Curl_cwriter_is_paused : N -> bool
}.

(** The members of the transfer that the code reads. *)
Record Curl_easy := mk_easy {
  good_handle : bool;
  has_conn : bool;         (* data->conn *)
  has_ws : bool;           (* the connection has a struct websocket *)
  has_last_conn : bool;    (* Curl_getconnectinfo finds one *)
  connect_only : bool;
  ws_raw_mode : bool;
  ws_no_auto_pong : bool;
  is_in_callback : bool
}.

(** [struct ws_collect]; the buffer has room for [k_buflen] bytes, and
    [k_buffer] are the [bufidx] bytes it has. *)
Record ws_collect := mk_collect {
  k_buffer : list Z;
  k_buflen : Z;
  k_frame_age : Z;
  k_frame_flags : Z;
  k_payload_offset : Z;
  k_payload_len : Z;
  k_written : bool
}.

Section ws.
Context {N : Type} `{WsNet N}.

(** The websocket, the buffer of the decoding writer ([struct ws_cw_ctx]), the
    [struct ws_collect] of a running [curl_ws_recv], the outside world and
    the coming allocations. *)
Record ws_state := mk_st {
  st_ws : websocket;
  st_cwbuf : bufq;
  st_collect : ws_collect;
  st_net : N;
  st_allocs : allocs
}.

Definition W (A : Type) : Type := ws_state -> option ((CURLcode + A) * ws_state).

#[global] Instance W_ret : MRet W := fun A a s => Some (inr a, s).
#[global] Instance W_bind : MBind W := fun A B f m s =>
  match m s with
  | Some (inr a, s) => f a s
  | Some (inl e, s) => Some (inl e, s)
  | None => None
  end.

Definition wfail {A} (e : CURLcode) : W A := fun s => Some (inl e, s).
Definition wundef {A} : W A := fun _ => None.
Definition wget : W ws_state := fun s => Some (inr s, s).
Definition wmod (f : ws_state -> ws_state) : W unit := fun s => Some (inr tt, f s).
Definition wlift {A} (x : option A) : W A := fun s => a ← x; Some (inr a, s).

(** Run a function and look at its result. *)
Definition wtry {A} (m : W A) : W (CURLcode + A) := fun s => '(r, s) ← m s; Some (inr r, s).

(** [if(result) return result;] *)
Definition check (result : CURLcode) : W unit := if is_ok result then mret tt else wfail result.

(** The result of a function. *)
Definition result_of {A} (r : CURLcode + A) : CURLcode := match r with inl e => e | inr _ => CURLE_OK end.

(** ** The parts of the state *)

Definition mod_ws (f : websocket -> websocket) : W unit :=
  wmod (fun s => mk_st (f (st_ws s)) (st_cwbuf s) (st_collect s) (st_net s) (st_allocs s)).
Definition get_ws : W websocket := s ← wget; mret (st_ws s).
Definition mod_collect (f : ws_collect -> ws_collect) : W unit :=
  wmod (fun s => mk_st (st_ws s) (st_cwbuf s) (f (st_collect s)) (st_net s) (st_allocs s)).
Definition set_cwbuf (q : bufq) : W unit :=
  wmod (fun s => mk_st (st_ws s) q (st_collect s) (st_net s) (st_allocs s)).
Definition set_net (n : N) : W unit :=
  wmod (fun s => mk_st (st_ws s) (st_cwbuf s) (st_collect s) n (st_allocs s)).

Definition set_dec (d : ws_decoder) (w : websocket) : websocket :=
  mk_ws d (w_enc w) (w_recvbuf w) (w_sendbuf w) (w_recvframe w) (w_pending w) (w_sendbuf_payload w).
Definition set_enc (e : ws_encoder) (w : websocket) : websocket :=
  mk_ws (w_dec w) e (w_recvbuf w) (w_sendbuf w) (w_recvframe w) (w_pending w) (w_sendbuf_payload w).
Definition set_recvbuf (q : bufq) (w : websocket) : websocket :=
  mk_ws (w_dec w) (w_enc w) q (w_sendbuf w) (w_recvframe w) (w_pending w) (w_sendbuf_payload w).
Definition set_sendbuf (q : bufq) (w : websocket) : websocket :=
  mk_ws (w_dec w) (w_enc w) (w_recvbuf w) q (w_recvframe w) (w_pending w) (w_sendbuf_payload w).
Definition set_recvframe (f : curl_ws_frame) (w : websocket) : websocket :=
  mk_ws (w_dec w) (w_enc w) (w_recvbuf w) (w_sendbuf w) f (w_pending w) (w_sendbuf_payload w).
Definition set_pending (c : ws_cntrl_frame) (w : websocket) : websocket :=
  mk_ws (w_dec w) (w_enc w) (w_recvbuf w) (w_sendbuf w) (w_recvframe w) c (w_sendbuf_payload w).
Definition set_sendbuf_payload (n : Z) (w : websocket) : websocket :=
  mk_ws (w_dec w) (w_enc w) (w_recvbuf w) (w_sendbuf w) (w_recvframe w) (w_pending w) n.

Definition mod_dec (f : ws_decoder -> ws_decoder) : W unit := mod_ws (fun w => set_dec (f (w_dec w)) w).
Definition mod_enc (f : ws_encoder -> ws_encoder) : W unit := mod_ws (fun w => set_enc (f (w_enc w)) w).

(** [Curl_bufq_write(&ws->sendbuf, ...)]: the result and [*pnwritten]. *)
Definition sendbuf_write (buf : list Z) : W (CURLcode * Z) := fun s =>
  '(q, r, n, o) ← Curl_bufq_write (w_sendbuf (st_ws s)) buf (st_allocs s);
  Some (inr (r, n), mk_st (set_sendbuf q (st_ws s)) (st_cwbuf s) (st_collect s) (st_net s) o).

Definition sendbuf_skip (n : Z) : W unit :=
  w ← get_ws; q ← wlift (Curl_bufq_skip (w_sendbuf w) n); mod_ws (set_sendbuf q).

Definition sendbuf_peek : W (option (list Z)) :=
  w ← get_ws; '(q, p) ← wlift (Curl_bufq_peek (w_sendbuf w)); mod_ws (set_sendbuf q);; mret p.

Definition sendbuf_empty : W bool := w ← get_ws; mret (Curl_bufq_is_empty (w_sendbuf w)).
Definition sendbuf_len : W Z := w ← get_ws; mret (Curl_bufq_len (w_sendbuf w)).

(** The bytes in a queue, which bound the rounds of the loops that take them. *)
Definition queue_bytes (q : bufq) : nat :=
  fold_left (fun n c => (n + Z.to_nat (w_offset c - r_offset c))%nat) (head q) O.

(** ** Random numbers (lib/rand.c) *)

(** [while(left)] *)
Fixpoint rand_split (left : nat) (r : Z) : list Z :=
  match left with
  | O => []
  | S n => Z.land r 255 :: rand_split n (Z.shiftr r 8)
  end.

(** [while(num)]: the result and the bytes stored so far. *)
Fixpoint rand_loop (fuel : nat) (num : Z) (n : N) (result : CURLcode) : option (N * CURLcode * list Z) :=
  if num =? 0 then Some (n, result, [])
  else
    match fuel with
    | O => None
    | S fuel =>
        let k := if num <? 4 then num else 4 in
        let '(n, result, r) := randit n in
        if negb (is_ok result) then Some (n, result, [])
        else
          '(n, result, rest) ← rand_loop fuel (num - k) n result;
          Some (n, result, rand_split (Z.to_nat k) r ++ rest)
    end.

Definition Curl_rand_bytes (n : N) (num : Z) : option (N * CURLcode * list Z) :=
  rand_loop (Z.to_nat num) num n CURLE_BAD_FUNCTION_ARGUMENT.

(** * The encoder *)

Definition ws_enc_reset (e : ws_encoder) : ws_encoder :=
  mk_enc (e_payload_len e) 0 0 (e_mask e) (e_firstbyte e) false.

Definition ws_enc_init (e : ws_encoder) : ws_encoder := ws_enc_reset e.

Definition e_set_cont (b : bool) (e : ws_encoder) : ws_encoder :=
  mk_enc (e_payload_len e) (e_payload_remain e) (e_xori e) (e_mask e) (e_firstbyte e) b.
Definition e_set_firstbyte (b : Z) (e : ws_encoder) : ws_encoder :=
  mk_enc (e_payload_len e) (e_payload_remain e) (e_xori e) (e_mask e) b (e_contfragment e).
Definition e_set_payload (len remain : Z) (e : ws_encoder) : ws_encoder :=
  mk_enc len remain (e_xori e) (e_mask e) (e_firstbyte e) (e_contfragment e).
Definition e_set_xori (i : Z) (e : ws_encoder) : ws_encoder :=
  mk_enc (e_payload_len e) (e_payload_remain e) i (e_mask e) (e_firstbyte e) (e_contfragment e).
Definition e_set_mask (m : list Z) (e : ws_encoder) : ws_encoder :=
  mk_enc (e_payload_len e) (e_payload_remain e) (e_xori e) m (e_firstbyte e) (e_contfragment e).

(** The head up to the mask. *)
Definition enc_head (firstb payload_len : Z) : list Z :=
  let byte k := Z.land (Z.shiftr payload_len k) 255 in
  if payload_len >? 65535 then
    [firstb; Z.lor 127 WSBIT_MASK; byte 56; byte 48; byte 40; byte 32; byte 24; byte 16; byte 8; Z.land payload_len 255]
  else if payload_len >=? 126 then [firstb; Z.lor 126 WSBIT_MASK; byte 8; Z.land payload_len 255]
  else [firstb; Z.lor (u8 payload_len) WSBIT_MASK].

(** [Curl_rand(data, enc->mask, sizeof(enc->mask))] *)
Definition rand_mask : W unit :=
  s ← wget;
  '(n, result, bytes) ← wlift (Curl_rand_bytes (st_net s) 4);
  set_net n;;
  mod_enc (fun e => e_set_mask (bytes ++ zdrop (zlen bytes) (e_mask e)) e);;
  check result.

Definition ws_enc_add_frame (flags payload_len : Z) : W unit :=
  if payload_len <? 0 then wfail CURLE_SEND_ERROR
  else
    w ← get_ws;
    if e_payload_remain (w_enc w) >? 0 then wfail CURLE_SEND_ERROR
    else
      let '(result, firstb) := ws_frame_flags2firstbyte flags (e_contfragment (w_enc w)) in
      check result;;
      (if has flags (Z.lor CURLWS_TEXT CURLWS_BINARY) then mod_enc (e_set_cont (has flags CURLWS_CONT)) else mret tt);;
      if has flags CURLWS_PING && (payload_len >? WS_MAX_CNTRL_LEN) then wfail CURLE_TOO_LARGE
      else if has flags CURLWS_PONG && (payload_len >? WS_MAX_CNTRL_LEN) then wfail CURLE_TOO_LARGE
      else if has flags CURLWS_CLOSE && (payload_len >? WS_MAX_CNTRL_LEN) then wfail CURLE_TOO_LARGE
      else
        mod_enc (e_set_firstbyte firstb);;
        mod_enc (e_set_payload payload_len payload_len);;
        rand_mask;;
        w ← get_ws;
        let head := enc_head firstb payload_len ++ e_mask (w_enc w) in
        mod_enc (e_set_xori 0);;
        '(result, nwritten) ← sendbuf_write head;
        check result;;
        if negb (nwritten =? zlen head) then wfail CURLE_SEND_ERROR else mret tt.

(** [for(i = 0; i < len; ++i)] over the bytes, [i] of them done. *)
Fixpoint payload_loop (buf : list Z) (i : Z) : W Z :=
  match buf with
  | [] => mret i
  | b :: buf =>
      w ← get_ws;
      m ← wlift (e_mask (w_enc w) !! Z.to_nat (e_xori (w_enc w)));
      '(result, n) ← sendbuf_write [Z.lxor b m];
      if negb (is_ok result) then
        if negb (code_eqb result CURLE_AGAIN) || (i =? 0) then wfail result else mret i
      else
        mod_enc (e_set_xori (Z.land (e_xori (w_enc w) + 1) 3));;
        payload_loop buf (i + 1)
  end.

Definition curlx_sotouz_range (sonum uzmin uzmax : Z) : Z :=
  if sonum <? 0 then uzmin else Z.min (Z.max (u64 sonum) uzmin) uzmax.

Definition curlx_uztoso (uznum : Z) : Z := if uznum >? CURL_OFF_T_MAX then CURL_OFF_T_MAX else uznum.

(** The bytes of [buf] that were taken. *)
Definition ws_enc_write_payload (buf : list Z) : W Z :=
  w ← get_ws;
  if Curl_bufq_is_full (w_sendbuf w) then wfail CURLE_AGAIN
  else
    let len := Z.min (curlx_sotouz_range (e_payload_remain (w_enc w)) 0 SIZE_MAX) (zlen buf) in
    i ← payload_loop (ztake len buf) 0;
    mod_enc (fun e => e_set_payload (e_payload_len e) (e_payload_remain e - i) e);;
    mret i.

(** No control frame. *)
Definition no_cntrl : ws_cntrl_frame := mk_cntrl 0 [].

Definition ws_enc_add_pending : W unit :=
  w ← get_ws;
  let p := w_pending w in
  if c_type p =? 0 then mret tt
  else if negb (e_payload_remain (w_enc w) =? 0) then wfail CURLE_AGAIN
  else
    ws_enc_add_frame (c_type p) (zlen (c_payload p));;
    n ← ws_enc_write_payload (c_payload p);
    if negb (n =? zlen (c_payload p)) then wfail CURLE_SEND_ERROR
    else mod_ws (set_pending no_cntrl).

Definition ws_enc_write_head (flags payload_len : Z) : W unit :=
  w ← get_ws;
  (if negb (c_type (w_pending w) =? 0) then ws_enc_add_pending else mret tt);;
  ws_enc_add_frame flags payload_len.

Definition ws_enc_add_cntrl (payload : list Z) (frame_type : Z) : W unit :=
  if zlen payload >? WS_MAX_CNTRL_LEN then wfail CURLE_BAD_FUNCTION_ARGUMENT
  else mod_ws (set_pending (mk_cntrl frame_type payload)).

(** * Sending *)

(** lib/transfer.c: the bytes written; a connection that would block has
    written none. *)
Definition Curl_xfer_send (buf : list Z) : W Z :=
  s ← wget;
  let '(n, result, k) := Curl_conn_send (st_net s) buf in
  set_net n;;
  if code_eqb result CURLE_AGAIN then mret 0 else check result;; mret k.

(** lib/easy.c *)
Definition Curl_senddata (buf : list Z) : W Z :=
  s ← wget;
  check (easy_connection (st_net s));;
  let '(n, result, k) := Curl_conn_send (st_net s) buf in
  set_net n;;
  if negb (is_ok result) && negb (code_eqb result CURLE_AGAIN) then wfail CURLE_SEND_ERROR
  else check result;; mret k.

(** [while(buflen)]: a socket that takes nothing until the transfer times out
    makes any number of rounds. *)
Fixpoint send_blocking_loop (fuel : nat) (buffer : list Z) : W unit :=
  if zlen buffer =? 0 then mret tt
  else
    match fuel with
    | O => wundef
    | S fuel =>
        nwritten ← Curl_xfer_send buffer;
        let buffer := zdrop nwritten buffer in
        (if negb (zlen buffer =? 0) then
           s ← wget;
           let left_ms := Curl_timeleft_ms (st_net s) in
           if left_ms <? 0 then wfail CURLE_SEND_ERROR
           else if socket_bad (st_net s) then wfail CURLE_SEND_ERROR
           else
             let '(n, ev) := SOCKET_WRITABLE (st_net s) (if negb (left_ms =? 0) then left_ms else 500) in
             set_net n;;
             if ev <? 0 then wfail CURLE_SEND_ERROR else mret tt
         else mret tt);;
        send_blocking_loop fuel buffer
    end.

(** The functions of one transfer; [wait] is the number of rounds that a
    blocking send may take. *)
Context (data : Curl_easy) (wait : nat).

(** One write of [ws_flush]. *)
Definition flush_write (blocking : bool) (out : list Z) : W Z :=
  if blocking then send_blocking_loop wait out;; mret (zlen out)
  else if connect_only data || is_in_callback data then Curl_senddata out
  else
    n ← Curl_xfer_send out;
    if (n =? 0) && negb (zlen out =? 0) then wfail CURLE_AGAIN else mret n.

(** [while(Curl_bufq_peek(&ws->sendbuf, &out, &outlen))]: every round takes a
    byte. *)
Fixpoint flush_loop (fuel : nat) (blocking : bool) : W unit :=
  p ← sendbuf_peek;
  match p, fuel with
  | None, _ => mret tt
  | Some _, O => wundef
  | Some out, S fuel =>
      n ← flush_write blocking out;
      sendbuf_skip n;;
      flush_loop fuel blocking
  end.

Definition ws_flush (blocking : bool) : W unit :=
  w ← get_ws;
  (if Curl_bufq_len (w_sendbuf w) <? chunk_size (w_sendbuf w) then
     r ← wtry ws_enc_add_pending;
     let result := result_of r in
     if negb (is_ok result) && negb (code_eqb result CURLE_AGAIN) then wfail result else mret tt
   else mret tt);;
  empty ← sendbuf_empty;
  w ← get_ws;
  if negb empty then flush_loop (queue_bytes (w_sendbuf w)) blocking else mret tt.

(** [buffer += n; buflen -= n;] *)
Definition advance (n : Z) (buffer : list Z) : W (list Z) :=
  wlift (if n <=? zlen buffer then Some (zdrop n buffer) else None).

(** The end of a round of [ws_enc_send]: the bytes of the caller that are left
    when there is another round, else the result, and [*pnsent]. *)
Definition send_flush (buffer : list Z) (pnsent : Z) : W ((CURLcode + list Z) * Z) :=
  r ← wtry (ws_flush (is_in_callback data));
  w ← get_ws;
  let payload := w_sendbuf_payload w in
  match r with
  | inr _ =>
      if payload >? 0 then
        buffer ← advance payload buffer;
        mod_ws (set_sendbuf_payload 0);;
        mret (inr buffer, pnsent + payload)
      else mret (inl CURLE_OK, pnsent)
  | inl result =>
      if code_eqb result CURLE_AGAIN then
        let len := Curl_bufq_len (w_sendbuf w) in
        if payload >? len then
          let flushed := payload - len in
          mod_ws (set_sendbuf_payload (payload - flushed));;
          mret (inl CURLE_OK, pnsent + flushed)
        else mret (inl CURLE_AGAIN, pnsent)
      else mret (inl result, pnsent)
  end.

(** The first half of a round: a result that ends the call. *)
Definition send_fill (buffer : list Z) : W (option CURLcode) :=
  w ← get_ws;
  if zlen buffer >? w_sendbuf_payload w then
    prev_len ← sendbuf_len;
    r ← wtry (ws_enc_write_payload (zdrop (w_sendbuf_payload w) buffer));
    let result := result_of r in
    if negb (is_ok result) && negb (code_eqb result CURLE_AGAIN) then mret (Some result)
    else
      mod_ws (fun w => set_sendbuf_payload (u64 (w_sendbuf_payload w + Curl_bufq_len (w_sendbuf w) - prev_len)) w);;
      w ← get_ws;
      mret (if w_sendbuf_payload w =? 0 then Some CURLE_AGAIN else None)
  else mret None.

(** [while(!Curl_bufq_is_empty(&ws->sendbuf) || (buflen > ws->sendbuf_payload))]:
    the result and [*pnsent].  Every round but the first and the last reports a
    byte. *)
Fixpoint enc_send_loop (fuel : nat) (buffer : list Z) (pnsent : Z) : W (CURLcode * Z) :=
  w ← get_ws;
  if Curl_bufq_is_empty (w_sendbuf w) && negb (zlen buffer >? w_sendbuf_payload w) then mret (CURLE_OK, pnsent)
  else
    match fuel with
    | O => wundef
    | S fuel =>
        stop ← send_fill buffer;
        match stop with
        | Some result => mret (result, pnsent)
        | None =>
            '(r, pnsent) ← send_flush buffer pnsent;
            match r with
            | inl result => mret (result, pnsent)
            | inr buffer => enc_send_loop fuel buffer pnsent
            end
        end
    end.

(** The result and [*pnsent]. *)
Definition ws_enc_send (buffer : list Z) (fragsize flags : Z) : W (CURLcode * Z) :=
  w ← get_ws;
  let buflen := zlen buffer in
  let loop := enc_send_loop (S (S (length buffer))) buffer 0 in
  if negb (e_payload_remain (w_enc w) =? 0) || negb (Curl_bufq_is_empty (w_sendbuf w)) then
    if buflen <? w_sendbuf_payload w then mret (CURLE_BAD_FUNCTION_ARGUMENT, 0)
    else
      total ← wlift (i64 (e_payload_remain (w_enc w) + s64 (w_sendbuf_payload w)));
      if s64 buflen >? total then mret (CURLE_BAD_FUNCTION_ARGUMENT, 0) else loop
  else
    r ← wtry (ws_flush (is_in_callback data);;
              ws_enc_write_head flags (if has flags CURLWS_OFFSET then fragsize else s64 buflen));
    match r with
    | inl result => mret (result, 0)
    | inr _ => loop
    end.

Definition ws_send_raw (buffer : list Z) : W Z :=
  if negb (has_ws data) then wfail CURLE_SEND_ERROR
  else if zlen buffer =? 0 then mret 0
  else if is_in_callback data then ws_flush true;; send_blocking_loop wait buffer;; mret (zlen buffer)
  else ws_flush false;; Curl_senddata buffer.

(** A result with the [*sent] it leaves. *)
Definition with_sent (m : W Z) : W (CURLcode * Z) :=
  r ← wtry m; mret (match r with inl e => (e, 0) | inr n => (CURLE_OK, n) end).

(** [buffer] is NULL or [buflen] bytes; [sent] says that it is not NULL. *)
Definition curl_ws_send (buffer : option (list Z)) (buflen : Z) (sent : bool) (fragsize flags : Z) : W (CURLcode * Z) :=
  if negb (good_handle data) then mret (CURLE_BAD_FUNCTION_ARGUMENT, 0)
  else if match buffer with None => negb (buflen =? 0) | Some _ => false end then mret (CURLE_BAD_FUNCTION_ARGUMENT, 0)
  else
    with_sent
      (s ← wget;
       (if negb (has_conn data) && connect_only data then check (Curl_connect_only_attach (st_net s)) else mret tt);;
       if negb (has_conn data || connect_only data) then wfail CURLE_SEND_ERROR
       else if negb (has_ws data) then wfail CURLE_SEND_ERROR
       else mret 0)
    ≫= fun '(result, _) =>
    if negb (is_ok result) then mret (result, 0)
    else if ws_raw_mode data then
      with_sent
        (ws_flush false;;
         match buffer with
         | None => wfail CURLE_BAD_FUNCTION_ARGUMENT
         | Some b =>
             if negb sent then wfail CURLE_BAD_FUNCTION_ARGUMENT
             else if negb (fragsize =? 0) || negb (flags =? 0) then wfail CURLE_BAD_FUNCTION_ARGUMENT
             else ws_send_raw b
         end)
    else ws_enc_send (default [] buffer) fragsize flags.

Definition curl_ws_start_frame (flags frame_len : Z) : W unit :=
  if negb (good_handle data) then wfail CURLE_BAD_FUNCTION_ARGUMENT
  else if ws_raw_mode data then wfail CURLE_FAILED_INIT
  else if negb (has_conn data) then wfail CURLE_SEND_ERROR
  else if negb (has_ws data) then wfail CURLE_SEND_ERROR
  else
    w ← get_ws;
    if negb (e_payload_remain (w_enc w) =? 0) then wfail CURLE_SEND_ERROR else ws_enc_write_head flags frame_len.

End ws.
