(* ===== verification/WsRecv.v ===== *)
(** WebSocket connections, lib/ws.c: receiving, and the writer and the reader
    that put frames into a transfer. *)

From Stdlib Require Import ZArith Lia List.
From stdpp Require Import base numbers option list.
From S2P Require Import Prelude Dynbuf Bufq Ws WsConn.
Close Scope nat_scope.
Open Scope Z_scope.

(** Where the raw bytes are: in the writer, or in the websocket. *)
Inductive inraw := IN_WRITER | IN_RECVBUF.

Section ws_recv.
Context {N : Type} `{WsNet N} (data : Curl_easy) (wait : nat).
Abbreviation W := (WsConn.W (N := N)).

(** The function that takes payload: the bytes, the age and the flags of the
    frame, the offset and the length of its payload; it returns [*pnwritten]. *)
Definition ws_write_payload : Type := list Z -> Z -> Z -> Z -> Z -> W Z.

Definition in_queue (i : inraw) : W bufq :=
  s ← wget; mret (match i with IN_WRITER => st_cwbuf s | IN_RECVBUF => w_recvbuf (st_ws s) end).
Definition set_in (i : inraw) (q : bufq) : W unit :=
  match i with IN_WRITER => set_cwbuf q | IN_RECVBUF => mod_ws (set_recvbuf q) end.
Definition get_dec : W ws_decoder := w ← get_ws; mret (w_dec w).

(** * The decoder *)

Definition read_head (i : inraw) : W unit :=
  d ← get_dec; q ← in_queue i;
  '(d, q, result) ← wlift (ws_dec_read_head d q);
  mod_dec (fun _ => d);; set_in i q;; check result.

(** [curlx_sotouz_range(dec->payload_len - dec->payload_offset, 0, SIZE_MAX)] *)
Definition dec_remain : W Z :=
  d ← get_dec;
  remain ← wlift (i64 (d_payload_len d - d_payload_offset d));
  mret (curlx_sotouz_range remain 0 SIZE_MAX).

(** [while(remain && ...)]: a round takes a byte at least when the function that
    is called takes one. *)
Fixpoint pass_payload_loop (fuel : nat) (i : inraw) (write_cb : ws_write_payload) : W unit :=
  remain ← dec_remain;
  if remain =? 0 then mret tt
  else
    q ← in_queue i;
    '(q, p) ← wlift (Curl_bufq_peek q);
    set_in i q;;
    s ← wget;
    match p with
    | None => wfail CURLE_AGAIN
    | Some inbuf =>
        if Curl_cwriter_is_paused (st_net s) then wfail CURLE_AGAIN
        else
          match fuel with
          | O => wundef
          | S fuel =>
              let inbuf := if zlen inbuf >? remain then ztake remain inbuf else inbuf in
              d ← get_dec;
              nwritten ← write_cb inbuf (d_frame_age d) (d_frame_flags d) (d_payload_offset d) (d_payload_len d);
              q ← in_queue i;
              q ← wlift (Curl_bufq_skip q nwritten);
              set_in i q;;
              mod_dec (fun d => d_set_payload (d_frame_age d) (s64 (d_payload_offset d + nwritten)) (d_payload_len d) d);;
              pass_payload_loop fuel i write_cb
          end
    end.

Definition ws_dec_pass_payload (i : inraw) (write_cb : ws_write_payload) : W unit :=
  q ← in_queue i; pass_payload_loop (queue_bytes q) i write_cb.

Definition ws_dec_pass (i : inraw) (write_cb : ws_write_payload) : W unit :=
  let payload := ws_dec_pass_payload i write_cb;; mod_dec (d_set_state WS_DEC_INIT) in
  let head :=
    read_head i;;
    mod_dec (d_set_state WS_DEC_PAYLOAD);;
    d ← get_dec;
    if d_payload_len d =? 0 then
      write_cb [] (d_frame_age d) (d_frame_flags d) 0 0;;
      mod_dec (d_set_state WS_DEC_INIT)
    else payload in
  q ← in_queue i;
  if Curl_bufq_is_empty q then wfail CURLE_AGAIN
  else
    d ← get_dec;
    match d_state d with
    | WS_DEC_INIT => mod_dec (fun d => d_set_state WS_DEC_HEAD (ws_dec_next_frame d));; head
    | WS_DEC_HEAD => head
    | WS_DEC_PAYLOAD => payload
    end.

(** * What takes the payload *)

Definition update_meta (frame_age frame_flags payload_offset payload_len cur_len : Z) : W unit :=
  rest ← wlift (i64 (payload_len - payload_offset));
  mod_ws (set_recvframe (mk_frame frame_age frame_flags payload_offset (s64 (rest - cur_len)) cur_len)).

Definition ws_payload_remain (payload_total payload_offset payload_buffered : Z) : option Z :=
  remain ← i64 (payload_total - payload_offset);
  Some (if (payload_total <? 0) || (payload_offset <? 0) || (remain <? 0) then -1
        else let buffered := curlx_uztoso payload_buffered in
             if remain <? buffered then -1 else remain - buffered).

(** The next writer: the type of the data and the data. *)
Definition ws_cw_dec_next (next_writer : Z -> list Z -> W unit) (cw_type : Z) : ws_write_payload :=
  fun buf frame_age frame_flags payload_offset payload_len =>
  remain ← wlift (ws_payload_remain payload_len payload_offset (zlen buf));
  if remain <? 0 then wfail CURLE_BAD_FUNCTION_ARGUMENT
  else
    (if negb (ws_no_auto_pong data) && has frame_flags CURLWS_PING && (remain =? 0) then
       ws_enc_add_cntrl buf CURLWS_PONG
     else if negb (zlen buf =? 0) || (remain =? 0) then
       update_meta frame_age frame_flags payload_offset payload_len (zlen buf);;
       next_writer (Z.lor cw_type CLIENTWRITE_0LEN) buf
     else mret tt);;
    mret (zlen buf).

Definition set_first (age flags off len : Z) (k : ws_collect) : ws_collect :=
  mk_collect (k_buffer k) (k_buflen k) age flags off len (k_written k).
Definition set_written (k : ws_collect) : ws_collect :=
  mk_collect (k_buffer k) (k_buflen k) (k_frame_age k) (k_frame_flags k) (k_payload_offset k) (k_payload_len k) true.
Definition collect_more (b : list Z) (k : ws_collect) : ws_collect :=
  mk_collect (k_buffer k ++ b) (k_buflen k) (k_frame_age k) (k_frame_flags k) (k_payload_offset k) (k_payload_len k) (k_written k).

Definition ws_client_collect : ws_write_payload :=
  fun buf frame_age frame_flags payload_offset payload_len =>
  remain ← wlift (ws_payload_remain payload_len payload_offset (zlen buf));
  if remain <? 0 then wfail CURLE_BAD_FUNCTION_ARGUMENT
  else
    s ← wget;
    (if zlen (k_buffer (st_collect s)) =? 0
     then mod_collect (set_first frame_age frame_flags payload_offset payload_len) else mret tt);;
    if negb (ws_no_auto_pong data) && has frame_flags CURLWS_PING && (remain =? 0) then
      ws_enc_add_cntrl buf CURLWS_PONG;; mret (zlen buf)
    else
      mod_collect set_written;;
      let k := st_collect s in
      let write_len := Z.min (zlen buf) (k_buflen k - zlen (k_buffer k)) in
      if write_len =? 0 then if zlen buf =? 0 then mret 0 else wfail CURLE_AGAIN
      else mod_collect (collect_more (ztake write_len buf));; mret write_len.

(** * The writer of a transfer *)

(** [while(!Curl_bufq_is_empty(&ctx->buf) && !Curl_cwriter_is_paused(data))]:
    FALSE when the function goes to its end at once.  A round takes a byte, or
    leaves the payload of a frame that is complete. *)
Fixpoint cw_loop (fuel : nat) (write_cb : ws_write_payload) : W bool :=
  s ← wget;
  if negb (Curl_bufq_is_empty (st_cwbuf s)) && negb (Curl_cwriter_is_paused (st_net s)) then
    match fuel with
    | O => wundef
    | S fuel =>
        r ← wtry (ws_dec_pass IN_WRITER write_cb);
        match r with
        | inl result => if code_eqb result CURLE_AGAIN then mret false else wfail result
        | inr _ => cw_loop fuel write_cb
        end
    end
  else mret true.

(** The rounds for the bytes that are there. *)
Definition cw_rounds (s : ws_state) : nat := S (queue_bytes (st_cwbuf (N := N) s)).

Definition ws_cw_write (next_writer : Z -> list Z -> W unit) (type : Z) (buf : list Z) : W unit :=
  if negb (has type CLIENTWRITE_BODY) || ws_raw_mode data then next_writer type buf
  else if negb (has_ws data) then wfail CURLE_FAILED_INIT
  else
    (if negb (zlen buf =? 0) then
       s ← wget;
       '(q, result, _, o) ← wlift (Curl_bufq_write (st_cwbuf s) buf (st_allocs s));
       wmod (fun s => mk_st (st_ws s) q (st_collect s) (st_net s) o);;
       check result
     else mret tt);;
    s ← wget;
    all ← cw_loop (cw_rounds s) (ws_cw_dec_next next_writer type);
    s ← wget;
    if all && has type CLIENTWRITE_EOS && negb (Curl_bufq_is_empty (st_cwbuf s)) then wfail CURLE_RECV_ERROR
    else
      r ← wtry (ws_flush data wait (is_in_callback data));
      let result := result_of r in
      if code_eqb result CURLE_AGAIN then mret tt else check result.

Definition ws_cw_flush (next_writer : Z -> list Z -> W unit) (next_flush : W unit) : W unit :=
  (if negb (ws_raw_mode data) then
     next_flush;;
     if negb (has_ws data) then wfail CURLE_FAILED_INIT
     else
       s ← wget;
       cw_loop (cw_rounds s) (ws_cw_dec_next next_writer CLIENTWRITE_BODY);; mret tt
   else mret tt);;
  next_flush.

(** * Receiving *)

(** Fills [ws->recvbuf]; [rounds] bounds the reads that fill a chunk. *)
Definition recv_more (rounds : nat) : W unit :=
  s ← wget;
  '(q, n, result, cnt, o) ← wlift (Curl_bufq_slurp curl_easy_recv rounds (w_recvbuf (st_ws s)) (st_net s) (st_allocs s));
  wmod (fun s => mk_st (set_recvbuf q (st_ws s)) (st_cwbuf s) (st_collect s) n o);;
  check result;;
  if cnt =? 0 then wfail CURLE_GOT_NOTHING else mret tt.

(** [while(1)] *)
Fixpoint recv_loop (fuel : nat) (rounds : nat) : W unit :=
  match fuel with
  | O => wundef
  | S fuel =>
      w ← get_ws;
      (if Curl_bufq_is_empty (w_recvbuf w) then recv_more rounds else mret tt);;
      r ← wtry (ws_dec_pass IN_RECVBUF ws_client_collect);
      s ← wget;
      let written := k_written (st_collect s) in
      match r with
      | inl result =>
          if code_eqb result CURLE_AGAIN then if negb written then recv_loop fuel rounds else mret tt else wfail result
      | inr _ => if written then mret tt else recv_loop fuel rounds
      end
  end.

(** The bytes stored in the buffer of [buflen] bytes; [*recv] is their number
    and [*metap] is the [recvframe] of the state. *)
Definition curl_ws_recv (fuel rounds : nat) (buffer : bool) (buflen : Z) : W (list Z) :=
  if negb (good_handle data) || (negb (buflen =? 0) && negb buffer) then wfail CURLE_BAD_FUNCTION_ARGUMENT
  else
    (if negb (has_conn data) then
       if negb (connect_only data) then wfail CURLE_UNSUPPORTED_PROTOCOL
       else if negb (has_last_conn data) then wfail CURLE_BAD_FUNCTION_ARGUMENT else mret tt
     else mret tt);;
    if negb (has_ws data) then wfail CURLE_BAD_FUNCTION_ARGUMENT
    else
      mod_collect (fun _ => mk_collect [] buflen 0 0 0 0 false);;
      recv_loop fuel rounds;;
      s ← wget;
      let k := st_collect s in
      update_meta (k_frame_age k) (k_frame_flags k) (k_payload_offset k) (k_payload_len k) (zlen (k_buffer k));;
      (if negb (ws_raw_mode data) && negb (c_type (w_pending (st_ws s)) =? 0) then
         r2 ← wtry ws_enc_add_pending;
         if is_ok (result_of r2) then wtry (ws_flush data wait (is_in_callback data));; mret tt else mret tt
       else mret tt);;
      mret (k_buffer k).

(** * The reader of a transfer *)

(** [struct cr_ws_ctx] *)
Record cr_ws_ctx := mk_cr { read_eos : bool; cr_eos : bool }.

(** The context, the result, the bytes in the buffer ([*pnread] of them) and
    [*peos].  The next reader is given the room in the buffer. *)
Definition cr_ws_read (next_read : Z -> W (list Z * bool)) (clear_eos : W unit) (ctx : cr_ws_ctx) (blen : Z)
    : W (cr_ws_ctx * CURLcode * list Z * bool) :=
  let out ctx blen :=
    w ← get_ws;
    '(q, result, bytes) ← wlift (Curl_bufq_cread (w_sendbuf w) blen);
    mod_ws (set_sendbuf q);;
    if is_ok result && read_eos ctx && Curl_bufq_is_empty q
    then mret (mk_cr (read_eos ctx) true, result, bytes, true)
    else mret (ctx, result, bytes, false) in
  if cr_eos ctx then mret (ctx, CURLE_OK, [], true)
  else if negb (has_ws data) then mret (ctx, CURLE_FAILED_INIT, [], false)
  else
    empty ← sendbuf_empty;
    if negb empty then out ctx blen
    else if read_eos ctx then mret (mk_cr (read_eos ctx) true, CURLE_OK, [], true)
    else
      w ← get_ws;
      let blen := if negb (e_payload_remain (w_enc w) =? 0)
                  then curlx_sotouz_range (e_payload_remain (w_enc w)) 0 blen else blen in
      r ← wtry (next_read blen);
      match r with
      | inl result => mret (ctx, result, [], false)
      | inr (buf, eos) =>
          empty ← sendbuf_empty;
          if empty && (zlen buf =? 0) then
            let ctx := mk_cr eos (if eos : bool then true else cr_eos ctx) in
            mret (ctx, CURLE_OK, [], cr_eos ctx)
          else
            let ctx := mk_cr (if empty : bool then eos else false) (cr_eos ctx) in
            r ← wtry
              ((if negb empty then clear_eos else mret tt);;
               w ← get_ws;
               (if (e_payload_remain (w_enc w) =? 0) && Curl_bufq_is_empty (w_sendbuf w)
                then ws_enc_write_head CURLWS_BINARY (zlen buf) else mret tt);;
               ws_enc_write_payload buf);
            match r with
            | inl result => mret (ctx, result, [], false)
            | inr _ => out ctx blen
            end
      end.

(** * Setting up *)

(** The buffer of the decoding writer. *)
Definition ws_cw_init : bufq := Curl_bufq_init2 WS_CHUNK_SIZE 1 true false.

(** [Curl_ws_accept]: the websocket of a connection that has none. *)
Definition ws_new : websocket :=
  let queue := Curl_bufq_init2 WS_CHUNK_SIZE WS_CHUNK_COUNT true false in
  mk_ws (ws_dec_init (mk_dec 0 0 0 0 (replicate 10 0) 0 0 WS_DEC_INIT 0)) (ws_enc_init (mk_enc 0 0 0 (replicate 4 0) 0 false))
    queue queue (mk_frame 0 0 0 0 0) no_cntrl 0.

(** and of one that has one. *)
Definition ws_again (w : websocket) : websocket :=
  mk_ws (ws_dec_reset (w_dec w)) (ws_enc_reset (w_enc w)) (Curl_bufq_reset (w_recvbuf w)) (w_sendbuf w) (w_recvframe w)
    (w_pending w) (w_sendbuf_payload w).

(** The frame of the data that the application is given, in its callback. *)
Definition curl_ws_meta : W (option curl_ws_frame) :=
  w ← get_ws;
  mret (if good_handle data && is_in_callback data && has_conn data && negb (ws_raw_mode data) && has_ws data
        then Some (w_recvframe w) else None).

End ws_recv.
