(* ===== verification/WsRef.v ===== *)
(** Frames that come in: the framing of RFC 6455 as a machine that takes a byte
    at a time, and the parser of heads in lib/ws.c against it. *)

From Stdlib Require Import ZArith Lia List.
From stdpp Require Import base numbers option list.
From S2P Require Import Prelude Dynbuf Bufq Ws.
Close Scope nat_scope.
Open Scope Z_scope.

(** * The framing of RFC 6455, section 5 *)

Inductive ws_kind := Text | Binary.

(** A frame of a message, with more to follow or not, or a control frame. *)
Inductive ws_op := OpData (k : ws_kind) (more : bool) | OpClose | OpPing | OpPong.

#[global] Instance ws_kind_eq_dec : EqDecision ws_kind.
Proof. solve_decision. Defined.
#[global] Instance ws_op_eq_dec : EqDecision ws_op.
Proof. solve_decision. Defined.

Definition is_data (op : ws_op) : bool := match op with OpData _ _ => true | _ => false end.

(** The message that is open after a frame, [cont] being the one before. *)
Definition next_cont (op : ws_op) (cont : option ws_kind) : option ws_kind :=
  match op with OpData k more => if more then Some k else None | _ => cont end.

(** The meaning of the first byte: FIN bit, three bits that are not in use, opcode.  Only
    a message that is open can be continued, only one that is not can start,
    and control frames come in one piece. *)
Definition ref_op (b0 : Z) (cont : option ws_kind) : option ws_op :=
  let fin := 128 <=? b0 in
  let start k := match cont with None => Some (OpData k (negb fin)) | Some _ => None end in
  let control op := if fin then Some op else None in
  match b0 mod 128 with
  | 0 => (fun k => OpData k (negb fin)) <$> cont
  | 1 => start Text
  | 2 => start Binary
  | 8 => control OpClose
  | 9 => control OpPing
  | 10 => control OpPong
  | _ => None
  end.

(** A number in network byte order. *)
Definition be (l : list Z) : Z := fold_left (fun n b => 256 * n + b) l 0.

(** The bytes of the length behind the second byte. *)
Definition ext_len (b1 : Z) : Z := if b1 =? 126 then 2 else if b1 =? 127 then 8 else 0.

Inductive head_res := HMore | HBad | HDone (op : ws_op) (len : Z).

(** The bytes of a head so far: a frame of the server is not masked, a control
    frame has at most 125 bytes of payload, no frame has 2^63 or more. *)
Definition head_of (cont : option ws_kind) (hb : list Z) : head_res :=
  match hb with
  | [] => HMore
  | b0 :: hb =>
      match ref_op b0 cont, hb with
      | None, _ => HBad
      | Some _, [] => HMore
      | Some op, b1 :: ext =>
          if (128 <=? b1) || (negb (is_data op) && (125 <? b1)) then HBad
          else
            let len := if ext_len b1 =? 0 then b1 else be ext in
            if zlen ext <? ext_len b1 then HMore else if 2 ^ 63 <=? len then HBad else HDone op len
      end
  end.

(** A frame: what it is and its payload. *)
Definition rframe : Type := ws_op * list Z.

(** Between two bytes: in a head, or in a payload of [len] bytes. *)
Inductive ws_pos :=
  | PHead (cont : option ws_kind) (hb : list Z)
  | PPayload (cont : option ws_kind) (op : ws_op) (len : Z) (got : list Z)
  | PBad.

(** One byte; the frame it completes. *)
Definition ws_byte (p : ws_pos) (b : Z) : ws_pos * list rframe :=
  match p with
  | PHead cont hb =>
      match head_of cont (hb ++ [b]) with
      | HMore => (PHead cont (hb ++ [b]), [])
      | HBad => (PBad, [])
      | HDone op len =>
          if len =? 0 then (PHead (next_cont op cont) [], [(op, [])]) else (PPayload (next_cont op cont) op len [], [])
      end
  | PPayload cont op len got =>
      let got := got ++ [b] in
      if zlen got =? len then (PHead cont [], [(op, got)]) else (PPayload cont op len got, [])
  | PBad => (PBad, [])
  end.

Fixpoint ws_bytes (p : ws_pos) (l : list Z) : ws_pos * list rframe :=
  match l with
  | [] => (p, [])
  | b :: l => let '(p1, f1) := ws_byte p b in let '(p2, f2) := ws_bytes p1 l in (p2, f1 ++ f2)
  end.

Lemma ws_bytes_app p l k : ws_bytes p (l ++ k) =
  ((ws_bytes (ws_bytes p l).1 k).1, (ws_bytes p l).2 ++ (ws_bytes (ws_bytes p l).1 k).2).
Proof.
  revert p. induction l as [|b l IH]; intros p; [by destruct (ws_bytes p k) eqn:E; cbn; rewrite E|]. cbn [app ws_bytes].
  destruct (ws_byte p b) as [p1 f1]. rewrite IH. destruct (ws_bytes p1 l) as [p2 f2]. cbn.
  by rewrite app_assoc.
Qed.

Lemma ws_bytes_bad l : ws_bytes PBad l = (PBad, []).
Proof. induction l as [|b l IH]; [done|]. cbn. by rewrite IH. Qed.

(** * What the decoder keeps *)

Definition kind_flag (k : ws_kind) : Z := match k with Text => CURLWS_TEXT | Binary => CURLWS_BINARY end.

Definition op_flags (op : ws_op) : Z :=
  match op with
  | OpData k more => if more then Z.lor (kind_flag k) CURLWS_CONT else kind_flag k
  | OpClose => CURLWS_CLOSE
  | OpPing => CURLWS_PING
  | OpPong => CURLWS_PONG
  end.

(** [cont_flags]: the flags of the last frame of a message. *)
Definition cont_rep (f : Z) (cont : option ws_kind) : Prop :=
  match cont with
  | Some k => f = Z.lor (kind_flag k) CURLWS_CONT
  | None => f = 0 \/ f = CURLWS_TEXT \/ f = CURLWS_BINARY
  end.

Lemma op_flags_spec b0 f cont : is_byte b0 -> cont_rep f cont ->
  ws_frame_firstbyte2flags b0 f = default 0 (op_flags <$> ref_op b0 cont).
Proof.
  intros Hb Hc.
  pose (P := fun b => forallb (fun '(f, c) => ws_frame_firstbyte2flags b f =? default 0 (op_flags <$> ref_op b c))
    [(0, None); (1, None); (2, None); (5, Some Text); (6, Some Binary)]).
  assert (HP : P b0 = true) by (apply (byte_forall P); [by vm_compute|done]).
  unfold P in HP. rewrite forallb_forall in HP.
  assert (Hin : In (f, cont) [(0, None); (1, None); (2, None); (5, Some Text); (6, Some Binary)]).
  { destruct cont as [[]|]; cbn in Hc; [rewrite Hc; cbn; tauto..|]. destruct Hc as [->|[->| ->]]; cbn; tauto. }
  apply HP in Hin. by apply Z.eqb_eq in Hin.
Qed.

Lemma op_flags_nonzero op : op_flags op <> 0.
Proof. by destruct op as [[] []| | |]. Qed.

Lemma op_flags_inj op op' : op_flags op = op_flags op' -> op = op'.
Proof. by destruct op as [[] []| | |], op' as [[] []| | |]. Qed.

Lemma has_data op : has (op_flags op) (Z.lor CURLWS_TEXT CURLWS_BINARY) = is_data op.
Proof. by destruct op as [[] []| | |]. Qed.

Lemma has_ping op : has (op_flags op) CURLWS_PING = bool_decide (op = OpPing).
Proof. by destruct op as [[] []| | |]. Qed.

(** The flags that go on behind a frame. *)
Lemma next_cont_rep op f b0 cont : ref_op b0 cont = Some op -> cont_rep f cont ->
  cont_rep (if is_data op then op_flags op else f) (next_cont op cont).
Proof. intros _ Hc. destruct op as [[] []| | |]; cbn; auto. Qed.

Lemma second_byte_spec op b : is_byte b ->
  second_byte_bad (op_flags op) b = (128 <=? b) || (negb (is_data op) && (125 <? b)).
Proof.
  intros Hb. revert b Hb.
  assert (H : forall b, is_byte b -> Bool.eqb (second_byte_bad (op_flags op) b) ((128 <=? b) || (negb (is_data op) && (125 <? b))) = true).
  { intros b Hb. revert b Hb. apply (byte_forall (fun b => Bool.eqb (second_byte_bad (op_flags op) b) ((128 <=? b) || (negb (is_data op) && (125 <? b))))).
    destruct op as [[] []| | |]; by vm_compute. }
  intros b Hb. by apply Bool.eqb_prop, H.
Qed.

(** A decoder that has seen [hb] of a head. *)
Definition dec_head (d : ws_decoder) (cont : option ws_kind) (hb : list Z) : Prop :=
  zlen (d_head d) = 10 /\ d_head_len d = zlen hb /\ ztake (zlen hb) (d_head d) = hb /\ bytes_ok hb /\
  head_of cont hb = HMore /\
  match hb with
  | [] => cont_rep (d_cont_flags d) cont
  | b0 :: t => exists op, ref_op b0 cont = Some op /\ d_frame_flags d = op_flags op /\
      cont_rep (d_cont_flags d) (next_cont op cont) /\
      match t with [] => True | b1 :: _ => d_head_total d = 2 + ext_len b1 end
  end.

(** A decoder at the start of the payload of a frame. *)
Definition dec_start (d : ws_decoder) (cont : option ws_kind) (op : ws_op) (len : Z) : Prop :=
  zlen (d_head d) = 10 /\ d_frame_flags d = op_flags op /\ cont_rep (d_cont_flags d) cont /\
  d_frame_age d = 0 /\ d_payload_offset d = 0 /\ d_payload_len d = len /\ 0 <= len < 2 ^ 63 /\
  (is_data op = false -> len <= 125).

(** One round of the loop: the result that ends it. *)
Definition head_step (b : Z) (d : ws_decoder) : ws_decoder * option CURLcode :=
  let put d := d_set_head (<[Z.to_nat (d_head_len d) := b]> (d_head d)) (d_head_len d + 1) d in
  let done d := let '(d, r) := head_done d in (d, Some r) in
  if d_head_len d =? 0 then
    if ws_frame_firstbyte2flags b (d_cont_flags d) =? 0 then (ws_dec_reset (put d), Some CURLE_RECV_ERROR)
    else (first_byte b (put d), None)
  else if d_head_len d =? 1 then
    if second_byte_bad (d_frame_flags d) b then (ws_dec_reset (put d), Some CURLE_RECV_ERROR)
    else
      let d := d_set_total (2 + ext_len b) (put d) in
      if ext_len b =? 0 then done d else (d, None)
  else if d_head_len (put d) <? d_head_total d then (put d, None) else done (put d).

Lemma put_head_some b d : zlen (d_head d) = 10 -> 0 <= d_head_len d < 10 ->
  put_head (d_head_len d) b d = Some (d_set_head (<[Z.to_nat (d_head_len d) := b]> (d_head d)) (d_head_len d + 1) d).
Proof.
  intros Hl Hn. unfold put_head. rewrite Hl, (proj2 (Z.leb_le _ _)), (proj2 (Z.ltb_lt _ _)) by lia. done.
Qed.

(** A round reads a byte and makes the step. *)
Lemma read_head_round fuel d q b bs cont hb : bufq_rep q (b :: bs) -> dec_head d cont hb ->
  exists q', bufq_rep q' bs /\ same_params q q' /\ zlen hb < 10 /\
    read_head_loop (S fuel) d q =
      match head_step b d with (d, None) => read_head_loop fuel d q' | (d, Some r) => Some (d, q', r) end.
Proof.
  intros Hq (Hl & Hn & _ & _ & Hm & Hd).
  assert (H10 : zlen hb < 10 /\ (2 <= zlen hb -> d_head_len d < d_head_total d)).
  { destruct hb as [|b0 [|b1 ext]]; cbn in Hm |- *; [zlia..|]. destruct Hd as (op & Eop & _ & _ & Ht).
    rewrite Eop in Hm. destruct ((128 <=? b1) || _); [done|].
    destruct (zlen ext <? ext_len b1) eqn:E; zb_hyps; [|by destruct (_ <=? _)].
    rewrite Ht, Hn, !zlen_cons. unfold ext_len in *. repeat case_if_in E; lia. }
  cbn [read_head_loop]. destruct (rep_peek q _ Hq) as (q1 & Hq1 & Hs1 & [[? _]|(p & Hne & Hp & ->)]); [done|].
  assert (Hb : deref p = b) by (destruct p as [|x p]; [done|]; by destruct Hp as [k [= -> _]]).
  destruct (bufq_skip_spec q1 _ 1 Hq1) as (q2 & Hsk & Hq2 & Hs2); [lia|].
  exists q2. split; [exact Hq2|]. split; [by transitivity q1|]. split; [lia|].
  cbn [mbind option_bind]. rewrite Hb. unfold head_step. pose proof (zlen_nonneg hb).
  destruct (d_head_len d =? 0) eqn:E0; zb_hyps.
  { rewrite <- E0, (put_head_some b d), E0 by lia. cbn [mbind option_bind]. rewrite Hsk. cbn [mbind option_bind].
    cbn [d_set_head d_cont_flags]. by case_if. }
  destruct (d_head_len d =? 1) eqn:E1; zb_hyps.
  - rewrite <- E1, (put_head_some b d), E1 by lia. cbn [mbind option_bind]. rewrite Hsk. cbn [mbind option_bind].
    cbn [d_set_head d_frame_flags]. case_if; [done|]. unfold ext_len.
    destruct (b =? 126); [done|]. destruct (b =? 127); [done|]. cbn -[head_done]. by destruct (head_done _).
  - cbn [mbind option_bind]. rewrite (proj2 (Z.ltb_lt _ _)) by lia.
    rewrite (put_head_some b d) by lia. cbn [mbind option_bind]. rewrite Hsk. cbn [mbind option_bind].
    cbn [d_set_head d_head_len d_head_total]. case_if; [done|]. by destruct (head_done _).
Qed.

Lemma shift_byte x y n m : m = n + 8 -> 0 <= n -> is_byte y -> Z.lor (Z.shiftl x m) (Z.shiftl y n) = Z.shiftl (256 * x + y) n.
Proof.
  intros -> Hn Hy. rewrite Z.add_comm, <- Z.shiftl_shiftl, <- Z.shiftl_lor by lia.
  rewrite lor_shiftl_add by (unfold is_byte in Hy; lia). f_equal. lia.
Qed.

Lemma be_8 a b c d e f g h : bytes_ok [a; b; c; d; e; f; g; h] ->
  Z.lor (Z.lor (Z.lor (Z.lor (Z.lor (Z.lor (Z.lor (Z.shiftl a 56) (Z.shiftl b 48)) (Z.shiftl c 40)) (Z.shiftl d 32))
    (Z.shiftl e 24)) (Z.shiftl f 16)) (Z.shiftl g 8)) h = be [a; b; c; d; e; f; g; h].
Proof.
  intros Hb. repeat (apply Forall_cons_1 in Hb as [? Hb]).
  rewrite (shift_byte a b 48 56), (shift_byte _ c 40 48), (shift_byte _ d 32 40), (shift_byte _ e 24 32), (shift_byte _ f 16 24), (shift_byte _ g 8 16) by (done || lia).
  rewrite (lor_shiftl_add _ 8) by (unfold is_byte in *; lia). unfold be. cbn [fold_left]. lia.
Qed.

Lemma be_2 a b : bytes_ok [a; b] -> Z.lor (Z.shiftl a 8) b = be [a; b].
Proof.
  intros Hb. repeat (apply Forall_cons_1 in Hb as [? Hb]). rewrite (lor_shiftl_add _ 8) by (unfold is_byte in *; lia).
  unfold be. cbn [fold_left]. lia.
Qed.

Lemma be_range l : bytes_ok l -> 0 <= be l < 256 ^ zlen l.
Proof.
  unfold be. assert (H : forall acc, bytes_ok l -> 0 <= acc ->
    acc * 256 ^ zlen l <= fold_left (fun n b => 256 * n + b) l acc < (acc + 1) * 256 ^ zlen l).
  { induction l as [|b l IH]; intros acc Hl Ha; cbn [fold_left]; [change (256 ^ zlen (@nil Z)) with 1; lia|].
    apply Forall_cons_1 in Hl as [Hb Hl]. unfold is_byte in Hb. rewrite zlen_cons. pose proof (zlen_nonneg l).
    specialize (IH (256 * acc + b) Hl ltac:(lia)). rewrite Z.pow_add_r, Z.pow_1_r by lia.
    assert (0 < 256 ^ zlen l) by (apply Z.pow_pos_nonneg; lia). nia. }
  intros Hl. specialize (H 0 Hl). lia.
Qed.

(** The bytes of a complete head. *)
Lemma head_list {A} (l : list A) n hb : ztake n l = hb -> 0 <= n <= zlen l -> exists t, l = hb ++ t /\ zlen hb = n.
Proof. intros <- Hn. exists (zdrop n l). rewrite ztake_zdrop, zlen_ztake by lia. split; [done|lia]. Qed.

(** The length that [head_done] computes. *)
Lemma head_done_spec d b0 b1 ext t : d_head d = b0 :: b1 :: ext ++ t -> d_head_total d = 2 + ext_len b1 ->
  zlen ext = ext_len b1 -> bytes_ok (b0 :: b1 :: ext) ->
  let len := if ext_len b1 =? 0 then b1 else be ext in
  head_done d = (if 2 ^ 63 <=? len then (d, CURLE_RECV_ERROR) else (d_set_payload 0 0 len d, CURLE_OK)) /\ 0 <= len.
Proof.
  intros Hh Ht He Hb. do 2 (apply Forall_cons_1 in Hb as [? Hb]). unfold head_done. rewrite Ht, Hh.
  unfold ext_len in *. destruct (b1 =? 126) eqn:E1; zb_hyps; [|destruct (b1 =? 127) eqn:E2; zb_hyps]; cbn zeta.
  - destruct ext as [|x [|y [|]]]; try (zlia). cbn [app]. change (2 + 2 =? 2) with false. change (2 + 2 =? 4) with true.
    change (2 =? 0) with false. pose proof (be_range _ Hb) as Hr. change (256 ^ zlen [x; y]) with 65536 in Hr. rewrite (proj2 (Z.leb_gt _ _)) by lia.
    unfold at_. cbn [drop deref]. rewrite be_2 by done. split; [done|lia].
  - destruct ext as [|x1 [|x2 [|x3 [|x4 [|x5 [|x6 [|x7 [|x8 [|]]]]]]]]]; try (zlia). cbn [app].
    change (2 + 8 =? 2) with false. change (2 + 8 =? 4) with false. change (2 + 8 =? 10) with true. change (8 =? 0) with false.
    cbv iota. pose proof (be_range _ Hb) as Hr. unfold at_. cbn [drop deref]. rewrite be_8 by done.
    pose proof (Forall_cons_1 _ _ _ Hb) as [Hx1 Hb']. pose proof (be_range _ Hb') as Hr'.
    assert (Eb : be [x1; x2; x3; x4; x5; x6; x7; x8] = x1 * 2 ^ 56 + be [x2; x3; x4; x5; x6; x7; x8]).
    { unfold be. cbn [fold_left]. lia. }
    change (256 ^ zlen [x2; x3; x4; x5; x6; x7; x8]) with (2 ^ 56) in Hr'. rewrite Eb in *. rewrite Z.gtb_ltb.
    split; [|lia]. destruct (127 <? x1) eqn:E; zb_hyps.
    + rewrite (proj2 (Z.leb_le _ _)) by lia. done.
    + rewrite (proj2 (Z.leb_gt _ _)) by lia. done.
  - destruct ext; [|zlia]. change (2 + 0 =? 2) with true. change (0 =? 0) with true. cbv iota.
    unfold is_byte in *. rewrite (proj2 (Z.leb_gt _ _)) by lia. split; [done|lia].
Qed.

Lemma put_list (l hb : list Z) b : zlen l = 10 -> ztake (zlen hb) l = hb -> zlen hb < 10 ->
  exists t, <[Z.to_nat (zlen hb) := b]> l = (hb ++ [b]) ++ t /\ zlen (<[Z.to_nat (zlen hb) := b]> l) = 10.
Proof.
  intros Hl Ht Hn. pose proof (zlen_nonneg hb).
  destruct (head_list l (zlen hb) hb Ht) as (t & -> & _); [lia|]. destruct t as [|x t]; [zlia|].
  exists t. replace (Z.to_nat (zlen hb)) with (length hb + 0)%nat by (unfold zlen; lia).
  rewrite insert_app_r. cbn [insert list_insert]. rewrite <- app_assoc. split; [done|]. zlia.
Qed.

(** The head with one byte more, for any decoder that agrees on the rest. *)
Lemma dec_head_more d d' cont hb b : dec_head d cont hb -> zlen hb < 10 -> is_byte b -> head_of cont (hb ++ [b]) = HMore ->
  d_head d' = <[Z.to_nat (zlen hb) := b]> (d_head d) -> d_head_len d' = zlen hb + 1 ->
  match hb ++ [b] with
  | [] => False
  | b0 :: t => exists op, ref_op b0 cont = Some op /\ d_frame_flags d' = op_flags op /\
      cont_rep (d_cont_flags d') (next_cont op cont) /\ match t with [] => True | b1 :: _ => d_head_total d' = 2 + ext_len b1 end
  end -> dec_head d' cont (hb ++ [b]).
Proof.
  intros (Hl & _ & Ht & Hb & _ & _) Hn Hbb Hm Eh El Hd. destruct (put_list _ hb b Hl Ht Hn) as (t & Ep & Hp).
  split; [by rewrite Eh|]. split; [by rewrite El, zlen_snoc|]. split.
  { rewrite Eh, Ep. apply ztake_app_exact. }
  split; [apply bytes_ok_app; split; [done|by apply Forall_cons_2; [|apply Forall_nil_2]]|]. split; [done|]. by destruct hb.
Qed.

(** A round that completes the head. *)
Lemma head_done_step d cont op b0 b1 ext t : d_head d = b0 :: b1 :: ext ++ t -> zlen (d_head d) = 10 ->
  d_head_total d = 2 + ext_len b1 -> zlen ext = ext_len b1 -> bytes_ok (b0 :: b1 :: ext) ->
  d_frame_flags d = op_flags op -> cont_rep (d_cont_flags d) cont ->
  (128 <=? b1) || (negb (is_data op) && (125 <? b1)) = false ->
  let len := if ext_len b1 =? 0 then b1 else be ext in
  if 2 ^ 63 <=? len then exists d', (let '(d, r) := head_done d in (d, Some r)) = (d', Some CURLE_RECV_ERROR)
  else exists d', (let '(d, r) := head_done d in (d, Some r)) = (d', Some CURLE_OK) /\ dec_start d' cont op len /\ d_state d' = d_state d.
Proof.
  intros Hh Hl Ht He Hb Hf Hc Hctl len. destruct (head_done_spec d b0 b1 ext t Hh Ht He Hb) as [-> Hp]. fold len. fold len in Hp.
  destruct (2 ^ 63 <=? len) eqn:E; [by eexists|]. zb_hyps. eexists. split; [done|]. split; [|done]. split_and!; try done.
  intros Hd. rewrite Hd in *. cbn [negb andb] in *. zb_hyps. subst len. unfold ext_len. repeat case_if; lia.
Qed.

Lemma head_step_spec b d cont hb : dec_head d cont hb -> is_byte b -> zlen hb < 10 ->
  match head_of cont (hb ++ [b]) with
  | HMore => exists d', head_step b d = (d', None) /\ dec_head d' cont (hb ++ [b]) /\ d_state d' = d_state d
  | HBad => exists d', head_step b d = (d', Some CURLE_RECV_ERROR)
  | HDone op len => exists d', head_step b d = (d', Some CURLE_OK) /\ dec_start d' (next_cont op cont) op len /\ d_state d' = d_state d
  end.
Proof.
  intros Hd Hbb H10. pose proof Hd as (Hl & Hn & Ht & Hb & Hm & Hx). destruct (put_list _ hb b Hl Ht H10) as (t & Ep & Hp).
  unfold head_step. rewrite Hn. destruct hb as [|b0 [|b1 ext]].
  - change (zlen (@nil Z)) with 0 in *. cbn [Z.eqb]. rewrite (op_flags_spec b _ cont) by done. cbn [app head_of].
    destruct (ref_op b cont) as [op|] eqn:Eo; cbn [default fmap option_fmap option_map]; [|by eexists].
    rewrite (proj2 (Z.eqb_neq _ _)) by apply op_flags_nonzero. eexists. split; [done|]. split; [|done].
    apply (dec_head_more d _ cont [] b Hd); try done; [by cbn; rewrite Eo|]. cbn [app].
    assert (Ef : ws_frame_firstbyte2flags b (d_cont_flags d) = op_flags op) by by rewrite (op_flags_spec b _ cont), Eo.
    exists op. split; [done|]. unfold first_byte. cbn. rewrite Ef, has_data. split; [done|]. split; [|done]. by eapply next_cont_rep.
  - change (zlen [b0] =? 0) with false. change (zlen [b0] =? 1) with true. cbv iota. destruct Hx as (op & Eo & Ef & Hc & _).
    cbn [app head_of]. rewrite Eo, Ef, second_byte_spec by done. destruct (_ || _) eqn:Eb; [by eexists|].
    change (zlen (@nil Z) <? ext_len b) with (0 <? ext_len b). change (zlen [b0]) with 1 in *.
    set (d1 := d_set_total _ _).
    destruct (ext_len b =? 0) eqn:E0; [apply Z.eqb_eq in E0|apply Z.eqb_neq in E0].
    + rewrite E0. cbn [Z.ltb Z.compare].
      assert (Hs := head_done_step d1 (next_cont op cont) op b0 b [] t). rewrite E0 in Hs. cbn [Z.eqb app] in Hs.
      assert (Hb2 : bytes_ok [b0; b]) by (apply Forall_cons_1 in Hb as [? _]; by repeat apply Forall_cons_2; [..|apply Forall_nil_2]).
      specialize (Hs Ep Hp). unfold d1 at 1 in Hs. rewrite E0 in Hs. specialize (Hs eq_refl eq_refl Hb2 Ef Hc Eb).
      by destruct (2 ^ 63 <=? b).
    + assert (0 < ext_len b) by (unfold ext_len in *; repeat case_if; lia).
      rewrite (proj2 (Z.ltb_lt _ _)) by done. exists d1. split; [done|]. split; [|done].
      apply (dec_head_more d d1 cont [b0] b Hd); try done; [|by exists op].
      cbn [app head_of]. rewrite Eo, Eb. change (zlen (@nil Z)) with 0. rewrite (proj2 (Z.ltb_lt _ _)); done.
  - rewrite !zlen_cons in *. pose proof (zlen_nonneg ext). destruct Hx as (op & Eo & Ef & Hc & Htot).
    rewrite (proj2 (Z.eqb_neq _ 0)), (proj2 (Z.eqb_neq _ 1)) by lia. cbn [head_of app] in Hm |- *. rewrite Eo in Hm |- *.
    destruct ((128 <=? b1) || _) eqn:Eb; [done|].
    destruct (zlen ext <? ext_len b1) eqn:Ee; [apply Z.ltb_lt in Ee; clear Hm|by destruct (2 ^ 63 <=? (if ext_len b1 =? 0 then b1 else be ext))].
    rewrite zlen_snoc. cbn [d_set_head d_head_len d_head_total]. rewrite Htot. set (d1 := d_set_head _ _ _).
    destruct (zlen ext + 1 <? ext_len b1) eqn:En; [apply Z.ltb_lt in En|apply Z.ltb_ge in En].
    + rewrite (proj2 (Z.ltb_lt _ _)) by lia. exists d1. split; [done|]. split; [|done].
      apply (dec_head_more d d1 cont (b0 :: b1 :: ext) b Hd); rewrite ?zlen_cons; try done; [|by exists op].
      cbn [app head_of]. rewrite Eo, Eb, zlen_snoc. rewrite (proj2 (Z.ltb_lt _ _)); done.
    + rewrite (proj2 (Z.ltb_ge _ _)) by lia.
      assert (Hs := head_done_step d1 (next_cont op cont) op b0 b1 (ext ++ [b]) t).
      specialize (Hs Ep Hp Htot). rewrite zlen_snoc in Hs. specialize (Hs ltac:(lia)).
      assert (Hb2 : bytes_ok ((b0 :: b1 :: ext) ++ [b])) by (apply bytes_ok_app; split; [done|by apply Forall_cons_2; [|apply Forall_nil_2]]).
      specialize (Hs Hb2 Ef Hc Eb). cbn zeta in Hs. by destruct (2 ^ 63 <=? _).
Qed.

(** Where the bytes of a head lead. *)
Definition head_outcome (cont : option ws_kind) (op : ws_op) (len : Z) : ws_pos * list rframe :=
  if len =? 0 then (PHead (next_cont op cont) [], [(op, [])]) else (PPayload (next_cont op cont) op len [], []).

(** Reading a head takes the bytes of the machine: all there are, when
    there are not enough, or those up to the end of the head. *)
Lemma read_head_loop_spec fuel : forall d q b cont hb, bufq_rep q b -> bytes_ok b -> dec_head d cont hb ->
  10 <= Z.of_nat fuel + zlen hb ->
  exists d' q' r c b', read_head_loop fuel d q = Some (d', q', r) /\ b = c ++ b' /\ bufq_rep q' b' /\ same_params q q' /\
    ((r = CURLE_AGAIN /\ b' = [] /\ d_state d' = d_state d /\ dec_head d' cont (hb ++ c) /\
        ws_bytes (PHead cont hb) c = (PHead cont (hb ++ c), [])) \/
     (r = CURLE_RECV_ERROR /\ ws_bytes (PHead cont hb) c = (PBad, [])) \/
     (exists op len, r = CURLE_OK /\ c <> [] /\ d_state d' = d_state d /\ dec_start d' (next_cont op cont) op len /\
        ws_bytes (PHead cont hb) c = head_outcome cont op len)).
Proof.
  induction fuel as [|fuel IH]; intros d q b cont hb Hq Hb Hd Hf.
  { destruct b as [|x b]; [|destruct (read_head_round 0 d q x b cont hb Hq Hd) as (_ & _ & _ & ? & _); lia].
    cbn [read_head_loop]. destruct (rep_peek q _ Hq) as (q1 & Hq1 & Hs1 & [[_ ->]|(p & Hne & Hp & _)]); [|by apply prefix_nil_inv in Hp].
    cbn [mbind option_bind]. exists d, q1, CURLE_AGAIN, [], []. do 4 (split; [done|]). left. by rewrite app_nil_r. }
  destruct b as [|x b].
  { cbn [read_head_loop]. destruct (rep_peek q _ Hq) as (q1 & Hq1 & Hs1 & [[_ ->]|(p & Hne & Hp & _)]); [|by apply prefix_nil_inv in Hp].
    cbn [mbind option_bind]. exists d, q1, CURLE_AGAIN, [], []. do 4 (split; [done|]). left. by rewrite app_nil_r. }
  apply Forall_cons_1 in Hb as [Hx Hb].
  destruct (read_head_round fuel d q x b cont hb Hq Hd) as (q1 & Hq1 & Hs1 & H10 & ->).
  pose proof (head_step_spec x d cont hb Hd Hx H10) as Hstep.
  assert (Ew : forall c, ws_bytes (PHead cont hb) (x :: c) = let '(p1, f1) := ws_byte (PHead cont hb) x in let '(p2, f2) := ws_bytes p1 c in (p2, f1 ++ f2)) by done.
  cbn [ws_byte] in Ew. destruct (head_of cont (hb ++ [x])) as [| |op len] eqn:Eh.
  - destruct Hstep as (d1 & -> & Hd1 & Hst). destruct (IH d1 q1 b cont (hb ++ [x]) Hq1 Hb Hd1) as (d' & q' & r & c & b' & -> & -> & Hq' & Hs' & Hcase).
    { rewrite zlen_snoc. lia. }
    exists d', q', r, (x :: c), b'. split; [done|]. split; [done|]. split; [done|]. split; [by transitivity q1|]. rewrite Ew.
    replace (hb ++ x :: c) with ((hb ++ [x]) ++ c) by by rewrite <- app_assoc. rewrite Hst in Hcase.
    destruct Hcase as [(-> & -> & Hs & Hd' & ->)|[(-> & ->)|(op & len & -> & _ & Hs & Hd' & ->)]].
    + by left.
    + right. by left.
    + right. right. exists op, len. do 4 (split; [done|]). by destruct (head_outcome cont op len).
  - destruct Hstep as (d1 & ->). exists d1, q1, CURLE_RECV_ERROR, [x], b. do 4 (split; [done|]). right. left. by rewrite Ew.
  - destruct Hstep as (d1 & -> & Hd1 & Hst). exists d1, q1, CURLE_OK, [x], b. do 4 (split; [done|]). right. right.
    exists op, len. do 4 (split; [done|]). rewrite Ew. unfold head_outcome. by destruct (len =? 0).
Qed.
