(* ===== verification/WsSend.v ===== *)
(** Frames that go out: what the encoder puts into the send buffer of a
    websocket (lib/ws.c), and what a flush gives to the connection. *)

From Stdlib Require Import ZArith Lia List.
From stdpp Require Import base numbers option list.
From S2P Require Import Prelude Dynbuf Bufq Ws WsConn.
Close Scope nat_scope.
Open Scope Z_scope.

(** What is relied on of the outside world: a send takes a part of the bytes, and
    a part that is not empty when it succeeds; sending and
    random numbers have no part in what the application was told ([net_told])
    nor in whether the transfer is paused. *)
Class WsNetLaws (N : Type) `{WsNet N} := {
  net_out : N -> list Z;
  net_told : N -> list (curl_ws_frame * list Z);
  conn_send_law n buf n' r k : Curl_conn_send n buf = (n', r, k) ->
    net_told n' = net_told n /\ Curl_cwriter_is_paused n' = Curl_cwriter_is_paused n /\
    if is_ok r then 0 <= k <= zlen buf /\ (buf <> [] -> 0 < k) /\ net_out n' = net_out n ++ ztake k buf
    else net_out n' = net_out n;
  randit_law n n' r x : randit n = (n', r, x) ->
    net_out n' = net_out n /\ net_told n' = net_told n /\ Curl_cwriter_is_paused n' = Curl_cwriter_is_paused n /\ r <> CURLE_AGAIN
}.

(** * The frames of a client *)

(** Masking, from position [i] of the mask on. *)
Fixpoint masked (m : list Z) (i : Z) (p : list Z) : list Z :=
  match p with
  | [] => []
  | b :: p => Z.lxor b (m !!! Z.to_nat i) :: masked m ((i + 1) mod 4) p
  end.

Definition client_frame (firstb : Z) (m p : list Z) : list Z := enc_head firstb (zlen p) ++ m ++ masked m 0 p.

Lemma zlen_masked m i p : zlen (masked m i p) = zlen p.
Proof. revert i. induction p as [|b p IH]; intros i; [done|]. cbn [masked]. rewrite !zlen_cons, IH. done. Qed.

Lemma masked_app m i p k : 0 <= i < 4 -> masked m i (p ++ k) = masked m i p ++ masked m ((i + zlen p) mod 4) k.
Proof.
  revert i. induction p as [|b p IH]; intros i Hi; cbn [app masked].
  - change (zlen (@nil Z)) with 0. by rewrite Z.add_0_r, Z.mod_small by lia.
  - rewrite IH by (apply Z.mod_pos_bound; lia). rewrite zlen_cons, Zplus_mod_idemp_l. do 3 f_equal. f_equal. lia.
Qed.

(** Masking twice gives the bytes back. *)
Lemma masked_involutive m i p : masked m i (masked m i p) = p.
Proof.
  revert i. induction p as [|b p IH]; intros i; [done|]. cbn [masked]. rewrite IH. f_equal.
  by rewrite Z.lxor_assoc, Z.lxor_nilpotent, Z.lxor_0_r.
Qed.

(** * The parts of the state *)

Section send.
Context {N : Type} `{WsNetLaws N}.
Abbreviation W := (WsConn.W (N := N)).
Abbreviation ws_state := (WsConn.ws_state (N := N)).

Definition upd_ws (w : websocket) (s : ws_state) : ws_state :=
  mk_st w (st_cwbuf s) (st_collect s) (st_net s) (st_allocs s).
Definition upd_allocs (o : allocs) (s : ws_state) : ws_state :=
  mk_st (st_ws s) (st_cwbuf s) (st_collect s) (st_net s) o.
Definition upd_net (n : N) (s : ws_state) : ws_state :=
  mk_st (st_ws s) (st_cwbuf s) (st_collect s) n (st_allocs s).

Definition enc_ok (e : ws_encoder) : Prop := zlen (e_mask e) = 4 /\ 0 <= e_xori e < 4 /\ 0 <= e_payload_remain e < 2 ^ 63.

(** The send buffer holds [sb]. *)
Definition sends (w : websocket) (sb : list Z) : Prop :=
  bufq_rep (w_sendbuf w) sb /\ soft_limit (w_sendbuf w) = true /\ enc_ok (w_enc w).

(** What a computation leaves alone: the decoder, the queues that come in, the
    frame that is told and what the application was told, and
    [struct ws_collect]. *)
Definition same_in (s s' : ws_state) : Prop :=
  w_dec (st_ws s') = w_dec (st_ws s) /\ w_recvbuf (st_ws s') = w_recvbuf (st_ws s) /\
  w_recvframe (st_ws s') = w_recvframe (st_ws s) /\ st_cwbuf s' = st_cwbuf s /\ st_collect s' = st_collect s /\
  net_told (st_net s') = net_told (st_net s) /\
  Curl_cwriter_is_paused (st_net s') = Curl_cwriter_is_paused (st_net s).

#[global] Instance same_in_refl : Reflexive same_in.
Proof. done. Qed.

#[global] Instance same_in_trans : Transitive same_in.
Proof. intros s1 s2 s3 (? & ? & ? & ? & ? & ? & ?) (? & ? & ? & ? & ? & ? & ?). split_and!; congruence. Qed.

Lemma bind_ok {A B} (m : W A) (f : A -> W B) s a s' : m s = Some (inr a, s') -> (m ≫= f) s = f a s'.
Proof. intros E. unfold mbind, W_bind. by rewrite E. Qed.

Lemma bind_err {A B} (m : W A) (f : A -> W B) s e s' : m s = Some (inl e, s') -> (m ≫= f) s = Some (inl e, s').
Proof. intros E. unfold mbind, W_bind. by rewrite E. Qed.

Lemma bind_ret {A B} (a : A) (f : A -> W B) s : (mret a ≫= f) s = f a s.
Proof. done. Qed.

Lemma bind_fails {A B} e (f : A -> W B) s : (wfail e ≫= f) s = Some (inl e, s).
Proof. done. Qed.

Lemma bind_wget {B} (f : ws_state -> W B) s : (wget ≫= f) s = f s s.
Proof. done. Qed.

Lemma bind_get_ws {B} (f : websocket -> W B) s : (get_ws ≫= f) s = f (st_ws s) s.
Proof. done. Qed.

Lemma bind_mod_ws {B} g (f : unit -> W B) s : (mod_ws g ≫= f) s = f tt (upd_ws (g (st_ws s)) s).
Proof. done. Qed.

Lemma bind_mod_enc {B} g (f : unit -> W B) s :
  (mod_enc g ≫= f) s = f tt (upd_ws (set_enc (g (w_enc (st_ws s))) (st_ws s)) s).
Proof. done. Qed.

Lemma bind_mod_dec {B} g (f : unit -> W B) s :
  (mod_dec g ≫= f) s = f tt (upd_ws (set_dec (g (w_dec (st_ws s))) (st_ws s)) s).
Proof. done. Qed.

Lemma bind_set_net {B} n (f : unit -> W B) s : (set_net n ≫= f) s = f tt (upd_net n s).
Proof. done. Qed.

Lemma bind_lift {A B} x a (f : A -> W B) s : x = Some a -> (wlift x ≫= f) s = f a s.
Proof. by intros ->. Qed.

Lemma bind_try {A B} (m : W A) (f : CURLcode + A -> W B) s r s' : m s = Some (r, s') -> (wtry m ≫= f) s = f r s'.
Proof. intros E. apply bind_ok. unfold wtry. by rewrite E. Qed.

Lemma bind_check {B} r (f : unit -> W B) s : (check r ≫= f) s = if is_ok r then f tt s else Some (inl r, s).
Proof. unfold check. by destruct (is_ok r). Qed.

Lemma bind_bind {A B C} (m : W A) (f : A -> W B) (g : B -> W C) s : ((m ≫= f) ≫= g) s = (m ≫= (fun a => f a ≫= g)) s.
Proof. unfold mbind, W_bind. by destruct (m s) as [[[e|a] s']|]. Qed.

(** Writing takes all, or memory is short. *)
Lemma sendbuf_write_spec s sb buf : sends (st_ws s) sb -> exists q r n o,
  sendbuf_write buf s = Some (inr (r, n), upd_allocs o (upd_ws (set_sendbuf q (st_ws s)) s)) /\ same_params (w_sendbuf (st_ws s)) q /\ (st_allocs s = [] -> o = []) /\
  (r = CURLE_OK /\ n = zlen buf /\ bufq_rep q (sb ++ buf) \/
   r = CURLE_OUT_OF_MEMORY /\ st_allocs s <> [] /\ bufq_rep q (sb ++ ztake n buf) /\ 0 <= n <= zlen buf).
Proof.
  intros (Hq & Hsoft & _). destruct (bufq_write_spec _ _ buf (st_allocs s) Hq) as (q & r & n & o & E & Hn & Hrep & Hs & _ & Ho & Hcase).
  exists q, r, n, o. unfold sendbuf_write. rewrite E. do 3 (split; [done|]).
  destruct Hcase as [[-> Hne]|[-> Hless]]; [by right|].
  assert (n = zlen buf) as -> by (destruct (Z.eq_dec n (zlen buf)) as [|Hx]; [done|]; destruct Hless as [Hf _]; [lia|congruence]).
  left. rewrite ztake_ge in Hrep by lia. split; [|done]. unfold write_done. by rewrite Z.sub_diag, andb_false_r.
Qed.

Lemma sends_write w sb q b : sends w sb -> same_params (w_sendbuf w) q -> bufq_rep q b -> sends (set_sendbuf q w) b.
Proof. intros (_ & Hs & He) (_ & _ & Hs' & _) Hq. split; [done|]. split; [by rewrite <- Hs|done]. Qed.

(** Nothing goes out, and the bookkeeping of the sender stays. *)
Definition quiet (s s' : ws_state) : Prop :=
  same_in s s' /\ net_out (st_net s') = net_out (st_net s) /\
  w_sendbuf_payload (st_ws s') = w_sendbuf_payload (st_ws s) /\
  chunk_size (w_sendbuf (st_ws s')) = chunk_size (w_sendbuf (st_ws s)) /\
  (st_allocs s = [] -> st_allocs s' = []).

#[global] Instance quiet_refl : Reflexive quiet.
Proof. intros s. by split_and!. Qed.

#[global] Instance quiet_trans : Transitive quiet.
Proof.
  intros s1 s2 s3 [Ha Ha'] [Hb Hb']. split; [by transitivity s2|].
  destruct Ha' as (? & ? & ? & ?), Hb' as (? & ? & ? & ?). split_and!; try congruence. auto.
Qed.

(** * The encoder *)

Lemma rand_bytes_spec n : exists n' r m, Curl_rand_bytes n 4 = Some (n', r, m) /\ (is_ok r = true -> zlen m = 4) /\ zlen m <= 4 /\
  net_out n' = net_out n /\ net_told n' = net_told n /\ Curl_cwriter_is_paused n' = Curl_cwriter_is_paused n /\ r <> CURLE_AGAIN.
Proof.
  unfold Curl_rand_bytes. change (Z.to_nat 4) with 4%nat. cbn [rand_loop Z.eqb].
  destruct (randit n) as [[n' r] x] eqn:Er. apply randit_law in Er as (Ho & Ht & Hpa & Hag).
  destruct (is_ok r) eqn:E; cbn [negb].
  - change (4 <? 4) with false. cbv iota. change (4 - 4) with 0. cbn [rand_loop Z.eqb mbind option_bind].
    exists n', r, (rand_split 4 x ++ []). by split_and!.
  - exists n', r, []. by rewrite E.
Qed.

Lemma rand_mask_spec s : enc_ok (w_enc (st_ws s)) -> exists r n m,
  rand_mask s = Some (if is_ok r then inr tt else inl r, upd_net n (upd_ws (set_enc (e_set_mask m (w_enc (st_ws s))) (st_ws s)) s)) /\
  zlen m = 4 /\ net_out n = net_out (st_net s) /\ net_told n = net_told (st_net s) /\
  Curl_cwriter_is_paused n = Curl_cwriter_is_paused (st_net s) /\ r <> CURLE_AGAIN.
Proof.
  intros (Hm & _). destruct (rand_bytes_spec (st_net s)) as (n & r & b & E & H4 & Hle & Ho & Ht & Hpa & Hag).
  exists r, n, (b ++ zdrop (zlen b) (e_mask (w_enc (st_ws s)))).
  unfold rand_mask. rewrite bind_wget, (bind_lift _ _ _ _ E), bind_set_net, bind_mod_enc. unfold check.
  split; [by destruct (is_ok r)|]. split; [|done]. rewrite zlen_app, zlen_zdrop by apply zlen_nonneg. lia.
Qed.

Definition set_ok (e : ws_encoder) (w : websocket) sb : sends w sb -> enc_ok e -> sends (set_enc e w) sb :=
  fun '(conj Hq (conj Hs _)) He => conj Hq (conj Hs He).

(** A computation that has failed without a trace. *)
Local Ltac unchanged sb := do 2 eexists; split; [done|]; split; [done|]; split; [done|]; do 2 (split; [done|]); by exists sb.

(** The byte for the flags, or flags that are no good. *)
Lemma flags2firstbyte_code flags c : (ws_frame_flags2firstbyte flags c).1 = CURLE_OK \/
  (ws_frame_flags2firstbyte flags c).1 = CURLE_BAD_FUNCTION_ARGUMENT.
Proof. unfold ws_frame_flags2firstbyte. cbn zeta. repeat case_if; tauto. Qed.

(** A frame is started: its head is behind what the buffer holds; or not, then
    the buffer holds what it held, or memory or random numbers are short. *)
Lemma add_frame_spec s sb flags len : sends (st_ws s) sb -> len < 2 ^ 63 -> exists r s',
  ws_enc_add_frame flags len s = Some (r, s') /\ quiet s s' /\ w_pending (st_ws s') = w_pending (st_ws s) /\
  match r with
  | inr _ => exists firstb m, ws_frame_flags2firstbyte flags (e_contfragment (w_enc (st_ws s))) = (CURLE_OK, firstb) /\
      0 <= len /\ e_payload_remain (w_enc (st_ws s)) = 0 /\ zlen m = 4 /\
      sends (st_ws s') (sb ++ enc_head firstb len ++ m) /\
      w_enc (st_ws s') = mk_enc len len 0 m firstb
        (if has flags (Z.lor CURLWS_TEXT CURLWS_BINARY) then has flags CURLWS_CONT else e_contfragment (w_enc (st_ws s)))
  | inl e => e <> CURLE_OK /\ e <> CURLE_AGAIN /\ exists sb', sends (st_ws s') sb'
  end.
Proof.
  intros Hs Hlen. pose proof Hs as (_ & _ & He). pose proof He as (Hm & Hx & Hr). unfold ws_enc_add_frame.
  destruct (len <? 0) eqn:El; zb_hyps; [unchanged sb|].
  rewrite (bind_ok _ _ s (st_ws s) s) by done. rewrite Z.gtb_ltb.
  destruct (0 <? _) eqn:Er; zb_hyps; [unchanged sb|].
  pose proof (flags2firstbyte_code flags (e_contfragment (w_enc (st_ws s)))) as Hcode.
  destruct (ws_frame_flags2firstbyte _ _) as [result firstb] eqn:Ef. cbn [fst] in Hcode.
  rewrite bind_check. destruct (is_ok result) eqn:Eo; [|destruct Hcode as [->| ->]; [done|unchanged sb]].
  apply is_ok_iff in Eo as ->.
  set (c := if has flags (Z.lor CURLWS_TEXT CURLWS_BINARY) then has flags CURLWS_CONT else e_contfragment (w_enc (st_ws s))).
  set (e1 := e_set_cont c (w_enc (st_ws s))). set (s1 := upd_ws (set_enc e1 (st_ws s)) s).
  rewrite (bind_ok _ _ s tt s1).
  2: { subst s1 e1 c. destruct (has flags _); [done|]. unfold mret, W_ret, upd_ws. destruct s as [w ? ? ? ?], w as [? e ? ? ? ? ?], e; done. }
  assert (H1 : sends (st_ws s1) sb) by by apply set_ok.
  do 3 (destruct (has flags _ && _); [unchanged sb|]).
  rewrite !bind_mod_enc. set (e2 := e_set_payload len len (e_set_firstbyte firstb e1)).
  set (s2 := upd_ws (set_enc e2 (st_ws s)) s). match goal with |- context [(rand_mask ≫= ?f) ?x] => change x with s2 end.
  assert (H2 : sends (st_ws s2) sb) by (apply set_ok; [done|]; split_and!; cbn; lia).
  destruct (rand_mask_spec s2) as (r & n & m & E & Hm4 & Ho & Ht & Hpa & Hag); [apply H2|].
  set (s3 := upd_net n _) in E. assert (Hq3 : quiet s s3) by (split_and!; try done; by rewrite ?Ho, ?Ht, ?Hpa).
  assert (H3 : sends (st_ws s3) sb) by (apply set_ok; [done|]; split_and!; cbn; lia).
  destruct (is_ok r) eqn:Eo; [rewrite (bind_ok _ _ _ _ _ E)|rewrite (bind_err _ _ _ _ _ E); apply is_ok_false in Eo; unchanged sb].
  rewrite bind_get_ws, bind_mod_enc. change (e_mask (w_enc (st_ws s3))) with m.
  set (s4 := upd_ws _ s3). assert (H4 : sends (st_ws s4) sb) by (apply set_ok; [done|]; split_and!; cbn; lia).
  destruct (sendbuf_write_spec s4 sb (enc_head firstb len ++ m) H4) as (q & r2 & k & o & E4 & Hp & Hal & Hcase).
  rewrite (bind_ok _ _ _ _ _ E4), bind_check. set (s5 := upd_allocs o _).
  assert (Hq5 : quiet s s5) by (split_and!; try done; destruct Hp as (Hc & _); by rewrite ?Ho, ?Ht, ?Hpa).
  destruct Hcase as [(-> & -> & Hrep)|(-> & _ & Hrep & _)]; cbn [is_ok].
  - rewrite Z.eqb_refl. do 2 eexists. split; [done|]. split; [exact Hq5|]. split; [done|].
    exists firstb, m. split_and!; try done; [lia|by eapply sends_write].
  - do 2 eexists. split; [done|]. split; [exact Hq5|]. split; [done|]. do 2 (split; [done|]). eexists. by eapply sends_write.
Qed.

(** Payload goes masked behind what the buffer holds. *)
Lemma payload_loop_spec buf : forall i s sb, sends (st_ws s) sb -> exists r s',
  payload_loop buf i s = Some (r, s') /\ quiet s s' /\ w_pending (st_ws s') = w_pending (st_ws s) /\
  match r with
  | inr j => j = i + zlen buf /\ sends (st_ws s') (sb ++ masked (e_mask (w_enc (st_ws s))) (e_xori (w_enc (st_ws s))) buf) /\
      w_enc (st_ws s') = e_set_xori ((e_xori (w_enc (st_ws s)) + zlen buf) mod 4) (w_enc (st_ws s))
  | inl e => e = CURLE_OUT_OF_MEMORY /\ st_allocs s <> [] /\ exists sb', sends (st_ws s') sb'
  end.
Proof.
  induction buf as [|b buf IH]; intros i s sb Hs; cbn [payload_loop masked].
  { exists (inr i), s. do 3 (split; [done|]). change (zlen (@nil Z)) with 0. rewrite !Z.add_0_r, app_nil_r.
    destruct Hs as (Hq & Hs & Hm & Hx & Hr). split; [done|]. split; [done|]. rewrite Z.mod_small by lia. by destruct (w_enc _). }
  pose proof Hs as (_ & _ & Hm & Hx & Hr). rewrite bind_get_ws.
  destruct (lookup_lt_is_Some_2 (e_mask (w_enc (st_ws s))) (Z.to_nat (e_xori (w_enc (st_ws s))))) as [m Em]; [unfold zlen in Hm; lia|].
  rewrite (bind_lift _ _ _ _ Em), (list_lookup_total_correct _ _ _ Em).
  destruct (sendbuf_write_spec s sb [Z.lxor b m] Hs) as (q & r & n & o & E & Hp & Hal & Hcase).
  rewrite (bind_ok _ _ _ _ _ E). set (s1 := upd_allocs o _) in *.
  assert (Hq1 : quiet s s1) by (split_and!; try done; by destruct Hp as (Hc & _)).
  destruct Hcase as [(-> & _ & Hrep)|(-> & Hne & Hrep & _)]; cbn [is_ok negb].
  2: { do 2 eexists. split; [done|]. split; [done|]. split; [done|]. split; [done|]. split; [done|]. eexists. by eapply sends_write. }
  rewrite bind_mod_enc. set (s2 := upd_ws _ s1).
  assert (Ex : Z.land (e_xori (w_enc (st_ws s)) + 1) 3 = (e_xori (w_enc (st_ws s)) + 1) mod 4) by (apply (land_mask _ 2); lia).
  assert (H2 : sends (st_ws s2) (sb ++ [Z.lxor b m])).
  { apply set_ok; [by eapply sends_write|]. split; [done|]. split; [|done]. cbn. rewrite Ex. apply Z.mod_pos_bound. lia. }
  destruct (IH (i + 1) s2 _ H2) as (r & s' & -> & Hq & Hpd & Hcase). exists r, s'. split; [done|].
  split; [by transitivity s1|]. split; [done|]. destruct r as [e|j].
  - destruct Hcase as (-> & Hne & Hsb). split; [done|]. split; [|done]. intros Hn. by apply Hne, Hal.
  - destruct Hcase as (-> & Hsb & ->). rewrite zlen_cons. split; [lia|].
    change (w_enc (st_ws s2)) with (e_set_xori (Z.land (e_xori (w_enc (st_ws s)) + 1) 3) (w_enc (st_ws s))) in *.
    cbn [e_set_xori e_mask e_xori] in *. rewrite Ex in *. rewrite <- app_assoc in Hsb. split; [exact Hsb|].
    rewrite Zplus_mod_idemp_l. unfold e_set_xori. f_equal. f_equal. lia.
Qed.

Lemma sotouz_range x : 0 <= x -> curlx_sotouz_range x 0 SIZE_MAX = Z.min (u64 x) SIZE_MAX.
Proof.
  intros Hx. unfold curlx_sotouz_range. rewrite (proj2 (Z.ltb_ge _ _)) by lia. rewrite Z.max_l; [done|]. apply u64_range.
Qed.

(** What [ws_enc_write_payload] does with a buffer that is not full. *)
Lemma write_payload_spec s sb buf : sends (st_ws s) sb -> Curl_bufq_is_full (w_sendbuf (st_ws s)) = false -> exists r s',
  ws_enc_write_payload buf s = Some (r, s') /\ quiet s s' /\ w_pending (st_ws s') = w_pending (st_ws s) /\
  match r with
  | inr j => let e := w_enc (st_ws s) in j = Z.min (e_payload_remain e) (zlen buf) /\
      sends (st_ws s') (sb ++ masked (e_mask e) (e_xori e) (ztake j buf)) /\
      w_enc (st_ws s') = e_set_payload (e_payload_len e) (e_payload_remain e - j) (e_set_xori ((e_xori e + j) mod 4) e)
  | inl e => e = CURLE_OUT_OF_MEMORY /\ st_allocs s <> [] /\ exists sb', sends (st_ws s') sb'
  end.
Proof.
  intros Hs Hf. pose proof Hs as (_ & _ & Hm & Hx & Hr). unfold ws_enc_write_payload. rewrite bind_get_ws, Hf.
  unfold curlx_sotouz_range. rewrite (proj2 (Z.ltb_ge _ _)), u64_small, Z.max_l, (Z.min_l _ SIZE_MAX) by (unfold SIZE_MAX; lia).
  set (len := Z.min _ (zlen buf)). pose proof (zlen_nonneg buf).
  destruct (payload_loop_spec (ztake len buf) 0 s sb Hs) as (r & s1 & E & Hq & Hp & Hcase). destruct r as [e|j].
  - rewrite (bind_err _ _ _ _ _ E). by exists (inl e), s1.
  - rewrite (bind_ok _ _ _ _ _ E), bind_mod_enc. destruct Hcase as (-> & Hs1 & E1). rewrite zlen_ztake, Z.add_0_l, Z.min_l in * by (subst len; lia).
    do 2 eexists. split; [done|]. split; [done|]. split; [done|]. cbn zeta. rewrite E1. cbn. split; [done|]. split; [|done].
    apply set_ok; [done|]. split; [done|]. split; [apply Z.mod_pos_bound; lia|]. cbn. subst len. lia.
Qed.

(** Adding the control frame that waits keeps the buffer in order. *)
Lemma add_pending_spec s sb : sends (st_ws s) sb -> zlen (c_payload (w_pending (st_ws s))) < 2 ^ 63 -> exists r s' sb',
  ws_enc_add_pending s = Some (r, s') /\ quiet s s' /\ sends (st_ws s') sb' /\
  (w_pending (st_ws s') = w_pending (st_ws s) \/ w_pending (st_ws s') = no_cntrl).
Proof.
  intros Hs Hp. unfold ws_enc_add_pending. rewrite bind_get_ws.
  destruct (c_type _ =? 0); [exists (inr tt), s, sb; split; [done|]; split; [done|]; split; [done|by left]|].
  destruct (negb _); [exists (inl CURLE_AGAIN), s, sb; split; [done|]; split; [done|]; split; [done|by left]|].
  destruct (add_frame_spec s sb (c_type (w_pending (st_ws s))) _ Hs Hp) as (r & s1 & E & Hq & Ep & Hcase).
  destruct r as [e|[]]; [destruct Hcase as (_ & _ & sb1 & H1)|destruct Hcase as (firstb & m & _ & _ & _ & _ & H1 & _)].
  { rewrite (bind_err _ _ _ _ _ E). exists (inl e), s1, sb1. split; [done|]. split; [done|]. split; [done|by left]. }
  rewrite (bind_ok _ _ _ _ _ E). destruct (Curl_bufq_is_full (w_sendbuf (st_ws s1))) eqn:Ef.
  { rewrite (bind_err _ _ _ CURLE_AGAIN s1); [|unfold ws_enc_write_payload; by rewrite bind_get_ws, Ef].
    eexists (inl CURLE_AGAIN), s1, _. split; [done|]. split; [done|]. split; [done|by left]. }
  destruct (write_payload_spec s1 _ (c_payload (w_pending (st_ws s))) H1 Ef) as (r & s2 & E2 & Hq2 & Ep2 & Hcase).
  assert (Hq' : quiet s s2) by by transitivity s1. rewrite Ep in Ep2. destruct r as [e|j].
  - rewrite (bind_err _ _ _ _ _ E2). destruct Hcase as (_ & _ & sb2 & H2). exists (inl e), s2, sb2. split; [done|]. split; [done|]. split; [done|by left].
  - rewrite (bind_ok _ _ _ _ _ E2). cbn zeta in Hcase. destruct Hcase as (_ & H2 & _). destruct (negb _).
    + eexists (inl CURLE_SEND_ERROR), s2, _. split; [done|]. split; [done|]. split; [done|by left].
    + eexists (inr tt), _, _. split; [done|]. split; [done|]. split; [done|by right].
Qed.
(** * Flushing *)

(** As [quiet], but bytes may go out. *)
Definition calm (s s' : ws_state) : Prop :=
  same_in s s' /\ w_sendbuf_payload (st_ws s') = w_sendbuf_payload (st_ws s) /\
  chunk_size (w_sendbuf (st_ws s')) = chunk_size (w_sendbuf (st_ws s)) /\
  (st_allocs s = [] -> st_allocs s' = []).

#[global] Instance calm_refl : Reflexive calm.
Proof. intros s. by split_and!. Qed.

#[global] Instance calm_trans : Transitive calm.
Proof.
  intros s1 s2 s3 [Ha Ha'] [Hb Hb']. split; [by transitivity s2|].
  destruct Ha' as (? & ? & ?), Hb' as (? & ? & ?). split_and!; try congruence. auto.
Qed.

Lemma quiet_calm s s' : quiet s s' -> calm s s'.
Proof. intros (? & _ & ? & ? & ?). by split_and!. Qed.

Context (data : Curl_easy) (wait : nat).

(** One write takes a part that is not empty, or fails and takes nothing. *)
Lemma flush_write_spec out s : out <> [] -> exists r n,
  flush_write data wait false out s = Some (r, upd_net n s) /\ net_told n = net_told (st_net s) /\ Curl_cwriter_is_paused n = Curl_cwriter_is_paused (st_net s) /\
  match r with
  | inr k => 0 < k <= zlen out /\ net_out n = net_out (st_net s) ++ ztake k out
  | inl e => net_out n = net_out (st_net s) /\ e <> CURLE_OK
  end.
Proof.
  intros Hne. assert (Hz : zlen out <> 0) by (intros ?%zlen_0; done). unfold flush_write. destruct (_ || _).
  - unfold Curl_senddata. rewrite bind_wget, bind_check. destruct (is_ok _) eqn:Ec.
    2: { exists (inl (easy_connection (st_net s))), (st_net s). split; [by destruct s|]. do 3 (split; [done|]). by apply is_ok_false. }
    destruct (Curl_conn_send (st_net s) out) as [[n r] k] eqn:E. apply conn_send_law in E as (Ht & Hpa & Hcase). rewrite bind_set_net.
    destruct (is_ok r) eqn:Er; cbn [negb andb].
    + rewrite bind_check, Er. destruct Hcase as (Hk & Hpos & Ho). exists (inr k), n. do 3 (split; [done|]). split; [|done]. specialize (Hpos Hne). lia.
    + destruct (code_eqb r CURLE_AGAIN); cbn [negb]; [rewrite bind_check, Er|]; eexists (inl _), n; do 4 (split; [done|]); [|done].
      by apply is_ok_false.
  - unfold Curl_xfer_send. rewrite bind_bind, bind_wget. destruct (Curl_conn_send (st_net s) out) as [[n r] k] eqn:E.
    apply conn_send_law in E as (Ht & Hpa & Hcase). rewrite bind_bind, bind_set_net. destruct (code_eqb r CURLE_AGAIN) eqn:Ea.
    + rewrite bind_ret. cbn [Z.eqb andb]. rewrite (proj2 (Z.eqb_neq _ _) Hz). exists (inl CURLE_AGAIN), n. do 3 (split; [done|]).
      apply bool_decide_eq_true in Ea as ->. done.
    + rewrite bind_bind, bind_check. destruct (is_ok r) eqn:Er.
      * destruct Hcase as (Hk & Hpos & Ho). specialize (Hpos Hne). rewrite bind_ret, (proj2 (Z.eqb_neq k 0)) by lia. cbn [andb].
        exists (inr k), n. do 3 (split; [done|]). split; [lia|done].
      * exists (inl r), n. do 4 (split; [done|]). by apply is_ok_false.
Qed.

Lemma queue_bytes_spec q b : bufq_rep q b -> queue_bytes q = length b.
Proof.
  intros [_ (bs & Hf & -> & _)]. unfold queue_bytes.
  assert (Hn : forall n, fold_left (fun n c => (n + Z.to_nat (w_offset c - r_offset c))%nat) (head q) n = (n + length (concat bs))%nat).
  { induction Hf as [|c b h bs (_ & _ & Hw & _) Hf IH]; intros n; cbn [fold_left concat length]; [lia|].
    rewrite IH, length_app, Hw. unfold zlen. lia. }
  apply Hn.
Qed.

(** The rounds are enough, and what leaves the buffer goes out, in order. *)
Lemma flush_loop_spec fuel : forall s sb, sends (st_ws s) sb -> (length sb <= fuel)%nat -> exists r s' sent sb',
  flush_loop data wait fuel false s = Some (r, s') /\ calm s s' /\ sb = sent ++ sb' /\ sends (st_ws s') sb' /\
  net_out (st_net s') = net_out (st_net s) ++ sent /\ w_pending (st_ws s') = w_pending (st_ws s) /\
  w_enc (st_ws s') = w_enc (st_ws s) /\ match r with inr _ => sb' = [] | inl e => sb' <> [] /\ e <> CURLE_OK end.
Proof.
  induction fuel as [|fuel IH]; intros s sb Hs Hf; cbn [flush_loop]; unfold sendbuf_peek; rewrite bind_bind, bind_get_ws, bind_bind;
    pose proof Hs as (Hq & Hsoft & He); destruct (rep_peek _ _ Hq) as (q & Hq' & Hsp & Hcase).
  1: destruct sb; [|cbn in Hf; lia]; destruct Hcase as [[_ E]|(p & Hne & Hp & _)]; [|by apply prefix_nil_inv in Hp].
  2: destruct Hcase as [[-> E]|(p & Hne & Hp & E)].
  1,2: rewrite (bind_lift _ _ _ _ E), bind_bind, bind_mod_ws, bind_ret; eexists (inr tt), _, [], []; split; [done|];
    split; [split_and!; try done; apply Hsp|]; split; [done|]; split; [by eapply sends_write|]; by rewrite app_nil_r.
  rewrite (bind_lift _ _ _ _ E), bind_bind, bind_mod_ws, bind_ret. set (s1 := upd_ws _ s).
  destruct (flush_write_spec p s1 Hne) as (r & n & E1 & Ht & Hpa & Ho). destruct r as [e|k].
  - rewrite (bind_err _ _ _ _ _ E1). eexists (inl e), _, [], sb. split; [done|].
    split; [split_and!; try done; apply Hsp|]. split; [done|]. split; [by eapply sends_write|]. rewrite app_nil_r.
    destruct Ho as [Ho Hno]. do 3 (split; [done|]). split; [|done]. intros ->. by apply prefix_nil_inv in Hp.
  - rewrite (bind_ok _ _ _ _ _ E1). destruct Ho as [Hk Ho]. unfold sendbuf_skip. rewrite bind_bind, bind_get_ws.
    destruct (bufq_skip_spec q sb k Hq') as (q2 & E2 & Hq2 & Hsp2); [lia|]. rewrite bind_bind, (bind_lift _ q2 _ _ E2), bind_mod_ws.
    set (s2 := upd_ws _ _). destruct Hp as [t ->].
    assert (Hd : ztake k (p ++ t) = ztake k p) by (unfold ztake, zlen in *; apply take_app_le; lia).
    destruct (IH s2 (zdrop k (p ++ t))) as (r & s' & sent & sb' & E3 & Hc & Hsb & Hs' & Ho' & Hpd & He' & Hend).
    { eapply sends_write; [|exact Hsp2|exact Hq2]. by eapply sends_write. }
    { assert (Hz : zlen (zdrop k (p ++ t)) <= Z.of_nat fuel); [|unfold zlen in Hz; lia]. rewrite zlen_zdrop by lia. unfold zlen in *. lia. }
    exists r, s', (ztake k p ++ sent), sb'. split; [done|]. split.
    { transitivity s2; [|done]. destruct Hsp as (Hc1 & _), Hsp2 as (Hc2 & _). split_and!; try done. cbn. by rewrite Hc2, Hc1. }
    rewrite <- app_assoc, <- Hsb, <- Hd, ztake_zdrop. split; [done|]. split; [done|].
    split; [rewrite Ho'; cbn; by rewrite Ho, app_assoc, Hd|]. by rewrite Hpd, He'.
Qed.

(** The flush behind the control frame. *)
Lemma flush_rest_spec s sb : sends (st_ws s) sb -> exists r s' sent sb',
  (empty ← sendbuf_empty; w ← get_ws; if negb empty then flush_loop data wait (queue_bytes (w_sendbuf w)) false else mret tt) s = Some (r, s') /\
  calm s s' /\ sb = sent ++ sb' /\ sends (st_ws s') sb' /\
  net_out (st_net s') = net_out (st_net s) ++ sent /\ w_pending (st_ws s') = w_pending (st_ws s) /\
  w_enc (st_ws s') = w_enc (st_ws s) /\ match r with inr _ => sb' = [] | inl e => sb' <> [] /\ e <> CURLE_OK end.
Proof.
  intros Hs. unfold sendbuf_empty. rewrite bind_bind, bind_get_ws, bind_ret, bind_get_ws.
  rewrite (bufq_is_empty_spec _ sb) by apply Hs. destruct (bool_decide (sb = [])) eqn:E.
  - apply bool_decide_eq_true in E as ->. exists (inr tt), s, [], []. do 4 (split; [done|]). by rewrite app_nil_r.
  - cbn [negb]. apply flush_loop_spec; [done|]. by rewrite (queue_bytes_spec _ sb) by apply Hs.
Qed.

(** Without a control frame that waits, a flush gives the front of the buffer to
    the connection, and all of it when it succeeds. *)
Lemma flush_spec s sb : sends (st_ws s) sb -> c_type (w_pending (st_ws s)) = 0 -> exists r s' sent sb',
  ws_flush data wait false s = Some (r, s') /\ calm s s' /\ sb = sent ++ sb' /\ sends (st_ws s') sb' /\
  net_out (st_net s') = net_out (st_net s) ++ sent /\ w_pending (st_ws s') = w_pending (st_ws s) /\
  w_enc (st_ws s') = w_enc (st_ws s) /\ match r with inr _ => sb' = [] | inl e => sb' <> [] /\ e <> CURLE_OK end.
Proof.
  intros Hs Hp. unfold ws_flush. rewrite bind_get_ws. rewrite (bind_ok _ _ s tt s); [by apply flush_rest_spec|].
  destruct (_ <? _); [|done]. rewrite (bind_try _ _ _ (inr tt) s); [done|]. unfold ws_enc_add_pending. rewrite bind_get_ws.
  by rewrite Hp.
Qed.

(** A flush in general keeps the buffer in order. *)
Lemma flush_any_spec s sb : sends (st_ws s) sb -> zlen (c_payload (w_pending (st_ws s))) < 2 ^ 63 -> exists r s' sb',
  ws_flush data wait false s = Some (r, s') /\ calm s s' /\ sends (st_ws s') sb' /\
  (w_pending (st_ws s') = w_pending (st_ws s) \/ w_pending (st_ws s') = no_cntrl).
Proof.
  intros Hs Hp. unfold ws_flush. rewrite bind_get_ws.
  destruct (add_pending_spec s sb Hs Hp) as (r & s1 & sb1 & E & Hq%quiet_calm & H1 & Hpd).
  assert (Hgo : forall s1 sb1, calm s s1 -> sends (st_ws s1) sb1 ->
    (w_pending (st_ws s1) = w_pending (st_ws s) \/ w_pending (st_ws s1) = no_cntrl) -> exists r s' sb',
    (empty ← sendbuf_empty; w ← get_ws; if negb empty then flush_loop data wait (queue_bytes (w_sendbuf w)) false else mret tt) s1 = Some (r, s') /\
    calm s s' /\ sends (st_ws s') sb' /\ (w_pending (st_ws s') = w_pending (st_ws s) \/ w_pending (st_ws s') = no_cntrl)).
  { intros s2 sb2 Hc H2 Hpd2. destruct (flush_rest_spec s2 sb2 H2) as (r2 & s3 & sent & sb3 & E3 & Hc3 & _ & H3 & _ & Hp3 & _).
    exists r2, s3, sb3. split; [done|]. split; [by transitivity s2|]. by rewrite Hp3. }
  destruct (_ <? _); [|by apply (Hgo s sb); [..|left]]. rewrite bind_bind, (bind_try _ _ _ _ _ E).
  destruct (negb _ && _); [by exists (inl (result_of r)), s1, sb1|]. by apply (Hgo s1 sb1).
Qed.

End send.
