(* ===== verification/WsDecode.v ===== *)
(** Frames that come in through the writer of a transfer (lib/ws.c): the
    application is given the frames of RFC 6455, however the bytes are cut. *)

From Stdlib Require Import ZArith Lia List.
From stdpp Require Import base numbers option list.
From S2P Require Import Prelude Dynbuf Bufq Ws WsConn WsRecv WsRef WsSend.
Close Scope nat_scope.
Open Scope Z_scope.

(** * What an application makes of the pieces *)

(** A piece with the frame it belongs to, as [curl_ws_meta] tells. *)
Definition ws_event : Type := curl_ws_frame * list Z.

(** The frames of the pieces, with what has come of a frame that is not complete: a piece
    is at the offset that is expected, and the one that leaves nothing to
    come ends the frame. *)
Fixpoint frames_of (got : list Z) (l : list ws_event) : option (list (Z * list Z) * list Z) :=
  match l with
  | [] => Some ([], got)
  | (f, b) :: l =>
      if (f_offset f =? zlen got) && (f_len f =? zlen b) then
        if f_bytesleft f =? 0 then '(fs, g) ← frames_of [] l; Some ((f_flags f, got ++ b) :: fs, g)
        else frames_of (got ++ b) l
      else None
  end.

Lemma frames_of_snoc l : forall got fs g f b, frames_of got l = Some (fs, g) ->
  f_offset f = zlen g -> f_len f = zlen b ->
  frames_of got (l ++ [(f, b)]) =
    Some (if f_bytesleft f =? 0 then (fs ++ [(f_flags f, g ++ b)], []) else (fs, g ++ b)).
Proof.
  induction l as [|[f0 b0] l IH]; intros got fs g f b E Ho Hl; cbn [frames_of app] in *.
  - injection E as <- <-. rewrite Ho, Hl, !Z.eqb_refl. cbn [andb]. by destruct (_ =? 0).
  - destruct (_ && _); [|done]. destruct (f_bytesleft f0 =? 0).
    + destruct (frames_of [] l) as [[fs1 g1]|] eqn:E1; [|done]. cbn in E. injection E as <- <-.
      rewrite (IH [] fs1 g1 f b E1 Ho Hl). cbn. by destruct (f_bytesleft f =? 0).
    + by apply IH.
Qed.

Lemma filter_snoc {A} (P : A -> Prop) `{forall x, Decision (P x)} l x :
  filter P (l ++ [x]) = filter P l ++ (if decide (P x) then [x] else []).
Proof. rewrite filter_app. f_equal. Qed.

Section decode.
Context {N : Type} `{WsNetLaws N} (data : Curl_easy) (wait : nat).
Abbreviation W := (WsConn.W (N := N)).
Abbreviation ws_state := (WsConn.ws_state (N := N)).

(** What an application may do in its callback: it returns, leaves the incoming
    side alone, hears what it is given when it succeeds, and does not fail with
    [CURLE_AGAIN], which is for the code itself. *)
Definition app_ok (next_writer : Z -> list Z -> W unit) : Prop :=
  forall type buf s sb, sends (st_ws s) sb -> zlen (c_payload (w_pending (st_ws s))) <= WS_MAX_CNTRL_LEN ->
  exists r s' sb', next_writer type buf s = Some (r, s') /\ w_dec (st_ws s') = w_dec (st_ws s) /\ st_cwbuf s' = st_cwbuf s /\
    sends (st_ws s') sb' /\ zlen (c_payload (w_pending (st_ws s'))) <= WS_MAX_CNTRL_LEN /\
    match r with
    | inr _ => net_told (st_net s') = net_told (st_net s) ++ [(w_recvframe (st_ws s), buf)]
    | inl e => e <> CURLE_AGAIN
    end.

Context (next_writer : Z -> list Z -> W unit) (Happ : app_ok next_writer).

(** The frames the application gets: pings are answered for it unless it asks for them. *)
Definition for_app (op : ws_op) : Prop := ws_no_auto_pong data = true \/ op <> OpPing.
Definition event_for_app (e : ws_event) : Prop := ws_no_auto_pong data = true \/ f_flags e.1 <> CURLWS_PING.

#[global] Instance for_app_dec op : Decision (for_app op).
Proof. unfold for_app. apply _. Defined.
#[global] Instance event_for_app_dec e : Decision (event_for_app e).
Proof. unfold event_for_app. apply _. Defined.

(** What the application has been told, pings aside. *)
Definition heard (n : N) : list ws_event := filter event_for_app (net_told n).

(** The sending side is in order. *)
Definition sender_ok (w : websocket) : Prop :=
  (exists sb, sends w sb) /\ zlen (c_payload (w_pending w)) <= WS_MAX_CNTRL_LEN.

Definition piece (op : ws_op) (off left : Z) (b : list Z) : ws_event := (mk_frame 0 (op_flags op) off left (zlen b), b).

Lemma piece_for_app op off left b : event_for_app (piece op off left b) <-> for_app op.
Proof.
  unfold event_for_app, for_app, piece. cbn. destruct (decide (op = OpPing)) as [->|Hn]; [cbn; tauto|].
  split; intros _; right; [done|]. intros E. apply Hn, op_flags_inj, E.
Qed.

Lemma s64_small x : INT64_MIN <= x <= INT64_MAX -> s64 x = x.
Proof. intros Hx. unfold s64, INT64_MIN, INT64_MAX in *. rewrite Z.mod_small; lia. Qed.

Lemma i64_some x : INT64_MIN <= x <= INT64_MAX -> i64 x = Some x.
Proof. intros Hx. unfold i64. rewrite (proj2 (Z.leb_le _ _)), (proj2 (Z.leb_le _ _)) by lia. done. Qed.

Lemma payload_remain_spec total off n : 0 <= off -> 0 <= n -> off + n <= total < 2 ^ 63 ->
  ws_payload_remain total off n = Some (total - off - n).
Proof.
  intros Ho Hn Ht. unfold ws_payload_remain. rewrite i64_some by (unfold INT64_MIN, INT64_MAX; lia). cbn [mbind option_bind].
  rewrite !(proj2 (Z.ltb_ge _ 0)) by lia. cbn [orb]. unfold curlx_uztoso, CURL_OFF_T_MAX. rewrite Z.gtb_ltb, (proj2 (Z.ltb_ge _ n)) by lia.
  by rewrite (proj2 (Z.ltb_ge _ _)) by lia.
Qed.

(** What happens to a piece of payload. *)
Lemma dec_next_spec type s op off len buf : sender_ok (st_ws s) -> 0 <= off -> off + zlen buf <= len < 2 ^ 63 ->
  (buf <> [] \/ off + zlen buf = len) -> (is_data op = false -> len <= 125) -> exists r s',
  ws_cw_dec_next data next_writer type buf 0 (op_flags op) off len s = Some (r, s') /\
  w_dec (st_ws s') = w_dec (st_ws s) /\ st_cwbuf s' = st_cwbuf s /\ sender_ok (st_ws s') /\
  match r with
  | inr n => n = zlen buf /\
      heard (st_net s') = heard (st_net s) ++ (if decide (for_app op) then [piece op off (len - off - zlen buf) buf] else [])
  | inl e => e <> CURLE_AGAIN
  end.
Proof.
  intros [(sb & Hs) Hp] Ho Hlen Hne Hctl. pose proof (zlen_nonneg buf). unfold ws_cw_dec_next.
  rewrite (bind_lift _ _ _ _ (payload_remain_spec len off (zlen buf) Ho ltac:(lia) Hlen)).
  rewrite (proj2 (Z.ltb_ge _ 0)) by lia. rewrite has_ping.
  destruct (negb (ws_no_auto_pong data) && bool_decide (op = OpPing) && (len - off - zlen buf =? 0)) eqn:Eping.
  - zb_hyps. match goal with Hb : bool_decide _ = true |- _ => apply bool_decide_eq_true in Hb; subst op end. specialize (Hctl eq_refl).
    unfold ws_enc_add_cntrl. rewrite Z.gtb_ltb, (proj2 (Z.ltb_ge _ _)) by (unfold WS_MAX_CNTRL_LEN; lia).
    rewrite bind_mod_ws. do 2 eexists. split; [done|]. do 2 (split; [done|]). split.
    { split; [exists sb; done|]. cbn. unfold WS_MAX_CNTRL_LEN. lia. }
    split; [done|]. rewrite decide_False; [by rewrite app_nil_r|]. intros [Hx|Hx]; [congruence|done].
  - replace (negb (zlen buf =? 0) || (len - off - zlen buf =? 0)) with true.
    2: { symmetry. destruct Hne as [Hne|Hne]; [rewrite (proj2 (Z.eqb_neq _ 0)); [done|]; by intros ?%zlen_0|].
         rewrite (proj2 (Z.eqb_eq (len - _ - _) 0)) by lia. apply orb_true_r. }
    unfold update_meta. rewrite bind_bind, bind_bind, (bind_lift _ (len - off)) by (apply i64_some; unfold INT64_MIN, INT64_MAX; lia).
    rewrite bind_mod_ws. set (s1 := upd_ws _ s).
    destruct (Happ (Z.lor type CLIENTWRITE_0LEN) buf s1 sb) as (r & s2 & sb2 & E & Hd & Hc & Hs2 & Hp2 & Hr); [done..|].
    destruct r as [e|[]].
    + rewrite (bind_err _ _ _ _ _ E). exists (inl e), s2. split; [done|]. do 2 (split; [done|]). split; [by split; [exists sb2|]|done].
    + rewrite (bind_ok _ _ _ _ _ E). exists (inr (zlen buf)), s2. split; [done|]. do 2 (split; [done|]). split; [by split; [exists sb2|]|].
      split; [done|]. unfold heard. rewrite Hr. cbn [st_ws s1 upd_ws set_recvframe w_recvframe].
      rewrite s64_small by (unfold INT64_MIN, INT64_MAX; lia). change (_, buf) with (piece op off (len - off - zlen buf) buf).
      rewrite filter_snoc. f_equal. by rewrite (decide_ext _ _ _ _ (piece_for_app op off (len - off - zlen buf) buf)).
Qed.
(** A queue without a limit that holds some bytes. *)
Definition in_holds (q : bufq) (b : list Z) : Prop := bufq_rep q b /\ soft_limit q = true.

Lemma in_same q q' b : soft_limit q = true -> same_params q q' -> bufq_rep q' b -> in_holds q' b.
Proof. intros Hs (_ & _ & Hs' & _) Hq. split; [done|]. by rewrite Hs'. Qed.

(** A decoder inside of a payload. *)
Definition dec_payload (d : ws_decoder) (cont : option ws_kind) (op : ws_op) (len : Z) (got : list Z) : Prop :=
  zlen (d_head d) = 10 /\ d_frame_flags d = op_flags op /\ cont_rep (d_cont_flags d) cont /\ d_frame_age d = 0 /\
  d_payload_offset d = zlen got /\ d_payload_len d = len /\ zlen got <= len < 2 ^ 63 /\ (is_data op = false -> len <= 125).

(** The application has heard the frames [fs] and what has come of the next, which
    may be complete. *)
Definition heard_so_far (n : N) (fs : list (Z * list Z)) (op : ws_op) (len : Z) (got : list Z) : Prop :=
  frames_of [] (heard n) = Some
    (if decide (for_app op) then if zlen got =? len then (fs ++ [(op_flags op, got)], []) else (fs, got) else (fs, [])).

Lemma heard_more (n n' : N) fs op len got buf : heard_so_far n fs op len got -> zlen got < len -> zlen got + zlen buf <= len ->
  heard n' = heard n ++ (if decide (for_app op) then [piece op (zlen got) (len - zlen got - zlen buf) buf] else []) ->
  heard_so_far n' fs op len (got ++ buf).
Proof.
  unfold heard_so_far. intros Hh Hg Hb ->. destruct (decide (for_app op)) as [Ha|Ha]; [|by rewrite app_nil_r].
  rewrite (proj2 (Z.eqb_neq _ _)) in Hh by lia. unfold piece. rewrite (frames_of_snoc _ _ _ _ _ _ Hh) by done.
  cbn. rewrite zlen_app. f_equal. destruct (len - zlen got - zlen buf =? 0) eqn:E; zb_hyps.
  - by rewrite (proj2 (Z.eqb_eq _ _)) by lia.
  - by rewrite (proj2 (Z.eqb_neq _ _)) by lia.
Qed.

Lemma dec_remain_spec s cont op len got : dec_payload (w_dec (st_ws s)) cont op len got ->
  dec_remain (N := N) s = Some (inr (len - zlen got), s).
Proof.
  intros (_ & _ & _ & _ & Ho & El & Hl & _). pose proof (zlen_nonneg got). unfold dec_remain, get_dec.
  rewrite bind_bind, bind_get_ws, bind_ret, Ho, El, (bind_lift _ (len - zlen got)) by (apply i64_some; unfold INT64_MIN, INT64_MAX; lia).
  unfold curlx_sotouz_range. rewrite (proj2 (Z.ltb_ge _ _)), u64_small by (unfold SIZE_MAX; lia).
  rewrite Z.max_l, Z.min_l by (unfold SIZE_MAX; lia). done.
Qed.

(** Payload is passed on until the frame is complete, the bytes are used up, or the
    transfer is paused. *)
Lemma payload_pass_spec type cont op len fs fuel : forall s got rest, sender_ok (st_ws s) -> in_holds (st_cwbuf s) rest ->
  (length rest <= fuel)%nat -> dec_payload (w_dec (st_ws s)) cont op len got -> heard_so_far (st_net s) fs op len got -> exists r s',
  pass_payload_loop fuel IN_WRITER (ws_cw_dec_next data next_writer type) s = Some (r, s') /\
  (r = inr tt \/ r = inl CURLE_AGAIN -> exists c rest', rest = c ++ rest' /\ in_holds (st_cwbuf s') rest' /\ sender_ok (st_ws s') /\
     dec_payload (w_dec (st_ws s')) cont op len (got ++ c) /\ d_state (w_dec (st_ws s')) = d_state (w_dec (st_ws s)) /\
     heard_so_far (st_net s') fs op len (got ++ c) /\
     match r with
     | inr _ => zlen (got ++ c) = len
     | inl _ => zlen (got ++ c) < len /\ (rest' = [] \/ Curl_cwriter_is_paused (st_net s') = true)
     end).
Proof.
  induction fuel as [|fuel IH]; intros s got rest Hok Hq Hf Hd Hh; cbn [pass_payload_loop];
    rewrite (bind_ok _ _ _ _ _ (dec_remain_spec _ _ _ _ _ Hd)); pose proof Hd as (_ & Hfl & _ & Hage & Hoff & Hlen & Hgl & Hctl).
  all: destruct (len - zlen got =? 0) eqn:Er; zb_hyps; [exists (inr tt), s; split; [done|]; intros _; exists [], rest; rewrite (app_nil_r got); cbn [st_cwbuf st_ws st_net]; do 6 (split; [done|]); lia|].
  all: unfold in_queue, set_in; rewrite bind_bind, bind_wget, bind_ret.
  all: pose proof Hq as [Hq0 Hsoft]; destruct (rep_peek _ _ Hq0) as (q & Hq' & Hsp & Hcase); pose proof (in_same _ _ _ Hsoft Hsp Hq') as Hqi.
  1: destruct rest; [|cbn in Hf; lia]; destruct Hcase as [[_ E]|(p & Hne & Hp & _)]; [|by apply prefix_nil_inv in Hp].
  2: destruct Hcase as [[-> E]|(p & Hne & Hp & E)].
  1,2: rewrite (bind_lift _ _ _ _ E); unfold set_cwbuf; do 2 eexists; split; [done|]; intros _; exists [], []; rewrite (app_nil_r got); cbn [st_cwbuf st_ws st_net]; do 6 (split; [done|]); split; [lia|by left].
  rewrite (bind_lift _ _ _ _ E). unfold set_cwbuf. set (s1 := mk_st (st_ws s) q (st_collect s) (st_net s) (st_allocs s)).
  rewrite (bind_ok _ _ s tt s1), bind_wget by done.
  destruct (Curl_cwriter_is_paused (st_net s1)) eqn:Ep.
  { do 2 eexists. split; [done|]. intros _. exists [], rest. rewrite (app_nil_r got); cbn [st_cwbuf st_ws st_net]; do 6 (split; [done|]). split; [lia|by right]. }
  unfold get_dec. rewrite bind_bind, bind_get_ws, bind_ret. cbn [st_ws s1].
  set (buf := if _ >? _ then _ else p).
  assert (Hb : exists rest2, rest = buf ++ rest2 /\ buf <> [] /\ zlen got + zlen buf <= len).
  { destruct Hp as [t ->]. subst buf. rewrite Z.gtb_ltb. destruct (_ <? zlen p) eqn:Eb; zb_hyps.
    - exists (zdrop (len - zlen got) p ++ t). rewrite app_assoc, ztake_zdrop. split; [done|].
      assert (Hz : zlen (ztake (len - zlen got) p) = len - zlen got) by (rewrite zlen_ztake; lia).
      split; [|lia]. intros Hn. rewrite Hn in Hz. change (zlen (@nil Z)) with 0 in Hz. lia.
    - exists t. split; [done|]. split; [done|lia]. }
  destruct Hb as (rest2 & -> & Hbn & Hbl). clearbody buf. rewrite Hage, Hfl, Hoff, Hlen. pose proof (zlen_nonneg got).
  destruct (dec_next_spec type s1 op (zlen got) len buf) as (r & s2 & E2 & Hd2 & Hc2 & Hok2 & Hr); [done|done|lia|by left|done|].
  destruct r as [e|n].
  { rewrite (bind_err _ _ _ _ _ E2). do 2 eexists. split; [done|]. intros [?|[=]]; [done|]. by subst e. }
  destruct Hr as [-> Hh2]. rewrite (bind_ok _ _ _ _ _ E2), bind_bind, bind_wget, bind_ret. cbn [st_cwbuf s1] in Hc2. rewrite Hc2.
  destruct (bufq_skip_spec q (buf ++ rest2) (zlen buf) Hq') as (q2 & E3 & Hq2 & Hsp2); [apply zlen_nonneg|].
  rewrite zdrop_app_exact in Hq2. rewrite (bind_lift _ q2 _ _ E3). unfold mod_dec.
  set (s3 := mk_st (st_ws s2) q2 (st_collect s2) (st_net s2) (st_allocs s2)). rewrite (bind_ok _ _ s2 tt s3), bind_mod_ws by done.
  set (s4 := upd_ws _ s3). pose proof (zlen_nonneg rest2).
  assert (Hd4 : dec_payload (w_dec (st_ws s4)) cont op len (got ++ buf)).
  { subst s4. cbn [upd_ws st_ws s3 set_dec w_dec]. rewrite Hd2. cbn [s1 st_ws]. destruct Hd as (? & _ & ? & _).
    unfold dec_payload. cbn [d_set_payload d_head d_frame_flags d_cont_flags d_frame_age d_payload_offset d_payload_len].
    pose proof (zlen_nonneg buf). rewrite Hoff, s64_small, zlen_app by (unfold INT64_MIN, INT64_MAX; lia). do 6 (split; [done|]). split; [lia|done]. }
  destruct (IH s4 (got ++ buf) rest2) as (r & s' & E5 & Hend); [exact Hok2|exact (in_same _ _ _ (proj2 Hqi) Hsp2 Hq2)| |exact Hd4| |].
  { assert (zlen buf <> 0) by (by intros ?%zlen_0). rewrite length_app in Hf. unfold zlen in *. lia. }
  { apply (heard_more _ _ _ _ _ _ _ Hh); [lia|lia|exact Hh2]. }
  exists r, s'. split; [exact E5|]. intros Hr. destruct (Hend Hr) as (c & rest' & -> & Hend'). exists (buf ++ c), rest'.
  rewrite !app_assoc in *. split; [done|]. destruct Hend' as (? & ? & ? & Hst & Hrest). do 3 (split; [done|]). split; [|done].
  rewrite Hst. cbn [s4 upd_ws st_ws s3 set_dec w_dec d_set_payload d_state]. by rewrite Hd2.
Qed.
(** * The decoder and the machine *)

Definition dec_pos (d : ws_decoder) (pos : ws_pos) : Prop :=
  match pos with
  | PHead cont [] => d_state d = WS_DEC_INIT /\ zlen (d_head d) = 10 /\ cont_rep (d_cont_flags d) cont
  | PHead cont hb => d_state d = WS_DEC_HEAD /\ dec_head d cont hb
  | PPayload cont op len got => d_state d = WS_DEC_PAYLOAD /\ dec_payload d cont op len got /\ zlen got < len
  | PBad => False
  end.

Definition app_frames (fs : list rframe) : list (Z * list Z) := (fun f => (op_flags f.1, f.2)) <$> filter (fun f => for_app f.1) fs.

(** What the application has of the frame at hand. *)
Definition open_part (pos : ws_pos) : list Z :=
  match pos with PPayload _ op _ got => if decide (for_app op) then got else [] | _ => [] end.

(** The application has heard what the machine says. *)
Definition heard_pos (n : N) (fs : list rframe) (pos : ws_pos) : Prop :=
  frames_of [] (heard n) = Some (app_frames fs, open_part pos).

Lemma app_frames_snoc fs op p :
  app_frames (fs ++ [(op, p)]) = app_frames fs ++ (if decide (for_app op) then [(op_flags op, p)] else []).
Proof. unfold app_frames. rewrite filter_snoc, fmap_app. f_equal. cbn. by destruct (decide (for_app op)). Qed.

Lemma ws_bytes_payload cont op len c : forall got, zlen got < len -> zlen (got ++ c) <= len ->
  ws_bytes (PPayload cont op len got) c =
    if zlen (got ++ c) =? len then (PHead cont [], [(op, got ++ c)]) else (PPayload cont op len (got ++ c), []).
Proof.
  induction c as [|b c IH]; intros got Hg Hc.
  { rewrite app_nil_r in *. by rewrite (proj2 (Z.eqb_neq _ _)) by lia. }
  cbn [ws_bytes ws_byte]. rewrite zlen_snoc. rewrite zlen_app, zlen_cons in Hc. pose proof (zlen_nonneg c).
  destruct (zlen got + 1 =? len) eqn:E; zb_hyps.
  - assert (c = []) as -> by (apply zlen_0; lia). cbn. by rewrite zlen_snoc, E, Z.eqb_refl.
  - rewrite IH; rewrite ?zlen_snoc; [|lia|rewrite zlen_app, zlen_snoc; lia]. rewrite <- !app_assoc. cbn [app].
    by destruct (zlen (got ++ b :: c) =? len).
Qed.

(** A phase of the decoder that has taken bytes or found that there are none. *)
Definition phase (pos : ws_pos) (fs : list rframe) (rest : list Z) (r : CURLcode + unit) (s' : ws_state) : Prop :=
  r = inr tt \/ r = inl CURLE_AGAIN -> exists c rest' pos' fs', rest = c ++ rest' /\ in_holds (st_cwbuf s') rest' /\
    sender_ok (st_ws s') /\ ws_bytes pos c = (pos', fs') /\ dec_pos (w_dec (st_ws s')) pos' /\
    heard_pos (st_net s') (fs ++ fs') pos' /\
    match r with inr _ => c <> [] | inl _ => rest' = [] \/ Curl_cwriter_is_paused (st_net s') = true end.

Lemma payload_phase type cont op len got fs rest s : sender_ok (st_ws s) -> in_holds (st_cwbuf s) rest ->
  d_state (w_dec (st_ws s)) = WS_DEC_PAYLOAD -> dec_payload (w_dec (st_ws s)) cont op len got -> zlen got < len ->
  heard_pos (st_net s) fs (PPayload cont op len got) -> exists r s',
  (ws_dec_pass_payload IN_WRITER (ws_cw_dec_next data next_writer type);; mod_dec (d_set_state WS_DEC_INIT)) s = Some (r, s') /\
  phase (PPayload cont op len got) fs rest r s'.
Proof.
  intros Hok Hq Hst Hd Hg Hh. unfold ws_dec_pass_payload, in_queue. rewrite !bind_bind, bind_wget, bind_ret.
  assert (Hh' : heard_so_far (st_net s) (app_frames fs) op len got).
  { unfold heard_so_far. rewrite Hh. cbn [open_part]. rewrite (proj2 (Z.eqb_neq _ _)) by lia. by destruct (decide (for_app op)). }
  destruct (payload_pass_spec type cont op len (app_frames fs) (queue_bytes (st_cwbuf s)) s got rest) as (r & s' & E & Hend); try done.
  { by rewrite (queue_bytes_spec _ _ (proj1 Hq)). }
  assert (Hgot : forall c, zlen (got ++ c) = len -> c <> []) by (intros c Hc ->; rewrite app_nil_r in Hc; lia).
  destruct r as [e|[]].
  - rewrite (bind_err _ _ _ _ _ E). exists (inl e), s'. split; [done|]. intros Hr.
    destruct (Hend Hr) as (c & rest' & -> & Hq' & Hok' & Hd' & Hst' & Hh2 & Hl & Hrest).
    exists c, rest', (PPayload cont op len (got ++ c)), []. do 3 (split; [done|]).
    rewrite ws_bytes_payload, (proj2 (Z.eqb_neq _ _)) by (done || lia). split; [done|]. rewrite Hst, app_nil_r in *. split; [done|].
    split; [|done]. unfold heard_so_far in Hh2. rewrite (proj2 (Z.eqb_neq _ _)) in Hh2 by lia.
    unfold heard_pos. rewrite Hh2. cbn [open_part]. by destruct (decide (for_app op)).
  - rewrite (bind_ok _ _ _ _ _ E). destruct (Hend (or_introl eq_refl)) as (c & rest' & -> & Hq' & Hok' & Hd' & Hst' & Hh2 & Hl).
    do 2 eexists. split; [done|]. intros _. exists c, rest', (PHead cont []), [(op, got ++ c)]. do 3 (split; [done|]).
    rewrite ws_bytes_payload, (proj2 (Z.eqb_eq _ _) Hl) by (done || lia). split; [done|].
    destruct Hd' as (? & _ & ? & _). split; [done|]. split; [|by apply Hgot].
    unfold heard_so_far in Hh2. rewrite (proj2 (Z.eqb_eq _ _) Hl) in Hh2. unfold heard_pos. cbn [upd_ws st_net]. rewrite Hh2, app_frames_snoc.
    cbn [open_part]. destruct (decide (for_app op)); [done|]. by rewrite app_nil_r.
Qed.
Lemma head_phase type cont hb fs rest s : sender_ok (st_ws s) -> in_holds (st_cwbuf s) rest -> bytes_ok rest -> rest <> [] ->
  d_state (w_dec (st_ws s)) = WS_DEC_HEAD -> dec_head (w_dec (st_ws s)) cont hb ->
  heard_pos (st_net s) fs (PHead cont hb) -> exists r s',
  (read_head IN_WRITER;; mod_dec (d_set_state WS_DEC_PAYLOAD);; d ← get_dec;
   if d_payload_len d =? 0 then
     ws_cw_dec_next data next_writer type [] (d_frame_age d) (d_frame_flags d) 0 0;; mod_dec (d_set_state WS_DEC_INIT)
   else ws_dec_pass_payload IN_WRITER (ws_cw_dec_next data next_writer type);; mod_dec (d_set_state WS_DEC_INIT)) s = Some (r, s') /\
  phase (PHead cont hb) fs rest r s'.
Proof.
  intros Hok Hq Hb Hne Hst Hd Hh. unfold read_head, get_dec, in_queue, set_in, mod_dec, set_cwbuf.
  destruct (read_head_loop_spec 11 _ _ _ cont hb (proj1 Hq) Hb Hd) as (d' & q' & r & c & b' & E & -> & Hqr & Hsp & Hcase); [zlen_pos; lia|].
  pose proof (in_same _ _ _ (proj2 Hq) Hsp Hqr) as Hq'.
  rewrite !bind_bind, bind_get_ws, bind_ret, !bind_bind, bind_wget, bind_ret, !bind_bind, (bind_lift _ _ _ _ E), !bind_bind, bind_mod_ws, !bind_bind.
  set (s1 := upd_ws _ s). set (s2 := mk_st (st_ws s1) q' (st_collect s) (st_net s) (st_allocs s)).
  rewrite (bind_ok _ _ s1 tt s2), bind_check by done.
  destruct Hcase as [(-> & -> & Hst' & Hd' & Ew)|[(-> & Ew)|(op & len & -> & Hc & Hst' & Hd' & Ew)]]; cbn [is_ok].
  - do 2 eexists. split; [done|]. intros _. exists c, [], (PHead cont (hb ++ c)), []. do 4 (split; [done|]). cbn [s2 st_ws s1 upd_ws set_dec w_dec].
    rewrite app_nil_r in *. rewrite Hst in Hst'. split; [|split; [done|by left]]. destruct (hb ++ c) eqn:Ec; [by apply app_eq_nil in Ec as [_ ->]|by split].
  - do 2 eexists. split; [done|]. by intros [?|?].
  - rewrite bind_mod_ws, bind_bind, bind_get_ws, bind_ret. set (s3 := upd_ws _ s2).
    destruct Hd' as (H10 & Hfl & Hcr & Hage & Hoff & Hlen & Hrange & Hctl).
    change (d_payload_len (w_dec (st_ws s3))) with (d_payload_len d'). change (d_frame_age (w_dec (st_ws s3))) with (d_frame_age d').
    change (d_frame_flags (w_dec (st_ws s3))) with (d_frame_flags d'). rewrite Hlen, Hage, Hfl. unfold head_outcome in Ew. case_if.
    + subst len. destruct (dec_next_spec type s3 op 0 0 []) as (r & s4 & E4 & Hd4 & Hc4 & Hok4 & Hr); [done|lia|change (zlen (@nil Z)) with 0; lia|by right|done|].
      destruct r as [e|n].
      { rewrite (bind_err _ _ _ _ _ E4). do 2 eexists. split; [done|]. intros [?|[=]]; [done|]. by subst e. }
      rewrite (bind_ok _ _ _ _ _ E4). do 2 eexists. split; [done|]. intros _. exists c, b', (PHead (next_cont op cont) []), [(op, [])].
      split; [done|]. cbn [upd_ws st_cwbuf st_ws set_dec w_dec st_net]. rewrite Hc4, Hd4. split; [done|]. split; [exact Hok4|]. split; [done|]. split; [done|].
      split; [|done]. unfold heard_pos. destruct Hr as [_ ->]. rewrite app_frames_snoc. cbn [open_part].
      destruct (decide (for_app op)); [|by rewrite !app_nil_r]. unfold piece. by rewrite (frames_of_snoc _ _ _ _ _ _ Hh) by done.
    + destruct (payload_phase type (next_cont op cont) op len [] fs b' s3) as (r & s4 & E4 & Hp); try done.
      { change (zlen (@nil Z)) with 0. lia. }
      { unfold heard_pos. change (heard (st_net s3)) with (heard (st_net s)). rewrite Hh. cbn [open_part]. by destruct (decide (for_app op)). }
      exists r, s4. split; [exact E4|]. intros Hr. destruct (Hp Hr) as (c2 & rest' & pos' & fs' & -> & Hq2 & Hok2 & Ew2 & Hd2 & Hh2 & Hl).
      exists (c ++ c2), rest', pos', fs'. rewrite app_assoc, ws_bytes_app, Ew. cbn [fst snd]. rewrite Ew2. do 6 (split; [done|]).
      destruct r; [done|]. by intros [? _]%app_eq_nil.
Qed.

(** One call of the decoder. *)
Lemma dec_pass_spec type pos fs rest s : sender_ok (st_ws s) -> in_holds (st_cwbuf s) rest -> bytes_ok rest ->
  dec_pos (w_dec (st_ws s)) pos -> heard_pos (st_net s) fs pos -> exists r s',
  ws_dec_pass IN_WRITER (ws_cw_dec_next data next_writer type) s = Some (r, s') /\ phase pos fs rest r s'.
Proof.
  intros Hok Hq Hb Hd Hh. unfold ws_dec_pass, in_queue. rewrite bind_bind, bind_wget, bind_ret, (bufq_is_empty_spec _ _ (proj1 Hq)).
  case_bool_decide as Hr.
  { subst rest. exists (inl CURLE_AGAIN), s. split; [done|]. intros _. exists [], [], pos, []. do 6 (split; [rewrite ?app_nil_r; done|]). by left. }
  rewrite (bind_ok get_dec _ s (w_dec (st_ws s)) s) by done. destruct pos as [cont [|b hb]|cont op len got|]; [| | |done].
  - destruct Hd as (-> & H10 & Hc). rewrite bind_mod_dec. apply head_phase; try done. do 3 (split; [done|]). by split; [apply Forall_nil_2|].
  - destruct Hd as (Hst & Hd). rewrite Hst. by apply head_phase.
  - destruct Hd as (Hst & Hd & Hg). rewrite Hst. by apply payload_phase.
Qed.
(** The loop of the writer takes what it can: when it ends, nothing is left, or the
    transfer is paused. *)
Lemma cw_loop_spec type fuel : forall s pos fs rest, sender_ok (st_ws s) -> in_holds (st_cwbuf s) rest -> bytes_ok rest ->
  (length rest <= fuel)%nat -> dec_pos (w_dec (st_ws s)) pos -> heard_pos (st_net s) fs pos -> exists r s',
  cw_loop fuel (ws_cw_dec_next data next_writer type) s = Some (r, s') /\
  (forall all, r = inr all -> exists c rest' pos' fs', rest = c ++ rest' /\ in_holds (st_cwbuf s') rest' /\ sender_ok (st_ws s') /\
     ws_bytes pos c = (pos', fs') /\ dec_pos (w_dec (st_ws s')) pos' /\ heard_pos (st_net s') (fs ++ fs') pos' /\
     (rest' = [] \/ Curl_cwriter_is_paused (st_net s') = true)).
Proof.
  induction fuel as [|fuel IH]; intros s pos fs rest Hok Hq Hb Hf Hd Hh; cbn [cw_loop]; rewrite bind_wget, (bufq_is_empty_spec _ _ (proj1 Hq)).
  all: destruct (negb (bool_decide (rest = [])) && _) eqn:Ec.
  1: destruct rest; [done|cbn in Hf; lia].
  1,3: do 2 eexists; split; [done|]; intros all _; exists [], rest, pos, []; rewrite app_nil_r; do 6 (split; [done|]);
    apply andb_false_iff in Ec as [Ec|Ec]; apply negb_false_iff in Ec; [left; by apply bool_decide_eq_true in Ec|by right].
  destruct (dec_pass_spec type pos fs rest s) as (r & s1 & E & Hp); try done. rewrite (bind_try _ _ _ _ _ E).
  destruct r as [e|[]].
  - destruct (code_eqb e CURLE_AGAIN) eqn:Ea; [|by do 2 eexists].
    apply bool_decide_eq_true in Ea as ->. do 2 eexists. split; [done|]. intros all _. apply Hp. by right.
  - destruct (Hp (or_introl eq_refl)) as (c & rest' & pos' & fs' & -> & Hq1 & Hok1 & Ew & Hd1 & Hh1 & Hc).
    destruct (IH s1 pos' (fs ++ fs') rest' Hok1 Hq1) as (r & s' & E2 & Hend); [by apply bytes_ok_app in Hb as [_ ?]| |done|done|].
    { rewrite length_app in Hf. destruct c; [done|]. cbn in Hf. lia. }
    exists r, s'. split; [done|]. intros all Hr. destruct (Hend all Hr) as (c2 & rest2 & pos2 & fs2 & -> & Hq2 & Hok2 & Ew2 & Hd2 & Hh2 & Hl).
    exists (c ++ c2), rest2, pos2, (fs' ++ fs2). rewrite app_assoc, ws_bytes_app, Ew. cbn [fst snd]. rewrite Ew2.
    rewrite <- app_assoc in Hh2. by do 6 (split; [done|]).
Qed.
(** * The writer *)

Context (next_flush : W unit).

(** Flushing what is behind the writer leaves the incoming side alone. *)
Definition flush_ok : Prop :=
  forall s sb, sends (st_ws s) sb -> zlen (c_payload (w_pending (st_ws s))) <= WS_MAX_CNTRL_LEN ->
  exists r s' sb', next_flush s = Some (r, s') /\ w_dec (st_ws s') = w_dec (st_ws s) /\ st_cwbuf s' = st_cwbuf s /\
    sends (st_ws s') sb' /\ zlen (c_payload (w_pending (st_ws s'))) <= WS_MAX_CNTRL_LEN /\ net_told (st_net s') = net_told (st_net s).

Context (Hflush : flush_ok).
Context (Hws : has_ws data = true) (Hraw : ws_raw_mode data = false) (Hcb : is_in_callback data = false).

(** The bytes [c] have been taken apart, [rest] waits. *)
Definition stream_inv (s : ws_state) (c rest : list Z) : Prop :=
  in_holds (st_cwbuf s) rest /\ sender_ok (st_ws s) /\ exists pos fs, ws_bytes (PHead None []) c = (pos, fs) /\
    dec_pos (w_dec (st_ws s)) pos /\ heard_pos (st_net s) fs pos.

(** Nothing waits, unless the transfer is paused. *)
Definition all_taken (s : ws_state) (rest : list Z) : Prop := rest = [] \/ Curl_cwriter_is_paused (st_net s) = true.

Lemma cw_loop_inv type s c rest : stream_inv s c rest -> bytes_ok rest -> exists r s',
  cw_loop (cw_rounds s) (ws_cw_dec_next data next_writer type) s = Some (r, s') /\
  (forall all, r = inr all -> exists c2 rest', rest = c2 ++ rest' /\ stream_inv s' (c ++ c2) rest' /\ all_taken s' rest').
Proof.
  intros (Hq & Hok & pos & fs & Ew & Hd & Hh) Hb.
  destruct (cw_loop_spec type (cw_rounds s) s pos fs rest Hok Hq Hb) as (r & s' & E & Hend); [|done|done|].
  { unfold cw_rounds. rewrite (queue_bytes_spec _ _ (proj1 Hq)). lia. }
  exists r, s'. split; [done|]. intros all Hr.
  destruct (Hend all Hr) as (c2 & rest' & pos' & fs' & -> & Hq' & Hok' & Ew' & Hd' & Hh' & Ht). exists c2, rest'. split; [done|].
  split; [|done]. split; [done|]. split; [done|]. exists pos', (fs ++ fs'). rewrite ws_bytes_app, Ew. cbn [fst snd]. by rewrite Ew'.
Qed.

(** Changes that leave the incoming side alone. *)
Lemma stream_inv_same s s' c rest : stream_inv s c rest -> w_dec (st_ws s') = w_dec (st_ws s) -> st_cwbuf s' = st_cwbuf s ->
  sender_ok (st_ws s') -> net_told (st_net s') = net_told (st_net s) -> stream_inv s' c rest.
Proof.
  intros (Hq & _ & pos & fs & Ew & Hd & Hh) Ed Ec Hok Et. unfold stream_inv, heard_pos, heard. rewrite Ed, Ec, Et. split; [done|]. split; [done|]. by exists pos, fs.
Qed.

(** A flush that sends. *)
Lemma flush_inv s c rest : stream_inv s c rest -> exists r s',
  ws_flush data wait (is_in_callback data) s = Some (r, s') /\ stream_inv s' c rest /\
  Curl_cwriter_is_paused (st_net s') = Curl_cwriter_is_paused (st_net s).
Proof.
  intros Hi. pose proof Hi as (_ & [(sb & Hs) Hp] & _). rewrite Hcb.
  destruct (flush_any_spec data wait s sb Hs) as (r & s' & sb' & E & ((Hd & _ & _ & Hc & _ & Ht & Hpa) & _) & Hs' & Hpd); [unfold WS_MAX_CNTRL_LEN in Hp; lia|].
  exists r, s'. split; [done|]. split; [|done]. apply (stream_inv_same s); try done. split; [by exists sb'|].
  destruct Hpd as [-> | ->]; [done|]. done.
Qed.

(** Writing: the bytes go behind those that wait, and what can be taken is. *)
Lemma cw_write_inv type buf s c rest : has type CLIENTWRITE_BODY = true -> stream_inv s c rest -> bytes_ok (rest ++ buf) -> exists r s',
  ws_cw_write data wait next_writer type buf s = Some (r, s') /\
  (r = inr tt -> exists c2 rest', rest ++ buf = c2 ++ rest' /\ stream_inv s' (c ++ c2) rest' /\ all_taken s' rest').
Proof.
  intros Ht Hi Hb. unfold ws_cw_write. rewrite Ht, Hraw, Hws. cbn [negb orb].
  assert (Hw : (exists e s1, (if negb (zlen buf =? 0) then s ← wget;
       '(q, result, _, o) ← wlift (Curl_bufq_write (st_cwbuf s) buf (st_allocs s));
       wmod (fun s => mk_st (st_ws s) q (st_collect s) (st_net s) o);; check result else mret tt) s = Some (inl e, s1)) \/
    exists s1, (if negb (zlen buf =? 0) then s ← wget;
       '(q, result, _, o) ← wlift (Curl_bufq_write (st_cwbuf s) buf (st_allocs s));
       wmod (fun s => mk_st (st_ws s) q (st_collect s) (st_net s) o);; check result else mret tt) s = Some (inr tt, s1) /\
      stream_inv s1 c (rest ++ buf)).
  { destruct (zlen buf =? 0) eqn:E; zb_hyps; cbn [negb].
    { right. exists s. apply zlen_0 in E as ->. by rewrite app_nil_r. }
    pose proof Hi as ([Hq Hsoft] & Hrest). destruct (bufq_write_spec _ _ buf (st_allocs s) Hq) as (q & r & n & o & E2 & Hn & Hrep & Hs & _ & _ & Hcase).
    rewrite bind_wget, (bind_lift _ _ _ _ E2). destruct Hcase as [[-> _]|[-> Hless]].
    - left. by do 2 eexists.
    - right. assert (n = zlen buf) as -> by (destruct (Z.eq_dec n (zlen buf)) as [|Hx]; [done|]; destruct Hless as [Hf _]; [lia|congruence]).
      rewrite ztake_ge in Hrep by lia. unfold write_done. rewrite Z.sub_diag, andb_false_r. eexists. split; [done|].
      split; [by apply (in_same (st_cwbuf s))|]. exact Hrest. }
  destruct Hw as [(e & s1 & E)|(s1 & E & Hi1)]; [rewrite (bind_err _ _ _ _ _ E); by do 2 eexists|]. rewrite (bind_ok _ _ _ _ _ E), bind_wget.
  destruct (cw_loop_inv type s1 c (rest ++ buf) Hi1 Hb) as (r & s2 & E2 & Hend).
  destruct r as [e|all]; [rewrite (bind_err _ _ _ _ _ E2); by do 2 eexists|]. rewrite (bind_ok _ _ _ _ _ E2), bind_wget.
  destruct (Hend all eq_refl) as (c2 & rest' & Er & Hi2 & Hall).
  destruct (all && _ && _); [by do 2 eexists|]. destruct (flush_inv s2 (c ++ c2) rest' Hi2) as (r & s3 & E3 & Hi3 & Hpa).
  assert (Ht3 : all_taken s3 rest') by (unfold all_taken; by rewrite Hpa).
  rewrite (bind_try _ _ _ _ _ E3). destruct (code_eqb _ _); [do 2 eexists; split; [done|]; intros _; by exists c2, rest'|].
  unfold check. destruct (is_ok _); do 2 eexists; (split; [done|]); [|done]. intros _. by exists c2, rest'.
Qed.

Lemma cw_flush_inv s c rest : stream_inv s c rest -> bytes_ok rest -> exists r s',
  ws_cw_flush data next_writer next_flush s = Some (r, s') /\
  (r = inr tt -> exists c2 rest', rest = c2 ++ rest' /\ stream_inv s' (c ++ c2) rest').
Proof.
  assert (Hf : forall s c rest, stream_inv s c rest -> exists r s', next_flush s = Some (r, s') /\ stream_inv s' c rest).
  { intros s0 c0 rest0 Hi. pose proof Hi as (_ & [(sb & Hs) Hp] & _). destruct (Hflush s0 sb Hs Hp) as (r & s' & sb' & E & Hd & Hc & Hs' & Hp' & Ht).
    exists r, s'. split; [done|]. apply (stream_inv_same s0); try done. by split; [exists sb'|]. }
  intros Hi Hb. unfold ws_cw_flush. rewrite Hraw, Hws. cbn [negb].
  destruct (Hf s c rest Hi) as (r & s1 & E1 & Hi1). rewrite !bind_bind.
  destruct r as [e|[]]; [rewrite (bind_err _ _ _ _ _ E1); by do 2 eexists|]. rewrite (bind_ok _ _ _ _ _ E1), bind_bind, bind_wget, bind_bind.
  destruct (cw_loop_inv CLIENTWRITE_BODY s1 c rest Hi1 Hb) as (r & s2 & E2 & Hend).
  destruct r as [e|all]; [rewrite (bind_err _ _ _ _ _ E2); by do 2 eexists|]. rewrite (bind_ok _ _ _ _ _ E2), bind_ret.
  destruct (Hend all eq_refl) as (c2 & rest' & -> & Hi2 & _). destruct (Hf s2 _ _ Hi2) as (r & s3 & -> & Hi3). exists r, s3. split; [done|]. intros _. by exists c2, rest'.
Qed.
End decode.
