(* ===== verification/WsDemo.v ===== *)
(** A small outside world for the websocket functions, which shows that
    the interfaces can be met and on which examples run. *)

From Stdlib Require Import ZArith Lia List.
From stdpp Require Import base numbers option list.
From S2P Require Import Prelude Dynbuf Bufq Ws WsConn WsRecv WsRef WsSend WsDecode.
Close Scope nat_scope.
Open Scope Z_scope.

(** The bytes that went out, what the application was told, the room in the socket
    for the coming sends (0 is a socket that would block; with no entry left
    a send takes all), and the bytes that come in, by read. *)
Record demo_net := mk_demo {
  dn_out : list Z;
  dn_told : list (curl_ws_frame * list Z);
  dn_room : list Z;
  dn_in : list (list Z)
}.

Definition demo_send (n : demo_net) (buf : list Z) : demo_net * CURLcode * Z :=
  match dn_room n with
  | [] => (mk_demo (dn_out n ++ buf) (dn_told n) [] (dn_in n), CURLE_OK, zlen buf)
  | k :: room =>
      if k <=? 0 then (mk_demo (dn_out n) (dn_told n) room (dn_in n), CURLE_AGAIN, 0)
      else
        let k := Z.min k (zlen buf) in
        (mk_demo (dn_out n ++ ztake k buf) (dn_told n) room (dn_in n), CURLE_OK, k)
  end.

Definition demo_recv (n : demo_net) (len : Z) : demo_net * CURLcode * list Z :=
  match dn_in n with
  | [] => (n, CURLE_AGAIN, [])
  | b :: more => (mk_demo (dn_out n) (dn_told n) (dn_room n) more, CURLE_OK, ztake len b)
  end.

#[export] Instance demo_ws_net : WsNet demo_net := {|
  randit := fun n => (n, CURLE_OK, 67305985);
  easy_connection := fun _ => CURLE_OK;
  Curl_conn_send := demo_send;
  Curl_timeleft_ms := fun _ => 0;
  socket_bad := fun _ => false;
  SOCKET_WRITABLE := fun n _ => (n, 1);
  curl_easy_recv := demo_recv;
  Curl_connect_only_attach := fun _ => CURLE_OK;
  Curl_cwriter_is_paused := fun _ => false
|}.

#[export] Program Instance demo_ws_laws : WsNetLaws demo_net := {|
  net_out := dn_out;
  net_told := dn_told
|}.
Next Obligation.
  intros n buf n' r k. cbn. unfold demo_send. destruct (dn_room n) as [|x room].
  - intros [= <- <- <-]. cbn. split; [done|]. split; [done|]. rewrite ztake_ge by lia. split; [zlen_pos; lia|].
    split; [|done]. intros Hb. destruct buf; [done|]. rewrite zlen_cons. zlen_pos. lia.
  - destruct (x <=? 0) eqn:E; zb_hyps; intros [= <- <- <-]; [done|]. cbn. split; [done|]. split; [done|].
    split; [zlen_pos; lia|]. split; [|done]. intros Hb. destruct buf; [done|]. rewrite zlen_cons. zlen_pos. lia.
Qed.
Next Obligation. by intros n n' r x [= <- <- <-]. Qed.

(** An application that notes what it is told. *)
Definition demo_writer (type : Z) (buf : list Z) : W (N := demo_net) unit := fun s =>
  let n := st_net s in
  Some (inr tt, upd_net (mk_demo (dn_out n) (dn_told n ++ [(w_recvframe (st_ws s), buf)]) (dn_room n) (dn_in n)) s).

Definition demo_flush : W (N := demo_net) unit := mret tt.

Lemma demo_writer_ok : app_ok demo_writer.
Proof. intros type buf s sb Hs Hp. by eexists (inr tt), _, sb. Qed.

Lemma demo_flush_ok : flush_ok demo_flush.
Proof. intros s sb Hs Hp. by exists (inr tt), s, sb. Qed.

(** A transfer, and the state at its start. *)
Definition demo_easy (only no_pong : bool) : Curl_easy := mk_easy true true true true only false no_pong false.

Definition demo_start (room : list Z) (incoming : list (list Z)) : ws_state (N := demo_net) :=
  mk_st ws_new ws_cw_init (mk_collect [] 0 0 0 0 0 false) (mk_demo [] [] room incoming) [].

(** The same with queues of small chunks. *)
Definition demo_small (size : Z) (room : list Z) (incoming : list (list Z)) : ws_state (N := demo_net) :=
  let q := Curl_bufq_init2 size 2 true false in
  mk_st (set_recvbuf q (set_sendbuf q ws_new)) q (mk_collect [] 0 0 0 0 0 false) (mk_demo [] [] room incoming) [].
