(* ===== verification/WsWire.v ===== *)
(** Frames that go out: a server that reads them as RFC 6455 says finds
    the messages that were sent. *)

From Stdlib Require Import ZArith Lia List.
From stdpp Require Import base numbers option list.
From S2P Require Import Prelude Dynbuf Bufq Ws WsConn WsRef WsSend.
Close Scope nat_scope.
Open Scope Z_scope.

(** * The server *)

(** The length of a payload and what is behind it, [b1] being the second byte
    without its mask bit. *)
Definition srv_len (b1 : Z) (s : list Z) : option (Z * list Z) :=
  let n := ext_len b1 in
  if zlen s <? n then None else Some (if n =? 0 then b1 else be (ztake n s), zdrop n s).

(** A frame that is masked, and what is behind it. *)
Definition srv_frame (cont : option ws_kind) (s : list Z) : option (rframe * list Z) :=
  match s with
  | b0 :: b1 :: s =>
      op ← ref_op b0 cont;
      if b1 <? 128 then None
      else
        '(len, s) ← srv_len (b1 - 128) s;
        if zlen s <? 4 + len then None
        else Some (op, masked (ztake 4 s) 0 (slice s 4 len), zdrop (4 + len) s)
  | _ => None
  end.

(** All frames of a stream; a frame has six bytes at least. *)
Fixpoint srv_read (fuel : nat) (cont : option ws_kind) (s : list Z) : option (list rframe) :=
  match s, fuel with
  | [], _ => Some []
  | _, O => None
  | _, S fuel =>
      '(f, s) ← srv_frame cont s;
      fs ← srv_read fuel (next_cont f.1 cont) s;
      Some (f :: fs)
  end.

(** * The first byte *)

(** Messages that can be sent one after the other: a message that is open is
    continued with its kind, control frames are short. *)
Definition op_next (cont : option ws_kind) (op : ws_op) (len : Z) : bool :=
  match op with
  | OpData k _ => match cont with Some k' => bool_decide (k = k') | None => true end
  | _ => len <=? WS_MAX_CNTRL_LEN
  end.

Definition is_open (cont : option ws_kind) : bool := match cont with Some _ => true | None => false end.

(** The first byte for the flags of a frame is read as that frame. *)
Lemma first_byte_spec op cont len : op_next cont op len = true -> exists b0,
  ws_frame_flags2firstbyte (op_flags op) (is_open cont) = (CURLE_OK, b0) /\ ref_op b0 cont = Some op.
Proof.
  intros Hn. destruct op as [[] []| | |]; destruct cont as [[]|]; try (by cbn in Hn); eexists; (split; [vm_compute; reflexivity|done]).
Qed.

Lemma open_next op cont : (if has (op_flags op) (Z.lor CURLWS_TEXT CURLWS_BINARY) then has (op_flags op) CURLWS_CONT else is_open cont)
  = is_open (next_cont op cont).
Proof. by destruct op as [[] []| | |]. Qed.

(** * The length *)

Lemma byte_at n k : 0 <= k -> Z.land (Z.shiftr n k) 255 = n / 2 ^ k mod 256.
Proof. intros Hk. rewrite (land_mask _ 8), Z.shiftr_div_pow2 by lia. done. Qed.

Lemma div_256 n k m : 0 <= k -> m = k + 8 -> n / 2 ^ k = 256 * (n / 2 ^ m) + n / 2 ^ k mod 256.
Proof.
  intros Hk ->. rewrite Z.pow_add_r, <- Z.div_div by lia. change (2 ^ 8) with 256. apply Z.div_mod. lia.
Qed.

Lemma be_64 n : 0 <= n < 2 ^ 63 ->
  be [n / 2 ^ 56 mod 256; n / 2 ^ 48 mod 256; n / 2 ^ 40 mod 256; n / 2 ^ 32 mod 256; n / 2 ^ 24 mod 256; n / 2 ^ 16 mod 256;
      n / 2 ^ 8 mod 256; n mod 256] = n.
Proof.
  intros Hn.
  assert (E : forall k m, 0 <= k -> m = k + 8 -> 256 * (n / 2 ^ m) + n / 2 ^ k mod 256 = n / 2 ^ k) by (intros k m Hk Hm; symmetry; by apply div_256).
  unfold be. cbn [fold_left]. replace (256 * 0) with (256 * (n / 2 ^ 64)) by (rewrite Z.div_small by lia; done).
  rewrite (E 56 64), (E 48 56), (E 40 48), (E 32 40), (E 24 32), (E 16 24), (E 8 16) by lia.
  pose proof (E 0 8 ltac:(lia) ltac:(lia)) as E0. change (2 ^ 0) with 1 in E0. by rewrite Z.div_1_r in E0.
Qed.

Lemma srv_len_spec firstb n t : 0 <= n < 2 ^ 63 -> exists b1 h, enc_head firstb n = firstb :: (b1 + 128) :: h /\ 0 <= b1 < 128 /\
  srv_len b1 (h ++ t) = Some (n, t).
Proof.
  intros Hn. unfold enc_head. rewrite Z.gtb_ltb, Z.geb_leb, !byte_at by lia. rewrite (land_mask n 8 ltac:(lia) : Z.land n 255 = n mod 256).
  destruct (65535 <? n) eqn:E1; zb_hyps; [|destruct (126 <=? n) eqn:E2; zb_hyps].
  - exists 127. eexists. split; [done|]. split; [lia|]. unfold srv_len. change (ext_len 127) with 8.
    rewrite zlen_app. change (zlen [_; _; _; _; _; _; _; _]) with 8. rewrite (proj2 (Z.ltb_ge _ _)) by zlia.
    change (8 =? 0) with false. cbv iota. f_equal. f_equal. exact (be_64 n Hn).
  - exists 126. eexists. split; [done|]. split; [lia|]. unfold srv_len. change (ext_len 126) with 2.
    rewrite zlen_app. change (zlen [_; _]) with 2. rewrite (proj2 (Z.ltb_ge _ _)) by zlia.
    change (2 =? 0) with false. cbv iota. f_equal. f_equal. unfold be, ztake. change (Z.to_nat 2) with 2%nat. cbn [app take fold_left].
    change (2 ^ 8) with 256. rewrite Z.mul_0_r, Z.add_0_l.
    rewrite (Z.mod_small (n / 256)) by (split; [apply Z.div_pos; lia|apply Z.div_lt_upper_bound; lia]). symmetry. apply Z.div_mod. lia.
  - exists n, []. split; [|split; [lia|]].
    + rewrite u8_small by (unfold is_byte; lia). f_equal. f_equal. unfold WSBIT_MASK.
      rewrite Z.lor_comm, (lor_shiftl_add 1 7 n ltac:(lia) ltac:(lia) : Z.lor 128 n = _). lia.
    + unfold srv_len, ext_len. rewrite (proj2 (Z.eqb_neq n 126)), (proj2 (Z.eqb_neq n 127)) by lia. cbn [app].
      rewrite (proj2 (Z.ltb_ge _ _)) by zlia. done.
Qed.

(** * Reading what was written *)

Lemma srv_frame_spec op cont m p t b0 : ref_op b0 cont = Some op -> zlen m = 4 -> zlen p < 2 ^ 63 ->
  srv_frame cont (client_frame b0 m p ++ t) = Some (op, p, t).
Proof.
  intros Ho Hm Hp. unfold client_frame. destruct (srv_len_spec b0 (zlen p) ((m ++ masked m 0 p) ++ t)) as (b1 & h & -> & Hb & Hl); [zlen_pos; lia|].
  cbn [app]. unfold srv_frame. rewrite Ho. cbn [mbind option_bind]. rewrite (proj2 (Z.ltb_ge _ _)) by lia.
  rewrite Z.add_simpl_r, <- app_assoc, Hl. cbn [mbind option_bind]. rewrite (proj2 (Z.ltb_ge _ _)) by (rewrite !zlen_app, zlen_masked; zlen_pos; lia).
  rewrite <- app_assoc. assert (E4 : ztake 4 (m ++ masked m 0 p ++ t) = m) by (rewrite <- Hm; apply ztake_app_exact).
  rewrite E4. unfold slice. rewrite <- Hm at 1. rewrite zdrop_app_exact.
  assert (E5 : ztake (zlen p) (masked m 0 p ++ t) = masked m 0 p) by (rewrite <- (zlen_masked m 0 p); apply ztake_app_exact).
  rewrite E5, masked_involutive, <- (zlen_masked m 0 p), <- Hm, <- zlen_app, app_assoc, zdrop_app_exact. done.
Qed.

(** A stream of frames. *)
Definition wire (l : list (Z * list Z * list Z)) : list Z := concat ((fun '(b0, m, p) => client_frame b0 m p) <$> l).

(** First bytes and masks that go with messages. *)
Fixpoint wire_ok (cont : option ws_kind) (msgs : list rframe) (l : list (Z * list Z * list Z)) : Prop :=
  match msgs, l with
  | [], [] => True
  | (op, p) :: msgs, (b0, m, p') :: l => p' = p /\ ref_op b0 cont = Some op /\ zlen m = 4 /\ zlen p < 2 ^ 63 /\ wire_ok (next_cont op cont) msgs l
  | _, _ => False
  end.

Lemma srv_read_spec msgs : forall cont l fuel, wire_ok cont msgs l -> (length msgs <= fuel)%nat ->
  srv_read fuel cont (wire l) = Some msgs.
Proof.
  induction msgs as [|[op p] msgs IH]; intros cont [|[[b0 m] p'] l] fuel Hw Hf; try done; [by destruct fuel|].
  destruct Hw as (-> & Ho & Hm & Hp & Hw). cbn in Hf. destruct fuel as [|fuel]; [lia|].
  assert (Ew : wire ((b0, m, p) :: l) = client_frame b0 m p ++ wire l) by done. rewrite Ew.
  destruct (client_frame b0 m p ++ wire l) as [|x s] eqn:E.
  { unfold client_frame, enc_head in E. repeat case_if_in E; done. }
  cbn [srv_read]. rewrite <- E, (srv_frame_spec op) by done. cbn [mbind option_bind fst]. by rewrite IH by (done || lia).
Qed.
