(* ===== verification/WsSender.v ===== *)
(** Sending messages with [curl_ws_send] (lib/ws.c), over a connection that
    takes as much as it wants, when no control frame is added in between. *)

From Stdlib Require Import ZArith Lia List.
From stdpp Require Import base numbers option list.
From S2P Require Import Prelude Dynbuf Bufq Ws WsConn WsRef WsSend WsWire.
Close Scope nat_scope.
Open Scope Z_scope.

Section sender.
Context {N : Type} `{WsNetLaws N} (data : Curl_easy) (wait : nat).
Abbreviation W := (WsConn.W (N := N)).
Abbreviation ws_state := (WsConn.ws_state (N := N)).
Context (Hcb : is_in_callback data = false).

Definition max_message : Z := 2 ^ 62.

(** Between two frames; [open] says that a message is. *)
Definition idle (s : ws_state) (open : bool) (out : list Z) : Prop :=
  sends (st_ws s) [] /\ c_type (w_pending (st_ws s)) = 0 /\ w_sendbuf_payload (st_ws s) = 0 /\
  e_payload_remain (w_enc (st_ws s)) = 0 /\ e_contfragment (w_enc (st_ws s)) = open /\ net_out (st_net s) = out.

Section frame.
Context (open : bool).

(** A frame with payload [p] is on its way behind [out]: [k] bytes of it have been
    reported, [k + sendbuf_payload] are encoded. *)
Definition busy (s : ws_state) (out : list Z) (b0 : Z) (m p : list Z) (k : Z) (sb : list Z) : Prop :=
  let n := w_sendbuf_payload (st_ws s) in
  sends (st_ws s) sb /\ c_type (w_pending (st_ws s)) = 0 /\
  0 <= k /\ 0 <= n <= zlen sb /\ zlen sb <= 14 + n /\ k + n <= zlen p <= max_message /\ (k = 0 \/ zlen sb = n) /\
  zlen m = 4 /\ e_mask (w_enc (st_ws s)) = m /\ e_xori (w_enc (st_ws s)) = (k + n) mod 4 /\
  e_payload_remain (w_enc (st_ws s)) = zlen p - (k + n) /\ e_contfragment (w_enc (st_ws s)) = open /\
  net_out (st_net s) ++ sb = out ++ enc_head b0 (zlen p) ++ m ++ masked m 0 (ztake (k + n) p).

Lemma busy_done s out b0 m p : busy s out b0 m p (zlen p) [] -> idle s open (out ++ client_frame b0 m p).
Proof.
  intros (Hs & Hp & _ & Hn & _ & Hk & _ & _ & _ & _ & Hr & Hop & Ho). change (zlen (@nil Z)) with 0 in Hn.
  assert (En : w_sendbuf_payload (st_ws s) = 0) by lia. rewrite En, Z.add_0_r, app_nil_r, ztake_ge in * by lia.
  split; [done|]. split; [done|]. split; [done|]. split; [lia|]. by split.
Qed.

(** What is on the wire and in the buffer is the front of the frame. *)
Lemma busy_front s out b0 m p k sb : busy s out b0 m p k sb -> net_out (st_net s) ++ sb `prefix_of` out ++ client_frame b0 m p.
Proof.
  intros (_ & _ & Hk & Hn & _ & Hkn & _ & _ & _ & _ & _ & _ & Ho). unfold client_frame.
  rewrite <- (ztake_zdrop (k + w_sendbuf_payload (st_ws s)) p) at 2. rewrite masked_app by lia. rewrite Ho.
  exists (masked m ((0 + zlen (ztake (k + w_sendbuf_payload (st_ws s)) p)) mod 4) (zdrop (k + w_sendbuf_payload (st_ws s)) p)).
  by rewrite <- !app_assoc.
Qed.

Lemma prefix_front {A} (a b c : list A) : a ++ b `prefix_of` c -> a `prefix_of` c.
Proof. intros [t ->]. exists (b ++ t). by rewrite app_assoc. Qed.

(** ** A round of the loop *)

Lemma zlen_rest (p : list Z) k : 0 <= k <= zlen p -> zlen (zdrop k p) = zlen p - k.
Proof. intros Hk. rewrite zlen_zdrop by lia. lia. Qed.

(** Payload that is not encoded goes into the buffer, all of it, or none of it when
    the buffer is full. *)
Lemma send_fill_spec s out b0 m p k sb : busy s out b0 m p k sb -> exists r s',
  send_fill (zdrop k p) s = Some (r, s') /\ net_out (st_net s') = net_out (st_net s) /\
  match r with
  | inr (Some CURLE_AGAIN) => busy s' out b0 m p k sb /\ k < zlen p
  | inr (Some e) => e <> CURLE_OK
  | inr None => (exists sb', busy s' out b0 m p k sb' /\ (sb = [] -> zlen p = k -> sb' = [])) /\
      (w_sendbuf_payload (st_ws s') = 0 -> k = zlen p)
  | inl _ => False
  end.
Proof.
  intros Hb. pose proof Hb as (Hs & Hp & Hk & Hn & Hsb & Hkn & Hone & Hm & Em & Ex & Er & Hop & Ho). unfold max_message in Hkn.
  set (n := w_sendbuf_payload (st_ws s)) in *. unfold send_fill. rewrite bind_get_ws, zlen_rest, Z.gtb_ltb by lia. fold n.
  destruct (n <? zlen p - k) eqn:E; zb_hyps.
  2: { exists (inr None), s. split; [done|]. split; [done|]. split; [exists sb; by split|]. fold n. lia. }
  unfold sendbuf_len. rewrite bind_bind, bind_get_ws, bind_ret, zdrop_zdrop by lia. rewrite (Z.add_comm n k).
  rewrite (bufq_len_spec _ sb) by (apply Hs || (unfold SIZE_MAX; lia)).
  destruct (Curl_bufq_is_full (w_sendbuf (st_ws s))) eqn:Ef.
  - rewrite (bind_try _ _ s (inl CURLE_AGAIN) s) by (unfold ws_enc_write_payload; by rewrite bind_get_ws, Ef).
    cbn [result_of is_ok negb andb code_eqb]. change (code_eqb CURLE_AGAIN CURLE_AGAIN) with true. cbn [negb].
    rewrite bind_mod_ws, bind_get_ws. fold n. rewrite (bufq_len_spec _ sb) by (apply Hs || (unfold SIZE_MAX; lia)).
    replace (u64 (n + zlen sb - zlen sb)) with n by (rewrite u64_small; unfold SIZE_MAX; lia).
    set (s1 := upd_ws _ s). assert (Hb1 : busy s1 out b0 m p k sb) by exact Hb.
    do 2 eexists. split; [done|]. split; [done|]. change (w_sendbuf_payload (st_ws s1)) with n. destruct (n =? 0) eqn:E0; zb_hyps.
    + split; [done|lia].
    + split; [|done]. exists sb. split; [done|done].
  - destruct (write_payload_spec s sb (zdrop (k + n) p) Hs Ef) as (r & s1 & E1 & (Hq & Ho1 & En1 & _ & _) & Hp1 & Hcase).
    rewrite (bind_try _ _ _ _ _ E1). destruct r as [e|j]; cbn [result_of].
    { destruct Hcase as (-> & _ & _). do 2 eexists. split; [done|]. split; [done|]. done. }
    cbn [is_ok negb andb]. rewrite bind_mod_ws, bind_get_ws. cbn zeta in Hcase. rewrite Er, zlen_rest, Z.min_id, ztake_ge in Hcase by (rewrite ?zlen_rest; lia).
    destruct Hcase as (-> & Hs1 & Ee1). rewrite Em, Ex in Hs1.
    assert (Hz : zlen (sb ++ masked m ((k + n) mod 4) (zdrop (k + n) p)) = zlen sb + (zlen p - (k + n))) by (rewrite zlen_app, zlen_masked, zlen_rest; lia).
    rewrite (bufq_len_spec _ _ (proj1 Hs1)), Hz, En1 by (rewrite Hz; unfold SIZE_MAX; lia). fold n.
    rewrite u64_small by (unfold SIZE_MAX; lia). replace (n + (zlen sb + (zlen p - (k + n))) - zlen sb) with (zlen p - k) by lia.
    set (s2 := upd_ws _ s1). do 2 eexists. split; [done|]. split; [done|]. change (w_sendbuf_payload (st_ws s2)) with (zlen p - k).
    rewrite (proj2 (Z.eqb_neq (zlen p - k) 0)) by lia. split; [|lia]. eexists. split; [|intros _ ?; lia].
    unfold busy. change (w_sendbuf_payload (st_ws s2)) with (zlen p - k). change (w_enc (st_ws s2)) with (w_enc (st_ws s1)).
    change (st_net s2) with (st_net s1). change (w_pending (st_ws s2)) with (w_pending (st_ws s1)).
    split; [exact Hs1|]. split; [by rewrite Hp1|]. split; [lia|]. rewrite Hz. split; [lia|]. split; [lia|]. split; [unfold max_message; lia|]. split; [lia|].
    split; [done|]. rewrite Ee1. cbn [e_set_payload e_set_xori e_mask e_xori e_payload_remain]. rewrite Ex. split; [done|].
    split; [rewrite Zplus_mod_idemp_l; f_equal; lia|]. split; [lia|]. split; [done|]. rewrite Ho1, app_assoc, Ho, <- !app_assoc.
    replace (k + (zlen p - k)) with (zlen p) by lia. rewrite (ztake_ge (zlen p)) by lia. do 3 f_equal.
    rewrite <- (ztake_zdrop (k + n) p) at 3. rewrite masked_app by lia. rewrite zlen_ztake by lia. do 2 f_equal. f_equal. lia.
Qed.

(** Flushing reports the payload that is gone. *)
Lemma send_flush_spec s out b0 m p k sb : busy s out b0 m p k sb -> (w_sendbuf_payload (st_ws s) = 0 -> k = zlen p) -> forall sent, exists r n s',
  send_flush data wait (zdrop k p) sent s = Some (inr (r, sent + n), s') /\ 0 <= n /\
  match r with
  | inr b => b = zdrop (k + n) p /\ 0 < n /\ busy s' out b0 m p (k + n) []
  | inl CURLE_OK => busy s' out b0 m p (k + n) [] /\ k + n = zlen p \/ k + n < zlen p /\ exists sb', busy s' out b0 m p (k + n) sb'
  | inl CURLE_AGAIN => exists sb', busy s' out b0 m p (k + n) sb' /\ sb' <> []
  | inl _ => net_out (st_net s') `prefix_of` out ++ client_frame b0 m p
  end.
Proof.
  intros Hb Hz sent. pose proof Hb as (Hs & Hp & Hk & Hn & Hsb & Hkn & Hone & Hm & Em & Ex & Er & Hop & Ho). unfold max_message in Hkn.
  set (n := w_sendbuf_payload (st_ws s)) in *. unfold send_flush. rewrite Hcb.
  destruct (flush_spec data wait s sb Hs Hp) as (r & s1 & gone & sb1 & E & (_ & En & _ & _) & -> & Hs1 & Ho1 & Hp1 & He1 & Hend).
  rewrite (bind_try _ _ _ _ _ E), bind_get_ws, En. fold n. pose proof (zlen_nonneg gone). rewrite zlen_app in *.
  assert (Hnext : forall s2 k' n', st_net s2 = st_net s1 -> w_pending (st_ws s2) = w_pending (st_ws s1) -> w_enc (st_ws s2) = w_enc (st_ws s1) ->
    w_sendbuf (st_ws s2) = w_sendbuf (st_ws s1) -> w_sendbuf_payload (st_ws s2) = n' -> k' + n' = k + n -> 0 <= k' -> 0 <= n' <= zlen sb1 ->
    zlen sb1 <= 14 + n' -> (k' = 0 \/ zlen sb1 = n') -> busy s2 out b0 m p k' sb1).
  { intros s2 k' n' E1 E2 E3 E4 E5 E6 K1 K2 K3 K4. unfold busy. rewrite E5, E6, E1, E2, E3, Hp1, He1, Ho1, <- app_assoc.
    split; [unfold sends; by rewrite E3, E4|]. do 4 (split; [done|]). split; [done|]. by split. }
  destruct r as [e|[]].
  - destruct Hend as [Hne Hno]. assert (zlen sb1 <> 0) by (by intros ?%zlen_0). pose proof (zlen_nonneg sb1).
    destruct (code_eqb e CURLE_AGAIN) eqn:Ea.
    + rewrite (bufq_len_spec _ _ (proj1 Hs1)), Z.gtb_ltb by (unfold SIZE_MAX; lia). destruct (zlen sb1 <? n) eqn:El; zb_hyps.
      * rewrite bind_mod_ws. set (s2 := upd_ws _ s1). exists (inl CURLE_OK), (n - zlen sb1), s2. split; [done|]. split; [lia|]. right. split; [lia|].
        exists sb1. apply (Hnext s2 (k + (n - zlen sb1)) (zlen sb1)); try done; [cbn; lia|lia..].
      * exists (inl CURLE_AGAIN), 0, s1. rewrite !Z.add_0_r. split; [done|]. split; [lia|]. exists sb1. split; [|done]. apply (Hnext s1 k n); try done; lia.
    + exists (inl e), 0, s1. rewrite !Z.add_0_r. split; [done|]. split; [lia|].
      assert (Hpre : net_out (st_net s1) `prefix_of` out ++ client_frame b0 m p).
      { rewrite Ho1. apply (prefix_front _ sb1). rewrite <- app_assoc. exact (busy_front _ _ _ _ _ _ _ Hb). }
      destruct e; try exact Hpre; done.
  - subst sb1. change (zlen (@nil Z)) with 0 in *. rewrite Z.gtb_ltb. destruct (0 <? n) eqn:E0; zb_hyps.
    + unfold advance. rewrite (proj2 (Z.leb_le n _)) by (rewrite zlen_rest; lia). rewrite (bind_lift _ _ _ _ eq_refl), bind_mod_ws, zdrop_zdrop by lia.
      set (s2 := upd_ws _ s1). exists (inr (zdrop (n + k) p)), n, s2. split; [done|]. split; [lia|]. rewrite (Z.add_comm n k). split; [done|]. split; [lia|].
      apply (Hnext s2 (k + n) 0); try done; lia.
    + exists (inl CURLE_OK), 0, s1. rewrite !Z.add_0_r. split; [done|]. split; [lia|]. left. split; [|by apply Hz; lia]. apply (Hnext s1 k n); try done; lia.
Qed.
(** The loop of a call, from a frame that is under way. *)
Definition sent_ok (s : ws_state) (out : list Z) (b0 : Z) (m p : list Z) (r : CURLcode) (k : Z) : Prop :=
  match r with
  | CURLE_OK => busy s out b0 m p k [] /\ k = zlen p \/ k < zlen p /\ exists sb, busy s out b0 m p k sb
  | CURLE_AGAIN => exists sb, busy s out b0 m p k sb /\ (k < zlen p \/ sb <> [])
  | _ => net_out (st_net s) `prefix_of` out ++ client_frame b0 m p
  end.

Lemma enc_send_loop_spec out b0 m p fuel : forall s k sb sent, busy s out b0 m p k sb -> zlen p - k + 1 <= Z.of_nat fuel -> exists r n s',
  enc_send_loop data wait fuel (zdrop k p) sent s = Some (inr (r, sent + n), s') /\ 0 <= n /\ sent_ok s' out b0 m p r (k + n).
Proof.
  induction fuel as [|fuel IH]; intros s k sb sent Hb Hf; pose proof Hb as (Hs & _ & Hk & Hn & _ & Hkn & _); [lia|].
  cbn [enc_send_loop]. rewrite bind_get_ws, (bufq_is_empty_spec _ sb), zlen_rest, Z.gtb_ltb by (apply Hs || lia).
  destruct (bool_decide (sb = []) && _) eqn:E; zb_hyps.
  { exists CURLE_OK, 0, s. rewrite !Z.add_0_r. split; [done|]. split; [lia|].
    match goal with Hd : bool_decide _ = true |- _ => apply bool_decide_eq_true in Hd; subst sb end.
    change (zlen (@nil Z)) with 0 in Hn. left. split; [done|]. lia. }
  destruct (send_fill_spec s out b0 m p k sb Hb) as (r & s1 & E1 & Ho1 & Hcase).
  destruct r as [e|[e|]]; [done| |]; rewrite (bind_ok _ _ _ _ _ E1).
  - exists e, 0, s1. rewrite !Z.add_0_r. split; [done|]. split; [lia|].
    assert (Hpre : net_out (st_net s1) `prefix_of` out ++ client_frame b0 m p).
    { rewrite Ho1. apply (prefix_front _ sb), (busy_front _ _ _ _ _ _ _ Hb). }
    destruct e; try exact Hpre; [done|]. exists sb. destruct Hcase. split; [done|by left].
  - destruct Hcase as [(sb1 & Hb1 & _) Hz]. destruct (send_flush_spec s1 out b0 m p k sb1 Hb1 Hz sent) as (r & n & s2 & E2 & Hn0 & Hr).
    rewrite (bind_ok _ _ _ _ _ E2). destruct r as [e|b].
    + exists e, n, s2. split; [done|]. split; [done|]. unfold sent_ok. destruct e; try exact Hr. destruct Hr as (sb2 & Hb2 & Hne). exists sb2. split; [done|by right].
    + destruct Hr as (-> & Hpos & Hb2). destruct (IH s2 (k + n) [] (sent + n) Hb2) as (r & n2 & s3 & E3 & Hn2 & Hr); [lia|].
      exists r, (n + n2), s3. rewrite !Z.add_assoc. split; [done|]. split; [lia|done].
Qed.

(** A call that goes on with a frame. *)
Lemma send_more_spec s out b0 m p k sb flags : busy s out b0 m p k sb -> (k < zlen p \/ sb <> []) -> exists r n s',
  ws_enc_send data wait (zdrop k p) 0 flags s = Some (inr (r, n), s') /\ 0 <= n /\ sent_ok s' out b0 m p r (k + n).
Proof.
  intros Hb Hmore. pose proof Hb as (Hs & _ & Hk & Hn & _ & Hkn & _ & _ & _ & _ & Er & _ & _). unfold max_message in Hkn.
  unfold ws_enc_send. rewrite bind_get_ws, (bufq_is_empty_spec _ sb) by apply Hs.
  assert (Ht : negb (e_payload_remain (w_enc (st_ws s)) =? 0) || negb (bool_decide (sb = [])) = true).
  { destruct (bool_decide_reflect (sb = [])) as [->|Hne]; [|apply orb_true_r]. change (zlen (@nil Z)) with 0 in Hn.
    destruct Hmore as [Hlt|?]; [|done]. rewrite orb_false_r, (proj2 (Z.eqb_neq _ _)) by lia. done. }
  rewrite Ht, zlen_rest, (proj2 (Z.ltb_ge _ _)) by lia. rewrite Er.
  assert (E64 : forall x, 0 <= x <= 2 ^ 62 -> s64 x = x) by (intros x Hx; unfold s64; rewrite Z.mod_small; lia).
  rewrite (E64 (w_sendbuf_payload (st_ws s))), (E64 (zlen p - k)) by lia.
  rewrite (bind_lift _ (zlen p - k)) by (unfold i64, INT64_MIN, INT64_MAX; rewrite (proj2 (Z.leb_le _ _)), (proj2 (Z.leb_le _ _)) by lia; f_equal; cbn; lia).
  rewrite Z.gtb_ltb, Z.ltb_irrefl. destruct (enc_send_loop_spec out b0 m p (S (S (length (zdrop k p)))) s k sb 0 Hb) as (r & n & s' & E & Hn0 & Hr).
  { pose proof (zlen_rest p k ltac:(lia)) as Hz. unfold zlen at 1 in Hz. lia. }
  exists r, n, s'. by split.
Qed.
End frame.

(** A call that starts a frame: it goes on its way, or nothing is sent. *)
Lemma send_new_spec s out op p cont : idle s (is_open cont) out -> op_next cont op (zlen p) = true -> zlen p <= max_message -> exists r n s',
  ws_enc_send data wait p 0 (op_flags op) s = Some (inr (r, n), s') /\ 0 <= n /\
  ((exists b0 m, ref_op b0 cont = Some op /\ zlen m = 4 /\ sent_ok (is_open (next_cont op cont)) s' out b0 m p r n) \/
   r <> CURLE_OK /\ r <> CURLE_AGAIN /\ net_out (st_net s') = out).
Proof.
  intros (Hs & Hp & Hn & Hr & Hop & Ho) Hnext Hlen. unfold max_message in Hlen. pose proof (zlen_nonneg p).
  destruct (first_byte_spec op cont _ Hnext) as (b0 & Efb & Eref). unfold ws_enc_send. rewrite bind_get_ws, Hr.
  rewrite (bufq_is_empty_spec _ []) by apply Hs. cbn [Z.eqb negb orb]. rewrite bool_decide_true by done. cbn [negb]. rewrite Hcb.
  destruct (flush_spec data wait s [] Hs Hp) as (r & s1 & gone & sb1 & E & (_ & En & _ & _) & Esb & Hs1 & Ho1 & Hp1 & He1 & Hend).
  symmetry in Esb. apply app_eq_nil in Esb as [-> ->]. destruct r as [e|[]]; [by destruct Hend|]. rewrite app_nil_r in Ho1.
  assert (Hf : has (op_flags op) CURLWS_OFFSET = false) by by destruct op as [[] []| | |]. rewrite Hf.
  assert (E64 : s64 (zlen p) = zlen p) by (unfold s64; rewrite Z.mod_small; lia). rewrite E64.
  destruct (add_frame_spec s1 [] (op_flags op) (zlen p) Hs1) as (r & s2 & E2 & (Hq2 & Ho2 & En2 & _ & _) & Hp2 & Hcase); [lia|].
  assert (Ew : (ws_flush data wait false;; ws_enc_write_head (op_flags op) (zlen p)) s = Some (r, s2)).
  { rewrite (bind_ok _ _ _ _ _ E). unfold ws_enc_write_head. rewrite bind_get_ws, Hp1, Hp. cbn [Z.eqb negb]. by rewrite bind_ret. }
  rewrite (bind_try _ _ _ _ _ Ew). destruct r as [e|[]].
  { destruct Hcase as (Hok & Hag & _). exists e, 0, s2. split; [done|]. split; [lia|]. right. split; [done|]. split; [done|]. by rewrite Ho2, Ho1. }
  destruct Hcase as (b & m & Eb & _ & _ & Hm & Hs2 & He2). rewrite He1, Hop, Efb in Eb. injection Eb as <-. rewrite He1, Hop, open_next in He2.
  assert (Hb : busy (is_open (next_cont op cont)) s2 out b0 m p 0 (enc_head b0 (zlen p) ++ m)).
  { unfold busy, max_message. rewrite En2, En, Hn, Hp2, Hp1, He2. cbn [e_mask e_xori e_payload_remain e_contfragment].
    assert (Hh : 0 <= zlen (enc_head b0 (zlen p) ++ m) <= 14).
    { rewrite zlen_app, Hm. unfold enc_head. destruct (_ >? _); [|destruct (_ >=? _)]; unfold zlen; cbn [length]; lia. }
    do 3 (split; [done || lia|]). split; [lia|]. split; [lia|]. split; [lia|]. split; [by left|]. split; [done|]. split; [done|]. split; [done|].
    split; [lia|]. split; [done|]. rewrite Ho2, Ho1, Ho, ztake_0. cbn [masked]. by rewrite app_nil_r. }
  destruct (enc_send_loop_spec (is_open (next_cont op cont)) out b0 m p (S (S (length p))) s2 0 _ 0 Hb) as (r & n & s3 & E3 & Hn3 & Hr3); [unfold zlen; lia|].
  exists r, n, s3. rewrite zdrop_0 in E3. split; [exact E3|]. split; [done|]. left. by exists b0, m.
Qed.

(** * An application that sends messages *)

Context (Hgood : good_handle data = true) (Hconn : has_conn data = true) (Hws : has_ws data = true) (Hraw : ws_raw_mode data = false).

Lemma curl_ws_send_frames p flags s : curl_ws_send data wait (Some p) (zlen p) true 0 flags s = ws_enc_send data wait p 0 flags s.
Proof.
  unfold curl_ws_send. rewrite Hgood. cbn [negb]. unfold with_sent. rewrite bind_bind, (bind_try _ _ s (inr 0) s).
  - rewrite bind_ret. change (negb (is_ok CURLE_OK)) with false. by rewrite Hraw.
  - rewrite bind_wget, Hconn, Hws. reflexivity.
Qed.

(** One message: the bytes that a call has not taken are given to the next one,
    until all are taken.  Before each further call the outside world changes: the
    socket may have room again. *)
Fixpoint send_message (waits : list (N -> N)) (flags : Z) (rest : list Z) : W CURLcode :=
  '(r, n) ← curl_ws_send data wait (Some rest) (zlen rest) true 0 flags;
  if is_ok r && (n =? zlen rest) then mret CURLE_OK
  else if is_ok r || code_eqb r CURLE_AGAIN then
    match waits with
    | [] => mret CURLE_AGAIN
    | f :: waits => wmod (fun s => upd_net (f (st_net s)) s);; send_message waits flags (zdrop n rest)
    end
  else mret r.

(** Messages, until one fails. *)
Fixpoint send_messages (msgs : list (rframe * list (N -> N))) : W CURLcode :=
  match msgs with
  | [] => mret CURLE_OK
  | ((op, p), waits) :: msgs =>
      r ← send_message waits (op_flags op) p;
      if is_ok r then send_messages msgs else mret r
  end.

Definition world_ok (f : N -> N) : Prop := forall n, net_out (f n) = net_out n.

(** The messages follow one another, and none is larger than [max_message]. *)
Fixpoint messages_ok (cont : option ws_kind) (msgs : list rframe) : bool :=
  match msgs with
  | [] => true
  | (op, p) :: msgs => op_next cont op (zlen p) && (zlen p <=? max_message) && messages_ok (next_cont op cont) msgs
  end.

Lemma busy_world open s out b0 m p k sb f : world_ok f -> busy open s out b0 m p k sb -> busy open (upd_net (f (st_net s)) s) out b0 m p k sb.
Proof. intros Hf. unfold busy. cbn. by rewrite Hf. Qed.

(** A message is sent, or a front of its frame. *)
Definition message_out (open : bool) (r : CURLcode) (s : ws_state) (out : list Z) (b0 : Z) (m p : list Z) : Prop :=
  if is_ok r then idle s open (out ++ client_frame b0 m p) else net_out (st_net s) `prefix_of` out ++ client_frame b0 m p.

(** What is done with the result of a call: as far as the next one. *)
Lemma after_send open flags out b0 m p waits k r n s :
  sent_ok open s out b0 m p r (k + n) -> 0 <= n -> 0 <= k <= zlen p ->
  (forall f waits' sb, waits = f :: waits' -> busy open s out b0 m p (k + n) sb -> (k + n < zlen p \/ sb <> []) -> exists r' s',
     send_message waits' flags (zdrop (k + n) p) (upd_net (f (st_net s)) s) = Some (inr r', s') /\ message_out open r' s' out b0 m p) ->
  exists r' s', (if is_ok r && (n =? zlen (zdrop k p)) then mret CURLE_OK
    else if is_ok r || code_eqb r CURLE_AGAIN then
      match waits with
      | [] => mret CURLE_AGAIN
      | f :: waits => wmod (fun s => upd_net (f (st_net s)) s);; send_message waits flags (zdrop n (zdrop k p))
      end
    else mret r) s = Some (inr r', s') /\ message_out open r' s' out b0 m p.
Proof.
  intros Hs Hn Hk Hnext. rewrite zlen_rest, zdrop_zdrop by lia. rewrite (Z.add_comm n k).
  assert (Hmore : forall sb, busy open s out b0 m p (k + n) sb -> (k + n < zlen p \/ sb <> []) -> exists r' s',
    match waits with
    | [] => mret CURLE_AGAIN
    | f :: waits => wmod (fun s => upd_net (f (st_net s)) s);; send_message waits flags (zdrop (k + n) p)
    end s = Some (inr r', s') /\ message_out open r' s' out b0 m p).
  { intros sb Hb Hl. destruct waits as [|f waits]; [|by apply (Hnext f waits sb)]. exists CURLE_AGAIN, s. split; [done|].
    apply (prefix_front _ sb). by eapply busy_front. }
  destruct (is_ok r) eqn:Eok.
  - apply is_ok_iff in Eok as ->. cbn [andb orb]. destruct Hs as [[Hb He]|[Hl [sb Hb]]].
    + rewrite (proj2 (Z.eqb_eq _ _)) by lia. exists CURLE_OK, s. split; [done|]. rewrite He in Hb. by eapply busy_done.
    + rewrite (proj2 (Z.eqb_neq _ _)) by lia. apply (Hmore sb); [done|by left].
  - cbn [andb orb]. destruct (code_eqb r CURLE_AGAIN) eqn:Ea.
    + apply bool_decide_eq_true in Ea as ->. destruct Hs as (sb & Hb & Hl). by apply (Hmore sb).
    + exists r, s. split; [done|]. unfold message_out. rewrite Eok. by destruct r.
Qed.

Lemma send_message_more open flags out b0 m p waits : Forall world_ok waits -> forall s k sb,
  busy open s out b0 m p k sb -> (k < zlen p \/ sb <> []) -> exists r s',
  send_message waits flags (zdrop k p) s = Some (inr r, s') /\ message_out open r s' out b0 m p.
Proof.
  induction 1 as [|f waits Hf _ IH]; intros s k sb Hb Hl; cbn [send_message];
    destruct (send_more_spec open s out b0 m p k sb flags Hb Hl) as (r & n & s1 & E & Hn & Hs);
    pose proof Hb as (_ & _ & Hk & Hsb & _ & Hkn & _);
    rewrite (bind_ok _ _ _ (r, n) s1) by (by rewrite curl_ws_send_frames);
    [apply (after_send open flags out b0 m p [] k)|apply (after_send open flags out b0 m p (f :: waits) k)]; try done; try lia.
  intros f' waits' sb' [= <- <-] Hb' Hl'. apply (IH _ _ sb'); [by apply busy_world|done].
Qed.

Lemma send_message_spec cont op p waits s out : Forall world_ok waits -> idle s (is_open cont) out ->
  op_next cont op (zlen p) = true -> zlen p <= max_message -> exists r s', send_message waits (op_flags op) p s = Some (inr r, s') /\
  ((exists b0 m, ref_op b0 cont = Some op /\ zlen m = 4 /\ message_out (is_open (next_cont op cont)) r s' out b0 m p) \/
   is_ok r = false /\ net_out (st_net s') = out).
Proof.
  intros Hw Hi Hnext Hlen. pose proof (zlen_nonneg p).
  destruct (send_new_spec s out op p cont Hi Hnext Hlen) as (r & n & s1 & E & Hn & Hcase).
  destruct waits as [|f waits]; cbn [send_message]; rewrite (bind_ok _ _ _ (r, n) s1) by (by rewrite curl_ws_send_frames).
  1,2: destruct Hcase as [(b0 & m & Hb0 & Hm & Hs)|(Hok & Hag & Ho)].
  2,4: (destruct (is_ok r) eqn:Eok; [by apply is_ok_iff in Eok|]; cbn [andb orb]; unfold code_eqb; rewrite bool_decide_false by done;
    exists r, s1; split; [done|by right]).
  1: destruct (after_send (is_open (next_cont op cont)) (op_flags op) out b0 m p [] 0 r n s1) as (r' & s' & E' & Hout); [done|done|lia|done|].
  2: destruct (after_send (is_open (next_cont op cont)) (op_flags op) out b0 m p (f :: waits) 0 r n s1) as (r' & s' & E' & Hout); [done|done|lia| |].
  2: intros f' waits' sb [= <- <-] Hb Hl; apply Forall_cons_1 in Hw as [Hf Hw']; apply (send_message_more _ _ _ _ _ _ _ Hw' _ _ sb); [by apply busy_world|done].
  1,2: exists r', s'; rewrite zdrop_0 in E'; split; [exact E'|]; left; by exists b0, m.
Qed.

Lemma send_messages_spec msgs : Forall (fun m => Forall world_ok m.2) msgs -> forall cont s out, idle s (is_open cont) out ->
  messages_ok cont (msgs.*1) = true -> exists r s' l, send_messages msgs s = Some (inr r, s') /\
  wire_ok cont (take (length l) (msgs.*1)) l /\ net_out (st_net s') `prefix_of` out ++ wire l /\
  (is_ok r = true -> net_out (st_net s') = out ++ wire l /\ length l = length msgs).
Proof.
  induction 1 as [|[[op p] waits] msgs Hw _ IH]; intros cont s out Hi Hok; cbn [send_messages].
  { exists CURLE_OK, s, []. destruct Hi as (_ & _ & _ & _ & _ & Ho). change (wire []) with (@nil Z). rewrite app_nil_r, Ho. do 3 (split; [done|]). done. }
  cbn in Hok. apply andb_true_iff in Hok as [[Hnext Hlen]%andb_true_iff Hok]. apply Z.leb_le in Hlen.
  destruct (send_message_spec cont op p waits s out Hw Hi Hnext Hlen) as (r & s1 & E & Hcase). rewrite (bind_ok _ _ _ _ _ E).
  destruct Hcase as [(b0 & m & Hb0 & Hm & Hout)|[Hr Ho]].
  2: { rewrite Hr. exists r, s1, []. change (wire []) with (@nil Z). rewrite app_nil_r, Ho. do 3 (split; [done|]). by rewrite Hr. }
  assert (Hone : forall l, wire ((b0, m, p) :: l) = client_frame b0 m p ++ wire l) by done. unfold max_message in Hlen.
  unfold message_out in Hout. destruct (is_ok r) eqn:Er.
  - destruct (IH _ _ _ Hout Hok) as (r' & s' & l & E' & Hl & Hpre & Hr'). exists r', s', ((b0, m, p) :: l). rewrite Hone.
    split; [done|]. cbn [length take fmap list_fmap wire_ok fst]. split; [do 3 (split; [done|]); split; [lia|done]|]. rewrite app_assoc. split; [done|].
    intros Hx. destruct (Hr' Hx) as [? ?]. split; [done|lia].
  - exists r, s1, [(b0, m, p)]. rewrite Hone. change (wire []) with (@nil Z). rewrite app_nil_r. split; [done|].
    cbn [length take fmap list_fmap wire_ok fst]. split; [do 3 (split; [done|]); split; [lia|done]|]. split; [done|]. by rewrite Er.
Qed.
End sender.
