(* ===== verification/WsTheorems.v ===== *)
(** WebSocket connections: the theorems about whole sequences of operations. *)

From Stdlib Require Import ZArith Lia List.
From stdpp Require Import base numbers option list.
From S2P Require Import Prelude Dynbuf Bufq Ws WsConn WsRecv WsRef WsSend WsDecode WsDemo WsWire WsSender.
Close Scope nat_scope.
Open Scope Z_scope.

(** * Frames that come in *)

Section frames_in.
Context {N : Type} `{WsNetLaws N} (data : Curl_easy) (wait : nat).
Abbreviation ws_state := (WsConn.ws_state (N := N)).
Context (next_writer : Z -> list Z -> WsConn.W (N := N) unit) (next_flush : WsConn.W (N := N) unit).

(** Bytes of the server, a flush, or a change of the outside world that has no part in what
    the application was told (such as an end of a pause). *)
Inductive cw_op := CwWrite (type : Z) (buf : list Z) | CwFlush | CwWorld (f : N -> N).

Definition cw_op_ok (op : cw_op) : Prop :=
  match op with
  | CwWrite type buf => has type CLIENTWRITE_BODY = true /\ bytes_ok buf
  | CwFlush => True
  | CwWorld f => forall n, net_told (f n) = net_told n
  end.

Definition cw_step (op : cw_op) : WsConn.W (N := N) unit :=
  match op with
  | CwWrite type buf => ws_cw_write data wait next_writer type buf
  | CwFlush => ws_cw_flush data next_writer next_flush
  | CwWorld f => wmod (fun s => upd_net (f (st_net s)) s)
  end.

Fixpoint cw_run (ops : list cw_op) : WsConn.W (N := N) unit :=
  match ops with [] => mret tt | op :: ops => cw_step op;; cw_run ops end.

(** The bytes of the server. *)
Definition fed (ops : list cw_op) : list Z := concat ((fun op => match op with CwWrite _ buf => buf | _ => [] end) <$> ops).

Lemma cw_run_inv ops : app_ok next_writer -> flush_ok next_flush -> has_ws data = true -> ws_raw_mode data = false ->
  is_in_callback data = false -> Forall cw_op_ok ops -> forall s c rest, stream_inv data s c rest -> bytes_ok rest -> exists r s',
  cw_run ops s = Some (r, s') /\ (r = inr tt -> exists c2 rest', rest ++ fed ops = c2 ++ rest' /\ stream_inv data s' (c ++ c2) rest').
Proof.
  intros Ha Hf Hws Hraw Hcb Hops. induction Hops as [|op ops Hop _ IH]; intros s c rest Hi Hb; cbn [cw_run].
  { exists (inr tt), s. split; [done|]. intros _. exists [], rest. rewrite !app_nil_r. by split. }
  assert (Hstep : exists r s1, cw_step op s = Some (r, s1) /\ (r = inr tt -> exists c2 rest',
    rest ++ fed [op] = c2 ++ rest' /\ stream_inv data s1 (c ++ c2) rest')).
  { destruct op as [type buf| |f]; unfold fed; cbn; rewrite ?app_nil_r.
    - destruct Hop as [Ht Hbuf]. destruct (cw_write_inv data wait next_writer Ha Hws Hraw Hcb type buf s c rest Ht Hi) as (r & s1 & E & Hr);
        [by apply bytes_ok_app|]. exists r, s1. split; [done|]. intros ->. destruct (Hr eq_refl) as (c2 & rest' & ? & ? & _). by exists c2, rest'.
    - by apply cw_flush_inv.
    - exists (inr tt), (upd_net (f (st_net s)) s). split; [done|]. intros _. exists [], rest. rewrite app_nil_r.
      split; [done|]. apply (stream_inv_same data s); try done; [apply Hi|apply Hop]. }
  destruct Hstep as (r & s1 & E & Hr). destruct r as [e|[]]; [rewrite (bind_err _ _ _ _ _ E); by do 2 eexists|].
  rewrite (bind_ok _ _ _ _ _ E). destruct (Hr eq_refl) as (c2 & rest1 & Er & Hi1).
  assert (Hb1 : bytes_ok (rest ++ fed [op])).
  { apply bytes_ok_app. split; [done|]. unfold fed. cbn. rewrite app_nil_r. destruct op; [apply Hop|apply Forall_nil_2..]. }
  rewrite Er in Hb1. apply bytes_ok_app in Hb1 as [_ Hb1].
  destruct (IH s1 (c ++ c2) rest1 Hi1 Hb1) as (r & s' & E' & Hr'). exists r, s'. split; [done|]. intros Hok.
  destruct (Hr' Hok) as (c3 & rest' & E3 & Hi'). exists (c2 ++ c3), rest'. rewrite app_assoc. split; [|done].
  assert (Ef : fed (op :: ops) = fed [op] ++ fed ops) by (unfold fed; cbn; by rewrite app_nil_r).
  rewrite Ef, app_assoc, Er, <- !app_assoc. by rewrite E3.
Qed.

(** A new connection. *)
Definition ws_start (n : N) (o : allocs) : ws_state := mk_st ws_new ws_cw_init (mk_collect [] 0 0 0 0 0 false) n o.

Lemma new_queue size count : 0 < size <= 65535 -> 0 < count -> in_holds (Curl_bufq_init2 size count true false) [].
Proof. intros Hs Hc. split; [|done]. apply init_rep; [|done]. unfold SIZE_MAX, sizeof_buf_chunk. lia. Qed.

Lemma start_inv n o : net_told n = [] -> stream_inv data (ws_start n o) [] [].
Proof.
  intros Hn. split; [by apply new_queue|]. split.
  { split; [|by vm_compute]. exists []. split; [by apply new_queue|]. split; [done|]. by split_and!. }
  exists (PHead None []), []. split; [done|]. split; [split_and!; [done..|by left]|]. unfold heard_pos, heard. cbn. by rewrite Hn.
Qed.
End frames_in.

(** C39: whatever a server sends, in pieces of any size, with flushes and pauses between
    them: no operation of the decoding writer leaves its memory or runs forever.
    As long as all of them succeed the server's bytes are frames as
    RFC 6455 defines them, from the first byte to the last one that was
    taken, and the application was told exactly those frames: with the
    flags, the payload, and for every piece the offset and what is to come;
    of a frame that is not complete it has what has come.  Pings are left
    out, unless the application has asked for them.  And a write that
    succeeds has taken all bytes, unless the transfer is paused. *)
Theorem ws_frames_heard {N} `{WsNetLaws N} data wait next_writer next_flush ops type buf n o :
  app_ok next_writer -> flush_ok next_flush -> has_ws data = true -> ws_raw_mode data = false -> is_in_callback data = false ->
  net_told n = [] -> Forall cw_op_ok ops -> cw_op_ok (CwWrite type buf) ->
  exists r s', cw_run data wait next_writer next_flush (ops ++ [CwWrite type buf]) (ws_start n o) = Some (r, s') /\
  (r = inr tt -> exists c rest pos fs, fed ops ++ buf = c ++ rest /\ ws_bytes (PHead None []) c = (pos, fs) /\ pos <> PBad /\
     frames_of [] (heard data (st_net s')) = Some (app_frames data fs, open_part data pos) /\
     (rest = [] \/ Curl_cwriter_is_paused (st_net s') = true)).
Proof.
  intros Ha Hf Hws Hraw Hcb Hn Hops [Ht Hb].
  destruct (cw_run_inv data wait next_writer next_flush ops Ha Hf Hws Hraw Hcb Hops (ws_start n o) [] [])
    as (r & s1 & E & Hr); [by apply start_inv|apply Forall_nil_2|].
  assert (Happ : forall a s, cw_run data wait next_writer next_flush (a ++ [CwWrite type buf]) s =
    (cw_run data wait next_writer next_flush a;; ws_cw_write data wait next_writer type buf;; mret tt) s).
  { induction a as [|op a IH]; intros s; cbn [app cw_run]; [done|]. rewrite bind_bind. unfold mbind, W_bind.
    destruct (cw_step data wait next_writer next_flush op s) as [[[e|[]] s2]|]; [done| |done]. apply IH. }
  rewrite Happ. destruct r as [e|[]]; [rewrite (bind_err _ _ _ _ _ E); by do 2 eexists|]. rewrite (bind_ok _ _ _ _ _ E).
  destruct (Hr eq_refl) as (c & rest & Er & Hi). cbn [app] in Er, Hi.
  assert (Hfed : bytes_ok (fed ops)).
  { clear -Hops. unfold fed. induction Hops as [|op ops Hop _ IH]; [apply Forall_nil_2|]. cbn. apply bytes_ok_app. split; [|done].
    destruct op; [apply Hop|apply Forall_nil_2..]. }
  destruct (cw_write_inv data wait next_writer Ha Hws Hraw Hcb type buf s1 c rest Ht Hi) as (r & s' & E' & Hr').
  { apply bytes_ok_app. split; [|done]. rewrite Er in Hfed. by apply bytes_ok_app in Hfed as [_ ?]. }
  destruct r as [e|[]]; [rewrite (bind_err _ _ _ _ _ E'); by do 2 eexists|]. rewrite (bind_ok _ _ _ _ _ E').
  do 2 eexists. split; [done|]. intros _. destruct (Hr' eq_refl) as (c2 & rest' & Er' & (_ & _ & pos & fs & Ew & Hd & Hh) & Ht').
  exists (c ++ c2), rest', pos, fs. split; [by rewrite Er, <- !app_assoc, Er'|]. split; [done|]. split; [by intros ->|]. by split.
Qed.

Lemma ws_frames_heard_witness : exists s' c rest pos fs,
  cw_run (demo_easy false true) 0 demo_writer demo_flush
    ([CwWrite CLIENTWRITE_BODY [129; 2; 72]; CwFlush] ++ [CwWrite CLIENTWRITE_BODY [105; 137; 1; 33]])
    (ws_start (mk_demo [] [] [] []) []) = Some (inr tt, s') /\
  [129; 2; 72; 105; 137; 1; 33] = c ++ rest /\ ws_bytes (PHead None []) c = (pos, fs) /\ pos <> PBad /\
  frames_of [] (heard (demo_easy false true) (st_net s')) = Some (app_frames (demo_easy false true) fs, open_part (demo_easy false true) pos) /\
  frames_of [] (heard (demo_easy false true) (st_net s')) = Some ([(CURLWS_TEXT, [72; 105]); (CURLWS_PING, [33])], []).
Proof.
  pose (ops := [CwWrite (N := demo_net) CLIENTWRITE_BODY [129; 2; 72]; CwFlush]).
  destruct (ws_frames_heard (demo_easy false true) 0 demo_writer demo_flush ops CLIENTWRITE_BODY [105; 137; 1; 33] (mk_demo [] [] [] []) [])
    as (r & s' & E & Hr).
  - exact demo_writer_ok.
  - exact demo_flush_ok.
  - reflexivity.
  - reflexivity.
  - reflexivity.
  - reflexivity.
  - apply Forall_cons_2; [|apply Forall_cons_2; [exact I|apply Forall_nil_2]]. split; [reflexivity|]. by_compute.
  - split; [reflexivity|]. by_compute.
  - assert (Eq : match cw_run (demo_easy false true) 0 demo_writer demo_flush (ops ++ [CwWrite CLIENTWRITE_BODY [105; 137; 1; 33]])
                     (ws_start (mk_demo [] [] [] []) []) with
                 | Some (inr _, s2) => frames_of [] (heard (demo_easy false true) (st_net s2))
                 | _ => None
                 end = Some ([(CURLWS_TEXT, [72; 105]); (CURLWS_PING, [33])], [])) by (vm_compute; reflexivity).
    rewrite E in Eq. destruct r as [e|[]]; [discriminate Eq|]. destruct (Hr eq_refl) as (c & rest & pos & fs & H1 & H2 & H3 & H4 & _).
    exists s', c, rest, pos, fs. split; [exact E|]. split; [exact H1|]. split; [exact H2|]. split; [exact H3|]. split; [exact H4|exact Eq].
Defined.

(** * Frames that go out *)

Lemma start_idle {N} `{WsNetLaws N} (n : N) o : net_out n = [] -> idle (ws_start n o) false [].
Proof. intros Hn. split; [split; [by apply new_queue|by vm_compute]|]. by split_and!. Qed.

(** C40: an application that sends messages, one after the other, and gives the bytes
    that a call has not taken to the next call, with anything going on at
    the socket in between, never makes the sender leave its memory or run
    forever.  Whatever goes wrong, a server has got the front of a stream of
    frames of these messages, masked and in this order.  And when
    all calls have succeeded, a server that reads what it got as RFC 6455
    says finds exactly these messages, and nothing is left behind. *)
Theorem ws_send_messages {N} `{WsNetLaws N} data wait msgs n o :
  good_handle data = true -> has_conn data = true -> has_ws data = true -> ws_raw_mode data = false -> is_in_callback data = false ->
  net_out n = [] -> Forall (fun m => Forall world_ok m.2) msgs -> messages_ok None (msgs.*1) = true ->
  exists r s' l, send_messages data wait msgs (ws_start n o) = Some (inr r, s') /\
  wire_ok None (take (length l) (msgs.*1)) l /\ net_out (st_net s') `prefix_of` wire l /\
  (is_ok r = true -> srv_read (length msgs) None (net_out (st_net s')) = Some (msgs.*1)).
Proof.
  intros Hg Hc Hws Hraw Hcb Hn Hw Hm.
  destruct (send_messages_spec data wait Hcb Hg Hc Hws Hraw msgs Hw None (ws_start n o) [] (start_idle n o Hn) Hm)
    as (r & s' & l & E & Hl & Hpre & Hok).
  exists r, s', l. split; [done|]. split; [done|]. split; [done|]. intros Hr. destruct (Hok Hr) as [-> Hlen].
  rewrite Hlen, take_ge in Hl by (by rewrite length_fmap). apply srv_read_spec; [done|]. by rewrite length_fmap.
Qed.

(** Two frames of a message with a ping between them, over a socket that takes five
    bytes, then would block twice, and then has room. *)
Lemma ws_send_messages_witness : exists r s' l,
  let msgs := [((OpData Text true, [72; 105]), []); ((OpPing, [33]), [id; id]); ((OpData Text false, []), [id; id])] in
  send_messages (demo_easy true false) 0 msgs (ws_start (mk_demo [] [] [100; 5; 0; 0] []) []) = Some (inr r, s') /\ r = CURLE_OK /\
  wire_ok None (take (length l) (msgs.*1)) l /\ net_out (st_net s') `prefix_of` wire l /\
  (is_ok r = true -> srv_read (length msgs) None (net_out (st_net s')) = Some (msgs.*1)).
Proof.
  pose (msgs := [((OpData Text true, [72; 105]), []); ((OpPing, [33]), [id; id]); ((OpData Text false, []), [id; id])] : list (rframe * list (demo_net -> demo_net))).
  assert (Hid : world_ok (N := demo_net) id) by (intros n; reflexivity).
  destruct (ws_send_messages (demo_easy true false) 0 msgs (mk_demo [] [] [100; 5; 0; 0] []) []) as (r & s' & l & E & H1 & H2 & H3);
    [reflexivity..| | |].
  - apply Forall_cons_2; [apply Forall_nil_2|]. do 2 (apply Forall_cons_2; [do 2 (apply Forall_cons_2; [exact Hid|]); apply Forall_nil_2|]). apply Forall_nil_2.
  - reflexivity.
  - exists r, s', l. split; [exact E|]. split; [|split; [exact H1|split; [exact H2|exact H3]]].
    assert (Eq : match send_messages (demo_easy true false) 0 msgs (ws_start (mk_demo [] [] [100; 5; 0; 0] []) []) with
                 | Some (inr r, _) => r
                 | _ => CURLE_FAILED_INIT
                 end = CURLE_OK) by (vm_compute; reflexivity).
    rewrite E in Eq. exact Eq.
Defined.
