(* ===== verification/WsCases.v ===== *)
(** WebSocket connections (lib/ws.c): cases in which the code does not do what
    it means to.  The world is that of WsDemo.v, with the mask 1, 2, 3, 4. *)

From Stdlib Require Import ZArith Lia List.
From stdpp Require Import base numbers option list.
From S2P Require Import Prelude Dynbuf Bufq Ws WsConn WsRecv WsRef WsSend WsDecode WsDemo WsWire.
Close Scope nat_scope.
Open Scope Z_scope.

Section cases.
Abbreviation W := (WsConn.W (N := demo_net)).

Definition demo : Curl_easy := demo_easy true false.
Definition send (b : list Z) (flags : Z) : W (CURLcode * Z) := curl_ws_send demo 10 (Some b) (zlen b) true 0 flags.
Definition recv (buflen : Z) : W (CURLcode + list Z) := wtry (curl_ws_recv demo 10 5 5 true buflen).
Definition frame_open : W Z := w ← get_ws; mret (e_payload_remain (w_enc w)).

(** The result and the bytes that went out. *)
Definition wired {A} (m : W A) (s : ws_state) : option ((CURLcode + A) * list Z) :=
  '(r, s) ← m s; Some (r, dn_out (st_net s)).

(** A message is blocked.  Before the application tries again it receives: a ping
    is answered, and with the pong the message goes out.  Nobody tells the
    sender, so the second try writes another head, but no payload, and
    reports that all is sent: the server takes the next frame for the payload. *)
Definition blocked_send : W (CURLcode * Z * (CURLcode + list Z) * (CURLcode * Z) * Z) :=
  r1 ← send [65; 66] CURLWS_BINARY; m ← recv 10; r2 ← send [65; 66] CURLWS_BINARY; left ← frame_open; mret (r1, m, r2, left).

Example blocked_send_twice :
  wired blocked_send (demo_start [0] [[137; 0]; [129; 1; 33]]) =
  Some (inr (CURLE_AGAIN, 0, inr [33], (CURLE_OK, 2), 2),
    [130; 130; 1; 2; 3; 4; 64; 64; 138; 128; 1; 2; 3; 4; 130; 130; 1; 2; 3; 4]).
Proof. vm_compute. reflexivity. Qed.

(** With a buffer that has fewer bytes than the stale count the second try reads
    behind it: [buflen] wraps. *)
Example blocked_send_wraps :
  (send [65; 66] CURLWS_BINARY;; recv 10;; send [65] CURLWS_BINARY) (demo_start [0] [[137; 0]; [129; 1; 33]]) = None.
Proof. vm_compute. reflexivity. Qed.

(** A pong is added to a full buffer: its head is written, its payload is not,
    and it stays pending. *)
Example pong_in_full_buffer :
  match (send [1; 2; 3; 4; 5; 6; 7; 8; 9; 10] CURLWS_BINARY;; recv 10) (demo_small 8 [0; 0] [[137; 1; 66]; [129; 1; 33]]) with
  | Some (inr (inr [33]), s) =>
      e_payload_remain (w_enc (st_ws s)) = 1 /\ c_type (w_pending (st_ws s)) = CURLWS_PONG /\
      Curl_bufq_len (w_sendbuf (st_ws s)) = 22
  | _ => False
  end.
Proof. vm_compute. by_compute. Qed.

(** A ping whose payload comes in two pieces: the first is given to the
    application as a ping, the pong has the second only. *)
Example ping_in_pieces :
  wired (a ← recv 10; b ← recv 10; mret (a, b)) (demo_start [] [[137; 3; 65]; [66; 67]; [129; 1; 33]]) =
  Some (inr (inr [65], inr [33]), [138; 130; 1; 2; 3; 4; 67; 65]).
Proof. vm_compute. reflexivity. Qed.

(** The first call for a frame of three bytes is given five: they are not refused as
    the other calls do, the three are sent and counted, and the result is
    to try again. *)
Example first_call_too_long :
  wired (curl_ws_send demo 10 (Some [1; 2; 3; 4; 5]) 5 true 3 (Z.lor CURLWS_BINARY CURLWS_OFFSET)) (demo_start [] []) =
  Some (inr (CURLE_AGAIN, 3), [130; 131; 1; 2; 3; 4; 0; 0; 0]).
Proof. vm_compute. reflexivity. Qed.

(** A read callback starts a frame of two bytes and gives three: the third is lost. *)
Example reader_loses_bytes :
  match cr_ws_read demo (fun _ => curl_ws_start_frame demo CURLWS_TEXT 2;; mret ([65; 66; 67], false)) (mret tt) (mk_cr false false) 100
          (demo_start [] []) with
  | Some (inr (_, r, b, _), s) =>
      r = CURLE_OK /\ b = [129; 130; 1; 2; 3; 4; 64; 64] /\ e_payload_remain (w_enc (st_ws s)) = 0 /\ Curl_bufq_len (w_sendbuf (st_ws s)) = 0
  | _ => False
  end.
Proof. vm_compute. by_compute. Qed.

(** Random numbers that cannot be had. *)
Definition no_random : WsNet demo_net := {|
  randit := fun n => (n, CURLE_FAILED_INIT, 0);
  easy_connection := easy_connection;
  Curl_conn_send := demo_send;
  Curl_timeleft_ms := Curl_timeleft_ms;
  socket_bad := socket_bad;
  SOCKET_WRITABLE := SOCKET_WRITABLE;
  curl_easy_recv := demo_recv;
  Curl_connect_only_attach := Curl_connect_only_attach;
  Curl_cwriter_is_paused := Curl_cwriter_is_paused
|}.

(** A call that fails for want of them leaves a frame open: the next call, when they
    are back, sends its payload without a head. *)
Example frame_without_head :
  wired (r1 ← curl_ws_send (H := no_random) demo 10 (Some [65; 66]) 2 true 0 CURLWS_TEXT; r2 ← send [65; 66] CURLWS_TEXT; mret (r1, r2))
    (demo_start [] []) = Some (inr (CURLE_FAILED_INIT, 0, (CURLE_OK, 2)), [65; 66]).
Proof. vm_compute. reflexivity. Qed.
End cases.
